(* ===== verification/_CoqProject ===== *)
-Q . S2P
Prelude.v
Text.v
Format.v
Json.v
ClusterProtocol.v
Journal.v
ClusterConfig.v
WorkerNode.v
Registry.v
Scheduler.v
Placement.v
WorkerJobRow.v
Reconcile.v
MsgStore.v
PlainText.v
CodexStderr.v
Tracker.v
Delivery.v
Admission.v
MountHealth.v
JobCgroup.v
Interaction.v
WorkerJob.v
Worker.v
Lifecycle.v
Browser.v
Gateway.v
Fragment.v
DeliveryRow.v
Wakeups.v
DeliveryRules.v
CommentDelivery.v
CommentMachine.v
CommentFacts.v
CommentRuns.v
RelaySigning.v
RelayFrames.v
Pairing.v
QueuedMessages.v
Pipelines.v
Redact.v
Remediation.v
Metrics.v
McpOAuth.v
McpOAuthServer.v
McpOAuthRuns.v
ClusterMetrics.v
MetricsPatch.v
SortBy.v
McpRefresh.v
McpRefreshRuns.v
McpConfig.v
SharedMcp.v
SharedMcpFacts.v
Shell.v
ClaudeTypes.v
Claude.v
ClaudeFacts.v
Approvals.v
ApprovalRuns.v
Workspaces.v
WorkspaceFacts.v
Reclaim.v
Archiving.v
ArchivingFacts.v
Chains.v
ChainFacts.v
