(* ===== verification/Prelude.v ===== *)
(** * Vibe Kanban: clustered execution, verified

    Vibe Kanban runs coding agents on workspaces.  In a cluster, a coordinator
    (the server) places workspaces on worker machines, dispatches executions to
    them, follows each execution through a journal of events, and records its end
    in its database.  This library models that subsystem of the Rust sources under
    src/crates, with the message store and the log processing every execution's
    output goes through, the control of shared browser sessions, the access of paired
    remote clients through the relay, the queue of follow-up messages, the approvals agents
    ask for, the table of workspaces with their placement and archiving, the node
    metrics, the OAuth server of the MCP endpoint and the configuration and refresh of MCP
    servers, and proves what makes them correct.  Definitions carry the file and lines
    they translate.

    ** The parts and how they interact

    - worker: [Journal] (worker/src/journal.rs) numbers and retains the events of
      one execution; [WorkerJob] (the job half of worker/src/execution.rs) is the
      job around it: its state, child process, persisted summary and output;
      [Worker] (the supervisor half) is the table of jobs with dispatch,
      acknowledgement, draining, session quiescing and recovery after a restart;
      [Admission] (pressure.rs, path_authority.rs) is what dispatch checks;
      [Interaction] (interaction.rs) hands answers to waiting jobs; [Lifecycle]
      (cancellation.rs, and the operations of a job taken together) ends a job.
      [MountHealth] (mount_health.rs) produces the evidence the coordinator's registry
      judges; [JobCgroup] (job_cgroup.rs) keeps a job's processes in its cgroup.
    - protocol: [ClusterProtocol] (cluster-protocol/src/lib.rs) holds the messages.
    - coordinator: [ClusterConfig] (services/.../cluster/config.rs), [Registry]
      (registry.rs) over the table [WorkerNode] (db/src/models/worker_node.rs),
      [Scheduler] (scheduler.rs), [WorkerJobRow] and [ProcessRow]
      (db/src/models/execution_worker_job.rs and execution_process.rs),
      [Reconcile] (reconcile.rs), and [Tracker] (track_worker_msgs_in_store of
      local-deployment/src/container.rs with the batch check of cluster/client.rs).
    - log: [LogMsg], [EntryTimestamps] and [MsgStore] (utils/src/log_msg.rs and
      msg_store.rs), in MsgStore.v.  [PlainText] (executors/src/logs/
      plain_text_processor.rs with its line buffer and entry index) cuts the text of an
      agent into entries; [CodexStderr] (executors/codex/normalize_logs.rs) is the
      configuration of it for one agent's stderr.  [Logs] and [Wire] in ClaudeTypes.v are the
      entries of a conversation and the messages of Claude Code; [ClaudeLog] in Claude.v
      (executors/src/executors/claude.rs) turns its output into patches of the conversation,
      with [Shell] (logs/utils/shell_command_parsing.rs) for the commands; ClaudeFacts.v has
      the theorems.
    - browser: [Arbiter] (services/.../browser/arbiter.rs, types.rs) is the control
      lease of a session, [Gateway] (session.rs) the concurrent command gateway
      over it, as a machine whose events are the code's lock-protected sections.
    - relay: [Fragment] (relay-webrtc/src/fragment.rs) cuts messages into chunks;
      [RelaySigning] (relay-control/src/signing.rs) verifies signed requests against
      sessions and nonces; [RelayFrames] (relay-protocol, relay-ws) is the signed
      WebSocket channel; [Pairing] (trusted-key-auth, server/src/relay_pairing) decides
      who gets a signing session.
    - sessions: [QueuedMessages] (services/.../queued_message.rs) keeps the follow-up
      message of a session and its reservation by a restart.
    - approvals: [Approvals] (services/.../approvals.rs with executor_approvals.rs and the
      patches of events/patches.rs) has the operations as programs of the type [Task];
      [ApprovalRuns] runs any number of them, with the one-shot channels, the time-outs and
      the broadcast to viewers.
    - workspaces: [Workspaces] (db/src/models/workspace.rs) is the table with the placement
      of a workspace, its archive intents and its creation; WorkspaceFacts.v takes its
      operations in any order; [Reclaim] (local-deployment/src/container.rs) interleaves the
      sweep that removes idle worktrees with the dispatch of executions.  [Archiving]
      (services/.../pr_monitor.rs, remote_sync.rs, container.rs, db/src/models/pull_request.rs)
      is what archives workspaces by itself: pull requests, the intents of the remote server and
      what activity puts off; ArchivingFacts.v has the theorems.  [Chains] (services/.../
      container.rs, local-deployment/src/container.rs, executors/src/actions) chains the
      scripts of a workspace's repositories around the agent and decides what follows the end
      of each; ChainFacts.v runs whole chains.
    - issues: comments on an issue are handed to agent sessions.  [DeliveryRow]
      (db/src/models/issue_comment_delivery.rs) is the ledger, [Wakeups] (wakeup.rs and
      server/src/wakeups.rs) the timers that use it, [DeliveryRules]
      (services/.../issue_comment_delivery.rs) the choice of the session and the prompt.
      [Dispatcher] in CommentDelivery.v (server/src/issue_comment_delivery.rs) is the
      service, as programs of the type [Task]; [Machine] in CommentMachine.v runs any
      number of them, statement by statement; CommentFacts.v has the theorems, by a logic
      of what a task knows, and CommentRuns.v an interpreter with concrete runs.
      [PipelineBlock] (api-types/src/pipeline_block.rs) composes the stages an issue asks for;
      [Remediation] and [Repairs] (services/... and server/src/error_remediation.rs)
      turn a failed turn into an issue and a repair.
    - node metrics: [Redact] (node-metrics/src/redact.rs) masks secrets on command lines;
      [Metrics] (parse.rs, derive.rs, sampler.rs) reads and samples the host.
      [ClusterMetrics] (services/.../cluster/metrics.rs) collects the samples of every
      node, with [Collector] its task, and [MetricsPatch] (server/src/routes/
      cluster_metrics/patch.rs) sends them to viewers as patches.
    - OAuth: [McpOAuth] (db/src/models/mcp_oauth.rs) has the tables of the server that
      guards the MCP endpoint, [OAuthServer] (server/src/mcp_oauth) its handlers as
      programs of statements, [OAuthRuns] any number of them interleaved.
    - MCP servers of the agents: [McpConfig] (executors/src/mcp_config.rs) and
      [SharedMcp] (shared_mcp_config.rs) translate between the configuration files of the
      agents, over [Serde] (JSON values) and [SortBy]; SharedMcpFacts.v has the theorems.
      [McpRefresh] (services/.../mcp_refresh.rs) records what an agent has reloaded, and
      [RefreshRuns] (the tasks of local-deployment/src/container.rs that use it) interleaves
      refreshes, restarts and executions.
    - across parts: [Placement] runs the registry's operations on the worker table
      and connects them to the scheduler; [Delivery] connects the worker's journal
      to the coordinator's tracker and rows; [MountHealth] is composed with the registry,
      [Pairing] with [RelaySigning], [CodexStderr] with [PlainText] and the redactor
      with the command-line reader of [Metrics].
    - generic: this file; [Text] and [Format] (Rust string operations); [Json] (the views
      of [serde_json::Value] as the class [JsonValue], and binary64 order).

    ** How code becomes definitions

    State is a record, a handler a function from the state and the message to the
    state and the answer; [Result] is [result] with [?] as [let?]; a panic is
    [Panicked]; machine integers are [Z] with the checked, saturating or
    reinterpreting operation the code uses; a SQL statement is a function on a
    finite map.  A section of code under one lock is one step; [Lifecycle.Race]
    splits [transition] into its two locks.  Clock readings, answers of the
    operating system, of the file system and of the other machine are arguments.
    A [str] is a [string] of its UTF-8 bytes.

    Third-party code is a parameter, with what is used of it as a hypothesis: of chrono
    the exactness of addition; the classes [Primitives] with [PrimitiveLaws] (Ed25519,
    SHA-256, base64, the text of a UUID), [Enrollment] (the SPAKE2 exchange and the
    random codes), [EnvelopeJson] with its laws (serde's JSON of a signed envelope),
    [CharClass] (Unicode's tables), [JsonValue], [CommentText] and [StoredAction] with their
    laws (the text of UUIDs and instants, the JSON escapes of a stored prompt), [Normalizer] (the
    regular expressions of error remediation), [WebLibs] with [WebLaws] (URLs, base64url and
    SHA-256, the JSON of a list of URIs); and functions for the removal of ANSI
    escapes, the regular expression for the head of a log record, and floating-point
    percentages; [ShellLibs] with its law [AsciiLetters] and [ClaudeLibs] (shlex, lower-casing, JSON, paths,
    diffs and images); [julianday], as
    precise as SQLite makes it.  [MountInspector] and the tables of processes in [JobCgroup] are the
    answers of the operating system.  Theorems that use laws have a witness with a
    concrete instance.

    ** What is shown

    - Delivery of results: the journal refines an append-only history
      ([Journal.refines]) and keeps the interface [EventSource]; every reader of
      that interface gets each event once or is told of a gap
      ([Delivery.polls_deliver_exactly_once]); evidence of the end is kept
      ([Journal.terminal_event_is_kept]) and reaches the rows
      ([Delivery.terminal_evidence_delivered]); a tracker finishes only with its
      row ([Tracker.poll_finishes_with_row]) and never persists a cursor past an
      unanswered interaction ([Tracker.durable_cursor_safe]).
    - Execution at most once, and only where admitted: [Worker.dispatch_*],
      [PathAuthority.working_directory_confined], [Pressure.refuses_iff].
    - Lifecycle: evidence is final and the state agrees with it as long as each
      operation runs undisturbed ([JobOps]); what a cancellation sends and reports
      ([Cancellation.cancel_outcome]); drained means idle; a restarted worker owns
      no running work; processes are placed in the cgroup of the nearest job above them
      ([JobCgroup.placement_sound_and_complete]).
    - Reconciliation: never finishes an execution itself, keeps the tables in
      agreement, leaves no orphan, reports every worker.
    - Placement: an eligible worker is backed by recent evidence of the right
      mount; a mount check that succeeds is one the registry accepts exactly when it is
      the configured share ([MountCheck.accepted_mount_is_shared]), and it touches
      nothing but the share; selection is a minimum, whatever the order of the table; a
      drain survives everything but its own end and [mark_offline].
    - Log: the handoff from history to live loses and repeats nothing but what a lag error tells a
      slow reader it missed ([MsgStore.handoff_exactly_once]); the history
      stays in its byte budget, observation times stay with their entries; the entries
      of a plain-text stream hold the stream ([PlainText.entries_hold_the_stream]), and
      the processor for codex terminates on every chunk.  Of Claude Code every patch applies,
      those of the normaliser of the standard error on the same conversation included as long
      as their turns do not overlap, answers are shown, and how the output is cut into chunks
      does not matter (ClaudeFacts.v).
    - Browser: the generation identifies the controller, agents displace nobody, the
      driver performs one command at a time and only the controller's, and each
      command at most once ([GatewayFacts]).
    - Relay: fragmenting and joining round-trips for every sequence of messages; a signed
      request is accepted at most once, its signature binds every field, a rejected one
      changes nothing; the rate limit holds as far as readings of the clock are not late; what a
      channel delivers is a prefix of what was sent; only clients
      that proved the enrollment code are trusted, one client per code.
    - Sessions: a reservation of a queued message is resolved once and its message kept,
      and waiters are woken.
    - Approvals: however answers, time-outs and cancellations interleave, an accepted answer is
      the only one, of the kind that was asked for, and the one its agent is told unless its
      turn was cancelled first; and what viewers are sent is what is pending ([ApprovalRuns]).
    - Workspaces: the table stays well-formed; placements move along their edges; an automatic
      archive is admitted exactly when nothing speaks against it, and an explicit unarchiving is
      respected; the monitor's pass over open intents archives nothing by an intent the remote
      server has withdrawn, and makes up for an archive that was put off; the sweep takes exactly the idle; a claim for cleanup fences the dispatches
      that have not yet read the placement, and the workspace has only the jobs that were
      settled then ([Reclaim.claim_fences_dispatches]).
    - Chains: a workspace runs the setup scripts, the agent and the cleanup scripts in order
      (ChainFacts.v), the cleanup scripts on this server only after changes; an end of an execution
      is followed by the next one, by the queued message or by the turn boundary, a setup
      script without successor apart; an interrupted agent is resumed once.
    - Issues: whatever tasks interleave, a comment whose turn was launched is not sent to
      that session again unless its row allows it ([Delivery.comment_launched_once]), a settled
      delivery changes only by the deletion of what it refers to ([Delivery.settled_is_final]); the markers of a prompt are its comments; every
      delivery is shown; the stages of an issue keep every pipeline's order
      ([PipelineBlock.canonical_order]).  Repairs start exactly as their history allows
      ([Remediation.guard_decides_by_history]), an issue gives back the errors it was filed for, and
      so a failure that is known does not start another repair
      ([Repairs.known_failure_not_relaunched]).
    - Node metrics: secrets the rules recognise never reach the output of the redactor, and a gap
      is reported exactly when samples were missed; a viewer's patched document is the
      snapshot ([MetricsPatch.patch_stream_exact]), and patches are small.
    - OAuth: whatever requests interleave, a code gives one grant and a refresh token is
      rotated once, only consented requests are admitted, revocation is final, and a replay
      ends the grant ([OAuthRuns]).
    - MCP servers: a refresh is confirmed only by an execution that started after it
      ([RefreshRuns.confirmed_by_later_start]), and what is published names every server;
      a server written for an agent reads back as itself, every entry of every file is shown
      once, and a save does what it was asked ([SharedMcpFacts]).
    - Defects: [Delivery.recovered_tail_is_lost] (a restarted worker's terminal
      event can stay invisible), [Race.cancel_exit_race] (a finished job stuck in
      [Cancelling]), [GatewayFacts.late_publication_wins] (observers of a browser
      session left with an older controller), [Gateway.disconnect_reexecutes],
      [Placement.mark_offline_ends_drain], [Scheduler.refusing_worker_can_win],
      [PlainText.gap_loses_output] (lines buffered before a pause lost with the entry),
      [Redact.flag_value_is_shown] (a value joined to an unlisted flag is not masked),
      [Runs.uncertain_resent_elsewhere] (a comment a worker may be running is sent to another
      session), [Runs.recovery_takes_a_live_row] (the delivered text is lost),
      [DeliveryRules.quoted_text_forges_evidence] (a comment that quotes an escaped marker),
      [SampleRun.control_name_is_empty], [SampleViewer.hidden_break_diverges],
      [SampleViewer.contact_time_is_not_patched], [SampleViewer.restart_skips_samples],
      [SampleRefresh.late_refusal_hits_restart] (a late answer fails a newer restart),
      [SampleServers.disabled_gateway_entry_leaks] (the gateway's capability is shown),
      [SampleServers.sse_type_is_lost], [SampleClaude.amp_restart_keeps_blocks],
      [SampleApprovals.wrong_answer_cancels_time_out] (a request left open for ever),
      [SampleApprovals.announced_before_subscribed], [SampleApprovals.answered_before_announced],
      [SampleApprovals.cancelled_is_recorded_as_timed_out],
      [SampleReclaim.dispatch_slips_through] (a worktree is removed under an open job),
      [SampleWorkspaces.reassigned_while_cleaning], [SampleWorkspaces.unused_is_never_swept],
      [SampleWorkspaces.swept_early_in_the_east], [SampleArchiving.last_one_closed],
      [SampleArchiving.stale_remote_intent_replayed], [SampleArchiving.change_lost_in_sync],
      [SampleChains.second_cleanup_is_not_finalised] (a turn that never ends),
      [SampleChains.second_archive_script_activates], [SampleChains.failed_cleanup_goes_on],
      [SampleChains.queued_overtakes_setup], [SampleChains.worker_leaves_message_waiting],
      [SampleClaude.lost_to_a_race] (a patch beyond the end of the conversation),
      [KeyAuth.stale_reading_admits_more] (a limit exceeded by a clock read before a lock).

    ** Bounds and fuel

    Most loops are bounded by their lists, and the code's endless loops (the tracker's
    poll loop, [run_job], the waiting loops of [QueuedMessages]) are modelled as their
    turns, which theorems iterate.  Fuel is the length of the argument where a loop
    consumes it from the front: [Text.trim_start], [Format.split_whitespace],
    [Format.replace], [Redact.chars], [ProcParse.split_once_white] and [Fragment.chunks]
    (functions of Rust's standard library), of which every step drops an element; so does every
    unwrapping of [Shell] ([Shell.unwrap_finishes]).  The loop of
    [PipelineBlock] has the number of stages ([PipelineBlock.loop_finishes]).  The poll of a
    worker's refresh runs at most [RefreshRuns.POLLS] = 31 turns: each but the last waits a
    second, and the code stops after thirty.  The two
    loops of [PlainText.process] have one more than the number of buffered lines, and
    return nothing when it runs out; [PlainText.process_returns] proves they return when
    the boundary predicate makes progress, as the one for codex does.  Sequence numbers and
    generations are [u64]; hypotheses such as [js_last_sequence s + 2 <= u64_max]
    mark where the code would report exhaustion or a generation would wrap.

    ** What is not modelled

    HTTP and WebSocket transports; the executors (the launch of agent processes, their control
    protocols and the normalisers of the other agents, each a vendor's protocol of its own);
    git, worktree and workspace management, whose state is the repository on disk; the files
    MCP servers are configured in; the worker's terminal, preview and recovery files; the
    statements of the other tables; the remote service, the relay's tunnels and signalling,
    the desktop crates and the front end: they are I/O, vendor protocols or independent
    services, and what remains of them is mostly calls whose results the model would have to
    take as arguments. Database errors
    are not modelled beyond the statements' own constraints, so write-retry loops
    run once. *)
From stdpp Require Export base tactics option list numbers gmap strings.
From stdpp Require Export sorting.

#[global] Open Scope Z_scope.

(** ** Results

    Rust's [Result<T, E>], with the [?] operator as [let?] and
    [ok_or] / [map_err] as functions. *)

Inductive result (A E : Type) : Type :=
| Ok (a : A)
| Err (e : E).
Arguments Ok {A E} a.
Arguments Err {A E} e.

Declare Scope vk_scope.
Delimit Scope vk_scope with vk.
#[global] Open Scope vk_scope.

Definition rbind {A B E} (r : result A E) (k : A -> result B E) : result B E :=
  match r with Ok a => k a | Err e => Err e end.

Notation "'let?' x := e 'in' k" := (rbind e (fun x => k))
  (at level 10, x pattern, e at level 100, k at level 200) : vk_scope.

Definition map_err {A E F} (f : E -> F) (r : result A E) : result A F :=
  match r with Ok a => Ok a | Err e => Err (f e) end.

Definition ok_or {A E} (o : option A) (e : E) : result A E :=
  match o with Some a => Ok a | None => Err e end.

Definition is_ok {A E} (r : result A E) : bool :=
  match r with Ok _ => true | Err _ => false end.

Definition is_err {A E} (r : result A E) : bool := negb (is_ok r).

Lemma rbind_ok {A B E} (r : result A E) (k : A -> result B E) b :
  rbind r k = Ok b <-> exists a, r = Ok a /\ k a = Ok b.
Proof. destruct r; cbn; split; [eauto|by intros (?&[=<-]&?)|done|by intros (?&?&?)]. Qed.

Lemma rbind_err {A B E} (r : result A E) (k : A -> result B E) e :
  rbind r k = Err e <-> r = Err e \/ exists a, r = Ok a /\ k a = Err e.
Proof.
  destruct r; cbn; split.
  - eauto.
  - by intros [?|(?&[=<-]&?)].
  - by intros [=->]; left.
  - by intros [[=->]|(?&?&?)].
Qed.

Lemma map_err_ok {A E F} (f : E -> F) (r : result A E) a :
  map_err f r = Ok a <-> r = Ok a.
Proof. destruct r; split; [by intros [= ->]|by intros [= ->]|done|done]. Qed.

Lemma ok_or_ok {A E} (o : option A) (e : E) a : ok_or o e = Ok a <-> o = Some a.
Proof. destruct o; split; [by intros [= ->]|by intros [= ->]|done|done]. Qed.

(** [ok_inv] turns "the whole chain of calls succeeded" into the success of each. *)
Ltac ok_inv :=
  repeat match goal with
  | H : rbind _ _ = Ok _ |- _ => apply rbind_ok in H as (? & ? & ?)
  | H : map_err _ _ = Ok _ |- _ => apply map_err_ok in H
  | H : ok_or _ _ = Ok _ |- _ => apply ok_or_ok in H
  end.

(** The same as rewriting, for goals. *)
Create Rewrite HintDb results.
#[export] Hint Rewrite @rbind_ok @map_err_ok @ok_or_ok : results.

(** A call on state [S] that returns, or panics after leaving the state as it
    was at that point. *)
Inductive outcome (S A : Type) : Type :=
| Returned (s : S) (a : A)
| Panicked (s : S).
Arguments Returned {S A} s a.
Arguments Panicked {S A} s.

Definition outcome_state {S A} (o : outcome S A) : S :=
  match o with Returned s _ => s | Panicked s => s end.

(** ** Scalars

    A [Uuid] is its 128-bit value, whose numeric order is the byte order the
    code sorts by.  A [DateTime] and a [Duration] count nanoseconds.  Machine
    integers are [Z] with the Rust operations on them. *)

Abbreviation Uuid := N.
Abbreviation DateTime := Z.
Abbreviation Duration := Z.

Definition u16_max : Z := 65535.
Definition u32_max : Z := 4294967295.
Definition u64_max : Z := 18446744073709551615.
Definition usize_max : Z := u64_max.

Definition nanos_per_second : Z := 1000000000.
Definition from_secs (s : Z) : Duration := s * nanos_per_second.

Definition checked_add (max x y : Z) : option Z :=
  if decide (x + y <= max) then Some (x + y) else None.

Definition saturating_add (max x y : Z) : Z := Z.min max (x + y).
Definition saturating_sub (x y : Z) : Z := Z.max 0 (x - y).

Lemma checked_add_Some max x y z :
  checked_add max x y = Some z <-> z = x + y /\ x + y <= max.
Proof. unfold checked_add. case_decide; split; [by intros [=<-]|by intros [-> _]|done|lia]. Qed.

Lemma checked_add_None max x y :
  checked_add max x y = None <-> max < x + y.
Proof. unfold checked_add. case_decide; split; [done|lia|lia|done]. Qed.

(** [x as i64] of a [u64] reinterprets the bits. *)
Definition i64_max : Z := 9223372036854775807.
Definition u64_as_i64 (x : Z) : Z :=
  if decide (x <= i64_max) then x else x - (u64_max + 1).

(** The length of a [String] or [&str] in bytes. *)
Definition str_len (s : string) : Z := Z.of_nat (String.length s).

(** ** Lists *)

(** Folding a step that keeps an invariant keeps it. *)
Lemma foldl_invariant {A B} (I : A -> Prop) (f : A -> B -> A) l a :
  (forall a b, b ∈ l -> I a -> I (f a b)) -> I a -> I (foldl f a l).
Proof.
  revert a. induction l as [|b l IH]; intros a Hf Ha; cbn; [done|].
  apply IH; [|apply Hf; set_solver]. intros a' b' Hb'. apply Hf. set_solver.
Qed.

(** A fold over [l] establishes [I] if handling [b] does and the other elements
    keep it, where [J] may be assumed throughout. *)
Lemma foldl_reaches {A B} (J I : A -> Prop) (f : A -> B -> A) l a b :
  (forall a b', b' ∈ l -> J a -> J (f a b')) ->
  (forall a b', b' ∈ l -> J a -> I a -> I (f a b')) ->
  (forall a, J a -> I (f a b)) ->
  b ∈ l -> J a -> I (foldl f a l).
Proof.
  intros HJ HI Hb (l1 & l2 & ->)%list_elem_of_split Ha. rewrite foldl_app. cbn.
  apply (foldl_invariant (fun a => J a /\ I a)).
  - intros a' b' Hb' [Ha' Hi]. split; [apply HJ|apply HI]; set_solver.
  - assert (J (foldl f a l1)) as Hj.
    { apply foldl_invariant; [|done]. intros a' b' Hb'. apply HJ. set_solver. }
    split; [apply HJ; set_solver|by apply Hb].
Qed.

(** A weaker test keeps more. *)
Lemma length_filter_mono {A} (P Q : A -> Prop) `{!forall x, Decision (P x)}
    `{!forall x, Decision (Q x)} (l : list A) :
  (forall x, x ∈ l -> P x -> Q x) -> (length (filter P l) <= length (filter Q l))%nat.
Proof.
  induction l as [|x l IH]; intros Hpq; [done|]. rewrite !filter_cons.
  assert (length (filter P l) <= length (filter Q l))%nat by (apply IH; set_solver).
  repeat case_decide; cbn; try lia. exfalso. set_solver.
Qed.
