(* ===== verification/Text.v ===== *)
(** * Rust string operations

    A [string] is the UTF-8 bytes of a Rust [str]; [trim] removes the characters
    with the Unicode property [White_Space]. *)
From S2P Require Import Prelude.
From Stdlib Require Import Ascii.

(** The bytes of a white-space character at the head of [s]: ASCII white space,
    and the other [White_Space] characters in their two- and three-byte forms. *)
Fixpoint drop_bytes (n : nat) (s : string) : string :=
  match n, s with
  | O, _ => s
  | S n', String _ s' => drop_bytes n' s'
  | _, EmptyString => EmptyString
  end.

Definition byte_at (n : nat) (s : string) : N :=
  match String.get n s with Some c => N_of_ascii c | None => 0%N end.

Definition white_width (s : string) : nat :=
  let b0 := byte_at 0 s in let b1 := byte_at 1 s in let b2 := byte_at 2 s in
  if (b0 =? 32)%N || ((9 <=? b0)%N && (b0 <=? 13)%N) then 1%nat
  else if (b0 =? 0xC2)%N && ((b1 =? 0x85)%N || (b1 =? 0xA0)%N) then 2%nat
  else if (b0 =? 0xE1)%N && (b1 =? 0x9A)%N && (b2 =? 0x80)%N then 3%nat
  else if (b0 =? 0xE2)%N && (b1 =? 0x80)%N &&
          (((0x80 <=? b2)%N && (b2 <=? 0x8A)%N) ||
           (b2 =? 0xA8)%N || (b2 =? 0xA9)%N || (b2 =? 0xAF)%N) then 3%nat
  else if (b0 =? 0xE2)%N && (b1 =? 0x81)%N && (b2 =? 0x9F)%N then 3%nat
  else if (b0 =? 0xE3)%N && (b1 =? 0x80)%N && (b2 =? 0x80)%N then 3%nat
  else 0%nat.

(** Every step drops at least a byte, so the length is fuel enough. *)
Fixpoint trim_start_fuel (fuel : nat) (s : string) : string :=
  match fuel, white_width s with
  | S fuel, S n => trim_start_fuel fuel (drop_bytes (S n) s)
  | _, _ => s
  end.

Definition trim_start (s : string) : string := trim_start_fuel (String.length s) s.

(** The white space that ends a string starts at a character boundary, and no
    continuation byte starts a white-space character. *)
Fixpoint trim_end (s : string) : string :=
  match s with
  | EmptyString => EmptyString
  | String c s' => if decide (trim_start s = EmptyString) then EmptyString
                   else String c (trim_end s')
  end.

Definition trim (s : string) : string := trim_end (trim_start s).

Example trim_sample : trim "  a b	 " = "a b"%string.
Proof. reflexivity. Qed.

Definition ascii_lower (c : ascii) : ascii :=
  let n := N_of_ascii c in
  if ((65 <=? n)%N && (n <=? 90)%N)%bool then ascii_of_N (n + 32) else c.

Fixpoint to_ascii_lowercase (s : string) : string :=
  match s with
  | EmptyString => EmptyString
  | String c s' => String (ascii_lower c) (to_ascii_lowercase s')
  end.

(** [s.split(c)]: one more piece than separators. *)
Fixpoint split_char (c : ascii) (s : string) : list string :=
  match s with
  | EmptyString => [EmptyString]
  | String d s' =>
      if decide (d = c) then EmptyString :: split_char c s'
      else match split_char c s' with
           | p :: ps => String d p :: ps
           | [] => [String d EmptyString]
           end
  end.

(** [s.split_once(c)] *)
Fixpoint split_once (c : ascii) (s : string) : option (string * string) :=
  match s with
  | EmptyString => None
  | String d s' =>
      if decide (d = c) then Some (EmptyString, s')
      else (fun p => (String d p.1, p.2)) <$> split_once c s'
  end.

Fixpoint contains_char (c : ascii) (s : string) : bool :=
  match s with
  | EmptyString => false
  | String d s' => bool_decide (d = c) || contains_char c s'
  end.

Fixpoint strip_prefix (p s : string) : option string :=
  match p, s with
  | EmptyString, _ => Some s
  | String a p', String b s' => if decide (a = b) then strip_prefix p' s' else None
  | _, EmptyString => None
  end.

Definition starts_with (p s : string) : bool :=
  match strip_prefix p s with Some _ => true | None => false end.

Definition digit_value (c : ascii) : option Z :=
  let n := Z.of_N (N_of_ascii c) in
  if decide (48 <= n <= 57) then Some (n - 48) else None.

Fixpoint parse_digits (max acc : Z) (s : string) : option Z :=
  match s with
  | EmptyString => Some acc
  | String c s' =>
      match digit_value c with
      | Some d => let acc := acc * 10 + d in
                  if decide (acc <= max) then parse_digits max acc s' else None
      | None => None
      end
  end.

(** [str::parse::<uN>]: an optional [+], at least one digit, no overflow. *)
Definition parse_uint (max : Z) (s : string) : option Z :=
  match s with
  | EmptyString => None
  | String c s' =>
      if decide (c = "+"%char)
      then match s' with EmptyString => None | _ => parse_digits max 0 s' end
      else parse_digits max 0 s
  end.

(** ** Lemmas *)

Lemma split_once_contains c s : is_Some (split_once c s) <-> contains_char c s = true.
Proof.
  induction s as [|d s IH]; cbn; [split; [intros [? [=]]|done]|].
  destruct (decide (d = c)) as [->|Hd].
  - rewrite bool_decide_true by done. split; [intros _; reflexivity|eauto].
  - by rewrite bool_decide_false, fmap_is_Some by done.
Qed.

Lemma split_once_app c s a b :
  split_once c s = Some (a, b) <->
  s = a +:+ String c b /\ contains_char c a = false.
Proof.
  revert a b. induction s as [|d s IH]; intros a b; cbn.
  - split; [done|]. destruct a; cbn; naive_solver.
  - case_decide as Hd.
    + subst. destruct a as [|x a]; cbn.
      * split; [intros [= ->]; done|]. by intros [[= ->] _].
      * split; [done|]. intros [[= -> ->] Hx]. by rewrite bool_decide_true in Hx.
    + destruct a as [|x a]; cbn.
      * split; [|by intros [[= -> ->] _]].
        destruct (split_once c s) as [[]|]; done.
      * rewrite fmap_Some. split.
        -- intros ([a' b'] & [-> Ha]%IH & [= -> -> ->]).
           by rewrite bool_decide_false.
        -- intros [[= -> ->] Hc]. rewrite bool_decide_false in Hc by done.
           exists (a, b). split; [|done]. by apply IH.
Qed.

Lemma parse_digits_bound max acc s z :
  0 <= acc <= max -> parse_digits max acc s = Some z -> acc <= z <= max.
Proof.
  revert acc. induction s as [|c s IH]; intros acc Ha; cbn; [intros [= <-]; lia|].
  unfold digit_value. repeat case_decide; try done.
  intros ?%IH; lia.
Qed.

Lemma parse_uint_bound max s z :
  0 <= max -> parse_uint max s = Some z -> 0 <= z <= max.
Proof.
  intros Hm. unfold parse_uint. destruct s as [|c s]; [done|]. case_decide.
  - destruct s; [done|]. by apply parse_digits_bound.
  - by apply parse_digits_bound.
Qed.
