(* ===== verification/Format.v ===== *)
(** * More string operations: printing, searching, cutting into lines

    [Display] of the integers, [contains], [replace], [split_inclusive],
    [split_whitespace] and [lines], with the lemmas the text-processing
    components share. *)
From stdpp Require Import pretty.
From S2P Require Import Prelude Text.
From Stdlib Require Import Ascii.

Definition newline : ascii := "010"%char.

(** [pieces.concat()] *)
Definition sconcat (l : list string) : string := foldr String.append "" l.

Fixpoint last_char (s : string) : option ascii :=
  match s with
  | EmptyString => None
  | String c EmptyString => Some c
  | String _ s' => last_char s'
  end.

(** [s.ends_with('\n')] *)
Definition ends_with_newline (s : string) : bool :=
  bool_decide (last_char s = Some newline).

(** [s.split_inclusive(c)]: the pieces keep their separator and a trailing
    empty piece is not produced. *)
Fixpoint split_inclusive (c : ascii) (s : string) : list string :=
  match s with
  | EmptyString => []
  | String d s' =>
      if decide (d = c) then String d EmptyString :: split_inclusive c s'
      else match split_inclusive c s' with
           | [] => [String d EmptyString]
           | p :: ps => String d p :: ps
           end
  end.

Fixpoint contains (p s : string) : bool :=
  starts_with p s ||
  match s with EmptyString => false | String _ s' => contains p s' end.

(** [s.split_once(p)] for a string [p]. *)
Fixpoint split_once_str (p s : string) : option (string * string) :=
  match strip_prefix p s with
  | Some rest => Some ("", rest)
  | None =>
      match s with
      | EmptyString => None
      | String c s' => (fun ab => (String c ab.1, ab.2)) <$> split_once_str p s'
      end
  end.

(** [s.join(sep)] *)
Fixpoint join (sep : string) (l : list string) : string :=
  match l with
  | [] => ""
  | [x] => x
  | x :: l => x +:+ sep +:+ join sep l
  end.

(** [char::is_whitespace] decides where [split_whitespace] cuts; each step of
    the scan consumes a character, so the length is fuel enough. *)
Fixpoint split_whitespace_fuel (fuel : nat) (acc s : string) : list string :=
  let flush := if decide (acc = "") then [] else [acc] in
  match fuel, s with
  | S fuel, String c s' =>
      match white_width s with
      | O => split_whitespace_fuel fuel (acc +:+ String c "") s'
      | S n => flush ++ split_whitespace_fuel fuel "" (drop_bytes (S n) s)
      end
  | _, _ => flush
  end.

Definition split_whitespace (s : string) : list string :=
  split_whitespace_fuel (String.length s) "" s.

Example split_whitespace_sample :
  split_whitespace "  cpu0 1	2 " = ["cpu0"; "1"; "2"]%string.
Proof. reflexivity. Qed.

(** [s.lines()] drops the line ending, a carriage return before it included. *)
Fixpoint strip_carriage_return (s : string) : string :=
  match s with
  | EmptyString => EmptyString
  | String c EmptyString => if decide (c = "013"%char) then EmptyString else s
  | String c s' => String c (strip_carriage_return s')
  end.

Fixpoint strip_newline (s : string) : string :=
  match s with
  | EmptyString => EmptyString
  | String c EmptyString => if decide (c = newline) then EmptyString else s
  | String c s' => String c (strip_newline s')
  end.

Definition lines (s : string) : list string :=
  (fun l => if ends_with_newline l then strip_carriage_return (strip_newline l) else l)
    <$> split_inclusive newline s.

(** [s.trim_start_matches(c)] *)
Fixpoint trim_start_char (c : ascii) (s : string) : string :=
  match s with
  | String d s' => if decide (d = c) then trim_start_char c s' else s
  | EmptyString => EmptyString
  end.

(** [s.replace(p, r)] for a non-empty [p]: the leftmost matches, not overlapping. *)
Fixpoint replace_fuel (fuel : nat) (p r s : string) : string :=
  match fuel, s with
  | S fuel, String c s' =>
      match strip_prefix p s with
      | Some rest => r +:+ replace_fuel fuel p r rest
      | None => String c (replace_fuel fuel p r s')
      end
  | _, _ => s
  end.

Definition replace (p r s : string) : string := replace_fuel (String.length s) p r s.

(** [n.to_string()] of a machine integer. *)
Definition display (n : Z) : string := pretty n.

(** ** Lemmas *)

Lemma sapp_cons c (s t : string) : String c s +:+ t = String c (s +:+ t).
Proof. reflexivity. Qed.

Lemma sapp_nil_l (s : string) : "" +:+ s = s.
Proof. reflexivity. Qed.

Lemma sapp_assoc (s t u : string) : (s +:+ t) +:+ u = s +:+ (t +:+ u).
Proof. induction s as [|c s IH]; [done|]. by rewrite !sapp_cons, IH. Qed.

Lemma sapp_nil_r (s : string) : s +:+ "" = s.
Proof. induction s as [|c s IH]; [done|]. by rewrite sapp_cons, IH. Qed.

Lemma slength_app (s t : string) :
  String.length (s +:+ t) = (String.length s + String.length t)%nat.
Proof. induction s as [|c s IH]; [done|]. rewrite sapp_cons. cbn. by rewrite IH. Qed.

Lemma str_len_app (s t : string) : str_len (s +:+ t) = str_len s + str_len t.
Proof. unfold str_len. rewrite slength_app. lia. Qed.

Lemma str_len_nonneg s : 0 <= str_len s.
Proof. unfold str_len. lia. Qed.

Lemma str_len_zero s : str_len s = 0 <-> s = "".
Proof. unfold str_len. destruct s; cbn; split; try done; lia. Qed.

Lemma sconcat_cons x l : sconcat (x :: l) = x +:+ sconcat l.
Proof. reflexivity. Qed.

Lemma sconcat_app l k : sconcat (l ++ k) = sconcat l +:+ sconcat k.
Proof.
  induction l as [|x l IH]; [done|].
  by rewrite <- app_comm_cons, !sconcat_cons, IH, sapp_assoc.
Qed.

Lemma sconcat_split_inclusive c s : sconcat (split_inclusive c s) = s.
Proof.
  induction s as [|d s IH]; [done|]. cbn [split_inclusive]. case_decide.
  - by rewrite sconcat_cons, IH.
  - destruct (split_inclusive c s) as [|p ps]; rewrite sconcat_cons, ?sapp_cons.
    + cbn in IH. by subst.
    + by rewrite <- sconcat_cons, IH.
Qed.

Lemma contains_char_app c s t :
  contains_char c (s +:+ t) = contains_char c s || contains_char c t.
Proof. induction s as [|d s IH]; [done|]. rewrite sapp_cons. cbn. by rewrite IH, orb_assoc. Qed.

Lemma strip_prefix_Some p s rest : strip_prefix p s = Some rest <-> s = p +:+ rest.
Proof.
  revert s. induction p as [|a p IH]; intros s; cbn.
  { split; [by intros [= ->]|by intros ->]. }
  rewrite sapp_cons. destruct s as [|b s]; [done|]. case_decide as H.
  - subst. rewrite IH. split; [by intros ->|by intros [= ->]].
  - split; [done|]. by intros [= -> _].
Qed.

Lemma starts_with_spec p s : starts_with p s = true <-> exists rest, s = p +:+ rest.
Proof.
  unfold starts_with. split.
  - destruct (strip_prefix p s) as [rest|] eqn:H; [|done]. intros _.
    exists rest. by apply strip_prefix_Some.
  - intros [rest H%strip_prefix_Some]. by rewrite H.
Qed.

Lemma contains_spec p s : contains p s = true <-> exists a b, s = a +:+ p +:+ b.
Proof.
  induction s as [|c s IH]; cbn [contains]; rewrite orb_true_iff, starts_with_spec.
  - split; [|intros (a & b & H); left].
    + intros [[r Hr]|]; [|done]. by exists "", r.
    + destruct a; [by exists b|by rewrite sapp_cons in H].
  - rewrite IH. split.
    + intros [[r ->]|(a & b & ->)]; [by exists "", r|by exists (String c a), b].
    + intros ([|d a] & b & H); [by left; exists b|right].
      injection H as -> ->. by exists a, b.
Qed.

Lemma contains_app_l p s t : contains p s = true -> contains p (s +:+ t) = true.
Proof.
  rewrite !contains_spec. intros (a & b & ->). exists a, (b +:+ t).
  by rewrite !sapp_assoc.
Qed.

Lemma contains_app_r p s t : contains p t = true -> contains p (s +:+ t) = true.
Proof.
  rewrite !contains_spec. intros (a & b & ->). exists (s +:+ a), b.
  by rewrite !sapp_assoc.
Qed.

(** ** [Display] of the integers is [pretty] *)

Lemma digit_value_pretty x : (x < 10)%N -> digit_value (pretty_N_char x) = Some (Z.of_N x).
Proof.
  intros H. unfold digit_value, pretty_N_char.
  destruct x as [|p]; [reflexivity|].
  do 4 (destruct p as [p|p|]; try reflexivity; try lia).
Qed.

(** Reading the digits of [x] and then [s] is reading [s] after [x]. *)
Lemma parse_digits_pretty max x s :
  Z.of_N x <= max ->
  parse_digits max 0 (pretty_N_go x s) = parse_digits max (Z.of_N x) s.
Proof.
  revert s. induction (N.lt_wf_0 x) as [x _ IH]. intros s Hx.
  assert (x = 0 ∨ 0 < x)%N as [->|Hp] by lia; [by rewrite pretty_N_go_0|].
  rewrite pretty_N_go_step by done.
  assert (x `div` 10 < x)%N by (apply N.div_lt; lia).
  rewrite IH; [|done|lia]. cbn [parse_digits].
  rewrite digit_value_pretty by (apply N.mod_lt; done).
  assert (Z.of_N (x `div` 10) * 10 + Z.of_N (x `mod` 10) = Z.of_N x) as ->.
  { pose proof (N.div_mod x 10). lia. }
  by rewrite decide_True.
Qed.

Lemma pretty_N_char_not_plus x : pretty_N_char x <> "+"%char.
Proof. unfold pretty_N_char. by repeat case_match. Qed.

Lemma pretty_N_go_head x s c t :
  (0 < x)%N -> pretty_N_go x s = String c t -> c <> "+"%char.
Proof.
  revert s. induction (N.lt_wf_0 x) as [x _ IH]. intros s Hx.
  rewrite pretty_N_go_step by done.
  assert (x `div` 10 < x)%N by (apply N.div_lt; lia).
  destruct (N.eq_0_gt_0_cases (x `div` 10)) as [->|Hp].
  - rewrite pretty_N_go_0. intros [= <- _]. apply pretty_N_char_not_plus.
  - by eapply IH.
Qed.

(** [n.to_string().parse()] gives [n] back. *)
Lemma parse_uint_pretty max n :
  Z.of_N n <= max -> parse_uint max (pretty n) = Some (Z.of_N n).
Proof.
  intros Hn. unfold pretty, pretty_N. case_decide as H0.
  { subst. change (parse_uint max "0") with (parse_digits max 0 "0"). cbn.
    change (digit_value "0") with (Some 0). cbn -[Z.le].
    by rewrite decide_True by lia. }
  destruct (pretty_N_go n "") as [|c s] eqn:Hs.
  - exfalso. pose proof (parse_digits_pretty (Z.of_N n) n "" ltac:(lia)) as H.
    rewrite Hs in H. cbn in H. injection H as H. destruct n; done.
  - unfold parse_uint.
    rewrite decide_False by (apply (pretty_N_go_head n "" c s); [lia|done]).
    rewrite <- Hs, parse_digits_pretty by done. done.
Qed.

Lemma parse_uint_display max n :
  0 <= n <= max -> parse_uint max (display n) = Some n.
Proof.
  intros Hn. unfold display, pretty, pretty_Z. destruct n as [|p|p]; [|..|lia].
  - apply (parse_uint_pretty max 0). lia.
  - apply (parse_uint_pretty max (N.pos p)). lia.
Qed.

Lemma display_inj (x y : Z) : display x = display y -> x = y.
Proof. apply pretty_Z_inj. Qed.

Lemma contains_char_pretty_go c x s :
  digit_value c = None -> contains_char c s = false ->
  contains_char c (pretty_N_go x s) = false.
Proof.
  intros Hc. revert s. induction (N.lt_wf_0 x) as [x _ IH]. intros s Hs.
  assert (x = 0 ∨ 0 < x)%N as [->|Hp] by lia; [by rewrite pretty_N_go_0|].
  rewrite pretty_N_go_step by done.
  assert (x `div` 10 < x)%N by (apply N.div_lt; lia).
  apply IH; [done|]. cbn. rewrite Hs, orb_false_r, bool_decide_false; [done|].
  intros <-. by rewrite digit_value_pretty in Hc by (apply N.mod_lt; done).
Qed.

(** The text of an integer has only digits and perhaps a leading minus. *)
Lemma contains_char_display c n :
  digit_value c = None -> c <> "-"%char -> contains_char c (display n) = false.
Proof.
  intros Hc Hm.
  assert (forall p, contains_char c (pretty (N.pos p)) = false) as Hp.
  { intros p. unfold pretty, pretty_N. rewrite decide_False by done.
    by apply contains_char_pretty_go. }
  unfold display, pretty, pretty_Z. destruct n as [|p|p].
  - change (contains_char c "0" = false). cbn. rewrite bool_decide_false; [done|].
    by intros <-.
  - apply Hp.
  - change (contains_char c (String "-" (pretty (N.pos p))) = false). cbn.
    rewrite Hp, orb_false_r, bool_decide_false; [done|]. by intros <-.
Qed.

(** ** [replace] *)

Lemma slength_drop p s rest :
  p <> "" -> strip_prefix p s = Some rest -> (String.length rest < String.length s)%nat.
Proof.
  intros Hp ->%strip_prefix_Some. rewrite slength_app. destruct p; [done|]. cbn. lia.
Qed.

Lemma replace_fuel_enough p r s : forall n m,
  p <> "" -> (String.length s <= n)%nat -> (String.length s <= m)%nat ->
  replace_fuel n p r s = replace_fuel m p r s.
Proof.
  remember (String.length s) as k eqn:Hk. revert s Hk.
  induction (lt_wf k) as [k _ IH]. intros s -> n m Hp Hn Hm.
  destruct s as [|c s]; [by destruct n, m|]. cbn [String.length] in *.
  destruct n as [|n], m as [|m]; try lia. cbn [replace_fuel].
  destruct (strip_prefix p (String c s)) as [rest|] eqn:Hs.
  - apply slength_drop in Hs; [|done]. cbn [String.length] in Hs. f_equal.
    apply (IH (String.length rest)); [lia|done|done|lia|lia].
  - f_equal. apply (IH (String.length s)); [lia|done|done|lia|lia].
Qed.

Lemma replace_skip p r c s :
  strip_prefix p (String c s) = None -> replace p r (String c s) = String c (replace p r s).
Proof. intros H. unfold replace. cbn [String.length replace_fuel]. by rewrite H. Qed.

Lemma replace_match p r s : p <> "" -> replace p r (p +:+ s) = r +:+ replace p r s.
Proof.
  intros Hp. unfold replace.
  assert (strip_prefix p (p +:+ s) = Some s) as Hs by (by apply strip_prefix_Some).
  destruct p as [|c p]; [done|]. rewrite sapp_cons in *. cbn [String.length replace_fuel].
  rewrite Hs. f_equal. apply replace_fuel_enough; [done| |done].
  rewrite slength_app. lia.
Qed.

(** ** Words

    A word is ASCII and has no white space; [split_whitespace] takes a line of words
    apart again. *)

Definition word_char (c : ascii) : bool :=
  let n := N_of_ascii c in ((33 <=? n)%N && (n <? 128)%N)%bool.

Fixpoint all_chars (f : ascii -> bool) (s : string) : bool :=
  match s with EmptyString => true | String c s => f c && all_chars f s end.

Definition word (s : string) : Prop := s <> "" /\ all_chars word_char s = true.

Lemma all_chars_app f s t : all_chars f (s +:+ t) = all_chars f s && all_chars f t.
Proof. induction s as [|c s IH]; [done|]. rewrite sapp_cons. cbn. by rewrite IH, andb_assoc. Qed.

Lemma all_chars_contains f s c : all_chars f s = true -> f c = false -> contains_char c s = false.
Proof.
  induction s as [|d s IH]; cbn; [done|]. intros [Hd Hs]%andb_true_iff Hc.
  rewrite IH by done. rewrite orb_false_r. apply bool_decide_eq_false. intros ->. congruence.
Qed.

Lemma word_char_no_white c s : word_char c = true -> white_width (String c s) = 0%nat.
Proof.
  unfold word_char, white_width. intros [H1%N.leb_le H2%N.ltb_lt]%andb_true_iff.
  change (byte_at 0 (String c s)) with (N_of_ascii c).
  assert (forall n : N, (n < 33 \/ 128 <= n)%N -> (N_of_ascii c =? n)%N = false) as Hne
    by (intros n Hn; apply N.eqb_neq; lia).
  rewrite !Hne by lia. rewrite (proj2 (N.leb_gt _ 13)) by lia. by rewrite !andb_false_r.
Qed.

(** A separator, or the end, follows the words scanned so far. *)
Lemma split_whitespace_scan w : forall fuel acc s,
  all_chars word_char w = true -> (String.length w <= fuel)%nat ->
  split_whitespace_fuel fuel acc (w +:+ s) =
    split_whitespace_fuel (fuel - String.length w) (acc +:+ w) s.
Proof.
  induction w as [|c w IH]; intros fuel acc s; cbn [all_chars String.length].
  { by rewrite sapp_nil_r, Nat.sub_0_r. }
  intros [Hc Hw]%andb_true_iff Hf. destruct fuel as [|fuel]; [lia|]. rewrite sapp_cons.
  cbn [split_whitespace_fuel]. rewrite word_char_no_white by done. cbn [Nat.sub].
  rewrite IH by (done || lia). by rewrite sapp_assoc.
Qed.

Lemma join_cons w ws :
  join " " (w :: ws) = w +:+ match ws with [] => "" | _ => String " " (join " " ws) end.
Proof. destruct ws; cbn [join]; [by rewrite sapp_nil_r|done]. Qed.

Lemma split_whitespace_fuel_join ws : forall fuel acc,
  Forall word ws -> acc <> "" -> (S (String.length (join " " ws)) <= fuel)%nat ->
  split_whitespace_fuel fuel acc (String " " (join " " ws)) = acc :: ws.
Proof.
  induction ws as [|w ws IH]; intros fuel acc Hws Hacc Hf;
    (destruct fuel as [|fuel]; [lia|]); cbn [split_whitespace_fuel];
    change (white_width (String " " ?s)) with 1%nat; cbn [drop_bytes];
    rewrite decide_False by done; cbn [app]; f_equal.
  - cbn. by destruct fuel.
  - apply Forall_cons in Hws as [[Hne Hw] Hws]. rewrite join_cons in Hf |- *.
    rewrite slength_app in Hf.
    rewrite split_whitespace_scan by (done || lia). rewrite sapp_nil_l.
    destruct ws as [|w' ws].
    + destruct (fuel - _)%nat; cbn [split_whitespace_fuel]; by rewrite decide_False.
    + apply IH; [done..|]. cbn [String.length] in Hf. lia.
Qed.

Lemma split_whitespace_join ws : Forall word ws -> split_whitespace (join " " ws) = ws.
Proof.
  intros Hws. destruct ws as [|w ws]; [done|].
  apply Forall_cons in Hws as [[Hne Hw] Hws]. unfold split_whitespace. rewrite join_cons.
  rewrite split_whitespace_scan by (done || rewrite slength_app; lia).
  rewrite sapp_nil_l, slength_app.
  destruct ws as [|w' ws].
  - destruct (_ - _)%nat; cbn [split_whitespace_fuel]; by rewrite decide_False.
  - apply split_whitespace_fuel_join; [done..|]. cbn [String.length]. lia.
Qed.

(** White space before the words changes nothing. *)
Lemma split_whitespace_leading s : split_whitespace (String " " s) = split_whitespace s.
Proof. reflexivity. Qed.

(** ** Lines *)

Definition nl : string := String newline "".

Lemma sapp_nl s t : s +:+ nl +:+ t = s +:+ String newline t.
Proof. done. Qed.

Lemma split_inclusive_app c s t :
  split_inclusive c (s +:+ String c t) =
  split_inclusive c (s +:+ String c "") ++ split_inclusive c t.
Proof.
  induction s as [|d s IH].
  - rewrite !sapp_nil_l. cbn [split_inclusive]. by repeat case_decide.
  - rewrite !sapp_cons. cbn [split_inclusive]. rewrite IH. case_decide; [done|].
    destruct (split_inclusive c (s +:+ String c "")) as [|p ps] eqn:Hs; [|done].
    destruct s as [|e s]; [rewrite sapp_nil_l in Hs|rewrite sapp_cons in Hs]; cbn in Hs;
      by repeat case_match.
Qed.

Lemma split_inclusive_line c l :
  contains_char c l = false -> split_inclusive c (l +:+ String c "") = [l +:+ String c ""].
Proof.
  induction l as [|d l IH]; cbn [contains_char].
  - intros _. rewrite sapp_nil_l. cbn. by rewrite decide_True.
  - intros [Hd Hl]%orb_false_iff. rewrite sapp_cons. cbn [split_inclusive].
    rewrite IH by done. apply bool_decide_eq_false in Hd. by rewrite decide_False.
Qed.

Lemma split_inclusive_whole c l :
  contains_char c l = false -> l <> "" -> split_inclusive c l = [l].
Proof.
  induction l as [|d [|e l] IH]; [done| |]; cbn [contains_char]; intros [Hd Hl]%orb_false_iff _;
    apply bool_decide_eq_false in Hd.
  - cbn [split_inclusive]. by rewrite decide_False.
  - change (split_inclusive c (String d (String e l))) with
      (if decide (d = c) then String d "" :: split_inclusive c (String e l)
       else match split_inclusive c (String e l) with
            | [] => [String d ""] | p :: ps => String d p :: ps end).
    by rewrite decide_False, IH.
Qed.

Lemma split_inclusive_pieces c s p :
  p ∈ split_inclusive c s ->
  contains_char c p = false \/ exists q, p = q +:+ String c "" /\ contains_char c q = false.
Proof.
  revert p. induction s as [|d s IH]; intros p; cbn [split_inclusive].
  { by intros ?%elem_of_nil. }
  case_decide as Hd; [subst d|].
  - intros [->|?]%elem_of_cons; [right; by exists ""|by apply IH].
  - assert (bool_decide (d = c) = false) as Hb by by apply bool_decide_eq_false.
    destruct (split_inclusive c s) as [|q qs].
    + intros ->%list_elem_of_singleton. left. cbn [contains_char]. by rewrite Hb.
    + intros [->|?]%elem_of_cons; [|apply IH; by right].
      destruct (IH q ltac:(left)) as [Hq|(r & -> & Hr)]; cbn [contains_char]; [left|right].
      * by rewrite Hb.
      * exists (String d r). rewrite sapp_cons. cbn [contains_char]. by rewrite Hb.
Qed.

Lemma last_char_app s c : last_char (s +:+ String c "") = Some c.
Proof.
  induction s as [|d s IH]; [done|]. rewrite sapp_cons.
  destruct (s +:+ String c "") as [|e t] eqn:E; [by destruct s|]. exact IH.
Qed.

Lemma strip_newline_line l : strip_newline (l +:+ nl) = l.
Proof.
  induction l as [|d l IH]; [done|]. rewrite sapp_cons.
  destruct (l +:+ nl) as [|e t] eqn:E; [by destruct l|]. cbn [strip_newline].
  by f_equal.
Qed.

Lemma strip_carriage_return_id s :
  last_char s <> Some "013"%char -> strip_carriage_return s = s.
Proof.
  induction s as [|d [|e s] IH]; [done| |]; intros H.
  - cbn. rewrite decide_False; [done|]. intros ->. by destruct H.
  - change (String d (strip_carriage_return (String e s)) = String d (String e s)).
    f_equal. by apply IH.
Qed.

Lemma strip_carriage_return_contains c s :
  contains_char c s = false -> contains_char c (strip_carriage_return s) = false.
Proof.
  induction s as [|d [|e s] IH]; [done| |]; intros H.
  - cbn. by case_decide.
  - change (bool_decide (d = c) || contains_char c (strip_carriage_return (String e s)) = false).
    cbn [contains_char] in H. apply orb_false_iff in H as [-> H]. by apply IH.
Qed.

(** The lines of a text that starts with a complete line. *)
Lemma lines_cons l t :
  contains_char newline l = false -> lines (l +:+ nl +:+ t) = strip_carriage_return l :: lines t.
Proof.
  intros Hl. unfold lines. rewrite sapp_nl, split_inclusive_app, split_inclusive_line by done.
  cbn [app fmap list_fmap]. f_equal. unfold ends_with_newline.
  rewrite last_char_app, bool_decide_true by done. by rewrite strip_newline_line.
Qed.

Lemma lines_one_line l s : l ∈ lines s -> contains_char newline l = false.
Proof.
  unfold lines. intros (p & -> & Hp)%list_elem_of_fmap.
  apply split_inclusive_pieces in Hp as [Hp|(q & -> & Hq)].
  - case_match; [|done]. apply strip_carriage_return_contains.
    clear -Hp. induction p as [|d [|e p] IH]; [done| |].
    + cbn [strip_newline]. case_decide; [done|exact Hp].
    + change (bool_decide (d = newline) || contains_char newline (strip_newline (String e p)) = false).
      cbn [contains_char] in Hp. apply orb_false_iff in Hp as [-> Hp]. by apply IH.
  - unfold ends_with_newline. rewrite last_char_app, bool_decide_true by done.
    apply strip_carriage_return_contains. change (String newline "") with nl.
    by rewrite strip_newline_line.
Qed.

Lemma lines_single l :
  contains_char newline l = false -> l <> "" -> lines l = [l].
Proof.
  intros Hl Hne. unfold lines. rewrite split_inclusive_whole by done. cbn [fmap list_fmap].
  unfold ends_with_newline. case_bool_decide as He; [|done]. exfalso.
  clear Hne. induction l as [|c [|d l] IH]; [done| |].
  - cbn in He. injection He as ->. by cbn in Hl.
  - apply IH; [|exact He]. cbn [contains_char] in Hl. by apply orb_false_iff in Hl as [_ ?].
Qed.

(** The lines of a text, whatever their number: [split_char] cuts where [join] pastes. *)
Lemma split_char_ne c s : exists p ps, split_char c s = p :: ps.
Proof.
  induction s as [|d s (p & ps & IH)]; cbn [split_char]; [by eexists _, _|].
  rewrite IH. case_decide; by eexists _, _.
Qed.

Lemma join_string_cons sep d p ps : join sep (String d p :: ps) = String d (join sep (p :: ps)).
Proof. by destruct ps. Qed.

Lemma join_empty_cons sep p ps : join sep ("" :: p :: ps) = sep +:+ join sep (p :: ps).
Proof. reflexivity. Qed.

Lemma join_split_char c s : join (String c "") (split_char c s) = s.
Proof.
  induction s as [|d s IH]; [done|]. cbn [split_char].
  destruct (split_char_ne c s) as (p & ps & Hp). rewrite Hp in IH |- *. case_decide as Hd.
  - subst d. rewrite join_empty_cons, IH. by rewrite sapp_cons, sapp_nil_l.
  - by rewrite join_string_cons, IH.
Qed.

Lemma split_char_pieces c s : Forall (fun p => contains_char c p = false) (split_char c s).
Proof.
  induction s as [|d s IH]; cbn [split_char]; [by repeat constructor|].
  destruct (split_char_ne c s) as (p & ps & Hp). rewrite Hp in IH |- *. case_decide as Hd.
  - by constructor.
  - apply Forall_cons in IH as [Hc Hps]. constructor; [|done]. cbn.
    by rewrite bool_decide_false.
Qed.

Lemma split_char_infix c s p : p ∈ split_char c s -> exists a b, s = a +:+ p +:+ b.
Proof.
  revert p. induction s as [|d s IH]; intros p; cbn [split_char].
  { intros ->%list_elem_of_singleton. by exists "", "". }
  destruct (split_char_ne c s) as (q & qs & Hq). rewrite Hq in IH |- *. case_decide as Hd.
  - intros [->|Hp]%elem_of_cons; [by exists "", (String d s)|].
    destruct (IH p Hp) as (a & b & ->). by exists (String d a), b.
  - intros [->|Hp]%elem_of_cons.
    + exists "". pose proof (join_split_char c s) as Hj. rewrite Hq in Hj.
      destruct qs as [|q' qs]; cbn [join] in Hj; subst s.
      * exists "". by rewrite sapp_nil_l, sapp_nil_r.
      * by eexists.
    + destruct (IH p ltac:(by right)) as (a & b & ->). by exists (String d a), b.
Qed.

Lemma strip_carriage_return_none l :
  contains_char "013"%char l = false -> strip_carriage_return l = l.
Proof.
  intros Hl. apply strip_carriage_return_id. intros Hc.
  induction l as [|d [|e l] IH]; [done| |]; cbn [contains_char] in Hl;
    apply orb_false_iff in Hl as [Hd Hl].
  - cbn in Hc. injection Hc as ->. by rewrite bool_decide_true in Hd.
  - by apply IH.
Qed.

Lemma lines_join ps t :
  Forall (fun p => contains_char newline p = false /\ contains_char "013"%char p = false) ps ->
  ps <> [] -> lines (join nl ps +:+ nl +:+ t) = ps ++ lines t.
Proof.
  induction 1 as [|p ps [Hn Hr] _ IH]; [done|]. intros _. destruct ps as [|q ps].
  - cbn [join app]. by rewrite lines_cons, strip_carriage_return_none.
  - change (join nl (p :: q :: ps)) with (p +:+ nl +:+ join nl (q :: ps)).
    rewrite !sapp_assoc, lines_cons, strip_carriage_return_none by done.
    rewrite IH by done. done.
Qed.

(** A text without carriage returns is the lines it is cut into. *)
Lemma lines_text s t :
  contains_char "013"%char s = false ->
  lines (s +:+ nl +:+ t) = split_char newline s ++ lines t.
Proof.
  intros Hr. rewrite <-(join_split_char newline s) at 1. apply lines_join.
  - apply Forall_forall. intros p Hp. split.
    + by apply (proj1 (Forall_forall _ _) (split_char_pieces newline s)).
    + apply split_char_infix in Hp as (a & b & ->). rewrite !contains_char_app in Hr.
      by apply orb_false_iff in Hr as [_ [Hr _]%orb_false_iff].
  - by destruct (split_char_ne newline s) as (? & ? & ->).
Qed.

Lemma split_once_str_first c p a b :
  contains_char c a = false ->
  split_once_str (String c p) (a +:+ String c p +:+ b) = Some (a, b).
Proof.
  induction a as [|d a IH]; intros Ha.
  - rewrite sapp_nil_l. pose proof (proj2 (strip_prefix_Some (String c p) (String c p +:+ b) b) eq_refl) as Hs.
    rewrite sapp_cons in *. cbn [split_once_str]. by rewrite Hs.
  - cbn [contains_char] in Ha. apply orb_false_iff in Ha as [Hd Ha].
    apply bool_decide_eq_false in Hd. rewrite sapp_cons. cbn [split_once_str strip_prefix].
    rewrite decide_False by done. by rewrite IH.
Qed.

(** ** Trimming *)

(** The bytes of a white-space character are no word characters. *)
Lemma white_prefix s : exists w r,
  s = w +:+ r /\ String.length w = white_width s /\
  all_chars (fun c => negb (word_char c)) w = true.
Proof.
  assert (forall c n, N_of_ascii c = n -> (n < 33 \/ 128 <= n)%N -> negb (word_char c) = true) as Hw.
  { intros c n <- Hn. unfold word_char. apply negb_true_iff, andb_false_iff.
    destruct Hn; [left; apply N.leb_gt|right; apply N.ltb_ge]; lia. }
  unfold white_width, byte_at.
  destruct s as [|a [|b [|c s]]]; cbn [String.get];
    repeat match goal with
    | |- context [if ?x then _ else _] => destruct x eqn:?
    end;
    try match goal with |- exists w r, ?s = _ /\ _ => exists "", s; by split end;
    repeat match goal with
    | H : (_ || _)%bool = true |- _ => apply orb_true_iff in H as [H|H]
    | H : (_ && _)%bool = true |- _ => apply andb_true_iff in H as [? ?]
    | H : (_ =? _)%N = true |- _ => apply N.eqb_eq in H
    | H : (_ <=? _)%N = true |- _ => apply N.leb_le in H
    end; try discriminate; try lia.
  all: match goal with
       | |- exists w r, String ?a ?s = _ /\ _ = 1%nat /\ _ => exists (String a ""), s
       | |- exists w r, String ?a (String ?b ?s) = _ /\ _ = 2%nat /\ _ =>
           exists (String a (String b "")), s
       | |- exists w r, String ?a (String ?b (String ?c ?s)) = _ /\ _ = 3%nat /\ _ =>
           exists (String a (String b (String c ""))), s
       end; (split; [reflexivity|split; [reflexivity|]]); cbn [all_chars];
       rewrite ?andb_true_r, ?andb_true_iff; repeat split; apply (Hw _ _ eq_refl); lia.
Qed.

Lemma drop_bytes_app w r : drop_bytes (String.length w) (w +:+ r) = r.
Proof. induction w as [|c w IH]; [done|]. rewrite sapp_cons. cbn. done. Qed.

Lemma last_char_cons c s : s <> "" -> last_char (String c s) = last_char s.
Proof. by destruct s. Qed.

Lemma last_char_app_r a b : b <> "" -> last_char (a +:+ b) = last_char b.
Proof.
  intros Hb. induction a as [|c a IH]; [done|]. rewrite sapp_cons, last_char_cons; [done|].
  by destruct a, b.
Qed.

Lemma last_char_all f s c : all_chars f s = true -> last_char s = Some c -> f c = true.
Proof.
  induction s as [|d [|e s] IH]; [done| |]; cbn [all_chars]; intros [Hd Hs]%andb_true_iff Hc.
  - by injection Hc as <-.
  - by apply IH.
Qed.

(** A text that ends in a word character is not blank, and has nothing to trim there. *)
Lemma trim_start_fuel_last fuel s c :
  last_char s = Some c -> word_char c = true -> last_char (trim_start_fuel fuel s) = Some c.
Proof.
  revert s. induction fuel as [|fuel IH]; intros s Hl Hc; [done|]. cbn [trim_start_fuel].
  destruct (white_prefix s) as (w & r & Hs & Hw & Hall).
  destruct (white_width s) as [|n]; [done|]. apply IH; [|done].
  rewrite <-Hw, Hs, drop_bytes_app. rewrite Hs in Hl.
  destruct (decide (r = "")) as [->|Hr]; [|by rewrite last_char_app_r in Hl].
  rewrite sapp_nil_r in Hl. pose proof (last_char_all _ _ _ Hall Hl) as Hn. cbn in Hn.
  by rewrite Hc in Hn.
Qed.

Lemma trim_end_last s c : last_char s = Some c -> word_char c = true -> trim_end s = s.
Proof.
  intros Hl Hc. induction s as [|d s IH]; [done|]. cbn [trim_end].
  rewrite decide_False.
  - f_equal. destruct s as [|e s]; [done|]. by apply IH.
  - intros Ht. unfold trim_start in Ht.
    pose proof (trim_start_fuel_last (String.length (String d s)) _ c Hl Hc) as Hx.
    by rewrite Ht in Hx.
Qed.

Lemma trim_start_head c s : word_char c = true -> trim_start (String c s) = String c s.
Proof.
  intros Hc. unfold trim_start. cbn [String.length trim_start_fuel].
  by rewrite word_char_no_white.
Qed.

Lemma trim_id c s d :
  word_char c = true -> last_char (String c s) = Some d -> word_char d = true ->
  trim (String c s) = String c s.
Proof. intros Hc Hl Hd. unfold trim. rewrite trim_start_head by done. by apply (trim_end_last _ d). Qed.

Lemma trim_start_suffix s : exists p, s = p +:+ trim_start s.
Proof.
  unfold trim_start. generalize (String.length s). intros fuel. revert s.
  induction fuel as [|fuel IH]; intros s; [by exists ""|]. cbn [trim_start_fuel].
  destruct (white_prefix s) as (w & r & Hs & Hw & _).
  destruct (white_width s) as [|n]; [by exists ""|]. destruct (IH (drop_bytes (S n) s)) as [p Hp].
  exists (w +:+ p). rewrite sapp_assoc, <-Hp, <-Hw. rewrite Hs at 2. by rewrite drop_bytes_app.
Qed.

Lemma trim_end_prefix s : exists p, s = trim_end s +:+ p.
Proof.
  induction s as [|c s [p IH]]; [by exists ""|]. cbn [trim_end]. case_decide.
  - by exists (String c s).
  - exists p. by rewrite sapp_cons, <-IH.
Qed.

Lemma trim_infix s : exists a b, s = a +:+ trim s +:+ b.
Proof.
  destruct (trim_start_suffix s) as [a Ha], (trim_end_prefix (trim_start s)) as [b Hb].
  exists a, b. unfold trim. by rewrite <-Hb.
Qed.

Lemma contains_char_trim c s : contains_char c s = false -> contains_char c (trim s) = false.
Proof.
  destruct (trim_infix s) as (a & b & Hs). rewrite Hs at 1. rewrite !contains_char_app.
  by intros [_ [H _]%orb_false_iff]%orb_false_iff.
Qed.
