(* ===== verification/Json.v ===== *)
(** * JSON values and binary64 numbers

    [JsonValue] is what the code asks of [serde_json::Value]: lookup in an
    object and the [as_*] views.  The library is a third-party crate, so every
    definition that reads JSON takes an instance of the class; [Json] below is
    the instance the examples use.

    A Rust [f64] is a primitive binary64 float; [total_key] is the integer
    [f64::total_cmp] compares. *)
From Stdlib Require Import Floats.
From S2P Require Import Prelude.

Class JsonValue (V : Type) := {
  json_get : V -> string -> option V;
  json_as_array : V -> option (list V);
  json_as_str : V -> option string;
  json_as_f64 : V -> option float;
  json_as_bool : V -> option bool;
}.

(** A concrete document type for examples. *)
Inductive Json :=
| JNull
| JBool (b : bool)
| JNumber (f : float)
| JString (s : string)
| JArray (l : list Json)
| JObject (fields : list (string * Json)).

#[export] Instance Json_value : JsonValue Json := {
  json_get v k := match v with
                  | JObject fs => (fun x => x.2.2) <$> list_find (fun f => f.1 = k) fs
                  | _ => None
                  end;
  json_as_array v := match v with JArray l => Some l | _ => None end;
  json_as_str v := match v with JString s => Some s | _ => None end;
  json_as_f64 v := match v with JNumber f => Some f | _ => None end;
  json_as_bool v := match v with JBool b => Some b | _ => None end;
}.

(** Edits in place: [json_insert] stores a field of an object and does nothing to
    another value; [json_modify] rewrites a field an object has. *)
Class JsonEdit (V : Type) `{!JsonValue V} := {
  json_string : string -> V;
  json_is_object : V -> bool;
  json_insert : V -> string -> V -> V;
  json_modify : V -> string -> (V -> V) -> V;
}.

Definition object_insert (k : string) (v : Json) (fs : list (string * Json))
    : list (string * Json) :=
  match list_find (fun f => f.1 = k) fs with
  | Some (i, _) => <[i := (k, v)]> fs
  | None => fs ++ [(k, v)]
  end.

#[export] Instance Json_edit : JsonEdit Json := {
  json_string := JString;
  json_is_object v := match v with JObject _ => true | _ => false end;
  json_insert v k x := match v with JObject fs => JObject (object_insert k x fs) | _ => v end;
  json_modify v k f :=
    match v with
    | JObject fs => JObject ((fun kv => if decide (kv.1 = k) then (k, f kv.2) else kv) <$> fs)
    | _ => v
    end;
}.

(** ** [f64] *)

Definition f64_is_finite (f : float) : bool :=
  match Prim2SF f with
  | S754_zero _ | S754_finite _ _ _ => true
  | _ => false
  end.

(** The magnitude bits of a number: biased exponent and fraction. *)
Definition magnitude_bits (f : spec_float) : Z :=
  match f with
  | S754_zero _ => 0
  | S754_finite _ m e => (e + 1074) * 2 ^ 52 + Zpos m
  | S754_infinity _ => 2047 * 2 ^ 52
  | S754_nan => 2047 * 2 ^ 52 + 2 ^ 51
  end.

Definition sign_bit (f : spec_float) : bool :=
  match f with
  | S754_zero s | S754_finite s _ _ | S754_infinity s => s
  | S754_nan => false
  end.

(** [f64::total_cmp] compares the two's complement reading of the bits with
    the magnitude of negative numbers flipped. *)
Definition total_key_sf (f : spec_float) : Z :=
  if sign_bit f then -1 - magnitude_bits f else magnitude_bits f.

Definition total_key (f : float) : Z := total_key_sf (Prim2SF f).

Definition total_cmp (x y : float) : comparison := total_key x ?= total_key y.

(** *** [total_cmp] refines the IEEE order *)

Lemma digits2_pos_bounds m :
  2 ^ (Zpos (digits2_pos m) - 1) <= Zpos m < 2 ^ Zpos (digits2_pos m).
Proof.
  induction m as [m IH|m IH|]; cbn [digits2_pos]; [..|by cbn].
  all: rewrite Pos2Z.inj_succ; replace (Z.succ (Zpos (digits2_pos m)) - 1)
    with (Z.succ (Zpos (digits2_pos m) - 1)) by lia;
    rewrite !Z.pow_succ_r by lia; lia.
Qed.

Lemma valid_finite s m e :
  valid_binary (S754_finite s m e) = true ->
  -1074 <= e <= 971 /\ Zpos m < 2 ^ 53 /\ (e = -1074 \/ 2 ^ 52 <= Zpos m).
Proof.
  unfold valid_binary, SpecFloat.valid_binary, bounded, canonical_mantissa, fexp, SpecFloat.emin.
  intros [H1%Z.eqb_eq H2%Z.leb_le]%andb_prop.
  change emax with 1024 in *. change prec with 53 in *.
  pose proof (digits2_pos_bounds m) as [Hl Hu].
  assert (Zpos (digits2_pos m) <= 53) by lia.
  split; [lia|]. split.
  - eapply Z.lt_le_trans; [done|]. by apply Z.pow_le_mono_r.
  - destruct (decide (e = -1074)); [by left|right].
    replace (Zpos (digits2_pos m)) with 53 in * by lia. done.
Qed.

Definition valid (f : spec_float) : Prop := valid_binary f = true.

Lemma magnitude_nonneg f : valid f -> 0 <= magnitude_bits f.
Proof. destruct f; cbn; try lia. intros ?%valid_finite. lia. Qed.

Lemma magnitude_finite s m e :
  valid (S754_finite s m e) -> 0 < magnitude_bits (S754_finite s m e) < 2047 * 2 ^ 52.
Proof. intros ?%valid_finite. cbn in *. lia. Qed.

Lemma magnitude_mono s1 m1 e1 s2 m2 e2 :
  valid (S754_finite s1 m1 e1) -> valid (S754_finite s2 m2 e2) ->
  e1 < e2 \/ e1 = e2 /\ Zpos m1 < Zpos m2 ->
  magnitude_bits (S754_finite s1 m1 e1) < magnitude_bits (S754_finite s2 m2 e2).
Proof. intros ?%valid_finite ?%valid_finite. cbn in *. lia. Qed.

Lemma SFltb_total_key x y :
  valid x -> valid y -> SFltb x y = true -> total_key_sf x < total_key_sf y.
Proof.
  intros Hx Hy. unfold SFltb, SFcompare.
  pose proof (magnitude_nonneg _ Hx). pose proof (magnitude_nonneg _ Hy).
  destruct x as [sx|sx| |sx mx ex], y as [sy|sy| |sy my ey]; try done;
    try pose proof (magnitude_finite _ _ _ Hx);
    try pose proof (magnitude_finite _ _ _ Hy);
    try (destruct sx); try (destruct sy); try done;
    try (unfold total_key_sf; cbn in *; lia).
  - destruct (Z.compare_spec ex ey) as [->|?|?]; try done; cbn; intros Hc.
    + change (Pos.compare_cont Eq mx my) with (Pos.compare mx my) in Hc.
      destruct (Pos.compare_spec mx my) as [|?|?]; try done.
      all: pose proof (magnitude_mono true my ey true mx ey Hy Hx); cbn in *; lia.
    + pose proof (magnitude_mono true my ey true mx ex Hy Hx). cbn in *. lia.
  - destruct (Z.compare_spec ex ey) as [->|?|?]; try done; cbn; intros Hc.
    + change (Pos.compare_cont Eq mx my) with (Pos.compare mx my) in Hc.
      destruct (Pos.compare_spec mx my) as [|?|?]; try done.
      pose proof (magnitude_mono false mx ey false my ey Hx Hy); cbn in *; lia.
    + pose proof (magnitude_mono false mx ex false my ey Hx Hy). cbn in *. lia.
Qed.

Lemma ltb_total_key x y : PrimFloat.ltb x y = true -> total_key x < total_key y.
Proof.
  rewrite FloatAxioms.ltb_spec. apply SFltb_total_key; apply FloatAxioms.Prim2SF_valid.
Qed.
