(* ===== verification/ClusterProtocol.v ===== *)
(** * The coordinator/worker contract (crates/cluster-protocol/src/lib.rs) *)
From Stdlib Require Import Floats.
From S2P Require Import Prelude.

(* crates/cluster-protocol/src/lib.rs:14-14 PROTOCOL_VERSION *)
Definition PROTOCOL_VERSION : Z := 1.

(* crates/cluster-protocol/src/lib.rs:16-24 RequestAuthority *)
Record RequestAuthority := {
  ra_protocol_version : Z;
  ra_coordinator_id : Uuid;
  ra_worker_node_id : Uuid;
  ra_correlation_id : Uuid;
  ra_issued_at : DateTime;
  ra_nonce : string;
}.

(* crates/cluster-protocol/src/lib.rs:423-430 TerminalState *)
Inductive TerminalState :=
| TsCompleted | TsFailed | TsKilled | TsInterrupted.

(* crates/cluster-protocol/src/lib.rs:415-421 TerminalEvidence *)
Record TerminalEvidence := {
  te_state : TerminalState;
  te_exit_code : option Z;
  te_signal : option Z;
  te_observed_at : DateTime;
}.

(* crates/cluster-protocol/src/lib.rs:309-322 JobState *)
Inductive JobState :=
| JAccepted | JStarting | JRunning | JCancelling
| JCompleted | JFailed | JKilled | JInterrupted
| JIndeterminate | JQuarantined.

(* crates/cluster-protocol/src/lib.rs:325-335 JobState::is_terminal *)
Definition JobState_is_terminal (s : JobState) : bool :=
  match s with
  | JCompleted | JFailed | JKilled | JInterrupted
  | JIndeterminate | JQuarantined => true
  | _ => false
  end.

(* crates/cluster-protocol/src/lib.rs:449-455 DisconnectPolicy *)
Inductive DisconnectPolicy := DpFailClosed | DpPause | DpTimeout.

(* crates/cluster-protocol/src/lib.rs:432-439 InteractionRequest *)
Record InteractionRequest := {
  ir_interaction_id : Uuid;
  ir_kind : string;
  ir_prompt : string;
  ir_expires_at : option DateTime;
  ir_disconnect_policy : DisconnectPolicy;
}.

(* crates/cluster-protocol/src/lib.rs:501-507 PreviewTarget *)
Record PreviewTarget := {
  pt_workspace_id : Uuid;
  pt_worker_job_id : Uuid;
  pt_port : Z;
  pt_generation : Z;
}.

(* crates/cluster-protocol/src/lib.rs:346-362 ExecutionEventPayload *)
Inductive ExecutionEventPayload :=
| PAccepted
| PStarting
| PStdout (data_base64 : string)
| PStderr (data_base64 : string)
| PStructured (json : string)
| PInteractionRequested (r : InteractionRequest)
| PInteractionAcknowledged (interaction_id : Uuid)
| PPreview (t : PreviewTarget)
| PCompleted (e : TerminalEvidence)
| PFailed (e : TerminalEvidence)
| PKilled (e : TerminalEvidence)
| PInterrupted (e : TerminalEvidence)
| PIndeterminate (reason : string).

(* crates/cluster-protocol/src/lib.rs:338-344 ExecutionEvent *)
Record ExecutionEvent := {
  ev_execution_id : Uuid;
  ev_sequence : Z;
  ev_worker_timestamp : DateTime;
  ev_payload : ExecutionEventPayload;
}.

(* crates/cluster-protocol/src/lib.rs:364-372 EventBatch *)
Record EventBatch := {
  eb_execution_id : Uuid;
  eb_requested_after : Z;
  eb_earliest_available : Z;
  eb_latest_available : Z;
  eb_replay_gap : bool;
  eb_events : list ExecutionEvent;
}.

(* crates/cluster-protocol/src/lib.rs:298-307 JobSummary *)
Record JobSummary := {
  js_execution_id : Uuid;
  js_worker_job_id : Uuid;
  js_workspace_id : Uuid;
  js_request_digest : string;
  js_state : JobState;
  js_last_sequence : Z;
  js_terminal : option TerminalEvidence;
}.

(* crates/cluster-protocol/src/lib.rs:289-296 DispatchAccepted *)
Record DispatchAccepted := {
  da_execution_id : Uuid;
  da_worker_job_id : Uuid;
  da_request_digest : string;
  da_state : JobState;
  da_last_sequence : Z;
}.

(* crates/cluster-protocol/src/lib.rs:389-394 QuarantineRequest *)
Record QuarantineRequest := {
  qr_authority : RequestAuthority;
  qr_execution_id : Uuid;
  qr_reason : string;
}.

(* crates/cluster-protocol/src/lib.rs:374-379 EventAcknowledgement *)
Record EventAcknowledgement := {
  ack_authority : RequestAuthority;
  ack_execution_id : Uuid;
  ack_highest_contiguous_sequence : Z;
}.

(* crates/cluster-protocol/src/lib.rs:381-387 CancellationRequest *)
Record CancellationRequest := {
  cr_authority : RequestAuthority;
  cr_execution_id : Uuid;
  cr_graceful_timeout_seconds : Z;
  cr_terminate_timeout_seconds : Z;
}.

(* crates/cluster-protocol/src/lib.rs:403-413 CancellationPhase *)
Inductive CancellationPhase :=
| CpRequested | CpGraceful | CpTerminatingProcessGroup | CpKillingProcessGroup
| CpConfirmed | CpAlreadyTerminal | CpIndeterminate.

(* crates/cluster-protocol/src/lib.rs:396-401 CancellationStatus *)
Record CancellationStatus := {
  cs_execution_id : Uuid;
  cs_phase : CancellationPhase;
  cs_terminal : option TerminalEvidence;
}.

(* crates/cluster-protocol/src/lib.rs:130-136 WorkerCapabilities *)
Record WorkerCapabilities := {
  wc_executor_profiles : list string;
  wc_terminal : bool;
  wc_preview : bool;
  wc_persistent_process_adoption : bool;
}.

(* crates/cluster-protocol/src/lib.rs:138-153 ResourceSnapshot *)
Record ResourceSnapshot := {
  rs_cpu_count : Z;
  rs_load_1m : float;
  rs_available_memory_bytes : Z;
  rs_active_execution_count : Z;
  rs_memory_pressure_full_avg60 : option float;
  rs_io_pressure_full_avg60 : option float;
  rs_admission_refusing : bool;
}.

(* crates/cluster-protocol/src/lib.rs:168-178 MountFailureReason *)
Inductive MountFailureReason :=
| MfMissing | MfLocalFallback | MfWrongFilesystem | MfProbeNotVisible
| MfReadOnly | MfOwnershipMismatch | MfIoError.

(* crates/cluster-protocol/src/lib.rs:155-166 MountHealth *)
Inductive MountHealth :=
| MhHealthy (filesystem_id probe_id : string)
| MhUnhealthy (reason : MountFailureReason) (message : string).

(* crates/cluster-protocol/src/lib.rs:118-128 WorkerRegistration *)
Record WorkerRegistration := {
  wr_authority : RequestAuthority;
  wr_hostname : string;
  wr_worker_version : string;
  wr_vibe_version : string;
  wr_capabilities : WorkerCapabilities;
  wr_resources : ResourceSnapshot;
  wr_labels : gmap string string;
  wr_mount : MountHealth;
}.

(* crates/cluster-protocol/src/lib.rs:180-186 WorkerHeartbeat *)
Record WorkerHeartbeat := {
  wh_authority : RequestAuthority;
  wh_resources : ResourceSnapshot;
  wh_mount : MountHealth;
  wh_jobs : list JobSummary;
}.

(* crates/cluster-protocol/src/lib.rs:197-202 MountProbe *)
Record MountProbe := {
  mp_id : string;
  mp_relative_path : string;
  mp_expected_contents_digest : string;
}.

(* crates/cluster-protocol/src/lib.rs:188-195 CoordinatorLease *)
Record CoordinatorLease := {
  cl_accepted_protocol_version : Z;
  cl_heartbeat_interval_seconds : Z;
  cl_lease_expires_at : DateTime;
  cl_draining : bool;
  cl_probe : MountProbe;
}.

(* crates/cluster-protocol/src/lib.rs:251-259 WorkerMcpRefreshStatus *)
Inductive WorkerMcpRefreshStatus :=
| McpQueued | McpBusy | McpUnsupported | McpMaterializationFailed | McpReloadFailed.

(* crates/cluster-protocol/src/lib.rs:282-287 PersistencePolicy *)
Inductive PersistencePolicy := PpOrdinary | PpPersistent.

(** The records that carry arbitrary JSON are parametric in its type. *)
(* crates/cluster-protocol/src/lib.rs:238-242 McpConfigSnapshot *)
Record McpConfigSnapshot (Value : Type) := {
  mcs_executor : string;
  mcs_servers : gmap string Value;
}.
Arguments mcs_executor {_} _.
Arguments mcs_servers {_} _.

(* crates/cluster-protocol/src/lib.rs:261-267 WorkerMcpRefreshResult *)
Record WorkerMcpRefreshResult (Value : Type) := {
  wmr_status : WorkerMcpRefreshStatus;
  wmr_servers : list Value;
}.
Arguments wmr_status {_} _.
Arguments wmr_servers {_} _.

(* crates/cluster-protocol/src/lib.rs:204-234 ExecutionDispatch *)
Record ExecutionDispatch (Value : Type) := {
  ed_authority : RequestAuthority;
  ed_execution_id : Uuid;
  ed_workspace_id : Uuid;
  ed_session_id : Uuid;
  ed_workspace_path : string;
  ed_working_directory : string;
  ed_executor_profile : string;
  ed_executor_profile_config : option Value;
  ed_mcp_config_snapshot : option (McpConfigSnapshot Value);
  ed_action : Value;
  ed_environment : gmap string string;
  ed_run_reason : string;
  ed_timeout_seconds : option Z;
  ed_persistence : PersistencePolicy;
  ed_request_digest : string;
}.
Arguments ed_execution_id {_} _.
Arguments ed_workspace_id {_} _.
Arguments ed_workspace_path {_} _.
Arguments ed_working_directory {_} _.
Arguments ed_executor_profile_config {_} _.
Arguments ed_mcp_config_snapshot {_} _.
Arguments ed_action {_} _.
Arguments ed_environment {_} _.
Arguments ed_timeout_seconds {_} _.
Arguments ed_request_digest {_} _.

#[export] Instance TerminalState_eq_dec : EqDecision TerminalState.
Proof. solve_decision. Defined.
#[export] Instance TerminalEvidence_eq_dec : EqDecision TerminalEvidence.
Proof. solve_decision. Defined.
#[export] Instance JobState_eq_dec : EqDecision JobState.
Proof. solve_decision. Defined.
#[export] Instance DisconnectPolicy_eq_dec : EqDecision DisconnectPolicy.
Proof. solve_decision. Defined.
#[export] Instance InteractionRequest_eq_dec : EqDecision InteractionRequest.
Proof. solve_decision. Defined.
#[export] Instance PreviewTarget_eq_dec : EqDecision PreviewTarget.
Proof. solve_decision. Defined.
#[export] Instance ExecutionEventPayload_eq_dec : EqDecision ExecutionEventPayload.
Proof. solve_decision. Defined.
