(* ===== verification/Journal.v ===== *)
(** * The bounded per-execution event journal (crates/worker/src/journal.rs)

    [Journal] is the code: a ring of at most [capacity] events with sequence
    numbers of its own and the terminal evidence kept beside it.  [Log] is what
    the journal promises: an append-only history of which a window is retained.
    [refines] relates the two. *)
From S2P Require Import Prelude ClusterProtocol.

Module Journal.

(* crates/worker/src/journal.rs:14-21 EventJournal *)
Record EventJournal := {
  execution_id : Uuid;
  capacity : Z;
  next_sequence : Z;
  events : list ExecutionEvent;
  terminal : option TerminalEvidence;
}.

(* crates/worker/src/journal.rs:23-31 JournalError *)
Inductive JournalError := ZeroCapacity | SequenceExhausted | AlreadyTerminal.

(* crates/worker/src/journal.rs:34-46 EventJournal::new *)
Definition new (execution_id : Uuid) (capacity : Z)
    : result EventJournal JournalError :=
  if decide (capacity = 0) then Err ZeroCapacity
  else Ok {| execution_id := execution_id; capacity := capacity;
             next_sequence := 1; events := []; terminal := None |}.

(* crates/worker/src/journal.rs:58-63 EventJournal::recover *)
Definition terminal_payload (evidence : TerminalEvidence) : ExecutionEventPayload :=
  match te_state evidence with
  | TsCompleted => PCompleted evidence
  | TsFailed => PFailed evidence
  | TsKilled => PKilled evidence
  | TsInterrupted => PInterrupted evidence
  end.

(* crates/worker/src/journal.rs:48-75 EventJournal::recover *)
Definition recover (summary : JobSummary) (capacity : Z)
    (evidence : TerminalEvidence) : result EventJournal JournalError :=
  let? journal := new (js_execution_id summary) capacity in
  let? sequence :=
    ok_or (checked_add u64_max (js_last_sequence summary) 1) SequenceExhausted in
  let payload := terminal_payload evidence in
  let event := {| ev_execution_id := js_execution_id summary;
                  ev_sequence := sequence;
                  ev_worker_timestamp := te_observed_at evidence;
                  ev_payload := payload |} in
  let? next := ok_or (checked_add u64_max sequence 1) SequenceExhausted in
  Ok {| execution_id := execution_id journal;
        capacity := Journal.capacity journal;
        next_sequence := next;
        events := events journal ++ [event];
        terminal := Some evidence |}.

(* crates/worker/src/journal.rs:81-83 EventJournal::last_sequence *)
Definition last_sequence (j : EventJournal) : Z := next_sequence j - 1.

(* crates/worker/src/journal.rs:153-161 terminal_evidence *)
Definition terminal_evidence (payload : ExecutionEventPayload)
    : option TerminalEvidence :=
  match payload with
  | PCompleted evidence | PFailed evidence
  | PKilled evidence | PInterrupted evidence => Some evidence
  | _ => None
  end.

(** [append] returns the journal after the call with the call's result; every
    error path leaves the journal as it was. *)
(* crates/worker/src/journal.rs:93-124 EventJournal::append *)
Definition append (j : EventJournal) (worker_timestamp : DateTime)
    (payload : ExecutionEventPayload) : EventJournal * result Z JournalError :=
  match terminal j with
  | Some _ => (j, Err AlreadyTerminal)
  | None =>
      let terminal := terminal_evidence payload in
      let sequence := next_sequence j in
      match checked_add u64_max sequence 1 with
      | None => (j, Err SequenceExhausted)
      | Some next_sequence =>
          let event := {| ev_execution_id := execution_id j;
                          ev_sequence := sequence;
                          ev_worker_timestamp := worker_timestamp;
                          ev_payload := payload |} in
          let kept :=
            if decide (Z.of_nat (length (events j)) = capacity j)
            then tail (events j) else events j in
          ({| execution_id := execution_id j; capacity := capacity j;
              next_sequence := next_sequence;
              events := kept ++ [event];
              terminal := terminal |}, Ok sequence)
      end
  end.

(* crates/worker/src/journal.rs:128-150 EventJournal::replay_after *)
Definition replay_after (j : EventJournal) (after : Z) : EventBatch :=
  let earliest_available :=
    match head (events j) with
    | Some event => ev_sequence event
    | None => next_sequence j
    end in
  let latest_available := last_sequence j in
  let replay_gap := bool_decide (saturating_add u64_max after 1 < earliest_available) in
  let events := filter (fun event => after < ev_sequence event) (events j) in
  {| eb_execution_id := execution_id j;
     eb_requested_after := after;
     eb_earliest_available := earliest_available;
     eb_latest_available := latest_available;
     eb_replay_gap := replay_gap;
     eb_events := events |}.

End Journal.

(** ** The abstract history *)
Module Log.

(** The events an execution has ever published since the journal was opened at
    sequence [base] (0 for a new journal). *)
Record t := { id : Uuid; base : Z; entries : list (DateTime * ExecutionEventPayload) }.

Definition numbered_from (id : Uuid) (base : Z)
    (l : list (DateTime * ExecutionEventPayload)) : list ExecutionEvent :=
  imap (fun i '(at_, p) =>
    {| ev_execution_id := id; ev_sequence := base + Z.of_nat i + 1;
       ev_worker_timestamp := at_; ev_payload := p |}) l.

Definition numbered (l : t) : list ExecutionEvent :=
  numbered_from (id l) (base l) (entries l).

Definition closed (l : t) : option TerminalEvidence :=
  last (entries l) ≫= fun e => Journal.terminal_evidence e.2.

Definition last_sequence (l : t) : Z := base l + Z.of_nat (length (entries l)).

Definition push (l : t) (at_ : DateTime) (p : ExecutionEventPayload)
    : t * result Z Journal.JournalError :=
  match closed l with
  | Some _ => (l, Err Journal.AlreadyTerminal)
  | None =>
      if decide (last_sequence l + 1 < u64_max)
      then ({| id := id l; base := base l; entries := entries l ++ [(at_, p)] |},
            Ok (last_sequence l + 1))
      else (l, Err Journal.SequenceExhausted)
  end.

(** How many of the oldest events a window of [cap] events has dropped. *)
Definition trimmed (cap : Z) (l : t) : nat :=
  (length (entries l) - Z.to_nat cap)%nat.

(** The first sequence number of that window. *)
Definition first_retained (cap : Z) (l : t) : Z := base l + Z.of_nat (trimmed cap l) + 1.

End Log.

(** ** Facts about the numbered history *)

Lemma length_numbered l : length (Log.numbered l) = length (Log.entries l).
Proof. apply length_imap. Qed.

Lemma numbered_from_app i b l1 l2 :
  Log.numbered_from i b (l1 ++ l2) =
  Log.numbered_from i b l1 ++
  Log.numbered_from i (b + Z.of_nat (length l1)) l2.
Proof.
  unfold Log.numbered_from. rewrite imap_app. f_equal.
  apply imap_ext. intros k [t p] _. cbn. f_equal. lia.
Qed.

Lemma numbered_lookup l k e :
  Log.numbered l !! k = Some e -> ev_sequence e = Log.base l + Z.of_nat k + 1.
Proof.
  unfold Log.numbered, Log.numbered_from. rewrite list_lookup_imap.
  destruct (Log.entries l !! k) as [[t p]|]; [|done]. by intros [= <-].
Qed.

(** Filtering consecutive sequence numbers by [after <] drops a prefix. *)
Lemma filter_numbered_from i b es after :
  filter (fun e => after < ev_sequence e) (Log.numbered_from i b es) =
  drop (Z.to_nat (after - b)) (Log.numbered_from i b es).
Proof.
  revert b. induction es as [|[t p] es IH]; intros b; [by destruct (Z.to_nat _)|].
  assert (Log.numbered_from i b ((t, p) :: es) =
    {| ev_execution_id := i; ev_sequence := b + 1;
       ev_worker_timestamp := t; ev_payload := p |}
      :: Log.numbered_from i (b + 1) es) as ->.
  { change ((t, p) :: es) with ([(t, p)] ++ es).
    rewrite numbered_from_app. cbn. f_equal. f_equal. lia. }
  destruct (decide (after <= b)).
  - replace (Z.to_nat (after - b)) with 0%nat by lia. cbn [drop].
    rewrite filter_cons_True by (cbn; lia). f_equal.
    rewrite IH. replace (Z.to_nat (after - (b + 1))) with 0%nat by lia. done.
  - rewrite filter_cons_False by (cbn; lia). rewrite IH.
    replace (Z.to_nat (after - b)) with (S (Z.to_nat (after - (b + 1)))) by lia.
    done.
Qed.

Lemma drop_numbered_from i b es n :
  (n <= length es)%nat ->
  drop n (Log.numbered_from i b es) =
  Log.numbered_from i (b + Z.of_nat n) (drop n es).
Proof.
  intros Hn. rewrite <- (take_drop n es) at 1.
  rewrite numbered_from_app, length_take, Nat.min_l by lia.
  rewrite drop_app_length'; [done|].
  unfold Log.numbered_from. rewrite length_imap, length_take. lia.
Qed.

Lemma tail_drop {A} n (l : list A) : tail (drop n l) = drop (S n) l.
Proof. revert n. induction l as [|x l IH]; intros [|n]; cbn; auto. Qed.

(** ** Refinement *)

Record refines (j : Journal.EventJournal) (l : Log.t) : Prop := {
  ref_id : Journal.execution_id j = Log.id l;
  ref_capacity : 0 < Journal.capacity j;
  ref_base : 0 <= Log.base l;
  ref_next : Journal.next_sequence j = Log.last_sequence l + 1;
  ref_bound : Log.last_sequence l < u64_max;
  ref_events :
    Journal.events j = drop (Log.trimmed (Journal.capacity j) l) (Log.numbered l);
  ref_terminal : Journal.terminal j = Log.closed l;
}.

Lemma refines_length j l :
  refines j l ->
  length (Journal.events j) =
  (length (Log.entries l) - Log.trimmed (Journal.capacity j) l)%nat.
Proof. intros []. by rewrite ref_events0, length_drop, length_numbered. Qed.

(** A freshly opened journal refines the empty history that starts at
    sequence 0; a capacity of zero is the only error. *)
Lemma new_refines i cap :
  0 <= cap ->
  match Journal.new i cap with
  | Ok j => refines j {| Log.id := i; Log.base := 0; Log.entries := [] |}
  | Err e => e = Journal.ZeroCapacity /\ cap = 0
  end.
Proof.
  intros Hc. unfold Journal.new. case_decide; [done|].
  split; cbn; try done; unfold u64_max; lia.
Qed.

(** The eviction rule of [append] keeps exactly the window of the last
    [capacity] entries. *)
Lemma append_window j l l' ev :
  refines j l ->
  Log.numbered l' = Log.numbered l ++ [ev] ->
  (if decide (Z.of_nat (length (Journal.events j)) = Journal.capacity j)
   then tail (Journal.events j) else Journal.events j) ++ [ev] =
  drop (Log.trimmed (Journal.capacity j) l') (Log.numbered l').
Proof.
  intros R Hl'. pose proof (refines_length _ _ R) as Hlen.
  pose proof (ref_capacity _ _ R) as Hcap.
  assert (length (Log.entries l') = S (length (Log.entries l))) as Hn.
  { rewrite <- !length_numbered, Hl', length_app. cbn. lia. }
  pose proof (length_numbered l) as Hnum.
  unfold Log.trimmed in *. rewrite Hl', Hn. rewrite (ref_events _ _ R) in *.
  rewrite length_drop, Hnum in *. unfold Log.trimmed in *.
  set (n := length (Log.entries l)) in *. set (c := Z.to_nat (Journal.capacity j)).
  case_decide.
  - rewrite tail_drop, drop_app_le by (rewrite Hnum; lia).
    f_equal. f_equal. lia.
  - rewrite drop_app_le by (rewrite Hnum; lia). do 2 f_equal. lia.
Qed.

Lemma append_refines j l at_ p :
  refines j l ->
  (Journal.append j at_ p).2 = (Log.push l at_ p).2 /\
  refines (Journal.append j at_ p).1 (Log.push l at_ p).1.
Proof.
  intros R. destruct (R) as [Hid Hcap Hb Hn Hbd Hev Ht].
  unfold Journal.append, Log.push. rewrite Ht.
  destruct (Log.closed l) eqn:Hcl; [by split|].
  rewrite Hn. unfold checked_add.
  destruct (decide (Log.last_sequence l + 1 + 1 <= u64_max)) as [Hle|Hle];
    destruct (decide (Log.last_sequence l + 1 < u64_max)); try lia; [|by split].
  split; [done|]. cbn -[u64_max].
  split; cbn -[u64_max]; try done.
  - unfold Log.last_sequence. cbn. rewrite length_app. cbn. lia.
  - unfold Log.last_sequence in *. cbn. rewrite length_app. cbn. lia.
  - refine (append_window j l
      (Log.Build_t (Log.id l) (Log.base l) (Log.entries l ++ [(at_, p)])) _ R _).
    unfold Log.numbered. cbn [Log.id Log.base Log.entries].
    rewrite numbered_from_app. cbn. unfold Log.last_sequence.
    by rewrite Hid, Z.add_0_r.
  - unfold Log.closed. cbn. by rewrite last_snoc.
Qed.

(** A history that grows one accepted push at a time. *)
Fixpoint push_all (l : Log.t) (ps : list (DateTime * ExecutionEventPayload)) : Log.t :=
  match ps with
  | [] => l
  | (at_, p) :: ps => push_all (Log.push l at_ p).1 ps
  end.

Fixpoint append_all (j : Journal.EventJournal)
    (ps : list (DateTime * ExecutionEventPayload)) : Journal.EventJournal :=
  match ps with
  | [] => j
  | (at_, p) :: ps => append_all (Journal.append j at_ p).1 ps
  end.

Lemma append_all_refines ps : forall j l,
  refines j l -> refines (append_all j ps) (push_all l ps).
Proof.
  induction ps as [|[at_ p] ps IH]; intros j l R; [done|].
  by apply IH, append_refines.
Qed.

Lemma push_all_closed ps : forall l ev,
  Log.closed l = Some ev -> push_all l ps = l.
Proof.
  induction ps as [|[at_ p] ps IH]; intros l ev Hc; [done|].
  cbn. unfold Log.push. rewrite Hc. by eapply IH.
Qed.

(** A journal reopened on a job that ended while the worker was down holds the one
    terminal event. *)
Lemma recover_refines s cap ev :
  0 < cap -> 0 <= js_last_sequence s -> js_last_sequence s + 2 <= u64_max ->
  exists j, Journal.recover s cap ev = Ok j /\
    refines j {| Log.id := js_execution_id s; Log.base := js_last_sequence s;
                 Log.entries := [(te_observed_at ev, Journal.terminal_payload ev)] |}.
Proof.
  intros Hc H0 Hm. unfold Journal.recover, Journal.new, checked_add, ok_or.
  repeat (case_decide; try lia; cbn [rbind]). eexists. split; [done|].
  split; cbn -[u64_max]; try done; try lia.
  - unfold Log.last_sequence. cbn -[u64_max]. lia.
  - unfold Log.trimmed. cbn [length Log.entries].
    replace (1 - Z.to_nat cap)%nat with 0%nat by lia.
    cbn. do 2 f_equal. lia.
  - unfold Log.closed, Journal.terminal_payload. cbn. by destruct (te_state ev).
Qed.

(** The interface between a journal and whoever reads it through batches: the
    history a source holds, the first sequence number it retains of it, and what a
    replay then contains. *)
Class EventSource (J : Type) := {
  replay : J -> Z -> EventBatch;
  holds : J -> Log.t -> Z -> Prop;
  holds_bounds j l first :
    holds j l first ->
    0 <= Log.base l < first /\ first <= Log.last_sequence l + 1 /\
    Log.last_sequence l < u64_max;
  replay_holds j l first after :
    holds j l first -> 0 <= after <= u64_max ->
    let b := replay j after in
    eb_requested_after b = after /\
    eb_earliest_available b = first /\
    eb_latest_available b = Log.last_sequence l /\
    eb_events b = filter (fun e => after < ev_sequence e /\ first <= ev_sequence e)
                         (Log.numbered l) /\
    (eb_replay_gap b = true <-> after + 1 < first);
}.

Lemma refines_bounds j l :
  refines j l ->
  0 <= Log.base l < Log.first_retained (Journal.capacity j) l /\
  Log.first_retained (Journal.capacity j) l <= Log.last_sequence l + 1 /\
  Log.last_sequence l < u64_max.
Proof.
  intros R. destruct (R) as [_ Hcap Hb _ Hbd _ _].
  unfold Log.first_retained, Log.trimmed, Log.last_sequence in *. lia.
Qed.

Lemma replay_refines j l after :
  refines j l -> 0 <= after <= u64_max ->
  let b := Journal.replay_after j after in
  let first := Log.first_retained (Journal.capacity j) l in
  eb_requested_after b = after /\
  eb_earliest_available b = first /\
  eb_latest_available b = Log.last_sequence l /\
  eb_events b = filter (fun e => after < ev_sequence e /\ first <= ev_sequence e)
                       (Log.numbered l) /\
  (eb_replay_gap b = true <-> after + 1 < first).
Proof.
  intros R Ha b first. pose proof (refines_bounds j l R) as Hb0. fold first in Hb0.
  destruct (R) as [Hid Hcap Hb Hn Hbd Hev Ht].
  assert (eb_earliest_available b = first) as Hearly.
  { unfold b, Journal.replay_after, first. cbn. rewrite Hev, Hn.
    destruct (head _) as [e|] eqn:Hh.
    - rewrite head_lookup, lookup_drop, Nat.add_0_r in Hh.
      by apply numbered_lookup in Hh.
    - apply head_None, (f_equal length) in Hh.
      rewrite length_drop, length_numbered in Hh. cbn in Hh.
      unfold Log.first_retained, Log.last_sequence, Log.trimmed in *. lia. }
  split_and!; try done.
  - unfold b, Journal.replay_after, Journal.last_sequence. cbn. lia.
  - unfold b, Journal.replay_after. cbn. rewrite Hev.
    rewrite <- list_filter_filter.
    f_equal. rewrite (list_filter_iff _
      (fun e => Log.base l + Z.of_nat (Log.trimmed (Journal.capacity j) l)
                < ev_sequence e)) by (intros; unfold first, Log.first_retained; lia).
    unfold Log.numbered. rewrite filter_numbered_from. f_equal. lia.
  - change (eb_replay_gap b) with
      (bool_decide (saturating_add u64_max after 1 < eb_earliest_available b)).
    rewrite bool_decide_eq_true, Hearly. unfold saturating_add. lia.
Qed.

(** The worker's journal keeps the interface. *)
#[export] Instance journal_source : EventSource Journal.EventJournal.
Proof.
  refine {| replay := Journal.replay_after;
            holds j l first := refines j l /\ first = Log.first_retained (Journal.capacity j) l |}.
  - intros j l first [R ->]. by apply refines_bounds.
  - intros j l first after [R ->]. by apply replay_refines.
Defined.

(** Pushing events extends a history at its end. *)
Lemma push_all_extends ps : forall l,
  exists es, push_all l ps =
    {| Log.id := Log.id l; Log.base := Log.base l; Log.entries := Log.entries l ++ es |}.
Proof.
  induction ps as [|[at_ p] ps IH]; intros l; cbn.
  - exists []. rewrite app_nil_r. by destruct l.
  - destruct (IH (Log.push l at_ p).1) as [es ->]. unfold Log.push.
    destruct (Log.closed l); [eauto|]. case_decide; [|eauto].
    cbn. rewrite <- app_assoc. eauto.
Qed.

Lemma append_all_capacity ps : forall j,
  Journal.capacity (append_all j ps) = Journal.capacity j.
Proof.
  induction ps as [|[t p] ps IH]; intros j; cbn; [done|]. rewrite IH.
  unfold Journal.append. by repeat case_match.
Qed.

(** The events with sequence numbers in [(c, c']] are a segment of the history. *)
Lemma filter_window i b es c c' :
  filter (fun e => c < ev_sequence e <= c') (Log.numbered_from i b es) =
  drop (Z.to_nat (c - b)) (take (Z.to_nat (c' - b)) (Log.numbered_from i b es)).
Proof.
  revert b. induction es as [|[t p] es IH]; intros b; [by destruct (Z.to_nat _), (Z.to_nat _)|].
  change ((t, p) :: es) with ([(t, p)] ++ es). rewrite numbered_from_app. cbn [app].
  change (Log.numbered_from i b [(t, p)]) with
    [{| ev_execution_id := i; ev_sequence := b + Z.of_nat 0 + 1;
        ev_worker_timestamp := t; ev_payload := p |}]. cbn [app length].
  destruct (decide (c < b + 1 <= c')) as [Hin|Hout].
  - rewrite filter_cons_True by (cbn; lia). rewrite IH.
    replace (Z.to_nat (c - b)) with 0%nat by lia.
    replace (Z.to_nat (c' - b)) with (S (Z.to_nat (c' - (b + Z.of_nat 1)))) by lia.
    replace (Z.to_nat (c - (b + Z.of_nat 1))) with 0%nat by lia. done.
  - rewrite filter_cons_False by (cbn; lia). rewrite IH.
    destruct (decide (c' < b + 1)).
    + replace (Z.to_nat (c' - b)) with 0%nat by lia.
      replace (Z.to_nat (c' - (b + Z.of_nat 1))) with 0%nat by lia. by rewrite !take_0, !drop_nil.
    + replace (Z.to_nat (c' - b)) with (S (Z.to_nat (c' - (b + Z.of_nat 1)))) by lia.
      replace (Z.to_nat (c - b)) with (S (Z.to_nat (c - (b + Z.of_nat 1)))) by lia. done.
Qed.

Lemma filter_window_split i b es c c1 c2 :
  c <= c1 <= c2 ->
  filter (fun e => c < ev_sequence e <= c2) (Log.numbered_from i b es) =
  filter (fun e => c < ev_sequence e <= c1) (Log.numbered_from i b es) ++
  filter (fun e => c1 < ev_sequence e <= c2) (Log.numbered_from i b es).
Proof.
  intros Hc. rewrite !filter_window. set (L := Log.numbered_from i b es).
  assert (Z.to_nat (c - b) <= Z.to_nat (c1 - b) <= Z.to_nat (c2 - b))%nat by lia.
  set (n0 := Z.to_nat (c - b)) in *. set (n1 := Z.to_nat (c1 - b)) in *.
  set (n2 := Z.to_nat (c2 - b)) in *.
  replace (take n1 L) with (take n1 (take n2 L)) by (rewrite take_take; f_equal; lia).
  set (M := take n2 L). rewrite <- (take_drop n1 M) at 1.
  destruct (decide (n1 <= length M)%nat).
  - rewrite drop_app_le; [done|]. rewrite length_take. lia.
  - rewrite (drop_ge M n1) by lia. by rewrite !app_nil_r.
Qed.

(** ** What a reader of the journal gets *)

(** Replay is a window of the history: however many events were appended to a new
    journal, [replay_after] returns exactly the events after the reader's cursor
    among the last [capacity] ones, in order and numbered from 1 without holes, and
    raises the gap flag exactly when the reader's next event was evicted. *)
Theorem replay_is_a_window i cap ps after j :
  0 < cap -> 0 <= after <= u64_max -> Journal.new i cap = Ok j ->
  let history := push_all {| Log.id := i; Log.base := 0; Log.entries := [] |} ps in
  let first := Z.max 0 (Log.last_sequence history - cap) + 1 in
  let b := Journal.replay_after (append_all j ps) after in
  eb_events b = filter (fun e => after < ev_sequence e /\ first <= ev_sequence e)
                       (Log.numbered history) /\
  eb_latest_available b = Log.last_sequence history /\
  (eb_replay_gap b = true <-> after + 1 < first).
Proof.
  intros Hc Ha Hn history first b.
  pose proof (new_refines i cap ltac:(lia)) as R. rewrite Hn in R.
  assert (Journal.capacity j = cap) as Hj
    by (revert Hn; unfold Journal.new; case_decide; [lia|by intros [= <-]]).
  apply (append_all_refines ps) in R.
  destruct (replay_refines _ _ after R Ha) as (_ & _ & Hl & He & Hg).
  assert (Log.base history = 0) as Hb
    by (unfold history; by destruct (push_all_extends ps (Log.Build_t i 0 [])) as [es ->]).
  rewrite append_all_capacity, Hj in He, Hg. fold history in He, Hg, Hl.
  replace (Log.first_retained cap history) with first in He, Hg
    by (unfold first, Log.first_retained, Log.trimmed, Log.last_sequence; lia).
  done.
Qed.

Lemma replay_is_a_window_witness :
  exists j, Journal.new 1 2 = Ok j /\
    (fun e => ev_sequence e) <$> eb_events (Journal.replay_after
       (append_all j [(10, PAccepted); (11, PStarting); (12, PStdout "aGk=")]) 0) = [2; 3].
Proof.
  assert (Journal.new 1 2 = Ok {| Journal.execution_id := 1; Journal.capacity := 2;
    Journal.next_sequence := 1; Journal.events := []; Journal.terminal := None |}) as H
    by reflexivity.
  eexists. split; [exact H|].
  destruct (replay_is_a_window 1 2 [(10, PAccepted); (11, PStarting); (12, PStdout "aGk=")] 0 _
    ltac:(lia) ltac:(unfold u64_max; lia) H) as (-> & _). reflexivity.
Defined.

Lemma append_terminal_None j at_ p s :
  (Journal.append j at_ p).2 = Ok s -> Journal.terminal j = None.
Proof. unfold Journal.append. by destruct (Journal.terminal j). Qed.

Lemma append_all_terminal ps : forall j ev,
  Journal.terminal j = Some ev -> append_all j ps = j.
Proof.
  induction ps as [|[at_ p] ps IH]; intros j ev Hj; cbn; [done|].
  assert ((Journal.append j at_ p).1 = j) as ->; [|by eapply IH].
  unfold Journal.append. by rewrite Hj.
Qed.

(** Terminal evidence is never lost: once a terminal event was appended, whatever
    is appended afterwards is refused, the evidence stays, and every reader behind
    the terminal event receives it as the last event of its batch. *)
Theorem terminal_event_is_kept j at_ p ev s ps after :
  Journal.terminal_evidence p = Some ev -> (Journal.append j at_ p).2 = Ok s -> after < s ->
  let j' := append_all (Journal.append j at_ p).1 ps in
  j' = (Journal.append j at_ p).1 /\ Journal.terminal j' = Some ev /\
  last (eb_events (Journal.replay_after j' after)) =
    Some {| ev_execution_id := Journal.execution_id j; ev_sequence := s;
            ev_worker_timestamp := at_; ev_payload := p |}.
Proof.
  intros Hp Ha Hlt j'.
  assert (Journal.terminal (Journal.append j at_ p).1 = Some ev) as Ht.
  { revert Ha. unfold Journal.append.
    destruct (Journal.terminal j); [done|]. destruct (checked_add _ _ _); cbn; congruence. }
  unfold j'. rewrite (append_all_terminal ps _ ev) by done. do 2 (split; [done|]).
  pose proof (append_terminal_None j at_ p s Ha) as Hn.
  revert Ha. unfold Journal.append. rewrite Hn.
  destruct (checked_add _ _ _); [|done]. cbn. intros [= <-].
  rewrite filter_app, last_app, filter_cons_True by (cbn; lia). reflexivity.
Qed.

Lemma terminal_event_is_kept_witness :
  let done_ := {| te_state := TsCompleted; te_exit_code := Some 0; te_signal := None;
                  te_observed_at := 12 |} in
  let j := {| Journal.execution_id := 1%N; Journal.capacity := 1; Journal.next_sequence := 4;
              Journal.events := []; Journal.terminal := None |} in
  Journal.terminal (append_all (Journal.append j 12 (PCompleted done_)).1
                      [(13, PStarting)]) = Some done_.
Proof.
  intros done_ j.
  refine (proj1 (proj2 (terminal_event_is_kept j 12 (PCompleted done_) done_ 4 [(13, PStarting)] 0
    _ _ _))); [reflexivity|reflexivity|lia].
Defined.
