(* ===== verification/ClusterConfig.v ===== *)
(** * Cluster configuration (crates/services/src/services/cluster/config.rs)

    [from_lookup] reads the environment through a lookup function, applies the
    defaults and validates.  The parsers of third-party types ([Uuid], [Url],
    [IpAddr]) and of [f64] are parameters. *)
From Stdlib Require Import Floats Ascii.
From S2P Require Import Prelude Text Json.

Module ClusterConfig.

(* crates/services/src/services/cluster/config.rs:7-7 CLUSTER_ENABLED_ENV *)
Definition CLUSTER_ENABLED_ENV := "VK_CLUSTER_ENABLED"%string.
(* crates/services/src/services/cluster/config.rs:8-8 COORDINATOR_ID_ENV *)
Definition COORDINATOR_ID_ENV := "VK_CLUSTER_COORDINATOR_ID"%string.
(* crates/services/src/services/cluster/config.rs:9-9 SHARED_ROOT_ENV *)
Definition SHARED_ROOT_ENV := "VK_CLUSTER_SHARED_ROOT"%string.
(* crates/services/src/services/cluster/config.rs:10-10 EXPECTED_FILESYSTEM_ID_ENV *)
Definition EXPECTED_FILESYSTEM_ID_ENV := "VK_CLUSTER_EXPECTED_FILESYSTEM_ID"%string.
(* crates/services/src/services/cluster/config.rs:11-11 WORKER_ENDPOINTS_ENV *)
Definition WORKER_ENDPOINTS_ENV := "VK_CLUSTER_WORKER_ENDPOINTS"%string.
(* crates/services/src/services/cluster/config.rs:12-12 WORKER_SOURCE_ADDRESSES_ENV *)
Definition WORKER_SOURCE_ADDRESSES_ENV := "VK_CLUSTER_WORKER_SOURCE_ADDRESSES"%string.
(* crates/services/src/services/cluster/config.rs:13-13 HEARTBEAT_INTERVAL_SECONDS_ENV *)
Definition HEARTBEAT_INTERVAL_SECONDS_ENV := "VK_CLUSTER_HEARTBEAT_INTERVAL_SECONDS"%string.
(* crates/services/src/services/cluster/config.rs:14-14 LEASE_DURATION_SECONDS_ENV *)
Definition LEASE_DURATION_SECONDS_ENV := "VK_CLUSTER_LEASE_DURATION_SECONDS"%string.
(* crates/services/src/services/cluster/config.rs:15-15 LOAD_WEIGHT_ENV *)
Definition LOAD_WEIGHT_ENV := "VK_CLUSTER_LOAD_WEIGHT"%string.
(* crates/services/src/services/cluster/config.rs:16-16 ACTIVE_EXECUTION_WEIGHT_ENV *)
Definition ACTIVE_EXECUTION_WEIGHT_ENV := "VK_CLUSTER_ACTIVE_EXECUTION_WEIGHT"%string.

(* crates/services/src/services/cluster/config.rs:25-29 SchedulingWeights *)
Record SchedulingWeights := { load : float; active_executions : float }.

(* crates/services/src/services/cluster/config.rs:32-37 SchedulingWeights::default *)
Definition default_weights : SchedulingWeights :=
  {| load := 1.0; active_executions := 1.0 |}.

(* crates/services/src/services/cluster/config.rs:40-51 ClusterConfig *)
Record ClusterConfig (Url IpAddr : Type) := {
  enabled : bool;
  coordinator_id : option Uuid;
  shared_root : string;
  expected_filesystem_id : string;
  worker_endpoints : list Url;
  worker_source_addresses : list IpAddr;
  heartbeat_interval : Duration;
  lease_duration : Duration;
  scheduling_weights : SchedulingWeights;
}.
Arguments enabled {_ _} _.
Arguments coordinator_id {_ _} _.
Arguments shared_root {_ _} _.
Arguments expected_filesystem_id {_ _} _.
Arguments worker_endpoints {_ _} _.
Arguments worker_source_addresses {_ _} _.
Arguments heartbeat_interval {_ _} _.
Arguments lease_duration {_ _} _.
Arguments scheduling_weights {_ _} _.
Arguments Build_ClusterConfig {_ _}.

(* crates/services/src/services/cluster/config.rs:69-83 ClusterConfigError *)
Inductive ClusterConfigError :=
| InvalidValue (name value reason : string)
| MissingCoordinatorId
| SharedRootNotAbsolute
| LeaseNotLongerThanHeartbeat.

(* crates/services/src/services/cluster/config.rs:54-66 ClusterConfig::default *)
Definition default {Url IpAddr} : ClusterConfig Url IpAddr := {|
  enabled := false;
  coordinator_id := None;
  shared_root := "/srv/vibe-kanban-shared";
  expected_filesystem_id := "172.16.0.99:/var/nfs/shared/VibeKanban";
  worker_endpoints := [];
  worker_source_addresses := [];
  heartbeat_interval := from_secs 10;
  lease_duration := from_secs 30;
  scheduling_weights := default_weights;
|}.

Definition is_absolute (path : string) : bool := starts_with "/" path.

(* crates/services/src/services/cluster/config.rs:140-151 ClusterConfig::validate *)
Definition validate {Url IpAddr} (c : ClusterConfig Url IpAddr)
    : result unit ClusterConfigError :=
  if enabled c && bool_decide (coordinator_id c = None) then Err MissingCoordinatorId
  else if negb (is_absolute (shared_root c)) then Err SharedRootNotAbsolute
  else if bool_decide (lease_duration c <= heartbeat_interval c)
       then Err LeaseNotLongerThanHeartbeat
  else Ok tt.

(* crates/services/src/services/cluster/config.rs:154-158 nonempty *)
Definition nonempty (value : option string) : option string :=
  match trim <$> value with
  | Some v => if decide (v = EmptyString) then None else Some v
  | None => None
  end.

(* crates/services/src/services/cluster/config.rs:160-170 parse_bool *)
Definition parse_bool (name value : string) : result bool ClusterConfigError :=
  let v := to_ascii_lowercase value in
  if decide (v ∈ ["1"; "true"; "yes"; "on"])%string then Ok true
  else if decide (v ∈ ["0"; "false"; "no"; "off"])%string then Ok false
  else Err (InvalidValue name value "expected a boolean").

(* crates/services/src/services/cluster/config.rs:172-182 parse_positive_u64 *)
Definition parse_positive_u64 (name value : string) : result Z ClusterConfigError :=
  ok_or (z ← parse_uint u64_max value; if decide (0 < z) then Some z else None)
        (InvalidValue name value "expected a positive integer").

Section Parsers.
Context {Url IpAddr : Type}.
Context (parse_uuid : string -> option Uuid)
        (parse_f64 : string -> option float)
        (parse_url : string -> option Url)
        (url_scheme : Url -> string) (url_host_str : Url -> option string)
        (parse_ip : string -> option IpAddr).

(* crates/services/src/services/cluster/config.rs:184-194 parse_weight *)
Definition parse_weight (name value : string) : result float ClusterConfigError :=
  ok_or (f ← parse_f64 value;
         if f64_is_finite f && PrimFloat.leb 0 f then Some f else None)
        (InvalidValue name value "expected a finite non-negative number").

Definition endpoints_reason : string :=
  "expected a comma-separated list of absolute HTTP(S) URLs".

(* crates/services/src/services/cluster/config.rs:201-214 parse_worker_endpoints *)
Definition parse_worker_endpoint (endpoint : string) : result Url ClusterConfigError :=
  let? url := ok_or (parse_url endpoint)
                    (InvalidValue WORKER_ENDPOINTS_ENV endpoint endpoints_reason) in
  if bool_decide (url_scheme url ∈ ["http"; "https"]%string)
     && bool_decide (url_host_str url <> None)
  then Ok url
  else Err (InvalidValue WORKER_ENDPOINTS_ENV endpoint endpoints_reason).

(** Collecting an iterator of results stops at the first error. *)
Fixpoint collect {A B E} (f : A -> result B E) (l : list A) : result (list B) E :=
  match l with
  | [] => Ok []
  | a :: l => let? b := f a in let? bs := collect f l in Ok (b :: bs)
  end.

Definition comma_separated (value : string) : list string :=
  filter (fun s => s <> EmptyString) (trim <$> split_char ","%char value).

(* crates/services/src/services/cluster/config.rs:196-218 parse_worker_endpoints *)
Definition parse_worker_endpoints (value : string) : result (list Url) ClusterConfigError :=
  collect parse_worker_endpoint (comma_separated value).

(* crates/services/src/services/cluster/config.rs:220-235 parse_worker_source_addresses *)
Definition parse_worker_source_addresses (value : string)
    : result (list IpAddr) ClusterConfigError :=
  collect (fun address =>
    ok_or (parse_ip address)
      (InvalidValue WORKER_SOURCE_ADDRESSES_ENV address
                    "expected a comma-separated list of IP addresses"))
    (comma_separated value).

(** [if let Some(value) = nonempty(lookup(name)) { field = parse(value)? }] *)
Definition read {A} (lookup : string -> option string) (name : string)
    (parse : string -> result A ClusterConfigError) (dflt : A)
    : result A ClusterConfigError :=
  match nonempty (lookup name) with
  | Some value => parse value
  | None => Ok dflt
  end.

(* crates/services/src/services/cluster/config.rs:90-138 ClusterConfig::from_lookup *)
Definition from_lookup (lookup : string -> option string)
    : result (ClusterConfig Url IpAddr) ClusterConfigError :=
  let d := default (Url := Url) (IpAddr := IpAddr) in
  let? enabled := read lookup CLUSTER_ENABLED_ENV
    (parse_bool CLUSTER_ENABLED_ENV) (enabled d) in
  let? coordinator_id := read lookup COORDINATOR_ID_ENV
    (fun v => match parse_uuid v with
              | Some u => Ok (Some u)
              | None => Err (InvalidValue COORDINATOR_ID_ENV v "expected a UUID")
              end) (coordinator_id d) in
  let? shared_root := read lookup SHARED_ROOT_ENV Ok (shared_root d) in
  let? fs_id := read lookup EXPECTED_FILESYSTEM_ID_ENV Ok (expected_filesystem_id d) in
  let? endpoints := read lookup WORKER_ENDPOINTS_ENV
    parse_worker_endpoints (worker_endpoints d) in
  let? addresses := read lookup WORKER_SOURCE_ADDRESSES_ENV
    parse_worker_source_addresses (worker_source_addresses d) in
  let? heartbeat := read lookup HEARTBEAT_INTERVAL_SECONDS_ENV
    (fun v => let? s := parse_positive_u64 HEARTBEAT_INTERVAL_SECONDS_ENV v in
              Ok (from_secs s)) (heartbeat_interval d) in
  let? lease := read lookup LEASE_DURATION_SECONDS_ENV
    (fun v => let? s := parse_positive_u64 LEASE_DURATION_SECONDS_ENV v in
              Ok (from_secs s)) (lease_duration d) in
  let? load_weight := read lookup LOAD_WEIGHT_ENV
    (parse_weight LOAD_WEIGHT_ENV) (load (scheduling_weights d)) in
  let? exec_weight := read lookup ACTIVE_EXECUTION_WEIGHT_ENV
    (parse_weight ACTIVE_EXECUTION_WEIGHT_ENV)
    (active_executions (scheduling_weights d)) in
  let config := {|
    enabled := enabled; coordinator_id := coordinator_id;
    shared_root := shared_root; expected_filesystem_id := fs_id;
    worker_endpoints := endpoints; worker_source_addresses := addresses;
    heartbeat_interval := heartbeat; lease_duration := lease;
    scheduling_weights := {| load := load_weight; active_executions := exec_weight |}
  |} in
  let? _ := validate config in
  Ok config.

End Parsers.
End ClusterConfig.

(** ** What an accepted configuration guarantees *)

Import ClusterConfig.

(** A field read by [read] has every property of the default and of the
    parser's results. *)
Lemma read_ok {A} (P : A -> Prop) lookup name parse dflt a :
  P dflt -> (forall v x, parse v = Ok x -> P x) ->
  read lookup name parse dflt = Ok a -> P a.
Proof. intros Hd Hp. unfold read. destruct (nonempty _); [apply Hp|]. by intros [= <-]. Qed.

Lemma parse_positive_ok name v z :
  parse_positive_u64 name v = Ok z -> 0 < z <= u64_max.
Proof.
  unfold parse_positive_u64. destruct (parse_uint u64_max v) as [x|] eqn:Hx; [|done].
  cbn [mbind option_bind]. case_decide; [|done]. intros [= <-].
  apply parse_uint_bound in Hx; [lia|done].
Qed.

Lemma parse_interval_ok name v z :
  (let? s := parse_positive_u64 name v in Ok (from_secs s)) = Ok z ->
  0 < z <= from_secs u64_max.
Proof.
  autorewrite with results. intros (s & ?%parse_positive_ok & [= <-]).
  unfold from_secs, nanos_per_second. lia.
Qed.

Definition good_weight (f : float) : Prop :=
  f64_is_finite f = true /\ PrimFloat.leb 0 f = true.

Lemma parse_weight_ok parse_f64 name v f :
  parse_weight parse_f64 name v = Ok f -> good_weight f.
Proof.
  unfold parse_weight. destruct (parse_f64 v) as [x|]; [|done]. cbn [mbind option_bind].
  destruct (_ && _) eqn:H; [|done]. intros [= <-]. by apply andb_prop in H.
Qed.

Lemma collect_ok {A B E} (f : A -> result B E) l bs :
  collect f l = Ok bs -> Forall2 (fun a b => f a = Ok b) l bs.
Proof.
  revert bs. induction l as [|a l IH]; cbn; intros bs; [by intros [= <-]|].
  autorewrite with results. intros (b & Hb & (bs' & Hbs & [= <-])%rbind_ok).
  constructor; auto.
Qed.

Section Sound.
Context {Url IpAddr : Type}.
Context (parse_uuid : string -> option Uuid) (parse_f64 : string -> option float)
        (parse_url : string -> option Url)
        (url_scheme : Url -> string) (url_host_str : Url -> option string)
        (parse_ip : string -> option IpAddr).

Definition http_endpoint (u : Url) : Prop :=
  (url_scheme u ∈ ["http"; "https"]%string) /\ url_host_str u <> None.

Lemma parse_worker_endpoints_ok v us :
  parse_worker_endpoints parse_url url_scheme url_host_str v = Ok us ->
  Forall http_endpoint us.
Proof.
  unfold parse_worker_endpoints. intros H%collect_ok.
  induction H as [|e u es us He _ IH]; constructor; [|done].
  unfold parse_worker_endpoint in He. apply rbind_ok in He as (x & _ & He).
  destruct (_ && _) eqn:Hb; [|done]. injection He as <-.
  apply andb_prop in Hb as [H1%bool_decide_eq_true H2%bool_decide_eq_true]. done.
Qed.

Lemma validate_ok (c : ClusterConfig Url IpAddr) x :
  validate c = Ok x ->
  (enabled c = true -> coordinator_id c <> None) /\
  is_absolute (shared_root c) = true /\ heartbeat_interval c < lease_duration c.
Proof.
  unfold validate. destruct (enabled c); repeat case_bool_decide; cbn;
    destruct (is_absolute (shared_root c)); cbn; try done.
  all: intros _; split_and!; [done|done|lia].
Qed.

(** C40: Every configuration [from_lookup] accepts is well formed: a coordinator
    identity when clustering is on, an absolute shared root, positive intervals
    with the lease longer than the heartbeat, finite non-negative weights and
    HTTP(S) worker endpoints. *)
Theorem from_lookup_sound lookup c :
  from_lookup parse_uuid parse_f64 parse_url url_scheme url_host_str parse_ip lookup
    = Ok c ->
  (enabled c = true -> coordinator_id c <> None) /\
  is_absolute (shared_root c) = true /\
  0 < heartbeat_interval c < lease_duration c /\
  lease_duration c <= from_secs u64_max /\
  good_weight (load (scheduling_weights c)) /\
  good_weight (active_executions (scheduling_weights c)) /\
  Forall http_endpoint (worker_endpoints c).
Proof.
  unfold from_lookup. intros H. ok_inv. simplify_eq.
  repeat match goal with
  | H : read _ _ (fun v => let? s := _ in _) _ = Ok _ |- _ =>
      apply (read_ok (fun z => 0 < z <= from_secs u64_max)) in H;
      [|done|apply parse_interval_ok]
  | H : read _ _ (parse_weight _ _) _ = Ok _ |- _ =>
      apply (read_ok good_weight) in H; [|done|by intros; eapply parse_weight_ok]
  | H : read _ _ (parse_worker_endpoints _ _ _) _ = Ok _ |- _ =>
      apply (read_ok (Forall http_endpoint)) in H;
      [|by constructor|apply parse_worker_endpoints_ok]
  end.
  match goal with H : validate _ = Ok _ |- _ =>
    apply validate_ok in H as (? & ? & ?) end.
  cbn -[from_secs u64_max] in *. split_and!; try done; lia.
Qed.
End Sound.

(** A deployment that sets the coordinator, the intervals and one worker. *)
Definition sample_lookup (name : string) : option string :=
  if decide (name = CLUSTER_ENABLED_ENV) then Some " on "%string
  else if decide (name = COORDINATOR_ID_ENV) then Some "42"%string
  else if decide (name = HEARTBEAT_INTERVAL_SECONDS_ENV) then Some "5"%string
  else if decide (name = LEASE_DURATION_SECONDS_ENV) then Some "20"%string
  else if decide (name = WORKER_ENDPOINTS_ENV) then Some "http://w1, ,http://w2"%string
  else None.

Abbreviation sample_config :=
  (from_lookup (fun v => Z.to_N <$> parse_uint u64_max v) (fun _ => None) (Some (A := string))
     (fun _ => "http"%string) (fun u => Some u) (Some (A := string)) sample_lookup).

Lemma from_lookup_sound_witness :
  exists c, sample_config = Ok c /\ worker_endpoints c = ["http://w1"; "http://w2"]%string /\
    0 < heartbeat_interval c < lease_duration c.
Proof.
  assert (exists c, sample_config = Ok c /\
    worker_endpoints c = ["http://w1"; "http://w2"]%string) as (c & Hc & He)
    by (eexists; split; vm_compute; reflexivity).
  exists c. split; [exact Hc|]. split; [exact He|].
  destruct (from_lookup_sound _ _ _ _ _ _ _ _ Hc) as (_ & _ & H & _). exact H.
Defined.
