(* ===== verification/WorkerNode.v ===== *)
(** * The worker registry table (crates/db/src/models/worker_node.rs)

    The table is a map from the primary key; every SQL statement is a function
    on it.  The clock readings of [datetime('now', 'subsec')] are arguments. *)
From S2P Require Import Prelude.

Module WorkerNode.

(* crates/db/src/models/worker_node.rs:8-16 WorkerNodeStatus *)
Inductive WorkerNodeStatus := Online | Offline | Draining.

(* crates/db/src/models/worker_node.rs:18-31 WorkerMountStatus *)
Inductive WorkerMountStatus :=
| MsHealthy | MsMissing | MsLocalFallback | MsWrongFilesystem
| MsProbeNotVisible | MsReadOnly | MsOwnershipMismatch | MsIoError.

(* crates/db/src/models/worker_node.rs:34-36 WorkerMountStatus::is_healthy *)
Definition is_healthy (s : WorkerMountStatus) : bool :=
  match s with MsHealthy => true | _ => false end.

#[global] Instance WorkerNodeStatus_eq_dec : EqDecision WorkerNodeStatus.
Proof. solve_decision. Defined.
#[global] Instance WorkerMountStatus_eq_dec : EqDecision WorkerMountStatus.
Proof. solve_decision. Defined.

Section Table.
Context {Value : Type}.

(* crates/db/src/models/worker_node.rs:39-58 WorkerNode *)
Record WorkerNode := {
  id : Uuid;
  hostname : string;
  status : WorkerNodeStatus;
  worker_version : string;
  vibe_version : string;
  capabilities : Value;
  resource_snapshot : Value;
  labels : Value;
  mount_status : WorkerMountStatus;
  mount_message : option string;
  last_heartbeat_at : option DateTime;
  lease_expires_at : option DateTime;
  created_at : DateTime;
  updated_at : DateTime;
}.

(* crates/db/src/models/worker_node.rs:60-73 UpsertWorkerNode *)
Record UpsertWorkerNode := {
  u_id : Uuid;
  u_hostname : string;
  u_worker_version : string;
  u_vibe_version : string;
  u_capabilities : Value;
  u_resource_snapshot : Value;
  u_labels : Value;
  u_mount_status : WorkerMountStatus;
  u_mount_message : option string;
  u_heartbeat_at : DateTime;
  u_lease_expires_at : DateTime;
}.

Inductive DbError := RowNotFound | UniqueViolation.

Definition set_status (s : WorkerNodeStatus) (now : DateTime) (w : WorkerNode)
    : WorkerNode :=
  {| id := id w; hostname := hostname w; status := s;
     worker_version := worker_version w; vibe_version := vibe_version w;
     capabilities := capabilities w; resource_snapshot := resource_snapshot w;
     labels := labels w; mount_status := mount_status w;
     mount_message := mount_message w; last_heartbeat_at := last_heartbeat_at w;
     lease_expires_at := lease_expires_at w; created_at := created_at w;
     updated_at := now |}.

(** [ORDER BY hostname, id] *)
Definition hostname_id_le (a b : WorkerNode) : Prop :=
  match String.compare (hostname a) (hostname b) with
  | Lt => True
  | Gt => False
  | Eq => (id a <= id b)%N
  end.

#[global] Instance hostname_id_le_dec a b : Decision (hostname_id_le a b).
Proof. unfold hostname_id_le. destruct (String.compare _ _); apply _. Defined.

(* crates/db/src/models/worker_node.rs:83-87 WorkerNode::fetch_all *)
Definition fetch_all (t : gmap Uuid WorkerNode) : list WorkerNode :=
  merge_sort hostname_id_le (map_to_list t).*2.

(* crates/db/src/models/worker_node.rs:89-94 WorkerNode::find_by_id *)
Definition find_by_id (t : gmap Uuid WorkerNode) (i : Uuid) : option WorkerNode :=
  t !! i.

(** The unique index on [hostname] refuses a row of another worker. *)
Definition hostname_taken (t : gmap Uuid WorkerNode) (i : Uuid) (h : string) : Prop :=
  map_Exists (fun k w => k <> i /\ hostname w = h) t.

(* crates/db/src/models/worker_node.rs:101-124 WorkerNode::upsert_heartbeat *)
Definition upserted (old : option WorkerNode) (w : UpsertWorkerNode) (now : DateTime)
    : WorkerNode :=
  {| id := u_id w;
     hostname := u_hostname w;
     status := match old with
               | Some o => if decide (status o = Draining) then Draining else Online
               | None => Online
               end;
     worker_version := u_worker_version w;
     vibe_version := u_vibe_version w;
     capabilities := u_capabilities w;
     resource_snapshot := u_resource_snapshot w;
     labels := u_labels w;
     mount_status := u_mount_status w;
     mount_message := u_mount_message w;
     last_heartbeat_at := Some (u_heartbeat_at w);
     lease_expires_at := Some (u_lease_expires_at w);
     created_at := match old with Some o => created_at o | None => now end;
     updated_at := now |}.

(* crates/db/src/models/worker_node.rs:96-142 WorkerNode::upsert_heartbeat *)
Definition upsert_heartbeat (t : gmap Uuid WorkerNode) (w : UpsertWorkerNode)
    (now : DateTime) : gmap Uuid WorkerNode * result WorkerNode DbError :=
  if decide (hostname_taken t (u_id w) (u_hostname w)) then (t, Err UniqueViolation)
  else
    let t' := <[u_id w := upserted (t !! u_id w) w now]> t in
    (t', ok_or (find_by_id t' (u_id w)) RowNotFound).

(** An [UPDATE ... WHERE id = ?] and the number of rows it affected. *)
Definition update_by_id (t : gmap Uuid WorkerNode) (i : Uuid)
    (f : WorkerNode -> WorkerNode) : gmap Uuid WorkerNode * bool :=
  (alter f i t, bool_decide (is_Some (t !! i))).

(* crates/db/src/models/worker_node.rs:144-158 WorkerNode::set_draining *)
Definition set_draining (t : gmap Uuid WorkerNode) (i : Uuid) (draining : bool)
    (now : DateTime) : gmap Uuid WorkerNode * bool :=
  let status := if draining then Draining else Offline in
  update_by_id t i (set_status status now).

Definition lease_lapsed (now : DateTime) (w : WorkerNode) : bool :=
  match lease_expires_at w with
  | None => true
  | Some e => bool_decide (e <= now)
  end.

(* crates/db/src/models/worker_node.rs:160-173 WorkerNode::expire_leases *)
Definition expire_leases (t : gmap Uuid WorkerNode) (now clock : DateTime)
    : gmap Uuid WorkerNode * nat :=
  let hit w := bool_decide (status w = Online) && lease_lapsed now w in
  ((fun w => if hit w then set_status Offline clock w else w) <$> t,
   size (filter (fun kw => hit kw.2 = true) t)).

(* crates/db/src/models/worker_node.rs:175-183 WorkerNode::mark_offline *)
Definition mark_offline (t : gmap Uuid WorkerNode) (i : Uuid) (now : DateTime)
    : gmap Uuid WorkerNode * bool :=
  update_by_id t i (set_status Offline now).

End Table.
Arguments WorkerNode : clear implicits.
Arguments UpsertWorkerNode : clear implicits.

End WorkerNode.
