(* ===== verification/Registry.v ===== *)
(** * Worker registration and heartbeats (crates/services/src/services/cluster/registry.rs)

    Every accepted message carries mount evidence for a challenge the
    coordinator chose and renews the worker's lease.  chrono's checked addition
    of a [std] duration and serde's serialisers are parameters. *)
From S2P Require Import Prelude ClusterProtocol ClusterConfig WorkerNode.

Module Registry.

(* crates/services/src/services/cluster/registry.rs:13-13 MAX_MOUNT_ID_BYTES *)
Definition MAX_MOUNT_ID_BYTES : Z := 256.
(* crates/services/src/services/cluster/registry.rs:14-14 MAX_MOUNT_MESSAGE_BYTES *)
Definition MAX_MOUNT_MESSAGE_BYTES : Z := 512.

(* crates/services/src/services/cluster/registry.rs:16-20 MountChallenge *)
Record MountChallenge := {
  probe : MountProbe;
  expected_filesystem_id : string;
}.

(* crates/services/src/services/cluster/registry.rs:22-30 MountEvidenceError *)
Inductive MountEvidenceError :=
| InvalidField (field : string)
| ProbeMismatch (expected actual : string)
| FilesystemMismatch (expected actual : string).

(* crates/services/src/services/cluster/registry.rs:32-48 WorkerRegistryError *)
Inductive WorkerRegistryError :=
| MissingCoordinatorId
| UnsupportedProtocol (actual expected : Z)
| WrongCoordinator (actual expected : Uuid)
| WorkerNotRegistered (id : Uuid)
| InvalidMountEvidence (e : MountEvidenceError)
| Serialization
| Database (e : WorkerNode.DbError).

(* crates/services/src/services/cluster/registry.rs:245-251 bounded *)
Definition bounded (field value : string) (max : Z) : result unit MountEvidenceError :=
  if bool_decide (value = EmptyString) || bool_decide (max < str_len value)
  then Err (InvalidField field) else Ok tt.

(* crates/services/src/services/cluster/registry.rs:253-263 failure_status *)
Definition failure_status (reason : MountFailureReason) : WorkerNode.WorkerMountStatus :=
  match reason with
  | MfMissing => WorkerNode.MsMissing
  | MfLocalFallback => WorkerNode.MsLocalFallback
  | MfWrongFilesystem => WorkerNode.MsWrongFilesystem
  | MfProbeNotVisible => WorkerNode.MsProbeNotVisible
  | MfReadOnly => WorkerNode.MsReadOnly
  | MfOwnershipMismatch => WorkerNode.MsOwnershipMismatch
  | MfIoError => WorkerNode.MsIoError
  end.

(* crates/services/src/services/cluster/registry.rs:196-243 validate_mount_evidence *)
Definition validate_mount_evidence (evidence : MountHealth) (challenge : MountChallenge)
    : result (WorkerNode.WorkerMountStatus * option string) MountEvidenceError :=
  let? _ := bounded "challenge probe ID" (mp_id (probe challenge)) MAX_MOUNT_ID_BYTES in
  let? _ := bounded "challenge filesystem ID" (expected_filesystem_id challenge)
                    MAX_MOUNT_ID_BYTES in
  match evidence with
  | MhHealthy filesystem_id probe_id =>
      let? _ := bounded "filesystem ID" filesystem_id MAX_MOUNT_ID_BYTES in
      let? _ := bounded "probe ID" probe_id MAX_MOUNT_ID_BYTES in
      if bool_decide (probe_id <> mp_id (probe challenge)) then
        Err (ProbeMismatch (mp_id (probe challenge)) probe_id)
      else if bool_decide (filesystem_id <> expected_filesystem_id challenge) then
        Err (FilesystemMismatch (expected_filesystem_id challenge) filesystem_id)
      else Ok (WorkerNode.MsHealthy, None)
  | MhUnhealthy reason message =>
      if bool_decide (MAX_MOUNT_MESSAGE_BYTES < str_len message) then
        Err (InvalidField "mount diagnostic")
      else Ok (failure_status reason,
               if bool_decide (message = EmptyString) then None else Some message)
  end.

Section Registry.
Context {Value Url IpAddr : Type}.
Context (capabilities_to_value : WorkerCapabilities -> option Value)
        (resources_to_value : ResourceSnapshot -> option Value)
        (labels_to_value : gmap string string -> option Value).
(** [t + TimeDelta::from_std(d).expect(..)]: [None] when either step panics. *)
Context (add_std : DateTime -> Duration -> option DateTime).
Context (config : ClusterConfig.ClusterConfig Url IpAddr).

Abbreviation table := (gmap Uuid (WorkerNode.WorkerNode Value)).

(* crates/services/src/services/cluster/registry.rs:144-166 WorkerRegistry::validate_authority *)
Definition validate_authority (protocol_version : Z) (coordinator_id : Uuid)
    : result unit WorkerRegistryError :=
  if bool_decide (protocol_version <> PROTOCOL_VERSION) then
    Err (UnsupportedProtocol protocol_version PROTOCOL_VERSION)
  else
    let? expected := ok_or (ClusterConfig.coordinator_id config) MissingCoordinatorId in
    if bool_decide (coordinator_id <> expected) then
      Err (WrongCoordinator coordinator_id expected)
    else Ok tt.

(* crates/services/src/services/cluster/registry.rs:168-172 WorkerRegistry::lease_expires_at *)
Definition lease_expires_at (received_at : DateTime) : option DateTime :=
  add_std received_at (ClusterConfig.lease_duration config).

(** The heartbeat interval in whole seconds must fit a [u32]. *)
(* crates/services/src/services/cluster/registry.rs:174-192 WorkerRegistry::lease *)
Definition lease (worker : WorkerNode.WorkerNode Value) (probe : MountProbe)
    (lease_expires_at : DateTime) : option CoordinatorLease :=
  let secs := ClusterConfig.heartbeat_interval config / nanos_per_second in
  if bool_decide (secs <= u32_max) then
    Some {| cl_accepted_protocol_version := PROTOCOL_VERSION;
            cl_heartbeat_interval_seconds := secs;
            cl_lease_expires_at := lease_expires_at;
            cl_draining := bool_decide (WorkerNode.status worker = WorkerNode.Draining);
            cl_probe := probe |}
  else None.

(** The tail both handlers share: write the row, answer with the lease. *)
(* crates/services/src/services/cluster/registry.rs:73-92 WorkerRegistry::register *)
Definition commit (t : table) (row : WorkerNode.UpsertWorkerNode Value)
    (probe : MountProbe) (clock : DateTime)
    : outcome table (result (WorkerNode.WorkerNode Value * CoordinatorLease)
                            WorkerRegistryError) :=
  match WorkerNode.upsert_heartbeat t row clock with
  | (t', Err e) => Returned t' (Err (Database e))
  | (t', Ok worker) =>
      match lease worker probe (WorkerNode.u_lease_expires_at row) with
      | None => Panicked t'
      | Some l => Returned t' (Ok (worker, l))
      end
  end.

(* crates/services/src/services/cluster/registry.rs:61-93 WorkerRegistry::register *)
Definition register (t : table) (registration : WorkerRegistration)
    (challenge : MountChallenge) (received_at clock : DateTime)
    : outcome table (result (WorkerNode.WorkerNode Value * CoordinatorLease)
                            WorkerRegistryError) :=
  let authority := wr_authority registration in
  match
    let? _ := validate_authority (ra_protocol_version authority)
                                 (ra_coordinator_id authority) in
    map_err InvalidMountEvidence
      (validate_mount_evidence (wr_mount registration) challenge)
  with
  | Err e => Returned t (Err e)
  | Ok (mount_status, mount_message) =>
      match lease_expires_at received_at with
      | None => Panicked t
      | Some lease_expires_at =>
          match capabilities_to_value (wr_capabilities registration),
                resources_to_value (wr_resources registration),
                labels_to_value (wr_labels registration) with
          | Some capabilities, Some resource_snapshot, Some labels =>
              commit t {| WorkerNode.u_id := ra_worker_node_id authority;
                          WorkerNode.u_hostname := wr_hostname registration;
                          WorkerNode.u_worker_version := wr_worker_version registration;
                          WorkerNode.u_vibe_version := wr_vibe_version registration;
                          WorkerNode.u_capabilities := capabilities;
                          WorkerNode.u_resource_snapshot := resource_snapshot;
                          WorkerNode.u_labels := labels;
                          WorkerNode.u_mount_status := mount_status;
                          WorkerNode.u_mount_message := mount_message;
                          WorkerNode.u_heartbeat_at := received_at;
                          WorkerNode.u_lease_expires_at := lease_expires_at |}
                     (probe challenge) clock
          | _, _, _ => Returned t (Err Serialization)
          end
      end
  end.

(* crates/services/src/services/cluster/registry.rs:95-130 WorkerRegistry::heartbeat *)
Definition heartbeat (t : table) (hb : WorkerHeartbeat)
    (challenge : MountChallenge) (received_at clock : DateTime)
    : outcome table (result (WorkerNode.WorkerNode Value * CoordinatorLease)
                            WorkerRegistryError) :=
  let authority := wh_authority hb in
  let id := ra_worker_node_id authority in
  match
    let? _ := validate_authority (ra_protocol_version authority)
                                 (ra_coordinator_id authority) in
    let? current := ok_or (WorkerNode.find_by_id t id) (WorkerNotRegistered id) in
    let? mount := map_err InvalidMountEvidence
                    (validate_mount_evidence (wh_mount hb) challenge) in
    Ok (current, mount)
  with
  | Err e => Returned t (Err e)
  | Ok (current, (mount_status, mount_message)) =>
      match lease_expires_at received_at with
      | None => Panicked t
      | Some lease_expires_at =>
          match resources_to_value (wh_resources hb) with
          | Some resource_snapshot =>
              commit t {| WorkerNode.u_id := id;
                          WorkerNode.u_hostname := WorkerNode.hostname current;
                          WorkerNode.u_worker_version := WorkerNode.worker_version current;
                          WorkerNode.u_vibe_version := WorkerNode.vibe_version current;
                          WorkerNode.u_capabilities := WorkerNode.capabilities current;
                          WorkerNode.u_resource_snapshot := resource_snapshot;
                          WorkerNode.u_labels := WorkerNode.labels current;
                          WorkerNode.u_mount_status := mount_status;
                          WorkerNode.u_mount_message := mount_message;
                          WorkerNode.u_heartbeat_at := received_at;
                          WorkerNode.u_lease_expires_at := lease_expires_at |}
                     (probe challenge) clock
          | None => Returned t (Err Serialization)
          end
      end
  end.

(* crates/services/src/services/cluster/registry.rs:132-138 WorkerRegistry::set_draining *)
Definition set_draining (t : table) (worker_node_id : Uuid) (draining : bool)
    (clock : DateTime) : table * bool :=
  WorkerNode.set_draining t worker_node_id draining clock.

(* crates/services/src/services/cluster/registry.rs:140-142 WorkerRegistry::expire_heartbeats *)
Definition expire_heartbeats (t : table) (now clock : DateTime) : table * nat :=
  WorkerNode.expire_leases t now clock.

End Registry.
End Registry.

(** ** Mount evidence *)

Lemma bounded_ok field value max x :
  Registry.bounded field value max = Ok x <-> 0 < str_len value <= max.
Proof.
  unfold Registry.bounded. destruct x.
  destruct (decide (value = EmptyString)) as [->|Hne].
  - change (str_len EmptyString) with 0. split; [done|lia].
  - assert (0 < str_len value).
    { destruct value; [done|]. unfold str_len. cbn [String.length]. lia. }
    rewrite bool_decide_false by done. cbn.
    case_bool_decide; split; try done; lia.
Qed.

Definition healthy_evidence (mount : MountHealth) (c : Registry.MountChallenge) : Prop :=
  mount = MhHealthy (Registry.expected_filesystem_id c) (mp_id (Registry.probe c)) /\
  0 < str_len (mp_id (Registry.probe c)) <= Registry.MAX_MOUNT_ID_BYTES /\
  0 < str_len (Registry.expected_filesystem_id c) <= Registry.MAX_MOUNT_ID_BYTES.

Lemma failure_status_unhealthy r : Registry.failure_status r <> WorkerNode.MsHealthy.
Proof. by destruct r. Qed.

Lemma validate_healthy mount c m :
  Registry.validate_mount_evidence mount c = Ok (WorkerNode.MsHealthy, m) <->
  m = None /\ healthy_evidence mount c.
Proof.
  unfold Registry.validate_mount_evidence, healthy_evidence. split.
  - intros (u1 & H1%bounded_ok & (u2 & H2%bounded_ok & H)%rbind_ok)%rbind_ok.
    destruct mount as [fs pid|r msg].
    + apply rbind_ok in H as (_ & _ & (_ & _ & H)%rbind_ok).
      repeat case_bool_decide; try done. injection H as <-.
      assert (pid = mp_id (Registry.probe c)) as -> by (first [done | by apply dec_stable]).
      assert (fs = Registry.expected_filesystem_id c) as -> by (first [done | by apply dec_stable]).
      done.
    + case_bool_decide; [done|]. injection H as Hr _.
      by apply failure_status_unhealthy in Hr.
  - intros (-> & -> & H1 & H2).
    assert (forall f v, 0 < str_len v <= Registry.MAX_MOUNT_ID_BYTES ->
      Registry.bounded f v Registry.MAX_MOUNT_ID_BYTES = Ok tt) as Hb
      by (intros; by apply bounded_ok).
    rewrite !Hb by done. cbn. by rewrite !bool_decide_false by (by intros []).
Qed.
