(* ===== verification/Scheduler.v ===== *)
(** * Worker placement (crates/services/src/services/cluster/scheduler.rs)

    Eligibility, scoring and selection of a worker for a new workspace, and the
    narrower liveness gate for a workspace already placed.  Worker capabilities
    and resources are JSON documents read through [JsonValue]; scores are
    binary64 and compared by [f64::total_cmp]. *)
From Stdlib Require Import Floats Ascii.
From S2P Require Import Prelude Text Json ClusterConfig WorkerNode.

Module Scheduler.

(* crates/services/src/services/cluster/scheduler.rs:9-9 ADMISSION_REFUSING_PENALTY *)
Definition ADMISSION_REFUSING_PENALTY : float := 1000.0.

(* crates/services/src/services/cluster/scheduler.rs:11-17 IneligibleReason *)
Inductive IneligibleReason :=
| NotOnline | UnhealthyMount | MissingOrExpiredLease | MissingExecutor.

(* crates/services/src/services/cluster/scheduler.rs:19-30 SchedulingError *)
Inductive SchedulingError :=
| NoEligibleWorkers (executor_profile : string)
| RequestedWorkerNotFound (worker_node_id : Uuid)
| RequestedWorkerIneligible (worker_node_id : Uuid) (reason : IneligibleReason).

(* crates/services/src/services/cluster/scheduler.rs:147-157 WorkerUnavailableReason *)
Inductive WorkerUnavailableReason :=
| NotRegistered | Offline | LeaseExpired | Refusing (detail : string).

(* crates/services/src/services/cluster/scheduler.rs:161-170 WorkerUnavailable *)
Record WorkerUnavailable := {
  worker : string;
  worker_node_id : option Uuid;
  last_heartbeat_at : option DateTime;
  reason : WorkerUnavailableReason;
}.

Section Scheduler.
Context {Value : Type} `{!JsonValue Value}.
Abbreviation row := (WorkerNode.WorkerNode Value).

(* crates/services/src/services/cluster/scheduler.rs:259-268 advertises_executor_profile *)
Definition advertises_executor_profile (advertised requested : string) : bool :=
  if decide (advertised = requested) then true
  else negb (contains_char ":"%char advertised) &&
       match split_once ":"%char requested with
       | Some (executor, _) => bool_decide (executor = advertised)
       | None => false
       end.

(* crates/services/src/services/cluster/scheduler.rs:124-127 eligibility *)
Definition lease_lapsed (w : row) (now : DateTime) : bool :=
  match WorkerNode.lease_expires_at w with
  | None => true
  | Some e => bool_decide (e <= now)
  end.

(* crates/services/src/services/cluster/scheduler.rs:130-140 eligibility *)
Definition advertises (w : row) (executor_profile : string) : bool :=
  match json_get (WorkerNode.capabilities w) "executor_profiles" ≫= json_as_array with
  | Some profiles =>
      existsb (fun a => advertises_executor_profile a executor_profile)
              (omap json_as_str profiles)
  | None => false
  end.

(* crates/services/src/services/cluster/scheduler.rs:113-145 eligibility *)
Definition eligibility (w : row) (executor_profile : string) (now : DateTime)
    : result unit IneligibleReason :=
  if bool_decide (WorkerNode.status w <> WorkerNode.Online) then Err NotOnline
  else if bool_decide (WorkerNode.mount_status w <> WorkerNode.MsHealthy) then
    Err UnhealthyMount
  else if lease_lapsed w now then Err MissingOrExpiredLease
  else if negb (advertises w executor_profile) then Err MissingExecutor
  else Ok tt.

(* crates/services/src/services/cluster/scheduler.rs:270-276 metric *)
Definition metric (w : row) (name : string) : option float :=
  v ← json_get (WorkerNode.resource_snapshot w) name;
  f ← json_as_f64 v;
  if f64_is_finite f && PrimFloat.leb 0 f then Some f else None.

(* crates/services/src/services/cluster/scheduler.rs:91-96 WorkerScheduler::score *)
Definition refusing (w : row) : bool :=
  default false
    (json_get (WorkerNode.resource_snapshot w) "admission_refusing" ≫= json_as_bool).

(* crates/services/src/services/cluster/scheduler.rs:83-110 WorkerScheduler::score *)
Definition score (weights : ClusterConfig.SchedulingWeights) (w : row) : float :=
  let load := metric w "load_1m" in
  let active_executions := metric w "active_execution_count" in
  let penalty := if refusing w then ADMISSION_REFUSING_PENALTY else 0%float in
  match load, active_executions with
  | Some load, Some active_executions =>
      (ClusterConfig.load weights * load +
       ClusterConfig.active_executions weights * active_executions + penalty)%float
  | _, _ => infinity
  end.

(** [total_cmp(score).then_with(id.cmp)]; true when [left] is not greater. *)
(* crates/services/src/services/cluster/scheduler.rs:73-77 WorkerScheduler::select *)
Definition not_after (weights : ClusterConfig.SchedulingWeights) (left right : row)
    : bool :=
  match total_cmp (score weights left) (score weights right) with
  | Lt => true
  | Gt => false
  | Eq => bool_decide (WorkerNode.id left <= WorkerNode.id right)%N
  end.

(** [Iterator::min_by]: the first of the minimal elements. *)
Definition min_by {A} (le : A -> A -> bool) (l : list A) : option A :=
  match l with
  | [] => None
  | x :: l => Some (fold_left (fun best y => if le best y then best else y) l x)
  end.

(* crates/services/src/services/cluster/scheduler.rs:48-81 WorkerScheduler::select *)
Definition select (weights : ClusterConfig.SchedulingWeights) (workers : list row)
    (executor_profile : string) (requested_worker_id : option Uuid) (now : DateTime)
    : result row SchedulingError :=
  match requested_worker_id with
  | Some worker_node_id =>
      match find (fun w => bool_decide (WorkerNode.id w = worker_node_id)) workers with
      | None => Err (RequestedWorkerNotFound worker_node_id)
      | Some w =>
          match eligibility w executor_profile now with
          | Ok _ => Ok w
          | Err reason => Err (RequestedWorkerIneligible worker_node_id reason)
          end
      end
  | None =>
      ok_or (min_by (not_after weights)
               (filter (fun w => is_ok (eligibility w executor_profile now) = true) workers))
            (NoEligibleWorkers executor_profile)
  end.

(** [uuid_to_string] is the [uuid] crate's hyphenated form. *)
(* crates/services/src/services/cluster/scheduler.rs:212-241 dispatch_liveness *)
Definition dispatch_liveness (uuid_to_string : Uuid -> string) (node_id : Uuid)
    (w : option row) (now : DateTime) : result unit WorkerUnavailable :=
  match w with
  | None =>
      Err {| worker := uuid_to_string node_id; worker_node_id := Some node_id;
             last_heartbeat_at := None; reason := NotRegistered |}
  | Some w =>
      let unavailable r :=
        Err {| worker := WorkerNode.hostname w; worker_node_id := Some node_id;
               last_heartbeat_at := WorkerNode.last_heartbeat_at w; reason := r |} in
      if bool_decide (WorkerNode.status w = WorkerNode.Offline) then unavailable Offline
      else if lease_lapsed w now then unavailable LeaseExpired
      else Ok tt
  end.

End Scheduler.

(** The message shown to the user; [format_at] is chrono's
    [%Y-%m-%d %H:%M:%S UTC]. *)
(* crates/services/src/services/cluster/scheduler.rs:173-202 WorkerUnavailable::message *)
Definition message (format_at : DateTime -> string) (u : WorkerUnavailable) : string :=
  let last_seen := match last_heartbeat_at u with
                   | Some t => format_at t | None => "never" end in
  let state :=
    match reason u with
    | NotRegistered => "Execution server " +:+ worker u +:+
        " is not registered with this coordinator."
    | Offline => "Execution server " +:+ worker u +:+
        " is offline (last heartbeat " +:+ last_seen +:+ ")."
    | LeaseExpired => "Execution server " +:+ worker u +:+
        " has stopped responding (last heartbeat " +:+ last_seen +:+ ")."
    | Refusing detail => "Execution server " +:+ worker u +:+
        " is not accepting new executions: " +:+ detail
    end in
  state +:+ " Move this workspace to another execution server, or retry once "
  +:+ worker u +:+ " recovers.".

End Scheduler.

(** ** The order of selection *)

Import Scheduler.

Section MinBy.
Context {A : Type} (le : A -> A -> bool).
Context (le_total : forall x y, le x y = true \/ le y x = true).
Context (le_trans : forall x y z, le x y = true -> le y z = true -> le x z = true).

Lemma fold_min_spec l x :
  let m := fold_left (fun best y => if le best y then best else y) l x in
  (m = x \/ m ∈ l) /\ le m x = true /\ forall y, y ∈ l -> le m y = true.
Proof using le_total le_trans.
  revert x. induction l as [|y l IH]; intros x; cbn.
  - split_and!; [by left| |by intros ? ?%not_elem_of_nil].
    destruct (le_total x x); done.
  - destruct (IH (if le x y then x else y)) as (Hin & Hle & Hall).
    destruct (le x y) eqn:Hxy.
    + split_and!; [set_solver|done|].
      intros z [->|Hz]%elem_of_cons; [by eapply le_trans|auto].
    + assert (le y x = true) by (destruct (le_total x y); congruence).
      split_and!; [set_solver|by eapply le_trans|].
      intros z [->|Hz]%elem_of_cons; auto.
Qed.

Lemma min_by_spec l m :
  min_by le l = Some m -> m ∈ l /\ forall y, y ∈ l -> le m y = true.
Proof using le_total le_trans.
  destruct l as [|x l]; [done|]. intros [= <-].
  destruct (fold_min_spec l x) as (Hin & Hle & Hall). split; [set_solver|].
  intros y [->|Hy]%elem_of_cons; auto.
Qed.

Lemma min_by_None l : min_by le l = None <-> l = [].
Proof. by destruct l. Qed.

(** When [le] separates the elements, the minimum does not depend on the order
    they are visited in. *)
Lemma min_by_permutation l l' :
  (forall x y, x ∈ l -> y ∈ l -> le x y = true -> le y x = true -> x = y) ->
  l ≡ₚ l' -> min_by le l = min_by le l'.
Proof using le_total le_trans.
  intros Hanti Hp.
  destruct (min_by le l) as [m|] eqn:H1, (min_by le l') as [m'|] eqn:H2.
  - apply min_by_spec in H1 as [Hm Hall], H2 as [Hm' Hall'].
    f_equal. apply Hanti; [done|by rewrite Hp| |].
    + apply Hall. by rewrite Hp.
    + apply Hall'. by rewrite <- Hp.
  - apply min_by_None in H2. subst. by apply Permutation_nil_r in Hp; subst.
  - apply min_by_None in H1. subst. by apply Permutation_nil_l in Hp; subst.
  - done.
Qed.
End MinBy.

Section Facts.
Context {Value : Type} `{!JsonValue Value}.
Implicit Types w : WorkerNode.WorkerNode Value.

Lemma not_after_lex weights w1 w2 :
  not_after weights w1 w2 = true <->
  total_key (score weights w1) < total_key (score weights w2) \/
  total_key (score weights w1) = total_key (score weights w2) /\
  (WorkerNode.id w1 <= WorkerNode.id w2)%N.
Proof.
  unfold not_after, total_cmp.
  destruct (Z.compare_spec (total_key (score weights w1)) (total_key (score weights w2)));
    rewrite ?bool_decide_eq_true; split; intros; try done; try lia.
Qed.

Lemma not_after_total weights w1 w2 :
  not_after weights w1 w2 = true \/ not_after weights w2 w1 = true.
Proof. rewrite !not_after_lex. lia. Qed.

Lemma not_after_trans weights w1 w2 w3 :
  not_after weights w1 w2 = true -> not_after weights w2 w3 = true ->
  not_after weights w1 w3 = true.
Proof. rewrite !not_after_lex. lia. Qed.

Lemma not_after_anti weights w1 w2 :
  not_after weights w1 w2 = true -> not_after weights w2 w1 = true ->
  WorkerNode.id w1 = WorkerNode.id w2.
Proof. rewrite !not_after_lex. lia. Qed.

Definition eligible (profile : string) (now : DateTime) w : Prop :=
  eligibility w profile now = Ok tt.

Lemma eligibility_is_ok w profile now :
  is_ok (eligibility w profile now) = true <-> eligible profile now w.
Proof. unfold eligible. destruct (eligibility _ _ _) as [[]|]; done. Qed.

Lemma eligible_iff w profile now :
  eligible profile now w <->
  WorkerNode.status w = WorkerNode.Online /\
  WorkerNode.mount_status w = WorkerNode.MsHealthy /\
  (exists e, WorkerNode.lease_expires_at w = Some e /\ now < e) /\
  advertises w profile = true.
Proof.
  unfold eligible, eligibility, lease_lapsed.
  repeat case_bool_decide; destruct (WorkerNode.lease_expires_at w) as [e|];
    try case_bool_decide; destruct (advertises w profile); cbn;
    (split; [intros; try done|intros (?&?&(?&[= ]&?)&?); try done; subst; lia || done]).
  all: split_and!; try done; eexists; split; [done|lia].
Qed.

(** Placement without a requested worker returns an eligible worker that no
    other eligible worker precedes: none has a smaller score, and among equal
    scores it has the smallest identifier.  It fails exactly when no worker is
    eligible. *)
Theorem select_minimal weights workers profile now :
  match select weights workers profile None now with
  | Ok w =>
      w ∈ workers /\ eligible profile now w /\
      forall w', w' ∈ workers -> eligible profile now w' ->
        PrimFloat.ltb (score weights w') (score weights w) = false /\
        (total_cmp (score weights w) (score weights w') = Eq ->
         (WorkerNode.id w <= WorkerNode.id w')%N)
  | Err e =>
      e = NoEligibleWorkers profile /\
      forall w, w ∈ workers -> ~ eligible profile now w
  end.
Proof.
  unfold select.
  destruct (min_by _ _) as [w|] eqn:Hm; cbn.
  - apply min_by_spec in Hm as [[Hel Hin]%list_elem_of_filter Hall];
      [|apply not_after_total|apply not_after_trans].
    split_and!; [done|by apply eligibility_is_ok|].
    intros w' Hin' Hel'.
    assert (not_after weights w w' = true) as Hle
      by (apply Hall, list_elem_of_filter; by rewrite eligibility_is_ok).
    apply not_after_lex in Hle. split.
    + destruct (PrimFloat.ltb _ _) eqn:Hlt; [|done].
      apply ltb_total_key in Hlt. lia.
    + unfold total_cmp. intros ?%Z.compare_eq. lia.
  - split; [done|]. intros w Hin Hel.
    apply min_by_None in Hm. eapply filter_nil_not_elem_of; [done| |done].
    by apply eligibility_is_ok.
Qed.

(** Placement does not depend on the order the registry lists the workers
    in, as long as their identifiers are distinct (they are primary keys). *)
Theorem select_order_irrelevant weights workers workers' profile now :
  NoDup (WorkerNode.id <$> workers) -> workers ≡ₚ workers' ->
  select weights workers profile None now = select weights workers' profile None now.
Proof.
  intros Hnd Hp. unfold select. f_equal. apply min_by_permutation.
  - apply not_after_total.
  - apply not_after_trans.
  - intros w1 w2 [_ H1]%list_elem_of_filter [_ H2]%list_elem_of_filter Ha Hb.
    pose proof (not_after_anti _ _ _ Ha Hb) as Hid.
    apply list_elem_of_lookup in H1 as [i Hi], H2 as [j Hj].
    assert (i = j) as ->; [|congruence].
    eapply NoDup_lookup; [exact Hnd| |];
      rewrite list_lookup_fmap; [by rewrite Hi|by rewrite Hj, Hid].
  - by rewrite Hp.
Qed.

(** A worker advertising a bare executor runs every variant of it; a
    qualified advertisement (or any other string with a colon) pins exactly the
    profile it spells. *)
Theorem advertises_iff advertised requested :
  advertises_executor_profile advertised requested = true <->
  advertised = requested \/
  contains_char ":"%char advertised = false /\
  exists variant, requested = advertised +:+ String ":"%char variant.
Proof.
  unfold advertises_executor_profile. case_decide as Heq; [by split; [left|]|].
  rewrite andb_true_iff, negb_true_iff. split.
  - intros [Hc Hm]. right. split; [done|].
    destruct (split_once _ _) as [[a b]|] eqn:Hs; [|done].
    apply bool_decide_eq_true in Hm as ->.
    apply split_once_app in Hs as [-> _]. eauto.
  - intros [?|[Hc [v ->]]]; [done|]. split; [done|].
    assert (split_once ":"%char (advertised +:+ String ":"%char v)
            = Some (advertised, v)) as ->; [by apply split_once_app|].
    by rewrite bool_decide_true.
Qed.

(** The gate for an already placed workspace is weaker than placement: a
    worker eligible for some profile always passes it, and it refuses exactly a
    missing row, an offline worker and a lapsed lease, so a draining worker with
    a live lease is still dispatched to. *)
Theorem dispatch_liveness_iff to_string i (w : option (WorkerNode.WorkerNode Value)) now :
  dispatch_liveness to_string i w now = Ok tt <->
  exists r, w = Some r /\ WorkerNode.status r <> WorkerNode.Offline /\
            exists e, WorkerNode.lease_expires_at r = Some e /\ now < e.
Proof.
  destruct w as [r|]; cbn; [|split; [done|by intros (?&?&_)]].
  unfold lease_lapsed.
  case_bool_decide; [split; [done|by intros (?&[= <-]&?&_)]|].
  destruct (WorkerNode.lease_expires_at r) as [e|] eqn:He.
  - case_bool_decide; split; try done.
    + intros (?&[= <-]&?&?&He'&?). rewrite He in He'. injection He' as <-. lia.
    + intros _. exists r. split_and!; [done|done|]. exists e. split; [done|lia].
  - split; [done|]. intros (?&[= <-]&?&?&He'&?). congruence.
Qed.

End Facts.

(** ** Concrete registries *)

Module Samples.

Definition node (i : Uuid) (resources : list (string * Json)) : WorkerNode.WorkerNode Json :=
  {| WorkerNode.id := i; WorkerNode.hostname := "think"; WorkerNode.status := WorkerNode.Online;
     WorkerNode.worker_version := "1"; WorkerNode.vibe_version := "1";
     WorkerNode.capabilities :=
       JObject [("executor_profiles"%string, JArray [JString "CLAUDE_CODE"])];
     WorkerNode.resource_snapshot := JObject resources;
     WorkerNode.labels := JObject []; WorkerNode.mount_status := WorkerNode.MsHealthy;
     WorkerNode.mount_message := None; WorkerNode.last_heartbeat_at := Some 100;
     WorkerNode.lease_expires_at := Some 130; WorkerNode.created_at := 0;
     WorkerNode.updated_at := 100 |}.

Definition measured (i : Uuid) (load : float) (refusing : bool) :=
  node i [("load_1m"%string, JNumber load);
          ("active_execution_count"%string, JNumber 0);
          ("admission_refusing"%string, JBool refusing)].

End Samples.

Lemma select_order_irrelevant_witness :
  select ClusterConfig.default_weights [Samples.measured 1 2 false; Samples.measured 2 1 false]
         "CLAUDE_CODE:PLAN" None 110 =
  select ClusterConfig.default_weights [Samples.measured 2 1 false; Samples.measured 1 2 false]
         "CLAUDE_CODE:PLAN" None 110.
Proof.
  apply (select_order_irrelevant ClusterConfig.default_weights).
  - apply (bool_decide_unpack _). vm_compute. exact I.
  - apply Permutation_swap.
Defined.

(** The busier of the two sample workers loses. *)
Example select_sample :
  WorkerNode.id <$> match select ClusterConfig.default_weights
      [Samples.measured 1 2 false; Samples.measured 2 1 false]
      "CLAUDE_CODE:PLAN" None 110 with Ok w => Some w | Err _ => None end = Some 2%N.
Proof. reflexivity. Qed.

(** The admission penalty does not rank a refusing worker after every other
    eligible worker: a measured refusing worker is chosen over a worker whose
    metrics are missing (score infinity), and over a worker whose load exceeds
    the penalty. *)
Theorem refusing_worker_can_win :
  Forall (fun other =>
     eligible "CLAUDE_CODE" 110 other /\ refusing other = false /\
     refusing (Samples.measured 1 0 true) = true /\
     select ClusterConfig.default_weights [other; Samples.measured 1 0 true]
            "CLAUDE_CODE" None 110 = Ok (Samples.measured 1 0 true))
    [Samples.node 2 []; Samples.measured 2 2000 false].
Proof. repeat constructor. Qed.
