(* ===== verification/Placement.v ===== *)
(** * From heartbeats to placement

    The registry's operations as steps on the worker table, the evidence behind
    every row of a reachable table, and what that makes of a placement. *)
From S2P Require Import Prelude ClusterProtocol ClusterConfig WorkerNode Registry.
From S2P Require Import Text Json Scheduler.
From Stdlib Require Import Floats.

Section Placement.
Context {Value Url IpAddr : Type} `{!JsonValue Value}.
Context (capabilities_to_value : WorkerCapabilities -> option Value)
        (resources_to_value : ResourceSnapshot -> option Value)
        (labels_to_value : gmap string string -> option Value).
Context (add_std : DateTime -> Duration -> option DateTime).
Context (config : ClusterConfig.ClusterConfig Url IpAddr).

(** chrono's addition is exact where it does not panic. *)
Context (add_std_exact : forall t d t', add_std t d = Some t' -> t' = t + d).

Abbreviation table := (gmap Uuid (WorkerNode.WorkerNode Value)).

(** Everything that writes the worker table: the registry's operations and the
    reconciler's [mark_offline]. *)
Inductive table_op :=
| OpRegister (r : WorkerRegistration) (c : Registry.MountChallenge) (at_ clock : DateTime)
| OpHeartbeat (h : WorkerHeartbeat) (c : Registry.MountChallenge) (at_ clock : DateTime)
| OpSetDraining (i : Uuid) (draining : bool) (clock : DateTime)
| OpExpire (now clock : DateTime)
| OpMarkOffline (i : Uuid) (clock : DateTime).

Definition run_op (t : table) (op : table_op) : table :=
  match op with
  | OpRegister r c at_ clock =>
      outcome_state (Registry.register capabilities_to_value resources_to_value
                       labels_to_value add_std config t r c at_ clock)
  | OpHeartbeat h c at_ clock =>
      outcome_state (Registry.heartbeat resources_to_value add_std config t h c at_ clock)
  | OpSetDraining i b clock => (Registry.set_draining t i b clock).1
  | OpExpire now clock => (Registry.expire_heartbeats t now clock).1
  | OpMarkOffline i clock => (WorkerNode.mark_offline t i clock).1
  end.

Definition run_ops (ops : list table_op) : table := foldl run_op ∅ ops.

(** The worker, evidence, challenge and arrival time of a message. *)
Definition message_of (op : table_op)
    : option (Uuid * MountHealth * Registry.MountChallenge * DateTime) :=
  match op with
  | OpRegister r c at_ _ => Some (ra_worker_node_id (wr_authority r), wr_mount r, c, at_)
  | OpHeartbeat h c at_ _ => Some (ra_worker_node_id (wh_authority h), wh_mount h, c, at_)
  | _ => None
  end.

(** A row's mount state, heartbeat time and lease come from one message of the
    history, whose evidence was validated against that message's challenge. *)
Definition justified (ops : list table_op) (i : Uuid)
    (w : WorkerNode.WorkerNode Value) : Prop :=
  WorkerNode.id w = i /\
  exists op mount c at_,
    op ∈ ops /\ message_of op = Some (i, mount, c, at_) /\
    Registry.validate_mount_evidence mount c =
      Ok (WorkerNode.mount_status w, WorkerNode.mount_message w) /\
    WorkerNode.last_heartbeat_at w = Some at_ /\
    WorkerNode.lease_expires_at w =
      Some (at_ + ClusterConfig.lease_duration config).

(** The only ways an operation changes a row: the upsert of a message, or a
    status change. *)
Definition row_step (op : table_op) (i : Uuid) (old new : WorkerNode.WorkerNode Value) : Prop :=
  new = old \/ exists s clock, new = WorkerNode.set_status s clock old.

Definition upserts (op : table_op) (t : table) (i : Uuid)
    (new : WorkerNode.WorkerNode Value) : Prop :=
  exists mount c at_ row clock,
    message_of op = Some (i, mount, c, at_) /\
    WorkerNode.u_id row = i /\
    Registry.validate_mount_evidence mount c =
      Ok (WorkerNode.u_mount_status row, WorkerNode.u_mount_message row) /\
    WorkerNode.u_heartbeat_at row = at_ /\
    WorkerNode.u_lease_expires_at row = at_ + ClusterConfig.lease_duration config /\
    new = WorkerNode.upserted (t !! i) row clock.

Lemma commit_state (t : table) row p clock :
  let t' := outcome_state (Registry.commit config t row p clock) in
  t' = t \/
  t' = <[WorkerNode.u_id row :=
         WorkerNode.upserted (t !! WorkerNode.u_id row) row clock]> t.
Proof.
  unfold Registry.commit, WorkerNode.upsert_heartbeat.
  case_decide; [by left|]. right. unfold WorkerNode.find_by_id.
  rewrite lookup_insert_eq. cbn. by destruct (Registry.lease _ _ _ _).
Qed.

Lemma commit_ok (t : table) row p clock t' worker l :
  Registry.commit config t row p clock = Returned t' (Ok (worker, l)) ->
  worker = WorkerNode.upserted (t !! WorkerNode.u_id row) row clock /\
  cl_draining l = bool_decide (WorkerNode.status worker = WorkerNode.Draining).
Proof.
  unfold Registry.commit, WorkerNode.upsert_heartbeat, WorkerNode.find_by_id.
  case_decide; [done|]. rewrite lookup_insert_eq. cbn. unfold Registry.lease.
  case_bool_decide; [|done]. by intros [= _ <- <-].
Qed.

Lemma commit_lookup op (t : table) i w row p clock mount c at_ :
  message_of op = Some (WorkerNode.u_id row, mount, c, at_) ->
  Registry.validate_mount_evidence mount c =
    Ok (WorkerNode.u_mount_status row, WorkerNode.u_mount_message row) ->
  WorkerNode.u_heartbeat_at row = at_ ->
  add_std at_ (ClusterConfig.lease_duration config) =
    Some (WorkerNode.u_lease_expires_at row) ->
  outcome_state (Registry.commit config t row p clock) !! i = Some w ->
  t !! i = Some w \/ upserts op t i w.
Proof.
  intros Hm Hv Hh Hl H.
  destruct (commit_state t row p clock) as [-> | ->] in H; [by left|].
  destruct (decide (WorkerNode.u_id row = i)) as [Hi|Hi];
    [|rewrite lookup_insert_ne in H by done; by left].
  rewrite <- Hi in H. rewrite lookup_insert_eq in H. injection H as <-. right.
  exists mount, c, at_, row, clock. rewrite <- Hi. split_and!; try done.
  by apply add_std_exact.
Qed.

Lemma alter_status_lookup op j s clock (t : table) i w :
  alter (WorkerNode.set_status s clock) j t !! i = Some w ->
  exists old, t !! i = Some old /\ row_step op i old w.
Proof.
  unfold row_step. destruct (decide (j = i)) as [->|Hne].
  - rewrite lookup_alter_eq. intros (o & -> & ->)%fmap_Some. eauto 6.
  - rewrite lookup_alter_ne by done. eauto.
Qed.

Lemma run_op_lookup t op i w :
  run_op t op !! i = Some w ->
  (exists old, t !! i = Some old /\ row_step op i old w) \/ upserts op t i w.
Proof.
  assert (t !! i = Some w \/ upserts op t i w ->
    (exists old, t !! i = Some old /\ row_step op i old w) \/ upserts op t i w) as Hkeep
    by (intros [?|?]; [left; exists w; split; [done|by left]|by right]).
  destruct op as [r c at_ clock|h c at_ clock|j b clock|now clock|j clock]; cbn.
  - unfold Registry.register. intros H. apply Hkeep.
    destruct (rbind _ _) as [[ms mm]|] eqn:Hb; [ok_inv|by left].
    destruct (Registry.lease_expires_at _ _ _) eqn:Hl; [|by left].
    repeat case_match; try (by left).
    eapply commit_lookup in H; done.
  - unfold Registry.heartbeat. intros H. apply Hkeep.
    destruct (rbind _ _) as [[cur [ms mm]]|] eqn:Hb; [ok_inv; simplify_eq/=|by left].
    destruct (Registry.lease_expires_at _ _ _) eqn:Hl; [|by left].
    case_match; [|by left].
    eapply commit_lookup in H; done.
  - intros H. left. by eapply alter_status_lookup.
  - rewrite lookup_fmap. intros (o & Ho & ->)%fmap_Some. left. exists o.
    split; [done|]. case_match; [right; eauto|by left].
  - intros H. left. by eapply alter_status_lookup.
Qed.

Lemma run_ops_justified ops i w :
  run_ops ops !! i = Some w -> justified ops i w.
Proof.
  revert i w. induction ops as [|op ops IH] using rev_ind; intros i w.
  - unfold run_ops. cbn. by rewrite lookup_empty.
  - unfold run_ops. rewrite foldl_snoc. fold (run_ops ops).
    intros [(old & Hold & Hstep)|Hup]%run_op_lookup.
    + apply IH in Hold as (Hid & op' & mount & c & at_ & Hin & Hm & Hv & Hh & Hl).
      assert (justified (ops ++ [op]) i old) as Hj.
      { split; [done|]. exists op', mount, c, at_. split_and!; try done. set_solver. }
      by destruct Hstep as [-> | (s & clock & ->)].
    + destruct Hup as (mount & c & at_ & row & clock & Hm & Hi & Hv & Hh & Hl & ->).
      split; [done|]. exists op, mount, c, at_. cbn. rewrite Hh, Hl.
      split_and!; try done. set_solver.
Qed.

(** A worker eligible for placement at [now] sent a registration or
    heartbeat less than a lease duration earlier, and that message reported the
    file system and the probe it was challenged for, within the size limits. *)
Theorem eligible_is_backed ops i w profile now :
  run_ops ops !! i = Some w -> eligible profile now w ->
  exists op c at_,
    op ∈ ops /\
    message_of op = Some (i, MhHealthy (Registry.expected_filesystem_id c)
                                       (mp_id (Registry.probe c)), c, at_) /\
    now < at_ + ClusterConfig.lease_duration config /\
    0 < str_len (mp_id (Registry.probe c)) <= Registry.MAX_MOUNT_ID_BYTES.
Proof.
  intros (Hid & op & mount & c & at_ & Hin & Hm & Hv & Hh & Hl)%run_ops_justified.
  intros (_ & Hms & (e & He & Hlt) & _)%eligible_iff.
  rewrite Hms in Hv. apply validate_healthy in Hv as (_ & -> & Hp & _).
  rewrite Hl in He. injection He as <-. by exists op, c, at_.
Qed.

(** Draining survives every operation but the two that name the worker and
    clear it. *)
Lemma run_op_draining t op i w :
  t !! i = Some w -> WorkerNode.status w = WorkerNode.Draining ->
  (forall clock, op <> OpSetDraining i false clock) ->
  (forall clock, op <> OpMarkOffline i clock) ->
  exists w', run_op t op !! i = Some w' /\ WorkerNode.status w' = WorkerNode.Draining.
Proof.
  intros Hi Hs Hsd Hmo.
  assert (forall row p clock, exists w',
    outcome_state (Registry.commit config t row p clock) !! i = Some w' /\
    WorkerNode.status w' = WorkerNode.Draining) as Hcommit.
  { intros row p clock. destruct (commit_state t row p clock) as [-> | ->]; [eauto|].
    destruct (decide (WorkerNode.u_id row = i)) as [<-|Hne].
    - rewrite lookup_insert_eq. eexists. split; [done|]. cbn.
      by rewrite Hi, decide_True.
    - rewrite lookup_insert_ne by done. eauto. }
  destruct op as [r c at_ clock|h c at_ clock|j b clock|now clock|j clock]; cbn.
  - unfold Registry.register. repeat (case_match; try by eauto).
  - unfold Registry.heartbeat. repeat (case_match; try by eauto).
  - destruct (decide (j = i)) as [->|Hne].
    + destruct b; [|by destruct (Hsd clock)].
      rewrite lookup_alter_eq, Hi. cbn. eauto.
    + rewrite lookup_alter_ne by done. eauto.
  - rewrite lookup_fmap, Hi. cbn. rewrite bool_decide_false by congruence. eauto.
  - destruct (decide (j = i)) as [->|Hne]; [by destruct (Hmo clock)|].
    rewrite lookup_alter_ne by done. eauto.
Qed.

(** A drained worker is never scheduled again by registrations, heartbeats or
    lease expiry: it stays draining, hence ineligible for every profile, until
    an operator ends the drain or the reconciler marks the worker offline. *)
Theorem draining_is_sticky t ops i w :
  t !! i = Some w -> WorkerNode.status w = WorkerNode.Draining ->
  Forall (fun op => forall clock,
            op <> OpSetDraining i false clock /\ op <> OpMarkOffline i clock) ops ->
  exists w', foldl run_op t ops !! i = Some w' /\
    WorkerNode.status w' = WorkerNode.Draining /\
    forall profile now, ~ eligible profile now w'.
Proof.
  intros Hi Hs Hops. revert t w Hi Hs.
  induction Hops as [|op ops Hop _ IH]; intros t w Hi Hs; cbn.
  - exists w. split_and!; [done|done|]. intros profile now (Ho & _)%eligible_iff. congruence.
  - destruct (run_op_draining t op i w) as (w' & Hi' & Hs'); try done;
      [by intros clock; apply (Hop clock)|by intros clock; apply (Hop clock)|].
    by eapply IH.
Qed.

(** The reconciler's [mark_offline] ends a drain: after it, the worker's next
    accepted heartbeat puts it back online, where the registry's own lease expiry
    would have kept it draining. *)
Theorem mark_offline_ends_drain t i w marked_at h c at_ clock worker l t' :
  t !! i = Some w -> WorkerNode.status w = WorkerNode.Draining ->
  ra_worker_node_id (wh_authority h) = i ->
  Registry.heartbeat resources_to_value add_std config
    (run_op t (OpMarkOffline i marked_at)) h c at_ clock = Returned t' (Ok (worker, l)) ->
  WorkerNode.status worker = WorkerNode.Online /\ cl_draining l = false.
Proof.
  intros Hi Hs <- Hh. unfold Registry.heartbeat in Hh.
  destruct (rbind _ _) as [[cur [ms mm]]|]; [|done].
  destruct (Registry.lease_expires_at _ _ _); [|done].
  destruct (resources_to_value _); [|done].
  apply commit_ok in Hh as (-> & ->). cbn.
  rewrite lookup_alter_eq, Hi. cbn. done.
Qed.

End Placement.

(** ** Concrete messages *)
Module PlacementSamples.

Definition exact_add (t : DateTime) (d : Duration) : option DateTime := Some (t + d).
Lemma exact_add_ok t d t' : exact_add t d = Some t' -> t' = t + d.
Proof. by intros [= <-]. Qed.

Definition config : ClusterConfig.ClusterConfig string string := {|
  ClusterConfig.enabled := true; ClusterConfig.coordinator_id := Some 9%N;
  ClusterConfig.shared_root := "/shared"; ClusterConfig.expected_filesystem_id := "fs";
  ClusterConfig.worker_endpoints := []; ClusterConfig.worker_source_addresses := [];
  ClusterConfig.heartbeat_interval := from_secs 10;
  ClusterConfig.lease_duration := from_secs 30;
  ClusterConfig.scheduling_weights := ClusterConfig.default_weights |}.

Definition authority : RequestAuthority := {|
  ra_protocol_version := 1; ra_coordinator_id := 9; ra_worker_node_id := 7;
  ra_correlation_id := 1; ra_issued_at := 0; ra_nonce := "n" |}.

Definition resources : ResourceSnapshot := {|
  rs_cpu_count := 4; rs_load_1m := 1%float; rs_available_memory_bytes := 1024;
  rs_active_execution_count := 0; rs_memory_pressure_full_avg60 := None;
  rs_io_pressure_full_avg60 := None; rs_admission_refusing := false |}.

Definition challenge : Registry.MountChallenge := {|
  Registry.probe := {| mp_id := "p"; mp_relative_path := "probe"; mp_expected_contents_digest := "d" |};
  Registry.expected_filesystem_id := "fs" |}.

Definition registration : WorkerRegistration := {|
  wr_authority := authority; wr_hostname := "w"; wr_worker_version := "1"; wr_vibe_version := "1";
  wr_capabilities := {| wc_executor_profiles := ["CLAUDE_CODE:PLAN"%string]; wc_terminal := true;
                        wc_preview := true; wc_persistent_process_adoption := false |};
  wr_resources := resources; wr_labels := ∅; wr_mount := MhHealthy "fs" "p" |}.

Definition heartbeat : WorkerHeartbeat := {|
  wh_authority := authority; wh_resources := resources; wh_mount := MhHealthy "fs" "p";
  wh_jobs := [] |}.

Definition capabilities (c : WorkerCapabilities) : option Json :=
  Some (JObject [("executor_profiles"%string, JArray (JString <$> wc_executor_profiles c))]).
Definition resource_value (r : ResourceSnapshot) : option Json := Some JNull.
Definition label_value (l : gmap string string) : option Json := Some JNull.

Abbreviation ops := [OpRegister registration challenge 0 1; OpHeartbeat heartbeat challenge 5 6].
Abbreviation run := (run_ops capabilities resource_value label_value exact_add config).

Definition worker_after (l : list table_op) : option (WorkerNode.WorkerNode Json) := run l !! 7%N.

(** The row of worker 7, with [status], after the two messages. *)
Definition row (s : WorkerNode.WorkerNodeStatus) (clock : DateTime) : WorkerNode.WorkerNode Json :=
  WorkerNode.set_status s clock
    (WorkerNode.upserted None {| WorkerNode.u_id := 7%N; WorkerNode.u_hostname := "w";
       WorkerNode.u_worker_version := "1"; WorkerNode.u_vibe_version := "1";
       WorkerNode.u_capabilities :=
         JObject [("executor_profiles"%string, JArray [JString "CLAUDE_CODE:PLAN"])];
       WorkerNode.u_resource_snapshot := JNull; WorkerNode.u_labels := JNull;
       WorkerNode.u_mount_status := WorkerNode.MsHealthy; WorkerNode.u_mount_message := None;
       WorkerNode.u_heartbeat_at := 5; WorkerNode.u_lease_expires_at := 5 + from_secs 30 |} 1).

Lemma online : worker_after ops = Some (row WorkerNode.Online 6).
Proof. vm_compute. reflexivity. Qed.

Lemma drained : worker_after (ops ++ [OpSetDraining 7 true 8]) = Some (row WorkerNode.Draining 8).
Proof. vm_compute. reflexivity. Qed.

End PlacementSamples.

Lemma eligible_is_backed_witness :
  eligible "CLAUDE_CODE:PLAN" 10 (PlacementSamples.row WorkerNode.Online 6) /\
  exists op, op ∈ PlacementSamples.ops.
Proof.
  assert (eligible "CLAUDE_CODE:PLAN" 10 (PlacementSamples.row WorkerNode.Online 6)) as H
    by (vm_compute; reflexivity).
  split; [exact H|].
  destruct (eligible_is_backed PlacementSamples.capabilities PlacementSamples.resource_value
    PlacementSamples.label_value PlacementSamples.exact_add PlacementSamples.config
    PlacementSamples.exact_add_ok PlacementSamples.ops 7%N _ "CLAUDE_CODE:PLAN" 10
    PlacementSamples.online H) as (op & _ & _ & Hin & _).
  exists op. exact Hin.
Defined.

Lemma draining_is_sticky_witness :
  exists w, foldl (run_op PlacementSamples.capabilities PlacementSamples.resource_value
      PlacementSamples.label_value PlacementSamples.exact_add PlacementSamples.config)
      (PlacementSamples.run (PlacementSamples.ops ++ [OpSetDraining 7 true 8]))
      [OpHeartbeat PlacementSamples.heartbeat PlacementSamples.challenge 9 10] !! 7%N = Some w /\
    WorkerNode.status w = WorkerNode.Draining.
Proof.
  destruct (draining_is_sticky PlacementSamples.capabilities PlacementSamples.resource_value
    PlacementSamples.label_value PlacementSamples.exact_add PlacementSamples.config
    (PlacementSamples.run (PlacementSamples.ops ++ [OpSetDraining 7 true 8]))
    [OpHeartbeat PlacementSamples.heartbeat PlacementSamples.challenge 9 10] 7%N _
    PlacementSamples.drained eq_refl) as (w & Hw & Hs & _).
  - constructor; [by intros clock; split|constructor].
  - exists w. split; [exact Hw|exact Hs].
Defined.

Lemma mark_offline_ends_drain_witness :
  exists worker l t',
    Registry.heartbeat PlacementSamples.resource_value PlacementSamples.exact_add
      PlacementSamples.config
      (run_op PlacementSamples.capabilities PlacementSamples.resource_value
         PlacementSamples.label_value PlacementSamples.exact_add PlacementSamples.config
         (PlacementSamples.run (PlacementSamples.ops ++ [OpSetDraining 7 true 8]))
         (OpMarkOffline 7 9))
      PlacementSamples.heartbeat PlacementSamples.challenge 10 11 = Returned t' (Ok (worker, l)) /\
    WorkerNode.status worker = WorkerNode.Online.
Proof.
  destruct (Registry.heartbeat PlacementSamples.resource_value PlacementSamples.exact_add
      PlacementSamples.config
      (run_op PlacementSamples.capabilities PlacementSamples.resource_value
         PlacementSamples.label_value PlacementSamples.exact_add PlacementSamples.config
         (PlacementSamples.run (PlacementSamples.ops ++ [OpSetDraining 7 true 8]))
         (OpMarkOffline 7 9))
      PlacementSamples.heartbeat PlacementSamples.challenge 10 11)
    as [t' [[worker l]|e]|t'] eqn:H; try (vm_compute in H; discriminate H).
  exists worker, l, t'. split; [reflexivity|].
  exact (proj1 (mark_offline_ends_drain PlacementSamples.capabilities
    PlacementSamples.resource_value PlacementSamples.label_value PlacementSamples.exact_add
    PlacementSamples.config _ 7%N _ 9 PlacementSamples.heartbeat
    PlacementSamples.challenge 10 11 worker l t' PlacementSamples.drained eq_refl eq_refl H)).
Defined.
