(* ===== verification/WorkerJobRow.v ===== *)
(** * Remote execution rows

    [WorkerJobRow] is the table behind crates/db/src/models/execution_worker_job.rs
    and [ProcessRow] the completion state of
    crates/db/src/models/execution_process.rs, with the reasons an execution has.
    Each SQL statement is a function on the table; clock readings are arguments. *)
From S2P Require Import Prelude ClusterProtocol.

(* crates/db/src/models/execution_process.rs:58-68 ExecutionProcessRunReason *)
Inductive ExecutionProcessRunReason :=
| SetupScript | CleanupScript | ArchiveScript | CodingAgent | DevServer | BackgroundHelper.

#[global] Instance run_reason_eq_dec : EqDecision ExecutionProcessRunReason.
Proof. solve_decision. Defined.

(* crates/db/src/models/execution_process.rs:74-76 ExecutionProcessRunReason::is_persistent *)
Definition is_persistent (r : ExecutionProcessRunReason) : bool :=
  match r with DevServer | BackgroundHelper => true | _ => false end.

Module WorkerJobRow.

(* crates/db/src/models/execution_worker_job.rs:13-27 ExecutionWorkerDispatchState *)
Inductive ExecutionWorkerDispatchState :=
| Pending | Accepted | Starting | Running | Cancelling
| Completed | Failed | Killed | Interrupted | Indeterminate | Quarantined.

#[global] Instance dispatch_state_eq_dec : EqDecision ExecutionWorkerDispatchState.
Proof. solve_decision. Defined.

(* crates/db/src/models/execution_worker_job.rs:30-40 ExecutionWorkerDispatchState::is_terminal *)
Definition is_terminal (s : ExecutionWorkerDispatchState) : bool :=
  match s with
  | Completed | Failed | Killed | Interrupted | Indeterminate | Quarantined => true
  | _ => false
  end.

(* crates/db/src/models/execution_worker_job.rs:43-61 ExecutionWorkerJob *)
Record ExecutionWorkerJob := {
  execution_process_id : Uuid;
  worker_node_id : Uuid;
  worker_job_id : Uuid;
  request_digest : string;
  dispatch_state : ExecutionWorkerDispatchState;
  last_event_sequence : Z;
  worker_last_sequence : Z;
  lease_expires_at : option DateTime;
  output_complete : bool;
  terminal_evidence : option TerminalEvidence;
  dispatched_at : DateTime;
  accepted_at : option DateTime;
  completed_at : option DateTime;
  created_at : DateTime;
  updated_at : DateTime;
}.

Inductive JobDbError := RowNotFound | Protocol | ForeignKey | Unique.

Abbreviation table := (gmap Uuid ExecutionWorkerJob).

(* crates/db/src/models/execution_worker_job.rs:109-117 ExecutionWorkerJob::find_by_execution_id *)
Definition find_by_execution_id (t : table) (i : Uuid) : option ExecutionWorkerJob := t !! i.

(** [UNIQUE (worker_node_id, worker_job_id)] *)
Definition job_id_taken (t : table) (node job : Uuid) : Prop :=
  map_Exists (fun _ j => worker_node_id j = node /\ worker_job_id j = job) t.

(* crates/db/src/models/execution_worker_job.rs:72-91 ExecutionWorkerJob::create_pending *)
Definition pending_row (i node : Uuid) (digest : string) (now : DateTime)
    : ExecutionWorkerJob :=
  {| execution_process_id := i; worker_node_id := node; worker_job_id := i;
     request_digest := digest; dispatch_state := Pending;
     last_event_sequence := 0; worker_last_sequence := 0;
     lease_expires_at := None; output_complete := true; terminal_evidence := None;
     dispatched_at := now; accepted_at := None; completed_at := None;
     created_at := now; updated_at := now |}.

(** [INSERT OR IGNORE] skips a row that breaks a uniqueness constraint, never
    one that breaks a foreign key. *)
(* crates/db/src/models/execution_worker_job.rs:73-107 ExecutionWorkerJob::create_pending *)
Definition create_pending (processes workers : gset Uuid) (t : table)
    (i node : Uuid) (digest : string) (now : DateTime)
    : table * result ExecutionWorkerJob JobDbError :=
  let conflict := bool_decide (is_Some (t !! i)) || bool_decide (job_id_taken t node i) in
  if negb conflict && negb (bool_decide (i ∈ processes) && bool_decide (node ∈ workers))
  then (t, Err ForeignKey)
  else
    let t' := if conflict then t else <[i := pending_row i node digest now]> t in
    (t',
     let? job := ok_or (find_by_execution_id t' i) RowNotFound in
     if bool_decide (worker_node_id job <> node)
        || bool_decide (request_digest job <> digest)
     then Err Protocol else Ok job).

(** [ORDER BY execution_process_id] *)
Definition by_execution_id (a b : ExecutionWorkerJob) : Prop :=
  (execution_process_id a <= execution_process_id b)%N.

#[global] Instance by_execution_id_dec : RelDecision by_execution_id.
Proof. unfold by_execution_id. solve_decision. Defined.

(* crates/db/src/models/execution_worker_job.rs:119-132 ExecutionWorkerJob::find_nonterminal_for_worker *)
Definition find_nonterminal_for_worker (t : table) (node : Uuid) : list ExecutionWorkerJob :=
  merge_sort by_execution_id
    (filter (fun j => worker_node_id j = node /\ is_terminal (dispatch_state j) = false)
            (map_to_list t).*2).

(** An [UPDATE] of the row with the given key when [ok] holds of it. *)
Definition update_row (t : table) (i : Uuid) (ok : ExecutionWorkerJob -> bool)
    (f : ExecutionWorkerJob -> ExecutionWorkerJob) : table * bool :=
  match t !! i with
  | Some j => if ok j then (<[i := f j]> t, true) else (t, false)
  | None => (t, false)
  end.

(* crates/db/src/models/execution_worker_job.rs:154-177 ExecutionWorkerJob::acknowledge_sequence *)
Definition acknowledge_sequence (t : table) (i : Uuid) (sequence worker_last : Z)
    (now : DateTime) : table * bool :=
  update_row t i (fun j => bool_decide (last_event_sequence j <= sequence)) (fun j =>
    {| execution_process_id := execution_process_id j;
       worker_node_id := worker_node_id j; worker_job_id := worker_job_id j;
       request_digest := request_digest j; dispatch_state := dispatch_state j;
       last_event_sequence := sequence;
       worker_last_sequence := Z.max (worker_last_sequence j) worker_last;
       lease_expires_at := lease_expires_at j; output_complete := output_complete j;
       terminal_evidence := terminal_evidence j; dispatched_at := dispatched_at j;
       accepted_at := accepted_at j; completed_at := completed_at j;
       created_at := created_at j; updated_at := now |}).

(* crates/db/src/models/execution_worker_job.rs:179-197 ExecutionWorkerJob::observe_worker_sequence *)
Definition observe_worker_sequence (t : table) (i : Uuid) (worker_last : Z)
    (now : DateTime) : table * bool :=
  update_row t i (fun _ => true) (fun j =>
    {| execution_process_id := execution_process_id j;
       worker_node_id := worker_node_id j; worker_job_id := worker_job_id j;
       request_digest := request_digest j; dispatch_state := dispatch_state j;
       last_event_sequence := last_event_sequence j;
       worker_last_sequence := Z.max (worker_last_sequence j) worker_last;
       lease_expires_at := lease_expires_at j; output_complete := output_complete j;
       terminal_evidence := terminal_evidence j; dispatched_at := dispatched_at j;
       accepted_at := accepted_at j; completed_at := completed_at j;
       created_at := created_at j; updated_at := now |}).

(* crates/db/src/models/execution_worker_job.rs:199-229 ExecutionWorkerJob::update_state *)
Definition update_state (t : table) (i : Uuid) (state : ExecutionWorkerDispatchState)
    (evidence : option TerminalEvidence) (completed : option DateTime)
    (now : DateTime) : table * bool :=
  update_row t i (fun _ => true) (fun j =>
    {| execution_process_id := execution_process_id j;
       worker_node_id := worker_node_id j; worker_job_id := worker_job_id j;
       request_digest := request_digest j; dispatch_state := state;
       last_event_sequence := last_event_sequence j;
       worker_last_sequence := worker_last_sequence j;
       lease_expires_at := lease_expires_at j; output_complete := output_complete j;
       terminal_evidence := evidence; dispatched_at := dispatched_at j;
       accepted_at := match state, accepted_at j with
                      | Accepted, None => Some now
                      | _, a => a
                      end;
       completed_at := match completed with Some c => Some c | None => completed_at j end;
       created_at := created_at j; updated_at := now |}).

(* crates/db/src/models/execution_worker_job.rs:231-254 ExecutionWorkerJob::record_acceptance *)
Definition record_acceptance (t : table) (i job_id : Uuid) (worker_last : Z)
    (now : DateTime) : table * result bool JobDbError :=
  let (t', hit) := update_row t i (fun j => bool_decide (dispatch_state j = Pending)) (fun j =>
    {| execution_process_id := execution_process_id j;
       worker_node_id := worker_node_id j; worker_job_id := job_id;
       request_digest := request_digest j; dispatch_state := Accepted;
       last_event_sequence := last_event_sequence j;
       worker_last_sequence := Z.max (worker_last_sequence j) worker_last;
       lease_expires_at := lease_expires_at j; output_complete := output_complete j;
       terminal_evidence := terminal_evidence j; dispatched_at := dispatched_at j;
       accepted_at := match accepted_at j with Some a => Some a | None => Some now end;
       completed_at := completed_at j;
       created_at := created_at j; updated_at := now |}) in
  match t !! i with
  | Some j =>
      if hit && bool_decide (job_id_taken (delete i t) (worker_node_id j) job_id)
      then (t, Err Unique) else (t', Ok hit)
  | None => (t', Ok hit)
  end.

(* crates/db/src/models/execution_worker_job.rs:256-271 ExecutionWorkerJob::mark_output_incomplete *)
Definition mark_output_incomplete (t : table) (i : Uuid) (now : DateTime) : table * bool :=
  update_row t i (fun _ => true) (fun j =>
    {| execution_process_id := execution_process_id j;
       worker_node_id := worker_node_id j; worker_job_id := worker_job_id j;
       request_digest := request_digest j; dispatch_state := dispatch_state j;
       last_event_sequence := last_event_sequence j;
       worker_last_sequence := worker_last_sequence j;
       lease_expires_at := lease_expires_at j; output_complete := false;
       terminal_evidence := terminal_evidence j; dispatched_at := dispatched_at j;
       accepted_at := accepted_at j; completed_at := completed_at j;
       created_at := created_at j; updated_at := now |}).

(** ** What the rows promise *)

(** Every statement that writes the table, but for the dispatch that inserts. *)
Inductive row_op :=
| RAcknowledge (i : Uuid) (sequence worker_last : Z) (now : DateTime)
| RObserve (i : Uuid) (worker_last : Z) (now : DateTime)
| RState (i : Uuid) (s : ExecutionWorkerDispatchState) (e : option TerminalEvidence)
    (completed : option DateTime) (now : DateTime)
| RAccept (i job_id : Uuid) (worker_last : Z) (now : DateTime)
| RIncomplete (i : Uuid) (now : DateTime)
| RCreate (processes workers : gset Uuid) (i node : Uuid) (digest : string) (now : DateTime).

Definition run_row_op (t : table) (o : row_op) : table :=
  match o with
  | RAcknowledge i sequence worker_last now => (acknowledge_sequence t i sequence worker_last now).1
  | RObserve i worker_last now => (observe_worker_sequence t i worker_last now).1
  | RState i s e completed now => (update_state t i s e completed now).1
  | RAccept i job_id worker_last now => (record_acceptance t i job_id worker_last now).1
  | RIncomplete i now => (mark_output_incomplete t i now).1
  | RCreate processes workers i node digest now =>
      (create_pending processes workers t i node digest now).1
  end.

(** What a later version of a row keeps of an earlier one. *)
Definition advances (a b : ExecutionWorkerJob) : Prop :=
  execution_process_id b = execution_process_id a /\
  worker_node_id b = worker_node_id a /\ request_digest b = request_digest a /\
  last_event_sequence a <= last_event_sequence b /\
  worker_last_sequence a <= worker_last_sequence b /\
  (output_complete b = true -> output_complete a = true) /\
  (worker_job_id b <> worker_job_id a -> dispatch_state a = Pending).

Ltac advances := unfold advances; cbn; split_and!; first [done | lia | tauto].

Lemma advances_refl a : advances a a.
Proof. advances. Qed.

Lemma update_row_advances t i ok f k a :
  t !! k = Some a ->
  (forall j, t !! i = Some j -> ok j = true -> advances j (f j)) ->
  exists b, (update_row t i ok f).1 !! k = Some b /\ advances a b.
Proof.
  intros Hk Hf. unfold update_row. destruct (t !! i) as [j|] eqn:Hi; cbn;
    [destruct (ok j) eqn:Hok; cbn|]; try (exists a; split; [done|apply advances_refl]).
  destruct (decide (i = k)) as [->|Hne].
  - rewrite lookup_insert_eq. rewrite Hk in Hi. injection Hi as ->. eexists. split; [done|].
    by apply Hf.
  - rewrite lookup_insert_ne by done. exists a. split; [done|apply advances_refl].
Qed.

Lemma run_row_op_advances t o k a :
  t !! k = Some a -> exists b, run_row_op t o !! k = Some b /\ advances a b.
Proof.
  intros Hk. assert (exists b, t !! k = Some b /\ advances a b) as Hsame
    by (exists a; split; [done|apply advances_refl]).
  destruct o as [i sequence wl now|i wl now|i s e c now|i job_id wl now|i now
                |processes workers i node digest now]; cbn.
  - apply update_row_advances; [done|]. intros j _ Hok%bool_decide_eq_true.
    advances.
  - apply update_row_advances; [done|]. intros j _ _. advances.
  - apply update_row_advances; [done|]. intros j _ _. advances.
  - unfold record_acceptance.
    pose proof (update_row_advances t i (fun j => bool_decide (dispatch_state j = Pending))
      (fun j => {| execution_process_id := execution_process_id j;
       worker_node_id := worker_node_id j; worker_job_id := job_id;
       request_digest := request_digest j; dispatch_state := Accepted;
       last_event_sequence := last_event_sequence j;
       worker_last_sequence := Z.max (worker_last_sequence j) wl;
       lease_expires_at := lease_expires_at j; output_complete := output_complete j;
       terminal_evidence := terminal_evidence j; dispatched_at := dispatched_at j;
       accepted_at := match accepted_at j with Some a => Some a | None => Some now end;
       completed_at := completed_at j;
       created_at := created_at j; updated_at := now |}) k a Hk) as Hu.
    destruct (update_row _ _ _ _) as [t' hit]. cbn in Hu.
    assert (exists b, t' !! k = Some b /\ advances a b) as Hr.
    { apply Hu. intros j _ Hok%bool_decide_eq_true. advances. }
    destruct (t !! i) as [j|]; [|done]. by destruct (hit && _).
  - apply update_row_advances; [done|]. intros j _ _. advances.
  - unfold create_pending. destruct (_ && _); [done|]. cbn.
    destruct (decide (i = k)) as [->|Hne].
    + rewrite (bool_decide_true (is_Some (t !! k))) by eauto. done.
    + case_match; [done|]. by rewrite lookup_insert_ne by done.
Qed.

(** Cursors only move forward: whatever sequence of statements runs, a dispatch
    row stays with its worker and its request, its acknowledged cursor and the
    worker's last sequence never decrease, and output marked incomplete stays
    incomplete. *)
Theorem row_cursors_monotone ops t k a :
  t !! k = Some a ->
  exists b, foldl run_row_op t ops !! k = Some b /\
    worker_node_id b = worker_node_id a /\ request_digest b = request_digest a /\
    last_event_sequence a <= last_event_sequence b /\
    worker_last_sequence a <= worker_last_sequence b /\
    (output_complete a = false -> output_complete b = false).
Proof.
  revert t a. induction ops as [|o ops IH]; intros t a Hk; cbn.
  - exists a. split_and!; auto; lia.
  - destruct (run_row_op_advances t o k a Hk) as (b & Hb & _ & A2 & A3 & A4 & A5 & A6 & _).
    destruct (IH _ b Hb) as (c & Hc & B2 & B3 & B4 & B5 & B6).
    exists c. split_and!; try congruence; try lia. intros Ha. apply B6.
    destruct (output_complete b); [|done]. by rewrite A6 in Ha.
Qed.

Lemma row_cursors_monotone_witness :
  exists b, foldl run_row_op {[ 1%N := pending_row 1 7 "d" 0 ]}
      [RAccept 1 77 2 1; RAcknowledge 1 5 6 2; RAcknowledge 1 3 4 3] !! 1%N = Some b /\
    0 <= last_event_sequence b.
Proof.
  edestruct (row_cursors_monotone [RAccept 1 77 2 1; RAcknowledge 1 5 6 2; RAcknowledge 1 3 4 3]
               {[ 1%N := pending_row 1 7 "d" 0 ]} 1%N (pending_row 1 7 "d" 0))
    as (b & Hb & _ & _ & Hl & _); [reflexivity|]. exists b. split; [exact Hb|exact Hl].
Defined.

(** A dispatch is recorded once: after [create_pending] succeeded, repeating it
    returns the same row and changes nothing, and a repeat for another worker or
    another request is refused and changes nothing either. *)
Theorem create_pending_idempotent processes workers t i node digest now t' job :
  create_pending processes workers t i node digest now = (t', Ok job) ->
  t' !! i = Some job /\
  forall processes' workers' node' digest' now',
    create_pending processes' workers' t' i node' digest' now' =
      (t', if decide (node' = node /\ digest' = digest) then Ok job else Err Protocol).
Proof.
  unfold create_pending. intros H. destruct (_ && _); [done|]. injection H as Ht Hr.
  apply rbind_ok in Hr as (j & Hj & Hr). rewrite Ht in Hj. unfold find_by_execution_id in Hj.
  destruct (t' !! i) as [j'|] eqn:Hi; [|done]. injection Hj as ->.
  destruct (bool_decide (worker_node_id j <> node)) eqn:Hn; [done|].
  destruct (bool_decide (request_digest j <> digest)) eqn:Hd; [done|]. injection Hr as ->.
  apply bool_decide_eq_false in Hn, Hd. split; [done|].
  intros processes' workers' node' digest' now'.
  rewrite (bool_decide_true (is_Some (Some job))) by eauto. cbn.
  unfold find_by_execution_id. rewrite Hi. cbn. f_equal.
  repeat case_bool_decide; case_decide; cbn; try done; naive_solver.
Qed.

Lemma create_pending_idempotent_witness :
  exists t job, create_pending {[ 1%N ]} {[ 7%N ]} ∅ 1 7 "d" 0 = (t, Ok job) /\ t !! 1%N = Some job.
Proof.
  exists {[ 1%N := pending_row 1 7 "d" 0 ]}, (pending_row 1 7 "d" 0).
  assert (create_pending {[ 1%N ]} {[ 7%N ]} ∅ 1 7 "d" 0 =
    ({[ 1%N := pending_row 1 7 "d" 0 ]}, Ok (pending_row 1 7 "d" 0))) as H
    by (vm_compute; reflexivity).
  split; [exact H|]. exact (proj1 (create_pending_idempotent _ _ _ _ _ _ _ _ _ H)).
Defined.

End WorkerJobRow.

Module ProcessRow.

(* crates/db/src/models/execution_process.rs:39-53 ExecutionProcessStatus *)
Inductive ExecutionProcessStatus :=
| Running | Completed | Failed | Killed | Interrupted | Indeterminate.

#[global] Instance process_status_eq_dec : EqDecision ExecutionProcessStatus.
Proof. solve_decision. Defined.

(** The columns of [execution_processes] completion touches; the others are
    the caller's. *)
(* crates/db/src/models/execution_process.rs:79-99 ExecutionProcess *)
Record ExecutionProcess := {
  id : Uuid;
  session_id : Uuid;
  status : ExecutionProcessStatus;
  exit_code : option Z;
  completed_at : option DateTime;
}.

Abbreviation table := (gmap Uuid ExecutionProcess).

(* crates/db/src/models/execution_process.rs:157-178 ExecutionProcess::find_by_id *)
Definition find_by_id (t : table) (i : Uuid) : option ExecutionProcess := t !! i.

(* crates/db/src/models/execution_process.rs:569-580 ExecutionProcess::was_stopped *)
Definition was_stopped (t : table) (i : Uuid) : bool :=
  match find_by_id t i with
  | Some ep => bool_decide (status ep = Killed) || bool_decide (status ep = Interrupted)
               || bool_decide (status ep = Completed)
  | None => false
  end.

(* crates/db/src/models/execution_process.rs:595-620 ExecutionProcess::update_completion *)
Definition update_completion (t : table) (i : Uuid) (s : ExecutionProcessStatus)
    (code : option Z) (now : DateTime) : table :=
  let completed := if bool_decide (s = Running) then None else Some now in
  alter (fun p => {| id := id p; session_id := session_id p; status := s;
                     exit_code := code; completed_at := completed |}) i t.

End ProcessRow.
