(* ===== verification/Reconcile.v ===== *)
(** * Reconciling workers with the database

    [Module Reconcile] models crates/services/src/services/cluster/reconcile.rs:
    a pass over the worker table that compares each worker's inventory with the
    rows of [WorkerJobRow] and [ProcessRow].  The state is the three tables, the
    quarantine requests sent so far and the report.  The worker client is the
    argument [inventory] and [quarantine]; the clock readings of a pass are one
    argument.  The theorems: the pass never finishes an execution, keeps the two
    tables in agreement, leaves no orphan behind, and reports every worker. *)
From S2P Require Import Prelude ClusterProtocol WorkerNode WorkerJobRow.

Module Reconcile.

(* crates/services/src/services/cluster/reconcile.rs:20-31 ReconciliationReport *)
Record ReconciliationReport := {
  workers_reached : nat;
  workers_unreachable : list Uuid;
  jobs_reconciled : nat;
  jobs_missing : nat;
  jobs_quarantined : nat;
  conflicts : nat;
  jobs_deferred : nat;
}.

Definition default_report : ReconciliationReport :=
  {| workers_reached := 0; workers_unreachable := []; jobs_reconciled := 0;
     jobs_missing := 0; jobs_quarantined := 0; conflicts := 0; jobs_deferred := 0 |}.

(** The counters, one bump each. *)
Variant count := Reached | Reconciled | Missing | QuarantinedJob | Conflict | Deferred.

Definition bump (c : count) (r : ReconciliationReport) : ReconciliationReport :=
  {| workers_reached := match c with Reached => S | _ => id end (workers_reached r);
     workers_unreachable := workers_unreachable r;
     jobs_reconciled := match c with Reconciled => S | _ => id end (jobs_reconciled r);
     jobs_missing := match c with Missing => S | _ => id end (jobs_missing r);
     jobs_quarantined := match c with QuarantinedJob => S | _ => id end (jobs_quarantined r);
     conflicts := match c with Conflict => S | _ => id end (conflicts r);
     jobs_deferred := match c with Deferred => S | _ => id end (jobs_deferred r) |}.

Definition with_unreachable (l : list Uuid) (r : ReconciliationReport)
    : ReconciliationReport :=
  {| workers_reached := workers_reached r; workers_unreachable := l;
     jobs_reconciled := jobs_reconciled r; jobs_missing := jobs_missing r;
     jobs_quarantined := jobs_quarantined r; conflicts := conflicts r;
     jobs_deferred := jobs_deferred r |}.

(* crates/services/src/services/cluster/reconcile.rs:255-268 dispatch_state *)
Definition dispatch_state (s : JobState) : WorkerJobRow.ExecutionWorkerDispatchState :=
  match s with
  | JAccepted => WorkerJobRow.Accepted
  | JStarting => WorkerJobRow.Starting
  | JRunning => WorkerJobRow.Running
  | JCancelling => WorkerJobRow.Cancelling
  | JCompleted => WorkerJobRow.Completed
  | JFailed => WorkerJobRow.Failed
  | JKilled => WorkerJobRow.Killed
  | JInterrupted => WorkerJobRow.Interrupted
  | JIndeterminate => WorkerJobRow.Indeterminate
  | JQuarantined => WorkerJobRow.Quarantined
  end.

(* crates/services/src/services/cluster/reconcile.rs:270-277 process_state *)
Definition process_state (s : TerminalState) : ProcessRow.ExecutionProcessStatus :=
  match s with
  | TsCompleted => ProcessRow.Completed
  | TsFailed => ProcessRow.Failed
  | TsKilled => ProcessRow.Killed
  | TsInterrupted => ProcessRow.Interrupted
  end.

Section Reconciler.
Context {Value ClientError : Type}.
Context (inventory : Uuid -> result (list JobSummary) ClientError)
        (quarantine : Uuid -> QuarantineRequest -> result JobSummary ClientError)
        (coordinator_id : Uuid) (nonce : nat -> string) (now : DateTime).

Record state := {
  workers : gmap Uuid (WorkerNode.WorkerNode Value);
  jobs : WorkerJobRow.table;
  processes : ProcessRow.table;
  sent : list (Uuid * QuarantineRequest);
  report : ReconciliationReport;
}.

Definition with_tables (s : state) (j : WorkerJobRow.table) (p : ProcessRow.table) : state :=
  {| workers := workers s; jobs := j; processes := p; sent := sent s; report := report s |}.

Definition counted (c : count) (s : state) : state :=
  {| workers := workers s; jobs := jobs s; processes := processes s; sent := sent s;
     report := bump c (report s) |}.

(* crates/services/src/services/cluster/reconcile.rs:243-252 ExecutionReconciler::authority *)
Definition authority (worker_node_id correlation_id : Uuid) (fresh : string)
    : RequestAuthority :=
  {| ra_protocol_version := PROTOCOL_VERSION; ra_coordinator_id := coordinator_id;
     ra_worker_node_id := worker_node_id; ra_correlation_id := correlation_id;
     ra_issued_at := now; ra_nonce := fresh |}.

(* crates/services/src/services/cluster/reconcile.rs:142-154 ExecutionReconciler::quarantine_unknown *)
Definition quarantine_unknown (s : state) (worker_node_id : Uuid) (summary : JobSummary)
    : state * result unit ClientError :=
  let request :=
    {| qr_authority := authority worker_node_id (js_execution_id summary)
                                 (nonce (length (sent s)));
       qr_execution_id := js_execution_id summary;
       qr_reason := "worker job is unknown or conflicts with coordinator state" |} in
  ({| workers := workers s; jobs := jobs s; processes := processes s;
      sent := sent s ++ [(worker_node_id, request)]; report := report s |},
   let? _ := quarantine worker_node_id request in Ok tt).

(* crates/services/src/services/cluster/reconcile.rs:225-241 ExecutionReconciler::mark_indeterminate *)
Definition mark_indeterminate (s : state) (i : Uuid) : state :=
  with_tables s
    (WorkerJobRow.update_state (jobs s) i WorkerJobRow.Indeterminate None (Some now) now).1
    (ProcessRow.update_completion (processes s) i ProcessRow.Indeterminate None now).

(* crates/services/src/services/cluster/reconcile.rs:156-223 ExecutionReconciler::apply_worker_evidence *)
Definition apply_worker_evidence (s : state) (summary : JobSummary) : state :=
  let i := js_execution_id summary in
  let s := with_tables s
             (WorkerJobRow.observe_worker_sequence (jobs s) i
                (u64_as_i64 (js_last_sequence summary)) now).1
             (processes s) in
  let worker_state := dispatch_state (js_state summary) in
  if JobState_is_terminal (js_state summary) then
    match js_terminal summary with
    | None => counted Conflict (mark_indeterminate s i)
    | Some evidence =>
        let process_state := process_state (te_state evidence) in
        let process := ProcessRow.find_by_id (processes s) i in
        let status_is s0 := match process with
                     | Some p => bool_decide (ProcessRow.status p = s0)
                     | None => false
                     end in
        if status_is ProcessRow.Running then counted Deferred s
        else if bool_decide (is_Some process) && negb (status_is process_state) then
          counted Conflict (mark_indeterminate s i)
        else
          with_tables s
            (WorkerJobRow.update_state (jobs s) i worker_state (Some evidence)
               (Some (te_observed_at evidence)) now).1
            (ProcessRow.update_completion (processes s) i process_state
               (te_exit_code evidence) now)
    end
  else
    with_tables s (WorkerJobRow.update_state (jobs s) i worker_state None None now).1
      (processes s).

(** The loop body over one reported job. *)
(* crates/services/src/services/cluster/reconcile.rs:99-131 ExecutionReconciler::reconcile_worker *)
Definition reconcile_summary (worker : WorkerNode.WorkerNode Value) (s : state)
    (summary : JobSummary) : state :=
  let i := js_execution_id summary in
  let node := WorkerNode.id worker in
  match WorkerJobRow.find_by_execution_id (jobs s) i with
  | None =>
      let (s, answer) := quarantine_unknown s node summary in
      if is_ok answer then counted QuarantinedJob s else s
  | Some known =>
      if bool_decide (WorkerJobRow.worker_node_id known <> node)
         || bool_decide (WorkerJobRow.worker_job_id known <> js_worker_job_id summary)
         || bool_decide (WorkerJobRow.request_digest known <> js_request_digest summary)
      then
        let s := mark_indeterminate s i in
        counted Conflict (quarantine_unknown s node summary).1
      else if negb (JobState_is_terminal (js_state summary))
              && match ProcessRow.find_by_id (processes s) i with
                 | Some p => bool_decide (ProcessRow.status p <> ProcessRow.Running)
                 | None => false
                 end
      then
        let s := mark_indeterminate s i in
        counted Conflict (quarantine_unknown s node summary).1
      else counted Reconciled (apply_worker_evidence s summary)
  end.

(** The second loop, over the expected jobs no summary named.  The code walks a
    hash map; the rows are distinct, so the order does not matter. *)
(* crates/services/src/services/cluster/reconcile.rs:133-138 ExecutionReconciler::reconcile_worker *)
Definition reconcile_missing (reported : list Uuid) (s : state) (i : Uuid) : state :=
  if bool_decide (i ∈ reported) then s else counted Missing (mark_indeterminate s i).

(* crates/services/src/services/cluster/reconcile.rs:86-140 ExecutionReconciler::reconcile_worker *)
Definition reconcile_worker (worker : WorkerNode.WorkerNode Value)
    (inv : list JobSummary) (s : state) : state :=
  let expected := WorkerJobRow.execution_process_id <$>
    WorkerJobRow.find_nonterminal_for_worker (jobs s) (WorkerNode.id worker) in
  let reported_ids := js_execution_id <$> inv in
  foldl (reconcile_missing reported_ids) (foldl (reconcile_summary worker) s inv) expected.

(** The loop body over one worker. *)
(* crates/services/src/services/cluster/reconcile.rs:65-81 ExecutionReconciler::reconcile *)
Definition reconcile_node (s : state) (worker : WorkerNode.WorkerNode Value) : state :=
  if decide (WorkerNode.status worker = WorkerNode.Offline) then s else
  match inventory (WorkerNode.id worker) with
  | Err _ =>
      {| workers := (WorkerNode.mark_offline (workers s) (WorkerNode.id worker) now).1;
         jobs := jobs s; processes := processes s; sent := sent s;
         report := with_unreachable
                     (workers_unreachable (report s) ++ [WorkerNode.id worker]) (report s) |}
  | Ok inv => reconcile_worker worker inv (counted Reached s)
  end.

(* crates/services/src/services/cluster/reconcile.rs:63-84 ExecutionReconciler::reconcile *)
Definition reconcile (s : state) : state :=
  let s := {| workers := workers s; jobs := jobs s; processes := processes s;
              sent := sent s; report := default_report |} in
  let s := foldl reconcile_node s (WorkerNode.fetch_all (workers s)) in
  {| workers := workers s; jobs := jobs s; processes := processes s; sent := sent s;
     report := with_unreachable
                 (merge_sort (fun a b => (a <= b)%N) (workers_unreachable (report s)))
                 (report s) |}.

(** ** What a pass can write

    [closed m ids P] says that [P] survives each of the four writes a pass makes
    to the tables while it handles worker [m] with inventory [ids]: giving up on
    an execution, noting a sequence, recording terminal evidence the process row
    already agrees with, and following a live job. *)
Definition owned (m : Uuid) (ids : list Uuid) (j : WorkerJobRow.table) (i : Uuid) : Prop :=
  i ∈ ids /\ exists known, j !! i = Some known /\ WorkerJobRow.worker_node_id known = m.

Record closed (m : Uuid) (ids : list Uuid)
    (P : WorkerJobRow.table -> ProcessRow.table -> Prop) : Prop := {
  closed_mark j p i :
    P j p ->
    P (WorkerJobRow.update_state j i WorkerJobRow.Indeterminate None (Some now) now).1
      (ProcessRow.update_completion p i ProcessRow.Indeterminate None now);
  closed_observe j p i n :
    P j p -> P (WorkerJobRow.observe_worker_sequence j i n now).1 p;
  closed_evidence j p i st e :
    P j p -> owned m ids j i ->
    (forall q, p !! i = Some q -> ProcessRow.status q = process_state (te_state e)) ->
    P (WorkerJobRow.update_state j i st (Some e) (Some (te_observed_at e)) now).1
      (ProcessRow.update_completion p i (process_state (te_state e)) (te_exit_code e) now);
  closed_live j p i st :
    P j p -> owned m ids j i -> WorkerJobRow.is_terminal st = false ->
    P (WorkerJobRow.update_state j i st None None now).1 p;
}.

Definition holds (P : WorkerJobRow.table -> ProcessRow.table -> Prop) (s : state) : Prop :=
  P (jobs s) (processes s).

Lemma dispatch_state_terminal st :
  WorkerJobRow.is_terminal (dispatch_state st) = JobState_is_terminal st.
Proof. by destruct st. Qed.

Lemma owned_observe m ids j i k n :
  owned m ids j i -> owned m ids (WorkerJobRow.observe_worker_sequence j k n now).1 i.
Proof.
  intros (Hin & known & Hj & Hm). split; [done|].
  unfold WorkerJobRow.observe_worker_sequence, WorkerJobRow.update_row.
  case_match eqn:Hk; cbn; [|by eauto].
  destruct (decide (k = i)) as [->|Hne].
  - rewrite lookup_insert_eq. eexists. split; [done|]. cbn. congruence.
  - rewrite lookup_insert_ne by done. eauto.
Qed.

Lemma apply_closed m ids P s summary :
  closed m ids P -> holds P s ->
  owned m ids (jobs s) (js_execution_id summary) -> 
  holds P (apply_worker_evidence s summary).
Proof.
  intros HP Hs Ho. unfold apply_worker_evidence.
  set (j1 := (WorkerJobRow.observe_worker_sequence _ _ _ _).1).
  assert (P j1 (processes s)) as Hs1 by by apply HP.
  assert (owned m ids j1 (js_execution_id summary)) as Ho1 by by apply owned_observe.
  destruct (JobState_is_terminal _) eqn:Ht.
  - destruct (js_terminal summary) as [e|]; [|by apply HP].
    unfold ProcessRow.find_by_id. cbn [processes with_tables].
    destruct (processes s !! js_execution_id summary) as [q|] eqn:Hq; cbn.
    + case_bool_decide; [done|]. case_bool_decide; cbn; [|by apply HP].
      apply HP; [done|done|]. by intros ? [= <-]%(eq_trans (eq_sym Hq)).
    + apply HP; [done|done|]. intros q' Hq'. congruence.
  - apply HP; [done|done|]. by rewrite dispatch_state_terminal.
Qed.

Lemma summary_closed (worker : WorkerNode.WorkerNode Value) ids P s summary :
  closed (WorkerNode.id worker) ids P -> holds P s -> js_execution_id summary ∈ ids ->
  holds P (reconcile_summary worker s summary).
Proof.
  intros HP Hs Hin. unfold reconcile_summary, WorkerJobRow.find_by_execution_id.
  destruct (jobs s !! js_execution_id summary) as [known|] eqn:Hj.
  - destruct (_ || _) eqn:Hmis; [by apply HP|].
    destruct (_ && _); [by apply HP|].
    eapply (apply_closed _ ids); [done|done|]. split; [done|].
    exists known. split; [done|].
    apply orb_false_iff in Hmis as [[Hm _]%orb_false_iff _].
    apply bool_decide_eq_false in Hm. by destruct (decide (WorkerJobRow.worker_node_id known = WorkerNode.id worker)).
  - destruct (quarantine_unknown _ _ _) as [s' a] eqn:Hqu.
    assert (holds P s') by (unfold quarantine_unknown in Hqu; by injection Hqu as <- _).
    by destruct (is_ok a).
Qed.

Lemma worker_closed (worker : WorkerNode.WorkerNode Value) inv P s :
  closed (WorkerNode.id worker) (js_execution_id <$> inv) P -> holds P s ->
  holds P (reconcile_worker worker inv s).
Proof.
  intros HP Hs. unfold reconcile_worker.
  apply foldl_invariant.
  - intros s' i _ Hs'. unfold reconcile_missing. case_bool_decide; [done|by apply HP].
  - apply foldl_invariant; [|done]. intros s' summary Hin Hs'.
    eapply summary_closed; [done|done|]. by apply list_elem_of_fmap_2.
Qed.

Lemma node_closed P s worker :
  (forall inv, inventory (WorkerNode.id worker) = Ok inv ->
     closed (WorkerNode.id worker) (js_execution_id <$> inv) P) ->
  holds P s -> holds P (reconcile_node s worker).
Proof.
  intros HP Hs. unfold reconcile_node. case_decide; [done|].
  destruct (inventory _) as [inv|] eqn:Hi; [|done].
  apply worker_closed; [by apply HP|done].
Qed.

Lemma reconcile_closed P s :
  (forall m ids, closed m ids P) -> holds P s -> holds P (reconcile s).
Proof.
  intros HP Hs. unfold reconcile, holds. cbn.
  apply (foldl_invariant (holds P)); [|done].
  intros s' w _ Hs'. by apply node_closed.
Qed.

(** ** Nothing is finished by a pass *)

(** Each process row is still one of the initial rows, with its status kept or
    given up on. *)
Definition status_kept (p0 p : ProcessRow.table) : Prop :=
  forall i q, p !! i = Some q -> exists q0, p0 !! i = Some q0 /\
    ProcessRow.id q = ProcessRow.id q0 /\
    (ProcessRow.status q = ProcessRow.status q0 \/
     ProcessRow.status q = ProcessRow.Indeterminate).

Lemma status_kept_completion p0 p i st code :
  status_kept p0 p ->
  (forall q, p !! i = Some q -> ProcessRow.status q = st) \/ st = ProcessRow.Indeterminate ->
  status_kept p0 (ProcessRow.update_completion p i st code now).
Proof.
  intros Hk Hst k q. unfold ProcessRow.update_completion.
  destruct (decide (i = k)) as [->|Hne]; [|rewrite lookup_alter_ne by done; apply Hk].
  rewrite lookup_alter_eq. intros (q1 & Hq1 & ->)%fmap_Some.
  destruct (Hk _ _ Hq1) as (q0 & Hq0 & Hid & Hs). exists q0. split_and!; [done|done|]. cbn.
  destruct Hst as [Hst| ->]; [|by right]. rewrite <- (Hst q1); done.
Qed.

Lemma status_kept_closed p0 m ids : closed m ids (fun _ p => status_kept p0 p).
Proof.
  split; intros; try done; apply status_kept_completion; auto.
Qed.

(** A reconciliation pass never finishes an execution: every process row
    keeps its status or becomes indeterminate, whatever the workers report.  A
    running execution in particular is completed, failed, killed or interrupted
    only by its tracker. *)
Theorem reconcile_never_finalizes s i q :
  processes (reconcile s) !! i = Some q ->
  exists q0, processes s !! i = Some q0 /\ ProcessRow.id q = ProcessRow.id q0 /\
    (ProcessRow.status q = ProcessRow.status q0 \/
     ProcessRow.status q = ProcessRow.Indeterminate).
Proof.
  revert i q. change (status_kept (processes s) (processes (reconcile s))).
  apply (reconcile_closed (fun _ p => status_kept (processes s) p)).
  - intros m ids. apply status_kept_closed.
  - intros i q Hq. exists q. auto.
Qed.

(** ** The two tables agree *)

(** A dispatch row is terminal only beside a process row that is not running. *)
Definition agree (j : WorkerJobRow.table) (p : ProcessRow.table) : Prop :=
  forall i r q, j !! i = Some r -> p !! i = Some q ->
    WorkerJobRow.is_terminal (WorkerJobRow.dispatch_state r) = true ->
    ProcessRow.status q <> ProcessRow.Running.

Lemma update_row_lookup t i ok f k r :
  (WorkerJobRow.update_row t i ok f).1 !! k = Some r ->
  (t !! k = Some r /\ (k = i -> ok r = false)) \/
  k = i /\ exists r0, t !! i = Some r0 /\ r = f r0.
Proof.
  unfold WorkerJobRow.update_row. intros H. destruct (t !! i) as [r0|] eqn:Hi; cbn in H.
  - destruct (ok r0) eqn:Hok; cbn in H; [|left; split; [done|congruence]].
    destruct (decide (i = k)) as [->|Hne].
    + rewrite lookup_insert_eq in H. injection H as <-. right. eauto.
    + rewrite lookup_insert_ne in H by done. left. split; [done|congruence].
  - left. split; [done|congruence].
Qed.

Lemma completion_lookup p i st code k q :
  ProcessRow.update_completion p i st code now !! k = Some q ->
  k <> i /\ p !! k = Some q \/ k = i /\ is_Some (p !! i) /\ ProcessRow.status q = st.
Proof.
  unfold ProcessRow.update_completion.
  destruct (decide (i = k)) as [->|Hne]; [|rewrite lookup_alter_ne by done; auto].
  rewrite lookup_alter_eq. intros (q1 & Hq1 & ->)%fmap_Some. right. eauto.
Qed.

Lemma agree_completed j p i st e c code pst :
  agree j p -> pst <> ProcessRow.Running ->
  agree (WorkerJobRow.update_state j i st e c now).1
        (ProcessRow.update_completion p i pst code now).
Proof.
  intros Ha Hr k r q Hj [(Hne & Hp)|(-> & _ & ->)]%completion_lookup Ht; [|done].
  apply update_row_lookup in Hj as [[Hj _]|(-> & _)]; [eauto|done].
Qed.

Lemma agree_closed m ids : closed m ids agree.
Proof.
  split.
  - intros j p i Ha. by apply agree_completed.
  - intros j p i n Ha k r q Hj Hp Ht.
    apply update_row_lookup in Hj as [[Hj _]|(-> & r0 & Hj & ->)]; [eauto|].
    exact (Ha i r0 q Hj Hp Ht).
  - intros j p i st e Ha _ _. apply agree_completed; [done|]. by destruct (te_state e).
  - intros j p i st Ha _ Hst k r q Hj Hp Ht.
    apply update_row_lookup in Hj as [[Hj _]|(-> & r0 & Hj & ->)]; [eauto|]. cbn in Ht. congruence.
Qed.

(** C11: A pass preserves the agreement of the two tables: a dispatch row is
    terminal only if its process row has stopped running.  The terminal evidence
    of an execution that is still running is therefore left to its tracker. *)
Theorem reconcile_preserves_agreement s :
  agree (jobs s) (processes s) -> agree (jobs (reconcile s)) (processes (reconcile s)).
Proof.
  intros Ha. by apply (reconcile_closed agree); [intros; apply agree_closed|].
Qed.

(** ** No orphans *)

(** Rows keep their worker and key, and only a reported job of [m] can become
    live again. *)
Definition tracked (m : Uuid) (ids : list Uuid) (j0 j : WorkerJobRow.table) : Prop :=
  forall i r, j !! i = Some r -> exists r0, j0 !! i = Some r0 /\
    WorkerJobRow.worker_node_id r = WorkerJobRow.worker_node_id r0 /\
    WorkerJobRow.execution_process_id r = WorkerJobRow.execution_process_id r0 /\
    (WorkerJobRow.is_terminal (WorkerJobRow.dispatch_state r) = false ->
     WorkerJobRow.is_terminal (WorkerJobRow.dispatch_state r0) = false \/
     WorkerJobRow.worker_node_id r0 = m /\ i ∈ ids).

Lemma tracked_refl m ids j : tracked m ids j j.
Proof. intros i r H. exists r. auto. Qed.

Lemma tracked_update m ids j0 j i ok f :
  tracked m ids j0 j ->
  (forall r, j !! i = Some r ->
     WorkerJobRow.worker_node_id (f r) = WorkerJobRow.worker_node_id r /\
     WorkerJobRow.execution_process_id (f r) = WorkerJobRow.execution_process_id r /\
     (WorkerJobRow.is_terminal (WorkerJobRow.dispatch_state (f r)) = false ->
      WorkerJobRow.is_terminal (WorkerJobRow.dispatch_state r) = false \/
      WorkerJobRow.worker_node_id r = m /\ i ∈ ids)) ->
  tracked m ids j0 (WorkerJobRow.update_row j i ok f).1.
Proof.
  intros Ht Hf k r [[Hr _]|(-> & r1 & Hr & ->)]%update_row_lookup; [by apply Ht|].
  destruct (Ht _ _ Hr) as (r0 & Hr0 & Hn & Hk & Hl).
  destruct (Hf _ Hr) as (Hn' & Hk' & Hl'). exists r0. split_and!; [done|congruence|congruence|].
  intros [H|[H1 H2]]%Hl'; [auto|]. right. split; [congruence|done].
Qed.

Lemma tracked_closed m ids j0 : closed m ids (fun j _ => tracked m ids j0 j).
Proof.
  split.
  - intros j _ i Ht. apply tracked_update; [done|]. naive_solver.
  - intros j _ i n Ht. apply tracked_update; [done|]. naive_solver.
  - intros j p i st e Ht (Hin & r1 & Hr1 & Hm) _. apply tracked_update; [done|].
    intros r Hr. cbn. split_and!; [done|done|]. right. split; [congruence|done].
  - intros j p i st Ht (Hin & r1 & Hr1 & Hm) _. apply tracked_update; [done|].
    intros r Hr. cbn. split_and!; [done|done|]. right. split; [congruence|done].
Qed.

Definition keyed (j : WorkerJobRow.table) : Prop :=
  forall i r, j !! i = Some r -> WorkerJobRow.execution_process_id r = i.

Lemma tracked_keyed m ids j0 j : tracked m ids j0 j -> keyed j0 -> keyed j.
Proof. intros Ht Hk i r Hr. destruct (Ht i r Hr) as (r0 & Hr0 & _ & -> & _). by apply Hk. Qed.

(** Every live dispatch row of worker [m] is one [m] reported. *)
Definition no_orphan (m : Uuid) (ids : list Uuid) (j : WorkerJobRow.table) : Prop :=
  forall i r, j !! i = Some r -> WorkerJobRow.worker_node_id r = m ->
    WorkerJobRow.is_terminal (WorkerJobRow.dispatch_state r) = false -> i ∈ ids.

Definition given_up (i : Uuid) (s : state) : Prop :=
  forall r, jobs s !! i = Some r ->
    WorkerJobRow.is_terminal (WorkerJobRow.dispatch_state r) = true.

Lemma given_up_mark s i k : given_up i s \/ i = k -> given_up i (mark_indeterminate s k).
Proof.
  intros Hg r [[Hr Hk]|(-> & r1 & Hr & ->)]%update_row_lookup; [|done].
  destruct Hg as [Hg| ->]; [by apply Hg|]. by specialize (Hk eq_refl).
Qed.

Lemma missing_given_up ids l s i :
  i ∈ l -> i ∉ ids -> given_up i (foldl (reconcile_missing ids) s l).
Proof.
  intros Hin Hids.
  apply (foldl_reaches (fun _ => True) (given_up i) _ _ _ i); [done| | |done|done].
  - intros s' k _ _ Hg. unfold reconcile_missing. case_bool_decide; [done|].
    apply (given_up_mark s' i k). by left.
  - intros s' _. unfold reconcile_missing. rewrite bool_decide_false by done.
    apply (given_up_mark s' i i). by right.
Qed.

Lemma expected_elem t node i r :
  t !! i = Some r -> keyed t -> WorkerJobRow.worker_node_id r = node ->
  WorkerJobRow.is_terminal (WorkerJobRow.dispatch_state r) = false ->
  i ∈ WorkerJobRow.execution_process_id <$> WorkerJobRow.find_nonterminal_for_worker t node.
Proof.
  intros Hr Hk Hn Ht. rewrite <- (Hk _ _ Hr). apply list_elem_of_fmap_2.
  unfold WorkerJobRow.find_nonterminal_for_worker. rewrite merge_sort_Permutation.
  apply list_elem_of_filter. split; [done|].
  apply (list_elem_of_fmap_2 snd _ (i, r)). by apply elem_of_map_to_list.
Qed.

Lemma worker_no_orphan (worker : WorkerNode.WorkerNode Value) inv s :
  keyed (jobs s) ->
  no_orphan (WorkerNode.id worker) (js_execution_id <$> inv)
            (jobs (reconcile_worker worker inv s)).
Proof.
  intros Hk i r Hr Hn Ht. destruct (decide (i ∈ js_execution_id <$> inv)) as [|Hin]; [done|].
  destruct (worker_closed worker inv _ s
              (tracked_closed (WorkerNode.id worker) (js_execution_id <$> inv) (jobs s))
              (tracked_refl _ _ _) i r Hr) as (r0 & Hr0 & Hn0 & _ & Hl).
  destruct (Hl Ht) as [Hl0|[_ ?]]; [|done].
  assert (given_up i (reconcile_worker worker inv s)) as Hg.
  { apply missing_given_up; [|done]. eapply expected_elem; [done|done| |done]. congruence. }
  specialize (Hg r Hr). congruence.
Qed.

Lemma node_keyed s worker : keyed (jobs s) -> keyed (jobs (reconcile_node s worker)).
Proof.
  intros Hk. destruct (inventory (WorkerNode.id worker)) as [inv|] eqn:Hi.
  - assert (holds (fun j _ => tracked (WorkerNode.id worker) (js_execution_id <$> inv)
                                 (jobs s) j) (reconcile_node s worker)) as Ht.
    { apply node_closed; [|apply tracked_refl]. intros inv' Hi'.
      rewrite Hi in Hi'. injection Hi' as <-. apply tracked_closed. }
    by eapply tracked_keyed.
  - unfold reconcile_node. rewrite Hi. by case_decide.
Qed.

Lemma node_keeps_no_orphan s worker m inv :
  inventory m = Ok inv ->
  no_orphan m (js_execution_id <$> inv) (jobs s) ->
  no_orphan m (js_execution_id <$> inv) (jobs (reconcile_node s worker)).
Proof.
  intros Hm Hno.
  assert (holds (fun j _ => forall i r, j !! i = Some r -> exists r0, jobs s !! i = Some r0 /\
            WorkerJobRow.worker_node_id r = WorkerJobRow.worker_node_id r0 /\
            (WorkerJobRow.is_terminal (WorkerJobRow.dispatch_state r) = false ->
             WorkerJobRow.is_terminal (WorkerJobRow.dispatch_state r0) = false \/
             WorkerJobRow.worker_node_id r0 = WorkerNode.id worker /\
             (forall inv', inventory (WorkerNode.id worker) = Ok inv' ->
              i ∈ js_execution_id <$> inv'))) (reconcile_node s worker)) as Ht.
  { unfold reconcile_node. case_decide; [intros i r Hr; exists r; auto|].
    destruct (inventory (WorkerNode.id worker)) as [inv'|] eqn:Hi;
      [|intros i r Hr; exists r; auto].
    intros i r Hr.
    destruct (worker_closed worker inv' _ (counted Reached s)
              (tracked_closed _ (js_execution_id <$> inv') (jobs s))
              (tracked_refl _ _ _) i r Hr) as (r0 & Hr0 & Hn0 & _ & Hl).
    exists r0. split_and!; [done|done|]. intros [?|[??]]%Hl; [auto|right].
    split; [done|]. by intros ? [= <-]. }
  intros i r Hr Hn Hl. destruct (Ht i r Hr) as (r0 & Hr0 & Hn0 & Hl0).
  destruct (Hl0 Hl) as [H|[H1 H2]].
  - apply (Hno i r0); congruence.
  - apply H2. by rewrite <- H1, <- Hn0, Hn.
Qed.

(** C5: A pass leaves no orphan: after it, every dispatch row still live under a
    worker that answered is one that worker listed in its inventory; the others
    were given up on. *)
Theorem reconcile_no_orphans s k worker inv i r :
  keyed (jobs s) -> workers s !! k = Some worker ->
  WorkerNode.status worker <> WorkerNode.Offline ->
  inventory (WorkerNode.id worker) = Ok inv ->
  jobs (reconcile s) !! i = Some r ->
  WorkerJobRow.worker_node_id r = WorkerNode.id worker ->
  WorkerJobRow.is_terminal (WorkerJobRow.dispatch_state r) = false ->
  i ∈ js_execution_id <$> inv.
Proof.
  intros Hk Hw Hon Hinv. revert i r. unfold reconcile. cbn.
  apply (foldl_reaches (fun s => keyed (jobs s))
           (fun s => no_orphan (WorkerNode.id worker) (js_execution_id <$> inv) (jobs s))
           _ _ _ worker).
  - intros s' w _. apply node_keyed.
  - intros s' w _ _. by apply node_keeps_no_orphan.
  - intros s' Hk'. unfold reconcile_node. rewrite decide_False, Hinv by done.
    by apply worker_no_orphan.
  - unfold WorkerNode.fetch_all. rewrite merge_sort_Permutation.
    apply (list_elem_of_fmap_2 snd _ (k, worker)). by apply elem_of_map_to_list.
  - done.
Qed.

(** ** The report *)

Lemma worker_report (worker : WorkerNode.WorkerNode Value) inv s :
  let s' := reconcile_worker worker inv s in
  workers s' = workers s /\
  workers_reached (report s') = workers_reached (report s) /\
  workers_unreachable (report s') = workers_unreachable (report s).
Proof.
  cbn. unfold reconcile_worker.
  set (I := fun s' : state => workers s' = workers s /\
    workers_reached (report s') = workers_reached (report s) /\
    workers_unreachable (report s') = workers_unreachable (report s)).
  apply (foldl_invariant I); [|apply (foldl_invariant I); [|done]].
  - intros s' i _ Hs'. unfold reconcile_missing. by case_bool_decide.
  - intros s' summary _ Hs'. unfold reconcile_summary, apply_worker_evidence.
    repeat (case_match; try done).
    all: match goal with H : quarantine_unknown _ _ _ = (_, _) |- _ =>
           unfold quarantine_unknown in H; by injection H as <- _ end.
Qed.

Definition active (w : WorkerNode.WorkerNode Value) : Prop :=
  WorkerNode.status w <> WorkerNode.Offline.

Definition answers (w : WorkerNode.WorkerNode Value) : bool :=
  is_ok (inventory (WorkerNode.id w)).

Lemma node_report s worker :
  let r := report s in
  let r' := report (reconcile_node s worker) in
  workers_reached r' =
    (workers_reached r + length (filter (fun w => answers w = true) (filter active [worker])))%nat /\
  workers_unreachable r' =
    workers_unreachable r ++
    (WorkerNode.id <$> filter (fun w => answers w = false) (filter active [worker])).
Proof.
  unfold reconcile_node. destruct (decide (WorkerNode.status worker = WorkerNode.Offline)) as [Ho|Ho].
  - rewrite (filter_cons_False active) by (by intros H). cbn. rewrite app_nil_r. split; [lia|done].
  - rewrite (filter_cons_True active), filter_nil by done. unfold answers, filter, list_filter.
    destruct (inventory (WorkerNode.id worker)) as [inv|]; cbn.
    + destruct (worker_report worker inv (counted Reached s)) as (_ & -> & ->). cbn.
      rewrite decide_True, decide_False, app_nil_r by done. cbn. split; [lia|done].
    + rewrite decide_False, decide_True by done. cbn. split; [lia|done].
Qed.

Lemma nodes_report l s :
  let r := report s in
  let r' := report (foldl reconcile_node s l) in
  workers_reached r' =
    (workers_reached r + length (filter (fun w => answers w = true) (filter active l)))%nat /\
  workers_unreachable r' =
    workers_unreachable r ++ (WorkerNode.id <$> filter (fun w => answers w = false) (filter active l)).
Proof.
  revert s. induction l as [|w l IH]; intros s; cbn -[filter].
  - rewrite !filter_nil. cbn. rewrite app_nil_r. split; [lia|done].
  - destruct (IH (reconcile_node s w)) as [-> ->]. destruct (node_report s w) as [-> ->].
    change (w :: l) with ([w] ++ l).
    rewrite !filter_app, length_app, fmap_app, <- app_assoc. split; [lia|done].
Qed.

(** The report accounts for every worker that was not offline exactly once:
    [workers_reached] counts those that answered, and [workers_unreachable] lists
    the others in ascending order. *)
Theorem reconcile_reports_workers s :
  let consulted := filter active (WorkerNode.fetch_all (workers s)) in
  let r := report (reconcile s) in
  workers_reached r = length (filter (fun w => answers w = true) consulted) /\
  workers_unreachable r ≡ₚ WorkerNode.id <$> filter (fun w => answers w = false) consulted /\
  Sorted (fun a b => (a <= b)%N) (workers_unreachable r) /\
  (workers_reached r + length (workers_unreachable r) = length consulted)%nat.
Proof.
  cbn -[filter].
  destruct (nodes_report (WorkerNode.fetch_all (workers s))
    {| workers := workers s; jobs := jobs s; processes := processes s;
       sent := sent s; report := default_report |}) as [-> ->].
  cbn -[filter].
  split_and!; [done|apply merge_sort_Permutation|apply Sorted_merge_sort; intros ??; lia|].
  rewrite merge_sort_Permutation, length_fmap.
  induction (filter active _) as [|w l IH]; [done|].
  rewrite !filter_cons. repeat case_decide; cbn; try congruence; try lia; by destruct (answers w).
Qed.

End Reconciler.
Arguments state : clear implicits.

(** ** A concrete pass

    Worker 7 lists the live execution 1; 2 is missing from its inventory and 3 is
    unknown to the database.  Worker 8 does not answer. *)
Module Samples.

Definition node (i : Uuid) (host : string) : WorkerNode.WorkerNode unit :=
  WorkerNode.upserted None
    {| WorkerNode.u_id := i; WorkerNode.u_hostname := host;
       WorkerNode.u_worker_version := "1"; WorkerNode.u_vibe_version := "1";
       WorkerNode.u_capabilities := tt; WorkerNode.u_resource_snapshot := tt;
       WorkerNode.u_labels := tt; WorkerNode.u_mount_status := WorkerNode.MsHealthy;
       WorkerNode.u_mount_message := None; WorkerNode.u_heartbeat_at := 0;
       WorkerNode.u_lease_expires_at := 60 |} 0.

Definition summary (i : Uuid) (st : JobState) (e : option TerminalEvidence) : JobSummary :=
  {| js_execution_id := i; js_worker_job_id := i; js_workspace_id := 9%N;
     js_request_digest := "d"; js_state := st; js_last_sequence := 4; js_terminal := e |}.

Definition process (i : Uuid) : ProcessRow.ExecutionProcess :=
  {| ProcessRow.id := i; ProcessRow.session_id := 5%N; ProcessRow.status := ProcessRow.Running;
     ProcessRow.exit_code := None; ProcessRow.completed_at := None |}.

Definition inventory (n : Uuid) : result (list JobSummary) unit :=
  if decide (n = 7%N) then Ok [summary 1 JRunning None; summary 3 JRunning None] else Err tt.

Definition quarantine (n : Uuid) (q : QuarantineRequest) : result JobSummary unit :=
  Ok (summary (qr_execution_id q) JQuarantined None).

Definition start : state unit :=
  {| workers := list_to_map [(7%N, node 7 "a"); (8%N, node 8 "b")];
     jobs := list_to_map [(1%N, WorkerJobRow.pending_row 1 7 "d" 0);
                          (2%N, WorkerJobRow.pending_row 2 7 "d" 0)];
     processes := list_to_map [(1%N, process 1); (2%N, process 2)];
     sent := []; report := default_report |}.

Definition finish : state unit :=
  reconcile inventory quarantine 42 (fun _ => "n") 10 start.

End Samples.

Example reconcile_sample :
  report Samples.finish =
    {| workers_reached := 1; workers_unreachable := [8%N]; jobs_reconciled := 1;
       jobs_missing := 1; jobs_quarantined := 1; conflicts := 0; jobs_deferred := 0 |} /\
  (WorkerJobRow.dispatch_state <$> jobs Samples.finish !! 1%N) = Some WorkerJobRow.Running /\
  (WorkerJobRow.dispatch_state <$> jobs Samples.finish !! 2%N) = Some WorkerJobRow.Indeterminate.
Proof. vm_compute. auto. Qed.

Lemma reconcile_never_finalizes_witness :
  exists q0, processes Samples.start !! 2%N = Some q0 /\ 2%N = ProcessRow.id q0 /\
    (ProcessRow.Indeterminate = ProcessRow.status q0 \/
     ProcessRow.Indeterminate = ProcessRow.Indeterminate).
Proof.
  apply (reconcile_never_finalizes Samples.inventory Samples.quarantine 42 (fun _ => "n") 10
           Samples.start 2%N
           {| ProcessRow.id := 2; ProcessRow.session_id := 5;
              ProcessRow.status := ProcessRow.Indeterminate; ProcessRow.exit_code := None;
              ProcessRow.completed_at := Some 10 |}).
  vm_compute. reflexivity.
Defined.

Lemma reconcile_preserves_agreement_witness :
  agree (jobs Samples.finish) (processes Samples.finish).
Proof.
  apply reconcile_preserves_agreement.
  intros i r q. cbn. unfold Samples.start. cbn [jobs processes].
  destruct (decide (i = 1%N)) as [->|]; [|destruct (decide (i = 2%N)) as [->|]].
  - by intros [= <-] [= <-].
  - by intros [= <-] [= <-].
  - unfold list_to_map. cbn. rewrite !lookup_insert_ne, lookup_empty by congruence. done.
Defined.

Lemma reconcile_no_orphans_witness :
  1%N ∈ js_execution_id <$> [Samples.summary 1 JRunning None; Samples.summary 3 JRunning None].
Proof.
  eapply (reconcile_no_orphans Samples.inventory Samples.quarantine 42 (fun _ => "n") 10
            Samples.start 7%N (Samples.node 7 "a") _ 1%N).
  - intros i r. unfold Samples.start. cbn [jobs].
    destruct (decide (i = 1%N)) as [->|]; [by intros [= <-]|].
    destruct (decide (i = 2%N)) as [->|]; [by intros [= <-]|].
    unfold list_to_map. cbn. rewrite !lookup_insert_ne, lookup_empty by congruence. done.
  - vm_compute. reflexivity.
  - vm_compute. discriminate.
  - reflexivity.
  - vm_compute. reflexivity.
  - vm_compute. reflexivity.
  - vm_compute. reflexivity.
Defined.

End Reconcile.
