(* ===== verification/MsgStore.v ===== *)
(** * Log messages and their store

    [Module LogMsg] is crates/utils/src/log_msg.rs.  [Module EntryTimestamps] and
    [Module MsgStore] are crates/utils/src/msg_store.rs: the byte-bounded history
    with its live broadcast, and the observation times of conversation entries,
    which must follow the entries when JSON patches insert and remove.  The
    broadcast channel is the sequence of messages sent; a receiver is a position
    in it. *)
From S2P Require Import Prelude Text Json.

Module LogMsg.

(** [json_patch::PatchOperation]; the three other operations are [POther]. *)
Inductive PatchOperation (V : Type) :=
| PAdd (path : string) (value : V)
| PReplace (path : string) (value : V)
| PRemove (path : string)
| POther.
Arguments PAdd {V} _ _.
Arguments PReplace {V} _ _.
Arguments PRemove {V} _.
Arguments POther {V}.

(* crates/utils/src/log_msg.rs:13-22 LogMsg *)
Inductive LogMsg (V : Type) :=
| Stdout (s : string)
| Stderr (s : string)
| JsonPatch (patch : list (PatchOperation V))
| SessionId (s : string)
| MessageId (s : string)
| Ready
| Finished.
Arguments Stdout {V} _.
Arguments Stderr {V} _.
Arguments JsonPatch {V} _.
Arguments SessionId {V} _.
Arguments MessageId {V} _.
Arguments Ready {V}.
Arguments Finished {V}.

(* crates/utils/src/log_msg.rs:25-35 LogMsg::name *)
Definition name {V} (m : LogMsg V) : string :=
  match m with
  | Stdout _ => "stdout"
  | Stderr _ => "stderr"
  | JsonPatch _ => "json_patch"
  | SessionId _ => "session_id"
  | MessageId _ => "message_id"
  | Ready => "ready"
  | Finished => "finished"
  end.

(** [patch_len] is the length of the serialised patch. *)
(* crates/utils/src/log_msg.rs:69-83 LogMsg::approx_bytes *)
Definition approx_bytes {V} (patch_len : list (PatchOperation V) -> nat) (m : LogMsg V) : Z :=
  let OVERHEAD := 8 in
  match m with
  | Stdout s | Stderr s | SessionId s | MessageId s =>
      str_len (name m) + str_len s + OVERHEAD
  | JsonPatch patch => str_len (name m) + Z.of_nat (patch_len patch) + OVERHEAD
  | Ready | Finished => str_len (name m) + OVERHEAD
  end.

Lemma approx_bytes_pos {V} (patch_len : list (PatchOperation V) -> nat) m :
  0 < approx_bytes patch_len m.
Proof. unfold approx_bytes, str_len. destruct m; lia. Qed.

End LogMsg.

Module EntryTimestamps.
Import LogMsg.

(* crates/utils/src/msg_store.rs:29-29 MAX_ENTRY_TIMESTAMPS *)
Definition MAX_ENTRY_TIMESTAMPS : Z := 100000.

Abbreviation EntryTimestamps := (gmap Z string).

(* crates/utils/src/msg_store.rs:34-36 entry_index *)
Definition entry_index (path : string) : option Z :=
  strip_prefix "/entries/" path ≫= parse_uint usize_max.

(** [split_off(&index)]: what stays and what is returned. *)
Definition head_of (index : Z) (t : EntryTimestamps) : EntryTimestamps :=
  filter (fun kv => kv.1 < index) t.
Definition tail_of (index : Z) (t : EntryTimestamps) : EntryTimestamps :=
  filter (fun kv => index <= kv.1) t.

(* crates/utils/src/msg_store.rs:46-53 EntryTimestamps::enrich *)
Definition close_gap (index : Z) (t : EntryTimestamps) : EntryTimestamps :=
  let t := delete index t in
  kmap (fun key => key - 1) (tail_of index t) ∪ head_of index t.

(* crates/utils/src/msg_store.rs:64-71 EntryTimestamps::enrich *)
Definition open_gap (index : Z) (t : EntryTimestamps) : EntryTimestamps :=
  kmap (fun key => key + 1) (filter (fun kv => kv.1 < usize_max) (tail_of index t))
  ∪ head_of index t.

Section Enrich.
Context {V : Type} `{!JsonValue V, !JsonEdit V}.
(** [chrono::DateTime::parse_from_rfc3339(_).is_ok()] *)
Context (is_rfc3339 : string -> bool).

(* crates/utils/src/msg_store.rs:82-85 EntryTimestamps::enrich *)
Definition source_time (content : V) : option string :=
  match json_get content "timestamp" ≫= json_as_str with
  | Some time => if is_rfc3339 time then Some time else None
  | None => None
  end.

Definition has_room (t : EntryTimestamps) : bool :=
  bool_decide (Z.of_nat (size t) < MAX_ENTRY_TIMESTAMPS).

(* crates/utils/src/msg_store.rs:76-96 EntryTimestamps::enrich *)
Definition stamp (t : EntryTimestamps) (index : Z) (value : V) (now : string)
    : EntryTimestamps * V :=
  match json_get value "content" with
  | Some content =>
      if json_is_object content then
        let timestamp :=
          match source_time content, t !! index with
          | Some time, _ => Some time
          | None, Some time => Some time
          | None, None => if has_room t then Some now else None
          end in
        match timestamp with
        | Some time =>
            (if bool_decide (is_Some (t !! index)) || has_room t
             then <[index := time]> t else t,
             json_modify value "content"
               (fun content => json_insert content "timestamp" (json_string time)))
        | None => (t, value)
        end
      else (t, value)
  | None => (t, value)
  end.

(* crates/utils/src/msg_store.rs:40-97 EntryTimestamps::enrich *)
Definition enrich_op (t : EntryTimestamps) (op : PatchOperation V) (now : string)
    : EntryTimestamps * PatchOperation V :=
  let entry path value insert rebuild :=
    if decide (path = "/entries") then (∅, op)
    else match entry_index path with
         | None => (t, op)
         | Some index =>
             let t := if (insert : bool) then open_gap index t else t in
             if decide (json_get value "type" ≫= json_as_str = Some "NORMALIZED_ENTRY")
             then let (t, value) := stamp t index value now in (t, rebuild value)
             else (delete index t, op)
         end in
  match op with
  | PAdd path value => entry path value true (PAdd path)
  | PReplace path value => entry path value false (PReplace path)
  | PRemove path =>
      if decide (path = "/entries") then (∅, op)
      else match entry_index path with
           | Some index => (close_gap index t, op)
           | None => (t, op)
           end
  | POther => (t, op)
  end.

(* crates/utils/src/msg_store.rs:39-97 EntryTimestamps::enrich *)
Fixpoint enrich (t : EntryTimestamps) (patch : list (PatchOperation V)) (now : string)
    : EntryTimestamps * list (PatchOperation V) :=
  match patch with
  | [] => (t, [])
  | op :: patch =>
      let (t, op) := enrich_op t op now in
      let (t, patch) := enrich t patch now in
      (t, op :: patch)
  end.

(** ** The times follow their entries *)

(** The conversation array, each entry with the time observed for it. *)
Definition describes (t : EntryTimestamps) (entries : list (option string)) : Prop :=
  forall k v, t !! k = Some v <-> 0 <= k /\ entries !! Z.to_nat k = Some (Some v).

(** What RFC 6902 makes of the array, with [time] for an added or replaced
    entry; [None] when the operation does not apply. *)
Definition array_op (op : PatchOperation V) (entries : list (option string))
    (time : option string) : option (list (option string)) :=
  let at_index path f :=
    if decide (path = "/entries") then Some []
    else match entry_index path with Some i => f i | None => Some entries end in
  let n := Z.of_nat (length entries) in
  match op with
  | PAdd path _ => at_index path (fun i =>
      if decide (i <= n)
      then Some (take (Z.to_nat i) entries ++ time :: drop (Z.to_nat i) entries) else None)
  | PReplace path _ => at_index path (fun i =>
      if decide (i < n) then Some (<[Z.to_nat i := time]> entries) else None)
  | PRemove path => at_index path (fun i =>
      if decide (i < n) then Some (delete (Z.to_nat i) entries) else None)
  | POther => Some entries
  end.

Lemma entry_index_nonneg path i : entry_index path = Some i -> 0 <= i <= usize_max.
Proof.
  unfold entry_index. intros (s & _ & H)%bind_Some. by apply parse_uint_bound in H.
Qed.

Lemma lookup_head i t k : head_of i t !! k = if decide (k < i) then t !! k else None.
Proof.
  apply option_eq. intros v. unfold head_of. rewrite map_lookup_filter_Some. cbn.
  case_decide; naive_solver.
Qed.

Lemma lookup_tail i t k : tail_of i t !! k = if decide (i <= k) then t !! k else None.
Proof.
  apply option_eq. intros v. unfold tail_of. rewrite map_lookup_filter_Some. cbn.
  case_decide; naive_solver.
Qed.

#[local] Instance shift_inj (d : Z) : Inj (=) (=) (fun key : Z => key + d).
Proof. intros x y. lia. Qed.

Lemma lookup_shift (d : Z) (t : EntryTimestamps) k :
  (kmap (fun key => key + d) t : EntryTimestamps) !! k = t !! (k - d).
Proof.
  replace k with ((k - d) + d) at 1 by lia.
  apply (lookup_kmap (fun key => key + d)).
Qed.

Lemma lookup_close_gap i t k :
  close_gap i t !! k = if decide (k < i) then t !! k else t !! (k + 1).
Proof.
  unfold close_gap. rewrite lookup_union.
  change (fun key => key - 1) with (fun key => key + -1).
  rewrite lookup_shift, lookup_tail, lookup_head. replace (k - -1) with (k + 1) by lia.
  repeat case_decide; try lia.
  - replace i with (k + 1) by lia. rewrite lookup_delete_eq, lookup_delete_ne by lia.
    by destruct (t !! k).
  - rewrite lookup_delete_ne by lia. by destruct (t !! (k + 1)).
  - rewrite lookup_delete_ne by lia. by destruct (t !! k).
Qed.

Lemma lookup_open_gap i t k :
  (forall k v, t !! k = Some v -> k < usize_max) ->
  open_gap i t !! k = if decide (k < i) then t !! k
                      else if decide (k = i) then None else t !! (k - 1).
Proof.
  intros Hmax. unfold open_gap. rewrite lookup_union, lookup_shift, lookup_head.
  assert (filter (fun kv => kv.1 < usize_max) (tail_of i t) = tail_of i t) as ->.
  { apply map_filter_id. intros k' v'. unfold tail_of. rewrite map_lookup_filter_Some. cbn.
    intros [? _]. by eapply Hmax. }
  rewrite lookup_tail.
  repeat case_decide; try lia; by repeat destruct (t !! _).
Qed.

Lemma describes_close t entries i :
  describes t entries -> 0 <= i < Z.of_nat (length entries) ->
  describes (close_gap i t) (delete (Z.to_nat i) entries).
Proof.
  intros Hd Hi k v. rewrite lookup_close_gap. case_decide as Hk.
  - rewrite (Hd k v). split; intros [H0 H]; (split; [done|]).
    + by rewrite list_lookup_delete_lt by lia.
    + by rewrite list_lookup_delete_lt in H by lia.
  - rewrite (Hd (k + 1) v). rewrite list_lookup_delete_ge by lia.
    replace (S (Z.to_nat k)) with (Z.to_nat (k + 1)) by lia.
    split; intros [H0 H]; (split; [lia|done]).
Qed.

Lemma describes_open t entries i :
  describes t entries -> Z.of_nat (length entries) <= usize_max ->
  0 <= i <= Z.of_nat (length entries) ->
  describes (open_gap i t)
    (take (Z.to_nat i) entries ++ None :: drop (Z.to_nat i) entries).
Proof.
  intros Hd Hlen Hi k v. rewrite lookup_open_gap.
  2:{ intros k' v' [H0 H%lookup_lt_Some]%Hd. lia. }
  assert (length (take (Z.to_nat i) entries) = Z.to_nat i) as Ht
    by (rewrite length_take; lia).
  case_decide as Hk; [|case_decide as Hk'].
  - rewrite (Hd k v). split; intros [H0 H]; (split; [done|]).
    + rewrite lookup_app_l by lia. by rewrite lookup_take_lt by lia.
    + rewrite lookup_app_l in H by lia. by rewrite lookup_take_lt in H by lia.
  - subst k. rewrite lookup_app_r by lia. rewrite Ht, Nat.sub_diag. cbn. naive_solver.
  - rewrite (Hd (k - 1) v). rewrite lookup_app_r by lia. rewrite Ht.
    replace (Z.to_nat k - Z.to_nat i)%nat with (S (Z.to_nat (k - 1) - Z.to_nat i)) by lia.
    change ((None :: drop (Z.to_nat i) entries) !! S (Z.to_nat (k - 1) - Z.to_nat i)%nat)
      with (drop (Z.to_nat i) entries !! (Z.to_nat (k - 1) - Z.to_nat i)%nat).
    rewrite lookup_drop.
    replace (Z.to_nat i + (Z.to_nat (k - 1) - Z.to_nat i))%nat with (Z.to_nat (k - 1)) by lia.
    split; intros [H0 H]; (split; [lia|done]).
Qed.

Lemma describes_set t entries i (o : option string) t' :
  describes t entries -> 0 <= i < Z.of_nat (length entries) ->
  t' = partial_alter (fun _ => o) i t ->
  describes t' (<[Z.to_nat i := o]> entries).
Proof.
  intros Hd Hi -> k v. destruct (decide (k = i)) as [->|Hne].
  - rewrite lookup_partial_alter_eq, list_lookup_insert_eq by lia. naive_solver lia.
  - rewrite lookup_partial_alter_ne by done. rewrite (Hd k v).
    split; intros [H0 H]; (split; [done|]).
    + by rewrite list_lookup_insert_ne by lia.
    + by rewrite list_lookup_insert_ne in H by lia.
Qed.

(** Stamping an entry changes at most its own time, and keeps a time it has
    unless the entry brings one. *)
Lemma stamp_time t i value now :
  exists o, (stamp t i value now).1 = partial_alter (fun _ => o) i t /\
    (forall v, t !! i = Some v -> o = Some v \/
       exists content, json_get value "content" = Some content /\ source_time content = o).
Proof.
  assert (partial_alter (fun _ => t !! i) i t = t) as Hid by apply partial_alter_self.
  assert (exists o, t = partial_alter (fun _ => o) i t /\
            (forall v, t !! i = Some v -> o = Some v \/
             exists content, json_get value "content" = Some content /\
               source_time content = o)) as Hkeep by (exists (t !! i); auto).
  unfold stamp. destruct (json_get value "content") as [content|] eqn:Hc; [|done].
  destruct (json_is_object content); [|done].
  destruct (source_time content) as [time|] eqn:Hs.
  - cbn. destruct (_ || _); [|done]. exists (Some time).
    split; [done|]. intros v _. right. eauto.
  - destruct (t !! i) as [time|] eqn:Ht.
    + rewrite bool_decide_true by eauto. cbn. exists (Some time). split; [done|]. auto.
    + destruct (has_room t) eqn:Hr; [|done]. rewrite orb_true_r. exists (Some now). split; [done|]. by intros v.
Qed.

Lemma insert_take_drop (entries : list (option string)) n o :
  (n <= length entries)%nat ->
  <[n := o]> (take n entries ++ None :: drop n entries) =
  take n entries ++ o :: drop n entries.
Proof.
  intros Hn. replace n with (length (take n entries) + 0)%nat at 1
    by (rewrite length_take; lia).
  by rewrite insert_app_r.
Qed.

Lemma describes_empty : describes ∅ [].
Proof. intros k v. rewrite lookup_empty. naive_solver. Qed.

(** The time an entry ends up with after it is added or replaced. *)
Lemma enrich_entry t entries i value now rebuild op :
  describes t entries -> 0 <= i < Z.of_nat (length entries) ->
  exists time,
    describes (if decide (json_get value "type" ≫= json_as_str = Some "NORMALIZED_ENTRY")
               then let (t', value) := stamp t i value now in (t', rebuild value)
               else (delete i t, op) : EntryTimestamps * PatchOperation V).1
              (<[Z.to_nat i := time]> entries) /\
    (forall v, json_get value "type" ≫= json_as_str = Some "NORMALIZED_ENTRY" ->
       entries !! Z.to_nat i = Some (Some v) -> time = Some v \/
       exists content, json_get value "content" = Some content /\
         source_time content = time).
Proof.
  intros Hd Hi. case_decide as Hty.
  - destruct (stamp_time t i value now) as (o & Ho & Hk).
    destruct (stamp t i value now) as [t' value']. cbn in *. exists o. split.
    + by eapply describes_set.
    + intros v _ Hv. apply Hk. apply Hd. split; [lia|done].
  - exists None. split; [|done]. by eapply describes_set.
Qed.

(** Observation times follow their entries: after any patch operation that
    applies to the conversation array, the recorded times describe the array that
    JSON Patch makes, with the entry added or replaced being the only one whose
    time may change; a replaced entry keeps the time it was first observed at
    unless the patch brings a valid time of its own. *)
Theorem timestamps_follow_entries t entries op now :
  describes t entries -> Z.of_nat (length entries) <= usize_max ->
  (forall time, is_Some (array_op op entries time)) ->
  exists time entries',
    array_op op entries time = Some entries' /\
    describes (enrich_op t op now).1 entries' /\
    (forall path value i v,
       op = PReplace path value -> path <> "/entries" -> entry_index path = Some i ->
       json_get value "type" ≫= json_as_str = Some "NORMALIZED_ENTRY" ->
       entries !! Z.to_nat i = Some (Some v) -> time = Some v \/
       exists content, json_get value "content" = Some content /\
         source_time content = time).
Proof.
  intros Hd Hlen Hok. unfold array_op, enrich_op in *.
  destruct op as [path value|path value|path|].
  - destruct (decide (path = "/entries")); [exists None, []; split_and!; [done|apply describes_empty|done]|].
    destruct (entry_index path) as [i|] eqn:Hi; [|exists None, entries; done].
    pose proof (entry_index_nonneg _ _ Hi).
    destruct (Hok None) as [? Hap]. case_decide as Hn; [|done].
    destruct (enrich_entry (open_gap i t) (take (Z.to_nat i) entries ++ None :: drop (Z.to_nat i) entries)
                i value now (PAdd path) (PAdd path value)) as (time & Ht & _).
    + apply describes_open; [done|done|lia].
    + rewrite length_app, length_take. cbn. rewrite length_drop. lia.
    + exists time, (take (Z.to_nat i) entries ++ time :: drop (Z.to_nat i) entries).
      rewrite insert_take_drop in Ht by lia. done.
  - destruct (decide (path = "/entries")) as [|Hp]; [exists None, []; split_and!;
      [done|apply describes_empty|naive_solver]|].
    destruct (entry_index path) as [i|] eqn:Hi;
      [|exists None, entries; split_and!; [done|done|naive_solver]].
    pose proof (entry_index_nonneg _ _ Hi).
    destruct (Hok None) as [? Hap]. case_decide as Hn; [|done].
    destruct (enrich_entry t entries i value now (PReplace path) (PReplace path value))
      as (time & Ht & Hk); [done|lia|].
    exists time, (<[Z.to_nat i := time]> entries). split_and!; [done|done|].
    intros path' value' i' v [= <- <-] _ Hi' Hty Hv.
    apply Hk; [done|]. rewrite Hi in Hi'. by injection Hi' as ->.
  - destruct (decide (path = "/entries")); [exists None, []; split_and!; [done|apply describes_empty|done]|].
    destruct (entry_index path) as [i|] eqn:Hi; [|exists None, entries; done].
    pose proof (entry_index_nonneg _ _ Hi).
    destruct (Hok None) as [? Hap]. case_decide as Hn; [|done].
    exists None, (delete (Z.to_nat i) entries). split_and!; [done| |done].
    apply describes_close; [done|lia].
  - exists None, entries. done.
Qed.

End Enrich.
End EntryTimestamps.

Module MsgStore.
Import LogMsg.

(* crates/utils/src/msg_store.rs:13-13 HISTORY_BYTES *)
Definition HISTORY_BYTES : Z := 100000 * 1024.

Section Store.
Context {V : Type} `{!JsonValue V, !JsonEdit V}.
Context (is_rfc3339 : string -> bool) (patch_len : list (PatchOperation V) -> nat).

(* crates/utils/src/msg_store.rs:15-19 StoredMsg *)
Record StoredMsg := { msg : LogMsg V; bytes : Z }.

(** [Inner], and in [sent] what the broadcast sender has published. *)
(* crates/utils/src/msg_store.rs:21-25 Inner *)
Record MsgStore := {
  history : list StoredMsg;
  total_bytes : Z;
  entry_timestamps : option EntryTimestamps.EntryTimestamps;
  sent : list (LogMsg V);
}.

(* crates/utils/src/msg_store.rs:124-134 MsgStore::with_capacity *)
Definition new : MsgStore :=
  {| history := []; total_bytes := 0; entry_timestamps := None; sent := [] |}.

(* crates/utils/src/msg_store.rs:118-122 MsgStore::live *)
Definition live : MsgStore :=
  {| history := []; total_bytes := 0; entry_timestamps := Some ∅; sent := [] |}.

(* crates/utils/src/msg_store.rs:144-150 MsgStore::push *)
Fixpoint evict (h : list StoredMsg) (total incoming : Z) : list StoredMsg * Z :=
  if decide (HISTORY_BYTES < saturating_add usize_max total incoming) then
    match h with
    | front :: h => evict h (saturating_sub total (bytes front)) incoming
    | [] => (h, total)
    end
  else (h, total).

(* crates/utils/src/msg_store.rs:136-160 MsgStore::push *)
Definition push (s : MsgStore) (m : LogMsg V) (now : string) : MsgStore :=
  let (ts, m) :=
    match entry_timestamps s, m with
    | Some t, JsonPatch patch =>
        let (t, patch) := EntryTimestamps.enrich is_rfc3339 t patch now in
        (Some t, JsonPatch patch)
    | ts, m => (ts, m)
    end in
  let b := approx_bytes patch_len m in
  let (h, total) := evict (history s) (total_bytes s) b in
  {| history := h ++ [{| msg := m; bytes := b |}];
     total_bytes := saturating_add usize_max total b;
     entry_timestamps := ts;
     sent := sent s ++ [m] |}.

(* crates/utils/src/msg_store.rs:198-207 MsgStore::select_history *)
Definition select_history {T} (s : MsgStore) (select : LogMsg V -> option T) : list T :=
  omap (fun stored => select (msg stored)) (history s).

(* crates/utils/src/msg_store.rs:187-189 MsgStore::get_history *)
Definition get_history (s : MsgStore) : list (LogMsg V) := select_history s Some.

(** A receiver sees what is sent from its position on. *)
(* crates/utils/src/msg_store.rs:183-185 MsgStore::get_receiver *)
Definition get_receiver (s : MsgStore) : nat := length (sent s).

(** A consumer's stream: what is left of the history it was given, and the position of its
    receiver.  The broadcast channel keeps [capacity] messages; a receiver that is further
    behind is told how many it missed and goes on with the oldest one kept (tokio). *)
Context (capacity : nat).

Record Reader := { pending : list (LogMsg V); position : nat }.

(* crates/utils/src/msg_store.rs:246-262 MsgStore::history_plus_stream *)
Definition history_plus_stream (s : MsgStore) : Reader :=
  {| pending := msg <$> history s; position := get_receiver s |}.

(* crates/utils/src/msg_store.rs:212-229 MsgStore::history_plus_stream_counting *)
Definition history_plus_stream_counting (s : MsgStore) (count : LogMsg V -> bool) : nat * Reader :=
  let h := msg <$> history s in
  (length (filter (fun m => count m = true) h), {| pending := h; position := get_receiver s |}).

(** One poll of the stream: a message, [Err n] after a lag of [n] messages, or nothing yet. *)
(* crates/utils/src/msg_store.rs:231-243 MsgStore::chain_history_and_live *)
Definition chain_history_and_live (r : Reader) (s : MsgStore) : option (result (LogMsg V) nat) * Reader :=
  match pending r with
  | m :: l => (Some (Ok m), {| pending := l; position := position r |})
  | [] =>
      let lag := (length (sent s) - capacity - position r)%nat in
      match lag with
      | S _ => (Some (Err lag), {| pending := []; position := position r + lag |})
      | O => match sent s !! position r with
             | Some m => (Some (Ok m), {| pending := []; position := S (position r) |})
             | None => (None, r)
             end
      end
  end.

(** Pushes and polls of one consumer in any order ([None] is a poll): what it was given, and
    what is left. *)
Fixpoint attend (r : Reader) (s : MsgStore) (l : list (option (LogMsg V * string)))
    : list (result (LogMsg V) nat) * MsgStore * Reader :=
  match l with
  | [] => ([], s, r)
  | Some (m, now) :: l => attend r (push s m now) l
  | None :: l =>
      let '(item, r) := chain_history_and_live r s in
      let '(items, later, r) := attend r s l in
      (option_list item ++ items, later, r)
  end.

Fixpoint until_finished (l : list (LogMsg V)) : list (LogMsg V) :=
  match l with
  | [] => []
  | Finished :: _ => []
  | m :: l => m :: until_finished l
  end.

(* crates/utils/src/msg_store.rs:264-277 MsgStore::stdout_chunked_stream *)
Definition stdout_chunked (l : list (LogMsg V)) : list string :=
  omap (fun m => match m with Stdout s => Some s | _ => None end) (until_finished l).

(* crates/utils/src/msg_store.rs:285-298 MsgStore::stderr_chunked_stream *)
Definition stderr_chunked (l : list (LogMsg V)) : list string :=
  omap (fun m => match m with Stderr s => Some s | _ => None end) (until_finished l).

Definition push_all (s : MsgStore) (l : list (LogMsg V * string)) : MsgStore :=
  foldl (fun s mn => push s mn.1 mn.2) s l.

(** ** The handoff from history to live *)

Definition retained (s : MsgStore) (k : nat) : Prop :=
  msg <$> history s = drop k (sent s).

Lemma evict_drop h total b :
  exists k, (evict h total b).1 = drop k h.
Proof.
  revert total. induction h as [|x h IH]; intros total; cbn.
  - exists 0%nat. by case_decide.
  - case_decide; [|by exists 0%nat].
    destruct (IH (saturating_sub total (bytes x))) as [k Hk]. exists (S k). done.
Qed.

Lemma push_sent s m now : exists m', sent (push s m now) = sent s ++ [m'].
Proof.
  unfold push.
  destruct (match entry_timestamps s with | Some _ => _ | None => _ end) as [ts m'].
  destruct (evict _ _ _) as [h total]. cbn. eauto.
Qed.

Lemma push_retained s m now k :
  (k <= length (sent s))%nat -> retained s k ->
  exists k', (k <= k' <= length (sent s))%nat /\ retained (push s m now) k'.
Proof.
  unfold retained, push. intros Hk Hr.
  destruct (match entry_timestamps s with | Some _ => _ | None => _ end) as [ts m'].
  destruct (evict_drop (history s) (total_bytes s) (approx_bytes patch_len m')) as [n Hn].
  destruct (evict _ _ _) as [h total]. cbn in *. subst h.
  assert (length (history s) = length (sent s) - k)%nat as Hl
    by (by rewrite <- length_drop, <- Hr, length_fmap).
  exists (k + min n (length (history s)))%nat. split; [lia|].
  rewrite fmap_app, fmap_drop, Hr, drop_drop. cbn.
  rewrite (drop_app_le (sent s)) by lia. f_equal.
  destruct (decide (n <= length (history s))%nat); [by rewrite Nat.min_l by lia|].
  rewrite Nat.min_r by lia. rewrite !drop_ge by lia. done.
Qed.

Lemma push_all_sent s l : exists more, sent (push_all s l) = sent s ++ more.
Proof.
  revert s. induction l as [|[m now] l IH]; intros s; cbn; [exists []; by rewrite app_nil_r|].
  destruct (IH (push s m now)) as [more Hm]. destruct (push_sent s m now) as [m' Hm'].
  exists (m' :: more). unfold push_all in Hm. rewrite Hm, Hm'. by rewrite <- app_assoc.
Qed.

Lemma push_all_retained s l k :
  (k <= length (sent s))%nat -> retained s k ->
  exists k', (k' <= length (sent (push_all s l)))%nat /\ retained (push_all s l) k'.
Proof.
  revert s k. induction l as [|[m now] l IH]; intros s k Hk Hr; cbn; [eauto|].
  destruct (push_retained s m now k Hk Hr) as (k' & Hk' & Hr').
  destruct (push_sent s m now) as [m' Hm'].
  apply (IH (push s m now) k'); [|done]. rewrite Hm', length_app. lia.
Qed.

Lemma attend_retained l : forall r s k,
  (k <= length (sent s))%nat -> retained s k ->
  exists k', (k' <= length (sent (attend r s l).1.2))%nat /\ retained (attend r s l).1.2 k'.
Proof.
  induction l as [|[[m now]|] l IH]; intros r s k Hk Hr; cbn [attend]; [by exists k| |].
  - destruct (push_retained s m now k Hk Hr) as (k' & Hk' & Hr').
    destruct (push_sent s m now) as [m' Hm']. apply (IH r (push s m now) k'); [|done].
    rewrite Hm', length_app. lia.
  - destruct (chain_history_and_live r s) as [item r1]. specialize (IH r1 s k Hk Hr).
    by destruct (attend r1 s l) as [[items later] r'].
Qed.

(** What a consumer was given of a list of messages, and what is left of it: each message is
    the next one, and a lag of [n] stands for the next [n], given up for [capacity] newer
    ones. *)
Inductive received : list (result (LogMsg V) nat) -> list (LogMsg V) -> list (LogMsg V) -> Prop :=
| received_nil l : received [] l l
| received_message m items l rest : received items l rest -> received (Ok m :: items) (m :: l) rest
| received_lag missed items l rest :
    missed <> [] -> (capacity <= length l)%nat -> received items l rest ->
    received (Err (length missed) :: items) (missed ++ l) rest.

(** What a reader has still to get. *)
Definition unread (r : Reader) (s : MsgStore) : list (LogMsg V) := pending r ++ drop (position r) (sent s).

Lemma poll_received r s more items rest :
  (position r <= length (sent s))%nat ->
  let '(item, r') := chain_history_and_live r s in
  (position r' <= length (sent s))%nat /\
  (received items (pending r' ++ drop (position r') (sent s ++ more)) rest ->
   received (option_list item ++ items) (pending r ++ drop (position r) (sent s ++ more)) rest) /\
  (item = None -> unread r s = []).
Proof.
  intros Hp. unfold chain_history_and_live, unread. destruct (pending r) as [|m l] eqn:Hl.
  - destruct (length (sent s) - capacity - position r)%nat as [|n] eqn:Hn.
    + destruct (sent s !! position r) as [m|] eqn:Hm; cbn [pending position app option_list].
      * pose proof (lookup_lt_Some _ _ _ Hm). split_and!; [lia| |done]. intros Hgo.
        rewrite (drop_S (sent s ++ more) m (position r)) by by apply lookup_app_l_Some.
        by constructor.
      * apply lookup_ge_None in Hm. rewrite Hl. split_and!; [lia|done|]. intros _. by apply drop_ge.
    + cbn [pending position app option_list]. split_and!; [lia| |done]. intros H.
      set (live := drop (position r) (sent s ++ more)).
      rewrite <-(take_drop (S n) live). unfold live at 2. rewrite drop_drop.
      replace (Err (S n)) with (Err (A := LogMsg V) (length (take (S n) live))).
      * constructor; [|rewrite length_drop, length_app; lia|done].
        intros Hnil. apply (f_equal length) in Hnil. unfold live in Hnil.
        rewrite length_take, length_drop, length_app in Hnil. cbn [length] in Hnil. lia.
      * f_equal. unfold live. rewrite length_take, length_drop, length_app. lia.
  - cbn [pending position app option_list]. split_and!; [done| |done]. intros H. by constructor.
Qed.

Lemma attend_received l : forall r s,
  (position r <= length (sent s))%nat ->
  let '(items, later, r') := attend r s l in
  (exists more, sent later = sent s ++ more) /\
  (position r' <= length (sent later))%nat /\
  received items (pending r ++ drop (position r) (sent later)) (unread r' later).
Proof.
  induction l as [|[[m now]|] l IH]; intros r s Hp; cbn [attend].
  - split_and!; [exists []; by rewrite app_nil_r|done|constructor].
  - destruct (push_sent s m now) as [m' Hm']. specialize (IH r (push s m now)).
    rewrite Hm', length_app in IH. specialize (IH ltac:(lia)).
    destruct (attend r (push s m now) l) as [[items later] r']. destruct IH as ((more & Hmore) & Hp' & Hr).
    split_and!; [|done|done]. exists (m' :: more). by rewrite Hmore, <-app_assoc.
  - destruct (chain_history_and_live r s) as [item r1] eqn:Hc.
    pose proof (fun more items rest => poll_received r s more items rest Hp) as Hpoll. rewrite Hc in Hpoll.
    destruct (Hpoll [] [] []) as [Hp1 _]. specialize (IH r1 s Hp1).
    destruct (attend r1 s l) as [[items later] r']. destruct IH as ((more & Hmore) & Hp' & Hr).
    split_and!; [by exists more|done|]. rewrite Hmore in Hr |- *. by apply (Hpoll more).
Qed.

(** A reader that is never more than [capacity] behind is told of no lag. *)
Lemma attend_no_lag l : forall r s,
  (length (sent s) + length (filter is_Some l) <= position r + capacity)%nat ->
  Forall is_ok (attend r s l).1.1.
Proof.
  induction l as [|[[m now]|] l IH]; intros r s Hp; cbn [attend].
  - constructor.
  - destruct (push_sent s m now) as [m' Hm']. apply IH. rewrite Hm', length_app.
    rewrite filter_cons_True in Hp by eauto. cbn [length] in *. lia.
  - rewrite filter_cons_False in Hp by by intros [? [=]].
    destruct (chain_history_and_live r s) as [item r1] eqn:Hc.
    assert (position r <= position r1 /\ Forall is_ok (option_list item))%nat as [Hle Hi].
    { unfold chain_history_and_live in Hc. repeat case_match; injection Hc as <- <-; cbn; try lia;
        (split; [lia|repeat constructor]). }
    specialize (IH r1 s ltac:(lia)). destruct (attend r1 s l) as [[items later] r']. cbn in *.
    by apply Forall_app.
Qed.


(** ** The byte budget *)

Fixpoint sum_bytes (h : list StoredMsg) : Z :=
  match h with [] => 0 | x :: h => bytes x + sum_bytes h end.

Definition budgeted (s : MsgStore) : Prop :=
  total_bytes s = sum_bytes (history s) /\
  Forall (fun x => 0 < bytes x <= i64_max) (history s) /\
  (total_bytes s <= HISTORY_BYTES \/ length (history s) = 1%nat).

Lemma sum_bytes_nonneg h : Forall (fun x => 0 < bytes x <= i64_max) h -> 0 <= sum_bytes h.
Proof. induction 1; cbn in *; lia. Qed.

Lemma sum_bytes_snoc h x : sum_bytes (h ++ [x]) = sum_bytes h + bytes x.
Proof. induction h as [|y h IH]; cbn in *; [lia|]. rewrite IH. lia. Qed.

Lemma evict_budget h b :
  Forall (fun x => 0 < bytes x <= i64_max) h -> 0 < b <= i64_max ->
  sum_bytes h <= i64_max ->
  let (h', total') := evict h (sum_bytes h) b in
  total' = sum_bytes h' /\ Forall (fun x => 0 < bytes x <= i64_max) h' /\
  (total' + b <= HISTORY_BYTES \/ h' = []).
Proof.
  intros Hh Hb. induction Hh as [|x h Hx Hh IH]; intros Hsum.
  - cbn. case_decide; auto.
  - assert (0 <= sum_bytes h) by by apply sum_bytes_nonneg.
    change (sum_bytes (x :: h)) with (bytes x + sum_bytes h) in *.
    cbn [evict]. case_decide as Hd.
    + replace (saturating_sub (bytes x + sum_bytes h) (bytes x)) with (sum_bytes h)
        by (unfold saturating_sub; lia).
      apply IH. lia.
    + split_and!; [done|by constructor|left].
      unfold saturating_add, usize_max, u64_max, HISTORY_BYTES, i64_max in *. lia.
Qed.

Lemma push_budgeted s m now :
  budgeted s -> (forall m', sent (push s m now) = sent s ++ [m'] ->
                   approx_bytes patch_len m' <= i64_max) ->
  budgeted (push s m now).
Proof.
  unfold budgeted, push. intros (Ht & Hb & Hl) Hm.
  destruct (match entry_timestamps s with | Some _ => _ | None => _ end) as [ts m'].
  pose proof (approx_bytes_pos patch_len m') as Hpos.
  assert (sum_bytes (history s) <= i64_max) as Hs.
  { destruct Hl as [Hl|Hl]; [unfold HISTORY_BYTES, i64_max in *; lia|].
    destruct (history s) as [|x [|]]; try done. apply Forall_cons in Hb as [Hx _]. cbn. lia. }
  pose proof (evict_budget (history s) (approx_bytes patch_len m') Hb) as He.
  rewrite Ht in Hm |- *.
  destruct (evict (history s) (sum_bytes (history s)) _) as [h total]. cbn in *.
  assert (approx_bytes patch_len m' <= i64_max) by by apply Hm.
  destruct He as (-> & Hh & Hor); [lia|done|].
  assert (sum_bytes h <= i64_max) as Hsh.
  { destruct Hor as [Hor| ->]; [unfold HISTORY_BYTES, i64_max in *; lia|done]. }
  pose proof (sum_bytes_nonneg h Hh). rewrite sum_bytes_snoc. cbn.
  split_and!.
  - unfold saturating_add, usize_max, u64_max, i64_max in *. lia.
  - apply Forall_app. split; [done|]. repeat constructor; cbn; lia.
  - destruct Hor as [Hor| ->]; [left|by right].
    unfold saturating_add, usize_max, u64_max, i64_max in *. lia.
Qed.

(** The history stays within its byte budget: whatever is pushed, the stored
    total is the sum over the retained messages, and it is at most
    [HISTORY_BYTES] unless a single message alone exceeds it. *)
Theorem history_within_budget start l :
  start = new \/ start = live ->
  Forall (fun m => approx_bytes patch_len m <= i64_max) (sent (push_all start l)) ->
  budgeted (push_all start l).
Proof.
  intros Hs.
  induction l as [|[m now] l IH] using rev_ind; unfold push_all in *.
  - intros _. destruct Hs as [-> | ->]; (split; [done|split; [constructor|by left]]).
  - rewrite foldl_snoc. cbn. intros Hf. apply push_budgeted.
    + apply IH. destruct (push_sent (foldl (fun s mn => push s mn.1 mn.2) start l) m now)
        as [m' Hm']. rewrite Hm' in Hf. by apply Forall_app in Hf as [? _].
    + intros m' Hm'. rewrite Hm' in Hf. apply Forall_app in Hf as [_ Hf].
      apply (Forall_inv Hf).
Qed.

End Store.
Arguments StoredMsg : clear implicits.
Arguments MsgStore : clear implicits.

(** ** A concrete run *)
Module Samples.

Definition entry (text : string) : Json :=
  JObject [("type", JString "NORMALIZED_ENTRY");
           ("content", JObject [("text", JString text)])].

Definition add (path text : string) : LogMsg Json := JsonPatch [PAdd path (entry text)].

(** The second message inserts before the first. *)
Definition store : MsgStore Json :=
  push_all (fun _ => false) (fun p => length p) live
    [(add "/entries/0" "a", "t1"); (add "/entries/0" "b", "t2"); (Stdout "x", "t3")].

End Samples.

Example live_store_sample :
  (map_to_list <$> entry_timestamps Samples.store) = Some [(0, "t2"); (1, "t1")] \/
  (map_to_list <$> entry_timestamps Samples.store) = Some [(1, "t1"); (0, "t2")].
Proof. vm_compute. auto. Qed.

(** A consumer with a channel of two messages that misses the third, and goes on. *)
Definition attended : list (option (LogMsg Json * string)) :=
  [None; Some (Stderr "e", "t4"); Some (Stderr "f", "t5"); None; None;
   Some (Stderr "g", "t6"); None; None; None; None].

Example a_lag_is_told :
  let '(items, _, _) :=
    attend (fun _ => false) (fun p => length p) 2 (history_plus_stream Samples.store) Samples.store attended in
  drop 3 items = [Err 1%nat; Ok (Stderr "f"); Ok (Stderr "g")].
Proof. vm_compute. reflexivity. Qed.


Lemma history_within_budget_witness : budgeted Samples.store.
Proof.
  apply history_within_budget; [by right|].
  repeat (apply Forall_cons; split; [vm_compute; discriminate|]). apply Forall_nil. exact I.
Defined.

Lemma timestamps_follow_entries_witness :
  exists time entries',
    EntryTimestamps.array_op (PReplace "/entries/0" (Samples.entry "a'"))
      [Some "t1"; None] time = Some entries' /\
    EntryTimestamps.describes
      (EntryTimestamps.enrich_op (fun _ => false) {[ 0 := "t1" ]}
         (PReplace "/entries/0" (Samples.entry "a'")) "t9").1 entries'.
Proof.
  edestruct (EntryTimestamps.timestamps_follow_entries (fun _ => false) {[ 0 := "t1" ]}
               [Some "t1"; None] (PReplace "/entries/0" (Samples.entry "a'")) "t9")
    as (time & es & H1 & H2 & _).
  - intros k v. destruct (decide (k = 0)) as [->|Hk].
    + rewrite lookup_singleton_eq. cbn. naive_solver.
    + rewrite lookup_singleton_ne by done. split; [done|]. intros [H0 H].
      destruct (Z.to_nat k) as [|[|n]] eqn:Hn; [lia| |]; by vm_compute in H.
  - vm_compute. discriminate.
  - intros time. vm_compute. eauto.
  - exists time, es. split; [exact H1|exact H2].
Defined.

End MsgStore.
