(* ===== verification/PlainText.v ===== *)
(** * Plain-text log streams

    The processor that turns the stderr of a coding agent into conversation
    entries.  [Module TextBuffer] is the line buffer, [Module EntryIndex] the
    counter of entry indices that the normalisers of a process share,
    [Module PlainText] the processor (crates/executors/src/logs).  Time is an
    argument: one reading of the clock per chunk.  A [FnMut] transformation is a
    function, since every one the code installs is stateless. *)
From S2P Require Import Prelude Text Format Json MsgStore.
From Stdlib Require Import Ascii.
Import LogMsg.

Module TextBuffer.

(* crates/executors/src/logs/plain_text_processor.rs:43-48 PlainTextBuffer *)
Record PlainTextBuffer := {
  lines : list string;
  total_len : Z;
}.

(* crates/executors/src/logs/plain_text_processor.rs:52-57 PlainTextBuffer::new *)
Definition new : PlainTextBuffer := {| lines := []; total_len := 0 |}.

(* crates/executors/src/logs/plain_text_processor.rs:143-150 PlainTextBuffer::partial_line *)
Definition partial_line (b : PlainTextBuffer) : option string :=
  match last (lines b) with
  | Some l => if ends_with_newline l then None else Some l
  | None => None
  end.

(* crates/executors/src/logs/plain_text_processor.rs:60-83 PlainTextBuffer::ingest *)
Definition ingest (b : PlainTextBuffer) (text_chunk : string) : PlainTextBuffer :=
  let '(kept, len, current_partial) :=
    match partial_line b with
    | Some partial => (removelast (lines b), saturating_sub (total_len b) (str_len partial), partial)
    | None => (lines b, total_len b, "")
    end in
  let combined_text := current_partial +:+ text_chunk in
  {| lines := kept ++ split_inclusive newline combined_text;
     total_len := len + str_len combined_text |}.

(* crates/executors/src/logs/plain_text_processor.rs:86-96 PlainTextBuffer::drain_lines *)
Definition drain_lines (b : PlainTextBuffer) (n : nat) : list string * PlainTextBuffer :=
  let drained := take n (lines b) in
  (drained,
   {| lines := drop n (lines b);
      total_len := foldl (fun len line => saturating_sub len (str_len line))
                         (total_len b) drained |}).

(* crates/executors/src/logs/plain_text_processor.rs:100-110 PlainTextBuffer::drain_size *)
Fixpoint lines_to_drain (len drained_len : Z) (count : nat) (ls : list string) : nat :=
  match ls with
  | [] => count
  | line :: ls =>
      if Z.leb len drained_len && Nat.ltb 0 count then count
      else lines_to_drain len (drained_len + str_len line) (S count) ls
  end.

(* crates/executors/src/logs/plain_text_processor.rs:100-113 PlainTextBuffer::drain_size *)
Definition drain_size (b : PlainTextBuffer) (len : Z) : list string * PlainTextBuffer :=
  drain_lines b (lines_to_drain len 0 0 (lines b)).

(* crates/executors/src/logs/plain_text_processor.rs:116-120 PlainTextBuffer::flush *)
Definition flush (b : PlainTextBuffer) : list string * PlainTextBuffer := (lines b, new).

Definition total (ls : list string) : Z := foldr (fun l acc => str_len l + acc) 0 ls.

(* crates/executors/src/logs/plain_text_processor.rs:133-140 PlainTextBuffer::recompute_len *)
Definition with_lines (ls : list string) : PlainTextBuffer :=
  {| lines := ls; total_len := total ls |}.

(* crates/executors/src/logs/plain_text_processor.rs:153-156 PlainTextBuffer::is_empty *)
Definition is_empty (b : PlainTextBuffer) : bool := bool_decide (total_len b = 0).

(** ** The cached length is the length, and no text is lost or invented *)

Definition text (b : PlainTextBuffer) : string := sconcat (lines b).

Definition len_ok (b : PlainTextBuffer) : Prop := total_len b = total (lines b).

Lemma total_app l k : total (l ++ k) = total l + total k.
Proof. unfold total. induction l as [|x l IH]; cbn in *; lia. Qed.

Lemma total_nonneg l : 0 <= total l.
Proof.
  unfold total. induction l as [|x l IH]; cbn; [lia|].
  pose proof (str_len_nonneg x). lia.
Qed.

Lemma total_text l : total l = str_len (sconcat l).
Proof.
  induction l as [|x l IH]; [done|].
  rewrite sconcat_cons, str_len_app, <- IH. done.
Qed.

Lemma is_empty_text b : len_ok b -> is_empty b = true <-> text b = "".
Proof.
  intros H. unfold is_empty. rewrite bool_decide_eq_true, H, total_text.
  apply str_len_zero.
Qed.

Lemma partial_line_Some b p :
  partial_line b = Some p -> exists l, lines b = l ++ [p].
Proof.
  unfold partial_line. destruct (last (lines b)) as [l|] eqn:Hl; [|done].
  destruct (ends_with_newline l); [done|]. intros [= ->].
  by apply last_Some in Hl as [l' ->]; exists l'.
Qed.

Lemma ingest_ok b c :
  len_ok b -> len_ok (ingest b c) /\ text (ingest b c) = text b +:+ c.
Proof.
  intros Hl. unfold ingest, len_ok, text in *.
  destruct (partial_line b) as [p|] eqn:Hp; cbn.
  - apply partial_line_Some in Hp as [l Hp]. rewrite Hp in *.
    rewrite removelast_last, total_app, !sconcat_app, sconcat_split_inclusive.
    rewrite (total_text (split_inclusive _ _)), sconcat_split_inclusive, Hl, total_app.
    unfold saturating_sub. cbn [total foldr]. pose proof (total_nonneg l).
    pose proof (str_len_nonneg p). split; [lia|].
    change (sconcat [p]) with (p +:+ ""). by rewrite sapp_nil_r, sapp_assoc.
  - rewrite total_app, sconcat_app, sconcat_split_inclusive.
    by rewrite (total_text (split_inclusive _ _)), sconcat_split_inclusive, Hl.
Qed.

Lemma split_inclusive_nonempty c s : Forall (fun l => l <> "") (split_inclusive c s).
Proof.
  induction s as [|d s IH]; [done|]. cbn [split_inclusive]. case_decide.
  - by constructor.
  - destruct (split_inclusive c s); [by repeat constructor|].
    apply Forall_cons in IH as [_ IH]. by constructor.
Qed.

Lemma ingest_nonempty b c :
  Forall (fun l => l <> "") (lines b) -> Forall (fun l => l <> "") (lines (ingest b c)).
Proof.
  intros Hf. unfold ingest. destruct (partial_line b) as [p|] eqn:Hp; cbn;
    apply Forall_app; (split; [|apply split_inclusive_nonempty]); [|done].
  apply partial_line_Some in Hp as [l Hp]. rewrite Hp in *. rewrite removelast_last.
  by apply Forall_app in Hf as [Hf _].
Qed.

Lemma drained_total ls rest len :
  len = total (ls ++ rest) ->
  foldl (fun len line => saturating_sub len (str_len line)) len ls = total rest.
Proof.
  revert len. induction ls as [|x ls IH]; intros len ->; cbn; [done|].
  apply IH. unfold saturating_sub. pose proof (total_nonneg (ls ++ rest)).
  pose proof (str_len_nonneg x). unfold total in *. cbn. lia.
Qed.

Lemma drain_lines_ok b n drained b' :
  len_ok b -> drain_lines b n = (drained, b') ->
  len_ok b' /\ text b = sconcat drained +:+ text b'.
Proof.
  intros Hl [= <- <-]. unfold len_ok, text in *. cbn. split.
  - apply drained_total. by rewrite take_drop.
  - by rewrite <- sconcat_app, take_drop.
Qed.

Lemma drain_lines_shrinks b n drained b' :
  drain_lines b n = (drained, b') -> drained <> [] ->
  (length (lines b') < length (lines b))%nat.
Proof.
  intros [= <- <-]. cbn. rewrite length_drop.
  destruct n, (lines b); cbn; try done; lia.
Qed.

Lemma with_lines_ok ls : len_ok (with_lines ls) /\ text (with_lines ls) = sconcat ls.
Proof. done. Qed.

End TextBuffer.

Module EntryIndex.

(** The [AtomicUsize]: [fetch_add] wraps. *)
(* crates/executors/src/logs/utils/entry_index.rs:22-24 EntryIndexProvider::next *)
Definition next (counter : Z) : Z * Z := (counter, (counter + 1) `mod` (usize_max + 1)).

(* crates/executors/src/logs/utils/entry_index.rs:43-56 EntryIndexProvider::start_from *)
Definition first_added {V} (msg : LogMsg V) : option Z :=
  match msg with
  | JsonPatch patch =>
      head (omap (fun op => match op with
                            | PAdd path _ => EntryTimestamps.entry_index path
                            | _ => None
                            end) patch)
  | _ => None
  end.

(* crates/executors/src/logs/utils/entry_index.rs:37-63 EntryIndexProvider::start_from *)
Definition start_from {V} (history : list (LogMsg V)) : Z :=
  let max_index := foldl (fun acc i => Some (match acc with Some m => Z.max m i | None => i end))
                         None (omap first_added history) in
  match max_index with Some n => saturating_add usize_max n 1 | None => 0 end.

Definition max_opt (acc : option Z) (l : list Z) : option Z :=
  foldl (fun acc i => Some (match acc with Some m => Z.max m i | None => i end)) acc l.

Lemma max_opt_ge acc l m :
  max_opt acc l = Some m -> (forall i, i ∈ l -> i <= m) /\ (forall a, acc = Some a -> a <= m).
Proof.
  revert acc. induction l as [|x l IH]; intros acc; cbn.
  - intros ->. split; [intros i H; by apply not_elem_of_nil in H|by intros a [= <-]].
  - intros H. destruct (IH _ H) as [Hl Ha]. specialize (Ha _ eq_refl).
    split.
    + intros i [->|Hi]%elem_of_cons; [destruct acc; lia|by apply Hl].
    + intros a ->. lia.
Qed.

(** A processor seeded from a history starts above every entry it added. *)
Lemma start_from_above {V} (history : list (LogMsg V)) msg i :
  msg ∈ history -> first_added msg = Some i -> i < usize_max -> i < start_from history.
Proof.
  intros Hm Hi Hb. unfold start_from.
  change (foldl _ None ?l) with (max_opt None l).
  assert (i ∈ omap first_added history) as Hin by (apply list_elem_of_omap; eauto).
  destruct (max_opt None (omap first_added history)) as [m|] eqn:E.
  - apply max_opt_ge in E as [E _]. specialize (E _ Hin).
    unfold saturating_add. lia.
  - exfalso. destruct (omap first_added history) as [|x l]; [by apply not_elem_of_nil in Hin|].
    cbn in E. assert (forall l a, is_Some (max_opt (Some a) l)) as Hs.
    { clear. induction l as [|x l IH]; intros a; cbn; [eauto|apply IH]. }
    destruct (Hs l x) as [? Hx]. unfold max_opt in *. congruence.
Qed.

End EntryIndex.

Module PlainText.
Import TextBuffer.

(* crates/executors/src/logs/plain_text_processor.rs:31-38 MessageBoundary *)
Inductive MessageBoundary :=
| Split (line_idx : nat)
| IncompleteContent.

(** The conversation patches, over the values [V] that entries serialise to. *)
Abbreviation Patch V := (list (PatchOperation V)).

Section Patches.
Context {V : Type}.

Definition entry_path (index : Z) : string := "/entries/" +:+ display index.

(* crates/executors/src/logs/utils/patch.rs:52-60 ConversationPatch::add_normalized_entry *)
Definition add_normalized_entry (entry_index : Z) (entry : V) : Patch V :=
  [PAdd (entry_path entry_index) entry].

(* crates/executors/src/logs/utils/patch.rs:135-143 ConversationPatch::replace *)
Definition replace (entry_index : Z) (entry : V) : Patch V :=
  [PReplace (entry_path entry_index) entry].

(** The entries a reader holds after the patches, by index. *)
Definition apply_op (view : gmap Z V) (op : PatchOperation V) : gmap Z V :=
  match op with
  | PAdd path v | PReplace path v =>
      match EntryTimestamps.entry_index path with Some i => <[i := v]> view | None => view end
  | PRemove path =>
      match EntryTimestamps.entry_index path with Some i => delete i view | None => view end
  | POther => view
  end.

Definition render (patches : list (Patch V)) : gmap Z V :=
  foldl apply_op ∅ (concat patches).

Lemma entry_index_path i :
  0 <= i <= usize_max -> EntryTimestamps.entry_index (entry_path i) = Some i.
Proof.
  intros Hi. unfold EntryTimestamps.entry_index, entry_path.
  replace (strip_prefix "/entries/" _) with (Some (display i))
    by (symmetry; by apply strip_prefix_Some).
  by apply parse_uint_display.
Qed.

Lemma render_snoc patches p :
  render (patches ++ [p]) = foldl apply_op (render patches) p.
Proof. unfold render. rewrite concat_app. cbn. by rewrite app_nil_r, foldl_app. Qed.

End Patches.

Section Processor.
Context {V : Type}.

(* crates/executors/src/logs/plain_text_processor.rs:179-190 PlainTextLogProcessor *)
Record Config := {
  entry_size_threshold : option Z;
  time_gap : option Duration;
  format_chunk : option (option string -> string -> string);
  transform_lines : option (list string -> list string);
  message_boundary_predicate : option (list string -> option MessageBoundary);
  normalized_entry_producer : string -> V;
}.

(* crates/executors/src/logs/plain_text_processor.rs:179-190 PlainTextLogProcessor *)
Record PlainTextLogProcessor := {
  buffer : PlainTextBuffer;
  last_chunk_arrival_time : Z;
  current_entry_index : option Z;
}.

(* crates/executors/src/logs/plain_text_processor.rs:329-359 PlainTextLogProcessor::new *)
Definition builder (size_threshold : option Z) (time_gap : option Duration)
    (format_chunk : option (option string -> string -> string))
    (transform_lines : option (list string -> list string))
    (message_boundary_predicate : option (list string -> option MessageBoundary))
    (normalized_entry_producer : string -> V) (now : Z) : Config * PlainTextLogProcessor :=
  ({| entry_size_threshold :=
        match size_threshold, time_gap with
        | None, None => Some (8 * 1024)
        | _, _ => size_threshold
        end;
      time_gap := time_gap;
      format_chunk := format_chunk;
      transform_lines := transform_lines;
      message_boundary_predicate := message_boundary_predicate;
      normalized_entry_producer := normalized_entry_producer |},
   {| buffer := new; last_chunk_arrival_time := now; current_entry_index := None |}).

Context (cfg : Config).

(** The processor, the shared counter and the patches returned so far. *)
Record Work := {
  proc : PlainTextLogProcessor;
  counter : Z;
  patches : list (Patch V);
}.

Definition with_buffer (w : Work) (b : PlainTextBuffer) : Work :=
  {| proc := {| buffer := b;
                last_chunk_arrival_time := last_chunk_arrival_time (proc w);
                current_entry_index := current_entry_index (proc w) |};
     counter := counter w; patches := patches w |}.

Definition with_index (w : Work) (i : option Z) : Work :=
  {| proc := {| buffer := buffer (proc w);
                last_chunk_arrival_time := last_chunk_arrival_time (proc w);
                current_entry_index := i |};
     counter := counter w; patches := patches w |}.

Definition buffered (w : Work) : PlainTextBuffer := buffer (proc w).

(** [patches.push(self.create_patch(lines))] *)
(* crates/executors/src/logs/plain_text_processor.rs:293-312 PlainTextLogProcessor::create_patch *)
Definition create_patch (w : Work) (ls : list string) : Work :=
  let content := sconcat ls in
  let entry := normalized_entry_producer cfg content in
  match current_entry_index (proc w) with
  | Some idx =>
      {| proc := proc w; counter := counter w; patches := patches w ++ [replace idx entry] |}
  | None =>
      let (idx, counter') := EntryIndex.next (counter w) in
      {| proc := proc (with_index w (Some idx)); counter := counter';
         patches := patches w ++ [add_normalized_entry idx entry] |}
  end.

(** The loop over message boundaries; [None] when the fuel runs out, and the
    flag says that the predicate asked to wait for more content. *)
(* crates/executors/src/logs/plain_text_processor.rs:238-265 PlainTextLogProcessor::process *)
Fixpoint boundary_loop (fuel : nat) (w : Work) : option (bool * Work) :=
  match fuel with
  | O => None
  | S fuel =>
      match message_boundary_predicate cfg ≫= (fun predicate => predicate (lines (buffered w))) with
      | Some (Split line_idx) =>
          let (ls, b) := drain_lines (buffered w) line_idx in
          let w := with_buffer w b in
          match ls with
          | [] => boundary_loop fuel w
          | _ => boundary_loop fuel (with_index (create_patch w ls) None)
          end
      | Some IncompleteContent => Some (true, w)
      | None => Some (false, w)
      end
  end.

(* crates/executors/src/logs/plain_text_processor.rs:268-280 PlainTextLogProcessor::process *)
Fixpoint size_loop (fuel : nat) (size_threshold : Z) (w : Work) : option Work :=
  match fuel with
  | O => None
  | S fuel =>
      if decide (size_threshold <= total_len (buffered w)) then
        let (ls, b) := drain_size (buffered w) size_threshold in
        let w := with_buffer w b in
        match ls with
        | [] => Some w
        | _ => size_loop fuel size_threshold (with_index (create_patch w ls) None)
        end
      else Some w
  end.

(** Every turn of a loop that continues has drained a line. *)
Definition fuel_for (w : Work) : nat := S (length (lines (buffered w))).

(* crates/executors/src/logs/plain_text_processor.rs:235-289 PlainTextLogProcessor::process *)
Definition emit (w : Work) : option Work :=
  match boundary_loop (fuel_for w) w with
  | None => None
  | Some (true, w) => Some w
  | Some (false, w) =>
      match (match entry_size_threshold cfg with
             | Some size_threshold => size_loop (fuel_for w) size_threshold w
             | None => Some w
             end) with
      | None => None
      | Some w => Some (if is_empty (buffered w) then w
                        else create_patch w (lines (buffered w)))
      end
  end.

(* crates/executors/src/logs/plain_text_processor.rs:213-233 PlainTextLogProcessor::process *)
Definition take_in (w : Work) (now : Z) (text_chunk : string) : option Work :=
  let w := {| proc := {| buffer := buffered w; last_chunk_arrival_time := now;
                         current_entry_index := current_entry_index (proc w) |};
              counter := counter w; patches := patches w |} in
  let formatted_chunk :=
    match format_chunk cfg with
    | Some f => f (partial_line (buffered w)) text_chunk
    | None => text_chunk
    end in
  if decide (formatted_chunk = "") then Some w
  else
    let w := with_buffer w (ingest (buffered w) formatted_chunk) in
    match transform_lines cfg with
    | Some f =>
        let w := with_buffer w (with_lines (f (lines (buffered w)))) in
        if is_empty (buffered w) then Some w else emit w
    | None => emit w
    end.

(* crates/executors/src/logs/plain_text_processor.rs:199-211 PlainTextLogProcessor::process *)
Definition gap_elapsed (p : PlainTextLogProcessor) (now : Z) : bool :=
  negb (is_empty (buffer p)) &&
  match time_gap cfg with
  | Some gap => Z.leb gap (now - last_chunk_arrival_time p)
  | None => false
  end.

(* crates/executors/src/logs/plain_text_processor.rs:194-290 PlainTextLogProcessor::process *)
Definition process (p : PlainTextLogProcessor) (shared : Z) (now : Z) (text_chunk : string)
    : option Work :=
  let w := {| proc := p; counter := shared; patches := [] |} in
  if decide (text_chunk = "") then Some w
  else if gap_elapsed p now then
    let (ls, b) := flush (buffered w) in
    let w := with_buffer w b in
    match ls with
    | [] => take_in (with_index w None) now text_chunk
    | _ => Some (create_patch w ls)
    end
  else take_in w now text_chunk.

(** A chunk, when it arrived, and how many indices the other normalisers took
    from the shared counter since the chunk before. *)
Record Arrival := { at_time : Z; taken : Z; chunk : string }.

(* crates/executors/src/logs/stderr_processor.rs:60-64 normalize_stderr_logs *)
Fixpoint run (p : PlainTextLogProcessor) (shared : Z) (arrivals : list Arrival)
    : option (PlainTextLogProcessor * Z * list (Patch V)) :=
  match arrivals with
  | [] => Some (p, shared, [])
  | a :: arrivals =>
      match process p (shared + taken a) (at_time a) (chunk a) with
      | None => None
      | Some w =>
          match run (proc w) (counter w) arrivals with
          | None => None
          | Some (p, shared, ps) => Some (p, shared, patches w ++ ps)
          end
      end
  end.

(** ** Termination *)

(** A predicate that asks for a split names a place after at least one of the
    lines it was shown. *)
Definition progresses : Prop :=
  forall predicate ls n, message_boundary_predicate cfg = Some predicate ->
    predicate ls = Some (Split n) -> (0 < n)%nat /\ ls <> [].

Lemma lines_with_index w i : lines (buffered (with_index w i)) = lines (buffered w).
Proof. done. Qed.

Lemma buffered_create_patch w ls : buffered (create_patch w ls) = buffered w.
Proof. unfold create_patch. by destruct (current_entry_index (proc w)). Qed.

Lemma time_create_patch w ls :
  last_chunk_arrival_time (proc (create_patch w ls)) = last_chunk_arrival_time (proc w).
Proof. unfold create_patch. by destruct (current_entry_index (proc w)). Qed.

Lemma boundary_loop_returns fuel w :
  progresses -> (length (lines (buffered w)) < fuel)%nat -> is_Some (boundary_loop fuel w).
Proof.
  intros Hp. revert w. induction fuel as [|fuel IH]; intros w Hf; [lia|]. cbn [boundary_loop].
  destruct (message_boundary_predicate cfg) as [predicate|] eqn:Hpred; cbn [mbind option_bind];
    [|eauto].
  destruct (predicate (lines (buffered w))) as [[n|]|] eqn:Hn; [|eauto|eauto].
  destruct (Hp _ _ _ Hpred Hn) as [Hpos Hne].
  destruct (drain_lines (buffered w) n) as [ls b] eqn:Hd.
  assert (ls <> []) as Hls.
  { injection Hd as <- _. destruct n, (lines (buffered w)); done || lia. }
  pose proof (drain_lines_shrinks _ _ _ _ Hd Hls).
  destruct ls as [|l ls]; [done|]. apply IH.
  change (buffered (with_index ?x None)) with (buffered x). rewrite buffered_create_patch.
  cbn. lia.
Qed.

Lemma size_loop_returns fuel size_threshold w :
  (length (lines (buffered w)) < fuel)%nat -> is_Some (size_loop fuel size_threshold w).
Proof.
  revert w. induction fuel as [|fuel IH]; intros w Hf; [lia|]. cbn [size_loop].
  case_decide; [|eauto].
  destruct (drain_size (buffered w) size_threshold) as [ls b] eqn:Hd.
  destruct ls as [|l ls]; [eauto|].
  pose proof (drain_lines_shrinks _ _ _ _ Hd ltac:(done)). apply IH.
  change (buffered (with_index ?x None)) with (buffered x). rewrite buffered_create_patch.
  cbn. lia.
Qed.

(** No step after the chunk is taken in touches the arrival time. *)
Lemma boundary_loop_time fuel w stop w' :
  boundary_loop fuel w = Some (stop, w') ->
  last_chunk_arrival_time (proc w') = last_chunk_arrival_time (proc w).
Proof.
  revert w. induction fuel as [|fuel IH]; intros w; cbn [boundary_loop]; [done|].
  destruct (_ ≫= _) as [[n|]|]; [|by intros [= _ <-]..].
  destruct (drain_lines (buffered w) n) as [[|l ls] b]; intros ->%IH; [done|].
  apply (time_create_patch (with_buffer w b)).
Qed.

Lemma size_loop_time fuel t w w' :
  size_loop fuel t w = Some w' ->
  last_chunk_arrival_time (proc w') = last_chunk_arrival_time (proc w).
Proof.
  revert w. induction fuel as [|fuel IH]; intros w; cbn [size_loop]; [done|].
  case_decide; [|by intros [= <-]].
  destruct (drain_size (buffered w) t) as [[|l ls] b]; [by intros [= <-]|].
  intros ->%IH. apply (time_create_patch (with_buffer w b)).
Qed.

Lemma emit_time w w' :
  emit w = Some w' -> last_chunk_arrival_time (proc w') = last_chunk_arrival_time (proc w).
Proof.
  unfold emit. destruct (boundary_loop _ w) as [[stop w1]|] eqn:Hb; [|done].
  apply boundary_loop_time in Hb as <-. destruct stop; [by intros [= <-]|].
  destruct (match entry_size_threshold cfg with Some _ => _ | None => _ end) as [w2|] eqn:Ht;
    [|done].
  assert (last_chunk_arrival_time (proc w2) = last_chunk_arrival_time (proc w1)) as <-.
  { destruct (entry_size_threshold cfg); [by eapply size_loop_time|by injection Ht as <-]. }
  intros [= <-]. destruct (is_empty _); [done|]. apply time_create_patch.
Qed.

Lemma emit_returns w : progresses -> is_Some (emit w).
Proof.
  intros Hp. unfold emit.
  destruct (boundary_loop_returns (fuel_for w) w Hp ltac:(unfold fuel_for; lia)) as [[[] w1] ->];
    [eauto|].
  destruct (entry_size_threshold cfg) as [t|]; [|eauto].
  destruct (size_loop_returns (fuel_for w1) t w1 ltac:(unfold fuel_for; lia)) as [w2 ->]. eauto.
Qed.

(** With a predicate that only ever asks to split after a line it was shown, both
    loops of [process] stop within one turn more than there are buffered lines. *)
Lemma process_returns p shared now text_chunk :
  progresses -> is_Some (process p shared now text_chunk).
Proof.
  intros Hp. unfold process, take_in. repeat case_decide; try by eauto.
  all: destruct (gap_elapsed p now);
    [destruct (flush _) as [[|? ?] ?]|]; try by eauto.
  all: repeat case_decide; try by eauto.
  all: destruct (transform_lines cfg); [|by apply emit_returns].
  all: destruct (is_empty _); [by eauto|by apply emit_returns].
Qed.

(** ** The entries hold the stream *)

(** The entries of this processor: their indices, in order, and the text of
    each; [c] is the next index. *)
Definition entries (own : list (Z * string)) : gmap Z V :=
  list_to_map ((fun e => (e.1, normalized_entry_producer cfg e.2)) <$> own).

Definition shows (ps : list (Patch V)) (own : list (Z * string)) (c : Z) : Prop :=
  render ps = entries own /\ StronglySorted Z.lt own.*1 /\ Forall (fun i => 0 <= i < c) own.*1.

Lemma entries_snoc own i s :
  i ∉ own.*1 -> entries (own ++ [(i, s)]) = <[i := normalized_entry_producer cfg s]> (entries own).
Proof.
  intros Hi. unfold entries. rewrite fmap_app. apply list_to_map_snoc.
  rewrite <- list_fmap_compose. done.
Qed.

Lemma below_not_in (own : list (Z * string)) c i : Forall (fun i => 0 <= i < c) own.*1 -> c <= i -> i ∉ own.*1.
Proof. rewrite Forall_forall. intros H Hc Hi%H. lia. Qed.

Lemma shows_nil c : shows [] [] c.
Proof. split_and!; [done|constructor..]. Qed.

Lemma shows_weaken ps own c c' : shows ps own c -> c <= c' -> shows ps own c'.
Proof.
  intros (Hr & Hs & Hf) Hc. split_and!; [done..|].
  eapply Forall_impl; [done|]. cbn. lia.
Qed.

Lemma render_set (ps : list (Patch V)) i v op :
  op = PAdd (entry_path i) v \/ op = PReplace (entry_path i) v -> 0 <= i <= usize_max ->
  render (ps ++ [[op]]) = <[i := v]> (render ps).
Proof.
  intros Hop Hi. rewrite render_snoc. cbn [foldl].
  destruct Hop as [-> | ->]; cbn [apply_op]; by rewrite entry_index_path.
Qed.

Lemma shows_add ps own c s :
  shows ps own c -> 0 <= c < usize_max ->
  shows (ps ++ [add_normalized_entry c (normalized_entry_producer cfg s)]) (own ++ [(c, s)]) (c + 1).
Proof.
  intros (Hr & Hs & Hf) Hc. split_and!.
  - unfold add_normalized_entry. rewrite (render_set _ c _ _ (or_introl eq_refl)), Hr by lia.
    rewrite entries_snoc; [done|]. by eapply below_not_in.
  - rewrite fmap_app. apply StronglySorted_app_2; [|done|repeat constructor].
    rewrite Forall_forall in Hf. intros x y Hx%Hf ->%list_elem_of_singleton. cbn. lia.
  - rewrite fmap_app. apply Forall_app. split; [|cbn; repeat constructor; lia].
    eapply Forall_impl; [done|]. cbn. lia.
Qed.

Lemma shows_replace ps own c i old s :
  shows ps (own ++ [(i, old)]) c -> c <= usize_max ->
  shows (ps ++ [replace i (normalized_entry_producer cfg s)]) (own ++ [(i, s)]) c.
Proof.
  intros (Hr & Hs & Hf) Hc. rewrite fmap_app in Hs, Hf. unfold shows. rewrite fmap_app.
  pose proof Hf as [_ Hi%Forall_inv]%Forall_app. cbn in Hi.
  assert (i ∉ own.*1) as Hn.
  { intros Hin. pose proof (StronglySorted_app_1_elem_of Z.lt own.*1 [i] i i Hs Hin
      ltac:(set_solver)). lia. }
  split_and!; [|done..].
  unfold replace. rewrite (render_set _ i _ _ (or_intror eq_refl)), Hr by lia.
  rewrite !entries_snoc by done. apply insert_insert_eq.
Qed.

Definition open_entry (cur : option Z) (stale : string) : list (Z * string) :=
  match cur with Some i => [(i, stale)] | None => [] end.

Definition opened (cur : option Z) : Z := match cur with Some _ => 1 | None => 0 end.

(** Between two chunks: the entries that are closed and the buffered text are the
    input, and the index of the open entry, if any, is the last one. *)
Record inv (before : list (Patch V)) (input : string) (budget : Z) (w : Work) : Prop := {
  inv_len : len_ok (buffered w);
  inv_lines : Forall (fun l => l <> "") (lines (buffered w));
  inv_counter : 0 <= counter w;
  inv_budget : counter w + str_len (text (buffered w))
               <= budget + opened (current_entry_index (proc w));
  inv_open : is_Some (current_entry_index (proc w)) -> text (buffered w) <> "";
  inv_shown : exists closed stale,
    shows (before ++ patches w) (closed ++ open_entry (current_entry_index (proc w)) stale)
      (counter w) /\
    sconcat closed.*2 +:+ text (buffered w) = input;
}.

Lemma create_patch_shows before w closed stale ls :
  shows (before ++ patches w) (closed ++ open_entry (current_entry_index (proc w)) stale)
    (counter w) ->
  0 <= counter w < usize_max + opened (current_entry_index (proc w)) ->
  exists j, current_entry_index (proc (create_patch w ls)) = Some j /\
    shows (before ++ patches (create_patch w ls)) (closed ++ [(j, sconcat ls)])
      (counter (create_patch w ls)) /\
    counter (create_patch w ls)
      = counter w + 1 - opened (current_entry_index (proc w)).
Proof.
  unfold create_patch, EntryIndex.next.
  destruct (current_entry_index (proc w)) as [i|] eqn:Hi; cbn [proc counter patches opened open_entry];
    intros Hs Hc.
  - exists i. split_and!; [done| |lia]. rewrite app_assoc.
    eapply shows_replace; [done|lia].
  - exists (counter w). rewrite Z.mod_small by lia.
    split_and!; [done| |lia]. rewrite app_nil_r in Hs. rewrite app_assoc.
    apply shows_add; [done|lia].
Qed.

Lemma nonempty_text ls : Forall (fun l : string => l <> "") ls -> ls <> [] -> sconcat ls <> "".
Proof.
  intros Hf Hne. destruct ls as [|[|c l] ls]; [done|by apply Forall_inv in Hf|].
  by rewrite sconcat_cons, sapp_cons.
Qed.

Lemma create_patch_opens w ls :
  current_entry_index (proc w) = None -> 0 <= counter w < usize_max ->
  create_patch w ls =
    {| proc := proc (with_index w (Some (counter w))); counter := counter w + 1;
       patches := patches w ++
         [add_normalized_entry (counter w) (normalized_entry_producer cfg (sconcat ls))] |}.
Proof. intros Hc Hb. unfold create_patch, EntryIndex.next. rewrite Hc, Z.mod_small by lia. done. Qed.

Lemma create_patch_updates w ls i :
  current_entry_index (proc w) = Some i ->
  create_patch w ls =
    {| proc := proc w; counter := counter w;
       patches := patches w ++ [replace i (normalized_entry_producer cfg (sconcat ls))] |}.
Proof. intros Hc. unfold create_patch. by rewrite Hc. Qed.

(** Closing an entry with the lines just drained keeps the invariant. *)
Lemma close_entry_inv before input budget w ls b :
  inv before input budget w -> budget <= usize_max ->
  text (buffered w) = sconcat ls +:+ text b -> len_ok b ->
  lines (buffered w) = ls ++ lines b -> ls <> [] ->
  inv before input budget (with_index (create_patch (with_buffer w b) ls) None).
Proof.
  intros [Hl Hf Hc Hb Ho (closed & stale & Hs & Ht)] Hmax Htext Hb' Hlines Hne.
  rewrite Hlines in Hf. apply Forall_app in Hf as [Hf Hf'].
  pose proof (nonempty_text ls Hf Hne) as Hls.
  assert (str_len (sconcat ls) <> 0) as Hlen by (by rewrite str_len_zero).
  pose proof (str_len_nonneg (sconcat ls)). pose proof (str_len_nonneg (text b)).
  rewrite Htext, str_len_app in Hb.
  destruct (create_patch_shows before (with_buffer w b) closed stale ls) as (j & _ & Hs' & Hc').
  { done. }
  { cbn. unfold opened in *; destruct (current_entry_index (proc w)); lia. }
  cbn in Hc'. set (w' := create_patch (with_buffer w b) ls) in *.
  assert (buffered w' = b) as Hbuf by apply buffered_create_patch.
  split; change (buffered (with_index w' None)) with (buffered w'); rewrite ?Hbuf; cbn; try done.
  - unfold opened in *; destruct (current_entry_index (proc w)); lia.
  - unfold opened in *; destruct (current_entry_index (proc w)); lia.
  - exists (closed ++ [(j, sconcat ls)]), "". cbn. rewrite app_nil_r. split; [done|].
    rewrite fmap_app, sconcat_app. cbn.
    change (sconcat [sconcat ls]) with (sconcat ls +:+ "").
    by rewrite sapp_nil_r, sapp_assoc, <- Htext.
Qed.

Definition waiting (b : PlainTextBuffer) : Prop :=
  exists predicate, message_boundary_predicate cfg = Some predicate /\
    predicate (lines b) = Some IncompleteContent.

Definition settled (before : list (Patch V)) (input : string) (w : Work) : Prop :=
  exists own, shows (before ++ patches w) own (counter w) /\ sconcat own.*2 = input.

Section Chunk.
Context (before : list (Patch V)) (input : string) (budget : Z) (Hmax : budget <= usize_max).

Lemma drain_step_inv w n ls b :
  inv before input budget w -> drain_lines (buffered w) n = (ls, b) -> ls <> [] ->
  inv before input budget (with_index (create_patch (with_buffer w b) ls) None).
Proof.
  intros Hi Hd Hne. pose proof (drain_lines_ok _ _ _ _ (inv_len _ _ _ _ Hi) Hd) as [Hl Ht].
  apply close_entry_inv; try done. injection Hd as <- <-. cbn. by rewrite take_drop.
Qed.

(** Draining nothing changes nothing. *)
Lemma drain_nothing w n b :
  drain_lines (buffered w) n = ([], b) -> with_buffer w b = w.
Proof.
  intros Hd. assert (b = buffered w) as ->; [|by destruct w as [[] ? ?]].
  injection Hd as Ht <-. unfold drain_lines. rewrite Ht. cbn.
  assert (drop n (lines (buffered w)) = lines (buffered w)) as ->.
  { rewrite <- (take_drop n (lines (buffered w))) at 2. by rewrite Ht. }
  by destruct (buffered w).
Qed.

Lemma boundary_loop_inv fuel w stop w' :
  inv before input budget w -> boundary_loop fuel w = Some (stop, w') ->
  inv before input budget w' /\ (stop = true -> waiting (buffered w')).
Proof.
  revert w. induction fuel as [|fuel IH]; intros w Hi; cbn [boundary_loop]; [done|].
  destruct (message_boundary_predicate cfg) as [predicate|] eqn:Hp; cbn [mbind option_bind];
    [|by intros [= <- <-]].
  destruct (predicate (lines (buffered w))) as [[n|]|] eqn:Hn.
  - destruct (drain_lines (buffered w) n) as [[|l ls] b] eqn:Hd; cbn [mbind option_bind].
    + rewrite (drain_nothing _ _ _ Hd). exact (IH w Hi).
    + intros H. eapply IH, H. by eapply drain_step_inv.
  - intros [= <- <-]. split; [done|]. intros _. by exists predicate.
  - by intros [= <- <-].
Qed.

Lemma size_loop_inv fuel t w w' :
  inv before input budget w -> size_loop fuel t w = Some w' -> inv before input budget w'.
Proof.
  revert w. induction fuel as [|fuel IH]; intros w Hi; cbn [size_loop]; [done|].
  case_decide; [|by intros [= <-]].
  destruct (drain_size (buffered w) t) as [[|l ls] b] eqn:Hd; unfold drain_size in Hd.
  - rewrite (drain_nothing _ _ _ Hd). by intros [= <-].
  - intros Hs. eapply IH, Hs. by eapply drain_step_inv.
Qed.

(** The partial update at the end of [process] shows all that is buffered. *)
Lemma update_inv w :
  inv before input budget w ->
  let w' := if is_empty (buffered w) then w else create_patch w (lines (buffered w)) in
  inv before input budget w' /\ settled before input w'.
Proof.
  intros Hi. pose proof Hi as [Hl Hf Hc Hb Ho (closed & stale & Hs & Ht)].
  destruct (is_empty (buffered w)) eqn:He; cbn.
  - split; [done|]. rewrite (is_empty_text _ Hl) in He.
    destruct (current_entry_index (proc w)) as [i|] eqn:Hcur; [by destruct Ho|].
    cbn in Hs. rewrite app_nil_r in Hs. exists closed. split; [done|].
    by rewrite He, sapp_nil_r in Ht.
  - assert (text (buffered w) <> "") as Hne by (rewrite <- is_empty_text by done; by rewrite He).
    assert (str_len (text (buffered w)) <> 0) as Hlen by (by rewrite str_len_zero).
    pose proof (str_len_nonneg (text (buffered w))).
    destruct (create_patch_shows before w closed stale (lines (buffered w))) as (j & Hj & Hs' & Hc').
    { done. }
    { unfold opened in *; destruct (current_entry_index (proc w)); lia. }
    split.
    + split; rewrite ?buffered_create_patch, ?Hj; try done.
      * unfold opened in *; destruct (current_entry_index (proc w)); lia.
      * unfold opened in *; destruct (current_entry_index (proc w)); lia.
      * by exists closed, (sconcat (lines (buffered w))).
    + eexists. split; [done|]. rewrite fmap_app, sconcat_app, <- Ht. cbn.
      change (sconcat [?x]) with (x +:+ ""). by rewrite sapp_nil_r.
Qed.

Lemma emit_inv w w' :
  inv before input budget w -> emit w = Some w' ->
  inv before input budget w' /\ (~ waiting (buffered w') -> settled before input w').
Proof.
  intros Hi. unfold emit.
  destruct (boundary_loop _ w) as [[stop w1]|] eqn:Hb; [|done].
  apply boundary_loop_inv in Hb as [Hi1 Hw]; [|done].
  destruct stop; [intros [= <-]; split; [done|]; intros Hn; by destruct Hn; apply Hw|].
  destruct (match entry_size_threshold cfg with Some _ => _ | None => _ end) as [w2|] eqn:Ht;
    [|done].
  assert (inv before input budget w2) as Hi2.
  { destruct (entry_size_threshold cfg); [by eapply size_loop_inv|by injection Ht as <-]. }
  intros [= <-]. by pose proof (update_inv w2 Hi2) as [? ?].
Qed.

End Chunk.

Definition plain : Prop := format_chunk cfg = None /\ transform_lines cfg = None.

(** No chunk follows the one before after the time gap. *)
Fixpoint prompt (last : Z) (arrivals : list Arrival) : Prop :=
  match arrivals with
  | [] => True
  | a :: arrivals =>
      match time_gap cfg with Some gap => at_time a - last < gap | None => True end /\
      prompt (if decide (chunk a = "") then last else at_time a) arrivals
  end.

Definition work (p : PlainTextLogProcessor) (c : Z) (ps : list (Patch V)) : Work :=
  {| proc := p; counter := c; patches := ps |}.

(** Receiving a chunk: the buffer grows by it. *)
Lemma ingest_inv before input budget w now c :
  inv before input budget w ->
  inv before (input +:+ c) (budget + str_len c)
    {| proc := {| buffer := ingest (buffered w) c; last_chunk_arrival_time := now;
                  current_entry_index := current_entry_index (proc w) |};
       counter := counter w; patches := patches w |}.
Proof.
  intros [Hl Hf Hc Hb Ho (closed & stale & Hs & Ht)].
  destruct (ingest_ok (buffered w) c Hl) as [Hl' Ht'].
  split; cbn [proc counter patches buffered buffer current_entry_index]; try done.
  - by apply ingest_nonempty.
  - rewrite Ht', str_len_app. lia.
  - intros Hi%Ho. rewrite Ht', <- str_len_zero, str_len_app.
    rewrite <- str_len_zero in Hi. pose proof (str_len_nonneg (text (buffered w))).
    pose proof (str_len_nonneg c). lia.
  - exists closed, stale. split; [done|]. by rewrite Ht', <- sapp_assoc, Ht.
Qed.

Lemma process_inv before input budget p c now text_chunk :
  plain -> progresses -> budget + str_len text_chunk <= usize_max ->
  match time_gap cfg with Some gap => now - last_chunk_arrival_time p < gap | None => True end ->
  inv before input budget (work p c []) ->
  (~ waiting (buffer p) -> settled before input (work p c [])) ->
  exists w, process p c now text_chunk = Some w /\
    inv before (input +:+ text_chunk) (budget + str_len text_chunk) w /\
    (~ waiting (buffer (proc w)) -> settled before (input +:+ text_chunk) w) /\
    last_chunk_arrival_time (proc w)
      = (if decide (text_chunk = "") then last_chunk_arrival_time p else now).
Proof.
  intros [Hfmt Htr] Hp Hb Hgap Hi Hs. unfold process.
  destruct (decide (text_chunk = "")) as [-> | Hne].
  { exists (work p c []). rewrite sapp_nil_r, Z.add_0_r. by split_and!. }
  assert (gap_elapsed p now = false) as ->.
  { unfold gap_elapsed. destruct (time_gap cfg) as [gap|]; [|by rewrite andb_false_r].
    apply andb_false_iff. right. lia. }
  unfold take_in. rewrite Hfmt, Htr. cbv beta iota zeta. rewrite decide_False by done.
  pose proof (ingest_inv before input budget (work p c []) now text_chunk Hi) as Hi'.
  match goal with |- context [emit ?w0] => destruct (emit_returns w0 Hp) as [w Hw] end.
  rewrite Hw. exists w. split; [done|].
  pose proof Hw as Ht%emit_time.
  eapply emit_inv in Hw as [? ?]; [|done|exact Hi']. by split_and!.
Qed.

Lemma inv_next before input budget w t :
  inv before input budget w -> 0 <= t ->
  inv (before ++ patches w) input (budget + t) (work (proc w) (counter w + t) []).
Proof.
  intros [Hl Hf Hc Hb Ho (closed & stale & Hs & Ht)] Hpos.
  change (buffered w) with (buffered (work (proc w) (counter w + t) [])) in *.
  split; cbn [work proc counter patches]; try done; [lia..|].
  exists closed, stale. rewrite app_nil_r. split; [|done]. eapply shows_weaken; [done|lia].
Qed.

Lemma settled_next before input w t :
  settled before input w -> 0 <= t ->
  settled (before ++ patches w) input (work (proc w) (counter w + t) []).
Proof.
  intros (own & Hs & Ht) Hpos. exists own. split; [|done]. cbn. rewrite app_nil_r.
  eapply shows_weaken; [done|lia].
Qed.

(** What the indices taken by a run are bounded by. *)
Fixpoint cost (arrivals : list Arrival) : Z :=
  match arrivals with
  | [] => 0
  | a :: arrivals => taken a + str_len (chunk a) + cost arrivals
  end.

Lemma cost_nonneg arrivals :
  Forall (fun a => 0 <= taken a) arrivals -> 0 <= cost arrivals.
Proof.
  induction 1 as [|a arrivals Ha _ IH]; cbn [cost]; [lia|].
  pose proof (str_len_nonneg (chunk a)). lia.
Qed.

Lemma run_inv_entries arrivals : forall before input budget p c,
  plain -> progresses -> prompt (last_chunk_arrival_time p) arrivals ->
  Forall (fun a => 0 <= taken a) arrivals -> budget + cost arrivals <= usize_max ->
  inv before input budget (work p c []) ->
  (~ waiting (buffer p) -> settled before input (work p c [])) ->
  exists p' c' ps, run p c arrivals = Some (p', c', ps) /\
    (~ waiting (buffer p') ->
     settled before (input +:+ sconcat (chunk <$> arrivals)) (work p' c' ps)).
Proof.
  induction arrivals as [|a arrivals IH]; intros before input budget p c Hpl Hp Hpr Ht Hb Hi Hs;
    cbn [run].
  { exists p, c, []. split; [done|]. by rewrite sapp_nil_r. }
  apply Forall_cons in Ht as [Ha Ht]. destruct Hpr as [Hgap Hpr].
  pose proof (cost_nonneg arrivals Ht). cbn [cost] in Hb.
  destruct (process_inv (before ++ []) input (budget + taken a) p (c + taken a) (at_time a)
    (chunk a)) as (w & -> & Hi' & Hs' & Htime); try done; [lia| | |].
  { by apply (inv_next before input budget (work p c [])). }
  { intros Hw. apply (settled_next before input (work p c [])); [by apply Hs|done]. }
  rewrite app_nil_r in Hi', Hs'.
  destruct (IH (before ++ patches w) (input +:+ chunk a) (budget + taken a + str_len (chunk a))
    (proc w) (counter w)) as (p' & c' & ps & -> & Hd); try done; [by rewrite Htime|lia|..].
  { pose proof (inv_next _ _ _ _ 0 Hi' ltac:(lia)) as Hn. by rewrite !Z.add_0_r in Hn. }
  { intros Hw. pose proof (settled_next _ _ _ 0 (Hs' Hw) ltac:(lia)) as Hn.
    by rewrite !Z.add_0_r in Hn. }
  exists p', c', (patches w ++ ps). split; [done|]. intros Hw.
  destruct (Hd Hw) as (own & Hown & Ho). exists own.
  cbn [work proc counter patches] in *. rewrite app_assoc. split; [done|].
  by rewrite Ho, fmap_cons, sconcat_cons, sapp_assoc.
Qed.

(** With nothing but a time gap configured, a chunk that finds the buffer empty
    is shown at once, and a chunk that arrives after the gap empties it. *)
Lemma process_into_empty p c now text_chunk :
  plain -> message_boundary_predicate cfg = None -> entry_size_threshold cfg = None ->
  buffer p = new -> text_chunk <> "" ->
  process p c now text_chunk =
    Some (create_patch (work {| buffer := ingest new text_chunk; last_chunk_arrival_time := now;
                                current_entry_index := current_entry_index p |} c [])
                       (split_inclusive newline text_chunk)).
Proof.
  intros [Hfmt Htr] Hpred Hsize Hbuf Hne.
  unfold process, gap_elapsed, take_in, emit, fuel_for. cbn [boundary_loop proc buffered].
  rewrite decide_False by done. unfold buffered. cbn [proc]. rewrite Hbuf, Hfmt, Htr, Hpred, Hsize.
  cbn [is_empty new total_len negb andb mbind option_bind].
  rewrite decide_False by done. cbn [with_buffer proc buffer].
  destruct (is_empty (ingest new text_chunk)) eqn:He; [|done].
  exfalso. destruct (ingest_ok new text_chunk eq_refl) as [Hok Htext].
  by rewrite (is_empty_text _ Hok), Htext in He.
Qed.

Lemma process_after_gap p c now gap text_chunk :
  time_gap cfg = Some gap -> gap <= now - last_chunk_arrival_time p ->
  len_ok (buffer p) -> text (buffer p) <> "" -> text_chunk <> "" ->
  process p c now text_chunk =
    Some (create_patch (work {| buffer := new;
                                last_chunk_arrival_time := last_chunk_arrival_time p;
                                current_entry_index := current_entry_index p |} c [])
                       (lines (buffer p))).
Proof.
  intros Hgap Hle Hok Htext Hne. unfold process. rewrite decide_False by done.
  assert (gap_elapsed p now = true) as ->.
  { unfold gap_elapsed. rewrite Hgap. apply andb_true_iff. split; [|lia].
    apply negb_true_iff. destruct (is_empty _) eqn:He; [|done].
    by rewrite (is_empty_text _ Hok) in He. }
  unfold flush, buffered. cbn [proc]. unfold text in Htext.
  by destruct (lines (buffer p)).
Qed.

End Processor.

(** C28: The entries of a stream hold exactly the stream.  Let no chunk arrive after a time
    gap, let nothing be formatted or transformed, let the indices stay below the largest
    [usize], and let the predicate make progress: a split it asks for is after at least one
    line, and of lines that are there (one that answers [Split 0] makes the processor loop
    for ever).  Then, whatever the size threshold, a run over any chunks returns; and unless
    the predicate is waiting for more content at its end, the texts of the entries, read in
    the order of their indices, concatenate to the chunks received.  Indices taken by other
    normalisers in between do not matter. *)
Theorem entries_hold_the_stream {V} size_threshold gap predicate (producer : string -> V)
    now start arrivals :
  let '(cfg, p) := builder size_threshold gap None None predicate producer now in
  progresses cfg -> prompt cfg now arrivals -> Forall (fun a => 0 <= taken a) arrivals ->
  0 <= start -> start + cost arrivals <= usize_max ->
  exists p' c' ps, run cfg p start arrivals = Some (p', c', ps) /\
    (~ waiting cfg (buffer p') ->
     exists own, render ps = entries cfg own /\ StronglySorted Z.lt own.*1 /\
       sconcat own.*2 = sconcat (chunk <$> arrivals)).
Proof.
  intros Hp Hpr Ht H0 Hb. unfold builder in *. cbn [fst snd] in *.
  set (cfg := {| entry_size_threshold := _ |}) in *. set (p := {| buffer := new |}) in *.
  destruct (run_inv_entries cfg arrivals [] "" start p start) as (p' & c' & ps & Hr & Hs);
    try done.
  - split; cbn; try done; try lia; try by intros [? ?].
    exists [], "". split; [apply shows_nil|done].
  - intros _. exists []. split; [apply shows_nil|done].
  - exists p', c', ps. split; [done|]. intros Hw.
    destruct (Hs Hw) as (own & (Hren & Hsort & _) & Hown). by exists own.
Qed.

(** A time gap loses output: with the two-second gap that every stderr
    normaliser sets and nothing else configured, the chunk that arrives after the gap
    is not put in any entry, and the chunk after it overwrites the entry from before
    the gap instead of opening one, so that of three chunks only the last is shown. *)
Theorem gap_loses_output {V} gap (producer : string -> V) now start a b c t1 t2 t3 :
  a <> "" -> b <> "" -> c <> "" -> gap <= t2 - t1 -> 0 <= start < usize_max ->
  let '(cfg, p) := builder None (Some gap) None None None producer now in
  exists p' c' ps,
    run cfg p start [{| at_time := t1; taken := 0; chunk := a |};
                     {| at_time := t2; taken := 0; chunk := b |};
                     {| at_time := t3; taken := 0; chunk := c |}] = Some (p', c', ps) /\
    render ps = {[ start := producer c ]}.
Proof.
  intros Ha Hb Hc Hgap Hs. cbn [builder fst snd].
  set (cfg := {| entry_size_threshold := _ |}).
  cbn [run at_time taken chunk]. rewrite !Z.add_0_r.
  destruct (ingest_ok new a eq_refl) as [Hok Htext].
  rewrite (process_into_empty cfg), create_patch_opens by (done || cbn; lia).
  cbn [proc counter patches work with_index with_buffer buffer current_entry_index app
       last_chunk_arrival_time].
  rewrite (process_after_gap cfg _ _ _ gap);
    [|done|cbn; lia|done|cbn [buffer]; by rewrite Htext|done].
  rewrite (create_patch_updates cfg _ _ start) by done.
  cbn [proc counter patches work with_index with_buffer buffer current_entry_index app].
  rewrite Z.add_0_r, (process_into_empty cfg), (create_patch_updates cfg _ _ start) by done.
  cbn [proc counter patches work with_index with_buffer buffer current_entry_index app].
  do 3 eexists. split; [done|].
  unfold add_normalized_entry, replace, render. cbn [concat app foldl apply_op].
  rewrite !entry_index_path by lia.
  rewrite !insert_insert_eq, sconcat_split_inclusive. done.
Qed.

(** A stream cut by size and at lines that start a tool call, with other entries
    in between. *)
Definition tool_boundary (ls : list string) : option MessageBoundary :=
  match ls with
  | first :: second :: _ => if starts_with "TOOL" second then Some (Split 1) else None
  | _ => None
  end.

Definition sample_stream : list Arrival :=
  [{| at_time := 1; taken := 0; chunk := "one " |};
   {| at_time := 2; taken := 2; chunk := "two" +:+ String newline "TOOL: " |};
   {| at_time := 3; taken := 0; chunk := "read" +:+ String newline "" |}].

Example entries_hold_the_stream_witness :
  let '(cfg, p) := builder (Some 8) (Some 10) None None (Some tool_boundary) id 0 in
  exists p' c' ps, run cfg p 0 sample_stream = Some (p', c', ps) /\
    exists own, render ps = entries cfg own /\ StronglySorted Z.lt own.*1 /\
      sconcat own.*2 = "one two" +:+ String newline "TOOL: read" +:+ String newline "".
Proof.
  pose proof (entries_hold_the_stream (Some 8) (Some 10) (Some tool_boundary) (id : string -> string)
                0 0 sample_stream) as H.
  cbn [builder fst snd] in *.
  destruct H as (p' & c' & ps & Hr & H).
  - intros predicate ls n [= <-]. destruct ls as [|x [|y ls]]; cbn; try done.
    destruct (starts_with "TOOL" y); [|done]. intros [= <-]. split; [lia|done].
  - cbn. repeat split; lia.
  - repeat constructor; cbn; lia.
  - lia.
  - vm_compute. done.
  - exists p', c', ps. split; [exact Hr|]. apply H.
    intros (predicate & [= <-] & Hw). clear -Hw.
    destruct (lines (buffer p')) as [|x [|y ls]]; try done.
    cbn in Hw. by destruct (starts_with "TOOL" y).
Defined.

Example gap_loses_output_witness :
  "lost"%string <> "" /\
  let '(cfg, p) := builder None (Some (from_secs 2)) None None None (id : string -> string) 0 in
  exists p' c' ps,
    run cfg p 0 [{| at_time := 0; taken := 0; chunk := "error A" |};
                 {| at_time := from_secs 3; taken := 0; chunk := "error B" |};
                 {| at_time := from_secs 4; taken := 0; chunk := "C" |}] = Some (p', c', ps) /\
    render ps = {[ 0 := "C"%string ]}.
Proof.
  split; [done|].
  by apply (gap_loses_output (from_secs 2) id 0 0 "error A" "error B" "C" 0 (from_secs 3)
              (from_secs 4)); vm_compute.
Defined.

End PlainText.
