(* ===== verification/CodexStderr.v ===== *)
(** * The stderr of the Codex executor

    crates/executors/src/executors/codex/normalize_logs.rs: which lines start a
    record, which records report a failed credential refresh, where the plain-text
    processor must cut, which repetitions are dropped and what is shown instead of the
    raw record.  Removing ANSI escapes and the regular expression for the head of a
    record are third-party code and parameters. *)
From S2P Require Import Prelude Text Format Json MsgStore PlainText.
From Stdlib Require Import Ascii.
Import PlainText.

Module CodexStderr.

(* crates/executors/src/executors/codex/normalize_logs.rs:1676-1681 SUPPRESSED_STDERR_PATTERNS *)
Definition SUPPRESSED_STDERR_PATTERNS : list string :=
  ["state db missing rollout path for"].

Definition blank_line : string := String newline (String newline "").

(* crates/executors/src/executors/codex/normalize_logs.rs:1701-1717 refresh_failure_setup_message *)
Definition refresh_failure_setup_message (message : string) : option string :=
  let lower := to_ascii_lowercase message in
  if negb (contains "failed to refresh token" lower
           || contains "access token could not be refreshed" lower)
  then None
  else Some ("Codex could not renew its sign-in: " +:+ message +:+ blank_line +:+
    "Codex's access token was rejected and could not be refreshed on this machine. " +:+
    "If this machine uses a Codex login copied from another node (its refresh token " +:+
    "is intentionally blank), make sure the node's refresh endpoint " +:+
    "(CODEX_REFRESH_TOKEN_URL_OVERRIDE) is configured and reachable, or renew the " +:+
    "login on the node that owns it. Otherwise run `codex login` here. Then retry " +:+
    "the turn.").

Definition INVALIDATED : string :=
  "Failed to refresh token: the session's refresh token was invalidated or revoked.".
Definition REUSED : string := "Failed to refresh token: the refresh token was already used.".
Definition NO_TOKEN : string :=
  "Failed to refresh token: this machine has no local refresh token.".
Definition NOT_RENEWED : string :=
  "Failed to refresh token: Codex could not renew the current session.".

(* crates/executors/src/executors/codex/normalize_logs.rs:1719-1743 stderr_refresh_failure_reason *)
Definition stderr_refresh_failure_reason (content : string) : option string :=
  let lower := to_ascii_lowercase content in
  if negb (contains "failed to refresh token" lower
           || contains "access token could not be refreshed" lower
           || contains "refresh_token_invalidated" lower)
  then None
  else Some
    (if contains "refresh_token_invalidated" lower || contains "refresh token was revoked" lower
     then INVALIDATED
     else if contains "refresh_token_reused" lower
             || contains "refresh token was already used" lower
     then REUSED
     else if contains "empty string" lower then NO_TOKEN
     else NOT_RENEWED).

(* crates/executors/src/executors/codex/normalize_logs.rs:1745-1752 stderr_has_specific_refresh_failure_reason *)
Definition stderr_has_specific_refresh_failure_reason (content : string) : bool :=
  let lower := to_ascii_lowercase content in
  contains "refresh_token_invalidated" lower
  || contains "refresh token was revoked" lower
  || contains "refresh_token_reused" lower
  || contains "refresh token was already used" lower
  || contains "empty string" lower.

(** The scan of [json_object_brace_state].  A character beyond ASCII is several
    bytes here; none of them is one the scan reacts to. *)
Record Scan := {
  saw_open_brace : bool;
  brace_balance : Z;
  in_string : bool;
  escaped : bool;
}.

(* crates/executors/src/executors/codex/normalize_logs.rs:1771-1794 json_object_brace_state *)
Definition scan_char (s : Scan) (character : ascii) : Scan :=
  let '(Build_Scan saw balance in_string escaped) := s in
  if escaped then Build_Scan saw balance in_string false
  else if in_string && bool_decide (character = "\"%char) then Build_Scan saw balance in_string true
  else if bool_decide (character = "034"%char) then Build_Scan saw balance (negb in_string) false
  else if in_string then s
  else if bool_decide (character = "{"%char) then Build_Scan true (balance + 1) false false
  else if bool_decide (character = "}"%char) then Build_Scan saw (balance - 1) false false
  else s.

Fixpoint scan (s : Scan) (content : string) : Scan :=
  match content with
  | EmptyString => s
  | String character content => scan (scan_char s character) content
  end.

(* crates/executors/src/executors/codex/normalize_logs.rs:1766-1796 json_object_brace_state *)
Definition json_object_brace_state (content : string) : bool * Z :=
  let s := scan (Build_Scan false 0 false false) content in
  (saw_open_brace s, brace_balance s).

Definition balanced (content : string) : bool :=
  let (saw, balance) := json_object_brace_state content in
  negb saw || bool_decide (balance = 0).

(* crates/executors/src/executors/codex/normalize_logs.rs:1754-1764 codex_stderr_record_is_complete *)
Definition codex_stderr_record_is_complete (lines : list string) : bool :=
  match last lines with
  | None => false
  | Some l => ends_with_newline l && balanced (sconcat lines)
  end.

(** The first line that ends the record begun at the first line. *)
(* crates/executors/src/executors/codex/normalize_logs.rs:1798-1810 completed_refresh_record_line_count *)
Fixpoint completed_from (index : nat) (before : string) (ls : list string) : option nat :=
  match ls with
  | [] => None
  | line :: ls =>
      let record := before +:+ line in
      if ends_with_newline line && balanced record then
        match stderr_refresh_failure_reason record with
        | Some _ => Some (S index)
        | None => None
        end
      else completed_from (S index) record ls
  end.

(* crates/executors/src/executors/codex/normalize_logs.rs:1798-1810 completed_refresh_record_line_count *)
Definition completed_refresh_record_line_count (lines : list string) : option nat :=
  completed_from 0 "" lines.

Definition slice {A} (a b : nat) (l : list A) : list A := take (b - a) (drop a l).

(** [slice.windows(3)] *)
Fixpoint windows3 {A} (l : list A) : list (A * A * A) :=
  match l with
  | a :: ((b :: c :: _) as t) => (a, b, c) :: windows3 t
  | _ => []
  end.

Fixpoint windows2 {A} (l : list A) : list (A * A) :=
  match l with
  | a :: ((b :: _) as t) => (a, b) :: windows2 t
  | _ => []
  end.

Section Codex.
(** [strip_ansi_escapes::strip_str] and [CODEX_STDERR_RECORD_START.is_match]. *)
Context (strip_str : string -> string) (record_start : string -> bool).

(* crates/executors/src/executors/codex/normalize_logs.rs:1687-1689 is_codex_stderr_record_start *)
Definition is_codex_stderr_record_start (line : string) : bool :=
  record_start (trim_start (strip_str line)).

Fixpoint starts_from (index : nat) (ls : list string) : list nat :=
  match ls with
  | [] => []
  | line :: ls =>
      if is_codex_stderr_record_start line then index :: starts_from (S index) ls
      else starts_from (S index) ls
  end.

(* crates/executors/src/executors/codex/normalize_logs.rs:1813-1818 codex_stderr_record_boundary *)
Definition timestamp_starts (lines : list string) : list nat := starts_from 1 (drop 1 lines).

(* crates/executors/src/executors/codex/normalize_logs.rs:1836-1852 codex_stderr_record_boundary *)
Fixpoint boundary_between (lines : list string) (ws : list (nat * nat * nat))
    : option MessageBoundary :=
  match ws with
  | [] => None
  | (a, b, c) :: ws =>
      let before := slice a b lines in
      let after := slice b c lines in
      let before_reason := stderr_refresh_failure_reason (sconcat before) in
      let after_content := sconcat after in
      let after_reason := stderr_refresh_failure_reason after_content in
      if negb (codex_stderr_record_is_complete after) && bool_decide (is_Some before_reason)
         && negb (stderr_has_specific_refresh_failure_reason after_content)
      then boundary_between lines ws
      else if (bool_decide (is_Some before_reason) || bool_decide (is_Some after_reason))
              && bool_decide (before_reason <> after_reason)
      then Some (Split b)
      else boundary_between lines ws
  end.

(* crates/executors/src/executors/codex/normalize_logs.rs:1812-1853 codex_stderr_record_boundary *)
Definition codex_stderr_record_boundary (lines : list string) : option MessageBoundary :=
  let starts := timestamp_starts lines in
  let next_timestamp := head starts in
  let by_record :=
    match next_timestamp with
    | None => None
    | Some _ => boundary_between lines (windows3 (0%nat :: starts ++ [length lines]))
    end in
  match completed_refresh_record_line_count lines with
  | Some completed =>
      if (completed <? length lines)%nat && bool_decide (next_timestamp <> Some completed) then
        match last lines with
        | Some l => if ends_with_newline l then Some (Split completed) else None
        | None => Some (Split completed)
        end
      else by_record
  | None => by_record
  end.

Record Compaction := {
  compacted : list string;
  previous_refresh_reason : option string;
}.

(* crates/executors/src/executors/codex/normalize_logs.rs:1874-1891 transform_codex_stderr_lines *)
Definition compact (lines : list string) (st : Compaction) (bounds : nat * nat) : Compaction :=
  let record := slice bounds.1 bounds.2 lines in
  let refresh_end := completed_refresh_record_line_count record in
  let refresh_record := match refresh_end with Some e => take e record | None => record end in
  let trailing := match refresh_end with Some e => drop e record | None => [] end in
  let reason := if codex_stderr_record_is_complete refresh_record
                then stderr_refresh_failure_reason (sconcat refresh_record) else None in
  if bool_decide (is_Some reason) && bool_decide (reason = previous_refresh_reason st) then
    {| compacted := compacted st ++ trailing;
       previous_refresh_reason :=
         match trailing with [] => previous_refresh_reason st | _ => None end |}
  else
    {| compacted := compacted st ++ record;
       previous_refresh_reason := match trailing with [] => reason | _ => None end |}.

(* crates/executors/src/executors/codex/normalize_logs.rs:1855-1893 transform_codex_stderr_lines *)
Definition transform_codex_stderr_lines (lines : list string) : list string :=
  let lines := filter (fun line => existsb (fun pattern => contains pattern line)
                                     SUPPRESSED_STDERR_PATTERNS = false) lines in
  let record_starts := 0%nat :: timestamp_starts lines ++ [length lines] in
  compacted (foldl (compact lines) {| compacted := []; previous_refresh_reason := None |}
                   (windows2 record_starts)).

(* crates/executors/src/logs/mod.rs:66-69 NormalizedEntryError *)
Inductive NormalizedEntryError := SetupRequired | Other.

(** An [ErrorMessage] entry: its class and its content. *)
(* crates/executors/src/executors/codex/normalize_logs.rs:1902-1949 normalize_codex_stderr_entry *)
Definition normalize_codex_stderr_entry (content : string) : NormalizedEntryError * string :=
  let content := strip_str content in
  let lines := split_inclusive newline content in
  let refresh_end := completed_refresh_record_line_count lines in
  let refresh_record := match refresh_end with Some e => Some (sconcat (take e lines)) | None => None end in
  let first_line_is_refresh_record :=
    match head lines with
    | Some line => is_codex_stderr_record_start line
                   && contains "failed to refresh token" (to_ascii_lowercase line)
    | None => false
    end in
  let candidate := match refresh_record with
                   | Some record => Some record
                   | None => if first_line_is_refresh_record then Some content else None
                   end in
  match candidate ≫= (fun record => stderr_refresh_failure_reason record
                       ≫= refresh_failure_setup_message) with
  | Some guidance =>
      let trailing := match refresh_end with Some e => sconcat (drop e lines) | None => "" end in
      (SetupRequired,
       if bool_decide (trailing <> "")
          && negb (bool_decide (is_Some (stderr_refresh_failure_reason trailing)))
       then guidance +:+ blank_line +:+ "Additional Codex stderr:" +:+ String newline "" +:+ trailing
       else guidance)
  | None => (Other, content)
  end.

(** ** The processor over this stream stops *)

(* crates/executors/src/executors/codex/normalize_logs.rs:1957-1963 normalize_codex_stderr_logs *)
Definition codex_processor {V} (to_value : NormalizedEntryError * string -> V) (now : Z) :=
  builder None (Some (from_secs 2)) None (Some transform_codex_stderr_lines)
    (Some codex_stderr_record_boundary)
    (fun content => to_value (normalize_codex_stderr_entry content)) now.

Lemma completed_from_bound index before ls n :
  completed_from index before ls = Some n -> (index < n <= index + length ls)%nat.
Proof.
  revert index before. induction ls as [|line ls IH]; intros index before; cbn [completed_from];
    [done|].
  destruct (ends_with_newline line && _).
  - destruct (stderr_refresh_failure_reason _); [|done]. intros [= <-]. cbn. lia.
  - intros H%IH. cbn. lia.
Qed.

Lemma starts_from_bound index ls i :
  i ∈ starts_from index ls -> (index <= i < index + length ls)%nat.
Proof.
  revert index. induction ls as [|line ls IH]; intros index; cbn [starts_from].
  - by intros ?%not_elem_of_nil.
  - destruct (is_codex_stderr_record_start line).
    + intros [-> |H%IH]%elem_of_cons; cbn; lia.
    + intros H%IH. cbn. lia.
Qed.

Lemma windows3_middle (l : list nat) a b c x :
  (a, b, c) ∈ windows3 (x :: l) -> b ∈ removelast l.
Proof.
  revert x. induction l as [|y l IH]; intros x; [by intros ?%not_elem_of_nil|].
  destruct l as [|z l]; [by intros ?%not_elem_of_nil|].
  change (windows3 (x :: y :: z :: l)) with ((x, y, z) :: windows3 (y :: z :: l)).
  change (removelast (y :: z :: l)) with (y :: removelast (z :: l)).
  intros [[= -> -> ->]|H%IH]%elem_of_cons; set_solver.
Qed.

Lemma boundary_between_split lines ws n :
  boundary_between lines ws = Some (Split n) -> exists a c, (a, n, c) ∈ ws.
Proof.
  induction ws as [|[[a b] c] ws IH]; cbn [boundary_between]; [done|].
  destruct (_ && _ && _); [intros (a' & c' & H)%IH; set_solver|].
  destruct (_ && _); [intros [= <-]; set_solver|].
  intros (a' & c' & H)%IH; set_solver.
Qed.

Lemma codex_boundary_progresses lines n :
  codex_stderr_record_boundary lines = Some (Split n) -> (0 < n)%nat /\ lines <> [].
Proof.
  unfold codex_stderr_record_boundary.
  assert (match head (timestamp_starts lines) with
          | None => None
          | Some _ => boundary_between lines
                        (windows3 (0%nat :: timestamp_starts lines ++ [length lines]))
          end = Some (Split n) -> (0 < n)%nat /\ lines <> []) as Hby.
  { destruct (head (timestamp_starts lines)); [|done].
    intros (a & c & H)%boundary_between_split. apply windows3_middle in H.
    rewrite removelast_last in H. apply starts_from_bound in H.
    rewrite length_drop in H. destruct lines; cbn in *; [lia|split; [lia|done]]. }
  destruct (completed_refresh_record_line_count lines) as [m|] eqn:Hm; [|done].
  apply completed_from_bound in Hm.
  destruct (_ && _); [|done].
  assert (Some (Split m) = Some (Split n) -> (0 < n)%nat /\ lines <> []) as Hsplit.
  { intros [= <-]. destruct lines; cbn in *; [lia|split; [lia|done]]. }
  destruct (last lines) as [l|]; [|done]. by destruct (ends_with_newline l).
Qed.

Lemma codex_progresses {V} (to_value : NormalizedEntryError * string -> V) now :
  progresses (codex_processor to_value now).1.
Proof. intros predicate ls n [= <-]. apply codex_boundary_progresses. Qed.

(** C39: The stderr processor of the Codex executor never hangs: whatever the chunk,
    whatever the record format and whatever is buffered, [process] returns, because a
    record boundary is always after the first buffered line. *)
Theorem codex_stderr_terminates {V} (to_value : NormalizedEntryError * string -> V) now0
    p shared now text_chunk :
  is_Some (process (codex_processor to_value now0).1 p shared now text_chunk).
Proof. apply process_returns, codex_progresses. Qed.

(** ** What is shown for a failed refresh *)

Definition GUIDANCE (reason : string) : string :=
  match refresh_failure_setup_message reason with Some m => m | None => "" end.

Lemma reason_is_fixed content reason :
  stderr_refresh_failure_reason content = Some reason ->
  reason ∈ [INVALIDATED; REUSED; NO_TOKEN; NOT_RENEWED].
Proof.
  unfold stderr_refresh_failure_reason. destruct (negb _); [done|]. intros [= <-].
  repeat case_match; set_solver.
Qed.

(** The raw record of a failed refresh is not shown: an entry classed as
    [SetupRequired] is one of four fixed texts, followed by at most the lines after
    the completed record, and only when those do not report a failed refresh
    themselves. *)
Theorem refresh_record_not_echoed content shown :
  normalize_codex_stderr_entry content = (SetupRequired, shown) ->
  exists reason, reason ∈ [INVALIDATED; REUSED; NO_TOKEN; NOT_RENEWED] /\
    (shown = GUIDANCE reason \/
     exists n, let lines := split_inclusive newline (strip_str content) in
       completed_refresh_record_line_count lines = Some n /\
       stderr_refresh_failure_reason (sconcat (drop n lines)) = None /\
       shown = GUIDANCE reason +:+ blank_line +:+ "Additional Codex stderr:"
                 +:+ String newline "" +:+ sconcat (drop n lines)).
Proof.
  unfold normalize_codex_stderr_entry. cbv zeta.
  set (lines := split_inclusive newline (strip_str content)).
  destruct (_ ≫= _) as [guidance|] eqn:Hg; [|done].
  apply bind_Some in Hg as (record & _ & Hg). apply bind_Some in Hg as (reason & Hr & Hm).
  assert (GUIDANCE reason = guidance) as Hgd by (unfold GUIDANCE; by rewrite Hm).
  intros [= <-]. exists reason. split; [by eapply reason_is_fixed|]. rewrite Hgd.
  destruct (completed_refresh_record_line_count lines) as [n|]; [|by left].
  destruct (_ && _) eqn:Ht; [|by left]. right. exists n.
  apply andb_true_iff in Ht as [_ Ht]. rewrite negb_true_iff, bool_decide_eq_false in Ht.
  split_and!; [done| |done]. by apply eq_None_not_Some.
Qed.

End Codex.

Definition revoked_stderr : string :=
  sconcat ["2026-01-01T00:00:00Z ERROR codex: Failed to refresh token: {"; String newline "";
           "refresh_token_invalidated sk-secret }"; String newline "";
           "unrelated"; String newline ""].

Example refresh_record_not_echoed_witness :
  exists shown, contains "sk-secret" shown = false /\ contains "unrelated" shown = true /\
    exists reason, reason ∈ [INVALIDATED; REUSED; NO_TOKEN; NOT_RENEWED] /\
    (shown = GUIDANCE reason \/
     exists n, let lines := split_inclusive newline revoked_stderr in
       completed_refresh_record_line_count lines = Some n /\
       stderr_refresh_failure_reason (sconcat (drop n lines)) = None /\
       shown = GUIDANCE reason +:+ blank_line +:+ "Additional Codex stderr:"
                 +:+ String newline "" +:+ sconcat (drop n lines)).
Proof.
  exists (normalize_codex_stderr_entry id (starts_with "2026-") revoked_stderr).2.
  split; [by vm_compute|]. split; [by vm_compute|].
  apply (refresh_record_not_echoed id (starts_with "2026-") revoked_stderr).
  by vm_compute.
Defined.

End CodexStderr.
