(* ===== verification/Tracker.v ===== *)
(** * The coordinator's event tracker

    [Module EventClient] is the batch check of
    crates/services/src/services/cluster/client.rs, and [Module Tracker] the task
    [track_worker_msgs_in_store] of crates/local-deployment/src/container.rs with
    its helpers: it follows one execution's journal from a cursor, forwards its
    output, and finalises the execution.  A poll is a function of what the worker
    answered; the database of the model does not fail, so the code's write-retry
    loops run once.  Decoding (JSON, base64) is a parameter. *)
From stdpp Require Import pretty.
From S2P Require Import Prelude Text Json ClusterProtocol Journal WorkerNode WorkerJobRow.
From S2P Require Import Reconcile MsgStore.

Module EventClient.

(** The errors [events] is matched on: a replay gap, and every other one. *)
(* crates/services/src/services/cluster/client.rs:26-61 WorkerClientError *)
Inductive WorkerClientError :=
| ReplayGap (requested_after earliest_available : Z)
| OtherError.

(* crates/services/src/services/cluster/client.rs:662-671 validate_event_batch *)
Fixpoint validate_from (expected : Z) (events : list ExecutionEvent)
    : result unit WorkerClientError :=
  match events with
  | [] => Ok tt
  | event :: events =>
      if decide (ev_sequence event <> expected)
      then Err (ReplayGap (saturating_sub expected 1) (ev_sequence event))
      else validate_from (saturating_add u64_max expected 1) events
  end.

(* crates/services/src/services/cluster/client.rs:655-673 validate_event_batch *)
Definition validate_event_batch (batch : EventBatch) : result unit WorkerClientError :=
  if eb_replay_gap batch
  then Err (ReplayGap (eb_requested_after batch) (eb_earliest_available batch))
  else validate_from (saturating_add u64_max (eb_requested_after batch) 1) (eb_events batch).

(** The answer of [events] to a batch that arrived and decoded. *)
(* crates/services/src/services/cluster/client.rs:216-233 WorkerClient::events *)
Definition received (batch : EventBatch) : result EventBatch WorkerClientError :=
  let? _ := validate_event_batch batch in Ok batch.

End EventClient.

Module Tracker.
Import LogMsg.

(* crates/local-deployment/src/container.rs:107-107 FINAL_OUTPUT_RECONCILIATION_TIMEOUT *)
Definition FINAL_OUTPUT_RECONCILIATION_TIMEOUT : Duration := from_secs 45.

(* crates/local-deployment/src/container.rs:202-204 should_ack_worker_batch *)
Definition should_ack_worker_batch (cursor : Z) (has_terminal : bool) : bool :=
  bool_decide (0 < cursor) && negb has_terminal.

Definition same_dispatch (known : WorkerJobRow.ExecutionWorkerJob)
    (worker_node_id execution_id : Uuid) (summary : JobSummary) : bool :=
  bool_decide (WorkerJobRow.worker_node_id known = worker_node_id)
  && bool_decide (WorkerJobRow.execution_process_id known = execution_id)
  && bool_decide (js_execution_id summary = execution_id)
  && bool_decide (js_worker_job_id summary = WorkerJobRow.worker_job_id known)
  && bool_decide (js_request_digest summary = WorkerJobRow.request_digest known).

(* crates/local-deployment/src/container.rs:212-224 replay_gap_job_is_live *)
Definition replay_gap_job_is_live (known : WorkerJobRow.ExecutionWorkerJob)
    (worker_node_id execution_id : Uuid) (summary : JobSummary) : bool :=
  same_dispatch known worker_node_id execution_id summary
  && negb (JobState_is_terminal (js_state summary)).

(* crates/local-deployment/src/container.rs:235-237 should_hand_off_worker_job *)
Definition should_hand_off_worker_job (job : option WorkerJobRow.ExecutionWorkerJob) : bool :=
  bool_decide (is_Some job).

(** [BTreeSet::first] *)
Definition first (s : gset Z) : option Z := head (merge_sort Z.le (elements s)).

(* crates/local-deployment/src/container.rs:246-250 durable_worker_cursor *)
Definition durable_worker_cursor (cursor : Z) (unresolved : gset Z) : Z :=
  match first unresolved with
  | Some earliest => Z.min cursor (saturating_sub earliest 1)
  | None => cursor
  end.

(* crates/local-deployment/src/container.rs:255-266 worker_event_is_output *)
Definition worker_event_is_output (payload : ExecutionEventPayload) : bool :=
  match payload with
  | PStdout _ | PStderr _ | PStructured _ | PAccepted | PStarting
  | PInteractionAcknowledged _ | PPreview _ => true
  | _ => false
  end.

Abbreviation outcome :=
  (WorkerJobRow.ExecutionWorkerDispatchState * ProcessRow.ExecutionProcessStatus
   * TerminalEvidence)%type.

(* crates/local-deployment/src/container.rs:298-326 terminal_summary_states *)
Definition terminal_summary_states (summary : JobSummary) : option outcome :=
  evidence ← js_terminal summary;
  match js_state summary, te_state evidence with
  | JCompleted, TsCompleted => Some (WorkerJobRow.Completed, ProcessRow.Completed, evidence)
  | JFailed, TsFailed => Some (WorkerJobRow.Failed, ProcessRow.Failed, evidence)
  | JKilled, TsKilled => Some (WorkerJobRow.Killed, ProcessRow.Killed, evidence)
  | JInterrupted, TsInterrupted =>
      Some (WorkerJobRow.Interrupted, ProcessRow.Interrupted, evidence)
  | _, _ => None
  end.

(* crates/local-deployment/src/container.rs:272-294 replay_gap_terminal_evidence *)
Definition replay_gap_terminal_evidence (known : WorkerJobRow.ExecutionWorkerJob)
    (worker_node_id execution_id : Uuid) (earliest_available : Z) (summary : JobSummary)
    : option outcome :=
  if negb (same_dispatch known worker_node_id execution_id summary)
     || bool_decide (js_last_sequence summary < earliest_available)
  then None
  else if decide (0 <= WorkerJobRow.worker_last_sequence known) then
    if decide (js_last_sequence summary < WorkerJobRow.worker_last_sequence known)
    then None else terminal_summary_states summary
  else None.

(* crates/local-deployment/src/container.rs:333-335 worker_journal_regressed *)
Definition worker_journal_regressed (cursor latest_available : Z) : bool :=
  bool_decide (latest_available < cursor).

(* crates/local-deployment/src/container.rs:340-361 journal_regression_terminal_evidence *)
Definition journal_regression_terminal_evidence (known : WorkerJobRow.ExecutionWorkerJob)
    (worker_node_id execution_id : Uuid) (latest_available : Z) (summary : JobSummary)
    : option outcome :=
  if negb (same_dispatch known worker_node_id execution_id summary)
     || bool_decide (js_last_sequence summary <> latest_available)
  then None else terminal_summary_states summary.

(* crates/local-deployment/src/container.rs:363-371 worker_job_has_positive_liveness *)
Definition worker_job_has_positive_liveness (job : WorkerJobRow.ExecutionWorkerJob)
    (now : DateTime) (live_lease_is_turn_evidence : bool) : bool :=
  live_lease_is_turn_evidence
  && negb (WorkerJobRow.is_terminal (WorkerJobRow.dispatch_state job))
  && match WorkerJobRow.lease_expires_at job with
     | Some lease => bool_decide (now < lease)
     | None => false
     end.

Lemma first_spec (s : gset Z) m : first s = Some m -> m ∈ s /\ forall q, q ∈ s -> m <= q.
Proof.
  unfold first. intros Hh.
  assert (forall q, q ∈ merge_sort Z.le (elements s) <-> q ∈ s) as Hel.
  { intros q. rewrite merge_sort_Permutation. apply elem_of_elements. }
  assert (Sorted Z.le (merge_sort Z.le (elements s))) as Hs
    by (apply Sorted_merge_sort; intros ??; lia).
  apply Sorted_StronglySorted in Hs; [|intros ???; lia].
  destruct (merge_sort Z.le (elements s)) as [|x l]; [done|]. injection Hh as ->.
  split; [apply Hel; set_solver|]. intros q [->|Hq]%Hel%elem_of_cons; [lia|].
  apply StronglySorted_inv in Hs as [_ Hf]. rewrite Forall_forall in Hf. by apply Hf.
Qed.

Lemma first_None (s : gset Z) : first s = None -> s = ∅.
Proof.
  unfold first. intros Hh%head_None. apply leibniz_equiv, elements_empty_iff.
  apply (f_equal length) in Hh. rewrite merge_sort_Permutation in Hh.
  by destruct (elements s).
Qed.

Lemma durable_le cursor s : durable_worker_cursor cursor s <= cursor.
Proof. unfold durable_worker_cursor. destruct (first s); lia. Qed.

Lemma durable_before cursor s q :
  (forall q, q ∈ s -> 0 < q) -> q ∈ s -> durable_worker_cursor cursor s < q.
Proof.
  intros Hpos Hq. unfold durable_worker_cursor, saturating_sub.
  destruct (first s) as [m|] eqn:Hf; [|apply first_None in Hf; set_solver].
  apply first_spec in Hf as [Hm Hle]. specialize (Hle q Hq). specialize (Hpos m Hm). lia.
Qed.

Lemma durable_nonneg cursor s : 0 <= cursor -> 0 <= durable_worker_cursor cursor s.
Proof. unfold durable_worker_cursor, saturating_sub. destruct (first s); lia. Qed.

Section Decoding.
Context {V : Type}.
(** [serde_json::from_str] at the three types the code reads. *)
Context (parse_log : string -> option (LogMsg V))
        (parse_object : string -> option (list (string * V)))
        (as_string : V -> option string).

(* crates/local-deployment/src/container.rs:1059-1063 WorkerStructuredEvent *)
Inductive WorkerStructuredEvent :=
| Log (message : LogMsg V)
| CancellationPhase (phase : string)
| Diagnostic (message : string).

(* crates/local-deployment/src/container.rs:1065-1090 classify_worker_structured *)
Definition classify_worker_structured (json : string) : WorkerStructuredEvent :=
  match parse_log json with
  | Some message => Log message
  | None =>
      let field :=
        match parse_object json with
        | Some [(key, value)] => (fun v => (key, v)) <$> as_string value
        | _ => None
        end in
      match field with
      | Some (key, text) =>
          if decide (key = "cancellation_phase") then CancellationPhase text
          else if decide (key = "worker_error") then Diagnostic ("Worker error: " +:+ text)
          else if decide (key = "stream_error")
          then Diagnostic ("Worker output stream error: " +:+ text)
          else Diagnostic ("Unrecognized worker event: " +:+ json)
      | None => Diagnostic ("Unrecognized worker event: " +:+ json)
      end
  end.

(** What [extract_normalized_entry_from_patch] finds in a patch. *)
Inductive entry_type := AssistantMessage | TokenUsageInfo | Loading | Thinking | OtherEntry.

Context (extract_entry : list (PatchOperation V) -> option (entry_type * string)).

(* crates/local-deployment/src/container.rs:118-134 normalized_final_assistant_state *)
Definition normalized_final_assistant_state (message : LogMsg V) : option bool :=
  match message with
  | JsonPatch patch =>
      '(ty, content) ← extract_entry patch;
      match ty with
      | AssistantMessage => Some (bool_decide (trim content <> ""))
      | TokenUsageInfo | Loading | Thinking => None
      | OtherEntry => Some false
      end
  | _ => None
  end.

(* crates/local-deployment/src/container.rs:110-116 history_has_final_assistant_message *)
Definition history_has_final_assistant_message (history : list (LogMsg V)) : bool :=
  default false (head (omap normalized_final_assistant_state (reverse history))).

End Decoding.
Arguments WorkerStructuredEvent : clear implicits.

Section Machine.
Context {V : Type}.
Context (classify : string -> WorkerStructuredEvent V)
        (final_state : LogMsg V -> option bool)
        (decode : string -> result string string).
(** The tracked execution, its worker, this coordinator, whether a live lease
    counts as turn evidence, and the nonce of the n-th acknowledgement. *)
Context (execution_id worker_node_id coordinator_id : Uuid)
        (live_worker_lease_is_turn_evidence : bool) (nonce : nat -> string).

(** [Stuck] is the loop that waits for a deleted job row to come back. *)
Inductive phase := Polling | Finalized | Stuck.

(** The task's variables, the tables it writes, and what it sent. *)
Record tracker := {
  cursor : Z;
  pushed : Z;
  unresolved : gset Z;
  final_output_deadline : option Z;
  regression_reported : bool;
  jobs : WorkerJobRow.table;
  processes : ProcessRow.table;
  store : list (LogMsg V);
  routed : list InteractionRequest;
  acknowledged : list EventAcknowledgement;
  cancelled : list CancellationRequest;
  at_phase : phase;
}.

Definition set_cursor (c : Z) (t : tracker) : tracker :=
  {| cursor := c; pushed := pushed t; unresolved := unresolved t;
     final_output_deadline := final_output_deadline t;
     regression_reported := regression_reported t; jobs := jobs t;
     processes := processes t; store := store t; routed := routed t;
     acknowledged := acknowledged t; cancelled := cancelled t; at_phase := at_phase t |}.

(** [pushed.fetch_max(p)] *)
Definition push_to (p : Z) (t : tracker) : tracker :=
  {| cursor := cursor t; pushed := Z.max (pushed t) p; unresolved := unresolved t;
     final_output_deadline := final_output_deadline t;
     regression_reported := regression_reported t; jobs := jobs t;
     processes := processes t; store := store t; routed := routed t;
     acknowledged := acknowledged t; cancelled := cancelled t; at_phase := at_phase t |}.

Definition set_deadline (d : option Z) (t : tracker) : tracker :=
  {| cursor := cursor t; pushed := pushed t; unresolved := unresolved t;
     final_output_deadline := d;
     regression_reported := regression_reported t; jobs := jobs t;
     processes := processes t; store := store t; routed := routed t;
     acknowledged := acknowledged t; cancelled := cancelled t; at_phase := at_phase t |}.

Definition set_reported (t : tracker) : tracker :=
  {| cursor := cursor t; pushed := pushed t; unresolved := unresolved t;
     final_output_deadline := final_output_deadline t;
     regression_reported := true; jobs := jobs t;
     processes := processes t; store := store t; routed := routed t;
     acknowledged := acknowledged t; cancelled := cancelled t; at_phase := at_phase t |}.

Definition set_tables (j : WorkerJobRow.table) (p : ProcessRow.table) (t : tracker) : tracker :=
  {| cursor := cursor t; pushed := pushed t; unresolved := unresolved t;
     final_output_deadline := final_output_deadline t;
     regression_reported := regression_reported t; jobs := j;
     processes := p; store := store t; routed := routed t;
     acknowledged := acknowledged t; cancelled := cancelled t; at_phase := at_phase t |}.

Definition say (m : LogMsg V) (t : tracker) : tracker :=
  {| cursor := cursor t; pushed := pushed t; unresolved := unresolved t;
     final_output_deadline := final_output_deadline t;
     regression_reported := regression_reported t; jobs := jobs t;
     processes := processes t; store := store t ++ [m]; routed := routed t;
     acknowledged := acknowledged t; cancelled := cancelled t; at_phase := at_phase t |}.

Definition route (r : InteractionRequest) (t : tracker) : tracker :=
  {| cursor := cursor t; pushed := pushed t; unresolved := {[ cursor t ]} ∪ unresolved t;
     final_output_deadline := final_output_deadline t;
     regression_reported := regression_reported t; jobs := jobs t;
     processes := processes t; store := store t; routed := routed t ++ [r];
     acknowledged := acknowledged t; cancelled := cancelled t; at_phase := at_phase t |}.

Definition set_phase (p : phase) (t : tracker) : tracker :=
  {| cursor := cursor t; pushed := pushed t; unresolved := unresolved t;
     final_output_deadline := final_output_deadline t;
     regression_reported := regression_reported t; jobs := jobs t;
     processes := processes t; store := store t; routed := routed t;
     acknowledged := acknowledged t; cancelled := cancelled t; at_phase := p |}.

Definition request_authority (utc : DateTime) (n : nat) : RequestAuthority :=
  {| ra_protocol_version := PROTOCOL_VERSION; ra_coordinator_id := coordinator_id;
     ra_worker_node_id := worker_node_id; ra_correlation_id := execution_id;
     ra_issued_at := utc; ra_nonce := nonce n |}.

(** [client.acknowledge]; its failure is only logged. *)
(* crates/local-deployment/src/container.rs:3691-3705 track_worker_msgs_in_store *)
Definition acknowledge (utc : DateTime) (t : tracker) : tracker :=
  {| cursor := cursor t; pushed := pushed t; unresolved := unresolved t;
     final_output_deadline := final_output_deadline t;
     regression_reported := regression_reported t; jobs := jobs t;
     processes := processes t; store := store t; routed := routed t;
     acknowledged := acknowledged t ++
       [{| ack_authority := request_authority utc (length (acknowledged t));
           ack_execution_id := execution_id;
           ack_highest_contiguous_sequence := cursor t |}];
     cancelled := cancelled t; at_phase := at_phase t |}.

(* crates/local-deployment/src/container.rs:3822-3837 track_worker_msgs_in_store *)
Definition cancel (utc : DateTime) (t : tracker) : tracker :=
  {| cursor := cursor t; pushed := pushed t; unresolved := unresolved t;
     final_output_deadline := final_output_deadline t;
     regression_reported := regression_reported t; jobs := jobs t;
     processes := processes t; store := store t; routed := routed t;
     acknowledged := acknowledged t;
     cancelled := cancelled t ++
       [{| cr_authority := request_authority utc (length (cancelled t));
           cr_execution_id := execution_id;
           cr_graceful_timeout_seconds := 5; cr_terminate_timeout_seconds := 5 |}];
     at_phase := at_phase t |}.

(** [finalize_remote_execution] and [finish_msg_store], after which the task
    returns. *)
Definition finalize (t : tracker) : tracker := set_phase Finalized t.

(* crates/local-deployment/src/container.rs:1092-1112 mark_remote_execution_indeterminate *)
Definition mark_remote_execution_indeterminate (utc : DateTime) (t : tracker) : tracker :=
  set_tables
    (WorkerJobRow.update_state (jobs t) execution_id WorkerJobRow.Indeterminate None
       (Some utc) utc).1
    (ProcessRow.update_completion (processes t) execution_id ProcessRow.Indeterminate None utc)
    t.

(** The process row, unless a stop already settled it. *)
Definition complete_unless_stopped (st : ProcessRow.ExecutionProcessStatus)
    (code : option Z) (utc : DateTime) (p : ProcessRow.table) : ProcessRow.table :=
  if ProcessRow.was_stopped p execution_id then p
  else ProcessRow.update_completion p execution_id st code utc.

(* crates/local-deployment/src/container.rs:1039-1054 push_worker_bytes *)
Definition push_worker_bytes (encoded : string) (stderr : bool) (t : tracker) : tracker :=
  match decode encoded with
  | Ok message => say (if stderr then Stderr message else Stdout message) t
  | Err error => say (Stderr ("Worker returned invalid base64 output: " +:+ error)) t
  end.

(** The loop over a batch carries the tracker, the terminal outcome seen and
    whether only output was seen; an [Indeterminate] event ends the task. *)
Inductive walk :=
| Walking (t : tracker) (terminal : option outcome) (batch_output_only : bool)
| Ended (t : tracker).

(* crates/local-deployment/src/container.rs:3558-3666 track_worker_msgs_in_store *)
Definition apply_payload (now utc : Z) (t : tracker) (terminal : option outcome)
    (only : bool) (payload : ExecutionEventPayload) : walk :=
  match payload with
  | PStdout data => Walking (push_worker_bytes data false t) terminal only
  | PStderr data => Walking (push_worker_bytes data true t) terminal only
  | PStructured json =>
      match classify json with
      | Log message =>
          let t := match final_state message with
                   | Some is_final =>
                       set_deadline (if is_final
                                     then Some (now + FINAL_OUTPUT_RECONCILIATION_TIMEOUT)
                                     else None) t
                   | None => t
                   end in
          Walking (say message t) terminal only
      | CancellationPhase _ => Walking t terminal only
      | Diagnostic message => Walking (say (Stderr message) t) terminal only
      end
  | PCompleted e =>
      Walking t (Some (WorkerJobRow.Completed, ProcessRow.Completed, e)) only
  | PFailed e => Walking t (Some (WorkerJobRow.Failed, ProcessRow.Failed, e)) only
  | PKilled e => Walking t (Some (WorkerJobRow.Killed, ProcessRow.Killed, e)) only
  | PInterrupted e =>
      Walking t (Some (WorkerJobRow.Interrupted, ProcessRow.Interrupted, e)) only
  | PIndeterminate reason =>
      let t := say (Stderr ("Worker reported an indeterminate execution: " +:+ reason)) t in
      Ended (finalize (mark_remote_execution_indeterminate utc t))
  | PInteractionRequested interaction =>
      Walking (route interaction (set_deadline None t)) terminal only
  | PStarting => Walking (set_deadline None t) terminal only
  | PAccepted | PInteractionAcknowledged _ | PPreview _ => Walking t terminal only
  end.

(* crates/local-deployment/src/container.rs:3549-3667 track_worker_msgs_in_store *)
Fixpoint walk_events (now utc : Z) (t : tracker) (terminal : option outcome) (only : bool)
    (events : list ExecutionEvent) : walk :=
  match events with
  | [] => Walking t terminal only
  | event :: events =>
      let t := set_cursor (ev_sequence event) t in
      let only := only && worker_event_is_output (ev_payload event) in
      let t := if only then push_to (durable_worker_cursor (cursor t) (unresolved t)) t
               else t in
      match apply_payload now utc t terminal only (ev_payload event) with
      | Walking t terminal only => walk_events now utc t terminal only events
      | Ended t => Ended t
      end
  end.

(* crates/local-deployment/src/container.rs:3711-3788 track_worker_msgs_in_store *)
Definition settle (utc : DateTime) (latest : Z) (o : outcome) (t : tracker) : tracker :=
  let '(worker_state, process_state, evidence) := o in
  let jobs1 := (WorkerJobRow.update_state (jobs t) execution_id worker_state
                  (Some evidence) (Some (te_observed_at evidence)) utc).1 in
  let processes1 := complete_unless_stopped process_state (te_exit_code evidence) utc
                      (processes t) in
  let jobs2 := (WorkerJobRow.acknowledge_sequence jobs1 execution_id
                  (u64_as_i64 (cursor t)) (u64_as_i64 latest) utc).1 in
  finalize (acknowledge utc (set_tables jobs2 processes1 t)).

(* crates/local-deployment/src/container.rs:3790-3868 track_worker_msgs_in_store *)
Definition check_deadline (now utc : Z) (t : tracker) : tracker :=
  match final_output_deadline t with
  | Some deadline =>
      if decide (deadline <= now) then
        let alive := match WorkerJobRow.find_by_execution_id (jobs t) execution_id with
                     | Some job => worker_job_has_positive_liveness job utc
                                     live_worker_lease_is_turn_evidence
                     | None => false
                     end in
        if alive then set_deadline (Some (now + FINAL_OUTPUT_RECONCILIATION_TIMEOUT)) t
        else
          let t := mark_remote_execution_indeterminate utc (cancel utc t) in
          finalize (say (Stderr "Final response arrived without worker terminal evidence; execution state is indeterminate") t)
      else t
  | None => t
  end.

(* crates/local-deployment/src/container.rs:3669-3711 track_worker_msgs_in_store *)
Definition after_events (now utc latest : Z) (had_events : bool) (t : tracker)
    (terminal : option outcome) : tracker :=
  let t := if had_events && bool_decide (is_Some (final_output_deadline t))
           then set_deadline (Some (now + FINAL_OUTPUT_RECONCILIATION_TIMEOUT)) t else t in
  let durable := durable_worker_cursor (cursor t) (unresolved t) in
  let t :=
    if should_ack_worker_batch (cursor t) (bool_decide (is_Some terminal)) then
      push_to durable
        (acknowledge utc
           (set_tables (WorkerJobRow.acknowledge_sequence (jobs t) execution_id
                          (u64_as_i64 durable) (u64_as_i64 latest) utc).1
                       (processes t) t))
    else t in
  match terminal with
  | Some o => settle utc latest o t
  | None => check_deadline now utc t
  end.

(** The check for a restarted worker, before the events. *)
(* crates/local-deployment/src/container.rs:3479-3541 track_worker_msgs_in_store *)
Definition check_regression (utc latest : Z)
    (inventory : option (list JobSummary)) (t : tracker) : walk :=
  if negb (worker_journal_regressed (cursor t) latest) then Walking t None true else
  match WorkerJobRow.find_by_execution_id (jobs t) execution_id, inventory with
  | Some known, Some inventory =>
      let recovered := head (omap (journal_regression_terminal_evidence known
                                     worker_node_id execution_id latest) inventory) in
      let t :=
        if regression_reported t then t
        else say (Stderr ("The worker restarted while this execution was running; output after event " +:+ pretty (cursor t) +:+ " may be missing"))
               (set_tables (WorkerJobRow.mark_output_incomplete (jobs t) execution_id utc).1
                  (processes t) (set_reported t)) in
      match recovered with
      | Some o => Walking t (Some o) true
      | None =>
          Ended (finalize (if ProcessRow.was_stopped (processes t) execution_id then t
                           else mark_remote_execution_indeterminate utc t))
      end
  | _, _ => Ended t
  end.

(* crates/local-deployment/src/container.rs:3543-3549 track_worker_msgs_in_store *)
Definition on_batch (now utc : Z) (inventory : option (list JobSummary))
    (batch : EventBatch) (t : tracker) : tracker :=
  match check_regression utc (eb_latest_available batch) inventory t with
  | Ended t => t
  | Walking t terminal _ =>
      match walk_events now utc t terminal true (eb_events batch) with
      | Ended t => t
      | Walking t terminal _ =>
          after_events now utc (eb_latest_available batch)
            (bool_decide (eb_events batch <> [])) t terminal
      end
  end.

(** [{process_state:?}] *)
Definition debug_status (s : ProcessRow.ExecutionProcessStatus) : string :=
  match s with
  | ProcessRow.Running => "Running"
  | ProcessRow.Completed => "Completed"
  | ProcessRow.Failed => "Failed"
  | ProcessRow.Killed => "Killed"
  | ProcessRow.Interrupted => "Interrupted"
  | ProcessRow.Indeterminate => "Indeterminate"
  end.

(* crates/local-deployment/src/container.rs:3302-3446 track_worker_msgs_in_store *)
Definition on_gap (utc requested_after earliest_available : Z)
    (inventory : option (list JobSummary)) (t : tracker) : tracker :=
  let (recovered, job_is_live) :=
    match WorkerJobRow.find_by_execution_id (jobs t) execution_id, inventory with
    | Some known, Some inventory =>
        (head (omap (replay_gap_terminal_evidence known worker_node_id execution_id
                       (Z.max earliest_available (cursor t))) inventory),
         existsb (replay_gap_job_is_live known worker_node_id execution_id) inventory)
    | _, _ => (None, false)
    end in
  let marked := WorkerJobRow.mark_output_incomplete (jobs t) execution_id utc in
  if bool_decide (recovered = None) && job_is_live then
    let t := set_tables marked.1 (processes t) t in
    let t := say (Stderr ("Output events " +:+ pretty (saturating_add u64_max requested_after 1)
               +:+ " to " +:+ pretty (saturating_sub earliest_available 1)
               +:+ " were lost while Vibe Kanban was unavailable; the execution is still running on its worker and output continues below")) t in
    let t := set_cursor (saturating_sub earliest_available 1) t in
    push_to (durable_worker_cursor (cursor t) (unresolved t)) t
  else
    let '(worker_state, process_state, evidence) :=
      match recovered with
      | Some (w, p, e) => (w, p, Some e)
      | None => (WorkerJobRow.Indeterminate, ProcessRow.Indeterminate, None)
      end in
    let completed := match evidence with Some e => te_observed_at e | None => utc end in
    if negb marked.2 then set_phase Stuck t else
    let updated := WorkerJobRow.update_state marked.1 execution_id worker_state evidence
                     (Some completed) utc in
    let processes1 := complete_unless_stopped process_state (evidence ≫= te_exit_code) utc
                        (processes t) in
    let t := set_tables updated.1 processes1 t in
    finalize (say (Stderr ("Worker output replay gap after sequence " +:+ pretty requested_after
      +:+ " (earliest retained: " +:+ pretty earliest_available
      +:+ "); output is incomplete; " +:+ match evidence with
         | Some _ => "execution outcome recovered from worker terminal evidence: "
                     +:+ debug_status process_state
         | None => "execution state is indeterminate"
         end)) t).

(* crates/local-deployment/src/container.rs:3448-3477 track_worker_msgs_in_store *)
Definition on_error (now utc : Z) (t : tracker) : tracker :=
  match final_output_deadline t with
  | Some deadline =>
      if decide (deadline <= now)
      then finalize (mark_remote_execution_indeterminate utc t) else t
  | None => t
  end.

(** One turn of the loop, given the answer to [client.events] and, should it be
    asked for, the worker's inventory ([None] when it could not be had). *)
(* crates/local-deployment/src/container.rs:3295-3302 track_worker_msgs_in_store *)
Definition poll (now utc : Z) (answer : result EventBatch EventClient.WorkerClientError)
    (inventory : option (list JobSummary)) (t : tracker) : tracker :=
  match at_phase t with
  | Polling =>
      match answer with
      | Ok batch => on_batch now utc inventory batch t
      | Err (EventClient.ReplayGap requested_after earliest_available) =>
          on_gap utc requested_after earliest_available inventory t
      | Err EventClient.OtherError => on_error now utc t
      end
  | _ => t
  end.

(** The routing task of an interaction is done with it. *)
(* crates/local-deployment/src/container.rs:1450-1454 route_worker_interaction *)
Definition resolve (sequence : Z) (t : tracker) : tracker :=
  {| cursor := cursor t; pushed := pushed t; unresolved := unresolved t ∖ {[ sequence ]};
     final_output_deadline := final_output_deadline t;
     regression_reported := regression_reported t; jobs := jobs t;
     processes := processes t; store := store t; routed := routed t;
     acknowledged := acknowledged t; cancelled := cancelled t; at_phase := at_phase t |}.

(** A tracker started with [resume_from]. *)
(* crates/local-deployment/src/container.rs:3280-3295 track_worker_msgs_in_store *)
Definition start (resume_from : option Z) (j : WorkerJobRow.table) (p : ProcessRow.table)
    (history : list (LogMsg V)) : tracker :=
  {| cursor := default 0 resume_from; pushed := default 0 resume_from; unresolved := ∅;
     final_output_deadline := None; regression_reported := false; jobs := j;
     processes := p; store := history; routed := []; acknowledged := []; cancelled := [];
     at_phase := Polling |}.

(** ** Finishing *)

Definition settled (t : tracker) : Prop :=
  forall p, processes t !! execution_id = Some p -> ProcessRow.status p <> ProcessRow.Running.

Definition final (o : outcome) : Prop := o.1.2 <> ProcessRow.Running.

(** A turn of the loop either finishes with the row settled, or leaves the
    process table alone. *)
Definition finishes_or_keeps (t t' : tracker) : Prop :=
  (at_phase t' = Finalized /\ settled t') \/
  (at_phase t' <> Finalized /\ processes t' = processes t).

Lemma completion_settles p st code utc :
  st <> ProcessRow.Running ->
  forall q, complete_unless_stopped st code utc p !! execution_id = Some q ->
    ProcessRow.status q <> ProcessRow.Running.
Proof.
  intros Hst q. unfold complete_unless_stopped, ProcessRow.was_stopped, ProcessRow.find_by_id.
  unfold ProcessRow.update_completion. destruct (p !! execution_id) as [r|] eqn:Hp.
  - repeat case_bool_decide; cbn; rewrite ?lookup_alter_eq, Hp; cbn;
      intros [= <-]; cbn; congruence.
  - rewrite lookup_alter_eq, Hp. done.
Qed.

Lemma indeterminate_settles utc t : settled (mark_remote_execution_indeterminate utc t).
Proof.
  intros q. cbn. unfold ProcessRow.update_completion. rewrite lookup_alter_eq.
  by intros (r & _ & ->)%fmap_Some.
Qed.

Lemma apply_payload_walk now utc t terminal only payload :
  match apply_payload now utc t terminal only payload with
  | Walking t' terminal' only' =>
      processes t' = processes t /\ jobs t' = jobs t /\ at_phase t' = at_phase t /\
      cursor t' = cursor t /\ pushed t' = pushed t /\
      acknowledged t' = acknowledged t /\ only' = only /\
      (terminal' = terminal \/ exists o, terminal' = Some o /\ final o) /\
      (unresolved t' = unresolved t \/
       unresolved t' = {[ cursor t ]} ∪ unresolved t /\
       worker_event_is_output payload = false)
  | Ended t' => at_phase t' = Finalized /\ settled t'
  end.
Proof.
  destruct payload; cbn [apply_payload].
  3,4: unfold push_worker_bytes; destruct (decode _).
  7: destruct (classify _); [destruct (final_state _)| |].
  all: try (split; [done|apply indeterminate_settles]).
  all: cbn; split_and!; try done; auto; right; eexists; split; done.
Qed.

Lemma walk_finishes now utc events t terminal only :
  (forall o, terminal = Some o -> final o) ->
  match walk_events now utc t terminal only events with
  | Walking t' terminal' _ =>
      processes t' = processes t /\ at_phase t' = at_phase t /\
      (forall o, terminal' = Some o -> final o)
  | Ended t' => at_phase t' = Finalized /\ settled t'
  end.
Proof.
  revert t terminal only. induction events as [|ev events IH]; intros t terminal only Hf.
  - done.
  - cbn. set (t1 := if _ : bool then push_to _ _ else _).
    assert (processes t1 = processes t /\ at_phase t1 = at_phase t) as [Hp Ha]
      by (unfold t1; by case_match).
    pose proof (apply_payload_walk now utc t1 terminal
                  (only && worker_event_is_output (ev_payload ev)) (ev_payload ev)) as Hw.
    destruct (apply_payload _ _ _ _ _ _) as [t2 term2 only2|t2]; [|done].
    destruct Hw as (Hp2 & _ & Ha2 & _ & _ & _ & _ & Hterm & _).
    rewrite <- Hp, <- Ha, <- Hp2, <- Ha2. apply IH.
    destruct Hterm as [-> | (o & -> & Ho)]; [done|]. by intros ? [= <-].
Qed.

Lemma summary_outcome_final summary o :
  terminal_summary_states summary = Some o -> final o.
Proof.
  unfold terminal_summary_states, final. intros (e & _ & H)%bind_Some.
  by destruct (js_state summary), (te_state e); inversion H.
Qed.

Lemma omap_head_final (f : JobSummary -> option outcome) l o :
  (forall s o, f s = Some o -> final o) -> head (omap f l) = Some o -> final o.
Proof.
  intros Hf H. induction l as [|x l IH]; [done|]. cbn in H.
  destruct (f x) as [o'|] eqn:Hx; [|by apply IH]. injection H as <-. eauto.
Qed.

Lemma regression_finishes utc latest inventory t :
  match check_regression utc latest inventory t with
  | Walking t' terminal _ =>
      processes t' = processes t /\ at_phase t' = at_phase t /\
      (forall o, terminal = Some o -> final o)
  | Ended t' => at_phase t = Polling -> finishes_or_keeps t t'
  end.
Proof.
  unfold check_regression. destruct (negb _); [done|].
  destruct (WorkerJobRow.find_by_execution_id _ _) as [known|];
    [|intros Hp; right; split; [congruence|done]].
  destruct inventory as [inv|]; [|intros Hp; right; split; [congruence|done]].
  set (t1 := if regression_reported t then t else _).
  assert (processes t1 = processes t /\ at_phase t1 = at_phase t) as [Hp Ha]
    by (unfold t1; by destruct (regression_reported t)).
  destruct (head _) as [o|] eqn:Ho.
  - split_and!; [done|done|]. intros ? [= <-].
    eapply omap_head_final; [|done]. intros s o'.
    unfold journal_regression_terminal_evidence. case_match; [done|].
    apply summary_outcome_final.
  - intros _. left. split; [done|]. intros q. cbn.
    destruct (ProcessRow.was_stopped _ _) eqn:Hs; [|apply indeterminate_settles].
    unfold ProcessRow.was_stopped, ProcessRow.find_by_id in Hs. intros Hq.
    rewrite Hq in Hs. intros Hr. by rewrite Hr in Hs.
Qed.

Lemma settle_settled utc latest o t :
  final o -> at_phase (settle utc latest o t) = Finalized /\ settled (settle utc latest o t).
Proof.
  destruct o as [[w p] e]. intros Hf. split; [done|]. intros q. cbn. by apply completion_settles.
Qed.

Lemma deadline_finishes now utc t :
  at_phase t = Polling -> finishes_or_keeps t (check_deadline now utc t).
Proof.
  intros Hp. unfold check_deadline.
  destruct (final_output_deadline t); [|right; split; [congruence|done]].
  case_decide; [|right; split; [congruence|done]].
  destruct (match WorkerJobRow.find_by_execution_id _ _ with | Some _ => _ | None => _ end).
  - right. split; [cbn; congruence|done].
  - left. split; [done|]. apply (indeterminate_settles utc (cancel utc t)).
Qed.

Lemma after_events_finishes now utc latest had t terminal :
  at_phase t = Polling -> (forall o, terminal = Some o -> final o) ->
  finishes_or_keeps t (after_events now utc latest had t terminal).
Proof.
  intros Hp Hf. unfold after_events.
  set (t1 := if had && _ : bool then _ else t).
  set (t2 := if should_ack_worker_batch _ _ then _ else _).
  assert (processes t2 = processes t /\ at_phase t2 = Polling) as [Hp2 Ha2]
    by (unfold t2, t1; by repeat case_match).
  destruct terminal as [o|].
  - left. apply settle_settled. by apply Hf.
  - destruct (deadline_finishes now utc t2 Ha2) as [[? ?]|[? ?]]; [by left|right].
    split; [done|congruence].
Qed.

(** C4: The tracker finishes exactly with its row: a poll either finalises the
    execution, and then its process row is no longer running, or it leaves every
    process row untouched and the task goes on. *)
Theorem poll_finishes_with_row now utc answer inventory t :
  at_phase t = Polling -> finishes_or_keeps t (poll now utc answer inventory t).
Proof.
  intros Hp. unfold poll. rewrite Hp. destruct answer as [batch|[ra ea|]].
  - unfold on_batch. pose proof (regression_finishes utc (eb_latest_available batch) inventory t) as Hr.
    destruct (check_regression _ _ _ _) as [t1 term1 only1|t1]; [|by apply Hr].
    destruct Hr as (Hp1 & Ha1 & Hf1).
    pose proof (walk_finishes now utc (eb_events batch) t1 term1 true Hf1) as Hw.
    destruct (walk_events _ _ _ _ _ _) as [t2 term2 only2|t2]; [|by left].
    destruct Hw as (Hp2 & Ha2 & Hf2).
    destruct (after_events_finishes now utc (eb_latest_available batch)
                (bool_decide (eb_events batch <> [])) t2 term2) as [[? ?]|[? ?]];
      [congruence|done|by left|right]. split; [done|congruence].
  - unfold on_gap. destruct (match WorkerJobRow.find_by_execution_id _ _ with
                             | Some _ => _ | None => _ end) as [recovered live] eqn:Hrec.
    destruct (bool_decide (recovered = None) && live); [right; split; [cbn; congruence|done]|].
    assert (forall o, recovered = Some o -> final o) as Hf.
    { intros o ->. destruct (WorkerJobRow.find_by_execution_id _ _) as [known|]; [|done].
      destruct inventory as [inv|]; [|done]. injection Hrec as Ho _.
      eapply omap_head_final; [|done]. intros s o'.
      unfold replay_gap_terminal_evidence. repeat (case_match; try done).
      apply summary_outcome_final. }
    destruct recovered as [[[w st] e]|]; (destruct (WorkerJobRow.mark_output_incomplete _ _ _) as [j b];
      destruct b; [left|right; split; [cbn; congruence|done]]);
      (split; [done|]); intros q; cbn; apply completion_settles; [|done].
    by apply (Hf (w, st, e)).
  - unfold on_error. destruct (final_output_deadline t); [|right; split; [congruence|done]].
    case_decide; [|right; split; [congruence|done]].
    left. split; [done|]. apply indeterminate_settles.
Qed.

(** ** Fidelity of the outcome *)

Definition outcome_of (e : TerminalEvidence) : outcome :=
  (match te_state e with
   | TsCompleted => WorkerJobRow.Completed
   | TsFailed => WorkerJobRow.Failed
   | TsKilled => WorkerJobRow.Killed
   | TsInterrupted => WorkerJobRow.Interrupted
   end, Reconcile.process_state (te_state e), e).

Definition not_indeterminate (ev : ExecutionEvent) : Prop :=
  match ev_payload ev with PIndeterminate _ => False | _ => True end.

Lemma walk_to_terminal now utc pre ev e t terminal only :
  Forall not_indeterminate pre -> ev_payload ev = Journal.terminal_payload e ->
  exists t' only',
    walk_events now utc t terminal only (pre ++ [ev]) = Walking t' (Some (outcome_of e)) only' /\
    processes t' = processes t /\ jobs t' = jobs t.
Proof.
  intros Hpre Hev. revert t terminal only.
  induction Hpre as [|x pre Hx Hpre IH]; intros t terminal only; cbn [app walk_events].
  - rewrite Hev. unfold Journal.terminal_payload, outcome_of.
    destruct (te_state e); cbn; repeat eexists; by case_match.
  - set (t1 := if _ : bool then push_to _ _ else _).
    assert (processes t1 = processes t /\ jobs t1 = jobs t) as [Hp Hj]
      by (unfold t1; by case_match).
    pose proof (apply_payload_walk now utc t1 terminal
                  (only && worker_event_is_output (ev_payload x)) (ev_payload x)) as Hw.
    destruct (apply_payload _ _ _ _ _ _) as [t2 term2 only2|t2] eqn:Hap.
    + destruct Hw as (Hp2 & Hj2 & _). rewrite <- Hp, <- Hj, <- Hp2, <- Hj2. apply IH.
    + unfold not_indeterminate in Hx.
      destruct (ev_payload x); cbn in Hap; try done. by case_match.
Qed.

(** The recorded outcome is the worker's: when a poll brings the terminal
    event, the execution is finalised with the evidence in its dispatch row and,
    unless a stop had settled it before, the evidence's state and exit code in
    its process row. *)
Lemma terminal_event_recorded now utc inventory batch t job row pre ev e :
  at_phase t = Polling -> cursor t <= eb_latest_available batch ->
  EventClient.received batch = Ok batch ->
  eb_events batch = pre ++ [ev] -> Forall not_indeterminate pre ->
  ev_payload ev = Journal.terminal_payload e ->
  jobs t !! execution_id = Some job -> processes t !! execution_id = Some row ->
  ProcessRow.status row = ProcessRow.Running ->
  let t' := poll now utc (EventClient.received batch) inventory t in
  at_phase t' = Finalized /\
  (exists job', jobs t' !! execution_id = Some job' /\
     WorkerJobRow.terminal_evidence job' = Some e /\
     WorkerJobRow.dispatch_state job' = (outcome_of e).1.1) /\
  (exists row', processes t' !! execution_id = Some row' /\
     ProcessRow.status row' = Reconcile.process_state (te_state e) /\
     ProcessRow.exit_code row' = te_exit_code e).
Proof.
  intros Hp Hc Hok Hev Hpre Hpay Hjob Hrow Hrun. unfold poll. rewrite Hp, Hok.
  unfold on_batch, check_regression, worker_journal_regressed.
  rewrite bool_decide_false by lia. cbn [negb].
  destruct (walk_to_terminal now utc pre ev e t None true Hpre Hpay)
    as (t1 & only1 & Hw & Hp1 & Hj1).
  rewrite Hev, Hw. unfold after_events, should_ack_worker_batch.
  rewrite (bool_decide_true (is_Some (Some (outcome_of e)))) by eauto. rewrite andb_false_r.
  set (t2 := if _ : bool then _ else t1).
  assert (processes t2 = processes t /\ jobs t2 = jobs t) as [Hp2 Hj2]
    by (unfold t2; case_match; cbn; by rewrite Hp1, Hj1).
  split; [done|]. unfold outcome_of, settle. cbn. rewrite Hp2, Hj2. split.
  - unfold WorkerJobRow.update_state, WorkerJobRow.acknowledge_sequence,
      WorkerJobRow.update_row. rewrite Hjob. cbn. rewrite lookup_insert_eq. cbn.
    case_bool_decide; cbn; rewrite lookup_insert_eq; eauto.
  - assert (ProcessRow.was_stopped (processes t) execution_id = false) as Hns
      by (unfold ProcessRow.was_stopped, ProcessRow.find_by_id; by rewrite Hrow, Hrun).
    unfold complete_unless_stopped, ProcessRow.update_completion. rewrite Hns.
    rewrite lookup_alter_eq, Hrow. cbn. eauto.
Qed.

(** ** The persisted cursor *)

(** What a worker that numbers its events can answer to a poll at the cursor. *)
Definition answer_ok (t : tracker)
    (answer : result EventBatch EventClient.WorkerClientError) : Prop :=
  match answer with
  | Ok batch =>
      EventClient.received batch = Ok batch /\ eb_requested_after batch = cursor t /\
      Forall (fun ev => ev_sequence ev <= i64_max) (eb_events batch)
  | Err (EventClient.ReplayGap _ earliest) => cursor t < earliest <= i64_max
  | Err EventClient.OtherError => True
  end.

Definition persisted_at_most (t : tracker) (bound : Z) : Prop :=
  forall job, jobs t !! execution_id = Some job ->
    WorkerJobRow.last_event_sequence job <= bound.

Record cursor_inv (t : tracker) : Prop := {
  ci_range : 0 <= cursor t <= i64_max;
  ci_pushed : pushed t <= cursor t;
  ci_persisted : persisted_at_most t (cursor t);
  ci_unresolved q : q ∈ unresolved t ->
    0 < q <= cursor t /\ pushed t < q /\ persisted_at_most t (q - 1);
}.

Lemma same_sequences_persisted t t' b :
  (forall job', jobs t' !! execution_id = Some job' -> exists job,
     jobs t !! execution_id = Some job /\
     WorkerJobRow.last_event_sequence job' = WorkerJobRow.last_event_sequence job) ->
  persisted_at_most t b -> persisted_at_most t' b.
Proof. intros H Hb job' Hj. destruct (H _ Hj) as (job & Hjob & ->). by apply Hb. Qed.

Lemma push_durable_inv t :
  cursor_inv t -> cursor_inv (push_to (durable_worker_cursor (cursor t) (unresolved t)) t).
Proof.
  intros [Hr Hp Hj Hu]. pose proof (durable_le (cursor t) (unresolved t)).
  split; cbn; [done|lia|done|]. intros q Hq. destruct (Hu q Hq) as (Hq1 & Hq2 & Hq3).
  split_and!; try done; try lia.
  enough (durable_worker_cursor (cursor t) (unresolved t) < q) by lia.
  apply durable_before; [|done]. intros q' Hq'. apply Hu in Hq'. lia.
Qed.

Lemma advance_inv t c :
  cursor_inv t -> cursor t <= c <= i64_max -> cursor_inv (set_cursor c t).
Proof.
  intros [Hr Hp Hj Hu] Hc. split; cbn; [lia|lia| |].
  - intros job Hjob. specialize (Hj job Hjob). lia.
  - intros q Hq. destruct (Hu q Hq) as (? & ? & ?). split_and!; try done; lia.
Qed.

(** Before its interaction is added, an event's sequence is above everything
    persisted or pushed. *)
Lemma walk_inv now utc events t terminal only :
  cursor_inv t -> EventClient.validate_from (cursor t + 1) events = Ok tt ->
  Forall (fun ev => ev_sequence ev <= i64_max) events ->
  match walk_events now utc t terminal only events with
  | Walking t' _ _ => cursor_inv t'
  | Ended t' => at_phase t' = Finalized
  end.
Proof.
  revert t terminal only. induction events as [|ev events IH]; intros t terminal only Hi Hv Hf.
  - done.
  - apply Forall_cons in Hf as [Hev Hf]. cbn in Hv. case_decide as Hs; [done|].
    assert (ev_sequence ev = cursor t + 1) as Hseq by lia.
    cbn. set (only1 := only && _).
    set (t0 := set_cursor (ev_sequence ev) t).
    set (t1 := if only1 : bool then push_to _ _ else _).
    assert (cursor_inv t1 /\ cursor t1 = ev_sequence ev /\ jobs t1 = jobs t /\
            (only1 = false -> pushed t1 = pushed t)) as (Hi1 & Hc1 & Hj1 & Hp1).
    { assert (cursor_inv t0) by (apply advance_inv; [done|lia]).
      unfold t1. destruct only1; [|done]. split_and!; try done.
      by apply (push_durable_inv t0). }
    pose proof (apply_payload_walk now utc t1 terminal only1 (ev_payload ev)) as Hw.
    destruct (apply_payload _ _ _ _ _ _) as [t2 term2 only2|t2]; [|by destruct Hw].
    destruct Hw as (_ & Hj2 & _ & Hc2 & Hp2 & _ & _ & _ & Hu2).
    apply IH; [| |done].
    + destruct Hi1 as [Hr Hp Hj Hu]. split.
      * by rewrite Hc2.
      * by rewrite Hp2, Hc2.
      * intros job. rewrite Hj2, Hc2. apply Hj.
      * intros q Hq.
        assert (q ∈ unresolved t1 \/ q = cursor t1 /\ only1 = false) as [Hq'|[-> Ho]].
        { destruct Hu2 as [Hu2|[Hu2 Hout]]; rewrite Hu2 in Hq; [by left|].
          apply elem_of_union in Hq as [->%elem_of_singleton|]; [right|by left].
          split; [done|]. unfold only1. by rewrite Hout, andb_false_r. }
        -- destruct (Hu q Hq') as (Ha & Hb & Hc). rewrite Hc2, Hp2. split_and!; [lia|lia|lia|].
           intros job. rewrite Hj2. apply Hc.
        -- rewrite Hc2, Hp2, (Hp1 Ho). destruct Hi as [Hr0 Hp0 Hj0 _].
           split_and!; [lia|lia|lia|]. intros job. rewrite Hj2, Hj1. intros Hjob.
           specialize (Hj0 job Hjob). lia.
    + rewrite Hc2, Hc1. unfold saturating_add in Hv.
      replace (Z.min u64_max (cursor t + 1 + 1)) with (ev_sequence ev + 1) in Hv; [done|].
      unfold u64_max, i64_max in *. lia.
Qed.

Lemma u64_as_i64_id x : x <= i64_max -> u64_as_i64 x = x.
Proof. intros. unfold u64_as_i64. by rewrite decide_True. Qed.

Lemma after_events_inv now utc latest had t terminal :
  cursor_inv t ->
  at_phase (after_events now utc latest had t terminal) = Polling ->
  cursor_inv (after_events now utc latest had t terminal).
Proof.
  intros Hi. unfold after_events.
  set (t1 := if had && _ : bool then _ else t).
  assert (cursor_inv t1) as Hi1 by (unfold t1; case_match; [by destruct Hi|done]).
  set (t2 := if should_ack_worker_batch _ _ then _ else _).
  assert (cursor_inv t2) as Hi2.
  { unfold t2. case_match; [|done]. pose proof (push_durable_inv t1 Hi1) as Hi3.
    set (d := durable_worker_cursor (cursor t1) (unresolved t1)) in *.
    assert (d <= cursor t1) as Hd by apply durable_le.
    assert (0 <= d) as Hd0 by (apply durable_nonneg; apply Hi1).
    destruct Hi1 as [Hr1 Hp1 Hj1 Hu1]. destruct Hi3 as [Hr Hp Hj Hu].
    assert (forall b job, d <= b -> persisted_at_most t1 b ->
      (WorkerJobRow.acknowledge_sequence (jobs t1) execution_id (u64_as_i64 d)
         (u64_as_i64 latest) utc).1 !! execution_id = Some job ->
      WorkerJobRow.last_event_sequence job <= b) as Hack.
    { intros b job Hdb Hb Hjob. unfold WorkerJobRow.acknowledge_sequence in Hjob.
      apply Reconcile.update_row_lookup in Hjob as [[Hjob _]|(_ & r0 & Hr0 & ->)];
        [by apply Hb|]. cbn. rewrite u64_as_i64_id by lia. done. }
    split; cbn; [done|done| |].
    - intros job Hjob. by apply (Hack (cursor t1)) in Hjob.
    - intros q Hq. destruct (Hu q Hq) as (Ha & Hb & Hc). cbn in Ha, Hb.
      split_and!; [lia|lia|lia|]. intros job Hjob. destruct (Hu1 q Hq) as (_ & _ & Hc').
      apply (Hack (q - 1)) in Hjob; [done|lia|done]. }
  destruct terminal as [[[w p] e]|]; [done|]. unfold check_deadline.
  destruct (final_output_deadline t2); [|done].
  case_decide; [|done]. destruct (match WorkerJobRow.find_by_execution_id _ _ with
                                  | Some _ => _ | None => _ end); [|done].
  intros _. by destruct Hi2.
Qed.

Lemma mark_incomplete_persisted t t' utc b :
  jobs t' = (WorkerJobRow.mark_output_incomplete (jobs t) execution_id utc).1 ->
  persisted_at_most t b -> persisted_at_most t' b.
Proof.
  intros Hj. apply same_sequences_persisted. intros job'. rewrite Hj.
  unfold WorkerJobRow.mark_output_incomplete.
  intros [[H _]|(_ & r0 & H & ->)]%Reconcile.update_row_lookup; eauto.
Qed.

Lemma mark_incomplete_inv t t' utc :
  jobs t' = (WorkerJobRow.mark_output_incomplete (jobs t) execution_id utc).1 ->
  cursor t' = cursor t -> pushed t' = pushed t -> unresolved t' = unresolved t ->
  cursor_inv t -> cursor_inv t'.
Proof.
  intros Hj Hc Hp Hu [Hr Hpu Hpe Hun]. split; rewrite ?Hc, ?Hp, ?Hu; try done.
  - by eapply mark_incomplete_persisted.
  - intros q Hq. destruct (Hun q Hq) as (? & ? & ?). split_and!; try done; try lia.
    by eapply mark_incomplete_persisted.
Qed.

Lemma poll_cursor_inv now utc answer inventory t :
  cursor_inv t -> answer_ok t answer ->
  at_phase (poll now utc answer inventory t) = Polling ->
  cursor_inv (poll now utc answer inventory t).
Proof.
  intros Hi Hok. unfold poll. destruct (at_phase t) eqn:Hph; [|done|done].
  destruct answer as [batch|[ra ea|]].
  - destruct Hok as (Hrec & Hreq & Hseq). unfold on_batch.
    assert (EventClient.validate_from (cursor t + 1) (eb_events batch) = Ok tt) as Hv.
    { unfold EventClient.received, EventClient.validate_event_batch in Hrec.
      destruct (eb_replay_gap batch); [done|]. rewrite Hreq in Hrec.
      unfold saturating_add in Hrec. replace (Z.min u64_max (cursor t + 1)) with (cursor t + 1)
        in Hrec by (destruct Hi; unfold u64_max, i64_max in *; lia).
      by destruct (EventClient.validate_from _ _) as [[]|]. }
    destruct (check_regression utc (eb_latest_available batch) inventory t)
      as [t1 term1 only1|t1] eqn:Hreg.
    + assert (cursor_inv t1 /\ cursor t1 = cursor t) as [Hi1 Hc1].
      { revert Hreg. unfold check_regression.
        destruct (negb _); [by intros [= <- _ _]|].
        destruct (WorkerJobRow.find_by_execution_id _ _); [|done].
        destruct inventory; [|done]. destruct (head _); [|done]. intros [= <- _ _].
        destruct (regression_reported t); [done|]. split; [|done].
        by apply (mark_incomplete_inv t _ utc). }
      pose proof (walk_inv now utc (eb_events batch) t1 term1 true Hi1) as Hw.
      rewrite Hc1 in Hw. specialize (Hw Hv Hseq).
      destruct (walk_events _ _ _ _ _ _) as [t2 term2 only2|t2]; [|congruence].
      by apply after_events_inv.
    + revert Hreg. unfold check_regression. destruct (negb _); [done|].
      destruct (WorkerJobRow.find_by_execution_id _ _); [|by intros [= <-]].
      destruct inventory; [|by intros [= <-]]. destruct (head _); [done|]. by intros [= <-].
  - unfold on_gap. destruct (match WorkerJobRow.find_by_execution_id _ _ with
                             | Some _ => _ | None => _ end) as [recovered live].
    destruct (_ && live).
    + intros _. cbn in Hok. set (t1 := say _ (set_tables _ _ t)).
      assert (cursor_inv t1) as Hi1 by by apply (mark_incomplete_inv t _ utc).
      apply push_durable_inv, advance_inv; [done|]. destruct Hi.
      unfold saturating_sub, i64_max in *. cbn. lia.
    + destruct recovered as [[[w st] e]|];
        by destruct (WorkerJobRow.mark_output_incomplete _ _ _) as [j []].
  - unfold on_error. destruct (final_output_deadline t); [|done]. by case_decide.
Qed.

(** The trackers a task can be in: resumed at the persisted cursor, polling a
    worker that numbers its events, with interactions resolved in between. *)
Inductive reachable : tracker -> Prop :=
| reach_start resume j p history :
    0 <= default 0 resume <= i64_max ->
    (forall job, j !! execution_id = Some job ->
       WorkerJobRow.last_event_sequence job <= default 0 resume) ->
    reachable (start resume j p history)
| reach_poll t now utc answer inventory :
    reachable t -> answer_ok t answer -> reachable (poll now utc answer inventory t)
| reach_resolve t sequence : reachable t -> reachable (resolve sequence t).


End Machine.
Arguments tracker : clear implicits.

(** ** A concrete task: output, an interaction, and a poll failure *)
Module Samples.

Definition ask : ExecutionEvent :=
  {| ev_execution_id := 1%N; ev_sequence := 2; ev_worker_timestamp := 5;
     ev_payload := PInteractionRequested
       {| ir_interaction_id := 3%N; ir_kind := "question"; ir_prompt := "q";
          ir_expires_at := None; ir_disconnect_policy := DpTimeout |} |}.

Definition event (n : Z) : ExecutionEvent :=
  {| ev_execution_id := 1%N; ev_sequence := n; ev_worker_timestamp := 5;
     ev_payload := PStdout "aGk=" |}.

Definition batch : EventBatch :=
  {| eb_execution_id := 1%N; eb_requested_after := 0; eb_earliest_available := 1;
     eb_latest_available := 3; eb_replay_gap := false;
     eb_events := [event 1; ask; event 3] |}.

Definition begin : tracker unit :=
  start None {[ 1%N := WorkerJobRow.pending_row 1 7 "d" 0 ]}
    {[ 1%N := Reconcile.Samples.process 1 ]} [].

Definition step (answer : result EventBatch EventClient.WorkerClientError) (t : tracker unit)
    : tracker unit :=
  poll (fun _ => Diagnostic "") (fun _ => None) (fun _ => Ok "hi") 1%N 7%N 42%N true
    (fun _ => "n") 100 100 answer None t.

End Samples.

Example samples_step :
  let t := Samples.step (Ok Samples.batch) Samples.begin in
  cursor t = 3 /\ pushed t = 1 /\ elements (unresolved t) = [2] /\
  (WorkerJobRow.last_event_sequence <$> jobs t !! 1%N) = Some 1 /\
  (ack_highest_contiguous_sequence <$> acknowledged t) = [3].
Proof. vm_compute. auto 6. Qed.

Lemma poll_finishes_with_row_witness :
  finishes_or_keeps 1%N Samples.begin (Samples.step (Ok Samples.batch) Samples.begin).
Proof.
  apply (poll_finishes_with_row (fun _ => Diagnostic "") (fun _ => None) (fun _ => Ok "hi")
           1%N 7%N 42%N true (fun _ => "n") 100 100 (Ok Samples.batch) None Samples.begin).
  reflexivity.
Defined.


End Tracker.
