(* ===== verification/Delivery.v ===== *)
(** * From the worker's journal to the coordinator's rows

    The journal of [Journal.v] served through the batch check to the tracker of
    [Tracker.v]: what a poll returns at each cursor, that a terminal event in the
    retained window settles the execution as the worker recorded it, and what a
    restarted worker's journal, recovered from its last persisted summary, makes
    of a cursor that had moved past that summary. *)
From S2P Require Import Prelude Json ClusterProtocol Journal WorkerNode WorkerJobRow.
From S2P Require Import Reconcile MsgStore Tracker.

(** ** Reading any event source

    Everything here is proved from the interface [EventSource] alone. *)
Section Served.
Context {J : Type} `{!EventSource J}.

(** What a poll of the worker at a cursor returns to the coordinator. *)
Definition served (j : J) (cursor : Z) : result EventBatch EventClient.WorkerClientError :=
  EventClient.received (replay j cursor).

Lemma validate_numbered i b es :
  0 <= b -> b + Z.of_nat (length es) <= u64_max ->
  EventClient.validate_from (b + 1) (Log.numbered_from i b es) = Ok tt.
Proof.
  revert b. induction es as [|[t p] es IH]; intros b Hb Hm; [done|].
  change ((t, p) :: es) with ([(t, p)] ++ es). rewrite numbered_from_app. cbn in *.
  rewrite decide_False by (intros H; apply H; cbn; lia).
  unfold saturating_add. destruct es as [|e es]; [done|]. cbn [length] in Hm.
  rewrite Z.min_r by lia. replace (b + 1 + 1) with (b + Z.of_nat 1 + 1) by lia.
  apply IH; cbn [length]; lia.
Qed.

Lemma validate_suffix l first cursor :
  0 <= Log.base l < first -> Log.last_sequence l < u64_max ->
  0 <= cursor < u64_max -> first <= cursor + 1 ->
  EventClient.validate_from (saturating_add u64_max cursor 1)
    (filter (fun e => cursor < ev_sequence e) (Log.numbered l)) = Ok tt.
Proof.
  intros Hb Hbd Hc Hf. unfold Log.last_sequence in Hbd.
  unfold Log.numbered. rewrite filter_numbered_from.
  replace (saturating_add u64_max cursor 1) with (cursor + 1) by (unfold saturating_add; lia).
  destruct (decide (Z.to_nat (cursor - Log.base l) < length (Log.entries l))%nat) as [Hlt|Hge].
  - rewrite drop_numbered_from by lia.
    replace (cursor + 1) with
      (Log.base l + Z.of_nat (Z.to_nat (cursor - Log.base l)) + 1) by lia.
    apply validate_numbered; [lia|]. rewrite length_drop. lia.
  - rewrite drop_ge; [done|]. unfold Log.numbered_from. rewrite length_imap. lia.
Qed.

Lemma served_complete j l first cursor :
  holds j l first -> 0 <= cursor < u64_max ->
  match served j cursor with
  | Ok batch =>
      batch = replay j cursor /\ first <= cursor + 1 /\
      eb_events batch = filter (fun e => cursor < ev_sequence e) (Log.numbered l) /\
      eb_latest_available batch = Log.last_sequence l
  | Err (EventClient.ReplayGap after earliest) =>
      after = cursor /\ earliest = first /\ cursor + 1 < first
  | Err EventClient.OtherError => False
  end.
Proof.
  intros R Hc. destruct (holds_bounds j l first R) as (Hb & Hf & Hbd).
  destruct (replay_holds j l first cursor R) as (Hreq & Hearly & Hl & Hev & Hgap); [lia|].
  unfold served, EventClient.received, EventClient.validate_event_batch.
  rewrite Hreq, Hearly.
  destruct (eb_replay_gap _) eqn:Hg; [split_and!; [done..|by apply Hgap]|].
  assert (first <= cursor + 1) as Hd.
  { destruct (decide (cursor + 1 < first)) as [H|]; [|lia]. apply Hgap in H. congruence. }
  assert (eb_events (replay j cursor) =
    filter (fun e => cursor < ev_sequence e) (Log.numbered l)) as Hev'
    by (rewrite Hev; apply list_filter_iff; intros e; lia).
  rewrite Hev', (validate_suffix l first) by done. by split_and!.
Qed.

(** A reader that polls again and again: it moves its cursor to the last event it
    got, and stops at the first error. *)
Fixpoint follow (js : list J) (cursor : Z)
    : Z * list ExecutionEvent * option EventClient.WorkerClientError :=
  match js with
  | [] => (cursor, [], None)
  | j :: js =>
      match served j cursor with
      | Err e => (cursor, [], Some e)
      | Ok batch =>
          let cursor' := foldl (fun _ e => ev_sequence e) cursor (eb_events batch) in
          let '(c, events, stop) := follow js cursor' in
          (c, eb_events batch ++ events, stop)
      end
  end.

Lemma cursor_after l cursor :
  0 <= Log.base l <= cursor -> cursor <= Log.last_sequence l ->
  foldl (fun _ e => ev_sequence e) cursor
    (filter (fun e => cursor < ev_sequence e) (Log.numbered l)) = Log.last_sequence l.
Proof.
  intros Hb Hc. unfold Log.last_sequence in *. unfold Log.numbered.
  rewrite filter_numbered_from.
  destruct (Log.entries l) as [|[at_ p] es _] eqn:He using rev_ind.
  - cbn in *. rewrite drop_nil. cbn. lia.
  - rewrite length_app in *. cbn [length] in *.
    destruct (decide (cursor = Log.base l + Z.of_nat (length es + 1))) as [->|].
    + rewrite drop_ge; [done|]. unfold Log.numbered_from. rewrite length_imap, length_app.
      cbn [length]. lia.
    + rewrite numbered_from_app, drop_app_le.
      * rewrite foldl_app. cbn. lia.
      * unfold Log.numbered_from. rewrite length_imap. lia.
Qed.
End Served.

(** ** The worker's journal, polled while it grows *)

Lemma journal_holds j l :
  refines j l -> holds j l (Log.first_retained (Journal.capacity j) l).
Proof. done. Qed.

(** The journal after each burst of events. *)
Fixpoint snapshots (j : Journal.EventJournal)
    (bursts : list (list (DateTime * ExecutionEventPayload))) : list Journal.EventJournal :=
  match bursts with
  | [] => []
  | ps :: bursts => append_all j ps :: snapshots (append_all j ps) bursts
  end.

Lemma push_all_app ps qs : forall l, push_all l (ps ++ qs) = push_all (push_all l ps) qs.
Proof. induction ps as [|[at_ p] ps IH]; intros l; cbn; [done|]. apply IH. Qed.

Lemma push_all_last l ps : Log.last_sequence l <= Log.last_sequence (push_all l ps).
Proof.
  destruct (push_all_extends ps l) as [es ->]. unfold Log.last_sequence. cbn.
  rewrite length_app. lia.
Qed.

(** What a reader at [c] still has to get of a history is, in any extension of it,
    the window up to its last event. *)
Lemma unread_window l ps c :
  Log.base l <= c ->
  filter (fun e => c < ev_sequence e) (Log.numbered l) =
  filter (fun e => c < ev_sequence e <= Log.last_sequence l) (Log.numbered (push_all l ps)).
Proof.
  intros Hc. destruct (push_all_extends ps l) as [es ->]. unfold Log.numbered.
  cbn [Log.id Log.base Log.entries].
  rewrite filter_window, filter_numbered_from, numbered_from_app. f_equal.
  rewrite take_app_length'; [done|].
  unfold Log.numbered_from, Log.last_sequence. rewrite length_imap. lia.
Qed.

Lemma empty_window l c :
  filter (fun e => c < ev_sequence e <= c) (Log.numbered l) = [].
Proof.
  unfold Log.numbered. rewrite filter_window, drop_ge; [done|]. rewrite length_take. lia.
Qed.

(** C24: Polling delivers every event exactly once: a reader that polls the journal
    again and again while it grows gets, in order and without repetition, exactly the
    events between its first and its last cursor.  Unless it is told of a gap, its
    last cursor is the end of the history.  It is told of a gap only by a poll at which
    the event after its cursor has been appended and evicted already, and the gap it is
    told ends exactly at the first event the journal retained at that poll. *)
Theorem polls_deliver_exactly_once j l bursts c :
  refines j l -> Log.base l <= c <= Log.last_sequence l ->
  let '(c', events, stop) := follow (snapshots j bursts) c in
  let history := push_all l (concat bursts) in
  events = filter (fun e => c < ev_sequence e <= c') (Log.numbered history) /\
  c <= c' <= Log.last_sequence history /\
  match stop with
  | None => bursts <> [] -> c' = Log.last_sequence history
  | Some (EventClient.ReplayGap after earliest) =>
      after = c' /\
      exists k, (k < length bursts)%nat /\
        let then_ := push_all l (concat (take (S k) bursts)) in
        earliest = Log.first_retained (Journal.capacity j) then_ /\
        c' + 1 < earliest /\ c' + 1 <= Log.last_sequence then_
  | Some EventClient.OtherError => False
  end.
Proof.
  revert j l c. induction bursts as [|ps bursts IH]; intros j l c R Hc; cbn [snapshots follow concat].
  { cbn. rewrite empty_window. split_and!; [done|lia|lia|done]. }
  apply (append_all_refines ps) in R. pose proof (push_all_last l ps) as Hps.
  pose proof (append_all_capacity ps j) as Hcap.
  set (j1 := append_all j ps) in *. rewrite push_all_app.
  destruct (push_all_extends ps l) as (es & Hes).
  assert (Log.base (push_all l ps) = Log.base l) as Hbase by (by rewrite Hes). clear es Hes.
  set (l1 := push_all l ps) in *. pose proof (push_all_last l1 (concat bursts)) as Hps1.
  destruct (holds_bounds _ _ _ (journal_holds _ _ R)) as (Hb & Hfl & Hbd).
  pose proof (served_complete _ _ _ c (journal_holds _ _ R) ltac:(lia)) as Hs.
  destruct (served j1 c) as [batch|[after earliest|]]; [|destruct Hs as (-> & -> & Hg)|done].
  - destruct Hs as (_ & _ & Hev & _). rewrite Hev, cursor_after by lia.
    specialize (IH j1 l1 (Log.last_sequence l1) R ltac:(lia)).
    destruct (follow _ _) as [[c' events] stop]. destruct IH as (-> & Hc' & Hstop).
    rewrite (unread_window l1 (concat bursts)) by lia. split_and!.
    + symmetry. apply filter_window_split. lia.
    + lia.
    + lia.
    + destruct stop as [[]|]; [|done|].
      * destruct Hstop as (-> & k & Hk & He). rewrite Hcap in He. split; [done|].
        exists (S k). cbn [length]. rewrite firstn_cons. cbn [concat]. rewrite push_all_app.
        fold l1. split; [lia|done].
      * intros _. destruct bursts; [|by apply Hstop]. cbn in *. lia.
  - rewrite empty_window. split_and!; [done|lia|lia|done|]. exists 0%nat. cbn [length].
    rewrite firstn_cons, firstn_O. cbn [concat]. rewrite app_nil_r. fold l1. rewrite <-Hcap.
    split_and!; [lia|done|done|lia].
Qed.

Section EndToEnd.
Context {V : Type}.
Context (classify : string -> Tracker.WorkerStructuredEvent V)
        (final_state : LogMsg.LogMsg V -> option bool)
        (decode : string -> result string string).
Context (execution_id worker_node_id coordinator_id : Uuid)
        (live_lease : bool) (nonce : nat -> string).

Abbreviation poll := (Tracker.poll classify final_state decode execution_id worker_node_id
                        coordinator_id live_lease nonce).

(** The polls of a task against one journal, each with its clock readings and the
    inventory it could get. *)
Definition poll_journal (j : Journal.EventJournal) (t : Tracker.tracker V)
    (turns : list (Z * Z * option (list JobSummary))) : Tracker.tracker V :=
  foldl (fun t turn => poll turn.1.1 turn.1.2 (served j (Tracker.cursor t)) turn.2 t) t turns.

Lemma last_numbered l e es :
  Log.entries l = es ++ [e] ->
  Log.numbered l = Log.numbered_from (Log.id l) (Log.base l) es ++
    [{| ev_execution_id := Log.id l; ev_sequence := Log.last_sequence l;
        ev_worker_timestamp := e.1; ev_payload := e.2 |}].
Proof.
  intros He. unfold Log.numbered, Log.last_sequence. rewrite He, numbered_from_app.
  destruct e as [at_ p]. cbn. do 3 f_equal. rewrite length_app. cbn. lia.
Qed.

(** C1: End to end: let a worker have closed an execution's journal with evidence [e], with
    no Indeterminate event among the events before it.  Let a tracker be polling with a
    cursor whose next event is still retained, the closing event not yet read, with the
    dispatch row of the execution in the table and its process row still Running (a user's
    stop has not settled it).  Then the next poll finalises the execution with exactly that
    evidence: the dispatch row holds [e], and the process row the state and the exit code
    of [e]. *)
Theorem terminal_evidence_delivered j l es at_ e now utc inventory t job row :
  refines j l -> Log.entries l = es ++ [(at_, Journal.terminal_payload e)] ->
  Forall (fun x => match x.2 with PIndeterminate _ => False | _ => True end) es ->
  Log.first_retained (Journal.capacity j) l <= Tracker.cursor t + 1 <= Log.last_sequence l ->
  Tracker.at_phase t = Tracker.Polling ->
  Tracker.jobs t !! execution_id = Some job ->
  Tracker.processes t !! execution_id = Some row ->
  ProcessRow.status row = ProcessRow.Running ->
  let t' := poll_journal j t [(now, utc, inventory)] in
  Tracker.at_phase t' = Tracker.Finalized /\
  (exists job', Tracker.jobs t' !! execution_id = Some job' /\
     WorkerJobRow.terminal_evidence job' = Some e) /\
  (exists row', Tracker.processes t' !! execution_id = Some row' /\
     ProcessRow.status row' = Reconcile.process_state (te_state e) /\
     ProcessRow.exit_code row' = te_exit_code e).
Proof.
  intros R He Hpre Hc Hp Hjob Hrow Hrun.
  pose proof (ref_base _ _ R) as Hb. pose proof (ref_bound _ _ R) as Hbd.
  destruct (refines_bounds _ _ R) as (Hb0 & Hf & Hbd0).
  pose proof (served_complete _ _ _ (Tracker.cursor t) (journal_holds _ _ R) ltac:(lia)) as Hs.
  unfold poll_journal. cbn [foldl fst snd].
  destruct (served j (Tracker.cursor t)) as [batch|[]] eqn:Hsv; [|lia|done].
  destruct Hs as (Hbatch & _ & Hev & Hl).
  assert (EventClient.received batch = Ok batch) as Hrec
    by (rewrite Hbatch at 1; exact Hsv).
  rewrite (last_numbered l _ es He), filter_app, filter_cons_True, filter_nil in Hev
    by (cbn; lia).
  destruct (Tracker.terminal_event_recorded classify final_state decode execution_id
              worker_node_id coordinator_id live_lease nonce now utc inventory batch t job row
              _ _ e Hp ltac:(lia) Hrec Hev) as (H1 & (job' & H2 & H3 & _) & H4); try done.
  - apply Forall_forall. intros x [_ Hx]%list_elem_of_filter.
    unfold Log.numbered_from in Hx. apply elem_of_lookup_imap in Hx as (k & [a p] & -> & Hk).
    rewrite Forall_forall in Hpre. apply (Hpre (a, p)). by eapply list_elem_of_lookup_2.
  - rewrite Hrec in H1, H2, H4. eauto.
Qed.

(** ** A worker that restarted *)

Lemma recovered_served s cap ev j cursor :
  0 < cap -> 0 <= js_last_sequence s -> js_last_sequence s + 2 <= u64_max ->
  Journal.recover s cap ev = Ok j -> 0 <= cursor < u64_max ->
  match served j cursor with
  | Ok batch =>
      js_last_sequence s <= cursor /\
      eb_latest_available batch = js_last_sequence s + 1 /\
      eb_events batch =
        (if decide (cursor = js_last_sequence s)
         then [{| ev_execution_id := js_execution_id s;
                  ev_sequence := js_last_sequence s + 1;
                  ev_worker_timestamp := te_observed_at ev;
                  ev_payload := Journal.terminal_payload ev |}]
         else [])
  | Err (EventClient.ReplayGap after earliest) =>
      after = cursor /\ earliest = js_last_sequence s + 1 /\ cursor < js_last_sequence s
  | Err EventClient.OtherError => False
  end.
Proof.
  intros Hcap H0 Hm Hj Hc. destruct (recover_refines s cap ev Hcap H0 Hm) as (j' & Hj' & R).
  rewrite Hj in Hj'. injection Hj' as <-.
  pose proof (ref_capacity _ _ R) as Hjc.
  pose proof (served_complete _ _ _ cursor (journal_holds _ _ R) Hc) as Hs.
  unfold Log.first_retained, Log.trimmed, Log.last_sequence in Hs.
  cbn [Log.entries Log.base length] in Hs.
  replace (1 - Z.to_nat (Journal.capacity j))%nat with 0%nat in Hs by lia.
  destruct (served j cursor) as [batch|[]];
    [|destruct Hs as (? & ? & ?); split_and!; [done|lia|lia]|done].
  destruct Hs as (_ & Hf & Hev & Hl). split_and!; [lia|lia|]. rewrite Hev.
  unfold Log.numbered, Log.numbered_from. cbn -[filter].
  replace (js_last_sequence s + Z.of_nat 0 + 1) with (js_last_sequence s + 1) by lia.
  case_decide.
  - by rewrite filter_cons_True, filter_nil by (cbn; lia).
  - by rewrite filter_cons_False, filter_nil by (cbn; lia).
Qed.

(** What a tracker sees of a job recovered from a summary that ended at
    sequence [n]: a cursor below [n] gets a replay gap, [n] gets the terminal
    event, and a cursor above [n] gets an empty batch, which the regression check
    reports only when the cursor is above [n + 1]. *)
Theorem recovered_terminal_visibility s cap ev j cursor :
  0 < cap -> 0 <= js_last_sequence s -> js_last_sequence s + 2 <= u64_max ->
  Journal.recover s cap ev = Ok j -> 0 <= cursor < u64_max ->
  let n := js_last_sequence s in
  match served j cursor with
  | Ok batch =>
      (cursor = n -> exists event, eb_events batch = [event] /\
         Journal.terminal_evidence (ev_payload event) = Some ev) /\
      (n < cursor -> eb_events batch = [] /\
         (Tracker.worker_journal_regressed cursor (eb_latest_available batch) = true <->
          n + 1 < cursor))
  | Err error => error = EventClient.ReplayGap cursor (n + 1) /\ cursor < n
  end.
Proof.
  intros Hcap H0 Hm Hj Hc n.
  pose proof (recovered_served s cap ev j cursor Hcap H0 Hm Hj Hc) as Hs. fold n in Hs.
  destruct (served j cursor) as [batch|[]]; [|by destruct Hs as (-> & -> & ?)|done].
  destruct Hs as (Hle & Hl & Hev). rewrite Hl, Hev. unfold Tracker.worker_journal_regressed.
  split.
  - intros ->. rewrite decide_True by done. eexists. split; [done|].
    unfold Journal.terminal_payload. cbn. by destruct (te_state ev).
  - intros Hlt. rewrite decide_False by lia. split; [done|].
    rewrite bool_decide_eq_true. lia.
Qed.

Lemma lost_turn now utc inventory j t n :
  served j (n + 1) = Ok (Journal.replay_after j (n + 1)) ->
  eb_events (Journal.replay_after j (n + 1)) = [] ->
  eb_latest_available (Journal.replay_after j (n + 1)) = n + 1 ->
  Tracker.cursor t = n + 1 -> Tracker.at_phase t = Tracker.Polling ->
  Tracker.final_output_deadline t = None ->
  let t' := poll now utc (served j (Tracker.cursor t)) inventory t in
  Tracker.cursor t' = n + 1 /\ Tracker.at_phase t' = Tracker.Polling /\
  Tracker.final_output_deadline t' = None /\ Tracker.processes t' = Tracker.processes t.
Proof.
  intros Hs He Hl Hc Hp Hd. rewrite Hc, Hs. unfold Tracker.poll. rewrite Hp.
  unfold Tracker.on_batch, Tracker.check_regression, Tracker.worker_journal_regressed.
  rewrite Hl, He, bool_decide_false by lia. cbn [negb Tracker.walk_events].
  unfold Tracker.after_events. rewrite (bool_decide_false ([] <> [])) by naive_solver.
  cbn [andb]. unfold Tracker.check_deadline.
  destruct (Tracker.should_ack_worker_batch _ _); cbn; rewrite !Hd; done.
Qed.

(** Code bug: one consumed event past the persisted summary is invisible.  If the
    tracker had consumed exactly one event more than the summary the worker
    recovered from, the recovered terminal event reuses that sequence number, the
    regression check does not fire, and however often the task polls it neither
    finishes nor touches the process row. *)
Theorem recovered_tail_is_lost s cap ev j t turns :
  0 < cap -> 0 <= js_last_sequence s -> js_last_sequence s + 2 <= i64_max ->
  Journal.recover s cap ev = Ok j ->
  Tracker.cursor t = js_last_sequence s + 1 ->
  Tracker.at_phase t = Tracker.Polling -> Tracker.final_output_deadline t = None ->
  let t' := poll_journal j t turns in
  Tracker.at_phase t' = Tracker.Polling /\ Tracker.processes t' = Tracker.processes t.
Proof.
  intros Hcap H0 Hm Hj Hc Hp Hd. set (n := js_last_sequence s) in *.
  assert (served j (n + 1) = Ok (Journal.replay_after j (n + 1)) /\
          eb_events (Journal.replay_after j (n + 1)) = [] /\
          eb_latest_available (Journal.replay_after j (n + 1)) = n + 1) as (Hs & He & Hl).
  { pose proof (recovered_served s cap ev j (n + 1) Hcap H0) as Hs.
    unfold u64_max, i64_max in *. specialize (Hs ltac:(lia) Hj ltac:(lia)). fold n in Hs.
    destruct (served j (n + 1)) as [batch|[]] eqn:Hsv; [|lia|done].
    assert (batch = Journal.replay_after j (n + 1)) as ->.
    { unfold served, EventClient.received in Hsv.
      destruct (EventClient.validate_event_batch _); [|done]. by injection Hsv. }
    destruct Hs as (_ & ? & ->). by rewrite decide_False by lia. }
  unfold poll_journal. revert t Hc Hp Hd.
  induction turns as [|[[now utc] inv] turns IH]; intros t Hc Hp Hd; [done|].
  destruct (lost_turn now utc inv j t n Hs He Hl Hc Hp Hd) as (Hc' & Hp' & Hd' & Hr').
  cbn [foldl fst snd]. destruct (IH _ Hc' Hp' Hd') as [H1 H2]. split; [done|].
  by rewrite H2.
Qed.

End EndToEnd.

(** ** Concrete runs *)
Module DeliverySamples.

Definition evidence : TerminalEvidence :=
  {| te_state := TsCompleted; te_exit_code := Some 0; te_signal := None; te_observed_at := 8 |}.

Definition opened : Journal.EventJournal :=
  {| Journal.execution_id := 1%N; Journal.capacity := 3; Journal.next_sequence := 1;
     Journal.events := []; Journal.terminal := None |}.

Lemma opened_refines :
  refines opened {| Log.id := 1%N; Log.base := 0; Log.entries := [] |}.
Proof. split; vm_compute; done. Qed.

Definition journal : Journal.EventJournal :=
  append_all opened
    [(1, PAccepted); (2, PStarting); (3, PStdout "aGk="); (8, PCompleted evidence)].

Definition log : Log.t :=
  {| Log.id := 1%N; Log.base := 0;
     Log.entries := [(1, PAccepted); (2, PStarting); (3, PStdout "aGk=");
                     (8, Journal.terminal_payload evidence)] |}.

(** The last summary persisted before a crash, at sequence 2. *)
Definition summary : JobSummary :=
  {| js_execution_id := 1%N; js_worker_job_id := 1%N; js_workspace_id := 9%N;
     js_request_digest := "d"; js_state := JInterrupted; js_last_sequence := 2;
     js_terminal := Some evidence |}.

Definition recovered : Journal.EventJournal :=
  {| Journal.execution_id := 1%N; Journal.capacity := 4096; Journal.next_sequence := 4;
     Journal.events := [{| ev_execution_id := 1%N; ev_sequence := 3; ev_worker_timestamp := 8;
                           ev_payload := PCompleted evidence |}];
     Journal.terminal := Some evidence |}.

Definition at_cursor (c : Z) : Tracker.tracker unit :=
  Tracker.start (Some c) {[ 1%N := WorkerJobRow.pending_row 1 7 "d" 0 ]}
    {[ 1%N := Reconcile.Samples.process 1 ]} [].

Definition turn (t : Tracker.tracker unit) (j : Journal.EventJournal) : Tracker.tracker unit :=
  poll_journal (fun _ => Tracker.Diagnostic "") (fun _ => None) (fun _ => Err "")
    1%N 7%N 42%N true (fun _ => "n") j t [(100, 100, Some [summary])].

End DeliverySamples.
Import DeliverySamples.

Example turn_samples :
  Tracker.at_phase (turn (at_cursor 3) journal) = Tracker.Finalized /\
  Tracker.at_phase (turn (at_cursor 0) journal) = Tracker.Finalized /\
  Tracker.at_phase (turn (at_cursor 2) recovered) = Tracker.Finalized /\
  Tracker.at_phase (turn (at_cursor 3) recovered) = Tracker.Polling.
Proof. vm_compute. auto. Qed.

Lemma sample_refines : refines journal log.
Proof. split; vm_compute; done. Qed.

Lemma polls_deliver_exactly_once_witness :
  let bursts := [[(1, PAccepted); (2, PStarting)]; [(3, PStdout "aGk="); (8, PCompleted evidence)]] in
  let '(c, events, stop) := follow (snapshots opened bursts) 0 in
  c = 4 /\ stop = None /\ (fun e => ev_sequence e) <$> events = [1; 2; 3; 4].
Proof.
  intros bursts.
  pose proof (polls_deliver_exactly_once opened {| Log.id := 1%N; Log.base := 0; Log.entries := [] |}
    bursts 0 opened_refines ltac:(vm_compute; split; discriminate)) as H.
  destruct (follow (snapshots opened bursts) 0) as [[c events] stop] eqn:Hf.
  destruct H as (-> & _). vm_compute in Hf. injection Hf as <- _ <-. vm_compute. auto.
Defined.

Lemma terminal_evidence_delivered_witness :
  Tracker.at_phase (turn (at_cursor 3) journal) = Tracker.Finalized.
Proof.
  edestruct (terminal_evidence_delivered (V := unit) (fun _ => Tracker.Diagnostic "")
               (fun _ => None) (fun _ => Err "") 1%N 7%N 42%N true (fun _ => "n") journal log
               [(1, PAccepted); (2, PStarting); (3, PStdout "aGk=")] 8 evidence 100 100
               (Some [summary]) (at_cursor 3)) as (H & _);
    [exact sample_refines|reflexivity|repeat constructor| |reflexivity|reflexivity
    |reflexivity|reflexivity|exact H].
  split; vm_compute; discriminate.
Defined.

Lemma recovered_terminal_visibility_witness :
  match served recovered 3 with
  | Ok batch => eb_events batch = []
  | Err _ => False
  end.
Proof.
  pose proof (recovered_terminal_visibility summary 4096 evidence recovered 3) as H.
  cbn zeta in H. specialize (H ltac:(reflexivity) ltac:(vm_compute; discriminate)
    ltac:(vm_compute; discriminate) ltac:(reflexivity)
    ltac:(split; vm_compute; [discriminate|reflexivity])).
  vm_compute in H |- *. destruct H as [_ H]. by destruct H.
Defined.

Lemma recovered_tail_is_lost_witness :
  Tracker.at_phase (turn (at_cursor 3) recovered) = Tracker.Polling.
Proof.
  edestruct (recovered_tail_is_lost (V := unit) (fun _ => Tracker.Diagnostic "")
               (fun _ => None) (fun _ => Err "") 1%N 7%N 42%N true (fun _ => "n")
               summary 4096 evidence recovered (at_cursor 3) [(100, 100, Some [summary])])
    as (H & _); [reflexivity|vm_compute; discriminate|vm_compute; discriminate|reflexivity
    |reflexivity|reflexivity|reflexivity|exact H].
Defined.
