(* ===== verification/Admission.v ===== *)
(** * What a worker checks before it admits work

    [Module Pressure] is crates/worker/src/pressure.rs: the pressure threshold and
    its evaluation on binary64 readings.  [Module PathAuthority] is
    crates/worker/src/path_authority.rs, with the directory checks of
    crates/worker/src/execution.rs: a path is its root marker and components, and
    resolving one on the file system is the argument [canonicalize]. *)
From Stdlib Require Import Floats Ascii.
From S2P Require Import Prelude Text Json.

Module Pressure.

(* crates/worker/src/pressure.rs:17-17 DEFAULT_ADMISSION_MAX_PRESSURE *)
Definition DEFAULT_ADMISSION_MAX_PRESSURE : Z := 40.

(* crates/worker/src/pressure.rs:21-25 PressureReading *)
Record PressureReading := {
  memory_full_avg60 : option float;
  io_full_avg60 : option float;
}.

(* crates/worker/src/pressure.rs:45-50 PressureRefusal *)
Record PressureRefusal := {
  resource : string;
  full_avg60 : float;
  threshold : float;
}.

(* crates/worker/src/pressure.rs:63-70 PressureStatus *)
Record PressureStatus := {
  st_memory_full_avg60 : option float;
  st_io_full_avg60 : option float;
  st_threshold : option float;
  admission_refusing : bool;
}.

(** The threshold, and the reading its reader returns now. *)
(* crates/worker/src/pressure.rs:76-81 AdmissionPressure *)
Record AdmissionPressure := {
  ap_threshold : option float;
  reader : PressureReading;
}.

(* crates/worker/src/pressure.rs:115-122 AdmissionPressure::parse_threshold *)
Definition parse_threshold (value : string) : option (option Z) :=
  threshold ← (t ← parse_uint 255 (trim value); if decide (t <= 100) then Some t else None);
  Some (if decide (0 < threshold) then Some threshold else None).

(** [f64::from(u8)] *)
Definition f64_from (t : Z) : float := PrimFloat.of_uint63 (Uint63.of_Z t).

(* crates/worker/src/pressure.rs:99-101 AdmissionPressure::from_host *)
Definition from_host (threshold : option Z) (host : PressureReading) : AdmissionPressure :=
  {| ap_threshold := f64_from <$> threshold; reader := host |}.

(* crates/worker/src/pressure.rs:132-145 AdmissionPressure::evaluate *)
Fixpoint refuse (threshold : float) (readings : list (string * option float))
    : result unit PressureRefusal :=
  match readings with
  | [] => Ok tt
  | (resource, Some v) :: readings =>
      if (threshold <=? v)%float
      then Err {| resource := resource; full_avg60 := v; threshold := threshold |}
      else refuse threshold readings
  | (_, None) :: readings => refuse threshold readings
  end.

(* crates/worker/src/pressure.rs:128-147 AdmissionPressure::evaluate *)
Definition evaluate (a : AdmissionPressure) (r : PressureReading)
    : result unit PressureRefusal :=
  match ap_threshold a with
  | None => Ok tt
  | Some threshold =>
      refuse threshold [("memory", memory_full_avg60 r); ("io", io_full_avg60 r)]
  end.

(* crates/worker/src/pressure.rs:149-151 AdmissionPressure::check *)
Definition check (a : AdmissionPressure) : result unit PressureRefusal := evaluate a (reader a).

(* crates/worker/src/pressure.rs:153-161 AdmissionPressure::status *)
Definition status (a : AdmissionPressure) : PressureStatus :=
  let reading := reader a in
  {| st_memory_full_avg60 := memory_full_avg60 reading;
     st_io_full_avg60 := io_full_avg60 reading;
     st_threshold := ap_threshold a;
     admission_refusing := is_err (evaluate a reading) |}.

Lemma refuse_iff t l :
  is_err (refuse t l) = true <-> exists n v, (n, Some v) ∈ l /\ (t <=? v)%float = true.
Proof.
  induction l as [|[n [v|]] l IH]; cbn.
  - split; [done|]. intros (n & v & H & _). set_solver.
  - destruct (t <=? v)%float eqn:Hv.
    + split; [|done]. intros _. exists n, v. split; [left|done].
    + rewrite IH. split; intros (n' & v' & Hin & Hle); exists n', v'; (split; [|done]).
      * by right.
      * apply elem_of_cons in Hin as [[= -> ->]|]; [congruence|done].
  - rewrite IH. split; intros (n' & v' & Hin & Hle); exists n', v'; (split; [|done]).
    + by right.
    + apply elem_of_cons in Hin as [|]; [done|done].
Qed.

(** Admission is refused exactly when a threshold is configured and a reading
    reaches it, and [/health] reports the same verdict as the check; a missing
    reading or one that is not a number never refuses. *)
Theorem refuses_iff a :
  admission_refusing (status a) = is_err (check a) /\
  (is_err (check a) = true <->
   exists t v, ap_threshold a = Some t /\
     (memory_full_avg60 (reader a) = Some v \/ io_full_avg60 (reader a) = Some v) /\
     (t <=? v)%float = true).
Proof.
  split; [done|]. unfold check, evaluate. destruct (ap_threshold a) as [t|].
  - rewrite refuse_iff. split.
    + intros (n & v & Hin & Hle). exists t, v. split_and!; [done| |done].
      apply elem_of_cons in Hin as [[= _ <-]|Hin]; [by left|].
      apply list_elem_of_singleton in Hin as [= _ <-]. by right.
    + intros (t' & v & [= <-] & Hv & Hle).
      destruct Hv as [Hv|Hv]; [exists "memory", v|exists "io", v]; rewrite Hv; (split; [|done]);
        set_solver.
  - split; [done|]. by intros (t & v & H & _).
Qed.

(** The configured threshold is a whole percentage: what [parse_threshold]
    accepts is at most 100, and [0] disables refusal. *)
Theorem parse_threshold_range value o :
  parse_threshold value = Some o ->
  match o with
  | Some t => 0 < t <= 100
  | None => forall reading, check (from_host o reading) = Ok tt
  end.
Proof.
  unfold parse_threshold. intros (t & (n & Hn & Ht)%bind_Some & Ho)%bind_Some.
  apply parse_uint_bound in Hn; [|done].
  destruct (decide (n <= 100)); [|done]. injection Ht as <-.
  injection Ho as <-. case_decide; [lia|done].
Qed.

Lemma parse_threshold_range_witness :
  parse_threshold " 40 " = Some (Some 40) /\ 0 < 40 <= 100.
Proof.
  split; [reflexivity|]. apply (parse_threshold_range " 40 " (Some 40)). reflexivity.
Defined.

End Pressure.

Module PathAuthority.

(** A [Path] as [components] sees it. *)
Record Path := { absolute : bool; components : list string }.

#[export] Instance Path_eq_dec : EqDecision Path.
Proof. solve_decision. Defined.

(** [Path::new]: empty and [.] components vanish, but for a leading [.]. *)
Definition path_of (s : string) : Path :=
  let parts := split_char "/"%char s in
  let keep := filter (fun c => c <> "" /\ c <> ".") in
  {| absolute := starts_with "/" s;
     components := match parts with
                   | "." :: rest => "." :: keep rest
                   | _ => keep parts
                   end |}.

(** A leading [.] of what is joined vanishes behind a non-empty base. *)
Definition join (p q : Path) : Path :=
  if absolute q then q
  else if absolute p || bool_decide (components p <> [])
  then {| absolute := absolute p;
          components := components p ++
            match components q with "." :: rest => rest | l => l end |}
  else q.

Definition starts_with (p base : Path) : Prop :=
  absolute p = absolute base /\ components base `prefix_of` components p.

#[export] Instance starts_with_dec p base : Decision (starts_with p base).
Proof. unfold starts_with. apply _. Defined.

(* crates/worker/src/path_authority.rs:9-12 PathAuthority *)
Record PathAuthority := { shared_root : Path }.

Section Authority.
Context {IoError : Type}.
(** [fs::canonicalize] *)
Context (canonicalize : Path -> result Path IoError).

(* crates/worker/src/path_authority.rs:14-34 PathAuthorityError *)
Inductive PathAuthorityError :=
| RelativeSharedRoot (path : Path)
| RelativeWorkspacePath (path : Path)
| SharedRootUnavailable (path : Path) (source : IoError)
| WorkspacePathUnavailable (path : Path) (source : IoError)
| OutsideSharedRoot (path shared_root : Path).

(* crates/worker/src/path_authority.rs:37-55 PathAuthority::new *)
Definition new (root : Path) : result PathAuthority PathAuthorityError :=
  if negb (absolute root) then Err (RelativeSharedRoot root)
  else
    let? canonical_root := map_err (SharedRootUnavailable root) (canonicalize root) in
    Ok {| shared_root := canonical_root |}.

(* crates/worker/src/path_authority.rs:63-89 PathAuthority::authorize_workspace_path *)
Definition authorize_workspace_path (a : PathAuthority) (workspace_path : Path)
    : result Path PathAuthorityError :=
  if negb (absolute workspace_path) then Err (RelativeWorkspacePath workspace_path)
  else
    let? canonical_path :=
      map_err (WorkspacePathUnavailable workspace_path) (canonicalize workspace_path) in
    if decide (starts_with canonical_path (shared_root a)) then Ok canonical_path
    else Err (OutsideSharedRoot canonical_path (shared_root a)).

(** The errors of the directory checks in execution.rs. *)
Inductive DirectoryError :=
| Authority (e : PathAuthorityError)
| WorkingDirectoryOutsideWorkspace.

(* crates/worker/src/execution.rs:1858-1874 authorize_working_directory *)
Definition authorize_working_directory (workspace_path : Path) (requested : string)
    (a : PathAuthority) : result Path DirectoryError :=
  let requested := path_of requested in
  let candidate := if absolute requested then requested else join workspace_path requested in
  let? canonical := map_err Authority (authorize_workspace_path a candidate) in
  if decide (starts_with canonical workspace_path) then Ok canonical
  else Err WorkingDirectoryOutsideWorkspace.

Lemma authorize_spec a p q :
  authorize_workspace_path a p = Ok q <->
  absolute p = true /\ canonicalize p = Ok q /\ starts_with q (shared_root a).
Proof.
  unfold authorize_workspace_path. destruct (absolute p); cbn; [|naive_solver].
  destruct (canonicalize p) as [c|e]; cbn; [case_decide|]; naive_solver.
Qed.

Lemma starts_with_trans p q r : starts_with p q -> starts_with q r -> starts_with p r.
Proof. intros [H1 H2] [H3 H4]. split; [congruence|by etrans]. Qed.

(** A worker only runs in directories it owns: a working directory is
    authorised exactly when the requested path, taken from the workspace if it is
    relative, resolves to it, and it then lies inside the workspace and inside the
    canonical shared root, whatever symbolic links or [..] the request had. *)
Theorem working_directory_confined a root workspace requested dir :
  new root = Ok a ->
  authorize_working_directory workspace requested a = Ok dir ->
  canonicalize root = Ok (shared_root a) /\
  canonicalize (if absolute (path_of requested) then path_of requested
                else join workspace (path_of requested)) = Ok dir /\
  starts_with dir workspace /\ starts_with dir (shared_root a).
Proof.
  unfold new, authorize_working_directory. intros Hn Hd.
  destruct (absolute root); [|done]. cbn in Hn.
  destruct (canonicalize root) as [r|]; [|done]. injection Hn as <-.
  apply rbind_ok in Hd as (c & Hc & Hd).
  destruct (authorize_workspace_path _ _) as [c'|] eqn:Ha; [|done]. injection Hc as ->.
  apply authorize_spec in Ha as (_ & Hcan & Hs). case_decide; [|done]. by injection Hd as ->.
Qed.

End Authority.
Arguments PathAuthorityError : clear implicits.
Arguments DirectoryError : clear implicits.

(** [/shared/ws/link] is a symbolic link out of the workspace. *)
Definition sample_fs (p : Path) : result Path unit :=
  if decide (p = path_of "/shared/ws/link") then Ok (path_of "/shared/other") else
  if decide (".." ∈ components p) then Err tt else Ok p.

Example link_is_refused :
  authorize_working_directory sample_fs (path_of "/shared/ws") "link"
    {| shared_root := path_of "/shared" |} = Err WorkingDirectoryOutsideWorkspace.
Proof. vm_compute. reflexivity. Qed.

Lemma working_directory_confined_witness :
  starts_with (path_of "/shared/ws/repo") (path_of "/shared").
Proof.
  edestruct (working_directory_confined sample_fs {| shared_root := path_of "/shared" |}
               (path_of "/shared") (path_of "/shared/ws") "./repo" (path_of "/shared/ws/repo"))
    as (_ & _ & _ & H); [vm_compute; reflexivity|vm_compute; reflexivity|exact H].
Defined.

End PathAuthority.
