(* ===== verification/MountHealth.v ===== *)
(** * Mount health of a worker

    [Module MountTable] is the reading of the kernel's mount table in
    crates/worker/src/mount_health.rs, with the second reading of the same fields in
    crates/node-metrics/src/parse.rs.  [Module MountCheck] is the health check itself: a
    [MountInspector] answers the questions about the host, and a check returns the
    questions it asked with its verdict, so that what it touched is part of the result.
    Within one check no question is asked twice unless it is the owner of the same path,
    so an answer is a function of the question.  The digest is SHA-256 in hexadecimal, a
    parameter. *)
From S2P Require Import Prelude Text Format ClusterProtocol WorkerNode Registry Admission.
From Stdlib Require Import Ascii.

Module MountTable.

(* crates/worker/src/mount_health.rs:11-17 MountIdentity *)
Record MountIdentity := {
  mount_point : string;
  export : string;
  filesystem_id : string;
  read_only : bool;
}.

Definition tab : ascii := "009"%char.
Definition tab_str : string := String tab "".
Definition newline_str : string := String newline "".

(* crates/worker/src/mount_health.rs:304-310 unescape_mount_field *)
Definition unescape_mount_field (value : string) : string :=
  replace "\134" "\" (replace "\012" newline_str (replace "\011" tab_str
    (replace "\040" " " value))).

(* crates/worker/src/mount_health.rs:287-300 parse_mountinfo *)
Definition parse_mountinfo_line (line : string) : option MountIdentity :=
  '(before, after) ← split_once_str " - " line;
  let fields := split_whitespace before in
  let trailing := split_whitespace after in
  match fields !! 2%nat, fields !! 4%nat, fields !! 5%nat, trailing !! 1%nat with
  | Some dev, Some point, Some options, Some source =>
      Some {| mount_point := unescape_mount_field point;
              export := unescape_mount_field source;
              filesystem_id := dev;
              read_only := bool_decide ("ro" ∈ split_char "," options) |}
  | _, _, _, _ => None
  end.

(* crates/worker/src/mount_health.rs:284-302 parse_mountinfo *)
Definition parse_mountinfo (contents : string) : list MountIdentity :=
  omap parse_mountinfo_line (lines contents).

(** [max_by_key] returns the last of the greatest. *)
Definition max_by_len (l : list MountIdentity) : option MountIdentity :=
  foldl (fun best e =>
           match best with
           | Some b => if decide (str_len (mount_point b) <= str_len (mount_point e))
                       then Some e else Some b
           | None => Some e
           end) None l.

(** The mount table's entry for a canonical path. *)
(* crates/worker/src/mount_health.rs:239-247 SystemMountInspector::mount_identity *)
Definition mount_identity (canonical contents : string) : option MountIdentity :=
  max_by_len (filter (fun e => PathAuthority.starts_with (PathAuthority.path_of canonical)
                                 (PathAuthority.path_of (mount_point e)))
                     (parse_mountinfo contents)).

(** [u8::from_str_radix(digits, 8)] *)
Fixpoint parse_octal (acc : Z) (s : string) : option Z :=
  match s with
  | EmptyString => Some acc
  | String c s =>
      match digit_value c with
      | Some d => if decide (d < 8 /\ acc * 8 + d <= 255) then parse_octal (acc * 8 + d) s else None
      | None => None
      end
  end.

Definition from_octal (s : string) : option Z :=
  match s with
  | EmptyString => None
  | String c s' => if decide (c = "+"%char)
                   then match s' with EmptyString => None | _ => parse_octal 0 s' end
                   else parse_octal 0 s
  end.

(** [byte as char], in UTF-8. *)
Definition latin1 (b : Z) : string :=
  if decide (b < 128) then String (ascii_of_N (Z.to_N b)) ""
  else String (ascii_of_N (Z.to_N (192 + b `div` 64)))
         (String (ascii_of_N (Z.to_N (128 + b `mod` 64))) "").

(* crates/node-metrics/src/parse.rs:431-455 unescape_mount_field *)
Fixpoint metrics_unescape (field : string) : string :=
  match field with
  | EmptyString => ""
  | String c rest =>
      if decide (c <> "\"%char) then String c (metrics_unescape rest)
      else
        match rest with
        | String d0 (String d1 (String d2 rest')) =>
            match from_octal (String d0 (String d1 (String d2 ""))) with
            | Some byte => latin1 byte +:+ metrics_unescape rest'
            | None => String c (metrics_unescape rest)
            end
        | _ => String c (metrics_unescape rest)
        end
  end.

(** ** What the kernel writes

    proc(5): space, tab, newline and backslash in a field are octal escapes. *)

Definition escape_char (c : ascii) : string :=
  if decide (c = " "%char) then "\040"
  else if decide (c = tab) then "\011"
  else if decide (c = newline) then "\012"
  else if decide (c = "\"%char) then "\134"
  else String c "".

Fixpoint emap (e : ascii -> string) (s : string) : string :=
  match s with EmptyString => "" | String c s => e c +:+ emap e s end.

Definition escape_field : string -> string := emap escape_char.

(** One [replace] turns the escape of one character into that character. *)
Definition decodes (p : string) (c : ascii) (e e' : ascii -> string) : Prop :=
  forall d, if decide (d = c) then e d = p /\ e' d = String c ""
            else e' d = e d /\
              (e d = String d "" /\ d <> "\"%char \/
               exists x y z, e d = String "\" (String x (String y (String z ""))) /\
                 e d <> p /\ x <> "\"%char /\ y <> "\"%char /\ z <> "\"%char).

Lemma strip_prefix_head a p b s : a <> b -> strip_prefix (String a p) (String b s) = None.
Proof. intros H. cbn. by rewrite decide_False. Qed.

Lemma strip_prefix_same_length p q s :
  String.length p = String.length q -> p <> q -> strip_prefix p (q +:+ s) = None.
Proof.
  intros Hl Hne. destruct (strip_prefix p (q +:+ s)) as [rest|] eqn:H; [|done].
  apply strip_prefix_Some in H. exfalso. apply Hne. clear Hne. revert q Hl H.
  induction p as [|a p IH]; intros [|b q] [=]; [done|].
  rewrite !sapp_cons. intros [= -> H']. f_equal. by apply IH.
Qed.

Lemma replace_decodes x y z c e e' s :
  decodes (String "\" (String x (String y (String z "")))) c e e' ->
  replace (String "\" (String x (String y (String z "")))) (String c "") (emap e s) = emap e' s.
Proof.
  set (p := String "\" (String x (String y (String z "")))). intros Hd.
  induction s as [|d s IH]; [done|]. cbn [emap]. specialize (Hd d).
  destruct (decide (d = c)) as [-> | Hdc].
  - destruct Hd as [-> ->]. by rewrite replace_match, IH.
  - destruct Hd as [-> [[-> Hb]|(x' & y' & z' & He & Hne & Hx & Hy & Hz)]].
    + rewrite !sapp_cons, !sapp_nil_l, replace_skip, IH; [done|].
      apply strip_prefix_head. congruence.
    + assert (strip_prefix p (e d +:+ emap e s) = None) as Hs
        by (apply strip_prefix_same_length; [by rewrite He|congruence]).
      rewrite He in Hs |- *. rewrite !sapp_cons, !sapp_nil_l in Hs |- *.
      rewrite replace_skip by done.
      rewrite !replace_skip by (apply strip_prefix_head; congruence). by rewrite IH.
Qed.

Definition char_str (c : ascii) : string := String c "".

Lemma emap_chars s : emap char_str s = s.
Proof. induction s as [|c s IH]; [done|]. cbn [emap]. by rewrite IH. Qed.

(** The escapes that are left after the first [n] replacements. *)
Definition stage (n : nat) (c : ascii) : string :=
  if decide (c = " "%char) then (if decide (1 <= n)%nat then " " else "\040")
  else if decide (c = tab) then (if decide (2 <= n)%nat then tab_str else "\011")
  else if decide (c = newline) then (if decide (3 <= n)%nat then newline_str else "\012")
  else if decide (c = "\"%char) then (if decide (4 <= n)%nat then "\" else "\134")
  else String c "".

Ltac stage_tac :=
  intros d; unfold stage; repeat case_decide; subst; try done; try lia;
  try (split; [done|]); try (by left); right; do 3 eexists; split_and!; try reflexivity; done.

Lemma unescape_escape s : unescape_mount_field (escape_field s) = s.
Proof.
  unfold unescape_mount_field, escape_field.
  rewrite (replace_decodes "0" "4" "0" " " (stage 0) (stage 1)) by stage_tac.
  rewrite (replace_decodes "0" "1" "1" tab (stage 1) (stage 2)) by stage_tac.
  rewrite (replace_decodes "0" "1" "2" newline (stage 2) (stage 3)) by stage_tac.
  rewrite (replace_decodes "1" "3" "4" "\" (stage 3) (stage 4)) by stage_tac.
  rewrite <- (emap_chars s) at 2. induction s as [|c s IH]; [done|].
  cbn [emap]. rewrite IH. f_equal. unfold stage, char_str. repeat case_decide; try lia; by subst.
Qed.

Lemma metrics_unescape_plain c s :
  c <> "\"%char -> metrics_unescape (String c s) = String c (metrics_unescape s).
Proof. intros H. cbn [metrics_unescape]. by rewrite decide_True. Qed.

Lemma metrics_unescape_octal d0 d1 d2 b s :
  from_octal (String d0 (String d1 (String d2 ""))) = Some b ->
  metrics_unescape (String "\" (String d0 (String d1 (String d2 s)))) =
    latin1 b +:+ metrics_unescape s.
Proof.
  intros H. cbn [metrics_unescape]. rewrite decide_False by (intros Hn; by apply Hn).
  by rewrite H.
Qed.

Lemma metrics_unescape_escape s : metrics_unescape (escape_field s) = s.
Proof.
  unfold escape_field. induction s as [|c s IH]; [done|]. cbn [emap].
  unfold escape_char at 1. repeat case_decide; subst; rewrite ?sapp_cons, ?sapp_nil_l.
  1: rewrite (metrics_unescape_octal _ _ _ 32) by reflexivity.
  2: rewrite (metrics_unescape_octal _ _ _ 9) by reflexivity.
  3: rewrite (metrics_unescape_octal _ _ _ 10) by reflexivity.
  4: rewrite (metrics_unescape_octal _ _ _ 92) by reflexivity.
  5: rewrite metrics_unescape_plain by done.
  all: by rewrite IH.
Qed.

(** The worker and the metrics agent read the same mount: both decoders, the
    worker's four replacements and the agent's scan, invert the kernel's escaping for
    every path, those with backslashes and digits that look like escapes included, so
    on everything the kernel writes they give the same answer. *)
Theorem mount_fields_roundtrip path :
  unescape_mount_field (escape_field path) = path /\
  metrics_unescape (escape_field path) = unescape_mount_field (escape_field path).
Proof. by rewrite unescape_escape, metrics_unescape_escape. Qed.

(** ** A line of the mount table *)

Lemma split_once_str_word w s :
  all_chars word_char w = true ->
  split_once_str " - " (w +:+ s) = (fun ab => (w +:+ ab.1, ab.2)) <$> split_once_str " - " s.
Proof.
  induction w as [|c w IH]; cbn [all_chars].
  { intros _. rewrite sapp_nil_l. by destruct (split_once_str " - " s) as [[]|]. }
  intros [Hc Hw]%andb_true_iff. rewrite sapp_cons. cbn [split_once_str].
  rewrite strip_prefix_head by (intros <-; done). rewrite IH by done.
  by destruct (split_once_str " - " s) as [[]|].
Qed.

Lemma split_once_str_space w s :
  word w -> w <> "-" -> strip_prefix " - " (String " " (w +:+ String " " s)) = None.
Proof.
  intros [Hne Hw] Hd. cbn. destruct w as [|c [|d w]]; [done| |]; rewrite ?sapp_cons.
  - cbn. destruct (decide ("-"%char = c)) as [<- |]; [by destruct Hd|done].
  - cbn. destruct (decide ("-"%char = c)); [|done].
    destruct (decide (" "%char = d)) as [<- |]; [|done]. exfalso.
    cbn [all_chars] in Hw. change (word_char " ") with false in Hw. cbn [andb] in Hw.
    by rewrite andb_false_r in Hw.
Qed.

Lemma split_once_str_join ws t :
  ws <> [] -> Forall (fun w => word w /\ w <> "-") ws ->
  split_once_str " - " (join " " ws +:+ " - " +:+ t) = Some (join " " ws, t).
Proof.
  intros Hne Hws. induction ws as [|w ws IH]; [done|].
  apply Forall_cons in Hws as [[[Hw1 Hw2] Hd] Hws]. rewrite join_cons, sapp_assoc.
  rewrite split_once_str_word by done. destruct ws as [|w' ws].
  - rewrite sapp_nil_l. by destruct t.
  - specialize (IH ltac:(done) Hws). rewrite sapp_cons.
    assert (forall s, strip_prefix " - " (String " " (join " " (w' :: ws) +:+ String " " s)) = None)
      as Hsp.
    { intros s. apply Forall_cons in Hws as [[Hw' Hd'] _]. rewrite join_cons, sapp_assoc.
      destruct ws; [by apply split_once_str_space|]. by apply split_once_str_space. }
    change (" - " +:+ t) with (String " " ("- " +:+ t)) in *.
    cbn [split_once_str]. rewrite Hsp. by rewrite IH.
Qed.

(** proc(5): identifier, parent, device, root, mount point, options, optional fields, a
    hyphen, type, source and options of the file system. *)
Record KernelMount := {
  mount_ids : string * string;
  device : string;
  root : string;
  point : string;
  options : list string;
  optional : list string;
  fs_type : string;
  source : string;
  super_options : string;
}.

Definition before_fields (k : KernelMount) : list string :=
  [(mount_ids k).1; (mount_ids k).2; device k; escape_field (root k); escape_field (point k);
   join "," (options k)] ++ optional k.

Definition kernel_line (k : KernelMount) : string :=
  join " " (before_fields k) +:+ " - " +:+
  join " " [fs_type k; escape_field (source k); super_options k].

(** The fields are words: none is empty, white space other than what the kernel escapes
    or a byte beyond ASCII appears in none, and no field before the hyphen is one. *)
Record printable (k : KernelMount) : Prop := {
  before_words : Forall (fun w => word w /\ w <> "-") (before_fields k);
  after_words : Forall word [fs_type k; escape_field (source k); super_options k];
  options_plain : options k <> [] /\ Forall (fun o => contains_char "," o = false) (options k);
}.

Lemma split_char_join c l :
  l <> [] -> Forall (fun o => contains_char c o = false) l ->
  split_char c (join (String c "") l) = l.
Proof.
  assert (forall s, contains_char c s = false -> split_char c s = [s]) as Hone.
  { induction s as [|d s IH]; cbn; [done|]. intros [Hd Hs]%orb_false_iff.
    apply bool_decide_eq_false in Hd. by rewrite decide_False, IH. }
  intros Hne H. induction l as [|x l IH]; [done|]. apply Forall_cons in H as [Hx Hl].
  destruct l as [|y l]; [by apply Hone|].
  change (join _ (x :: y :: l)) with (x +:+ String c (join (String c "") (y :: l))).
  specialize (IH ltac:(done) Hl). clear -Hx IH. induction x as [|d x IHx].
  - rewrite sapp_nil_l. cbn [split_char]. by rewrite decide_True, IH.
  - cbn in Hx. apply orb_false_iff in Hx as [Hd%bool_decide_eq_false Hx].
    rewrite sapp_cons. cbn [split_char]. by rewrite decide_False, IHx.
Qed.

(** A line of the mount table is read as what the kernel wrote: mount point, source,
    device and read-only flag come back, with whatever spaces and backslashes the paths
    contain and however many optional fields there are. *)
Theorem mountinfo_roundtrip k :
  printable k ->
  parse_mountinfo_line (kernel_line k) =
    Some {| mount_point := point k; export := source k; filesystem_id := device k;
            read_only := bool_decide ("ro" ∈ options k) |}.
Proof.
  intros [Hb Ha [Hne Ho]]. unfold parse_mountinfo_line, kernel_line.
  rewrite split_once_str_join by done. cbn [mbind option_bind].
  assert (Forall word (before_fields k)) as Hw by (eapply Forall_impl; [exact Hb|]; by intros w [? _]).
  rewrite !split_whitespace_join by done. cbn. rewrite !unescape_escape.
  by rewrite split_char_join.
Qed.

Definition sample_kernel_mount : KernelMount :=
  {| mount_ids := ("36", "25"); device := "0:42"; root := "/"; point := "/shared data";
     options := ["rw"; "relatime"]; optional := ["shared:1"]; fs_type := "nfs4";
     source := "server:/a\040b"; super_options := "rw" |}.

Example mountinfo_roundtrip_witness :
  kernel_line sample_kernel_mount =
    "36 25 0:42 / /shared\040data rw,relatime shared:1 - nfs4 server:/a\134040b rw"%string /\
  parse_mountinfo_line (kernel_line sample_kernel_mount) =
    Some {| mount_point := "/shared data"; export := "server:/a\040b"; filesystem_id := "0:42";
            read_only := false |}.
Proof.
  split; [by vm_compute|]. apply (mountinfo_roundtrip sample_kernel_mount). split.
  - repeat constructor; done.
  - repeat constructor; done.
  - split; [done|repeat constructor; done].
Defined.

End MountTable.

Module MountCheck.
Import MountTable PathAuthority.

(* crates/worker/src/mount_health.rs:19-23 Ownership *)
Record Ownership := { uid : Z; gid : Z }.
#[global] Instance Ownership_eq_dec : EqDecision Ownership.
Proof. solve_decision. Defined.

(** [io::Error]: whether its kind is [NotFound], and its text. *)
Record IoError := { not_found : bool; text : string }.

(* crates/worker/src/mount_health.rs:26-32 MountInspector *)
Class MountInspector := {
  metadata_ownership : Path -> result Ownership IoError;
  inspect_mount : Path -> result (option MountIdentity) IoError;
  inspect_filesystem : Path -> result string IoError;
  read : Path -> result string IoError;
  verify_writable : Path -> result unit IoError;
}.

(** The questions, in the order they are asked. *)
Inductive Question :=
| MetadataOwnership (p : Path)
| InspectMount (p : Path)
| InspectFilesystem (p : Path)
| Read (p : Path)
| VerifyWritable (p : Path).
#[global] Instance Question_eq_dec : EqDecision Question.
Proof. solve_decision. Defined.

(* crates/worker/src/mount_health.rs:35-39 MountHealthChecker *)
Record MountHealthChecker := {
  shared_root : Path;
  expected_export : string;
  expected_ownership : Ownership;
}.

(* crates/worker/src/mount_health.rs:42-56 MountHealthChecker::new *)
Definition new (shared_root : Path) (expected_export : string) (expected_uid expected_gid : Z)
    : MountHealthChecker :=
  {| shared_root := shared_root; expected_export := expected_export;
     expected_ownership := {| uid := expected_uid; gid := expected_gid |} |}.

(* crates/worker/src/mount_health.rs:186-189 Failure *)
Record Failure := { reason : MountFailureReason; message : string }.

(* crates/worker/src/mount_health.rs:192-197 Failure::new *)
Definition failure (reason : MountFailureReason) (message : string) : Failure :=
  {| reason := reason; message := message |}.

(* crates/worker/src/mount_health.rs:199-206 Failure::io *)
Definition io_failure (operation : string) (error : IoError) : Failure :=
  failure (if not_found error then MfMissing else MfIoError)
    ("failed to " +:+ operation +:+ ": " +:+ text error).

(** [{:?}] of a string: quoted, with the escapes of ASCII. *)
Definition hex_digit (n : Z) : ascii :=
  ascii_of_N (Z.to_N (if decide (n < 10) then 48 + n else 87 + n)).

Definition debug_char (c : ascii) : string :=
  let n := Z.of_N (N_of_ascii c) in
  if decide (n = 0) then "\0"
  else if decide (n = 9) then "\t"
  else if decide (n = 10) then "\n"
  else if decide (n = 13) then "\r"
  else if decide (n = 34 \/ n = 92) then String "\" (String c "")
  else if decide (n < 16) then "\u{" +:+ String (hex_digit n) "}"
  else if decide (n < 32 \/ n = 127)
  then "\u{" +:+ String (hex_digit (n `div` 16)) (String (hex_digit (n `mod` 16)) "}")
  else String c "".

Definition quote : string := String "034"%char "".
Definition debug (s : string) : string := quote +:+ emap debug_char s +:+ quote.

(** A check in progress: the questions so far, and the result. *)
Definition Checking (A : Type) : Type := list Question * result A Failure.

Definition bind_check {A B} (m : Checking A) (k : A -> Checking B) : Checking B :=
  match m with
  | (asked, Ok a) => let (more, r) := k a in (asked ++ more, r)
  | (asked, Err e) => (asked, Err e)
  end.

Notation "'ask!' x := m 'in' k" := (bind_check m (fun x => k))
  (at level 10, x pattern, m at level 100, k at level 200).

Definition ask {A} (q : Question) (r : result A IoError) (f : IoError -> Failure) : Checking A :=
  ([q], map_err f r).
Definition require (P : Prop) `{!Decision P} (f : Failure) : Checking unit :=
  ([], if decide P then Ok tt else Err f).

Definition owned_by (what : string) (actual expected : Ownership) : Failure :=
  failure MfOwnershipMismatch
    (what +:+ " is owned by " +:+ display (uid actual) +:+ ":" +:+ display (gid actual) +:+
     ", expected " +:+ display (uid expected) +:+ ":" +:+ display (gid expected)).

Section Check.
Context `{Insp : MountInspector}.
(** [format!("{:x}", Sha256::digest(&bytes))] *)
Context (sha256_hex : string -> string).

(** A relative path without a parent component. *)
Definition safe_relative (p : Path) : Prop := absolute p = false /\ ".." ∉ components p.
#[global] Instance safe_relative_dec p : Decision (safe_relative p).
Proof. apply _. Defined.

(* crates/worker/src/mount_health.rs:66-183 MountHealthChecker::try_check *)
Definition try_check (c : MountHealthChecker) (probe : MountProbe) : Checking MountHealth :=
  ask! ownership := ask (MetadataOwnership (shared_root c)) (metadata_ownership (shared_root c))
                      (io_failure "inspect shared root") in
  ask! _ := require (ownership = expected_ownership c)
              (owned_by "shared root" ownership (expected_ownership c)) in
  ask! found := ask (InspectMount (shared_root c)) (inspect_mount (shared_root c))
                  (io_failure "inspect mount table") in
  ask! mount := ([], ok_or found (failure MfLocalFallback
                  "shared root is not backed by a mounted filesystem")) in
  ask! _ := require (export mount = expected_export c)
              (failure MfLocalFallback
                 ("shared root export is " +:+ debug (export mount) +:+ ", expected " +:+
                  debug (expected_export c))) in
  ask! actual_filesystem := ask (InspectFilesystem (shared_root c))
                              (inspect_filesystem (shared_root c))
                              (io_failure "inspect filesystem identity") in
  ask! _ := require (actual_filesystem = filesystem_id mount)
              (failure MfWrongFilesystem
                 ("mount table filesystem " +:+ filesystem_id mount +:+
                  " does not match path filesystem " +:+ actual_filesystem)) in
  ask! _ := require (read_only mount = false)
              (failure MfReadOnly "shared root mount is read-only") in
  ask! _ := ask (VerifyWritable (shared_root c)) (verify_writable (shared_root c))
              (fun error => failure MfReadOnly ("shared root is not writable: " +:+ text error)) in
  let relative_probe := path_of (mp_relative_path probe) in
  ask! _ := require (safe_relative relative_probe)
              (failure MfProbeNotVisible
                 "coordinator probe path is not a safe relative path") in
  let probe_path := join (shared_root c) relative_probe in
  ask! bytes := ask (Read probe_path) (read probe_path)
                  (fun error => failure MfProbeNotVisible
                                  ("coordinator probe is not visible: " +:+ text error)) in
  let digest := sha256_hex bytes in
  ask! _ := require (digest = mp_expected_contents_digest probe)
              (failure MfProbeNotVisible
                 ("coordinator probe digest is " +:+ digest +:+ ", expected " +:+
                  mp_expected_contents_digest probe)) in
  ask! probe_ownership := ask (MetadataOwnership probe_path) (metadata_ownership probe_path)
                            (io_failure "inspect probe ownership") in
  ask! _ := require (probe_ownership = expected_ownership c)
              (owned_by "probe" probe_ownership (expected_ownership c)) in
  ([], Ok (MhHealthy (export mount) (mp_id probe))).

(* crates/worker/src/mount_health.rs:58-64 MountHealthChecker::check *)
Definition check (c : MountHealthChecker) (probe : MountProbe) : list Question * MountHealth :=
  match try_check c probe with
  | (asked, Ok health) => (asked, health)
  | (asked, Err f) => (asked, MhUnhealthy (reason f) (message f))
  end.

(** ** Calculating with checks *)

Lemma bind_check_ok {A B} (m : Checking A) (k : A -> Checking B) asked b :
  bind_check m k = (asked, Ok b) <->
  exists a asked1 asked2, m = (asked1, Ok a) /\ k a = (asked2, Ok b) /\ asked = asked1 ++ asked2.
Proof.
  unfold bind_check. destruct m as [asked1 [a|e]].
  - destruct (k a) as [asked2 r] eqn:Hk. split.
    + intros [= <- ->]. by exists a, asked1, asked2.
    + by intros (a' & l1 & l2 & [= <- <-] & Hk' & ->); rewrite Hk in Hk'; injection Hk' as <- ->.
  - split; [done|]. by intros (? & ? & ? & [=] & _).
Qed.

Lemma ask_ok {A} q (r : result A IoError) f asked a :
  ask q r f = (asked, Ok a) <-> asked = [q] /\ r = Ok a.
Proof. unfold ask. destruct r; split; naive_solver. Qed.

Lemma require_ok P `{!Decision P} f asked u : require P f = (asked, Ok u) <-> asked = [] /\ P.
Proof. unfold require. destruct u. case_decide; split; naive_solver. Qed.

(** Whatever is asked after a step was asked because the step succeeded. *)
Lemma bind_check_asked {A B} (m : Checking A) (k : A -> Checking B) q :
  q ∈ (bind_check m k).1 <->
  q ∈ m.1 \/ exists a, m.2 = Ok a /\ q ∈ (k a).1.
Proof.
  unfold bind_check. destruct m as [asked1 [a|e]]; cbn.
  - destruct (k a) as [asked2 r] eqn:Hk; cbn. rewrite elem_of_app. split.
    + intros [?|?]; [by left|right]. exists a. by rewrite Hk.
    + intros [?|(a' & [= <-] & H)]; [by left|right]. by rewrite Hk in H.
  - split; [by left|]. by intros [?|(? & [=] & _)].
Qed.

Lemma ask_result {A} q (r : result A IoError) f a : (ask q r f).2 = Ok a <-> r = Ok a.
Proof. unfold ask. cbn. apply map_err_ok. Qed.

Lemma require_result P `{!Decision P} f u : (require P f).2 = Ok u <-> P.
Proof. unfold require. destruct u. cbn. case_decide; split; naive_solver. Qed.

(** [H] says that a question was asked in a check: it was asked by the first step, or
    by a later one, of whose first step [K] then says that it succeeded. *)
Ltac asked_here H :=
  cbn in H; first [by apply not_elem_of_nil in H | by apply list_elem_of_singleton in H].
Ltac asked_next H K :=
  apply bind_check_asked in H as [H|(? & K & H)];
  [try asked_here H|
   first [apply ask_result in K | apply require_result in K | apply ok_or_ok in K]].

(** What a healthy verdict stands for. *)
Record healthy (c : MountHealthChecker) (probe : MountProbe) : Prop := {
  root_owned : metadata_ownership (shared_root c) = Ok (expected_ownership c);
  root_mounted : exists mount,
    inspect_mount (shared_root c) = Ok (Some mount) /\ export mount = expected_export c /\
    inspect_filesystem (shared_root c) = Ok (filesystem_id mount) /\ read_only mount = false;
  root_writable : verify_writable (shared_root c) = Ok tt;
  probe_safe : safe_relative (path_of (mp_relative_path probe));
  probe_read : exists bytes,
    read (join (shared_root c) (path_of (mp_relative_path probe))) = Ok bytes /\
    sha256_hex bytes = mp_expected_contents_digest probe;
  probe_owned : metadata_ownership (join (shared_root c) (path_of (mp_relative_path probe)))
                  = Ok (expected_ownership c);
}.

Lemma healthy_try_check c probe h :
  (exists asked, try_check c probe = (asked, Ok h)) <->
  healthy c probe /\ h = MhHealthy (expected_export c) (mp_id probe).
Proof.
  split.
  - intros [asked H]. unfold try_check in H.
    apply bind_check_ok in H as (own & ? & ? & [_ Ho]%ask_ok & H & _).
    apply bind_check_ok in H as ([] & ? & ? & [_ ->]%require_ok & H & _).
    apply bind_check_ok in H as (found & ? & ? & [_ Hf]%ask_ok & H & _).
    apply bind_check_ok in H as (mount & ? & ? & [= _ Hm%ok_or_ok] & H & _).
    apply bind_check_ok in H as ([] & ? & ? & [_ Hx]%require_ok & H & _).
    apply bind_check_ok in H as (fs & ? & ? & [_ Hfs]%ask_ok & H & _).
    apply bind_check_ok in H as ([] & ? & ? & [_ ->]%require_ok & H & _).
    apply bind_check_ok in H as ([] & ? & ? & [_ Hro]%require_ok & H & _).
    apply bind_check_ok in H as ([] & ? & ? & [_ Hw]%ask_ok & H & _).
    apply bind_check_ok in H as ([] & ? & ? & [_ Hsafe]%require_ok & H & _).
    apply bind_check_ok in H as (bytes & ? & ? & [_ Hb]%ask_ok & H & _).
    apply bind_check_ok in H as ([] & ? & ? & [_ Hd]%require_ok & H & _).
    apply bind_check_ok in H as (own & ? & ? & [_ Ho']%ask_ok & H & _).
    apply bind_check_ok in H as ([] & ? & ? & [_ ->]%require_ok & [= _ <-] & _).
    subst found. split; [|by rewrite Hx]. split; try done; eauto.
  - intros [[Ho (mount & Hm & Hx & Hfs & Hro) Hw Hs (bytes & Hb & Hd) Ho'] ->].
    unfold try_check. rewrite Ho, Hm, Hfs, Hw, Hb, Ho'. cbn [bind_check ask require map_err ok_or].
    unfold require. rewrite !decide_True by done. cbn. rewrite Hx. by eexists.
Qed.

Lemma check_verdict c probe fid pid :
  (check c probe).2 = MhHealthy fid pid <->
  healthy c probe /\ fid = expected_export c /\ pid = mp_id probe.
Proof.
  pose proof (healthy_try_check c probe) as Hh. unfold check.
  destruct (try_check c probe) as [asked [h|f]].
  - cbn. split.
    + intros ->. destruct (proj1 (Hh (MhHealthy fid pid))) as [H [= -> ->]]; [by eexists|done].
    + intros (H & -> & ->). destruct (proj2 (Hh _) (conj H eq_refl)) as [? [=]]. done.
  - cbn. split; [done|]. intros (H & -> & ->).
    by destruct (proj2 (Hh _) (conj H eq_refl)) as [? [=]].
Qed.

(** A worker reports its mount healthy exactly when all of this holds: the shared
    root has the expected owner, is the mount of the expected export on the file system
    the mount table names, is not read-only and can be written; and the coordinator's
    probe, at a path that cannot leave the root, has the expected digest and owner.  The
    report names the export and the probe. *)
Theorem check_healthy_iff c probe fid pid :
  (check c probe).2 = MhHealthy fid pid <->
  healthy c probe /\ fid = expected_export c /\ pid = mp_id probe.
Proof. apply check_verdict. Qed.

(** Joining a safe path stays below the base. *)
Lemma join_safe p q :
  absolute p = true -> safe_relative q ->
  absolute (join p q) = true /\
  exists below, components (join p q) = components p ++ below /\ ".." ∉ below.
Proof.
  intros Hp [Hq Hn]. unfold join. rewrite Hq, Hp. cbn. split; [done|]. eexists. split; [done|].
  destruct (components q) as [|x l] eqn:He; [done|].
  repeat case_match; subst; try done. set_solver.
Qed.

(** A check writes only to the right file system and reads only below the root:
    the test file is created after the mount was found to be the expected export, backed
    by the file system the path is on, and writable; and nothing outside the shared root
    is read, whatever probe the coordinator sends. *)
Theorem check_touches_only_the_share c probe :
  absolute (shared_root c) = true ->
  (forall p, VerifyWritable p ∈ (check c probe).1 ->
     p = shared_root c /\
     exists mount, inspect_mount (shared_root c) = Ok (Some mount) /\
       export mount = expected_export c /\
       inspect_filesystem (shared_root c) = Ok (filesystem_id mount) /\
       read_only mount = false) /\
  (forall p, Read p ∈ (check c probe).1 ->
     absolute p = true /\
     exists below, components p = components (shared_root c) ++ below /\ ".." ∉ below).
Proof.
  assert ((check c probe).1 = (try_check c probe).1) as ->
    by (unfold check; by destruct (try_check _ _) as [? []]).
  intros Habs. split; intros p H; unfold try_check in H;
    asked_next H Ho; asked_next H Hroot; asked_next H Hm; asked_next H Hm'; asked_next H Hx;
    asked_next H Hfs; asked_next H Hfs'; asked_next H Hro; asked_next H Hw.
  - apply list_elem_of_singleton in H as [= ->]. subst. by eauto 10.
  - asked_next H Hs; asked_next H Hr; asked_next H Hd; asked_next H Hp; asked_next H Hp';
      by asked_here H.
  - asked_next H Hs. asked_next H Hr.
    + apply list_elem_of_singleton in H as [= ->]. by apply join_safe.
    + asked_next H Hd; asked_next H Hp; asked_next H Hp'; by asked_here H.
Qed.

(** A worker gets work only with the share under it: the coordinator records the
    worker's own check as healthy exactly when the check established everything [healthy]
    says for the coordinator's own probe, and the export the worker is configured with is
    the file system the coordinator expects (both identifiers being of admissible
    length). *)
Theorem accepted_mount_is_shared c (challenge : Registry.MountChallenge) detail :
  Registry.validate_mount_evidence (check c (Registry.probe challenge)).2 challenge
    = Ok (WorkerNode.MsHealthy, detail) <->
  detail = None /\ healthy c (Registry.probe challenge) /\
  expected_export c = Registry.expected_filesystem_id challenge /\
  0 < str_len (mp_id (Registry.probe challenge)) <= Registry.MAX_MOUNT_ID_BYTES /\
  0 < str_len (Registry.expected_filesystem_id challenge) <= Registry.MAX_MOUNT_ID_BYTES.
Proof.
  rewrite validate_healthy. unfold healthy_evidence. rewrite check_verdict. naive_solver.
Qed.

End Check.

(** ** A host *)

Definition sample_mount : MountIdentity :=
  {| mount_point := "/shared"; export := "server:/shared"; filesystem_id := "0:42";
     read_only := false |}.

#[local] Instance sample_inspector : MountInspector := {|
  metadata_ownership _ := Ok {| uid := 1000; gid := 100 |};
  inspect_mount _ := Ok (Some sample_mount);
  inspect_filesystem _ := Ok "0:42";
  read p := if decide (p = path_of "/shared/.probes/probe-7") then Ok "challenge"
            else Err {| not_found := true; text := "no such file" |};
  verify_writable _ := Ok tt;
|}.

Definition sample_checker : MountHealthChecker := new (path_of "/shared") "server:/shared" 1000 100.
Definition sample_probe (path : string) : MountProbe :=
  {| mp_id := "probe-7"; mp_relative_path := path; mp_expected_contents_digest := "challenge" |}.

Example check_sample :
  (check (fun bytes => bytes) sample_checker (sample_probe ".probes/probe-7")).2
    = MhHealthy "server:/shared" "probe-7" /\
  (check (fun bytes => bytes) sample_checker (sample_probe "../etc/passwd")).2
    = MhUnhealthy MfProbeNotVisible "coordinator probe path is not a safe relative path" /\
  (check (fun bytes => bytes) (new (path_of "/shared") "other:/x" 1000 100)
     (sample_probe "p")).2
    = MhUnhealthy MfLocalFallback
        ("shared root export is " +:+ debug "server:/shared" +:+ ", expected " +:+ debug "other:/x").
Proof. split_and!; by vm_compute. Qed.

Example check_touches_only_the_share_witness :
  let p := path_of "/shared/.probes/probe-7" in
  Read p ∈ (check (fun bytes => bytes) sample_checker (sample_probe ".probes/probe-7")).1 /\
  absolute p = true /\ exists below, components p = ["shared"] ++ below /\ ".." ∉ below.
Proof.
  intros p. split; [vm_compute; set_solver|].
  apply (proj2 (check_touches_only_the_share (fun bytes => bytes) sample_checker
    (sample_probe ".probes/probe-7") eq_refl) p).
  vm_compute. set_solver.
Defined.

End MountCheck.
