(* ===== verification/JobCgroup.v ===== *)
(** * The cgroups of a worker's jobs

    crates/worker/src/job_cgroup.rs.  [Module CgroupLimits] parses limits, weights and
    names, and the kernel's text files; [Module JobCgroup] is the table of executions
    and the sweeper's placement of processes.  The files of cgroupfs and /proc are
    arguments: the process identifiers they list, the parent and group of a process and
    the outcome of each write; what the code writes is part of the result. *)
From S2P Require Import Prelude Text Format.
From Stdlib Require Import Ascii.

Module CgroupLimits.

(* crates/worker/src/job_cgroup.rs:60-65 MemoryLimit *)
Inductive MemoryLimit :=
| Unlimited
| Bytes (bytes : Z)
| PercentOfRam (percent : Z).

(** The text without its last character, and that character. *)
Fixpoint split_last (s : string) : option (string * ascii) :=
  match s with
  | EmptyString => None
  | String c s' =>
      match split_last s' with
      | None => Some ("", c)
      | Some (p, d) => Some (String c p, d)
      end
  end.

Definition strip_suffix_char (c : ascii) (s : string) : option string :=
  match split_last s with
  | Some (p, d) => if decide (d = c) then Some p else None
  | None => None
  end.

Definition checked_mul (max x y : Z) : option Z :=
  if decide (x * y <= max) then Some (x * y) else None.

Definition kib : Z := 1024.

(** The digits and the multiplier of the suffix. *)
Definition unit_suffix (value : string) : option (string * Z) :=
  '(p, c) ← split_last value;
  Some (if decide (c = "K"%char \/ c = "k"%char) then (p, kib)
        else if decide (c = "M"%char \/ c = "m"%char) then (p, kib * kib)
        else if decide (c = "G"%char \/ c = "g"%char) then (p, kib * kib * kib)
        else if decide (c = "T"%char \/ c = "t"%char) then (p, kib * kib * kib * kib)
        else (value, 1)).

(* crates/worker/src/job_cgroup.rs:68-94 MemoryLimit::parse *)
Definition parse (value : string) : option MemoryLimit :=
  let value := trim value in
  if decide (to_ascii_lowercase value = "max") then Some Unlimited
  else
    match strip_suffix_char "%" value with
    | Some percent =>
        p ← parse_uint 255 (trim percent);
        if decide (1 <= p <= 100) then Some (PercentOfRam p) else None
    | None =>
        '(digits, multiplier) ← unit_suffix value;
        bytes ← parse_uint u64_max digits;
        if decide (0 < bytes) then Bytes <$> checked_mul u64_max bytes multiplier else None
    end.

(* crates/worker/src/job_cgroup.rs:97-105 MemoryLimit::resolve *)
Definition resolve (limit : MemoryLimit) (mem_total_bytes : Z) : string :=
  match limit with
  | Unlimited => "max"
  | Bytes bytes => display bytes
  | PercentOfRam percent => display ((mem_total_bytes * percent) `div` 100)
  end.

(* crates/worker/src/job_cgroup.rs:125-131 JobCgroupConfig::parse_weight *)
Definition parse_weight (value : string) : option Z :=
  weight ← parse_uint u16_max (trim value);
  if decide (1 <= weight <= 10000) then Some weight else None.

Definition name_char (c : ascii) : bool :=
  let n := N_of_ascii c in
  ((48 <=? n)%N && (n <=? 57)%N) || ((65 <=? n)%N && (n <=? 90)%N) ||
  ((97 <=? n)%N && (n <=? 122)%N) || bool_decide (c = "-"%char) || bool_decide (c = "_"%char).

(* crates/worker/src/job_cgroup.rs:135-142 JobCgroupConfig::valid_name *)
Definition valid_name (name : string) : bool :=
  negb (bool_decide (name = "")) && negb (starts_with "." name) &&
  negb (starts_with "cgroup." name) && all_chars name_char name.

(** [s.rfind(c)] and what follows. *)
Fixpoint after_last (c : ascii) (s : string) : option string :=
  match s with
  | EmptyString => None
  | String d s' =>
      match after_last c s' with
      | Some rest => Some rest
      | None => if decide (d = c) then Some s' else None
      end
  end.

(* crates/worker/src/job_cgroup.rs:196-202 parse_parent_and_group *)
Definition parse_parent_and_group (stat : string) : option (Z * Z) :=
  rest ← after_last ")" stat;
  match split_whitespace rest with
  | _state :: ppid :: pgid :: _ =>
      ppid ← parse_uint u32_max ppid; pgid ← parse_uint u32_max pgid; Some (ppid, pgid)
  | _ => None
  end.

(* crates/worker/src/job_cgroup.rs:484-490 parse_proc_self_cgroup *)
Definition parse_proc_self_cgroup (contents : string) : option string :=
  path ← trim <$> head (omap (strip_prefix "0::") (lines contents));
  if starts_with "/" path then Some path else None.

(** [s.strip_suffix(p)] *)
Fixpoint strip_suffix (p s : string) : option string :=
  if decide (s = p) then Some ""
  else match s with
       | EmptyString => None
       | String c s' => String c <$> strip_suffix p s'
       end.

(* crates/worker/src/job_cgroup.rs:500-505 parse_mem_total_bytes *)
Definition parse_mem_total_bytes (meminfo : string) : option Z :=
  head (omap (fun line =>
    rest ← strip_prefix "MemTotal:" line;
    kib_text ← strip_suffix "kB" (trim rest);
    n ← parse_uint u64_max (trim kib_text);
    checked_mul u64_max n 1024) (lines meminfo)).

Example parse_sample :
  map parse [" 6G "; "80%"; "max"; "MAX"; "0"; "101%"; "17179869184G"; "1024"]
    = [Some (Bytes 6442450944); Some (PercentOfRam 80); Some Unlimited; Some Unlimited; None;
       None; None; Some (Bytes 1024)].
Proof. by vm_compute. Qed.

(** ** Bounds *)

(** The limits the worker accepts. *)
Definition admissible (limit : MemoryLimit) : Prop :=
  match limit with
  | Unlimited => True
  | Bytes bytes => 0 < bytes <= u64_max
  | PercentOfRam percent => 1 <= percent <= 100
  end.

Lemma parse_admissible value limit : parse value = Some limit -> admissible limit.
Proof.
  unfold parse. case_decide; [by intros [= <-]|].
  destruct (strip_suffix_char _ _) as [percent|].
  - intros (p & _ & Hp)%bind_Some. case_decide as Hd; [|done]. by injection Hp as <-.
  - intros ([digits m] & Hu & (bytes & Hb & Hx)%bind_Some)%bind_Some.
    case_decide; [|done]. apply fmap_Some in Hx as (n & Hn & ->).
    unfold checked_mul in Hn. case_decide; [|done]. injection Hn as <-.
    assert (0 < m); [|cbn; nia].
    unfold unit_suffix in Hu. apply bind_Some in Hu as ([p c] & _ & Hu).
    repeat case_decide; injection Hu as <- <-; unfold kib; lia.
Qed.

(** Memory limits stay in bounds: whatever the configuration says, an accepted limit
    is positive and fits 64 bits, or is between one and a hundred percent, and what is
    written for it never exceeds the host's memory when given in percent; a limit in
    bytes, written out, reads back as itself. *)
Theorem limits_in_bounds value limit mem_total :
  parse value = Some limit -> 0 <= mem_total <= u64_max ->
  match limit with
  | Unlimited => resolve limit mem_total = "max"
  | Bytes bytes => 0 < bytes <= u64_max /\ parse_uint u64_max (resolve limit mem_total) = Some bytes
  | PercentOfRam percent =>
      exists written, resolve limit mem_total = display written /\ 0 <= written <= mem_total /\
        written * 100 <= mem_total * percent < (written + 1) * 100
  end.
Proof.
  intros Hp%parse_admissible Hm. destruct limit as [|bytes|percent]; cbn in *; [done| |].
  - split; [done|]. apply parse_uint_display. lia.
  - exists ((mem_total * percent) `div` 100).
    pose proof (Z.div_mod (mem_total * percent) 100 ltac:(lia)).
    pose proof (Z.mod_pos_bound (mem_total * percent) 100 ltac:(lia)).
    assert (0 <= mem_total * percent <= mem_total * 100) by nia. split_and!; try done; lia.
Qed.

Example limits_in_bounds_witness :
  parse "80%" = Some (PercentOfRam 80) /\
  exists written, resolve (PercentOfRam 80) 1001 = display written /\ 0 <= written <= 1001 /\
    written * 100 <= 1001 * 80 < (written + 1) * 100.
Proof.
  split; [by vm_compute|].
  apply (limits_in_bounds "80%" (PercentOfRam 80) 1001); [by vm_compute|by vm_compute].
Defined.

(** ** The kernel's line about a process *)

Lemma after_last_app c s t : contains_char c t = false -> after_last c (s +:+ String c t) = Some t.
Proof.
  intros Ht. assert (forall u, contains_char c u = false -> after_last c u = None) as Hn.
  { induction u as [|d u IH]; cbn; [done|]. intros [Hd Hu]%orb_false_iff.
    apply bool_decide_eq_false in Hd. by rewrite IH, decide_False. }
  induction s as [|d s IH].
  - rewrite sapp_nil_l. cbn. by rewrite Hn, decide_True.
  - rewrite sapp_cons. cbn. by rewrite IH.
Qed.

Lemma contains_char_join c ws :
  c <> " "%char -> Forall (fun w => contains_char c w = false) ws ->
  contains_char c (join " " ws) = false.
Proof.
  intros Hc. induction ws as [|w ws IH]; intros H; [done|].
  apply Forall_cons in H as [Hw Hws]. rewrite join_cons, contains_char_app, Hw.
  destruct ws; [done|]. cbn [orb contains_char]. rewrite IH by done.
  by rewrite bool_decide_false.
Qed.

Lemma display_word n : 0 <= n -> word (display n).
Proof.
  intros Hn. split.
  - intros H. pose proof (parse_uint_display n n ltac:(lia)) as Hp. by rewrite H in Hp.
  - assert (forall c, word_char c = false -> contains_char c (display n) = false) as Hc.
    { intros c Hc. apply contains_char_display.
      - unfold digit_value. case_decide as Hd; [|done]. exfalso. unfold word_char in Hc.
        apply andb_false_iff in Hc as [Hc%N.leb_gt|Hc%N.ltb_ge]; lia.
      - by intros ->. }
    revert Hc. generalize (display n). induction s as [|c s IH]; intros Hc; [done|]. cbn.
    apply andb_true_iff. split.
    + destruct (word_char c) eqn:Hw; [done|]. specialize (Hc c Hw). cbn in Hc.
      by rewrite bool_decide_true in Hc.
    + apply IH. intros d Hd. specialize (Hc d Hd). cbn in Hc. by apply orb_false_iff in Hc as [_ Hc].
Qed.

(** proc(5): [pid (comm) state ppid pgrp ...]; the fields after the name are words
    without a closing parenthesis. *)
Definition stat_line (pid : Z) (comm state : string) (ppid pgid : Z) (rest : list string) : string :=
  display pid +:+ " (" +:+ comm +:+ String ")"
    (String " " (join " " (state :: display ppid :: display pgid :: rest))).

(** The parent and group of a process are read correctly whatever its name: the name
    may contain spaces, parentheses and what looks like the fields that follow it. *)
Theorem stat_line_roundtrip pid comm state ppid pgid rest :
  0 <= ppid <= u32_max -> 0 <= pgid <= u32_max ->
  Forall (fun w => word w /\ contains_char ")" w = false) (state :: rest) ->
  parse_parent_and_group (stat_line pid comm state ppid pgid rest) = Some (ppid, pgid).
Proof.
  intros Hp Hg [[Hs Hs'] Hr]%Forall_cons. unfold parse_parent_and_group, stat_line.
  assert (forall x y, display pid +:+ " (" +:+ comm +:+ String x y
    = (display pid +:+ " (" +:+ comm) +:+ String x y) as -> by (intros; by rewrite !sapp_assoc).
  rewrite after_last_app; cbn [mbind option_bind].
  - rewrite split_whitespace_leading, split_whitespace_join.
    + rewrite !parse_uint_display by done. done.
    + rewrite !Forall_cons. split_and!; try apply Hs; try (apply display_word; lia).
      eapply Forall_impl; [exact Hr|]. by intros w [? _].
  - cbn [contains_char]. rewrite bool_decide_false by done. cbn [orb].
    apply contains_char_join; [done|]. rewrite !Forall_cons. split_and!; try done;
      try (by apply contains_char_display). eapply Forall_impl; [exact Hr|]. by intros w [_ ?].
Qed.

Example stat_line_roundtrip_witness :
  stat_line 41 "a) S 1 2 (b" "S" 7 41 ["41"; "0"] = "41 (a) S 1 2 (b) S 7 41 41 0"%string /\
  parse_parent_and_group (stat_line 41 "a) S 1 2 (b" "S" 7 41 ["41"; "0"]) = Some (7, 41).
Proof.
  split; [by vm_compute|].
  apply (stat_line_roundtrip 41 "a) S 1 2 (b" "S" 7 41 ["41"; "0"]).
  - by vm_compute.
  - by vm_compute.
  - repeat constructor; done.
Defined.

End CgroupLimits.

Module JobCgroup.

Section JobCgroup.
Context {IoError : Type}.

(* crates/worker/src/job_cgroup.rs:174-179 Executions *)
Record Executions := {
  leaders : gmap Uuid Z;
  released : gset Uuid;
}.

(** The directory, [memory.high] and [memory.max] come first; a failure there leaves the
    execution unregistered. *)
(* crates/worker/src/job_cgroup.rs:354-366 JobCgroup::register_execution *)
Definition register_execution (e : Executions) (id : Uuid) (leader_pid : Z)
    (create_dir write_high write_max : result unit IoError) (move_pid : result bool IoError)
    : Executions * result unit IoError :=
  match (let? _ := create_dir in let? _ := write_high in write_max) with
  | Err error => (e, Err error)
  | Ok _ =>
      let e := {| leaders := <[id := leader_pid]> (leaders e);
                  released := released e ∖ {[id]} |} in
      (e, let? _ := move_pid in Ok tt)
  end.

(* crates/worker/src/job_cgroup.rs:370-375 JobCgroup::release_execution *)
Definition release_execution (e : Executions) (id : Uuid) : Executions :=
  match leaders e !! id with
  | Some _ => {| leaders := delete id (leaders e); released := {[id]} ∪ released e |}
  | None => e
  end.

(** What one execution's cgroup answers: whether it lists no process, and the result of
    removing its directory, [NotFound] counting as removed. *)
(* crates/worker/src/job_cgroup.rs:435-451 JobCgroup::remove_released *)
Definition remove_released (e : Executions) (snapshot : list Uuid)
    (empty removed : Uuid -> bool) : Executions :=
  {| leaders := leaders e;
     released := foldl (fun released id =>
                          if empty id && removed id then released ∖ {[id]} else released)
                       (released e) snapshot |}.

(** ** Placement *)

(* crates/worker/src/job_cgroup.rs:56-56 MAX_ANCESTRY_HOPS *)
Definition MAX_ANCESTRY_HOPS : nat := 32.

Section Place.
(** [(ppid, pgid)] of a process. *)
Context (table : Z -> option (Z * Z)).

(* crates/worker/src/job_cgroup.rs:405-423 JobCgroup::place_executions *)
Fixpoint find_owner (by_leader members : gmap Z Uuid) (hops : nat) (current : Z) : option Uuid :=
  match hops with
  | O => None
  | S hops =>
      match by_leader !! current with
      | Some id => Some id
      | None =>
          match members !! current with
          | Some id => Some id
          | None =>
              match table current with
              | None => None
              | Some (ppid, pgid) =>
                  match by_leader !! pgid with
                  | Some id => Some id
                  | None => if decide (ppid <= 1) then None
                            else find_owner by_leader members hops ppid
                  end
              end
          end
      end
  end.

Context (move_pid : Uuid -> Z -> result bool IoError).

(** The moves it tries, and how many succeeded or the error that stopped it. *)
(* crates/worker/src/job_cgroup.rs:403-431 JobCgroup::place_executions *)
Fixpoint place_shared (by_leader members : gmap Z Uuid) (pids : list Z)
    : list (Z * Uuid) * result nat IoError :=
  match pids with
  | [] => ([], Ok 0%nat)
  | pid :: pids =>
      match find_owner by_leader members MAX_ANCESTRY_HOPS pid with
      | None => place_shared by_leader members pids
      | Some id =>
          match move_pid id pid with
          | Err e => ([(pid, id)], Err e)
          | Ok moved =>
              let members := if moved then <[pid := id]> members else members in
              let (tried, r) := place_shared by_leader members pids in
              ((pid, id) :: tried,
               let? n := r in Ok (if moved then S n else n))
          end
      end
  end.

(** [pids_of] reads an execution's cgroup. *)
(* crates/worker/src/job_cgroup.rs:397-402 JobCgroup::place_executions *)
Fixpoint read_members (pids_of : Uuid -> result (list Z) IoError) (members : gmap Z Uuid)
    (ids : list Uuid) : result (gmap Z Uuid) IoError :=
  match ids with
  | [] => Ok members
  | id :: ids =>
      let? pids := pids_of id in
      read_members pids_of (foldl (fun m pid => <[pid := id]> m) members pids) ids
  end.

(** The leaders in the order the map is iterated in. *)
(* crates/worker/src/job_cgroup.rs:391-432 JobCgroup::place_executions *)
Definition place_executions (leaders : list (Uuid * Z))
    (pids_of : Uuid -> result (list Z) IoError) (shared : result (list Z) IoError)
    : list (Z * Uuid) * result nat IoError :=
  match leaders with
  | [] => ([], Ok 0%nat)
  | _ =>
      let by_leader := foldl (fun m l => <[l.2 := l.1]> m) (∅ : gmap Z Uuid) leaders in
      match read_members pids_of ∅ leaders.*1 with
      | Err e => ([], Err e)
      | Ok members =>
          match shared with
          | Err e => ([], Err e)
          | Ok pids => place_shared by_leader members pids
          end
      end
  end.

(** ** To whom a process belongs

    It is the leader of the execution or already in its cgroup, or its group's leader
    is, or its parent belongs to the execution; [n] counts the parents. *)
Inductive belongs (by_leader members : gmap Z Uuid) : nat -> Z -> Uuid -> Prop :=
| Leads pid id : by_leader !! pid = Some id -> belongs by_leader members 0 pid id
| Member pid id : members !! pid = Some id -> belongs by_leader members 0 pid id
| InGroup pid id ppid pgid :
    table pid = Some (ppid, pgid) -> by_leader !! pgid = Some id ->
    belongs by_leader members 0 pid id
| Child n pid id ppid pgid :
    table pid = Some (ppid, pgid) -> 1 < ppid -> belongs by_leader members n ppid id ->
    belongs by_leader members (S n) pid id.

Lemma find_owner_belongs by_leader members hops : forall pid id,
  find_owner by_leader members hops pid = Some id ->
  exists n, belongs by_leader members n pid id.
Proof.
  induction hops as [|hops IH]; intros pid id; cbn; [done|].
  destruct (by_leader !! pid) eqn:Hl; [intros [= ->]; exists 0%nat; by apply Leads|].
  destruct (members !! pid) eqn:Hm; [intros [= ->]; exists 0%nat; by apply Member|].
  destruct (table pid) as [[ppid pgid]|] eqn:Ht; [|done].
  destruct (by_leader !! pgid) eqn:Hg; [intros [= ->]; exists 0%nat; by eapply InGroup|].
  case_decide; [done|]. intros [n Hn]%IH. exists (S n). eapply Child; [done|lia|done].
Qed.

Lemma belongs_found by_leader members n pid id :
  belongs by_leader members n pid id ->
  forall hops, (n < hops)%nat -> is_Some (find_owner by_leader members hops pid).
Proof.
  induction 1 as [pid id H|pid id H|pid id ppid pgid Ht Hg|n pid id ppid pgid Ht Hp _ IH];
    intros [|hops] Hh; try lia; cbn.
  - by rewrite H.
  - rewrite H. by destruct (by_leader !! pid).
  - destruct (by_leader !! pid); [done|]. destruct (members !! pid); [done|].
    by rewrite Ht, Hg.
  - destruct (by_leader !! pid); [done|]. destruct (members !! pid); [done|].
    rewrite Ht. destruct (by_leader !! pgid); [done|]. rewrite decide_False by lia.
    apply IH. lia.
Qed.

(** Adding processes that belong there already changes no ownership. *)
Lemma belongs_trans by_leader members members' n pid id :
  (forall p i, members' !! p = Some i -> exists k, belongs by_leader members k p i) ->
  belongs by_leader members' n pid id -> exists k, belongs by_leader members k pid id.
Proof.
  intros Hm. induction 1 as [pid id H|pid id H|pid id ppid pgid Ht Hg|n pid id ppid pgid Ht Hp _ IH].
  - exists 0%nat. by apply Leads.
  - by apply Hm.
  - exists 0%nat. by eapply InGroup.
  - destruct IH as [k Hk]. exists (S k). by eapply Child.
Qed.

Lemma belongs_mono by_leader members members' n pid id :
  (forall p i, members !! p = Some i -> is_Some (members' !! p)) ->
  belongs by_leader members n pid id -> exists i k, (k <= n)%nat /\ belongs by_leader members' k pid i.
Proof.
  intros Hm. induction 1 as [pid id H|pid id H|pid id ppid pgid Ht Hg|n pid id ppid pgid Ht Hp _ IH].
  - exists id, 0%nat. split; [lia|]. by apply Leads.
  - destruct (Hm _ _ H) as [i Hi]. exists i, 0%nat. split; [lia|]. by apply Member.
  - exists id, 0%nat. split; [lia|]. by eapply InGroup.
  - destruct IH as (i & k & Hk & Hb). exists i, (S k). split; [lia|]. by eapply Child.
Qed.

Lemma place_shared_sound by_leader members0 pids : forall members pid id,
  (forall p i, members !! p = Some i -> exists k, belongs by_leader members0 k p i) ->
  (pid, id) ∈ (place_shared by_leader members pids).1 ->
  pid ∈ pids /\ exists n, belongs by_leader members0 n pid id.
Proof.
  induction pids as [|p pids IH]; intros members pid id Hm; cbn [place_shared]; [set_solver|].
  destruct (find_owner _ _ _ p) as [owner|] eqn:Ho.
  2:{ intros [??]%IH; [|done]. split; [by right|done]. }
  apply find_owner_belongs in Ho as [n Ho]. apply (belongs_trans _ _ _ _ _ _ Hm) in Ho.
  destruct (move_pid owner p) as [moved|e]; cbn [fst].
  2:{ intros [= -> ->]%list_elem_of_singleton. split; [by left|done]. }
  destruct (place_shared by_leader (if moved then _ else _) pids) as [tried r] eqn:Hp. cbn [fst].
  intros [[= -> ->]|Hin]%elem_of_cons; [by split; [left|]|].
  destruct (IH (if moved then <[p := owner]> members else members) pid id) as [H1 H2];
    [|by rewrite Hp|by split; [right|]].
  intros p' i. destruct moved; [|apply Hm]. rewrite lookup_insert. case_decide; [|apply Hm].
  intros [= <-]. by subst.
Qed.

Lemma place_shared_complete by_leader members0 pids : forall members n pid id count,
  (forall p i, members0 !! p = Some i -> is_Some (members !! p)) ->
  (place_shared by_leader members pids).2 = Ok count ->
  pid ∈ pids -> (n < MAX_ANCESTRY_HOPS)%nat -> belongs by_leader members0 n pid id ->
  exists owner, (pid, owner) ∈ (place_shared by_leader members pids).1.
Proof.
  induction pids as [|p pids IH]; intros members n pid id count Hm; cbn [place_shared];
    [set_solver|]. intros Hr Hin Hn Hb.
  destruct (belongs_mono _ _ _ _ _ _ Hm Hb) as (i & k & Hk & Hb').
  destruct (find_owner _ _ _ p) as [owner|] eqn:Ho.
  2:{ apply elem_of_cons in Hin as [-> | Hin]; [|by eapply IH].
      destruct (belongs_found _ _ _ _ _ Hb' MAX_ANCESTRY_HOPS) as [? Hs]; [lia|congruence]. }
  destruct (move_pid owner p) as [moved|e]; [|done].
  destruct (place_shared by_leader (if moved then _ else _) pids) as [tried r] eqn:Hp.
  cbn [fst snd] in *. apply elem_of_cons in Hin as [-> | Hin]; [exists owner; by left|].
  apply rbind_ok in Hr as (c & -> & _).
  destruct (IH (if moved then <[p := owner]> members else members) n pid id c) as [o Ho'].
  - intros p' i' Hi. destruct moved; [|by eapply Hm]. rewrite lookup_insert.
    case_decide; [done|by eapply Hm].
  - by rewrite Hp.
  - done.
  - done.
  - done.
  - exists o. rewrite Hp in Ho'. by right.
Qed.

(** Placement puts every process with its own execution: the sweeper only moves
    processes of the shared cgroup, each into the cgroup of an execution it belongs to
    by leadership, group or descent; and unless a read or a move fails, it moves every
    process whose link to an execution is within 32 parents, those that left their
    process group included. *)
Theorem placement_sound_and_complete (leaders : list (Uuid * Z)) pids_of shared members pids :
  leaders <> [] -> read_members pids_of ∅ leaders.*1 = Ok members -> shared = Ok pids ->
  let by_leader := foldl (fun m l => <[l.2 := l.1]> m) (∅ : gmap Z Uuid) leaders in
  let (tried, r) := place_executions leaders pids_of shared in
  (forall pid id, (pid, id) ∈ tried -> pid ∈ pids /\ exists n, belongs by_leader members n pid id) /\
  (is_ok r = true -> forall pid id n, pid ∈ pids -> (n < MAX_ANCESTRY_HOPS)%nat ->
     belongs by_leader members n pid id -> exists owner, (pid, owner) ∈ tried).
Proof.
  intros Hl Hm -> by_leader. unfold place_executions. destruct leaders as [|l ls]; [done|].
  rewrite Hm. fold by_leader. destruct (place_shared by_leader members pids) as [tried r] eqn:Hp.
  split.
  - intros pid id Hin. apply (place_shared_sound by_leader members pids members); [|by rewrite Hp].
    intros p i Hi. exists 0%nat. by apply Member.
  - intros Hr pid id n Hin Hn Hb. destruct r as [count|]; [|done].
    destruct (place_shared_complete by_leader members pids members n pid id count) as [o Ho];
      try done; rewrite Hp in *; [done|by exists o].
Qed.

End Place.

(** ** The sweep *)

(* crates/worker/src/job_cgroup.rs:460-474 JobCgroup::sweep *)
Fixpoint sweep_pids (self_pid : Z) (move_pid : Z -> result bool IoError) (pids : list Z)
    (moved : nat) (first_error : option IoError) : list Z * nat * option IoError :=
  match pids with
  | [] => ([], moved, first_error)
  | pid :: pids =>
      if decide (pid = self_pid) then sweep_pids self_pid move_pid pids moved first_error
      else
        let '(tried, moved, first_error) :=
          match move_pid pid with
          | Ok true => sweep_pids self_pid move_pid pids (S moved) first_error
          | Ok false => sweep_pids self_pid move_pid pids moved first_error
          | Err e => sweep_pids self_pid move_pid pids moved
                       (match first_error with None => Some e | some => some end)
          end in
        (pid :: tried, moved, first_error)
  end.

(** The processes it tried to move to the shared cgroup, and its result. *)
(* crates/worker/src/job_cgroup.rs:456-479 JobCgroup::sweep *)
Definition sweep (self_pid : Z) (move_pid : Z -> result bool IoError)
    (procs : result (list Z) IoError) : list Z * result nat IoError :=
  match procs with
  | Err e => ([], Err e)
  | Ok pids =>
      let '(tried, moved, first_error) := sweep_pids self_pid move_pid pids 0 None in
      (tried, match first_error with Some e => Err e | None => Ok moved end)
  end.

(** The errors of the moves, in order. *)
Definition move_errors (move_pid : Z -> result bool IoError) (pids : list Z) : list IoError :=
  omap (fun pid => match move_pid pid with Err e => Some e | Ok _ => None end) pids.

#[local] Instance moved_dec (r : result bool IoError) : Decision (r = Ok true).
Proof. destruct r as [[]|]; [by left|by right|by right]. Defined.

Definition moved_count (move_pid : Z -> result bool IoError) (pids : list Z) : nat :=
  length (filter (fun pid => move_pid pid = Ok true) pids).

Lemma sweep_pids_spec self_pid move_pid pids : forall moved first_error,
  let others := filter (fun pid => pid <> self_pid) pids in
  sweep_pids self_pid move_pid pids moved first_error =
    (others, (moved + moved_count move_pid others)%nat,
     match first_error with Some e => Some e | None => head (move_errors move_pid others) end).
Proof.
  unfold moved_count, move_errors.
  induction pids as [|pid pids IH]; intros moved first_error; cbn [sweep_pids].
  { rewrite filter_nil. cbn. rewrite Nat.add_0_r. by destruct first_error. }
  case_decide as Hp.
  - rewrite filter_cons_False by (by intros []). apply IH.
  - rewrite filter_cons_True by done. rewrite filter_cons. cbn [omap list_omap].
    case_decide as Hm.
    + rewrite Hm, IH. cbn. by rewrite Nat.add_succ_r.
    + destruct (move_pid pid) as [[]|e]; [done| |]; rewrite IH; [done|]. by destruct first_error.
Qed.

(** The sweep spares only the worker: it tries to move every process of the worker's
    cgroup but the worker itself, also after a move has failed; it reports the first
    error if there was one, and otherwise how many it moved. *)
Theorem sweep_tries_all self_pid move_pid pids :
  let others := filter (fun pid => pid <> self_pid) pids in
  sweep self_pid move_pid (Ok pids) =
    (others, match head (move_errors move_pid others) with
             | Some e => Err e
             | None => Ok (moved_count move_pid others)
             end).
Proof. unfold sweep. by rewrite sweep_pids_spec. Qed.

(** ** What /health reports *)

(* crates/worker/src/job_cgroup.rs:148-161 JobCgroupStatus *)
Inductive JobCgroupStatus :=
| Disabled
| Isolated
| Failed (error : IoError).

Record Sweeper := { failing : bool; status : JobCgroupStatus }.

(* crates/worker/src/job_cgroup.rs:660-672 spawn_sweeper *)
Definition sweeper_turn (s : Sweeper) (r : result nat IoError) : Sweeper :=
  match r with
  | Ok _ => if failing s then {| failing := false; status := Isolated |} else s
  | Err error => if failing s then s else {| failing := true; status := Failed error |}
  end.

(* crates/worker/src/job_cgroup.rs:657-659 spawn_sweeper *)
Definition sweeper_start : Sweeper := {| failing := false; status := Isolated |}.

(** The first error since the last sweep that succeeded. *)
Fixpoint standing_error (since : option IoError) (rs : list (result nat IoError))
    : option IoError :=
  match rs with
  | [] => since
  | Ok _ :: rs => standing_error None rs
  | Err e :: rs => standing_error (match since with None => Some e | some => some end) rs
  end.

Lemma sweeper_spec rs : forall since,
  foldl sweeper_turn {| failing := bool_decide (is_Some since);
                        status := match since with Some e => Failed e | None => Isolated end |} rs
  = {| failing := bool_decide (is_Some (standing_error since rs));
       status := match standing_error since rs with Some e => Failed e | None => Isolated end |}.
Proof.
  induction rs as [|[n|e] rs IH]; intros since; cbn [foldl standing_error]; [done| |].
  - rewrite <- (IH None). f_equal. by destruct since.
  - rewrite <- IH. f_equal. by destruct since.
Qed.

(** The worker never claims an isolation it does not enforce: after any number of
    sweeps [/health] reports isolation exactly when the last sweep succeeded (or none has
    run), and otherwise the error that began the current run of failures. *)
Theorem health_is_truthful rs :
  status (foldl sweeper_turn sweeper_start rs) =
    match standing_error None rs with Some e => Failed e | None => Isolated end /\
  (standing_error None rs = None <-> last rs = None \/ exists n, last rs = Some (Ok n)).
Proof.
  split.
  { change sweeper_start with {| failing := bool_decide (is_Some (None : option IoError));
      status := match (None : option IoError) with Some e => Failed e | None => Isolated end |}.
    by rewrite sweeper_spec. }
  induction rs as [|r rs _] using rev_ind; [split; [by left|done]|].
  assert (forall since, standing_error since (rs ++ [r]) =
    match r with Ok _ => None
    | Err e => Some (default e (standing_error since rs)) end) as ->.
  { induction rs as [|[n|e] rs IH]; intros since; cbn.
    - destruct r, since; done.
    - apply IH.
    - apply IH. }
  rewrite last_snoc. destruct r; split; try done; [by eauto|]. by intros [[=]|[? [=]]].
Qed.

(** ** The table *)

Definition disjoint (e : Executions) : Prop := dom (leaders e) ## released e.

(** No operation leaves an execution both registered and waiting for removal. *)
Lemma executions_disjoint e :
  disjoint e ->
  (forall id pid d h m v, disjoint (register_execution e id pid d h m v).1) /\
  (forall id, disjoint (release_execution e id)) /\
  (forall snapshot empty removed, disjoint (remove_released e snapshot empty removed)).
Proof.
  unfold disjoint. intros He. split_and!.
  - intros. unfold register_execution. destruct (rbind _ _); cbn; [|done]. set_solver.
  - intros id. unfold release_execution. destruct (leaders e !! id); cbn; [|done]. set_solver.
  - intros snapshot empty removed. cbn.
    apply (foldl_invariant (fun r : gset Uuid => dom (leaders e) ## r)); [|done].
    intros r id _ Hr. destruct (_ && _); set_solver.
Qed.

End JobCgroup.

(** A leader, a child of it that left its group, and a stranger. *)
Definition sample_table (pid : Z) : option (Z * Z) :=
  if decide (pid = 20) then Some (10, 20) else if decide (pid = 30) then Some (1, 30) else None.

Example placement_sound_and_complete_witness :
  let '(tried, r) := place_executions (IoError := unit) sample_table (fun _ _ => Ok true)
    [(7%N, 10)] (fun _ => Ok []) (Ok [10; 20; 30]) in
  tried = [(10, 7%N); (20, 7%N)] /\ exists owner, (20, owner) ∈ tried.
Proof.
  pose proof (placement_sound_and_complete (IoError := unit) sample_table (fun _ _ => Ok true)
    [(7%N, 10)] (fun _ => Ok []) (Ok [10; 20; 30]) ∅ [10; 20; 30]
    ltac:(done) eq_refl eq_refl) as [_ H].
  split; [by vm_compute|].
  apply (H eq_refl 20 7%N 1%nat); [set_solver|unfold MAX_ANCESTRY_HOPS; lia|].
  apply (Child _ _ _ 0 20 7%N 10 20); [reflexivity|lia|].
  apply Leads. by vm_compute.
Defined.

End JobCgroup.
