(* ===== verification/Interaction.v ===== *)
(** * Interactions a job waits on (crates/worker/src/interaction.rs)

    The broker hands each response to the one waiter of its interaction.  A
    oneshot channel is the fact that a waiter is pending, and what was sent into
    it is recorded in [sent]. *)
From S2P Require Import Prelude ClusterProtocol.

Module Interaction.

Section Interaction.
Context {Answer : Type}.

(* crates/utils/src/approvals.rs:59-71 ApprovalOutcome *)
Inductive ApprovalOutcome :=
| Approved
| Denied (reason : option string)
| Answered (answers : list Answer)
| TimedOut.

(** [ApprovalStatus] and [QuestionStatus], as the service returns them. *)
Inductive ApprovalStatus := ApApproved | ApDenied (reason : option string) | ApTimedOut.
Inductive QuestionStatus := QsAnswered (answers : list Answer) | QsTimedOut.

Inductive ExecutorApprovalError :=
| SessionNotRegistered | ServiceUnavailable | Cancelled | RequestFailed (message : string).

(* crates/worker/src/interaction.rs:14-18 InteractionBroker *)
Record InteractionBroker := {
  pending : gset Uuid;
  completed : gmap Uuid ApprovalOutcome;
  sent : list (Uuid * ApprovalOutcome);
}.

Definition default : InteractionBroker := {| pending := ∅; completed := ∅; sent := [] |}.

(* crates/worker/src/interaction.rs:21-25 InteractionBroker::register *)
Definition register (b : InteractionBroker) (i : Uuid) : InteractionBroker :=
  {| pending := {[ i ]} ∪ pending b; completed := completed b; sent := sent b |}.

(* crates/worker/src/interaction.rs:27-40 InteractionBroker::respond *)
Definition respond (b : InteractionBroker) (i : Uuid) (outcome : ApprovalOutcome)
    : InteractionBroker * bool :=
  if decide (is_Some (completed b !! i)) then (b, true)
  else if decide (i ∈ pending b) then
    ({| pending := pending b ∖ {[ i ]}; completed := <[i := outcome]> (completed b);
        sent := sent b ++ [(i, outcome)] |}, true)
  else (b, false).

(** [create]: the waiter is registered before the request is published. *)
(* crates/worker/src/interaction.rs:58-79 WorkerApprovalService::create *)
Definition create (b : InteractionBroker) (fresh : Uuid) (kind prompt : string)
    (expires_at : DateTime) (policy : DisconnectPolicy)
    : InteractionBroker * ExecutionEventPayload :=
  (register b fresh,
   PInteractionRequested
     {| ir_interaction_id := fresh; ir_kind := kind; ir_prompt := prompt;
        ir_expires_at := Some expires_at; ir_disconnect_policy := policy |}).

(** The end of a wait, from the outcome received. *)
(* crates/worker/src/interaction.rs:122-135 WorkerApprovalService::wait_tool_approval *)
Definition tool_status (received : result ApprovalOutcome ExecutorApprovalError)
    : result ApprovalStatus ExecutorApprovalError :=
  let? outcome := received in
  match outcome with
  | Approved => Ok ApApproved
  | Denied reason => Ok (ApDenied reason)
  | TimedOut => Ok ApTimedOut
  | Answered _ => Err (RequestFailed "question answer returned for tool approval")
  end.

(* crates/worker/src/interaction.rs:137-149 WorkerApprovalService::wait_question_answer *)
Definition question_status (received : result ApprovalOutcome ExecutorApprovalError)
    : result QuestionStatus ExecutorApprovalError :=
  let? outcome := received in
  match outcome with
  | Answered answers => Ok (QsAnswered answers)
  | TimedOut => Ok QsTimedOut
  | _ => Err (RequestFailed "tool decision returned for question")
  end.

(** ** At most one answer *)

Inductive op := Register (i : Uuid) | Respond (i : Uuid) (outcome : ApprovalOutcome).

Definition run_op (b : InteractionBroker) (o : op) : InteractionBroker :=
  match o with
  | Register i => register b i
  | Respond i outcome => (respond b i outcome).1
  end.

Definition run (ops : list op) : InteractionBroker := foldl run_op default ops.

Lemma run_inv ops :
  let b := run ops in
  NoDup (sent b).*1 /\ forall i outcome, (i, outcome) ∈ sent b <-> completed b !! i = Some outcome.
Proof.
  unfold run. apply (foldl_invariant (fun b => NoDup (sent b).*1 /\
    forall i outcome, (i, outcome) ∈ sent b <-> completed b !! i = Some outcome)).
  - intros b [i|i outcome] _ [Hn Hs]; [by split|]. cbn. unfold respond.
    case_decide as Hc; [by split|]. case_decide as Hp; [|by split]. cbn.
    assert (forall o, (i, o) ∉ sent b) as Hfresh by (intros o Ho%Hs; apply Hc; eauto).
    split.
    + rewrite fmap_app. apply NoDup_app. split_and!; [done| |apply NoDup_singleton].
      intros j Hj Hj2. cbn in Hj2. apply list_elem_of_singleton in Hj2.
      apply list_elem_of_fmap in Hj as ([k o] & Hk & Ho). cbn in Hk. subst. by apply (Hfresh o).
    + intros j o. rewrite elem_of_app, list_elem_of_singleton, Hs.
      destruct (decide (j = i)) as [->|Hne].
      * rewrite lookup_insert_eq. split; [|naive_solver].
        intros [Ho|[= ->]]; [|done]. by destruct Hc; eauto.
      * rewrite lookup_insert_ne by done. naive_solver.
  - split; [constructor|]. intros i o. cbn. split; [intros H; set_solver|]. by rewrite lookup_empty.
Qed.

(** The first response wins: over any sequence of registrations and responses
    a waiter is sent at most one outcome, and a response that is acknowledged is
    either the outcome its waiter gets or a repeat that leaves the earlier outcome
    standing. *)
Theorem first_response_wins ops i outcome :
  let b := run ops in
  let (b', acknowledged) := respond b i outcome in
  NoDup (sent b').*1 /\
  (acknowledged = true <-> is_Some (completed b !! i) \/ i ∈ pending b) /\
  (acknowledged = true -> exists o, (i, o) ∈ sent b' /\
     o = match completed b !! i with Some earlier => earlier | None => outcome end) /\
  (acknowledged = false -> b' = b).
Proof.
  cbn. destruct (run_inv ops) as [Hn Hs]. cbn in Hn, Hs.
  destruct (run_inv (ops ++ [Respond i outcome])) as [Hn' _]. unfold run in Hn'.
  rewrite foldl_snoc in Hn'. cbn in Hn'. fold (run ops) in Hn'.
  unfold respond in *. case_decide as Hc.
  - split_and!; [done|tauto| |done]. intros _. destruct Hc as [o Ho]. rewrite Ho.
    exists o. split; [by apply Hs|done].
  - case_decide as Hp; cbn in *.
    + split_and!; [done|tauto| |done]. intros _. exists outcome. split; [set_solver|].
      destruct (completed (run ops) !! i); [by destruct Hc; eauto|done].
    + split_and!; [done| |done|done]. split; [done|]. intros [?|?]; done.
Qed.

End Interaction.
Arguments ApprovalOutcome : clear implicits.
Arguments InteractionBroker : clear implicits.

End Interaction.
