(* ===== verification/WorkerJob.v ===== *)
(** * One job of a worker (crates/worker/src/execution.rs, [WorkerJob])

    The job's fields are one record; each lock-protected section of the code is a
    function on it.  [persist] writes the job's summary through [save], which may
    fail and is then only logged.  [run_job] is the functions it calls between its
    waits: the hand-over of a spawned child, a turn of its loop, and the three
    ways to finish; the startup reaper is its turn.  What the operating system
    answers (exit status, spawn result) is an argument. *)
From S2P Require Import Prelude ClusterProtocol Journal Interaction.

Module WorkerJob.

(** [std::process::ExitStatus] *)
Record ExitStatus := { code : option Z; signal : option Z }.
Definition success (s : ExitStatus) : bool := bool_decide (code s = Some 0).

(** A spawned process group, with the leader's pid while it is not reaped. *)
Record Child := { leader : option Z }.

Inductive ExecutorExitResult := Success | Failure.

Section Job.
Context {Answer Prepared Handle Store StoreError : Type}.
Context (save : Store -> JobSummary -> result Store StoreError)
        (json_object : string -> string -> string).

(* crates/worker/src/execution.rs:136-158 WorkerJob *)
Record WorkerJob := {
  execution_id : Uuid;
  worker_job_id : Uuid;
  workspace_id : Uuid;
  request_digest : string;
  state : JobState;
  journal : Journal.EventJournal;
  child : option Child;
  acknowledged_sequence : Z;
  interactions : Interaction.InteractionBroker Answer;
  mcp_config : option Prepared;
  mcp_refresh : option Handle;
  quiesced_by : option Uuid;
  output_seen : bool;
  leader_pid : Z;
}.

Definition with_state (s : JobState) (j : WorkerJob) : WorkerJob :=
  {| execution_id := execution_id j; worker_job_id := worker_job_id j;
     workspace_id := workspace_id j; request_digest := request_digest j; state := s;
     journal := journal j; child := child j;
     acknowledged_sequence := acknowledged_sequence j; interactions := interactions j;
     mcp_config := mcp_config j; mcp_refresh := mcp_refresh j;
     quiesced_by := quiesced_by j; output_seen := output_seen j;
     leader_pid := leader_pid j |}.

Definition with_journal (l : Journal.EventJournal) (j : WorkerJob) : WorkerJob :=
  {| execution_id := execution_id j; worker_job_id := worker_job_id j;
     workspace_id := workspace_id j; request_digest := request_digest j; state := state j;
     journal := l; child := child j;
     acknowledged_sequence := acknowledged_sequence j; interactions := interactions j;
     mcp_config := mcp_config j; mcp_refresh := mcp_refresh j;
     quiesced_by := quiesced_by j; output_seen := output_seen j;
     leader_pid := leader_pid j |}.

Definition with_child (c : option Child) (pid : Z) (j : WorkerJob) : WorkerJob :=
  {| execution_id := execution_id j; worker_job_id := worker_job_id j;
     workspace_id := workspace_id j; request_digest := request_digest j; state := state j;
     journal := journal j; child := c;
     acknowledged_sequence := acknowledged_sequence j; interactions := interactions j;
     mcp_config := mcp_config j; mcp_refresh := mcp_refresh j;
     quiesced_by := quiesced_by j; output_seen := output_seen j; leader_pid := pid |}.

Definition with_acknowledged (a : Z) (j : WorkerJob) : WorkerJob :=
  {| execution_id := execution_id j; worker_job_id := worker_job_id j;
     workspace_id := workspace_id j; request_digest := request_digest j; state := state j;
     journal := journal j; child := child j;
     acknowledged_sequence := a; interactions := interactions j;
     mcp_config := mcp_config j; mcp_refresh := mcp_refresh j;
     quiesced_by := quiesced_by j; output_seen := output_seen j;
     leader_pid := leader_pid j |}.

Definition with_interactions (b : Interaction.InteractionBroker Answer) (j : WorkerJob)
    : WorkerJob :=
  {| execution_id := execution_id j; worker_job_id := worker_job_id j;
     workspace_id := workspace_id j; request_digest := request_digest j; state := state j;
     journal := journal j; child := child j;
     acknowledged_sequence := acknowledged_sequence j; interactions := b;
     mcp_config := mcp_config j; mcp_refresh := mcp_refresh j;
     quiesced_by := quiesced_by j; output_seen := output_seen j;
     leader_pid := leader_pid j |}.

Definition with_mcp (c : option Prepared) (h : option Handle) (j : WorkerJob) : WorkerJob :=
  {| execution_id := execution_id j; worker_job_id := worker_job_id j;
     workspace_id := workspace_id j; request_digest := request_digest j; state := state j;
     journal := journal j; child := child j;
     acknowledged_sequence := acknowledged_sequence j; interactions := interactions j;
     mcp_config := c; mcp_refresh := h;
     quiesced_by := quiesced_by j; output_seen := output_seen j;
     leader_pid := leader_pid j |}.

Definition with_quiesced (q : option Uuid) (j : WorkerJob) : WorkerJob :=
  {| execution_id := execution_id j; worker_job_id := worker_job_id j;
     workspace_id := workspace_id j; request_digest := request_digest j; state := state j;
     journal := journal j; child := child j;
     acknowledged_sequence := acknowledged_sequence j; interactions := interactions j;
     mcp_config := mcp_config j; mcp_refresh := mcp_refresh j;
     quiesced_by := q; output_seen := output_seen j; leader_pid := leader_pid j |}.

Definition with_output_seen (j : WorkerJob) : WorkerJob :=
  {| execution_id := execution_id j; worker_job_id := worker_job_id j;
     workspace_id := workspace_id j; request_digest := request_digest j; state := state j;
     journal := journal j; child := child j;
     acknowledged_sequence := acknowledged_sequence j; interactions := interactions j;
     mcp_config := mcp_config j; mcp_refresh := mcp_refresh j;
     quiesced_by := quiesced_by j; output_seen := true; leader_pid := leader_pid j |}.

(** A job as [dispatch] and the recovery build it. *)
(* crates/worker/src/execution.rs:648-666 ExecutionSupervisor::dispatch *)
Definition fresh_job (execution worker_job workspace : Uuid) (digest : string)
    (s : JobState) (l : Journal.EventJournal) : WorkerJob :=
  {| execution_id := execution; worker_job_id := worker_job; workspace_id := workspace;
     request_digest := digest; state := s; journal := l; child := None;
     acknowledged_sequence := 0; interactions := Interaction.default; mcp_config := None;
     mcp_refresh := None; quiesced_by := None; output_seen := false; leader_pid := 0 |}.

(* crates/worker/src/execution.rs:1189-1203 WorkerJob::is_active_for_drain *)
Definition is_active_for_drain (exited : Child -> bool) (j : WorkerJob) : bool :=
  if negb (JobState_is_terminal (state j)) then true
  else match child j with
       | Some child => negb (exited child)
       | None => false
       end.

(* crates/worker/src/execution.rs:1205-1213 WorkerJob::accepted *)
Definition accepted (j : WorkerJob) : DispatchAccepted :=
  {| da_execution_id := execution_id j; da_worker_job_id := worker_job_id j;
     da_request_digest := request_digest j; da_state := state j;
     da_last_sequence := Journal.last_sequence (journal j) |}.

(* crates/worker/src/execution.rs:1215-1226 WorkerJob::summary *)
Definition summary (j : WorkerJob) : JobSummary :=
  {| js_execution_id := execution_id j; js_worker_job_id := worker_job_id j;
     js_workspace_id := workspace_id j; js_request_digest := request_digest j;
     js_state := state j; js_last_sequence := Journal.last_sequence (journal j);
     js_terminal := Journal.terminal (journal j) |}.

(* crates/worker/src/execution.rs:1228-1234 WorkerJob::persist *)
Definition persist (store : option Store) (j : WorkerJob) : option Store :=
  match store with
  | Some st => match save st (summary j) with
               | Ok st' => Some st'
               | Err _ => Some st
               end
  | None => None
  end.

(* crates/worker/src/execution.rs:1252-1263 WorkerJob::transition *)
Definition transition (store : option Store) (j : WorkerJob) (s : JobState)
    (payload : ExecutionEventPayload) (now : DateTime) : option Store * WorkerJob :=
  let (l, appended) := Journal.append (journal j) now payload in
  if is_ok appended
  then let j := with_state s (with_journal l j) in (persist store j, j)
  else (store, with_journal l j).

(* crates/worker/src/execution.rs:1284-1286 WorkerJob::emit *)
Definition emit (j : WorkerJob) (payload : ExecutionEventPayload) (now : DateTime)
    : WorkerJob :=
  with_journal (Journal.append (journal j) now payload).1 j.

(** A chunk read from the child, already in base64. *)
(* crates/worker/src/execution.rs:1708-1732 stream_output *)
Definition stream_output (j : WorkerJob) (data_base64 : string) (stderr : bool)
    (now : DateTime) : WorkerJob :=
  emit (with_output_seen j)
    (if stderr then PStderr data_base64 else PStdout data_base64) now.

(* crates/worker/src/execution.rs:1816-1827 terminal_evidence *)
Definition terminal_evidence (s : TerminalState) (exit_code signal : option Z)
    (now : DateTime) : TerminalEvidence :=
  {| te_state := s; te_exit_code := exit_code; te_signal := signal; te_observed_at := now |}.

(** The state and event that report a terminal state; only [Completed] and
    [Killed] have their own here, everything else is a failure. *)
(* crates/worker/src/execution.rs:1749-1756 finish_status *)
Definition report (s : TerminalState) (e : TerminalEvidence)
    : JobState * ExecutionEventPayload :=
  match s with
  | TsCompleted => (JCompleted, PCompleted e)
  | TsKilled => (JKilled, PKilled e)
  | _ => (JFailed, PFailed e)
  end.

Definition finish (store : option Store) (j : WorkerJob) (s : TerminalState)
    (exit_code signal : option Z) (now : DateTime) : option Store * WorkerJob :=
  let (s, payload) := report s (terminal_evidence s exit_code signal now) in
  let (store, j) := transition store j s payload now in
  (store, with_mcp None None j).

(* crates/worker/src/execution.rs:1738-1760 finish_status *)
Definition finish_status (store : option Store) (j : WorkerJob) (status : ExitStatus)
    (now : DateTime) : option Store * WorkerJob :=
  let terminal_state :=
    if decide (state j = JCancelling) then TsKilled
    else if success status then TsCompleted else TsFailed in
  finish store j terminal_state (code status) (signal status) now.

(* crates/worker/src/execution.rs:1785-1794 executor_terminal_state *)
Definition executor_terminal_state (current : JobState) (r : ExecutorExitResult)
    : TerminalState :=
  if decide (current = JCancelling) then TsKilled
  else match r with Success => TsCompleted | Failure => TsFailed end.

(* crates/worker/src/execution.rs:1762-1783 finish_executor_result *)
Definition finish_executor_result (store : option Store) (j : WorkerJob)
    (r : ExecutorExitResult) (now : DateTime) : option Store * WorkerJob :=
  let terminal_state := executor_terminal_state (state j) r in
  let exit_code := match terminal_state with
                   | TsCompleted => Some 0
                   | TsFailed => Some 1
                   | _ => None
                   end in
  finish store j terminal_state exit_code None now.

(* crates/worker/src/execution.rs:1796-1814 finish_failed *)
Definition finish_failed (store : option Store) (j : WorkerJob) (exit_code : option Z)
    (reason : string) (now : DateTime) : option Store * WorkerJob :=
  let j := emit j (PStructured (json_object "worker_error" reason)) now in
  let evidence := terminal_evidence TsFailed exit_code None now in
  let (store, j) := transition store j JFailed (PFailed evidence) now in
  (store, with_mcp None None j).

(** The spawned child arrives under the cancellation lock: a job that ended
    meanwhile kills it instead ([false]). *)
(* crates/worker/src/execution.rs:1374-1392 run_job *)
Definition hand_over (store : option Store) (j : WorkerJob) (pid : option Z)
    : option Store * WorkerJob * bool :=
  if JobState_is_terminal (state j) then (store, j, false)
  else
    let j := with_state JRunning
               (with_child (Some {| leader := pid |}) (default 0 pid) j) in
    (persist store j, j, true).

(** What the executor's completion channel shows. *)
Inductive signal_poll := SignalReceived (r : ExecutorExitResult) | SignalClosed | SignalEmpty.

(** One turn of the loop of [run_job]; [true] when it is over. *)
(* crates/worker/src/execution.rs:1417-1474 run_job *)
Definition run_turn (store : option Store) (j : WorkerJob) (exit_signal : option signal_poll)
    (try_wait : result (option ExitStatus) string) (deadline_passed : bool) (now : DateTime)
    : option Store * WorkerJob * bool :=
  match exit_signal with
  | Some (SignalReceived r) => (finish_executor_result store j r now, true)
  | Some SignalClosed =>
      (if decide (state j = JCancelling)
       then finish_executor_result store j Success now
       else finish_failed store j None
              "executor completion channel closed without terminal evidence" now, true)
  | _ =>
      match try_wait with
      | Err error => (finish_failed store j None ("failed to observe process: " +:+ error) now, true)
      | Ok (Some status) => (finish_status store j status now, true)
      | Ok None =>
          if deadline_passed
          then (finish_failed store j None "execution timeout elapsed" now, true)
          else (store, j, false)
      end
  end.

Inductive reaping := Watching | Gone | Reaped.

(** One window of the startup reaper, under the cancellation lock. *)
(* crates/worker/src/execution.rs:1506-1550 reap_if_silent *)
Definition reap_turn (store : option Store) (j : WorkerJob) (spawn_reported : bool)
    (diagnostic stall_reason : string) (now : DateTime)
    : option Store * WorkerJob * bool * reaping :=
  if JobState_is_terminal (state j) || output_seen j
  then (store, j, spawn_reported, Gone)
  else match child j with
       | None =>
           if spawn_reported then (store, j, true, Watching)
           else (store, emit j (PStructured (json_object "worker_error" diagnostic)) now,
                 true, Watching)
       | Some _ =>
           match quiesced_by j with
           | Some _ => (store, j, spawn_reported, Watching)
           | None =>
               let (store, j) := finish_failed store j None stall_reason now in
               (store, j, spawn_reported, Reaped)
           end
       end.

End Job.
Arguments WorkerJob : clear implicits.

End WorkerJob.
