(* ===== verification/Worker.v ===== *)
(** * The worker's execution supervisor (crates/worker/src/execution.rs)

    [Module Worker] is the table of jobs with the operations of
    [ExecutionSupervisor]; each takes the table lock once, so it is a function on
    the table.  Reading the action and the executor profile from JSON, resolving a
    coding agent and writing MCP configuration to disk are arguments, as are the
    file system and [kill]. *)
From S2P Require Import Prelude Text Json ClusterProtocol Journal Interaction WorkerJob.
From S2P Require Import Admission.
Import PathAuthority.

Module Worker.

(* crates/worker/src/execution.rs:49-49 DEFAULT_JOURNAL_CAPACITY *)
Definition DEFAULT_JOURNAL_CAPACITY : Z := 4096.

(** [ExecutorConfig], with the fields the worker reads. *)
Record ExecutorConfig := { executor : string; variant : option string }.

Record AgentRequest := { config : ExecutorConfig; working_dir : option string; rest : string }.

Inductive ExecutorActionType :=
| CodingAgentInitialRequest (r : AgentRequest)
| CodingAgentFollowUpRequest (r : AgentRequest)
| ReviewRequest (r : AgentRequest)
| ScriptRequest (script : string).

(* crates/worker/src/execution.rs:61-64 WorkerAction *)
Inductive WorkerAction :=
| Command (program : string) (args : list string)
| Executor (typ : ExecutorActionType).

(* crates/worker/src/execution.rs:66-76 executor_config_for_action *)
Definition executor_config_for_action (a : WorkerAction) : option ExecutorConfig :=
  match a with
  | Command _ _ => None
  | Executor typ =>
      match typ with
      | CodingAgentInitialRequest r | CodingAgentFollowUpRequest r | ReviewRequest r =>
          Some (config r)
      | ScriptRequest _ => None
      end
  end.

(** What probing a worktree's linkage found, with its description. *)
Inductive LinkageStatus := Portable | OwnRepository | OtherLinkage (description : string).

Section Supervisor.
Context {Value Answer Profile Agent Prepared Handle Store StoreError IoError : Type}.
Context (save : Store -> JobSummary -> result Store StoreError)
        (canonicalize : Path -> result Path IoError)
        (repo_names : Path -> result (list string) string)
        (probe : Path -> Path -> LinkageStatus)
        (parse_action : Value -> result WorkerAction string)
        (parse_profile : Value -> result Profile string).

Abbreviation WorkerJob := (WorkerJob.WorkerJob Answer Prepared Handle).
Abbreviation Snapshot := (McpConfigSnapshot Value).

(* crates/worker/src/execution.rs:78-110 ExecutionError *)
Inductive ExecutionError :=
| DigestConflict (execution_id : Uuid)
| InvalidAction (error : string)
| EmptyProgram
| InvalidMcpSnapshot (executor : string)
| McpMaterialization (executor : string)
| CodexConfig (execution_id : Uuid) (stage : string)
| McpReload
| Directory (e : DirectoryError IoError)
| JournalFailure (e : Journal.JournalError)
| NotFound (execution_id : Uuid)
| Draining
| UnderPressure (r : Pressure.PressureRefusal)
| WorktreeUnusable (detail : string)
| Recovery (e : StoreError).

Context (resolve_coding_agent : option Profile -> ExecutorConfig -> option Agent)
        (is_codex : Agent -> bool)
        (default_mcp_config_path : Agent -> option Path)
        (prepare_codex_config :
           Uuid -> Agent -> Path -> Path -> option Snapshot -> result Prepared ExecutionError)
        (prepared_agent : Prepared -> Agent)
        (with_agent : option Profile -> string -> Agent -> Profile)
        (prepare_mcp_snapshot :
           Uuid -> WorkerAction -> option Profile -> Snapshot -> result Prepared ExecutionError).

(** What [tokio::spawn(run_job(..))] is given. *)
Record Launch := {
  l_execution_id : Uuid;
  l_action : WorkerAction;
  l_working_directory : Path;
  l_repo_context_directory : Path;
  l_environment : gmap string string;
  l_profile : option Profile;
  l_prepared : option Prepared;
  l_timeout_seconds : option Z;
  l_startup_stall : option Duration;
}.

(* crates/worker/src/execution.rs:112-134 ExecutionSupervisor *)
Record ExecutionSupervisor := {
  path_authority : PathAuthority;
  jobs : gmap Uuid WorkerJob;
  journal_capacity : Z;
  recovery_store : option Store;
  admission_draining : bool;
  admitting : Z;
  pressure : Pressure.AdmissionPressure;
  startup_stall : option Duration;
  launched : list Launch;
}.

Definition with_jobs (s : ExecutionSupervisor) (m : gmap Uuid WorkerJob)
    (store : option Store) : ExecutionSupervisor :=
  {| path_authority := path_authority s; jobs := m; journal_capacity := journal_capacity s;
     recovery_store := store; admission_draining := admission_draining s;
     admitting := admitting s; pressure := pressure s; startup_stall := startup_stall s;
     launched := launched s |}.

(* crates/worker/src/execution.rs:667-691 ExecutionSupervisor::dispatch *)
Definition launch (s : ExecutionSupervisor) (l : Launch) : ExecutionSupervisor :=
  {| path_authority := path_authority s; jobs := jobs s;
     journal_capacity := journal_capacity s; recovery_store := recovery_store s;
     admission_draining := admission_draining s; admitting := admitting s;
     pressure := pressure s; startup_stall := startup_stall s;
     launched := launched s ++ [l] |}.

Fixpoint contains_text (needle s : string) : bool :=
  match s with
  | EmptyString => Text.starts_with needle s
  | String _ s' => Text.starts_with needle s || contains_text needle s'
  end.

Definition unusable (workspace shared_root : Path) (name : string) : option string :=
  if contains_text ".recovered-" name then None
  else match probe (join workspace (path_of name)) shared_root with
       | Portable | OwnRepository => None
       | OtherLinkage description => Some (name +:+ ": " +:+ description)
       end.

Definition join_text (sep : string) (l : list string) : string :=
  match l with
  | [] => ""
  | x :: l => foldl (fun acc y => acc +:+ sep +:+ y) x l
  end.

(* crates/worker/src/execution.rs:1638-1676 verify_worktrees_are_usable *)
Definition verify_worktrees_are_usable (workspace shared_root : Path)
    : result unit ExecutionError :=
  let? names := map_err WorktreeUnusable (repo_names workspace) in
  match omap (unusable workspace shared_root) names with
  | [] => Ok tt
  | details => Err (WorktreeUnusable (join_text "; " details))
  end.

Definition effective_dir (r : AgentRequest) (base : Path) : Path :=
  match working_dir r with Some rel => join base (path_of rel) | None => base end.

Definition without_dir (r : AgentRequest) : AgentRequest :=
  {| config := config r; working_dir := None; rest := rest r |}.

(** [None] is [unreachable!]: the caller has checked for a Codex action. *)
(* crates/worker/src/execution.rs:1829-1856 authorize_codex_action_directory *)
Definition authorize_codex_action_directory (a : WorkerAction) (base workspace : Path)
    (authority : PathAuthority) : option (result (WorkerAction * Path) ExecutionError) :=
  let check r rebuild :=
    Some (let? canonical := map_err (fun e => Directory (Authority e))
            (authorize_workspace_path canonicalize authority (effective_dir r base)) in
          if decide (starts_with canonical workspace)
          then Ok (Executor (rebuild (without_dir r)), canonical)
          else Err (Directory WorkingDirectoryOutsideWorkspace)) in
  match a with
  | Executor (CodingAgentInitialRequest r) => check r CodingAgentInitialRequest
  | Executor (CodingAgentFollowUpRequest r) => check r CodingAgentFollowUpRequest
  | Executor (ReviewRequest r) => check r ReviewRequest
  | _ => None
  end.

(** The executor part of an admission: the profile and, for Codex or when a
    snapshot came along, the prepared MCP configuration. *)
(* crates/worker/src/execution.rs:532-630 ExecutionSupervisor::dispatch *)
Definition prepare_executor (authority : PathAuthority) (d : ExecutionDispatch Value)
    (workspace directory : Path) (a : WorkerAction)
    : result (WorkerAction * Path * option Profile * option Prepared) ExecutionError :=
  let i := ed_execution_id d in
  let codex_config :=
    match executor_config_for_action a with
    | Some c => if decide (executor c = "CODEX") then Some c else None
    | None => None
    end in
  let? profile :=
    match ed_executor_profile_config d with
    | None => Ok None
    | Some v =>
        match parse_profile v with
        | Ok p => Ok (Some p)
        | Err error => Err (match codex_config with
                            | Some _ => CodexConfig i "profile parse failed"
                            | None => InvalidAction error
                            end)
        end
    end in
  match codex_config with
  | Some c =>
      let? agent := ok_or (resolve_coding_agent profile c)
                          (CodexConfig i "profile resolution failed") in
      if negb (is_codex agent) then Err (CodexConfig i "profile executor mismatch") else
      match authorize_codex_action_directory a directory workspace authority with
      | None => Err (CodexConfig i "unreachable")
      | Some checked =>
          let? checked := checked in
          let (a, directory) := checked in
          let? source := ok_or (default_mcp_config_path agent)
                               (CodexConfig i "source path resolution failed") in
          let? prepared := prepare_codex_config i agent source directory
                             (ed_mcp_config_snapshot d) in
          Ok (a, directory,
              Some (with_agent profile (default "DEFAULT" (variant c)) (prepared_agent prepared)),
              Some prepared)
      end
  | None =>
      match ed_mcp_config_snapshot d with
      | Some snapshot =>
          let? prepared := prepare_mcp_snapshot i a profile snapshot in
          Ok (a, directory, profile, Some prepared)
      | None => Ok (a, directory, profile, None)
      end
  end.

(** Everything an admission checks once draining and pressure let it through. *)
(* crates/worker/src/execution.rs:523-648 ExecutionSupervisor::dispatch *)
Definition admission (s : ExecutionSupervisor) (d : ExecutionDispatch Value) (now : DateTime)
    : result (Journal.EventJournal * Launch) ExecutionError :=
  let authority := path_authority s in
  let? workspace := map_err (fun e => Directory (Authority e))
    (authorize_workspace_path canonicalize authority (path_of (ed_workspace_path d))) in
  let? directory := map_err Directory
    (authorize_working_directory canonicalize workspace (ed_working_directory d) authority) in
  let? a := map_err InvalidAction (parse_action (ed_action d)) in
  let? prepared := prepare_executor authority d workspace directory a in
  let '(a, working_directory, profile, mcp) := prepared in
  if match a with Command program _ => bool_decide (trim program = "") | _ => false end
  then Err EmptyProgram else
  let? _ := verify_worktrees_are_usable workspace (shared_root authority) in
  let stall := match executor_config_for_action a with
               | Some _ => startup_stall s
               | None => None
               end in
  let? journal := map_err JournalFailure
    (Journal.new (ed_execution_id d) (journal_capacity s)) in
  let (journal, appended) := Journal.append journal now PAccepted in
  let? _ := map_err JournalFailure appended in
  Ok (journal,
      {| l_execution_id := ed_execution_id d; l_action := a;
         l_working_directory := working_directory; l_repo_context_directory := directory;
         l_environment := ed_environment d; l_profile := profile; l_prepared := mcp;
         l_timeout_seconds := ed_timeout_seconds d; l_startup_stall := stall |}).

(** [drained_meanwhile] is a drain that began between the two reads of the flag. *)
(* crates/worker/src/execution.rs:496-522 ExecutionSupervisor::dispatch *)
Definition dispatch (s : ExecutionSupervisor) (d : ExecutionDispatch Value)
    (drained_meanwhile : bool) (fresh : Uuid) (now : DateTime)
    : ExecutionSupervisor * result DispatchAccepted ExecutionError :=
  let i := ed_execution_id d in
  match jobs s !! i with
  | Some existing =>
      if decide (WorkerJob.request_digest existing <> ed_request_digest d)
      then (s, Err (DigestConflict i))
      else (s, Ok (WorkerJob.accepted existing))
  | None =>
      if admission_draining s then (s, Err Draining) else
      match Pressure.check (pressure s) with
      | Err refusal => (s, Err (UnderPressure refusal))
      | Ok _ =>
          if drained_meanwhile then (s, Err Draining) else
          match admission s d now with
          | Err e => (s, Err e)
          | Ok (journal, l) =>
              let job := WorkerJob.fresh_job i fresh (ed_workspace_id d)
                           (ed_request_digest d) JAccepted journal in
              let s := with_jobs s (<[i := job]> (jobs s))
                         (WorkerJob.persist save (recovery_store s) job) in
              (launch s l,
               Ok {| da_execution_id := i; da_worker_job_id := fresh;
                     da_request_digest := ed_request_digest d; da_state := JAccepted;
                     da_last_sequence := 1 |})
          end
      end
  end.

(* crates/worker/src/execution.rs:332-341 ExecutionSupervisor::authorizes_session_transfer *)
Definition authorizes_session_transfer (s : ExecutionSupervisor) (i workspace : Uuid) : bool :=
  match jobs s !! i with
  | Some job => bool_decide (WorkerJob.workspace_id job = workspace)
                && bool_decide (WorkerJob.state job = JRunning)
  | None => false
  end.

(* crates/worker/src/execution.rs:1145-1157 ExecutionSupervisor::authorizes_preview *)
Definition authorizes_preview (s : ExecutionSupervisor) (i workspace worker_job : Uuid) : bool :=
  match jobs s !! i with
  | Some job => bool_decide (WorkerJob.workspace_id job = workspace)
                && bool_decide (WorkerJob.worker_job_id job = worker_job)
                && negb (JobState_is_terminal (WorkerJob.state job))
  | None => false
  end.

Definition find (s : ExecutionSupervisor) (i : Uuid) : result WorkerJob ExecutionError :=
  ok_or (jobs s !! i) (NotFound i).

Definition update (s : ExecutionSupervisor) (i : Uuid) (job : WorkerJob)
    : ExecutionSupervisor :=
  with_jobs s (<[i := job]> (jobs s)) (recovery_store s).

(* crates/worker/src/execution.rs:1089-1103 ExecutionSupervisor::events *)
Definition events (s : ExecutionSupervisor) (i : Uuid) (after : Z)
    : result EventBatch ExecutionError :=
  let? job := find s i in Ok (Journal.replay_after (WorkerJob.journal job) after).

Definition summary_le (a b : JobSummary) : Prop := (js_execution_id a <= js_execution_id b)%N.
#[export] Instance summary_le_dec : RelDecision summary_le.
Proof. unfold summary_le. solve_decision. Defined.

(* crates/worker/src/execution.rs:1105-1113 ExecutionSupervisor::inventory *)
Definition inventory (s : ExecutionSupervisor) : list JobSummary :=
  merge_sort summary_le (WorkerJob.summary <$> (map_to_list (jobs s)).*2).

(* crates/worker/src/execution.rs:1115-1124 ExecutionSupervisor::active_execution_count *)
Definition active_execution_count (s : ExecutionSupervisor)
    (exited : WorkerJob.Child -> bool) : Z :=
  let active := foldl (fun n job => if WorkerJob.is_active_for_drain exited job
                                    then saturating_add u32_max n 1 else n)
                  0 (map_to_list (jobs s)).*2 in
  saturating_add u32_max active (admitting s).

(* crates/worker/src/execution.rs:1126-1139 ExecutionSupervisor::acknowledge *)
Definition acknowledge (s : ExecutionSupervisor) (i : Uuid) (highest : Z)
    : ExecutionSupervisor * result Z ExecutionError :=
  match jobs s !! i with
  | None => (s, Err (NotFound i))
  | Some job =>
      let last := Journal.last_sequence (WorkerJob.journal job) in
      let a := Z.max (WorkerJob.acknowledged_sequence job) (Z.min highest last) in
      (update s i (WorkerJob.with_acknowledged a job), Ok a)
  end.

(* crates/worker/src/execution.rs:1159-1167 ExecutionSupervisor::quarantine *)
Definition quarantine (s : ExecutionSupervisor) (i : Uuid)
    : ExecutionSupervisor * result JobSummary ExecutionError :=
  match jobs s !! i with
  | None => (s, Err (NotFound i))
  | Some job =>
      let job := WorkerJob.with_state JQuarantined job in
      (with_jobs s (<[i := job]> (jobs s)) (WorkerJob.persist save (recovery_store s) job),
       Ok (WorkerJob.summary job))
  end.

(* crates/worker/src/execution.rs:1169-1185 ExecutionSupervisor::respond_interaction *)
Definition respond_interaction (s : ExecutionSupervisor) (i interaction : Uuid)
    (outcome : Interaction.ApprovalOutcome Answer) (now : DateTime)
    : ExecutionSupervisor * result bool ExecutionError :=
  match jobs s !! i with
  | None => (s, Err (NotFound i))
  | Some job =>
      let (b, responded) := Interaction.respond (WorkerJob.interactions job) interaction outcome in
      let job := WorkerJob.with_interactions b job in
      let job := if responded
                 then WorkerJob.emit job (PInteractionAcknowledged interaction) now else job in
      (update s i job, Ok responded)
  end.

(** [kill pid stop]: the signal was sent to the whole group and succeeded. *)
Context (kill : Z -> bool -> bool).

(* crates/worker/src/execution.rs:987-1051 ExecutionSupervisor::set_quiesced *)
Definition set_quiesced (s : ExecutionSupervisor) (i workspace operation : Uuid)
    (quiesced : bool) : ExecutionSupervisor * result unit ExecutionError :=
  match jobs s !! i with
  | None => (s, Err (NotFound i))
  | Some job =>
      let st := WorkerJob.state job in
      if bool_decide (WorkerJob.workspace_id job <> workspace)
         || quiesced && bool_decide (st <> JRunning)
         || negb quiesced && JobState_is_terminal st
      then (s, Err (NotFound i)) else
      let owner := WorkerJob.quiesced_by job in
      let proceed :=
        match (WorkerJob.child job) ≫= WorkerJob.leader with
        | None => (s, Err (NotFound i))
        | Some pid =>
            if kill pid quiesced
            then (update s i (WorkerJob.with_quiesced
                    (if quiesced then Some operation else None) job), Ok tt)
            else (s, Err (NotFound i))
        end in
      if quiesced then
        match owner with
        | Some existing =>
            if decide (existing <> operation) then (s, Err (DigestConflict i)) else (s, Ok tt)
        | None => proceed
        end
      else if decide (owner <> Some operation) then (s, Err (DigestConflict i)) else proceed
  end.

(** The 15-minute lease of a quiesce ends in this. *)
(* crates/worker/src/execution.rs:1054-1087 ExecutionSupervisor::resume_quiesced *)
Definition resume_quiesced (s : ExecutionSupervisor) (i workspace operation : Uuid)
    : ExecutionSupervisor * result unit ExecutionError :=
  match jobs s !! i with
  | None => (s, Err (NotFound i))
  | Some job =>
      if bool_decide (WorkerJob.workspace_id job <> workspace)
         || JobState_is_terminal (WorkerJob.state job)
      then (s, Err (NotFound i)) else
      if decide (WorkerJob.quiesced_by job <> Some operation)
      then (s, Err (DigestConflict i)) else
      match (WorkerJob.child job) ≫= WorkerJob.leader with
      | None => (s, Err (NotFound i))
      | Some pid =>
          if kill pid false
          then (update s i (WorkerJob.with_quiesced None job), Ok tt)
          else (s, Err (NotFound i))
      end
  end.

(** ** Recovery *)

(* crates/worker/src/execution.rs:425-440 ExecutionSupervisor::with_recovery_and_drain *)
Definition settle_summary (store : Store) (summary : JobSummary) (now : DateTime)
    : result (Store * JobSummary * TerminalEvidence) ExecutionError :=
  let interrupt :=
    let evidence := {| te_state := TsInterrupted; te_exit_code := None; te_signal := None;
                       te_observed_at := now |} in
    let summary := {| js_execution_id := js_execution_id summary;
                      js_worker_job_id := js_worker_job_id summary;
                      js_workspace_id := js_workspace_id summary;
                      js_request_digest := js_request_digest summary;
                      js_state := JInterrupted; js_last_sequence := js_last_sequence summary;
                      js_terminal := Some evidence |} in
    let? store := map_err Recovery (save store summary) in
    Ok (store, summary, evidence) in
  match js_terminal summary with
  | Some evidence =>
      if JobState_is_terminal (js_state summary) then Ok (store, summary, evidence)
      else interrupt
  | None => interrupt
  end.

(* crates/worker/src/execution.rs:425-467 ExecutionSupervisor::with_recovery_and_drain *)
Definition recover_summary (store : Store) (summary : JobSummary) (now : DateTime)
    : result (Store * WorkerJob) ExecutionError :=
  let? settled := settle_summary store summary now in
  let '(store, summary, evidence) := settled in
  let? journal := map_err JournalFailure
    (Journal.recover summary DEFAULT_JOURNAL_CAPACITY evidence) in
  let summary := {| js_execution_id := js_execution_id summary;
                    js_worker_job_id := js_worker_job_id summary;
                    js_workspace_id := js_workspace_id summary;
                    js_request_digest := js_request_digest summary;
                    js_state := js_state summary;
                    js_last_sequence := Journal.last_sequence journal;
                    js_terminal := js_terminal summary |} in
  let? store := map_err Recovery (save store summary) in
  Ok (store, WorkerJob.fresh_job (js_execution_id summary) (js_worker_job_id summary)
               (js_workspace_id summary) (js_request_digest summary) (js_state summary) journal).

Fixpoint recover_all (store : Store) (m : gmap Uuid WorkerJob) (loaded : list JobSummary)
    (now : DateTime) : result (Store * gmap Uuid WorkerJob) ExecutionError :=
  match loaded with
  | [] => Ok (store, m)
  | summary :: loaded =>
      let? recovered := recover_summary store summary now in
      let (store, job) := recovered in
      recover_all store (<[js_execution_id summary := job]> m) loaded now
  end.

(** [loaded] is what [RecoveryStore::load] returned. *)
(* crates/worker/src/execution.rs:399-468 ExecutionSupervisor::with_recovery_and_drain *)
Definition with_recovery_and_drain (authority : PathAuthority) (store : Store)
    (loaded : result (list JobSummary) StoreError) (draining : bool) (now : DateTime)
    : result ExecutionSupervisor ExecutionError :=
  let? loaded := map_err Recovery loaded in
  let? recovered := recover_all store ∅ loaded now in
  let (store, m) := recovered in
  Ok {| path_authority := authority; jobs := m; journal_capacity := DEFAULT_JOURNAL_CAPACITY;
        recovery_store := Some store; admission_draining := draining; admitting := 0;
        pressure := {| Pressure.ap_threshold := None;
                       Pressure.reader := {| Pressure.memory_full_avg60 := None;
                                             Pressure.io_full_avg60 := None |} |};
        startup_stall := None; launched := [] |}.

(** ** Admission *)

Definition identity (job : WorkerJob) : Uuid * Uuid * Uuid * string :=
  (WorkerJob.execution_id job, WorkerJob.worker_job_id job, WorkerJob.workspace_id job,
   WorkerJob.request_digest job).

(** The cases of a dispatch. *)
Lemma dispatch_cases s d dm fresh now :
  let i := ed_execution_id d in
  let (s', r) := dispatch s d dm fresh now in
  match jobs s !! i with
  | Some job =>
      s' = s /\ r = (if decide (WorkerJob.request_digest job <> ed_request_digest d)
                     then Err (DigestConflict i) else Ok (WorkerJob.accepted job))
  | None =>
      (s' = s /\ is_err r = true) \/
      (admission_draining s = false /\ Pressure.check (pressure s) = Ok tt /\ dm = false /\
       exists journal l,
         let job := WorkerJob.fresh_job i fresh (ed_workspace_id d) (ed_request_digest d)
                      JAccepted journal in
         admission s d now = Ok (journal, l) /\
         s' = launch (with_jobs s (<[i := job]> (jobs s))
                        (WorkerJob.persist save (recovery_store s) job)) l /\
         r = Ok {| da_execution_id := i; da_worker_job_id := fresh;
                   da_request_digest := ed_request_digest d; da_state := JAccepted;
                   da_last_sequence := 1 |})
  end.
Proof.
  cbn. unfold dispatch. destruct (jobs s !! ed_execution_id d) as [job|]; [by case_decide|].
  destruct (admission_draining s); [by left|].
  destruct (Pressure.check (pressure s)) as [[]|]; [|by left].
  destruct dm; [by left|]. destruct (admission s d now) as [[journal l]|]; [|by left].
  right. split_and!; try done. by exists journal, l.
Qed.

(** C3: A dispatch starts an execution at most once: after one was accepted, every
    repeat for the same execution, as long as the job is still known, changes
    nothing and returns the same worker job if the digest is the same, and is
    refused as a conflict otherwise; neither draining nor pressure matters. *)
Theorem dispatch_at_most_once s d dm fresh now s1 acc :
  dispatch s d dm fresh now = (s1, Ok acc) ->
  exists job, jobs s1 !! ed_execution_id d = Some job /\
    WorkerJob.request_digest job = ed_request_digest d /\
    WorkerJob.worker_job_id job = da_worker_job_id acc /\
    forall s' job' d' dm' fresh' now',
      jobs s' !! ed_execution_id d = Some job' -> identity job' = identity job ->
      ed_execution_id d' = ed_execution_id d ->
      dispatch s' d' dm' fresh' now' =
        (s', if decide (ed_request_digest d' = ed_request_digest d)
             then Ok (WorkerJob.accepted job') else Err (DigestConflict (ed_execution_id d))) /\
      da_worker_job_id (WorkerJob.accepted job') = da_worker_job_id acc.
Proof.
  intros H. pose proof (dispatch_cases s d dm fresh now) as Hc. rewrite H in Hc. cbn in Hc.
  assert (exists job, jobs s1 !! ed_execution_id d = Some job /\
    WorkerJob.request_digest job = ed_request_digest d /\
    WorkerJob.worker_job_id job = da_worker_job_id acc) as (job & Hj & Hd & Hw).
  { destruct (jobs s !! ed_execution_id d) as [job|] eqn:Hjob.
    - destruct Hc as [-> Hr]. case_decide as Hdig; [done|]. injection Hr as ->.
      exists job. split_and!; [done| |done].
      by destruct (decide (WorkerJob.request_digest job = ed_request_digest d)).
    - destruct Hc as [[_ ?]|(_ & _ & _ & journal & l & _ & -> & [= ->])]; [done|].
      eexists. cbn. rewrite lookup_insert_eq. by split_and!. }
  exists job. split_and!; try done.
  intros s' job' d' dm' fresh' now' Hj' Hid Hi.
  injection Hid as _ Hwj _ Hdig. split; [|cbn; congruence].
  unfold dispatch. rewrite Hi, Hj', Hdig, Hd.
  repeat case_decide; try done; congruence.
Qed.

Lemma prepare_executor_dir authority d workspace directory a a' dir' profile mcp :
  prepare_executor authority d workspace directory a = Ok (a', dir', profile, mcp) ->
  starts_with directory workspace -> starts_with dir' workspace.
Proof.
  unfold prepare_executor.
  set (codex := match executor_config_for_action a with Some _ => _ | None => _ end).
  intros (p & _ & H)%rbind_ok. destruct codex as [c|].
  - apply rbind_ok in H as (agent & _ & H). destruct (negb _); [done|].
    destruct (authorize_codex_action_directory _ _ _ _) as [checked|] eqn:Hc; [|done].
    apply rbind_ok in H as ([a1 dir1] & Hchk & H).
    apply rbind_ok in H as (source & _ & H). apply rbind_ok in H as (prepared & _ & H).
    injection H as _ <- _ _. intros _. unfold authorize_codex_action_directory in Hc.
    destruct a as [|[r|r|r|]]; try done; injection Hc as <-;
      apply rbind_ok in Hchk as (canonical & _ & Hchk); case_decide; try done;
      by injection Hchk as _ <-.
  - destruct (ed_mcp_config_snapshot d).
    + apply rbind_ok in H as (prepared & _ & H). by injection H as _ <- _ _.
    + by injection H as _ <- _ _.
Qed.

(** An execution is launched only through an admission: the worker was not
    draining and not under pressure, the directories it will run in lie in the
    workspace and under the shared root, no worktree of the workspace is unusable,
    and the new job's journal holds exactly its acceptance.  A refused dispatch
    changes nothing. *)
Theorem dispatch_admission_sound s d dm fresh now s1 r :
  dispatch s d dm fresh now = (s1, r) ->
  (is_err r = true -> s1 = s) /\
  (launched s1 <> launched s ->
   admission_draining s = false /\ is_err (Pressure.check (pressure s)) = false /\
   exists l workspace journal,
     launched s1 = launched s ++ [l] /\
     canonicalize (path_of (ed_workspace_path d)) = Ok workspace /\
     starts_with workspace (shared_root (path_authority s)) /\
     starts_with (l_working_directory l) workspace /\
     starts_with (l_repo_context_directory l) workspace /\
     (forall names, repo_names workspace = Ok names ->
        omap (unusable workspace (shared_root (path_authority s))) names = []) /\
     WorkerJob.journal <$> jobs s1 !! ed_execution_id d = Some journal /\
     ev_payload <$> Journal.events journal = [PAccepted] /\ Journal.terminal journal = None).
Proof.
  intros H. pose proof (dispatch_cases s d dm fresh now) as Hc. rewrite H in Hc. cbn in Hc.
  destruct (jobs s !! ed_execution_id d) as [job|] eqn:Hjob; [by destruct Hc as [-> _]|].
  destruct Hc as [[-> _]|(Hdr & Hpr & _ & journal & l & Hadm & -> & ->)]; [done|].
  split; [done|]. intros _. rewrite Hpr. split_and!; [done|done|].
  unfold admission in Hadm.
  apply rbind_ok in Hadm as (workspace & Hws & Hadm).
  destruct (authorize_workspace_path _ _ _) as [ws|] eqn:Hauth; [|done]. injection Hws as ->.
  apply authorize_spec in Hauth as (_ & Hcan & Hroot).
  apply rbind_ok in Hadm as (directory & Hdir & Hadm).
  destruct (authorize_working_directory _ _ _ _) as [dir|] eqn:Hwd; [|done].
  injection Hdir as ->. apply rbind_ok in Hwd as (c & _ & Hwd).
  case_decide as Hin; [|done]. injection Hwd as ->.
  apply rbind_ok in Hadm as (a & _ & Hadm).
  apply rbind_ok in Hadm as ([[[a' dir'] profile] mcp] & Hprep & Hadm).
  apply prepare_executor_dir in Hprep; [|done].
  destruct (match a' with Command _ _ => _ | Executor _ => _ end); [done|].
  apply rbind_ok in Hadm as ([] & Hver & Hadm).
  apply rbind_ok in Hadm as (j0 & Hnew & Hadm).
  destruct (Journal.new _ _) as [j1|] eqn:Hj1; [|done]. injection Hnew as ->.
  destruct (Journal.append j0 now PAccepted) as [j2 appended] eqn:Happ.
  apply rbind_ok in Hadm as (n & Hn & Hadm). injection Hadm as <- <-.
  exists {| l_execution_id := ed_execution_id d; l_action := a'; l_working_directory := dir';
            l_repo_context_directory := directory; l_environment := ed_environment d;
            l_profile := profile; l_prepared := mcp; l_timeout_seconds := ed_timeout_seconds d;
            l_startup_stall := match executor_config_for_action a' with
                               | Some _ => startup_stall s | None => None end |},
    workspace, j2.
  split_and!; try done.
  - intros names Hnames. unfold verify_worktrees_are_usable in Hver. rewrite Hnames in Hver.
    cbn in Hver. by destruct (omap _ names).
  - cbn. by rewrite lookup_insert_eq.
  - unfold Journal.new in Hj1. case_decide; [done|]. injection Hj1 as <-.
    unfold Journal.append in Happ. cbn in Happ. injection Happ as <- _. cbn.
    by case_decide.
  - unfold Journal.new in Hj1. case_decide; [done|]. injection Hj1 as <-.
    unfold Journal.append in Happ. cbn in Happ. by injection Happ as <- _.
Qed.

(** ** Draining *)

Lemma active_fold exited (l : list WorkerJob) n :
  0 <= n ->
  foldl (fun n job => if WorkerJob.is_active_for_drain exited job
                      then saturating_add u32_max n 1 else n) n l = 0 ->
  n = 0 /\ Forall (fun job => WorkerJob.is_active_for_drain exited job = false) l.
Proof.
  revert n. induction l as [|job l IH]; intros n Hn; cbn; [by intros ->|].
  intros H. destruct (WorkerJob.is_active_for_drain exited job) eqn:Ha.
  - apply IH in H as [H _]; unfold saturating_add, u32_max in *; lia.
  - apply IH in H as [-> Hl]; [|done]. split; [done|]. by constructor.
Qed.

(** A drained worker is idle and stays so: when the count of active executions
    is zero no admission is under way and every job is in a terminal state with
    its process, if it had one, exited; and while the worker drains, a dispatch
    leaves the set of jobs as it is. *)
Theorem drained_means_idle s exited d dm fresh now :
  0 <= admitting s ->
  active_execution_count s exited = 0 -> admission_draining s = true ->
  admitting s = 0 /\
  (forall i job, jobs s !! i = Some job ->
     JobState_is_terminal (WorkerJob.state job) = true /\
     match WorkerJob.child job with Some c => exited c = true | None => True end) /\
  (dispatch s d dm fresh now).1 = s.
Proof.
  intros Ha Hc Hd. unfold active_execution_count in Hc.
  set (n := foldl _ 0 _) in Hc.
  assert (0 <= n) as Hn.
  { unfold n. apply (foldl_invariant (fun n => 0 <= n)); [|done].
    intros a b _ H. case_match; [|done]. unfold saturating_add, u32_max. lia. }
  assert (n = 0 /\ admitting s = 0) as [Hz Hadm]
    by (unfold saturating_add, u32_max in Hc; lia).
  apply active_fold in Hz as [_ Hall]; [|done]. split_and!; [done| |].
  - intros i job Hj. rewrite Forall_forall in Hall.
    specialize (Hall job). unfold WorkerJob.is_active_for_drain in Hall.
    assert (job ∈ (map_to_list (jobs s)).*2) as Hin.
    { apply (list_elem_of_fmap_2 snd _ (i, job)). by apply elem_of_map_to_list. }
    specialize (Hall Hin). destruct (JobState_is_terminal _); [|done]. split; [done|].
    destruct (WorkerJob.child job); [|done]. cbn in Hall. by destruct (exited _).
  - unfold dispatch. rewrite Hd. destruct (jobs s !! _); [|done]. by case_decide.
Qed.

(** ** Session transfers *)

(** A quiesced execution belongs to one operation: while operation [a] holds
    it, no other operation can stop it, resume it or let its lease resume it, and
    such an attempt neither signals the process nor changes the job. *)
Theorem quiesce_exclusive s i job workspace a b quiesced :
  jobs s !! i = Some job -> WorkerJob.quiesced_by job = Some a -> b <> a ->
  (set_quiesced s i workspace b quiesced).1 = s /\
  is_err (set_quiesced s i workspace b quiesced).2 = true /\
  (resume_quiesced s i workspace b).1 = s /\
  is_err (resume_quiesced s i workspace b).2 = true.
Proof.
  intros Hj Hq Hne. unfold set_quiesced, resume_quiesced. rewrite Hj, Hq.
  rewrite (decide_True (P := Some a <> Some b)) by congruence.
  assert (forall q : bool, (if q then if decide (a <> b) then (s, Err (DigestConflict i) : result unit ExecutionError) else (s, Ok tt)
    else (s, Err (DigestConflict i))) = (s, Err (DigestConflict i))) as ->
    by (intros [|]; [by rewrite decide_True by done|done]).
  repeat destruct (_ || _); rewrite ?decide_True by congruence; done.
Qed.

(** ** What a restarted worker offers *)

Lemma recover_summary_spec store summary now store' job :
  recover_summary store summary now = Ok (store', job) ->
  identity job = (js_execution_id summary, js_worker_job_id summary,
                  js_workspace_id summary, js_request_digest summary) /\
  JobState_is_terminal (WorkerJob.state job) = true /\
  WorkerJob.child job = None /\
  Journal.last_sequence (WorkerJob.journal job) = js_last_sequence summary + 1 /\
  exists e, Journal.terminal (WorkerJob.journal job) = Some e /\
    (js_terminal summary = Some e /\ WorkerJob.state job = js_state summary \/
     te_state e = TsInterrupted /\ WorkerJob.state job = JInterrupted).
Proof.
  unfold recover_summary. intros ([[st sm] e] & Hset & H)%rbind_ok.
  apply rbind_ok in H as (j & Hj & H). apply rbind_ok in H as (st' & _ & H).
  injection H as _ <-.
  assert (js_execution_id sm = js_execution_id summary /\
    js_worker_job_id sm = js_worker_job_id summary /\
    js_workspace_id sm = js_workspace_id summary /\
    js_request_digest sm = js_request_digest summary /\
    js_last_sequence sm = js_last_sequence summary /\
    JobState_is_terminal (js_state sm) = true /\
    (js_terminal summary = Some e /\ js_state sm = js_state summary \/
     te_state e = TsInterrupted /\ js_state sm = JInterrupted))
    as (H1 & H2 & H3 & H4 & H5 & H6 & H7).
  { unfold settle_summary in Hset. cbn in Hset.
    destruct (js_terminal summary) as [e0|];
      [destruct (JobState_is_terminal (js_state summary)) eqn:Ht|].
    - injection Hset as _ <- <-. by auto 10.
    - ok_inv. simplify_eq/=. auto 10.
    - ok_inv. simplify_eq/=. auto 10. }
  destruct (Journal.recover _ _ _) as [j'|] eqn:Hrec; [|done]. injection Hj as ->.
  unfold Journal.recover in Hrec. ok_inv.
  repeat match goal with H : checked_add _ _ _ = Some _ |- _ =>
    apply checked_add_Some in H as [-> _] end. simplify_eq.
  cbn. unfold identity, Journal.last_sequence. cbn. rewrite H1, H2, H3, H4.
  split_and!; [done|done|done|lia|]. exists e. by auto.
Qed.

Lemma recover_all_spec loaded : forall store m now store' m',
  recover_all store m loaded now = Ok (store', m') ->
  forall i job, m' !! i = Some job ->
    m !! i = Some job \/
    exists summary st st', summary ∈ loaded /\ js_execution_id summary = i /\
      recover_summary st summary now = Ok (st', job).
Proof.
  induction loaded as [|x loaded IH]; intros store m now store' m'; cbn.
  - intros [= _ <-]. auto.
  - intros ([st job0] & Hr & H)%rbind_ok i job Hi.
    destruct (IH _ _ _ _ _ H i job Hi) as [Hm|(sm & a & b & Hin & Hid & Hs)].
    + destruct (decide (js_execution_id x = i)) as [<-|Hne].
      * rewrite lookup_insert_eq in Hm. injection Hm as <-. right.
        exists x, store, st. split_and!; [by left|done|done].
      * rewrite lookup_insert_ne in Hm by done. auto.
    + right. exists sm, a, b. split_and!; [by right|done|done].
Qed.

(** A restarted worker owns no running work: every job it recovers is one it
    had persisted, is terminal with evidence one sequence past the persisted one,
    and has no process; evidence recorded before the restart is kept, and a job
    that was not finished is reported interrupted. *)
Theorem recovery_reports_terminal authority store loaded draining now sup i job :
  with_recovery_and_drain authority store (Ok loaded) draining now = Ok sup ->
  jobs sup !! i = Some job ->
  exists summary, summary ∈ loaded /\
    identity job = (i, js_worker_job_id summary, js_workspace_id summary,
                    js_request_digest summary) /\
    JobState_is_terminal (WorkerJob.state job) = true /\
    WorkerJob.child job = None /\
    Journal.last_sequence (WorkerJob.journal job) = js_last_sequence summary + 1 /\
    exists e, Journal.terminal (WorkerJob.journal job) = Some e /\
      (js_terminal summary = Some e /\ WorkerJob.state job = js_state summary \/
       te_state e = TsInterrupted /\ WorkerJob.state job = JInterrupted).
Proof.
  unfold with_recovery_and_drain. cbn. intros ([st m] & Hr & [= <-])%rbind_ok. cbn. intros Hi.
  destruct (recover_all_spec _ _ _ _ _ _ Hr i job Hi) as [H|(sm & a & b & Hin & <- & Hs)];
    [by rewrite lookup_empty in H|].
  exists sm. split; [done|]. by eapply recover_summary_spec.
Qed.

End Supervisor.

(** ** A concrete worker *)
Module Samples.

Definition save (st : list JobSummary) (sm : JobSummary) : result (list JobSummary) unit :=
  Ok (sm :: st).
Definition repo_names (p : Path) : result (list string) string := Ok ["repo"].
Definition probe (p root : Path) : LinkageStatus := Portable.
Definition parse_action (v : unit) : result WorkerAction string := Ok (Command "sh" ["-c"; "true"]).
Definition parse_profile (v : unit) : result unit string := Ok tt.
Definition resolve (p : option unit) (c : ExecutorConfig) : option unit := Some tt.
Definition is_codex (a : unit) : bool := true.
Definition config_path (a : unit) : option Path := None.
Definition prepare_codex (i : Uuid) (a : unit) (p q : Path)
    (m : option (McpConfigSnapshot unit)) : result unit (ExecutionError (StoreError := unit)
      (IoError := unit)) := Ok tt.
Definition prepare_mcp (i : Uuid) (a : WorkerAction) (p : option unit)
    (m : McpConfigSnapshot unit) : result unit (ExecutionError (StoreError := unit)
      (IoError := unit)) := Ok tt.

Definition authority : RequestAuthority :=
  {| ra_protocol_version := PROTOCOL_VERSION; ra_coordinator_id := 42%N;
     ra_worker_node_id := 7%N; ra_correlation_id := 1%N; ra_issued_at := 0; ra_nonce := "n" |}.

Definition request (digest : string) : ExecutionDispatch unit :=
  {| ed_authority := authority; ed_execution_id := 1%N; ed_workspace_id := 9%N;
     ed_session_id := 5%N; ed_workspace_path := "/shared/ws"; ed_working_directory := "repo";
     ed_executor_profile := "p"; ed_executor_profile_config := None;
     ed_mcp_config_snapshot := None; ed_action := tt; ed_environment := ∅;
     ed_run_reason := "r"; ed_timeout_seconds := None; ed_persistence := PpOrdinary;
     ed_request_digest := digest |}.

Definition supervisor (draining : bool)
    (jobs : gmap Uuid (WorkerJob.WorkerJob unit unit unit))
    : ExecutionSupervisor (Profile := unit) (Store := list JobSummary) :=
  {| path_authority := {| shared_root := path_of "/shared" |}; jobs := jobs;
     journal_capacity := 16; recovery_store := Some []; admission_draining := draining;
     admitting := 0;
     pressure := {| Pressure.ap_threshold := None;
                    Pressure.reader := {| Pressure.memory_full_avg60 := None;
                                          Pressure.io_full_avg60 := None |} |};
     startup_stall := None; launched := [] |}.

Definition submit (digest : string) (draining : bool) :=
  dispatch save sample_fs repo_names probe parse_action parse_profile resolve is_codex
    config_path prepare_codex (fun _ => tt) (fun _ _ _ => tt) prepare_mcp
    (supervisor draining ∅) (request digest) false 77%N 3.

(** A persisted job that was running when the worker stopped. *)
Definition interrupted : JobSummary :=
  {| js_execution_id := 1%N; js_worker_job_id := 77%N; js_workspace_id := 9%N;
     js_request_digest := "d"; js_state := JRunning; js_last_sequence := 2;
     js_terminal := None |}.

Definition restart : result (ExecutionSupervisor (Answer := unit) (Profile := unit)
    (Prepared := unit) (Handle := unit) (Store := list JobSummary))
    (ExecutionError (StoreError := unit) (IoError := unit)) :=
  with_recovery_and_drain save {| shared_root := path_of "/shared" |} [] (Ok [interrupted])
    false 8.

Definition restarted : ExecutionSupervisor :=
  match restart with Ok s => s | Err _ => supervisor false ∅ end.

Definition rebuilt : WorkerJob.WorkerJob unit unit unit :=
  default (WorkerJob.fresh_job 1 77 9 "d" JRunning
             {| Journal.execution_id := 1%N; Journal.capacity := 16;
                Journal.next_sequence := 1; Journal.events := []; Journal.terminal := None |})
    (jobs restarted !! 1%N).

Definition owned : WorkerJob.WorkerJob unit unit unit :=
  WorkerJob.with_quiesced (Some 4%N)
    (WorkerJob.with_state JRunning
       (WorkerJob.with_child (Some {| WorkerJob.leader := Some 100 |}) 100
          (WorkerJob.fresh_job 1 77 9 "d" JRunning
             {| Journal.execution_id := 1%N; Journal.capacity := 16;
                Journal.next_sequence := 1; Journal.events := []; Journal.terminal := None |}))).

End Samples.
Import Samples.

Lemma dispatch_at_most_once_witness :
  exists job, jobs (submit "d" false).1 !! 1%N = Some job /\
    WorkerJob.worker_job_id job = 77%N.
Proof.
  edestruct (dispatch_at_most_once save sample_fs repo_names probe parse_action parse_profile
               resolve is_codex config_path prepare_codex (fun _ => tt) (fun _ _ _ => tt)
               prepare_mcp (supervisor false ∅) (request "d") false 77%N 3 (submit "d" false).1)
    as (job & Hj & _ & Hw & _); [vm_compute; reflexivity|].
  exists job. split; [exact Hj|exact Hw].
Defined.

Lemma dispatch_admission_sound_witness :
  exists l, launched (submit "d" false).1 = [l] /\
    starts_with (l_working_directory l) (path_of "/shared/ws").
Proof.
  edestruct (dispatch_admission_sound save sample_fs repo_names probe parse_action
               parse_profile resolve is_codex config_path prepare_codex (fun _ => tt)
               (fun _ _ _ => tt) prepare_mcp (supervisor false ∅) (request "d") false 77%N 3
               (submit "d" false).1 (submit "d" false).2) as [_ H]; [vm_compute; reflexivity|].
  destruct H as (_ & _ & l & ws & j & Hl & Hc & _ & Hw & _); [vm_compute; discriminate|].
  vm_compute in Hc. injection Hc as <-. exists l. split; [exact Hl|exact Hw].
Defined.

Lemma drained_means_idle_witness : admitting (supervisor true ∅) = 0.
Proof.
  refine (proj1 (drained_means_idle save sample_fs repo_names probe parse_action parse_profile
               resolve is_codex config_path prepare_codex (fun _ => tt) (fun _ _ _ => tt)
               prepare_mcp (supervisor true ∅) (fun _ => true) (request "d") false 77%N 3
               _ _ _)); [vm_compute; discriminate|reflexivity|reflexivity].
Defined.

Lemma quiesce_exclusive_witness :
  (resume_quiesced (IoError := unit) (StoreError := unit) (fun _ _ => true)
     (supervisor false {[ 1%N := owned ]}) 1%N 9%N 6%N).1
  = supervisor false {[ 1%N := owned ]}.
Proof.
  edestruct (quiesce_exclusive (IoError := unit) (StoreError := unit) (fun _ _ => true)
               (supervisor false {[ 1%N := owned ]}) 1%N owned 9%N 4%N 6%N true)
    as (_ & _ & H & _); [reflexivity|reflexivity|discriminate|exact H].
Defined.

Lemma recovery_reports_terminal_witness :
  exists sm, sm ∈ [interrupted] /\ js_last_sequence sm + 1 = 3.
Proof.
  edestruct (recovery_reports_terminal (Answer := unit) (Profile := unit) (Prepared := unit)
               (Handle := unit) (IoError := unit) save {| shared_root := path_of "/shared" |} []
               [interrupted] false 8 restarted 1%N rebuilt) as (sm & Hin & _ & _ & _ & Hl & _);
    [vm_compute; reflexivity|vm_compute; reflexivity|].
  exists sm. split; [exact Hin|]. rewrite <- Hl. vm_compute. reflexivity.
Defined.

End Worker.
