(* ===== verification/Lifecycle.v ===== *)
(** * The end of a job: cancellation and its races

    [Module Cancellation] is crates/worker/src/cancellation.rs: interrupt, TERM,
    KILL, each followed by a bounded wait, with whatever the other tasks did to the
    job during a wait as the argument [others].  [Module JobOps] is every operation
    of a job as one alphabet, with the two invariants of its evidence.  [Module
    Race] takes [transition] apart into the two locks it takes one after the other,
    and runs a cancellation against the task that observes the process exit. *)
From S2P Require Import Prelude ClusterProtocol Journal Interaction WorkerJob.

Module Cancellation.
Import WorkerJob.

Inductive Signal := SIGINT | SIGTERM | SIGKILL | GroupRemainder | ExecutionCgroup.

(* crates/worker/src/cancellation.rs:14-20 CancellationError *)
Inductive CancellationError := NotFound (i : Uuid) | SignalFailed.

(** What the operating system answers at one stage: whether the signal could be
    sent, and what the wait observed. *)
Record stage_answer := { sent_ok : bool; observed : result (option ExitStatus) unit }.

Section Cancel.
Context {Answer Prepared Handle Store StoreError : Type}.
Context (save : Store -> JobSummary -> result Store StoreError)
        (phase_json : CancellationPhase -> string).
Abbreviation WorkerJob := (WorkerJob Answer Prepared Handle).

(* crates/worker/src/cancellation.rs:201-205 structured_phase *)
Definition structured_phase (p : CancellationPhase) : ExecutionEventPayload :=
  PStructured (phase_json p).

(* crates/worker/src/cancellation.rs:207-217 status *)
Definition status (i : Uuid) (p : CancellationPhase) (terminal : option TerminalEvidence)
    : CancellationStatus :=
  {| cs_execution_id := i; cs_phase := p; cs_terminal := terminal |}.

(** Signalling a job without a child does nothing, and waiting for it ends at
    once; an error of either ends the cancellation. *)
(* crates/worker/src/cancellation.rs:129-178 wait_for_exit *)
Definition stage (job : WorkerJob) (sig : Signal) (a : stage_answer)
    : list Signal * result (option ExitStatus) CancellationError :=
  match child job with
  | None => ([], Ok None)
  | Some _ =>
      if sent_ok a
      then ([sig], map_err (fun _ => SignalFailed) (observed a))
      else ([], Err SignalFailed)
  end.

(* crates/worker/src/cancellation.rs:100-127 confirmed *)
Definition confirmed (store : option Store) (job : WorkerJob) (exit : ExitStatus)
    (now : DateTime) : option Store * WorkerJob * CancellationStatus :=
  let evidence := {| te_state := TsKilled; te_exit_code := code exit;
                     te_signal := signal exit; te_observed_at := now |} in
  let (store, job) := transition save store job JKilled (PKilled evidence) now in
  let retained := default evidence (Journal.terminal (journal job)) in
  (store, job, status (execution_id job) CpConfirmed (Some retained)).

(** One escalation: announce the phase, signal, wait, and confirm an exit. *)
(* crates/worker/src/cancellation.rs:43-57 cancel *)
Definition escalate (store : option Store) (job : WorkerJob) (phase : CancellationPhase)
    (sig : Signal) (extra : list Signal) (a : stage_answer) (others : WorkerJob -> WorkerJob)
    (now : DateTime)
    : option Store * WorkerJob * list Signal * option (result CancellationStatus CancellationError) :=
  let (store, job) := transition save store job JCancelling (structured_phase phase) now in
  let (signals, answer) := stage job sig a in
  match answer with
  | Err e => (store, job, signals, Some (Err e))
  | Ok exit =>
      let job := others job in
      match exit with
      | Some exit =>
          let '(store, job, st) := confirmed store job exit now in
          (store, job, signals ++ extra ++ [GroupRemainder; ExecutionCgroup], Some (Ok st))
      | None => (store, job, signals ++ extra, None)
      end
  end.

(* crates/worker/src/cancellation.rs:25-98 cancel *)
Definition cancel (store : option Store) (job : WorkerJob) (graceful terminate kill : stage_answer)
    (others : nat -> WorkerJob -> WorkerJob) (now : DateTime)
    : option Store * WorkerJob * list Signal * result CancellationStatus CancellationError :=
  match Journal.terminal (journal job) with
  | Some terminal =>
      (store, job, [], Ok (status (execution_id job) CpAlreadyTerminal (Some terminal)))
  | None =>
      let '(store, job, s1, r) :=
        escalate store job CpRequested SIGINT [] graceful (others 0%nat) now in
      match r with Some r => (store, job, s1, r) | None =>
      let '(store, job, s2, r) :=
        escalate store job CpTerminatingProcessGroup SIGTERM [] terminate (others 1%nat) now in
      match r with Some r => (store, job, s1 ++ s2, r) | None =>
      let '(store, job, s3, r) :=
        escalate store job CpKillingProcessGroup SIGKILL [ExecutionCgroup] kill (others 2%nat) now in
      match r with Some r => (store, job, s1 ++ s2 ++ s3, r) | None =>
      let (store, job) := transition save store job JIndeterminate
                            (PIndeterminate "process-group kill was not confirmed") now in
      (store, job, s1 ++ s2 ++ s3, Ok (status (execution_id job) CpIndeterminate None))
      end end end
  end.

(** ** What a cancellation reports *)

Definition process_signal (s : Signal) : bool :=
  match s with SIGINT | SIGTERM | SIGKILL => true | _ => false end.

Definition sent (l : list Signal) : list Signal := filter (fun s => process_signal s = true) l.

(** A reported outcome is the one in the journal, unless its sequence numbers are
    used up. *)
Definition truthful (job : WorkerJob) (r : result CancellationStatus CancellationError) : Prop :=
  forall st, r = Ok st -> Journal.next_sequence (journal job) < u64_max ->
    cs_phase st = CpConfirmed \/ cs_phase st = CpAlreadyTerminal ->
    cs_terminal st = Journal.terminal (journal job) /\ is_Some (cs_terminal st).

Lemma confirmed_truthful store job exit now st' job' s :
  confirmed store job exit now = (st', job', s) -> truthful job' (Ok s).
Proof.
  unfold confirmed, transition, Journal.append. intros H st [= <-] Hseq _.
  destruct (Journal.terminal (journal job)) as [e|] eqn:He.
  - cbn in H. injection H as _ <- <-. cbn. rewrite He. eauto.
  - destruct (checked_add u64_max (Journal.next_sequence (journal job)) 1) eqn:Hc; cbn in H.
    + injection H as _ <- <-. cbn. eauto.
    + injection H as _ <- <-. apply checked_add_None in Hc. cbn in Hseq. lia.
Qed.

Lemma escalate_spec store job phase sig extra a others now st' job' l r :
  escalate store job phase sig extra a others now = (st', job', l, r) ->
  process_signal sig = true -> sent extra = [] ->
  (sent l = [] \/ sent l = [sig]) /\ (forall x, r = Some x -> truthful job' x).
Proof.
  intros H Hsig Hextra. unfold escalate in H.
  destruct (transition _ _ _ _ _ _) as [st1 job1].
  destruct (stage job1 sig a) as [sg answer] eqn:Hst.
  assert (sent sg = [] \/ sent sg = [sig]) as Hsg.
  { unfold stage in Hst. destruct (child job1); [|injection Hst as <- _; by left].
    destruct (sent_ok a); injection Hst as <- _; [|by left]. right.
    unfold sent. by rewrite filter_cons_True, filter_nil. }
  destruct answer as [[exit|]|e].
  - destruct (confirmed st1 (others job1) exit now) as [[st2 job2] s2] eqn:Hc.
    injection H as <- <- <- <-. split.
    + unfold sent in *. rewrite !filter_app, Hextra. cbn. by rewrite app_nil_r.
    + intros x [= <-]. by eapply confirmed_truthful.
  - injection H as _ _ <- <-. split; [|done].
    unfold sent in *. by rewrite filter_app, Hextra, app_nil_r.
  - injection H as _ _ <- <-. split; [done|]. by intros x [= <-] st [=].
Qed.

(** A cancellation escalates in order and reports the truth: it sends at most one
    interrupt, one TERM and one KILL, in that order; it neither signals nor changes
    a job that already has evidence; and the evidence of a confirmed or repeated
    cancellation is the one the journal holds, whatever other tasks did to the job
    meanwhile. *)
Theorem cancel_outcome store job graceful terminate kill others now st' job' l r :
  cancel store job graceful terminate kill others now = (st', job', l, r) ->
  sent l `sublist_of` [SIGINT; SIGTERM; SIGKILL] /\
  (is_Some (Journal.terminal (journal job)) -> l = [] /\ job' = job) /\
  truthful job' r.
Proof.
  unfold cancel. intros H.
  destruct (Journal.terminal (journal job)) as [e|] eqn:He.
  { injection H as <- <- <- <-. split_and!; [apply sublist_nil_l|done|].
    intros st [= <-] _ _. cbn. rewrite He. eauto. }
  destruct (escalate _ _ CpRequested _ _ _ _ _) as [[[st1 job1] s1] r1] eqn:E1.
  apply escalate_spec in E1 as [Hs1 Ht1]; [|done|done].
  assert (sent s1 `sublist_of` [SIGINT]) as Hsub1
    by (destruct Hs1 as [-> | ->]; [apply sublist_nil_l|done]).
  destruct r1 as [r1|].
  { injection H as <- <- <- <-. split_and!; [|by intros [? [=]]|by apply Ht1].
    etrans; [done|]. repeat constructor. }
  destruct (escalate _ _ CpTerminatingProcessGroup _ _ _ _ _) as [[[st2 job2] s2] r2] eqn:E2.
  apply escalate_spec in E2 as [Hs2 Ht2]; [|done|done].
  assert (sent (s1 ++ s2) `sublist_of` [SIGINT; SIGTERM]) as Hsub2.
  { unfold sent in *. rewrite filter_app. change [SIGINT; SIGTERM] with ([SIGINT] ++ [SIGTERM]).
    apply sublist_app; [done|].
    destruct Hs2 as [-> | ->]; [apply sublist_nil_l|done]. }
  destruct r2 as [r2|].
  { injection H as <- <- <- <-. split_and!; [|by intros [? [=]]|by apply Ht2].
    etrans; [done|]. repeat constructor. }
  destruct (escalate _ _ CpKillingProcessGroup _ _ _ _ _) as [[[st3 job3] s3] r3] eqn:E3.
  apply escalate_spec in E3 as [Hs3 Ht3]; [|done|done].
  assert (sent (s1 ++ s2 ++ s3) `sublist_of` [SIGINT; SIGTERM; SIGKILL]) as Hsub3.
  { rewrite app_assoc. unfold sent in *. rewrite (filter_app _ (s1 ++ s2)).
    change [SIGINT; SIGTERM; SIGKILL] with ([SIGINT; SIGTERM] ++ [SIGKILL]).
    apply sublist_app; [done|].
    destruct Hs3 as [-> | ->]; [apply sublist_nil_l|done]. }
  destruct r3 as [r3|].
  { injection H as <- <- <- <-. split_and!; [done|by intros [? [=]]|by apply Ht3]. }
  destruct (transition _ _ _ _ _ _) as [st4 job4]. injection H as <- <- <- <-.
  split_and!; [done|by intros [? [=]]|].
  intros st [= <-] _ [[=]|[=]].
Qed.

End Cancel.
End Cancellation.

Module JobOps.
Import WorkerJob.

Section Ops.
Context {Answer Prepared Handle Store StoreError : Type}.
Context (save : Store -> JobSummary -> result Store StoreError)
        (json_object : string -> string -> string).
Abbreviation WorkerJob := (WorkerJob Answer Prepared Handle).

(** Every way the worker's tasks change a job. *)
Inductive op :=
| OStarting (now : DateTime)
| OHandOver (pid : option Z)
| OStream (data : string) (stderr : bool) (now : DateTime)
| OEmit (payload : ExecutionEventPayload) (now : DateTime)
| ORunTurn (sig : option signal_poll) (waited : result (option ExitStatus) string)
           (deadline : bool) (now : DateTime)
| OReapTurn (reported : bool) (diagnostic reason : string) (now : DateTime)
| OSpawnFailed (reason : string) (now : DateTime)
| OCancelPhase (json : string) (now : DateTime)
| OCancelConfirmed (code signal : option Z) (now : DateTime)
| OCancelIndeterminate (reason : string) (now : DateTime)
| OQuarantine
| OAcknowledge (a : Z)
| OQuiesce (q : option Uuid)
| ORespond (b : Interaction.InteractionBroker Answer).

(** Events that are emitted on their own never close the journal. *)
Definition emitted (p : ExecutionEventPayload) : Prop := Journal.terminal_evidence p = None.

Definition run_op (st : option Store) (j : WorkerJob) (o : op) : option Store * WorkerJob :=
  match o with
  | OStarting now => transition save st j JStarting PStarting now
  | OHandOver pid => (hand_over save st j pid).1
  | OStream data stderr now => (st, stream_output j data stderr now)
  | OEmit p now => if decide (emitted p) then (st, emit j p now) else (st, j)
  | ORunTurn sig waited deadline now => (run_turn save json_object st j sig waited deadline now).1
  | OReapTurn reported diagnostic reason now =>
      (reap_turn save json_object st j reported diagnostic reason now).1.1
  | OSpawnFailed reason now =>
      finish_failed save json_object st j None ("failed to start process: " +:+ reason) now
  | OCancelPhase json now => transition save st j JCancelling (PStructured json) now
  | OCancelConfirmed c sg now =>
      transition save st j JKilled
        (PKilled {| te_state := TsKilled; te_exit_code := c; te_signal := sg;
                    te_observed_at := now |}) now
  | OCancelIndeterminate reason now =>
      transition save st j JIndeterminate (PIndeterminate reason) now
  | OQuarantine => let j := with_state JQuarantined j in (persist save st j, j)
  | OAcknowledge a => (st, with_acknowledged a j)
  | OQuiesce q => (st, with_quiesced q j)
  | ORespond b => (st, with_interactions b j)
  end.

Definition run_ops (st : option Store) (j : WorkerJob) (ops : list op)
    : option Store * WorkerJob :=
  foldl (fun sj o => run_op sj.1 sj.2 o) (st, j) ops.

Definition state_of (e : TerminalEvidence) : JobState :=
  match te_state e with
  | TsCompleted => JCompleted
  | TsFailed => JFailed
  | TsKilled => JKilled
  | TsInterrupted => JInterrupted
  end.

(** The state of a finished job is its evidence's, unless it was quarantined. *)
Definition agrees (j : WorkerJob) : Prop :=
  forall e, Journal.terminal (journal j) = Some e ->
    state j = state_of e \/ state j = JQuarantined.

(** What one operation may do to the pair of state and journal. *)
Inductive effect (j j' : WorkerJob) : Prop :=
| EffSame : journal j' = journal j -> state j' = state j -> effect j j'
| EffQuarantine : journal j' = journal j -> state j' = JQuarantined -> effect j j'
| EffLive : journal j' = journal j -> JobState_is_terminal (state j) = false -> effect j j'
| EffAppend p now :
    journal j' = (Journal.append (journal j) now p).1 ->
    (is_ok (Journal.append (journal j) now p).2 = true ->
     forall e, Journal.terminal_evidence p = Some e -> state j' = state_of e) ->
    (is_ok (Journal.append (journal j) now p).2 = false -> state j' = state j) ->
    effect j j'.

Lemma append_terminal l now p :
  Journal.terminal (Journal.append l now p).1 =
    match Journal.terminal l with
    | Some e => Some e
    | None => if is_ok (Journal.append l now p).2 then Journal.terminal_evidence p else None
    end.
Proof.
  unfold Journal.append. destruct (Journal.terminal l) eqn:Ht; [done|].
  by destruct (checked_add _ _ _).
Qed.

Lemma append_closed l now p e :
  Journal.terminal l = Some e ->
  Journal.append l now p = (l, Err Journal.AlreadyTerminal).
Proof. intros Ht. unfold Journal.append. by rewrite Ht. Qed.

Lemma transition_effect st j s p now :
  (forall e, Journal.terminal_evidence p = Some e -> s = state_of e) ->
  effect j (transition save st j s p now).2.
Proof.
  intros Hs. unfold transition. destruct (Journal.append (journal j) now p) as [l r] eqn:Ha.
  destruct r as [n|e]; cbn; apply (EffAppend _ _ p now); rewrite Ha; cbn; naive_solver.
Qed.

Lemma emit_effect j p now : emitted p -> effect j (emit j p now).
Proof.
  intros Hp. apply (EffAppend _ _ p now); [done| |done].
  unfold emitted in Hp. rewrite Hp. done.
Qed.

Lemma finish_effect st j s c sg now :
  s <> TsInterrupted -> effect j (finish save st j s c sg now).2.
Proof.
  intros Hs. unfold finish. destruct (report s _) as [js p] eqn:Hr.
  assert (effect j (transition save st j js p now).2) as He.
  { apply transition_effect. unfold report in Hr.
    destruct s; try done; injection Hr as <- <-; by intros e [= <-]. }
  destruct (transition save st j js p now) as [st' j']. cbn in *.
  destruct He as [H1 H2|H1 H2|H1 H2|p' now' H1 H2 H3];
    [by apply EffSame|by apply EffQuarantine|by apply EffLive|by apply (EffAppend _ _ p' now')].
Qed.

(** The effects of a job's operations compose to journals that only grow and to
    agreement. *)
Definition sound (j j' : WorkerJob) : Prop :=
  (agrees j -> agrees j') /\
  (forall e, Journal.terminal (journal j) = Some e -> journal j' = journal j).

Lemma state_of_terminal e : JobState_is_terminal (state_of e) = true.
Proof. unfold state_of. by destruct (te_state e). Qed.

Lemma agrees_terminal j e :
  agrees j -> Journal.terminal (journal j) = Some e -> JobState_is_terminal (state j) = true.
Proof. intros Ha He. destruct (Ha e He) as [-> | ->]; [apply state_of_terminal|done]. Qed.

Lemma effect_sound j j' : effect j j' -> sound j j'.
Proof.
  intros [Hj Hs|Hj Hs|Hj Hs|p now Hj Hok Herr]; (split; [|intros e He; rewrite Hj; try done]).
  - intros Ha e. rewrite Hj, Hs. apply Ha.
  - intros _ e _. by right.
  - intros Ha e. rewrite Hj. intros He. by rewrite (agrees_terminal j e Ha He) in Hs.
  - intros Ha e. rewrite Hj, append_terminal.
    destruct (Journal.terminal (journal j)) as [e0|] eqn:He.
    + intros [= <-]. rewrite (append_closed _ now p e0 He) in Herr. rewrite Herr by done.
      by apply Ha.
    + destruct (is_ok _) eqn:Hr; [|done]. intros He'. left. by apply Hok.
  - by rewrite (append_closed _ now p e He).
Qed.

Lemma sound_trans j1 j2 j3 : sound j1 j2 -> sound j2 j3 -> sound j1 j3.
Proof.
  intros (A1 & B1) (A2 & B2). split; [auto|].
  intros e He. rewrite <- (B1 e He). apply (B2 e). by rewrite (B1 e He).
Qed.

Lemma finish_failed_sound st j c reason now :
  sound j (finish_failed save json_object st j c reason now).2.
Proof.
  unfold finish_failed. eapply sound_trans;
    [apply effect_sound, (emit_effect j (PStructured (json_object "worker_error" reason)) now);
     done|].
  apply effect_sound.
  assert (effect (emit j (PStructured (json_object "worker_error" reason)) now)
    (transition save st (emit j (PStructured (json_object "worker_error" reason)) now) JFailed
       (PFailed (terminal_evidence TsFailed c None now)) now).2) as He
    by (apply transition_effect; by intros e [= <-]).
  destruct (transition save st _ _ _ _) as [st' j']. cbn in *.
  destruct He as [H1 H2|H1 H2|H1 H2|p' now' H1 H2 H3];
    [by apply EffSame|by apply EffQuarantine|by apply EffLive|by apply (EffAppend _ _ p' now')].
Qed.

Lemma run_turn_sound st j sig waited deadline now :
  sound j (run_turn save json_object st j sig waited deadline now).1.2.
Proof.
  assert (forall r, sound j (finish_executor_result save st j r now).2) as Hres.
  { intros r. apply effect_sound, finish_effect. unfold executor_terminal_state.
    case_decide; [done|]. by destruct r. }
  unfold run_turn.
  assert (forall st : ExitStatus, sound j (finish_status save None j st now).2) as _ by
    (intros; apply effect_sound, finish_effect; by repeat case_match).
  destruct sig as [[r| |]|].
  - apply Hres.
  - cbn. case_decide; [apply Hres|apply finish_failed_sound].
  - destruct waited as [[ex|]|]; [|destruct deadline|]; cbn; try apply finish_failed_sound.
    + apply effect_sound, finish_effect. by repeat case_match.
    + apply effect_sound. by apply EffSame.
  - destruct waited as [[ex|]|]; [|destruct deadline|]; cbn; try apply finish_failed_sound.
    + apply effect_sound, finish_effect. by repeat case_match.
    + apply effect_sound. by apply EffSame.
Qed.

Lemma run_op_sound st j o : sound j (run_op st j o).2.
Proof.
  destruct o as [now|pid|data stderr now|p now|sig waited deadline now|reported dg reason now
                |reason now|json now|c sg now|reason now| |a|q|b]; cbn [run_op].
  - by apply effect_sound, transition_effect.
  - unfold hand_over. destruct (JobState_is_terminal (state j)) eqn:Ht; apply effect_sound;
      [by apply EffSame|by apply EffLive].
  - apply (sound_trans _ (with_output_seen j)); [by apply effect_sound, EffSame|].
    apply effect_sound, emit_effect. by destruct stderr.
  - case_decide; apply effect_sound; [by apply emit_effect|by apply EffSame].
  - apply run_turn_sound.
  - unfold reap_turn. destruct (_ || _); [by apply effect_sound, EffSame|].
    destruct (child j).
    + destruct (quiesced_by j); [by apply effect_sound, EffSame|].
      pose proof (finish_failed_sound st j None reason now) as H.
      by destruct (finish_failed save json_object st j None reason now).
    + destruct reported; [by apply effect_sound, EffSame|]. by apply effect_sound, emit_effect.
  - apply finish_failed_sound.
  - by apply effect_sound, transition_effect.
  - apply effect_sound, transition_effect. by intros e [= <-].
  - by apply effect_sound, transition_effect.
  - by apply effect_sound, EffQuarantine.
  - by apply effect_sound, EffSame.
  - by apply effect_sound, EffSame.
  - by apply effect_sound, EffSame.
Qed.

Lemma run_ops_sound st j ops : sound j (run_ops st j ops).2.
Proof.
  unfold run_ops. revert st j. induction ops as [|o ops IH]; intros st j; cbn.
  - by apply effect_sound, EffSame.
  - eapply sound_trans; [apply (run_op_sound st j o)|].
    destruct (run_op st j o) as [st' j']. apply IH.
Qed.

(** C7: Terminal evidence is final: once a job's journal holds it, no operation of any
    task, in any order, changes the journal or its evidence again. *)
Theorem evidence_is_final st j ops e :
  Journal.terminal (journal j) = Some e ->
  journal (run_ops st j ops).2 = journal j.
Proof. intros He. by apply (proj2 (run_ops_sound st j ops) e). Qed.

(** As long as each operation runs undisturbed, a finished job says so: from a
    job without evidence, after any operations, the job's state is its evidence's
    or quarantined, so it is terminal. *)
Theorem state_agrees_with_evidence st j ops e :
  Journal.terminal (journal j) = None ->
  Journal.terminal (journal (run_ops st j ops).2) = Some e ->
  let s := state (run_ops st j ops).2 in
  (s = state_of e \/ s = JQuarantined) /\ JobState_is_terminal s = true.
Proof.
  intros Hn He. assert (agrees (run_ops st j ops).2) as Ha.
  { apply (proj1 (run_ops_sound st j ops)). intros e' He'. congruence. }
  split; [by apply Ha|by eapply agrees_terminal].
Qed.

End Ops.
End JobOps.

Module Race.
Import WorkerJob JobOps.

Section Race.
Context {Answer Prepared Handle : Type}.
Abbreviation WorkerJob := (WorkerJob Answer Prepared Handle).

(** [cancel], between the locks it takes. *)
Inductive cancel_pc :=
| CStart        (* about to read the evidence *)
| CChecked      (* no evidence; about to append the Requested phase *)
| CAppended     (* appended; about to write the state *)
| CSignalled    (* waiting for the exit *)
| CConfirming   (* Killed appended; about to write the state *)
| CDone (p : CancellationPhase).

(** [finish_status] of the task that owns the process. *)
Inductive exit_pc :=
| XStart                    (* about to read the state *)
| XRead (s : TerminalState) (* about to append the terminal event *)
| XAppended (s : JobState)  (* appended; about to write the state *)
| XDone.

Definition config : Type := (WorkerJob * cancel_pc * exit_pc)%type.

Definition appended (j : WorkerJob) (p : ExecutionEventPayload) (now : DateTime) : WorkerJob :=
  with_journal (Journal.append (journal j) now p).1 j.

Definition accepts (j : WorkerJob) (p : ExecutionEventPayload) (now : DateTime) : bool :=
  is_ok (Journal.append (journal j) now p).2.

(** The process has exited with [status]; each rule takes one lock. *)
(* crates/worker/src/cancellation.rs:35-61 cancel *)
Inductive step (status : ExitStatus) (phase : string) : config -> config -> Prop :=
| StepCheckTerminal j x :
    is_Some (Journal.terminal (journal j)) ->
    step status phase (j, CStart, x) (j, CDone CpAlreadyTerminal, x)
| StepCheck j x :
    Journal.terminal (journal j) = None ->
    step status phase (j, CStart, x) (j, CChecked, x)
| StepRequest j x now :
    step status phase (j, CChecked, x)
      (appended j (PStructured phase) now,
       if accepts j (PStructured phase) now then CAppended else CSignalled, x)
| StepCancelling j x :
    step status phase (j, CAppended, x) (with_state JCancelling j, CSignalled, x)
| StepConfirm j x now e :
    e = terminal_evidence TsKilled (code status) (signal status) now ->
    step status phase (j, CSignalled, x)
      (appended j (PKilled e) now,
       if accepts j (PKilled e) now then CConfirming else CDone CpConfirmed, x)
| StepKilled j x :
    step status phase (j, CConfirming, x) (with_state JKilled j, CDone CpConfirmed, x)
| StepRead j c :
    step status phase (j, c, XStart)
      (j, c, XRead (if decide (state j = JCancelling) then TsKilled
                    else if success status then TsCompleted else TsFailed))
| StepFinish j c s now js p :
    report s (terminal_evidence s (code status) (signal status) now) = (js, p) ->
    step status phase (j, c, XRead s)
      (appended j p now, c, if accepts j p now then XAppended js else XDone)
| StepWrite j c js :
    step status phase (j, c, XAppended js) (with_state js j, c, XDone).

Lemma append_open l now p :
  Journal.terminal l = None -> Journal.next_sequence l + 1 <= u64_max ->
  exists l', Journal.append l now p = (l', Ok (Journal.next_sequence l)) /\
    Journal.terminal l' = Journal.terminal_evidence p /\
    Journal.next_sequence l' = Journal.next_sequence l + 1.
Proof.
  intros Ht Hn. unfold Journal.append. rewrite Ht. unfold checked_add.
  rewrite decide_True by done. eauto.
Qed.

Section Stuck.
Context {Store StoreError : Type}.
Context (save : Store -> JobSummary -> result Store StoreError)
        (json_object : string -> string -> string).

(** The operations of tasks that can still run once the journal is closed:
    everything but the coordinator's quarantine and the one hand-over of the
    child. *)
Definition ordinary (o : op (Answer := Answer)) : Prop :=
  match o with OQuarantine | OHandOver _ => False | _ => True end.

Lemma closed_transition st (j : WorkerJob) s p now e :
  Journal.terminal (journal j) = Some e ->
  (transition save st j s p now).2 = with_journal (journal j) j.
Proof. intros He. unfold transition. by rewrite (append_closed _ now p e He). Qed.

Lemma closed_finish_failed st (j : WorkerJob) c reason now e :
  Journal.terminal (journal j) = Some e ->
  state (finish_failed save json_object st j c reason now).2 = state j.
Proof.
  intros He. unfold finish_failed, transition, emit. cbn.
  rewrite (append_closed _ now _ e He). cbn. by rewrite (append_closed _ now _ e He).
Qed.

Lemma closed_finish st (j : WorkerJob) s c sg now e :
  Journal.terminal (journal j) = Some e ->
  state (finish save st j s c sg now).2 = state j.
Proof.
  intros He. unfold finish. destruct (report s _) as [js p]. unfold transition.
  by rewrite (append_closed _ now p e He).
Qed.

Lemma closed_state st (j : WorkerJob) o e :
  ordinary o -> Journal.terminal (journal j) = Some e ->
  state (run_op save json_object st j o).2 = state j.
Proof.
  intros Ho He.
  destruct o as [now|pid|data stderr now|p now|sig waited deadline now|reported dg reason now
                |reason now|json now|c sg now|reason now| |a|q|b]; try done; cbn [run_op].
  - by rewrite (closed_transition st j _ _ now e He).
  - by case_decide.
  - unfold run_turn, finish_executor_result, finish_status.
    destruct sig as [[r| |]|]; [by apply (closed_finish _ _ _ _ _ _ e)| | |].
    1: { cbn. case_decide; [by apply (closed_finish _ _ _ _ _ _ e)|
           by apply (closed_finish_failed _ _ _ _ _ e)]. }
    all: destruct waited as [[ex|]|]; [|destruct deadline|]; cbn; try done;
      first [by apply (closed_finish _ _ _ _ _ _ e)|by apply (closed_finish_failed _ _ _ _ _ e)].
  - unfold reap_turn. destruct (_ || _); [done|]. destruct (child j).
    + destruct (quiesced_by j); [done|].
      pose proof (closed_finish_failed st j None reason now e He) as H.
      by destruct (finish_failed save json_object st j None reason now).
    + by destruct reported.
  - by apply (closed_finish_failed _ _ _ _ _ e).
  - by rewrite (closed_transition st j _ _ now e He).
  - by rewrite (closed_transition st j _ _ now e He).
  - by rewrite (closed_transition st j _ _ now e He).
Qed.

Lemma closed_states st (j : WorkerJob) ops e :
  Forall ordinary ops -> Journal.terminal (journal j) = Some e ->
  state (run_ops save json_object st j ops).2 = state j.
Proof.
  unfold run_ops. intros Hops. revert st j. induction Hops as [|o ops Ho _ IH]; intros st j He.
  - done.
  - cbn. pose proof (closed_state st j o e Ho He) as Hs.
    pose proof (proj2 (run_op_sound save json_object st j o) e He) as Hj.
    destruct (run_op save json_object st j o) as [st' j']. cbn in *.
    rewrite IH; [done|by rewrite Hj].
Qed.

(** Code bug: a cancellation that races the exit can leave a finished job
    "cancelling" for good.  [transition] appends to the journal and writes the
    state under two locks, so the [Cancelling] of a request appended before the
    terminal event can land after the terminal state: from any running job the
    interleaving below ends with the completion recorded in the journal and the
    state [Cancelling], the cancellation reports [Confirmed], every later operation
    but a quarantine or a late hand-over leaves it so, and the job counts against a
    release drain although its process has exited. *)
Theorem cancel_exit_race st (j : WorkerJob) now phase :
  state j = JRunning -> Journal.terminal (journal j) = None ->
  Journal.next_sequence (journal j) + 2 <= u64_max ->
  exists j',
    rtc (step {| code := Some 0; signal := None |} phase)
      (j, CStart, XStart) (j', CDone CpConfirmed, XDone) /\
    Journal.terminal (journal j') = Some (terminal_evidence TsCompleted (Some 0) None now) /\
    state j' = JCancelling /\
    forall ops, Forall ordinary ops ->
      state (run_ops save json_object st j' ops).2 = JCancelling /\
      is_active_for_drain (fun _ => true) (run_ops save json_object st j' ops).2 = true.
Proof.
  intros Hs Ht Hn. set (status := {| code := Some 0; signal := None |}).
  set (e := terminal_evidence TsCompleted (Some 0) None now).
  destruct (append_open (journal j) now (PStructured phase)) as (l1 & Ha1 & Ht1 & Hn1);
    [done|lia|]. cbn in Ht1.
  set (j1 := with_journal l1 j).
  assert (appended j (PStructured phase) now = j1) as Hj1 by (unfold appended; by rewrite Ha1).
  destruct (append_open (journal j1) now (PCompleted e)) as (l2 & Ha2 & Ht2 & Hn2);
    [done|cbn; lia|]. cbn in Ht2.
  set (j2 := with_journal l2 j1).
  assert (appended j1 (PCompleted e) now = j2) as Hj2 by (unfold appended; by rewrite Ha2).
  set (j3 := with_state JCancelling (with_state JCompleted j2)).
  assert (Journal.terminal (journal j3) = Some e) as Hclosed by done.
  set (k := terminal_evidence TsKilled (Some 0) None now).
  assert (appended j3 (PKilled k) now = j3) as Hj3.
  { unfold appended. by rewrite (append_closed _ now _ e Hclosed). }
  exists j3. split_and!; [|done|done|].
  - eapply rtc_l; [by apply StepCheck|].
    eapply rtc_l; [apply (StepRead status phase)|]. rewrite Hs. cbn.
    eapply rtc_l; [apply (StepRequest status phase _ _ now)|].
    unfold accepts. rewrite Ha1, Hj1. cbn [is_ok snd].
    eapply rtc_l; [by apply (StepFinish status phase j1 CAppended TsCompleted now JCompleted
                               (PCompleted e))|].
    unfold accepts. rewrite Ha2, Hj2. cbn [is_ok snd].
    eapply rtc_l; [apply (StepWrite status phase)|].
    eapply rtc_l; [apply (StepCancelling status phase)|]. fold j3.
    eapply rtc_l; [by apply (StepConfirm status phase j3 XDone now k)|].
    unfold accepts. rewrite Hj3, (append_closed _ now _ e Hclosed). apply rtc_refl.
  - intros ops Hops.
    assert (state (run_ops save json_object st j3 ops).2 = JCancelling) as Hst
      by by rewrite (closed_states st j3 ops e).
    split; [done|]. unfold is_active_for_drain. by rewrite Hst.
Qed.

End Stuck.
End Race.
End Race.

(** ** Concrete jobs *)
Module LifecycleSamples.
Import WorkerJob.

Definition save (st : unit) (sm : JobSummary) : result unit unit := Ok tt.
Definition json (k v : string) : string := k +:+ ":" +:+ v.

Definition opened : Journal.EventJournal :=
  append_all {| Journal.execution_id := 1%N; Journal.capacity := 16; Journal.next_sequence := 1;
                Journal.events := []; Journal.terminal := None |}
    [(1, PAccepted); (2, PStarting)].

Definition running : WorkerJob unit unit unit :=
  with_child (Some {| leader := Some 100 |}) 100
    (fresh_job 1 77 9 "d" JRunning opened).

Definition exit0 : ExitStatus := {| code := Some 0; signal := None |}.

Definition finished : WorkerJob unit unit unit :=
  (JobOps.run_ops save json (Some tt) running
     [JobOps.ORunTurn None (Ok (Some exit0)) false 5]).2.

Definition stubborn (o : result (option ExitStatus) unit) : Cancellation.stage_answer :=
  {| Cancellation.sent_ok := true; Cancellation.observed := o |}.

Definition cancelled :=
  Cancellation.cancel save (fun _ => "phase") (Some tt) running (stubborn (Ok None))
    (stubborn (Ok (Some {| code := None; signal := Some 15 |}))) (stubborn (Ok None))
    (fun _ j => j) 9.

End LifecycleSamples.
Import LifecycleSamples.

Example cancel_sample :
  let '(_, job, signals, r) := cancelled in
  signals = [Cancellation.SIGINT; Cancellation.SIGTERM; Cancellation.GroupRemainder;
             Cancellation.ExecutionCgroup] /\
  WorkerJob.state job = JKilled /\
  (exists st, r = Ok st /\ cs_phase st = CpConfirmed).
Proof. vm_compute. eauto 10. Qed.

Lemma cancel_outcome_witness :
  Cancellation.sent cancelled.1.2
    `sublist_of` [Cancellation.SIGINT; Cancellation.SIGTERM; Cancellation.SIGKILL].
Proof.
  edestruct (Cancellation.cancel_outcome save (fun _ => "phase") (Some tt) running
               (stubborn (Ok None))
               (stubborn (Ok (Some {| WorkerJob.code := None; WorkerJob.signal := Some 15 |})))
               (stubborn (Ok None)) (fun _ j => j) 9
               cancelled.1.1.1 cancelled.1.1.2 cancelled.1.2 cancelled.2) as [H _];
    [vm_compute; reflexivity|exact H].
Defined.

Lemma evidence_is_final_witness :
  WorkerJob.journal
    (JobOps.run_ops save json (Some tt) finished
       [JobOps.OCancelPhase "p" 6; JobOps.OCancelConfirmed None (Some 9) 7;
        JobOps.OQuarantine]).2
  = WorkerJob.journal finished.
Proof.
  apply (JobOps.evidence_is_final save json (Some tt) finished _
           (WorkerJob.terminal_evidence TsCompleted (Some 0) None 5)).
  vm_compute. reflexivity.
Defined.

Lemma state_agrees_with_evidence_witness :
  JobState_is_terminal (WorkerJob.state finished) = true.
Proof.
  refine (proj2 (JobOps.state_agrees_with_evidence save json (Some tt) running
    [JobOps.ORunTurn None (Ok (Some exit0)) false 5]
    (WorkerJob.terminal_evidence TsCompleted (Some 0) None 5) _ _)); vm_compute; reflexivity.
Defined.

Lemma cancel_exit_race_witness :
  exists j' : WorkerJob.WorkerJob unit unit unit, WorkerJob.state j' = JCancelling.
Proof.
  edestruct (Race.cancel_exit_race save json (Some tt) running 5 "phase")
    as (j' & _ & _ & H & _); [reflexivity|reflexivity|vm_compute; discriminate|].
  exists j'. exact H.
Defined.
