(* ===== verification/Browser.v ===== *)
(** * Who controls a browser session

    [Module Arbiter] is crates/services/src/services/browser/arbiter.rs with the
    identities of types.rs: the control lease of one session, a pure state machine
    whose generation is what later invalidates queued commands.  Adding the lease
    duration to a time is exact; the generation wraps like a [u64]. *)
From S2P Require Import Prelude.

Module Arbiter.

(* crates/services/src/services/browser/types.rs:7-18 BrowserController *)
Inductive BrowserController :=
| Nobody
| Agent (execution_id : Uuid)
| Human (user_id : string) (connection_id : Uuid).

(* crates/services/src/services/browser/types.rs:21-23 BrowserController::is_none *)
Definition is_none (c : BrowserController) : bool :=
  match c with Nobody => true | _ => false end.

(* crates/services/src/services/browser/types.rs:40-51 ControlPrincipal *)
Inductive ControlPrincipal :=
| AgentPrincipal (execution_id : Uuid)
| HumanPrincipal (user_id : string) (connection_id : Uuid).

#[export] Instance BrowserController_eq_dec : EqDecision BrowserController.
Proof. solve_decision. Defined.
#[export] Instance ControlPrincipal_eq_dec : EqDecision ControlPrincipal.
Proof. solve_decision. Defined.

(* crates/services/src/services/browser/types.rs:54-67 ControlPrincipal::to_controller *)
Definition to_controller (p : ControlPrincipal) : BrowserController :=
  match p with
  | AgentPrincipal execution_id => Agent execution_id
  | HumanPrincipal user_id connection_id => Human user_id connection_id
  end.

(* crates/services/src/services/browser/types.rs:69-71 ControlPrincipal::matches *)
Definition matches (p : ControlPrincipal) (c : BrowserController) : bool :=
  bool_decide (to_controller p = c).

(* crates/services/src/services/browser/types.rs:74-86 ControlTransitionReason *)
Inductive ControlTransitionReason :=
| Acquire | Release | Transfer | Takeover | Expired | Disconnected
| ExecutionCompleted | Closed.

(* crates/services/src/services/browser/types.rs:235-284 BrowserSessionError *)
Inductive BrowserSessionError :=
| ControlConflict (controller : BrowserController) (generation : Z)
| StaleGeneration (controller : BrowserController) (generation : Z)
| ControlLost (controller : BrowserController) (generation : Z)
| NoRunningExecution
| SessionClosed
| NotFound
| BrowserUnavailable (message : string)
| CapabilityDenied (capability : string)
| Driver (message : string)
| Timeout
| Storage (message : string)
| ExecutionNotInWorkspace.

(* crates/services/src/services/browser/arbiter.rs:15-21 ControlArbiter *)
Record ControlArbiter := {
  controller : BrowserController;
  generation : Z;
  lease_expires_at : option DateTime;
  lease_ttl : Duration;
}.

(* crates/services/src/services/browser/arbiter.rs:23-29 Transition *)
Record Transition := {
  t_controller : BrowserController;
  t_generation : Z;
  t_reason : ControlTransitionReason;
}.

(* crates/services/src/services/browser/arbiter.rs:31-36 TransferTarget *)
Inductive TransferTarget := TargetNone | TargetAgent (execution_id : Uuid).

(* crates/services/src/services/browser/arbiter.rs:39-46 ControlArbiter::new *)
Definition new (lease_ttl : Duration) : ControlArbiter :=
  {| controller := Nobody; generation := 0; lease_expires_at := None; lease_ttl := lease_ttl |}.

(* crates/services/src/services/browser/types.rs:103-110 BrowserControlState *)
Record BrowserControlState := {
  bc_controller : BrowserController;
  bc_generation : Z;
  bc_lease_expires_at : option DateTime;
}.

(* crates/services/src/services/browser/arbiter.rs:64-70 ControlArbiter::state *)
Definition state (a : ControlArbiter) : BrowserControlState :=
  {| bc_controller := controller a; bc_generation := generation a;
     bc_lease_expires_at := lease_expires_at a |}.

(* crates/services/src/services/browser/arbiter.rs:80-85 ControlArbiter::conflict *)
Definition conflict (a : ControlArbiter) : BrowserSessionError :=
  ControlConflict (controller a) (generation a).

(* crates/services/src/services/browser/arbiter.rs:87-92 ControlArbiter::stale *)
Definition stale (a : ControlArbiter) : BrowserSessionError :=
  StaleGeneration (controller a) (generation a).

Definition describe (a : ControlArbiter) (reason : ControlTransitionReason) : Transition :=
  {| t_controller := controller a; t_generation := generation a; t_reason := reason |}.

(* crates/services/src/services/browser/arbiter.rs:94-112 ControlArbiter::transition *)
Definition transition (a : ControlArbiter) (c : BrowserController)
    (reason : ControlTransitionReason) (now : DateTime) : ControlArbiter * Transition :=
  let a := {| controller := c;
              generation := (generation a + 1) mod (u64_max + 1);
              lease_expires_at := if is_none c then None else Some (now + lease_ttl a);
              lease_ttl := lease_ttl a |} in
  (a, describe a reason).

(* crates/services/src/services/browser/arbiter.rs:50-62 ControlArbiter::expire_if_lapsed *)
Definition expire_if_lapsed (a : ControlArbiter) (now : DateTime)
    : ControlArbiter * option Transition :=
  if is_none (controller a) then (a, None) else
  match lease_expires_at a with
  | Some deadline =>
      if decide (deadline <= now) then
        let (a, t) := transition a Nobody Expired now in (a, Some t)
      else (a, None)
  | None => (a, None)
  end.

(** The lease runs anew from [now]. *)
Definition renew (a : ControlArbiter) (now : DateTime) : ControlArbiter :=
  {| controller := controller a; generation := generation a;
     lease_expires_at := Some (now + lease_ttl a); lease_ttl := lease_ttl a |}.

Definition unexpected (a : ControlArbiter) (expected : option Z) : bool :=
  match expected with Some g => bool_decide (g <> generation a) | None => false end.

(** Who may take the lease from its holder, and what that is called. *)
(* crates/services/src/services/browser/arbiter.rs:144-155 ControlArbiter::acquire *)
Definition may_acquire (a : ControlArbiter) (p : ControlPrincipal)
    (take_from_agent force : bool) : bool * ControlTransitionReason :=
  match controller a, p with
  | Nobody, _ => (true, Acquire)
  | Agent _, HumanPrincipal _ _ =>
      if take_from_agent || force then (true, Takeover) else (false, Acquire)
  | _, HumanPrincipal _ _ => if force then (true, Takeover) else (false, Acquire)
  | _, _ => (false, Acquire)
  end.

(* crates/services/src/services/browser/arbiter.rs:122-160 ControlArbiter::acquire *)
Definition acquire (a : ControlArbiter) (p : ControlPrincipal) (take_from_agent force : bool)
    (expected_generation : option Z) (now : DateTime)
    : ControlArbiter * result Transition BrowserSessionError :=
  let (a, _) := expire_if_lapsed a now in
  if unexpected a expected_generation then (a, Err (stale a))
  else if matches p (controller a) then
    let a := renew a now in (a, Ok (describe a Acquire))
  else
    let (allowed, reason) := may_acquire a p take_from_agent force in
    if allowed then
      let (a, t) := transition a (to_controller p) reason now in (a, Ok t)
    else (a, Err (conflict a)).

(* crates/services/src/services/browser/arbiter.rs:165-194 ControlArbiter::release *)
Definition release (a : ControlArbiter) (p : ControlPrincipal)
    (expected_generation : option Z) (now : DateTime)
    : ControlArbiter * result Transition BrowserSessionError :=
  let (a, _) := expire_if_lapsed a now in
  if unexpected a expected_generation then (a, Err (stale a))
  else if is_none (controller a) then (a, Ok (describe a Release))
  else if negb (matches p (controller a)) then (a, Err (conflict a))
  else let (a, t) := transition a Nobody Release now in (a, Ok t).

(* crates/services/src/services/browser/arbiter.rs:198-220 ControlArbiter::transfer *)
Definition transfer (a : ControlArbiter) (p : ControlPrincipal) (target : TransferTarget)
    (expected_generation : Z) (now : DateTime)
    : ControlArbiter * result Transition BrowserSessionError :=
  let (a, _) := expire_if_lapsed a now in
  if unexpected a (Some expected_generation) then (a, Err (stale a))
  else if is_none (controller a) then (a, Err (conflict a))
  else if negb (matches p (controller a)) then (a, Err (conflict a))
  else
    let next := match target with
                | TargetNone => Nobody
                | TargetAgent execution_id => Agent execution_id
                end in
    let (a, t) := transition a next Transfer now in (a, Ok t).

(* crates/services/src/services/browser/arbiter.rs:225-239 ControlArbiter::release_if *)
Definition release_if (a : ControlArbiter) (predicate : BrowserController -> bool)
    (reason : ControlTransitionReason) (now : DateTime) : ControlArbiter * option Transition :=
  if is_none (controller a) then (a, None)
  else if predicate (controller a) then
    let (a, t) := transition a Nobody reason now in (a, Some t)
  else (a, None).

(* crates/services/src/services/browser/arbiter.rs:244-261 ControlArbiter::admit_command *)
Definition admit_command (a : ControlArbiter) (p : ControlPrincipal)
    (expected_generation : option Z) (now : DateTime)
    : ControlArbiter * result Z BrowserSessionError :=
  let (a, _) := expire_if_lapsed a now in
  if unexpected a expected_generation then (a, Err (stale a))
  else if negb (matches p (controller a)) then (a, Err (conflict a))
  else let a := renew a now in (a, Ok (generation a)).

(* crates/services/src/services/browser/arbiter.rs:266-274 ControlArbiter::recheck_generation *)
Definition recheck_generation (a : ControlArbiter) (admitted_generation : Z)
    : result unit BrowserSessionError :=
  if decide (admitted_generation <> generation a)
  then Err (ControlLost (controller a) (generation a)) else Ok tt.

End Arbiter.

(** ** The lease *)
Module ArbiterFacts.
Import Arbiter.

(** Everything that changes an arbiter. *)
Inductive op :=
| OpAcquire (p : ControlPrincipal) (take_from_agent force : bool) (expected : option Z)
    (now : DateTime)
| OpRelease (p : ControlPrincipal) (expected : option Z) (now : DateTime)
| OpTransfer (p : ControlPrincipal) (target : TransferTarget) (expected : Z) (now : DateTime)
| OpReleaseIf (predicate : BrowserController -> bool) (reason : ControlTransitionReason)
    (now : DateTime)
| OpExpire (now : DateTime)
| OpAdmit (p : ControlPrincipal) (expected : option Z) (now : DateTime).

Definition run_op (a : ControlArbiter) (o : op) : ControlArbiter :=
  match o with
  | OpAcquire p take force expected now => (acquire a p take force expected now).1
  | OpRelease p expected now => (release a p expected now).1
  | OpTransfer p target expected now => (transfer a p target expected now).1
  | OpReleaseIf predicate reason now => (release_if a predicate reason now).1
  | OpExpire now => (expire_if_lapsed a now).1
  | OpAdmit p expected now => (admit_command a p expected now).1
  end.

(** What one operation may do to the generation: at most [n] steps forward, and
    nothing to the holder if none. *)
Definition moved (n : Z) (a a' : ControlArbiter) : Prop :=
  generation a' = generation a /\ controller a' = controller a \/
  generation a < generation a' <= generation a + n.

Lemma moved_refl n a : moved n a a.
Proof. by left. Qed.

Lemma moved_trans n m a b c : 0 <= n -> 0 <= m -> moved n a b -> moved m b c -> moved (n + m) a c.
Proof. unfold moved. intros Hn Hm [[? ?]|?] [[? ?]|?]; [left; split; congruence|right; lia..]. Qed.

Lemma moved_renew n a now : moved n a (renew a now).
Proof. by left. Qed.

Lemma moved_transition a c reason now :
  0 <= generation a < u64_max -> moved 1 a (transition a c reason now).1.
Proof. intros H. right. cbn. rewrite Z.mod_small by (unfold u64_max in *; lia). lia. Qed.

Lemma moved_expire a now :
  0 <= generation a < u64_max -> moved 1 a (expire_if_lapsed a now).1.
Proof.
  intros H. unfold expire_if_lapsed. destruct (is_none _); [apply moved_refl|].
  destruct (lease_expires_at a); [|apply moved_refl]. case_decide; [|apply moved_refl].
  by apply (moved_transition a Nobody Expired now).
Qed.

Lemma moved_after a a1 :
  0 <= generation a -> generation a + 2 <= u64_max -> moved 1 a a1 ->
  moved 2 a a1 /\ (forall now, moved 2 a (renew a1 now)) /\
  (forall c reason now, moved 2 a (transition a1 c reason now).1).
Proof.
  intros H0 H2 Hm. change 2 with (1 + 1).
  split_and!; intros; (eapply moved_trans; [lia|lia|exact Hm|]);
    [apply moved_refl|apply moved_renew|].
  apply moved_transition. unfold moved in Hm. lia.
Qed.

(** Every operation expires the lease first and then makes at most one move. *)
Ltac one_move H1 H2 H3 :=
  repeat case_match; simplify_eq; cbn [fst];
  first [exact H1 | exact (H2 _)
        | match goal with H : transition _ ?c ?r ?n = (?x, _) |- moved _ _ ?x =>
            specialize (H3 c r n); rewrite H in H3; exact H3 end ].

Lemma run_op_moved a o :
  0 <= generation a -> generation a + 2 <= u64_max -> moved 2 a (run_op a o).
Proof.
  intros H0 H2. destruct o as [p take force ex now|p ex now|p target ex now|pred reason now|now|p ex now];
    cbn [run_op].
  4: { unfold release_if. destruct (moved_after a a H0 H2 (moved_refl _ _)) as (G1 & G2 & G3).
       one_move G1 G2 G3. }
  all: pose proof (moved_expire a now ltac:(lia)) as He;
    unfold acquire, release, transfer, admit_command;
    destruct (expire_if_lapsed a now) as [a1 x]; cbn [fst] in *;
    destruct (moved_after a a1 H0 H2 He) as (G1 & G2 & G3); one_move G1 G2 G3.
Qed.

(** The generation identifies the holder: over any sequence of control operations
    the generation never goes back, and if it is what it was, so is the controller.
    A command that finds the generation it was admitted under has the same
    controller as when it was admitted. *)
Theorem generation_identifies_controller ops a :
  0 <= generation a -> generation a + 2 * Z.of_nat (length ops) <= u64_max ->
  let a' := foldl run_op a ops in
  generation a <= generation a' /\
  (generation a' = generation a -> controller a' = controller a).
Proof.
  revert a. induction ops as [|o ops IH]; intros a H0 H2; cbn [foldl]; [split; [lia|done]|].
  cbn [length] in H2. pose proof (run_op_moved a o H0 ltac:(lia)) as Hm.
  destruct (IH (run_op a o)) as [Hle Hsame]; unfold moved in Hm; [lia|lia|].
  split; [lia|]. intros Heq. destruct Hm as [[Hg Hc]|?]; [|lia]. rewrite <- Hc. apply Hsame. lia.
Qed.

(** A lease is only taken from a live holder by a person: an agent never displaces
    anyone, a person displaces an agent only on request and another person only by
    force, and every displacement moves the generation and is reported as a takeover. *)
Theorem displacement_is_a_takeover a p take force expected now a' t :
  acquire a p take force expected now = (a', Ok t) ->
  controller a <> Nobody -> controller a <> to_controller p ->
  match lease_expires_at a with Some deadline => now < deadline | None => True end ->
  (exists user connection, p = HumanPrincipal user connection) /\
  (force = true \/ take = true /\ exists e, controller a = Agent e) /\
  t_reason t = Takeover /\ controller a' = to_controller p /\
  generation a' = (generation a + 1) mod (u64_max + 1) /\
  lease_expires_at a' = Some (now + lease_ttl a).
Proof.
  intros H Hn Hp Hl. unfold acquire in H.
  assert (expire_if_lapsed a now = (a, None)) as He.
  { unfold expire_if_lapsed. destruct (is_none _); [done|].
    destruct (lease_expires_at a); [|done]. by rewrite decide_False by lia. }
  rewrite He in H. destruct (unexpected a expected); [done|].
  unfold matches in H. rewrite bool_decide_false in H by congruence.
  unfold may_acquire in H.
  destruct (controller a) as [|e|u c] eqn:Hc; [done| |]; destruct p as [e'|u' c']; try done.
  - destruct (take || force) eqn:Ht; [|done]. cbn in H. simplify_eq. cbn.
    split_and!; eauto. apply orb_prop in Ht as [->| ->]; [right; eauto|by left].
  - destruct force; [|done]. cbn in H. simplify_eq. cbn. split_and!; eauto.
Qed.

End ArbiterFacts.

(** ** A concrete session: a person takes over from an agent *)
Module ArbiterSamples.
Import Arbiter.

Definition agent : ControlPrincipal := AgentPrincipal 1.
Definition person : ControlPrincipal := HumanPrincipal "user" 2.
Definition held : ControlArbiter := (acquire (new 60) agent false false None 10).1.

Example agent_is_refused :
  (acquire held (AgentPrincipal 3) true true None 20).2 = Err (ControlConflict (Agent 1) 1).
Proof. reflexivity. Qed.

Example lapsed_lease_is_free :
  (acquire held (AgentPrincipal 3) false false None 70).1 =
    {| controller := Agent 3; generation := 3; lease_expires_at := Some 130; lease_ttl := 60 |}.
Proof. reflexivity. Qed.

End ArbiterSamples.

Lemma generation_identifies_controller_witness :
  Arbiter.generation ArbiterSamples.held <=
  Arbiter.generation (foldl ArbiterFacts.run_op ArbiterSamples.held
    [ArbiterFacts.OpAdmit ArbiterSamples.agent (Some 1) 20;
     ArbiterFacts.OpAcquire ArbiterSamples.person true false None 30]).
Proof.
  refine (proj1 (ArbiterFacts.generation_identifies_controller
    [ArbiterFacts.OpAdmit ArbiterSamples.agent (Some 1) 20;
     ArbiterFacts.OpAcquire ArbiterSamples.person true false None 30] ArbiterSamples.held _ _));
    vm_compute; discriminate.
Defined.

Lemma displacement_is_a_takeover_witness :
  let r := Arbiter.acquire ArbiterSamples.held ArbiterSamples.person true false None 30 in
  Arbiter.controller r.1 = Arbiter.Human "user" 2.
Proof.
  destruct (Arbiter.acquire ArbiterSamples.held ArbiterSamples.person true false None 30)
    as [a' [t|e]] eqn:H; [|vm_compute in H; discriminate H].
  destruct (ArbiterFacts.displacement_is_a_takeover _ _ _ _ _ _ _ _ H) as (_ & _ & _ & Hc & _);
    [discriminate|discriminate|vm_compute; reflexivity|exact Hc].
Defined.
