(* ===== verification/Gateway.v ===== *)
(** * The command gateway of a browser session

    [Module Gateway] is crates/services/src/services/browser/session.rs: control
    operations, and [execute] with its idempotency cache and command gate.  Requests
    run concurrently, so the module is a machine whose events are the sections the
    code runs under one lock; a request's program counter says which comes next.
    What the code computes under the control lock and publishes after releasing it
    is kept in [publishing] in between.  Control operations may happen at any time,
    also on a closed session, which allows more than the code does.  [recorded] and
    [driven] are history: which commands were recorded, and who held control when a
    request reached the driver and how that ended. *)
From S2P Require Import Prelude Browser.

Module Gateway.
Import Arbiter ArbiterFacts.

(* crates/services/src/services/browser/session.rs:20-20 IDEMPOTENCY_CAPACITY *)
Definition IDEMPOTENCY_CAPACITY : nat := 256.

Section Gateway.
Context {Value : Type}.

(* crates/services/src/services/browser/types.rs:207-216 BrowserActionResult *)
Record BrowserActionResult := {
  ar_command_id : Uuid;
  ar_generation : Z;
  ar_value : option Value;
  ar_current_url : option string;
}.

Abbreviation IdemOutcome := (result BrowserActionResult BrowserSessionError).

(** A reservation is the watch channel of the request that made it. *)
(* crates/services/src/services/browser/session.rs:36-39 IdemEntry *)
Inductive IdemEntry := InFlight (owner : nat) | Done (o : IdemOutcome).

(* crates/services/src/services/browser/session.rs:31-34 IdempotencyCache *)
Record IdempotencyCache := { entries : gmap Uuid IdemEntry; order : list Uuid }.

(* crates/services/src/services/browser/session.rs:60-64 IdempotencyCache::record_done *)
Fixpoint evict (order : list Uuid) (entries : gmap Uuid IdemEntry) : IdempotencyCache :=
  match order with
  | evicted :: rest =>
      if decide (IDEMPOTENCY_CAPACITY < length order)%nat
      then evict rest (delete evicted entries)
      else {| entries := entries; order := order |}
  | [] => {| entries := entries; order := [] |}
  end.

(* crates/services/src/services/browser/session.rs:55-65 IdempotencyCache::record_done *)
Definition record_done (c : IdempotencyCache) (id : Uuid) (outcome : IdemOutcome)
    : IdempotencyCache :=
  evict (if decide (id ∈ order c) then order c else order c ++ [id])
        (<[id := Done outcome]> (entries c)).

(* crates/services/src/services/browser/session.rs:76-85 IdemOwnerGuard::drop *)
Definition drop_reservation (c : IdempotencyCache) (id : Uuid) : IdempotencyCache :=
  match entries c !! id with
  | Some (InFlight _) => {| entries := delete id (entries c); order := order c |}
  | _ => c
  end.

(* crates/services/src/services/browser/driver.rs:12-22 DriverError *)
Inductive DriverError := Unavailable (message : string) | Gone | DriverTimeout
                       | Protocol (message : string).

(* crates/services/src/services/browser/session.rs:524-531 map_driver_error *)
Definition map_driver_error (e : DriverError) : BrowserSessionError :=
  match e with
  | Unavailable message => BrowserUnavailable message
  | DriverTimeout => Timeout
  | Gone => SessionClosed
  | Protocol message => Driver message
  end.

(** Where a request is; [Renewed] has been admitted and has the control state it
    must still publish. *)
Inductive pc :=
| Arrived
| Opened
| Waiting (owner : nat)
| Owner
| Renewed (admitted : Z) (state : BrowserControlState)
| Queued (admitted : Z)
| Gated (admitted : Z)
| Performing (admitted : Z)
| Answered (o : IdemOutcome)
| Dropped.

Inductive ending := Started | Recorded | Refused | Abandoned.

Record request := {
  principal : ControlPrincipal;
  command : Uuid;
  expected : option Z;
  at_pc : pc;
  driven : option (BrowserController * ending);
}.

Inductive holder := ByRequest (r : nat) | ByClose.

(* crates/services/src/services/browser/session.rs:99-113 SessionRuntime *)
Record session := {
  control : ControlArbiter;
  published : BrowserControlState;
  publishing : gmap nat BrowserControlState;
  is_open : bool;
  has_handle : bool;
  gate : option holder;
  cache : IdempotencyCache;
  recorded : list Uuid;
  requests : gmap nat request;
}.

(* crates/services/src/services/browser/session.rs:116-172 SessionRuntime::new *)
Definition new_session (lease_ttl : Duration) : session :=
  {| control := Arbiter.new lease_ttl; published := state (Arbiter.new lease_ttl);
     publishing := ∅; is_open := true; has_handle := true; gate := None;
     cache := {| entries := ∅; order := [] |}; recorded := []; requests := ∅ |}.

Definition set_control (a : ControlArbiter) (s : session) : session :=
  {| control := a; published := published s; publishing := publishing s;
     is_open := is_open s; has_handle := has_handle s; gate := gate s; cache := cache s;
     recorded := recorded s; requests := requests s |}.

Definition set_published (b : BrowserControlState) (p : gmap nat BrowserControlState)
    (s : session) : session :=
  {| control := control s; published := b; publishing := p;
     is_open := is_open s; has_handle := has_handle s; gate := gate s; cache := cache s;
     recorded := recorded s; requests := requests s |}.

Definition set_open (o h : bool) (s : session) : session :=
  {| control := control s; published := published s; publishing := publishing s;
     is_open := o; has_handle := h; gate := gate s; cache := cache s;
     recorded := recorded s; requests := requests s |}.

Definition set_gate (g : option holder) (s : session) : session :=
  {| control := control s; published := published s; publishing := publishing s;
     is_open := is_open s; has_handle := has_handle s; gate := g; cache := cache s;
     recorded := recorded s; requests := requests s |}.

Definition set_cache (c : IdempotencyCache) (l : list Uuid) (s : session) : session :=
  {| control := control s; published := published s; publishing := publishing s;
     is_open := is_open s; has_handle := has_handle s; gate := gate s; cache := c;
     recorded := l; requests := requests s |}.

Definition set_request (r : nat) (q : request) (s : session) : session :=
  {| control := control s; published := published s; publishing := publishing s;
     is_open := is_open s; has_handle := has_handle s; gate := gate s; cache := cache s;
     recorded := recorded s; requests := <[r := q]> (requests s) |}.

Definition go (p : pc) (q : request) : request :=
  {| principal := principal q; command := command q; expected := expected q; at_pc := p;
     driven := driven q |}.

Definition drive (d : BrowserController * ending) (q : request) : request :=
  {| principal := principal q; command := command q; expected := expected q;
     at_pc := at_pc q; driven := Some d |}.

Definition ends (e : ending) (q : request) : request :=
  match driven q with Some (c, _) => drive (c, e) q | None => q end.

(* crates/services/src/services/browser/session.rs:338-366 SessionRuntime::execute *)
Definition reserve (s : session) (r : nat) (q : request) : session :=
  match entries (cache s) !! command q with
  | Some (Done o) => set_request r (go (Answered o) q) s
  | Some (InFlight owner) => set_request r (go (Waiting owner) q) s
  | None =>
      set_cache {| entries := <[command q := InFlight r]> (entries (cache s));
                   order := order (cache s) |} (recorded s)
        (set_request r (go Owner q) s)
  end.

(** [finish]: the cache, then the waiters and the caller. *)
(* crates/services/src/services/browser/session.rs:374-384 SessionRuntime::execute *)
Definition finish (s : session) (r : nat) (q : request) (executed : bool) (o : IdemOutcome)
    : session :=
  let c := cache s in
  let s := if executed
           then set_cache (record_done c (command q) o) (recorded s ++ [command q]) s
           else set_cache {| entries := delete (command q) (entries c); order := order c |}
                          (recorded s) s in
  set_request r (go (Answered o) q) s.

(* crates/services/src/services/browser/session.rs:386-403 SessionRuntime::execute *)
Definition gateway_admission (s : session) (r : nat) (q : request) (now : DateTime) : session :=
  let (a, admitted) := admit_command (control s) (principal q) (expected q) now in
  let s := set_control a s in
  match admitted with
  | Ok generation => set_request r (go (Renewed generation (state a)) q) s
  | Err e => finish s r q false (Err e)
  end.

(** With the gate held: the re-check, the driver handle, and the driver call. *)
(* crates/services/src/services/browser/session.rs:409-424 SessionRuntime::execute *)
Definition start (s : session) (r : nat) (q : request) (admitted : Z) : session :=
  match recheck_generation (control s) admitted with
  | Err e => set_gate None (finish s r q false (Err e))
  | Ok _ =>
      if has_handle s
      then set_request r (drive (controller (control s), Started) (go (Performing admitted) q)) s
      else set_gate None (finish s r q false (Err SessionClosed))
  end.

(** What the driver's answer, or the time-out of the call, makes of the command. *)
(* crates/services/src/services/browser/session.rs:426-467 SessionRuntime::execute *)
Definition complete (s : session) (r : nat) (q : request) (admitted : Z)
    (answer : option (result (option Value) DriverError)) (url : option string) : session :=
  let outcome : IdemOutcome :=
    match answer with
    | None => Err Timeout
    | Some (Err e) => Err (map_driver_error e)
    | Some (Ok value) => Ok {| ar_command_id := command q; ar_generation := admitted;
                               ar_value := value; ar_current_url := url |}
    end in
  let executed :=
    match outcome with
    | Ok _ => true
    | Err (Driver _) | Err Timeout => true
    | Err _ => false
    end in
  set_gate None (finish s r (ends (if executed then Recorded else Refused) q) executed outcome).

(** A request runs its next section; [None] when it has to wait or has ended. *)
(* crates/services/src/services/browser/session.rs:326-468 SessionRuntime::execute *)
Definition turn (s : session) (r : nat) (q : request) (now : DateTime)
    (answer : option (result (option Value) DriverError)) (url : option string)
    : option session :=
  match at_pc q with
  | Arrived =>
      Some (set_request r (go (if is_open s then Opened else Answered (Err SessionClosed)) q) s)
  | Opened => Some (reserve s r q)
  | Waiting owner =>
      match at_pc <$> requests s !! owner with
      | Some (Answered o) => Some (set_request r (go (Answered o) q) s)
      | Some Dropped => Some (set_request r (go (Answered (Err Timeout)) q) s)
      | _ => None
      end
  | Owner => Some (gateway_admission s r q now)
  | Renewed admitted st =>
      Some (set_published st (publishing s) (set_request r (go (Queued admitted) q) s))
  | Queued admitted =>
      match gate s with
      | None => Some (set_gate (Some (ByRequest r)) (set_request r (go (Gated admitted) q) s))
      | Some _ => None
      end
  | Gated admitted => Some (start s r q admitted)
  | Performing admitted => Some (complete s r q admitted answer url)
  | Answered _ | Dropped => None
  end.

(** The client disconnects while the request waits: for another request's outcome,
    for the gate, or for the driver. *)
(* crates/services/src/services/browser/session.rs:76-85 IdemOwnerGuard::drop *)
Definition disconnect (s : session) (r : nat) (q : request) : option session :=
  let release s := set_cache (drop_reservation (cache s) (command q)) (recorded s) s in
  match at_pc q with
  | Waiting _ => Some (set_request r (go Dropped q) s)
  | Queued _ => Some (set_request r (go Dropped q) (release s))
  | Performing _ =>
      Some (set_gate None (set_request r (ends Abandoned (go Dropped q)) (release s)))
  | _ => None
  end.

(** Whether a control operation publishes the state it leaves. *)
(* crates/services/src/services/browser/session.rs:245-322 SessionRuntime::acquire *)
Definition publishes (a : ControlArbiter) (o : op) : bool :=
  match o with
  | OpAcquire p take force ex now => is_ok (acquire a p take force ex now).2
  | OpRelease p ex now => is_ok (release a p ex now).2
  | OpTransfer p target ex now => is_ok (transfer a p target ex now).2
  | OpReleaseIf pred reason now => bool_decide (is_Some (t_reason <$> (release_if a pred reason now).2))
  | OpExpire now => bool_decide (is_Some (t_reason <$> (expire_if_lapsed a now).2))
  | OpAdmit _ _ _ => false
  end.

Inductive event :=
| EArrive (r : nat) (p : ControlPrincipal) (c : Uuid) (e : option Z)
| ETurn (r : nat) (now : DateTime) (answer : option (result (option Value) DriverError))
    (url : option string)
| EDisconnect (r : nat)
| EControl (o : op) (k : nat)
| EPublish (k : nat)
| ECloseGate
| EClosed.

(** [close] takes the handle and marks the session closed with the gate held; its
    release of control is an [EControl]. *)
(* crates/services/src/services/browser/session.rs:502-521 SessionRuntime::close *)
Definition close_step (s : session) (e : event) : option session :=
  match e, gate s with
  | ECloseGate, None => Some (set_gate (Some ByClose) (set_open (is_open s) false s))
  | EClosed, Some ByClose => Some (set_gate None (set_open false (has_handle s) s))
  | _, _ => None
  end.

Definition happen (s : session) (e : event) : option session :=
  match e with
  | EArrive r p c ex =>
      match requests s !! r with
      | Some _ => None
      | None => Some (set_request r {| principal := p; command := c; expected := ex;
                                       at_pc := Arrived; driven := None |} s)
      end
  | ETurn r now answer url => q ← requests s !! r; turn s r q now answer url
  | EDisconnect r => q ← requests s !! r; disconnect s r q
  | EControl o k =>
      match o, publishing s !! k with
      | OpAdmit _ _ _, _ | _, Some _ => None
      | _, None =>
          let a := run_op (control s) o in
          Some (set_published (published s)
                  (if publishes (control s) o then <[k := state a]> (publishing s)
                   else publishing s) (set_control a s))
      end
  | EPublish k =>
      st ← publishing s !! k;
      Some (set_published st (delete k (publishing s)) s)
  | ECloseGate | EClosed => close_step s e
  end.

Fixpoint run (s : session) (l : list event) : option session :=
  match l with
  | [] => Some s
  | e :: l => s' ← happen s e; run s' l
  end.

End Gateway.
End Gateway.

(** ** The gateway's invariant *)
Module GatewayFacts.
Import Arbiter ArbiterFacts Gateway.

Section Facts.
Context {Value : Type}.
Abbreviation session := (session (Value := Value)).
Abbreviation request := (request (Value := Value)).
Abbreviation IdempotencyCache := (IdempotencyCache (Value := Value)).
Implicit Types s : session.
Implicit Types q : request.
Implicit Types c : IdempotencyCache.

(** The request has the reservation of its command. *)
Definition owns (p : pc (Value := Value)) : bool :=
  match p with
  | Owner | Renewed _ _ | Queued _ | Gated _ | Performing _ => true
  | _ => false
  end.

Definition inside (p : pc (Value := Value)) : bool :=
  match p with Gated _ | Performing _ => true | _ => false end.

(** The generation a request was admitted under, until the re-check. *)
Definition admitted (p : pc (Value := Value)) : option Z :=
  match p with Renewed g _ | Queued g | Gated g => Some g | _ => None end.

Definition performing (p : pc (Value := Value)) : bool :=
  match p with Performing _ => true | _ => false end.

(** The command ran, or may still be running, under the eyes of its request. *)
Definition counted (q : request) : bool :=
  match driven q with Some (_, Started) | Some (_, Recorded) => true | _ => false end.

(** The cache keeps exactly the recorded outcomes in its order, each once. *)
Definition cache_ok c : Prop :=
  NoDup (order c) /\ (length (order c) <= IDEMPOTENCY_CAPACITY)%nat /\
  forall i, i ∈ order c <-> exists o, entries c !! i = Some (Done o).

Definition reserved c (i : Uuid) (r : nat) : Prop := entries c !! i = Some (InFlight r).

Record request_ok s (r : nat) (q : request) : Prop := {
  rq_owner : reserved (cache s) (command q) r <-> owns (at_pc q) = true;
  rq_gate : gate s = Some (ByRequest r) <-> inside (at_pc q) = true;
  rq_admitted g :
    admitted (at_pc q) = Some g ->
    g <= generation (control s) /\
    (g = generation (control s) -> controller (control s) = to_controller (principal q));
  rq_driven :
    match driven q with
    | Some (ctl, e) =>
        ctl = to_controller (principal q) /\
        (e = Started <-> performing (at_pc q) = true) /\
        (e = Recorded -> command q ∈ recorded s)
    | None => performing (at_pc q) = false
    end;
}.

Record inv s : Prop := {
  in_generation : 0 <= generation (control s);
  in_cache : cache_ok (cache s);
  in_recorded :
    (length (recorded s) <= IDEMPOTENCY_CAPACITY)%nat -> order (cache s) = recorded s;
  in_reserved i r : reserved (cache s) i r -> exists q, requests s !! r = Some q /\ command q = i;
  in_gate r : gate s = Some (ByRequest r) -> is_Some (requests s !! r);
  in_request r q : requests s !! r = Some q -> request_ok s r q;
  in_once r1 r2 q1 q2 :
    (length (recorded s) <= IDEMPOTENCY_CAPACITY)%nat ->
    requests s !! r1 = Some q1 -> requests s !! r2 = Some q2 ->
    command q1 = command q2 -> counted q1 = true -> counted q2 = true -> r1 = r2;
}.

(** ** The cache *)

Lemma evict_ok (o : list Uuid) (m : gmap Uuid IdemEntry) :
  NoDup o -> (forall i, i ∈ o <-> exists x, m !! i = Some (Done (Value := Value) x)) ->
  let c := evict o m in
  cache_ok c /\
  (forall i r, entries c !! i = Some (InFlight r) <-> m !! i = Some (InFlight r)) /\
  ((length o <= IDEMPOTENCY_CAPACITY)%nat -> order c = o).
Proof.
  revert m. induction o as [|x o IH]; intros m Hnd Hm; cbn -[IDEMPOTENCY_CAPACITY].
  { split_and!; [split_and!; [done|cbn; lia|done]|done|done]. }
  case_decide as Hlen; cbn [length] in *.
  - apply NoDup_cons in Hnd as [Hx Hnd].
    destruct (IH (delete x m)) as (Hok & Hin & _); [done| |].
    { intros i. destruct (decide (i = x)) as [->|Hne].
      - rewrite lookup_delete_eq. split; [done|]. by intros [? [=]].
      - rewrite lookup_delete_ne by done. rewrite <- Hm. set_solver. }
    split_and!; [exact Hok| |lia]. intros i r. rewrite Hin.
    destruct (decide (i = x)) as [->|Hne]; [|by rewrite lookup_delete_ne].
    rewrite lookup_delete_eq. split; [done|]. intros Hi.
    destruct (proj1 (Hm x)) as [y Hy]; [set_solver|congruence].
  - split_and!; [split_and!|done|done]; cbn -[IDEMPOTENCY_CAPACITY]; [done|lia|done].
Qed.

Lemma record_done_ok c i o :
  cache_ok c -> (forall x, entries c !! i <> Some (Done x)) ->
  let c' := record_done c i o in
  cache_ok c' /\
  (forall k r, reserved c' k r <-> reserved c k r /\ k <> i) /\
  ((length (order c) < IDEMPOTENCY_CAPACITY)%nat -> order c' = order c ++ [i]).
Proof.
  intros (Hnd & Hlen & Hc) Hi c'. unfold c', record_done.
  assert (i ∉ order c) as Hno by (rewrite Hc; intros [x Hx]; by apply (Hi x)).
  rewrite decide_False by done.
  destruct (evict_ok (order c ++ [i]) (<[i := Done o]> (entries c))) as (H1 & H2 & H3).
  - apply NoDup_app. split_and!; [done|set_solver|by apply NoDup_singleton].
  - intros k. destruct (decide (k = i)) as [->|Hne].
    + rewrite lookup_insert_eq. split; [eauto|set_solver].
    + rewrite lookup_insert_ne by done. rewrite <- Hc. set_solver.
  - split_and!; [exact H1| |].
    + intros k r. unfold reserved. rewrite H2. destruct (decide (k = i)) as [->|Hne].
      * rewrite lookup_insert_eq. naive_solver.
      * rewrite lookup_insert_ne by done. naive_solver.
    + intros Hl. apply H3. rewrite length_app. cbn. lia.
Qed.

(** Deleting or adding a reservation leaves the recorded outcomes alone. *)
Lemma cache_ok_reservations c m :
  cache_ok c ->
  (forall i o, m !! i = Some (Done o) <-> entries c !! i = Some (Done (Value := Value) o)) ->
  cache_ok {| entries := m; order := order c |}.
Proof.
  intros (Hnd & Hlen & Hc) Hm. split_and!; cbn; [done|done|]. intros i. rewrite Hc.
  split; intros [o Ho]; exists o; by apply Hm.
Qed.

(** ** One request moves *)

(** What a change of the lease owes the requests already admitted. *)
Definition lease_kept (a a' : ControlArbiter) : Prop :=
  0 <= generation a' /\
  forall g x, g <= generation a -> (g = generation a -> controller a = x) ->
    g <= generation a' /\ (g = generation a' -> controller a' = x).

Lemma lease_kept_refl a : 0 <= generation a -> lease_kept a a.
Proof. by split. Qed.

Lemma moved_kept n a a' : 0 <= generation a -> moved n a a' -> lease_kept a a'.
Proof.
  intros H0 [[Hg Hc]|Hlt]; split; [lia| |lia|]; intros g x Hle Heq.
  - rewrite Hg, Hc. auto.
  - split; [lia|]. lia.
Qed.

(** Request [r] goes from [q] to [q'], together with its reservation, the gate if it
    holds it, and the lease. *)
Record moves s s' (r : nat) q q' : Prop := {
  mv_requests : requests s' = <[r := q']> (requests s);
  mv_command : command q' = command q;
  mv_lease : lease_kept (control s) (control s');
  mv_cache : cache_ok (cache s');
  mv_recorded :
    (length (recorded s') <= IDEMPOTENCY_CAPACITY)%nat ->
    (length (recorded s) <= IDEMPOTENCY_CAPACITY)%nat /\ order (cache s') = recorded s';
  mv_history i : i ∈ recorded s -> i ∈ recorded s';
  mv_reserved i k : k <> r -> reserved (cache s') i k <-> reserved (cache s) i k;
  mv_own i : reserved (cache s') i r -> i = command q;
  mv_gate k : k <> r -> gate s' = Some (ByRequest k) <-> gate s = Some (ByRequest k);
  mv_ok : request_ok s' r q';
  mv_once :
    (length (recorded s') <= IDEMPOTENCY_CAPACITY)%nat -> counted q' = true ->
    counted q = true \/
    forall k q2, requests s !! k = Some q2 -> command q2 = command q -> counted q2 = false;
}.

Lemma request_ok_frame s s' r q r0 q' q0 :
  moves s s' r q q' -> r0 <> r -> requests s !! r0 = Some q0 ->
  request_ok s r0 q0 -> request_ok s' r0 q0.
Proof.
  intros M Hne Hq0 [Ho Hg Ha Hd]. split.
  - by rewrite (mv_reserved _ _ _ _ _ M).
  - by rewrite (mv_gate _ _ _ _ _ M).
  - intros g Hadm. destruct (Ha g Hadm). by apply (proj2 (mv_lease _ _ _ _ _ M)).
  - destruct (driven q0) as [[ctl e]|]; [|done]. destruct Hd as (? & ? & Hr).
    split_and!; [done..|]. intros He. by apply (mv_history _ _ _ _ _ M), Hr.
Qed.

Lemma inv_moves s s' r q q' :
  inv s -> requests s !! r = Some q -> moves s s' r q q' -> inv s'.
Proof.
  intros I Hq M. pose proof (mv_requests _ _ _ _ _ M) as Hreq. split.
  - apply (mv_lease _ _ _ _ _ M).
  - apply (mv_cache _ _ _ _ _ M).
  - intros Hl. by apply (mv_recorded _ _ _ _ _ M).
  - intros i k Hk. rewrite Hreq. destruct (decide (k = r)) as [->|Hne].
    + rewrite lookup_insert_eq. exists q'. rewrite (mv_command _ _ _ _ _ M).
      split; [done|]. symmetry. by apply (mv_own _ _ _ _ _ M).
    + rewrite lookup_insert_ne by done. apply (in_reserved s I).
      by apply (mv_reserved _ _ _ _ _ M).
  - intros k Hk. rewrite Hreq. destruct (decide (k = r)) as [->|Hne].
    + rewrite lookup_insert_eq. eauto.
    + rewrite lookup_insert_ne by done. apply (in_gate s I). by apply (mv_gate _ _ _ _ _ M).
  - intros k q2. rewrite Hreq. destruct (decide (k = r)) as [->|Hne].
    + rewrite lookup_insert_eq. intros [= <-]. apply (mv_ok _ _ _ _ _ M).
    + rewrite lookup_insert_ne by done. intros Hk.
      eapply request_ok_frame; [done|done|done|]. by apply (in_request s I).
  - intros r1 r2 q1 q2 Hl. rewrite Hreq.
    pose proof (mv_recorded _ _ _ _ _ M Hl) as [Hl0 _].
    pose proof (mv_once _ _ _ _ _ M Hl) as Hnew. pose proof (mv_command _ _ _ _ _ M) as Hcmd.
    assert (forall k q0, k <> r -> requests s !! k = Some q0 -> command q' = command q0 ->
      counted q' = true -> counted q0 = true -> False) as Habs.
    { intros k q0 Hne Hk Hc Hc' Hc0. destruct (Hnew Hc') as [Hold|Hnone].
      - apply Hne. symmetry. eapply (in_once s I r k q q0); try done. congruence.
      - rewrite (Hnone k q0) in Hc0; [done|done|congruence]. }
    destruct (decide (r1 = r)) as [->|H1], (decide (r2 = r)) as [->|H2];
      rewrite ?lookup_insert_eq, ?lookup_insert_ne by done.
    + done.
    + intros [= <-] Hk Hc Hc1 Hc2. by destruct (Habs r2 q2).
    + intros Hk [= <-] Hc Hc1 Hc2. by destruct (Habs r1 q1).
    + by apply (in_once s I).
Qed.

(** A step that leaves the reservation, the gate and the driver call as they are. *)
Lemma moves_pc s s' r q p :
  inv s -> requests s !! r = Some q ->
  requests s' = <[r := go p q]> (requests s) -> control s' = control s ->
  cache s' = cache s -> recorded s' = recorded s -> gate s' = gate s ->
  owns p = owns (at_pc q) -> inside p = inside (at_pc q) ->
  performing p = performing (at_pc q) -> (admitted p = None \/ admitted p = admitted (at_pc q)) ->
  moves s s' r q (go p q).
Proof.
  intros I Hq Hr Hc Hk Hl Hg Ho Hi Hp Ha. destruct (in_request s I r q Hq) as [Qo Qg Qa Qd].
  split; rewrite ?Hc, ?Hk, ?Hl, ?Hg; try done.
  - by apply lease_kept_refl, in_generation.
  - apply (in_cache s I).
  - intros Hlen. split; [done|by apply (in_recorded s I)].
  - intros i Hres. apply (in_reserved s I) in Hres as (q1 & Hq1 & <-). congruence.
  - split; cbn; rewrite ?Hc, ?Hk, ?Hl, ?Hg, ?Ho, ?Hi, ?Hp; try done.
    intros g Hgen. apply Qa. destruct Ha as [Ha|Ha]; congruence.
  - by left.
Qed.

(** A request that owned its command lets go of it. *)
Lemma moves_end s s' r q q' executed :
  inv s -> requests s !! r = Some q -> owns (at_pc q) = true ->
  requests s' = <[r := q']> (requests s) -> command q' = command q ->
  lease_kept (control s) (control s') ->
  owns (at_pc q') = false -> inside (at_pc q') = false -> admitted (at_pc q') = None ->
  performing (at_pc q') = false ->
  (if executed : bool
   then (exists o, cache s' = record_done (cache s) (command q) o) /\
        recorded s' = recorded s ++ [command q]
   else cache s' = {| entries := delete (command q) (entries (cache s));
                      order := order (cache s) |} /\ recorded s' = recorded s) ->
  gate s' = (if inside (at_pc q) then None else gate s) ->
  match driven q' with
  | Some (ctl, e) => ctl = to_controller (principal q') /\ e <> Started /\
                     (e = Recorded -> executed = true \/ command q ∈ recorded s)
  | None => True
  end ->
  (counted q' = true -> counted q = true) ->
  moves s s' r q q'.
Proof.
  intros I Hq Hown Hr Hcmd Hlease Ho Hi Ha Hp Hcache Hg Hd Hcount.
  destruct (in_request s I r q Hq) as [Qo Qg Qa Qd].
  pose proof (proj2 Qo Hown) as Hres. pose proof (in_cache s I) as Hok.
  assert (cache_ok (cache s') /\
    (forall i k, reserved (cache s') i k <-> reserved (cache s) i k /\ i <> command q) /\
    ((length (recorded s') <= IDEMPOTENCY_CAPACITY)%nat ->
     (length (recorded s) <= IDEMPOTENCY_CAPACITY)%nat /\ order (cache s') = recorded s') /\
    (forall i, i ∈ recorded s -> i ∈ recorded s') /\
    (executed = true -> command q ∈ recorded s')) as (C1 & C2 & C3 & C4 & C5).
  { destruct executed; destruct Hcache as [Hc Hl].
    - destruct Hc as [o Hc]. destruct (record_done_ok (cache s) (command q) o Hok) as (R1 & R2 & R3).
      { intros x Hx. unfold reserved in Hres. congruence. }
      rewrite Hc, Hl. split_and!; [exact R1|exact R2| |set_solver|set_solver].
      rewrite length_app. cbn [length]. intros Hlen.
      pose proof (in_recorded s I ltac:(lia)) as Hord. split; [lia|].
      rewrite <- Hord. apply R3. rewrite Hord. lia.
    - rewrite Hc, Hl. split_and!; [| |intros Hlen; split; [done|by apply (in_recorded s I)]|done|done].
      + destruct Hok as (Hnd & Hlen & Hel). split_and!; cbn; [done|done|]. intros i. rewrite Hel.
        destruct (decide (i = command q)) as [->|Hne].
        * rewrite lookup_delete_eq. unfold reserved in Hres. rewrite Hres.
          split; by intros [? [=]].
        * by rewrite lookup_delete_ne.
      + intros i k. unfold reserved. cbn. destruct (decide (i = command q)) as [->|Hne].
        * rewrite lookup_delete_eq. naive_solver.
        * rewrite lookup_delete_ne by done. naive_solver. }
  split; try done.
  - intros i k Hk. rewrite C2. split; [by intros []|]. intros Hi'. split; [done|].
    intros ->. unfold reserved in *. congruence.
  - intros i. rewrite C2. intros [Hi' Hne]. apply (in_reserved s I) in Hi' as (q1 & Hq1 & <-).
    congruence.
  - intros k Hk. rewrite Hg. destruct (inside (at_pc q)) eqn:Hin; [|done].
    pose proof (proj2 Qg eq_refl). split; congruence.
  - split.
    + rewrite C2, Ho, Hcmd. naive_solver.
    + rewrite Hg, Hi. destruct (inside (at_pc q)); [done|]. exact Qg.
    + by rewrite Ha.
    + destruct (driven q') as [[ctl e]|]; [|done]. destruct Hd as (-> & Hs & Hrec).
      rewrite Hp, Hcmd. split_and!; [done|naive_solver|]. intros He.
      destruct (Hrec He); [by apply C5|by apply C4].
  - intros _ Hc. left. by apply Hcount.
Qed.

Lemma reserve_inv s r q :
  inv s -> requests s !! r = Some q -> at_pc q = Opened -> inv (reserve s r q).
Proof.
  intros I Hq Hpc. unfold reserve.
  destruct (entries (cache s) !! command q) as [[owner|o]|] eqn:He.
  1,2: eapply (inv_moves s); [done|done|];
    eapply moves_pc; cbn; rewrite ?Hpc; cbn; auto.
  pose proof (in_cache s I) as Hok. destruct (in_request s I r q Hq) as [Qo Qg Qa Qd].
  rewrite Hpc in Qo, Qg, Qa, Qd. cbn in Qo, Qg, Qa, Qd.
  eapply (inv_moves s _ r q (go Owner q)); [done|done|].
  assert (forall i k, entries (cache s) !! i = Some (InFlight k) -> i <> command q) as Hne
    by congruence.
  split; cbn; try done.
  - by apply lease_kept_refl, in_generation.
  - apply cache_ok_reservations; [done|]. intros i o.
    destruct (decide (i = command q)) as [->|]; [|by rewrite lookup_insert_ne].
    rewrite lookup_insert_eq, He. done.
  - intros Hlen. split; [done|by apply (in_recorded s I)].
  - intros i k Hk. unfold reserved. cbn. destruct (decide (i = command q)) as [->|].
    + rewrite lookup_insert_eq, He. naive_solver.
    + by rewrite lookup_insert_ne.
  - intros i. unfold reserved. cbn. destruct (decide (i = command q)) as [->|]; [done|].
    rewrite lookup_insert_ne by done. intros Hi.
    apply (in_reserved s I) in Hi as (q1 & Hq1 & <-). congruence.
  - split; cbn; try done.
    unfold reserved. cbn. by rewrite lookup_insert_eq.
  - by left.
Qed.

Lemma admission_inv s r q now :
  inv s -> generation (control s) + 2 <= u64_max -> requests s !! r = Some q ->
  at_pc q = Owner -> inv (gateway_admission s r q now).
Proof.
  intros I Hgen Hq Hpc. unfold gateway_admission.
  pose proof (run_op_moved (control s) (OpAdmit (principal q) (expected q) now)
    (in_generation s I) Hgen) as Hm.
  apply (moved_kept _ _ _ (in_generation s I)) in Hm. cbn [run_op] in Hm.
  destruct (in_request s I r q Hq) as [Qo Qg Qa Qd]. rewrite Hpc in Qo, Qg, Qa, Qd. cbn in *.
  destruct (admit_command _ _ _ _) as [a [g|e]] eqn:Had; cbn [fst] in Hm.
  - assert (g = generation a /\ controller a = to_controller (principal q)) as [-> Hctl].
    { unfold admit_command in Had. destruct (expire_if_lapsed _ _) as [a1 ?].
      destruct (unexpected _ _); [done|].
      destruct (matches (principal q) (controller a1)) eqn:Hmatch; [|done].
      apply bool_decide_eq_true in Hmatch. cbn in Had. simplify_eq. by split. }
    eapply (inv_moves s _ r q (go (Renewed (generation a) (state a)) q)); [done|done|].
    split; cbn; try done; try (by destruct (moves_pc s s r q (at_pc q))).
    + apply (in_cache s I).
    + intros Hlen. split; [done|by apply (in_recorded s I)].
    + intros i Hres. apply (in_reserved s I) in Hres as (q1 & Hq1 & <-). congruence.
    + split; cbn; try done. intros g' [= <-]. by split.
    + by left.
  - eapply (inv_moves s _ r q (go (Answered (Err e)) q)); [done|done|].
    apply (moves_end s _ r q _ false); cbn; rewrite ?Hpc; try done.
    destruct (driven q) as [[ctl x]|]; [|done]. destruct Qd as (-> & Hs & Hrec).
    split_and!; [done|naive_solver|auto].
Qed.

Lemma start_inv s r q g :
  inv s -> requests s !! r = Some q -> at_pc q = Gated g -> inv (start s r q g).
Proof.
  intros I Hq Hpc. unfold start, recheck_generation.
  pose proof (in_request s I r q Hq) as [Qo Qg Qa Qd]. rewrite Hpc in Qo, Qg, Qa, Qd.
  cbn in Qo, Qg, Qa, Qd. pose proof (lease_kept_refl _ (in_generation s I)) as Hlk.
  assert (match driven q with
    | Some (ctl, e) => ctl = to_controller (principal q) /\ e <> Started /\
                       (e = Recorded -> false = true \/ command q ∈ recorded s)
    | None => True end) as Hd.
  { destruct (driven q) as [[ctl e]|]; [|done]. destruct Qd as (-> & Hs & Hrec).
    split_and!; [done|naive_solver|auto]. }
  case_decide as Hsame; [|destruct (has_handle s)].
  1,3: eapply (inv_moves s _ r q (go (Answered _) q)); [done|done|];
    apply (moves_end s _ r q _ false); cbn; rewrite ?Hpc; done.
  assert (g = generation (control s)) as Hgen by lia.
  destruct (Qa g eq_refl) as [_ Hctl]. specialize (Hctl Hgen).
  pose proof (proj2 Qo eq_refl) as Hres.
  eapply (inv_moves s _ r q (drive (controller (control s), Started) (go (Performing g) q)));
    [done|done|].
  split; cbn; try done.
  - apply (in_cache s I).
  - intros Hlen. split; [done|by apply (in_recorded s I)].
  - intros i Hi. apply (in_reserved s I) in Hi as (q1 & Hq1 & <-). congruence.
  - intros Hlen _. right. intros k q2 Hk Hc2. destruct (counted q2) eqn:Hcount; [|done].
    destruct (in_request s I k q2 Hk) as [Ko Kg Ka Kd]. unfold counted in Hcount.
    destruct (driven q2) as [[ctl e]|]; [|done]. destruct Kd as (_ & Ks & Kr).
    rewrite Hc2 in *. destruct e; try done.
    + assert (performing (at_pc q2) = true) as Hperf by (by apply Ks).
      assert (owns (at_pc q2) = true) as Hown by (by destruct (at_pc q2)).
      apply Ko in Hown. unfold reserved in *. rewrite Hres in Hown. injection Hown as <-.
      rewrite Hq in Hk. injection Hk as <-. by rewrite Hpc in Hperf.
    + assert (command q ∈ order (cache s)) as Hin.
      { rewrite (in_recorded s I Hlen). by apply Kr. }
      apply (in_cache s I) in Hin as [o Ho]. unfold reserved in Hres. congruence.
Qed.

Lemma complete_inv s r q g answer url :
  inv s -> requests s !! r = Some q -> at_pc q = Performing g ->
  inv (complete s r q g answer url).
Proof.
  intros I Hq Hpc. unfold complete.
  pose proof (in_request s I r q Hq) as [Qo Qg Qa Qd]. rewrite Hpc in Qo, Qg, Qa, Qd.
  cbn in Qo, Qg, Qa, Qd. pose proof (lease_kept_refl _ (in_generation s I)) as Hlk.
  set (outcome := match answer with None => _ | Some _ => _ end).
  set (executed := match outcome with Ok _ => true | Err _ => _ end).
  destruct (driven q) as [[ctl e]|] eqn:Hdr; [|done]. destruct Qd as (-> & Hs & Hrec).
  assert (e = Started) as -> by (by apply Hs).
  set (q1 := ends (if executed then Recorded else Refused) q).
  assert (driven q1 = Some (to_controller (principal q), if executed then Recorded else Refused) /\
          command q1 = command q /\ principal q1 = principal q) as (D1 & D2 & D3)
    by (unfold q1, ends; rewrite Hdr; done).
  eapply (inv_moves s _ r q (go (Answered outcome) q1)); [done|done|].
  apply (moves_end s _ r q _ executed); cbn; rewrite ?Hpc, ?D1, ?D2, ?D3; try done.
  all: try (destruct executed; cbn; by eauto).
  unfold counted. by rewrite Hdr.
Qed.

Lemma disconnect_inv s r q s' :
  inv s -> requests s !! r = Some q -> disconnect s r q = Some s' -> inv s'.
Proof.
  intros I Hq. unfold disconnect, drop_reservation.
  pose proof (in_request s I r q Hq) as [Qo Qg Qa Qd].
  pose proof (lease_kept_refl _ (in_generation s I)) as Hlk.
  destruct (at_pc q) as [| |ow| |g st|g|g|g|o|] eqn:Hpc; try done; cbn in Qo, Qg, Qa, Qd.
  - intros [= <-]. eapply (inv_moves s); [done|done|].
    apply moves_pc; cbn; rewrite ?Hpc; cbn; auto.
  - pose proof (proj2 Qo eq_refl) as Hres. unfold reserved in Hres. rewrite Hres.
    intros [= <-]. eapply (inv_moves s _ r q (go Dropped q)); [done|done|].
    apply (moves_end s _ r q _ false); cbn; rewrite ?Hpc; try done.
    destruct (driven q) as [[ctl x]|]; [|done]. destruct Qd as (-> & Hs & Hrec).
    split_and!; [done|naive_solver|auto].
  - pose proof (proj2 Qo eq_refl) as Hres. unfold reserved in Hres. rewrite Hres.
    intros [= <-]. destruct (driven q) as [[ctl e]|] eqn:Hdr; [|done].
    destruct Qd as (-> & Hs & Hrec).
    eapply (inv_moves s _ r q (drive (to_controller (principal q), Abandoned) (go Dropped q)));
      [done|done|].
    apply (moves_end s _ r q _ false); cbn; rewrite ?Hpc, ?Hdr; try done.
    unfold ends. cbn. by rewrite Hdr.
Qed.

(** ** Every event keeps the invariant *)

Lemma inv_frame s s' :
  inv s -> requests s' = requests s -> cache s' = cache s -> recorded s' = recorded s ->
  lease_kept (control s) (control s') ->
  (forall r, gate s' = Some (ByRequest r) <-> gate s = Some (ByRequest r)) -> inv s'.
Proof.
  intros [I1 I2 I3 I4 I5 I6 I7] Hr Hc Hl Hlease Hg.
  split; rewrite ?Hr, ?Hc, ?Hl; try done.
  - apply Hlease.
  - intros r. rewrite Hg. apply I5.
  - intros r q Hq. destruct (I6 r q Hq) as [Qo Qg Qa Qd]. split; rewrite ?Hc, ?Hl, ?Hg; try done.
    intros g Hadm. destruct (Qa g Hadm). by apply Hlease.
Qed.

Lemma arrive_inv s r q :
  inv s -> requests s !! r = None -> at_pc q = Arrived -> driven q = None ->
  inv (set_request r q s).
Proof.
  intros I Hr Hpc Hd. pose proof I as [I1 I2 I3 I4 I5 I6 I7].
  assert (forall k q0, requests s !! k = Some q0 -> k <> r) as Hne by congruence.
  split; cbn; try done.
  - intros i k (q0 & Hq0 & Hc)%I4. exists q0. rewrite lookup_insert_ne; [done|].
    intros <-. congruence.
  - intros k [q0 Hq0]%I5. rewrite lookup_insert_ne; [eauto|]. intros <-. congruence.
  - intros k q0. destruct (decide (k = r)) as [->|Hk].
    + rewrite lookup_insert_eq. intros [= <-]. split; cbn; rewrite ?Hpc, ?Hd; cbn; try done.
      * split; [|done]. intros (q1 & Hq1 & _)%I4. congruence.
      * split; [|done]. intros [q1 Hq1]%I5. congruence.
    + rewrite lookup_insert_ne by done. intros Hq0. by destruct (I6 k q0 Hq0).
  - intros r1 r2 q1 q2 Hl.
    destruct (decide (r1 = r)) as [->|H1], (decide (r2 = r)) as [->|H2];
      rewrite ?lookup_insert_eq, ?lookup_insert_ne by done; [done| | |by apply I7].
    + intros [= <-] _ _. unfold counted. by rewrite Hd.
    + intros _ [= <-] _ _. unfold counted. by rewrite Hd.
Qed.

Lemma turn_inv s r q now answer url s' :
  inv s -> generation (control s) + 2 <= u64_max -> requests s !! r = Some q ->
  turn s r q now answer url = Some s' -> inv s'.
Proof.
  intros I Hgen Hq. unfold turn.
  destruct (at_pc q) as [| |ow| |g st|g|g|g|o|] eqn:Hpc; try done.
  - intros [= <-]. destruct (is_open s); (eapply (inv_moves s); [done|done|]);
      apply moves_pc; cbn; rewrite ?Hpc; cbn; auto.
  - intros [= <-]. by apply reserve_inv.
  - destruct (at_pc <$> requests s !! ow) as [[]|]; try done; intros [= <-];
      (eapply (inv_moves s); [done|done|]); apply moves_pc; cbn; rewrite ?Hpc; cbn; auto.
  - intros [= <-]. by apply admission_inv.
  - intros [= <-]. eapply (inv_moves s); [done|done|].
    apply moves_pc; cbn; rewrite ?Hpc; cbn; auto.
  - destruct (gate s) eqn:Hg; [done|]. intros [= <-].
    eapply (inv_moves s _ r q (go (Gated g) q)); [done|done|].
    pose proof (in_request s I r q Hq) as [Qo Qg Qa Qd]. rewrite Hpc in Qo, Qg, Qa, Qd.
    cbn in Qo, Qg, Qa, Qd.
    split; cbn; try done.
    + by apply lease_kept_refl, in_generation.
    + apply (in_cache s I).
    + intros Hlen. split; [done|by apply (in_recorded s I)].
    + intros i Hres. apply (in_reserved s I) in Hres as (q1 & Hq1 & <-). congruence.
    + intros k Hk. rewrite Hg. split; [|done]. congruence.
    + by left.
  - intros [= <-]. by apply start_inv.
  - intros [= <-]. by eapply complete_inv.
Qed.

Lemma happen_generation s e s' :
  0 <= generation (control s) -> generation (control s) + 2 <= u64_max ->
  happen s e = Some s' -> generation (control s') <= generation (control s) + 2.
Proof.
  intros H0 H2 He.
  assert (forall o, generation (run_op (control s) o) <= generation (control s) + 2) as Hop.
  { intros o. destruct (run_op_moved (control s) o H0 H2) as [[-> _]|?]; lia. }
  assert (control s' = control s \/ exists o, control s' = run_op (control s) o) as [->|[o ->]];
    [|lia|apply Hop].
  destruct e as [r p i ex|r now answer url|r|o k|k| |]; cbn in He.
  - case_match; [done|]. simplify_eq. by left.
  - destruct (requests s !! r) as [q|]; [|done]. cbn in He. unfold turn in He.
    destruct (at_pc q); try done;
      try (repeat (case_match; try done); simplify_eq; by left).
    + simplify_eq. left. unfold reserve. by repeat case_match.
    + simplify_eq. right. exists (OpAdmit (principal q) (expected q) now). cbn.
      unfold gateway_admission. by destruct (admit_command _ _ _ _) as [a []].
    + simplify_eq. left. unfold start. by repeat case_match.
    + simplify_eq. left. unfold complete, finish. cbn. by case_match.
  - destruct (requests s !! r) as [q|]; [|done]. cbn in He. unfold disconnect in He.
    left. destruct (at_pc q); by simplify_eq.
  - right. exists o. destruct o; try done; case_match; by simplify_eq.
  - left. destruct (publishing s !! k); by simplify_eq/=.
  - left. destruct (gate s); by simplify_eq.
  - left. destruct (gate s) as [[]|]; by simplify_eq.
Qed.

Lemma happen_inv s e s' :
  inv s -> generation (control s) + 2 <= u64_max -> happen s e = Some s' -> inv s'.
Proof.
  intros I Hgen He. pose proof (lease_kept_refl _ (in_generation s I)) as Hlk.
  destruct e as [r p i ex|r now answer url|r|o k|k| |]; cbn in He.
  - destruct (requests s !! r) eqn:Hr; [done|]. simplify_eq. by apply arrive_inv.
  - destruct (requests s !! r) as [q|] eqn:Hr; [|done]. by eapply turn_inv.
  - destruct (requests s !! r) as [q|] eqn:Hr; [|done]. by eapply disconnect_inv.
  - pose proof (moved_kept _ _ _ (in_generation s I)
      (run_op_moved (control s) o (in_generation s I) Hgen)) as Hm.
    destruct o; try done; case_match; simplify_eq; by apply (inv_frame s).
  - destruct (publishing s !! k); [|done]. simplify_eq/=. by apply (inv_frame s).
  - destruct (gate s) as [[]|] eqn:Hg; [done|done|]. simplify_eq.
    apply (inv_frame s); cbn; rewrite ?Hg; done.
  - destruct (gate s) as [[]|] eqn:Hg; [done| |done]. simplify_eq.
    apply (inv_frame s); cbn; rewrite ?Hg; done.
Qed.

Lemma new_inv ttl : inv (new_session ttl).
Proof.
  split; cbn; try done.
  split_and!; cbn; [by constructor|lia|]. intros i. split; [set_solver|].
  intros [o Ho]. by rewrite lookup_empty in Ho.
Qed.

Lemma session_run_inv l : forall s s',
  inv s -> generation (control s) + 2 * Z.of_nat (length l) <= u64_max ->
  run s l = Some s' -> inv s'.
Proof.
  induction l as [|e l IH]; intros s s' I Hgen; cbn [run]; [by intros [= <-]|].
  cbn [length] in Hgen. destruct (happen s e) as [s1|] eqn:He; [|done]. cbn.
  pose proof (happen_generation s e s1 (in_generation s I) ltac:(lia) He).
  apply IH; [|lia]. eapply happen_inv; [exact I|lia|exact He].
Qed.

(** C26: The driver only performs commands of the controller, one at a time: whatever
    requests, control operations, disconnects and closings interleave, a request
    that reached the driver found its own principal in control when it did, and no
    two requests are with the driver together. *)
Theorem commands_run_under_control ttl l s :
  run (new_session ttl) l = Some s -> 2 * Z.of_nat (length l) <= u64_max ->
  (forall r q ctl e, requests s !! r = Some q -> driven q = Some (ctl, e) ->
     matches (principal q) ctl = true) /\
  (forall r1 r2 q1 q2, requests s !! r1 = Some q1 -> requests s !! r2 = Some q2 ->
     performing (at_pc q1) = true -> performing (at_pc q2) = true -> r1 = r2).
Proof.
  intros Hr Hl. assert (inv s) as I by (by eapply session_run_inv; [apply new_inv|cbn|]).
  split.
  - intros r q ctl e Hq Hd. destruct (in_request s I r q Hq) as [_ _ _ Qd].
    rewrite Hd in Qd. destruct Qd as (-> & _). by apply bool_decide_eq_true.
  - intros r1 r2 q1 q2 H1 H2 P1 P2.
    assert (forall p, performing p = true -> inside p = true) as Hin by (by intros []).
    apply Hin, (rq_gate _ _ _ (in_request s I r1 q1 H1)) in P1.
    apply Hin, (rq_gate _ _ _ (in_request s I r2 q2 H2)) in P2. congruence.
Qed.

(** C27: A command runs at most once: until the cache has to forget outcomes, at most
    one request of a command is with the driver or has its outcome recorded, however
    many duplicates of it arrive and whenever they do.  What is left out is what the
    cache does not count as executed: calls the driver refused, and calls whose
    client disconnected. *)
Theorem command_executes_once ttl l s r1 r2 q1 q2 :
  run (new_session ttl) l = Some s -> 2 * Z.of_nat (length l) <= u64_max ->
  (length (recorded s) <= IDEMPOTENCY_CAPACITY)%nat ->
  requests s !! r1 = Some q1 -> requests s !! r2 = Some q2 -> command q1 = command q2 ->
  counted q1 = true -> counted q2 = true -> r1 = r2.
Proof.
  intros Hr Hl Hn. assert (inv s) as I by (by eapply session_run_inv; [apply new_inv|cbn|]).
  by apply (in_once s I).
Qed.

(** Code bug: the publication of a control change can overtake a later one.  Each
    operation computes the state under the lock and publishes it after releasing it,
    so of two operations the first can publish last, and the observers' state stays
    behind the arbiter with nothing left to publish. *)
Theorem late_publication_wins s o1 o2 k1 k2 :
  publishing s = ∅ -> k1 <> k2 ->
  publishes (control s) o1 = true -> publishes (run_op (control s) o1) o2 = true ->
  exists s', run s [EControl o1 k1; EControl o2 k2; EPublish k2; EPublish k1] = Some s' /\
    publishing s' = ∅ /\
    control s' = run_op (run_op (control s) o1) o2 /\
    published s' = state (run_op (control s) o1).
Proof.
  intros Hp Hk P1 P2. cbn [run happen].
  assert (forall (o : op) (x y : option session), (forall p ex now, o <> OpAdmit p ex now) ->
    match o with OpAdmit _ _ _ => x | _ => y end = y) as Hm
    by (intros o x y Ho; destruct o; try done; by edestruct Ho).
  assert (forall a o, publishes a o = true -> forall p ex now, o <> OpAdmit p ex now) as Hna
    by (intros a o Ho p ex now ->; done).
  pose proof (Hna _ _ P1) as N1. pose proof (Hna _ _ P2) as N2.
  rewrite Hp, lookup_empty, P1. destruct o1; try (by edestruct N1); cbn [mbind option_bind];
    cbn [happen publishing control set_published set_control];
    rewrite lookup_insert_ne, lookup_empty, P2 by done;
    destruct o2; try (by edestruct N2); cbn [mbind option_bind];
    cbn [happen publishing control published set_published set_control];
    rewrite lookup_insert_eq; cbn [mbind option_bind];
    cbn [happen publishing control published set_published set_control];
    rewrite delete_insert_id, lookup_insert_eq by (by rewrite lookup_insert_ne);
    cbn [mbind option_bind run];
    (eexists; split; [reflexivity|]); cbn; split_and!; try done;
    by rewrite delete_insert_id by (by rewrite lookup_empty).
Qed.

End Facts.
End GatewayFacts.

(** ** Concrete sessions *)
Module GatewaySamples.
Import Arbiter ArbiterFacts Gateway.

Definition agent : ControlPrincipal := AgentPrincipal 1.
Definition person : ControlPrincipal := HumanPrincipal "user" 2.
Definition take (p : ControlPrincipal) : op := OpAcquire p true false None 10.

Abbreviation opened := (new_session (Value := unit) 60).

(** Six sections take a request to the driver. *)
Definition to_driver (r : nat) : list (event (Value := unit)) :=
  replicate 6 (ETurn r 20 None None).

(** The client disconnects while the driver performs; its retry performs again. *)
Definition retried : list (event (Value := unit)) :=
  [EControl (take agent) 0; EArrive 1 agent 7 None] ++ to_driver 1 ++
  [EDisconnect 1; EArrive 2 agent 7 None] ++ to_driver 2 ++
  [ETurn 2 30 (Some (Ok (Some tt))) None].

(** A duplicate waits for its owner and gets the owner's outcome. *)
Definition duplicated : list (event (Value := unit)) :=
  [EControl (take agent) 0; EArrive 1 agent 7 None] ++ to_driver 1 ++
  [EArrive 2 agent 7 None; ETurn 2 21 None None; ETurn 2 21 None None;
   ETurn 1 30 (Some (Ok (Some tt))) None; ETurn 2 31 None None].

(** A person takes over while the agent's command waits behind the gate. *)
Definition taken_over : list (event (Value := unit)) :=
  [EControl (take agent) 0; EArrive 1 agent 7 None] ++ replicate 5 (ETurn 1 20 None None) ++
  [EControl (take person) 1; ETurn 1 21 None None].

Definition outcome_of (l : list (event (Value := unit))) (r : nat) :=
  s ← run opened l; q ← requests s !! r; Some (at_pc q, driven q).

Example duplicate_shares_outcome :
  outcome_of duplicated 2 = Some (Answered (Ok
    {| ar_command_id := 7%N; ar_generation := 1; ar_value := Some tt; ar_current_url := None |}),
    None).
Proof. vm_compute. reflexivity. Qed.

Example takeover_invalidates :
  outcome_of taken_over 1 = Some (Answered (Err (ControlLost (Human "user" 2) 2)), None).
Proof. vm_compute. reflexivity. Qed.

End GatewaySamples.

Lemma commands_run_under_control_witness :
  exists s, Gateway.run (Gateway.new_session (Value := unit) 60) GatewaySamples.retried = Some s /\
    forall r q ctl e, Gateway.requests s !! r = Some q -> Gateway.driven q = Some (ctl, e) ->
      Arbiter.matches (Gateway.principal q) ctl = true.
Proof.
  destruct (Gateway.run (Gateway.new_session (Value := unit) 60) GatewaySamples.retried)
    as [s|] eqn:H; [|vm_compute in H; discriminate H].
  exists s. split; [reflexivity|].
  refine (proj1 (GatewayFacts.commands_run_under_control 60 _ s H _)). vm_compute. discriminate.
Defined.

Lemma command_executes_once_witness :
  exists s, Gateway.run (Gateway.new_session (Value := unit) 60) GatewaySamples.retried = Some s /\
    forall r q, Gateway.requests s !! r = Some q -> Gateway.command q = 7%N ->
      GatewayFacts.counted q = true -> 2%nat = r.
Proof.
  destruct (Gateway.run (Gateway.new_session (Value := unit) 60) GatewaySamples.retried)
    as [s|] eqn:H; [|vm_compute in H; discriminate H].
  assert (exists q, Gateway.requests s !! 2%nat = Some q /\ Gateway.command q = 7%N /\
    GatewayFacts.counted q = true /\
    (length (Gateway.recorded s) <= Gateway.IDEMPOTENCY_CAPACITY)%nat) as (q2 & Hq & Hi & Hc & Hl).
  { pose proof H as H'. vm_compute in H'. injection H' as <-. eexists.
    split; [vm_compute; reflexivity|]. split; [reflexivity|]. split; [reflexivity|].
    apply Nat.leb_le. reflexivity. }
  exists s. split; [reflexivity|]. intros r q Hr Hcmd Hcount.
  refine (GatewayFacts.command_executes_once 60 _ s 2%nat r q2 q H _ Hl Hq Hr _ Hc Hcount).
  - vm_compute. discriminate.
  - congruence.
Defined.

(** A disconnect forgets a command the driver may have performed: a concrete run in
    which the client of a command disconnects while the driver performs it, and its
    retry under the same command id reaches the driver a second time. *)
Theorem disconnect_reexecutes :
  exists s q1 q2,
    Gateway.run (Gateway.new_session (Value := unit) 60) GatewaySamples.retried = Some s /\
    Gateway.requests s !! 1%nat = Some q1 /\ Gateway.requests s !! 2%nat = Some q2 /\
    Gateway.command q1 = Gateway.command q2 /\
    Gateway.driven q1 = Some (Arbiter.Agent 1, Gateway.Abandoned) /\
    Gateway.driven q2 = Some (Arbiter.Agent 1, Gateway.Recorded).
Proof. do 3 eexists. split_and!; vm_compute; reflexivity. Qed.

Lemma late_publication_wins_witness :
  let opened := Gateway.new_session (Value := unit) 60 in
  exists s, Gateway.publishing s = ∅ /\
    Arbiter.controller (Gateway.control s) = Arbiter.Human "user" 2 /\
    Arbiter.bc_controller (Gateway.published (Value := unit) s) = Arbiter.Agent 1.
Proof.
  intros opened.
  destruct (GatewayFacts.late_publication_wins opened (GatewaySamples.take GatewaySamples.agent)
    (GatewaySamples.take GatewaySamples.person) 0 1) as (s & _ & Hp & Hc & Hb);
    [reflexivity|discriminate|reflexivity|reflexivity|].
  exists s. split; [exact Hp|]. rewrite Hc, Hb. split; reflexivity.
Defined.
