(* ===== verification/Fragment.v ===== *)
(** * Message fragmentation on data channels (crates/relay-webrtc/src/fragment.rs)

    A message is cut into chunks with a one-byte header, and a receiver joins them
    again.  Bytes are numbers below 256; the channel delivers in order. *)
From S2P Require Import Prelude.

Module Fragment.

Abbreviation bytes := (list Z).

(* crates/relay-webrtc/src/fragment.rs:20-22 CHUNK_PAYLOAD_SIZE *)
Definition CHUNK_PAYLOAD_SIZE : Z := 60 * 1024.

(* crates/relay-webrtc/src/fragment.rs:24-25 BITFIELD_MORE *)
Definition BITFIELD_MORE : Z := 6.

(* crates/relay-webrtc/src/fragment.rs:27-28 BITFIELD_END *)
Definition BITFIELD_END : Z := 7.

(** [slice::chunks]: pieces of [n] elements, the last one possibly shorter.  Every
    piece takes an element, so the length is fuel enough. *)
Fixpoint chunks_fuel {A} (fuel n : nat) (l : list A) : list (list A) :=
  match fuel, l with
  | S fuel, _ :: _ => take n l :: chunks_fuel fuel n (drop n l)
  | _, _ => []
  end.

Definition chunks {A} (n : nat) (l : list A) : list (list A) := chunks_fuel (length l) n l.

(* crates/relay-webrtc/src/fragment.rs:41-57 fragment *)
Definition with_headers (pieces : list bytes) : list bytes :=
  let last_idx := (length pieces - 1)%nat in
  imap (fun i payload => (if decide (i = last_idx) then BITFIELD_END else BITFIELD_MORE) :: payload)
       pieces.

(* crates/relay-webrtc/src/fragment.rs:32-58 fragment *)
Definition fragment (data : bytes) : list bytes :=
  if decide (Z.of_nat (length data) <= CHUNK_PAYLOAD_SIZE) then [BITFIELD_END :: data]
  else with_headers (chunks (Z.to_nat CHUNK_PAYLOAD_SIZE) data).

(* crates/relay-webrtc/src/fragment.rs:60-67 Defragmenter *)
Record Defragmenter := { buffer : bytes }.

(* crates/relay-webrtc/src/fragment.rs:70-72 Defragmenter::new *)
Definition new : Defragmenter := {| buffer := [] |}.

(* crates/relay-webrtc/src/fragment.rs:78-100 Defragmenter::process *)
Definition process (d : Defragmenter) (data : bytes) : Defragmenter * option bytes :=
  match data with
  | [] => (d, None)
  | header :: payload =>
      let is_end := negb (bool_decide (Z.land header 1 = 0)) in
      if bool_decide (buffer d = []) && is_end then (d, Some payload)
      else
        let buffer := buffer d ++ payload in
        if is_end then ({| buffer := [] |}, Some buffer)
        else ({| buffer := buffer |}, None)
  end.

(** A receiver that handles chunk after chunk, with the messages it completed. *)
Fixpoint receive (d : Defragmenter) (l : list bytes) : Defragmenter * list bytes :=
  match l with
  | [] => (d, [])
  | chunk :: l =>
      let (d, message) := process d chunk in
      let (d, messages) := receive d l in
      (d, option_list message ++ messages)
  end.

(** ** Pieces *)

Lemma concat_chunks_fuel {A} n (l : list A) : forall fuel,
  (0 < n)%nat -> (length l <= fuel)%nat -> concat (chunks_fuel fuel n l) = l.
Proof.
  intros fuel Hn. revert l. induction fuel as [|fuel IH]; intros [|x l] Hf; try done;
    cbn [length] in Hf; [lia|]. cbn [chunks_fuel concat]. rewrite IH.
  - apply take_drop.
  - rewrite length_drop. cbn [length]. lia.
Qed.

Lemma chunks_fuel_bound {A} n (l : list A) : forall fuel,
  Forall (fun c => length c <= n)%nat (chunks_fuel fuel n l).
Proof.
  intros fuel. revert l. induction fuel as [|fuel IH]; intros [|x l]; cbn; try constructor; [|apply IH].
  rewrite length_take. lia.
Qed.

Lemma imap_snoc {A B} (f : nat -> A -> B) l x :
  imap f (l ++ [x]) = imap f l ++ [f (length l) x].
Proof. rewrite imap_app. cbn. by rewrite Nat.add_0_r. Qed.

(** Only the last piece carries the end mark. *)
Lemma with_headers_snoc l x :
  with_headers (l ++ [x]) = ((BITFIELD_MORE ::.) <$> l) ++ [BITFIELD_END :: x].
Proof.
  unfold with_headers. rewrite imap_snoc, length_app. cbn [length].
  rewrite decide_True by lia. f_equal.
  rewrite <- (imap_const (BITFIELD_MORE ::.) l). apply imap_ext. intros i p Hi.
  apply lookup_lt_Some in Hi. by rewrite decide_False by lia.
Qed.

Lemma receive_app d l1 l2 :
  receive d (l1 ++ l2) =
    let (d1, m1) := receive d l1 in let (d2, m2) := receive d1 l2 in (d2, m1 ++ m2).
Proof.
  revert d. induction l1 as [|c l1 IH]; intros d; cbn.
  - by destruct (receive d l2).
  - destruct (process d c) as [d' m]. rewrite IH. destruct (receive d' l1) as [d1 m1].
    destruct (receive d1 l2) as [d2 m2]. by rewrite app_assoc.
Qed.

Lemma receive_more d l :
  receive d ((BITFIELD_MORE ::.) <$> l) = ({| buffer := buffer d ++ concat l |}, []).
Proof.
  revert d. induction l as [|p l IH]; intros d.
  - cbn. rewrite app_nil_r. by destruct d.
  - rewrite fmap_cons. cbn [receive concat].
    change (process d (BITFIELD_MORE :: p)) with
      (if bool_decide (buffer d = []) && false then (d, Some p)
       else ({| buffer := buffer d ++ p |}, @None bytes)).
    rewrite andb_false_r, IH. cbn [buffer option_list app]. by rewrite <- app_assoc.
Qed.

Lemma process_end d payload :
  process d (BITFIELD_END :: payload) = ({| buffer := [] |}, Some (buffer d ++ payload)).
Proof. destruct d as [b]. cbn. case_bool_decide; [by subst|done]. Qed.

Lemma receive_message data : receive new (fragment data) = (new, [data]).
Proof.
  unfold fragment. case_decide as Hlen.
  { cbn [receive]. by rewrite process_end. }
  set (l := chunks _ _).
  assert (concat l = data) as Hl.
  { apply concat_chunks_fuel; [|done]. unfold CHUNK_PAYLOAD_SIZE. lia. }
  clearbody l. destruct l as [|x l _] using rev_ind.
  { cbn in Hl. subst data. by destruct Hlen. }
  rewrite with_headers_snoc, receive_app, receive_more. cbn [receive].
  rewrite process_end. cbn. rewrite <- Hl, concat_app. cbn. by rewrite app_nil_r.
Qed.

(** What is sent arrives: any messages, of any length, sent one after the other in
    chunks over an ordered channel are received as exactly those messages, in order,
    and the receiver's buffer is empty afterwards. *)
Theorem fragment_roundtrip messages :
  receive new (concat (fragment <$> messages)) = (new, messages).
Proof.
  induction messages as [|m messages IH]; [done|].
  cbn [fmap list_fmap concat]. rewrite receive_app, receive_message, IH. done.
Qed.

(** Every chunk fits: no chunk of any message is longer than its payload limit and
    the header, which is below the channel's message limit of 65536 bytes. *)
Theorem chunks_fit data :
  CHUNK_PAYLOAD_SIZE + 1 < 65536 /\
  Forall (fun chunk => 0 < Z.of_nat (length chunk) <= CHUNK_PAYLOAD_SIZE + 1)
         (fragment data).
Proof.
  split; [done|]. unfold fragment. case_decide as Hlen.
  - constructor; [|done]. cbn [length]. unfold CHUNK_PAYLOAD_SIZE in *. lia.
  - pose proof (chunks_fuel_bound (Z.to_nat CHUNK_PAYLOAD_SIZE) data (length data)) as Hb.
    apply Forall_forall. intros c Hc. unfold with_headers in Hc.
    apply elem_of_lookup_imap in Hc as (i & p & -> & Hp).
    eapply Forall_lookup_1 in Hb; [|exact Hp]. cbn [length].
    unfold CHUNK_PAYLOAD_SIZE in *. cbn beta in Hb. lia.
Qed.

End Fragment.
