(* ===== verification/DeliveryRow.v ===== *)
(** * The ledger of issue-comment deliveries

    [DeliveryRow] is the table behind crates/db/src/models/issue_comment_delivery.rs and
    [Wakeups] the wake-ups of crates/db/src/models/wakeup.rs, which share it.  Each SQL
    statement is a function on the table; clock readings and fresh identifiers are
    arguments.  A statement that breaks a foreign key fails like any other database
    error and changes nothing. *)
From S2P Require Import Prelude.

(** [ORDER BY] a numeric key. *)
Definition by_key {A} (key : A -> Z) (a b : A) : Prop := key a <= key b.

#[global] Instance by_key_dec {A} (key : A -> Z) : RelDecision (by_key key).
Proof. unfold by_key. solve_decision. Defined.

Module DeliveryRow.

(* crates/db/src/models/issue_comment_delivery.rs:18-35 IssueCommentDeliveryState *)
Inductive IssueCommentDeliveryState :=
| Pending | Dispatching | Delivered | NeedsTarget | NoTarget | Failed | Blocked | Cancelled.

#[global] Instance delivery_state_eq_dec : EqDecision IssueCommentDeliveryState.
Proof. solve_decision. Defined.

(* crates/db/src/models/issue_comment_delivery.rs:39-41 IssueCommentDeliveryState::is_resolvable *)
Definition is_resolvable (s : IssueCommentDeliveryState) : bool :=
  match s with NeedsTarget | NoTarget | Failed => true | _ => false end.

(* crates/db/src/models/issue_comment_delivery.rs:43-54 IssueCommentDeliveryState::as_str *)
Definition as_str (s : IssueCommentDeliveryState) : string :=
  match s with
  | Pending => "pending"
  | Dispatching => "dispatching"
  | Delivered => "delivered"
  | NeedsTarget => "needs_target"
  | NoTarget => "no_target"
  | Failed => "failed"
  | Blocked => "blocked"
  | Cancelled => "cancelled"
  end.

(* crates/db/src/models/issue_comment_delivery.rs:61-94 IssueCommentDeliveryReason *)
Inductive IssueCommentDeliveryReason :=
| AgentRunning | QueuedMessage | RetryScheduled | NoLinkedWorkspace | WorkspaceOtherHost
| WorkspaceArchived | IssueTerminal | NoSessions | TurnStopped | TargetNotLinked
| Ambiguous | SelfTarget | LoopGuard | CommentDeleted | RemoteUnavailable | Unauthorized
| StartFailed | LaunchUncertain.

#[global] Instance delivery_reason_eq_dec : EqDecision IssueCommentDeliveryReason.
Proof. solve_decision. Defined.

(* crates/db/src/models/issue_comment_delivery.rs:99-102 IssueCommentDeliverySource *)
Inductive IssueCommentDeliverySource := Ui | Mcp.

#[global] Instance delivery_source_eq_dec : EqDecision IssueCommentDeliverySource.
Proof. solve_decision. Defined.

(* crates/db/src/models/issue_comment_delivery.rs:105-134 IssueCommentDelivery *)
Record IssueCommentDelivery := {
  id : Uuid;
  comment_id : Uuid;
  issue_id : Uuid;
  workspace_id : option Uuid;
  session_id : option Uuid;
  execution_process_id : option Uuid;
  state : IssueCommentDeliveryState;
  reason : option IssueCommentDeliveryReason;
  error : option string;
  source : IssueCommentDeliverySource;
  origin_session_id : option Uuid;
  hop_count : Z;
  comment_author_id : option Uuid;
  comment_created_at : DateTime;
  delivered_message : option string;
  delivered_comment_updated_at : option DateTime;
  attempt_count : Z;
  next_attempt_at : option DateTime;
  allow_stopped_target : bool;
  created_at : DateTime;
  updated_at : DateTime;
  delivered_at : option DateTime;
}.

(** One assignment of the [SET] clause of an [UPDATE]. *)
Inductive assignment :=
| Set_workspace_id (v : option Uuid)
| Set_session_id (v : option Uuid)
| Set_execution_process_id (v : option Uuid)
| Set_state (v : IssueCommentDeliveryState)
| Set_reason (v : option IssueCommentDeliveryReason)
| Set_error (v : option string)
| Set_hop_count (v : Z)
| Set_delivered_message (v : option string)
| Set_delivered_comment_updated_at (v : option DateTime)
| Set_attempt_count (v : Z)
| Set_next_attempt_at (v : option DateTime)
| Set_allow_stopped_target (v : bool)
| Set_updated_at (v : DateTime)
| Set_delivered_at (v : option DateTime).

Definition assign (d : IssueCommentDelivery) (a : assignment) : IssueCommentDelivery :=
  match a with
  | Set_workspace_id v =>
      {| id := id d; comment_id := comment_id d; issue_id := issue_id d;
       workspace_id := v; session_id := session_id d;
       execution_process_id := execution_process_id d; state := state d;
       reason := reason d; error := error d; source := source d;
       origin_session_id := origin_session_id d; hop_count := hop_count d;
       comment_author_id := comment_author_id d;
       comment_created_at := comment_created_at d;
       delivered_message := delivered_message d;
       delivered_comment_updated_at := delivered_comment_updated_at d;
       attempt_count := attempt_count d; next_attempt_at := next_attempt_at d;
       allow_stopped_target := allow_stopped_target d; created_at := created_at d;
       updated_at := updated_at d; delivered_at := delivered_at d |}
  | Set_session_id v =>
      {| id := id d; comment_id := comment_id d; issue_id := issue_id d;
       workspace_id := workspace_id d; session_id := v;
       execution_process_id := execution_process_id d; state := state d;
       reason := reason d; error := error d; source := source d;
       origin_session_id := origin_session_id d; hop_count := hop_count d;
       comment_author_id := comment_author_id d;
       comment_created_at := comment_created_at d;
       delivered_message := delivered_message d;
       delivered_comment_updated_at := delivered_comment_updated_at d;
       attempt_count := attempt_count d; next_attempt_at := next_attempt_at d;
       allow_stopped_target := allow_stopped_target d; created_at := created_at d;
       updated_at := updated_at d; delivered_at := delivered_at d |}
  | Set_execution_process_id v =>
      {| id := id d; comment_id := comment_id d; issue_id := issue_id d;
       workspace_id := workspace_id d; session_id := session_id d;
       execution_process_id := v; state := state d; reason := reason d;
       error := error d; source := source d; origin_session_id := origin_session_id d;
       hop_count := hop_count d; comment_author_id := comment_author_id d;
       comment_created_at := comment_created_at d;
       delivered_message := delivered_message d;
       delivered_comment_updated_at := delivered_comment_updated_at d;
       attempt_count := attempt_count d; next_attempt_at := next_attempt_at d;
       allow_stopped_target := allow_stopped_target d; created_at := created_at d;
       updated_at := updated_at d; delivered_at := delivered_at d |}
  | Set_state v =>
      {| id := id d; comment_id := comment_id d; issue_id := issue_id d;
       workspace_id := workspace_id d; session_id := session_id d;
       execution_process_id := execution_process_id d; state := v; reason := reason d;
       error := error d; source := source d; origin_session_id := origin_session_id d;
       hop_count := hop_count d; comment_author_id := comment_author_id d;
       comment_created_at := comment_created_at d;
       delivered_message := delivered_message d;
       delivered_comment_updated_at := delivered_comment_updated_at d;
       attempt_count := attempt_count d; next_attempt_at := next_attempt_at d;
       allow_stopped_target := allow_stopped_target d; created_at := created_at d;
       updated_at := updated_at d; delivered_at := delivered_at d |}
  | Set_reason v =>
      {| id := id d; comment_id := comment_id d; issue_id := issue_id d;
       workspace_id := workspace_id d; session_id := session_id d;
       execution_process_id := execution_process_id d; state := state d; reason := v;
       error := error d; source := source d; origin_session_id := origin_session_id d;
       hop_count := hop_count d; comment_author_id := comment_author_id d;
       comment_created_at := comment_created_at d;
       delivered_message := delivered_message d;
       delivered_comment_updated_at := delivered_comment_updated_at d;
       attempt_count := attempt_count d; next_attempt_at := next_attempt_at d;
       allow_stopped_target := allow_stopped_target d; created_at := created_at d;
       updated_at := updated_at d; delivered_at := delivered_at d |}
  | Set_error v =>
      {| id := id d; comment_id := comment_id d; issue_id := issue_id d;
       workspace_id := workspace_id d; session_id := session_id d;
       execution_process_id := execution_process_id d; state := state d;
       reason := reason d; error := v; source := source d;
       origin_session_id := origin_session_id d; hop_count := hop_count d;
       comment_author_id := comment_author_id d;
       comment_created_at := comment_created_at d;
       delivered_message := delivered_message d;
       delivered_comment_updated_at := delivered_comment_updated_at d;
       attempt_count := attempt_count d; next_attempt_at := next_attempt_at d;
       allow_stopped_target := allow_stopped_target d; created_at := created_at d;
       updated_at := updated_at d; delivered_at := delivered_at d |}
  | Set_hop_count v =>
      {| id := id d; comment_id := comment_id d; issue_id := issue_id d;
       workspace_id := workspace_id d; session_id := session_id d;
       execution_process_id := execution_process_id d; state := state d;
       reason := reason d; error := error d; source := source d;
       origin_session_id := origin_session_id d; hop_count := v;
       comment_author_id := comment_author_id d;
       comment_created_at := comment_created_at d;
       delivered_message := delivered_message d;
       delivered_comment_updated_at := delivered_comment_updated_at d;
       attempt_count := attempt_count d; next_attempt_at := next_attempt_at d;
       allow_stopped_target := allow_stopped_target d; created_at := created_at d;
       updated_at := updated_at d; delivered_at := delivered_at d |}
  | Set_delivered_message v =>
      {| id := id d; comment_id := comment_id d; issue_id := issue_id d;
       workspace_id := workspace_id d; session_id := session_id d;
       execution_process_id := execution_process_id d; state := state d;
       reason := reason d; error := error d; source := source d;
       origin_session_id := origin_session_id d; hop_count := hop_count d;
       comment_author_id := comment_author_id d;
       comment_created_at := comment_created_at d; delivered_message := v;
       delivered_comment_updated_at := delivered_comment_updated_at d;
       attempt_count := attempt_count d; next_attempt_at := next_attempt_at d;
       allow_stopped_target := allow_stopped_target d; created_at := created_at d;
       updated_at := updated_at d; delivered_at := delivered_at d |}
  | Set_delivered_comment_updated_at v =>
      {| id := id d; comment_id := comment_id d; issue_id := issue_id d;
       workspace_id := workspace_id d; session_id := session_id d;
       execution_process_id := execution_process_id d; state := state d;
       reason := reason d; error := error d; source := source d;
       origin_session_id := origin_session_id d; hop_count := hop_count d;
       comment_author_id := comment_author_id d;
       comment_created_at := comment_created_at d;
       delivered_message := delivered_message d; delivered_comment_updated_at := v;
       attempt_count := attempt_count d; next_attempt_at := next_attempt_at d;
       allow_stopped_target := allow_stopped_target d; created_at := created_at d;
       updated_at := updated_at d; delivered_at := delivered_at d |}
  | Set_attempt_count v =>
      {| id := id d; comment_id := comment_id d; issue_id := issue_id d;
       workspace_id := workspace_id d; session_id := session_id d;
       execution_process_id := execution_process_id d; state := state d;
       reason := reason d; error := error d; source := source d;
       origin_session_id := origin_session_id d; hop_count := hop_count d;
       comment_author_id := comment_author_id d;
       comment_created_at := comment_created_at d;
       delivered_message := delivered_message d;
       delivered_comment_updated_at := delivered_comment_updated_at d;
       attempt_count := v; next_attempt_at := next_attempt_at d;
       allow_stopped_target := allow_stopped_target d; created_at := created_at d;
       updated_at := updated_at d; delivered_at := delivered_at d |}
  | Set_next_attempt_at v =>
      {| id := id d; comment_id := comment_id d; issue_id := issue_id d;
       workspace_id := workspace_id d; session_id := session_id d;
       execution_process_id := execution_process_id d; state := state d;
       reason := reason d; error := error d; source := source d;
       origin_session_id := origin_session_id d; hop_count := hop_count d;
       comment_author_id := comment_author_id d;
       comment_created_at := comment_created_at d;
       delivered_message := delivered_message d;
       delivered_comment_updated_at := delivered_comment_updated_at d;
       attempt_count := attempt_count d; next_attempt_at := v;
       allow_stopped_target := allow_stopped_target d; created_at := created_at d;
       updated_at := updated_at d; delivered_at := delivered_at d |}
  | Set_allow_stopped_target v =>
      {| id := id d; comment_id := comment_id d; issue_id := issue_id d;
       workspace_id := workspace_id d; session_id := session_id d;
       execution_process_id := execution_process_id d; state := state d;
       reason := reason d; error := error d; source := source d;
       origin_session_id := origin_session_id d; hop_count := hop_count d;
       comment_author_id := comment_author_id d;
       comment_created_at := comment_created_at d;
       delivered_message := delivered_message d;
       delivered_comment_updated_at := delivered_comment_updated_at d;
       attempt_count := attempt_count d; next_attempt_at := next_attempt_at d;
       allow_stopped_target := v; created_at := created_at d;
       updated_at := updated_at d; delivered_at := delivered_at d |}
  | Set_updated_at v =>
      {| id := id d; comment_id := comment_id d; issue_id := issue_id d;
       workspace_id := workspace_id d; session_id := session_id d;
       execution_process_id := execution_process_id d; state := state d;
       reason := reason d; error := error d; source := source d;
       origin_session_id := origin_session_id d; hop_count := hop_count d;
       comment_author_id := comment_author_id d;
       comment_created_at := comment_created_at d;
       delivered_message := delivered_message d;
       delivered_comment_updated_at := delivered_comment_updated_at d;
       attempt_count := attempt_count d; next_attempt_at := next_attempt_at d;
       allow_stopped_target := allow_stopped_target d; created_at := created_at d;
       updated_at := v; delivered_at := delivered_at d |}
  | Set_delivered_at v =>
      {| id := id d; comment_id := comment_id d; issue_id := issue_id d;
       workspace_id := workspace_id d; session_id := session_id d;
       execution_process_id := execution_process_id d; state := state d;
       reason := reason d; error := error d; source := source d;
       origin_session_id := origin_session_id d; hop_count := hop_count d;
       comment_author_id := comment_author_id d;
       comment_created_at := comment_created_at d;
       delivered_message := delivered_message d;
       delivered_comment_updated_at := delivered_comment_updated_at d;
       attempt_count := attempt_count d; next_attempt_at := next_attempt_at d;
       allow_stopped_target := allow_stopped_target d; created_at := created_at d;
       updated_at := updated_at d; delivered_at := v |}
  end.


(* crates/db/src/models/issue_comment_delivery.rs:138-145 NewIssueCommentDelivery *)
Record NewIssueCommentDelivery := {
  new_comment_id : Uuid;
  new_issue_id : Uuid;
  new_source : IssueCommentDeliverySource;
  new_origin_session_id : option Uuid;
  new_comment_author_id : option Uuid;
  new_comment_created_at : DateTime;
}.

(* crates/db/src/models/issue_comment_delivery.rs:149-157 IssueCommentDeliveryResolution *)
Record IssueCommentDeliveryResolution := {
  res_state : IssueCommentDeliveryState;
  res_reason : option IssueCommentDeliveryReason;
  res_error : option string;
  res_workspace_id : option Uuid;
  res_session_id : option Uuid;
  res_hop_count : Z;
  res_allow_stopped_target : bool;
}.

Abbreviation table := (gmap Uuid IssueCommentDelivery).

Definition rows (t : table) : list IssueCommentDelivery := (map_to_list t).*2.

(** [UPDATE ... SET set WHERE id = i AND ok], with whether a row was affected. *)
Definition update (t : table) (i : Uuid) (ok : IssueCommentDelivery -> bool)
    (set : IssueCommentDelivery -> list assignment) : table * bool :=
  match t !! i with
  | Some d => if ok d then (<[i := foldl assign d (set d)]> t, true) else (t, false)
  | None => (t, false)
  end.

Definition state_is (s : IssueCommentDeliveryState) (d : IssueCommentDelivery) : bool :=
  bool_decide (state d = s).

(** ** Queries *)

(* crates/db/src/models/issue_comment_delivery.rs:230-235 IssueCommentDelivery::find_by_id *)
Definition find_by_id (t : table) (i : Uuid) : option IssueCommentDelivery := t !! i.

(* crates/db/src/models/issue_comment_delivery.rs:237-245 IssueCommentDelivery::find_by_comment_id *)
Definition find_by_comment_id (t : table) (c : Uuid) : option IssueCommentDelivery :=
  head (filter (fun d => comment_id d = c) (rows t)).

(* crates/db/src/models/issue_comment_delivery.rs:247-257 IssueCommentDelivery::list_by_issue *)
Definition list_by_issue (t : table) (issue : Uuid) : list IssueCommentDelivery :=
  merge_sort (by_key comment_created_at) (filter (fun d => issue_id d = issue) (rows t)).

(* crates/db/src/models/issue_comment_delivery.rs:260-270 IssueCommentDelivery::find_by_execution_process_id *)
Definition find_by_execution_process_id (t : table) (execution : Uuid)
    : option IssueCommentDelivery :=
  head (merge_sort (by_key (fun d => - hop_count d))
          (filter (fun d => execution_process_id d = Some execution) (rows t))).

(* crates/db/src/models/issue_comment_delivery.rs:273-283 IssueCommentDelivery::list_pending_for_session *)
Definition list_pending_for_session (t : table) (session : Uuid) : list IssueCommentDelivery :=
  merge_sort (by_key comment_created_at)
    (filter (fun d => session_id d = Some session /\ state d = Pending) (rows t)).

Definition is_due (now : DateTime) (d : IssueCommentDelivery) : bool :=
  match next_attempt_at d with None => true | Some at_ => bool_decide (at_ <= now) end.

(* crates/db/src/models/issue_comment_delivery.rs:286-298 IssueCommentDelivery::sessions_with_due_pending *)
Definition sessions_with_due_pending (t : table) (now : DateTime) : list Uuid :=
  remove_dups (omap session_id
    (filter (fun d => state d = Pending /\ is_due now d = true) (rows t))).

(* crates/db/src/models/issue_comment_delivery.rs:300-304 IssueCommentDelivery::list_dispatching *)
Definition list_dispatching (t : table) : list IssueCommentDelivery :=
  filter (fun d => state d = Dispatching) (rows t).

(** ** Statements *)

(* crates/db/src/models/issue_comment_delivery.rs:176-198 IssueCommentDelivery::insert_if_absent *)
Definition inserted (i : Uuid) (n : NewIssueCommentDelivery)
    (r : IssueCommentDeliveryResolution) (now : DateTime) : IssueCommentDelivery :=
  {| id := i; comment_id := new_comment_id n; issue_id := new_issue_id n;
     workspace_id := res_workspace_id r; session_id := res_session_id r;
     execution_process_id := None; state := res_state r; reason := res_reason r;
     error := res_error r; source := new_source n;
     origin_session_id := new_origin_session_id n; hop_count := res_hop_count r;
     comment_author_id := new_comment_author_id n;
     comment_created_at := new_comment_created_at n; delivered_message := None;
     delivered_comment_updated_at := None; attempt_count := 0; next_attempt_at := None;
     allow_stopped_target := res_allow_stopped_target r; created_at := now;
     updated_at := now; delivered_at := None |}.

(** [None] when the fresh identifier is taken, an error of the statement; the row that is
    read back is the caller's next query. *)
(* crates/db/src/models/issue_comment_delivery.rs:176-200 IssueCommentDelivery::insert_if_absent *)
Definition insert_row (t : table) (i : Uuid) (n : NewIssueCommentDelivery)
    (r : IssueCommentDeliveryResolution) (now : DateTime) : option (table * bool) :=
  match find_by_comment_id t (new_comment_id n) with
  | Some _ => Some (t, false)
  | None =>
      match t !! i with
      | Some _ => None
      | None => Some (<[i := inserted i n r now]> t, true)
      end
  end.

(* crates/db/src/models/issue_comment_delivery.rs:170-205 IssueCommentDelivery::insert_if_absent *)
Definition insert_if_absent (t : table) (i : Uuid) (n : NewIssueCommentDelivery)
    (r : IssueCommentDeliveryResolution) (now : DateTime)
    : option (table * (IssueCommentDelivery * bool)) :=
  '(t', created) ← insert_row t i n r now;
  d ← find_by_comment_id t' (new_comment_id n);
  Some (t', (d, created)).

(* crates/db/src/models/issue_comment_delivery.rs:209-228 IssueCommentDelivery::record_snapshot *)
Definition record_snapshot (t : table) (i : Uuid) (message : string)
    (comment_updated_at now : DateTime) : table * bool :=
  update t i (state_is Dispatching) (fun _ =>
    [Set_delivered_message (Some message);
     Set_delivered_comment_updated_at (Some comment_updated_at); Set_updated_at now]).

(* crates/db/src/models/issue_comment_delivery.rs:308-336 IssueCommentDelivery::apply_resolution *)
Definition apply_resolution (t : table) (i : Uuid) (from : list IssueCommentDeliveryState)
    (r : IssueCommentDeliveryResolution) (now : DateTime) : table * bool :=
  update t i (fun d => bool_decide (as_str (state d) ∈ as_str <$> from)) (fun _ =>
    [Set_state (res_state r); Set_reason (res_reason r); Set_error (res_error r);
     Set_workspace_id (res_workspace_id r); Set_session_id (res_session_id r);
     Set_hop_count (res_hop_count r);
     Set_allow_stopped_target (res_allow_stopped_target r);
     Set_attempt_count 0; Set_next_attempt_at None; Set_updated_at now]).

(* crates/db/src/models/issue_comment_delivery.rs:339-354 IssueCommentDelivery::claim *)
Definition claim (t : table) (i : Uuid) (now : DateTime) : table * bool :=
  update t i (state_is Pending) (fun d =>
    [Set_state Dispatching; Set_attempt_count (attempt_count d + 1); Set_updated_at now]).

(* crates/db/src/models/issue_comment_delivery.rs:357-380 IssueCommentDelivery::mark_delivered *)
Definition mark_delivered (t : table) (i execution : Uuid) (message : string)
    (comment_updated_at : option DateTime) (now : DateTime) : table * bool :=
  update t i (state_is Dispatching) (fun _ =>
    [Set_state Delivered; Set_reason None; Set_error None;
     Set_execution_process_id (Some execution); Set_delivered_message (Some message);
     Set_delivered_comment_updated_at comment_updated_at; Set_next_attempt_at None;
     Set_delivered_at (Some now); Set_updated_at now]).

(* crates/db/src/models/issue_comment_delivery.rs:384-406 IssueCommentDelivery::finish_dispatch *)
Definition finish_dispatch (t : table) (i : Uuid) (s : IssueCommentDeliveryState)
    (why : option IssueCommentDeliveryReason) (err : option string)
    (next : option DateTime) (now : DateTime) : table * bool :=
  update t i (state_is Dispatching) (fun _ =>
    [Set_state s; Set_reason why; Set_error err; Set_next_attempt_at next;
     Set_updated_at now]).

(* crates/db/src/models/issue_comment_delivery.rs:409-425 IssueCommentDelivery::set_pending_reason *)
Definition set_pending_reason (t : table) (i : Uuid) (why : IssueCommentDeliveryReason)
    (now : DateTime) : table * bool :=
  update t i (state_is Pending) (fun _ => [Set_reason (Some why); Set_updated_at now]).

(* crates/db/src/models/issue_comment_delivery.rs:429-447 IssueCommentDelivery::finish_pending *)
Definition finish_pending (t : table) (i : Uuid) (s : IssueCommentDeliveryState)
    (why : IssueCommentDeliveryReason) (now : DateTime) : table * bool :=
  update t i (state_is Pending) (fun _ =>
    [Set_state s; Set_reason (Some why); Set_updated_at now]).

(** A writing statement, by name. *)
Inductive write :=
| Insert (i : Uuid) (n : NewIssueCommentDelivery) (r : IssueCommentDeliveryResolution)
         (now : DateTime)
| Snapshot (i : Uuid) (message : string) (comment_updated_at now : DateTime)
| Resolve (i : Uuid) (from : list IssueCommentDeliveryState)
          (r : IssueCommentDeliveryResolution) (now : DateTime)
| Claim (i : Uuid) (now : DateTime)
| Deliver (i execution : Uuid) (message : string) (comment_updated_at : option DateTime)
          (now : DateTime)
| Finish (i : Uuid) (s : IssueCommentDeliveryState) (why : option IssueCommentDeliveryReason)
         (err : option string) (next : option DateTime) (now : DateTime)
| PendingReason (i : Uuid) (why : IssueCommentDeliveryReason) (now : DateTime)
| FinishPending (i : Uuid) (s : IssueCommentDeliveryState)
                (why : IssueCommentDeliveryReason) (now : DateTime).

(** [None] is a failed statement. *)
Definition exec (t : table) (w : write) : option (table * bool) :=
  match w with
  | Insert i n r now => insert_row t i n r now
  | Snapshot i m u now => Some (record_snapshot t i m u now)
  | Resolve i from r now => Some (apply_resolution t i from r now)
  | Claim i now => Some (claim t i now)
  | Deliver i e m u now => Some (mark_delivered t i e m u now)
  | Finish i s why err next now => Some (finish_dispatch t i s why err next now)
  | PendingReason i why now => Some (set_pending_reason t i why now)
  | FinishPending i s why now => Some (finish_pending t i s why now)
  end.

(** ** Facts *)

Lemma as_str_inj : Inj (=) (=) as_str.
Proof. by intros [] []. Qed.

Lemma as_str_elem s (from : list IssueCommentDeliveryState) : as_str s ∈ as_str <$> from <-> s ∈ from.
Proof.
  rewrite list_elem_of_fmap. split; [|eauto]. intros (s' & ->%as_str_inj & ?). done.
Qed.

(** What identifies a delivery never changes. *)
Lemma assign_fixed d l :
  let d' := foldl assign d l in
  id d' = id d /\ comment_id d' = comment_id d /\ issue_id d' = issue_id d /\
  source d' = source d /\ origin_session_id d' = origin_session_id d.
Proof.
  cbn zeta. revert d. induction l as [|a l IH]; intros d; [done|]. cbn [foldl].
  destruct (IH (assign d a)) as (-> & -> & -> & -> & ->). by destruct a.
Qed.

Lemma update_cases t i ok set t' b :
  update t i ok set = (t', b) ->
  (b = false /\ t' = t) \/
  (b = true /\ exists d, t !! i = Some d /\ ok d = true /\
     t' = <[i := foldl assign d (set d)]> t).
Proof.
  unfold update. destruct (t !! i) as [d|] eqn:Hd; [|by intros [= <- <-]; left].
  destruct (ok d) eqn:Hok; intros [= <- <-]; [|by left]. right. eauto 10.
Qed.

Lemma elem_of_rows t d : d ∈ rows t <-> exists i, t !! i = Some d.
Proof.
  unfold rows. rewrite list_elem_of_fmap. split.
  - intros ([i d'] & -> & H%elem_of_map_to_list). eauto.
  - intros (i & H). exists (i, d). by rewrite elem_of_map_to_list.
Qed.

(** The primary key, and [UNIQUE (comment_id)]. *)
Definition well_formed (t : table) : Prop :=
  (forall i d, t !! i = Some d -> id d = i) /\
  (forall i j d e, t !! i = Some d -> t !! j = Some e -> comment_id d = comment_id e -> i = j).

Lemma well_formed_empty : well_formed ∅.
Proof. split; intros *; by rewrite !lookup_empty. Qed.

Lemma find_by_comment_id_sound t c d :
  find_by_comment_id t c = Some d -> comment_id d = c /\ exists i, t !! i = Some d.
Proof.
  unfold find_by_comment_id. intros Hh%head_Some_elem_of.
  apply list_elem_of_filter in Hh as [? ?%elem_of_rows]. done.
Qed.

Lemma find_by_comment_id_none t c i d :
  find_by_comment_id t c = None -> t !! i = Some d -> comment_id d <> c.
Proof.
  unfold find_by_comment_id. intros Hn%head_None Hi Hc.
  assert (d ∈ filter (fun d => comment_id d = c) (rows t)) as H.
  { apply list_elem_of_filter. split; [done|]. apply elem_of_rows. eauto. }
  rewrite Hn in H. by apply elem_of_nil in H.
Qed.

Lemma find_by_comment_id_iff t c d :
  well_formed t ->
  find_by_comment_id t c = Some d <-> t !! id d = Some d /\ comment_id d = c.
Proof.
  intros [Hk Hu]. split.
  - intros (? & i & Hi)%find_by_comment_id_sound. by rewrite (Hk i d Hi).
  - intros [Hi Hc]. destruct (find_by_comment_id t c) as [e|] eqn:He.
    + apply find_by_comment_id_sound in He as (He & j & Hj).
      assert (id d = j) as <- by (eapply Hu; eauto; congruence). congruence.
    + by eapply find_by_comment_id_none in He.
Qed.

Lemma well_formed_insert t d :
  well_formed t -> t !! id d = None -> find_by_comment_id t (comment_id d) = None ->
  well_formed (<[id d := d]> t).
Proof.
  intros [Hk Hu] Hi Hc. split.
  - intros j e [[<- <-]|[_ He]]%lookup_insert_Some; [done|by apply Hk].
  - intros j k e f [[<- <-]|[? He]]%lookup_insert_Some [[<- <-]|[? Hf]]%lookup_insert_Some;
      intros Heq; [done|..|by eapply Hu].
    + by destruct (find_by_comment_id_none _ _ _ _ Hc Hf).
    + by destruct (find_by_comment_id_none _ _ _ _ Hc He).
Qed.

Lemma well_formed_assign t i d l :
  well_formed t -> t !! i = Some d -> well_formed (<[i := foldl assign d l]> t).
Proof.
  intros [Hk Hu] Hd. destruct (assign_fixed d l) as (Hid & Hc & _). split.
  - intros j e [[<- <-]|[_ He]]%lookup_insert_Some; [|by apply Hk]. rewrite Hid. by apply Hk.
  - intros j k e f [[<- <-]|[? He]]%lookup_insert_Some [[<- <-]|[? Hf]]%lookup_insert_Some;
      rewrite ?Hc; intros Heq; [done|by eapply Hu..].
Qed.

(** Every statement updates at most one row, keeping its identity, or inserts one. *)
Lemma exec_cases t w t' b :
  exec t w = Some (t', b) ->
  (t' = t) \/
  (exists i d l, t !! i = Some d /\ t' = <[i := foldl assign d l]> t) \/
  (exists i n r now, w = Insert i n r now /\ t !! i = None /\
     find_by_comment_id t (new_comment_id n) = None /\ t' = <[i := inserted i n r now]> t).
Proof.
  destruct w; cbn [exec]; [unfold insert_row; repeat case_match; intros [= <- <-]; eauto 10|..];
    intros [= H]; apply update_cases in H as [[_ ->]|(_ & d & ? & _ & ->)]; eauto 10.
Qed.

Lemma exec_well_formed t w t' b :
  well_formed t -> exec t w = Some (t', b) -> well_formed t'.
Proof.
  intros Hwf [->|[(i & d & l & Hi & ->)|(i & n & r & now & _ & Hi & Hc & ->)]]%exec_cases;
    [done|by apply well_formed_assign|].
  by apply (well_formed_insert t (inserted i n r now)).
Qed.

(** The states no statement of the program leaves.  Only [apply_resolution] takes the
    states it applies to from its caller. *)
Definition is_settled (s : IssueCommentDeliveryState) : bool :=
  match s with Delivered | Blocked | Cancelled => true | _ => false end.

Definition spares_settled (w : write) : Prop :=
  match w with
  | Resolve _ from _ _ => Forall (fun s => is_settled s = false) from
  | _ => True
  end.

Lemma exec_settled t w t' b i d :
  spares_settled w -> t !! i = Some d -> is_settled (state d) = true ->
  exec t w = Some (t', b) -> t' !! i = Some d.
Proof.
  intros Hw Hd Hs H.
  assert (forall j ok set, update t j ok set = (t', b) -> ok d = false -> t' !! i = Some d)
    as Hupd.
  { intros j ok set [[_ ->]|(_ & e & He & Hok & ->)]%update_cases Hf; [done|].
    destruct (decide (i = j)) as [->|]; [|by rewrite lookup_insert_ne]. congruence. }
  assert (forall s, is_settled s = false -> state_is s d = false) as Hne.
  { intros s Hf. apply bool_decide_eq_false. congruence. }
  destruct w as [j n r now| |j from r now| | | | |]; cbn in H, Hw;
    [|injection H as H..]; try (eapply Hupd; [exact H|by apply Hne]).
  - unfold insert_row in H. repeat case_match; simplify_eq; [done|].
    destruct (decide (i = j)) as [->|]; [congruence|by rewrite lookup_insert_ne].
  - eapply Hupd; [exact H|]. cbn beta. apply bool_decide_eq_false.
    rewrite as_str_elem. intros Hin. rewrite Forall_forall in Hw. by rewrite Hw in Hs.
Qed.

(** Exactly one of any number of claims of a row succeeds, until it is given back. *)
Lemma claim_twice t i now now' :
  (claim t i now).2 = true -> (claim (claim t i now).1 i now').2 = false.
Proof.
  unfold claim at 1. destruct (update t i _ _) as [t' b] eqn:H. cbn.
  intros ->. pose proof H as [[? ?]|(_ & d & Hd & Hs & ->)]%update_cases; [done|].
  unfold claim. rewrite H. cbn [fst]. unfold update. by rewrite lookup_insert_eq.
Qed.

End DeliveryRow.
