(* ===== verification/CommentDelivery.v ===== *)
(** * The dispatcher of issue comments

    crates/server/src/issue_comment_delivery.rs.  An asynchronous function is a [Task]: a
    tree of the operations it awaits, each a statement on the ledger, a question to another
    table, the remote server or the clock, the lock of a session, or the start of a turn.
    [Module Dispatcher] writes the functions in that form.  [Module Machine] runs any
    number of tasks against the shared tables: an operation is one step, and between two
    operations of a task every other task, the clean-up of a cancelled or failed task and
    the workers of running turns may act.  A database error ends its task, which is what
    [?] does with it everywhere in the file. *)
From S2P Require Import Prelude Text Format WorkerJobRow DeliveryRow Wakeups DeliveryRules.
From Stdlib Require Import Ascii.
Import DeliveryRow DeliveryRules.

(** ** What the dispatcher asks others *)

(* crates/services/src/services/remote_client.rs:44-63 RemoteClientError *)
Inductive RemoteClientError :=
| Transport (message : string) | Timeout | Http (status : Z) (body : string)
| Api (code : string) | Auth | Serde (message : string) | Url (message : string)
| Storage (message : string) | Token (message : string).

(* crates/services/src/services/remote_client.rs:44-63 RemoteClientError *)
Definition remote_text (e : RemoteClientError) : string :=
  match e with
  | Transport m => "network error: " +:+ m
  | Timeout => "timeout"
  | Http status body => "http " +:+ display status +:+ ": " +:+ body
  | Api code => "api error: " +:+ code
  | Auth => "unauthorized"
  | Serde m => "json error: " +:+ m
  | Url m => "url error: " +:+ m
  | Storage m => "credentials storage error: " +:+ m
  | Token m => "invalid access token: " +:+ m
  end.

(* crates/server/src/issue_comment_delivery.rs:230-232 is_status *)
Definition is_status (e : RemoteClientError) (code : Z) : bool :=
  match e with Http status _ => bool_decide (status = code) | _ => false end.

(* crates/api-types/src/issue_comment.rs:9-17 IssueComment *)
Record IssueComment := {
  ic_id : Uuid;
  ic_issue_id : Uuid;
  ic_author_id : option Uuid;
  ic_parent_id : option Uuid;
  ic_message : string;
  ic_created_at : DateTime;
  ic_updated_at : DateTime;
}.

(* crates/server/src/issue_comment_delivery.rs:237-244 IssueInfo *)
Record IssueInfo := {
  info_id : Uuid;
  simple_id : string;
  title : string;
  project_id : Uuid;
  active : bool;
}.

(** The columns of a remote workspace, a local one and a session that the dispatcher
    reads. *)
(* crates/api-types/src/workspace.rs:8-21 Workspace *)
Record RemoteWorkspace := {
  rw_issue_id : option Uuid;
  local_workspace_id : option Uuid;
  rw_archived : bool;
}.

(* crates/api-types/src/workspace.rs:27-30 ListIssueWorkspacesResponse *)
Record ListIssueWorkspacesResponse := {
  links : list RemoteWorkspace;
  archived_count : Z;
}.

Record Workspace := { ws_id : Uuid; ws_name : option string; branch : string; ws_archived : bool }.
Record Session := { ses_id : Uuid; ses_workspace_id : Uuid; ses_name : option string }.

(* crates/db/src/models/execution_process.rs:146-153 MarkedTurn *)
Record MarkedTurn := {
  turn_id : Uuid;
  turn_status : ProcessRow.ExecutionProcessStatus;
  launched : bool;
  uncertain : bool;
}.

(** The first failure of reading a completion receipt that matters. *)
Inductive ReceiptFailure := NotFound | InvalidData (text : string) | OtherFailure (text : string).

(* crates/server/src/issue_comment_delivery.rs:248-280 DeliveryBackend *)
Inductive question : Set -> Type :=
| UtcNow : question DateTime
| NewUuid : question Uuid
| FindSession (i : Uuid) : question (option Session)
| FindWorkspace (i : Uuid) : question (option Workspace)
| FindWakeup (i : Uuid) : question (option Wakeups.Wakeup)
| WorktreeDeleted (workspace : Uuid) : question bool
| ReadReceipt (path : string) : question (result string ReceiptFailure)
| SessionsOf (workspace : Uuid) : question (list Session)
| RunningAgent (session : Uuid) : question bool
| RunningAgents (workspace : Uuid) : question (list Uuid)
| RunningProcesses (workspace : Uuid) : question bool
| LatestTurn (session : Uuid)
    : question (option (Uuid * ProcessRow.ExecutionProcessStatus * option DateTime))
| FinalizedTurn (session : Uuid) : question (option Uuid)
| ReconciledAt : question DateTime
| HasQueuedMessage (session : Uuid) : question bool
| GetComment (c : Uuid) : question (result IssueComment RemoteClientError)
| ListComments (issue : Uuid) : question (result (list IssueComment) RemoteClientError)
| CreateComment (c issue : Uuid) (message : string) (parent : option Uuid)
    : question (result IssueComment RemoteClientError)
| IssueWorkspaces (issue : Uuid)
    : question (result ListIssueWorkspacesResponse RemoteClientError)
| WorkspaceLink (workspace : Uuid)
    : question (result (option RemoteWorkspace) RemoteClientError)
| GetIssueInfo (issue : Uuid) : question (result IssueInfo RemoteClientError)
| MemberNames (project : Uuid) : question (list (Uuid * string)).

(** The writing statements: those of the ledger, and those of the wake-ups, by the
    wake-up's identifier. *)
Inductive statement :=
| Ledger (w : write)
| CancelWakeup (i : Uuid) (reason : string) (now : DateTime)
| AcceptReceipt (i : Uuid) (context : string) (completed_at : DateTime)
| ReceiptError (i : Uuid) (text : string).

(** An awaited operation and the type of its answer.  [StartFollowUp] carries, for the
    statements of the theorems only, the comments of the batch with the sender's consent
    to send again. *)
Inductive op : Set -> Type :=
| Ask {R : Set} (q : question R) : op R
| Read {R : Set} (f : Wakeups.Db -> R) : op R
| Write (s : statement) : op bool
| MarkedTurns (session comment : Uuid) : op (list MarkedTurn)
| StartFollowUp (session : Uuid) (prompt : string) (batch : list (Uuid * bool))
    : op (result Uuid string)
| Lock (session : Uuid) : op unit
| Unlock (session : Uuid) : op unit.

Inductive Task (A : Type) : Type :=
| Done (a : A)
| Call {R : Set} (o : op R) (k : R -> Task A).
Arguments Done {A} a.
Arguments Call {A R} o k.

Fixpoint bind {A B} (t : Task A) (f : A -> Task B) : Task B :=
  match t with Done a => f a | Call o k => Call o (fun r => bind (k r) f) end.

Notation "'let!' x := t 'in' k" := (bind t (fun x => k))
  (at level 10, x pattern, t at level 100, k at level 200) : vk_scope.

Definition call {R : Set} (o : op R) : Task R := Call o Done.
Definition ask {R : Set} (q : question R) : Task R := call (Ask q).
Definition read {R : Set} (f : Wakeups.Db -> R) : Task R := call (Read f).
Definition write_row (w : write) : Task bool := call (Write (Ledger w)).

Fixpoint fold_task {A B} (f : B -> A -> Task B) (l : list A) (b : B) : Task B :=
  match l with
  | [] => Done b
  | x :: l => let! b := f b x in fold_task f l b
  end.

Definition for_each {A} (l : list A) (f : A -> Task unit) : Task unit :=
  fold_task (fun _ x => f x) l tt.

(** ** The dispatcher *)

Module Dispatcher.

(* crates/server/src/issue_comment_delivery.rs:208-217 DeliveryError *)
Inductive DeliveryError :=
| Remote (e : RemoteClientError)
| RowNotFound
| BadRequest (message : string)
| Conflict (message : string).

(* crates/server/src/issue_comment_delivery.rs:81-89 DeliveryTargetCandidate *)
Record DeliveryTargetCandidate := {
  dtc_workspace_id : Uuid;
  workspace_name : option string;
  workspace_branch : string;
  dtc_session_id : Uuid;
  session_name : option string;
  dtc_agent_state : AgentState;
  latest_execution_id : option Uuid;
}.

(* crates/server/src/issue_comment_delivery.rs:93-103 IssueAgentTargets *)
Record IssueAgentTargets := {
  iat_issue_id : Uuid;
  issue_active : bool;
  iat_candidates : list DeliveryTargetCandidate;
  default_session_id : option Uuid;
  iat_unavailable_reason : option IssueCommentDeliveryReason;
}.

(* crates/server/src/issue_comment_delivery.rs:145-162 RequestIssueCommentDelivery *)
Record RequestIssueCommentDelivery := {
  rq_comment_id : Uuid;
  rq_issue_id : Uuid;
  target_session_id : option Uuid;
  rq_source : option IssueCommentDeliverySource;
  rq_origin_session_id : option Uuid;
  rq_origin_workspace_id : option Uuid;
}.

(* crates/server/src/issue_comment_delivery.rs:166-172 IssueCommentIntent *)
Inductive IssueCommentIntent := Note | ReplyToAgent.

(* crates/server/src/issue_comment_delivery.rs:175-193 CreateIssueCommentWithIntent *)
Record CreateIssueCommentWithIntent := {
  cr_issue_id : Uuid;
  cr_message : string;
  intent : IssueCommentIntent;
  parent_id : option Uuid;
  cr_target_session_id : option Uuid;
  cr_comment_id : option Uuid;
  cr_origin_session_id : option Uuid;
  cr_origin_workspace_id : option Uuid;
}.

(* crates/server/src/issue_comment_delivery.rs:469-473 EarlierAttempt *)
Inductive EarlierAttempt :=
| Launched (execution : Uuid) | Uncertain (execution : Uuid) | NoAttempt.

(* crates/server/src/issue_comment_delivery.rs:487-491 ResolvedCandidates *)
Record ResolvedCandidates := {
  issue : IssueInfo;
  candidates : list DeliveryTargetCandidate;
  unavailable_reason : option IssueCommentDeliveryReason;
}.

(* crates/server/src/issue_comment_delivery.rs:1691-1700 to_session_candidates *)
Definition to_session_candidates (cs : list DeliveryTargetCandidate) : list SessionCandidate :=
  (fun c => {| cand_workspace_id := dtc_workspace_id c; cand_session_id := dtc_session_id c;
               agent_state := dtc_agent_state c |}) <$> cs.

(* crates/server/src/issue_comment_delivery.rs:1702-1712 select_target_from *)
Definition select_target_from (cs : list DeliveryTargetCandidate)
    (explicit origin : option Uuid) : TargetDecision :=
  select_target (to_session_candidates cs) explicit origin.

(** A claimed row with its content. *)
Abbreviation ready_row := (IssueCommentDelivery * IssueComment)%type.

Section Dispatcher.
Context `{Htext : !CommentText}.
Context (to_rfc3339 : DateTime -> string) (parse_rfc3339 : string -> option DateTime).

(* crates/server/src/issue_comment_delivery.rs:512-526 IssueCommentDispatcher::boundary_confirmed *)
Definition boundary_confirmed (session turn : Uuid) (completed_at : option DateTime)
    : Task bool :=
  let! reconciled_at := ask ReconciledAt in
  match completed_at with
  | Some at_ =>
      if bool_decide (at_ < reconciled_at) then Done true
      else let! final := ask (FinalizedTurn session) in Done (bool_decide (final = Some turn))
  | None => let! final := ask (FinalizedTurn session) in Done (bool_decide (final = Some turn))
  end.

(* crates/server/src/issue_comment_delivery.rs:528-545 IssueCommentDispatcher::session_state *)
Definition session_state (session : Session) : Task (AgentState * option Uuid) :=
  let! latest := ask (LatestTurn (ses_id session)) in
  let! running := ask (RunningAgent (ses_id session)) in
  let! queued := ask (HasQueuedMessage (ses_id session)) in
  Done (derive_agent_state ((fun l => l.1.2) <$> latest) running queued,
        (fun l => l.1.1) <$> latest).

(** The scan of one link, with the candidates, the archived and the foreign workspaces
    counted so far. *)
(* crates/server/src/issue_comment_delivery.rs:558-587 IssueCommentDispatcher::resolve_candidates *)
Definition scan_link (acc : list DeliveryTargetCandidate * Z * Z) (link : RemoteWorkspace)
    : Task (list DeliveryTargetCandidate * Z * Z) :=
  let '(cs, local_archived, other_host) := acc in
  match local_workspace_id link with
  | None => Done (cs, local_archived, other_host + 1)
  | Some local =>
      let! found := ask (FindWorkspace local) in
      match found with
      | None => Done (cs, local_archived, other_host + 1)
      | Some w =>
          if ws_archived w then Done (cs, local_archived + 1, other_host)
          else
            let! sessions := ask (SessionsOf (ws_id w)) in
            let! cs := fold_task (fun cs s =>
              let! st := session_state s in
              if bool_decide (st.1 = NeverRun) then Done cs
              else Done (cs ++ [{| dtc_workspace_id := ws_id w; workspace_name := ws_name w;
                     workspace_branch := branch w; dtc_session_id := ses_id s;
                     session_name := ses_name s; dtc_agent_state := st.1;
                     latest_execution_id := st.2 |}])) sessions cs in
            Done (cs, local_archived, other_host)
      end
  end.

(* crates/server/src/issue_comment_delivery.rs:589-601 IssueCommentDispatcher::resolve_candidates *)
Definition why_unavailable (info : IssueInfo) (ls : ListIssueWorkspacesResponse)
    (cs : list DeliveryTargetCandidate) (local_archived other_host : Z)
    : option IssueCommentDeliveryReason :=
  if negb (active info) then Some IssueTerminal
  else match cs, links ls with
       | _ :: _, _ => None
       | [], [] =>
           if bool_decide (archived_count ls = 0) then Some NoLinkedWorkspace
           else if bool_decide (0 < local_archived) || bool_decide (0 < archived_count ls)
           then Some WorkspaceArchived
           else if bool_decide (0 < other_host) then Some WorkspaceOtherHost
           else Some NoSessions
       | [], _ :: _ =>
           if bool_decide (0 < local_archived) then Some WorkspaceArchived
           else if bool_decide (0 < other_host) then Some WorkspaceOtherHost
           else Some NoSessions
       end.

(* crates/server/src/issue_comment_delivery.rs:548-608 IssueCommentDispatcher::resolve_candidates *)
Definition resolve_candidates (issue_id : Uuid)
    : Task (result ResolvedCandidates RemoteClientError) :=
  let! info := ask (GetIssueInfo issue_id) in
  match info with
  | Err e => Done (Err e)
  | Ok info =>
      let! ls := ask (IssueWorkspaces issue_id) in
      match ls with
      | Err e => Done (Err e)
      | Ok ls =>
          let! acc := fold_task scan_link (links ls) ([], 0, 0) in
          let '(cs, local_archived, other_host) := acc in
          Done (Ok {| issue := info; candidates := cs;
                      unavailable_reason := why_unavailable info ls cs local_archived other_host |})
      end
  end.

(* crates/server/src/issue_comment_delivery.rs:611-625 IssueCommentDispatcher::agent_targets *)
Definition agent_targets (issue_id : Uuid) : Task (result IssueAgentTargets DeliveryError) :=
  let! resolved := resolve_candidates issue_id in
  match resolved with
  | Err e => Done (Err (Remote e))
  | Ok r =>
      Done (Ok {| iat_issue_id := issue_id; issue_active := active (issue r);
                  iat_candidates := candidates r;
                  default_session_id :=
                    match unavailable_reason r with
                    | Some _ => None
                    | None => default_reply_session (to_session_candidates (candidates r))
                    end;
                  iat_unavailable_reason := unavailable_reason r |})
  end.

(* crates/server/src/issue_comment_delivery.rs:629-646 IssueCommentDispatcher::origin_session *)
Definition origin_session (origin_session_id origin_workspace_id : option Uuid)
    : Task (option Uuid) :=
  match origin_session_id, origin_workspace_id with
  | Some s, _ => Done (Some s)
  | None, None => Done None
  | None, Some w => let! agents := ask (RunningAgents w) in Done (head agents)
  end.

(* crates/server/src/issue_comment_delivery.rs:650-662 IssueCommentDispatcher::origin_hop *)
Definition origin_hop (origin : Uuid) : Task (option Z) :=
  let! latest := ask (LatestTurn origin) in
  match latest with
  | None => Done None
  | Some (turn, _, _) =>
      read (fun db => option_map hop_count
              (find_by_execution_process_id (Wakeups.deliveries db) turn))
  end.

(* crates/server/src/issue_comment_delivery.rs:673-681 IssueCommentDispatcher::resolve *)
Definition outcome_ (s : IssueCommentDeliveryState) (why : IssueCommentDeliveryReason)
    (err : option string) : IssueCommentDeliveryResolution :=
  {| res_state := s; res_reason := Some why; res_error := err; res_workspace_id := None;
     res_session_id := None; res_hop_count := 0; res_allow_stopped_target := false |}.

Definition with_hop (r : IssueCommentDeliveryResolution) (hop : Z)
    : IssueCommentDeliveryResolution :=
  {| res_state := res_state r; res_reason := res_reason r; res_error := res_error r;
     res_workspace_id := res_workspace_id r; res_session_id := res_session_id r;
     res_hop_count := hop; res_allow_stopped_target := res_allow_stopped_target r |}.

(* crates/server/src/issue_comment_delivery.rs:717-745 IssueCommentDispatcher::resolve *)
Definition resolution_of (hop : Z) (d : TargetDecision) : IssueCommentDeliveryResolution :=
  match d with
  | Target c explicit =>
      {| res_state := Pending; res_reason := None; res_error := None;
         res_workspace_id := Some (cand_workspace_id c);
         res_session_id := Some (cand_session_id c); res_hop_count := hop;
         res_allow_stopped_target := explicit |}
  | TargetNeeded => with_hop (outcome_ NeedsTarget Ambiguous None) hop
  | TargetNone why => with_hop (outcome_ NoTarget why None) hop
  | TargetBlocked why => outcome_ Blocked why None
  end.

(* crates/server/src/issue_comment_delivery.rs:666-746 IssueCommentDispatcher::resolve *)
Definition resolve (issue_id : Uuid) (explicit origin : option Uuid) (agent_origin : bool)
    : Task IssueCommentDeliveryResolution :=
  let! origin_turn_hop :=
    match origin with
    | Some o => if agent_origin then origin_hop o else Done None
    | None => Done None
    end in
  match next_hop_count agent_origin origin_turn_hop with
  | Err why => Done (outcome_ Blocked why None)
  | Ok hop =>
      let! resolved := resolve_candidates issue_id in
      match resolved with
      | Err e =>
          let why := if is_status e 403 then Unauthorized else RemoteUnavailable in
          Done (outcome_ Failed why (Some ("could not resolve sessions linked to issue "
            +:+ uuid_to_string issue_id +:+ ": " +:+ remote_text e)))
      | Ok r =>
          match unavailable_reason r with
          | Some why => Done (outcome_ NoTarget why None)
          | None => Done (resolution_of hop (select_target_from (candidates r) explicit origin))
          end
      end
  end.

(** *** Evidence of earlier attempts *)

Definition first_launched (ts : list MarkedTurn) : option MarkedTurn :=
  head (filter (fun t => launched t = true) ts).
Definition first_uncertain (ts : list MarkedTurn) : option MarkedTurn :=
  head (filter (fun t => uncertain t = true) ts).

(* crates/server/src/issue_comment_delivery.rs:1165-1185 IssueCommentDispatcher::earlier_attempt *)
Definition earlier_attempt (session comment : Uuid) : Task EarlierAttempt :=
  let! turns := call (MarkedTurns session comment) in
  Done (match first_launched turns with
        | Some t => Launched (turn_id t)
        | None => match first_uncertain turns with
                  | Some t => Uncertain (turn_id t)
                  | None => NoAttempt
                  end
        end).

(* crates/server/src/issue_comment_delivery.rs:1188-1204 IssueCommentDispatcher::latest_attempt *)
Definition latest_attempt (session comment : Uuid) : Task EarlierAttempt :=
  let! turns := call (MarkedTurns session comment) in
  Done (match last turns with
        | Some t => if launched t then Launched (turn_id t)
                    else if uncertain t then Uncertain (turn_id t) else NoAttempt
        | None => NoAttempt
        end).

(* crates/server/src/issue_comment_delivery.rs:1207-1226 IssueCommentDispatcher::fail_uncertain *)
Definition fail_uncertain (row : IssueCommentDelivery) (execution : Uuid) : Task unit :=
  let! now := ask UtcNow in
  let! _ := write_row (Finish (id row) Failed (Some LaunchUncertain)
    (Some ("execution " +:+ uuid_to_string execution
      +:+ " was handed to a worker that never confirmed it started; check the session, then choose it explicitly to send the comment again"))
    None now) in
  Done tt.

(* crates/server/src/issue_comment_delivery.rs:1229-1249 IssueCommentDispatcher::finish_all *)
Definition finish_all (rows : list IssueCommentDelivery) (s : IssueCommentDeliveryState)
    (why : IssueCommentDeliveryReason) : Task unit :=
  let! now := ask UtcNow in
  for_each rows (fun row =>
    let! _ := write_row (Finish (id row) s (Some why) None None now) in Done tt).

(* crates/server/src/issue_comment_delivery.rs:1506-1543 IssueCommentDispatcher::retry_or_fail *)
Definition retry_or_fail (row : IssueCommentDelivery) (why : IssueCommentDeliveryReason)
    (err : string) : Task unit :=
  let! now := ask UtcNow in
  let attempt := attempt_count row + 1 in
  match retry_delay attempt with
  | Some delay =>
      let! _ := write_row (Finish (id row) Pending (Some RetryScheduled) (Some err)
                             (Some (now + delay)) now) in
      Done tt
  | None =>
      let! _ := write_row (Finish (id row) Failed (Some why) (Some err) None now) in
      Done tt
  end.

(** *** Starting a turn *)

(* crates/server/src/issue_comment_delivery.rs:1287-1295 IssueCommentDispatcher::deliver_claimed *)
Definition wakeup_comment (w : Wakeups.Wakeup) (now : DateTime) : IssueComment :=
  {| ic_id := Wakeups.wk_id w; ic_issue_id := Wakeups.nil_uuid; ic_author_id := None;
     ic_parent_id := None; ic_message := Wakeups.message uuid_to_string to_rfc3339 w now;
     ic_created_at := Wakeups.wk_created_at w; ic_updated_at := now |}.

(** The content of a claimed row: a wake-up's, or the comment read again. *)
(* crates/server/src/issue_comment_delivery.rs:1282-1332 IssueCommentDispatcher::deliver_claimed *)
Definition read_content (now : DateTime) (ready : list ready_row) (row : IssueCommentDelivery)
    : Task (list ready_row) :=
  let! wakeup := ask (FindWakeup (comment_id row)) in
  match wakeup with
  | Some w => Done (ready ++ [(row, wakeup_comment w now)])
  | None =>
      let! comment := ask (GetComment (comment_id row)) in
      match comment with
      | Ok c => Done (ready ++ [(row, c)])
      | Err e =>
          let! _ :=
            if is_status e 404 then finish_all [row] Cancelled CommentDeleted
            else if is_status e 403 then
              let! _ := write_row (Finish (id row) Failed (Some Unauthorized)
                (Some ("not allowed to read comment " +:+ uuid_to_string (comment_id row)
                       +:+ ": " +:+ remote_text e)) None now) in Done tt
            else retry_or_fail row RemoteUnavailable
                   ("could not re-read comment " +:+ uuid_to_string (comment_id row)
                    +:+ ": " +:+ remote_text e) in
          Done ready
      end
  end.

(* crates/server/src/issue_comment_delivery.rs:1258-1333 IssueCommentDispatcher::deliver_claimed *)
Definition examine (session : Session) (now : DateTime) (ready : list ready_row)
    (row : IssueCommentDelivery) : Task (list ready_row) :=
  let! attempt := earlier_attempt (ses_id session) (comment_id row) in
  match attempt with
  | Launched execution =>
      let! _ := write_row (Deliver (id row) execution (default "" (delivered_message row))
                             (delivered_comment_updated_at row) now) in
      Done ready
  | Uncertain execution =>
      if allow_stopped_target row then read_content now ready row
      else let! _ := fail_uncertain row execution in Done ready
  | NoAttempt => read_content now ready row
  end.

(* crates/server/src/issue_comment_delivery.rs:1342-1363 IssueCommentDispatcher::deliver_claimed *)
Definition wakeup_prompt (ready : list ready_row) : string :=
  join (nl +:+ nl) ((fun rc =>
    let content := replace ("<!-- " +:+ DELIVERY_MARKER_PREFIX)
                     ("&lt;!-- " +:+ DELIVERY_MARKER_PREFIX) (ic_message rc.2) in
    join nl ((fun line => "> " +:+ line) <$> lines content) +:+ nl
    +:+ marker_line (ic_id rc.2)) <$> ready).

(* crates/server/src/issue_comment_delivery.rs:1418-1429 IssueCommentDispatcher::deliver_claimed *)
Definition issue_prompt (info : IssueInfo) (names : gmap Uuid string) (ready : list ready_row)
    : string :=
  compose_delivery_prompt (simple_id info +:+ " (" +:+ String "034" (title info) +:+ String "034" ")")
    ((fun rc => {| dc_comment_id := ic_id rc.2;
                   author_name := (ic_author_id rc.2) ≫= (names !!.);
                   dc_created_at := ic_created_at rc.2;
                   message := ic_message rc.2 |}) <$> ready).

(** The prompt, or [None] when the batch has been finished otherwise. *)
(* crates/server/src/issue_comment_delivery.rs:1340-1430 IssueCommentDispatcher::deliver_claimed *)
Definition compose (session : Session) (ready : list ready_row) (issue_id : Uuid)
    : Task (option string) :=
  let rows := ready.*1 in
  let recheck_failed e :=
    let! _ := for_each rows (fun row => retry_or_fail row RemoteUnavailable
      ("could not re-check issue " +:+ uuid_to_string issue_id +:+ " and workspace "
       +:+ uuid_to_string (ses_workspace_id session) +:+ ": " +:+ remote_text e)) in
    Done None in
  let finished why := let! _ := finish_all rows NoTarget why in Done None in
  if bool_decide (issue_id = Wakeups.nil_uuid) then Done (Some (wakeup_prompt ready))
  else
    let! info := ask (GetIssueInfo issue_id) in
    let! link := ask (WorkspaceLink (ses_workspace_id session)) in
    match info, link with
    | Err e, _ | Ok _, Err e => recheck_failed e
    | Ok info, Ok link =>
        if negb (active info) then finished IssueTerminal
        else match link with
             | Some l =>
                 if bool_decide (rw_issue_id l = Some issue_id) then
                   if rw_archived l then finished WorkspaceArchived
                   else
                     let! names := ask (MemberNames (project_id info)) in
                     Done (Some (issue_prompt info (list_to_map names) ready))
                 else finished TargetNotLinked
             | None => finished TargetNotLinked
             end
    end.

(* crates/server/src/issue_comment_delivery.rs:1471-1499 IssueCommentDispatcher::deliver_claimed *)
Definition classify_failure (session : Session) (err : string) (rc : ready_row) : Task unit :=
  let '(row, comment) := rc in
  let! attempt := latest_attempt (ses_id session) (comment_id row) in
  match attempt with
  | Launched execution =>
      let! now := ask UtcNow in
      let! _ := write_row (Deliver (id row) execution (ic_message comment)
                             (Some (ic_updated_at comment)) now) in
      Done tt
  | Uncertain execution => fail_uncertain row execution
  | NoAttempt =>
      retry_or_fail row StartFailed
        ("could not start a turn in session " +:+ uuid_to_string (ses_id session) +:+ ": " +:+ err)
  end.

(* crates/server/src/issue_comment_delivery.rs:1252-1503 IssueCommentDispatcher::deliver_claimed *)
Definition deliver_claimed (session : Session) (claimed : list IssueCommentDelivery)
    : Task unit :=
  let! now := ask UtcNow in
  let! ready := fold_task (examine session now) claimed [] in
  match ready with
  | [] => Done tt
  | first :: _ =>
      let! prompt := compose session ready (issue_id first.1) in
      match prompt with
      | None => Done tt
      | Some prompt =>
          let! _ := for_each ready (fun rc =>
            let! now := ask UtcNow in
            let! _ := write_row (Snapshot (id rc.1) (ic_message rc.2) (ic_updated_at rc.2) now) in
            Done tt) in
          let! started := call (StartFollowUp (ses_id session) prompt
            ((fun rc => (comment_id rc.1, allow_stopped_target rc.1)) <$> ready)) in
          match started with
          | Ok execution =>
              let! now := ask UtcNow in
              for_each ready (fun rc =>
                let! _ := write_row (Deliver (id rc.1) execution (ic_message rc.2)
                                       (Some (ic_updated_at rc.2)) now) in
                Done tt)
          | Err e => for_each ready (classify_failure session e)
          end
      end
  end.

(** *** A session at its turn boundary *)

(* crates/server/src/issue_comment_delivery.rs:1010-1019 IssueCommentDispatcher::dispatch_session *)
Definition eligible_row (rows : list IssueCommentDelivery) (row : IssueCommentDelivery)
    : Task (list IssueCommentDelivery) :=
  let! wakeup := ask (FindWakeup (comment_id row)) in
  match wakeup with
  | Some w =>
      if bool_decide (is_Some (Wakeups.receipt_path w))
         && bool_decide (Wakeups.trigger_context w = None)
      then Done rows else Done (rows ++ [row])
  | None => Done (rows ++ [row])
  end.

(* crates/server/src/issue_comment_delivery.rs:1031-1040 IssueCommentDispatcher::dispatch_session *)
Definition finish_due (due : list IssueCommentDelivery) (why : IssueCommentDeliveryReason)
    (now : DateTime) : Task unit :=
  for_each due (fun row =>
    let! _ := write_row (FinishPending (id row) NoTarget why now) in Done tt).

(* crates/server/src/issue_comment_delivery.rs:1059-1075 IssueCommentDispatcher::dispatch_session *)
Definition busy_reason (session workspace : Uuid)
    : Task (option IssueCommentDeliveryReason) :=
  let! running := ask (RunningAgent session) in
  if running : bool then Done (Some AgentRunning)
  else
    let! queued := ask (HasQueuedMessage session) in
    if queued : bool then Done (Some QueuedMessage)
    else
      let! other := ask (RunningProcesses workspace) in
      Done (if other : bool then Some AgentRunning else None).

(* crates/server/src/issue_comment_delivery.rs:1108-1119 IssueCommentDispatcher::dispatch_session *)
Definition is_own_attempt (session latest_turn : Uuid) (found : bool)
    (row : IssueCommentDelivery) : Task bool :=
  if found then Done true
  else
    let! turns := call (MarkedTurns session (comment_id row)) in
    Done (existsb (fun t => bool_decide (turn_id t = latest_turn) && negb (launched t)
                            && negb (bool_decide (turn_status t = ProcessRow.Running))) turns).

(* crates/server/src/issue_comment_delivery.rs:1137-1151 IssueCommentDispatcher::dispatch_session *)
Definition claim_row (stopped : bool) (now : DateTime) (claimed : list IssueCommentDelivery)
    (row : IssueCommentDelivery) : Task (list IssueCommentDelivery) :=
  if stopped && negb (allow_stopped_target row) then
    let! _ := write_row (FinishPending (id row) NoTarget TurnStopped now) in Done claimed
  else
    let! won := write_row (Claim (id row) now) in
    Done (if won : bool then claimed ++ [row] else claimed).

(* crates/server/src/issue_comment_delivery.rs:1088-1155 IssueCommentDispatcher::dispatch_session *)
Definition dispatch_at_boundary (session : Session) (due : list IssueCommentDelivery)
    (issue_id_ : Uuid) (now : DateTime) : Task unit :=
  let! latest := ask (LatestTurn (ses_id session)) in
  match latest with
  | None => finish_due due NoSessions now
  | Some (latest_turn, latest_status, completed_at) =>
      let! own_attempt := fold_task (is_own_attempt (ses_id session) latest_turn) due false in
      let! confirmed :=
        if own_attempt : bool then Done true
        else boundary_confirmed (ses_id session) latest_turn completed_at in
      if negb confirmed then Done tt
      else
        let stopped := negb (bool_decide (latest_status = ProcessRow.Completed))
                       && negb own_attempt in
        let! claimed := fold_task (claim_row stopped now)
                          (filter (fun row => issue_id row = issue_id_) due) [] in
        match claimed with
        | [] => Done tt
        | _ => deliver_claimed session claimed
        end
  end.

(* crates/server/src/issue_comment_delivery.rs:1001-1155 IssueCommentDispatcher::dispatch_session *)
Definition dispatch_locked (session_id_ : Uuid) : Task unit :=
  let! now := ask UtcNow in
  let! due := read (fun db =>
    filter (fun row => is_due now row = true)
      (list_pending_for_session (Wakeups.deliveries db) session_id_)) in
  let! due := fold_task eligible_row due [] in
  match due with
  | [] => Done tt
  | first :: _ =>
      let! session := ask (FindSession session_id_) in
      let! workspace :=
        match session with
        | Some s => ask (FindWorkspace (ses_workspace_id s))
        | None => Done None
        end in
      match session, workspace with
      | Some session, Some workspace =>
          if ws_archived workspace then finish_due due WorkspaceArchived now
          else
            let! busy := busy_reason session_id_ (ws_id workspace) in
            match busy with
            | Some why =>
                for_each due (fun row =>
                  if negb (bool_decide (reason row = Some why))
                     && negb (bool_decide (reason row = Some RetryScheduled))
                  then let! _ := write_row (PendingReason (id row) why now) in Done tt
                  else Done tt)
            | None => dispatch_at_boundary session due (issue_id first) now
            end
      | _, _ => finish_due due NoSessions now
      end
  end.

(** The guard of the session's lock lives until the function returns. *)
(* crates/server/src/issue_comment_delivery.rs:991-1156 IssueCommentDispatcher::dispatch_session *)
Definition dispatch_session (session_id_ : Uuid) : Task unit :=
  let! _ := call (Lock session_id_) in
  let! _ := dispatch_locked session_id_ in
  call (Unlock session_id_).

(* crates/server/src/issue_comment_delivery.rs:841-851 IssueCommentDispatcher::dispatch_if_pending *)
Definition dispatch_if_pending (r : IssueCommentDeliveryResolution) : Task unit :=
  match res_state r, res_session_id r with
  | Pending, Some s => dispatch_session s
  | _, _ => Done tt
  end.

(** *** Requests *)

Definition read_back (i : Uuid) : Task (result IssueCommentDelivery DeliveryError) :=
  let! row := read (fun db => find_by_id (Wakeups.deliveries db) i) in
  Done (ok_or row RowNotFound).

(** A repeated request for a delivery that exists. *)
(* crates/server/src/issue_comment_delivery.rs:771-803 IssueCommentDispatcher::request *)
Definition request_again (existing : IssueCommentDelivery) (target : option Uuid)
    : Task (result IssueCommentDelivery DeliveryError) :=
  if negb (is_resolvable (state existing)) then Done (Ok existing)
  else
    let! r := resolve (issue_id existing) target (origin_session_id existing)
                (bool_decide (source existing = Mcp)
                 && bool_decide (is_Some (origin_session_id existing))) in
    let! now := ask UtcNow in
    let! applied := write_row (Resolve (id existing) [Failed; NoTarget; NeedsTarget] r now) in
    let! _ := if applied : bool then dispatch_if_pending r else Done tt in
    read_back (id existing).

(** [insert_if_absent], then the dispatch of what this call created. *)
(* crates/server/src/issue_comment_delivery.rs:819-838 IssueCommentDispatcher::request *)
Definition insert_and_dispatch (n : NewIssueCommentDelivery) (r : IssueCommentDeliveryResolution)
    : Task (result IssueCommentDelivery DeliveryError) :=
  let! now := ask UtcNow in
  let! fresh := ask NewUuid in
  let! created := write_row (Insert fresh n r now) in
  let! row := read (fun db => find_by_comment_id (Wakeups.deliveries db) (new_comment_id n)) in
  match row with
  | None => Done (Err RowNotFound)
  | Some row =>
      let! _ := if created : bool then dispatch_if_pending r else Done tt in
      read_back (id row)
  end.

(* crates/server/src/issue_comment_delivery.rs:752-839 IssueCommentDispatcher::request *)
Definition request (rq : RequestIssueCommentDelivery)
    : Task (result IssueCommentDelivery DeliveryError) :=
  let! comment := ask (GetComment (rq_comment_id rq)) in
  match comment with
  | Err e => Done (Err (Remote e))
  | Ok comment =>
      if negb (bool_decide (ic_issue_id comment = rq_issue_id rq)) then
        Done (Err (BadRequest ("comment " +:+ uuid_to_string (rq_comment_id rq)
          +:+ " does not belong to issue " +:+ uuid_to_string (rq_issue_id rq))))
      else
        let source_ := default Ui (rq_source rq) in
        let! existing := read (fun db =>
          find_by_comment_id (Wakeups.deliveries db) (ic_id comment)) in
        match existing with
        | Some existing => request_again existing (target_session_id rq)
        | None =>
            let! origin := origin_session (rq_origin_session_id rq) (rq_origin_workspace_id rq) in
            let! r := resolve (ic_issue_id comment) (target_session_id rq) origin
                        (bool_decide (source_ = Mcp) && bool_decide (is_Some origin)) in
            insert_and_dispatch
              {| new_comment_id := ic_id comment; new_issue_id := ic_issue_id comment;
                 new_source := source_; new_origin_session_id := origin;
                 new_comment_author_id := ic_author_id comment;
                 new_comment_created_at := ic_created_at comment |} r
        end
  end.

(* crates/server/src/issue_comment_delivery.rs:855-861 IssueCommentDispatcher::next_subtask_hop *)
Definition next_subtask_hop (parent_session : Uuid) : Task (result Z DeliveryError) :=
  let! hop := origin_hop parent_session in
  Done (map_err (fun _ => BadRequest
    "Background subtask continuation limit reached; continue in the foreground")
    (next_hop_count true hop)).

(** Saving the comment, by its identifier: a retry of a create whose answer was lost finds
    the comment there. *)
(* crates/server/src/issue_comment_delivery.rs:946-969 IssueCommentDispatcher::create_comment *)
Definition save_comment (rq : CreateIssueCommentWithIntent) (comment : Uuid) (text : string)
    : Task (result IssueComment DeliveryError) :=
  let! created := ask (CreateComment comment (cr_issue_id rq) text (parent_id rq)) in
  match created with
  | Ok c => Done (Ok c)
  | Err e =>
      if is_status e 409 then
        let! existing := ask (GetComment comment) in
        match existing with
        | Err e => Done (Err (Remote e))
        | Ok c =>
            if negb (bool_decide (ic_issue_id c = cr_issue_id rq))
               || negb (bool_decide (ic_message c = text))
            then Done (Err (Conflict ("comment id " +:+ uuid_to_string comment
                   +:+ " is already used by a different comment")))
            else Done (Ok c)
        end
      else Done (Err (Remote e))
  end.

(* crates/server/src/issue_comment_delivery.rs:929-988 IssueCommentDispatcher::create_comment *)
Definition create_comment (rq : CreateIssueCommentWithIntent)
    : Task (result (IssueComment * option IssueInfo * option IssueCommentDelivery)
                   DeliveryError) :=
  let text := trim (cr_message rq) in
  if bool_decide (text = "") then Done (Err (BadRequest "message must not be empty"))
  else
    let! comment_id := match cr_comment_id rq with
                       | Some c => Done c
                       | None => ask NewUuid
                       end in
    let! comment := save_comment rq comment_id text in
    match comment with
    | Err e => Done (Err e)
    | Ok comment =>
        let! delivery :=
          match intent rq with
          | Note => Done (Ok None)
          | ReplyToAgent =>
              let! d := request
                {| rq_comment_id := ic_id comment; rq_issue_id := ic_issue_id comment;
                   target_session_id := cr_target_session_id rq; rq_source := Some Mcp;
                   rq_origin_session_id := cr_origin_session_id rq;
                   rq_origin_workspace_id := cr_origin_workspace_id rq |} in
              Done (match d with Ok d => Ok (Some d) | Err e => Err e end)
          end in
        match delivery with
        | Err e => Done (Err e)
        | Ok delivery =>
            let! info := ask (GetIssueInfo (ic_issue_id comment)) in
            Done (Ok (comment, match info with Ok i => Some i | Err _ => None end, delivery))
        end
    end.

(* crates/server/src/issue_comment_delivery.rs:899-904 IssueCommentDispatcher::subtask_result *)
Definition pinned (r : IssueCommentDeliveryResolution) (hop : Z)
    : IssueCommentDeliveryResolution :=
  let blocked := negb (bool_decide (1 <= hop <= MAX_AGENT_HOPS)) in
  {| res_state := if blocked then Blocked else res_state r;
     res_reason := if blocked then Some LoopGuard else res_reason r;
     res_error := res_error r; res_workspace_id := res_workspace_id r;
     res_session_id := res_session_id r; res_hop_count := hop;
     res_allow_stopped_target := false |}.

(* crates/server/src/issue_comment_delivery.rs:866-925 IssueCommentDispatcher::subtask_result *)
Definition subtask_result (issue session comment : Uuid) (text : string) (hop : Z)
    : Task (result IssueCommentDelivery DeliveryError) :=
  let! created := create_comment
    {| cr_issue_id := issue; cr_message := text; intent := Note; parent_id := None;
       cr_target_session_id := None; cr_comment_id := Some comment;
       cr_origin_session_id := None; cr_origin_workspace_id := None |} in
  match created with
  | Err e => Done (Err e)
  | Ok (saved, _, _) =>
      let! existing := read (fun db => find_by_comment_id (Wakeups.deliveries db) comment) in
      match existing with
      | Some existing => Done (Ok existing)
      | None =>
          let! r := resolve issue (Some session) None false in
          if bool_decide (res_state r = Failed) then
            Done (Err (BadRequest (default
              "Could not resolve the parent session; notification retained for retry"
              (res_error r))))
          else
            insert_and_dispatch
              {| new_comment_id := comment; new_issue_id := issue; new_source := Mcp;
                 new_origin_session_id := None; new_comment_author_id := ic_author_id saved;
                 new_comment_created_at := ic_created_at saved |} (pinned r hop)
      end
  end.

(** *** Background work *)

(* crates/server/src/issue_comment_delivery.rs:1550-1579 IssueCommentDispatcher::recover *)
Definition recover_row (row : IssueCommentDelivery) : Task unit :=
  let! attempt := match session_id row with
                  | Some s => earlier_attempt s (comment_id row)
                  | None => Done NoAttempt
                  end in
  let! now := ask UtcNow in
  match attempt with
  | Uncertain execution => fail_uncertain row execution
  | Launched execution =>
      let! _ := write_row (Deliver (id row) execution (default "" (delivered_message row))
                             (delivered_comment_updated_at row) now) in Done tt
  | NoAttempt =>
      let! _ := write_row (Finish (id row) Pending (Some RetryScheduled)
                  (Some "delivery was interrupted by a server restart") None now) in Done tt
  end.

(* crates/server/src/issue_comment_delivery.rs:1548-1582 IssueCommentDispatcher::recover *)
Definition recover : Task unit :=
  let! rows := read (fun db => list_dispatching (Wakeups.deliveries db)) in
  for_each rows recover_row.

(* crates/server/src/wakeups.rs:198-207 reconcile *)
Definition lost_target (w : Wakeups.Wakeup) : Task (option string) :=
  let! workspace := ask (FindWorkspace (Wakeups.wk_workspace_id w)) in
  let! deleted := ask (WorktreeDeleted (Wakeups.wk_workspace_id w)) in
  let! session := ask (FindSession (Wakeups.wk_session_id w)) in
  Done (match workspace with
        | None => Some "Workspace deleted"%string
        | Some ws =>
            if ws_archived ws || deleted then Some "Workspace archived or worktree deleted"%string
            else match session with
                 | None => Some "Session deleted"%string
                 | Some _ => None
                 end
        end).

Definition cancel_wakeup (w : Wakeups.Wakeup) (why : string) : Task unit :=
  let! now := ask UtcNow in
  let! _ := call (Write (CancelWakeup (Wakeups.wk_id w) why now)) in Done tt.

(** The instant of the receipt's first line, [completed_at=...]. *)
(* crates/server/src/wakeups.rs:225-230 reconcile *)
Definition receipt_instant (context : string) : option DateTime :=
  line ← head (lines context);
  value ← strip_prefix "completed_at=" line;
  parse_rfc3339 value.

(* crates/server/src/wakeups.rs:198-271 reconcile *)
Definition reconcile_wakeup (w : Wakeups.Wakeup) : Task unit :=
  let! lost := lost_target w in
  match lost, Wakeups.receipt_path w with
  | Some why, _ => cancel_wakeup w why
  | None, None => Done tt
  | None, Some path =>
      if bool_decide (is_Some (Wakeups.trigger_context w)) then Done tt
      else
        let expire :=
          let! now := ask UtcNow in
          if bool_decide (Wakeups.fire_at w <= now) then
            cancel_wakeup w "Completion predicate did not produce a receipt before the wake-up deadline"
          else Done tt in
        let! receipt := ask (ReadReceipt path) in
        match receipt with
        | Ok context =>
            let! observed_at := ask UtcNow in
            match receipt_instant context with
            | Some at_ =>
                if bool_decide (at_ <= Wakeups.fire_at w) && bool_decide (at_ <= observed_at)
                then let! _ := call (Write (AcceptReceipt (Wakeups.wk_id w) context at_)) in
                     Done tt
                else cancel_wakeup w "Invalid or expired completion receipt"
            | None => cancel_wakeup w "Invalid or expired completion receipt"
            end
        | Err NotFound => expire
        | Err (InvalidData text) =>
            let! _ := ask UtcNow in
            cancel_wakeup w ("Completion receipt unavailable: " +:+ text)
        | Err (OtherFailure text) =>
            let! now := ask UtcNow in
            if bool_decide (Wakeups.fire_at w <= now) then
              cancel_wakeup w ("Completion receipt unavailable: " +:+ text)
            else
              let! _ := call (Write (ReceiptError (Wakeups.wk_id w)
                ("Completion receipt unavailable; will retry: " +:+ text))) in Done tt
        end
  end.

(* crates/server/src/wakeups.rs:195-274 reconcile *)
Definition reconcile : Task unit :=
  let! pending := read (fun db =>
    filter (fun w => (state <$> find_by_comment_id (Wakeups.deliveries db) (Wakeups.wk_id w))
                     = Some Pending)
      (Wakeups.all_wakeups db)) in
  for_each pending reconcile_wakeup.

(* crates/server/src/issue_comment_delivery.rs:1585-1593 IssueCommentDispatcher::sweep *)
Definition sweep : Task unit :=
  let! _ := reconcile in
  let! now := ask UtcNow in
  let! sessions := read (fun db => sessions_with_due_pending (Wakeups.deliveries db) now) in
  for_each sessions dispatch_session.

(* crates/server/src/issue_comment_delivery.rs:1606-1608 IssueCommentDispatcher::on_turn_finalized *)
Definition on_turn_finalized (session : Uuid) : Task unit := dispatch_session session.

(** *** What the surfaces show *)

(* crates/server/src/issue_comment_delivery.rs:106-113 IssueCommentWithDelivery *)
Record IssueCommentWithDelivery := {
  comment : IssueComment;
  shown_author_name : option string;
  delivery : option IssueCommentDelivery;
  edited_after_delivery : bool;
}.

(* crates/server/src/issue_comment_delivery.rs:1717-1751 join_comments *)
Definition join_comments (comments : list IssueComment) (deliveries : list IssueCommentDelivery)
    (names : gmap Uuid string) : list IssueCommentWithDelivery * list IssueCommentDelivery :=
  let by_comment : gmap Uuid IssueCommentDelivery :=
    foldl (fun m d => <[comment_id d := d]> m) ∅ deliveries in
  let step acc c :=
    let '(joined, remaining) := acc in
    let d := remaining !! ic_id c in
    (joined ++ [{| comment := c; shown_author_name := (ic_author_id c) ≫= (names !!.);
                   delivery := d;
                   edited_after_delivery :=
                     match d with
                     | Some d =>
                         bool_decide (state d = Delivered)
                         && match delivered_comment_updated_at d with
                            | Some at_ => bool_decide (at_ < ic_updated_at c)
                            | None => false
                            end
                     | None => false
                     end |}], delete (ic_id c) remaining) in
  let '(joined, remaining) := foldl step ([], by_comment) comments in
  (joined, merge_sort (by_key comment_created_at)
     (filter (fun d => comment_id d ∉ ic_id <$> comments) (map_to_list remaining).*2)).

(* crates/server/src/issue_comment_delivery.rs:1687-1689 issue_url *)
Definition issue_url (project issue : Uuid) : string :=
  "/projects/" +:+ uuid_to_string project +:+ "/issues/" +:+ uuid_to_string issue.

(* crates/server/src/issue_comment_delivery.rs:116-123 IssueCommentsWithDelivery *)
Record IssueCommentsWithDelivery := {
  icd_issue_id : Uuid;
  icd_issue_url : option string;
  comments : list IssueCommentWithDelivery;
  deleted_deliveries : list IssueCommentDelivery;
}.

(* crates/server/src/issue_comment_delivery.rs:1611-1634 IssueCommentDispatcher::issue_comments *)
Definition issue_comments (issue_id_ : Uuid)
    : Task (result IssueCommentsWithDelivery DeliveryError) :=
  let! cs := ask (ListComments issue_id_) in
  match cs with
  | Err e => Done (Err (Remote e))
  | Ok cs =>
      let! ds := read (fun db => list_by_issue (Wakeups.deliveries db) issue_id_) in
      let! info := ask (GetIssueInfo issue_id_) in
      let project := match info with Ok i => Some (project_id i) | Err _ => None end in
      let! names := match project with
                    | Some p => ask (MemberNames p)
                    | None => Done []
                    end in
      let '(joined, deleted) := join_comments cs ds (list_to_map names) in
      Done (Ok {| icd_issue_id := issue_id_;
                  icd_issue_url := (fun p => issue_url p issue_id_) <$> project;
                  comments := joined; deleted_deliveries := deleted |})
  end.
End Dispatcher.

End Dispatcher.
