(* ===== verification/CommentMachine.v ===== *)
(** * Concurrent deliveries of issue comments

    Any number of requests, sweeps, turn boundaries and recoveries run [Dispatcher]'s tasks
    against one database, one operation at a time, while the agents' turns make progress
    and wake-ups are scheduled.  A task may be cut off anywhere: the server stops, a caller
    hangs up, a statement fails.  What holds of every state that can be reached is proved
    with a logic of the tasks: which lock a task holds, and what it knows of the earlier
    attempts in the session it locked. *)
From S2P Require Import Prelude Text Format WorkerJobRow DeliveryRow Wakeups DeliveryRules CommentDelivery.
From Stdlib Require Import Ascii.
Import DeliveryRow DeliveryRules Dispatcher.

Module Machine.

(** A coding-agent turn: what [find_coding_agent_turns_with_marker] reads of its row, and
    the comments (with the sender's consent) of the batch that started it, none for a turn
    started otherwise. *)
Record Exec := {
  e_id : Uuid;
  e_session : Uuid;
  e_action : string;
  e_status : ProcessRow.ExecutionProcessStatus;
  e_launched : bool;
  e_uncertain : bool;
  e_batch : list (Uuid * bool);
}.

Record Sys := {
  db : Wakeups.Db;
  execs : list Exec;
  locks : gmap Uuid nat;
  tasks : nat -> option (Task unit);
}.

Definition set_task (me : nat) (t : option (Task unit)) (ts : nat -> option (Task unit))
    : nat -> option (Task unit) :=
  fun n => if decide (n = me) then t else ts n.

Definition with_db (s : Sys) d : Sys :=
  {| db := d; execs := execs s; locks := locks s; tasks := tasks s |}.
Definition with_execs (s : Sys) e : Sys :=
  {| db := db s; execs := e; locks := locks s; tasks := tasks s |}.
Definition with_locks (s : Sys) l : Sys :=
  {| db := db s; execs := execs s; locks := l; tasks := tasks s |}.
Definition with_tasks (s : Sys) t : Sys :=
  {| db := db s; execs := execs s; locks := locks s; tasks := t |}.

Definition exec_statement (d : Wakeups.Db) (w : statement) : option (Wakeups.Db * bool) :=
  match w with
  | Ledger w => (fun tb => (Wakeups.with_deliveries d tb.1, tb.2)) <$> exec (Wakeups.deliveries d) w
  | CancelWakeup i why now => Some (Wakeups.cancel d i why now)
  | AcceptReceipt i context at_ => Some (Wakeups.accept_receipt d i context at_)
  | ReceiptError i text => Some (Wakeups.update_pending d i [Set_error (Some text)])
  end.

(** What is relied on in an answer: a row found by its key has that key, and so has the
    comment the remote server gives. *)
Definition plausible {R : Set} (q : question R) : R -> Prop :=
  match q in question R return R -> Prop with
  | FindSession i => fun r => forall x, r = Some x -> ses_id x = i
  | FindWakeup i => fun r => forall x, r = Some x -> Wakeups.wk_id x = i
  | GetComment c => fun r => forall x, r = Ok x -> ic_id x = c
  | _ => fun _ => True
  end.

Section Machine.
Context `{Htext : !CommentText} `{Hlaws : !CommentTextLaws}.
Context `{Hstored : !StoredAction} `{Hjson : !StoredActionLaws}.
Context (to_rfc3339 : DateTime -> string) (parse_rfc3339 : string -> option DateTime).

(** ** Steps *)

(* crates/db/src/models/execution_process.rs:335-358 ExecutionProcess::find_coding_agent_turns_with_marker *)
Definition marked_turns (es : list Exec) (session comment : Uuid) : list MarkedTurn :=
  (fun e => {| turn_id := e_id e; turn_status := e_status e; launched := e_launched e;
               uncertain := e_uncertain e |}) <$>
    filter (fun e => e_session e = session
                     /\ contains (stored_marker_needle comment) (e_action e) = true) es.

(** The row of a turn that [StartFollowUp] has begun. *)
Definition started (session : Uuid) (prompt : string) (batch : list (Uuid * bool)) (e : Exec)
    : Prop :=
  e_session e = session /\ e_action e = stored_action session prompt /\ e_batch e = batch.

(** One operation of task [me]. *)
Definition exec_op (s : Sys) (me : nat) {R : Set} (o : op R) : R -> Sys -> Prop :=
  match o in op R return R -> Sys -> Prop with
  | Ask q => fun r s' => plausible q r /\ s' = s
  | Read f => fun r s' => r = f (db s) /\ s' = s
  | Write w => fun b s' => exists d, exec_statement (db s) w = Some (d, b) /\ s' = with_db s d
  | MarkedTurns session comment => fun r s' =>
      r = marked_turns (execs s) session comment /\ s' = s
  | StartFollowUp session prompt batch => fun r s' =>
      (exists e, started session prompt batch e /\ r = Ok (e_id e)
                 /\ s' = with_execs s (execs s ++ [e])) \/
      (exists err es, Forall (started session prompt batch) es /\ (length es <= 1)%nat
                 /\ r = Err err /\ s' = with_execs s (execs s ++ es))
  | Lock session => fun _ s' =>
      locks s !! session = None /\ s' = with_locks s (<[session := me]> (locks s))
  | Unlock session => fun _ s' => s' = with_locks s (delete session (locks s))
  end.

(** A task that ends early gives its locks back. *)
Definition drop (s : Sys) (me : nat) : Sys :=
  {| db := db s; execs := execs s; locks := filter (fun kv => kv.2 <> me) (locks s);
     tasks := set_task me None (tasks s) |}.

(** A turn's evidence of launch: durable, and new evidence after its start has failed only
    comes from a worker that was handed the turn. *)
Definition evolves (e e' : Exec) : Prop :=
  e_id e' = e_id e /\ e_session e' = e_session e /\ e_action e' = e_action e /\
  e_batch e' = e_batch e /\ e_uncertain e' = e_uncertain e /\
  (e_launched e = true -> e_launched e' = true) /\
  (e_launched e' = true -> e_launched e = true \/ e_uncertain e = true).

(** A workspace is deleted, with its sessions and their executions: the foreign keys of the
    deliveries are set to null (the migration's [ON DELETE SET NULL]), the rows of other
    tables that name the workspace go with it, and its wake-ups stay. *)
Record Deletion := {
  gone_workspaces : gset Uuid;
  gone_sessions : gset Uuid;
  gone_executions : gset Uuid;
}.

Definition unless_gone (gone : gset Uuid) (v : option Uuid) : option Uuid :=
  match v with Some i => if decide (i ∈ gone) then None else v | None => None end.

Definition forget (x : Deletion) (d : IssueCommentDelivery) : IssueCommentDelivery :=
  foldl assign d
    [Set_workspace_id (unless_gone (gone_workspaces x) (workspace_id d));
     Set_session_id (unless_gone (gone_sessions x) (session_id d));
     Set_execution_process_id (unless_gone (gone_executions x) (execution_process_id d))].

Definition delete_from (x : Deletion) (d : Wakeups.Db) : Wakeups.Db :=
  {| Wakeups.deliveries := forget x <$> Wakeups.deliveries d;
     Wakeups.wakeups := Wakeups.wakeups d;
     Wakeups.archived := Wakeups.archived d ∖ gone_workspaces x;
     Wakeups.archive_intents := filter (fun kv => kv.1.1 ∉ gone_workspaces x) (Wakeups.archive_intents d) |}.

(** The executions that are left. *)
Definition survives (x : Deletion) (e : Exec) : Prop :=
  e_session e ∉ gone_sessions x /\ e_id e ∉ gone_executions x.

#[global] Instance survives_dec x e : Decision (survives x e).
Proof. unfold survives. apply _. Defined.

(** The tasks the server starts. *)
Inductive entry : Task unit -> Prop :=
| entry_request rq : entry (let! _ := request to_rfc3339 rq in Done tt)
| entry_create rq : entry (let! _ := create_comment to_rfc3339 rq in Done tt)
| entry_subtask i session comment text hop :
    entry (let! _ := subtask_result to_rfc3339 i session comment text hop in Done tt)
| entry_hop session : entry (let! _ := next_subtask_hop session in Done tt)
| entry_targets i : entry (let! _ := agent_targets i in Done tt)
| entry_comments i : entry (let! _ := issue_comments i in Done tt)
| entry_finalized session : entry (on_turn_finalized to_rfc3339 session)
| entry_recover : entry recover
| entry_sweep : entry (sweep to_rfc3339 parse_rfc3339).

Inductive step : Sys -> Sys -> Prop :=
| step_op s me {R : Set} (o : op R) k r s' :
    tasks s me = Some (Call o k) -> exec_op s me o r s' ->
    step s (with_tasks s' (set_task me (Some (k r)) (tasks s)))
| step_drop s me : step s (drop s me)
| step_cut s me session prompt batch k e :
    tasks s me = Some (Call (StartFollowUp session prompt batch) k) ->
    started session prompt batch e ->
    step s (drop (with_execs s (execs s ++ [e])) me)
| step_spawn s me t :
    tasks s me = None -> (forall session, locks s !! session <> Some me) -> entry t ->
    step s (with_tasks s (set_task me (Some t) (tasks s)))
| step_evolve s es : Forall2 evolves (execs s) es -> step s (with_execs s es)
| step_other s e : e_batch e = [] -> step s (with_execs s (execs s ++ [e]))
| step_schedule s eligible w d b :
    Wakeups.insert eligible (db s) w = Ok (d, b) -> step s (with_db s d)
| step_cancel s i why now : step s (with_db s (Wakeups.cancel (db s) i why now).1)
| step_delete s x :
    step s (with_execs (with_db s (delete_from x (db s))) (filter (survives x) (execs s))).

Definition start : Sys :=
  {| db := {| Wakeups.deliveries := ∅; Wakeups.wakeups := ∅; Wakeups.archived := ∅;
              Wakeups.archive_intents := ∅ |};
     execs := []; locks := ∅; tasks := fun _ => None |}.

Definition reachable (s : Sys) : Prop := rtc step start s.
End Machine.
End Machine.
