(* ===== verification/CommentFacts.v ===== *)
(** * Facts about comment deliveries

    [Ledger] is what every statement keeps of the tables.  [Logic] is the logic of tasks,
    [Protocol] the dispatcher's functions proved in it, and [Delivery] the theorems about
    every reachable state of [Machine]. *)
From S2P Require Import Prelude Text Format WorkerJobRow DeliveryRow Wakeups DeliveryRules CommentDelivery CommentMachine.
From Stdlib Require Import Ascii.
Import DeliveryRow DeliveryRules Dispatcher Machine.

Module LedgerFacts.

(** Only a delivered row names an execution; only a blocked row may be past the hop limit. *)
Definition row_ok (d : IssueCommentDelivery) : Prop :=
  (is_Some (execution_process_id d) -> state d = Delivered) /\
  (state d = Blocked \/ 0 <= hop_count d <= MAX_AGENT_HOPS).

Definition res_ok (r : IssueCommentDeliveryResolution) : Prop :=
  res_state r <> Delivered /\ (res_state r = Blocked \/ 0 <= res_hop_count r <= MAX_AGENT_HOPS).

(** What the dispatcher's statements keep to. *)
Definition promised (w : statement) : Prop :=
  match w with
  | Ledger (Insert _ _ r _) => res_ok r
  | Ledger (Resolve _ from r _) =>
      from = [Failed; NoTarget; NeedsTarget] /\ res_ok r
  | Ledger (Finish _ s _ _ _ _) | Ledger (FinishPending _ s _ _) => s <> Delivered
  | _ => True
  end.

Definition good (d : Wakeups.Db) : Prop :=
  Wakeups.consistent d /\ map_Forall (fun _ => row_ok) (Wakeups.deliveries d).

Lemma update_row_ok t i ok set t' b :
  map_Forall (fun _ => row_ok) t -> update t i ok set = (t', b) ->
  (forall d, row_ok d -> ok d = true -> row_ok (foldl assign d (set d))) ->
  map_Forall (fun _ => row_ok) t'.
Proof.
  intros Ht [[_ ->]|(_ & d & Hd & Hok & ->)]%update_cases Hset; [done|].
  apply map_Forall_insert_2; [|done]. apply Hset; [|done]. exact (map_Forall_lookup_1 _ _ _ _ Ht Hd).
Qed.

Lemma exec_row_ok t w t' b :
  map_Forall (fun _ => row_ok) t -> promised (Ledger w) -> exec t w = Some (t', b) ->
  map_Forall (fun _ => row_ok) t'.
Proof.
  intros Ht Hw H. destruct w; cbn in H, Hw; [|injection H as H..].
  2-8: eapply update_row_ok; [exact Ht|exact H|]; clear - Hw; intros d [Hd Hh] Hok;
    unfold row_ok, state_is in *; try apply bool_decide_eq_true in Hok;
    cbn [foldl assign state execution_process_id hop_count].
  - unfold insert_row in H. repeat case_match; simplify_eq; [done|].
    apply map_Forall_insert_2; [|done]. destruct Hw as [Hs Hhop]. split; [|done]. by intros [].
  - done.
  - destruct Hw as [-> [Hs Hhop]]. split; [|done].
    apply as_str_elem in Hok. intros He. apply Hd in He.
    rewrite He in Hok. set_solver.
  - rewrite Hok in *. split; [|destruct Hh; [done|by right]].
    intros He. by apply Hd in He.
  - rewrite Hok in *. split; [done|destruct Hh; [done|by right]].
  - rewrite Hok in *. split; [|destruct Hh; [done|by right]].
    intros He. by apply Hd in He.
  - done.
  - rewrite Hok in *. split; [|destruct Hh; [done|by right]].
    intros He. by apply Hd in He.
Qed.

Lemma update_well_formed t i ok set t' b :
  well_formed t -> update t i ok set = (t', b) -> well_formed t'.
Proof.
  intros Hwf [[_ ->]|(_ & d & Hd & _ & ->)]%update_cases; [done|by apply well_formed_assign].
Qed.

(** A statement on a wake-up touches only a row that waits, and neither delivers it nor
    counts a hop. *)
Lemma update_pending_good d i set d' b :
  good d -> Wakeups.update_pending d i set = (d', b) ->
  (forall row, row_ok row -> state row = Pending -> row_ok (foldl assign row set)) ->
  good d'.
Proof.
  intros [[Hwf Hk] Hrows] H Hset. unfold Wakeups.update_pending in H.
  case_match; [|by simplify_eq]. destruct (update _ _ _ _) as [t b'] eqn:Hu.
  injection H as <- <-. split; [split|]; cbn [Wakeups.deliveries Wakeups.with_deliveries].
  - by eapply update_well_formed.
  - done.
  - eapply update_row_ok; [done..|]. cbn beta. intros row Hr Hs. apply Hset; [done|].
    by apply bool_decide_eq_true in Hs.
Qed.

Lemma cancel_good d i why now : good d -> good (Wakeups.cancel d i why now).1.
Proof.
  intros Hd. unfold Wakeups.cancel. case_match; [|done].
  destruct (Wakeups.update_pending _ _ _) as [d' b] eqn:Hu. eapply update_pending_good; [done..|].
  intros row [Hr Hh] Hs. unfold row_ok. cbn. rewrite Hs in *. split.
  - intros He. by apply Hr in He.
  - destruct Hh; [done|by right].
Qed.

Lemma statement_good d w d' b :
  good d -> promised w -> exec_statement d w = Some (d', b) -> good d'.
Proof.
  intros Hd Hw H. destruct w as [w|i why now|i context at_|i text]; cbn [exec_statement] in H.
  - destruct (exec _ w) as [[t b']|] eqn:He; [|done]. injection H as <- <-.
    destruct Hd as [[Hwf Hk] Hrows]. split; [split|]; cbn [Wakeups.deliveries Wakeups.with_deliveries fst].
    + by eapply exec_well_formed.
    + done.
    + by eapply exec_row_ok.
  - injection H as H. rewrite (surjective_pairing (Wakeups.cancel _ _ _ _)) in H.
    injection H as <- _. by apply cancel_good.
  - injection H as H. unfold Wakeups.accept_receipt in H.
    eapply update_pending_good; [|exact H|].
    + destruct Hd as [[Hwf Hk] Hrows]. repeat case_match; (split; [split|]); try done.
      cbn. intros j x [[<- <-]|[_ Hx]]%lookup_insert_Some; cbn; by eapply Hk.
    + intros row [Hr Hh] Hs. done.
  - injection H as H. eapply update_pending_good; [done|exact H|]. intros row [Hr Hh] Hs. done.
Qed.

Lemma schedule_good eligible d w d' b :
  good d -> Wakeups.insert eligible d w = Ok (d', b) -> good d'.
Proof.
  intros [[Hwf Hk] Hrows]. unfold Wakeups.insert. case_match; [by intros [= <- <-]|].
  case_match; [done|]. case_match eqn:Hu; [done|]. intros [= <- <-].
  apply orb_false_iff in Hu as [[Hw%bool_decide_eq_false Hd%bool_decide_eq_false]%orb_false_iff
    Hc%bool_decide_eq_false].
  apply eq_None_not_Some in Hw. apply eq_None_not_Some in Hd. apply eq_None_not_Some in Hc.
  split; [split|]; cbn.
  - change (Wakeups.wk_id w) with (id (Wakeups.wakeup_delivery w)).
    by apply well_formed_insert.
  - intros j x [[<- <-]|[_ Hx]]%lookup_insert_Some; [done|by apply Hk].
  - apply map_Forall_insert_2; [|done]. split; cbn; [by intros []|].
    right. unfold MAX_AGENT_HOPS. lia.
Qed.

(** *** Deletions *)

Lemma forget_good x d : good d -> good (delete_from x d).
Proof.
  intros [[[Hid Hc] Hk] Hrows]. split; [split; [split|done]|]; cbn.
  - intros i r. rewrite lookup_fmap. intros (r0 & Hr & ->)%fmap_Some. exact (Hid _ _ Hr).
  - intros i j r r'. rewrite !lookup_fmap. intros (r0 & Hr & ->)%fmap_Some (r1 & Hr' & ->)%fmap_Some.
    exact (Hc _ _ _ _ Hr Hr').
  - intros i r. rewrite lookup_fmap. intros (r0 & Hr & ->)%fmap_Some.
    destruct (Hrows i r0 Hr) as [He Hh]. split; [|done]. cbn. intros Hs. apply He.
    destruct (execution_process_id r0); [done|by destruct Hs].
Qed.

(** Rows that differ by deletions only: in some of the references that are cleared. *)
Definition forgotten (row row' : IssueCommentDelivery) : Prop := exists x, row' = forget x row.

Lemma unless_gone_twice g g' v : unless_gone g' (unless_gone g v) = unless_gone (g ∪ g') v.
Proof.
  destruct v as [i|]; [|done]. cbn. destruct (decide (i ∈ g)) as [H|H].
  - rewrite decide_True by set_solver. done.
  - cbn. destruct (decide (i ∈ g')); [by rewrite decide_True by set_solver|by rewrite decide_False by set_solver].
Qed.

Lemma forgotten_refl row : forgotten row row.
Proof.
  exists {| gone_workspaces := ∅; gone_sessions := ∅; gone_executions := ∅ |}.
  assert (forall v, unless_gone ∅ v = v) as Hn by (intros [i|]; [cbn; by rewrite decide_False by set_solver|done]).
  destruct row. unfold forget. cbn. by rewrite !Hn.
Qed.

Lemma forgotten_trans row row' row'' : forgotten row row' -> forgotten row' row'' -> forgotten row row''.
Proof.
  intros [x ->] [y ->].
  exists {| gone_workspaces := gone_workspaces x ∪ gone_workspaces y;
            gone_sessions := gone_sessions x ∪ gone_sessions y;
            gone_executions := gone_executions x ∪ gone_executions y |}.
  destruct row. unfold forget. cbn. by rewrite !unless_gone_twice.
Qed.

Lemma forgotten_state row row' : forgotten row row' -> state row' = state row.
Proof. by intros [x ->]. Qed.

(** *** Settled rows *)

(** A row that becomes delivered names its execution. *)
Lemma exec_delivers t w t' b i row :
  promised (Ledger w) -> exec t w = Some (t', b) -> t' !! i = Some row -> state row = Delivered ->
  t !! i = Some row \/ is_Some (execution_process_id row) \/
  exists old, t !! i = Some old /\ state old = Delivered.
Proof.
  intros Hw H Hi Hs.
  assert (forall ok set, update t (match w with Insert i _ _ _ | Snapshot i _ _ _ | Resolve i _ _ _ | Claim i _
     | Deliver i _ _ _ _ | Finish i _ _ _ _ _ | PendingReason i _ _ | FinishPending i _ _ _ => i end) ok set = (t', b) ->
     (forall d, state (foldl assign d (set d)) = Delivered ->
        is_Some (execution_process_id (foldl assign d (set d))) \/ state d = Delivered) ->
     t !! i = Some row \/ is_Some (execution_process_id row) \/
     exists old, t !! i = Some old /\ state old = Delivered) as Hup.
  { intros ok set [[_ ->]|(_ & d & Hd & _ & ->)]%update_cases Hset; [by left|].
    apply lookup_insert_Some in Hi as [[<- <-]|[_ Hi]]; [|by left]. right.
    destruct (Hset d Hs); [by left|right; eauto]. }
  destruct w; cbn in H, Hw; [|injection H as H; (eapply Hup; [exact H|]); cbn; eauto..].
  - unfold insert_row in H. repeat case_match; simplify_eq; [by left|].
    apply lookup_insert_Some in Hi as [[<- <-]|[_ Hi]]; [|by left]. cbn in Hs. by destruct Hw.
  - intros d Hd. destruct Hw as [_ [Hw _]]. by destruct Hw.
  - done.
  - done.
  - done.
Qed.

Lemma pending_delivers d i set d' b j row :
  Wakeups.update_pending d i set = (d', b) ->
  (forall r, state (foldl assign r set) = Delivered -> state r = Delivered) ->
  Wakeups.deliveries d' !! j = Some row -> state row = Delivered ->
  exists old, Wakeups.deliveries d !! j = Some old /\ state old = Delivered.
Proof.
  unfold Wakeups.update_pending. intros H Hset Hj Hs. case_match; [|simplify_eq; eauto].
  destruct (update _ _ _ _) as [t b'] eqn:Hu. injection H as <- <-. cbn in Hj.
  apply update_cases in Hu as [[_ ->]|(_ & e & He & Hp & ->)]; [eauto|].
  apply lookup_insert_Some in Hj as [[<- <-]|[_ Hj]]; [|eauto]. eexists. split; [exact He|]. by apply Hset.
Qed.

Lemma statement_delivers d w d' b j row :
  promised w -> exec_statement d w = Some (d', b) ->
  Wakeups.deliveries d' !! j = Some row -> state row = Delivered ->
  is_Some (execution_process_id row) \/ exists old, Wakeups.deliveries d !! j = Some old /\ state old = Delivered.
Proof.
  intros Hw H Hj Hs. destruct w as [w|i why now|i context at_|i text]; cbn [exec_statement] in H.
  - destruct (exec _ w) as [[t b']|] eqn:He; [|done]. injection H as <- <-. cbn in Hj.
    destruct (exec_delivers _ _ _ _ _ _ Hw He Hj Hs) as [?|[?|?]]; [right|left|right]; eauto.
  - right. injection H as H. unfold Wakeups.cancel in H. case_match; [|simplify_eq; eauto].
    eapply pending_delivers; [exact H|done|exact Hj|done].
  - right. injection H as H. unfold Wakeups.accept_receipt in H.
    eapply pending_delivers in H as (old & Ho & Hso); [|done|exact Hj|done]. exists old. split; [|done].
    by repeat case_match.
  - right. injection H as H. by eapply pending_delivers.
Qed.

Lemma update_pending_settled d i set d' b j row :
  Wakeups.update_pending d i set = (d', b) ->
  Wakeups.deliveries d !! j = Some row -> is_settled (state row) = true ->
  Wakeups.deliveries d' !! j = Some row.
Proof.
  unfold Wakeups.update_pending. intros H Hj Hs. case_match; [|by simplify_eq].
  destruct (update _ _ _ _) as [t b'] eqn:Hu. injection H as <- <-. cbn.
  apply update_cases in Hu as [[_ ->]|(_ & e & He & Hp & ->)]; [done|].
  rewrite lookup_insert_ne; [done|]. intros Heq. rewrite Heq in He.
  apply bool_decide_eq_true in Hp. simplify_eq. by rewrite Hp in Hs.
Qed.

Lemma statement_settled d w d' b j row :
  promised w -> exec_statement d w = Some (d', b) ->
  Wakeups.deliveries d !! j = Some row -> is_settled (state row) = true ->
  Wakeups.deliveries d' !! j = Some row.
Proof.
  intros Hw H Hj Hs. destruct w as [w|i why now|i context at_|i text]; cbn [exec_statement] in H.
  - destruct (exec _ w) as [[t b']|] eqn:He; [|done]. injection H as <- <-. cbn.
    eapply exec_settled; [|exact Hj|done|exact He].
    destruct w; try done. destruct Hw as [-> _]. by repeat constructor.
  - injection H as H. unfold Wakeups.cancel in H. case_match; [|by simplify_eq].
    by eapply update_pending_settled.
  - injection H as H. unfold Wakeups.accept_receipt in H.
    eapply update_pending_settled; [exact H| |done]. by repeat case_match.
  - injection H as H. by eapply update_pending_settled.
Qed.

Lemma schedule_settled eligible d w d' b j row :
  Wakeups.insert eligible d w = Ok (d', b) ->
  Wakeups.deliveries d !! j = Some row -> Wakeups.deliveries d' !! j = Some row.
Proof.
  unfold Wakeups.insert. case_match; [by intros [= <- <-]|].
  case_match; [done|]. case_match eqn:Hu; [done|]. intros [= <- <-] Hj. cbn.
  apply orb_false_iff in Hu as [[_ Hd%bool_decide_eq_false]%orb_false_iff _].
  apply eq_None_not_Some in Hd. rewrite lookup_insert_ne; [done|]. congruence.
Qed.

End LedgerFacts.

(** ** A logic of tasks *)

Module Logic.
Import LedgerFacts.
Section Logic.
Context `{Htext : !CommentText} `{Hstored : !StoredAction}.

(** What a task knows of the session whose lock it holds: comments no earlier turn of which
    is launched, unless a worker has it ([unlaunched]), and comments no earlier turn of
    which is launched or with a worker ([clear]). *)
Record known := { unlaunched : gset Uuid; clear : gset Uuid }.

Definition nothing : known := {| unlaunched := ∅; clear := ∅ |}.

Definition learn (k : known) (comment : Uuid) (ts : list MarkedTurn) : known :=
  let quiet := forallb (fun t => negb (launched t)) ts in
  let idle := forallb (fun t => negb (uncertain t)) ts in
  {| unlaunched := if quiet then {[comment]} ∪ unlaunched k else unlaunched k;
     clear := if quiet && idle then {[comment]} ∪ clear k else clear k |}.

Definition at_most (k k' : known) : Prop :=
  unlaunched k ⊆ unlaunched k' /\ clear k ⊆ clear k'.

#[global] Instance at_most_preorder : PreOrder at_most.
Proof. split; [by intros k|intros k1 k2 k3 [] []; split; set_solver]. Qed.

(** A comment may be sent in session [s]: it is found in the prompt, and no earlier turn
    forbids it. *)
Definition sendable (k : known) (s : Uuid) (prompt : string) (cb : Uuid * bool) : Prop :=
  contains (stored_marker_needle cb.1) (stored_action s prompt) = true /\
  (cb.1 ∈ clear k \/ (cb.2 = true /\ cb.1 ∈ unlaunched k)).

(** What the task must ensure before an operation, with what it knows afterwards. *)
Definition pre (h : option Uuid) (k : known) {R : Set} (o : op R)
    : (R -> option Uuid -> known -> Prop) -> Prop :=
  match o in op R return (R -> option Uuid -> known -> Prop) -> Prop with
  | Ask q => fun post => forall r, plausible q r -> post r h k
  | Read f => fun post => forall d, good d -> post (f d) h k
  | Write w => fun post => promised w /\ forall b, post b h k
  | MarkedTurns session comment => fun post => forall ts,
      post ts h (if bool_decide (h = Some session) then learn k comment ts else k)
  | StartFollowUp session prompt batch => fun post =>
      h = Some session /\ Forall (sendable k session prompt) batch /\
      forall r, post r h nothing
  | Lock session => fun post => h = None /\ post tt (Some session) nothing
  | Unlock session => fun post => h = Some session /\ post tt None nothing
  end.

Fixpoint safe {A} (t : Task A) (h : option Uuid) (k : known)
    (Q : A -> option Uuid -> known -> Prop) : Prop :=
  match t with
  | Done a => Q a h k
  | Call o c => pre h k o (fun r h' k' => safe (c r) h' k' Q)
  end.

Lemma pre_mono h k {R : Set} (o : op R) (P Q : R -> option Uuid -> known -> Prop) :
  (forall r h' k', P r h' k' -> Q r h' k') -> pre h k o P -> pre h k o Q.
Proof. intros Hpq. destruct o; cbn; naive_solver. Qed.

Lemma safe_mono {A} (t : Task A) h k (P Q : A -> option Uuid -> known -> Prop) :
  (forall a h' k', P a h' k' -> Q a h' k') -> safe t h k P -> safe t h k Q.
Proof.
  intros Hpq. revert h k. induction t as [a|R o c IH]; intros h k; cbn; [apply Hpq|].
  apply pre_mono. intros r h' k'. apply IH.
Qed.

Lemma safe_bind {A B} (t : Task A) (f : A -> Task B) h k Q :
  safe t h k (fun a h' k' => safe (f a) h' k' Q) -> safe (bind t f) h k Q.
Proof.
  revert h k. induction t as [a|R o c IH]; intros h k; cbn; [done|].
  apply pre_mono. intros r h' k'. apply IH.
Qed.

(** *** Tasks that keep the lock and what is known *)

Definition keeps {A} (t : Task A) (P : A -> Prop) : Prop :=
  forall h k, safe t h k (fun a h' k' => h' = h /\ at_most k k' /\ P a).

Lemma keeps_done {A} (a : A) (P : A -> Prop) : P a -> keeps (Done a) P.
Proof. intros Ha h k. cbn. split_and!; done. Qed.

Lemma keeps_bind {A B} (t : Task A) (f : A -> Task B) P Q :
  keeps t P -> (forall a, P a -> keeps (f a) Q) -> keeps (bind t f) Q.
Proof.
  intros Ht Hf h k. apply safe_bind. eapply safe_mono; [|apply Ht].
  intros a h' k' (-> & Hk & Ha). eapply safe_mono; [|by apply Hf].
  intros b h'' k'' (-> & Hk' & Hb). split_and!; [done|by etrans|done].
Qed.

Lemma keeps_mono {A} (t : Task A) (P Q : A -> Prop) :
  (forall a, P a -> Q a) -> keeps t P -> keeps t Q.
Proof. intros Hpq Ht h k. eapply safe_mono; [|apply Ht]. naive_solver. Qed.

Lemma keeps_ask {R : Set} (q : question R) : keeps (ask q) (plausible q).
Proof. intros h k r Hr. cbn. done. Qed.

Lemma keeps_read {R : Set} (f : Wakeups.Db -> R) :
  keeps (read f) (fun r => exists d, good d /\ r = f d).
Proof. intros h k d Hd. cbn. split_and!; [done|done|eauto]. Qed.

Lemma keeps_write w : promised w -> keeps (call (Write w)) (fun _ => True).
Proof. intros Hw h k. cbn. split; [done|]. intros b. done. Qed.

Lemma learn_at_most k c ts : at_most k (learn k c ts).
Proof. unfold learn. split; cbn; repeat case_match; set_solver. Qed.

Lemma keeps_turns session c : keeps (call (MarkedTurns session c)) (fun _ => True).
Proof.
  intros h k ts. cbn. split_and!; [done| |done]. case_bool_decide; [apply learn_at_most|done].
Qed.

Lemma keeps_fold {A B} (f : B -> A -> Task B) (I : B -> Prop) l b :
  I b -> (forall b x, x ∈ l -> I b -> keeps (f b x) I) -> keeps (fold_task f l b) I.
Proof.
  revert b. induction l as [|x l IH]; intros b Hb Hf; [by apply keeps_done|].
  cbn [fold_task]. eapply keeps_bind; [apply Hf; [left|done]|]. intros b' Hb'.
  apply IH; [done|]. intros b'' y Hy. apply Hf. by right.
Qed.

Lemma keeps_for_each {A} (l : list A) (f : A -> Task unit) :
  (forall x, x ∈ l -> keeps (f x) (fun _ => True)) -> keeps (for_each l f) (fun _ => True).
Proof. intros Hf. apply (keeps_fold _ (fun _ => True)); [done|]. intros b x Hx _. by apply Hf. Qed.

(** *** Tasks that start and end without a lock *)

Definition free {A} (t : Task A) (P : A -> Prop) : Prop :=
  forall k, safe t None k (fun a h _ => h = None /\ P a).

Lemma keeps_free {A} (t : Task A) P : keeps t P -> free t P.
Proof. intros Ht k. eapply safe_mono; [|apply Ht]. naive_solver. Qed.

Lemma free_bind {A B} (t : Task A) (f : A -> Task B) P Q :
  free t P -> (forall a, P a -> free (f a) Q) -> free (bind t f) Q.
Proof.
  intros Ht Hf k. apply safe_bind. eapply safe_mono; [|apply Ht].
  intros a h k' [-> Ha]. by apply Hf.
Qed.

Lemma free_for_each {A} (l : list A) (f : A -> Task unit) :
  (forall x, x ∈ l -> free (f x) (fun _ => True)) -> free (for_each l f) (fun _ => True).
Proof.
  unfold for_each. generalize tt. induction l as [|x l IH]; intros u Hf.
  - apply keeps_free. by apply keeps_done.
  - cbn [fold_task]. eapply free_bind; [apply Hf; left|]. intros v _.
    apply IH. intros y Hy. apply Hf. by right.
Qed.
End Logic.

(** [walk] goes through a task that keeps the lock, operation by operation. *)
Ltac walk_step :=
  match goal with
  | |- keeps (bind _ _) _ => eapply keeps_bind; [|intros ? ?]
  | |- keeps (Done _) _ => apply keeps_done
  | |- keeps (ask _) _ => apply keeps_ask
  | |- keeps (read _) _ => apply keeps_read
  | |- keeps (call (Write _)) _ => apply keeps_write
  | |- keeps (write_row _) _ => apply keeps_write
  | |- keeps (call (MarkedTurns _ _)) _ => apply keeps_turns
  | |- keeps (for_each _ _) _ => apply keeps_for_each; intros ? ?
  | |- keeps (match ?x with _ => _ end) _ => destruct x eqn:?
  | |- keeps (if ?b then _ else _) _ => destruct b eqn:?
  | |- keeps (let '(_, _) := ?x in _) _ => destruct x eqn:?
  end.
Ltac walk := repeat walk_step; try done.
End Logic.

(** ** The dispatcher keeps the protocol *)

Module Protocol.
Import LedgerFacts Logic.
Section Protocol.
Context `{Htext : !CommentText} `{Hlaws : !CommentTextLaws}.
Context `{Hstored : !StoredAction} `{Hjson : !StoredActionLaws}.
Context (to_rfc3339 : DateTime -> string) (parse_rfc3339 : string -> option DateTime).

(** *** Resolving *)

Lemma session_state_keeps s : keeps (session_state s) (fun _ => True).
Proof. unfold session_state. walk. Qed.

Lemma scan_link_keeps acc l : keeps (scan_link acc l) (fun _ => True).
Proof.
  unfold scan_link. walk. apply (keeps_fold _ (fun _ => True)); [done|]. intros cs s _ _.
  eapply keeps_bind; [apply session_state_keeps|]. intros st _. walk.
Qed.

Lemma resolve_candidates_keeps i : keeps (resolve_candidates i) (fun _ => True).
Proof.
  unfold resolve_candidates. walk. apply (keeps_fold _ (fun _ => True)); [done|]. intros. apply scan_link_keeps.
Qed.

Lemma find_by_execution_hop d turn row :
  good d -> find_by_execution_process_id (Wakeups.deliveries d) turn = Some row ->
  0 <= hop_count row <= MAX_AGENT_HOPS.
Proof.
  intros [_ Hrows] Hf. unfold find_by_execution_process_id in Hf.
  apply head_Some_elem_of in Hf. rewrite merge_sort_Permutation in Hf.
  apply list_elem_of_filter in Hf as [He [i Hi]%elem_of_rows].
  destruct (map_Forall_lookup_1 _ _ _ _ Hrows Hi) as [Hs [Hb|Hh]]; [|done].
  rewrite Hb, He in Hs. by discriminate (Hs ltac:(eauto)).
Qed.

Lemma origin_hop_keeps o : keeps (origin_hop o) (fun h => forall p, h = Some p -> 0 <= p).
Proof.
  unfold origin_hop. eapply keeps_bind; [apply keeps_ask|]. intros [[[turn st] at_]|] _; [|by walk].
  eapply keeps_mono; [|apply keeps_read]. intros h (d & Hd & ->) p Hp.
  destruct (find_by_execution_process_id _ _) as [row|] eqn:Hrow; [|done].
  injection Hp as <-. by eapply find_by_execution_hop.
Qed.

Lemma resolution_of_ok hop d : 0 <= hop <= MAX_AGENT_HOPS -> res_ok (resolution_of hop d).
Proof. intros Hh. destruct d; (split; [done|]); cbn; auto. Qed.

Lemma outcome_ok s why err : s <> Delivered -> res_ok (outcome_ s why err).
Proof. intros Hs. split; [done|]. right. cbn. unfold MAX_AGENT_HOPS. lia. Qed.

Lemma resolve_keeps i explicit origin agent :
  keeps (resolve i explicit origin agent) res_ok.
Proof.
  unfold resolve. eapply keeps_bind with (P := fun h => forall p, h = Some p -> 0 <= p).
  { destruct origin; [destruct agent; [apply origin_hop_keeps|]|]; by apply keeps_done. }
  intros hop Hhop. destruct (next_hop_count agent hop) as [h|why] eqn:Hn.
  - apply next_hop_count_bound in Hn; [|done].
    eapply keeps_bind; [apply resolve_candidates_keeps|]. intros [r|e] _.
    + destruct (unavailable_reason r); apply keeps_done; [by apply outcome_ok|].
      by apply resolution_of_ok.
    + apply keeps_done. by apply outcome_ok.
  - apply keeps_done. by apply outcome_ok.
Qed.

(** *** Outcomes *)

Lemma fail_uncertain_keeps row e : keeps (fail_uncertain row e) (fun _ => True).
Proof. unfold fail_uncertain. walk. Qed.

Lemma finish_all_keeps rows s why : s <> Delivered -> keeps (finish_all rows s why) (fun _ => True).
Proof. intros Hs. unfold finish_all. walk. Qed.

Lemma retry_or_fail_keeps row why err : keeps (retry_or_fail row why err) (fun _ => True).
Proof. unfold retry_or_fail. walk. Qed.

Lemma earlier_attempt_keeps session c : keeps (earlier_attempt session c) (fun _ => True).
Proof. eapply keeps_bind; [apply keeps_turns|]. intros ts _. by apply keeps_done. Qed.

Lemma latest_attempt_keeps session c : keeps (latest_attempt session c) (fun _ => True).
Proof. eapply keeps_bind; [apply keeps_turns|]. intros ts _. by apply keeps_done. Qed.

Lemma classify_failure_keeps session err rc :
  keeps (classify_failure session err rc) (fun _ => True).
Proof.
  destruct rc as [row c]. unfold classify_failure.
  eapply keeps_bind; [apply latest_attempt_keeps|]. intros attempt _.
  walk; first [apply fail_uncertain_keeps|apply retry_or_fail_keeps].
Qed.

Lemma finish_due_keeps due why now : keeps (finish_due due why now) (fun _ => True).
Proof. unfold finish_due. walk. Qed.

Lemma busy_reason_keeps session workspace : keeps (busy_reason session workspace) (fun _ => True).
Proof. unfold busy_reason. walk. Qed.

Lemma boundary_confirmed_keeps session turn at_ :
  keeps (boundary_confirmed session turn at_) (fun _ => True).
Proof. unfold boundary_confirmed. walk. Qed.

Lemma recover_keeps : keeps recover (fun _ => True).
Proof.
  unfold recover. walk. unfold recover_row.
  eapply keeps_bind with (P := fun _ => True).
  { destruct (session_id x); [apply earlier_attempt_keeps|by apply keeps_done]. }
  intros attempt _. walk.
Qed.

Lemma cancel_wakeup_keeps w why : keeps (cancel_wakeup w why) (fun _ => True).
Proof. unfold cancel_wakeup. walk. Qed.

Lemma lost_target_keeps w : keeps (lost_target w) (fun _ => True).
Proof. unfold lost_target. walk. Qed.

Lemma reconcile_keeps : keeps (reconcile parse_rfc3339) (fun _ => True).
Proof.
  unfold reconcile. walk. unfold reconcile_wakeup.
  eapply keeps_bind; [apply lost_target_keeps|]. intros lost _.
  walk; try apply cancel_wakeup_keeps.
Qed.

(** *** Starting a turn *)

Definition ready_ok (k : known) (rc : ready_row) : Prop :=
  ic_id rc.2 = comment_id rc.1 /\
  (comment_id rc.1 ∈ clear k \/
   (allow_stopped_target rc.1 = true /\ comment_id rc.1 ∈ unlaunched k)).

Lemma ready_ok_mono k k' rc : at_most k k' -> ready_ok k rc -> ready_ok k' rc.
Proof. intros [Hu Hc] [Hid [H|[? H]]]; split; [done|left; set_solver|done|right; set_solver]. Qed.

Lemma read_content_keeps now ready row :
  keeps (read_content to_rfc3339 now ready row) (fun ready' =>
    ready' = ready \/ exists c, ready' = ready ++ [(row, c)] /\ ic_id c = comment_id row).
Proof.
  unfold read_content. eapply keeps_bind; [apply keeps_ask|]. intros [w|] Hw.
  - apply keeps_done. right. eexists. split; [done|]. cbn. by apply Hw.
  - eapply keeps_bind; [apply keeps_ask|]. intros [c|e] Hc.
    + apply keeps_done. right. eexists. split; [done|]. by apply Hc.
    + eapply keeps_bind with (P := fun _ => True).
      * walk; by (apply finish_all_keeps || apply retry_or_fail_keeps).
      * intros _ _. apply keeps_done. by left.
Qed.

Lemma learn_clear k c ts :
  first_launched ts = None -> first_uncertain ts = None -> c ∈ clear (learn k c ts).
Proof.
  intros Hl%head_None Hu%head_None. unfold learn. cbn.
  assert (forall (f : MarkedTurn -> bool), filter (fun t => f t = true) ts = [] ->
    forallb (fun t => negb (f t)) ts = true) as Hf.
  { intros f Hf. apply forallb_forall. intros t Ht%list_elem_of_In.
    destruct (f t) eqn:E; [|done]. assert (t ∈ filter (fun t => f t = true) ts) as Hin
      by by apply list_elem_of_filter. rewrite Hf in Hin. by apply elem_of_nil in Hin. }
  rewrite (Hf launched), (Hf uncertain) by done. set_solver.
Qed.

Lemma learn_unlaunched k c ts : first_launched ts = None -> c ∈ unlaunched (learn k c ts).
Proof.
  intros Hl%head_None. unfold learn. cbn. rewrite (proj2 (forallb_forall _ _)); [set_solver|].
  intros t Ht%list_elem_of_In. destruct (launched t) eqn:E; [|done].
  assert (t ∈ filter (fun t => launched t = true) ts) as Hin by by apply list_elem_of_filter.
  rewrite Hl in Hin. by apply elem_of_nil in Hin.
Qed.

Definition readied (s : Uuid) (k : known) (ready : list ready_row) (h : option Uuid) (k' : known)
    : Prop := h = Some s /\ Forall (ready_ok k') ready.

Lemma examine_safe session now ready row k :
  Forall (ready_ok k) ready ->
  safe (examine to_rfc3339 session now ready row) (Some (ses_id session)) k
    (readied (ses_id session) k).
Proof.
  intros Hready. unfold examine, earlier_attempt. apply safe_bind. cbn [bind call safe pre].
  intros ts. rewrite bool_decide_true by done. set (k1 := learn k _ ts).
  assert (at_most k k1) as Hk by apply learn_at_most.
  assert (forall k', at_most k1 k' -> Forall (ready_ok k') ready) as Hold.
  { intros k' Hk'. eapply Forall_impl; [exact Hready|]. intros rc.
    apply ready_ok_mono. by etrans. }
  assert (comment_id row ∈ clear k1 \/
    (allow_stopped_target row = true /\ comment_id row ∈ unlaunched k1) ->
    safe (read_content to_rfc3339 now ready row) (Some (ses_id session)) k1
      (readied (ses_id session) k)) as Hread.
  { intros Hrow. eapply safe_mono; [|apply read_content_keeps].
    intros ready' h' k' (-> & Hk' & Hr). split; [done|].
    destruct Hr as [->|(c & -> & Hc)]; [by apply Hold|].
    apply Forall_app. split; [by apply Hold|]. apply Forall_singleton.
    apply (ready_ok_mono k1); [done|]. split; [done|]. exact Hrow. }
  destruct (first_launched ts) as [t|] eqn:Hl; [|destruct (first_uncertain ts) as [t|] eqn:Hu].
  - cbn. split; [done|]. intros _. split; [done|]. by apply Hold.
  - destruct (allow_stopped_target row) eqn:Ha.
    + apply Hread. right. split; [done|]. by apply learn_unlaunched.
    + apply safe_bind. eapply safe_mono; [|apply fail_uncertain_keeps].
      intros _ h' k' (-> & Hk' & _). split; [done|]. by apply Hold.
  - apply Hread. left. by apply learn_clear.
Qed.

Lemma examine_all_safe session now claimed ready k :
  Forall (ready_ok k) ready ->
  safe (fold_task (examine to_rfc3339 session now) claimed ready) (Some (ses_id session)) k
    (readied (ses_id session) k).
Proof.
  revert ready k. induction claimed as [|row claimed IH]; intros ready k Hready; [done|].
  cbn [fold_task]. apply safe_bind. eapply safe_mono; [|by apply examine_safe].
  intros ready' h' k' [-> Hr']. eapply safe_mono; [|by apply IH]. done.
Qed.

Lemma wakeup_prompt_found ready rc s :
  rc ∈ ready ->
  contains (stored_marker_needle (ic_id rc.2)) (stored_action s (wakeup_prompt ready)) = true.
Proof.
  intros Hrc. unfold wakeup_prompt.
  set (part := fun rc : ready_row => _).
  assert (exists a b, join (nl +:+ nl) (part <$> ready) = a +:+ part rc +:+ b) as (a & b & ->).
  { clear -Hrc. induction ready as [|x ready IH]; [by apply elem_of_nil in Hrc|].
    rewrite fmap_cons. apply elem_of_cons in Hrc as [<-|Hrc].
    - destruct (part <$> ready) as [|y ys] eqn:E.
      + exists "", "". cbn [join]. by rewrite sapp_nil_l, sapp_nil_r.
      + exists "". cbn [join]. eexists. by rewrite sapp_nil_l.
    - destruct (IH Hrc) as (a & b & Hj).
      destruct (part <$> ready) as [|y ys] eqn:E.
      { apply fmap_nil_inv in E as ->. by apply elem_of_nil in Hrc. }
      exists (part x +:+ (nl +:+ nl) +:+ a), b. cbn [join] in *. rewrite Hj.
      by rewrite !sapp_assoc. }
  subst part. cbn beta zeta.
  eapply (marker_found s _ _ (a +:+ join nl _) b). rewrite !sapp_assoc. reflexivity.
Qed.

Lemma issue_prompt_found info names ready rc s :
  rc ∈ ready ->
  contains (stored_marker_needle (ic_id rc.2)) (stored_action s (issue_prompt info names ready))
  = true.
Proof.
  intros Hrc. unfold issue_prompt.
  apply (delivered_is_found s _ _ {| dc_comment_id := ic_id rc.2;
    author_name := ic_author_id rc.2 ≫= (names !!.); dc_created_at := ic_created_at rc.2;
    message := ic_message rc.2 |}).
  apply list_elem_of_fmap. eauto.
Qed.

Lemma compose_keeps session ready i :
  keeps (compose session ready i) (fun p => forall prompt, p = Some prompt ->
    forall rc s, rc ∈ ready ->
    contains (stored_marker_needle (ic_id rc.2)) (stored_action s prompt) = true).
Proof.
  unfold compose. case_bool_decide.
  { apply keeps_done. intros p [= <-] rc s. apply wakeup_prompt_found. }
  eapply keeps_bind; [apply keeps_ask|]. intros info _.
  eapply keeps_bind; [apply keeps_ask|]. intros link _.
  assert (forall e, keeps (for_each ready.*1 (fun row => retry_or_fail row RemoteUnavailable e))
    (fun _ => True)) as Hretry.
  { intros e. apply keeps_for_each. intros. apply retry_or_fail_keeps. }
  destruct info as [info|e]; [destruct link as [link|e]|].
  - case_match.
    { eapply keeps_bind; [by apply finish_all_keeps|]. intros _ _. by apply keeps_done. }
    destruct link as [l|].
    + case_match; [case_match|].
      2: { eapply keeps_bind; [apply keeps_ask|]. intros names _. apply keeps_done.
           intros p [= <-] rc s. apply issue_prompt_found. }
      all: eapply keeps_bind; [by apply finish_all_keeps|]; intros _ _; by apply keeps_done.
    + eapply keeps_bind; [by apply finish_all_keeps|]. intros _ _. by apply keeps_done.
  - eapply keeps_bind; [apply Hretry|]. intros _ _. by apply keeps_done.
  - eapply keeps_bind; [apply Hretry|]. intros _ _. by apply keeps_done.
Qed.

Lemma deliver_claimed_safe session claimed k :
  safe (deliver_claimed to_rfc3339 session claimed) (Some (ses_id session)) k
    (fun _ h _ => h = Some (ses_id session)).
Proof.
  unfold deliver_claimed. apply safe_bind. eapply safe_mono; [|apply (keeps_ask UtcNow)].
  intros now h1 k1 (-> & _ & _). apply safe_bind.
  eapply safe_mono; [|by apply (examine_all_safe session now claimed [])].
  intros ready h2 k2 [-> Hready]. destruct ready as [|first ready']; [done|].
  set (ready := first :: ready') in *. apply safe_bind.
  eapply safe_mono; [|apply compose_keeps]. intros [prompt|] h3 k3 (-> & Hk3 & Hp); [|done].
  apply safe_bind. eapply safe_mono with (P := fun _ h' k' => h' = Some (ses_id session) /\ at_most k3 k').
  2: { eapply safe_mono; [|apply (keeps_for_each ready)]; [|].
       - intros _ h' k' (-> & Hk' & _). done.
       - intros rc _. walk. }
  intros _ h4 k4 [-> Hk4]. cbn [bind call safe pre]. split; [done|]. split.
  { rewrite Forall_fmap. apply Forall_forall. intros rc Hrc. cbn.
    rewrite Forall_forall in Hready. destruct (Hready rc Hrc) as [Hid Hfacts].
    split; [rewrite <-Hid; cbn; by apply (Hp prompt eq_refl)|]. cbn.
    destruct Hk3, Hk4. destruct Hfacts as [Hc|[Ha Hu]]; [left; set_solver|right].
    split; [done|set_solver]. }
  intros [execution|err].
  - eapply safe_mono; [|eapply keeps_bind; [apply (keeps_ask UtcNow)|]].
    + intros u h5 k5 (-> & _ & Hu). exact eq_refl.
    + intros now' _. apply keeps_for_each. intros. walk.
  - eapply safe_mono; [|apply keeps_for_each; intros; apply classify_failure_keeps].
    intros u h5 k5 (-> & _). done.
Qed.

Lemma keeps_held {A} (t : Task A) s k P (Q : A -> option Uuid -> known -> Prop) :
  keeps t P -> (forall a k', P a -> Q a (Some s) k') -> safe t (Some s) k Q.
Proof. intros Ht Hq. eapply safe_mono; [|apply Ht]. intros a h' k' (-> & _ & Ha). by apply Hq. Qed.

Lemma held_bind {A B} (t : Task A) (f : A -> Task B) s k P Q :
  keeps t P -> (forall a k', P a -> safe (f a) (Some s) k' Q) -> safe (bind t f) (Some s) k Q.
Proof. intros Ht Hf. apply safe_bind. by eapply keeps_held. Qed.

Lemma dispatch_at_boundary_safe session due i now k :
  safe (dispatch_at_boundary to_rfc3339 session due i now) (Some (ses_id session)) k
    (fun _ h _ => h = Some (ses_id session)).
Proof.
  unfold dispatch_at_boundary. eapply held_bind; [apply keeps_ask|]. intros latest k1 _.
  destruct latest as [[[turn st] at_]|].
  2: { eapply keeps_held; [apply finish_due_keeps|done]. }
  eapply held_bind; [apply (keeps_fold _ (fun _ => True)); [done|]|].
  { intros b x _ _. unfold is_own_attempt. case_match; [by apply keeps_done|].
    eapply keeps_bind; [apply keeps_turns|]. intros ts _. by apply keeps_done. }
  intros own k2 _. eapply held_bind with (P := fun _ => True).
  { destruct own; [by apply keeps_done|apply boundary_confirmed_keeps]. }
  intros confirmed k3 _. case_match; [done|].
  eapply held_bind; [apply (keeps_fold _ (fun _ => True)); [done|]|].
  { intros b x _ _. unfold claim_row. case_match.
    - eapply keeps_bind; [by apply keeps_write|]. intros _ _. by apply keeps_done.
    - eapply keeps_bind; [by apply keeps_write|]. intros won _. by apply keeps_done. }
  intros claimed k4 _. destruct claimed; [done|]. apply deliver_claimed_safe.
Qed.

Lemma dispatch_locked_safe s k :
  safe (dispatch_locked to_rfc3339 s) (Some s) k (fun _ h _ => h = Some s).
Proof.
  unfold dispatch_locked. eapply held_bind; [apply keeps_ask|]. intros now k1 _.
  eapply held_bind; [apply keeps_read|]. intros rows k2 _.
  eapply held_bind; [apply (keeps_fold _ (fun _ => True)); [done|]|].
  { intros b x _ _. unfold eligible_row. eapply keeps_bind; [apply keeps_ask|].
    intros w _. walk. }
  intros due k3 _. destruct due as [|first due]; [done|].
  eapply held_bind; [apply keeps_ask|]. intros session k4 Hs.
  eapply held_bind with (P := fun _ => True).
  { destruct session; [eapply keeps_mono; [|apply keeps_ask]; done|by apply keeps_done]. }
  intros workspace k5 _.
  destruct session as [session|]; [destruct workspace as [workspace|]|].
  2-3: eapply keeps_held; [apply finish_due_keeps|done].
  pose proof (Hs session eq_refl) as <-. case_match.
  { eapply keeps_held; [apply finish_due_keeps|done]. }
  eapply held_bind; [apply busy_reason_keeps|]. intros [why|] k6 _.
  - eapply keeps_held with (P := fun _ => True); [|done]. apply keeps_for_each. intros row _. walk.
  - apply dispatch_at_boundary_safe.
Qed.

Lemma dispatch_session_free s : free (dispatch_session to_rfc3339 s) (fun _ => True).
Proof.
  intros k. unfold dispatch_session. apply safe_bind. cbn [bind call safe pre]. split; [done|].
  apply safe_bind. eapply safe_mono; [|apply dispatch_locked_safe].
  intros u h k' ->. cbn. done.
Qed.

(** *** Requests *)

Lemma dispatch_if_pending_free r : free (dispatch_if_pending to_rfc3339 r) (fun _ => True).
Proof.
  unfold dispatch_if_pending. repeat case_match; try (by apply keeps_free, keeps_done).
  apply dispatch_session_free.
Qed.

Lemma read_back_keeps i : keeps (read_back i) (fun _ => True).
Proof. unfold read_back. eapply keeps_bind; [apply keeps_read|]. intros. by apply keeps_done. Qed.

Lemma request_again_free row target : free (request_again to_rfc3339 row target) (fun _ => True).
Proof.
  unfold request_again. case_match; [by apply keeps_free, keeps_done|].
  eapply free_bind; [apply keeps_free, resolve_keeps|]. intros r Hr.
  eapply free_bind; [apply keeps_free, keeps_ask|]. intros now _.
  eapply free_bind; [by apply keeps_free, keeps_write|]. intros applied _.
  eapply free_bind with (P := fun _ => True).
  { destruct applied; [apply dispatch_if_pending_free|by apply keeps_free, keeps_done]. }
  intros _ _. apply keeps_free, read_back_keeps.
Qed.

Lemma insert_and_dispatch_free n r :
  res_ok r -> free (insert_and_dispatch to_rfc3339 n r) (fun _ => True).
Proof.
  intros Hr. unfold insert_and_dispatch.
  eapply free_bind; [apply keeps_free, keeps_ask|]. intros now _.
  eapply free_bind; [apply keeps_free, keeps_ask|]. intros fresh _.
  eapply free_bind; [by apply keeps_free, keeps_write|]. intros created _.
  eapply free_bind; [apply keeps_free, keeps_read|]. intros [row|] _.
  - eapply free_bind with (P := fun _ => True).
    { destruct created; [apply dispatch_if_pending_free|by apply keeps_free, keeps_done]. }
    intros _ _. apply keeps_free, read_back_keeps.
  - by apply keeps_free, keeps_done.
Qed.

Lemma request_free rq : free (request to_rfc3339 rq) (fun _ => True).
Proof.
  unfold request. eapply free_bind; [apply keeps_free, keeps_ask|]. intros [c|e] _.
  2: by apply keeps_free, keeps_done.
  case_match; [by apply keeps_free, keeps_done|].
  eapply free_bind; [apply keeps_free, keeps_read|]. intros [row|] _; [apply request_again_free|].
  eapply free_bind with (P := fun _ => True).
  { apply keeps_free. unfold origin_session. walk. }
  intros origin _. eapply free_bind; [apply keeps_free, resolve_keeps|]. intros r Hr.
  by apply insert_and_dispatch_free.
Qed.

Lemma create_comment_free rq : free (create_comment to_rfc3339 rq) (fun _ => True).
Proof.
  unfold create_comment. case_match; [by apply keeps_free, keeps_done|].
  eapply free_bind with (P := fun _ => True).
  { apply keeps_free. destruct (cr_comment_id rq); [by apply keeps_done|].
    eapply keeps_mono; [|apply keeps_ask]. done. }
  intros c _. eapply free_bind with (P := fun _ => True).
  { apply keeps_free. unfold save_comment. walk. }
  intros [saved|e] _; [|by apply keeps_free, keeps_done].
  eapply free_bind with (P := fun _ => True).
  { destruct (intent rq); [by apply keeps_free, keeps_done|].
    eapply free_bind; [apply request_free|]. intros d _. by apply keeps_free, keeps_done. }
  intros [d|e] _; [|by apply keeps_free, keeps_done]. apply keeps_free. walk.
Qed.

Lemma pinned_ok r hop : res_ok r -> res_ok (pinned r hop).
Proof.
  intros [Hs _]. unfold pinned, res_ok. cbn. case_bool_decide; cbn; [|by auto].
  split; [done|]. right. lia.
Qed.

Lemma subtask_result_free i session c text hop :
  free (subtask_result to_rfc3339 i session c text hop) (fun _ => True).
Proof.
  unfold subtask_result. eapply free_bind; [apply create_comment_free|].
  intros [[[saved info] d]|e] _; [|by apply keeps_free, keeps_done].
  eapply free_bind; [apply keeps_free, keeps_read|].
  intros [row|] _; [by apply keeps_free, keeps_done|].
  eapply free_bind; [apply keeps_free, resolve_keeps|]. intros r Hr.
  case_match; [by apply keeps_free, keeps_done|].
  by apply insert_and_dispatch_free, pinned_ok.
Qed.

Lemma sweep_free : free (sweep to_rfc3339 parse_rfc3339) (fun _ => True).
Proof.
  unfold sweep. eapply free_bind; [apply keeps_free, reconcile_keeps|]. intros _ _.
  eapply free_bind; [apply keeps_free, keeps_ask|]. intros now _.
  eapply free_bind; [apply keeps_free, keeps_read|]. intros sessions _.
  apply free_for_each. intros s _. apply dispatch_session_free.
Qed.

Lemma then_done_free {A} (t : Task A) :
  free t (fun _ => True) -> free (let! _ := t in Done tt) (fun _ => True).
Proof.
  intros Ht. eapply free_bind; [exact Ht|]. intros _ _. by apply keeps_free, keeps_done.
Qed.

Lemma entry_free t : entry to_rfc3339 parse_rfc3339 t -> free t (fun _ => True).
Proof.
  intros [rq|rq|i s c text hop|s|i|i|s| |]; try apply then_done_free.
  - apply request_free.
  - apply create_comment_free.
  - apply subtask_result_free.
  - apply keeps_free. unfold next_subtask_hop.
    eapply keeps_bind; [apply origin_hop_keeps|]. intros. by apply keeps_done.
  - apply keeps_free. unfold agent_targets.
    eapply keeps_bind; [apply resolve_candidates_keeps|]. intros. walk.
  - apply keeps_free. unfold issue_comments.
    eapply keeps_bind; [apply keeps_ask|]. intros [cs|e] _; [|by apply keeps_done].
    eapply keeps_bind; [apply keeps_read|]. intros ds _.
    eapply keeps_bind; [apply keeps_ask|]. intros info _.
    eapply keeps_bind with (P := fun _ => True).
    { case_match; [eapply keeps_mono; [|apply keeps_ask]; done|by apply keeps_done]. }
    intros names _. walk.
  - apply dispatch_session_free.
  - apply keeps_free, recover_keeps.
  - apply sweep_free.
Qed.
End Protocol.
End Protocol.

(** ** Every reachable state *)

Module Delivery.
Import LedgerFacts Logic Protocol.
Section Delivery.
Context `{Htext : !CommentText} `{Hlaws : !CommentTextLaws}.
Context `{Hstored : !StoredAction} `{Hjson : !StoredActionLaws}.
Context (to_rfc3339 : DateTime -> string) (parse_rfc3339 : string -> option DateTime).

(** What a task knows is true of the turns of the session. *)
Definition facts (k : known) (es : list Exec) (s : Uuid) : Prop :=
  forall e c b, e ∈ es -> e_session e = s -> (c, b) ∈ e_batch e ->
  (c ∈ unlaunched k -> e_launched e = true -> e_uncertain e = true) /\
  (c ∈ clear k -> e_launched e = false /\ e_uncertain e = false).

Definition found (es : list Exec) : Prop :=
  forall e c b, e ∈ es -> (c, b) ∈ e_batch e ->
  contains (stored_marker_needle c) (e_action e) = true.

(** Of two turns in a session with a comment in common, the earlier one either shows no
    sign of a launch, or a worker has it and the later one was consented to. *)
Definition ordered (es : list Exec) : Prop :=
  forall (i j : nat) e1 e2 c b b', (i < j)%nat -> es !! i = Some e1 -> es !! j = Some e2 ->
  e_session e1 = e_session e2 -> (c, b) ∈ e_batch e1 -> (c, b') ∈ e_batch e2 ->
  (e_launched e1 = false /\ e_uncertain e1 = false) \/
  (b' = true /\ (e_launched e1 = true -> e_uncertain e1 = true)).

Definition holds (ls : gmap Uuid nat) (es : list Exec) (me : nat) (t : Task unit) : Prop :=
  exists h k, safe t h k (fun _ h' _ => h' = None) /\
    (forall x, ls !! x = Some me <-> h = Some x) /\
    (forall x, h = Some x -> facts k es x).

Definition shared_ok (s : Sys) : Prop := good (db s) /\ found (execs s) /\ ordered (execs s).

Definition inv (s : Sys) : Prop :=
  shared_ok s /\ forall me t, tasks s me = Some t -> holds (locks s) (execs s) me t.

Lemma facts_nothing es s : facts nothing es s.
Proof. intros e c b _ _ _. by split; intros ?%elem_of_empty. Qed.

Lemma facts_learn k es s c :
  found es -> facts k es s -> facts (learn k c (marked_turns es s c)) es s.
Proof.
  intros Hf Hk e d b He Hs Hd. destruct (Hk e d b He Hs Hd) as [Hu Hc].
  assert (d = c -> {| turn_id := e_id e; turn_status := e_status e; launched := e_launched e;
    uncertain := e_uncertain e |} ∈ marked_turns es s c) as Hin.
  { intros ->. unfold marked_turns. apply list_elem_of_fmap. exists e. split; [done|].
    apply list_elem_of_filter. split; [|done]. split; [done|]. by eapply Hf. }
  assert (forall f : MarkedTurn -> bool, forallb (fun t => negb (f t)) (marked_turns es s c) = true ->
    d = c -> f {| turn_id := e_id e; turn_status := e_status e; launched := e_launched e;
      uncertain := e_uncertain e |} = false) as Hnone.
  { intros f Hall Heq. apply negb_true_iff. rewrite forallb_forall in Hall.
    apply (Hall _), list_elem_of_In, Hin, Heq. }
  unfold learn. cbn. split.
  - case_match eqn:Hq; [|done]. intros [Heq%elem_of_singleton|?]%elem_of_union; [|by apply Hu].
    pose proof (Hnone launched Hq Heq) as Hl. cbn in Hl. congruence.
  - case_match eqn:Hq; [|done]. apply andb_true_iff in Hq as [Hq Hi].
    intros [Heq%elem_of_singleton|?]%elem_of_union; [|by apply Hc].
    split; [exact (Hnone launched Hq Heq)|exact (Hnone uncertain Hi Heq)].
Qed.

Lemma facts_other k es s e x : e_session e = s -> x <> s -> facts k es x -> facts k (es ++ [e]) x.
Proof.
  intros He Hx Hk f c b [Hf|Hf%list_elem_of_singleton]%elem_of_app Hs; [by apply Hk|congruence].
Qed.

Lemma found_app es e : found es -> (forall c b, (c, b) ∈ e_batch e ->
  contains (stored_marker_needle c) (e_action e) = true) -> found (es ++ [e]).
Proof.
  intros Hf He f c b [Hin|Hin%list_elem_of_singleton]%elem_of_app; [by apply Hf|].
  subst f. apply He.
Qed.

Lemma ordered_app es e :
  ordered es ->
  (forall e1 c b b', e1 ∈ es -> e_session e1 = e_session e -> (c, b) ∈ e_batch e1 ->
     (c, b') ∈ e_batch e ->
     (e_launched e1 = false /\ e_uncertain e1 = false) \/
     (b' = true /\ (e_launched e1 = true -> e_uncertain e1 = true))) ->
  ordered (es ++ [e]).
Proof.
  intros Ho He i j e1 e2 c b b' Hij H1 H2.
  assert (j < length (es ++ [e]))%nat as Hj by by eapply lookup_lt_Some.
  rewrite length_app in Hj. cbn in Hj. rewrite lookup_app_l in H1 by lia.
  apply lookup_app_Some in H2 as [H2|[_ H2]]; [by apply (Ho i j e1 e2 c b b')|].
  apply list_lookup_singleton_Some in H2 as [_ <-]. intros Hs Hb Hb'.
  apply (He e1 c b b'); [by eapply list_elem_of_lookup_2|done..].
Qed.

(** Starting a turn that is [sendable] keeps the order. *)
Lemma started_ok k es s prompt batch e :
  found es -> ordered es -> facts k es s -> Forall (sendable k s prompt) batch ->
  started s prompt batch e -> found (es ++ [e]) /\ ordered (es ++ [e]).
Proof.
  intros Hf Ho Hk Hb (Hs & Ha & He). rewrite Forall_forall in Hb. split.
  - apply found_app; [done|]. intros c b Hc. rewrite He in Hc. rewrite Ha.
    by destruct (Hb (c, b) Hc).
  - apply ordered_app; [done|]. intros e1 c b b' H1 Hs1 Hc Hc'. rewrite He in Hc'.
    rewrite Hs in Hs1. destruct (Hk e1 c b H1 Hs1 Hc) as [Hu Hcl].
    destruct (Hb (c, b') Hc') as [_ [Hcc|[Hb' Hcu]]]; cbn in *; [left|right]; auto.
Qed.

Lemma holds_other ls es s me e n t :
  ls !! s = Some me -> n <> me -> e_session e = s ->
  holds ls es n t -> holds ls (es ++ [e]) n t.
Proof.
  intros Hme Hn He (h & k & Ht & Hl & Hk). exists h, k. split_and!; [done|done|].
  intros x Hx. eapply facts_other; [exact He| |by apply Hk]. intros ->.
  apply Hl in Hx. congruence.
Qed.

Lemma holds_started ls es me e t h :
  (forall x, ls !! x = Some me <-> h = Some x) ->
  safe t h nothing (fun _ h' _ => h' = None) -> holds ls (es ++ [e]) me t.
Proof. intros Hl Ht. exists h, nothing. split_and!; [done|done|]. intros. apply facts_nothing. Qed.

(** One operation. *)
Lemma op_inv s me {R : Set} (o : op R) c r s' :
  shared_ok s -> holds (locks s) (execs s) me (Call o c) -> exec_op s me o r s' ->
  shared_ok s' /\ holds (locks s') (execs s') me (c r) /\
  (forall n t, n <> me -> holds (locks s) (execs s) n t -> holds (locks s') (execs s') n t) /\
  tasks s' = tasks s.
Proof.
  intros Hok (h & k & Hsafe & Hl & Hk). pose proof Hok as (Hg & Hf & Ho).
  destruct o as [R q|R f|w|session comment|session prompt batch|session|session];
    cbn [safe pre] in Hsafe; cbn [exec_op].
  - intros [Hr ->]. split_and!; [done| |done|done]. exists h, k. split_and!; [by apply Hsafe|done..].
  - intros [-> ->]. split_and!; [done| |done|done]. exists h, k. split_and!; [by apply Hsafe|done..].
  - destruct Hsafe as [Hw Hsafe]. intros (d & He & ->). split_and!; [|..|done|done].
    + split_and!; [|done..]. by eapply statement_good.
    + exists h, k. split_and!; [by apply Hsafe|done..].
  - intros [-> ->]. split_and!; [done| |done|done]. eexists h, _. split_and!; [apply Hsafe|done|].
    intros x Hx. case_bool_decide as Hs; [|by apply Hk]. simplify_eq. by apply facts_learn, Hk.
  - destruct Hsafe as (-> & Hb & Hsafe). specialize (Hk session eq_refl).
    assert (locks s !! session = Some me) as Hme by by apply Hl.
    intros [(e & He & -> & ->)|(err & es & Hes & Hlen & -> & ->)].
    + destruct (started_ok _ _ _ _ _ _ Hf Ho Hk Hb He) as [Hf' Ho'].
      split_and!; [done| | |done].
      * by eapply holds_started.
      * intros n t Hn. eapply holds_other; [done..|]. apply He.
    + destruct es as [|e [|]]; cbn in Hlen; [|rewrite Forall_singleton in Hes|lia].
      * rewrite app_nil_r. split_and!; [done| |done|done].
        exists (Some session), nothing. split_and!; [by apply Hsafe|done|]. intros. apply facts_nothing.
      * destruct (started_ok _ _ _ _ _ _ Hf Ho Hk Hb Hes) as [Hf' Ho'].
        split_and!; [done| | |done].
        -- by eapply holds_started.
        -- intros n t Hn. eapply holds_other; [done..|]. apply Hes.
  - destruct Hsafe as [-> Hsafe]. intros [Hfree ->]. split_and!; [done|..|done]; cbn.
    + exists (Some session), nothing. destruct r. split_and!; [done| |intros; apply facts_nothing].
      intros x. rewrite lookup_insert_Some, Hl. naive_solver.
    + intros n t Hn (h & k' & Ht & Hl' & Hk'). exists h, k'. split_and!; [done| |done].
      intros x. rewrite <-Hl', lookup_insert_Some. naive_solver.
  - destruct Hsafe as [-> Hsafe]. intros ->. split_and!; [done|..|done]; cbn.
    + exists None, nothing. destruct r. split_and!; [done| |done].
      intros x. rewrite lookup_delete_Some, Hl. naive_solver.
    + intros n t Hn (h & k' & Ht & Hl' & Hk'). exists h, k'. split_and!; [done| |done].
      intros x. rewrite <-Hl', lookup_delete_Some. split; [by intros []|].
      intros Hx. split; [|done]. intros <-.
      assert (locks s !! session = Some me) by by apply Hl. congruence.
Qed.

Lemma holds_drop ls es me n t :
  n <> me -> holds ls es n t -> holds (filter (fun kv => kv.2 <> me) ls) es n t.
Proof.
  intros Hn (h & k & Ht & Hl & Hk). exists h, k. split_and!; [done| |done].
  intros x. rewrite map_lookup_filter_Some, Hl. cbn. naive_solver.
Qed.

Lemma holds_evolve ls es es' me t :
  Forall2 evolves es es' -> holds ls es me t -> holds ls es' me t.
Proof.
  intros Hev (h & k & Ht & Hl & Hk). exists h, k. split_and!; [done|done|].
  intros x Hx e' c b He' Hs Hb. apply list_elem_of_lookup in He' as [i Hi].
  destruct (Forall2_lookup_r _ _ _ _ _ Hev Hi) as (e & He & Hv).
  destruct Hv as (_ & Hse & _ & Hba & Hun & _ & Hla). rewrite Hse in Hs. rewrite Hba in Hb.
  destruct (Hk x Hx e c b ltac:(by eapply list_elem_of_lookup_2) Hs Hb) as [Hu Hc].
  rewrite Hun. split.
  - intros Hcu [Hl1|Hl1]%Hla; auto.
  - intros [H1 H2]%Hc. split; [|done]. destruct (e_launched e') eqn:E; [|done].
    destruct Hla; congruence.
Qed.

Lemma shared_evolve s es :
  Forall2 evolves (execs s) es -> shared_ok s -> shared_ok (with_execs s es).
Proof.
  intros Hev (Hg & Hf & Ho). split_and!; [done|..]; cbn.
  - intros e' c b [i Hi]%list_elem_of_lookup Hb.
    destruct (Forall2_lookup_r _ _ _ _ _ Hev Hi) as (e & He & _ & _ & Ha & Hba & _).
    rewrite Ha. rewrite Hba in Hb. eapply Hf; [|done]. by eapply list_elem_of_lookup_2.
  - intros i j e1' e2' c b b' Hij H1 H2 Hs Hb Hb'.
    destruct (Forall2_lookup_r _ _ _ _ _ Hev H1) as (e1 & He1 & _ & Hs1 & _ & Hb1 & Hu1 & _ & Hl1).
    destruct (Forall2_lookup_r _ _ _ _ _ Hev H2) as (e2 & He2 & _ & Hs2 & _ & Hb2 & _).
    rewrite Hs1, Hs2 in Hs. rewrite Hb1 in Hb. rewrite Hb2 in Hb'. rewrite Hu1.
    destruct (Ho i j e1 e2 c b b' Hij He1 He2 Hs Hb Hb') as [[Hl Hu]|[-> Hlu]]; [left|right].
    + split; [|done]. destruct (e_launched e1') eqn:E; [|done]. destruct Hl1; congruence.
    + split; [done|]. intros Hx. apply Hl1 in Hx as [Hx|Hx]; auto.
Qed.

(** Executions that are deleted. *)
Lemma filter_order {A} (P : A -> Prop) `{!forall x, Decision (P x)} (l : list A) :
  forall (i j : nat) a b, (i < j)%nat -> filter P l !! i = Some a -> filter P l !! j = Some b ->
  exists i' j', (i' < j')%nat /\ l !! i' = Some a /\ l !! j' = Some b.
Proof.
  induction l as [|x l IH]; intros i j a b Hij Ha Hb; [by destruct i|].
  rewrite filter_cons in Ha, Hb. case_decide.
  - destruct j as [|j]; [lia|]. destruct i as [|i].
    + injection Ha as <-. cbn in Hb. apply list_elem_of_lookup_2 in Hb.
      apply list_elem_of_filter in Hb as [_ [j' Hj]%list_elem_of_lookup]. exists 0%nat, (S j').
      split_and!; [lia|done|done].
    + destruct (IH i j a b) as (i' & j' & ? & ? & ?); [lia|done|done|]. exists (S i'), (S j').
      split_and!; [lia|done|done].
  - destruct (IH i j a b Hij Ha Hb) as (i' & j' & ? & ? & ?). exists (S i'), (S j'). split_and!; [lia|done|done].
Qed.

Lemma holds_filter ls es (P : Exec -> Prop) `{!forall x, Decision (P x)} me t :
  holds ls es me t -> holds ls (filter P es) me t.
Proof.
  intros (h & k & Ht & Hl & Hk). exists h, k. split_and!; [done|done|].
  intros x Hx e c b [_ He]%list_elem_of_filter. by apply (Hk x Hx).
Qed.

Lemma shared_delete s x :
  shared_ok s -> shared_ok (with_execs (with_db s (delete_from x (db s))) (filter (survives x) (execs s))).
Proof.
  intros (Hg & Hf & Ho). split_and!; cbn.
  - by apply forget_good.
  - intros e c b [_ He]%list_elem_of_filter. by apply Hf.
  - intros i j e1 e2 c b b' Hij H1 H2. destruct (filter_order _ _ _ _ _ _ Hij H1 H2) as (i' & j' & ? & ? & ?).
    by eapply Ho.
Qed.

Abbreviation step := (Machine.step to_rfc3339 parse_rfc3339).
Abbreviation reachable := (Machine.reachable to_rfc3339 parse_rfc3339).

Lemma inv_start : inv start.
Proof.
  split; [|done]. split_and!; [split; [split|]|..]; cbn.
  - apply well_formed_empty.
  - intros i w. by rewrite lookup_empty.
  - apply map_Forall_empty.
  - by intros e c b ?%elem_of_nil.
  - intros i j e1 e2 c b b' _ H. by rewrite lookup_nil in H.
Qed.

Lemma inv_step s s' : inv s -> step s s' -> inv s'.
Proof.
  intros [Hok Ht] Hstep.
  destruct Hstep as [s me R o c r s' Hme Hop|s me|s me session prompt batch c e Hme He
    |s me t Hme Hlock Hentry|s es Hev|s e He|s eligible w d b Hins|s i why now|s x].
  - destruct (op_inv s me o c r s' Hok (Ht _ _ Hme) Hop) as (Hok' & Hnew & Hold & Htasks).
    split; [done|]. cbn. intros n t. unfold set_task. case_decide as Hn.
    + intros [= <-]. by subst.
    + intros Hin. apply Hold; [done|]. by apply Ht.
  - split; [done|]. cbn. intros n t. unfold set_task. case_decide; [done|].
    intros Hn. by apply holds_drop, Ht.
  - destruct (Ht _ _ Hme) as (h & k & Hsafe & Hl & Hk). cbn in Hsafe.
    destruct Hsafe as (-> & Hb & _). destruct Hok as (Hg & Hf & Ho).
    destruct (started_ok _ _ _ _ _ _ Hf Ho (Hk session eq_refl) Hb He) as [Hf' Ho'].
    split; [done|]. cbn. intros n t. unfold set_task. case_decide; [done|].
    intros Hn. apply holds_drop; [done|].
    eapply (holds_other _ _ session me); [by apply Hl|done|apply He|by apply Ht].
  - split; [done|]. cbn. intros n t'. unfold set_task. case_decide as Hn; [|apply Ht].
    intros [= <-]. subst n. exists None, nothing.
    split_and!; [|by split; [intros ?%Hlock|]|done].
    eapply safe_mono; [|by apply (entry_free to_rfc3339 parse_rfc3339)]. by intros u h' k' [-> _].
  - split; [by apply shared_evolve|]. intros n t Hn. eapply holds_evolve; [done|]. by apply Ht.
  - destruct Hok as (Hg & Hf & Ho). split; [split_and!; [done|..]|]; cbn.
    + apply found_app; [done|]. intros c b. rewrite He. by intros ?%elem_of_nil.
    + apply ordered_app; [done|]. intros e1 c b b' _ _ _. rewrite He. by intros ?%elem_of_nil.
    + intros n t Hn. destruct (Ht _ _ Hn) as (h & k & Hs & Hl & Hk). exists h, k.
      split_and!; [done|done|]. intros x Hx f c b [Hin|Hin%list_elem_of_singleton]%elem_of_app Hfs.
      * by apply (Hk x Hx).
      * subst f. rewrite He. by intros ?%elem_of_nil.
  - destruct Hok as (Hg & Hf & Ho). split; [|done]. split_and!; [|done..].
    by eapply schedule_good.
  - destruct Hok as (Hg & Hf & Ho). split; [|done]. split_and!; [|done..]. by apply cancel_good.
  - split; [by apply shared_delete|]. intros n t Hn. by apply holds_filter, Ht.
Qed.

Lemma inv_reachable s : reachable s -> inv s.
Proof.
  unfold Machine.reachable. generalize inv_start. generalize start. intros s0 H0 Hr. revert H0.
  induction Hr as [|s1 s2 s3 H12 _ IH]; [done|]. intros H1. apply IH. by eapply inv_step.
Qed.


Lemma settled_step s s' i row :
  inv s -> step s s' -> Wakeups.deliveries (db s) !! i = Some row -> is_settled (state row) = true ->
  exists row', Wakeups.deliveries (db s') !! i = Some row' /\ forgotten row row'.
Proof.
  intros [Hok Ht] Hstep Hi Hs.
  assert (forall d, Wakeups.deliveries d !! i = Some row ->
    exists row', Wakeups.deliveries d !! i = Some row' /\ forgotten row row') as Hsame
    by (intros d Hd; exists row; split; [done|apply forgotten_refl]).
  destruct Hstep as [s me R o c r s' Hme Hop|s me|s me session prompt batch c e Hme He
    |s me t Hme Hlock Hentry|s es Hev|s e He|s eligible w d b Hins|s j why now|s x]; try (by apply Hsame).
  - apply Hsame. destruct (Ht _ _ Hme) as (h & k & Hsafe & _). cbn.
    destruct o; cbn [exec_op] in Hop; try (by destruct Hop as [_ ->]).
    + destruct Hop as (d & He & ->). destruct Hsafe as [Hw _]. by eapply statement_settled.
    + by destruct Hop as [(? & _ & _ & ->)|(? & ? & _ & _ & _ & ->)].
    + by subst s'.
  - apply Hsame. by eapply schedule_settled.
  - apply Hsame. cbn. eapply (statement_settled _ (CancelWakeup j why now)); [done| |done..].
    cbn. by rewrite <-surjective_pairing.
  - cbn. rewrite lookup_fmap, Hi. eexists. split; [done|by exists x].
Qed.

Lemma settled_steps s s' i row :
  inv s -> rtc step s s' -> Wakeups.deliveries (db s) !! i = Some row -> is_settled (state row) = true ->
  exists row', Wakeups.deliveries (db s') !! i = Some row' /\ forgotten row row'.
Proof.
  intros Hinv Hss. revert row Hinv. induction Hss as [s|s1 s2 s3 H12 _ IH]; intros row Hinv Hi Hs.
  - exists row. split; [done|apply forgotten_refl].
  - destruct (settled_step s1 s2 i row Hinv H12 Hi Hs) as (row2 & H2 & Hf2).
    destruct (IH row2 (inv_step _ _ Hinv H12) H2) as (row3 & H3 & Hf3); [by rewrite (forgotten_state _ _ Hf2)|].
    exists row3. split; [done|by eapply forgotten_trans].
Qed.

(** A delivered row comes from one that names its execution. *)
Lemma delivers_step s s' i row :
  inv s -> step s s' -> Wakeups.deliveries (db s') !! i = Some row -> state row = Delivered ->
  is_Some (execution_process_id row) \/
  exists old, Wakeups.deliveries (db s) !! i = Some old /\ state old = Delivered.
Proof.
  intros [Hok Ht] Hstep Hi Hs.
  destruct Hstep as [s me R o c r s' Hme Hop|s me|s me session prompt batch c e Hme He
    |s me t Hme Hlock Hentry|s es Hev|s e He|s eligible w d b Hins|s j why now|s x]; try (right; eauto; fail).
  - destruct (Ht _ _ Hme) as (h & k & Hsafe & _). cbn in Hi.
    destruct o; cbn [exec_op] in Hop; try (destruct Hop as [_ ->]; right; eauto; fail).
    + destruct Hop as (d & He & ->). destruct Hsafe as [Hw _]. by eapply statement_delivers.
    + right. destruct Hop as [(? & _ & _ & ->)|(? & ? & _ & _ & _ & ->)]; eauto.
    + subst s'. right; eauto.
  - cbn in Hi. right. unfold Wakeups.insert in Hins. case_match; [simplify_eq; eauto|].
    case_match; [done|]. case_match; [done|]. injection Hins as <- <-. cbn in Hi.
    apply lookup_insert_Some in Hi as [[_ <-]|[_ Hi]]; [done|eauto].
  - cbn in Hi. eapply (statement_delivers _ (CancelWakeup j why now)); [done| |exact Hi|done].
    cbn. by rewrite <-surjective_pairing.
  - cbn in Hi. rewrite lookup_fmap in Hi. apply fmap_Some in Hi as (old & Ho & ->). right. eauto.
Qed.

Lemma delivered_named s i row :
  reachable s -> Wakeups.deliveries (db s) !! i = Some row -> state row = Delivered ->
  exists s0 row0, reachable s0 /\ rtc step s0 s /\ Wakeups.deliveries (db s0) !! i = Some row0 /\
    state row0 = Delivered /\ is_Some (execution_process_id row0) /\ forgotten row0 row.
Proof.
  intros Hr. revert row. pattern s. refine (rtc_ind_r _ start _ _ s Hr); clear s Hr.
  - intros row Hi Hs. cbn in Hi. by rewrite lookup_empty in Hi.
  - intros s1 s2 H1 H12 IH row Hi Hs.
    destruct (delivers_step s1 s2 i row (inv_reachable _ H1) H12 Hi Hs) as [He|(old & Ho & Hos)].
    + exists s2, row. split_and!; [by eapply rtc_r|apply rtc_refl|done|done|done|apply forgotten_refl].
    + destruct (IH old Ho Hos) as (s0 & row0 & Hr0 & H01 & H0 & Hs0 & He0 & Hf).
      exists s0, row0. split_and!; [done|by eapply rtc_r|done|done|done|].
      destruct (settled_step s1 s2 i old (inv_reachable _ H1) H12 Ho) as (row' & Hr' & Hf'); [by rewrite Hos|].
      simplify_eq. by eapply forgotten_trans.
Qed.

End Delivery.
End Delivery.

(** ** What the surfaces show *)

Module Surfaces.

Definition by_comment (ds : list IssueCommentDelivery) (m : gmap Uuid IssueCommentDelivery) :=
  foldl (fun m d => <[comment_id d := d]> m) m ds.

Lemma filter_all {A} (P : A -> Prop) `{!forall x, Decision (P x)} (l : list A) :
  Forall P l -> filter P l = l.
Proof. induction 1 as [|x l Hx _ IH]; [done|]. by rewrite filter_cons, decide_True, IH. Qed.

Lemma by_comment_perm ds m :
  NoDup (comment_id <$> ds) -> (forall d, d ∈ ds -> m !! comment_id d = None) ->
  (map_to_list (by_comment ds m)).*2 ≡ₚ ds ++ (map_to_list m).*2.
Proof.
  revert m. induction ds as [|d ds IH]; intros m; [done|]. rewrite fmap_cons.
  intros [Hd Hnd]%NoDup_cons Hm. cbn [by_comment foldl]. unfold by_comment in IH. rewrite IH.
  - rewrite map_to_list_insert by (apply Hm; left). cbn [fmap list_fmap].
    change (((comment_id d, d) :: map_to_list m).*2) with (d :: (map_to_list m).*2).
    by rewrite <-Permutation_middle.
  - done.
  - intros e He. rewrite lookup_insert_ne; [apply Hm; by right|].
    intros Heq. apply Hd. rewrite Heq. by apply list_elem_of_fmap_2.
Qed.

Lemma by_comment_keys ds m :
  (forall k d, m !! k = Some d -> comment_id d = k) ->
  forall k d, by_comment ds m !! k = Some d -> comment_id d = k.
Proof.
  revert m. induction ds as [|d ds IH]; intros m Hm; [done|]. cbn [by_comment foldl].
  apply IH. intros k e [[<- <-]|[_ He]]%lookup_insert_Some; [done|by apply Hm].
Qed.

Definition show (names : gmap Uuid string) (acc : list IssueCommentWithDelivery * gmap Uuid IssueCommentDelivery)
    (c : IssueComment) : list IssueCommentWithDelivery * gmap Uuid IssueCommentDelivery :=
  let '(joined, remaining) := acc in
  let d := remaining !! ic_id c in
  (joined ++ [{| comment := c; shown_author_name := (ic_author_id c) ≫= (names !!.);
                 delivery := d;
                 edited_after_delivery :=
                   match d with
                   | Some d =>
                       bool_decide (state d = Delivered)
                       && match delivered_comment_updated_at d with
                          | Some at_ => bool_decide (at_ < ic_updated_at c)
                          | None => false
                          end
                   | None => false
                   end |}], delete (ic_id c) remaining).

Definition accounted (all : list IssueCommentDelivery) (cs : list IssueComment)
    (acc : list IssueCommentWithDelivery * gmap Uuid IssueCommentDelivery) : Prop :=
  omap delivery acc.1 ++ (map_to_list acc.2).*2 ≡ₚ all /\ comment <$> acc.1 = cs /\
  (forall k d, acc.2 !! k = Some d -> comment_id d = k /\ k ∉ ic_id <$> cs).

Lemma show_accounted names all cs acc c :
  accounted all cs acc -> accounted all (cs ++ [c]) (show names acc c).
Proof.
  destruct acc as [joined remaining]. intros (Hp & Hc & Hk). cbn [fst snd] in *.
  unfold show. split_and!; cbn [fst snd].
  - rewrite <-Hp, omap_app. cbn [omap list_omap delivery].
    destruct (remaining !! ic_id c) as [d|] eqn:Hd.
    + rewrite <-(map_to_list_delete _ _ _ Hd). cbn [omap list_omap]. rewrite fmap_cons. cbn [snd].
      by rewrite <-app_assoc.
    + rewrite delete_id by done. by rewrite app_nil_r.
  - by rewrite fmap_app, Hc.
  - intros k d [Hne Hd]%lookup_delete_Some. destruct (Hk k d Hd) as [? Hnot]. split; [done|].
    rewrite fmap_app. intros [?|?%list_elem_of_singleton]%elem_of_app; [done|].
    cbn in *. congruence.
Qed.

(** Every comment is shown, in order, and every delivery is shown exactly once: with
    its comment, or among the deliveries whose comment is gone. *)
Theorem deliveries_all_shown cs ds names :
  NoDup (comment_id <$> ds) ->
  let '(joined, deleted) := join_comments cs ds names in
  comment <$> joined = cs /\ omap delivery joined ++ deleted ≡ₚ ds /\
  Forall (fun d => comment_id d ∉ ic_id <$> cs) deleted.
Proof.
  intros Hnd. unfold join_comments. change (foldl (fun m d => <[comment_id d := d]> m) ∅ ds) with
    (by_comment ds ∅).
  change (foldl _ ([], by_comment ds ∅) cs) with (foldl (show names) ([], by_comment ds ∅) cs).
  assert (forall pre acc, accounted ds pre acc -> accounted ds (pre ++ cs) (foldl (show names) acc cs))
    as Hall.
  { induction cs as [|c cs IH]; intros pre acc Hacc; [by rewrite app_nil_r|]. cbn [foldl].
    rewrite cons_middle, app_assoc. by apply IH, show_accounted. }
  destruct (Hall [] ([], by_comment ds ∅)) as (Hp & Hc & Hk).
  { split_and!; cbn [fst snd]; [|done|].
    - cbn [omap list_omap app]. rewrite by_comment_perm; [|done|by intros; apply lookup_empty].
      rewrite map_to_list_empty. by rewrite app_nil_r.
    - intros k d Hd. split; [|by apply not_elem_of_nil]. revert Hd. apply by_comment_keys.
      intros k' d' H. by rewrite lookup_empty in H. }
  destruct (foldl (show names) _ cs) as [joined remaining]. cbn [fst snd app] in *.
  assert (filter (fun d => comment_id d ∉ ic_id <$> cs) (map_to_list remaining).*2
    = (map_to_list remaining).*2) as Hfilter.
  { apply filter_all, Forall_forall.
    intros d ([k e] & -> & Hd%elem_of_map_to_list)%list_elem_of_fmap.
    cbn. by destruct (Hk k e Hd) as [-> ?]. }
  rewrite Hfilter. split_and!; [done| |].
  - by rewrite merge_sort_Permutation.
  - rewrite merge_sort_Permutation. apply Forall_forall.
    intros d ([k e] & -> & Hd%elem_of_map_to_list)%list_elem_of_fmap.
    cbn. by destruct (Hk k e Hd) as [-> ?].
Qed.
End Surfaces.
