(* ===== verification/CommentRuns.v ===== *)
(** * Runs of comment deliveries

    An interpreter of tasks in a world that answers their questions, whose runs are runs of
    [Machine], and the concrete runs behind the theorems: the witnesses of [CommentFacts],
    and two behaviours the documentation of the code rules out. *)
From S2P Require Import Prelude Text Format WorkerJobRow DeliveryRow Wakeups DeliveryRules CommentDelivery CommentMachine CommentFacts.
From Stdlib Require Import Ascii.
Import DeliveryRow DeliveryRules Dispatcher Machine.

Module Runs.
Section Runs.
Context `{Htext : !CommentText} `{Hstored : !StoredAction}.
Context (to_rfc3339 : DateTime -> string) (parse_rfc3339 : string -> option DateTime).

(** Answers, and what becomes of the [n]-th turn: its evidence and the error reported. *)
Record World := {
  answer : forall R : Set, question R -> R;
  outcome : nat -> bool * bool * option string;
}.

Definition begin (w : World) (es : list Exec) session prompt batch : Exec :=
  let '(l, u, _) := outcome w (length es) in
  {| e_id := N.of_nat (length es) + 1000; e_session := session;
     e_action := stored_action session prompt; e_status := ProcessRow.Failed;
     e_launched := l; e_uncertain := u; e_batch := batch |}.

Definition perform (w : World) (s : Sys) (me : nat) {R : Set} (o : op R) : option (R * Sys) :=
  match o in op R return option (R * Sys) with
  | Ask q => Some (answer w _ q, s)
  | Read f => Some (f (db s), s)
  | Write st => match exec_statement (db s) st with
                | Some (d, b) => Some (b, with_db s d)
                | None => None
                end
  | MarkedTurns session comment => Some (marked_turns (execs s) session comment, s)
  | StartFollowUp session prompt batch =>
      let e := begin w (execs s) session prompt batch in
      Some (match (outcome w (length (execs s))).2 with
            | None => Ok (e_id e)
            | Some err => Err err
            end, with_execs s (execs s ++ [e]))
  | Lock session =>
      if bool_decide (locks s !! session = None)
      then Some (tt, with_locks s (<[session := me]> (locks s))) else None
  | Unlock session => Some (tt, with_locks s (delete session (locks s)))
  end.

Definition turn (w : World) (me : nat) (s : Sys) : Sys :=
  match tasks s me with
  | Some (Call o k) =>
      match perform w s me o with
      | Some (r, s') => with_tasks s' (set_task me (Some (k r)) (tasks s))
      | None => s
      end
  | _ => s
  end.

Fixpoint run (w : World) (me n : nat) (s : Sys) : Sys :=
  match n with O => s | S n => run w me n (turn w me s) end.

Definition spawn (me : nat) (t : Task unit) (s : Sys) : Sys :=
  with_tasks s (set_task me (Some t) (tasks s)).

Definition evolve (f : Exec -> Exec) (s : Sys) : Sys := with_execs s (f <$> execs s).

Abbreviation step := (Machine.step to_rfc3339 parse_rfc3339).
Abbreviation reachable := (Machine.reachable to_rfc3339 parse_rfc3339).

Definition honest (w : World) : Prop := forall (R : Set) (q : question R), plausible q (answer w R q).

Lemma perform_exec w s me {R : Set} (o : op R) r s' :
  honest w -> perform w s me o = Some (r, s') -> exec_op s me o r s'.
Proof.
  intros Hw. destruct o; cbn.
  - intros [= <- <-]. by split; [apply Hw|].
  - by intros [= <- <-].
  - destruct (exec_statement (db s) s0) as [[d b]|] eqn:E; [|done].
    intros [= <- <-]. by exists d.
  - by intros [= <- <-].
  - intros [= <- <-]. set (e := begin _ _ _ _ _).
    assert (started session prompt batch e) as He.
    { unfold e, begin. by destruct (outcome w (length (execs s))) as [[]]. }
    destruct (outcome w _).2 as [err|]; [right|left; eauto].
    exists err, [e]. by rewrite Forall_singleton.
  - case_bool_decide; [|done]. by intros [= <- <-].
  - by intros [= <- <-].
Qed.

Lemma turn_step w me s : honest w -> rtc step s (turn w me s).
Proof.
  intros Hw. unfold turn. destruct (tasks s me) as [[|R o k]|] eqn:Ht; [apply rtc_refl| |apply rtc_refl].
  destruct (perform w s me o) as [[r s']|] eqn:Hp; [|apply rtc_refl].
  apply rtc_once. eapply step_op; [done|]. by eapply perform_exec.
Qed.

Lemma run_steps w me n s : honest w -> rtc step s (run w me n s).
Proof.
  intros Hw. revert s. induction n as [|n IH]; intros s; [apply rtc_refl|]. cbn.
  etrans; [by apply turn_step|apply IH].
Qed.

Lemma run_reachable w me n s : honest w -> reachable s -> reachable (run w me n s).
Proof. intros Hw Hs. unfold Machine.reachable. etrans; [exact Hs|by apply run_steps]. Qed.

Lemma spawn_step me t s :
  tasks s me = None -> (forall session, locks s !! session <> Some me) ->
  entry to_rfc3339 parse_rfc3339 t -> step s (spawn me t s).
Proof. intros Ht Hl He. by apply step_spawn. Qed.

Lemma spawn_reachable me t s :
  tasks s me = None -> (forall session, locks s !! session <> Some me) ->
  entry to_rfc3339 parse_rfc3339 t -> reachable s -> reachable (spawn me t s).
Proof. intros Ht Hl He Hs. eapply rtc_r; [exact Hs|]. by apply spawn_step. Qed.

Lemma evolve_reachable f s :
  Forall (fun e => evolves e (f e)) (execs s) -> reachable s -> reachable (evolve f s).
Proof.
  intros Hf Hs. eapply rtc_r; [exact Hs|]. apply step_evolve.
  induction Hf; by constructor.
Qed.
End Runs.

(** ** A world *)

Import DeliveryText.

Definition told (d : DateTime) : string := "".
Definition told_back (s : string) : option DateTime := None.

(** Session 100 of workspace 50, and session 200 of workspace 60 once 50 is archived: both
    idle after a completed turn, and both workspaces linked to issue 1. *)
Definition answers (archived50 : bool) (R : Set) (q : question R) : R :=
  match q in question R return R with
  | UtcNow => 1000
  | NewUuid => 77%N
  | FindSession i =>
      Some {| ses_id := i; ses_workspace_id := if bool_decide (i = 100%N) then 50%N else 60%N;
              ses_name := None |}
  | FindWorkspace w =>
      Some {| ws_id := w; ws_name := None; branch := "b";
              ws_archived := archived50 && bool_decide (w = 50%N) |}
  | FindWakeup _ => None
  | WorktreeDeleted _ => false
  | ReadReceipt _ => Err NotFound
  | SessionsOf w =>
      if bool_decide (w = 50%N)
      then [{| ses_id := 100%N; ses_workspace_id := 50%N; ses_name := None |}]
      else if archived50
      then [{| ses_id := 200%N; ses_workspace_id := 60%N; ses_name := None |}] else []
  | RunningAgent _ => false
  | RunningAgents _ => []
  | RunningProcesses _ => false
  | LatestTurn _ => Some (5%N, ProcessRow.Completed, Some 10)
  | FinalizedTurn _ => None
  | ReconciledAt => 500
  | HasQueuedMessage _ => false
  | GetComment c =>
      Ok {| ic_id := c; ic_issue_id := 1%N; ic_author_id := None; ic_parent_id := None;
            ic_message := "go on"; ic_created_at := 900; ic_updated_at := 900 |}
  | ListComments _ => Ok []
  | CreateComment _ _ _ _ => Err Timeout
  | IssueWorkspaces _ =>
      Ok {| links := [{| rw_issue_id := Some 1%N; local_workspace_id := Some 50%N;
                         rw_archived := false |};
                      {| rw_issue_id := Some 1%N; local_workspace_id := Some 60%N;
                         rw_archived := false |}];
            archived_count := 0 |}
  | WorkspaceLink w =>
      Ok (Some {| rw_issue_id := Some 1%N; local_workspace_id := Some w; rw_archived := false |})
  | GetIssueInfo i =>
      Ok {| info_id := i; simple_id := "VK-1"; title := "t"; project_id := 9%N; active := true |}
  | MemberNames _ => []
  end.

(** The first turn goes to a worker that does not answer; the others start. *)
Definition world (archived50 : bool) : World :=
  {| answer := answers archived50;
     outcome n := match n with
                  | O => (false, true, Some "timeout"%string)
                  | _ => (true, false, None)
                  end |}.

Lemma world_honest b : honest (world b).
Proof. intros R q. destruct q; cbn; try done; by intros x [= <-]. Qed.

Definition ask_for (target : option Uuid) : Task unit :=
  let! _ := request told {| rq_comment_id := 10%N; rq_issue_id := 1%N;
                            target_session_id := target; rq_source := None;
                            rq_origin_session_id := None; rq_origin_workspace_id := None |} in
  Done tt.

(** The worker confirms late that it had started the first turn. *)
Definition confirm (e : Exec) : Exec :=
  if e_uncertain e then
    {| e_id := e_id e; e_session := e_session e; e_action := e_action e;
       e_status := e_status e; e_launched := true; e_uncertain := true; e_batch := e_batch e |}
  else e.

Lemma confirm_evolves e : evolves e (confirm e).
Proof. unfold confirm, evolves. destruct (e_uncertain e) eqn:E; cbn; rewrite ?E; split_and!; auto. Qed.

(** A request, a repeated request with the given choice, and the late confirmation. *)
Definition asked_twice (archived50 : bool) (target : option Uuid) : Sys :=
  evolve confirm
    (run (world archived50) 1 100 (spawn 1 (ask_for target)
       (run (world false) 0 100 (spawn 0 (ask_for None) start)))).

Lemma first_locks : locks (run (world false) 0 100 (spawn 0 (ask_for None) start)) = ∅.
Proof. vm_compute. reflexivity. Qed.

Lemma asked_twice_reachable archived50 target :
  Machine.reachable told told_back (asked_twice archived50 target).
Proof.
  unfold asked_twice. apply evolve_reachable; [apply Forall_forall; intros; apply confirm_evolves|].
  apply run_reachable; [apply world_honest|]. apply spawn_reachable.
  - reflexivity.
  - intros session. by rewrite first_locks, lookup_empty.
  - apply entry_request.
  - apply run_reachable; [apply world_honest|]. apply spawn_reachable; [done|done|apply entry_request|].
    apply rtc_refl.
Qed.
Definition row_of (s : Sys) : option IssueCommentDelivery :=
  Wakeups.deliveries (db s) !! 77%N.


Lemma twice_unlocked session : locks (asked_twice false (Some 100%N)) !! session <> Some 2%nat.
Proof.
  replace (locks _) with (∅ : gmap Uuid nat) by (vm_compute; reflexivity). by rewrite lookup_empty.
Qed.

(** Session 100 is deleted with its workspace and the turns in it. *)
Definition workspace_gone : Deletion :=
  {| gone_workspaces := {[50%N]}; gone_sessions := {[100%N]}; gone_executions := {[1000%N; 1001%N]} |}.

Definition delete (x : Deletion) (s : Sys) : Sys :=
  with_execs (with_db s (delete_from x (db s))) (filter (survives x) (execs s)).

Definition after_deletion : Sys :=
  delete workspace_gone
    (run (world false) 2 20 (spawn 2 (ask_for (Some 100%N)) (asked_twice false (Some 100%N)))).

Lemma deletion_reached : rtc (Machine.step told told_back) (asked_twice false (Some 100%N)) after_deletion.
Proof.
  apply (rtc_l _ _ (spawn 2 (ask_for (Some 100%N)) (asked_twice false (Some 100%N)))).
  - apply spawn_step; [reflexivity|exact twice_unlocked|apply entry_request].
  - eapply rtc_r; [apply run_steps, world_honest|]. apply step_delete.
Qed.

Lemma delivered_before :
  exists row, Wakeups.deliveries (db (asked_twice false (Some 100%N))) !! 77%N = Some row /\
    is_settled (state row) = true /\ execution_process_id row = Some 1001%N.
Proof. eexists. split_and!; vm_compute; reflexivity. Qed.

Lemma unnamed_after :
  (fun r => (state r, execution_process_id r)) <$> (Wakeups.deliveries (db after_deletion) !! 77%N)
  = Some (Delivered, None).
Proof. vm_compute. reflexivity. Qed.


(** ** Behaviours to know of *)

(** A comment a worker may already be answering is sent to another session by a repeated
    request that chooses none: evidence is only looked for in the new session.  The reason
    [LaunchUncertain] promises that only an explicit choice sends the comment again. *)
Theorem uncertain_resent_elsewhere :
  let s := asked_twice true None in
  Machine.reachable told told_back s /\
  exists e1 e2, execs s = [e1; e2] /\ e_session e1 <> e_session e2 /\
    e_batch e1 = [(10%N, false)] /\ e_batch e2 = [(10%N, false)] /\
    e_launched e1 = true /\ e_launched e2 = true.
Proof.
  cbn zeta. split; [apply asked_twice_reachable|].
  eexists _, _. split_and!; [vm_compute; reflexivity|..]; by vm_compute.
Qed.

(** The same world with turns that start, a request stopped between its claim and the
    start, and a recovery in that gap. *)
Definition starting : World :=
  {| answer := answers false; outcome _ := (true, false, None) |}.

Definition recovered_in_between : Sys :=
  run starting 0 100
    (run starting 1 100 (spawn 1 recover (run starting 0 30 (spawn 0 (ask_for None) start)))).

Definition delivered_later : Sys :=
  run starting 2 100 (spawn 2 (on_turn_finalized told 100%N) recovered_in_between).

Lemma starting_honest : honest starting.
Proof. intros R q. destruct q; cbn; try done; by intros x [= <-]. Qed.

(** Recovery takes rows that a running task has claimed, not only those of a previous
    process: the started turn is left with a pending row, and the text the agent received
    is not recorded.  The next dispatch finds the turn and delivers an empty text. *)
Theorem recovery_takes_a_live_row :
  Machine.reachable told told_back recovered_in_between /\
  (fun e => (e_batch e, e_launched e)) <$> execs recovered_in_between = [([(10%N, false)], true)] /\
  state <$> row_of recovered_in_between = Some Pending /\
  tasks recovered_in_between 0%nat = Some (Done tt) /\
  state <$> row_of delivered_later = Some Delivered /\
  delivered_message <$> row_of delivered_later = Some (Some ""%string).
Proof.
  split; [|by split_and!; vm_compute].
  unfold recovered_in_between. apply run_reachable; [apply starting_honest|].
  apply run_reachable; [apply starting_honest|]. apply spawn_reachable.
  - reflexivity.
  - intros session. replace (locks _) with ({[100%N := 0%nat]} : gmap Uuid nat)
      by (vm_compute; reflexivity).
    rewrite lookup_singleton_Some. by intros [_ ?].
  - apply entry_recover.
  - apply run_reachable; [apply starting_honest|].
    apply spawn_reachable; [done|done|apply entry_request|apply rtc_refl].
Qed.

(** Two deliveries, of which one's comment is gone. *)
Definition delivery_of (c : Uuid) : IssueCommentDelivery :=
  Wakeups.wakeup_delivery
    {| Wakeups.wk_id := c; Wakeups.wk_workspace_id := 1; Wakeups.wk_session_id := 2;
       Wakeups.fire_at := 3; Wakeups.wk_prompt := ""; Wakeups.poller_id := None;
       Wakeups.receipt_path := None; Wakeups.trigger_context := None;
       Wakeups.wk_created_at := 4 |}.

Definition shown_comment : IssueComment :=
  {| ic_id := 20; ic_issue_id := 1; ic_author_id := None; ic_parent_id := None; ic_message := "hello";
     ic_created_at := 1; ic_updated_at := 1 |}.

Lemma deliveries_all_shown_witness :
  let '(joined, deleted) :=
    join_comments [shown_comment] [delivery_of 21; delivery_of 20] ∅ in
  (delivery <$> joined = [Some (delivery_of 20)] /\ deleted = [delivery_of 21]) /\
  (comment <$> joined = [shown_comment] /\
   omap delivery joined ++ deleted ≡ₚ [delivery_of 21; delivery_of 20] /\
   Forall (fun d => comment_id d ∉ ic_id <$> [shown_comment]) deleted).
Proof.
  pose proof (Surfaces.deliveries_all_shown [shown_comment] [delivery_of 21; delivery_of 20] ∅) as H.
  destruct (join_comments _ _ _) as [joined deleted] eqn:Hj. split.
  - vm_compute in Hj. by injection Hj as <- <-.
  - apply H. by apply (bool_decide_unpack _); vm_compute.
Defined.
End Runs.
