(* ===== verification/RelaySigning.v ===== *)
(** * Signed relay requests

    crates/relay-control/src/signing.rs: the messages that are signed, the signing
    sessions with their nonces, and the verification of a request.  Ed25519, SHA-256,
    base64 and the text of a UUID are third-party code: the class [Primitives], with the
    documented facts the components rely on in [PrimitiveLaws].  A body or any other
    byte string is a [string]; an [Instant] is a reading of the monotonic clock. *)
From S2P Require Import Prelude Text Format.
From Stdlib Require Import Ascii.

Class Primitives := {
  VerifyingKey : Type;
  Signature : Type;
  verify : VerifyingKey -> string -> Signature -> bool;
  signature_to_bytes : Signature -> string;
  signature_from_slice : string -> option Signature;
  b64_encode : string -> string;
  b64_decode : string -> option string;
  sha256 : string -> string;
  uuid_display : Uuid -> string;
}.

Definition bar : ascii := "|"%char.

(** The hyphenated form of a UUID is eight digits, a hyphen and more; base64 text
    has no bar. *)
Class PrimitiveLaws `{!Primitives} : Prop := {
  b64_decode_encode bytes : b64_decode (b64_encode bytes) = Some bytes;
  b64_no_bar bytes : contains_char bar (b64_encode bytes) = false;
  signature_from_to s : signature_from_slice (signature_to_bytes s) = Some s;
  uuid_display_inj : Inj (=) (=) uuid_display;
  uuid_no_bar u : contains_char bar (uuid_display u) = false;
  uuid_hyphen u : String.get 8 (uuid_display u) = Some "-"%char;
}.
#[global] Existing Instance uuid_display_inj.

(** [first|rest] *)
Definition fields2 (a b : string) : string := a +:+ String bar b.

Lemma fields_first a b x y :
  contains_char bar a = false -> contains_char bar b = false ->
  fields2 a x = fields2 b y -> a = b /\ x = y.
Proof.
  intros Ha Hb H. assert (split_once bar (fields2 a x) = Some (a, x)) as H1
    by (by apply split_once_app).
  assert (split_once bar (fields2 b y) = Some (b, y)) as H2 by (by apply split_once_app).
  rewrite H, H2 in H1. by injection H1 as -> ->.
Qed.

Lemma fields_last a b x y :
  contains_char bar a = false -> contains_char bar b = false ->
  fields2 x a = fields2 y b -> x = y /\ a = b.
Proof.
  intros Ha Hb. unfold fields2. revert y. induction x as [|c x IH]; intros [|d y].
  - by intros [= ->].
  - rewrite sapp_cons. intros [= _ ->]. rewrite contains_char_app in Ha. cbn in Ha.
    by rewrite orb_true_r in Ha.
  - rewrite sapp_cons. intros [= _ <-]. rewrite contains_char_app in Hb. cbn in Hb.
    by rewrite orb_true_r in Hb.
  - rewrite !sapp_cons. intros [= -> [-> ->]%IH]. done.
Qed.

(** A concrete instance: text in place of keys, signatures and digests, and two
    letters per byte in place of base64. *)
Module Plain.

Definition nibble (b0 b1 b2 b3 : bool) : ascii := Ascii b0 b1 b2 b3 false false true false.

Fixpoint encode (s : string) : string :=
  match s with
  | EmptyString => EmptyString
  | String (Ascii b0 b1 b2 b3 b4 b5 b6 b7) s =>
      String (nibble b0 b1 b2 b3) (String (nibble b4 b5 b6 b7) (encode s))
  end.

Fixpoint decode (s : string) : option string :=
  match s with
  | EmptyString => Some EmptyString
  | String (Ascii b0 b1 b2 b3 _ _ _ _) (String (Ascii b4 b5 b6 b7 _ _ _ _) s) =>
      String (Ascii b0 b1 b2 b3 b4 b5 b6 b7) <$> decode s
  | _ => None
  end.

#[global] Instance primitives : Primitives := {|
  VerifyingKey := string;
  Signature := string;
  verify key message signature := bool_decide (signature = key +:+ message);
  signature_to_bytes s := s;
  signature_from_slice := Some;
  b64_encode := encode;
  b64_decode := decode;
  sha256 s := s;
  uuid_display u := "00000000-" +:+ display (Z.of_N u);
|}.

#[global] Instance laws : PrimitiveLaws.
Proof.
  split; cbn.
  - intros bytes. induction bytes as [|[] s IH]; cbn; [done|]. by rewrite IH.
  - intros bytes. induction bytes as [|[b0 b1 b2 b3 b4 b5 b6 b7] s IH]; cbn; [done|].
    rewrite IH, orb_false_r, !bool_decide_false by (unfold bar, nibble; congruence). done.
  - done.
  - intros x y Heq. assert (display (Z.of_N x) = display (Z.of_N y)) as H by (by injection Heq).
    apply display_inj in H. lia.
  - intros u. rewrite contains_char_app. by rewrite contains_char_display by done.
  - done.
Qed.

End Plain.

Module RelaySigning.

Section Messages.
Context `{Prims : Primitives}.

(* crates/relay-control/src/signing.rs:25-31 RequestSignature *)
Record RequestSignature := {
  signing_session_id : Uuid;
  timestamp : Z;
  nonce : Uuid;
  signature_b64 : string;
}.

(* crates/relay-control/src/signing.rs:33-44 build_request_signing_message *)
Definition build_request_signing_message (sig : RequestSignature)
    (method path_and_query body : string) : string :=
  let body_hash := b64_encode (sha256 body) in
  fields2 "v1" (fields2 (display (timestamp sig)) (fields2 method (fields2 path_and_query
    (fields2 (uuid_display (signing_session_id sig))
      (fields2 (uuid_display (nonce sig)) body_hash))))).

(* crates/relay-control/src/signing.rs:76-89 build_response_signing_message *)
Definition build_response_signing_message (timestamp status : Z) (path_and_query : string)
    (signing_session_id request_nonce response_nonce : Uuid) (body : string) : string :=
  let body_hash := b64_encode (sha256 body) in
  fields2 "v1" (fields2 (display timestamp) (fields2 (display status) (fields2 path_and_query
    (fields2 (uuid_display signing_session_id) (fields2 (uuid_display request_nonce)
      (fields2 (uuid_display response_nonce) body_hash)))))).

Context `{Laws : !PrimitiveLaws}.

Lemma display_no_bar n : contains_char bar (display n) = false.
Proof. by apply contains_char_display. Qed.

Lemma fields2_assoc a b c : fields2 (fields2 a b) c = fields2 a (fields2 b c).
Proof. unfold fields2. by rewrite sapp_assoc, sapp_cons. Qed.

(** The method is a token and the path is absolute: [method|path] can be read back. *)
Lemma method_path_inj m p n q :
  contains_char "/" m = false -> contains_char "/" n = false ->
  fields2 m (String "/" p) = fields2 n (String "/" q) -> m = n /\ p = q.
Proof.
  intros Hm Hn H. unfold fields2 in H.
  assert (forall s t, s +:+ String bar (String "/" t) = (s +:+ "|") +:+ String "/" t) as Hs.
  { intros s t. by rewrite sapp_assoc. }
  rewrite !Hs in H.
  assert (forall s t, contains_char "/" s = false ->
    split_once "/" ((s +:+ "|") +:+ String "/" t) = Some (s +:+ "|", t)) as Hsp.
  { intros s t Hc. apply split_once_app. split; [done|].
    by rewrite contains_char_app, Hc. }
  pose proof (Hsp m p Hm) as H1. rewrite H, (Hsp n q Hn) in H1. injection H1 as H1 ->.
  split; [|done]. by destruct (fields_last "" "" n m eq_refl eq_refl H1).
Qed.

(** A request signature binds the request: for methods that are HTTP tokens and
    absolute paths, two requests with the same signing message have the same timestamp,
    method, path, session and nonce, and bodies with the same digest; no part of one can
    be moved into another field. *)
Theorem signing_message_binds sig1 sig2 m1 m2 p1 p2 body1 body2 :
  contains_char "/" m1 = false -> contains_char "/" m2 = false ->
  starts_with "/" p1 = true -> starts_with "/" p2 = true ->
  build_request_signing_message sig1 m1 p1 body1 =
    build_request_signing_message sig2 m2 p2 body2 ->
  timestamp sig1 = timestamp sig2 /\ m1 = m2 /\ p1 = p2 /\
  signing_session_id sig1 = signing_session_id sig2 /\ nonce sig1 = nonce sig2 /\
  sha256 body1 = sha256 body2.
Proof.
  intros Hm1 Hm2 [q1 ->]%starts_with_spec [q2 ->]%starts_with_spec.
  unfold build_request_signing_message. intros H.
  apply fields_first in H as [_ H]; [|done..].
  apply fields_first in H as [Ht H]; [|apply display_no_bar..].
  rewrite <- !fields2_assoc in H.
  apply fields_last in H as [H Hb]; [|apply b64_no_bar..].
  apply fields_last in H as [H Hn]; [|apply uuid_no_bar..].
  apply fields_last in H as [H Hs]; [|apply uuid_no_bar..].
  apply method_path_inj in H as [-> ->]; [|done..].
  apply display_inj in Ht. apply uuid_display_inj in Hn, Hs.
  split_and!; try done.
  assert (Some (sha256 body1) = Some (sha256 body2)) as Hsome
    by (by rewrite <- !b64_decode_encode, Hb).
  by injection Hsome.
Qed.

(** A signed response is not an ordinary request: the two messages have the same
    prefix and can coincide, but only with a request whose method is the decimal status
    code, whose session is the response's request nonce and whose nonce is its response
    nonce. *)
Theorem response_is_no_request sig m p body ts status path sid request_nonce response_nonce
    rbody :
  contains_char "/" m = false -> starts_with "/" p = true -> starts_with "/" path = true ->
  build_request_signing_message sig m p body =
    build_response_signing_message ts status path sid request_nonce response_nonce rbody ->
  m = display status /\ p = fields2 path (uuid_display sid) /\
  signing_session_id sig = request_nonce /\ nonce sig = response_nonce.
Proof.
  intros Hm [q ->]%starts_with_spec [r ->]%starts_with_spec.
  unfold build_request_signing_message, build_response_signing_message. intros H.
  apply fields_first in H as [_ H]; [|done..].
  apply fields_first in H as [Ht H]; [|apply display_no_bar..].
  rewrite <- !fields2_assoc in H.
  apply fields_last in H as [H Hb]; [|apply b64_no_bar..].
  apply fields_last in H as [H Hn]; [|apply uuid_no_bar..].
  apply fields_last in H as [H Hs]; [|apply uuid_no_bar..].
  rewrite fields2_assoc in H. unfold fields2 at 3 in H. rewrite sapp_assoc in H.
  change ("/" +:+ ?x) with (String "/" x) in *.
  apply method_path_inj in H as [-> ->]; [|done|by apply contains_char_display].
  apply uuid_display_inj in Hn, Hs. by split_and!.
Qed.

End Messages.

(** ** Sessions *)

(* crates/relay-control/src/signing.rs:103-109 RelaySignatureValidationError *)
Inductive RelaySignatureValidationError :=
| TimestampOutOfDrift
| MissingSigningSession
| InvalidNonce
| ReplayNonce
| InvalidSignature.

(* crates/relay-control/src/signing.rs:123-123 RELAY_SIGNATURE_MAX_TIMESTAMP_DRIFT_SECS *)
Definition MAX_TIMESTAMP_DRIFT_SECS : Z := 30.
(* crates/relay-control/src/signing.rs:124-124 RELAY_SIGNING_SESSION_TTL *)
Definition SESSION_TTL : Duration := from_secs (60 * 60).
(* crates/relay-control/src/signing.rs:125-125 RELAY_SIGNING_SESSION_IDLE_TTL *)
Definition SESSION_IDLE_TTL : Duration := from_secs (15 * 60).
(* crates/relay-control/src/signing.rs:126-126 RELAY_NONCE_TTL *)
Definition NONCE_TTL : Duration := from_secs (2 * 60).

Definition i64_min : Z := -9223372036854775808.
Definition i64_saturating_sub (x y : Z) : Z := Z.max i64_min (Z.min i64_max (x - y)).

(** [SystemTime::now()] as nanoseconds since the epoch, negative before it; the
    whole seconds, when they fit [i64]. *)
(* crates/relay-control/src/signing.rs:308-314 validate_timestamp *)
Definition unix_seconds (wall : Z) : option Z :=
  if decide (wall < 0) then None
  else let secs := wall `div` nanos_per_second in
       if decide (secs <= i64_max) then Some secs else None.

(* crates/relay-control/src/signing.rs:307-321 validate_timestamp *)
Definition validate_timestamp (wall timestamp : Z) : result unit RelaySignatureValidationError :=
  match unix_seconds wall with
  | None => Err TimestampOutOfDrift
  | Some now_secs =>
      if decide (MAX_TIMESTAMP_DRIFT_SECS < Z.abs (i64_saturating_sub now_secs timestamp))
      then Err TimestampOutOfDrift else Ok tt
  end.

(** [duration_since] of an earlier or equal instant; zero for a later one. *)
Definition duration_since (now earlier : Z) : Duration := Z.max 0 (now - earlier).

Section Service.
Context `{Prims : Primitives}.

(* crates/relay-control/src/signing.rs:95-100 RelaySigningSession *)
Record RelaySigningSession := {
  peer_public_key : VerifyingKey;
  created_at : Z;
  last_used_at : Z;
  seen_nonces : gmap Uuid Z;
}.

Abbreviation Sessions := (gmap Uuid RelaySigningSession).

(* crates/relay-control/src/signing.rs:323-328 parse_signature_b64 *)
Definition parse_signature_b64 (signature_b64 : string)
    : result Signature RelaySignatureValidationError :=
  let? sig_bytes := ok_or (b64_decode signature_b64) InvalidSignature in
  ok_or (signature_from_slice sig_bytes) InvalidSignature.

(* crates/relay-control/src/signing.rs:298-301 RelaySigningService::get_valid_session *)
Definition session_valid (now : Z) (session : RelaySigningSession) : Prop :=
  duration_since now (created_at session) <= SESSION_TTL /\
  duration_since now (last_used_at session) <= SESSION_IDLE_TTL.
#[global] Instance session_valid_dec now session : Decision (session_valid now session).
Proof. apply _. Defined.

(* crates/relay-control/src/signing.rs:214-225 RelaySigningService::register_session *)
Definition register_session (signing_session_id : Uuid) (key : VerifyingKey) (now : Z)
    (sessions : Sessions) : Sessions :=
  <[signing_session_id := {| peer_public_key := key; created_at := now; last_used_at := now;
                             seen_nonces := ∅ |}]> sessions.

(* crates/relay-control/src/signing.rs:296-301 RelaySigningService::get_valid_session *)
Definition retain_valid (now : Z) (sessions : Sessions) : Sessions :=
  filter (fun kv => session_valid now kv.2) sessions.

(* crates/relay-control/src/signing.rs:265-277 RelaySigningService::get_session_peer_key *)
Definition get_session_peer_key (signing_session_id : Uuid) (now : Z) (sessions : Sessions)
    : option VerifyingKey :=
  match sessions !! signing_session_id with
  | Some session => if decide (session_valid now session) then Some (peer_public_key session)
                    else None
  | None => None
  end.

(* crates/relay-control/src/signing.rs:242-244 RelaySigningService::verify_request *)
Definition retain_nonces (now : Z) (session : RelaySigningSession) : RelaySigningSession :=
  {| peer_public_key := peer_public_key session;
     created_at := created_at session;
     last_used_at := last_used_at session;
     seen_nonces := filter (fun kv => duration_since now kv.2 <= NONCE_TTL)
                           (seen_nonces session) |}.

(* crates/relay-control/src/signing.rs:256-259 RelaySigningService::verify_request *)
Definition record_use (nonce : Uuid) (now : Z) (session : RelaySigningSession)
    : RelaySigningSession :=
  {| peer_public_key := peer_public_key session;
     created_at := created_at session;
     last_used_at := now;
     seen_nonces := <[nonce := now]> (seen_nonces session) |}.

(** The readings of the clocks by one verification: the wall clock when the timestamp
    is validated, the monotonic clock at that moment, once the lock is held, and when
    the use is recorded. *)
Record Clock := {
  wall : Z;
  validated_at : Z;
  locked_at : Z;
  recorded_at : Z;
}.

(* crates/relay-control/src/signing.rs:228-262 RelaySigningService::verify_request *)
Definition verify_request (clock : Clock) (sig : RequestSignature)
    (method path_and_query body : string) (sessions : Sessions)
    : Sessions * result unit RelaySignatureValidationError :=
  match validate_timestamp (wall clock) (timestamp sig) with
  | Err e => (sessions, Err e)
  | Ok _ =>
      match parse_signature_b64 (signature_b64 sig) with
      | Err e => (sessions, Err e)
      | Ok signature =>
          let sessions := retain_valid (locked_at clock) sessions in
          match sessions !! signing_session_id sig with
          | None => (sessions, Err MissingSigningSession)
          | Some session =>
              let session := retain_nonces (locked_at clock) session in
              let put s := <[signing_session_id sig := s]> sessions in
              if decide (is_Some (seen_nonces session !! nonce sig)) then
                (put session, Err ReplayNonce)
              else
                let message := build_request_signing_message sig method path_and_query body in
                if verify (peer_public_key session) message signature then
                  (put (record_use (nonce sig) (recorded_at clock) session), Ok tt)
                else (put session, Err InvalidSignature)
          end
      end
  end.

(** One call on the service; [create_session] is [register_session] of a fresh UUID. *)
Inductive Call :=
| Register (signing_session_id : Uuid) (key : VerifyingKey) (now : Z)
| Verify (clock : Clock) (sig : RequestSignature) (method path_and_query body : string).

Definition call (sessions : Sessions) (c : Call) : Sessions * bool :=
  match c with
  | Register id key now => (register_session id key now sessions, false)
  | Verify clock sig method path body =>
      let (sessions, r) := verify_request clock sig method path body sessions in
      (sessions, is_ok r)
  end.

(** The sessions after the calls, and the accepted verifications in order. *)
Fixpoint serve (sessions : Sessions) (calls : list Call)
    : Sessions * list (Clock * RequestSignature) :=
  match calls with
  | [] => (sessions, [])
  | c :: calls =>
      let (sessions, ok) := call sessions c in
      let (sessions, accepted) := serve sessions calls in
      (sessions, match c, ok with
                 | Verify clock sig _ _ _, true => (clock, sig) :: accepted
                 | _, _ => accepted
                 end)
  end.

(** ** What is accepted *)

Lemma validate_timestamp_ok w ts :
  validate_timestamp w ts = Ok tt <->
  exists now, unix_seconds w = Some now /\ Z.abs (now - ts) <= MAX_TIMESTAMP_DRIFT_SECS.
Proof.
  unfold validate_timestamp. destruct (unix_seconds w) as [now|]; [|naive_solver].
  assert (MAX_TIMESTAMP_DRIFT_SECS < Z.abs (i64_saturating_sub now ts) <->
          ~ Z.abs (now - ts) <= MAX_TIMESTAMP_DRIFT_SECS) as Hd.
  { unfold i64_saturating_sub, i64_min, i64_max, MAX_TIMESTAMP_DRIFT_SECS. lia. }
  case_decide as H; rewrite Hd in H; split; try done.
  - intros (now' & [= <-] & H'). done.
  - intros _. exists now. split; [done|]. lia.
Qed.

Lemma parse_signature_ok b signature :
  parse_signature_b64 b = Ok signature <->
  exists bytes, b64_decode b = Some bytes /\ signature_from_slice bytes = Some signature.
Proof.
  unfold parse_signature_b64. rewrite rbind_ok. by setoid_rewrite ok_or_ok.
Qed.

Lemma retain_valid_lookup now (sessions : gmap Uuid RelaySigningSession) id session :
  retain_valid now sessions !! id = Some session <->
  sessions !! id = Some session /\ session_valid now session.
Proof. apply map_lookup_filter_Some. Qed.

Lemma seen_after_retain now session n r :
  seen_nonces (retain_nonces now session) !! n = Some r <->
  seen_nonces session !! n = Some r /\ duration_since now r <= NONCE_TTL.
Proof. apply map_lookup_filter_Some. Qed.

Lemma verify_accepts clock sig method path body
    (sessions : gmap Uuid RelaySigningSession) :
  (verify_request clock sig method path body sessions).2 = Ok tt <->
  (exists now, unix_seconds (wall clock) = Some now /\
     Z.abs (now - timestamp sig) <= MAX_TIMESTAMP_DRIFT_SECS) /\
  (exists bytes signature session,
     b64_decode (signature_b64 sig) = Some bytes /\
     signature_from_slice bytes = Some signature /\
     sessions !! signing_session_id sig = Some session /\
     session_valid (locked_at clock) session /\
     (forall r, seen_nonces session !! nonce sig = Some r ->
        NONCE_TTL < duration_since (locked_at clock) r) /\
     verify (peer_public_key session)
       (build_request_signing_message sig method path body) signature = true).
Proof.
  rewrite <- validate_timestamp_ok. unfold verify_request.
  destruct (validate_timestamp _ _) as [[]|e]; [|cbn; naive_solver].
  destruct (parse_signature_b64 (signature_b64 sig)) as [signature|e] eqn:Hsig; cycle 1.
  { cbn. split; [done|]. intros (_ & bytes & signature & session & Hb & Hs & _).
    assert (parse_signature_b64 (signature_b64 sig) = Ok signature) as H
      by (apply parse_signature_ok; eauto).
    by rewrite H in Hsig. }
  apply parse_signature_ok in Hsig as (bytes & Hb & Hs).
  destruct (retain_valid _ sessions !! _) as [session|] eqn:Hl; cycle 1.
  { cbn. split; [done|]. intros (_ & _ & _ & session & _ & _ & Hse & Hv & _).
    assert (retain_valid (locked_at clock) sessions !! signing_session_id sig = Some session) as H
      by (by apply retain_valid_lookup).
    by rewrite H in Hl. }
  apply retain_valid_lookup in Hl as [Hl Hv]. cbv zeta.
  case_decide as Hn; cbn.
  { split; [done|]. intros (_ & _ & _ & s & _ & _ & Hse & _ & Hf & _).
    destruct Hn as [r [Hr Hd]%seen_after_retain]. rewrite Hl in Hse. injection Hse as ->.
    specialize (Hf r Hr). lia. }
  destruct (verify _ _ _) eqn:Hver; cbn.
  - split; [|done]. intros _. split; [done|]. exists bytes, signature, session.
    split_and!; try done. intros r Hr. apply Z.nle_gt. intros Hd. apply Hn.
    exists r. by apply seen_after_retain.
  - split; [done|]. intros (_ & bytes' & signature' & s & Hb' & Hs' & Hse & _ & _ & Hver').
    rewrite Hb in Hb'. injection Hb' as <-. rewrite Hs in Hs'. injection Hs' as <-.
    rewrite Hl in Hse. injection Hse as <-. by rewrite Hver' in Hver.
Qed.

(** A relay request is accepted exactly when: its timestamp is within thirty
    seconds of the wall clock (the saturating subtraction never distorts this); its
    signature decodes; its session is registered, at most an hour old and used within
    the last fifteen minutes; its nonce was not seen in the session in the last two
    minutes; and the signature verifies, under the key registered for that session, for
    the message built from this very request. *)
Theorem request_accepted_iff clock sig method path body
    (sessions : gmap Uuid RelaySigningSession) :
  (verify_request clock sig method path body sessions).2 = Ok tt <->
  (exists now, unix_seconds (wall clock) = Some now /\
     Z.abs (now - timestamp sig) <= MAX_TIMESTAMP_DRIFT_SECS) /\
  (exists bytes signature session,
     b64_decode (signature_b64 sig) = Some bytes /\
     signature_from_slice bytes = Some signature /\
     sessions !! signing_session_id sig = Some session /\
     session_valid (locked_at clock) session /\
     (forall r, seen_nonces session !! nonce sig = Some r ->
        NONCE_TTL < duration_since (locked_at clock) r) /\
     verify (peer_public_key session)
       (build_request_signing_message sig method path body) signature = true).
Proof. apply verify_accepts. Qed.

Lemma rejection_keeps_live clock sig method path body
    (sessions : gmap Uuid RelaySigningSession) e id before :
  (verify_request clock sig method path body sessions).2 = Err e ->
  sessions !! id = Some before -> session_valid (locked_at clock) before ->
  is_Some ((verify_request clock sig method path body sessions).1 !! id).
Proof.
  intros He Hb Hv. revert He. unfold verify_request. destruct (validate_timestamp _ _) as [_|]; [|cbn; by eauto].
  destruct (parse_signature_b64 _) as [signature|]; [|cbn; by eauto].
  assert (retain_valid (locked_at clock) sessions !! id = Some before) as Hr by by apply retain_valid_lookup.
  destruct (retain_valid _ sessions !! signing_session_id sig) as [s|] eqn:Hl; [|cbn; by eauto].
  assert (is_Some ((<[signing_session_id sig := retain_nonces (locked_at clock) s]>
                      (retain_valid (locked_at clock) sessions)) !! id)) as Hput.
  { rewrite lookup_insert. case_decide; by eauto. }
  cbv zeta. case_decide; cbn; [done|]. by destruct (verify _ _ _).
Qed.

Lemma rejection_adds_nothing clock sig method path body
    (sessions : gmap Uuid RelaySigningSession) e id session :
  (verify_request clock sig method path body sessions).2 = Err e ->
  (verify_request clock sig method path body sessions).1 !! id = Some session ->
  exists before, sessions !! id = Some before /\
    peer_public_key session = peer_public_key before /\
    created_at session = created_at before /\ last_used_at session = last_used_at before /\
    (forall n r, seen_nonces session !! n = Some r -> seen_nonces before !! n = Some r) /\
    (forall n r, seen_nonces before !! n = Some r ->
       duration_since (locked_at clock) r <= NONCE_TTL -> seen_nonces session !! n = Some r).
Proof.
  unfold verify_request. destruct (validate_timestamp _ _) as [_|]; [|cbn; by eauto 10].
  destruct (parse_signature_b64 _) as [signature|]; [|cbn; by eauto 10].
  destruct (retain_valid _ sessions !! signing_session_id sig) as [s|] eqn:Hl; cycle 1.
  { cbn. intros _ [H _]%retain_valid_lookup. by eauto 10. }
  apply retain_valid_lookup in Hl as [Hl Hv].
  assert ((<[signing_session_id sig := retain_nonces (locked_at clock) s]>
             (retain_valid (locked_at clock) sessions)) !! id = Some session ->
    exists before, sessions !! id = Some before /\
      peer_public_key session = peer_public_key before /\
      created_at session = created_at before /\ last_used_at session = last_used_at before /\
      (forall n r, seen_nonces session !! n = Some r -> seen_nonces before !! n = Some r) /\
      (forall n r, seen_nonces before !! n = Some r ->
         duration_since (locked_at clock) r <= NONCE_TTL -> seen_nonces session !! n = Some r))
    as Hput.
  { rewrite lookup_insert. case_decide as Hid; [intros [= <-]|].
    - subst. exists s. split_and!; try done.
      + by intros n r [? _]%seen_after_retain.
      + intros n r Hr Hd. by apply seen_after_retain.
    - intros [H _]%retain_valid_lookup. by eauto 10. }
  cbv zeta. case_decide; cbn; [done|]. by destruct (verify _ _ _).
Qed.

(** C36: A rejected request leaves no trace a peer could notice, whatever the error: no session
    is added, renewed or given another key, no nonce is spent, a session that disappears had
    expired (it was registered more than an hour or last used more than fifteen minutes
    before), and so had a nonce that is forgotten (it was seen more than two minutes
    before). *)
Theorem rejection_changes_nothing clock sig method path body
    (sessions : gmap Uuid RelaySigningSession) e :
  (verify_request clock sig method path body sessions).2 = Err e ->
  let sessions' := (verify_request clock sig method path body sessions).1 in
  (forall id before, sessions !! id = Some before ->
     duration_since (locked_at clock) (created_at before) <= SESSION_TTL ->
     duration_since (locked_at clock) (last_used_at before) <= SESSION_IDLE_TTL ->
     is_Some (sessions' !! id)) /\
  (forall id session, sessions' !! id = Some session ->
     exists before, sessions !! id = Some before /\
       peer_public_key session = peer_public_key before /\
       created_at session = created_at before /\ last_used_at session = last_used_at before /\
       (forall n r, seen_nonces session !! n = Some r -> seen_nonces before !! n = Some r) /\
       (forall n r, seen_nonces before !! n = Some r ->
          duration_since (locked_at clock) r <= NONCE_TTL -> seen_nonces session !! n = Some r)).
Proof.
  intros He. split.
  - intros id before Hb H1 H2. by eapply rejection_keeps_live.
  - intros id session. by apply (rejection_adds_nothing _ _ _ _ _ _ e).
Qed.

(** ** No replay *)

(** The nonce of an accepted verification cannot be accepted again soon: its session
    is gone, or remembers the nonce, or two minutes have passed at [now]. *)
Definition spent (sessions : gmap Uuid RelaySigningSession) (now : Z)
    (use : Clock * RequestSignature) : Prop :=
  sessions !! signing_session_id use.2 = None \/
  (exists session r, sessions !! signing_session_id use.2 = Some session /\
     seen_nonces session !! nonce use.2 = Some r /\ recorded_at use.1 <= r) \/
  NONCE_TTL < now - recorded_at use.1.

(** What one verification does to a session other than dropping it. *)
Lemma verify_request_lookup clock sig method path body
    (sessions : gmap Uuid RelaySigningSession) id session :
  (verify_request clock sig method path body sessions).1 !! id = Some session ->
  exists before, sessions !! id = Some before /\
    forall n r, seen_nonces before !! n = Some r ->
      NONCE_TTL < duration_since (locked_at clock) r \/
      exists r', seen_nonces session !! n = Some r' /\ (r' = r \/ r' = recorded_at clock).
Proof.
  unfold verify_request. destruct (validate_timestamp _ _) as [_|]; [|cbn; by eauto 10].
  destruct (parse_signature_b64 _) as [signature|]; [|cbn; by eauto 10].
  destruct (retain_valid _ sessions !! signing_session_id sig) as [s|] eqn:Hl; cycle 1.
  { cbn. intros [H _]%retain_valid_lookup. by eauto 10. }
  apply retain_valid_lookup in Hl as [Hl _].
  assert (forall n r, seen_nonces s !! n = Some r ->
    NONCE_TTL < duration_since (locked_at clock) r \/
    seen_nonces (retain_nonces (locked_at clock) s) !! n = Some r) as Hs.
  { intros n r Hr. destruct (decide (duration_since (locked_at clock) r <= NONCE_TTL)).
    - right. by apply seen_after_retain.
    - left. lia. }
  cbv zeta. repeat case_decide; [|destruct (verify _ _ _)]; cbn [fst];
    (rewrite lookup_insert; case_decide; [intros [= <-]|intros [H' _]%retain_valid_lookup;
       by eauto 10]); subst; exists s; (split; [done|]);
    intros n r [?|Hr]%Hs; try (by left); right; try (by eauto).
  cbn. destruct (decide (n = nonce sig)) as [-> | Hn].
  - exists (recorded_at clock). rewrite lookup_insert_eq. eauto.
  - exists r. rewrite lookup_insert_ne by done. eauto.
Qed.

(** Whatever a verification leaves of a session has the key it had. *)
Lemma verify_request_key clock sig method path body
    (sessions : gmap Uuid RelaySigningSession) id session :
  (verify_request clock sig method path body sessions).1 !! id = Some session ->
  exists before, sessions !! id = Some before /\ peer_public_key session = peer_public_key before.
Proof.
  unfold verify_request. destruct (validate_timestamp _ _) as [_|]; [|cbn; by eauto].
  destruct (parse_signature_b64 _) as [signature|]; [|cbn; by eauto].
  destruct (retain_valid _ sessions !! signing_session_id sig) as [s|] eqn:Hl; cycle 1.
  { cbn. intros [H _]%retain_valid_lookup. by eauto. }
  apply retain_valid_lookup in Hl as [Hl _]. cbv zeta.
  repeat case_decide; [|destruct (verify _ _ _)]; cbn [fst];
    (rewrite lookup_insert; case_decide; [intros [= <-]; subst; by exists s|
       intros [H' _]%retain_valid_lookup; by eauto]).
Qed.

Lemma spent_verify clock sig method path body sessions now use :
  spent sessions now use -> recorded_at use.1 <= now ->
  now <= locked_at clock -> locked_at clock <= recorded_at clock ->
  spent (verify_request clock sig method path body sessions).1 (recorded_at clock) use.
Proof.
  intros Hsp Hr Hl Hrec. unfold spent.
  destruct ((verify_request _ _ _ _ _ sessions).1 !! signing_session_id use.2) as [s|] eqn:Hs;
    [right|by left].
  apply verify_request_lookup in Hs as (before & Hb & Hn).
  destruct Hsp as [H|[(session & r & H & Hseen & Hle)|H]]; [congruence| |right; lia].
  rewrite Hb in H. injection H as <-.
  destruct (Hn _ _ Hseen) as [Hgone|(r' & Hr' & Heq)].
  - right. unfold duration_since, NONCE_TTL, from_secs, nanos_per_second in *. lia.
  - left. exists s, r'. split_and!; [done..|]. lia.
Qed.

Lemma spent_again clock sig method path body sessions now use :
  spent sessions now use -> now <= locked_at clock -> recorded_at use.1 <= now ->
  signing_session_id sig = signing_session_id use.2 -> nonce sig = nonce use.2 ->
  (verify_request clock sig method path body sessions).2 = Ok tt ->
  NONCE_TTL < locked_at clock - recorded_at use.1.
Proof.
  intros Hsp Hl Hr Hid Hno (_ & _ & _ & session & _ & _ & Hse & _ & Hf & _)%verify_accepts.
  rewrite Hid in Hse. rewrite Hno in Hf.
  destruct Hsp as [H|[(s & r & H & Hseen & Hle)|H]]; [congruence| |lia].
  rewrite Hse in H. injection H as <-. specialize (Hf r Hseen).
  unfold duration_since, NONCE_TTL, from_secs, nanos_per_second in *. lia.
Qed.

Lemma spent_register sessions now use id key at_ :
  spent sessions now use -> id <> signing_session_id use.2 ->
  spent (register_session id key at_ sessions) now use.
Proof.
  intros Hsp Hid. unfold spent, register_session. by rewrite lookup_insert_ne.
Qed.

Lemma spent_new clock sig method path body sessions :
  (verify_request clock sig method path body sessions).2 = Ok tt ->
  spent (verify_request clock sig method path body sessions).1 (recorded_at clock) (clock, sig).
Proof.
  unfold spent, verify_request. destruct (validate_timestamp _ _); [|done].
  destruct (parse_signature_b64 _); [|done].
  destruct (retain_valid _ sessions !! _) as [session|]; [|done]. cbv zeta.
  case_decide; [done|]. destruct (verify _ _ _); [|done]. intros _. right. left.
  exists (record_use (nonce sig) (recorded_at clock) (retain_nonces (locked_at clock) session)).
  exists (recorded_at clock). cbn. rewrite !lookup_insert_eq. split_and!; [done..|lia].
Qed.

Definition registered (calls : list Call) : list Uuid :=
  omap (fun c => match c with Register id _ _ => Some id | Verify _ _ _ _ _ => None end) calls.

(** Verifications hold the lock from [locked_at] to [recorded_at], one after another. *)
Fixpoint one_at_a_time (now : Z) (calls : list Call) : Prop :=
  match calls with
  | [] => True
  | Register _ _ _ :: calls => one_at_a_time now calls
  | Verify clock _ _ _ _ :: calls =>
      now <= locked_at clock /\ locked_at clock <= recorded_at clock /\
      one_at_a_time (recorded_at clock) calls
  end.

(** The wall clock runs with the monotonic clock, and the lock is had soon enough
    after the timestamp was validated. *)
Definition clocks_agree (offset max_wait : Z) (clock : Clock) : Prop :=
  wall clock = offset + validated_at clock /\
  0 <= locked_at clock - validated_at clock <= max_wait.

Definition call_agrees (offset max_wait : Z) (c : Call) : Prop :=
  match c with Verify clock _ _ _ _ => clocks_agree offset max_wait clock | _ => True end.

Definition same_request (a b : Clock * RequestSignature) : Prop :=
  signing_session_id a.2 = signing_session_id b.2 /\ nonce a.2 = nonce b.2 /\
  timestamp a.2 = timestamp b.2.

(** Both within half a minute of the same timestamp, by the wall clock. *)
Lemma validated_close w1 w2 ts :
  validate_timestamp w1 ts = Ok tt -> validate_timestamp w2 ts = Ok tt ->
  w2 - w1 < from_secs 61.
Proof.
  intros (s1 & H1 & ?)%validate_timestamp_ok (s2 & H2 & ?)%validate_timestamp_ok.
  unfold unix_seconds, MAX_TIMESTAMP_DRIFT_SECS, from_secs, nanos_per_second in *.
  repeat case_decide; try done. injection H1 as <-. injection H2 as <-.
  pose proof (Z.div_mod w1 1000000000). pose proof (Z.mod_pos_bound w1 1000000000).
  pose proof (Z.div_mod w2 1000000000). pose proof (Z.mod_pos_bound w2 1000000000). lia.
Qed.

(** A use the past can vouch for. *)
Definition past_use (offset max_wait : Z) (sessions : gmap Uuid RelaySigningSession) (now : Z)
    (calls : list Call) (use : Clock * RequestSignature) : Prop :=
  spent sessions now use /\ recorded_at use.1 <= now /\
  locked_at use.1 <= recorded_at use.1 /\
  clocks_agree offset max_wait use.1 /\
  validate_timestamp (wall use.1) (timestamp use.2) = Ok tt /\
  signing_session_id use.2 ∉ registered calls.

Lemma past_use_register offset max_wait sessions now calls id key at_ use :
  past_use offset max_wait sessions now (Register id key at_ :: calls) use ->
  past_use offset max_wait (register_session id key at_ sessions) now calls use.
Proof.
  intros (Hs & Hr & Hl & Hc & Hv & Hn). change (registered _) with (id :: registered calls) in Hn.
  apply not_elem_of_cons in Hn as [Hid Hn].
  split_and!; [|done..]. by apply spent_register.
Qed.

Lemma past_use_verify offset max_wait sessions now calls clock sig method path body use :
  now <= locked_at clock -> locked_at clock <= recorded_at clock ->
  past_use offset max_wait sessions now (Verify clock sig method path body :: calls) use ->
  past_use offset max_wait (verify_request clock sig method path body sessions).1
    (recorded_at clock) calls use.
Proof.
  intros H1 H2 (Hs & Hr & Hl & Hc & Hv & Hn). split_and!; [|lia|done..].
  by apply (spent_verify _ _ _ _ _ _ now).
Qed.

(** An accepted request is none of the past ones. *)
Lemma past_use_differs offset max_wait sessions now calls clock sig method path body use :
  max_wait <= from_secs 59 -> now <= locked_at clock -> clocks_agree offset max_wait clock ->
  past_use offset max_wait sessions now calls use ->
  (verify_request clock sig method path body sessions).2 = Ok tt ->
  ~ same_request use (clock, sig).
Proof.
  intros Hw Hl [Hwall Hwait] (Hs & Hr & Hlr & [Hwall' Hwait'] & Hv & _) Hok (Hid & Hno & Hts).
  cbn in Hid, Hno, Hts.
  pose proof (spent_again _ _ _ _ _ _ _ _ Hs Hl Hr (eq_sym Hid) (eq_sym Hno) Hok) as Hgap.
  pose proof Hok as [Hnow _]%verify_accepts. apply validate_timestamp_ok in Hnow.
  rewrite Hts in Hv. pose proof (validated_close _ _ _ Hv Hnow).
  unfold NONCE_TTL, from_secs, nanos_per_second in *. lia.
Qed.

Lemma past_use_new offset max_wait sessions calls clock sig method path body :
  locked_at clock <= recorded_at clock -> clocks_agree offset max_wait clock ->
  (forall id, is_Some (sessions !! id) -> id ∉ registered calls) ->
  (verify_request clock sig method path body sessions).2 = Ok tt ->
  past_use offset max_wait (verify_request clock sig method path body sessions).1
    (recorded_at clock) calls (clock, sig).
Proof.
  intros Hlr Hc Hdom Hok. pose proof Hok as (Hnow & _ & _ & session & _ & _ & Hse & _)%verify_accepts.
  apply validate_timestamp_ok in Hnow.
  split_and!; [by apply spent_new|cbn; lia|done..|]. by apply Hdom; eexists.
Qed.

Lemma serve_unique offset max_wait calls : forall sessions now past,
  max_wait <= from_secs 59 ->
  Forall (past_use offset max_wait sessions now calls) past ->
  one_at_a_time now calls -> Forall (call_agrees offset max_wait) calls ->
  NoDup (registered calls) ->
  (forall id, is_Some (sessions !! id) -> id ∉ registered calls) ->
  Forall (fun b => Forall (fun a => ~ same_request a b) past) (serve sessions calls).2 /\
  ForallOrdPairs (fun a b => ~ same_request a b) (serve sessions calls).2.
Proof.
  induction calls as [|c calls IH]; intros sessions now past Hw Hp Ho Ha Hnd Hdom;
    [split; constructor|].
  apply Forall_cons in Ha as [Hac Ha].
  destruct c as [id key at_|clock sig m p b].
  - change (registered _) with (id :: registered calls) in Hnd, Hdom.
    apply NoDup_cons in Hnd as [Hid Hnd]. cbn [serve call].
    destruct (IH (register_session id key at_ sessions) now past) as [H1 H2]; try done.
    + eapply Forall_impl; [exact Hp|]. intros use. apply past_use_register.
    + intros id' Hid'. unfold register_session in Hid'. rewrite lookup_insert in Hid'.
      case_decide; [by subst|]. specialize (Hdom id' Hid'). set_solver.
    + by destruct (serve _ calls).
  - destruct Ho as (Hl & Hr & Ho).
    change (registered _) with (registered calls) in Hnd, Hdom. cbn [serve call].
    pose proof (past_use_verify offset max_wait sessions now calls clock sig m p b) as Hpast.
    pose proof (past_use_differs offset max_wait sessions now calls clock sig m p b) as Hdiff.
    pose proof (past_use_new offset max_wait sessions calls clock sig m p b) as Hnew.
    assert (forall id, is_Some ((verify_request clock sig m p b sessions).1 !! id) ->
      id ∉ registered calls) as Hdom'.
    { intros id [s (before & Hb & _)%verify_request_lookup]. by apply Hdom; eexists. }
    destruct (verify_request clock sig m p b sessions) as [sessions' r].
    cbn [fst snd] in *.
    assert (Forall (past_use offset max_wait sessions' (recorded_at clock) calls) past) as Hp'.
    { eapply Forall_impl; [exact Hp|]. intros use Huse. by apply Hpast. }
    destruct r as [[]|e]; cbn [is_ok].
    + destruct (IH sessions' (recorded_at clock) ((clock, sig) :: past)) as [H1 H2]; try done.
      { constructor; [by apply Hnew|done]. }
      destruct (serve sessions' calls) as [s' accepted]. cbn [snd] in *. split.
      * constructor.
        -- eapply Forall_impl; [exact Hp|]. intros use Huse. by apply Hdiff.
        -- eapply Forall_impl; [exact H1|]. intros x Hx. by apply Forall_cons in Hx as [_ Hx].
      * constructor; [|done]. eapply Forall_impl; [exact H1|]. intros x Hx.
        by apply Forall_cons in Hx as [Hx _].
    + destruct (IH sessions' (recorded_at clock) past) as [H1 H2]; try done.
      by destruct (serve sessions' calls).
Qed.

(** C9: No replay: as long as the wall clock keeps pace with the monotonic clock and no
    verification waits more than 59 seconds for the lock after checking its timestamp,
    the service accepts every signed request at most once; two accepted verifications
    never agree on session, nonce and timestamp, however the calls and registrations of
    fresh sessions interleave and although nonces are forgotten after two minutes. *)
Theorem requests_accepted_once offset max_wait calls now :
  max_wait <= from_secs 59 -> one_at_a_time now calls ->
  Forall (call_agrees offset max_wait) calls -> NoDup (registered calls) ->
  ForallOrdPairs (fun a b => ~ same_request a b) (serve ∅ calls).2.
Proof.
  intros Hw Ho Ha Hnd. eapply (serve_unique offset max_wait calls ∅ now []); try done.
  intros id. rewrite lookup_empty. by intros [? [=]].
Qed.

End Service.
(** ** Instances *)

#[local] Existing Instance Plain.primitives.

Definition sample_signature : RequestSignature :=
  {| signing_session_id := 7%N; timestamp := 1000; nonce := 9%N; signature_b64 := "" |}.

Example signing_message_binds_witness :
  contains_char "/" "GET" = false /\
  ("/a|b"%string = "/a|b" /\ sha256 "x" = sha256 "x").
Proof.
  split; [done|].
  destruct (signing_message_binds (Prims := Plain.primitives) sample_signature sample_signature
    "GET" "GET" "/a|b" "/a|b" "x" "x" eq_refl eq_refl eq_refl eq_refl eq_refl)
    as (_ & _ & Hp & _ & _ & Hb).
  split; [exact Hp|exact Hb].
Defined.

(** A response whose signature passes for a request with method [200]. *)
Example response_is_no_request_witness :
  build_request_signing_message sample_signature "200" ("/p|" +:+ uuid_display 3) "body" =
    build_response_signing_message 1000 200 "/p" 3 7 9 "body" /\
  "200"%string = display 200.
Proof.
  assert (build_request_signing_message sample_signature "200" ("/p|" +:+ uuid_display 3) "body" =
    build_response_signing_message 1000 200 "/p" 3 7 9 "body") as H by (by vm_compute).
  split; [exact H|].
  destruct (response_is_no_request (Prims := Plain.primitives) sample_signature "200"
    ("/p|" +:+ uuid_display 3) "body" 1000 200 "/p" 3%N 7%N 9%N "body" eq_refl eq_refl eq_refl H) as [Hm _].
  exact Hm.
Defined.

Definition signed (key : string) (sid nonce : Uuid) (ts : Z) : RequestSignature :=
  let sig := {| signing_session_id := sid; timestamp := ts; nonce := nonce;
                signature_b64 := "" |} in
  {| signing_session_id := sid; timestamp := ts; nonce := nonce;
     signature_b64 := Plain.encode (key +:+ build_request_signing_message sig "GET" "/x" "") |}.

Definition clock_at (t : Z) : Clock :=
  {| wall := from_secs t; validated_at := from_secs t; locked_at := from_secs t;
     recorded_at := from_secs t |}.

(** Two requests, and the replay of the first at the end of its window. *)
Definition sample_calls : list Call :=
  [Register 7%N ("key" : VerifyingKey) 0;
   Verify (clock_at 100) (signed "key" 7 1 100) "GET" "/x" "";
   Verify (clock_at 105) (signed "key" 7 2 100) "GET" "/x" "";
   Verify (clock_at 130) (signed "key" 7 1 100) "GET" "/x" ""].

Example requests_accepted_once_witness :
  length (serve ∅ sample_calls).2 = 2%nat /\
  ForallOrdPairs (fun a b => ~ same_request a b) (serve ∅ sample_calls).2.
Proof.
  split; [by vm_compute|].
  apply (requests_accepted_once 0 (from_secs 59) sample_calls 0).
  - done.
  - by vm_compute.
  - repeat constructor; by vm_compute.
  - by repeat constructor; intros ?%not_elem_of_nil.
Defined.

Example rejection_changes_nothing_witness :
  let sessions := (serve ∅ (take 2 sample_calls)).1 in
  let r := verify_request (clock_at 130) (signed "key" 7 1 100) "GET" "/x" "" sessions in
  exists before session, sessions !! 7%N = Some before /\ r.1 !! 7%N = Some session /\
    last_used_at session = last_used_at before.
Proof.
  intros sessions r. destruct (sessions !! 7%N) as [b|] eqn:Hb; [|by vm_compute in Hb]. exists b.
  destruct (rejection_changes_nothing (clock_at 130) (signed "key" 7 1 100) "GET" "/x" "" sessions ReplayNonce)
    as [Hlive Hsame]; [by vm_compute|].
  destruct (Hlive 7%N b Hb) as [session Hs].
  - vm_compute in Hb. injection Hb as <-. vm_compute. discriminate.
  - vm_compute in Hb. injection Hb as <-. vm_compute. discriminate.
  - exists session. split; [reflexivity|]. split; [exact Hs|].
    destruct (Hsame 7%N session Hs) as (b' & Hb' & _ & _ & Hl & _). congruence.
Defined.

End RelaySigning.
