(* ===== verification/RelayFrames.v ===== *)
(** * The signed WebSocket channel of the relay

    crates/relay-protocol/src/lib.rs and crates/relay-ws/src/{crypto,signed}.rs: native
    messages as frames, frames in signed envelopes with consecutive sequence numbers, and
    the receiving loop.  The JSON of an envelope is serde's and a parameter. *)
From S2P Require Import Prelude Text Format RelaySigning.
From Stdlib Require Import Ascii.
Import RelaySigning.

Module RelayFrames.

(** ** Frames *)

(* crates/relay-protocol/src/lib.rs:13-19 RelayWsMessageType *)
Inductive RelayWsMessageType := Text | Binary | Ping | Pong | Close.

#[global] Instance message_type_eq_dec : EqDecision RelayWsMessageType.
Proof. solve_decision. Defined.

(* crates/relay-protocol/src/lib.rs:22-30 RelayWsMessageType::as_str *)
Definition as_str (t : RelayWsMessageType) : string :=
  match t with
  | Text => "text" | Binary => "binary" | Ping => "ping" | Pong => "pong" | Close => "close"
  end.

(* crates/relay-protocol/src/lib.rs:34-37 RelayWsFrame *)
Record RelayWsFrame := { msg_type : RelayWsMessageType; payload : string }.

(** [axum::extract::ws::Message]. *)
Inductive Message :=
| MText (text : string)
| MBinary (payload : string)
| MPing (payload : string)
| MPong (payload : string)
| MClose (frame : option (Z * string)).

(** [String::from_utf8]: the well-formed byte sequences of the Unicode standard.  [k]
    continuation bytes are still to come and the next one lies in [lo]..[hi]. *)
Fixpoint utf8_from (k : nat) (lo hi : N) (s : string) : bool :=
  match s with
  | EmptyString => match k with O => true | _ => false end
  | String c s =>
      let b := N_of_ascii c in
      match k with
      | O => if (b <? 0x80)%N then utf8_from 0 0 0 s
             else if (b <? 0xC2)%N then false
             else if (b <? 0xE0)%N then utf8_from 1 0x80 0xBF s
             else if (b =? 0xE0)%N then utf8_from 2 0xA0 0xBF s
             else if (b =? 0xED)%N then utf8_from 2 0x80 0x9F s
             else if (b <? 0xF0)%N then utf8_from 2 0x80 0xBF s
             else if (b =? 0xF0)%N then utf8_from 3 0x90 0xBF s
             else if (b <? 0xF4)%N then utf8_from 3 0x80 0xBF s
             else if (b =? 0xF4)%N then utf8_from 3 0x80 0x8F s
             else false
      | S k => if (lo <=? b)%N && (b <=? hi)%N then utf8_from k 0x80 0xBF s else false
      end
  end.

Definition is_utf8 (s : string) : bool := utf8_from 0 0 0 s.

(** [u16::to_be_bytes] and [from_be_bytes]. *)
Definition u16_bytes (code : Z) : string :=
  String (ascii_of_N (Z.to_N (code `div` 256))) (String (ascii_of_N (Z.to_N (code `mod` 256))) "").
Definition u16_of (hi lo : ascii) : Z := Z.of_N (N_of_ascii hi) * 256 + Z.of_N (N_of_ascii lo).

(* crates/relay-protocol/src/lib.rs:48-69 into_frame *)
Definition into_frame (m : Message) : RelayWsFrame :=
  match m with
  | MText text => {| msg_type := Text; payload := text |}
  | MBinary payload => {| msg_type := Binary; payload := payload |}
  | MPing payload => {| msg_type := Ping; payload := payload |}
  | MPong payload => {| msg_type := Pong; payload := payload |}
  | MClose None => {| msg_type := Close; payload := "" |}
  | MClose (Some (code, reason)) => {| msg_type := Close; payload := u16_bytes code +:+ reason |}
  end.

Inductive FrameError := InvalidUtf8 | InvalidClosePayload.

(* crates/relay-protocol/src/lib.rs:71-96 try_from_frame *)
Definition try_from_frame (frame : RelayWsFrame) : result Message FrameError :=
  match msg_type frame with
  | Text => if is_utf8 (payload frame) then Ok (MText (payload frame)) else Err InvalidUtf8
  | Binary => Ok (MBinary (payload frame))
  | Ping => Ok (MPing (payload frame))
  | Pong => Ok (MPong (payload frame))
  | Close =>
      match payload frame with
      | EmptyString => Ok (MClose None)
      | String _ EmptyString => Err InvalidClosePayload
      | String hi (String lo reason) =>
          if is_utf8 reason then Ok (MClose (Some (u16_of hi lo, reason))) else Err InvalidUtf8
      end
  end.

(** What a native library can hold: text is UTF-8 and a close code is 16 bits. *)
Definition well_formed (m : Message) : Prop :=
  match m with
  | MText text => is_utf8 text = true
  | MClose (Some (code, reason)) => 0 <= code <= u16_max /\ is_utf8 reason = true
  | _ => True
  end.

Lemma u16_roundtrip code :
  0 <= code <= u16_max ->
  u16_of (ascii_of_N (Z.to_N (code `div` 256))) (ascii_of_N (Z.to_N (code `mod` 256))) = code.
Proof.
  unfold u16_of, u16_max. intros Hc.
  pose proof (Z.div_mod code 256). pose proof (Z.mod_pos_bound code 256).
  assert (code `div` 256 < 256) by (apply Z.div_lt_upper_bound; lia).
  assert (0 <= code `div` 256) by (apply Z.div_pos; lia).
  rewrite !N_ascii_embedding by lia. lia.
Qed.

(** A message survives the frame: whatever native message is wrapped, text, binary,
    ping, pong or a close with or without a code and a reason, the other end unwraps the
    same message. *)
Theorem frame_roundtrip m : well_formed m -> try_from_frame (into_frame m) = Ok m.
Proof.
  destruct m as [text|p|p|p|[[code reason]|]]; cbn [well_formed]; try done.
  - unfold try_from_frame. cbn [into_frame msg_type payload]. by intros ->.
  - intros [Hc Hr]. unfold try_from_frame. cbn [into_frame msg_type payload]. unfold u16_bytes.
    rewrite !sapp_cons, sapp_nil_l, Hr, u16_roundtrip by done. done.
Qed.

Example frame_roundtrip_witness :
  try_from_frame (into_frame (MClose (Some (1001, "going away"%string))))
    = Ok (MClose (Some (1001, "going away"%string))).
Proof. apply frame_roundtrip. split; [unfold u16_max; lia|by vm_compute]. Defined.

(** ** Envelopes *)

(* crates/relay-ws/src/crypto.rs:135-141 SignedWsEnvelope *)
Record SignedWsEnvelope := {
  version : Z;
  seq : Z;
  envelope_type : RelayWsMessageType;
  payload_b64 : string;
  envelope_signature_b64 : string;
}.

(** serde's JSON of an envelope, and the signature of the sending side. *)
Class EnvelopeJson := {
  json_to_vec : SignedWsEnvelope -> string;
  json_from_slice : string -> option SignedWsEnvelope;
}.
Class EnvelopeJsonLaws `{!EnvelopeJson} : Prop := {
  json_from_to e : json_from_slice (json_to_vec e) = Some e;
}.

(* crates/relay-ws/src/crypto.rs:132-132 ENVELOPE_VERSION *)
Definition ENVELOPE_VERSION : Z := 1.

Section Channel.
Context `{Prims : Primitives} `{Json : EnvelopeJson}.

(* crates/relay-ws/src/crypto.rs:143-156 ws_signing_input *)
Definition ws_signing_input (sig : RequestSignature) (seq : Z) (t : RelayWsMessageType)
    (payload : string) : string :=
  let payload_hash := b64_encode (sha256 payload) in
  fields2 "v1" (fields2 (uuid_display (signing_session_id sig))
    (fields2 (uuid_display (nonce sig)) (fields2 (display seq)
      (fields2 (as_str t) payload_hash)))).

(** [sign] is [RelaySigningService::sign_bytes]. *)
(* crates/relay-ws/src/crypto.rs:40-58 WsFrameSigner::encode *)
Definition encode (sign : string -> Signature) (sig : RequestSignature) (outbound_seq : Z)
    (frame : RelayWsFrame) : Z * string :=
  let outbound_seq := saturating_add u64_max outbound_seq 1 in
  let signing_input := ws_signing_input sig outbound_seq (msg_type frame) (payload frame) in
  let envelope :=
    {| version := ENVELOPE_VERSION; seq := outbound_seq; envelope_type := msg_type frame;
       payload_b64 := b64_encode (payload frame);
       envelope_signature_b64 := b64_encode (signature_to_bytes (sign signing_input)) |} in
  (outbound_seq, json_to_vec envelope).

(* crates/relay-ws/src/crypto.rs:65-69 WsFrameVerifier *)
Record WsFrameVerifier := {
  request_signature : RequestSignature;
  inbound_seq : Z;
  peer_verify_key : VerifyingKey;
}.

(* crates/relay-ws/src/crypto.rs:72-78 WsFrameVerifier::new *)
Definition new_verifier (sig : RequestSignature) (key : VerifyingKey) : WsFrameVerifier :=
  {| request_signature := sig; inbound_seq := 0; peer_verify_key := key |}.

Inductive DecodeError :=
| InvalidJson | UnsupportedVersion | InvalidSequence | InvalidPayload
| InvalidSignatureEncoding | InvalidFrameSignature.

(* crates/relay-ws/src/crypto.rs:83-125 WsFrameVerifier::decode *)
Definition decode (v : WsFrameVerifier) (raw : string)
    : result (WsFrameVerifier * RelayWsFrame) DecodeError :=
  let? envelope := ok_or (json_from_slice raw) InvalidJson in
  if decide (version envelope <> ENVELOPE_VERSION) then Err UnsupportedVersion
  else if decide (seq envelope <> saturating_add u64_max (inbound_seq v) 1)
  then Err InvalidSequence
  else
    let? payload := ok_or (b64_decode (payload_b64 envelope)) InvalidPayload in
    let signing_input :=
      ws_signing_input (request_signature v) (seq envelope) (envelope_type envelope) payload in
    let? signature_bytes :=
      ok_or (b64_decode (envelope_signature_b64 envelope)) InvalidSignatureEncoding in
    let? signature := ok_or (signature_from_slice signature_bytes) InvalidFrameSignature in
    if verify (peer_verify_key v) signing_input signature
    then Ok ({| request_signature := request_signature v; inbound_seq := seq envelope;
                peer_verify_key := peer_verify_key v |},
             {| msg_type := envelope_type envelope; payload := payload |})
    else Err InvalidFrameSignature.

(** Sending frames one after the other. *)
Fixpoint encode_all (sign : string -> Signature) (sig : RequestSignature) (outbound_seq : Z)
    (frames : list RelayWsFrame) : list string :=
  match frames with
  | [] => []
  | f :: frames =>
      let (outbound_seq, raw) := encode sign sig outbound_seq f in
      raw :: encode_all sign sig outbound_seq frames
  end.

(** What a reader takes from the socket by calling [recv] again and again, errors
    included, until the peer closes. *)
(* crates/relay-ws/src/signed.rs:100-116 SignedWebSocket::recv *)
Fixpoint recv_all (v : WsFrameVerifier) (incoming : list RelayWsFrame)
    : list (result RelayWsFrame DecodeError) :=
  match incoming with
  | [] => []
  | frame :: incoming =>
      match msg_type frame with
      | Ping | Pong => recv_all v incoming
      | Close => []
      | Text | Binary =>
          match decode v (payload frame) with
          | Ok (v, decoded) => Ok decoded :: recv_all v incoming
          | Err e => Err e :: recv_all v incoming
          end
      end
  end.

Definition taken {E} (rs : list (result RelayWsFrame E)) : list RelayWsFrame :=
  omap (fun r => match r with Ok f => Some f | Err _ => None end) rs.

(** ** The receiver sees what was sent, in order *)

Context `{Laws : !PrimitiveLaws} `{JsonLaws : !EnvelopeJsonLaws}.

Lemma as_str_no_bar t : contains_char bar (as_str t) = false.
Proof. by destruct t. Qed.

Lemma ws_signing_input_inj sig seq1 seq2 t1 t2 p1 p2 :
  ws_signing_input sig seq1 t1 p1 = ws_signing_input sig seq2 t2 p2 ->
  seq1 = seq2 /\ t1 = t2 /\ sha256 p1 = sha256 p2.
Proof.
  unfold ws_signing_input. intros H.
  apply fields_first in H as [_ H]; [|done..].
  apply fields_first in H as [_ H]; [|apply uuid_no_bar..].
  apply fields_first in H as [_ H]; [|apply uuid_no_bar..].
  apply fields_first in H as [Hs H]; [|apply display_no_bar..].
  apply fields_first in H as [Ht H]; [|apply as_str_no_bar..].
  apply display_inj in Hs. split_and!; [done|by destruct t1, t2|].
  assert (Some (sha256 p1) = Some (sha256 p2)) as Hsome
    by (by rewrite <- !b64_decode_encode, H).
  by injection Hsome.
Qed.

Lemma decode_ok v raw v' f :
  decode v raw = Ok (v', f) ->
  request_signature v' = request_signature v /\ peer_verify_key v' = peer_verify_key v /\
  inbound_seq v' = saturating_add u64_max (inbound_seq v) 1 /\
  exists signature, verify (peer_verify_key v)
    (ws_signing_input (request_signature v) (inbound_seq v') (msg_type f) (payload f)) signature
    = true.
Proof.
  unfold decode. intros (envelope & _ & H)%rbind_ok.
  case_decide; [done|]. case_decide as Hseq; [done|].
  apply rbind_ok in H as (p & _ & H). cbv zeta in H.
  apply rbind_ok in H as (bytes & _ & H). apply rbind_ok in H as (signature & _ & H).
  destruct (verify _ _ _) eqn:Hv; [|done]. injection H as <- <-.
  split_and!; cbn; try done; try lia. by eexists.
Qed.

(** The messages of this channel that the peer's key ever signed are those of the frames
    it sent. *)
Definition only_sent (key : VerifyingKey) (sig : RequestSignature) (sent : list RelayWsFrame)
    : Prop :=
  forall n t p s, verify key (ws_signing_input sig n t p) s = true ->
    exists i f, sent !! i = Some f /\
      ws_signing_input sig n t p =
        ws_signing_input sig (Z.of_nat i + 1) (msg_type f) (payload f).

Lemma recv_all_prefix v incoming sent k :
  only_sent (peer_verify_key v) (request_signature v) sent ->
  (forall p q, sha256 p = sha256 q -> p = q) ->
  Z.of_nat (length sent) < u64_max ->
  inbound_seq v = Z.of_nat k -> (k <= length sent)%nat ->
  taken (recv_all v incoming) `prefix_of` drop k sent.
Proof.
  intros Hsent Hhash Hlen. revert v k Hsent.
  induction incoming as [|frame incoming IH]; intros v k Hsent Hk Hkl; cbn [recv_all].
  { apply prefix_nil. }
  assert (match decode v (payload frame) with
          | Ok (v, decoded) => taken (Ok decoded :: recv_all v incoming)
          | Err e => taken (Err e :: recv_all v incoming)
          end `prefix_of` drop k sent) as Hdata.
  { destruct (decode v (payload frame)) as [[v' f]|e] eqn:Hd; [|by apply IH].
    apply decode_ok in Hd as (Hr & Hp & Hi & signature & Hv).
    pose proof Hsent as Hs. apply Hs in Hv as (i & f' & Hf & Heq).
    apply ws_signing_input_inj in Heq as (Hseq & Ht & Hpay%Hhash).
    pose proof (lookup_lt_Some _ _ _ Hf).
    unfold saturating_add in Hi. assert (i = k) as -> by lia.
    rewrite (drop_S _ _ _ Hf). cbn.
    assert (f = f') as -> by (destruct f, f'; cbn in *; congruence).
    apply prefix_cons. apply IH; [by rewrite Hr, Hp|lia|lia]. }
  destruct (msg_type frame); try by apply IH.
  - by destruct (decode v (payload frame)) as [[v' f]|e].
  - by destruct (decode v (payload frame)) as [[v' f]|e].
  - apply prefix_nil.
Qed.

(** The channel cannot be tampered with: if the peer's key signed, for this session
    and request, only the frames the peer sent, and the digest has no collisions, then
    whatever arrives, replayed, reordered, dropped, altered or injected, and however
    many errors the reader ignores, the frames it takes are a prefix of the frames that
    were sent. *)
Theorem received_is_a_prefix sig key sent incoming :
  only_sent key sig sent -> (forall p q, sha256 p = sha256 q -> p = q) ->
  Z.of_nat (length sent) < u64_max ->
  taken (recv_all (new_verifier sig key) incoming) `prefix_of` sent.
Proof.
  intros Hs Hh Hl. apply (recv_all_prefix (new_verifier sig key) incoming sent 0); try done. lia.
Qed.

Definition binary_frame (raw : string) : RelayWsFrame :=
  {| msg_type := Binary; payload := raw |}.

Lemma decode_encode sign sig key n f :
  (forall m, verify key m (sign m) = true) -> 0 <= n < u64_max ->
  decode {| request_signature := sig; inbound_seq := n; peer_verify_key := key |}
    (encode sign sig n f).2 =
  Ok ({| request_signature := sig; inbound_seq := n + 1; peer_verify_key := key |}, f).
Proof.
  intros Hsign Hn. unfold decode, encode. cbn [snd]. rewrite json_from_to. cbn.
  unfold saturating_add. rewrite Z.min_r by lia.
  rewrite !decide_False by (intros []; done).
  rewrite !b64_decode_encode. cbn. rewrite signature_from_to. cbn. rewrite Hsign.
  by destruct f.
Qed.

Lemma recv_encoded sign sig key frames n :
  (forall m, verify key m (sign m) = true) -> 0 <= n -> n + Z.of_nat (length frames) <= u64_max ->
  recv_all {| request_signature := sig; inbound_seq := n; peer_verify_key := key |}
    (binary_frame <$> encode_all sign sig n frames) = Ok <$> frames.
Proof.
  intros Hsign. revert n. induction frames as [|f frames IH]; intros n Hn Hl; [done|].
  cbn [encode_all]. destruct (encode sign sig n f) as [n' raw] eqn:He.
  assert (n' = n + 1) as ->.
  { injection He as <- _. unfold saturating_add. cbn [length] in Hl. lia. }
  rewrite fmap_cons. cbn [recv_all binary_frame msg_type payload].
  assert (raw = (encode sign sig n f).2) as -> by (by rewrite He).
  rewrite decode_encode by (done || cbn [length] in Hl; lia).
  rewrite fmap_cons, IH; [done|lia|]. cbn [length] in Hl. lia.
Qed.

(** On an honest transport nothing is lost: the frames the signer encodes, delivered
    in order, all decode to the frames that were sent. *)
Theorem honest_delivery sign sig key frames :
  (forall m, verify key m (sign m) = true) -> Z.of_nat (length frames) <= u64_max ->
  recv_all (new_verifier sig key) (binary_frame <$> encode_all sign sig 0 frames) = Ok <$> frames.
Proof. intros Hs Hl. by apply recv_encoded. Qed.

End Channel.
(** ** Instances *)

(** A concrete JSON: the bits of a number that codes the envelope. *)
Fixpoint bits (p : positive) : string :=
  match p with
  | xH => ""
  | xO p => String "0" (bits p)
  | xI p => String "1" (bits p)
  end.

Fixpoint unbits (s : string) : positive :=
  match s with
  | EmptyString => xH
  | String c s => if decide (c = "0"%char) then xO (unbits s) else xI (unbits s)
  end.

Lemma unbits_bits p : unbits (bits p) = p.
Proof. induction p as [p IH|p IH|]; cbn; by rewrite ?IH. Qed.

Definition type_index (t : RelayWsMessageType) : N :=
  match t with Text => 0 | Binary => 1 | Ping => 2 | Pong => 3 | Close => 4 end%N.
Definition type_of (n : N) : RelayWsMessageType :=
  match n with 0 => Text | 1 => Binary | 2 => Ping | 3 => Pong | _ => Close end%N.

#[local] Instance plain_json : EnvelopeJson := {|
  json_to_vec e := bits (countable.encode (version e, seq e, type_index (envelope_type e),
                                           payload_b64 e, envelope_signature_b64 e));
  json_from_slice s :=
    match countable.decode (unbits s) with
    | Some (v, n, t, p, g) =>
        Some {| version := v; seq := n; envelope_type := type_of t; payload_b64 := p;
                envelope_signature_b64 := g |}
    | None => None
    end;
|}.

#[local] Instance plain_json_laws : EnvelopeJsonLaws.
Proof.
  split. intros [v n t p g]. cbn. rewrite unbits_bits, countable.decode_encode. by destruct t.
Qed.

#[local] Existing Instance Plain.primitives.

Definition sample_frames : list RelayWsFrame :=
  [{| msg_type := Text; payload := "a" |}; {| msg_type := Binary; payload := "b" |}].

Definition key_sign (key : string) (m : string) : Signature := key +:+ m.

Example honest_delivery_witness :
  recv_all (new_verifier sample_signature "k")
    (binary_frame <$> encode_all (key_sign "k") sample_signature 0 sample_frames)
  = Ok <$> sample_frames.
Proof.
  apply honest_delivery; [|by vm_compute].
  intros m. by apply bool_decide_true.
Defined.

(** An attacker who replays the first envelope, delivers the second before it, and holds
    a key that signs only the two frames. *)
Definition two_message_key : Primitives := {|
  VerifyingKey := string;
  Signature := string;
  verify key message signature :=
    bool_decide (message = ws_signing_input (Prims := Plain.primitives) sample_signature 1 Text "a" \/
                 message = ws_signing_input (Prims := Plain.primitives) sample_signature 2 Binary "b");
  signature_to_bytes s := s;
  signature_from_slice := Some;
  b64_encode := Plain.encode;
  b64_decode := Plain.decode;
  sha256 s := s;
  uuid_display := uuid_display (Primitives := Plain.primitives);
|}.

Lemma two_message_laws : @PrimitiveLaws two_message_key.
Proof.
  split; cbn.
  - apply (b64_decode_encode (PrimitiveLaws := Plain.laws)).
  - apply (b64_no_bar (PrimitiveLaws := Plain.laws)).
  - done.
  - apply (uuid_display_inj (PrimitiveLaws := Plain.laws)).
  - apply (uuid_no_bar (PrimitiveLaws := Plain.laws)).
  - apply (uuid_hyphen (PrimitiveLaws := Plain.laws)).
Qed.

Definition tampered (raws : list string) : list RelayWsFrame :=
  match binary_frame <$> raws with
  | [first; second] => [second; first; first; second; second]
  | l => l
  end.

Example received_is_a_prefix_witness :
  let incoming := tampered (encode_all (Prims := two_message_key) (fun m => m) sample_signature 0
                              sample_frames) in
  length (taken (recv_all (Prims := two_message_key) (new_verifier (Prims := two_message_key) sample_signature "k") incoming))
    = 2%nat /\
  taken (recv_all (Prims := two_message_key) (new_verifier (Prims := two_message_key) sample_signature "k") incoming)
    `prefix_of` sample_frames.
Proof.
  intros incoming. split; [by vm_compute|].
  apply (received_is_a_prefix (Prims := two_message_key) (Laws := two_message_laws)).
  - intros n t p s [H | H]%bool_decide_eq_true.
    + exists 0%nat, {| msg_type := Text; payload := "a" |}. split; [done|exact H].
    + exists 1%nat, {| msg_type := Binary; payload := "b" |}. split; [done|exact H].
  - intros p q Hpq. exact Hpq.
  - by vm_compute.
Defined.

End RelayFrames.
