(* ===== verification/Pairing.v ===== *)
(** * Pairing with a relay client

    [Module TrustedKeys] is the list of trusted clients
    (crates/trusted-key-auth/src/trusted_keys.rs), [Module KeyAuth] the runtime state
    beside it (runtime.rs, refresh.rs): the one-time enrollment code, pending enrollments,
    rate limits and refresh nonces.  [Module PairingServer] is
    crates/server/src/relay_pairing/server.rs, which opens the signing sessions that
    [RelaySigning] verifies requests against.  The file is its list of clients, and the
    key exchange, its proofs and the random codes are parameters. *)
From S2P Require Import Prelude Text Format RelaySigning.
From Stdlib Require Import Ascii.

(** Third-party code of the enrollment: SPAKE2, the HMAC of a proof, and reading a
    public key. *)
Class Enrollment `{!Primitives} := {
  key_from_bytes : string -> option VerifyingKey;
  key_to_bytes : VerifyingKey -> string;
  (** The shared key and the server's message for a code and a client message. *)
  spake2_finish : string -> string -> option (string * string);
  (** [hmac context shared_key enrollment_id parts] *)
  hmac : string -> string -> Uuid -> string -> string;
}.

Module TrustedKeys.

Inductive TrustedKeyAuthError := Unauthorized | BadRequest (message : string) | TooManyRequests.

(* crates/trusted-key-auth/src/trusted_keys.rs:14-21 TrustedRelayClient *)
Record TrustedRelayClient := {
  client_id : Uuid;
  client_name : string;
  client_browser : string;
  client_os : string;
  client_device : string;
  public_key_b64 : string;
}.

Section TrustedKeys.
Context `{Prims : Primitives} `{Enr : !Enrollment}.

(* crates/trusted-key-auth/src/trusted_keys.rs:95-101 parse_public_key_base64 *)
Definition parse_public_key_base64 (raw_public_key : string)
    : result VerifyingKey TrustedKeyAuthError :=
  let? public_key_bytes := ok_or (b64_decode raw_public_key) Unauthorized in
  if decide (String.length public_key_bytes <> 32%nat) then Err Unauthorized
  else ok_or (key_from_bytes public_key_bytes) Unauthorized.

(* crates/trusted-key-auth/src/trusted_keys.rs:138-164 validate_client *)
Definition validate_client (client : TrustedRelayClient) : result unit TrustedKeyAuthError :=
  if decide (trim (client_name client) = "") then
    Err (BadRequest "Trusted key file contains invalid client name")
  else if decide (trim (client_browser client) = "") then
    Err (BadRequest "Trusted key file contains invalid client browser")
  else if decide (trim (client_os client) = "") then
    Err (BadRequest "Trusted key file contains invalid client OS")
  else if decide (trim (client_device client) = "") then
    Err (BadRequest "Trusted key file contains invalid client device")
  else
    let? _ := map_err (fun _ => BadRequest "Trusted key file contains invalid keys")
                (parse_public_key_base64 (public_key_b64 client)) in
    Ok tt.

Fixpoint validate_all (clients : list TrustedRelayClient) : result unit TrustedKeyAuthError :=
  match clients with
  | [] => Ok tt
  | client :: clients => let? _ := validate_client client in validate_all clients
  end.

(* crates/trusted-key-auth/src/trusted_keys.rs:103-125 read_trusted_clients_file *)
Definition read_trusted_clients_file (file : list TrustedRelayClient)
    : result (list TrustedRelayClient) TrustedKeyAuthError :=
  let? _ := validate_all file in Ok file.

Definition same_client (a b : TrustedRelayClient) : Prop :=
  client_id a = client_id b \/ public_key_b64 a = public_key_b64 b.
#[global] Instance same_client_dec a b : Decision (same_client a b).
Proof. apply _. Defined.

(** Replaces the first entry with the same identifier or key; [None] without one. *)
Fixpoint replace_first (client : TrustedRelayClient) (clients : list TrustedRelayClient)
    : option (list TrustedRelayClient) :=
  match clients with
  | [] => None
  | existing :: clients =>
      if decide (same_client existing client) then Some (client :: clients)
      else cons existing <$> replace_first client clients
  end.

(* crates/trusted-key-auth/src/trusted_keys.rs:28-51 upsert_trusted_client *)
Definition upsert_trusted_client (file : list TrustedRelayClient) (client : TrustedRelayClient)
    : result (list TrustedRelayClient * bool) TrustedKeyAuthError :=
  let? _ := validate_client client in
  let? clients := read_trusted_clients_file file in
  match replace_first client clients with
  | Some clients => Ok (clients, false)
  | None => Ok (clients ++ [client], true)
  end.

(* crates/trusted-key-auth/src/trusted_keys.rs:77-93 remove_trusted_client *)
Definition remove_trusted_client (file : list TrustedRelayClient) (id : Uuid)
    : result (list TrustedRelayClient * bool) TrustedKeyAuthError :=
  let? clients := read_trusted_clients_file file in
  let kept := filter (fun client => client_id client <> id) clients in
  if decide (length kept = length clients) then Ok (file, false) else Ok (kept, true).

End TrustedKeys.
End TrustedKeys.

Module KeyAuth.
Import TrustedKeys.

(* crates/trusted-key-auth/src/runtime.rs:23-29 TrustedKeyAuthRuntime *)
Record Runtime := {
  trusted_clients : list TrustedRelayClient;
  pake_enrollments : gmap Uuid (string * Z);
  enrollment_code : option string;
  rate_limit_windows : gmap string (list Z);
  refresh_nonces : gmap string Z;
}.

(* crates/trusted-key-auth/src/runtime.rs:37-37 PAKE_ENROLLMENT_TTL *)
Definition PAKE_ENROLLMENT_TTL : Duration := from_secs (5 * 60).
(* crates/trusted-key-auth/src/runtime.rs:38-38 REFRESH_NONCE_TTL *)
Definition REFRESH_NONCE_TTL : Duration := from_secs (2 * 60).

Definition with_clients (r : Runtime) cs : Runtime :=
  {| trusted_clients := cs; pake_enrollments := pake_enrollments r;
     enrollment_code := enrollment_code r; rate_limit_windows := rate_limit_windows r;
     refresh_nonces := refresh_nonces r |}.
Definition with_enrollments (r : Runtime) es : Runtime :=
  {| trusted_clients := trusted_clients r; pake_enrollments := es;
     enrollment_code := enrollment_code r; rate_limit_windows := rate_limit_windows r;
     refresh_nonces := refresh_nonces r |}.
Definition with_code (r : Runtime) c : Runtime :=
  {| trusted_clients := trusted_clients r; pake_enrollments := pake_enrollments r;
     enrollment_code := c; rate_limit_windows := rate_limit_windows r;
     refresh_nonces := refresh_nonces r |}.
Definition with_windows (r : Runtime) ws : Runtime :=
  {| trusted_clients := trusted_clients r; pake_enrollments := pake_enrollments r;
     enrollment_code := enrollment_code r; rate_limit_windows := ws;
     refresh_nonces := refresh_nonces r |}.
Definition with_nonces (r : Runtime) ns : Runtime :=
  {| trusted_clients := trusted_clients r; pake_enrollments := pake_enrollments r;
     enrollment_code := enrollment_code r; rate_limit_windows := rate_limit_windows r;
     refresh_nonces := ns |}.

(* crates/trusted-key-auth/src/runtime.rs:81-89 TrustedKeyAuthRuntime::store_pake_enrollment *)
Definition store_pake_enrollment (r : Runtime) (id : Uuid) (shared_key : string) (now : Z) : Runtime :=
  with_enrollments r (<[id := (shared_key, now)]> (pake_enrollments r)).

(* crates/trusted-key-auth/src/runtime.rs:91-98 TrustedKeyAuthRuntime::take_pake_enrollment *)
Definition take_pake_enrollment (r : Runtime) (id : Uuid) (now : Z) : Runtime * option string :=
  match pake_enrollments r !! id with
  | None => (r, None)
  | Some (shared_key, created_at) =>
      (with_enrollments r (delete id (pake_enrollments r)),
       if decide (PAKE_ENROLLMENT_TTL < RelaySigning.duration_since now created_at) then None
       else Some shared_key)
  end.

(* crates/trusted-key-auth/src/runtime.rs:100-108 TrustedKeyAuthRuntime::get_or_set_enrollment_code *)
Definition get_or_set_enrollment_code (r : Runtime) (new_code : string) : Runtime * string :=
  match enrollment_code r with
  | Some existing_code => (r, existing_code)
  | None => (with_code r (Some new_code), new_code)
  end.

(* crates/trusted-key-auth/src/runtime.rs:110-118 TrustedKeyAuthRuntime::consume_enrollment_code *)
Definition consume_enrollment_code (r : Runtime) (code : string) : Runtime * bool :=
  if decide (enrollment_code r = Some code) then (with_code r None, true) else (r, false).

(** At most [window] old. *)
Definition recent (window now timestamp : Z) : Prop :=
  RelaySigning.duration_since now timestamp <= window.
#[global] Instance recent_dec window now t : Decision (recent window now t).
Proof. unfold recent. apply _. Defined.

(* crates/trusted-key-auth/src/runtime.rs:120-139 TrustedKeyAuthRuntime::enforce_rate_limit *)
Definition enforce_rate_limit (r : Runtime) (bucket : string) (max_requests : nat)
    (window : Duration) (now : Z) : Runtime * result unit TrustedKeyAuthError :=
  let entry := filter (recent window now)
                      (default [] (rate_limit_windows r !! bucket)) in
  if decide (max_requests <= length entry)%nat then
    (with_windows r (<[bucket := entry]> (rate_limit_windows r)), Err TooManyRequests)
  else
    (with_windows r (<[bucket := entry ++ [now]]> (rate_limit_windows r)), Ok tt).

(* crates/trusted-key-auth/src/runtime.rs:141-156 TrustedKeyAuthRuntime::claim_refresh_nonce *)
Definition claim_refresh_nonce (r : Runtime) (nonce : string) (now : Z)
    : Runtime * result unit TrustedKeyAuthError :=
  let normalized := trim nonce in
  if decide (normalized = "" \/ 128 < str_len normalized) then (r, Err Unauthorized)
  else
    let seen := filter (fun kv => RelaySigning.duration_since now kv.2 <= REFRESH_NONCE_TTL)
                       (refresh_nonces r) in
    if decide (is_Some (seen !! normalized)) then (with_nonces r seen, Err Unauthorized)
    else (with_nonces r (<[normalized := now]> seen), Ok tt).

(** ** The rate limit holds *)

(** The admissions to one bucket by calls at the given times. *)
Fixpoint admissions (r : Runtime) (bucket : string) (max_requests : nat) (window : Duration)
    (times : list Z) : list Z :=
  match times with
  | [] => []
  | now :: times =>
      let (r, answer) := enforce_rate_limit r bucket max_requests window now in
      (if is_ok answer then [now] else []) ++ admissions r bucket max_requests window times
  end.

Definition within (window now t : Z) : Prop := t <= now /\ now - t <= window.
#[global] Instance within_dec window now t : Decision (within window now t).
Proof. unfold within. apply _. Defined.

(** Every bucket entry still in a window is counted at its last admission. *)
Definition bounded (window : Z) (max_requests : nat) (admitted : list Z) : Prop :=
  forall now, (length (filter (within window now) admitted) <= max_requests)%nat.

(** Readings of the clock in the order in which the lock was taken: each was read before its
    turn for the lock, and is at most [late] behind the latest before it. *)
Fixpoint read_at_most_late (late latest : Z) (times : list Z) : Prop :=
  match times with
  | [] => True
  | now :: times => latest - late <= now /\ read_at_most_late late (Z.max latest now) times
  end.

Definition at_most_late (late : Z) (times : list Z) : Prop :=
  match times with [] => True | now :: times => read_at_most_late late now times end.

Lemma sorted_is_prompt latest times : Sorted Z.le (latest :: times) -> read_at_most_late 0 latest times.
Proof.
  revert latest. induction times as [|now times IH]; intros latest; [done|].
  intros [Hs Hhd%HdRel_inv]%Sorted_inv. cbn. split; [lia|]. rewrite Z.max_r by lia. by apply IH.
Qed.

(** What the bucket keeps of the admissions: those that no reading so far found too old. *)
Definition keeps (window latest : Z) (entry admitted : list Z) : Prop :=
  forall (P : Z -> Prop) `{!forall t, Decision (P t)},
    (forall t, P t -> latest - t <= window) -> filter P admitted = filter P entry.

Lemma keeps_retain window latest now entry admitted :
  0 <= window -> keeps window latest entry admitted ->
  keeps window (Z.max latest now) (filter (recent window now) entry) admitted.
Proof.
  intros Hw Hk P HP Hold. rewrite (Hk P) by (intros t Ht%Hold; lia). rewrite list_filter_filter.
  apply list_filter_iff. intros t. split; [|by intros [? ?]]. intros Ht. split; [done|].
  specialize (Hold t Ht). unfold recent, RelaySigning.duration_since. lia.
Qed.

Lemma keeps_snoc window latest now entry admitted :
  keeps window latest entry admitted -> keeps window latest (entry ++ [now]) (admitted ++ [now]).
Proof. intros Hk P HP Hold. by rewrite !filter_app, (Hk P). Qed.

Lemma bounded_snoc window late max_requests latest entry admitted now :
  0 <= late -> latest - late <= now -> keeps window latest entry admitted ->
  bounded (window - late) max_requests admitted ->
  (length (filter (recent window now) entry) < max_requests)%nat ->
  bounded (window - late) max_requests (admitted ++ [now]).
Proof.
  intros Hl Hn Hk Hb Hlt t. rewrite filter_app, length_app.
  destruct (decide (within (window - late) t now)) as [[H1 H2]|Hout].
  - rewrite filter_cons_True, filter_nil by done. cbn [length].
    rewrite (Hk (within (window - late) t)) by (unfold within; lia).
    assert (length (filter (within (window - late) t) entry) <= length (filter (recent window now) entry))%nat; [|lia].
    apply length_filter_mono. unfold within, recent, RelaySigning.duration_since. lia.
  - rewrite filter_cons_False, filter_nil by done. cbn. specialize (Hb t). lia.
Qed.

Lemma admissions_bounded bucket max_requests window late times : forall r admitted latest,
  0 <= window -> 0 <= late ->
  keeps window latest (default [] (rate_limit_windows r !! bucket)) admitted ->
  read_at_most_late late latest times ->
  bounded (window - late) max_requests admitted ->
  bounded (window - late) max_requests (admitted ++ admissions r bucket max_requests window times).
Proof.
  induction times as [|now times IH]; intros r admitted latest Hw Hl Hk Hs Hb; cbn [admissions].
  { by rewrite app_nil_r. }
  destruct Hs as [Hn Hs]. pose proof (keeps_retain window latest now _ _ Hw Hk) as Hk'.
  unfold enforce_rate_limit. case_decide as Hmax; cbn [is_ok app].
  - apply (IH _ admitted (Z.max latest now)); try done. cbn. by rewrite lookup_insert_eq.
  - rewrite cons_middle, app_assoc. apply (IH _ (admitted ++ [now]) (Z.max latest now)); try done.
    + cbn [rate_limit_windows with_windows]. rewrite lookup_insert_eq. by apply keeps_snoc.
    + eapply bounded_snoc; [done|exact Hn|exact Hk|done|lia].
Qed.

(** C38: The rate limit holds over every window, not just over aligned ones.  A request reads
    the clock before it waits for the lock of the windows, so readings need not come in
    order; if each is at most [late] behind the latest one handled before it, then whatever
    requests a bucket gets, refused ones included, no interval of length [window - late]
    contains more admissions than the limit.  When requests are handled in the order of
    their readings, [late] is zero and this is the whole window; a reading that waits does
    let more in, see [stale_reading_admits_more]. *)
Theorem rate_limit_holds (r : Runtime) bucket max_requests window late times now :
  0 <= window -> 0 <= late -> at_most_late late times -> rate_limit_windows r !! bucket = None ->
  (length (filter (within (window - late) now) (admissions r bucket max_requests window times))
    <= max_requests)%nat.
Proof.
  intros Hw Hl Hs Hr. revert now. change (bounded (window - late) max_requests
    ([] ++ admissions r bucket max_requests window times)).
  destruct times as [|t times]; [intros now; cbn; lia|].
  apply (admissions_bounded _ _ _ _ _ r [] t); try done.
  - intros P HP _. by rewrite Hr.
  - cbn. rewrite Z.max_id. split; [lia|done].
  - intros now. cbn. lia.
Qed.

Definition no_requests_yet : Runtime :=
  {| trusted_clients := []; pake_enrollments := ∅; enrollment_code := None;
     rate_limit_windows := ∅; refresh_nonces := ∅ |}.

Example rate_limit_holds_witness :
  admissions no_requests_yet "codes" 2 60 [0; 50; 55; 61; 70; 111] = [0; 50; 61; 111] /\
  (length (filter (within (60 - 0) 61) (admissions no_requests_yet "codes" 2 60 [0%Z; 50%Z; 55%Z; 61%Z; 70%Z; 111%Z])) <= 2)%nat.
Proof.
  split; [by vm_compute|].
  apply rate_limit_holds; [lia|lia| |reflexivity].
  cbn. repeat split; lia.
Defined.

(** In tenths of a second, a limit of two a minute: a request that read the clock before
    another and got the lock after it lets three in within a minute. *)
Example stale_reading_admits_more :
  admissions no_requests_yet "codes" 2 600 [390; 391; 995; 989] = [390; 391; 995; 989] /\
  filter (within 600 989) [390; 391; 995; 989]%Z = [390; 391; 989].
Proof. by vm_compute. Qed.

End KeyAuth.

Module PairingServer.
Import TrustedKeys KeyAuth RelaySigning.

(* crates/server/src/relay_pairing/server.rs:24-24 RATE_LIMIT_WINDOW *)
Definition RATE_LIMIT_WINDOW : Duration := from_secs 60.
(* crates/server/src/relay_pairing/server.rs:25-25 GENERATE_CODE_GLOBAL_LIMIT *)
Definition GENERATE_CODE_GLOBAL_LIMIT : nat := 5.
(* crates/server/src/relay_pairing/server.rs:26-26 SPAKE2_START_GLOBAL_LIMIT *)
Definition SPAKE2_START_GLOBAL_LIMIT : nat := 30.
(* crates/server/src/relay_pairing/server.rs:27-27 SIGNING_SESSION_REFRESH_GLOBAL_LIMIT *)
Definition SIGNING_SESSION_REFRESH_GLOBAL_LIMIT : nat := 30.

Definition ascii_upper (c : ascii) : ascii :=
  let n := N_of_ascii c in
  if ((97 <=? n)%N && (n <=? 122)%N)%bool then ascii_of_N (n - 32) else c.

Fixpoint map_chars (f : ascii -> ascii) (s : string) : string :=
  match s with EmptyString => EmptyString | String c s => String (f c) (map_chars f s) end.

(* crates/trusted-key-auth/src/spake2.rs:54-72 normalize_enrollment_code *)
Definition normalize_enrollment_code (raw_code : string) : result string TrustedKeyAuthError :=
  let code := map_chars ascii_upper (trim raw_code) in
  if decide (String.length code <> 6%nat) then
    Err (BadRequest "Invalid enrollment code length. Expected 6 characters.")
  else if negb (all_chars (fun byte => let n := N_of_ascii byte in
             ((65 <=? n)%N && (n <=? 90)%N) || ((48 <=? n)%N && (n <=? 57)%N)) code) then
    Err (BadRequest "Enrollment code must contain only A-Z and 0-9.")
  else Ok code.

Section Server.
Context `{Prims : Primitives} `{Enr : !Enrollment}.

(** The runtime of the pairing server and the signing sessions it opens. *)
Record Server := {
  auth : Runtime;
  sessions : gmap Uuid RelaySigningSession;
}.

Definition with_auth (s : Server) (r : Runtime) : Server :=
  {| auth := r; sessions := sessions s |}.

(** [create_session] with the UUID it draws. *)
Definition create_session (s : Server) (signing_session_id : Uuid) (key : VerifyingKey) (now : Z)
    : Server :=
  {| auth := auth s; sessions := register_session signing_session_id key now (sessions s) |}.

(* crates/server/src/relay_pairing/server.rs:92-106 RelayPairingServer::generate_enrollment_code *)
Definition generate_enrollment_code (s : Server) (drawn : string) (now : Z)
    : Server * result string TrustedKeyAuthError :=
  match enforce_rate_limit (auth s) "relay-auth:code-generation:global"
          GENERATE_CODE_GLOBAL_LIMIT RATE_LIMIT_WINDOW now with
  | (r, Err e) => (with_auth s r, Err e)
  | (r, Ok _) =>
      let (r, code) := get_or_set_enrollment_code r drawn in (with_auth s r, Ok code)
  end.

(* crates/trusted-key-auth/src/spake2.rs:19-42 start_spake2_enrollment *)
Definition spake2_start (raw_enrollment_code client_message_b64 : string)
    : result (string * string * string) TrustedKeyAuthError :=
  let? enrollment_code := normalize_enrollment_code raw_enrollment_code in
  let? client_message := ok_or (b64_decode client_message_b64)
                           (BadRequest "Invalid client_message_b64") in
  let? (shared_key, server_message) :=
    ok_or (spake2_finish enrollment_code client_message) Unauthorized in
  Ok (enrollment_code, shared_key, b64_encode server_message).

(* crates/server/src/relay_pairing/server.rs:108-141 RelayPairingServer::start_spake2_enrollment *)
Definition start_spake2_enrollment (s : Server) (raw_enrollment_code client_message_b64 : string)
    (drawn_id : Uuid) (now : Z) : Server * result (Uuid * string) TrustedKeyAuthError :=
  match enforce_rate_limit (auth s) "relay-auth:spake2-start:global"
          SPAKE2_START_GLOBAL_LIMIT RATE_LIMIT_WINDOW now with
  | (r, Err e) => (with_auth s r, Err e)
  | (r, Ok _) =>
      match spake2_start raw_enrollment_code client_message_b64 with
      | Err e => (with_auth s r, Err e)
      | Ok (code, shared_key, server_message_b64) =>
          match consume_enrollment_code r code with
          | (r, false) => (with_auth s r, Err Unauthorized)
          | (r, true) =>
              (with_auth s (store_pake_enrollment r drawn_id shared_key now),
               Ok (drawn_id, server_message_b64))
          end
      end
  end.

(* crates/trusted-key-auth/src/key_confirmation.rs:41-58 verify_client_proof *)
Definition verify_client_proof (shared_key : string) (enrollment_id : Uuid) (browser_pk_bytes : string)
    (provided_proof_b64 : string) : result unit TrustedKeyAuthError :=
  let? provided_proof := ok_or (b64_decode provided_proof_b64) Unauthorized in
  if decide (provided_proof
             = hmac "vk-spake2-client-proof-v2" shared_key enrollment_id browser_pk_bytes)
  then Ok tt else Err Unauthorized.

Record FinishSpake2EnrollmentRequest := {
  enrollment_id : Uuid;
  client : TrustedRelayClient;
  client_proof_b64 : string;
}.

(* crates/server/src/relay_pairing/server.rs:164-233 RelayPairingServer::finish_spake2_enrollment *)
Definition finish_spake2_enrollment (s : Server) (payload : FinishSpake2EnrollmentRequest)
    (drawn_session : Uuid) (now : Z) : Server * result (Uuid * VerifyingKey) TrustedKeyAuthError :=
  match take_pake_enrollment (auth s) (enrollment_id payload) now with
  | (r, None) => (with_auth s r, Err Unauthorized)
  | (r, Some shared_key) =>
      let s := with_auth s r in
      match map_err (fun _ => BadRequest "Invalid public_key_b64")
              (parse_public_key_base64 (public_key_b64 (client payload))) with
      | Err e => (s, Err e)
      | Ok client_public_key =>
          match verify_client_proof shared_key (enrollment_id payload)
                  (key_to_bytes client_public_key) (client_proof_b64 payload) with
          | Err e => (s, Err e)
          | Ok _ =>
              match upsert_trusted_client (trusted_clients r) (client payload) with
              | Err e => (s, Err e)
              | Ok (clients, _) =>
                  (create_session (with_auth s (with_clients r clients)) drawn_session
                     client_public_key now,
                   Ok (drawn_session, client_public_key))
              end
          end
      end
  end.

(* crates/trusted-key-auth/src/refresh.rs:9-9 REFRESH_MAX_TIMESTAMP_DRIFT_SECS *)
Definition REFRESH_MAX_TIMESTAMP_DRIFT_SECS : Z := 30.

(* crates/trusted-key-auth/src/refresh.rs:11-13 build_refresh_message *)
Definition build_refresh_message (timestamp : Z) (nonce : string) (client_id : Uuid) : string :=
  fields2 "v1" (fields2 "refresh" (fields2 (display timestamp)
    (fields2 nonce (uuid_display client_id)))).

Record RefreshRelaySigningSessionRequest := {
  refresh_client_id : Uuid;
  refresh_timestamp : Z;
  refresh_nonce : string;
  refresh_signature_b64 : string;
}.

(* crates/trusted-key-auth/src/refresh.rs:15-23 validate_refresh_timestamp *)
Definition validate_refresh_timestamp (wall timestamp : Z) : result unit TrustedKeyAuthError :=
  let? now := ok_or (unix_seconds wall) Unauthorized in
  if decide (REFRESH_MAX_TIMESTAMP_DRIFT_SECS < Z.abs (i64_saturating_sub now timestamp))
  then Err Unauthorized else Ok tt.

(* crates/trusted-key-auth/src/refresh.rs:25-39 verify_refresh_signature *)
Definition verify_refresh_signature (key : VerifyingKey) (message signature_b64 : string)
    : result unit TrustedKeyAuthError :=
  let? signature_bytes := ok_or (b64_decode signature_b64) Unauthorized in
  let? signature := ok_or (signature_from_slice signature_bytes) Unauthorized in
  if verify key message signature then Ok tt else Err Unauthorized.

(* crates/server/src/relay_pairing/server.rs:244-266 RelayPairingServer::refresh_signing_session *)
Definition find_client_key (r : Runtime) (id : Uuid) : result VerifyingKey TrustedKeyAuthError :=
  let? clients := read_trusted_clients_file (trusted_clients r) in
  let? trusted_client := ok_or (head (filter (fun c => client_id c = id) clients)) Unauthorized in
  map_err (fun _ => Unauthorized) (parse_public_key_base64 (public_key_b64 trusted_client)).

(* crates/server/src/relay_pairing/server.rs:235-269 RelayPairingServer::refresh_signing_session *)
Definition refresh_signing_session (s : Server) (payload : RefreshRelaySigningSessionRequest)
    (drawn_session : Uuid) (wall now : Z) : Server * result Uuid TrustedKeyAuthError :=
  match enforce_rate_limit (auth s) "relay-auth:signing-refresh:global"
          SIGNING_SESSION_REFRESH_GLOBAL_LIMIT RATE_LIMIT_WINDOW now with
  | (r, Err e) => (with_auth s r, Err e)
  | (r, Ok _) =>
      let s := with_auth s r in
      match find_client_key r (refresh_client_id payload) with
      | Err e => (s, Err e)
      | Ok client_public_key =>
          match validate_refresh_timestamp wall (refresh_timestamp payload) with
          | Err e => (s, Err e)
          | Ok _ =>
              match claim_refresh_nonce r (refresh_nonce payload) now with
              | (r, Err e) => (with_auth s r, Err e)
              | (r, Ok _) =>
                  let s := with_auth s r in
                  let refresh_message :=
                    build_refresh_message (refresh_timestamp payload) (refresh_nonce payload)
                      (refresh_client_id payload) in
                  match verify_refresh_signature client_public_key refresh_message
                          (refresh_signature_b64 payload) with
                  | Err e => (s, Err e)
                  | Ok _ => (create_session s drawn_session client_public_key now, Ok drawn_session)
                  end
              end
          end
      end
  end.

(* crates/server/src/relay_pairing/server.rs:157-162 RelayPairingServer::remove_paired_client *)
Definition remove_paired_client (s : Server) (id : Uuid) : Server * result bool TrustedKeyAuthError :=
  match remove_trusted_client (trusted_clients (auth s)) id with
  | Err e => (s, Err e)
  | Ok (clients, removed) => (with_auth s (with_clients (auth s) clients), Ok removed)
  end.

(** ** Everything a relay peer can ask for *)

Inductive Request :=
| Generate (drawn : string) (now : Z)
| Start (raw_code client_message_b64 : string) (drawn_id : Uuid) (now : Z)
| Finish (payload : FinishSpake2EnrollmentRequest) (drawn_session : Uuid) (now : Z)
| Refresh (payload : RefreshRelaySigningSessionRequest) (drawn_session : Uuid) (wall now : Z)
| Remove (id : Uuid)
| Signed (clock : Clock) (sig : RequestSignature) (method path body : string).

(** The server after the request, and the key that the request enrolled. *)
Definition handle (s : Server) (q : Request) : Server * option VerifyingKey :=
  match q with
  | Generate drawn now => ((generate_enrollment_code s drawn now).1, None)
  | Start code message id now => ((start_spake2_enrollment s code message id now).1, None)
  | Finish payload session now =>
      let (s, r) := finish_spake2_enrollment s payload session now in
      (s, match r with Ok (_, key) => Some key | Err _ => None end)
  | Refresh payload session wall now => ((refresh_signing_session s payload session wall now).1, None)
  | Remove id => ((remove_paired_client s id).1, None)
  | Signed clock sig m p b =>
      ({| auth := auth s; sessions := (verify_request clock sig m p b (sessions s)).1 |}, None)
  end.

(** The keys that completed an enrollment: in a run, in order. *)
Fixpoint serve_all (s : Server) (qs : list Request) : Server * list VerifyingKey :=
  match qs with
  | [] => (s, [])
  | q :: qs =>
      let (s, key) := handle s q in
      let (s, keys) := serve_all s qs in
      (s, match key with Some k => k :: keys | None => keys end)
  end.

(** Every trusted client and every session has an enrolled key. *)
Definition enrolled_only (keys : list VerifyingKey) (s : Server) : Prop :=
  (forall c, c ∈ trusted_clients (auth s) ->
     exists key, parse_public_key_base64 (public_key_b64 c) = Ok key /\ key ∈ keys) /\
  (forall id session, sessions s !! id = Some session -> peer_public_key session ∈ keys).

Lemma clients_kept keys s r :
  enrolled_only keys s -> trusted_clients r = trusted_clients (auth s) ->
  enrolled_only keys (with_auth s r).
Proof. intros [Hc Hs] Hr. split; cbn; [by rewrite Hr|done]. Qed.

Lemma rate_limit_clients r bucket n w now :
  trusted_clients (enforce_rate_limit r bucket n w now).1 = trusted_clients r.
Proof. unfold enforce_rate_limit. by case_decide. Qed.

Lemma nonce_clients r nonce now :
  trusted_clients (claim_refresh_nonce r nonce now).1 = trusted_clients r.
Proof. unfold claim_refresh_nonce. by repeat case_decide. Qed.

Lemma take_clients r id now :
  trusted_clients (take_pake_enrollment r id now).1 = trusted_clients r.
Proof. unfold take_pake_enrollment. by destruct (pake_enrollments r !! id) as [[]|]. Qed.

Lemma create_session_enrolled keys s id key now :
  enrolled_only keys s -> key ∈ keys -> enrolled_only keys (create_session s id key now).
Proof.
  intros [Hc Hs] Hk. split; [done|]. intros id' session. cbn. unfold register_session.
  rewrite lookup_insert. case_decide; [by intros [= <-]|apply Hs].
Qed.

Lemma replace_first_elem c cs cs' x :
  replace_first c cs = Some cs' -> x ∈ cs' -> x = c \/ x ∈ cs.
Proof.
  revert cs'. induction cs as [|y cs IH]; intros cs'; cbn; [done|]. case_decide as Hd.
  - intros [= <-] [-> | H]%elem_of_cons; set_solver.
  - intros (l & Hl & ->)%fmap_Some [-> | H]%elem_of_cons; [set_solver|].
    destruct (IH l Hl H); set_solver.
Qed.

Lemma upsert_elem file c cs fresh x :
  upsert_trusted_client file c = Ok (cs, fresh) -> x ∈ cs -> x = c \/ x ∈ file.
Proof.
  unfold upsert_trusted_client, read_trusted_clients_file.
  intros (_ & _ & H)%rbind_ok. apply rbind_ok in H as (l & Hl & H).
  apply rbind_ok in Hl as (_ & _ & [= <-]).
  destruct (replace_first c file) as [l|] eqn:Hr; injection H as <- _.
  - by apply replace_first_elem with (1 := Hr).
  - set_solver.
Qed.

Lemma finish_enrolled keys s payload id now :
  enrolled_only keys s ->
  match finish_spake2_enrollment s payload id now with
  | (s, Ok (_, key)) => enrolled_only (key :: keys) s
  | (s, Err _) => enrolled_only keys s
  end.
Proof.
  intros He. unfold finish_spake2_enrollment.
  pose proof (take_clients (auth s) (enrollment_id payload) now) as Hr.
  destruct (take_pake_enrollment _ _ _) as [r [shared_key|]]; [|by apply clients_kept].
  cbn [fst] in Hr. pose proof (clients_kept _ _ _ He Hr) as He'.
  destruct (map_err _ _) as [key|] eqn:Hk; [|done]. apply map_err_ok in Hk.
  destruct (verify_client_proof _ _ _ _); [|done].
  destruct (upsert_trusted_client _ _) as [[clients fresh]|] eqn:Hu; [|done].
  destruct He' as [Hc Hs]. apply create_session_enrolled; [|set_solver]. split; cbn.
  - intros c Hcs. destruct (upsert_elem _ _ _ _ _ Hu Hcs) as [-> |Hin].
    + exists key. set_solver.
    + destruct (Hc c Hin) as (k & Hk' & Hin'). exists k. set_solver.
  - intros id' session H. specialize (Hs id' session H). set_solver.
Qed.

Lemma refresh_enrolled keys s payload id wall now :
  enrolled_only keys s -> enrolled_only keys (refresh_signing_session s payload id wall now).1.
Proof.
  intros He. unfold refresh_signing_session.
  pose proof (rate_limit_clients (auth s) "relay-auth:signing-refresh:global"
    SIGNING_SESSION_REFRESH_GLOBAL_LIMIT RATE_LIMIT_WINDOW now) as Hr.
  destruct (enforce_rate_limit _ _ _ _ _) as [r [[]|e]]; [|by apply clients_kept].
  cbn [fst] in Hr. pose proof (clients_kept _ _ _ He Hr) as He'.
  destruct (find_client_key r _) as [key|] eqn:Hk; [|done].
  destruct (validate_refresh_timestamp _ _); [|done].
  pose proof (nonce_clients r (refresh_nonce payload) now) as Hn.
  destruct (claim_refresh_nonce _ _ _) as [r' [[]|e]]; cbn [fst] in Hn |- *;
    (assert (enrolled_only keys (with_auth (with_auth s r) r')) as He''
       by (by apply clients_kept)); [|done].
  destruct (verify_refresh_signature _ _ _); [|done]. cbn [fst].
  apply create_session_enrolled; [done|].
  unfold find_client_key, read_trusted_clients_file in Hk.
  apply rbind_ok in Hk as (l & Hl & Hk). apply rbind_ok in Hl as (_ & _ & [= <-]).
  apply rbind_ok in Hk as (c & Hc & Hk). apply ok_or_ok in Hc. apply map_err_ok in Hk.
  assert (c ∈ trusted_clients r) as Hin.
  { rewrite head_lookup in Hc. apply list_elem_of_lookup_2, list_elem_of_filter in Hc as [_ Hc].
    done. }
  destruct He' as [Hcl _]. destruct (Hcl c Hin) as (k & Hk' & Hin').
  rewrite Hk in Hk'. by injection Hk' as ->.
Qed.

Lemma handle_enrolled keys s q s' key :
  enrolled_only keys s -> handle s q = (s', key) ->
  enrolled_only (match key with Some k => k :: keys | None => keys end) s'.
Proof.
  intros He. destruct q; cbn [handle].
  - intros [= <- <-]. unfold generate_enrollment_code.
    pose proof (rate_limit_clients (auth s) "relay-auth:code-generation:global"
      GENERATE_CODE_GLOBAL_LIMIT RATE_LIMIT_WINDOW now) as Hr.
    destruct (enforce_rate_limit _ _ _ _ _) as [r [[]|e]]; [|by apply clients_kept].
    unfold get_or_set_enrollment_code. destruct (enrollment_code r); by apply clients_kept.
  - intros [= <- <-]. unfold start_spake2_enrollment.
    pose proof (rate_limit_clients (auth s) "relay-auth:spake2-start:global"
      SPAKE2_START_GLOBAL_LIMIT RATE_LIMIT_WINDOW now) as Hr.
    destruct (enforce_rate_limit _ _ _ _ _) as [r [[]|e]]; [|by apply clients_kept].
    destruct (spake2_start _ _) as [[[code sk] m]|]; [|by apply clients_kept].
    unfold consume_enrollment_code. case_decide; by apply clients_kept.
  - pose proof (finish_enrolled keys s payload drawn_session now He) as Hf.
    destruct (finish_spake2_enrollment _ _ _ _) as [s1 [[id k]|e]]; by intros [= <- <-].
  - intros [= <- <-]. by apply refresh_enrolled.
  - intros [= <- <-]. unfold remove_paired_client, remove_trusted_client.
    destruct (rbind _ _) as [[clients removed]|] eqn:Hr; [|done].
    apply rbind_ok in Hr as (l & Hl & Hr). apply rbind_ok in Hl as (_ & _ & [= <-]).
    destruct He as [Hc Hs]. split; cbn; [|done]. intros c Hin. apply Hc.
    case_decide; injection Hr as <- _; [done|]. by apply list_elem_of_filter in Hin as [_ ?].
  - intros [= <- <-]. destruct He as [Hc Hs]. split; cbn; [done|].
    intros id session Hse. apply verify_request_key in Hse as (before & Hb & ->). by eapply Hs.
Qed.

Lemma serve_all_enrolled qs : forall s keys,
  enrolled_only keys s ->
  forall s' enrolled, serve_all s qs = (s', enrolled) ->
  exists all, enrolled_only all s' /\ forall key, key ∈ all -> key ∈ keys \/ key ∈ enrolled.
Proof.
  induction qs as [|q qs IH]; intros s keys He s' enrolled; cbn [serve_all].
  { intros [= <- <-]. exists keys. split; [done|]. by left. }
  destruct (handle s q) as [s1 key] eqn:Hq. destruct (serve_all s1 qs) as [s2 ks] eqn:Hqs.
  intros [= <- <-]. destruct (IH _ _ (handle_enrolled _ _ _ _ _ He Hq) _ _ Hqs)
    as (all & Hall & Hin).
  exists all. split; [done|]. intros k [Hk|Hk]%Hin; destruct key as [k'|]; set_solver.
Qed.

(** C14: Only paired clients are served: on a server that starts with no client and no
    session, whatever requests arrive, a signed request is accepted only if it verifies
    under a key whose owner finished an enrollment in that run; refreshes and rejected
    requests never bring in another key. *)
Theorem only_paired_clients r qs s keys clock sig method path body :
  trusted_clients r = [] ->
  serve_all {| auth := r; sessions := ∅ |} qs = (s, keys) ->
  (verify_request clock sig method path body (sessions s)).2 = Ok tt ->
  exists key bytes signature, key ∈ keys /\
    b64_decode (signature_b64 sig) = Some bytes /\
    signature_from_slice bytes = Some signature /\
    verify key (build_request_signing_message sig method path body) signature = true.
Proof.
  intros Hr Hqs (_ & bytes & signature & session & Hb & Hs & Hse & _ & _ & Hv)%verify_accepts.
  destruct (serve_all_enrolled qs {| auth := r; sessions := ∅ |} []) with (2 := Hqs)
    as (all & [_ Hall] & Hin).
  { split; cbn; [rewrite Hr; set_solver|]. intros id session' H. by rewrite lookup_empty in H. }
  exists (peer_public_key session), bytes, signature. split_and!; try done.
  destruct (Hin _ (Hall _ _ Hse)); [set_solver|done].
Qed.

(** ** One client per code *)

Definition is_generate (q : Request) : bool :=
  match q with Generate _ _ => true | _ => false end.

(** The enrollments that can still come of the codes handed out. *)
Definition open_enrollments (s : Server) : nat :=
  size (pake_enrollments (auth s)) +
  match enrollment_code (auth s) with Some _ => 1 | None => 0 end.

Lemma rate_limit_open r bucket n w now :
  pake_enrollments (enforce_rate_limit r bucket n w now).1 = pake_enrollments r /\
  enrollment_code (enforce_rate_limit r bucket n w now).1 = enrollment_code r.
Proof. unfold enforce_rate_limit. by case_decide. Qed.

Lemma start_open s code message id now :
  (open_enrollments (start_spake2_enrollment s code message id now).1 <= open_enrollments s)%nat.
Proof.
  unfold start_spake2_enrollment, open_enrollments.
  pose proof (rate_limit_open (auth s) "relay-auth:spake2-start:global"
    SPAKE2_START_GLOBAL_LIMIT RATE_LIMIT_WINDOW now) as [Hp Hc].
  destruct (enforce_rate_limit _ _ _ _ _) as [r [[]|e]]; cbn [fst] in Hp, Hc;
    [|cbn; rewrite Hp, Hc; lia].
  destruct (spake2_start _ _) as [[[c sk] m]|]; [|cbn; rewrite Hp, Hc; lia].
  unfold consume_enrollment_code. case_decide as Hd; [|cbn; rewrite Hp, Hc; lia].
  cbn. rewrite <- Hp, <- Hc, Hd. rewrite map_size_insert. destruct (_ !! id); cbn; lia.
Qed.

Lemma take_open r id now :
  enrollment_code (take_pake_enrollment r id now).1 = enrollment_code r /\
  match (take_pake_enrollment r id now).2 with
  | Some _ => S (size (pake_enrollments (take_pake_enrollment r id now).1))
                = size (pake_enrollments r)
  | None => size (pake_enrollments (take_pake_enrollment r id now).1)
              <= size (pake_enrollments r)
  end%nat.
Proof.
  unfold take_pake_enrollment. destruct (pake_enrollments r !! id) as [[key at_]|] eqn:Hl; [|split; cbn; [done|lia]].
  assert (S (size (delete id (pake_enrollments r))) = size (pake_enrollments r)) as Hs.
  { rewrite <- (insert_delete_id _ _ _ Hl) at 2.
    rewrite map_size_insert_None by apply lookup_delete_eq. done. }
  cbn. case_decide; cbn; split; try done. lia.
Qed.

Lemma finish_open s payload id now :
  match finish_spake2_enrollment s payload id now with
  | (s', Ok _) => S (open_enrollments s') = open_enrollments s
  | (s', Err _) => open_enrollments s' <= open_enrollments s
  end%nat.
Proof.
  unfold finish_spake2_enrollment, open_enrollments.
  pose proof (take_open (auth s) (enrollment_id payload) now) as [Hc Hp].
  destruct (take_pake_enrollment _ _ _) as [r [shared_key|]]; cbn [fst snd] in Hc, Hp;
    [|cbn; rewrite Hc; lia].
  destruct (map_err _ _) as [key|]; [|cbn; rewrite Hc; lia].
  destruct (verify_client_proof _ _ _ _); [|cbn; rewrite Hc; lia].
  destruct (upsert_trusted_client _ _) as [[clients fresh]|]; cbn; rewrite Hc; lia.
Qed.

Lemma refresh_open s payload id wall now :
  open_enrollments (refresh_signing_session s payload id wall now).1 = open_enrollments s.
Proof.
  unfold refresh_signing_session, open_enrollments.
  pose proof (rate_limit_open (auth s) "relay-auth:signing-refresh:global"
    SIGNING_SESSION_REFRESH_GLOBAL_LIMIT RATE_LIMIT_WINDOW now) as [Hp Hc].
  destruct (enforce_rate_limit _ _ _ _ _) as [r [[]|e]]; cbn [fst] in Hp, Hc;
    [|by cbn; rewrite Hp, Hc].
  destruct (find_client_key r _) as [key|]; [|by cbn; rewrite Hp, Hc].
  destruct (validate_refresh_timestamp _ _); [|by cbn; rewrite Hp, Hc].
  unfold claim_refresh_nonce. repeat case_decide; try (by cbn; rewrite Hp, Hc).
  destruct (verify_refresh_signature _ _ _); by cbn; rewrite Hp, Hc.
Qed.

Lemma handle_open s q s' key :
  handle s q = (s', key) ->
  (open_enrollments s' + match key with Some _ => 1 | None => 0 end
    <= open_enrollments s + if is_generate q then 1 else 0)%nat.
Proof.
  destruct q; cbn [handle is_generate].
  - intros [= <- <-]. unfold generate_enrollment_code, open_enrollments.
    pose proof (rate_limit_open (auth s) "relay-auth:code-generation:global"
      GENERATE_CODE_GLOBAL_LIMIT RATE_LIMIT_WINDOW now) as [Hp Hc].
    destruct (enforce_rate_limit _ _ _ _ _) as [r [[]|e]]; cbn [fst] in Hp, Hc;
      [|cbn; rewrite Hp, Hc; lia].
    unfold get_or_set_enrollment_code. destruct (enrollment_code r) eqn:Hr; cbn;
      rewrite <- Hc, Hp, ?Hr; lia.
  - intros [= <- <-]. pose proof (start_open s raw_code client_message_b64 drawn_id now). lia.
  - pose proof (finish_open s payload drawn_session now) as Hf.
    destruct (finish_spake2_enrollment _ _ _ _) as [s1 [[id k]|e]]; intros [= <- <-]; lia.
  - intros [= <- <-]. pose proof (refresh_open s payload drawn_session wall0 now). lia.
  - intros [= <- <-]. unfold remove_paired_client, open_enrollments.
    destruct (remove_trusted_client _ _) as [[clients removed]|]; cbn; lia.
  - intros [= <- <-]. unfold open_enrollments. cbn. lia.
Qed.

(** A code pairs at most one client: whatever the requests, no more keys complete an
    enrollment than codes were asked for, beyond the enrollments open at the start; a
    code, a pending enrollment and its proof are each good for one use, whether it
    succeeds or fails. *)
Theorem one_client_per_code s qs s' keys :
  serve_all s qs = (s', keys) ->
  (length keys + open_enrollments s'
    <= open_enrollments s + length (filter is_generate qs))%nat.
Proof.
  revert s keys. induction qs as [|q qs IH]; intros s keys; cbn [serve_all].
  { intros [= <- <-]. cbn. lia. }
  destruct (handle s q) as [s1 key] eqn:Hq. destruct (serve_all s1 qs) as [s2 ks] eqn:Hqs.
  intros [= <- <-]. apply handle_open in Hq. specialize (IH _ _ Hqs).
  rewrite filter_cons. case_decide as Hg;
    destruct (is_generate q); try (by destruct Hg); try (by contradict Hg);
    destruct key; cbn [length] in *; lia.
Qed.

End Server.

(** ** Instances *)

#[local] Existing Instance Plain.primitives.
#[local] Instance plain_enrollment : Enrollment := {|
  key_from_bytes s := Some s;
  key_to_bytes s := s;
  spake2_finish code message := Some (code +:+ message, message);
  hmac context shared_key id part := context +:+ shared_key +:+ part;
|}.

Definition fresh_runtime : Runtime :=
  {| trusted_clients := []; pake_enrollments := ∅; enrollment_code := None;
     rate_limit_windows := ∅; refresh_nonces := ∅ |}.

Definition sample_key : VerifyingKey := "0123456789abcdef0123456789abcdef".

Definition sample_client : TrustedRelayClient :=
  {| client_id := 3%N; client_name := "laptop"; client_browser := "b"; client_os := "os";
     client_device := "d"; public_key_b64 := Plain.encode sample_key |}.

Definition sample_finish : FinishSpake2EnrollmentRequest :=
  {| enrollment_id := 5%N; client := sample_client;
     client_proof_b64 := Plain.encode (hmac "vk-spake2-client-proof-v2" "ABC123hi" 5%N sample_key) |}.

(** One code, used twice. *)
Definition sample_run : list Request :=
  [Generate "ABC123" 0; Start " abc123" (Plain.encode "hi") 5%N 1; Start "ABC123" (Plain.encode "hi") 6%N 1;
   Finish sample_finish 7%N 2; Finish sample_finish 8%N 3].

Example only_paired_clients_witness :
  let s := (serve_all {| auth := fresh_runtime; sessions := ∅ |} sample_run).1 in
  (verify_request (clock_at 10) (signed sample_key 7 1 10) "GET" "/x" "" (sessions s)).2 = Ok tt /\
  exists key, key ∈ [sample_key] /\ exists signature, verify key
    (build_request_signing_message (signed sample_key 7 1 10) "GET" "/x" "") signature = true.
Proof.
  intros s.
  assert ((verify_request (clock_at 10) (signed sample_key 7 1 10) "GET" "/x" "" (sessions s)).2
    = Ok tt) as H by (by vm_compute).
  split; [exact H|].
  destruct (only_paired_clients fresh_runtime sample_run s [sample_key] (clock_at 10)
    (signed sample_key 7 1 10) "GET" "/x" "") as (key & bytes & signature & Hk & _ & _ & Hv).
  - done.
  - by vm_compute.
  - exact H.
  - exists key. split; [exact Hk|]. by exists signature.
Defined.

Example one_client_per_code_witness :
  (length (serve_all {| auth := fresh_runtime; sessions := ∅ |} sample_run).2 = 1)%nat /\
  (length [sample_key] <= 1)%nat.
Proof.
  split; [by vm_compute|].
  pose proof (one_client_per_code {| auth := fresh_runtime; sessions := ∅ |} sample_run
    (serve_all {| auth := fresh_runtime; sessions := ∅ |} sample_run).1 [sample_key]) as H.
  etransitivity; [|etransitivity; [apply H; by vm_compute|by vm_compute; lia]]. lia.
Defined.

End PairingServer.
