(* ===== verification/QueuedMessages.v ===== *)
(** * Queued follow-up messages

    crates/services/src/services/queued_message.rs: at most one queued message per
    session, reservations of it for a restart of the agent, and the two loops that wait
    for a restart to be resolved.  Every operation is one step; [restart_resolution] is
    the number of [notify_waiters] calls so far, which is what a [Notified] future of
    tokio compares itself with.  Clock readings and fresh UUIDs are arguments. *)
From S2P Require Import Prelude.

Module QueuedMessages.

Section Queue.
Context {ExecutorConfig : Type}.

(* crates/db/src/models/scratch.rs:22-26 DraftFollowUpData *)
Record DraftFollowUpData := {
  message : string;
  executor_config : ExecutorConfig;
}.

(* crates/services/src/services/queued_message.rs:12-28 QueuedMessage *)
Record QueuedMessage := {
  session_id : Uuid;
  data : DraftFollowUpData;
  queued_at : DateTime;
  restart_agent : bool;
  restart_reservation : option Uuid;
  remove_on_reservation_cancel : bool;
}.

(* crates/services/src/services/queued_message.rs:43-49 QueuedMessageService *)
Record Service := {
  queue : gmap Uuid QueuedMessage;
  blocked_mcp_restarts : gset Uuid;
  workspace_mcp_restarts : gmap Uuid DateTime;
  cancelled_workspace_mcp_restarts : gmap Uuid DateTime;
  restart_resolution : nat;
}.

(* crates/services/src/services/queued_message.rs:52-60 QueuedMessageService::new *)
Definition new : Service :=
  {| queue := ∅; blocked_mcp_restarts := ∅; workspace_mcp_restarts := ∅;
     cancelled_workspace_mcp_restarts := ∅; restart_resolution := 0 |}.

Definition with_queue (s : Service) q : Service :=
  {| queue := q; blocked_mcp_restarts := blocked_mcp_restarts s;
     workspace_mcp_restarts := workspace_mcp_restarts s;
     cancelled_workspace_mcp_restarts := cancelled_workspace_mcp_restarts s;
     restart_resolution := restart_resolution s |}.
Definition with_blocked (s : Service) b : Service :=
  {| queue := queue s; blocked_mcp_restarts := b;
     workspace_mcp_restarts := workspace_mcp_restarts s;
     cancelled_workspace_mcp_restarts := cancelled_workspace_mcp_restarts s;
     restart_resolution := restart_resolution s |}.
Definition with_workspace (s : Service) w : Service :=
  {| queue := queue s; blocked_mcp_restarts := blocked_mcp_restarts s;
     workspace_mcp_restarts := w;
     cancelled_workspace_mcp_restarts := cancelled_workspace_mcp_restarts s;
     restart_resolution := restart_resolution s |}.
Definition with_cancelled (s : Service) c : Service :=
  {| queue := queue s; blocked_mcp_restarts := blocked_mcp_restarts s;
     workspace_mcp_restarts := workspace_mcp_restarts s;
     cancelled_workspace_mcp_restarts := c;
     restart_resolution := restart_resolution s |}.
Definition notify_waiters (s : Service) : Service :=
  {| queue := queue s; blocked_mcp_restarts := blocked_mcp_restarts s;
     workspace_mcp_restarts := workspace_mcp_restarts s;
     cancelled_workspace_mcp_restarts := cancelled_workspace_mcp_restarts s;
     restart_resolution := S (restart_resolution s) |}.

Definition with_restart (m : QueuedMessage) (agent : bool) (reservation : option Uuid)
    (remove : bool) : QueuedMessage :=
  {| session_id := session_id m; data := data m; queued_at := queued_at m;
     restart_agent := agent; restart_reservation := reservation;
     remove_on_reservation_cancel := remove |}.

(** ** Questions *)

(* crates/services/src/services/queued_message.rs:189-191 QueuedMessageService::get_queued *)
Definition get_queued (s : Service) (id : Uuid) : option QueuedMessage := queue s !! id.

(* crates/services/src/services/queued_message.rs:205-207 QueuedMessageService::has_queued *)
Definition has_queued (s : Service) (id : Uuid) : bool := bool_decide (is_Some (queue s !! id)).

(* crates/services/src/services/queued_message.rs:209-213 QueuedMessageService::has_pending_restart *)
Definition has_pending_restart (s : Service) (id : Uuid) : bool :=
  match queue s !! id with
  | Some m => bool_decide (is_Some (restart_reservation m))
  | None => false
  end.

(* crates/services/src/services/queued_message.rs:215-219 QueuedMessageService::has_mcp_restart *)
Definition has_mcp_restart (s : Service) (id : Uuid) : bool :=
  match queue s !! id with
  | Some m => restart_agent m || bool_decide (is_Some (restart_reservation m))
  | None => false
  end.

(* crates/services/src/services/queued_message.rs:234-236 QueuedMessageService::is_mcp_restart_start_blocked *)
Definition is_mcp_restart_start_blocked (s : Service) (id : Uuid) : bool :=
  bool_decide (id ∈ blocked_mcp_restarts s).

(* crates/services/src/services/queued_message.rs:238-240 QueuedMessageService::is_workspace_mcp_restart *)
Definition is_workspace_mcp_restart (s : Service) (id : Uuid) : bool :=
  bool_decide (is_Some (workspace_mcp_restarts s !! id)).

(* crates/services/src/services/queued_message.rs:242-245 QueuedMessageService::has_deferred_mcp_restart *)
Definition has_deferred_mcp_restart (s : Service) (id : Uuid) : bool :=
  is_workspace_mcp_restart s id && negb (has_queued s id).

(* crates/services/src/services/queued_message.rs:32-38 QueueStatus *)
Inductive QueueStatus :=
| Empty
| Queued (message : QueuedMessage).

(* crates/services/src/services/queued_message.rs:316-321 QueuedMessageService::get_status *)
Definition get_status (s : Service) (id : Uuid) : QueueStatus :=
  match get_queued s id with Some m => Queued m | None => Empty end.

(** ** Operations *)

(* crates/services/src/services/queued_message.rs:63-81 QueuedMessageService::queue_message *)
Definition queue_message (s : Service) (id : Uuid) (d : DraftFollowUpData) (now : DateTime)
    : Service * QueuedMessage :=
  let workspace_restart := is_workspace_mcp_restart s id in
  let replaces_unclaimed_restart := workspace_restart && has_queued s id in
  let queued := {| session_id := id; data := d; queued_at := now;
                   restart_agent := replaces_unclaimed_restart;
                   restart_reservation := None; remove_on_reservation_cancel := false |} in
  let s := if replaces_unclaimed_restart
           then with_workspace s (<[id := now]> (workspace_mcp_restarts s)) else s in
  (notify_waiters (with_queue s (<[id := queued]> (queue s))), queued).

(* crates/services/src/services/queued_message.rs:83-109 QueuedMessageService::reserve_mcp_restart *)
Definition reserve_mcp_restart (s : Service) (id : Uuid) (d : DraftFollowUpData)
    (reservation : Uuid) (now : DateTime) : Service :=
  let queued :=
    match queue s !! id with
    | Some m => with_restart m (restart_agent m) (Some reservation) false
    | None => {| session_id := id; data := d; queued_at := now; restart_agent := false;
                 restart_reservation := Some reservation;
                 remove_on_reservation_cancel := true |}
    end in
  let s := with_queue s (<[id := queued]> (queue s)) in
  if is_mcp_restart_start_blocked s id
  then with_workspace s (<[id := queued_at queued]> (workspace_mcp_restarts s)) else s.

(** The queued message, when it is reserved under the identifier. *)
Definition reserved_as (s : Service) (id reservation : Uuid) : option QueuedMessage :=
  match queue s !! id with
  | Some m => if decide (restart_reservation m = Some reservation) then Some m else None
  | None => None
  end.

(* crates/services/src/services/queued_message.rs:111-122 QueuedMessageService::commit_mcp_restart *)
Definition commit_mcp_restart (s : Service) (id reservation : Uuid) : Service * option DateTime :=
  match reserved_as s id reservation with
  | Some m =>
      (notify_waiters (with_queue s
         (<[id := with_restart m true None (remove_on_reservation_cancel m)]> (queue s))),
       Some (queued_at m))
  | None => (notify_waiters s, None)
  end.

(* crates/services/src/services/queued_message.rs:124-139 QueuedMessageService::take_committed_mcp_restart *)
Definition take_committed_mcp_restart (s : Service) (id : Uuid) (at_ : DateTime)
    : Service * option QueuedMessage :=
  match queue s !! id with
  | Some m =>
      if decide (queued_at m = at_ /\ restart_agent m = true /\ restart_reservation m = None)
      then (with_queue s (delete id (queue s)), Some m) else (s, None)
  | None => (s, None)
  end.

(* crates/services/src/services/queued_message.rs:141-153 QueuedMessageService::cancel_mcp_restart *)
Definition cancel_mcp_restart (s : Service) (id reservation : Uuid) : Service :=
  notify_waiters
    match reserved_as s id reservation with
    | Some m =>
        if remove_on_reservation_cancel m then with_queue s (delete id (queue s))
        else with_queue s (<[id := with_restart m (restart_agent m) None false]> (queue s))
    | None => s
    end.

(* crates/services/src/services/queued_message.rs:155-167 QueuedMessageService::take_mcp_restart *)
Definition take_mcp_restart (s : Service) (id reservation : Uuid)
    : Service * option QueuedMessage :=
  match reserved_as s id reservation with
  | Some m => (notify_waiters (with_queue s (delete id (queue s))),
               Some (with_restart m true None false))
  | None => (notify_waiters s, None)
  end.

(* crates/services/src/services/queued_message.rs:170-174 QueuedMessageService::cancel_queued *)
Definition cancel_queued (s : Service) (id : Uuid) : Service * option QueuedMessage :=
  (notify_waiters (with_queue s (delete id (queue s))), queue s !! id).

(* crates/services/src/services/queued_message.rs:176-186 QueuedMessageService::supersede_mcp_restart *)
Definition supersede_mcp_restart (s : Service) (id : Uuid) : Service :=
  notify_waiters
    match queue s !! id with
    | Some m =>
        if remove_on_reservation_cancel m then with_queue s (delete id (queue s))
        else with_queue s
               (<[id := with_restart m false None (remove_on_reservation_cancel m)]> (queue s))
    | None => s
    end.

(* crates/services/src/services/queued_message.rs:195-202 QueuedMessageService::take_queued *)
Definition take_queued (s : Service) (id : Uuid) : Service * option QueuedMessage :=
  match queue s !! id with
  | Some m => if decide (restart_reservation m = None)
              then (with_queue s (delete id (queue s)), Some m) else (s, None)
  | None => (s, None)
  end.

(* crates/services/src/services/queued_message.rs:221-227 QueuedMessageService::block_mcp_restart_start *)
Definition block_mcp_restart_start (s : Service) (id : Uuid) : Service :=
  let s := with_cancelled s (delete id (cancelled_workspace_mcp_restarts s)) in
  let s := with_blocked s ({[id]} ∪ blocked_mcp_restarts s) in
  match queue s !! id with
  | Some m => with_workspace s (<[id := queued_at m]> (workspace_mcp_restarts s))
  | None => s
  end.

(* crates/services/src/services/queued_message.rs:229-232 QueuedMessageService::unblock_mcp_restart_start *)
Definition unblock_mcp_restart_start (s : Service) (id : Uuid) : Service :=
  notify_waiters (with_blocked s (blocked_mcp_restarts s ∖ {[id]})).

(* crates/services/src/services/queued_message.rs:247-250 QueuedMessageService::finish_workspace_mcp_restart *)
Definition finish_workspace_mcp_restart (s : Service) (id : Uuid) : Service :=
  let s := with_workspace s (delete id (workspace_mcp_restarts s)) in
  with_cancelled s (delete id (cancelled_workspace_mcp_restarts s)).

(* crates/services/src/services/queued_message.rs:252-258 QueuedMessageService::cancel_workspace_mcp_restart *)
Definition cancel_workspace_mcp_restart (s : Service) (id : Uuid) : Service :=
  let s :=
    match workspace_mcp_restarts s !! id with
    | Some at_ =>
        with_cancelled (with_workspace s (delete id (workspace_mcp_restarts s)))
          (<[id := at_]> (cancelled_workspace_mcp_restarts s))
    | None => s
    end in
  unblock_mcp_restart_start s id.

(* crates/services/src/services/queued_message.rs:262-275 QueuedMessageService::cancel_deferred_mcp_restart *)
Definition cancel_deferred_mcp_restart (s : Service) (id : Uuid) : Service * bool :=
  match workspace_mcp_restarts s !! id with
  | Some at_ =>
      (notify_waiters (with_cancelled s (<[id := at_]> (cancelled_workspace_mcp_restarts s))),
       true)
  | None => (s, false)
  end.

(* crates/services/src/services/queued_message.rs:291-300 QueuedMessageService::wait_for_mcp_restart_start *)
Definition claim_start (s : Service) (id : Uuid) (at_ : DateTime) : Service * bool :=
  if decide (cancelled_workspace_mcp_restarts s !! id = Some at_)
  then (with_cancelled s (delete id (cancelled_workspace_mcp_restarts s)), false)
  else (s, true).

(** ** Runs *)

Inductive Op :=
| QueueMessage (id : Uuid) (d : DraftFollowUpData) (now : DateTime)
| Reserve (id : Uuid) (d : DraftFollowUpData) (reservation : Uuid) (now : DateTime)
| Commit (id reservation : Uuid)
| TakeCommitted (id : Uuid) (at_ : DateTime)
| Cancel (id reservation : Uuid)
| Take (id reservation : Uuid)
| CancelQueued (id : Uuid)
| Supersede (id : Uuid)
| TakeQueued (id : Uuid)
| Block (id : Uuid)
| Unblock (id : Uuid)
| FinishWorkspace (id : Uuid)
| CancelWorkspace (id : Uuid)
| CancelDeferred (id : Uuid)
| ClaimStart (id : Uuid) (at_ : DateTime).

(** The service after the operation, and the reservation it turned into a restart. *)
Definition apply (s : Service) (op : Op) : Service * option Uuid :=
  match op with
  | QueueMessage id d now => ((queue_message s id d now).1, None)
  | Reserve id d r now => (reserve_mcp_restart s id d r now, None)
  | Commit id r => let (s, at_) := commit_mcp_restart s id r in (s, at_ ≫= fun _ => Some r)
  | TakeCommitted id at_ => ((take_committed_mcp_restart s id at_).1, None)
  | Cancel id r => (cancel_mcp_restart s id r, None)
  | Take id r => let (s, m) := take_mcp_restart s id r in (s, m ≫= fun _ => Some r)
  | CancelQueued id => ((cancel_queued s id).1, None)
  | Supersede id => (supersede_mcp_restart s id, None)
  | TakeQueued id => ((take_queued s id).1, None)
  | Block id => (block_mcp_restart_start s id, None)
  | Unblock id => (unblock_mcp_restart_start s id, None)
  | FinishWorkspace id => (finish_workspace_mcp_restart s id, None)
  | CancelWorkspace id => (cancel_workspace_mcp_restart s id, None)
  | CancelDeferred id => ((cancel_deferred_mcp_restart s id).1, None)
  | ClaimStart id at_ => ((claim_start s id at_).1, None)
  end.

(** A task in one of the two waiting loops: before creating its [Notified], between
    creating it and the test, and awaiting it. *)
Inductive Waiter :=
| Start
| Created (ticket : nat)
| Asleep (ticket : nat)
| Resolved.

(* crates/services/src/services/queued_message.rs:303-313 QueuedMessageService::wait_for_restart_resolution *)
Definition resolution_turn (s : Service) (id : Uuid) (w : Waiter) : Waiter :=
  match w with
  | Start => Created (restart_resolution s)
  | Created ticket => if has_pending_restart s id then Asleep ticket else Resolved
  | Asleep ticket => if decide (ticket < restart_resolution s)%nat then Start else Asleep ticket
  | Resolved => Resolved
  end.

(* crates/services/src/services/queued_message.rs:282-290 QueuedMessageService::wait_for_mcp_restart_start *)
Definition start_turn (s : Service) (id : Uuid) (w : Waiter) : Waiter :=
  match w with
  | Start => if is_mcp_restart_start_blocked s id then Created (restart_resolution s)
             else Resolved
  | Created ticket => if is_mcp_restart_start_blocked s id then Asleep ticket else Resolved
  | Asleep ticket => if decide (ticket < restart_resolution s)%nat then Start else Asleep ticket
  | Resolved => Resolved
  end.

(** The operations of other tasks, interleaved with turns of one waiter. *)
Inductive Event :=
| Other (op : Op)
| Turn.

Fixpoint run (turn : Service -> Waiter -> Waiter) (s : Service) (w : Waiter) (events : list Event)
    : Service * Waiter :=
  match events with
  | [] => (s, w)
  | Other op :: events => run turn (apply s op).1 w events
  | Turn :: events => run turn s (turn s w) events
  end.

(** ** No wakeup is lost *)

(** The operation wakes the waiters if it ends what they wait for. *)
Definition wakes (waiting : Service -> bool) (s s' : Service) : Prop :=
  (restart_resolution s <= restart_resolution s')%nat /\
  (waiting s' = true \/ waiting s = false \/ (restart_resolution s < restart_resolution s')%nat).

Lemma wakes_notify waiting s s' :
  (restart_resolution s < restart_resolution s')%nat -> wakes waiting s s'.
Proof. unfold wakes. lia. Qed.

Lemma wakes_same waiting s s' :
  restart_resolution s' = restart_resolution s -> (waiting s = true -> waiting s' = true) ->
  wakes waiting s s'.
Proof. intros H Hw. split; [lia|]. destruct (waiting s); auto. Qed.

Lemma reserve_pending s id d r now id' :
  has_pending_restart s id' = true ->
  has_pending_restart (reserve_mcp_restart s id d r now) id' = true.
Proof.
  unfold reserve_mcp_restart, has_pending_restart. intros H.
  destruct (queue s !! id), (is_mcp_restart_start_blocked _ _); cbn;
    rewrite lookup_insert; by case_decide.
Qed.

Lemma unreserved_not_pending s id m id' :
  queue s !! id = Some m -> restart_reservation m = None ->
  has_pending_restart s id' = true ->
  has_pending_restart (with_queue s (delete id (queue s))) id' = true.
Proof.
  intros Hm Hr. unfold has_pending_restart. cbn. destruct (decide (id = id')) as [-> |].
  - by rewrite Hm, Hr.
  - by rewrite lookup_delete_ne.
Qed.

Ltac cases_tac :=
  repeat first
    [ match goal with |- context [match queue ?s !! ?id with _ => _ end] =>
        destruct (queue s !! id) eqn:? end
    | match goal with |- context [reserved_as ?s ?id ?r] => destruct (reserved_as s id r) end
    | match goal with |- context [workspace_mcp_restarts ?s !! ?id] =>
        destruct (workspace_mcp_restarts s !! id) end
    | match goal with |- context [if ?b then _ else _] => destruct b eqn:? end ].

Ltac wakes_tac :=
  first [by apply wakes_notify; cbn; lia | by apply wakes_same].

Lemma apply_wakes_resolution s op id :
  wakes (fun s => has_pending_restart s id) s (apply s op).1.
Proof.
  destruct op; cbn [apply].
  - apply wakes_notify. unfold queue_message. destruct (_ && _); cbn; lia.
  - apply wakes_same; [|apply reserve_pending].
    unfold reserve_mcp_restart. by destruct (is_mcp_restart_start_blocked _ _).
  - unfold commit_mcp_restart. destruct (reserved_as _ _ _); wakes_tac.
  - unfold take_committed_mcp_restart. destruct (queue s !! id0) as [m|] eqn:Hm; [|wakes_tac].
    case_decide as Hd; [|wakes_tac]. destruct Hd as (_ & _ & Hd).
    apply wakes_same; [done|]. by apply (unreserved_not_pending _ _ m).
  - unfold cancel_mcp_restart. repeat case_match; wakes_tac.
  - unfold take_mcp_restart. destruct (reserved_as _ _ _); wakes_tac.
  - wakes_tac.
  - unfold supersede_mcp_restart. repeat case_match; wakes_tac.
  - unfold take_queued. destruct (queue s !! id0) as [m|] eqn:Hm; [|wakes_tac].
    case_decide as Hd; [|wakes_tac]. apply wakes_same; [done|].
    by apply (unreserved_not_pending _ _ m).
  - unfold block_mcp_restart_start. case_match; wakes_tac.
  - wakes_tac.
  - wakes_tac.
  - unfold cancel_workspace_mcp_restart. case_match; wakes_tac.
  - unfold cancel_deferred_mcp_restart. case_match; wakes_tac.
  - unfold claim_start. case_decide; wakes_tac.
Qed.

Lemma apply_wakes_start s op id :
  wakes (fun s => is_mcp_restart_start_blocked s id) s (apply s op).1.
Proof.
  destruct op; cbn [apply];
    unfold queue_message, reserve_mcp_restart, commit_mcp_restart, take_committed_mcp_restart,
      cancel_mcp_restart, take_mcp_restart, cancel_queued, supersede_mcp_restart, take_queued,
      unblock_mcp_restart_start, finish_workspace_mcp_restart, cancel_workspace_mcp_restart,
      cancel_deferred_mcp_restart, claim_start;
    try (cases_tac; wakes_tac).
  apply wakes_same; [by unfold block_mcp_restart_start; case_match|].
  unfold block_mcp_restart_start, is_mcp_restart_start_blocked.
  intros H%bool_decide_eq_true. apply bool_decide_eq_true. case_match; cbn; set_solver.
Qed.

(** A waiter with nothing to wake it has something to wait for. *)
Definition alert (waiting : Service -> bool) (s : Service) (w : Waiter) : Prop :=
  match w with
  | Start | Resolved => True
  | Created ticket => (ticket <= restart_resolution s)%nat
  | Asleep ticket => (ticket < restart_resolution s)%nat \/
                     (ticket = restart_resolution s /\ waiting s = true)
  end.

Lemma alert_wakes waiting s s' w : alert waiting s w -> wakes waiting s s' -> alert waiting s' w.
Proof.
  intros Ha [Hle Hw]. destruct w; cbn in *; try done; [lia|].
  destruct Ha as [?|[-> Hp]]; [lia|]. destruct Hw as [?|[?|?]]; [|congruence|lia].
  destruct (decide (restart_resolution s = restart_resolution s')); [right|left]; auto; lia.
Qed.

(** The test, after the ticket was drawn: nothing has changed since, or the ticket is
    already old. *)
Lemma run_alert waiting turn events :
  (forall s op, wakes waiting s (apply s op).1) ->
  (forall s w, alert waiting s w -> alert waiting s (turn s w)) ->
  forall s w, alert waiting s w ->
  alert waiting (run turn s w events).1 (run turn s w events).2.
Proof.
  intros Hop Hturn. induction events as [|[op|] events IH]; intros s w Ha; cbn [run]; [done| |].
  - apply IH. eapply alert_wakes; eauto.
  - apply IH. auto.
Qed.

Lemma resolution_turn_alert id s w :
  alert (fun s => has_pending_restart s id) s w ->
  alert (fun s => has_pending_restart s id) s (resolution_turn s id w).
Proof.
  destruct w; cbn; try done.
  - intros Ht. destruct (has_pending_restart s id) eqn:Hp; cbn; [|done]. rewrite Hp. lia.
  - intros Ht. case_decide; cbn; [done|tauto].
Qed.

Lemma start_turn_alert id s w :
  alert (fun s => is_mcp_restart_start_blocked s id) s w ->
  alert (fun s => is_mcp_restart_start_blocked s id) s (start_turn s id w).
Proof.
  destruct w; cbn; try done.
  - intros _. case_match; cbn; [lia|done].
  - intros Ht. destruct (is_mcp_restart_start_blocked s id) eqn:Hp; cbn; [|done].
    rewrite Hp. lia.
  - intros Ht. case_decide; cbn; [done|tauto].
Qed.

(** No wakeup is lost: whatever operations run between its turns, a task waiting
    for a session's restart to be resolved returns within three more turns once no
    reservation is pending, and a task waiting to start a restart once the session is
    no longer blocked; none sleeps through the operation that ended its wait. *)
Theorem waiters_resolve s events id :
  (has_pending_restart (run (fun s => resolution_turn s id) s Start events).1 id = false ->
   let (s', w) := run (fun s => resolution_turn s id) s Start events in
   run (fun s => resolution_turn s id) s' w [Turn; Turn; Turn] = (s', Resolved)) /\
  (is_mcp_restart_start_blocked (run (fun s => start_turn s id) s Start events).1 id = false ->
   let (s', w) := run (fun s => start_turn s id) s Start events in
   run (fun s => start_turn s id) s' w [Turn; Turn; Turn] = (s', Resolved)).
Proof.
  split; intros Hp.
  - pose proof (run_alert (fun s => has_pending_restart s id) (fun s => resolution_turn s id)
      events (fun s op => apply_wakes_resolution s op id)
      (fun s w => resolution_turn_alert id s w) s Start I) as Ha.
    destruct (run _ _ _ events) as [s' w]. cbn [fst snd run] in *.
    destruct w as [|t|t|]; cbn; rewrite ?Hp; cbn; rewrite ?Hp; try done.
    destruct Ha as [Ha|[_ Ha]]; [|congruence]. rewrite decide_True by done. cbn. by rewrite Hp.
  - pose proof (run_alert (fun s => is_mcp_restart_start_blocked s id)
      (fun s => start_turn s id) events (fun s op => apply_wakes_start s op id)
      (fun s w => start_turn_alert id s w) s Start I) as Ha.
    destruct (run _ _ _ events) as [s' w]. cbn [fst snd run] in *.
    destruct w as [|t|t|]; cbn; rewrite ?Hp; cbn; rewrite ?Hp; try done.
    destruct Ha as [Ha|[_ Ha]]; [|congruence]. rewrite decide_True by done. cbn. by rewrite Hp.
Qed.

(** ** A reservation is used at most once *)

Fixpoint resolutions (s : Service) (ops : list Op) : list Uuid :=
  match ops with
  | [] => []
  | op :: ops =>
      let (s, r) := apply s op in
      match r with Some r => r :: resolutions s ops | None => resolutions s ops end
  end.

Definition drawn (ops : list Op) : list Uuid :=
  omap (fun op => match op with Reserve _ _ r _ => Some r | _ => None end) ops.

(** The sessions whose message is reserved under [r]. *)
Definition holds (s : Service) (r id : Uuid) : Prop := is_Some (reserved_as s id r).

Lemma holds_spec s r id :
  holds s r id <-> exists m, queue s !! id = Some m /\ restart_reservation m = Some r.
Proof.
  unfold holds, reserved_as. destruct (queue s !! id) as [m|].
  - case_decide; split; naive_solver.
  - split; naive_solver.
Qed.

(** Nothing else than [Reserve] makes a session hold a reservation, and resolving one
    gives it up. *)
Lemma apply_holds s op r id :
  holds (apply s op).1 r id ->
  match op with Reserve id' _ r' _ => (id = id' /\ r = r') \/ (id <> id' /\ holds s r id)
  | Commit id' r' | Take id' r' => holds s r id /\ ~ (id = id' /\ r = r')
  | _ => holds s r id
  end.
Proof.
  destruct op; cbn [apply]; rewrite !holds_spec;
    unfold queue_message, reserve_mcp_restart, commit_mcp_restart, take_committed_mcp_restart,
      cancel_mcp_restart, take_mcp_restart, cancel_queued, supersede_mcp_restart, take_queued,
      unblock_mcp_restart_start, finish_workspace_mcp_restart, cancel_workspace_mcp_restart,
      cancel_deferred_mcp_restart, claim_start, block_mcp_restart_start, reserved_as;
    cases_tac; cbn; rewrite ?lookup_insert, ?lookup_delete; repeat case_decide;
    naive_solver.
Qed.

Lemma apply_resolves s op r :
  (apply s op).2 = Some r ->
  exists id, (op = Commit id r \/ op = Take id r) /\ holds s r id.
Proof.
  unfold holds. destruct op; cbn [apply]; try done;
    unfold commit_mcp_restart, take_mcp_restart;
    destruct (reserved_as s id reservation) eqn:Hr; cbn; try done; intros [= ->];
    exists id; rewrite Hr; eauto.
Qed.

Lemma resolutions_held s ops r :
  r ∉ drawn ops -> (forall id, ~ holds s r id) -> r ∉ resolutions s ops.
Proof.
  revert s. induction ops as [|op ops IH]; intros s Hd Hh; cbn [resolutions]; [set_solver|].
  assert (r ∉ drawn ops) as Hd' by (by intros Hin; apply Hd; destruct op; try done; cbn; apply elem_of_cons; right).
  assert (forall id, ~ holds (apply s op).1 r id) as Hh'.
  { intros id Hr%apply_holds. destruct op; try (by eapply Hh); try (destruct Hr as [Hr _]; by eapply Hh).
    change (drawn _) with (reservation :: drawn ops) in Hd. apply not_elem_of_cons in Hd as [Hd _].
    destruct Hr as [[_ ?]|[_ Hr]]; [done|by eapply Hh]. }
  pose proof (apply_resolves s op) as Hres. destruct (apply s op) as [s' [r'|]]; cbn [fst snd] in *.
  - destruct (Hres r' eq_refl) as (id & _ & Hr'). apply not_elem_of_cons. split; [|by apply IH].
    intros ->. by apply (Hh id).
  - by apply IH.
Qed.

(** No reservation to be drawn is in use, and none is held twice. *)
Definition fresh_reservations (s : Service) (ops : list Op) : Prop :=
  NoDup (drawn ops) /\ (forall r id, r ∈ drawn ops -> ~ holds s r id) /\
  (forall r id id', holds s r id -> holds s r id' -> id = id').

Lemma fresh_step s op ops :
  fresh_reservations s (op :: ops) -> fresh_reservations (apply s op).1 ops.
Proof.
  intros (Hnd & Hf & Hu). split_and!.
  - by destruct op; cbn in Hnd; try done; apply NoDup_cons in Hnd as [_ Hnd].
  - intros r id Hr Hh%apply_holds. destruct op; cbn in Hf, Hnd; try (by eapply Hf; set_solver).
    + apply NoDup_cons in Hnd as [Hn Hnd]. destruct Hh as [[-> ->]|[_ Hh]]; [done|].
      eapply Hf; [|exact Hh]. set_solver.
    + destruct Hh as [Hh _]. by eapply Hf.
    + destruct Hh as [Hh _]. by eapply Hf.
  - intros r id id' H1%apply_holds H2%apply_holds.
    destruct op; try (by eapply Hu);
      try (destruct H1 as [H1 _], H2 as [H2 _]; by eapply Hu).
    assert (forall id, ~ holds s reservation id) as Hr.
    { intros id1. apply Hf. change (drawn _) with (reservation :: drawn ops). apply elem_of_cons. by left. }
    destruct H1 as [[-> ->]|[_ H1]], H2 as [[-> ?]|[_ H2]]; subst; try done;
      try (by exfalso; eapply Hr); by eapply Hu.
Qed.

Lemma resolutions_unique s ops : fresh_reservations s ops -> NoDup (resolutions s ops).
Proof.
  revert s. induction ops as [|op ops IH]; intros s Hfr; cbn [resolutions]; [constructor|].
  pose proof (IH _ (fresh_step _ _ _ Hfr)) as Hnd. destruct Hfr as (_ & Hf & Hu).
  pose proof (apply_resolves s op) as Hres. pose proof (apply_holds s op) as Hh.
  destruct (apply s op) as [s' [r|]]; cbn in *; [|done].
  destruct (Hres r eq_refl) as (id & Hop & Hid). apply NoDup_cons. split; [|done].
  apply resolutions_held.
  - intros Hr. eapply Hf; [|exact Hid]. destruct Hop as [-> | ->]; done.
  - intros id' H'%Hh. destruct Hop as [-> | ->]; destruct H' as [H' Hne];
      apply Hne; split; [by eapply Hu|done..|by eapply Hu|done].
Qed.

(** A reservation restarts the agent at most once: in every run of the operations in
    which each reservation gets a fresh identifier, no reservation is committed or taken
    twice, nor committed and then taken, whatever is queued, cancelled or superseded in
    between. *)
Theorem reservation_resolved_once ops : NoDup (drawn ops) -> NoDup (resolutions new ops).
Proof.
  intros Hnd. apply resolutions_unique. split_and!; [done| |].
  - by intros r id _ (m & [=] & _)%holds_spec.
  - by intros r id id' (m & [=] & _)%holds_spec.
Qed.

(** Reserving a restart never costs the user a message: if the reservation is
    cancelled, a message that was queued is queued again as it was, only unreserved, and
    without one the queue is as before; if it is taken, the restart gets the message that
    was queued and the fallback only when there was none. *)
Theorem reservation_keeps_message s id d r now :
  queue (cancel_mcp_restart (reserve_mcp_restart s id d r now) id r) =
    match queue s !! id with
    | Some m => <[id := with_restart m (restart_agent m) None false]> (queue s)
    | None => queue s
    end /\
  (take_mcp_restart (reserve_mcp_restart s id d r now) id r).2 =
    Some match queue s !! id with
         | Some m => with_restart m true None false
         | None => {| session_id := id; data := d; queued_at := now; restart_agent := true;
                      restart_reservation := None; remove_on_reservation_cancel := false |}
         end.
Proof.
  set (s' := reserve_mcp_restart s id d r now).
  assert (queue s' = <[id := match queue s !! id with
    | Some m => with_restart m (restart_agent m) (Some r) false
    | None => {| session_id := id; data := d; queued_at := now; restart_agent := false;
                 restart_reservation := Some r; remove_on_reservation_cancel := true |}
    end]> (queue s)) as Hq.
  { unfold s', reserve_mcp_restart. by destruct (is_mcp_restart_start_blocked _ _). }
  unfold cancel_mcp_restart, take_mcp_restart, reserved_as.
  rewrite Hq, lookup_insert_eq. destruct (queue s !! id) as [m|] eqn:Hm; cbn;
    rewrite !decide_True by done; cbn; split; try done.
  - by rewrite insert_insert_eq.
  - by rewrite delete_insert_id.
Qed.

End Queue.
Arguments DraftFollowUpData : clear implicits.
Arguments Service : clear implicits.
Arguments Op : clear implicits.
Arguments Event : clear implicits.

Definition sample_data : DraftFollowUpData unit := {| message := "go on"; executor_config := tt |}.

(** The waiter sleeps, the reservation is committed, and the waiter returns. *)
Example waiters_resolve_witness :
  let s := reserve_mcp_restart new 1%N sample_data 9%N 5 in
  run (fun s => resolution_turn s 1%N) s Start [Turn; Turn; Turn] = (s, Asleep 0) /\
  run (fun s => resolution_turn s 1%N) (apply s (Commit 1%N 9%N)).1 (Asleep 0) [Turn; Turn; Turn]
    = ((apply s (Commit 1%N 9%N)).1, Resolved).
Proof.
  intros s. split; [by vm_compute|].
  assert (has_pending_restart (run (fun s => resolution_turn s 1%N) s Start
    [Turn; Turn; Turn; Other (Commit 1%N 9%N)]).1 1%N = false) as Hp by (by vm_compute).
  exact (proj1 (waiters_resolve s [Turn; Turn; Turn; Other (Commit 1%N 9%N)] 1%N) Hp).
Defined.

Definition sample_ops : list (Op unit) :=
  [QueueMessage 1%N sample_data 3; Reserve 1%N sample_data 9%N 5; Commit 1%N 9%N;
   Commit 1%N 9%N; Take 1%N 9%N; Reserve 1%N sample_data 10%N 6; Take 1%N 10%N].

Example reservation_resolved_once_witness :
  resolutions new sample_ops = [9%N; 10%N] /\ NoDup (resolutions new sample_ops).
Proof.
  split; [by vm_compute|]. apply (reservation_resolved_once sample_ops).
  change (drawn sample_ops) with [9%N; 10%N]. by repeat constructor; set_solver.
Defined.

End QueuedMessages.
