(* ===== verification/Pipelines.v ===== *)
(** * The pipeline block of an issue

    crates/api-types/src/pipeline_block.rs: the stages of the selected pipelines merged into
    one order, and the block of the issue's description.  The iteration order of a
    [HashSet] is that of [elements]; nothing depends on it, because the next stage is the
    ready one seen first. *)
From stdpp Require Import gmap.
From S2P Require Import Prelude Text Format.
From Stdlib Require Import Ascii.

Module PipelineBlock.

(* crates/api-types/src/pipeline_block.rs:11-11 PIPELINE_START *)
Definition PIPELINE_START : string := "<!-- vk:pipeline:start -->".
(* crates/api-types/src/pipeline_block.rs:12-12 PIPELINE_END *)
Definition PIPELINE_END : string := "<!-- vk:pipeline:end -->".
(* crates/api-types/src/pipeline_block.rs:13-13 ORDER_INSTRUCTION *)
Definition ORDER_INSTRUCTION : string :=
  "Execute these stages in the order listed. Do not add, skip, or reorder stages. As you begin each numbered stage below, output a single line exactly `VK-PIPELINE-STAGE: N` (N = the number of the stage you are starting) so pipeline progress can be tracked.".

(* crates/api-types/src/pipeline_block.rs:17-20 BlockStage *)
Record BlockStage := { stage_id : string; prompt_fragment : string }.

(* crates/api-types/src/pipeline_block.rs:25-28 BlockPipeline *)
Record BlockPipeline := { pipeline_name : string; stages : list BlockStage }.

(* crates/api-types/src/pipeline_block.rs:32-40 compose_executor_line *)
Definition compose_executor_line (executor : option string) : string :=
  let trimmed := match executor with Some e => trim e | None => "" end in
  if bool_decide (trimmed = "") then ""
  else "- Run this task with the **" +:+ trimmed +:+ "** execution agent: pass `executor: "
       +:+ String "034"%char trimmed +:+ String "034"%char "` when starting the workspace.".

(** ** The canonical order *)

(** [entry(k).or_insert(v)] *)
Definition or_insert {A} (m : gmap string A) (k : string) (v : A) : gmap string A :=
  match m !! k with Some _ => m | None => <[k := v]> m end.

Definition all_stages (ps : list BlockPipeline) : list BlockStage := mjoin (stages <$> ps).

(* crates/api-types/src/pipeline_block.rs:48-60 canonical_stage_order *)
Definition index_stages (ps : list BlockPipeline) : gmap string BlockStage :=
  foldl (fun m s => or_insert m (stage_id s) s) ∅ (all_stages ps).

(* crates/api-types/src/pipeline_block.rs:54-58 canonical_stage_order *)
Definition see (acc : gmap string nat * nat) (s : BlockStage) : gmap string nat * nat :=
  match acc.1 !! stage_id s with
  | Some _ => acc
  | None => (<[stage_id s := acc.2]> acc.1, S acc.2)
  end.

(* crates/api-types/src/pipeline_block.rs:49-60 canonical_stage_order *)
Definition first_seen (ps : list BlockPipeline) : gmap string nat :=
  (foldl see (∅, O) (all_stages ps)).1.

(** [stages.windows(2)], as identifiers. *)
Definition successions (ids : list string) : list (string * string) := zip ids (tail ids).

(* crates/api-types/src/pipeline_block.rs:67-70 canonical_stage_order *)
Definition edges (ps : list BlockPipeline) : list (string * string) :=
  mjoin ((fun p => successions (stage_id <$> stages p)) <$> ps).

Abbreviation graph := (gmap string (gset string) * gmap string nat)%type.

(* crates/api-types/src/pipeline_block.rs:67-77 canonical_stage_order *)
Definition add_edge (g : graph) (e : string * string) : graph :=
  let '(adjacency, indegree) := g in
  match adjacency !! e.1 with
  | Some adj =>
      if decide (e.2 ∈ adj) then g
      else (<[e.1 := {[e.2]} ∪ adj]> adjacency,
            <[e.2 := S (default O (indegree !! e.2))]> indegree)
  | None => g
  end.

(* crates/api-types/src/pipeline_block.rs:62-77 canonical_stage_order *)
Definition build_graph (ps : list BlockPipeline) : graph :=
  foldl add_edge ((fun _ => ∅) <$> index_stages ps, (fun _ => O) <$> index_stages ps) (edges ps).

(** The state of the loop. *)
Record Kahn := {
  indegree : gmap string nat;
  remaining : gset string;
  ready : list string;
  ordered : list string;
}.

Definition seen_at (fs : gmap string nat) (usize_max : nat) (i : string) : nat :=
  default usize_max (fs !! i).

(** [iter().min_by_key(key)]: the first of the least. *)
Fixpoint min_by_key (key : string -> nat) (l : list string) : option string :=
  match l with
  | [] => None
  | x :: l => match min_by_key key l with
              | Some y => Some (if decide (key y < key x)%nat then y else x)
              | None => Some x
              end
  end.

(* crates/api-types/src/pipeline_block.rs:97-105 canonical_stage_order *)
Definition relax (acc : gmap string nat * list string) (succ : string)
    : gmap string nat * list string :=
  let '(deg, rdy) := acc in
  match deg !! succ with
  | Some d => (<[succ := pred d]> deg, if decide (pred d = O) then rdy ++ [succ] else rdy)
  | None => acc
  end.

(* crates/api-types/src/pipeline_block.rs:87-106 canonical_stage_order *)
Definition turn (fs : gmap string nat) (n : nat) (adjacency : gmap string (gset string))
    (s : Kahn) : Kahn :=
  match min_by_key (seen_at fs n) (ready s) with
  | None => s
  | Some next =>
      let rdy := filter (fun id => id <> next) (ready s) in
      let '(deg, rdy) := foldl relax (indegree s, rdy)
                           (elements (default ∅ (adjacency !! next))) in
      {| indegree := deg; remaining := remaining s ∖ {[next]}; ready := rdy;
         ordered := ordered s ++ [next] |}
  end.

(** Every turn orders a stage, so their number is fuel enough ([loop_finishes]). *)
(* crates/api-types/src/pipeline_block.rs:87-106 canonical_stage_order *)
Fixpoint loop (fs : gmap string nat) (n : nat) (adjacency : gmap string (gset string))
    (fuel : nat) (s : Kahn) : Kahn :=
  match fuel with O => s | S fuel => loop fs n adjacency fuel (turn fs n adjacency s) end.

(* crates/api-types/src/pipeline_block.rs:79-85 canonical_stage_order *)
Definition start (ps : list BlockPipeline) : Kahn :=
  let deg := (build_graph ps).2 in
  let ids := dom (index_stages ps) in
  {| indegree := deg; remaining := ids;
     ready := filter (fun id => default O (deg !! id) = O) (elements ids);
     ordered := [] |}.

Definition by_key_nat (key : string -> nat) (a b : string) : Prop := (key a <= key b)%nat.

#[global] Instance by_key_nat_dec key : RelDecision (by_key_nat key).
Proof. unfold by_key_nat. solve_decision. Defined.

(* crates/api-types/src/pipeline_block.rs:47-116 canonical_stage_order *)
Definition canonical_ids (ps : list BlockPipeline) : list string :=
  let fs := first_seen ps in
  let n := size (index_stages ps) in
  let final := loop fs n (build_graph ps).1 n (start ps) in
  ordered final ++ merge_sort (by_key_nat (seen_at fs O)) (elements (remaining final)).

(* crates/api-types/src/pipeline_block.rs:47-121 canonical_stage_order *)
Definition canonical_stage_order (ps : list BlockPipeline) : list BlockStage :=
  omap (index_stages ps !!.) (canonical_ids ps).

(** ** The block *)

(** [n. prompt] *)
(* crates/api-types/src/pipeline_block.rs:167-169 compose_pipeline_block *)
Definition numbered (i : nat) (s : BlockStage) : string :=
  display (Z.of_nat i + 1) +:+ ". " +:+ prompt_fragment s.

(* crates/api-types/src/pipeline_block.rs:127-172 compose_pipeline_block *)
Definition compose_pipeline_block (ps : list BlockPipeline) (enabled : gset string)
    (executor : option string) : string :=
  let executor_line := compose_executor_line executor in
  let kept := filter (fun s => stage_id s ∈ enabled) (canonical_stage_order ps) in
  let some := match kept with [] => false | _ => true end in
  if negb some && bool_decide (executor_line = "") then ""
  else
    let heading := match ps with
                   | [] => "## Pipeline"%string
                   | _ => "## Pipeline: " +:+ join " + " (pipeline_name <$> ps)
                   end in
    let block :=
      [heading; ""%string]
      ++ (if some then [ORDER_INSTRUCTION; ""%string] else [])
      ++ (if bool_decide (executor_line = "") then []
          else executor_line :: (if some then [""%string] else []))
      ++ imap numbered kept in
    PIPELINE_START +:+ nl +:+ join nl block +:+ nl +:+ PIPELINE_END.

(* crates/api-types/src/pipeline_block.rs:177-185 append_pipeline_block *)
Definition append_pipeline_block (description : option string) (block : string)
    : option string :=
  if bool_decide (block = "") then description
  else match description with
       | Some d => if bool_decide (trim d = "") then Some block
                   else Some (trim d +:+ nl +:+ nl +:+ block)
       | None => Some block
       end.

(** ** The stages and their edges *)

Definition succs (adjacency : gmap string (gset string)) (u : string) : gset string :=
  default ∅ (adjacency !! u).

(** How many of [R] come directly before [v]. *)
Definition count (adjacency : gmap string (gset string)) (v : string) (R : gset string) : nat :=
  size (filter (fun u => v ∈ succs adjacency u) R).

Lemma index_stages_lookup ps i s :
  index_stages ps !! i = Some s -> stage_id s = i /\ s ∈ all_stages ps.
Proof.
  unfold index_stages. assert (forall l (m : gmap string BlockStage),
    (forall i s, m !! i = Some s -> stage_id s = i /\ (s ∈ all_stages ps)) ->
    (forall s, s ∈ l -> s ∈ all_stages ps) ->
    forall i s, foldl (fun m s => or_insert m (stage_id s) s) m l !! i = Some s ->
    stage_id s = i /\ s ∈ all_stages ps) as H.
  { induction l as [|x l IH]; intros m Hm Hl; [done|]. cbn [foldl]. apply IH.
    - intros j t. unfold or_insert. case_match; [apply Hm|].
      intros [[<- <-]|[_ Ht]]%lookup_insert_Some; [|by apply Hm]. split; [done|]. apply Hl. left.
    - intros t Ht. apply Hl. by right. }
  apply H; [|done]. intros j t. by rewrite lookup_empty.
Qed.

Lemma index_stages_dom ps i : i ∈ dom (index_stages ps) <-> i ∈ stage_id <$> all_stages ps.
Proof.
  unfold index_stages. assert (forall l (m : gmap string BlockStage),
    i ∈ dom (foldl (fun m s => or_insert m (stage_id s) s) m l) <->
    i ∈ dom m \/ i ∈ stage_id <$> l) as H.
  { induction l as [|x l IH]; intros m; cbn [foldl].
    - split; [by left|by intros [?|?%elem_of_nil]].
    - rewrite IH, fmap_cons, elem_of_cons.
      enough (i ∈ dom (or_insert m (stage_id x) x) <-> i = stage_id x \/ i ∈ dom m) as -> by tauto.
      unfold or_insert. case_match eqn:Hx; [|by rewrite dom_insert, elem_of_union, elem_of_singleton].
      split; [by right|]. intros [->|?]; [|done]. by apply elem_of_dom_2 in Hx. }
  rewrite H, dom_empty. set_solver.
Qed.

Lemma successions_elem u v ids :
  (u, v) ∈ successions ids <-> exists l1 l2, ids = l1 ++ u :: v :: l2.
Proof.
  unfold successions. induction ids as [|x [|y ids] IH]; cbn [tail zip zip_with].
  - split; [by intros ?%elem_of_nil|by intros ([] & ? & ?)].
  - split; [by intros ?%elem_of_nil|intros ([|? []] & ? & ?); done].
  - cbn [tail] in IH. change (zip_with pair (y :: ids) ids) with (zip (y :: ids) ids).
    rewrite elem_of_cons, IH. split.
    + intros [[= -> ->]|(l1 & l2 & ->)]; [by exists [], ids|by exists (x :: l1), l2].
    + intros ([|z l1] & l2 & H); [left|right]; injection H; [by intros _ -> ->|].
      intros Hl ->. by exists l1, l2.
Qed.

Lemma edges_elem u v ps :
  (u, v) ∈ edges ps <->
  exists p, p ∈ ps /\ (u, v) ∈ successions (stage_id <$> stages p).
Proof.
  unfold edges. rewrite list_elem_of_join. split.
  - intros (l & Hin & (p & -> & Hp)%list_elem_of_fmap). eauto.
  - intros (p & Hp & Hin). eexists. split; [exact Hin|]. by apply (list_elem_of_fmap_2 (fun p => successions (stage_id <$> stages p))).
Qed.

Lemma edges_in u v ps :
  (u, v) ∈ edges ps -> u ∈ dom (index_stages ps) /\ v ∈ dom (index_stages ps).
Proof.
  intros (p & Hp & (l1 & l2 & Hl)%successions_elem)%edges_elem.
  rewrite !index_stages_dom. unfold all_stages.
  assert (forall i, i ∈ stage_id <$> stages p -> i ∈ stage_id <$> mjoin (stages <$> ps)) as H.
  { intros i (s & -> & Hs)%list_elem_of_fmap. apply list_elem_of_fmap_2, list_elem_of_join.
    exists (stages p). split; [done|]. by apply list_elem_of_fmap_2. }
  split; apply H; rewrite Hl; set_solver.
Qed.

(** *** The graph *)

Definition graph_ok (V : gset string) (g : graph) : Prop :=
  dom g.1 = V /\ (forall u v, v ∈ succs g.1 u -> v ∈ V) /\
  (forall v, v ∈ V -> g.2 !! v = Some (count g.1 v V)).

Lemma succs_insert adj u A w :
  succs (<[u := A]> adj) w = if decide (w = u) then A else succs adj w.
Proof.
  unfold succs. case_decide as H; [subst; by rewrite lookup_insert_eq|].
  by rewrite lookup_insert_ne.
Qed.

Lemma add_edge_ok V g u v :
  graph_ok V g -> u ∈ V -> v ∈ V ->
  graph_ok V (add_edge g (u, v)) /\
  (forall x y, y ∈ succs (add_edge g (u, v)).1 x <-> y ∈ succs g.1 x \/ (x = u /\ y = v)).
Proof.
  destruct g as [adj deg]. intros (Hdom & Hin & Hdeg) Hu Hv. cbn [fst snd add_edge] in *.
  rewrite <-Hdom in Hu. apply elem_of_dom in Hu as [A HA]. rewrite HA.
  assert (succs adj u = A) as Hsu by by unfold succs; rewrite HA.
  case_decide as Hd.
  { split; [done|]. intros x y. split; [by left|]. intros [?|[-> ->]]; [done|cbn [fst]; by rewrite Hsu]. }
  assert (forall x y, y ∈ succs (<[u := {[v]} ∪ A]> adj) x <-> y ∈ succs adj x \/ (x = u /\ y = v))
    as Hs.
  { intros x y. rewrite succs_insert. case_decide as Hx; [subst x|]; set_solver. }
  split; [|exact Hs]. split_and!; cbn [fst snd].
  - rewrite dom_insert_L. apply elem_of_dom_2 in HA. set_solver.
  - intros x y [?|[-> ->]]%Hs; [by eapply Hin|done].
  - intros w Hw. unfold count. destruct (decide (w = v)) as [->|Hne].
    + rewrite lookup_insert_eq, (Hdeg v Hv). cbn [default]. f_equal.
      assert (filter (fun x => v ∈ succs (<[u := {[v]} ∪ A]> adj) x) V =
        {[u]} ∪ filter (fun x => v ∈ succs adj x) V) as ->.
      { apply set_eq. intros x. rewrite elem_of_union, !elem_of_filter, Hs, elem_of_singleton.
        apply elem_of_dom_2 in HA. set_solver. }
      rewrite size_union, size_singleton; [done|].
      intros x ->%elem_of_singleton [Hx _]%elem_of_filter. by rewrite Hsu in Hx.
    + rewrite lookup_insert_ne by done. rewrite (Hdeg w Hw). unfold count.
      do 2 f_equal. apply set_eq. intros x. rewrite !elem_of_filter, Hs. naive_solver.
Qed.

Lemma build_graph_ok ps :
  graph_ok (dom (index_stages ps)) (build_graph ps) /\
  (forall u v, v ∈ succs (build_graph ps).1 u <-> (u, v) ∈ edges ps).
Proof.
  set (V := dom (index_stages ps)). unfold build_graph.
  assert (forall es g, graph_ok V g -> (forall u v, (u, v) ∈ es -> u ∈ V /\ v ∈ V) ->
    graph_ok V (foldl add_edge g es) /\
    (forall u v, v ∈ succs (foldl add_edge g es).1 u <-> v ∈ succs g.1 u \/ (u, v) ∈ es)) as H.
  { induction es as [|[a b] es IH]; intros g Hg Hes; cbn [foldl].
    { split; [done|]. intros u v. split; [by left|by intros [?|?%elem_of_nil]]. }
    destruct (Hes a b ltac:(left)) as [Ha Hb].
    destruct (add_edge_ok V g a b Hg Ha Hb) as [Hg' Hs].
    destruct (IH _ Hg') as [Hok Hsuccs]; [intros u v Huv; apply Hes; by right|].
    split; [done|]. intros u v. rewrite Hsuccs, Hs, elem_of_cons. naive_solver. }
  assert (forall u, succs ((fun _ => ∅) <$> index_stages ps) u = ∅) as Hnone.
  { intros u. unfold succs. rewrite lookup_fmap. by destruct (index_stages ps !! u). }
  destruct (H (edges ps) ((fun _ => ∅) <$> index_stages ps, (fun _ => O) <$> index_stages ps))
    as [Hok Hsuccs].
  - split_and!; cbn [fst snd].
    + apply dom_fmap_L.
    + intros u v. rewrite Hnone. set_solver.
    + intros v [s Hs]%elem_of_dom. rewrite lookup_fmap, Hs. cbn. f_equal. symmetry.
      apply size_empty_iff. intros u. rewrite elem_of_filter, Hnone. set_solver.
  - intros u v. apply edges_in.
  - split; [done|]. intros u v. rewrite Hsuccs. cbn [fst]. rewrite Hnone. set_solver.
Qed.

(** *** The loop *)

Section Loop.
Context (V : gset string) (adj : gmap string (gset string)) (fs : gmap string nat) (n : nat).
Context (Hin : forall u v, v ∈ succs adj u -> v ∈ V).

Lemma count_remove v u R :
  u ∈ R -> count adj v R = ((if decide (v ∈ succs adj u) then 1 else 0) + count adj v (R ∖ {[u]}))%nat.
Proof.
  intros Hu. unfold count. case_decide as Hv.
  - assert (filter (fun x => v ∈ succs adj x) R =
      {[u]} ∪ filter (fun x => v ∈ succs adj x) (R ∖ {[u]})) as ->.
    { apply set_eq. intros x. rewrite elem_of_union, !elem_of_filter.
      destruct (decide (x = u)) as [->|]; set_solver. }
    rewrite size_union, size_singleton; [done|]. set_solver.
  - cbn [Nat.add]. f_equal. apply set_eq. intros x. rewrite !elem_of_filter.
    destruct (decide (x = u)) as [->|]; set_solver.
Qed.

Lemma count_zero v R : count adj v R = O <-> forall u, u ∈ R -> v ∉ succs adj u.
Proof.
  unfold count. rewrite size_empty_iff. split.
  - intros H u Hu Hv. assert (u ∈ filter (fun u => v ∈ succs adj u) R) as Hf
      by by apply elem_of_filter. set_solver.
  - intros H. apply elem_of_equiv_empty. intros u [Hv Hu]%elem_of_filter. by apply (H u).
Qed.

Record kahn_ok (s : Kahn) : Prop := {
  ok_nodup : NoDup (ordered s);
  ok_split : forall x, x ∈ V <-> x ∈ ordered s \/ x ∈ remaining s;
  ok_apart : forall x, x ∈ ordered s -> x ∉ remaining s;
  ok_degree : forall v, v ∈ V -> indegree s !! v = Some (count adj v (remaining s));
  ok_ready_nodup : NoDup (ready s);
  ok_ready : forall x, x ∈ ready s <-> x ∈ remaining s /\ count adj x (remaining s) = O;
  ok_before : forall l1 v l2 u, ordered s = l1 ++ v :: l2 -> u ∈ V -> v ∈ succs adj u -> u ∈ l1;
}.

Lemma min_by_key_elem key l :
  match min_by_key key l with Some x => x ∈ l | None => l = [] end.
Proof.
  induction l as [|x l IH]; [done|]. cbn. destruct (min_by_key key l) as [y|]; [|left].
  case_decide; [by right|left].
Qed.

Lemma filter_ext_in {A} (P Q : A -> Prop) `{!forall x, Decision (P x)}
    `{!forall x, Decision (Q x)} (l : list A) :
  (forall x, x ∈ l -> P x <-> Q x) -> filter P l = filter Q l.
Proof.
  induction l as [|x l IH]; intros Hpq; [done|]. rewrite !filter_cons.
  rewrite IH by (intros; apply Hpq; by right). specialize (Hpq x ltac:(left)).
  destruct (decide (P x)), (decide (Q x)); done || tauto.
Qed.

Lemma relax_all l : forall (f : string -> nat) deg rdy,
  NoDup l -> (forall v, v ∈ l -> v ∈ V) -> (forall v, v ∈ l -> f v <> O) ->
  (forall v, v ∈ V -> deg !! v = Some (f v)) ->
  let '(deg', rdy') := foldl relax (deg, rdy) l in
  (forall v, v ∈ V -> deg' !! v = Some (if decide (v ∈ l) then pred (f v) else f v)) /\
  rdy' = rdy ++ filter (fun v => pred (f v) = O) l.
Proof.
  induction l as [|x l IH]; intros f deg rdy Hnd HV Hf Hdeg.
  { cbn. split; [|by rewrite app_nil_r]. intros v Hv. by rewrite Hdeg. }
  apply NoDup_cons in Hnd as [Hx Hnd]. cbn [foldl relax].
  rewrite (Hdeg x) by (apply HV; left).
  set (f' := fun v => if decide (v = x) then pred (f v) else f v).
  specialize (IH f' (<[x := pred (f x)]> deg)
    (if decide (pred (f x) = O) then rdy ++ [x] else rdy) Hnd ltac:(intros; apply HV; by right)).
  destruct (foldl relax _ l) as [deg' rdy']. destruct IH as [Hd Hr].
  - intros v Hv. unfold f'. rewrite decide_False by congruence. apply Hf. by right.
  - intros v Hv. unfold f'. case_decide as Heq.
    + subst v. by rewrite lookup_insert_eq.
    + rewrite lookup_insert_ne by done. by apply Hdeg.
  - split.
    + intros v Hv. rewrite Hd by done. f_equal. unfold f'.
      destruct (decide (v = x)) as [->|Hne].
      * rewrite decide_False by done. rewrite (decide_True (P := x ∈ x :: l)) by left. done.
      * destruct (decide (v ∈ l)) as [Hl|Hl].
        -- by rewrite decide_True by by right.
        -- rewrite decide_False; [done|]. intros [?|?]%elem_of_cons; done.
    + rewrite Hr. rewrite filter_cons.
      rewrite (filter_ext_in _ (fun v => pred (f v) = O) l).
      * case_decide; [by rewrite <-app_assoc|done].
      * intros v Hv. unfold f'. rewrite decide_False by congruence. done.
Qed.

Lemma turn_ok s :
  kahn_ok s -> ready s <> [] ->
  kahn_ok (turn fs n adj s) /\ size (remaining (turn fs n adj s)) = pred (size (remaining s)).
Proof.
  intros [Hnd Hsplit Hapart Hdeg Hrnd Hready Hbefore] Hne. unfold turn.
  pose proof (min_by_key_elem (seen_at fs n) (ready s)) as Hmin.
  destruct (min_by_key _ _) as [next|]; [|done].
  pose proof Hmin as [Hrem Hzero]%Hready. rewrite count_zero in Hzero.
  assert (next ∈ V) as HnV by (apply Hsplit; by right).
  assert (next ∉ succs adj next) as Hself by by apply Hzero.
  assert (forall v, v ∈ succs adj next -> v ∈ remaining s) as Hlive.
  { intros v Hv. pose proof (Hin _ _ Hv) as HvV. apply Hsplit in HvV as [Ho|]; [|done].
    apply list_elem_of_split in Ho as (l1 & l2 & Hl).
    pose proof (Hbefore l1 v l2 next Hl HnV Hv) as H1. exfalso. apply (Hapart next); [|done].
    rewrite Hl. set_solver. }
  pose proof (relax_all (elements (succs adj next)) (fun v => count adj v (remaining s))
    (indegree s) (filter (fun id => id <> next) (ready s))) as Hrelax.
  change (default ∅ (adj !! next)) with (succs adj next).
  destruct (foldl relax _ _) as [deg rdy]. destruct Hrelax as [Hd ->].
  { apply NoDup_elements. }
  { intros v Hv%elem_of_elements. by eapply Hin. }
  { intros v Hv%elem_of_elements. rewrite count_zero. intros H. by apply (H next). }
  { done. }
  assert (forall v, count adj v (remaining s ∖ {[next]}) =
    if decide (v ∈ elements (succs adj next)) then pred (count adj v (remaining s))
    else count adj v (remaining s)) as Hcount.
  { intros v. rewrite (count_remove v next (remaining s)) by done.
    destruct (decide (v ∈ succs adj next)), (decide (v ∈ elements (succs adj next))) as [He|He];
      rewrite elem_of_elements in He; done. }
  split; [split|]; cbn [ordered remaining indegree ready].
  - apply NoDup_app. split_and!; [done|set_solver|apply NoDup_singleton].
  - intros x. rewrite Hsplit. destruct (decide (x = next)) as [->|]; set_solver.
  - intros x [Hx|Hx%list_elem_of_singleton]%elem_of_app; [|set_solver].
    pose proof (Hapart x Hx). set_solver.
  - intros v Hv. by rewrite Hd, Hcount.
  - apply NoDup_app. split_and!; [by apply NoDup_filter| |apply NoDup_filter, NoDup_elements].
    intros x [_ Hx]%list_elem_of_filter [_ Hs%elem_of_elements]%list_elem_of_filter.
    apply Hready in Hx as [_ Hx]. rewrite count_zero in Hx. by apply (Hx next).
  - intros x. rewrite elem_of_app, !list_elem_of_filter, Hready, elem_of_difference,
      not_elem_of_singleton, Hcount.
    case_decide as Hx; rewrite elem_of_elements in Hx.
    + assert (count adj x (remaining s) <> O) as Hpos.
      { rewrite count_zero. intros H. by apply (H next). }
      rewrite elem_of_elements. pose proof (Hlive x Hx).
      assert (x <> next) by congruence. naive_solver.
    + rewrite elem_of_elements. naive_solver.
  - intros l1 v l2 u Hl Hu Hv. destruct l2 as [|y l2] using rev_ind.
    + apply app_inj_tail in Hl as [<- <-]. pose proof Hu as Hu'.
      apply Hsplit in Hu' as [?|Hr]; [done|]. by apply Hzero in Hv.
    + rewrite app_comm_cons, app_assoc in Hl. apply app_inj_tail in Hl as [Hl _].
      by eapply Hbefore.
  - rewrite size_difference by set_solver. rewrite size_singleton. lia.
Qed.

Lemma loop_finishes fuel s :
  kahn_ok s -> (size (remaining s) <= fuel)%nat ->
  kahn_ok (loop fs n adj fuel s) /\ ready (loop fs n adj fuel s) = [].
Proof.
  revert s. induction fuel as [|fuel IH]; intros s Hs Hf.
  { cbn. split; [done|]. destruct (ready s) as [|x l] eqn:Hr; [done|].
    assert (x ∈ ready s) as [Hx _]%(ok_ready s Hs) by (rewrite Hr; left).
    assert (size (remaining s) = O) as H0 by lia. apply size_empty_iff in H0. set_solver. }
  cbn [loop]. destruct (ready s) as [|x l] eqn:Hr.
  - assert (forall k, loop fs n adj k (turn fs n adj s) = s) as Hstay.
    { assert (turn fs n adj s = s) as Ht by by unfold turn; rewrite Hr.
      intros k. rewrite Ht. induction k as [|k IHk]; [done|]. cbn. by rewrite Ht. }
    by rewrite Hstay.
  - destruct (turn_ok s Hs ltac:(by rewrite Hr)) as [Ht Hsize]. apply IH; [done|].
    assert (x ∈ ready s) as [Hx _]%(ok_ready s Hs) by (rewrite Hr; left).
    assert (size (remaining s) <> O).
    { intros H0. apply size_empty_iff in H0. set_solver. }
    lia.
Qed.

(** With a rank that every edge raises, the loop leaves nothing behind. *)
Lemma acyclic_empty s (rank : string -> nat) :
  kahn_ok s -> ready s = [] -> (forall u v, v ∈ succs adj u -> (rank u < rank v)%nat) ->
  remaining s = ∅.
Proof.
  intros Hs Hr Hrank.
  assert (forall k x, (rank x <= k)%nat -> x ∉ remaining s) as H.
  { induction k as [|k IH]; intros x Hx Hin';
      (assert (x ∈ ready s) as Hxr; [|rewrite Hr in Hxr; by apply elem_of_nil in Hxr]);
      apply (ok_ready s Hs); (split; [done|]); apply count_zero; intros u Hu Hv%Hrank.
    - lia.
    - apply (IH u); [lia|done]. }
  apply set_eq. intros x. split; [|set_solver]. intros Hx. by apply (H (rank x) x) in Hx.
Qed.
End Loop.

Lemma start_ok ps :
  kahn_ok (dom (index_stages ps)) (build_graph ps).1 (start ps).
Proof.
  destruct (build_graph_ok ps) as [(Hdom & Hin & Hdeg) Hs]. unfold start.
  split; cbn [ordered remaining indegree ready].
  - by apply NoDup_nil.
  - intros x. set_solver.
  - intros x Hx. set_solver.
  - done.
  - apply NoDup_filter, NoDup_elements.
  - intros x. rewrite list_elem_of_filter, elem_of_elements. split.
    + intros [H Hx]. rewrite Hdeg in H by done. done.
    + intros [Hx H]. rewrite Hdeg by done. done.
  - intros [] v l2 u H; done.
Qed.

(** In a list without repetition, a chain of elements each before the next is a
    subsequence. *)
Lemma chain_from (out ids : list string) u :
  NoDup out -> (forall i, i ∈ u :: ids -> i ∈ out) ->
  (forall a b, (a, b) ∈ successions (u :: ids) -> exists l1 l2, out = l1 ++ b :: l2 /\ a ∈ l1) ->
  exists l1 l2, out = l1 ++ u :: l2 /\ ids `sublist_of` l2.
Proof.
  intros Hnd. revert u. induction ids as [|v ids IH]; intros u Hall Hchain.
  { destruct (list_elem_of_split out u) as (l1 & l2 & ->); [apply Hall; left|].
    exists l1, l2. split; [done|apply sublist_nil_l]. }
  destruct (IH v) as (k1 & k2 & Hk & Hsub).
  { intros i Hi. apply Hall. by right. }
  { intros a b Hab. apply Hchain. apply successions_elem in Hab as (l1 & l2 & Hl).
    apply successions_elem. exists (u :: l1), l2. by rewrite Hl. }
  destruct (Hchain u v) as (l1 & l2 & Hl & Hu).
  { apply successions_elem. by exists [], ids. }
  assert (k1 = l1 /\ k2 = l2) as [-> ->].
  { rewrite Hl in Hk. rewrite Hl in Hnd. clear -Hk Hnd. revert k1 Hk.
    induction l1 as [|x l1 IH]; intros [|y k1] Hk; injection Hk.
    - by intros ->.
    - intros Hk' <-. cbn in Hnd. apply NoDup_cons in Hnd as [Hv _]. rewrite Hk' in Hv. set_solver.
    - intros Hk' ->. apply NoDup_cons in Hnd as [Hv _]. set_solver.
    - intros Hk' ->. cbn in Hnd. apply NoDup_cons in Hnd as [_ Hnd].
      by destruct (IH Hnd k1 Hk') as [-> ->]. }
  apply list_elem_of_split in Hu as (m1 & m2 & ->). exists m1, (m2 ++ v :: l2). split.
  - by rewrite Hl, <-app_assoc.
  - apply (sublist_app [] m2); [apply sublist_nil_l|]. by apply sublist_skip.
Qed.

(** The order holds every stage of the selected pipelines exactly once, cycle or not;
    and when the pipelines do not contradict each other, it keeps the order of each. *)
Theorem canonical_order ps :
  canonical_ids ps ≡ₚ elements (dom (index_stages ps)) /\
  (forall rank : string -> nat,
     (forall u v, (u, v) ∈ edges ps -> (rank u < rank v)%nat) ->
     forall p, p ∈ ps -> (stage_id <$> stages p) `sublist_of` canonical_ids ps).
Proof.
  destruct (build_graph_ok ps) as [(_ & Hin & _) Hs].
  unfold canonical_ids. set (fs := first_seen ps). set (n := size (index_stages ps)).
  set (V := dom (index_stages ps)). set (final := loop _ _ _ _ _).
  destruct (loop_finishes V (build_graph ps).1 fs n Hin n (start ps) (start_ok ps)) as [Hok Hr].
  { cbn. by rewrite size_dom. }
  fold final in Hok, Hr.
  assert (forall k, ordered final ++ merge_sort (by_key_nat k) (elements (remaining final))
    ≡ₚ elements V) as Hperm.
  { intros k. rewrite merge_sort_Permutation. apply NoDup_Permutation.
    - apply NoDup_app. split_and!; [apply Hok| |apply NoDup_elements].
      intros x Hx Hx'%elem_of_elements. by apply (ok_apart _ _ _ Hok x).
    - apply NoDup_elements.
    - intros x. by rewrite elem_of_app, !elem_of_elements, (ok_split _ _ _ Hok). }
  split; [apply Hperm|]. intros rank Hrank p Hp.
  assert (remaining final = ∅) as Hrem.
  { apply (acyclic_empty V (build_graph ps).1 Hin final rank Hok Hr).
    intros u v Huv. apply Hrank. by apply Hs. }
  specialize (Hperm (seen_at fs O)). rewrite Hrem in *.
  assert (forall l, merge_sort (by_key_nat (seen_at fs O)) (elements (∅ : gset string)) = l -> l = [])
    as Hnil.
  { intros l <-. apply Permutation_nil_r. by rewrite merge_sort_Permutation, elements_empty. }
  rewrite (Hnil _ eq_refl), app_nil_r in *. clear Hnil.
  assert (forall i, i ∈ stage_id <$> stages p -> i ∈ ordered final) as Hall.
  { intros i Hi. rewrite Hperm. apply elem_of_elements, index_stages_dom. unfold all_stages.
    apply list_elem_of_fmap in Hi as (st & -> & Hst). apply list_elem_of_fmap_2, list_elem_of_join.
    exists (stages p). split; [done|]. by apply list_elem_of_fmap_2. }
  destruct (stage_id <$> stages p) as [|u ids] eqn:Hids; [apply sublist_nil_l|].
  destruct (chain_from (ordered final) ids u) as (l1 & l2 & -> & Hsub).
  - apply Hok.
  - exact Hall.
  - intros a b Hab. assert ((a, b) ∈ edges ps) as He.
    { apply edges_elem. exists p. by rewrite Hids. }
    destruct (list_elem_of_split (ordered final) b) as (l1 & l2 & Hl).
    { apply Hall. apply successions_elem in Hab as (m1 & m2 & ->). set_solver. }
    exists l1, l2. split; [done|]. eapply (ok_before _ _ _ Hok); [exact Hl| |by apply Hs].
    by apply edges_in in He as [? _].
  - apply (sublist_app [] l1); [apply sublist_nil_l|]. by apply sublist_skip.
Qed.
Definition two_pipelines : list BlockPipeline :=
  let pipeline name ids := {| pipeline_name := name;
    stages := (fun i => {| stage_id := i; prompt_fragment := "Do " +:+ i |}) <$> ids |} in
  [pipeline "basic" ["spec"; "build"; "merge"]; pipeline "reviewed" ["spec"; "review"; "merge"]]%string.

Lemma canonical_order_witness :
  canonical_ids two_pipelines = ["spec"; "build"; "review"; "merge"]%string /\
  Forall (fun p => (stage_id <$> stages p) `sublist_of` canonical_ids two_pipelines) two_pipelines.
Proof.
  split; [by vm_compute|]. apply Forall_forall. intros p Hp.
  apply (proj2 (canonical_order two_pipelines)
    (fun i => if decide (i = "spec"%string) then 0%nat
              else if decide (i = "merge"%string) then 2%nat else 1%nat)); [|done].
  intros u v Huv. assert (edges two_pipelines =
    [("spec", "build"); ("build", "merge"); ("spec", "review"); ("review", "merge")]%string) as He
    by by vm_compute.
  rewrite He in Huv. repeat (apply elem_of_cons in Huv as [[= -> ->]|Huv]; [vm_compute; lia|]).
  by apply elem_of_nil in Huv.
Defined.
End PipelineBlock.
