(* ===== verification/Redact.v ===== *)
(** * Redaction of command lines

    crates/node-metrics/src/redact.rs: what a process's arguments look like once their
    secrets are masked.  A [str] is its UTF-8 bytes and a [char] the bytes of one
    character; which characters beyond ASCII are letters or numbers is the table of the
    class [CharClass]. *)
From S2P Require Import Prelude Text Format.
From Stdlib Require Import Ascii.

(** The bytes of a character, by its first byte. *)
Definition char_width (c : ascii) : nat :=
  let n := N_of_ascii c in
  if (n <? 0xC0)%N then 1%nat else if (n <? 0xE0)%N then 2%nat
  else if (n <? 0xF0)%N then 3%nat else 4%nat.

Fixpoint take_bytes (n : nat) (s : string) : string :=
  match n, s with
  | S n, String c s => String c (take_bytes n s)
  | _, _ => ""
  end.

(** [s.chars()]; every step consumes a byte, so the length is fuel enough. *)
Fixpoint chars_fuel (fuel : nat) (s : string) : list string :=
  match fuel, s with
  | S fuel, String c _ =>
      let w := char_width c in take_bytes w s :: chars_fuel fuel (drop_bytes w s)
  | _, _ => []
  end.
Definition chars (s : string) : list string := chars_fuel (String.length s) s.

(** [char::is_alphabetic] and [char::is_numeric]. *)
Class CharClass := {
  is_alphabetic : string -> bool;
  is_numeric : string -> bool;
}.

(** [s.rsplit_once(c)] *)
Fixpoint rsplit_once (c : ascii) (s : string) : option (string * string) :=
  match s with
  | EmptyString => None
  | String d s' =>
      match rsplit_once c s' with
      | Some (a, b) => Some (String d a, b)
      | None => if decide (d = c) then Some ("", s') else None
      end
  end.

(** A whole character. *)
Definition full (p : string) : Prop :=
  match p with EmptyString => False | String c _ => String.length p = char_width c end.

Lemma char_width_pos c : (1 <= char_width c)%nat.
Proof. unfold char_width. repeat case_match; lia. Qed.

Lemma take_bytes_app p t : take_bytes (String.length p) (p +:+ t) = p.
Proof. induction p as [|c p IH]; [by destruct t|]. rewrite sapp_cons. cbn. by rewrite IH. Qed.

Lemma drop_bytes_length n s : (String.length (drop_bytes n s) = String.length s - n)%nat.
Proof.
  revert s. induction n as [|n IH]; intros s; [by destruct s; cbn; rewrite ?Nat.sub_0_r|].
  destruct s as [|c s]; [done|]. cbn. apply IH.
Qed.

Lemma chars_fuel_enough fuel : forall s,
  (String.length s <= fuel)%nat -> chars_fuel fuel s = chars s.
Proof.
  unfold chars. induction fuel as [fuel IH] using (well_founded_induction lt_wf). intros s Hf.
  destruct s as [|c s]; [by destruct fuel|]. destruct fuel as [|fuel]; [cbn in Hf; lia|].
  cbn [String.length chars_fuel]. f_equal. pose proof (char_width_pos c).
  pose proof (drop_bytes_length (char_width c) (String c s)) as Hd. cbn [String.length] in Hd, Hf.
  rewrite (IH fuel) by lia. destruct (decide (String.length s = fuel)) as [-> |]; [by rewrite (IH fuel) by lia|].
  symmetry. apply IH; lia.
Qed.

Lemma chars_cons p t : full p -> chars (p +:+ t) = p :: chars t.
Proof.
  intros Hp. destruct p as [|c p]; [done|]. cbn in Hp.
  pose proof (take_bytes_app (String c p) t) as Ht. pose proof (drop_bytes_app (String c p) t) as Hd.
  cbn [String.length] in Ht, Hd. rewrite Hp in Ht, Hd.
  unfold chars. rewrite sapp_cons in *. cbn [String.length chars_fuel].
  rewrite Ht, Hd. f_equal. apply chars_fuel_enough. rewrite slength_app. lia.
Qed.

Lemma chars_sconcat ps t : Forall full ps -> chars (sconcat ps +:+ t) = ps ++ chars t.
Proof.
  induction 1 as [|p ps Hp _ IH]; [done|].
  by rewrite sconcat_cons, sapp_assoc, chars_cons, IH.
Qed.

(** Every character that is followed by another is whole. *)
Lemma chars_full s : forall n, (n < length (chars s))%nat -> Forall full (take n (chars s)).
Proof.
  induction s as [s IH] using (induction_ltof1 _ String.length). unfold ltof in IH.
  intros n Hn. destruct s as [|c s]; [destruct n; constructor|].
  destruct n as [|n]; [constructor|]. unfold chars in Hn |- *. cbn [String.length chars_fuel take] in *.
  pose proof (char_width_pos c) as Hw.
  pose proof (drop_bytes_length (char_width c) (String c s)) as Hd. cbn [String.length] in Hd.
  rewrite chars_fuel_enough in Hn |- * by lia. cbn [length] in Hn. constructor; [|apply IH; [cbn; lia|lia]].
  assert (char_width c < S (String.length s))%nat as Hlt.
  { destruct (drop_bytes (char_width c) (String c s)); [cbn in Hn; lia|cbn in Hd; lia]. }
  clear -Hw Hlt. unfold full. destruct (char_width c) as [|w] eqn:Hc; [lia|].
  cbn [take_bytes]. rewrite Hc. cbn [String.length]. f_equal.
  assert (w <= String.length s)%nat as Hs by lia. clear -Hs.
  revert s Hs. induction w as [|w IH]; intros s Hs; [by destruct s|].
  destruct s as [|d s]; cbn in *; [lia|]. f_equal. apply IH. lia.
Qed.

Module Redact.

(* crates/node-metrics/src/redact.rs:43-43 REDACTED *)
Definition REDACTED : string := "«redacted»".
(* crates/node-metrics/src/redact.rs:48-48 MAX_COMMAND_CHARS *)
Definition MAX_COMMAND_CHARS : nat := 256.

(* crates/node-metrics/src/redact.rs:56-72 SECRET_KEY_FRAGMENTS *)
Definition SECRET_KEY_FRAGMENTS : list string :=
  ["apikey"; "api-key"; "api_key"; "auth"; "bearer"; "credential"; "passwd"; "password";
   "privatekey"; "private-key"; "private_key"; "pwd"; "secret"; "session"; "token"].

(* crates/node-metrics/src/redact.rs:76-88 SECRET_PREFIXES *)
Definition SECRET_PREFIXES : list string :=
  ["AKIA"; "eyJ"; "ghp_"; "gho_"; "ghs_"; "github_pat_"; "glpat-"; "op://"; "sk-"; "xoxb-";
   "xoxp-"].

(* crates/node-metrics/src/redact.rs:95-95 CREDENTIAL_SHORT_FLAGS *)
Definition CREDENTIAL_SHORT_FLAGS : list string := ["-p"; "-u"].
(* crates/node-metrics/src/redact.rs:100-100 MIN_CREDENTIAL_CHARS *)
Definition MIN_CREDENTIAL_CHARS : nat := 20.

Section Redact.
Context `{CharClass}.

(* crates/node-metrics/src/redact.rs:267-272 key_is_secret *)
Definition key_is_secret (key : string) : bool :=
  let normalized := to_ascii_lowercase (trim_start_char "-" key) in
  existsb (fun fragment => contains fragment normalized) SECRET_KEY_FRAGMENTS.

(* crates/node-metrics/src/redact.rs:274-278 has_secret_prefix *)
Definition has_secret_prefix (token : string) : bool :=
  existsb (fun prefix => starts_with prefix token) SECRET_PREFIXES.

(* crates/node-metrics/src/redact.rs:352-354 is_path_like *)
Definition is_path_like (token : string) : bool :=
  starts_with "/" token || starts_with "./" token || starts_with "../" token.

(* crates/node-metrics/src/redact.rs:348-350 mixes_letters_and_digits *)
Definition mixes_letters_and_digits (token : string) : bool :=
  existsb is_alphabetic (chars token) && existsb is_numeric (chars token).

(* crates/node-metrics/src/redact.rs:342-344 is_token_char *)
Definition is_token_char (c : string) : bool :=
  is_alphabetic c || is_numeric c || bool_decide (c ∈ ["+"; "/"; "="; "_"; "-"]).

(* crates/node-metrics/src/redact.rs:326-337 looks_like_credential *)
Definition looks_like_credential (token : string) : bool :=
  if is_path_like token then false
  else if (length (chars token) <? MIN_CREDENTIAL_CHARS)%nat then false
  else if negb (forallb is_token_char (chars token)) then false
  else mixes_letters_and_digits token.

Definition digit_dot_colon (c : ascii) : bool :=
  bool_decide (is_Some (digit_value c)) || bool_decide (c = "."%char) || bool_decide (c = ":"%char).

(* crates/node-metrics/src/redact.rs:248-265 redact_shaped_value *)
Definition redact_shaped_value (value : string) : string :=
  match split_once ":" value with
  | Some (user, password) =>
      if all_chars digit_dot_colon password then value else user +:+ ":" +:+ REDACTED
  | None =>
      if negb (is_path_like value) && mixes_letters_and_digits value then REDACTED else value
  end.

(** What comes before the userinfo with a password, it, and the [@] with the rest. *)
(* crates/node-metrics/src/redact.rs:289-299 url_userinfo_span *)
Definition url_userinfo_span (token : string) : option (string * string * string) :=
  '(scheme, rest) ← split_once_str "://" token;
  let '(authority, path) :=
    match split_once "/" rest with
    | Some (a, p) => (a, String "/" p)
    | None => (rest, "")
    end in
  '(userinfo, host) ← rsplit_once "@" authority;
  if contains_char ":" userinfo
  then Some (scheme +:+ "://", userinfo, String "@" (host +:+ path)) else None.

(* crates/node-metrics/src/redact.rs:301-309 redact_url_userinfo *)
Definition redact_url_userinfo (token : string) : string :=
  match url_userinfo_span token with
  | Some (before, userinfo, after) =>
      let user := match split_once ":" userinfo with Some (u, _) => u | None => "" end in
      before +:+ user +:+ ":" +:+ REDACTED +:+ after
  | None => token
  end.

(* crates/node-metrics/src/redact.rs:227-236 split_attached_short_flag *)
Definition split_attached_short_flag (token : string) : option (string * string) :=
  if starts_with "--" token then None
  else
    flag ← head (filter (fun flag => Is_true (starts_with flag token)) CREDENTIAL_SHORT_FLAGS);
    value ← strip_prefix flag token;
    if decide (value = "") then None else Some (flag, value).

(* crates/node-metrics/src/redact.rs:158-163 Pending *)
Inductive Pending := Whole | Shaped.

(* crates/node-metrics/src/redact.rs:165-184 Token *)
Inductive Token :=
| KeyValue (key : string)
| BareSecretKey
| ShapedValueFlag
| AttachedValue (flag value : string)
| UrlWithUserinfo
| Secret
| Plain.

(* crates/node-metrics/src/redact.rs:186-221 classify *)
Definition classify (token : string) : Token :=
  let key_value :=
    '(key, _) ← split_once "=" token; if key_is_secret key then Some key else None in
  match key_value with
  | Some key => KeyValue key
  | None =>
      if starts_with "-" token && key_is_secret token then BareSecretKey
      else if bool_decide (token ∈ CREDENTIAL_SHORT_FLAGS) then ShapedValueFlag
      else
        match split_attached_short_flag token with
        | Some (flag, value) => AttachedValue flag value
        | None =>
            if has_secret_prefix token then Secret
            else match url_userinfo_span token with
                 | Some _ => UrlWithUserinfo
                 | None => if looks_like_credential token then Secret else Plain
                 end
        end
  end.

(* crates/node-metrics/src/redact.rs:358-365 truncate *)
Definition truncate (command : string) : string :=
  if (length (chars command) <=? MAX_COMMAND_CHARS)%nat then command
  else sconcat (take MAX_COMMAND_CHARS (chars command)) +:+ "…".

(** The arguments as they are shown, and whether a flag claims the next one. *)
(* crates/node-metrics/src/redact.rs:112-142 redact_argv *)
Fixpoint redact_args (pending : option Pending) (argv : list string) : list string :=
  match argv with
  | [] => []
  | argument :: argv =>
      match pending with
      | Some Whole => REDACTED :: redact_args None argv
      | Some Shaped => redact_shaped_value argument :: redact_args None argv
      | None =>
          match classify argument with
          | KeyValue key => (key +:+ "=" +:+ REDACTED) :: redact_args None argv
          | BareSecretKey => argument :: redact_args (Some Whole) argv
          | ShapedValueFlag => argument :: redact_args (Some Shaped) argv
          | AttachedValue flag value => (flag +:+ redact_shaped_value value) :: redact_args None argv
          | UrlWithUserinfo => redact_url_userinfo argument :: redact_args None argv
          | Secret => REDACTED :: redact_args None argv
          | Plain => argument :: redact_args None argv
          end
      end
  end.

(* crates/node-metrics/src/redact.rs:108-145 redact_argv *)
Definition redact_argv (argv : list string) : string :=
  truncate (trim (join " " (redact_args None argv))).

(* crates/node-metrics/src/redact.rs:153-155 redact_command *)
Definition redact_command (command : string) : string := redact_argv (split_whitespace command).

(** ** The secrets do not show

    Arguments are read from the left, and a flag may claim the next one whatever that looks
    like; the rules below say, for an argument in its place, which part of it is a secret. *)

(** Neither a flag nor begun like a credential, nor is what precedes its first equals sign the
    name of a secret: such an argument is masked as a URL if it has a password in it. *)
Definition unclaimed (s : string) : Prop :=
  starts_with "-" s = false /\ has_secret_prefix s = false /\
  forall key v, split_once "=" s = Some (key, v) -> key_is_secret key = false.

(** Values after [-p] or [-u] that differ in their secret only: a password after a colon that
    is not a port or an address, or a whole value of letters and digits that is no path. *)
Inductive same_shape : string -> string -> Prop :=
| ShapePassword user p q :
    contains_char ":" user = false ->
    all_chars digit_dot_colon p = false -> all_chars digit_dot_colon q = false ->
    same_shape (user +:+ String ":" p) (user +:+ String ":" q)
| ShapeMixed v w :
    contains_char ":" v = false -> is_path_like v = false -> mixes_letters_and_digits v = true ->
    contains_char ":" w = false -> is_path_like w = false -> mixes_letters_and_digits w = true ->
    same_shape v w
| ShapeSame v : same_shape v v.

(** Two command lines that differ in their secrets only: the value of a [key=value] whose key
    names a secret, the whole argument after a flag that names one, a value after [-p] or
    [-u], a password in a URL, an argument recognised as a credential. *)
Inductive same_but_secrets : list string -> list string -> Prop :=
| NoMore : same_but_secrets [] []
| Value key v w a b :
    contains_char "=" key = false -> key_is_secret key = true ->
    same_but_secrets a b ->
    same_but_secrets ((key +:+ String "=" v) :: a) ((key +:+ String "=" w) :: b)
| Next flag v w a b :
    contains_char "=" flag = false -> starts_with "-" flag = true -> key_is_secret flag = true ->
    same_but_secrets a b -> same_but_secrets (flag :: v :: a) (flag :: w :: b)
| Short flag v w a b :
    flag ∈ CREDENTIAL_SHORT_FLAGS -> same_shape v w ->
    same_but_secrets a b -> same_but_secrets (flag :: v :: a) (flag :: w :: b)
| Attached s t flag v w a b :
    classify s = AttachedValue flag v -> classify t = AttachedValue flag w -> same_shape v w ->
    same_but_secrets a b -> same_but_secrets (s :: a) (t :: b)
| Password s t before user p q after a b :
    unclaimed s -> unclaimed t -> contains_char ":" user = false ->
    url_userinfo_span s = Some (before, user +:+ String ":" p, after) ->
    url_userinfo_span t = Some (before, user +:+ String ":" q, after) ->
    same_but_secrets a b -> same_but_secrets (s :: a) (t :: b)
| Credential s t a b :
    classify s = Secret -> classify t = Secret ->
    same_but_secrets a b -> same_but_secrets (s :: a) (t :: b)
| Same x a b :
    classify x <> BareSecretKey -> classify x <> ShapedValueFlag ->
    same_but_secrets a b -> same_but_secrets (x :: a) (x :: b).

Lemma classify_key_value key v :
  contains_char "=" key = false -> key_is_secret key = true ->
  classify (key +:+ String "=" v) = KeyValue key.
Proof.
  intros Hc Hs. unfold classify.
  assert (split_once "=" (key +:+ String "=" v) = Some (key, v)) as ->
    by (by apply split_once_app).
  cbn [mbind option_bind]. by rewrite Hs.
Qed.

Lemma classify_bare flag :
  contains_char "=" flag = false -> starts_with "-" flag = true -> key_is_secret flag = true ->
  classify flag = BareSecretKey.
Proof.
  intros Hc Hd Hs. unfold classify.
  destruct (split_once "=" flag) as [[k v]|] eqn:He.
  - apply split_once_app in He as [-> _]. rewrite contains_char_app in Hc. cbn in Hc.
    by rewrite orb_true_r in Hc.
  - cbn [mbind option_bind]. by rewrite Hd, Hs.
Qed.

Lemma classify_short flag : flag ∈ CREDENTIAL_SHORT_FLAGS -> classify flag = ShapedValueFlag.
Proof.
  intros Hf. unfold CREDENTIAL_SHORT_FLAGS in Hf.
  repeat (apply elem_of_cons in Hf as [-> | Hf]; [reflexivity|]). by apply not_elem_of_nil in Hf.
Qed.

Lemma redact_url_password s before user p after :
  contains_char ":" user = false ->
  url_userinfo_span s = Some (before, user +:+ String ":" p, after) ->
  redact_url_userinfo s = before +:+ user +:+ ":" +:+ REDACTED +:+ after.
Proof.
  intros Hu Hs. unfold redact_url_userinfo. rewrite Hs.
  assert (split_once ":" (user +:+ String ":" p) = Some (user, p)) as ->
    by (by apply split_once_app). done.
Qed.

Lemma short_flag_dash flag s : flag ∈ CREDENTIAL_SHORT_FLAGS -> starts_with flag s = true -> starts_with "-" s = true.
Proof.
  intros Hf Hs. unfold CREDENTIAL_SHORT_FLAGS in Hf.
  assert (exists c, flag = String "-" c) as [c ->]
    by (repeat (apply elem_of_cons in Hf as [-> | Hf]; [by eexists|]); by apply not_elem_of_nil in Hf).
  unfold starts_with in *. destruct s as [|d s]; [done|]. cbn in *. by destruct (decide ("-"%char = d)).
Qed.

Lemma classify_url s span : unclaimed s -> url_userinfo_span s = Some span -> classify s = UrlWithUserinfo.
Proof.
  intros (Hd & Hp & Hk) Hs. unfold classify.
  assert ((('(key, _) ← split_once "=" s; if key_is_secret key then Some key else None) : option string) = None) as ->.
  { destruct (split_once "=" s) as [[key v]|] eqn:He; [|done]. cbn [mbind option_bind]. by rewrite (Hk _ _ eq_refl). }
  rewrite Hd. cbn [andb].
  rewrite bool_decide_false.
  2:{ intros Hin. rewrite (short_flag_dash s s Hin) in Hd; [done|]. unfold starts_with.
      by rewrite (proj2 (strip_prefix_Some s s "")) by by rewrite sapp_nil_r. }
  assert (split_attached_short_flag s = None) as ->; [|by rewrite Hp, Hs].
  unfold split_attached_short_flag. destruct (starts_with "--" s); [done|].
  destruct (filter _ CREDENTIAL_SHORT_FLAGS) as [|f l] eqn:Hf; [done|].
  assert (f ∈ filter (fun flag => Is_true (starts_with flag s)) CREDENTIAL_SHORT_FLAGS) as Hin by (rewrite Hf; left).
  apply list_elem_of_filter in Hin as [Hst%Is_true_eq_true Hin]. by rewrite (short_flag_dash _ _ Hin Hst) in Hd.
Qed.

Lemma same_shape_shown v w : same_shape v w -> redact_shaped_value v = redact_shaped_value w.
Proof.
  intros [user p q Hu Hp Hq|x y Hx Hpx Hmx Hy Hpy Hmy|x]; unfold redact_shaped_value; [| |done].
  - assert (forall r, split_once ":" (user +:+ String ":" r) = Some (user, r)) as Hs by (intros; by apply split_once_app).
    by rewrite !Hs, Hp, Hq.
  - assert (forall z, contains_char ":" z = false -> split_once ":" z = None) as Hs.
    { intros z Hz. destruct (split_once ":" z) as [[a b]|] eqn:He; [|done].
      apply split_once_app in He as [-> _]. rewrite contains_char_app in Hz. cbn in Hz. by rewrite orb_true_r in Hz. }
    by rewrite !Hs, Hpx, Hmx, Hpy, Hmy.
Qed.

(** C33: Redacted commands do not depend on the secrets the rules recognise: two command lines
    are shown identically, so nothing of those values crosses the wire, not even their
    length, if, reading both from the left, they differ only in: the value of a [key=value]
    whose key names a secret; the argument, whatever it looks like, after a flag that names
    one; after [-p] or [-u], apart or attached, the password behind a colon unless it is a
    port or an address, or a whole value that mixes letters and digits and is no path; the
    password of a URL that is no flag, begins with no prefix of a credential and has no
    name of a secret before its first equals sign; an argument recognised as a credential.
    An argument that a flag claims is subject to that flag's rule only: after [-p] a
    [--password=word] is shown.  These limits are the code's: [flag_value_is_shown] has
    lines whose secrets are printed. *)
Theorem redaction_hides_secrets a b :
  same_but_secrets a b -> redact_argv a = redact_argv b.
Proof.
  intros Hab. unfold redact_argv. do 3 f_equal. induction Hab; cbn [redact_args].
  - done.
  - rewrite !classify_key_value by done. by f_equal.
  - rewrite !classify_bare by done. by rewrite IHHab.
  - rewrite !classify_short by done. by rewrite IHHab, (same_shape_shown v w).
  - rewrite H0, H1. by rewrite IHHab, (same_shape_shown v w).
  - do 2 (erewrite classify_url by done). erewrite !redact_url_password by done. by rewrite IHHab.
  - rewrite H0, H1. by rewrite IHHab.
  - destruct (classify x); try done; by rewrite IHHab.
Qed.

(** A command line is at most 257 characters as shown: 256 and an ellipsis, cut
    between characters whatever their encoded length. *)
Theorem redacted_length argv : (length (chars (redact_argv argv)) <= 257)%nat.
Proof.
  unfold redact_argv, truncate. generalize (trim (join " " (redact_args None argv))).
  intros s. destruct (_ <=? _)%nat eqn:Hl; [apply Nat.leb_le in Hl; unfold MAX_COMMAND_CHARS in Hl; lia|].
  apply Nat.leb_gt in Hl. rewrite chars_sconcat by (by apply chars_full).
  rewrite length_app, length_take. change (length (chars "…")) with 1%nat.
  unfold MAX_COMMAND_CHARS in *. lia.
Qed.

End Redact.

(** ** Instances *)

#[local] Instance ascii_classes : CharClass := {|
  is_alphabetic c :=
    match c with
    | String c "" => let n := N_of_ascii c in
        ((65 <=? n)%N && (n <=? 90)%N) || ((97 <=? n)%N && (n <=? 122)%N)
    | _ => true
    end;
  is_numeric c := match c with String c "" => bool_decide (is_Some (digit_value c)) | _ => false end;
|}.

Example redaction_hides_secrets_witness :
  redact_argv ["psql"; "--password"; "correct horse"; "--api-key=abc"; "pg://me:x@y@db/1"; "-u"; "bob:s3cret"; "-phunter2"]
    = "psql --password «redacted» --api-key=«redacted» pg://me:«redacted»@db/1 -u bob:«redacted» -p«redacted»"%string /\
  redact_argv ["psql"; "--password"; "correct horse"; "--api-key=abc"; "pg://me:x@y@db/1"; "-u"; "bob:s3cret"; "-phunter2"] =
  redact_argv ["psql"; "--password"; "battery"; "--api-key=d=e"; "pg://me:z@db/1"; "-u"; "bob:other"; "-pabc123"].
Proof.
  split; [by vm_compute|].
  apply redaction_hides_secrets. apply Same; [by vm_compute|by vm_compute|].
  apply Next; [done|done|by vm_compute|].
  apply (Value "--api-key" "abc" "d=e"); [done|by vm_compute|].
  apply (Password "pg://me:x@y@db/1" "pg://me:z@db/1" "pg://" "me" "x@y" "z" "@db/1").
  { split; [reflexivity|]. split; [reflexivity|]. intros key v Hk. vm_compute in Hk. discriminate Hk. }
  { split; [reflexivity|]. split; [reflexivity|]. intros key v Hk. vm_compute in Hk. discriminate Hk. }
  { reflexivity. }
  { by vm_compute. }
  { by vm_compute. }
  apply Short; [right; left|by apply (ShapePassword "bob")|].
  apply (Attached "-phunter2" "-pabc123" "-p" "hunter2" "abc123"); [by vm_compute..|by apply ShapeMixed|].
  apply NoMore.
Defined.

(** A secret in the value of an ordinary flag is shown, and its neighbour masked in
    its stead: classification asks whether the whole argument, value included, names a
    secret, so a header's token in [--header=Authorization: ...] is printed and the
    argument after it is not; a password with a secret word before an equals sign is cut
    there; and [-p] claims the flag that follows it. *)
Theorem flag_value_is_shown :
  redact_argv ["curl"; "--header=Authorization: Bearer abc123"; "https://host/"]
    = "curl --header=Authorization: Bearer abc123 «redacted»"%string /\
  redact_argv ["psql"; "postgres://me:hunter2pwd=x@db/1"]
    = "psql postgres://me:hunter2pwd=«redacted»"%string /\
  redact_argv ["mysql"; "-p"; "--password=trombone"] = "mysql -p --password=trombone"%string.
Proof. by split_and!; vm_compute. Qed.

End Redact.
