(* ===== verification/Remediation.v ===== *)
(** * Automatic repairs of failed turns

    crates/services/src/services/error_remediation.rs: which failed turns start a repair,
    and the text of the issue it is filed as ([Remediation]); and the consumer of
    crates/server/src/error_remediation.rs that files it ([Repairs]), as a function of the
    answers of the database and of the remote service, which returns what it asked of them.

    The regex crate and Unicode's lower case are the class [Normalizer]. *)
From stdpp Require Import gmap.
From Stdlib Require Import Ascii QArith.
From S2P Require Import Prelude Text Format WorkerJobRow DeliveryRules Redact Pipelines.
#[local] Open Scope Z_scope.

(** [regex.replace_all] and the first capture group of [regex.captures], of the regular
    expression a pattern stands for. *)
Class Normalizer := {
  to_lowercase : string -> string;
  replace_all : string -> string -> string -> string;
  captures : string -> string -> option string;
}.

(** The kinds of entries, without the values they carry, and an entry with its kind and its
    text: what the rules read of the entries of [Logs]. *)
(* crates/executors/src/logs/mod.rs:74-100 NormalizedEntryType *)
Inductive NormalizedEntryKind :=
| UserMessage | UserFeedback | AssistantMessage | ToolUse | SystemMessage | ErrorMessage
| Thinking | Loading | NextAction | TokenUsageInfo | UserAnsweredQuestions.

#[global] Instance entry_type_eq_dec : EqDecision NormalizedEntryKind.
Proof. solve_decision. Defined.

(* crates/executors/src/logs/mod.rs:116-122 NormalizedEntry *)
Record NormalizedEntryText := { entry_type : NormalizedEntryKind; content : string }.

(* crates/services/src/services/pipelines/mod.rs:127-141 PipelineStep *)
Record PipelineStep := {
  step_id : string;
  label : string;
  step_prompt : string;
  default_enabled : bool;
  heavy : bool;
}.
(* crates/services/src/services/pipelines/mod.rs:144-154 Pipeline *)
Record Pipeline := {
  pipeline_id : string;
  p_name : string;
  p_description : option string;
  p_stages : list PipelineStep;
}.

Module Remediation.
Import DeliveryRules.

(* crates/services/src/services/error_remediation.rs:34-34 AUTO_REMEDIATION_NAME_PREFIX *)
Definition AUTO_REMEDIATION_NAME_PREFIX : string := "Auto-fix: ".
(* crates/services/src/services/error_remediation.rs:36-36 DEDUPE_WINDOW *)
Definition DEDUPE_WINDOW : Duration := from_secs (24 * 60 * 60).
(* crates/services/src/services/error_remediation.rs:37-37 RATE_WINDOW *)
Definition RATE_WINDOW : Duration := from_secs (60 * 60).
(* crates/services/src/services/error_remediation.rs:38-38 MAX_ERROR_MESSAGES *)
Definition MAX_ERROR_MESSAGES : nat := 5.
(* crates/services/src/services/error_remediation.rs:39-39 MAX_ERROR_CHARS *)
Definition MAX_ERROR_CHARS : nat := N.to_nat 2000.
(* crates/services/src/services/error_remediation.rs:40-40 MAX_NAME_CHARS *)
Definition MAX_NAME_CHARS : nat := 120.
(* crates/services/src/services/error_remediation.rs:42-42 REMEDIATION_MARKER_PREFIX *)
Definition REMEDIATION_MARKER_PREFIX : string := "<!-- vk:auto-remediation ".
(* crates/services/src/services/error_remediation.rs:45-45 SIMILARITY_THRESHOLD *)
Definition SIMILARITY_THRESHOLD : Q := 4 # 5.
(* crates/services/src/services/error_remediation.rs:46-46 ERROR_SECTION_HEADING *)
Definition ERROR_SECTION_HEADING : string := "### Error messages".

(* crates/services/src/services/error_remediation.rs:48-50 UUID_RE *)
Definition UUID_RE : string :=
  "(?i)\b[0-9a-f]{8}-[0-9a-f]{4}-[0-9a-f]{4}-[0-9a-f]{4}-[0-9a-f]{12}\b".
(* crates/services/src/services/error_remediation.rs:57-57 PREFIXED_HEX_RE *)
Definition PREFIXED_HEX_RE : string := "\b0x[0-9a-f]+\b".
(* crates/services/src/services/error_remediation.rs:58-58 DECIMAL_WORD_RE *)
Definition DECIMAL_WORD_RE : string := "\b[0-9]+\b".
(* crates/services/src/services/error_remediation.rs:59-59 HEX_WORD_RE *)
Definition HEX_WORD_RE : string := "\b[0-9a-f]{8,}\b".
(* crates/services/src/services/error_remediation.rs:60-60 DIGITS_RE *)
Definition DIGITS_RE : string := "[0-9]+".
(* crates/services/src/services/error_remediation.rs:63-64 MARKER_RE *)
Definition MARKER_RE : string := "<!-- vk:auto-remediation ([^>]*?)-->".
(* crates/services/src/services/error_remediation.rs:65-66 FINGERPRINT_RE *)
Definition FINGERPRINT_RE : string := "\bfingerprint=([0-9a-f]{16})\b".

(* crates/services/src/services/error_remediation.rs:79-85 is_remediation_trigger *)
Definition is_remediation_trigger (run_reason : ExecutionProcessRunReason)
    (status : ProcessRow.ExecutionProcessStatus) : bool :=
  match run_reason, status with CodingAgent, ProcessRow.Failed => true | _, _ => false end.

(* crates/services/src/services/error_remediation.rs:87-89 is_remediation_workspace *)
Definition is_remediation_workspace (name : option string) : bool :=
  match name with
  | Some name => starts_with AUTO_REMEDIATION_NAME_PREFIX name
  | None => false
  end.

(** ** The guard *)

(* crates/services/src/services/error_remediation.rs:91-97 GuardDecision *)
Inductive GuardDecision :=
| Proceed | SkipRemediationWorkspace | SkipDuplicate | SkipRateLimited.

#[global] Instance guard_decision_eq_dec : EqDecision GuardDecision.
Proof. solve_decision. Defined.

(* crates/services/src/services/error_remediation.rs:99-104 GuardState *)
Record GuardState := {
  last_by_source : gmap Uuid Z;
  launches : list Z;
  launched : gset Uuid;
}.

(* crates/services/src/services/error_remediation.rs:109-111 ErrorRemediationGuard *)
Definition guard_new : GuardState := {| last_by_source := ∅; launches := []; launched := ∅ |}.

(** [while front().is_some_and(p) { pop_front() }] *)
Fixpoint pop_while (p : Z -> bool) (l : list Z) : list Z :=
  match l with x :: l' => if p x then pop_while p l' else l | [] => [] end.

(* crates/services/src/services/error_remediation.rs:121-155 try_reserve *)
Definition try_reserve (state : GuardState) (source : Uuid) (source_name : option string)
    (now : Z) (max_per_hour : Z) : GuardState * GuardDecision :=
  if is_remediation_workspace source_name || bool_decide (source ∈ launched state)
  then (state, SkipRemediationWorkspace)
  else
    let state := {|
      last_by_source :=
        filter (fun p => saturating_sub now p.2 < DEDUPE_WINDOW) (last_by_source state);
      launches :=
        pop_while (fun at_ => bool_decide (RATE_WINDOW <= saturating_sub now at_))
          (launches state);
      launched := launched state |} in
    if bool_decide (is_Some (last_by_source state !! source)) then (state, SkipDuplicate)
    else if bool_decide (max_per_hour <= Z.of_nat (length (launches state)))
    then (state, SkipRateLimited)
    else ({| last_by_source := <[source := now]> (last_by_source state);
             launches := launches state ++ [now];
             launched := launched state |}, Proceed).

(* crates/services/src/services/error_remediation.rs:159-162 record_launched *)
Definition record_launched (state : GuardState) (workspace : Uuid) : GuardState :=
  {| last_by_source := last_by_source state; launches := launches state;
     launched := {[workspace]} ∪ launched state |}.

(** ** The stages of a repair *)

(* crates/services/src/services/error_remediation.rs:170-189 remediation_stage_ids *)
Definition remediation_stage_ids (pipelines : list Pipeline) (merge_stage_ids : list string)
    : gset string :=
  let steps := mjoin (p_stages <$> pipelines) in
  let enabled : gset string :=
    list_to_set (step_id <$> filter (fun s => default_enabled s = true) steps) in
  if existsb (fun id => bool_decide (id ∈ enabled)) merge_stage_ids then enabled
  else match find (fun id => existsb (fun s => bool_decide (step_id s = id)) steps)
               merge_stage_ids with
       | Some id => {[id]} ∪ enabled
       | None => enabled
       end.

(** ** The text of the issue *)

(* crates/services/src/services/error_remediation.rs:454-461 truncate_chars *)
Definition truncate_chars (text : string) (max : nat) : string :=
  if (length (chars text) <=? max)%nat then text
  else sconcat (take max (chars text)) +:+ "…".

(* crates/services/src/services/error_remediation.rs:192-201 extract_error_messages *)
Definition extract_error_messages (entries : list NormalizedEntryText) : list string :=
  let messages :=
    filter (fun content => content <> "")
      ((fun entry => truncate_chars (trim (content entry)) MAX_ERROR_CHARS)
         <$> filter (fun entry => entry_type entry = ErrorMessage) entries) in
  drop (length messages - MAX_ERROR_MESSAGES) messages.

(* crates/services/src/services/error_remediation.rs:204-217 RemediationContext *)
Record RemediationContext := {
  source_workspace_id : Uuid;
  source_name : string;
  branch : string;
  execution_process_id : Uuid;
  executor : string;
  exit_code : option Z;
  error_messages : list string;
  variant_fallback : option string;
}.

(* crates/services/src/services/error_remediation.rs:219-223 IssueDraft *)
Record IssueDraft := { title : string; description : string }.

(** The runs of backticks: the longest, and the one that ends here; a byte of a longer
    character is no backtick. *)
(* crates/services/src/services/error_remediation.rs:443-450 code_fence_for *)
Definition tick_step (acc : nat * nat) (c : ascii) : nat * nat :=
  if decide (c = "`"%char) then (Nat.max acc.1 (S acc.2), S acc.2) else (acc.1, O).

Fixpoint fold_string {A} (f : A -> ascii -> A) (a : A) (s : string) : A :=
  match s with EmptyString => a | String c s => fold_string f (f a c) s end.

Definition longest_run (text : string) : nat := (fold_string tick_step (O, O) text).1.

Fixpoint repeat_char (c : ascii) (n : nat) : string :=
  match n with O => "" | S n => String c (repeat_char c n) end.

(* crates/services/src/services/error_remediation.rs:440-452 code_fence_for *)
Definition code_fence_for (text : string) : string :=
  repeat_char "`" (Nat.max (S (longest_run text)) 3).

(* crates/services/src/services/error_remediation.rs:383-390 error_block *)
Definition error_block (messages : list string) : string :=
  match messages with
  | [] => "_No error message was captured in the chat._" +:+ nl
  | _ =>
      let joined := join (nl +:+ nl) messages in
      let fence := code_fence_for joined in
      fence +:+ "text" +:+ nl +:+ joined +:+ nl +:+ fence +:+ nl
  end.

(* crates/services/src/services/error_remediation.rs:377-381 exit_code_label *)
Definition exit_code_label (exit_code : option Z) : string :=
  match exit_code with Some code => display code | None => "unknown" end.

Section Texts.
Context `{!CommentText} `{!CharClass} `{!Normalizer}.

(* crates/services/src/services/error_remediation.rs:233-244 remediation_marker *)
Definition remediation_marker (source exec : Uuid) (fingerprint : option string) : string :=
  let fingerprint := match fingerprint with Some fp => " fingerprint=" +:+ fp | None => "" end in
  REMEDIATION_MARKER_PREFIX +:+ "source=" +:+ uuid_to_string source +:+ " exec="
  +:+ uuid_to_string exec +:+ fingerprint +:+ " -->".

(* crates/services/src/services/error_remediation.rs:249-257 normalize_error_text *)
Definition normalize_error_text (text : string) : string :=
  let text := replace_all UUID_RE "<id>" (to_lowercase text) in
  let text := replace_all PREFIXED_HEX_RE "<id>" text in
  let text := replace_all DECIMAL_WORD_RE "<id>" text in
  let text := replace_all HEX_WORD_RE "<id>" text in
  let text := replace_all DIGITS_RE "<n>" text in
  join " " (split_whitespace text).

(** [hash ^= byte; hash = hash.wrapping_mul(prime)] *)
(* crates/services/src/services/error_remediation.rs:272-275 error_fingerprint *)
Definition fnv_step (hash : Z) (byte : ascii) : Z :=
  (Z.lxor hash (Z.of_N (N_of_ascii byte)) * 0x100000001b3) mod (u64_max + 1).

(** [{hash:016x}] *)
Definition hex016 (hash : Z) : string :=
  sconcat ((fun i => String (DeliveryText.hex_char
                               (Z.to_N (hash / 16 ^ Z.of_nat i mod 16))) "")
             <$> rev (seq 0 16)).

(* crates/services/src/services/error_remediation.rs:261-277 error_fingerprint *)
Definition error_fingerprint (messages : list string) : option string :=
  let normalized :=
    join nl (filter (fun m => m <> "") (normalize_error_text <$> messages)) in
  if bool_decide (normalized = "") then None
  else Some (hex016 (fold_string fnv_step 0xcbf29ce484222325 normalized)).

(* crates/services/src/services/error_remediation.rs:228-230 fingerprint *)
Definition fingerprint (ctx : RemediationContext) : option string :=
  error_fingerprint (error_messages ctx).

(* crates/services/src/services/error_remediation.rs:281-281 word_set *)
Definition is_word_char (c : string) : bool :=
  is_alphabetic c || is_numeric c || bool_decide (c ∈ ["<"; ">"; "_"]%string).

(** [s.split(p)] on characters. *)
Fixpoint split_chars (p : string -> bool) (cs : list string) : list string :=
  match cs with
  | [] => [""%string]
  | c :: cs =>
      let ws := split_chars p cs in
      if p c then ""%string :: ws
      else match ws with w :: ws => (c +:+ w) :: ws | [] => [c] end
  end.

(* crates/services/src/services/error_remediation.rs:279-285 word_set *)
Definition word_set (text : string) : gset string :=
  list_to_set (filter (fun w => w <> "")
    (split_chars (fun c => negb (is_word_char c)) (chars (normalize_error_text text)))).

(** The quotient is kept as a fraction: of two counts below 2^50, the binary64 quotient is
    at least the binary64 number nearest 4/5 exactly when the fraction is at least 4/5. *)
(* crates/services/src/services/error_remediation.rs:289-296 error_similarity *)
Definition error_similarity (a b : string) : Q :=
  let '(a, b) := (word_set a, word_set b) in
  match size (a ∪ b) with
  | O => 0
  | S n => Z.of_nat (size (a ∩ b)) # Pos.of_succ_nat n
  end.

(* crates/services/src/services/error_remediation.rs:301-308 parse_marker *)
Definition parse_marker (description : string) : option (option string) :=
  captures FINGERPRINT_RE <$> captures MARKER_RE description.

(** [chars().take_while(|c| c == '`').count()] *)
Fixpoint leading (c : ascii) (s : string) : nat :=
  match s with
  | String d s => if decide (d = c) then S (leading c s) else O
  | EmptyString => O
  end.

(** [lines.skip_while(p)] and [lines.take_while(p)] *)
Fixpoint skip_while (p : string -> bool) (l : list string) : list string :=
  match l with x :: l' => if p x then skip_while p l' else l | [] => [] end.
Fixpoint take_while (p : string -> bool) (l : list string) : list string :=
  match l with x :: l => if p x then x :: take_while p l else [] | [] => [] end.

(* crates/services/src/services/error_remediation.rs:313-326 issue_error_text *)
Definition issue_error_text (description : string) : option string :=
  after ← snd <$> split_once_str ERROR_SECTION_HEADING description;
  match skip_while (fun line => bool_decide (trim line = "")) (lines after) with
  | [] => None
  | line :: rest =>
      let opening := trim_end line in
      let fence_len := leading "`" opening in
      if (fence_len <? 3)%nat then None
      else
        let fence := take_bytes fence_len opening in
        let text := join nl (take_while (fun line => negb (bool_decide (trim_end line = fence))) rest) in
        if bool_decide (trim text = "") then None else Some text
  end.

(* crates/services/src/services/error_remediation.rs:330-335 is_active_status_name *)
Definition is_active_status_name (name : string) : bool :=
  negb (bool_decide (to_lowercase (trim name) ∈ ["done"; "cancelled"; "canceled"]%string)).

(** The fields of an issue a repair reads. *)
Record Issue := { issue_id : Uuid; i_project_id : Uuid; i_description : option string }.

(* crates/services/src/services/error_remediation.rs:345-357 find_similar_issue *)
Definition similar (messages : list string) (fp : string) (issue : Issue) : bool :=
  match i_description issue with
  | None => false
  | Some description =>
      match parse_marker description with
      | None => false
      | Some recorded =>
          if bool_decide (recorded = Some fp) then true
          else match issue_error_text description with
               | Some text =>
                   Qle_bool SIMILARITY_THRESHOLD
                     (error_similarity text (join (nl +:+ nl) messages))
               | None => false
               end
      end
  end.

(* crates/services/src/services/error_remediation.rs:342-358 find_similar_issue *)
Definition find_similar_issue (issues : list Issue) (messages : list string) : option Issue :=
  fp ← error_fingerprint messages;
  find (similar messages fp) issues.

(* crates/services/src/services/error_remediation.rs:361-375 compose_recurrence_comment *)
Definition compose_recurrence_comment (ctx : RemediationContext) : string :=
  "Another failed agent run hit a similar error, so it was added here instead of opening a new remediation issue."
  +:+ nl +:+ nl
  +:+ "- Workspace: **" +:+ trim (source_name ctx) +:+ "** (`"
  +:+ uuid_to_string (source_workspace_id ctx) +:+ "`, branch `" +:+ branch ctx +:+ "`)" +:+ nl
  +:+ "- Failed execution: `" +:+ uuid_to_string (execution_process_id ctx) +:+ "` (executor `"
  +:+ executor ctx +:+ "`, exit code `" +:+ exit_code_label (exit_code ctx) +:+ "`)"
  +:+ nl +:+ nl +:+ error_block (error_messages ctx).

(* crates/services/src/services/error_remediation.rs:396-399 compose_issue *)
Definition issue_title (ctx : RemediationContext) : string :=
  AUTO_REMEDIATION_NAME_PREFIX
  +:+ truncate_chars (trim (source_name ctx)) MAX_NAME_CHARS +:+ " agent run failed".

(* crates/services/src/services/error_remediation.rs:403-415 compose_issue *)
Definition issue_head (ctx : RemediationContext) : string :=
  "A coding-agent run failed in workspace **" +:+ trim (source_name ctx)
  +:+ "** and was filed automatically for unattended remediation. Diagnose the root cause, fix it, test the fix, and merge it to the base branch."
  +:+ nl +:+ nl
  +:+ "- Source workspace: `" +:+ uuid_to_string (source_workspace_id ctx) +:+ "` (branch `"
  +:+ branch ctx +:+ "`)" +:+ nl
  +:+ "- Failed execution: `" +:+ uuid_to_string (execution_process_id ctx) +:+ "` (executor `"
  +:+ executor ctx +:+ "`, exit code `" +:+ exit_code_label (exit_code ctx) +:+ "`)"
  +:+ nl +:+ nl.

(* crates/services/src/services/error_remediation.rs:401-431 compose_issue *)
Definition issue_body (ctx : RemediationContext) : string :=
  issue_head ctx +:+ ERROR_SECTION_HEADING +:+ nl +:+ nl +:+ error_block (error_messages ctx)
  +:+ match variant_fallback ctx with
      | Some variant =>
          nl +:+ "> Note: executor profile variant `" +:+ variant
          +:+ "` is not defined; the default variant was used." +:+ nl
      | None => ""
      end
  +:+ nl
  +:+ remediation_marker (source_workspace_id ctx) (execution_process_id ctx) (fingerprint ctx).

(* crates/services/src/services/error_remediation.rs:395-436 compose_issue *)
Definition compose_issue (ctx : RemediationContext) (pipeline_block : string) : IssueDraft := {|
  title := issue_title ctx;
  description :=
    default (issue_body ctx)
      (PipelineBlock.append_pipeline_block (Some (issue_body ctx)) pipeline_block) |}.
End Texts.
(** ** The guard decides by the history of repairs *)

Inductive GuardOp :=
| Reserve (source : Uuid) (name : option string) (now max : Z)
| Launched (workspace : Uuid).

(** The decision the documentation states, of the repairs started before. *)
Definition by_history (launched_ones : gset Uuid) (started : list (Uuid * Z))
    (source : Uuid) (name : option string) (now max : Z) : GuardDecision :=
  if is_remediation_workspace name || bool_decide (source ∈ launched_ones)
  then SkipRemediationWorkspace
  else if bool_decide (Exists (fun p => p.1 = source /\ now - p.2 < DEDUPE_WINDOW) started)
  then SkipDuplicate
  else if bool_decide (max <= Z.of_nat (length (filter (fun p => now - p.2 < RATE_WINDOW) started)))
  then SkipRateLimited
  else Proceed.

(** The decisions of the guard, and those by the history. *)
Fixpoint guard_decisions (g : GuardState) (ops : list GuardOp) : list GuardDecision :=
  match ops with
  | [] => []
  | Reserve source name now max :: ops =>
      let '(g, d) := try_reserve g source name now max in d :: guard_decisions g ops
  | Launched w :: ops => guard_decisions (record_launched g w) ops
  end.

Fixpoint history_decisions (launched_ones : gset Uuid) (started : list (Uuid * Z))
    (ops : list GuardOp) : list GuardDecision :=
  match ops with
  | [] => []
  | Reserve source name now max :: ops =>
      let d := by_history launched_ones started source name now max in
      d :: history_decisions launched_ones
             (if decide (d = Proceed) then started ++ [(source, now)] else started) ops
  | Launched w :: ops => history_decisions ({[w]} ∪ launched_ones) started ops
  end.

Definition times (ops : list GuardOp) : list Z :=
  omap (fun op => match op with Reserve _ _ now _ => Some now | _ => None end) ops.

(** What the guard remembers at time [t] of the repairs it has let start. *)
Record remembers (t : Z) (g : GuardState) (started : list (Uuid * Z)) : Prop := {
  rm_sources s now : t <= now ->
    (exists at_, last_by_source g !! s = Some at_ /\ now - at_ < DEDUPE_WINDOW) <->
    Exists (fun p => p.1 = s /\ now - p.2 < DEDUPE_WINDOW) started;
  rm_launches : exists dropped,
    started.*2 = dropped ++ launches g /\ Forall (fun at_ => RATE_WINDOW <= t - at_) dropped;
  rm_sorted : Sorted Z.le (launches g);
  rm_past : Forall (fun at_ => at_ <= t) (started.*2);
}.

Lemma saturating_lt now at_ w : 0 < w -> saturating_sub now at_ < w <-> now - at_ < w.
Proof. unfold saturating_sub. lia. Qed.

Lemma pop_while_sorted now l :
  Sorted Z.le l ->
  exists old, l = old ++ pop_while (fun at_ => bool_decide (RATE_WINDOW <= saturating_sub now at_)) l /\
    Forall (fun at_ => RATE_WINDOW <= now - at_) old /\
    Forall (fun at_ => now - at_ < RATE_WINDOW)
      (pop_while (fun at_ => bool_decide (RATE_WINDOW <= saturating_sub now at_)) l).
Proof.
  intros Hs. induction l as [|x l IH]; [by exists []|]. cbn [pop_while].
  case_bool_decide as Hx.
  - destruct IH as (old & Hl & Ho & Hn); [by inversion Hs|].
    exists (x :: old). cbn [app]. rewrite <-Hl. split; [done|]. split; [|done].
    constructor; [|done]. unfold saturating_sub, RATE_WINDOW, from_secs, nanos_per_second in *. lia.
  - exists []. split; [done|]. split; [constructor|].
    assert (now - x < RATE_WINDOW) as Hx' by (unfold saturating_sub in Hx; lia).
    apply Sorted_StronglySorted in Hs; [|intros a b c; lia].
    apply StronglySorted_inv in Hs as [_ Hall]. constructor; [done|].
    eapply Forall_impl; [exact Hall|]. cbn. lia.
Qed.

Lemma pop_while_suffix p l : exists old, l = old ++ pop_while p l.
Proof.
  induction l as [|x l [old IH]]; [by exists []|]. cbn. case_match; [|by exists []].
  exists (x :: old). cbn. by rewrite <-IH.
Qed.

Lemma remembers_mono t t' g started : t <= t' -> remembers t g started -> remembers t' g started.
Proof.
  intros Ht [Hs (d & Hl & Hd) Hsort Hp]. split; [intros; apply Hs; lia| |done|].
  - exists d. split; [done|]. eapply Forall_impl; [exact Hd|]. cbn. lia.
  - eapply Forall_impl; [exact Hp|]. cbn. lia.
Qed.

(** The guard after it has forgotten what is too old. *)
Definition forget (g : GuardState) (now : Z) : GuardState := {|
  last_by_source := filter (fun p => saturating_sub now p.2 < DEDUPE_WINDOW) (last_by_source g);
  launches := pop_while (fun at_ => bool_decide (RATE_WINDOW <= saturating_sub now at_)) (launches g);
  launched := launched g |}.

Lemma forget_sources g now s at_ :
  last_by_source (forget g now) !! s = Some at_ <->
  last_by_source g !! s = Some at_ /\ now - at_ < DEDUPE_WINDOW.
Proof.
  cbn. rewrite map_lookup_filter_Some. cbn. by rewrite saturating_lt by done.
Qed.

Lemma remembers_forget now g started :
  remembers now g started -> remembers now (forget g now) started.
Proof.
  intros [Hs (d & Hl & Hd) Hsort Hp]. split; [| | |done].
  - intros s now' Hnow. rewrite <-(Hs s now') by done. split; intros (at_ & Ha & Hw); exists at_.
    + apply forget_sources in Ha as [Ha _]. done.
    + split; [|done]. apply forget_sources. split; [done|lia].
  - destruct (pop_while_sorted now _ Hsort) as (old & Hold & Ho & _).
    exists (d ++ old). cbn. rewrite <-app_assoc, <-Hold. split; [done|]. by apply Forall_app.
  - cbn. destruct (pop_while_suffix (fun at_ => bool_decide (RATE_WINDOW <= saturating_sub now at_))
      (launches g)) as [old Hold]. rewrite Hold in Hsort.
    clear -Hsort. induction old as [|x old IH]; [done|]. apply IH. by inversion Hsort.
Qed.

Lemma remembers_duplicate now g started s :
  remembers now g started ->
  is_Some (last_by_source (forget g now) !! s) <->
  Exists (fun p => p.1 = s /\ now - p.2 < DEDUPE_WINDOW) started.
Proof.
  intros [Hs _ _ _]. rewrite <-(Hs s now) by lia. split.
  - intros [at_ Ha%forget_sources]. by exists at_.
  - intros (at_ & Ha). exists at_. by apply forget_sources.
Qed.

Lemma remembers_count now g started :
  remembers now g started ->
  length (launches (forget g now)) =
  length (filter (fun p => now - p.2 < RATE_WINDOW) started).
Proof.
  intros [_ (d & Hl & Hd) Hsort _].
  destruct (pop_while_sorted now _ Hsort) as (old & Hold & Ho & Hn).
  assert (length (filter (fun p => now - p.2 < RATE_WINDOW) started) =
    length (filter (fun at_ => now - at_ < RATE_WINDOW) (started.*2))) as ->.
  { clear. induction started as [|[s a] l IH]; [done|]. rewrite fmap_cons, !filter_cons.
    cbn [snd]. case_decide; cbn; by rewrite IH. }
  rewrite Hl, Hold, app_assoc, filter_app.
  assert (filter (fun at_ => now - at_ < RATE_WINDOW) (d ++ old) = []) as ->.
  { assert (Forall (fun at_ => RATE_WINDOW <= now - at_) (d ++ old)) as Hall by by apply Forall_app.
    clear -Hall. induction Hall as [|x l Hx _ IH]; [done|]. rewrite filter_cons.
    by rewrite decide_False by lia. }
  cbn [app launches forget]. generalize dependent (pop_while
    (fun at_ => bool_decide (RATE_WINDOW <= saturating_sub now at_)) (launches g)).
  intros l _ Hall. clear -Hall. induction Hall as [|x l Hx _ IH]; [done|]. rewrite filter_cons.
  rewrite decide_True by done. cbn. by rewrite IH.
Qed.

Lemma try_reserve_history now g started source name max :
  remembers now g started ->
  (try_reserve g source name now max).2 = by_history (launched g) started source name now max.
Proof.
  intros Hr. unfold try_reserve, by_history. case_match; [done|]. fold (forget g now).
  rewrite (bool_decide_ext _ _ (remembers_duplicate now g started source Hr)).
  case_match; [done|]. rewrite (remembers_count _ _ _ Hr). by case_match.
Qed.

Lemma sorted_snoc l x : Sorted Z.le l -> Forall (fun y => y <= x) l -> Sorted Z.le (l ++ [x]).
Proof.
  induction 1 as [|y l Hs IH Hhd]; cbn; intros Hall; [by repeat constructor|].
  apply Forall_cons in Hall as [Hy Hall]. constructor; [by apply IH|].
  destruct l; constructor; [done|by inversion Hhd].
Qed.

Lemma remembers_reserve now g started source name max :
  remembers now g started ->
  let '(g', d) := try_reserve g source name now max in
  remembers now g' (if decide (d = Proceed) then started ++ [(source, now)] else started).
Proof.
  intros Hr. unfold try_reserve. destruct (_ || _); [done|]. fold (forget g now).
  pose proof (remembers_forget now g started Hr) as Hf.
  do 2 (destruct (bool_decide _); [done|]). rewrite decide_True by done.
  destruct Hf as [Hs (d & Hl & Hd) Hsort Hp]. split; cbn [last_by_source launches].
  - intros s now' Hnow. rewrite Exists_app, Exists_cons, Exists_nil. cbn [fst snd].
    rewrite <-(Hs s now') by done. split.
    + intros (at_ & [[<- <-]|[_ Ha]]%lookup_insert_Some & Hw); [by right; left|left].
      by exists at_.
    + intros [(at_ & Ha & Hw)|[[-> Hw]|[]]].
      * destruct (decide (source = s)) as [->|Hne].
        -- exists now. rewrite lookup_insert_eq. split; [done|].
           assert (Exists (fun p => p.1 = s /\ now' - p.2 < DEDUPE_WINDOW) started) as Hex
             by (apply Hs; [done|by exists at_]).
           apply Exists_exists in Hex as ([s' a] & Hin & _ & Hw'). cbn in Hw'.
           assert (a <= now); [|lia]. rewrite Forall_forall in Hp. apply Hp.
           apply list_elem_of_fmap. by exists (s', a).
        -- exists at_. by rewrite lookup_insert_ne by done.
      * exists now. by rewrite lookup_insert_eq.
  - exists d. by rewrite fmap_app, Hl, <-app_assoc.
  - apply sorted_snoc; [done|]. rewrite Hl in Hp. by apply Forall_app in Hp as [_ Hp].
  - rewrite fmap_app. apply Forall_app. split; [done|]. by repeat constructor.
Qed.

Lemma try_reserve_launched g source name now max :
  launched (try_reserve g source name now max).1 = launched g.
Proof. unfold try_reserve. by repeat case_match. Qed.

Lemma guard_decisions_from ops : forall t g started,
  remembers t g started -> StronglySorted Z.le (t :: times ops) ->
  guard_decisions g ops = history_decisions (launched g) started ops.
Proof.
  induction ops as [|[source name now max|w] ops IH]; intros t g started Hr Ht; [done| |].
  - cbn [guard_decisions history_decisions]. cbn [times omap list_omap] in Ht.
    apply StronglySorted_inv in Ht as [Hs Hall]. apply Forall_cons in Hall as [Hnow _].
    apply (remembers_mono _ now) in Hr; [|done].
    rewrite <-(try_reserve_history now g) by done.
    pose proof (remembers_reserve now g started source name max Hr) as Hres.
    pose proof (try_reserve_launched g source name now max) as Hla.
    destruct (try_reserve g source name now max) as [g' d]. cbn [fst snd] in *.
    f_equal. by rewrite <-Hla, (IH now g' _ Hres Hs).
  - cbn [guard_decisions history_decisions]. rewrite (IH t (record_launched g w) started); [done| |done].
    by destruct Hr; split.
Qed.

(** The guard keeps no history, only the last repair of each source and the repairs of
    the last hour, but as long as its clock does not go back its decisions are the documented ones:
    a repair starts exactly when the workspace is neither named as a repair nor recorded as
    launched by one, no repair of the same source started within a day, and fewer than
    the limit, whatever it is then, started within the hour. *)
Theorem guard_decides_by_history ops :
  StronglySorted Z.le (times ops) ->
  guard_decisions guard_new ops = history_decisions ∅ [] ops.
Proof.
  intros Hs. destruct (times ops) as [|t ts] eqn:Ht.
  - apply (guard_decisions_from ops 0); [|rewrite Ht; by repeat constructor].
    split; cbn; [|by exists []|constructor|constructor].
    intros s now _. split; [by intros (? & [=] & _)|by intros []%Exists_nil].
  - apply (guard_decisions_from ops t).
    + split; cbn; [|by exists []|constructor|constructor].
      intros s now _. split; [by intros (? & [=] & _)|by intros []%Exists_nil].
    + rewrite Ht. apply StronglySorted_inv in Hs as [Hs Hall].
      constructor; [by constructor|]. by constructor.
Qed.

(** ** The text of an issue gives its errors back *)

Lemma fold_string_app {A} (f : A -> ascii -> A) a s t :
  fold_string f a (s +:+ t) = fold_string f (fold_string f a s) t.
Proof. revert a. induction s as [|c s IH]; intros a; [done|]. rewrite sapp_cons. apply IH. Qed.

Lemma tick_longest acc s : (acc.1 <= (fold_string tick_step acc s).1)%nat.
Proof.
  revert acc. induction s as [|c s IH]; intros acc; [done|]. cbn [fold_string].
  etransitivity; [|apply IH]. unfold tick_step. case_decide; cbn; lia.
Qed.

Lemma tick_run acc n : (acc.2 + n <= (fold_string tick_step acc (repeat_char "`" n)).1)%nat \/ n = O.
Proof.
  revert acc. induction n as [|n IH]; intros acc; [by right|left]. cbn [repeat_char fold_string].
  unfold tick_step at 2. rewrite decide_True by done.
  destruct (IH (Nat.max acc.1 (S acc.2), S acc.2)) as [H|H].
  - cbn [snd] in H. lia.
  - subst n. cbn. lia.
Qed.

(** No text holds more backticks in a row than its longest run. *)
Lemma longest_run_bounds n a b : (n <= longest_run (a +:+ repeat_char "`" n +:+ b))%nat.
Proof.
  unfold longest_run. rewrite !fold_string_app. etransitivity; [|apply tick_longest].
  destruct (tick_run (fold_string tick_step (O, O) a) n) as [H|H]; lia.
Qed.

Definition fence_length (text : string) : nat := Nat.max (S (longest_run text)) 3.

Lemma repeat_char_length c n : String.length (repeat_char c n) = n.
Proof. induction n as [|n IH]; cbn; [done|by rewrite IH]. Qed.

Lemma repeat_char_last c n : last_char (repeat_char c (S n)) = Some c.
Proof. induction n as [|n IH]; [done|]. exact IH. Qed.

Lemma repeat_char_contains c d n : c <> d -> contains_char d (repeat_char c n) = false.
Proof. intros Hc. induction n as [|n IH]; [done|]. cbn. by rewrite bool_decide_false, IH. Qed.

Lemma leading_repeat c n d s : d <> c -> leading c (repeat_char c n +:+ String d s) = n.
Proof.
  intros Hd. induction n as [|n IH]; cbn [repeat_char].
  - rewrite sapp_nil_l. cbn. by rewrite decide_False.
  - rewrite sapp_cons. cbn [leading]. by rewrite decide_True, IH.
Qed.

Lemma trim_end_ticks n : trim_end (repeat_char "`" n) = repeat_char "`" n.
Proof. destruct n; [done|]. by apply (trim_end_last _ "`"%char); [apply repeat_char_last|]. Qed.

Lemma take_while_all p l k :
  Forall (fun x => p x = true) l -> take_while p (l ++ k) = l ++ take_while p k.
Proof. induction 1 as [|x l Hx _ IH]; [done|]. cbn. by rewrite Hx, IH. Qed.

(** The lines of the quoted text do not close its fence. *)
Lemma fence_open text :
  Forall (fun line => negb (bool_decide (trim_end line = code_fence_for text)) = true)
    (split_char newline text).
Proof.
  apply Forall_forall. intros line (a & b & Ht)%split_char_infix.
  apply negb_true_iff, bool_decide_eq_false. intros Hf.
  destruct (trim_end_prefix line) as [w Hw]. rewrite Hf in Hw.
  pose proof (longest_run_bounds (fence_length text) a (w +:+ b)) as Hb.
  unfold code_fence_for in Hw. fold (fence_length text) in Hw.
  rewrite <-sapp_assoc with (s := repeat_char _ _), <-Hw, <-Ht in Hb.
  unfold fence_length in Hb. lia.
Qed.

Section Roundtrip.
Context `{!CommentText} `{!CommentTextLaws} `{!CharClass} `{!Normalizer}.

Lemma uuid_contains u c : uuid_char c = false -> contains_char c (uuid_to_string u) = false.
Proof. intros Hc. apply (all_chars_contains uuid_char); [apply uuid_to_string_chars|done]. Qed.

(** The names a repair reports have no heading in them. *)
Definition plain_context (ctx : RemediationContext) : Prop :=
  contains_char "#" (source_name ctx) = false /\
  contains_char "#" (branch ctx) = false /\
  contains_char "#" (executor ctx) = false.

Lemma issue_head_plain ctx : plain_context ctx -> contains_char "#" (issue_head ctx) = false.
Proof.
  intros (Hs & Hb & He). unfold issue_head.
  assert (contains_char "#" (exit_code_label (exit_code ctx)) = false) as Hx.
  { unfold exit_code_label. case_match; [by apply contains_char_display|done]. }
  rewrite !contains_char_app, !uuid_contains, Hx, Hb, He, contains_char_trim by done. done.
Qed.

(** The heading, the fence and the text follow; what comes after is arbitrary. *)
Lemma issue_error_text_fenced head joined rest :
  contains_char "#" head = false -> contains_char "013"%char joined = false ->
  issue_error_text (head +:+ ERROR_SECTION_HEADING +:+ nl +:+ nl
    +:+ (code_fence_for joined +:+ "text" +:+ nl +:+ joined +:+ nl
         +:+ code_fence_for joined +:+ nl) +:+ rest) =
  if bool_decide (trim joined = "") then None else Some joined.
Proof.
  intros Hh Hr. unfold issue_error_text, ERROR_SECTION_HEADING.
  rewrite split_once_str_first by done. cbn [fmap option_fmap option_map snd mbind option_bind].
  set (fence := code_fence_for joined).
  assert (fence = repeat_char "`" (fence_length joined)) as Hfence by done.
  assert (contains_char newline fence = false) as Hnl by by rewrite Hfence, repeat_char_contains.
  assert (last_char (fence +:+ "text") = Some "t"%char) as Hlast by by rewrite last_char_app_r.
  change (nl +:+ nl +:+ (fence +:+ "text" +:+ nl +:+ joined +:+ nl +:+ fence +:+ nl) +:+ rest)
    with ("" +:+ nl +:+ ("" +:+ nl +:+ (fence +:+ "text" +:+ nl +:+ joined +:+ nl +:+ fence +:+ nl) +:+ rest)).
  rewrite !lines_cons by done. rewrite !sapp_assoc, <-(sapp_assoc fence "text").
  rewrite lines_cons by by rewrite contains_char_app, Hnl.
  rewrite (strip_carriage_return_id (fence +:+ "text")) by by rewrite Hlast.
  rewrite lines_text by done. rewrite lines_cons by done.
  rewrite (strip_carriage_return_id fence)
    by by rewrite Hfence; unfold fence_length; destruct (Nat.max _ _) eqn:?; [lia|rewrite repeat_char_last].
  cbn [strip_carriage_return skip_while]. rewrite !bool_decide_true by done.
  rewrite bool_decide_false.
  2:{ rewrite Hfence in Hlast |- *. unfold fence_length in Hlast |- *.
      destruct (Nat.max _ _) as [|n] eqn:Hn; [lia|]. cbn [repeat_char] in Hlast |- *.
      rewrite sapp_cons in Hlast |- *. by rewrite (trim_id "`"%char _ _ eq_refl Hlast). }
  rewrite (trim_end_last _ _ Hlast) by done.
  rewrite Hfence. cbn [String.append]. rewrite leading_repeat by done.
  rewrite (proj2 (Nat.ltb_ge _ 3)) by (unfold fence_length; lia).
  pose proof (take_bytes_app (repeat_char "`" (fence_length joined)) "text") as Htake.
  rewrite repeat_char_length in Htake.
  rewrite Htake, take_while_all by apply fence_open. cbn [take_while].
  rewrite trim_end_ticks, (bool_decide_true (repeat_char _ _ = repeat_char _ _)) by done.
  cbn [negb].
  rewrite app_nil_r. change nl with (String newline ""). by rewrite join_split_char.
Qed.
Lemma issue_body_last ctx : last_char (issue_body ctx) = Some ">"%char.
Proof.
  unfold issue_body, remediation_marker. rewrite <-!sapp_assoc. by apply last_char_app_r.
Qed.

Lemma description_body ctx block : exists rest,
  description (compose_issue ctx block) = issue_body ctx +:+ rest.
Proof.
  unfold compose_issue, PipelineBlock.append_pipeline_block. cbn [description].
  case_bool_decide; [exists ""; by rewrite sapp_nil_r|].
  pose proof (issue_body_last ctx) as Hl.
  assert (trim (issue_body ctx) = issue_body ctx) as Ht.
  { assert (exists t, issue_body ctx = String "A" t) as [t Hb] by by eexists.
    rewrite Hb in Hl |- *. by apply (trim_id "A"%char t _ eq_refl Hl). }
  rewrite Ht. rewrite bool_decide_false by (intros E; by rewrite E in Hl).
  by eexists.
Qed.

Lemma issue_error_text_compose ctx block :
  plain_context ctx ->
  contains_char "013"%char (join (nl +:+ nl) (error_messages ctx)) = false ->
  issue_error_text (description (compose_issue ctx block)) =
  if bool_decide (trim (join (nl +:+ nl) (error_messages ctx)) = "") then None
  else Some (join (nl +:+ nl) (error_messages ctx)).
Proof.
  intros Hc Hr. destruct (description_body ctx block) as [rest ->].
  unfold issue_body. rewrite !sapp_assoc. unfold error_block.
  destruct (error_messages ctx) as [|m ms]; [|by apply issue_error_text_fenced, Hr; apply issue_head_plain].
  unfold issue_error_text, ERROR_SECTION_HEADING.
  rewrite split_once_str_first by by apply issue_head_plain.
  cbn [fmap option_fmap option_map snd mbind option_bind].
  rewrite !sapp_assoc.
  set (line := "_No error message was captured in the chat._"%string).
  match goal with |- context [lines (nl +:+ nl +:+ line +:+ nl +:+ ?t)] =>
    change (nl +:+ nl +:+ line +:+ nl +:+ t) with ("" +:+ nl +:+ ("" +:+ nl +:+ (line +:+ nl +:+ t)))
  end.
  by rewrite !lines_cons by done.
Qed.
(** The issue a repair is filed as gives back the errors it was filed for, exactly,
    whatever they contain but carriage returns, whatever pipeline block follows and whatever
    backticks they hold; none are read when none were captured, or only blank ones. *)
Theorem recorded_errors_roundtrip ctx block :
  plain_context ctx ->
  contains_char "013"%char (join (nl +:+ nl) (error_messages ctx)) = false ->
  issue_error_text (description (compose_issue ctx block)) =
  if bool_decide (trim (join (nl +:+ nl) (error_messages ctx)) = "") then None
  else Some (join (nl +:+ nl) (error_messages ctx)).
Proof. apply issue_error_text_compose. Qed.
End Roundtrip.

End Remediation.

Module Repairs.
Import DeliveryRules Remediation.

(* crates/services/src/services/config/versions/v8.rs:38-59 AutoErrorRemediationConfig *)
Record AutoErrorRemediationConfig := {
  enabled : bool;
  project_id : option Uuid;
  repo_ids : list Uuid;
  cfg_executor : string;
  variant : option string;
  model_id : option string;
  pipeline_ids : list string;
  merge_stage_ids : list string;
  max_per_hour : Z;
}.

Record WorkspaceRepo := { repo_id : Uuid; target_branch : string }.

Record Status := { st_id : Uuid; st_name : string; hidden : bool; sort_order : Z }.

Record SearchResponse := { issues : list Issue; total_count : nat }.

(** The failed turn, as its rows are loaded. *)
Record Turn := {
  t_workspace : Uuid;
  t_name : option string;
  t_branch : string;
  t_execution : Uuid;
  t_executor : option string;
  t_exit_code : option Z;
}.

(** What is asked of the remote service and of the workspace routes. *)
Inductive Effect :=
| SearchIssues (project : Uuid) (status_ids : list Uuid) (search : string)
| CreateIssueComment (issue : Uuid) (message : string)
| CreateIssue (project status : Uuid) (title description : string)
| CreateAndStart (name : string) (repos : list WorkspaceRepo) (issue : Uuid)
    (executor : string) (variant model_id : option string) (prompt : string)
| LinkWorkspace (workspace project issue : Uuid).

(** The answers to those questions, and to those to the database. *)
Record Answers := {
  linked_project : result (option Uuid) string;
  source_repos : result (list WorkspaceRepo) string;
  (** the default target branch of a repository that exists *)
  find_repo : Uuid -> result (option (option string)) string;
  normalized_entries : option (list NormalizedEntryText);
  load_pipelines : list Pipeline;
  remote_client : result unit string;
  project_statuses : result (list Status) string;
  search_issues : result SearchResponse string;
  created : result Issue string;
  started : result (option Uuid) string;
  linked : result unit string;
}.

(* crates/server/src/error_remediation.rs:63-66 LaunchOutcome *)
Inductive LaunchOutcome :=
| LaunchedRepair (issue workspace : Uuid)
| Recurred (issue : Uuid).

(** What was asked, in order, and what came of it. *)
Abbreviation Report := (list Effect * result LaunchOutcome string)%type.

Definition attempt {A} (r : result A string) (k : A -> Report) : Report :=
  match r with Ok a => k a | Err e => ([], Err e) end.
Definition ask (e : Effect) (r : Report) : Report := (e :: r.1, r.2).

Notation "'let*' x := r 'in' k" := (attempt r (fun x => k))
  (at level 10, x pattern, r at level 100, k at level 200).

(** The identifiers, without repetitions. *)
Fixpoint distinct (seen : gset Uuid) (l : list Uuid) : list Uuid :=
  match l with
  | [] => []
  | x :: l => if decide (x ∈ seen) then distinct seen l else x :: distinct ({[x]} ∪ seen) l
  end.

(* crates/server/src/error_remediation.rs:443-468 resolve_repos *)
Fixpoint configured_repos (a : Answers) (source : list WorkspaceRepo) (ids : list Uuid)
    : result (list WorkspaceRepo) string :=
  match ids with
  | [] => Ok []
  | id :: ids =>
      let? repo := find_repo a id in
      let? rest := configured_repos a source ids in
      match repo with
      | None => Ok rest
      | Some default_target_branch =>
          let target :=
            match find (fun r => bool_decide (repo_id r = id)) source with
            | Some r => target_branch r
            | None => default "main"%string default_target_branch
            end in
          Ok ({| repo_id := id; target_branch := target |} :: rest)
      end
  end.

(* crates/server/src/error_remediation.rs:422-469 resolve_repos *)
Definition resolve_repos (a : Answers) (config : AutoErrorRemediationConfig)
    : result (list WorkspaceRepo) string :=
  let? source := source_repos a in
  match repo_ids config with
  | [] => Ok source
  | ids => configured_repos a source (distinct ∅ ids)
  end.

(* crates/server/src/error_remediation.rs:520-540 select_pipelines *)
Definition select_pipelines (available : list Pipeline) (ids : list string)
    : result (list Pipeline) string :=
  let found id := find (fun p => bool_decide (pipeline_id p = id)) available in
  let missing := filter (fun id => found id = None) ids in
  match missing with
  | [] => Ok (omap found ids)
  | _ => Err ("configured pipeline(s) missing or invalid: " +:+ join ", " missing)
  end.

(* crates/services/src/services/pipelines/mod.rs:156-170 From<&Pipeline> *)
Definition block_pipeline (p : Pipeline) : PipelineBlock.BlockPipeline := {|
  PipelineBlock.pipeline_name := p_name p;
  PipelineBlock.stages :=
    (fun s => {| PipelineBlock.stage_id := step_id s;
                 PipelineBlock.prompt_fragment := step_prompt s |}) <$> p_stages p |}.

(* crates/server/src/error_remediation.rs:505-516 compose_block *)
Definition compose_block (available : list Pipeline) (ids merge_ids : list string)
    : result string string :=
  let? selected := select_pipelines available ids in
  Ok (PipelineBlock.compose_pipeline_block (block_pipeline <$> selected)
        (remediation_stage_ids selected merge_ids) None).

(** [iter().min_by_key(|s| s.sort_order)]: the first of the least. *)
(* crates/server/src/error_remediation.rs:243-248 launch *)
Fixpoint min_status (l : list Status) : option Status :=
  match l with
  | [] => None
  | s :: l => match min_status l with
              | Some m => Some (if decide (sort_order m < sort_order s) then m else s)
              | None => Some s
              end
  end.

Section Consumer.
Context `{!CommentText} `{!CharClass} `{!Normalizer}.
(** convert_case's key of a variant, and whether the profiles define an agent for it. *)
Context (canonical_variant_key : string -> string).
Context (get_coding_agent : string -> string -> bool).

(* crates/server/src/error_remediation.rs:473-495 resolve_variant *)
Definition resolve_variant (config : AutoErrorRemediationConfig)
    : option string * option string :=
  match variant config with
  | None => (None, None)
  | Some v =>
      if bool_decide (trim v = "") then (None, None)
      else
        let v := canonical_variant_key (trim v) in
        if get_coding_agent (cfg_executor config) v then (Some v, None) else (None, Some v)
  end.

(* crates/server/src/error_remediation.rs:384-417 find_active_similar_issue *)
Definition find_active_similar_issue (a : Answers) (messages : list string)
    : result (option Issue) string :=
  match search_issues a with
  | Err e => Err ("similar-issue lookup failed, nothing launched: " +:+ e)
  | Ok response =>
      if (length (issues response) <? total_count response)%nat
      then Err ("similar-issue lookup returned " +:+ display (Z.of_nat (length (issues response)))
                +:+ " of " +:+ display (Z.of_nat (total_count response))
                +:+ " candidates; nothing launched")
      else Ok (find_similar_issue (issues response) messages)
  end.

(* crates/server/src/error_remediation.rs:205-233 launch *)
Definition context_of (turn : Turn) (a : Answers) (fallback : option string)
    : RemediationContext := {|
  source_workspace_id := t_workspace turn;
  source_name := match t_name turn with
                 | Some name => if bool_decide (trim name = "") then t_branch turn else name
                 | None => t_branch turn
                 end;
  branch := t_branch turn;
  execution_process_id := t_execution turn;
  executor := default "unknown"%string (t_executor turn);
  exit_code := t_exit_code turn;
  error_messages := default [] (extract_error_messages <$> normalized_entries a);
  variant_fallback := fallback |}.

(** From the creation of the issue on. *)
(* crates/server/src/error_remediation.rs:292-372 launch *)
Definition file_and_start (config : AutoErrorRemediationConfig) (a : Answers)
    (project status : Uuid) (repos : list WorkspaceRepo) (draft : IssueDraft)
    (chosen : option string) : Report :=
  ask (CreateIssue project status (title draft) (description draft))
    (let* issue := created a in
     let not_started := ("issue " +:+ uuid_to_string (issue_id issue)
                         +:+ " created, but the workspace did not start")%string in
     ask (CreateAndStart (title draft) repos (issue_id issue) (cfg_executor config) chosen
            (model_id config) (title draft +:+ nl +:+ nl +:+ description draft))
       (let* workspace :=
          match started a with
          | Ok (Some w) => Ok w
          | Ok None => Err not_started
          | Err e => Err (not_started +:+ ": " +:+ e)
          end in
        ask (LinkWorkspace workspace (i_project_id issue) (issue_id issue))
          (let* _ := map_err (fun e => "workspace " +:+ uuid_to_string workspace
                       +:+ " started, but linking it to issue " +:+ uuid_to_string (issue_id issue)
                       +:+ " failed: " +:+ e)%string (linked a) in
           ([], Ok (LaunchedRepair (issue_id issue) workspace))))).

(* crates/server/src/error_remediation.rs:249-253 launch *)
Definition active_ids (statuses : list Status) : list Uuid :=
  st_id <$> filter (fun s => is_active_status_name (st_name s) = true) statuses.

(* crates/server/src/error_remediation.rs:182-376 launch *)
Definition launch (config : AutoErrorRemediationConfig) (turn : Turn) (a : Answers) : Report :=
  let* project :=
    match project_id config with
    | Some p => Ok p
    | None =>
        let? p := linked_project a in
        ok_or p "no project configured and the source workspace is not linked to one"%string
    end in
  let* repos := resolve_repos a config in
  if bool_decide (repos = []) then
    ([], Err "no repositories to start the remediation workspace on"%string)
  else
    let '(chosen, fallback) := resolve_variant config in
    let context := context_of turn a fallback in
    let* block := compose_block (load_pipelines a) (pipeline_ids config) (merge_stage_ids config) in
    let draft := compose_issue context block in
    let* _ := remote_client a in
    let* statuses := project_statuses a in
    let* status := ok_or (st_id <$> min_status (filter (fun s => hidden s = false) statuses))
                     "project has no visible statuses"%string in
    let proceed := file_and_start config a project status repos draft chosen in
    if bool_decide (error_messages context <> [] /\ active_ids statuses <> [])
    then ask (SearchIssues project (active_ids statuses) (trim REMEDIATION_MARKER_PREFIX))
           (let* similar := find_active_similar_issue a (error_messages context) in
            match similar with
            | Some existing =>
                ask (CreateIssueComment (issue_id existing) (compose_recurrence_comment context))
                  ([], Ok (Recurred (issue_id existing)))
            | None => proceed
            end)
    else proceed.

(** One event: [rows] is the failed turn when its rows load. *)
(* crates/server/src/error_remediation.rs:97-178 handle *)
Definition handle (guard : GuardState) (config : AutoErrorRemediationConfig)
    (rows : option Turn) (now : Z) (a : Answers) : GuardState * list Effect :=
  if negb (enabled config) then (guard, [])
  else match rows with
       | None => (guard, [])
       | Some turn =>
           let '(guard, decision) :=
             try_reserve guard (t_workspace turn) (t_name turn) now (max_per_hour config) in
           match decision with
           | Proceed =>
               let '(effects, outcome) := launch config turn a in
               (match outcome with
                | Ok (LaunchedRepair _ w) => record_launched guard w
                | _ => guard
                end, effects)
           | _ => (guard, [])
           end
       end.
End Consumer.
(** The search for the marker finds it in a text that holds it; the attributes have no [>]. *)
Class NormalizerLaws `{!Normalizer} : Prop := {
  captures_marker a attrs b :
    contains_char ">"%char attrs = false ->
    is_Some (captures MARKER_RE
      (a +:+ "<!-- vk:auto-remediation " +:+ attrs +:+ "-->" +:+ b));
}.

(** A failure that can be told from others: it has messages that are not blank, and words
    after normalisation. *)
Definition comparable `{!CharClass, !Normalizer} (messages : list string) : Prop :=
  is_Some (error_fingerprint messages) /\
  trim (join (nl +:+ nl) messages) <> "" /\
  contains_char "013"%char (join (nl +:+ nl) messages) = false /\
  word_set (join (nl +:+ nl) messages) <> ∅.

Lemma hex016_plain h : contains_char ">"%char (hex016 h) = false.
Proof.
  unfold hex016. generalize (rev (seq 0 16)). intros l.
  induction l as [|i l IH]; [done|]. rewrite fmap_cons, sconcat_cons, contains_char_app, IH, orb_false_r.
  cbn. rewrite orb_false_r. apply bool_decide_eq_false. intros E.
  assert (Z.to_N (h / 16 ^ Z.of_nat i mod 16) < 16)%N as Hd.
  { pose proof (Z.mod_pos_bound (h / 16 ^ Z.of_nat i) 16 ltac:(done)). lia. }
  pose proof (proj2 (DeliveryText.hex_char_value _ Hd)) as Hu. by rewrite E in Hu.
Qed.

Section Facts.
Context `{!CommentText, !CommentTextLaws, !CharClass, !Normalizer, !NormalizerLaws}.

Lemma parse_marker_body ctx rest : is_Some (parse_marker (issue_body ctx +:+ rest)).
Proof.
  unfold parse_marker. apply fmap_is_Some. unfold issue_body, remediation_marker.
  set (fp := match fingerprint ctx with Some fp => _ | None => _ end).
  assert (contains_char ">"%char fp = false) as Hfp.
  { unfold fp, fingerprint, error_fingerprint. case_match eqn:E; [|done].
    case_bool_decide; [done|]. injection E as <-. by rewrite contains_char_app, hex016_plain. }
  pose proof (captures_marker
    (issue_head ctx +:+ ERROR_SECTION_HEADING +:+ nl +:+ nl +:+ error_block (error_messages ctx)
     +:+ match variant_fallback ctx with
         | Some variant =>
             nl +:+ "> Note: executor profile variant `" +:+ variant
             +:+ "` is not defined; the default variant was used." +:+ nl
         | None => ""
         end +:+ nl)
    ("source=" +:+ uuid_to_string (source_workspace_id ctx) +:+ " exec="
     +:+ uuid_to_string (execution_process_id ctx) +:+ fp +:+ " ") rest) as Hcap.
  rewrite !sapp_assoc in Hcap. rewrite !sapp_assoc. apply Hcap.
  rewrite !contains_char_app, !uuid_contains, Hfp by done. done.
Qed.

Lemma similarity_self text :
  word_set text <> ∅ -> Qle_bool SIMILARITY_THRESHOLD (error_similarity text text) = true.
Proof.
  intros Hne. unfold error_similarity. rewrite union_idemp_L, intersection_idemp_L.
  destruct (size (word_set text)) as [|n] eqn:Hn; [by apply size_empty_iff, leibniz_equiv in Hn|].
  apply Qle_bool_iff. unfold Qle, SIMILARITY_THRESHOLD. cbn [Qnum Qden]. lia.
Qed.

(** The issue of a failure is found by another failure with the same messages. *)
Lemma filed_is_similar ctx block fp i :
  plain_context ctx -> comparable (error_messages ctx) ->
  i_description i = Some (description (compose_issue ctx block)) ->
  similar (error_messages ctx) fp i = true.
Proof.
  intros Hp (_ & Hb & Hr & Hw) Hi. unfold similar. rewrite Hi.
  destruct (description_body ctx block) as [rest Hd].
  destruct (parse_marker_body ctx rest) as [recorded Hm]. rewrite <-Hd in Hm. rewrite Hm.
  case_bool_decide; [done|].
  assert (issue_error_text (description (compose_issue ctx block)) =
    Some (join (nl +:+ nl) (error_messages ctx))) as ->; [|by apply similarity_self].
  by rewrite issue_error_text_compose, bool_decide_false.
Qed.

Lemma find_some {A} (f : A -> bool) l x : x ∈ l -> f x = true -> is_Some (find f l).
Proof.
  induction l as [|y l IH]; [by intros ?%elem_of_nil|]. cbn.
  intros [->|Hx]%elem_of_cons Hf; [by rewrite Hf|]. destruct (f y); [done|by apply IH].
Qed.

Context (canonical_variant_key : string -> string) (get_coding_agent : string -> string -> bool).

(** An issue or a workspace is made. *)
Definition makes (e : Effect) : bool :=
  match e with CreateIssue _ _ _ _ | CreateAndStart _ _ _ _ _ _ _ => true | _ => false end.

Definition fallback_of (config : AutoErrorRemediationConfig) : option string :=
  (resolve_variant canonical_variant_key get_coding_agent config).2.

(** A launch fails before it asks anything of the remote service, or comes to the search. *)
Lemma launch_cases config turn a :
  (exists e, launch canonical_variant_key get_coding_agent config turn a = ([], Err e)) \/
  exists project status statuses repos chosen block,
    let context := context_of turn a (fallback_of config) in
    let draft := compose_issue context block in
    let proceed := file_and_start config a project status repos draft chosen in
    project_statuses a = Ok statuses /\
    launch canonical_variant_key get_coding_agent config turn a =
      if bool_decide (error_messages context <> [] /\ active_ids statuses <> [])
      then ask (SearchIssues project (active_ids statuses) (trim REMEDIATION_MARKER_PREFIX))
             (let* similar := find_active_similar_issue a (error_messages context) in
              match similar with
              | Some existing =>
                  ask (CreateIssueComment (issue_id existing) (compose_recurrence_comment context))
                    ([], Ok (Recurred (issue_id existing)))
              | None => proceed
              end)
      else proceed.
Proof.
  unfold launch, fallback_of, attempt.
  destruct (match project_id config with Some p => Ok p | None => _ end); [|left; by eexists].
  destruct (resolve_repos a config) as [repos|]; [|left; by eexists].
  destruct (bool_decide (repos = [])); [left; by eexists|].
  destruct (resolve_variant _ _ config) as [chosen fallback].
  destruct (compose_block _ _ _) as [block|]; [|left; by eexists].
  destruct (remote_client a); [|left; by eexists].
  destruct (project_statuses a) as [statuses|]; [|left; by eexists].
  destruct (ok_or _ _) as [status|]; [|left; by eexists].
  right. by eexists _, status, statuses, repos, chosen, block.
Qed.

(** C32: A failure whose messages are those of a repair that is still active does not start
    another: no issue and no workspace is made, provided that the search answered and
    the issue of the first is among its answer, whatever else is (an answer that leaves
    issues out is refused), that the project has a status that counts as active, that the workspace name, branch and
    executor of the first failure have no '#' in them (a heading there would hide the text of
    the errors in the description), and that the messages can be compared: they have a
    fingerprint and words after normalisation, are not blank, and hold no carriage return.
    The pipelines and variants of either failure, the rest of the first one's context, and
    everything of the second's but its messages, are arbitrary. *)
Theorem known_failure_not_relaunched config turn a ctx block i response :
  plain_context ctx -> comparable (error_messages ctx) ->
  extract_error_messages <$> normalized_entries a = Some (error_messages ctx) ->
  (forall statuses, project_statuses a = Ok statuses -> active_ids statuses <> []) ->
  search_issues a = Ok response -> i ∈ issues response ->
  i_description i = Some (description (compose_issue ctx block)) ->
  existsb makes (launch canonical_variant_key get_coding_agent config turn a).1 = false.
Proof.
  intros Hp Hc He Hs Hr Hi Hd.
  destruct (launch_cases config turn a) as [[e ->]|(project & status & statuses & repos & chosen & blk & Hst & ->)];
    [done|]. specialize (Hs _ Hst). unfold context_of. cbn [error_messages]. rewrite He. cbn [from_option id].
  assert (error_messages ctx <> []) as Hne.
  { destruct Hc as (_ & Hb & _). by destruct (error_messages ctx). }
  rewrite bool_decide_true by done. unfold ask, attempt, find_active_similar_issue. rewrite Hr. cbn [fst].
  destruct (_ <? _)%nat; [done|]. unfold find_similar_issue.
  pose proof Hc as ([fp Hfp] & _). rewrite Hfp. cbn [mbind option_bind].
  destruct (find_some (similar (error_messages ctx) fp) (issues response) i Hi) as [x ->]; [|done].
  by apply (filed_is_similar _ block).
Qed.

Lemma title_guarded ctx : is_remediation_workspace (Some (issue_title ctx)) = true.
Proof. by apply starts_with_spec; eexists. Qed.

Lemma file_and_start_title config a p st repos block ctx chosen name r i e v m prompt :
  CreateAndStart name r i e v m prompt ∈
    (file_and_start config a p st repos (compose_issue ctx block) chosen).1 ->
  is_remediation_workspace (Some name) = true.
Proof.
  intros Hin. assert (name = issue_title ctx) as ->; [|apply title_guarded].
  revert Hin. unfold file_and_start, ask, attempt. cbn [fst title compose_issue].
  generalize (issue_title ctx), (description (compose_issue ctx block)). intros t d.
  destruct (created a) as [issue|]; cbn [fst]; [|by intros [?|?%elem_of_nil]%elem_of_cons].
  destruct (started a) as [[ws|]|]; cbn [fst].
  2, 3: by intros [?|[[= ->]|?%elem_of_nil]%elem_of_cons]%elem_of_cons.
  destruct (map_err _ _); cbn [fst];
    by intros [?|[[= ->]|[?|?%elem_of_nil]%elem_of_cons]%elem_of_cons]%elem_of_cons.
Qed.

Lemma starts_guarded guard w name now max :
  is_remediation_workspace (Some name) = true ->
  (try_reserve guard w (Some name) now max).2 = SkipRemediationWorkspace.
Proof. intros Hn. unfold try_reserve. by rewrite Hn. Qed.

(** An issue or a workspace is made only when the search was answered completely and holds no
    similar issue, or there was nothing to search for; an answer that fails or is short of a
    candidate makes nothing.  A workspace that is made never starts a repair itself: the guard
    refuses it by its name, even before it is recorded. *)
Theorem repairs_follow_the_search config turn a :
  let effects := (launch canonical_variant_key get_coding_agent config turn a).1 in
  let messages := default [] (extract_error_messages <$> normalized_entries a) in
  (existsb makes effects = true -> exists statuses, project_statuses a = Ok statuses /\
    (messages = [] \/ active_ids statuses = [] \/
     exists response, search_issues a = Ok response /\
       (total_count response <= length (issues response))%nat /\
       find_similar_issue (issues response) messages = None)) /\
  (forall name repos issue executor v m prompt guard w now max,
    CreateAndStart name repos issue executor v m prompt ∈ effects ->
    (try_reserve guard w (Some name) now max).2 = SkipRemediationWorkspace).
Proof.
  cbn zeta. split.
  - destruct (launch_cases config turn a) as [[e ->]|(p & st & statuses & repos & chosen & blk & Hst & ->)];
      [done|]. intros Hm. exists statuses. split; [done|]. revert Hm.
    set (context := context_of turn a (fallback_of config)).
    change (default [] _) with (error_messages context).
    case_bool_decide as Hb.
    2:{ intros _. destruct (decide (active_ids statuses = [])); [by right; left|].
        left. destruct (error_messages context); [done|]. by destruct Hb. }
    intros Hm. right. right. revert Hm. unfold find_active_similar_issue.
    destruct (search_issues a) as [response|]; [|done]. exists response. split; [done|].
    destruct (_ <? _)%nat eqn:Hlen; [done|]. apply Nat.ltb_ge in Hlen. split; [done|].
    revert Hm. cbn [ask attempt]. by destruct (find_similar_issue _ _).
  - intros name repos issue executor v m prompt guard w now max Hin.
    apply starts_guarded. revert Hin.
    destruct (launch_cases config turn a) as [[e ->]|(p & st & statuses & repos' & chosen & blk & Hst & ->)];
      [by intros ?%elem_of_nil|].
    case_bool_decide; [|apply file_and_start_title].
    unfold ask, attempt. cbn [fst]. intros [?|Hin]%elem_of_cons; [done|]. revert Hin.
    destruct (find_active_similar_issue _ _) as [[x|]|]; cbn [fst].
    + set_solver.
    + apply file_and_start_title.
    + by intros ?%elem_of_nil.
Qed.
End Facts.

End Repairs.

(** Concrete runs: ASCII letters and digits, texts that are normalised already, and a search
    for the marker that captures nothing of it. *)
Module RemediationRuns.
Import DeliveryRules Remediation Repairs.

#[local] Instance ascii_class : CharClass := {|
  is_alphabetic c := all_chars word_char c && negb (bool_decide (c = ":"%string));
  is_numeric _ := false |}.

#[local] Instance plain_normalizer : Normalizer := {|
  to_lowercase := to_ascii_lowercase;
  replace_all _ _ text := text;
  captures pattern text :=
    if bool_decide (pattern = MARKER_RE) && contains "<!-- vk:auto-remediation " text
    then Some "" else None |}.

#[local] Instance plain_laws : NormalizerLaws.
Proof.
  split. intros a attrs b _. cbn [captures plain_normalizer].
  rewrite bool_decide_true by done. rewrite contains_app_r by (apply contains_spec; by eexists "", _).
  done.
Qed.

Definition history : list GuardOp :=
  [Reserve 1 (Some "api") 0 1; Reserve 1 None (from_secs 7200) 5;
   Reserve 2 None (from_secs 7200) 1; Launched 9; Reserve 3 None (from_secs 7300) 1;
   Reserve 9 (Some "renamed") (from_secs 7300) 9; Reserve 1 None DEDUPE_WINDOW 2;
   Reserve 4 (Some "Auto-fix: api agent run failed") DEDUPE_WINDOW 9].

Lemma guard_decides_by_history_witness :
  guard_decisions guard_new history =
    [Proceed; SkipDuplicate; Proceed; SkipRateLimited; SkipRemediationWorkspace; Proceed;
     SkipRemediationWorkspace] /\
  guard_decisions guard_new history = history_decisions ∅ [] history.
Proof.
  split; [by vm_compute|]. apply guard_decides_by_history. cbn. repeat constructor; vm_compute; discriminate.
Defined.

Definition failure : RemediationContext := {|
  source_workspace_id := 7; source_name := " api "; branch := "vk/api";
  execution_process_id := 8; executor := "CLAUDE_CODE"; exit_code := Some 1;
  error_messages := ["API Error: 500"%string; ("bad ``` fence" +:+ nl +:+ "### Error messages")%string];
  variant_fallback := Some "PROALIGN"%string |}.

Lemma recorded_errors_roundtrip_witness :
  issue_error_text (description (compose_issue failure "<!-- block -->")) =
    Some (join (nl +:+ nl) (error_messages failure)).
Proof. rewrite recorded_errors_roundtrip; [by vm_compute|by vm_compute|by vm_compute]. Defined.

Definition config : AutoErrorRemediationConfig := {|
  enabled := true; project_id := Some 1%N; repo_ids := []; cfg_executor := "CODEX";
  variant := None; model_id := None; pipeline_ids := []; merge_stage_ids := []; max_per_hour := 3 |}.

Definition turn : Turn := {|
  t_workspace := 20; t_name := None; t_branch := "main"; t_execution := 21;
  t_executor := None; t_exit_code := None |}.

Definition filed : Issue := {|
  issue_id := 30; i_project_id := 1;
  i_description := Some (description (compose_issue failure "")) |}.

Definition answers (search : result SearchResponse string) : Answers := {|
  linked_project := Ok None;
  source_repos := Ok [{| repo_id := 2; target_branch := "main" |}];
  find_repo _ := Ok None;
  normalized_entries :=
    Some ((fun m => {| entry_type := ErrorMessage; content := m |}) <$> error_messages failure);
  load_pipelines := [];
  remote_client := Ok tt;
  project_statuses := Ok [{| st_id := 3; st_name := "To do"; hidden := false; sort_order := 0 |}];
  search_issues := search;
  created := Ok {| issue_id := 31; i_project_id := 1; i_description := None |};
  started := Ok (Some 40%N);
  linked := Ok tt |}.

Example other_failure_is_filed :
  (launch id (fun _ _ => true) config turn
     (answers (Ok {| issues := []; total_count := 0 |}))).2 = Ok (LaunchedRepair 31 40).
Proof. by vm_compute. Qed.

Lemma known_failure_not_relaunched_witness :
  let a := answers (Ok {| issues := [filed]; total_count := 1 |}) in
  (launch id (fun _ _ => true) config turn a).2 = Ok (Recurred 30) /\
  existsb makes (launch id (fun _ _ => true) config turn a).1 = false.
Proof.
  split; [by vm_compute|].
  eapply (known_failure_not_relaunched id (fun _ _ => true) config turn _ failure "" filed);
    [by vm_compute| | | |reflexivity|left|reflexivity].
  - split; [by eexists; vm_compute|]. split; [by vm_compute|]. split; [by vm_compute|].
    intros Hw. apply (f_equal size) in Hw. by vm_compute in Hw.
  - by vm_compute.
  - intros statuses Hs. injection Hs as <-. by vm_compute.
Defined.
End RemediationRuns.
