(* ===== verification/Metrics.v ===== *)
(** * Node metrics

    crates/node-metrics: [Module ProcParse] is parse.rs, the readers of the kernel's
    text files; [Module Derive] is derive.rs, rates from two readings of counters;
    [Module Sampler] is sampler.rs with the batch of types.rs, the ring of samples.
    Floating-point percentages are an argument of the definitions that produce them: what
    is modelled is whether there is one, and of which quotient. *)
From S2P Require Import Prelude Text Format MountHealth Redact.
From Stdlib Require Import Ascii.

Module ProcParse.

(* crates/node-metrics/src/parse.rs:23-28 CpuTimes *)
Record CpuTimes := { total : Z; idle : Z }.
(* crates/node-metrics/src/parse.rs:37-41 CoreTimes *)
Record CoreTimes := { index : Z; times : CpuTimes }.
(* crates/node-metrics/src/parse.rs:45-50 ProcStat *)
Record ProcStat := { all_cores : CpuTimes; per_core : list CoreTimes }.
(* crates/node-metrics/src/parse.rs:54-58 NetCounters *)
Record NetCounters := { interface : string; rx_bytes : Z; tx_bytes : Z }.
(* crates/node-metrics/src/parse.rs:62-66 MountEntry *)
Record MountEntry := { device : string; mount_point : string; fs_type : string }.
(* crates/node-metrics/src/parse.rs:70-80 ProcessStat *)
Record ProcessStat := {
  pid : Z; name : string; state : string; utime : Z; stime : Z; start_ticks : Z }.
(* crates/node-metrics/src/parse.rs:93-97 ProcessStatus *)
Record ProcessStatus := { uid : option Z; memory_bytes : option Z; thread_count : option Z }.

Fixpoint sequence_opt {A} (l : list (option A)) : option (list A) :=
  match l with
  | [] => Some []
  | o :: l => x ← o; xs ← sequence_opt l; Some (x :: xs)
  end.

(** Sums that overflow 64 bits panic in the debug build and wrap in the release build;
    [None] stands for the former. *)
Fixpoint checked_sum (l : list Z) : option Z :=
  match l with [] => Some 0 | x :: l => s ← checked_sum l; checked_add u64_max x s end.

(* crates/node-metrics/src/parse.rs:201-216 parse_cpu_times *)
Definition parse_cpu_times (columns : string) : option CpuTimes :=
  values ← sequence_opt (parse_uint u64_max <$> split_whitespace columns);
  if decide (length values < 4)%nat then None
  else
    idle ← checked_add u64_max (default 0 (values !! 3%nat)) (default 0 (values !! 4%nat));
    total ← checked_sum values;
    Some {| total := total; idle := idle |}.

(** [s.split_once(char::is_whitespace)]: at the first white-space character. *)
Fixpoint split_once_white (fuel : nat) (s : string) : option (string * string) :=
  match fuel, s with
  | S fuel, String c s' =>
      match white_width s with
      | O => (fun ab => (String c ab.1, ab.2)) <$> split_once_white fuel s'
      | w => Some ("", drop_bytes w s)
      end
  | _, _ => None
  end.

Definition is_ascii_digit (c : ascii) : bool := bool_decide (is_Some (digit_value c)).

Definition cpu_line (line : string) : option (string * CpuTimes) :=
  rest ← strip_prefix "cpu" line;
  '(index, columns) ← split_once_white (String.length rest) rest;
  times ← parse_cpu_times columns; Some (index, times).

(* crates/node-metrics/src/parse.rs:165-194 parse_proc_stat *)
Definition parse_proc_stat (contents : string) : option ProcStat :=
  let '(total, cores) :=
    foldl (fun acc line =>
             match cpu_line line with
             | None => acc
             | Some (index, times) =>
                 if decide (index = "") then (Some times, acc.2)
                 else if all_chars is_ascii_digit index then
                   match parse_uint u32_max index with
                   | Some i => (acc.1, acc.2 ++ [{| index := i; times := times |}])
                   | None => acc
                   end
                 else acc
             end) (None, []) (lines contents) in
  (fun t => {| all_cores := t; per_core := cores |}) <$> total.

(* crates/node-metrics/src/types.rs:186-196 MemorySample *)
Record MemorySample := {
  total_bytes : option Z; available_bytes : option Z; used_bytes : option Z;
  cached_bytes : option Z; swap_total_bytes : option Z; swap_used_bytes : option Z }.

(* crates/node-metrics/src/parse.rs:269-271 subtract *)
Definition subtract (left right : option Z) : option Z :=
  l ← left; r ← right; Some (saturating_sub l r).

Definition meminfo_line (line : string) : option (string * Z) :=
  '(key, value) ← split_once ":" line;
  let columns := split_whitespace value in
  amount ← (c ← columns !! 0%nat; parse_uint u64_max c);
  if decide (columns !! 1%nat = Some "kB")
  then if decide (amount * 1024 <= u64_max) then Some (key, amount * 1024) else None
  else Some (key, amount).

(* crates/node-metrics/src/parse.rs:223-264 parse_meminfo *)
Definition parse_meminfo (contents : string) : MemorySample :=
  let fields : gmap string Z :=
    foldl (fun fields kv => <[kv.1 := kv.2]> fields) ∅ (omap meminfo_line (lines contents)) in
  let total := fields !! "MemTotal" in
  let available := fields !! "MemAvailable" in
  let swap_total := fields !! "SwapTotal" in
  let swap_free := fields !! "SwapFree" in
  {| total_bytes := total; available_bytes := available; used_bytes := subtract total available;
     cached_bytes := (fun cached => saturating_add u64_max cached
                                      (default 0 (fields !! "SReclaimable")))
                       <$> fields !! "Cached";
     swap_total_bytes := swap_total; swap_used_bytes := subtract swap_total swap_free |}.

Definition net_line (line : string) : option NetCounters :=
  '(interface, columns) ← split_once ":" line;
  let interface := trim interface in
  let values := split_whitespace columns in
  if decide (interface = "" \/ interface = "lo" \/ (length values < 9)%nat) then None
  else
    rx ← (v ← values !! 0%nat; parse_uint u64_max v);
    tx ← (v ← values !! 8%nat; parse_uint u64_max v);
    if decide (rx = 0 /\ tx = 0) then None
    else Some {| interface := interface; rx_bytes := rx; tx_bytes := tx |}.

(* crates/node-metrics/src/parse.rs:353-383 parse_net_dev *)
Definition parse_net_dev (contents : string) : list NetCounters := omap net_line (lines contents).

(* crates/node-metrics/src/parse.rs:133-158 PSEUDO_FS_TYPES *)
Definition PSEUDO_FS_TYPES : list string :=
  ["autofs"; "binfmt_misc"; "bpf"; "cgroup"; "cgroup2"; "configfs"; "debugfs"; "devpts";
   "devtmpfs"; "efivarfs"; "fuse.lxcfs"; "fusectl"; "hugetlbfs"; "mqueue"; "nsfs"; "overlay";
   "proc"; "pstore"; "rpc_pipefs"; "securityfs"; "selinuxfs"; "squashfs"; "sysfs"; "tracefs"].

(** A line that describes real storage. *)
Definition mount_line (line : string) : option MountEntry :=
  match split_whitespace line with
  | device :: mount_point :: fs_type :: _ =>
      if bool_decide (fs_type ∈ PSEUDO_FS_TYPES) || starts_with "cgroup" fs_type then None
      else
        let mount_point := MountTable.metrics_unescape mount_point in
        if bool_decide (fs_type = "tmpfs" \/ fs_type = "ramfs") &&
           (bool_decide (mount_point = "/run") || starts_with "/run/" mount_point) then None
        else Some {| device := MountTable.metrics_unescape device; mount_point := mount_point;
                     fs_type := fs_type |}
  | _ => None
  end.

(** The first mount of each device. *)
Fixpoint first_of_device (seen : list string) (l : list MountEntry) : list MountEntry :=
  match l with
  | [] => []
  | e :: l => if decide (device e ∈ seen) then first_of_device seen l
              else e :: first_of_device (seen ++ [device e]) l
  end.

(* crates/node-metrics/src/parse.rs:393-426 parse_mounts *)
Definition parse_mounts (contents : string) : list MountEntry :=
  first_of_device [] (omap mount_line (lines contents)).

(** [text.find(c)] and [text.rfind(c)]: what precedes and what follows. *)
(* crates/node-metrics/src/parse.rs:489-496 parse_stat_state *)
Definition parse_stat_state (contents : string) : option string :=
  '(_, rest) ← rsplit_once ")" contents;
  field ← head (split_whitespace rest); head (chars field).

(** An optional sign and digits. *)
(* crates/node-metrics/src/parse.rs:469-469 parse_process_stat *)
Definition parse_i32 (s : string) : option Z :=
  match s with
  | String c s' =>
      if decide (c = "-"%char)
      then match s' with
           | EmptyString => None
           | String d _ => if decide (d = "+"%char) then None
                           else Z.opp <$> parse_uint 2147483648 s'
           end
      else parse_uint 2147483647 s
  | EmptyString => None
  end.

(* crates/node-metrics/src/parse.rs:463-484 parse_process_stat *)
Definition parse_process_stat (contents : string) : option ProcessStat :=
  '(before, after_open) ← split_once "(" contents;
  '(name, after_close) ← rsplit_once ")" after_open;
  pid ← parse_i32 (trim before);
  let fields := split_whitespace after_close in
  let field number := (f ← fields !! (number - 3)%nat; parse_uint u64_max f) in
  state ← parse_stat_state contents;
  utime ← field 14%nat; stime ← field 15%nat; start_ticks ← field 22%nat;
  Some {| pid := pid; name := name; state := state; utime := utime; stime := stime;
          start_ticks := start_ticks |}.

Definition status_line (status : ProcessStatus) (line : string) : ProcessStatus :=
  match split_once ":" line with
  | None => status
  | Some (key, value) =>
      let value := trim value in
      if decide (key = "Uid") then
        {| uid := v ← head (split_whitespace value); parse_uint u32_max v;
           memory_bytes := memory_bytes status; thread_count := thread_count status |}
      else if decide (key = "VmRSS") then
        {| uid := uid status;
           memory_bytes := v ← head (split_whitespace value); kib ← parse_uint u64_max v;
                           (if decide (kib * 1024 <= u64_max) then Some (kib * 1024) else None);
           thread_count := thread_count status |}
      else if decide (key = "Threads") then
        {| uid := uid status; memory_bytes := memory_bytes status;
           thread_count := parse_uint u32_max value |}
      else status
  end.

(* crates/node-metrics/src/parse.rs:503-525 parse_process_status *)
Definition parse_process_status (contents : string) : ProcessStatus :=
  foldl status_line {| uid := None; memory_bytes := None; thread_count := None |} (lines contents).

Definition nul : ascii := "000"%char.

(* crates/node-metrics/src/parse.rs:541-550 parse_cmdline *)
Definition parse_cmdline (contents : string) : option (list string) :=
  let argv := filter (fun argument => trim argument <> "") (split_char nul contents) in
  match argv with [] => None | _ => Some argv end.

(* crates/node-metrics/src/parse.rs:558-572 parse_passwd *)
Definition parse_passwd (contents : string) : gmap Z string :=
  foldl (fun users line =>
           match split_char ":" line with
           | name :: _ :: uid :: _ =>
               match parse_uint u32_max uid with
               | Some uid => match users !! uid with
                             | Some _ => users
                             | None => <[uid := name]> users
                             end
               | None => users
               end
           | _ => users
           end) ∅ (lines contents).

(** ** A device is one file system *)

Lemma first_of_device_new seen l e :
  e ∈ first_of_device seen l -> device e ∉ seen.
Proof.
  revert seen. induction l as [|x l IH]; intros seen; cbn; [set_solver|].
  case_decide; [apply IH|]. intros [-> | He%IH]%elem_of_cons; set_solver.
Qed.

Lemma first_of_device_nodup seen l : NoDup (device <$> first_of_device seen l).
Proof.
  revert seen. induction l as [|x l IH]; intros seen; cbn; [constructor|].
  case_decide; [apply IH|]. cbn. apply NoDup_cons. split; [|apply IH].
  intros (e & He & Hin)%list_elem_of_fmap. apply first_of_device_new in Hin. set_solver.
Qed.

Lemma first_of_device_covers seen l e :
  e ∈ l -> device e ∉ seen -> exists e', e' ∈ first_of_device seen l /\ device e' = device e.
Proof.
  revert seen. induction l as [|x l IH]; intros seen He Hs; [set_solver|]. cbn.
  apply elem_of_cons in He as [<- | He]; [rewrite decide_False by done; exists e; set_solver|].
  case_decide; [by apply IH|]. destruct (decide (device e = device x)) as [Heq|Hne].
  - exists x. set_solver.
  - destruct (IH (seen ++ [device x]) He) as (e' & Hin & Hd); [set_solver|].
    exists e'. set_solver.
Qed.

(** Every device with real storage is listed once. *)
Lemma mounts_list_devices_once contents :
  NoDup (device <$> parse_mounts contents) /\
  forall line e, line ∈ lines contents -> mount_line line = Some e ->
    exists e', e' ∈ parse_mounts contents /\ device e' = device e.
Proof.
  split; [apply first_of_device_nodup|]. intros line e Hl He.
  apply first_of_device_covers; [|set_solver]. apply list_elem_of_omap. by exists line.
Qed.

(** ** From the kernel's bytes to what is shown *)

Lemma split_char_join_nul argv :
  argv <> [] -> Forall (fun a => contains_char nul a = false) argv ->
  split_char nul (join (String nul "") argv) = argv.
Proof. apply MountTable.split_char_join. Qed.

(** The redactor sees the arguments the process was started with: what the kernel
    writes for an argument vector, arguments with a terminating NUL, comes back element
    for element, spaces inside arguments intact, with only blank arguments dropped; so
    what is shown is the redaction of the true arguments. *)
Theorem cmdline_reaches_redactor `{CharClass} argv :
  Forall (fun a => contains_char nul a = false) argv ->
  filter (fun a => trim a <> "") argv <> [] ->
  Redact.redact_argv <$> parse_cmdline (join (String nul "") argv +:+ String nul "") =
    Some (Redact.redact_argv (filter (fun a => trim a <> "") argv)).
Proof.
  intros Hn Hne. unfold parse_cmdline.
  assert (argv <> []) as Hargv by (by intros ->).
  assert (join (String nul "") argv +:+ String nul "" = join (String nul "") (argv ++ [""])) as ->.
  { clear -Hargv. induction argv as [|x argv IH]; [done|]. destruct argv as [|y argv].
    - cbn. by rewrite sapp_nil_r.
    - cbn [join app] in *. rewrite !sapp_assoc. by rewrite IH. }
  rewrite split_char_join_nul; [|by destruct argv|by apply Forall_app; split; [|constructor]].
  rewrite filter_app, (filter_cons_False _ "" []) by (by intros []).
  rewrite filter_nil, app_nil_r. by destruct (filter _ argv).
Qed.

Example cmdline_reaches_redactor_witness :
  let classes := {| is_alphabetic := fun _ => true; is_numeric := fun _ => false |} in
  @Redact.redact_argv classes <$>
    parse_cmdline (join (String nul "") ["a"; "--password"; "x y"] +:+ String nul "")
  = Some "a --password «redacted»"%string.
Proof.
  intros classes.
  rewrite (cmdline_reaches_redactor (H := classes) ["a"; "--password"; "x y"]);
    [by vm_compute|repeat constructor|by vm_compute].
Defined.

End ProcParse.

Module Derive.
Import ProcParse.

(* crates/node-metrics/src/derive.rs:56-60 elapsed_ms *)
Definition elapsed_ms (previous : option DateTime) (current : DateTime) : option Z :=
  p ← previous;
  let millis := Z.quot (current - p) 1000000 in
  if decide (0 < millis) then Some millis else None.

(* crates/node-metrics/src/derive.rs:162-166 rate_per_second *)
Definition rate_per_second (previous : option Z) (current : Z) (elapsed_ms : option Z) : option Z :=
  p ← previous;
  if decide (p <= current) then
    e ← elapsed_ms; Some (Z.min u64_max ((current - p) * 1000) `div` e)
  else None.

(* crates/node-metrics/src/types.rs:214-223 NetworkSample *)
Record NetworkSample := {
  ns_interface : string;
  rx_bytes_total : Z;
  tx_bytes_total : Z;
  rx_bytes_per_second : option Z;
  tx_bytes_per_second : option Z;
}.

Definition network_sample (previous : gmap string NetCounters) (elapsed_ms : option Z)
    (counters : NetCounters) : NetworkSample :=
  let before := previous !! interface counters in
  {| ns_interface := interface counters; rx_bytes_total := rx_bytes counters;
     tx_bytes_total := tx_bytes counters;
     rx_bytes_per_second := rate_per_second (rx_bytes <$> before) (rx_bytes counters) elapsed_ms;
     tx_bytes_per_second := rate_per_second (tx_bytes <$> before) (tx_bytes counters) elapsed_ms |}.

Definition network_note (previous : gmap string NetCounters) (counters : NetCounters)
    : option string :=
  before ← previous !! interface counters;
  if decide (rx_bytes counters < rx_bytes before \/ tx_bytes counters < tx_bytes before)
  then Some ("network counters for " +:+ interface counters +:+
             " went backwards; throughput unavailable this sample")
  else None.

(** The samples, and the notes about what is missing. *)
(* crates/node-metrics/src/derive.rs:129-158 derive_networks *)
Definition derive_networks (previous : gmap string NetCounters) (current : list NetCounters)
    (elapsed_ms : option Z) (degraded : list string) : list NetworkSample * list string :=
  (network_sample previous elapsed_ms <$> current,
   degraded ++ omap (network_note previous) current).

Section Busy.
Context {F32 : Type}.
(** The percentage of a quotient, in single precision. *)
Context (percent : Z -> Z -> F32).

(* crates/node-metrics/src/derive.rs:109-121 busy_percent *)
Definition busy_percent (previous_total previous_idle : Z) (current : CpuTimes) : option F32 :=
  if decide (total current < previous_total \/ idle current < previous_idle) then None
  else
    let total_delta := total current - previous_total in
    let idle_delta := idle current - previous_idle in
    if decide (total_delta = 0 \/ total_delta < idle_delta) then None
    else Some (percent (total_delta - idle_delta) total_delta).

(* crates/node-metrics/src/types.rs:177-181 CoreBusy *)
Record CoreBusy := { core : Z; core_busy_percent : F32 }.
(* crates/node-metrics/src/derive.rs:44-48 CpuBusy *)
Record CpuBusy := { total_percent : option F32; busy_per_core : option (list CoreBusy) }.

Definition core_busy (before after : CoreTimes) : option CoreBusy :=
  p ← busy_percent (total (times before)) (idle (times before)) (times after);
  Some {| core := index after; core_busy_percent := p |}.

(* crates/node-metrics/src/derive.rs:73-107 derive_cpu_busy *)
Definition derive_cpu_busy (previous : option ProcStat) (current : ProcStat) : CpuBusy :=
  match previous with
  | None => {| total_percent := None; busy_per_core := None |}
  | Some previous =>
      let same_cores :=
        bool_decide (index <$> ProcParse.per_core previous = index <$> ProcParse.per_core current) in
      {| total_percent := busy_percent (total (all_cores previous)) (idle (all_cores previous))
                            (all_cores current);
         busy_per_core :=
           if bool_decide (ProcParse.per_core current <> []) && same_cores
           then sequence_opt (zip_with core_busy (ProcParse.per_core previous)
                                (ProcParse.per_core current))
           else None |}
  end.

End Busy.

(** A rate never overstates, and falls short by less than one unless the difference
    times a thousand exceeds 64 bits. *)
Lemma rate_bounds p current e r :
  rate_per_second (Some p) current (Some e) = Some r -> 0 < e ->
  r * e <= (current - p) * 1000 /\
  ((current - p) * 1000 <= u64_max -> (current - p) * 1000 < (r + 1) * e).
Proof.
  unfold rate_per_second. cbn. case_decide; [|done]. intros [= <-] He.
  pose proof (Z.div_mod (Z.min u64_max ((current - p) * 1000)) e ltac:(lia)).
  pose proof (Z.mod_pos_bound (Z.min u64_max ((current - p) * 1000)) e He). nia.
Qed.

End Derive.

Module Sampler.

Section Sampler.
(** The readings of a sample other than its process table, the table, and the raw
    counters carried to the next. *)
Context {Readings Table Counters : Type}.

(* crates/node-metrics/src/types.rs:103-130 HostSample *)
Record HostSample := {
  sequence : Z;
  readings : Readings;
  processes : option Table;
}.

(* crates/node-metrics/src/sampler.rs:34-39 Ring *)
Record Ring := {
  samples : list HostSample;
  counters : option Counters;
  latest : Z;
}.

Definition empty_ring : Ring := {| samples := []; counters := None; latest := 0 |}.

Definition without_processes (s : HostSample) : HostSample :=
  {| sequence := sequence s; readings := readings s; processes := None |}.

Fixpoint demote_newest (l : list HostSample) : list HostSample :=
  match l with
  | [] => []
  | [s] => [without_processes s]
  | s :: l => s :: demote_newest l
  end.

Definition capacity (retention : nat) : nat := Nat.max retention 1.

(** The second half of [sample_now], under the lock: what was collected meanwhile lands,
    in whatever order concurrent calls finish. *)
(* crates/node-metrics/src/sampler.rs:92-114 MetricsSampler::sample_now *)
Definition land (retention : nat) (ring : Ring) (collected : HostSample * Counters) : Ring :=
  let sequence := latest ring + 1 in
  let sample := {| Sampler.sequence := sequence; readings := readings collected.1;
                   processes := processes collected.1 |} in
  let all := demote_newest (samples ring) ++ [sample] in
  {| samples := drop (length all - capacity retention) all;
     counters := Some collected.2; latest := sequence |}.

(* crates/node-metrics/src/types.rs:251-257 SampleBatch *)
Record SampleBatch := {
  batch_samples : list HostSample;
  earliest_retained_sequence : Z;
  batch_latest_sequence : Z;
}.

(* crates/node-metrics/src/sampler.rs:122-142 MetricsSampler::since *)
Definition since (ring : Ring) (after : Z) : SampleBatch :=
  {| batch_samples := filter (fun s => after < sequence s) (samples ring);
     earliest_retained_sequence := match samples ring with s :: _ => sequence s | [] => 0 end;
     batch_latest_sequence := latest ring |}.

(* crates/node-metrics/src/types.rs:269-271 SampleBatch::has_gap *)
Definition has_gap (b : SampleBatch) (after : Z) : bool :=
  bool_decide (0 < after) && bool_decide (after + 1 < earliest_retained_sequence b).

Lemma demote_length l : length (demote_newest l) = length l.
Proof. induction l as [|s [|s' l] IH]; cbn in *; congruence. Qed.

Lemma demote_lookup l i s :
  demote_newest l !! i = Some s ->
  exists s', l !! i = Some s' /\ sequence s = sequence s' /\
    ((S i < length l)%nat -> s = s') /\ (S i = length l -> processes s = None).
Proof.
  revert i. induction l as [|x [|y l] IH]; intros i; [done| |].
  - destruct i; [|done]. cbn. intros [= <-]. exists x. split_and!; try done; lia.
  - destruct i as [|i]; cbn [demote_newest lookup list_lookup].
    + intros [= <-]. exists x. split_and!; try done; cbn; lia.
    + intros (s' & Hl & Hs & H1 & H2)%IH. exists s'. split_and!; try done; cbn in *; intros;
        [apply H1|apply H2]; lia.
Qed.

(** The newest samples, numbered without a hole up to the latest. *)
Record ring_inv (retention : nat) (ring : Ring) : Prop := {
  numbered : forall i s, samples ring !! i = Some s ->
    sequence s = latest ring - Z.of_nat (length (samples ring)) + 1 + Z.of_nat i;
  one_table : forall i s, samples ring !! i = Some s -> processes s <> None ->
    S i = length (samples ring);
  bounded_length : (length (samples ring) <= capacity retention)%nat;
  long_enough : Z.of_nat (length (samples ring))
                  = Z.min (latest ring) (Z.of_nat (capacity retention));
}.

Lemma land_inv retention ring c : ring_inv retention ring -> ring_inv retention (land retention ring c).
Proof.
  intros [Hn Ht Hb Hl].
  set (all := demote_newest (samples ring) ++ [{| sequence := latest ring + 1;
    readings := readings c.1; processes := processes c.1 |}]).
  assert (length all = S (length (samples ring))) as Hlen
    by (unfold all; rewrite length_app, demote_length; cbn; lia).
  assert (forall i s, all !! i = Some s ->
    sequence s = latest ring + 1 - Z.of_nat (length (samples ring)) + Z.of_nat i /\
    (processes s <> None -> i = length (samples ring))) as Hall.
  { intros i s. unfold all. rewrite lookup_app_Some, demote_length.
    intros [(s' & Hs' & -> & H1 & H2)%demote_lookup|[Hi Hs]].
    - pose proof (lookup_lt_Some _ _ _ Hs') as Hlt. rewrite (Hn _ _ Hs'). split; [lia|].
      intros Hp. exfalso. destruct (decide (S i = length (samples ring))); [by apply Hp, H2|].
      rewrite H1 in Hp by lia. apply Ht in Hs'; [lia|done].
    - apply list_lookup_singleton_Some in Hs as [Hi' <-]. cbn. split; [lia|]. intros _. lia. }
  assert (1 <= capacity retention)%nat as Hc by (unfold capacity; lia).
  split; cbn; fold all; rewrite ?length_drop, Hlen; unfold land; cbn.
  - intros i s. rewrite lookup_drop. intros [-> _]%Hall. lia.
  - intros i s. rewrite lookup_drop. intros [_ Hi]%Hall Hp. specialize (Hi Hp). lia.
  - lia.
  - lia.
Qed.

Lemma lands_inv retention cs : forall ring,
  ring_inv retention ring -> ring_inv retention (foldl (land retention) ring cs) /\
  latest (foldl (land retention) ring cs) = latest ring + Z.of_nat (length cs).
Proof.
  induction cs as [|c cs IH]; intros ring Hr; cbn [foldl length]; [split; [done|lia]|].
  destruct (IH (land retention ring c)) as [H1 H2]; [by apply land_inv|].
  split; [done|]. rewrite H2. cbn. lia.
Qed.

Lemma empty_inv retention : ring_inv retention empty_ring.
Proof. split; cbn; intros; try done; unfold capacity; lia. Qed.

(** A hole in the samples is never hidden: after any number of samples, however the
    calls that collected them overlapped, the ring holds at most its capacity and a
    process table only in its newest sample; a consumer who has read up to [after] gets,
    in order and without a hole, every later sample that was ever taken, or is told of a
    gap; and it is told of one only when a sample it did not read is gone. *)
Theorem gap_iff_missed retention cs after :
  let ring := foldl (land retention) empty_ring cs in
  let batch := since ring after in
  0 < after <= latest ring ->
  (length (samples ring) <= capacity retention)%nat /\
  (forall i s, samples ring !! i = Some s -> processes s <> None -> S i = length (samples ring)) /\
  latest ring = Z.of_nat (length cs) /\
  (has_gap batch after = false ->
     forall n, after < n <= latest ring -> exists s, s ∈ batch_samples batch /\ sequence s = n) /\
  (has_gap batch after = true ->
     forall s, s ∈ samples ring -> after + 1 < sequence s).
Proof.
  intros ring batch Ha.
  destruct (lands_inv retention cs empty_ring (empty_inv retention)) as [[Hn Ht Hb Hl] Hlat].
  fold ring in Hn, Ht, Hb, Hl, Hlat. cbn in Hlat.
  assert (earliest_retained_sequence batch = latest ring - Z.of_nat (length (samples ring)) + 1) as He.
  { unfold batch. cbn. destruct (samples ring) as [|s l] eqn:Hs.
    - cbn in Hl. unfold capacity in Hl. lia.
    - specialize (Hn 0%nat s eq_refl). rewrite Hn. lia. }
  split_and!; [done|done|lia| |].
  - intros Hg n Hrange. unfold has_gap in Hg. rewrite bool_decide_true in Hg by lia. cbn [andb] in Hg.
    apply bool_decide_eq_false in Hg. rewrite He in Hg.
    destruct (lookup_lt_is_Some_2 (samples ring)
      (Z.to_nat (n - (latest ring - Z.of_nat (length (samples ring)) + 1)))) as [s Hs]; [lia|].
    exists s. rewrite (Hn _ _ Hs). split; [|lia]. cbn. apply list_elem_of_filter.
    split; [rewrite (Hn _ _ Hs); lia|]. by apply list_elem_of_lookup_2 in Hs.
  - intros Hg s [i Hs]%list_elem_of_lookup. unfold has_gap in Hg.
    apply andb_true_iff in Hg as [_ Hg%bool_decide_eq_true].
    rewrite He in Hg. rewrite (Hn _ _ Hs). lia.
Qed.

End Sampler.

Definition sample_of (n : Z) : HostSample (Readings := Z) (Table := unit) * Z :=
  ({| sequence := 0; readings := n; processes := Some tt |}, n).

Example gap_iff_missed_witness :
  let ring := foldl (land 3) empty_ring (sample_of <$> [10; 20; 30; 40; 50]) in
  has_gap (since ring 1) 1 = true /\ has_gap (since ring 3) 3 = false /\
  exists s, s ∈ batch_samples (since ring 3) /\ sequence s = 5.
Proof.
  intros ring. split_and!; [by vm_compute..|].
  destruct (gap_iff_missed 3 (sample_of <$> [10; 20; 30; 40; 50]) 3) as (_ & _ & _ & H & _);
    [by vm_compute|].
  apply (H ltac:(by vm_compute) 5). by vm_compute.
Defined.

End Sampler.
