(* ===== verification/McpOAuth.v ===== *)
(** * The tables of the OAuth server for remote MCP clients

    [McpOAuth] is crates/db/src/models/mcp_oauth.rs over the schema of the migration
    20261004000000_mcp_oauth.sql: clients, authorization requests, grants and tokens.  Each
    function that runs one statement, or one transaction, is a function on the database and
    its answer; a constraint of the schema that would be broken makes the statement fail and
    changes nothing.  A BLOB is the string of its bytes.  Stored times are the microseconds
    of the instant: the texts have a fixed width, so their order is the order of the numbers. *)
From S2P Require Import Prelude.

(** Some row satisfies a test. *)
Definition any_row {A} (f : string -> A -> bool) (m : gmap string A) : bool :=
  existsb (fun kv => f kv.1 kv.2) (map_to_list m).

Lemma any_row_spec {A} (f : string -> A -> bool) (m : gmap string A) :
  any_row f m = true <-> exists k x, m !! k = Some x /\ f k x = true.
Proof.
  unfold any_row. rewrite existsb_exists. split.
  - intros ([k x] & Hin & Hf). exists k, x. split; [|done].
    by apply elem_of_map_to_list, list_elem_of_In.
  - intros (k & x & Hk & Hf). exists (k, x). split; [|done].
    by apply list_elem_of_In, elem_of_map_to_list.
Qed.

Lemma any_row_false {A} (f : string -> A -> bool) (m : gmap string A) k x :
  any_row f m = false -> m !! k = Some x -> f k x = false.
Proof.
  intros Hn Hk. apply not_true_is_false. intros Hf. apply not_true_iff_false in Hn. apply Hn.
  apply any_row_spec. eauto.
Qed.

(** [DELETE ... WHERE]: the rows that stay. *)
Definition keep {A} (f : string -> A -> bool) (m : gmap string A) : gmap string A :=
  filter (fun kv => f kv.1 kv.2 = true) m.

Lemma lookup_keep {A} (f : string -> A -> bool) (m : gmap string A) k x :
  keep f m !! k = Some x <-> m !! k = Some x /\ f k x = true.
Proof. unfold keep. by rewrite map_lookup_filter_Some. Qed.

Lemma keep_subseteq {A} (f : string -> A -> bool) (m : gmap string A) : keep f m ⊆ m.
Proof. apply map_filter_subseteq. Qed.

Module McpOAuth.

(** The instants are stored with microseconds. *)
(* crates/db/src/models/mcp_oauth.rs:11-13 timestamp *)
Definition timestamp (at_ : DateTime) : Z := at_ / 1000.

(* crates/db/src/models/mcp_oauth.rs:16-23 McpOAuthClient *)
Record McpOAuthClient := {
  client_id : string;
  client_secret_hash : option string;
  token_endpoint_auth_method : string;
  client_name : option string;
  redirect_uris_json : string;
  client_created_at : Z;
}.

(* crates/db/src/models/mcp_oauth.rs:31-37 NewMcpOAuthClient *)
Record NewMcpOAuthClient := {
  nc_client_id : string;
  nc_client_secret_hash : option string;
  nc_token_endpoint_auth_method : string;
  nc_client_name : option string;
  nc_redirect_uris : list string;
}.

(** A row of mcp_oauth_authorizations; [code_hash] is a column no query returns, and
    [created_at], here and on tokens, one that nothing reads. *)
(* crates/db/src/models/mcp_oauth.rs:40-52 McpOAuthAuthorization *)
Record McpOAuthAuthorization := {
  id : string;
  a_client_id : string;
  redirect_uri : string;
  code_challenge : string;
  scope : string;
  resource : string;
  state : option string;
  consent_hash : string;
  code_hash : option string;
  status : string;
  a_grant_id : option string;
  a_expires_at : Z;
}.

(* crates/db/src/models/mcp_oauth.rs:54-64 NewMcpOAuthAuthorization *)
Record NewMcpOAuthAuthorization := {
  na_id : string;
  na_client_id : string;
  na_redirect_uri : string;
  na_code_challenge : string;
  na_scope : string;
  na_resource : string;
  na_state : option string;
  na_consent_hash : string;
  na_expires_at : DateTime;
}.

(** Rows of mcp_oauth_grants and mcp_oauth_tokens. *)
Record Grant := {
  g_client_id : string;
  g_scope : string;
  g_resource : string;
  g_created_at : Z;
  g_last_used_at : option Z;
  g_revoked_at : option Z;
}.

Record Token := {
  t_grant_id : string;
  t_kind : string;
  t_expires_at : Z;
  t_revoked_at : option Z;
}.

(* crates/db/src/models/mcp_oauth.rs:68-78 McpOAuthTokenRecord *)
Record McpOAuthTokenRecord := {
  grant_id : string;
  kind : string;
  expires_at : Z;
  revoked_at : option Z;
  r_client_id : string;
  r_scope : string;
  r_resource : string;
  grant_revoked_at : option Z;
  last_used_at : option Z;
}.

(* crates/db/src/models/mcp_oauth.rs:81-86 IssuedTokenHashes *)
Record IssuedTokenHashes := {
  access_hash : string;
  access_expires_at : DateTime;
  refresh_hash : string;
  refresh_expires_at : DateTime;
}.

(* crates/db/src/models/mcp_oauth.rs:89-96 McpOAuthGrantSummary *)
Record McpOAuthGrantSummary := {
  s_id : string;
  s_client_id : string;
  s_client_name : option string;
  s_scope : string;
  s_created_at : Z;
  s_last_used_at : option Z;
}.

(* crates/db/src/models/mcp_oauth.rs:99-105 ExchangeOutcome *)
Inductive ExchangeOutcome := Issued (grant_id : string) | NotApproved.

(* crates/db/src/models/mcp_oauth.rs:108-113 RotateOutcome *)
Inductive RotateOutcome := Rotated | AlreadyRevoked.

(** A failed statement: a constraint, or the database out of reach. *)
Inductive DbError := Constraint | Unavailable.

#[global] Instance rotate_outcome_eq_dec : EqDecision RotateOutcome.
Proof. solve_decision. Defined.
#[global] Instance exchange_outcome_eq_dec : EqDecision ExchangeOutcome.
Proof. solve_decision. Defined.
#[global] Instance db_error_eq_dec : EqDecision DbError.
Proof. solve_decision. Defined.
#[global] Instance answer_eq_dec `{EqDecision A} : EqDecision (result A DbError).
Proof. solve_decision. Defined.

Record Db := {
  clients : gmap string McpOAuthClient;
  grants : gmap string Grant;
  authorizations : gmap string McpOAuthAuthorization;
  tokens : gmap string Token;
}.

Definition empty_db : Db :=
  {| clients := ∅; grants := ∅; authorizations := ∅; tokens := ∅ |}.

Definition with_clients (d : Db) c : Db :=
  {| clients := c; grants := grants d; authorizations := authorizations d; tokens := tokens d |}.
Definition with_grants (d : Db) g : Db :=
  {| clients := clients d; grants := g; authorizations := authorizations d; tokens := tokens d |}.
Definition with_authorizations (d : Db) a : Db :=
  {| clients := clients d; grants := grants d; authorizations := a; tokens := tokens d |}.
Definition with_tokens (d : Db) t : Db :=
  {| clients := clients d; grants := grants d; authorizations := authorizations d; tokens := t |}.

Definition minutes (n : Z) : Duration := from_secs (60 * n).
Definition hours (n : Z) : Duration := from_secs (3600 * n).
Definition days (n : Z) : Duration := from_secs (86400 * n).

(* crates/db/src/models/mcp_oauth.rs:116 UNCLAIMED_CLIENT_TTL *)
Definition UNCLAIMED_CLIENT_TTL : Duration := hours 24.

(* crates/db/src/models/mcp_oauth.rs:119 AUTHORIZATION_RETENTION *)
Definition AUTHORIZATION_RETENTION : Duration := days 1.

(** ** Deletions with the cascades of the schema *)

Definition null_grant (a : McpOAuthAuthorization) : McpOAuthAuthorization :=
  {| id := id a; a_client_id := a_client_id a; redirect_uri := redirect_uri a;
     code_challenge := code_challenge a; scope := scope a; resource := resource a;
     state := state a; consent_hash := consent_hash a; code_hash := code_hash a;
     status := status a; a_grant_id := None; a_expires_at := a_expires_at a |}.

(** Deleting a grant deletes its tokens and sets the column of its authorization to NULL. *)
Definition retain_grants (f : string -> Grant -> bool) (d : Db) : Db :=
  let gs := keep f (grants d) in
  {| clients := clients d; grants := gs;
     authorizations :=
       (fun a => match a_grant_id a with
                 | Some g => if decide (is_Some (gs !! g)) then a else null_grant a
                 | None => a
                 end) <$> authorizations d;
     tokens := keep (fun _ t => bool_decide (is_Some (gs !! t_grant_id t))) (tokens d) |}.

(** Deleting a client deletes its grants and its authorizations. *)
Definition retain_clients (f : string -> McpOAuthClient -> bool) (d : Db) : Db :=
  let cs := keep f (clients d) in
  let d := retain_grants (fun _ g => bool_decide (is_Some (cs !! g_client_id g))) d in
  {| clients := cs; grants := grants d;
     authorizations := keep (fun _ a => bool_decide (is_Some (cs !! a_client_id a)))
                            (authorizations d);
     tokens := tokens d |}.

(* crates/db/src/models/mcp_oauth.rs:127-160 McpOAuth::prune *)
Definition prune (d : Db) (now : DateTime) : Db :=
  let now_ts := timestamp now in
  let retention_ts := timestamp (now - AUTHORIZATION_RETENTION) in
  let unclaimed_ts := timestamp (now - UNCLAIMED_CLIENT_TTL) in
  let d := with_authorizations d
             (keep (fun _ a => negb (a_expires_at a <? retention_ts)) (authorizations d)) in
  let d := with_tokens d (keep (fun _ t => negb (t_expires_at t <? now_ts)) (tokens d)) in
  let ts := tokens d in
  let d := retain_grants
             (fun i g => negb (match g_revoked_at g with Some r => r <? retention_ts | None => false end
                               || negb (any_row (fun _ t => String.eqb (t_grant_id t) i) ts))) d in
  let gs := grants d in
  let auths := authorizations d in
  retain_clients
    (fun i c => negb ((client_created_at c <? unclaimed_ts)
                      && negb (any_row (fun _ g => String.eqb (g_client_id g) i) gs)
                      && negb (any_row (fun _ a => String.eqb (a_client_id a) i
                                                   && (now_ts <=? a_expires_at a)) auths))) d.

(* crates/db/src/models/mcp_oauth.rs:162-166 McpOAuth::count_clients *)
Definition count_clients (d : Db) : Z := Z.of_nat (size (clients d)).

Section Clients.
(** [serde_json::to_string] and [from_str] of a list of strings. *)
Context (uris_to_json : list string -> string) (uris_of_json : string -> option (list string)).

(* crates/db/src/models/mcp_oauth.rs:26-28 McpOAuthClient::redirect_uris *)
Definition redirect_uris (c : McpOAuthClient) : list string :=
  default [] (uris_of_json (redirect_uris_json c)).

(* crates/db/src/models/mcp_oauth.rs:171-196 McpOAuth::insert_client *)
Definition insert_client (d : Db) (client : NewMcpOAuthClient) (now : DateTime) (max_clients : Z)
    : Db * result bool DbError :=
  let row := {| client_id := nc_client_id client;
                client_secret_hash := nc_client_secret_hash client;
                token_endpoint_auth_method := nc_token_endpoint_auth_method client;
                client_name := nc_client_name client;
                redirect_uris_json := uris_to_json (nc_redirect_uris client);
                client_created_at := timestamp now |} in
  if count_clients d <? max_clients then
    match clients d !! nc_client_id client with
    | Some _ => (d, Err Constraint)
    | None => (with_clients d (<[nc_client_id client := row]> (clients d)), Ok true)
    end
  else (d, Ok false).

End Clients.

(* crates/db/src/models/mcp_oauth.rs:198-210 McpOAuth::find_client *)
Definition find_client (d : Db) (client_id : string) : option McpOAuthClient :=
  clients d !! client_id.

(* crates/db/src/models/mcp_oauth.rs:212-236 McpOAuth::insert_authorization *)
Definition insert_authorization (d : Db) (n : NewMcpOAuthAuthorization) : Db * result unit DbError :=
  match authorizations d !! na_id n, clients d !! na_client_id n with
  | None, Some _ =>
      (with_authorizations d
         (<[na_id n :=
            {| id := na_id n; a_client_id := na_client_id n; redirect_uri := na_redirect_uri n;
               code_challenge := na_code_challenge n; scope := na_scope n;
               resource := na_resource n; state := na_state n;
               consent_hash := na_consent_hash n; code_hash := None; status := "pending";
               a_grant_id := None; a_expires_at := timestamp (na_expires_at n) |}]>
            (authorizations d)), Ok tt)
  | _, _ => (d, Err Constraint)
  end.

(* crates/db/src/models/mcp_oauth.rs:241-252 McpOAuth::find_authorization *)
Definition find_authorization (d : Db) (id : string) : option McpOAuthAuthorization :=
  authorizations d !! id.

(** [code_hash] is UNIQUE, so there is at most one row. *)
(* crates/db/src/models/mcp_oauth.rs:254-265 McpOAuth::find_authorization_by_code *)
Definition find_authorization_by_code (d : Db) (hash : string) : option McpOAuthAuthorization :=
  snd <$> find (fun kv => bool_decide (code_hash kv.2 = Some hash))
               (map_to_list (authorizations d)).

Definition resolved (a : McpOAuthAuthorization) (st : string) (hash : option string)
    (expires : option Z) : McpOAuthAuthorization :=
  {| id := id a; a_client_id := a_client_id a; redirect_uri := redirect_uri a;
     code_challenge := code_challenge a; scope := scope a; resource := resource a;
     state := state a; consent_hash := consent_hash a; code_hash := hash;
     status := st; a_grant_id := a_grant_id a;
     a_expires_at := default (a_expires_at a) expires |}.

(* crates/db/src/models/mcp_oauth.rs:270-295 McpOAuth::resolve_pending *)
Definition resolve_pending (d : Db) (id : string) (approved_code : option (string * DateTime))
    (now : DateTime) : Db * result bool DbError :=
  let '(st, hash, expires) :=
    match approved_code with
    | Some (hash, expires) => ("approved", Some hash, Some (timestamp expires))
    | None => ("denied", None, None)
    end in
  match authorizations d !! id with
  | Some a =>
      if String.eqb (status a) "pending" && (timestamp now <? a_expires_at a) then
        if any_row (fun i b => negb (String.eqb i id)
                               && bool_decide (is_Some hash /\ code_hash b = hash))
                   (authorizations d)
        then (d, Err Constraint)
        else (with_authorizations d (<[id := resolved a st hash expires]> (authorizations d)), Ok true)
      else (d, Ok false)
  | None => (d, Ok false)
  end.

Definition new_token (g k : string) (expires : DateTime) : Token :=
  {| t_grant_id := g; t_kind := k; t_expires_at := timestamp expires; t_revoked_at := None |}.

(** The primary key refuses a hash that is present, the foreign key a missing grant. *)
(* crates/db/src/models/mcp_oauth.rs:486-509 insert_token_pair *)
Definition insert_token_pair (d : Db) (g : string) (ts : IssuedTokenHashes) : option Db :=
  match grants d !! g with
  | None => None
  | Some _ =>
      foldl (fun od '(hash, k, expires) =>
               od ≫= fun d => match tokens d !! hash with
                              | Some _ => None
                              | None => Some (with_tokens d (<[hash := new_token g k expires]> (tokens d)))
                              end)
            (Some d)
            [(access_hash ts, "access", access_expires_at ts);
             (refresh_hash ts, "refresh", refresh_expires_at ts)]
  end.

Definition exchanged (a : McpOAuthAuthorization) (g : string) : McpOAuthAuthorization :=
  {| id := id a; a_client_id := a_client_id a; redirect_uri := redirect_uri a;
     code_challenge := code_challenge a; scope := scope a; resource := resource a;
     state := state a; consent_hash := consent_hash a; code_hash := code_hash a;
     status := "exchanged"; a_grant_id := Some g; a_expires_at := a_expires_at a |}.

(** One transaction: a failure of any statement rolls all of it back. *)
(* crates/db/src/models/mcp_oauth.rs:299-337 McpOAuth::exchange_code *)
Definition exchange_code (d : Db) (authorization : McpOAuthAuthorization) (g : string)
    (ts : IssuedTokenHashes) (now : DateTime) : Db * result ExchangeOutcome DbError :=
  let now_ts := timestamp now in
  match grants d !! g, clients d !! a_client_id authorization with
  | None, Some _ =>
      let tx := with_grants d
        (<[g := {| g_client_id := a_client_id authorization; g_scope := scope authorization;
                   g_resource := resource authorization; g_created_at := now_ts;
                   g_last_used_at := None; g_revoked_at := None |}]> (grants d)) in
      match authorizations tx !! id authorization with
      | Some row =>
          if String.eqb (status row) "approved" && (now_ts <? a_expires_at row) then
            let tx := with_authorizations tx
                        (<[id authorization := exchanged row g]> (authorizations tx)) in
            match insert_token_pair tx g ts with
            | Some tx => (tx, Ok (Issued g))
            | None => (d, Err Constraint)
            end
          else (d, Ok NotApproved)
      | None => (d, Ok NotApproved)
      end
  | _, _ => (d, Err Constraint)
  end.

(* crates/db/src/models/mcp_oauth.rs:339-354 McpOAuth::find_token *)
Definition find_token (d : Db) (token_hash : string) : option McpOAuthTokenRecord :=
  t ← tokens d !! token_hash;
  g ← grants d !! t_grant_id t;
  Some {| grant_id := t_grant_id t; kind := t_kind t; expires_at := t_expires_at t;
          revoked_at := t_revoked_at t; r_client_id := g_client_id g; r_scope := g_scope g;
          r_resource := g_resource g; grant_revoked_at := g_revoked_at g;
          last_used_at := g_last_used_at g |}.

Definition revoke_token (now_ts : Z) (t : Token) : Token :=
  {| t_grant_id := t_grant_id t; t_kind := t_kind t; t_expires_at := t_expires_at t;
     t_revoked_at := Some now_ts |}.

(* crates/db/src/models/mcp_oauth.rs:358-382 McpOAuth::rotate_refresh *)
Definition rotate_refresh (d : Db) (old_refresh_hash g : string) (ts : IssuedTokenHashes)
    (now : DateTime) : Db * result RotateOutcome DbError :=
  let now_ts := timestamp now in
  match tokens d !! old_refresh_hash with
  | Some t =>
      if String.eqb (t_kind t) "refresh" && bool_decide (t_revoked_at t = None) then
        let tx := with_tokens d (<[old_refresh_hash := revoke_token now_ts t]> (tokens d)) in
        match insert_token_pair tx g ts with
        | Some tx => (tx, Ok Rotated)
        | None => (d, Err Constraint)
        end
      else (d, Ok AlreadyRevoked)
  | None => (d, Ok AlreadyRevoked)
  end.

Definition revoked (now_ts : Z) (g : Grant) : Grant :=
  {| g_client_id := g_client_id g; g_scope := g_scope g; g_resource := g_resource g;
     g_created_at := g_created_at g; g_last_used_at := g_last_used_at g;
     g_revoked_at := Some now_ts |}.

(* crates/db/src/models/mcp_oauth.rs:407-430 McpOAuth::revoke_grant *)
Definition revoke_grant (d : Db) (g : string) (now : DateTime) : Db * bool :=
  let now_ts := timestamp now in
  let '(d, updated) :=
    match grants d !! g with
    | Some row =>
        match g_revoked_at row with
        | None => (with_grants d (<[g := revoked now_ts row]> (grants d)), true)
        | Some _ => (d, false)
        end
    | None => (d, false)
    end in
  (with_tokens d
     ((fun t => if decide (t_grant_id t = g /\ t_revoked_at t = None)
                then revoke_token now_ts t else t) <$> tokens d), updated).

(** The first statement of [revoke_exchanged_grant]; the second is [revoke_grant]. *)
(* crates/db/src/models/mcp_oauth.rs:388-403 McpOAuth::revoke_exchanged_grant *)
Definition exchanged_grant (d : Db) (authorization_id : string) : option (option string) :=
  match authorizations d !! authorization_id with
  | Some a => if String.eqb (status a) "exchanged" then Some (a_grant_id a) else None
  | None => None
  end.

(* crates/db/src/models/mcp_oauth.rs:434-450 McpOAuth::verify_access_token *)
Definition verify_access_token (found : option McpOAuthTokenRecord) (resource : string)
    (now : DateTime) : option McpOAuthTokenRecord :=
  match found with
  | None => None
  | Some record =>
      let now_ts := timestamp now in
      let live := String.eqb (kind record) "access"
                  && bool_decide (revoked_at record = None)
                  && bool_decide (grant_revoked_at record = None)
                  && (now_ts <? expires_at record)
                  && String.eqb (r_resource record) resource in
      if live then Some record else None
  end.

Definition touched (now_ts : Z) (g : Grant) : Grant :=
  {| g_client_id := g_client_id g; g_scope := g_scope g; g_resource := g_resource g;
     g_created_at := g_created_at g; g_last_used_at := Some now_ts;
     g_revoked_at := g_revoked_at g |}.

(* crates/db/src/models/mcp_oauth.rs:453-469 McpOAuth::touch_grant *)
Definition touch_grant (d : Db) (g : string) (now : DateTime) (min_interval : Duration) : Db :=
  match grants d !! g with
  | Some row =>
      if match g_last_used_at row with
         | None => true
         | Some used => used <? timestamp (now - min_interval)
         end
      then with_grants d (<[g := touched (timestamp now) row]> (grants d))
      else d
  | None => d
  end.

(** [ORDER BY g.created_at DESC]. *)
Definition newest_first (a b : McpOAuthGrantSummary) : Prop := s_created_at b <= s_created_at a.
#[global] Instance newest_first_dec : RelDecision newest_first.
Proof. unfold newest_first. solve_decision. Defined.

(* crates/db/src/models/mcp_oauth.rs:471-483 McpOAuth::list_live_grants *)
Definition list_live_grants (d : Db) : list McpOAuthGrantSummary :=
  merge_sort newest_first
    (omap (fun '(i, g) =>
             match g_revoked_at g, clients d !! g_client_id g with
             | None, Some c =>
                 Some {| s_id := i; s_client_id := g_client_id g;
                         s_client_name := client_name c; s_scope := g_scope g;
                         s_created_at := g_created_at g; s_last_used_at := g_last_used_at g |}
             | _, _ => None
             end) (map_to_list (grants d))).

(** ** What the statements keep *)

Definition tokens_have_grants (d : Db) : Prop :=
  forall x t, tokens d !! x = Some t -> is_Some (grants d !! t_grant_id t).

(** [d'] has only rows of [d], with use recorded and deleted grants forgotten. *)
Record shrinks (d d' : Db) : Prop := {
  shrinks_clients : clients d' ⊆ clients d;
  shrinks_authorizations i a' :
    authorizations d' !! i = Some a' ->
    exists a, authorizations d !! i = Some a /\
      (a' = a \/ a' = null_grant a /\ forall g, a_grant_id a = Some g -> grants d' !! g = None);
  shrinks_grants g r' :
    grants d' !! g = Some r' ->
    exists r, grants d !! g = Some r /\ g_client_id r' = g_client_id r /\ g_scope r' = g_scope r /\
      g_resource r' = g_resource r /\ g_revoked_at r' = g_revoked_at r;
  shrinks_tokens : tokens d' ⊆ tokens d;
  shrinks_keys : tokens_have_grants d -> tokens_have_grants d';
}.

Lemma null_grant_idem a : null_grant (null_grant a) = null_grant a.
Proof. done. Qed.

Lemma shrinks_grant_lost d d' g : shrinks d d' -> grants d !! g = None -> grants d' !! g = None.
Proof.
  intros Hs Hg. destruct (grants d' !! g) as [r|] eqn:Hr; [|done].
  apply (shrinks_grants _ _ Hs) in Hr as (? & ? & _). congruence.
Qed.

#[global] Instance shrinks_preorder : PreOrder shrinks.
Proof.
  split.
  - intros d. split; [done|eauto|eauto 10|done|done].
  - intros d1 d2 d3 H12 H23. split.
    + etrans; [apply H23|apply H12].
    + intros i a3 (a2 & Hin & Ha3)%(shrinks_authorizations _ _ H23).
      apply (shrinks_authorizations _ _ H12) in Hin as (a1 & Ha1 & Ha2). exists a1. split; [done|].
      destruct Ha3 as [->|[-> Hg3]], Ha2 as [->|[-> Hg2]]; [by left| | |].
      * right. split; [done|]. intros g Hg. eapply shrinks_grant_lost; eauto.
      * by right.
      * right. split; [done|]. intros g Hg. eapply shrinks_grant_lost; eauto.
    + intros g r3 (r2 & Hin & ? & ? & ? & ?)%(shrinks_grants _ _ H23).
      apply (shrinks_grants _ _ H12) in Hin as (r1 & Hr1 & ? & ? & ? & ?).
      exists r1. split_and!; congruence.
    + etrans; [apply H23|apply H12].
    + intros Hk. by apply H23, H12.
Qed.

Lemma shrinks_keep_authorizations f d :
  shrinks d (with_authorizations d (keep f (authorizations d))).
Proof.
  split; cbn; [done| |eauto 10|done|done].
  intros i a [Ha _]%lookup_keep. eauto.
Qed.

Lemma shrinks_keep_tokens f d : shrinks d (with_tokens d (keep f (tokens d))).
Proof.
  split; cbn; [done|eauto|eauto 10|apply keep_subseteq|].
  intros Hk x t [Ht _]%lookup_keep. by apply (Hk x).
Qed.

Lemma shrinks_retain_grants f d : shrinks d (retain_grants f d).
Proof.
  split; cbn; [done| | |apply keep_subseteq|].
  - intros i a'. rewrite lookup_fmap. intros (a & -> & Ha)%fmap_Some. exists a. split; [done|].
    destruct (a_grant_id a) as [g|] eqn:Hg; [|by left].
    destruct (decide _) as [|Hn]; [by left|right]. split; [done|]. intros ? [= <-].
    by apply eq_None_not_Some.
  - intros g r [Hr _]%lookup_keep. eauto 10.
  - intros _ x t [_ Ht]%lookup_keep. by apply bool_decide_eq_true in Ht.
Qed.

Lemma shrinks_retain_clients f d : shrinks d (retain_clients f d).
Proof.
  pose proof (shrinks_retain_grants
    (fun _ g => bool_decide (is_Some (keep f (clients d) !! g_client_id g))) d) as Hs.
  split; cbn; [apply keep_subseteq| |apply Hs|apply Hs|apply Hs].
  intros i a [Ha _]%lookup_keep. by apply (shrinks_authorizations _ _ Hs).
Qed.

Lemma prune_shrinks d now : shrinks d (prune d now).
Proof.
  unfold prune. etrans; [|apply shrinks_retain_clients]. etrans; [|apply shrinks_retain_grants].
  etrans; [apply shrinks_keep_authorizations|apply shrinks_keep_tokens].
Qed.

Lemma touch_shrinks d g now i : shrinks d (touch_grant d g now i).
Proof.
  unfold touch_grant. destruct (grants d !! g) as [row|] eqn:Hg; [|done].
  destruct (match g_last_used_at row with None => _ | Some _ => _ end); [|done].
  split; cbn; [done|eauto| |done|].
  - intros g' r [[<- <-]|[_ Hr]]%lookup_insert_Some; [|eauto 10]. exists row. by rewrite Hg.
  - intros Hk x t Ht. apply lookup_insert_is_Some. destruct (decide (g = t_grant_id t)); eauto.
Qed.

(** The outcome of inserting a pair: both hashes are new and the grant exists. *)
Lemma insert_token_pair_Some d g ts d' :
  insert_token_pair d g ts = Some d' ->
  is_Some (grants d !! g) /\
  d' = with_tokens d (<[refresh_hash ts := new_token g "refresh" (refresh_expires_at ts)]>
                        (<[access_hash ts := new_token g "access" (access_expires_at ts)]> (tokens d))) /\
  tokens d !! access_hash ts = None /\ tokens d !! refresh_hash ts = None /\
  access_hash ts <> refresh_hash ts.
Proof.
  unfold insert_token_pair. destruct (grants d !! g) as [r|]; [|done]. cbn.
  destruct (tokens d !! access_hash ts) as [|] eqn:Ha; [done|]. cbn.
  destruct (<[access_hash ts := _]> (tokens d) !! refresh_hash ts) as [|] eqn:Hr; [done|].
  intros [= <-]. apply lookup_insert_None in Hr as [? ?]. by split_and!.
Qed.

Lemma insert_token_pair_tokens d g ts d' x t :
  insert_token_pair d g ts = Some d' -> tokens d' !! x = Some t ->
  tokens d !! x = Some t \/
  x = access_hash ts /\ t = new_token g "access" (access_expires_at ts) \/
  x = refresh_hash ts /\ t = new_token g "refresh" (refresh_expires_at ts).
Proof.
  intros (_ & -> & _)%insert_token_pair_Some. cbn.
  intros [[<- <-]|[_ [[<- <-]|[_ ?]]%lookup_insert_Some]]%lookup_insert_Some; auto.
Qed.

(** The successful outcomes of the transactions. *)
Lemma exchange_code_issued d a g ts now d' g' :
  exchange_code d a g ts now = (d', Ok (Issued g')) ->
  g' = g /\ grants d !! g = None /\ is_Some (clients d !! a_client_id a) /\
  exists row tx, authorizations d !! id a = Some row /\ status row = "approved" /\
    timestamp now < a_expires_at row /\ insert_token_pair tx g ts = Some d' /\
    clients tx = clients d /\ tokens tx = tokens d /\
    authorizations tx = <[id a := exchanged row g]> (authorizations d) /\
    grants tx = <[g := {| g_client_id := a_client_id a; g_scope := scope a;
                          g_resource := resource a; g_created_at := timestamp now;
                          g_last_used_at := None; g_revoked_at := None |}]> (grants d).
Proof.
  unfold exchange_code. destruct (grants d !! g) as [|] eqn:Hg; [done|].
  destruct (clients d !! a_client_id a) as [c|] eqn:Hc; [|done]. cbn.
  destruct (authorizations d !! id a) as [row|] eqn:Hr; [|done].
  destruct (String.eqb_spec (status row) "approved") as [Hst|]; [|done].
  destruct (Z.ltb_spec (timestamp now) (a_expires_at row)) as [Hlt|]; [|done]. cbn.
  destruct (insert_token_pair _ g ts) as [tx'|] eqn:Hi; [|done].
  intros [= <- <-]. split_and!; [done|done|by eexists|]. eexists row, _.
  split_and!; [done|done|done|exact Hi|done|done|done|done].
Qed.

Lemma exchange_code_other d a g ts now d' o :
  exchange_code d a g ts now = (d', o) -> (forall g, o <> Ok (Issued g)) -> d' = d.
Proof.
  unfold exchange_code. intros Hx Ho. repeat case_match; simplify_eq; try done; by edestruct Ho.
Qed.

Lemma rotate_refresh_rotated d old g ts now d' :
  rotate_refresh d old g ts now = (d', Ok Rotated) ->
  exists t, tokens d !! old = Some t /\ t_kind t = "refresh" /\ t_revoked_at t = None /\
    insert_token_pair (with_tokens d (<[old := revoke_token (timestamp now) t]> (tokens d))) g ts
      = Some d'.
Proof.
  unfold rotate_refresh. destruct (tokens d !! old) as [t|]; [|done].
  destruct (String.eqb_spec (t_kind t) "refresh") as [Hk|]; [|done].
  case_bool_decide as Hr; [|done]. cbn.
  destruct (insert_token_pair _ g ts) as [tx|] eqn:Hi; [|done]. intros [= <-]. eauto.
Qed.

Lemma rotate_refresh_other d old g ts now d' o :
  rotate_refresh d old g ts now = (d', o) -> o <> Ok Rotated -> d' = d.
Proof. unfold rotate_refresh. intros Hx Ho. by repeat case_match; simplify_eq. Qed.

Lemma resolve_pending_true d i code now d' :
  resolve_pending d i code now = (d', Ok true) ->
  exists a, authorizations d !! i = Some a /\ status a = "pending" /\
    d' = with_authorizations d
           (<[i := match code with
                   | Some (hash, expires) => resolved a "approved" (Some hash) (Some (timestamp expires))
                   | None => resolved a "denied" None None
                   end]> (authorizations d)).
Proof.
  unfold resolve_pending. intros Hx. destruct code as [[hash expires]|];
    (destruct (authorizations d !! i) as [a|] eqn:Ha; [|done];
     destruct (String.eqb_spec (status a) "pending"); [|done]; cbn in Hx;
     destruct (timestamp now <? a_expires_at a); [|done];
     destruct (any_row _ _); [done|]; simplify_eq; eauto).
Qed.

Lemma resolve_pending_other d i code now d' o :
  resolve_pending d i code now = (d', o) -> o <> Ok true -> d' = d.
Proof. unfold resolve_pending. intros Hx Ho. by repeat case_match; simplify_eq. Qed.

Lemma revoke_grant_tokens d g now d' b x t' :
  revoke_grant d g now = (d', b) -> tokens d' !! x = Some t' ->
  exists t, tokens d !! x = Some t /\ t_grant_id t' = t_grant_id t /\ t_kind t' = t_kind t /\
    (t_revoked_at t <> None -> t_revoked_at t' <> None) /\
    (t_grant_id t = g -> t_revoked_at t' <> None).
Proof.
  unfold revoke_grant. intros Hr Ht.
  assert (tokens d' = (fun t => if decide (t_grant_id t = g /\ t_revoked_at t = None)
                                then revoke_token (timestamp now) t else t) <$> tokens d) as Htk.
  { repeat case_match; simplify_eq; done. }
  rewrite Htk, lookup_fmap in Ht. apply fmap_Some in Ht as (t & ? & ->). exists t.
  destruct (decide _) as [|Hn]; [by split_and!|]. split_and!; [done..|].
  intros Hg Hv. by apply Hn.
Qed.

Lemma revoke_grant_grants d g now d' b :
  revoke_grant d g now = (d', b) ->
  clients d' = clients d /\ authorizations d' = authorizations d /\
  (if b then exists r, grants d !! g = Some r /\ g_revoked_at r = None /\
                       grants d' = <[g := revoked (timestamp now) r]> (grants d)
   else grants d' = grants d /\ forall r, grants d !! g = Some r -> g_revoked_at r <> None).
Proof.
  unfold revoke_grant. intros Hr. destruct (grants d !! g) as [r|] eqn:Hg; [|by simplify_eq].
  destruct (g_revoked_at r) eqn:Hv; simplify_eq; cbn; [|by eauto 10].
  split_and!; [done|done|done|congruence].
Qed.

Lemma find_authorization_by_code_Some d hash a :
  find_authorization_by_code d hash = Some a ->
  exists i, authorizations d !! i = Some a /\ code_hash a = Some hash.
Proof.
  unfold find_authorization_by_code. intros ([i b] & Hf & ->)%fmap_Some. cbn.
  apply find_some in Hf as [Hin Hb]. cbn in Hb. exists i. apply bool_decide_eq_true in Hb.
  split; [|done]. by apply elem_of_map_to_list, list_elem_of_In.
Qed.

End McpOAuth.
