(* ===== verification/McpOAuthServer.v ===== *)
(** * The OAuth server for remote MCP clients

    [OAuthServer] is crates/server/src/mcp_oauth (mod.rs, crypto.rs, config.rs and the values
    pages.rs shows): registration, consent, the token endpoint and the check of the reverse
    proxy.  A handler is a [Task]: a tree of statements on the database of [McpOAuth], clock
    readings and random draws, so that requests can interleave between any two statements.
    The url crate, SHA-256 and the base64 codecs are the class [WebLibs]. *)
From S2P Require Import Prelude Text Format Redact McpOAuth.
From Stdlib Require Import Ascii.
Import McpOAuth.

(** The url crate's [Host], with whether an address is a loopback address. *)
Inductive Host :=
| HostDomain (domain : string)
| HostIpv4 (address : string) (loopback : bool)
| HostIpv6 (address : string) (loopback : bool).

Class WebLibs := {
  Url : Type;
  url_parse : string -> option Url;
  url_scheme : Url -> string;
  url_host : Url -> option Host;
  url_host_str : Url -> option string;
  url_username : Url -> string;
  url_password : Url -> option string;
  url_path : Url -> string;
  url_query : Url -> option string;
  url_fragment : Url -> option string;
  url_as_str : Url -> string;
  (** [url.query_pairs_mut().append_pair] for each pair. *)
  url_append_pairs : Url -> list (string * string) -> Url;
  (** [HeaderValue::from_str(s).is_ok()] *)
  header_value_ok : string -> bool;
  (** The value of the first pair [form_urlencoded::parse] gives. *)
  form_urlencoded_first : string -> option string;
  b64_url_encode : string -> string;
  b64_standard_decode : string -> option string;
  utf8_ok : string -> bool;
  sha256 : string -> string;
  (** [serde_json] of a list of strings. *)
  uris_to_json : list string -> string;
  uris_of_json : string -> option (list string);
}.

(** A list of strings comes back from its JSON. *)
Class WebLaws `{!WebLibs} : Prop := {
  uris_json_roundtrip l : uris_of_json (uris_to_json l) = Some l;
}.

Module OAuthServer.

Definition eq_ignore_ascii_case (a b : string) : bool :=
  String.eqb (to_ascii_lowercase a) (to_ascii_lowercase b).

(* crates/server/src/mcp_oauth/mod.rs:42 SCOPE *)
Definition SCOPE : string := "mcp".
(* crates/server/src/mcp_oauth/mod.rs:43 CONSENT_TTL *)
Definition CONSENT_TTL : Duration := minutes 10.
(* crates/server/src/mcp_oauth/mod.rs:44 CODE_TTL *)
Definition CODE_TTL : Duration := from_secs 60.
(* crates/server/src/mcp_oauth/mod.rs:45 ACCESS_TTL *)
Definition ACCESS_TTL : Duration := hours 1.
(* crates/server/src/mcp_oauth/mod.rs:46 REFRESH_TTL *)
Definition REFRESH_TTL : Duration := days 30.
(* crates/server/src/mcp_oauth/mod.rs:47 TOUCH_INTERVAL *)
Definition TOUCH_INTERVAL : Duration := minutes 1.
(* crates/server/src/mcp_oauth/mod.rs:49 MAX_CLIENTS *)
Definition MAX_CLIENTS : Z := 200.
(* crates/server/src/mcp_oauth/mod.rs:52 MAX_REDIRECT_URIS *)
Definition MAX_REDIRECT_URIS : Z := 10.
(* crates/server/src/mcp_oauth/mod.rs:53 MAX_URI_LEN *)
Definition MAX_URI_LEN : Z := 2048.
(* crates/server/src/mcp_oauth/mod.rs:54 MAX_CLIENT_NAME_CHARS *)
Definition MAX_CLIENT_NAME_CHARS : Z := 200.
(* crates/server/src/mcp_oauth/mod.rs:55 MAX_STATE_LEN *)
Definition MAX_STATE_LEN : Z := 1024.

(** ** Pages *)

(** The double quote. *)
Definition dq : string := String "034"%char "".

(* crates/server/src/mcp_oauth/pages.rs:9-15 html_escape *)
Definition html_escape (s : string) : string :=
  let s := replace "&" "&amp;" s in
  let s := replace "<" "&lt;" s in
  let s := replace ">" "&gt;" s in
  let s := replace dq "&quot;" s in
  replace "'" "&#39;" s.

(* crates/server/src/mcp_oauth/pages.rs:68-74 ConsentView *)
Record ConsentView := {
  v_client_name : option string;
  v_client_id : string;
  v_redirect_uri : string;
  v_request_id : string;
  v_consent : string;
}.

(** What [consent_page] writes into its HTML. *)
Record ConsentPageText := {
  p_name : string;
  p_destination : string;
  p_client_id : string;
  p_request_id : string;
  p_consent : string;
}.

(* crates/server/src/mcp_oauth/mod.rs:173-187 RegistrationResponse *)
Record RegistrationResponse := {
  rr_client_id : string;
  rr_client_secret : option string;
  rr_client_name : option string;
  rr_redirect_uris : list string;
  rr_token_endpoint_auth_method : string;
}.

(** The answers of the handlers; statuses are written out. *)
Inductive Response :=
| NotFound
| ErrorPage (status : Z) (message : string)
| Found (location : string)
| ConsentPage (page : ConsentPageText)
| OAuthError (status : Z) (code description : string) (basic_challenge : bool)
| Created (r : RegistrationResponse)
| Tokens (access_token refresh_token : string)
| Unauthorized (presented : bool)
| NoContent
| Grants (grants : list McpOAuthGrantSummary)
| Success
| NoLiveGrant.

(** ** Tasks *)

(** Statements of [McpOAuth], by the type of their answer. *)
Inductive query : Set -> Set :=
| Prune (now : DateTime) : query unit
| InsertClient (client : NewMcpOAuthClient) (now : DateTime) (max_clients : Z) : query bool
| FindClient (client_id : string) : query (option McpOAuthClient)
| InsertAuthorization (n : NewMcpOAuthAuthorization) (now : DateTime) : query unit
| FindAuthorization (id : string) : query (option McpOAuthAuthorization)
| FindAuthorizationByCode (hash : string) : query (option McpOAuthAuthorization)
| ResolvePending (id : string) (code : option (string * DateTime)) (now : DateTime) : query bool
| ExchangeCode (a : McpOAuthAuthorization) (g : string) (ts : IssuedTokenHashes) (now : DateTime)
    : query ExchangeOutcome
| ExchangedGrant (authorization_id : string) : query (option (option string))
| RevokeGrant (g : string) (now : DateTime) : query bool
| FindToken (hash : string) : query (option McpOAuthTokenRecord)
| RotateRefresh (old g : string) (ts : IssuedTokenHashes) (now : DateTime) : query RotateOutcome
| TouchGrant (g : string) (now : DateTime) (min_interval : Duration) : query unit
| ListLiveGrants : query (list McpOAuthGrantSummary).

Inductive Task :=
| Respond (r : Response)
| Ask {R : Set} (q : query R) (k : result R DbError -> Task)
| Now (k : DateTime -> Task)
| Random (bytes : nat) (k : string -> Task)
| NewUuid (k : string -> Task).

Notation "'ask!' x := q 'in' t" := (Ask q (fun x => t))
  (at level 10, x pattern, q at level 100, t at level 200) : vk_scope.
Notation "'now!' x 'in' t" := (Now (fun x => t)) (at level 10, x name, t at level 200) : vk_scope.
Notation "'uuid!' x 'in' t" := (NewUuid (fun x => t)) (at level 10, x name, t at level 200)
  : vk_scope.

(* crates/server/src/mcp_oauth/mod.rs:614-622 token_error *)
Definition token_error (status : Z) (code description : string) : Response :=
  OAuthError status code description false.

(* crates/server/src/mcp_oauth/mod.rs:624-626 invalid_grant *)
Definition invalid_grant (description : string) : Response :=
  token_error 400 "invalid_grant" description.

(* crates/server/src/mcp_oauth/mod.rs:628-640 server_error *)
Definition server_error : Response :=
  OAuthError 503 "temporarily_unavailable"
    "the authorization server could not complete the request; retry shortly" false.

(* crates/server/src/mcp_oauth/mod.rs:189-197 registration_error *)
Definition registration_error (code description : string) : Response :=
  OAuthError 400 code description false.

Section Server.
Context `{Libs : !WebLibs}.

(** ** crypto.rs *)

(* crates/server/src/mcp_oauth/crypto.rs:7-11 random_secret *)
Definition random_secret (bytes : nat) (k : string -> Task) : Task :=
  Random bytes (fun buf => k (b64_url_encode buf)).

(* crates/server/src/mcp_oauth/crypto.rs:14-16 random_token *)
Definition random_token (k : string -> Task) : Task := random_secret 32 k.

(* crates/server/src/mcp_oauth/crypto.rs:18-20 digest *)
Definition digest (secret : string) : string := sha256 secret.

(* crates/server/src/mcp_oauth/crypto.rs:22-24 digest_matches *)
Definition digest_matches (secret expected : string) : bool := String.eqb (digest secret) expected.

Definition is_ascii_alphanumeric (c : ascii) : bool :=
  let n := N_of_ascii c in
  ((48 <=? n) && (n <=? 57) || (65 <=? n) && (n <=? 90) || (97 <=? n) && (n <=? 122))%N.

(* crates/server/src/mcp_oauth/crypto.rs:27-32 is_valid_code_verifier *)
Definition is_valid_code_verifier (verifier : string) : bool :=
  (43 <=? str_len verifier) && (str_len verifier <=? 128)
  && all_chars (fun b => is_ascii_alphanumeric b || Ascii.eqb b "-" || Ascii.eqb b "."
                         || Ascii.eqb b "_" || Ascii.eqb b "~") verifier.

(* crates/server/src/mcp_oauth/crypto.rs:36-41 is_valid_s256_challenge *)
Definition is_valid_s256_challenge (challenge : string) : bool :=
  (str_len challenge =? 43)
  && all_chars (fun b => is_ascii_alphanumeric b || Ascii.eqb b "-" || Ascii.eqb b "_") challenge.

(* crates/server/src/mcp_oauth/crypto.rs:43-45 s256_challenge *)
Definition s256_challenge (verifier : string) : string := b64_url_encode (sha256 verifier).

(* crates/server/src/mcp_oauth/crypto.rs:47-54 pkce_matches *)
Definition pkce_matches (verifier challenge : string) : bool :=
  is_valid_code_verifier verifier && String.eqb (s256_challenge verifier) challenge.

(** ** config.rs *)

(* crates/server/src/mcp_oauth/config.rs:11-14 McpOAuthConfig *)
Record McpOAuthConfig := { issuer : string }.

(* crates/server/src/mcp_oauth/config.rs:8 RESOURCE_PATH *)
Definition RESOURCE_PATH : string := "/oauth/mcp".

(* crates/server/src/mcp_oauth/config.rs:73-80 is_loopback *)
Definition is_loopback (url : Url) : bool :=
  match url_host url with
  | Some (HostDomain domain) => eq_ignore_ascii_case domain "localhost"
  | Some (HostIpv4 _ loopback) => loopback
  | Some (HostIpv6 _ loopback) => loopback
  | None => false
  end.

(** [trim_end_matches('/')] *)
Fixpoint trim_end_slashes (s : string) : string :=
  match s with
  | "" => ""
  | String c s =>
      match trim_end_slashes s with
      | "" => if Ascii.eqb c "/" then "" else String c ""
      | t => String c t
      end
  end.

(* crates/server/src/mcp_oauth/config.rs:34-55 McpOAuthConfig::parse *)
Definition parse (raw : string) : result McpOAuthConfig string :=
  let? url := ok_or (url_parse (trim raw)) "not an absolute URL" in
  let? _ := (if String.eqb (url_scheme url) "https" then Ok tt
             else if String.eqb (url_scheme url) "http" && is_loopback url then Ok tt
             else Err "must be https (or http on a loopback host)") in
  if bool_decide (url_host url = None) then Err "missing host"
  else if negb (String.eqb (url_username url) "") || bool_decide (is_Some (url_password url)) then
    Err "must not contain credentials"
  else if bool_decide (is_Some (url_query url)) || bool_decide (is_Some (url_fragment url)) then
    Err "must not contain a query or fragment"
  else if negb (String.eqb (url_path url) "" || String.eqb (url_path url) "/") then
    Err "must be an origin without a path"
  else Ok {| issuer := trim_end_slashes (url_as_str url) |}.

(* crates/server/src/mcp_oauth/config.rs:17-29 McpOAuthConfig::from_env *)
Definition from_env (var : option string) : option McpOAuthConfig :=
  raw ← var;
  if String.eqb (trim raw) "" then None
  else match parse raw with Ok config => Some config | Err _ => None end.

(* crates/server/src/mcp_oauth/config.rs:57-59 McpOAuthConfig::resource *)
Definition resource (config : McpOAuthConfig) : string := issuer config +:+ RESOURCE_PATH.

(** ** pages.rs *)

(* crates/server/src/mcp_oauth/pages.rs:76-104 consent_page *)
Definition consent_page (view : ConsentView) : Response :=
  let name := default "An unnamed application" (v_client_name view) in
  let destination :=
    default (v_redirect_uri view) (url ← url_parse (v_redirect_uri view); url_host_str url) in
  ConsentPage {| p_name := html_escape name;
                 p_destination := html_escape destination;
                 p_client_id := html_escape (v_client_id view);
                 p_request_id := html_escape (v_request_id view);
                 p_consent := html_escape (v_consent view) |}.

(** ** Registration *)

(* crates/server/src/mcp_oauth/mod.rs:164-170 RegistrationRequest *)
Record RegistrationRequest := {
  rq_redirect_uris : option (list string);
  rq_client_name : option string;
  rq_token_endpoint_auth_method : option string;
  rq_grant_types : option (list string);
  rq_response_types : option (list string);
}.

(* crates/server/src/mcp_oauth/mod.rs:161 AUTH_METHODS *)
Definition AUTH_METHODS : list string := ["none"; "client_secret_post"; "client_secret_basic"].

(* crates/server/src/mcp_oauth/mod.rs:201-214 validate_redirect_uri *)
Definition validate_redirect_uri (raw : string) : result unit string :=
  if MAX_URI_LEN <? str_len raw then Err "redirect_uri is too long"
  else
    let? url := ok_or (url_parse raw) "redirect_uri must be an absolute URL" in
    if bool_decide (is_Some (url_fragment url)) then Err "redirect_uri must not contain a fragment"
    else if String.eqb (url_scheme url) "https" && bool_decide (is_Some (url_host url)) then Ok tt
    else if String.eqb (url_scheme url) "http" && is_loopback url then Ok tt
    else Err "redirect_uri must use https (or http on a loopback host)".

(* crates/server/src/mcp_oauth/mod.rs:216-220 ValidRegistration *)
Record ValidRegistration := {
  vr_redirect_uris : list string;
  vr_client_name : option string;
  vr_method : string;
}.

Fixpoint validate_redirect_uris (uris : list string) : result unit (string * string) :=
  match uris with
  | [] => Ok tt
  | uri :: uris =>
      let? _ := map_err (fun reason => ("invalid_redirect_uri", reason)) (validate_redirect_uri uri) in
      validate_redirect_uris uris
  end.

(** The control characters of Unicode: U+0000-U+001F and U+007F-U+009F. *)
Definition is_control (c : string) : bool :=
  match c with
  | String a "" => ((N_of_ascii a <? 32) || (N_of_ascii a =? 127))%N
  | String a (String b "") => ((N_of_ascii a =? 194) && (128 <=? N_of_ascii b) && (N_of_ascii b <? 160))%N
  | _ => false
  end.

(* crates/server/src/mcp_oauth/mod.rs:225-284 validate_registration *)
Definition validate_registration (request : RegistrationRequest)
    : result ValidRegistration (string * string) :=
  let redirect_uris := default [] (rq_redirect_uris request) in
  if bool_decide (redirect_uris = []) || (MAX_REDIRECT_URIS <? Z.of_nat (length redirect_uris)) then
    Err ("invalid_redirect_uri", "between 1 and 10 redirect_uris are required")
  else
  let? _ := validate_redirect_uris redirect_uris in
  let grant_types := default ["authorization_code"] (rq_grant_types request) in
  if negb (existsb (String.eqb "authorization_code") grant_types)
     || existsb (fun g => negb (String.eqb g "authorization_code") && negb (String.eqb g "refresh_token"))
                grant_types then
    Err ("invalid_client_metadata",
         "grant_types must be authorization_code (optionally with refresh_token)")
  else if existsb (fun r => negb (String.eqb r "code")) (default [] (rq_response_types request)) then
    Err ("invalid_client_metadata", "only the code response type is supported")
  else
  let method := default "client_secret_basic" (rq_token_endpoint_auth_method request) in
  if negb (existsb (String.eqb method) AUTH_METHODS) then
    Err ("invalid_client_metadata",
         "token_endpoint_auth_method must be none, client_secret_post or client_secret_basic")
  else
  let? client_name :=
    match trim <$> rq_client_name request with
    | None | Some "" => Ok None
    | Some name =>
        if MAX_CLIENT_NAME_CHARS <? Z.of_nat (length (chars name)) then
          Err ("invalid_client_metadata", "client_name is too long")
        else Ok (Some (sconcat (List.filter (fun c => negb (is_control c)) (chars name))))
    end in
  Ok {| vr_redirect_uris := redirect_uris; vr_client_name := client_name; vr_method := method |}.

(** The body is [None] when it is not the JSON of a request. *)
(* crates/server/src/mcp_oauth/mod.rs:286-353 register *)
Definition register (enabled : option McpOAuthConfig) (body : option RegistrationRequest) : Task :=
  match enabled with None => Respond NotFound | Some _ =>
  match body with
  | None => Respond (registration_error "invalid_client_metadata"
                       "the registration body must be a JSON object")
  | Some request =>
  match validate_registration request with
  | Err (code, description) => Respond (registration_error code description)
  | Ok valid =>
  now! now in
  ask! pruned := Prune now in
  match pruned with Err _ => Respond server_error | Ok _ =>
  random_secret 16 (fun client_id =>
  let with_secret (client_secret : option string) :=
    ask! inserted := InsertClient
      {| nc_client_id := client_id;
         nc_client_secret_hash := digest <$> client_secret;
         nc_token_endpoint_auth_method := vr_method valid;
         nc_client_name := vr_client_name valid;
         nc_redirect_uris := vr_redirect_uris valid |} now MAX_CLIENTS in
    match inserted with
    | Ok true =>
        Respond (Created {| rr_client_id := client_id; rr_client_secret := client_secret;
                            rr_client_name := vr_client_name valid;
                            rr_redirect_uris := vr_redirect_uris valid;
                            rr_token_endpoint_auth_method := vr_method valid |})
    | Ok false =>
        Respond (registration_error "invalid_client_metadata"
          "the client registration limit has been reached; revoke unused connections and retry later")
    | Err _ => Respond server_error
    end in
  if String.eqb (vr_method valid) "none" then with_secret None
  else random_token (fun secret => with_secret (Some secret)))
  end end end end.

(** ** Authorization *)

(* crates/server/src/mcp_oauth/mod.rs:359-368 AuthorizeQuery *)
Record AuthorizeQuery := {
  aq_response_type : option string;
  aq_client_id : option string;
  aq_redirect_uri : option string;
  aq_code_challenge : option string;
  aq_code_challenge_method : option string;
  aq_state : option string;
  aq_scope : option string;
  aq_resource : option string;
}.

(* crates/server/src/mcp_oauth/mod.rs:371-387 redirect_with *)
Definition redirect_with (redirect_uri : string) (params : list (string * string)) : Response :=
  match url_parse redirect_uri with
  | None => ErrorPage 400 "The redirect URI is invalid."
  | Some url =>
      let location := url_as_str (url_append_pairs url params) in
      if header_value_ok location then Found location
      else ErrorPage 400 "The redirect URI is invalid."
  end.

(* crates/server/src/mcp_oauth/mod.rs:389-402 redirect_error *)
Definition redirect_error (config : McpOAuthConfig) (redirect_uri : string) (state : option string)
    (error description : string) : Response :=
  let params := [("error", error); ("error_description", description)] in
  let params := match state with Some st => params ++ [("state", st)] | None => params end in
  redirect_with redirect_uri (params ++ [("iss", issuer config)]).

(* crates/server/src/mcp_oauth/mod.rs:405-407 scope_is_supported *)
Definition scope_is_supported (scope : option string) : bool :=
  match scope with
  | None => true
  | Some scope => forallb (fun s => String.eqb s SCOPE) (split_whitespace scope)
  end.

Definition is_some_and {A} (f : A -> bool) (o : option A) : bool :=
  match o with Some a => f a | None => false end.

(** The part of [authorize_page] after its checks. *)
(* crates/server/src/mcp_oauth/mod.rs:481-514 authorize_page *)
Definition store_request (config : McpOAuthConfig) (query : AuthorizeQuery) (client : McpOAuthClient)
    (redirect_uri code_challenge : string) : Task :=
  now! now in
  ask! pruned := Prune now in
  match pruned with Err _ => Respond server_error | Ok _ =>
  uuid! request_id in
  random_token (fun consent =>
  ask! stored := InsertAuthorization
    {| na_id := request_id; na_client_id := client_id client; na_redirect_uri := redirect_uri;
       na_code_challenge := code_challenge; na_scope := SCOPE; na_resource := resource config;
       na_state := aq_state query; na_consent_hash := digest consent;
       na_expires_at := now + CONSENT_TTL |} now in
  match stored with
  | Err _ => Respond server_error
  | Ok _ =>
      Respond (consent_page {| v_client_name := client_name client; v_client_id := client_id client;
                               v_redirect_uri := redirect_uri; v_request_id := request_id;
                               v_consent := consent |})
  end)
  end.

(* crates/server/src/mcp_oauth/mod.rs:409-515 authorize_page *)
Definition authorize_page (enabled : option McpOAuthConfig) (query : AuthorizeQuery) : Task :=
  match enabled with None => Respond NotFound | Some config =>
  match aq_client_id query with
  | None => Respond (ErrorPage 400 "The request has no client_id.")
  | Some client_id =>
  ask! found := FindClient client_id in
  match found with
  | Err _ => Respond server_error
  | Ok None => Respond (ErrorPage 400
      "This application is not registered (or its registration expired).")
  | Ok (Some client) =>
  let registered := redirect_uris uris_of_json client in
  let redirect_uri :=
    match aq_redirect_uri query with
    | Some uri => if existsb (fun r => String.eqb r uri) registered then Some uri else None
    | None => match registered with [uri] => Some uri | _ => None end
    end in
  match redirect_uri with
  | None => Respond (ErrorPage 400
      "The redirect URI does not match the application's registration.")
  | Some redirect_uri =>
  let fail error description :=
    Respond (redirect_error config redirect_uri (aq_state query) error description) in
  if is_some_and (fun s => MAX_STATE_LEN <? str_len s) (aq_state query) then
    Respond (redirect_error config redirect_uri None "invalid_request" "state is too long")
  else if negb (bool_decide (aq_response_type query = Some "code")) then
    fail "unsupported_response_type" "response_type must be code"
  else
  match aq_code_challenge query with
  | None => fail "invalid_request" "a valid PKCE code_challenge is required"
  | Some code_challenge =>
  if negb (is_valid_s256_challenge code_challenge) then
    fail "invalid_request" "a valid PKCE code_challenge is required"
  else if negb (bool_decide (aq_code_challenge_method query = Some "S256")) then
    fail "invalid_request" "code_challenge_method must be S256"
  else if negb (scope_is_supported (aq_scope query)) then
    fail "invalid_scope" "only the mcp scope is supported"
  else if is_some_and (fun r => negb (String.eqb r (resource config))) (aq_resource query) then
    fail "invalid_target" "resource must be this server's MCP endpoint"
  else store_request config query client redirect_uri code_challenge
  end end end end end.

(* crates/server/src/mcp_oauth/mod.rs:518-522 ConsentForm *)
Record ConsentForm := { request_id : string; consent : string; decision : string }.

(* crates/server/src/mcp_oauth/mod.rs:524-589 authorize_decision *)
Definition authorize_decision (enabled : option McpOAuthConfig) (form : option ConsentForm) : Task :=
  match enabled with None => Respond NotFound | Some config =>
  match form with
  | None => Respond (ErrorPage 400 "The approval form was incomplete.")
  | Some form =>
  let rejected :=
    Respond (ErrorPage 400 "This approval link is invalid, expired or was already used.") in
  ask! found := FindAuthorization (request_id form) in
  match found with
  | Err _ => Respond server_error
  | Ok None => rejected
  | Ok (Some authorization) =>
  if negb (digest_matches (consent form) (consent_hash authorization)) then rejected else
  now! now in
  let resolve (code : option string) :=
    ask! resolved := ResolvePending (id authorization)
                       ((fun c => (digest c, now + CODE_TTL)) <$> code) now in
    match resolved with
    | Err _ => Respond server_error
    | Ok false => rejected
    | Ok true =>
        match code with
        | Some code =>
            let params := [("code", code)] in
            let params := match state authorization with
                          | Some st => params ++ [("state", st)]
                          | None => params
                          end in
            Respond (redirect_with (redirect_uri authorization) (params ++ [("iss", issuer config)]))
        | None =>
            Respond (redirect_error config (redirect_uri authorization) (state authorization)
                       "access_denied" "the owner denied the request")
        end
    end in
  if String.eqb (decision form) "approve" then random_token (fun code => resolve (Some code))
  else if String.eqb (decision form) "deny" then resolve None
  else Respond (ErrorPage 400 "Unknown decision.")
  end end end.

(** ** Tokens *)

(* crates/server/src/mcp_oauth/mod.rs:595-605 TokenRequest *)
Record TokenRequest := {
  grant_type : option string;
  code : option string;
  tr_redirect_uri : option string;
  code_verifier : option string;
  refresh_token : option string;
  tr_client_id : option string;
  client_secret : option string;
  tr_scope : option string;
  tr_resource : option string;
}.

(** The argument is the text of the Authorization header, if there is one. *)
(* crates/server/src/mcp_oauth/mod.rs:643-657 basic_credentials *)
Definition basic_credentials (authorization : option string) : option (string * string) :=
  value ← authorization;
  '(scheme, encoded) ← split_once " "%char value;
  if negb (eq_ignore_ascii_case scheme "basic") then None
  else
    decoded ← b64_standard_decode (trim encoded);
    if negb (utf8_ok decoded) then None
    else
      '(id, secret) ← split_once ":"%char decoded;
      let unescape s := form_urlencoded_first ("v=" +:+ s) in
      id ← unescape id;
      secret ← unescape secret;
      Some (id, secret).

(* crates/server/src/mcp_oauth/mod.rs:695-704 invalid_client *)
Definition invalid_client (used_basic : bool) (description : string) : Response :=
  OAuthError 401 "invalid_client" description used_basic.

(** The client's own check, once its identifier is known. *)
(* crates/server/src/mcp_oauth/mod.rs:679-692 authenticate_client *)
Definition check_secret (used_basic : bool) (id : string) (secret : option string)
    (k : string -> Task) : Task :=
  ask! found := FindClient id in
  match found with
  | Err _ => Respond server_error
  | Ok None => Respond (invalid_client used_basic "unknown client")
  | Ok (Some client) =>
      let authenticated :=
        match client_secret_hash client, secret with
        | None, None => true
        | Some hash, Some secret => digest_matches secret hash
        | _, _ => false
        end in
      if negb authenticated then
        Respond (invalid_client used_basic "client authentication failed")
      else k (client_id client)
  end.

(* crates/server/src/mcp_oauth/mod.rs:661-693 authenticate_client *)
Definition authenticate_client (authorization : option string) (request : TokenRequest)
    (k : string -> Task) : Task :=
  let basic := basic_credentials authorization in
  let used_basic := bool_decide (is_Some basic) in
  match basic, tr_client_id request with
  | Some (id, secret), Some body_id =>
      if negb (String.eqb id body_id) then
        Respond (invalid_client used_basic "client_id does not match the credentials")
      else check_secret used_basic id (Some secret) k
  | Some (id, secret), None => check_secret used_basic id (Some secret) k
  | None, Some id => check_secret used_basic id (client_secret request) k
  | None, None => Respond (invalid_client false "client authentication is required")
  end.

(* crates/server/src/mcp_oauth/mod.rs:706-709 IssuedTokens *)
Record IssuedTokens := { access_token : string; t_refresh_token : string }.

(* crates/server/src/mcp_oauth/mod.rs:712-717 IssuedTokens::mint *)
Definition mint (k : IssuedTokens -> Task) : Task :=
  random_token (fun access => random_token (fun refresh =>
    k {| access_token := access; t_refresh_token := refresh |})).

(* crates/server/src/mcp_oauth/mod.rs:723-734 IssuedTokens::response *)
Definition response (tokens : IssuedTokens) : Response :=
  Tokens (access_token tokens) (t_refresh_token tokens).

(* crates/server/src/mcp_oauth/mod.rs:737-748 token_hashes *)
Definition token_hashes (tokens : IssuedTokens) (now : DateTime) : IssuedTokenHashes :=
  {| access_hash := digest (access_token tokens); access_expires_at := now + ACCESS_TTL;
     refresh_hash := digest (t_refresh_token tokens); refresh_expires_at := now + REFRESH_TTL |}.

Definition ALREADY_USED : string := "the authorization code was already used".
Definition REUSED : string := "the refresh token was already used; reconnect the application".

(* crates/server/src/mcp_oauth/mod.rs:859-873 code_replayed *)
Definition code_replayed (authorization_id : string) (now : DateTime) : Task :=
  ask! grant := ExchangedGrant authorization_id in
  match grant with
  | Err _ => Respond server_error
  | Ok (Some (Some g)) =>
      ask! revoked := RevokeGrant g now in
      match revoked with
      | Err _ => Respond server_error
      | Ok _ => Respond (invalid_grant ALREADY_USED)
      end
  | Ok _ => Respond (invalid_grant ALREADY_USED)
  end.

(* crates/server/src/mcp_oauth/mod.rs:798-856 exchange_code *)
Definition exchange_code (client_id : string) (request : TokenRequest) : Task :=
  match code request, tr_redirect_uri request, code_verifier request with
  | Some code, Some redirect_uri_, Some verifier =>
      now! now in
      ask! found := FindAuthorizationByCode (digest code) in
      match found with
      | Err _ => Respond server_error
      | Ok None => Respond (invalid_grant "the authorization code is invalid")
      | Ok (Some authorization) =>
      if negb (String.eqb (a_client_id authorization) client_id)
         || negb (String.eqb (redirect_uri authorization) redirect_uri_)
         || negb (pkce_matches verifier (code_challenge authorization)) then
        Respond (invalid_grant
          "the authorization code does not match this client, redirect_uri or code_verifier")
      else if String.eqb (status authorization) "exchanged" then
        code_replayed (id authorization) now
      else if negb (String.eqb (status authorization) "approved")
              || (a_expires_at authorization <=? timestamp now) then
        Respond (invalid_grant "the authorization code has expired")
      else
      mint (fun tokens =>
      uuid! grant_id in
      ask! outcome := ExchangeCode authorization grant_id (token_hashes tokens now) now in
      match outcome with
      | Ok (Issued _) => Respond (response tokens)
      | Ok NotApproved => code_replayed (id authorization) now
      | Err _ => Respond server_error
      end)
      end
  | _, _, _ => Respond (token_error 400 "invalid_request"
                          "code, redirect_uri and code_verifier are required")
  end.

(* crates/server/src/mcp_oauth/mod.rs:875-923 refresh *)
Definition refresh (client_id : string) (request : TokenRequest) : Task :=
  match refresh_token request with
  | None => Respond (token_error 400 "invalid_request" "refresh_token is required")
  | Some refresh_token =>
  now! now in
  let refresh_hash := digest refresh_token in
  ask! found := FindToken refresh_hash in
  match found with
  | Err _ => Respond server_error
  | Ok None => Respond (invalid_grant "the refresh token is invalid")
  | Ok (Some record) =>
  if negb (String.eqb (kind record) "refresh" && String.eqb (r_client_id record) client_id) then
    Respond (invalid_grant "the refresh token is invalid")
  else
  let revoke_for_reuse :=
    ask! revoked := RevokeGrant (grant_id record) now in
    match revoked with
    | Ok _ => Respond (invalid_grant REUSED)
    | Err _ => Respond server_error
    end in
  if bool_decide (is_Some (revoked_at record)) then revoke_for_reuse
  else if bool_decide (is_Some (grant_revoked_at record)) || (expires_at record <=? timestamp now) then
    Respond (invalid_grant
      "the refresh token has expired or was revoked; reconnect the application")
  else
  mint (fun tokens =>
  ask! outcome := RotateRefresh refresh_hash (grant_id record) (token_hashes tokens now) now in
  match outcome with
  | Ok Rotated => Respond (response tokens)
  | Ok AlreadyRevoked => revoke_for_reuse
  | Err _ => Respond server_error
  end)
  end end.

(** The form is [None] when it is not urlencoded parameters. *)
(* crates/server/src/mcp_oauth/mod.rs:750-796 token *)
Definition token (enabled : option McpOAuthConfig) (authorization : option string)
    (form : option TokenRequest) : Task :=
  match enabled with None => Respond NotFound | Some config =>
  match form with
  | None => Respond (token_error 400 "invalid_request"
      "the body must be application/x-www-form-urlencoded token parameters")
  | Some request =>
  authenticate_client authorization request (fun client_id =>
  if is_some_and (fun r => negb (String.eqb r (resource config))) (tr_resource request) then
    Respond (token_error 400 "invalid_target" "resource must be this server's MCP endpoint")
  else if negb (scope_is_supported (tr_scope request)) then
    Respond (token_error 400 "invalid_scope" "only the mcp scope is supported")
  else if bool_decide (grant_type request = Some "authorization_code") then
    exchange_code client_id request
  else if bool_decide (grant_type request = Some "refresh_token") then
    refresh client_id request
  else Respond (token_error 400 "unsupported_grant_type"
         "grant_type must be authorization_code or refresh_token"))
  end end.

(** ** The reverse proxy's check and the owner's management *)

(* crates/server/src/mcp_oauth/mod.rs:928-935 bearer_token *)
Definition bearer_token (authorization : option string) : option string :=
  value ← authorization;
  '(scheme, token) ← split_once " "%char value;
  if eq_ignore_ascii_case scheme "bearer" then
    let token := trim token in
    if String.eqb token "" then None else Some token
  else None.

(* crates/server/src/mcp_oauth/mod.rs:965-986 verify *)
Definition verify (enabled : option McpOAuthConfig) (authorization : option string) : Task :=
  match enabled with None => Respond NotFound | Some config =>
  match bearer_token authorization with
  | None => Respond (Unauthorized false)
  | Some token =>
  now! now in
  ask! found := FindToken (digest token) in
  match found with
  | Err _ => Respond server_error
  | Ok record =>
  match verify_access_token record (resource config) now with
  | None => Respond (Unauthorized true)
  | Some record =>
      ask! _ := TouchGrant (grant_id record) now TOUCH_INTERVAL in
      Respond NoContent
  end end end end.

(* crates/server/src/mcp_oauth/mod.rs:988-998 list_grants *)
Definition list_grants (enabled : option McpOAuthConfig) : Task :=
  match enabled with None => Respond NotFound | Some _ =>
  ask! listed := ListLiveGrants in
  match listed with
  | Ok grants => Respond (Grants grants)
  | Err _ => Respond server_error
  end end.

(* crates/server/src/mcp_oauth/mod.rs:1000-1016 revoke_grant *)
Definition revoke_grant (enabled : option McpOAuthConfig) (id : string) : Task :=
  match enabled with None => Respond NotFound | Some _ =>
  now! now in
  ask! revoked := RevokeGrant id now in
  match revoked with
  | Ok true => Respond Success
  | Ok false => Respond NoLiveGrant
  | Err _ => Respond server_error
  end end.

End Server.
(** ** The escaping of what a page shows *)

(** Every character by its own text. *)
Fixpoint substitute (f : ascii -> string) (s : string) : string :=
  match s with "" => "" | String c s => f c +:+ substitute f s end.

Definition escape_char (c : ascii) : string :=
  if Ascii.eqb c "&" then "&amp;" else if Ascii.eqb c "<" then "&lt;"
  else if Ascii.eqb c ">" then "&gt;" else if Ascii.eqb c "034" then "&quot;"
  else if Ascii.eqb c "'" then "&#39;" else String c "".

Lemma substitute_app f s t : substitute f (s +:+ t) = substitute f s +:+ substitute f t.
Proof. induction s as [|c s IH]; [done|]. rewrite sapp_cons. cbn. by rewrite IH, sapp_assoc. Qed.

Lemma substitute_substitute f g s : substitute g (substitute f s) = substitute (fun c => substitute g (f c)) s.
Proof. induction s as [|c s IH]; [done|]. cbn. by rewrite substitute_app, IH. Qed.

Lemma substitute_ext f g s : (forall c, f c = g c) -> substitute f s = substitute g s.
Proof. intros Hfg. induction s as [|c s IH]; [done|]. cbn. by rewrite Hfg, IH. Qed.

Lemma replace_char c r s :
  replace (String c "") r s = substitute (fun d => if Ascii.eqb d c then r else String d "") s.
Proof.
  induction s as [|d s IH]; [done|]. cbn [substitute]. destruct (Ascii.eqb_spec d c) as [->|Hne].
  - change (String c s) with (String c "" +:+ s). by rewrite replace_match, IH.
  - rewrite replace_skip, IH; [done|]. cbn. by case_decide.
Qed.

(** The five passes of [html_escape] do what one pass does: no text that an earlier pass
    has written is escaped again. *)
Theorem html_escape_is_one_pass s : html_escape s = substitute escape_char s.
Proof.
  unfold html_escape, dq. rewrite !replace_char, !substitute_substitute. apply substitute_ext.
  intros c. unfold escape_char.
  repeat match goal with |- context [Ascii.eqb c ?d] => destruct (Ascii.eqb_spec c d) as [->|] end;
    [reflexivity..|]. cbn.
  repeat match goal with H : c <> ?d |- _ => rewrite (proj2 (Ascii.eqb_neq c d) H); clear H; cbn end.
  done.
Qed.

Lemma escaped_char_absent c s :
  (c = "<" \/ c = ">" \/ c = "034" \/ c = "'")%char -> contains_char c (html_escape s) = false.
Proof.
  intros Hc. rewrite html_escape_is_one_pass. induction s as [|d s IH]; [done|]. cbn.
  rewrite contains_char_app, IH, orb_false_r. unfold escape_char.
  repeat match goal with |- context [Ascii.eqb d ?e] => destruct (Ascii.eqb_spec d e) as [->|] end;
    try (destruct Hc as [-> | [-> | [-> | ->]]]; reflexivity).
  cbn. rewrite orb_false_r. destruct Hc as [-> | [-> | [-> | ->]]]; by apply bool_decide_eq_false_2.
Qed.

(** What the consent page shows of a registration cannot leave the text or the attribute
    it is written in. *)
Theorem consent_page_is_inert `{Libs : !WebLibs} view page c :
  consent_page view = ConsentPage page -> (c = "<" \/ c = ">" \/ c = "034" \/ c = "'")%char ->
  contains_char c (p_name page +:+ p_destination page +:+ p_client_id page +:+
                   p_request_id page +:+ p_consent page) = false.
Proof. intros [= <-] Hc. cbn. by rewrite !contains_char_app, !escaped_char_absent. Qed.

End OAuthServer.
