(* ===== verification/McpOAuthRuns.v ===== *)
(** * Concurrent requests to the OAuth server

    [Machine] runs any number of [OAuthServer]'s handlers against one database, one statement
    at a time; a handler may be dropped at any point and a statement may fail.  The history
    of what the statements did is kept beside the database.  [Backed] is what every row owes
    to the history, proved with a logic of tasks ([safe]); the theorems are about codes,
    revocation, the provenance of an admitted request and where the server redirects. *)
From S2P Require Import Prelude Text Format Redact McpOAuth McpOAuthServer.
From Stdlib Require Import Ascii.
Import McpOAuth OAuthServer.

Module OAuthRuns.

(** What a statement did, as far as later claims depend on it. *)
Inductive event :=
| ClientStored (client : string) (uris : list string)
| RequestStored (id client redirect challenge scope resource : string)
| Approved (id code_hash : string)
| Denied (id : string)
| Exchanged (id grant : string)
| TokenIssued (hash kind grant : string)
| RefreshRotated (hash grant : string)
| GrantRevoked (grant : string).

#[global] Instance event_eq_dec : EqDecision event.
Proof. solve_decision. Defined.

Definition pair_events (ts : IssuedTokenHashes) (g : string) : list event :=
  [TokenIssued (access_hash ts) "access" g; TokenIssued (refresh_hash ts) "refresh" g].

Definition events {R : Set} (q : query R) : result R DbError -> list event :=
  match q in query R return result R DbError -> list event with
  | InsertClient c _ _ => fun a =>
      match a with Ok true => [ClientStored (nc_client_id c) (nc_redirect_uris c)] | _ => [] end
  | InsertAuthorization n _ => fun a =>
      match a with
      | Ok _ => [RequestStored (na_id n) (na_client_id n) (na_redirect_uri n) (na_code_challenge n)
                   (na_scope n) (na_resource n)]
      | Err _ => []
      end
  | ResolvePending id code _ => fun a =>
      match a with
      | Ok true => match code with Some (hash, _) => [Approved id hash] | None => [Denied id] end
      | _ => []
      end
  | ExchangeCode a g ts _ => fun r =>
      match r with Ok (Issued _) => Exchanged (id a) g :: pair_events ts g | _ => [] end
  | RevokeGrant g _ => fun a => match a with Ok true => [GrantRevoked g] | _ => [] end
  | RotateRefresh old g ts _ => fun a =>
      match a with Ok Rotated => RefreshRotated old g :: pair_events ts g | _ => [] end
  | _ => fun _ => []
  end.

Section Machine.
Context `{Libs : !WebLibs}.

(** The statement on the database and its answer. *)
Definition exec {R : Set} (q : query R) (d : Db) : Db * result R DbError :=
  match q in query R return Db * result R DbError with
  | Prune now => (prune d now, Ok tt)
  | InsertClient c now max => insert_client uris_to_json d c now max
  | FindClient i => (d, Ok (find_client d i))
  | InsertAuthorization n _ => insert_authorization d n
  | FindAuthorization i => (d, Ok (find_authorization d i))
  | FindAuthorizationByCode hash => (d, Ok (find_authorization_by_code d hash))
  | ResolvePending i code now => resolve_pending d i code now
  | ExchangeCode a g ts now => McpOAuth.exchange_code d a g ts now
  | ExchangedGrant i => (d, Ok (exchanged_grant d i))
  | RevokeGrant g now => let '(d, b) := McpOAuth.revoke_grant d g now in (d, Ok b)
  | FindToken hash => (d, Ok (find_token d hash))
  | RotateRefresh old g ts now => rotate_refresh d old g ts now
  | TouchGrant g now i => (touch_grant d g now i, Ok tt)
  | ListLiveGrants => (d, Ok (list_live_grants d))
  end.

(** The requests of the two routers. *)
Inductive request :=
| RegisterRequest (body : option RegistrationRequest)
| AuthorizePage (q : AuthorizeQuery)
| AuthorizeDecision (form : option ConsentForm)
| TokenEndpoint (authorization : option string) (form : option TokenRequest)
| Verify (authorization : option string)
| ListGrants
| RevokeOwned (id : string).

Context (enabled : option McpOAuthConfig).

(* crates/server/src/mcp_oauth/mod.rs:78-119 public_router *)
Definition handler (r : request) : Task :=
  match r with
  | RegisterRequest body => register enabled body
  | AuthorizePage q => authorize_page enabled q
  | AuthorizeDecision form => authorize_decision enabled form
  | TokenEndpoint authorization form => token enabled authorization form
  | Verify authorization => verify enabled authorization
  | ListGrants => list_grants enabled
  | RevokeOwned id => OAuthServer.revoke_grant enabled id
  end.

Record machine := {
  db : Db;
  history : list event;
  running : list (option Task);
  (** For each task, its request and the history when it arrived. *)
  arrived : list (request * list event);
}.

Definition start : machine := {| db := empty_db; history := []; running := []; arrived := [] |}.

Definition set_task (m : machine) (i : nat) (t : option Task) : machine :=
  {| db := db m; history := history m; running := <[i := t]> (running m); arrived := arrived m |}.

(** One turn: a request arrives, or the task at an index performs its next operation (whose
    statement fails if [up] is false; the clock shows [clock] and the random source gives
    [bytes]), or it is dropped. *)
Inductive choice :=
| Arrive (r : request)
| Run (i : nat) (up : bool) (clock : DateTime) (bytes : string)
| Drop (i : nat).

Definition run_task (m : machine) (i : nat) (up : bool) (clock : DateTime) (bytes : string)
    (t : Task) : machine :=
  match t with
  | Respond _ => m
  | Ask q k =>
      if up then
        let r := exec q (db m) in
        set_task {| db := r.1; history := history m ++ events q r.2; running := running m;
                    arrived := arrived m |} i (Some (k r.2))
      else set_task m i (Some (k (Err Unavailable)))
  | Now k => set_task m i (Some (k clock))
  | Random _ k | NewUuid k => set_task m i (Some (k bytes))
  end.

Definition turn (m : machine) (c : choice) : machine :=
  match c with
  | Arrive r =>
      {| db := db m; history := history m; running := running m ++ [Some (handler r)];
         arrived := arrived m ++ [(r, history m)] |}
  | Run i up clock bytes =>
      match running m !! i with
      | Some (Some t) => run_task m i up clock bytes t
      | _ => m
      end
  | Drop i => set_task m i None
  end.

Definition runs (cs : list choice) : machine := foldl turn start cs.

(** ** Histories *)

(** What was drawn at random for an event: random values do not repeat in a [fresh]
    history. *)
Definition drawn (e : event) : option (nat * string) :=
  match e with
  | ClientStored c _ => Some (0%nat, c)
  | RequestStored i _ _ _ _ _ => Some (1%nat, i)
  | Exchanged _ g => Some (2%nat, g)
  | TokenIssued x _ _ => Some (3%nat, x)
  | _ => None
  end.

Definition fresh (h : list event) : Prop := NoDup (omap drawn h).

Definition count (f : event -> bool) (h : list event) : nat := length (List.filter f h).

Definition is_stored (i : string) (e : event) : bool :=
  match e with RequestStored j _ _ _ _ _ => String.eqb i j | _ => false end.
Definition is_approved (i : string) (e : event) : bool :=
  match e with Approved j _ => String.eqb i j | _ => false end.
Definition is_denied (i : string) (e : event) : bool :=
  match e with Denied j => String.eqb i j | _ => false end.
Definition is_exchanged (i : string) (e : event) : bool :=
  match e with Exchanged j _ => String.eqb i j | _ => false end.
Definition is_refresh (x : string) (e : event) : bool :=
  match e with TokenIssued y k _ => String.eqb x y && String.eqb k "refresh" | _ => false end.
Definition is_rotated (x : string) (e : event) : bool :=
  match e with RefreshRotated y _ => String.eqb x y | _ => false end.

Lemma count_app f h k : count f (h ++ k) = (count f h + count f k)%nat.
Proof. unfold count. by rewrite List.filter_app, length_app. Qed.

Lemma count_elem f h e : e ∈ h -> f e = true -> (1 <= count f h)%nat.
Proof.
  intros (k1 & k2 & ->)%list_elem_of_split Hf. unfold count. rewrite List.filter_app. cbn.
  rewrite Hf, length_app. cbn. lia.
Qed.

Lemma fresh_app h k : fresh (h ++ k) -> fresh h.
Proof. unfold fresh. rewrite omap_app. by intros [? _]%NoDup_app. Qed.

Lemma fresh_apart h k e e' s :
  fresh (h ++ k) -> e ∈ h -> e' ∈ k -> drawn e = Some s -> drawn e' <> Some s.
Proof.
  unfold fresh. rewrite omap_app. intros (_ & Hd & _)%NoDup_app He He' Hs Hs'.
  apply (Hd s); apply list_elem_of_omap; eauto.
Qed.

Lemma fresh_inj h e e' s : fresh h -> e ∈ h -> e' ∈ h -> drawn e = Some s -> drawn e' = Some s -> e = e'.
Proof.
  intros Hf (k1 & k2 & ->)%list_elem_of_split He' Hs Hs'.
  rewrite cons_middle, app_assoc in Hf. apply elem_of_app in He' as [He'|He'].
  - apply fresh_app in Hf. exfalso. apply (fresh_apart k1 [e] e' e s); set_solver.
  - assert (e' = e \/ e' ∈ k2) as [->|Hk] by set_solver; [done|].
    exfalso. apply (fresh_apart (k1 ++ [e]) k2 e e' s); set_solver.
Qed.

(** Distinct draws count an event at most once. *)
Lemma fresh_count f s h :
  fresh h -> (forall e, f e = true -> drawn e = Some s) -> (count f h <= 1)%nat.
Proof.
  intros Hf Hs. induction h as [|e h IH] using rev_ind; [cbn; lia|].
  rewrite count_app. pose proof (fresh_app _ _ Hf) as Hh. specialize (IH Hh).
  unfold count at 2. cbn. destruct (f e) eqn:Hfe; cbn; [|lia].
  enough (count f h = 0)%nat by lia. unfold count.
  destruct (List.filter f h) as [|e' k] eqn:Hk; [done|]. exfalso.
  assert (In e' (List.filter f h)) as [Hin Hfe']%filter_In by (rewrite Hk; by left).
  apply (fresh_apart h [e] e' e s Hf); [by apply list_elem_of_In|by left|auto|auto].
Qed.

(** ** What the rows owe to the history *)

(** Every event has its cause in the history. *)
Definition owes (h : list event) (e : event) : Prop :=
  match e with
  | ClientStored _ uris => Forall (fun u => validate_redirect_uri u = Ok tt) uris
  | RequestStored _ c u _ sc rs =>
      (exists uris, ClientStored c uris ∈ h /\ u ∈ uris) /\ sc = SCOPE /\
      exists config, enabled = Some config /\ rs = OAuthServer.resource config
  | Approved i _ => exists c u ch sc rs, RequestStored i c u ch sc rs ∈ h
  | Exchanged i _ => exists hash, Approved i hash ∈ h
  | TokenIssued _ _ g | GrantRevoked g => exists i, Exchanged i g ∈ h
  | Denied _ | RefreshRotated _ _ => True
  end.

Definition chain (h : list event) : Prop := forall e, e ∈ h -> owes h e.

Lemma owes_mono h h' e : h ⊆ h' -> owes h e -> owes h' e.
Proof.
  intros Hh. destruct e; cbn; try done.
  - intros ((us & ? & ?) & ?). split; [exists us; auto|done].
  - intros (? & ? & ? & ? & ? & ?). eauto 10.
  - intros []. eauto.
  - intros []. eauto.
  - intros []. eauto.
Qed.

Lemma chain_app h k : chain h -> (forall e, e ∈ k -> owes (h ++ k) e) -> chain (h ++ k).
Proof.
  intros Hc Hk e [He|He]%elem_of_app; [|by apply Hk].
  apply (owes_mono h); [set_solver|by apply Hc].
Qed.

Record rows (d : Db) (h : list event) : Prop := {
  rows_client c r : clients d !! c = Some r ->
    client_id r = c /\ exists uris, redirect_uris_json r = uris_to_json uris /\ ClientStored c uris ∈ h;
  rows_request i a : authorizations d !! i = Some a ->
    id a = i /\
    RequestStored i (a_client_id a) (redirect_uri a) (code_challenge a) (scope a) (McpOAuth.resource a) ∈ h /\
    (forall hash, code_hash a = Some hash -> Approved i hash ∈ h) /\
    (forall g, a_grant_id a = Some g -> Exchanged i g ∈ h) /\
    (status a = "approved" -> is_Some (code_hash a)) /\
    (status a = "exchanged" -> exists g, Exchanged i g ∈ h);
  rows_grant g r : grants d !! g = Some r ->
    (exists i u ch, Exchanged i g ∈ h /\ RequestStored i (g_client_id r) u ch (g_scope r) (g_resource r) ∈ h) /\
    (g_revoked_at r <> None -> GrantRevoked g ∈ h);
  rows_token x t : tokens d !! x = Some t -> TokenIssued x (t_kind t) (t_grant_id t) ∈ h;
}.

(** A grant that admits nobody any more. *)
Definition dead (g : string) (d : Db) : Prop :=
  forall r, grants d !! g = Some r -> g_revoked_at r <> None.

Record alive (d : Db) (h : list event) : Prop := {
  alive_revoked g : GrantRevoked g ∈ h -> dead g d;
  alive_token x t : tokens d !! x = Some t -> dead (t_grant_id t) d -> t_revoked_at t <> None;
  alive_exchanged i a g : authorizations d !! i = Some a -> status a = "exchanged" ->
    Exchanged i g ∈ h -> a_grant_id a = Some g \/ grants d !! g = None;
}.

Definition has_status (d : Db) (i st : string) : nat :=
  match authorizations d !! i with Some a => if String.eqb (status a) st then 1 else 0 | None => 0 end.

Definition rotatable (d : Db) (x : string) : nat :=
  match tokens d !! x with
  | Some t => if String.eqb (t_kind t) "refresh" && bool_decide (t_revoked_at t = None) then 1 else 0
  | None => 0
  end.

Record tallies (d : Db) (h : list event) : Prop := {
  tally_resolved i :
    (count (is_approved i) h + count (is_denied i) h + has_status d i "pending" <= count (is_stored i) h)%nat;
  tally_exchanged i :
    (count (is_exchanged i) h + has_status d i "approved" <= count (is_approved i) h)%nat;
  tally_rotated x : (count (is_rotated x) h + rotatable d x <= count (is_refresh x) h)%nat;
}.

Definition world : Type := Db * list event.

Record inv (w : world) : Prop := {
  inv_chain : chain w.2;
  inv_rows : rows w.1 w.2;
  inv_keys : tokens_have_grants w.1;
  inv_tallies : tallies w.1 w.2;
  inv_alive : fresh w.2 -> alive w.1 w.2;
}.

(** What a statement may be called with. *)
Definition allowed {R : Set} (q : query R) (h : list event) : Prop :=
  match q with
  | InsertClient c _ _ => Forall (fun u => validate_redirect_uri u = Ok tt) (nc_redirect_uris c)
  | InsertAuthorization n _ =>
      (exists uris, ClientStored (na_client_id n) uris ∈ h /\ na_redirect_uri n ∈ uris) /\
      na_scope n = SCOPE /\
      exists config, enabled = Some config /\ na_resource n = OAuthServer.resource config
  | ExchangeCode a _ _ _ =>
      RequestStored (id a) (a_client_id a) (redirect_uri a) (code_challenge a) (scope a)
        (McpOAuth.resource a) ∈ h
  | RotateRefresh old g _ _ => TokenIssued old "refresh" g ∈ h
  | _ => True
  end.

Lemma allowed_mono {R : Set} (q : query R) h h' : h ⊆ h' -> allowed q h -> allowed q h'.
Proof. destruct q; cbn; try done; intros Hh; [|set_solver|set_solver]. intros [(u & ? & ?) ?]. split; [|done]. exists u. set_solver. Qed.

Lemma rows_mono d h h' : h ⊆ h' -> rows d h -> rows d h'.
Proof.
  intros Hh Hr. split.
  - intros c r (? & uris & ? & ?)%(rows_client _ _ Hr). eauto 10.
  - intros i a (? & ? & ? & ? & ? & Hx)%(rows_request _ _ Hr). split_and!; eauto.
    intros Hst. destruct (Hx Hst). eauto.
  - intros g r ((i & u & ch & ? & ?) & ?)%(rows_grant _ _ Hr). split; [|eauto]. exists i, u, ch. eauto.
  - intros x t ?%(rows_token _ _ Hr). eauto.
Qed.

Lemma rows_app d h k : rows d h -> rows d (h ++ k).
Proof. apply rows_mono. set_solver. Qed.

Lemma dead_grant d g r : grants d !! g = Some r -> dead g d <-> g_revoked_at r <> None.
Proof. intros Hg. unfold dead. split; [by intros Hd; apply Hd|]. intros ? ? ?. by simplify_eq. Qed.

Lemma has_status_le d d' i st :
  (forall a', authorizations d' !! i = Some a' ->
     exists a, authorizations d !! i = Some a /\ status a' = status a) ->
  (has_status d' i st <= has_status d i st)%nat.
Proof.
  unfold has_status. intros Ha. destruct (authorizations d' !! i) as [a'|]; [|lia].
  destruct (Ha a' eq_refl) as (a & -> & ->). lia.
Qed.

Lemma rotatable_le d d' x :
  (forall t', tokens d' !! x = Some t' ->
     exists t, tokens d !! x = Some t /\ t_kind t' = t_kind t /\
       (t_revoked_at t <> None -> t_revoked_at t' <> None)) ->
  (rotatable d' x <= rotatable d x)%nat.
Proof.
  unfold rotatable. intros Ht. destruct (tokens d' !! x) as [t'|]; [|lia].
  destruct (Ht t' eq_refl) as (t & -> & -> & Hv). destruct (String.eqb (t_kind t) "refresh"); [|cbn; lia].
  repeat case_bool_decide; cbn; try lia. exfalso. by apply Hv.
Qed.

Lemma tallies_le d d' h :
  (forall i st, has_status d' i st <= has_status d i st)%nat ->
  (forall x, rotatable d' x <= rotatable d x)%nat ->
  tallies d h -> tallies d' h.
Proof.
  intros Hs Hx [H1 H2 H3]. split.
  - intros i. specialize (H1 i). specialize (Hs i "pending"). lia.
  - intros i. specialize (H2 i). specialize (Hs i "approved"). lia.
  - intros x. specialize (H3 x). specialize (Hx x). lia.
Qed.

Lemma shrinks_request d d' i a' :
  shrinks d d' -> authorizations d' !! i = Some a' ->
  exists a, authorizations d !! i = Some a /\ status a' = status a.
Proof. intros Hs (a & ? & [->|[-> _]])%(shrinks_authorizations _ _ Hs); eauto. Qed.

Lemma inv_shrinks d d' h : shrinks d d' -> inv (d, h) -> inv (d', h).
Proof.
  intros Hs [Hc Hr Hk Ht Ha]. cbn in *. pose proof (shrinks_keys _ _ Hs Hk) as Hk'.
  split; cbn; [done| |done| |].
  - split.
    + intros c r Hl. apply (rows_client _ _ Hr). by eapply lookup_weaken, (shrinks_clients _ _ Hs).
    + intros i a' (a & Hl & Hor)%(shrinks_authorizations _ _ Hs).
      destruct (rows_request _ _ Hr i a Hl) as (? & ? & ? & ? & ? & ?).
      destruct Hor as [->|[-> _]]; [by split_and!|]. split_and!; [done..|by intros|done|done].
    + intros g r' (r & Hg & -> & -> & -> & ->)%(shrinks_grants _ _ Hs). by apply (rows_grant _ _ Hr).
    + intros x t Hl. apply (rows_token _ _ Hr). by eapply lookup_weaken, (shrinks_tokens _ _ Hs).
  - apply (tallies_le d); [| |done].
    + intros i st. apply has_status_le. intros a'. by apply shrinks_request.
    + intros x. apply rotatable_le. intros t' Hl. exists t'. split; [|done].
      by eapply lookup_weaken, (shrinks_tokens _ _ Hs).
  - intros Hf. specialize (Ha Hf). split.
    + intros g Hg r' (r & Hl & _ & _ & _ & ->)%(shrinks_grants _ _ Hs). by eapply Ha.
    + intros x t Hl Hd. apply (alive_token _ _ Ha x).
      * by eapply lookup_weaken, (shrinks_tokens _ _ Hs).
      * destruct (Hk' x t Hl) as [r' Hr'].
        destruct (shrinks_grants _ _ Hs _ _ Hr') as (r & Hl' & _ & _ & _ & Hv).
        apply (proj2 (dead_grant _ _ _ Hl')). rewrite <- Hv.
        exact (proj1 (dead_grant _ _ _ Hr') Hd).
    + intros i a' g (a & Hl & Hor)%(shrinks_authorizations _ _ Hs) Hst He.
      assert (status a = "exchanged") as Hst' by (by destruct Hor as [->|[-> _]]).
      destruct (alive_exchanged _ _ Ha i a g Hl Hst' He) as [Hg|Hg].
      * destruct Hor as [->|[-> Hn]]; [by left|right; auto].
      * right. by eapply shrinks_grant_lost.
Qed.

(** An event of [h ++ new] is an old one or one of the new ones. *)
Ltac hist H :=
  apply elem_of_app in H as [H|H];
  [|repeat (apply elem_of_cons in H as [H|H]; [first [discriminate H | injection H; clear H; intros; subst]|]);
    try (exfalso; exact (not_elem_of_nil _ H))].

Lemma in_pair e ts g : e ∈ pair_events ts g -> exists x k, e = TokenIssued x k g.
Proof. intros [->|[->|[]%elem_of_nil]%elem_of_cons]%elem_of_cons; eauto. Qed.

Lemma in_old (e : event) h k : e ∈ h -> e ∈ h ++ k.
Proof. rewrite elem_of_app. auto. Qed.

#[local] Hint Resolve in_old : core.

Lemma count_same f h k : (forall e, e ∈ k -> f e = false) -> count f (h ++ k) = count f h.
Proof.
  intros Hk. rewrite count_app. enough (count f k = 0)%nat by lia. unfold count.
  induction k as [|e k IH]; [done|]. cbn. rewrite Hk by set_solver. apply IH. set_solver.
Qed.

Lemma inv_insert_client d h c now max :
  inv (d, h) -> Forall (fun u => validate_redirect_uri u = Ok tt) (nc_redirect_uris c) ->
  inv ((exec (InsertClient c now max) d).1,
       h ++ events (InsertClient c now max) (exec (InsertClient c now max) d).2).
Proof.
  intros Hi Hv. cbn [exec]. unfold insert_client.
  destruct (count_clients d <? max); [|by rewrite app_nil_r].
  destruct (clients d !! nc_client_id c) as [|] eqn:Hn; [by rewrite app_nil_r|]. cbn.
  destruct Hi as [Hc Hr Hk Ht Ha]. cbn in *. split; cbn.
  - apply chain_app; [done|]. by intros e ->%list_elem_of_singleton.
  - apply (rows_app _ _ [ClientStored (nc_client_id c) (nc_redirect_uris c)]) in Hr as [? ? ? ?].
    split; cbn; [|done..]. intros c' r [[<- <-]|[_ Hl]]%lookup_insert_Some; cbn; [|eauto].
    split; [done|]. exists (nc_redirect_uris c). split; [done|]. apply elem_of_app. right. by left.
  - done.
  - destruct Ht as [H1 H2 H3]. split; intros i; rewrite !count_same by set_solver.
    + apply H1.
    + apply H2.
    + apply H3.
  - intros Hf%fresh_app. destruct (Ha Hf) as [A1 A2 A3]. split; cbn.
    + intros g He. hist He. by apply A1.
    + by apply A2.
    + intros i a g Hl Hst He. hist He. by eapply A3.
Qed.

Lemma alive_app d h k :
  (forall e, e ∈ k -> match e with Exchanged _ _ | GrantRevoked _ => False | _ => True end) ->
  alive d h -> alive d (h ++ k).
Proof.
  intros Hk [A1 A2 A3]. split; [|done|].
  - intros g [He|He]%elem_of_app; [by apply A1|by apply Hk in He].
  - intros i a g Hl Hst [He|He]%elem_of_app; [by eapply A3|by apply Hk in He].
Qed.

Lemma tally_none i d h : tallies d h -> count (is_approved i) h = 0%nat ->
  count (is_exchanged i) h = 0%nat.
Proof. intros [_ H2 _] H0. specialize (H2 i). lia. Qed.

Lemma has_status_insert d i j a st :
  has_status (with_authorizations d (<[i := a]> (authorizations d))) j st =
  if decide (i = j) then (if String.eqb (status a) st then 1 else 0)%nat else has_status d j st.
Proof.
  unfold has_status. cbn. rewrite lookup_insert. by destruct (decide (i = j)).
Qed.

Lemma has_status_some d i a st : authorizations d !! i = Some a ->
  has_status d i st = if String.eqb (status a) st then 1%nat else 0%nat.
Proof. intros Hl. unfold has_status. by rewrite Hl. Qed.

Lemma has_status_none d i st : authorizations d !! i = None -> has_status d i st = 0%nat.
Proof. intros Hl. unfold has_status. by rewrite Hl. Qed.

Lemma inv_insert_authorization d h n now :
  inv (d, h) -> allowed (InsertAuthorization n now) h ->
  inv ((exec (InsertAuthorization n now) d).1,
       h ++ events (InsertAuthorization n now) (exec (InsertAuthorization n now) d).2).
Proof.
  intros Hi (Hu & Hsc & Hrs). cbn [exec]. unfold insert_authorization.
  destruct (authorizations d !! na_id n) as [|] eqn:Hn; [by rewrite app_nil_r|].
  destruct (clients d !! na_client_id n) as [c|] eqn:Hcl; [|by rewrite app_nil_r]. cbn.
  destruct Hi as [Hc Hr Hk Ht Ha]. cbn in *. split; cbn.
  - apply chain_app; [done|]. intros e ->%list_elem_of_singleton. cbn. split; [|done].
    destruct Hu as (us & ? & ?). exists us. auto.
  - apply (rows_app _ _ [RequestStored (na_id n) (na_client_id n) (na_redirect_uri n)
             (na_code_challenge n) (na_scope n) (na_resource n)]) in Hr as [? ? ? ?].
    split; cbn; [done| |done..]. intros i a [[<- <-]|[_ Hl]]%lookup_insert_Some; cbn; [|eauto].
    split_and!; [done| |by intros|by intros|done|done]. apply elem_of_app. right. by left.
  - done.
  - destruct Ht as [H1 H2 H3]. split; intros i.
    + rewrite has_status_insert, !count_app. cbn. specialize (H1 i).
      destruct (String.eqb_spec i (na_id n)) as [->|].
      * rewrite decide_True by done. rewrite has_status_none in H1 by done. cbn. lia.
      * rewrite decide_False by done. cbn. lia.
    + rewrite has_status_insert, !count_same by set_solver. specialize (H2 i). case_decide; cbn; lia.
    + rewrite !count_same by set_solver. apply H3.
  - intros Hf%fresh_app. apply alive_app; [by intros e ->%list_elem_of_singleton|].
    destruct (Ha Hf) as [A1 A2 A3]. split; cbn; [done|done|].
    intros i a g [[<- <-]|[_ Hl]]%lookup_insert_Some; [done|by apply A3].
Qed.

Lemma inv_resolve_pending d h i code now :
  inv (d, h) ->
  inv ((exec (ResolvePending i code now) d).1,
       h ++ events (ResolvePending i code now) (exec (ResolvePending i code now) d).2).
Proof.
  intros Hi. cbn [exec]. destruct (resolve_pending d i code now) as [d' o] eqn:Hx. cbn [fst snd].
  destruct (decide (o = Ok true)) as [->|Ho].
  2:{ rewrite (resolve_pending_other _ _ _ _ _ _ Hx Ho).
      replace (events _ o) with (@nil event) by (by destruct o as [[]|]). by rewrite app_nil_r. }
  apply resolve_pending_true in Hx as (a & Hl & Hst & ->).
  destruct Hi as [Hc Hr Hk Ht Ha]. cbn [fst snd] in *.
  destruct (rows_request _ _ Hr _ _ Hl) as (Hid & Hreq & Hcode & Hgr & _ & _).
  set (a' := match code with Some (hash, expires) => _ | None => _ end).
  set (k := events _ _).
  assert (forall e, e ∈ k -> exists hash, e = Approved i hash \/ e = Denied i) as Hek.
  { unfold k. cbn. destruct code as [[hash ?]|]; intros e ->%list_elem_of_singleton; [eauto|exists ""; auto]. }
  assert (a_grant_id a' = a_grant_id a /\ a_client_id a' = a_client_id a /\ id a' = id a /\
          redirect_uri a' = redirect_uri a /\ code_challenge a' = code_challenge a /\
          scope a' = scope a /\ McpOAuth.resource a' = McpOAuth.resource a) as (E1 & E2 & E3 & E4 & E5 & E6 & E7)
    by (unfold a'; by destruct code as [[]|]).
  split; cbn [fst snd].
  - apply chain_app; [done|]. intros e He. destruct (Hek e He) as (hash & [-> | ->]); cbn; [|done].
    do 5 eexists. apply elem_of_app. by left.
  - apply (rows_app _ _ k) in Hr as [? R2 ? ?]. split; cbn; [done| |done..].
    intros j b [[<- <-]|[_ Hb]]%lookup_insert_Some; [|by apply R2].
    rewrite E1, E2, E3, E4, E5, E6, E7. split_and!; [done|auto| | | |].
    + intros hash. unfold a', k. destruct code as [[hash' ?]|]; cbn; [|done].
      intros [= <-]. apply elem_of_app. right. by left.
    + intros g Hg. auto.
    + unfold a'. destruct code as [[hash' ?]|]; cbn; [eauto|done].
    + unfold a'. by destruct code as [[hash' ?]|].
  - done.
  - destruct Ht as [H1 H2 H3]. split; intros j.
    + rewrite has_status_insert, !count_app. specialize (H1 j). case_decide as Hij; [subst j|].
      * rewrite (has_status_some _ _ _ _ Hl), Hst in H1. unfold a', k. destruct code as [[]|]; cbn;
          rewrite String.eqb_refl; cbn in H1 |- *; lia.
      * unfold k. destruct code as [[]|]; cbn; destruct (String.eqb_spec j i); cbn; lia || congruence.
    + rewrite has_status_insert, !count_app. specialize (H2 j). case_decide as Hij; [subst j|].
      * unfold a', k. destruct code as [[]|]; cbn; rewrite ?String.eqb_refl; cbn; lia.
      * unfold k. destruct code as [[]|]; cbn; destruct (String.eqb_spec j i); cbn; lia || congruence.
    + rewrite !count_same by (intros e He; by destruct (Hek e He) as (? & [-> | ->])). apply H3.
  - intros Hf%fresh_app. apply alive_app; [intros e He; by destruct (Hek e He) as (? & [-> | ->])|].
    destruct (Ha Hf) as [A1 A2 A3]. split; cbn; [done|done|].
    intros j b g [[<- <-]|[_ Hb]]%lookup_insert_Some; [|by apply A3].
    unfold a'. by destruct code as [[]|].
Qed.

Lemma inv_revoke_grant d h g now :
  inv (d, h) ->
  inv ((exec (RevokeGrant g now) d).1, h ++ events (RevokeGrant g now) (exec (RevokeGrant g now) d).2)
  /\ dead g (exec (RevokeGrant g now) d).1.
Proof.
  intros Hi. cbn [exec]. destruct (McpOAuth.revoke_grant d g now) as [d' b] eqn:Hx. cbn [fst snd].
  pose proof (revoke_grant_grants _ _ _ _ _ Hx) as (Hcl & Hau & Hgr).
  pose proof (fun x t' => revoke_grant_tokens _ _ _ _ _ x t' Hx) as Htk.
  destruct Hi as [Hc Hr Hk Ht Ha]. cbn [fst snd] in *.
  assert (forall g' r', grants d' !! g' = Some r' -> exists r, grants d !! g' = Some r /\
            g_client_id r' = g_client_id r /\ g_scope r' = g_scope r /\ g_resource r' = g_resource r /\
            (g' = g /\ g_revoked_at r' <> None /\ (g_revoked_at r = None -> b = true) \/ g' <> g /\ r' = r))
    as Hback.
  { intros g' r' Hl. destruct b.
    - destruct Hgr as (r & Hl0 & Hv & Hg). rewrite Hg in Hl.
      apply lookup_insert_Some in Hl as [[<- <-]|[Hne Hl]]; eauto 12.
    - destruct Hgr as [Hg Hv]. rewrite Hg in Hl. exists r'. split_and!; [done..|].
      destruct (decide (g' = g)) as [->|]; [left|by right].
      split_and!; [done|by apply Hv|intros Hn; by destruct (Hv _ Hl)]. }
  assert (forall g', is_Some (grants d !! g') -> is_Some (grants d' !! g')) as Hkeep.
  { intros g' Hs. destruct b; [|by destruct Hgr as [-> _]]. destruct Hgr as (r & _ & _ & ->).
    apply lookup_insert_is_Some. destruct (decide (g = g')); auto. }
  assert (dead g d') as Hdead.
  { intros r' (r & _ & _ & _ & _ & [(_ & ? & _)|[? _]])%Hback; done. }
  split; [|done]. split; cbn [fst snd].
  - apply chain_app; [done|]. intros e He. destruct b; [|by apply elem_of_nil in He].
    apply list_elem_of_singleton in He as ->. cbn. destruct Hgr as (r & Hl & _).
    destruct (rows_grant _ _ Hr _ _ Hl) as ((i & u & ch & He & _) & _). eauto.
  - split.
    + intros c r. rewrite Hcl. by apply (rows_app _ _ _ Hr).
    + intros i a. rewrite Hau. by apply (rows_app _ _ _ Hr).
    + intros g' r' (r & Hl & -> & -> & -> & Hor)%Hback.
      destruct (rows_grant _ _ Hr _ _ Hl) as ((i & u & ch & H1 & H2) & Hrev).
      split; [exists i, u, ch; auto|]. intros Hv. destruct Hor as [(-> & _ & Hb)|[_ ->]]; [|auto].
      destruct (g_revoked_at r) eqn:Hgv; [apply in_old, Hrev; congruence|].
      rewrite (Hb eq_refl). apply elem_of_app. right. by left.
    + intros x t' (t & Hl & -> & -> & _)%Htk. by apply in_old, (rows_token _ _ Hr).
  - intros x t' (t & Hl & -> & _)%Htk. eauto.
  - assert (tallies d' h) as [H1 H2 H3].
    { apply (tallies_le d); [| |done].
      - intros i st. unfold has_status. by rewrite Hau.
      - intros x. apply rotatable_le. intros t' (t & ? & ? & ? & ? & ?)%Htk. eauto. }
    split; intros i; rewrite !count_same by (intros e He; destruct b;
      [by apply list_elem_of_singleton in He as ->|by apply elem_of_nil in He]); auto.
  - intros Hf%fresh_app. destruct (Ha Hf) as [A1 A2 A3]. split.
    + intros g' [He|He]%elem_of_app.
      * intros r' (r & Hl & _ & _ & _ & [(_ & ? & _)|[_ ->]])%Hback; [done|]. by eapply A1.
      * destruct b; [|by apply elem_of_nil in He].
        by apply list_elem_of_singleton in He as [= ->].
    + intros x t' (t & Hl & Hgi & _ & Hv & Hv')%Htk. intros Hd.
      destruct (decide (t_grant_id t = g)) as [|Hne]; [auto|]. apply Hv, (A2 x); [done|].
      intros r Hr0. apply (Hd r). rewrite Hgi.
      destruct b; [|by destruct Hgr as [-> _]]. destruct Hgr as (r0 & _ & _ & ->).
      by rewrite lookup_insert_ne.
    + intros i a g'. rewrite Hau. intros Hl Hst [He|He]%elem_of_app;
        [|destruct b; [by apply list_elem_of_singleton in He|by apply elem_of_nil in He]].
      destruct (A3 i a g' Hl Hst He) as [|Hn]; [by left|right].
      destruct (grants d' !! g') eqn:Hg'; [|done]. apply Hback in Hg' as (? & ? & _). congruence.
Qed.

Lemma rotatable_pair d d' g ts x :
  insert_token_pair d g ts = Some d' ->
  (rotatable d' x <= rotatable d x + count (is_refresh x) (pair_events ts g))%nat.
Proof.
  intros (_ & -> & Ha & Hr & Hne)%insert_token_pair_Some. unfold rotatable, count, pair_events. cbn.
  rewrite !lookup_insert. destruct (decide (refresh_hash ts = x)) as [<-|Hx].
  - rewrite !String.eqb_refl, andb_false_r. cbn. lia.
  - destruct (decide (access_hash ts = x)); cbn; [lia|].
    destruct (tokens d !! x); [destruct (_ && _)|]; lia.
Qed.

Lemma has_status_other d d' i st : authorizations d' = authorizations d ->
  has_status d' i st = has_status d i st.
Proof. intros Ha. unfold has_status. by rewrite Ha. Qed.

Lemma insert_token_pair_rest d g ts d' :
  insert_token_pair d g ts = Some d' ->
  clients d' = clients d /\ grants d' = grants d /\ authorizations d' = authorizations d.
Proof. by intros (_ & -> & _)%insert_token_pair_Some. Qed.

(** At most one grant per authorization whose identifier was drawn once. *)
Lemma exchanged_at_most_once d h i :
  fresh h -> tallies d h -> (count (is_exchanged i) h + has_status d i "approved" <= 1)%nat.
Proof.
  intros Hf [H1 H2 _]. specialize (H1 i). specialize (H2 i).
  enough (count (is_stored i) h <= 1)%nat by lia. apply (fresh_count _ (1%nat, i) _ Hf).
  intros []; try done. by intros ->%String.eqb_eq.
Qed.

Lemma inv_exchange_code d h a g ts now :
  inv (d, h) -> allowed (ExchangeCode a g ts now) h ->
  inv ((exec (ExchangeCode a g ts now) d).1,
       h ++ events (ExchangeCode a g ts now) (exec (ExchangeCode a g ts now) d).2).
Proof.
  intros Hi Hreq. cbn [exec]. destruct (McpOAuth.exchange_code d a g ts now) as [d' o] eqn:Hx.
  cbn [fst snd].
  assert ((exists g, o = Ok (Issued g)) \/ forall g, o <> Ok (Issued g)) as [[g' ->]|Ho]
    by (destruct o as [[]|]; eauto).
  2:{ rewrite (exchange_code_other _ _ _ _ _ _ _ Hx Ho).
      replace (events _ o) with (@nil event); [by rewrite app_nil_r|].
      destruct o as [[g'|]|]; [by edestruct Ho|done..]. }
  apply exchange_code_issued in Hx as (-> & Hg & Hcl & row & tx & Hrow & Hst & _ & Hp & Tc & Tt & Ta & Tg).
  destruct (insert_token_pair_rest _ _ _ _ Hp) as (Ec & Eg & Ea).
  assert (forall x t, tokens d' !! x = Some t -> tokens d !! x = Some t \/
            t_grant_id t = g /\ t_revoked_at t = None /\ TokenIssued x (t_kind t) g ∈ pair_events ts g) as Htk.
  { intros x t [Hl|[[-> ->]|[-> ->]]]%(insert_token_pair_tokens _ _ _ _ _ _ Hp);
      [left; congruence|right|right]; (split_and!; [done|done|set_solver]). }
  destruct Hi as [Hc Hr Hk Ht Ha]. cbn [fst snd events] in *. split; cbn [fst snd].
  - apply chain_app; [done|]. intros e [->|He]%elem_of_cons.
    + cbn. destruct (rows_request _ _ Hr _ _ Hrow) as (_ & _ & Hcode & _ & Hap & _).
      destruct (Hap Hst) as [hash Hh]. eauto.
    + apply in_pair in He as (x & k & ->). exists (id a). apply elem_of_app. right. by left.
  - split.
    + intros c r. rewrite Ec, Tc. by apply (rows_app _ _ _ Hr).
    + intros i b. rewrite Ea, Ta. intros [[<- <-]|[_ Hl]]%lookup_insert_Some;
        [|by apply (rows_app _ _ _ Hr)].
      destruct (rows_request _ _ Hr _ _ Hrow) as (? & ? & ? & _ & ? & _).
      assert (Exchanged (id a) g ∈ h ++ Exchanged (id a) g :: pair_events ts g)
        by (apply elem_of_app; right; by left).
      split_and!; [done|by auto|auto| |done|eauto]. cbn. by intros ? [= <-].
    + intros g' r. rewrite Eg, Tg. intros [[<- <-]|[_ Hl]]%lookup_insert_Some;
        [|by apply (rows_app _ _ _ Hr)].
      cbn. split; [|done]. exists (id a), (redirect_uri a), (code_challenge a).
      split; [apply elem_of_app; right; by left|auto].
    + intros x t [Hl|(-> & _ & Hin)]%Htk; [by apply in_old, (rows_token _ _ Hr)|].
      apply elem_of_app. right. by right.
  - intros x t Hl. rewrite Eg, Tg. apply lookup_insert_is_Some.
    apply Htk in Hl as [Hl|(-> & _)]; [|by left]. right. split; [|by eapply Hk].
    intros Hgt. destruct (Hk _ _ Hl) as [? Hs]. congruence.
  - destruct Ht as [H1 H2 H3]. assert (forall j st, has_status d' j st =
              if decide (id a = j) then (if String.eqb "exchanged" st then 1 else 0)%nat
              else has_status d j st) as Hs.
    { intros j st. unfold has_status. rewrite Ea, Ta, lookup_insert. by destruct (decide (id a = j)). }
    split; intros j.
    + rewrite Hs, !count_app. cbn. specialize (H1 j). case_decide; cbn; lia.
    + rewrite Hs, !count_app. cbn. specialize (H2 j). case_decide as Hj; [subst j|].
      * rewrite (has_status_some _ _ _ _ Hrow), Hst in H2. rewrite String.eqb_refl. cbn in *. lia.
      * destruct (String.eqb_spec j (id a)); [congruence|]. cbn. lia.
    + specialize (H3 j). pose proof (rotatable_pair _ _ _ _ j Hp) as Hle.
      replace (rotatable tx j) with (rotatable d j) in Hle by (unfold rotatable; by rewrite Tt).
      change (Exchanged (id a) g :: pair_events ts g) with ([Exchanged (id a) g] ++ pair_events ts g).
      rewrite !count_app. change (count (is_rotated j) (pair_events ts g)) with 0%nat.
      change (count _ [Exchanged (id a) g]) with 0%nat. lia.
  - intros Hf. pose proof (fresh_app _ _ Hf) as Hf0. destruct (Ha Hf0) as [A1 A2 A3].
    assert (forall j, Exchanged j g ∉ h) as Hnew.
    { intros j He. by apply (fresh_apart _ _ _ (Exchanged (id a) g) (2%nat, g) Hf He); [left|..]. }
    assert (forall j g', Exchanged j g' ∈ Exchanged (id a) g :: pair_events ts g -> j = id a /\ g' = g) as Hev.
    { intros j g' [[= -> ->]|He]%elem_of_cons; [done|].
      by apply in_pair in He as (? & ? & ?). }
    split.
    + intros g' [He|He]%elem_of_app; [|by apply elem_of_cons in He as [|(? & ? & ?)%in_pair]].
      intros r. rewrite Eg, Tg. intros [[<- <-]|[_ Hl]]%lookup_insert_Some; [|by eapply A1].
      destruct (Hc _ He) as [j Hj]. by apply Hnew in Hj.
    + intros x t [Hl|(Hgt & _ & _)]%Htk Hd.
      * apply (A2 x); [done|]. intros r Hlr. apply (Hd r). rewrite Eg, Tg.
        rewrite lookup_insert_ne; [done|]. intros Hgt. destruct (Hk _ _ Hl). congruence.
      * exfalso. rewrite Hgt in Hd. eapply Hd; [rewrite Eg, Tg; apply lookup_insert_eq|done].
    + intros j b g'. rewrite Ea, Ta, Eg, Tg. intros Hl Hstb He.
      apply lookup_insert_Some in Hl as [[<- <-]|[Hne Hl]]; cbn.
      * apply elem_of_app in He as [He|[_ ->]%Hev]; [|by left]. exfalso.
        pose proof (exchanged_at_most_once d h (id a) Hf0 Ht) as Hone.
        rewrite (has_status_some _ _ _ _ Hrow), Hst in Hone. cbn in Hone.
        pose proof (count_elem (is_exchanged (id a)) _ _ He (String.eqb_refl _)). lia.
      * apply elem_of_app in He as [He|[-> _]%Hev]; [|done].
        destruct (A3 _ _ _ Hl Hstb He) as [|Hn]; [by left|right]. apply lookup_insert_None.
        split; [done|]. intros <-. by apply Hnew in He.
Qed.

Lemma inv_rotate_refresh d h old g ts now :
  inv (d, h) -> allowed (RotateRefresh old g ts now) h ->
  inv ((exec (RotateRefresh old g ts now) d).1,
       h ++ events (RotateRefresh old g ts now) (exec (RotateRefresh old g ts now) d).2).
Proof.
  intros Hi Hold. cbn [exec]. destruct (rotate_refresh d old g ts now) as [d' o] eqn:Hx. cbn [fst snd].
  destruct (decide (o = Ok Rotated)) as [->|Ho].
  2:{ rewrite (rotate_refresh_other _ _ _ _ _ _ _ Hx Ho).
      replace (events _ o) with (@nil event) by (by destruct o as [[]|]). by rewrite app_nil_r. }
  apply rotate_refresh_rotated in Hx as (t0 & Hl0 & Hk0 & Hv0 & Hp).
  set (tx := with_tokens d _) in Hp. destruct (insert_token_pair_rest _ _ _ _ Hp) as (Ec & Eg & Ea).
  assert (forall x t, tokens d' !! x = Some t ->
            (exists t1, tokens d !! x = Some t1 /\ t_grant_id t = t_grant_id t1 /\ t_kind t = t_kind t1 /\
               (t_revoked_at t1 <> None -> t_revoked_at t <> None)) \/
            t_grant_id t = g /\ TokenIssued x (t_kind t) g ∈ pair_events ts g) as Htk.
  { intros x t [Hl|[[-> ->]|[-> ->]]]%(insert_token_pair_tokens _ _ _ _ _ _ Hp);
      [left|right; split; [done|set_solver]..].
    unfold tx in Hl. cbn in Hl. apply lookup_insert_Some in Hl as [[<- <-]|[_ Hl]]; [|by exists t]. exists t0. by split_and!. }
  destruct Hi as [Hc Hr Hk Ht Ha]. cbn [fst snd events allowed] in *. split; cbn [fst snd].
  - apply chain_app; [done|]. intros e [->|He]%elem_of_cons; [done|].
    apply in_pair in He as (x & k & ->). destruct (Hc _ Hold) as [i Hi]. exists i. auto.
  - split.
    + intros c r. rewrite Ec. by apply (rows_app _ _ _ Hr).
    + intros i b. rewrite Ea. by apply (rows_app _ _ _ Hr).
    + intros g' r. rewrite Eg. by apply (rows_app _ _ _ Hr).
    + intros x t [(t1 & Hl & -> & -> & _)|[-> Hin]]%Htk; [by apply in_old, (rows_token _ _ Hr)|].
      apply elem_of_app. right. by right.
  - intros x t Hl. rewrite Eg. apply Htk in Hl as [(t1 & Hl & -> & _)|[-> _]]; [by eapply Hk|].
    by apply insert_token_pair_Some in Hp as [? _].
  - destruct Ht as [H1 H2 H3].
    assert (forall e, e ∈ RefreshRotated old g :: pair_events ts g ->
              e = RefreshRotated old g \/ exists x k, e = TokenIssued x k g) as Hev
      by (intros e [->|(x & k & ->)%in_pair]%elem_of_cons; eauto).
    split; intros j.
    + rewrite (has_status_other d d') by (by rewrite Ea).
      rewrite !count_same by (intros e He; by destruct (Hev e He) as [->|(? & ? & ->)]). apply H1.
    + rewrite (has_status_other d d') by (by rewrite Ea).
      rewrite !count_same by (intros e He; by destruct (Hev e He) as [->|(? & ? & ->)]). apply H2.
    + specialize (H3 j). pose proof (rotatable_pair _ _ _ _ j Hp) as Hle.
      change (RefreshRotated old g :: pair_events ts g) with ([RefreshRotated old g] ++ pair_events ts g).
      rewrite !count_app. change (count (is_rotated j) (pair_events ts g)) with 0%nat.
      change (count (is_refresh j) [RefreshRotated old g]) with 0%nat.
      unfold rotatable, tx in Hle. cbn [tokens with_tokens] in Hle. rewrite lookup_insert in Hle.
      unfold rotatable in H3.
      replace (count (is_rotated j) [RefreshRotated old g])
        with (if String.eqb j old then 1%nat else 0%nat) by (cbn; by destruct (String.eqb j old)).
      destruct (String.eqb_spec j old) as [->|Hne]; cbn [length].
      * rewrite decide_True in Hle by done. rewrite Hl0, Hk0, Hv0 in H3. cbn [bool_decide] in *.
        cbn [t_revoked_at revoke_token] in Hle. rewrite bool_decide_eq_false_2, andb_false_r in Hle by done.
        cbn in H3. unfold rotatable. lia.
      * rewrite decide_False in Hle by congruence. unfold rotatable. lia.
  - intros Hf. pose proof (fresh_app _ _ Hf) as Hf0.
    apply alive_app; [by intros e [->|(? & ? & ->)%in_pair]%elem_of_cons|]. destruct (Ha Hf0) as [A1 A2 A3].
    assert (forall g', dead g' d' <-> dead g' d) as Hd by (intros g'; unfold dead; by rewrite Eg).
    split.
    + intros g' He. apply Hd. by apply A1.
    + intros x t [(t1 & Hl & -> & _ & Hv)|[-> _]]%Htk Hdg%Hd; [by apply Hv, (A2 x)|].
      exfalso. pose proof (rows_token _ _ Hr _ _ Hl0) as Hin. rewrite Hk0 in Hin.
      assert (t_grant_id t0 = g) as Hg0.
      { by pose proof (fresh_inj _ _ _ (3%nat, old) Hf0 Hin Hold eq_refl eq_refl) as [= ->]. }
      apply (A2 old t0); [done|by rewrite Hg0|done].
    + intros i b g'. rewrite Ea, Eg. by apply A3.
Qed.

(** Every statement that may be called keeps the invariant. *)
Lemma inv_exec {R : Set} (q : query R) d h :
  inv (d, h) -> allowed q h -> inv ((exec q d).1, h ++ events q (exec q d).2).
Proof.
  intros Hi Hq. destruct q;
    first [by apply inv_insert_client|by apply inv_insert_authorization|by apply inv_resolve_pending
          |by apply inv_exchange_code|by apply inv_revoke_grant|by apply inv_rotate_refresh
          |cbn [exec events fst snd]; rewrite app_nil_r]; try done; (eapply inv_shrinks; [|exact Hi]).
  - apply prune_shrinks.
  - apply touch_shrinks.
Qed.

(** ** The logic of tasks *)

Inductive evolve : relation world :=
| evolve_exec {R : Set} (q : query R) d h :
    inv (d, h) -> allowed q h -> evolve (d, h) ((exec q d).1, h ++ events q (exec q d).2).

Definition later : relation world := rtc evolve.

(** The world after a statement. *)
Definition after {R : Set} (q : query R) (w : world) : world :=
  ((exec q w.1).1, w.2 ++ events q (exec q w.1).2).

(** The task does nothing it may not do, and its answer keeps the promise [Q], whatever
    happens between its statements. *)
Fixpoint safe (Q : world -> Response -> Prop) (t : Task) (w : world) : Prop :=
  match t with
  | Respond r => Q w r
  | Ask q k =>
      allowed q w.2 /\ forall w', later w w' -> inv w' ->
        safe Q (k (Err Unavailable)) w' /\ safe Q (k (exec q w'.1).2) (after q w')
  | Now k => forall n, safe Q (k n) w
  | Random _ k | NewUuid k => forall s, safe Q (k s) w
  end.

Definition stable (Q : world -> Response -> Prop) : Prop :=
  forall w w' r, later w w' -> inv w -> Q w r -> Q w' r.

Lemma later_inv w w' : later w w' -> inv w -> inv w'.
Proof. induction 1 as [|? ? ? []]; [done|]. intros _. by apply IHrtc, inv_exec. Qed.

Lemma later_history w w' : later w w' -> exists k, w'.2 = w.2 ++ k.
Proof.
  induction 1 as [w|? ? ? [] _ [k Hk]]; [exists []; by rewrite app_nil_r|].
  cbn in *. eexists. by rewrite Hk, <- app_assoc.
Qed.

Lemma later_elem w w' e : later w w' -> e ∈ w.2 -> e ∈ w'.2.
Proof. intros [k ->]%later_history. apply in_old. Qed.

Lemma later_fresh w w' : later w w' -> fresh w'.2 -> fresh w.2.
Proof. intros [k ->]%later_history. apply fresh_app. Qed.

Lemma after_read {R : Set} (q : query R) w :
  (exec q w.1).1 = w.1 -> events q (exec q w.1).2 = [] -> after q w = w.
Proof. destruct w as [d h]. unfold after. cbn. intros -> ->. by rewrite app_nil_r. Qed.

Lemma later_after {R : Set} (q : query R) w : inv w -> allowed q w.2 -> later w (after q w).
Proof. destruct w as [d h]. intros Hi Hq. by apply rtc_once, (evolve_exec q). Qed.

Lemma safe_later Q t w w' : stable Q -> inv w -> later w w' -> safe Q t w -> safe Q t w'.
Proof.
  intros HQ Hi Hl. induction t as [r|R q k IH|k IH|n k IH|k IH]; cbn.
  - by apply HQ.
  - intros [Ha Hs]. split; [destruct (later_history _ _ Hl) as [l ->]; eapply allowed_mono, Ha; set_solver|].
    intros w'' Hl'. apply Hs. by etrans.
  - intros Hs n. by apply IH.
  - intros Hs s. by apply IH.
  - intros Hs s. by apply IH.
Qed.

(** What a statement does to a grant and to an authorization. *)
Lemma exec_grant {R : Set} (q : query R) d g r' :
  grants (exec q d).1 !! g = Some r' ->
  (exists r, grants d !! g = Some r /\ (g_revoked_at r <> None -> g_revoked_at r' <> None)) \/
  exists i, Exchanged i g ∈ events q (exec q d).2.
Proof.
  intros Hl. destruct q; cbn [exec fst snd] in Hl |- *; try (left; by exists r').
  - apply (shrinks_grants _ _ (prune_shrinks _ _)) in Hl as (r & ? & _ & _ & _ & ->). eauto.
  - unfold insert_client in Hl. repeat case_match; cbn in Hl; eauto.
  - unfold insert_authorization in Hl. repeat case_match; cbn in Hl; eauto.
  - left. exists r'. split; [|done]. revert Hl. unfold resolve_pending. by repeat case_match.
  - destruct (McpOAuth.exchange_code d a g0 ts now) as [d' o] eqn:Hx. cbn [fst snd] in *.
    destruct o as [[g'|]|]; try (rewrite (exchange_code_other _ _ _ _ _ _ _ Hx) in Hl by done; eauto).
    apply exchange_code_issued in Hx as (-> & _ & _ & row & tx & _ & _ & _ & Hp & _ & _ & _ & Tg).
    destruct (insert_token_pair_rest _ _ _ _ Hp) as (_ & Eg & _). rewrite Eg, Tg in Hl.
    apply lookup_insert_Some in Hl as [[<- _]|[_ Hl]]; [right|by left; eauto].
    exists (id a). by left.
  - destruct (McpOAuth.revoke_grant d g0 now) as [d' b] eqn:Hx. cbn [fst snd] in *. left.
    apply revoke_grant_grants in Hx as (_ & _ & Hg). destruct b; [|destruct Hg as [Hg _]; rewrite Hg in Hl; eauto].
    destruct Hg as (r & Hr & _ & Hg). rewrite Hg in Hl. apply lookup_insert_Some in Hl as [[<- <-]|[_ Hl]]; eauto.
  - destruct (rotate_refresh d old g0 ts now) as [d' o] eqn:Hx. cbn [fst snd] in *. left.
    destruct (decide (o = Ok Rotated)) as [->|Ho];
      [|rewrite (rotate_refresh_other _ _ _ _ _ _ _ Hx Ho) in Hl; eauto].
    apply rotate_refresh_rotated in Hx as (t & _ & _ & _ & Hp).
    destruct (insert_token_pair_rest _ _ _ _ Hp) as (_ & Eg & _). rewrite Eg in Hl. eauto.
  - apply (shrinks_grants _ _ (touch_shrinks _ _ _ _)) in Hl as (r & ? & _ & _ & _ & ->). eauto.
Qed.

Definition row_step (a a' : McpOAuthAuthorization) : Prop :=
  (status a = "exchanged" -> status a' = "exchanged") /\
  (status a = "approved" ->
   status a' = "exchanged" \/ status a' = "approved" /\ a_expires_at a' = a_expires_at a).

Lemma row_step_refl a : row_step a a.
Proof. split; auto. Qed.

Lemma exec_row {R : Set} (q : query R) d i a' :
  authorizations (exec q d).1 !! i = Some a' ->
  (exists a, authorizations d !! i = Some a /\ row_step a a') \/
  exists c u ch sc rs, RequestStored i c u ch sc rs ∈ events q (exec q d).2.
Proof.
  assert (forall d', shrinks d d' -> authorizations d' !! i = Some a' ->
            exists a, authorizations d !! i = Some a /\ row_step a a') as Hsh.
  { intros d' Hs (a & Ha & Hor)%(shrinks_authorizations _ _ Hs). exists a. split; [done|].
    destruct Hor as [->|[-> _]]; split; auto. }
  intros Hl. destruct q; cbn [exec fst snd] in Hl |- *;
    try (left; exists a'; split; [exact Hl|apply row_step_refl]).
  - left. eapply Hsh, Hl. apply prune_shrinks.
  - left. exists a'. split; [|apply row_step_refl]. revert Hl. unfold insert_client. by repeat case_match.
  - unfold insert_authorization in *. destruct (authorizations d !! na_id n) eqn:Hn;
      [left; exists a'; split; [done|apply row_step_refl]|].
    destruct (clients d !! na_client_id n); [|left; exists a'; split; [done|apply row_step_refl]].
    cbn in Hl |- *. apply lookup_insert_Some in Hl as [[<- _]|[_ Hl]];
      [right; do 5 eexists; by left|left; exists a'; split; [done|apply row_step_refl]].
  - left. destruct (resolve_pending d _ _ _) as [d' o] eqn:Hx. cbn [fst] in Hl.
    destruct (decide (o = Ok true)) as [->|Ho];
      [|rewrite (resolve_pending_other _ _ _ _ _ _ Hx Ho) in Hl; exists a'; split; [done|apply row_step_refl]].
    apply resolve_pending_true in Hx as (a & Ha & Hst & ->). cbn in Hl.
    apply lookup_insert_Some in Hl as [[<- _]|[_ Hl]]; [|exists a'; split; [done|apply row_step_refl]].
    exists a. split; [done|]. split; congruence.
  - left. destruct (McpOAuth.exchange_code d a g ts now) as [d' o] eqn:Hx. cbn [fst] in Hl.
    destruct o as [[g'|]|]; try (rewrite (exchange_code_other _ _ _ _ _ _ _ Hx) in Hl by done;
      exists a'; split; [done|apply row_step_refl]).
    apply exchange_code_issued in Hx as (-> & _ & _ & row & tx & Hrow & _ & _ & Hp & _ & _ & Ta & _).
    destruct (insert_token_pair_rest _ _ _ _ Hp) as (_ & _ & Ea). rewrite Ea, Ta in Hl.
    apply lookup_insert_Some in Hl as [[<- <-]|[_ Hl]]; [|exists a'; split; [done|apply row_step_refl]].
    exists row. split; [done|]. split; auto.
  - left. destruct (McpOAuth.revoke_grant d g now) as [d' b] eqn:Hx. cbn [fst] in Hl.
    apply revoke_grant_grants in Hx as (_ & Ha & _). rewrite Ha in Hl.
    exists a'. split; [done|apply row_step_refl].
  - left. exists a'. split; [|apply row_step_refl]. destruct (rotate_refresh d old g ts now) as [d' o] eqn:Hx.
    cbn [fst] in Hl. destruct (decide (o = Ok Rotated)) as [->|Ho];
      [|by rewrite (rotate_refresh_other _ _ _ _ _ _ _ Hx Ho) in Hl].
    apply rotate_refresh_rotated in Hx as (t & _ & _ & _ & Hp).
    destruct (insert_token_pair_rest _ _ _ _ Hp) as (_ & _ & Ea). by rewrite Ea in Hl.
  - left. eapply Hsh, Hl. apply touch_shrinks.
Qed.

(** A dead grant that was minted stays dead. *)
Lemma later_dead w w' i g :
  later w w' -> inv w -> fresh w'.2 -> Exchanged i g ∈ w.2 -> dead g w.1 -> dead g w'.1.
Proof.
  intros Hl Hi Hf Hin Hd. induction Hl as [w|? ? w3 [R q d h Hi' Hq] Hl IH]; [done|].
  apply IH; [by apply inv_exec|done|by apply in_old|]. cbn in *.
  intros r' Hr'. destruct (exec_grant q _ _ _ Hr') as [(r & Hr & Hv)|[j Hj]]; [by apply Hv, (Hd r)|].
  pose proof (later_fresh _ _ Hl Hf) as Hf'. exfalso.
  by apply (fresh_apart _ _ _ (Exchanged j g) (2%nat, g) Hf' Hin Hj).
Qed.

(** An authorization that was stored only moves on. *)
Lemma later_row w w' i c u ch sc rs a' :
  later w w' -> inv w -> fresh w'.2 -> RequestStored i c u ch sc rs ∈ w.2 ->
  authorizations w'.1 !! i = Some a' ->
  exists a, authorizations w.1 !! i = Some a /\ row_step a a'.
Proof.
  intros Hl Hi Hf Hin Ha'. revert a' Ha'. induction Hl as [w|? ? w3 [R q d h Hi' Hq] Hl IH]; intros a' Ha'.
  - exists a'. split; [done|apply row_step_refl].
  - destruct (IH (inv_exec q d h Hi' Hq) Hf ltac:(by apply in_old) a' Ha') as (a1 & Ha1 & [X1 X2]).
    cbn in *. apply exec_row in Ha1 as [(a & Ha & [Y1 Y2])|(? & ? & ? & ? & ? & Hj)].
    + exists a. split; [done|]. split; [auto|]. intros Hst.
      destruct (Y2 Hst) as [|[? <-]]; auto.
    + exfalso. pose proof (later_fresh _ _ Hl Hf) as Hf'.
      by eapply (fresh_apart _ _ _ _ (1%nat, i) Hf' Hin Hj).
Qed.

(** ** What the answers promise *)

(** Where the server may send a browser: to a URI some client registered. *)
Definition registered_redirect (h : list event) (location : string) : Prop :=
  exists c uris u params, ClientStored c uris ∈ h /\ u ∈ uris /\ validate_redirect_uri u = Ok tt /\
    redirect_with u params = Found location.

(** A code is spent: the grant it was exchanged for, if the request is still on file, is
    dead. *)
Definition code_spent (hash : string) (w : world) : Prop :=
  exists i, Approved i hash ∈ w.2 /\
    (authorizations w.1 !! i = None \/ exists g, Exchanged i g ∈ w.2 /\ dead g w.1).

Definition refresh_spent (hash : string) (w : world) : Prop :=
  exists g, TokenIssued hash "refresh" g ∈ w.2 /\ dead g w.1.

(** The consent behind an access token. *)
Definition consented (h : list event) (config : McpOAuthConfig) (hash g : string) : Prop :=
  exists i c u ch code,
    RequestStored i c u ch SCOPE (OAuthServer.resource config) ∈ h /\ Approved i code ∈ h /\
    Exchanged i g ∈ h /\ TokenIssued hash "access" g ∈ h.

Definition promise (h0 : list event) (r : request) (w : world) (resp : Response) : Prop :=
  match r with
  | AuthorizePage _ | AuthorizeDecision _ =>
      forall location, resp = Found location -> registered_redirect w.2 location
  | TokenEndpoint _ (Some form) =>
      fresh w.2 ->
      (resp = invalid_grant ALREADY_USED -> exists c, code form = Some c /\ code_spent (digest c) w) /\
      (resp = invalid_grant REUSED ->
       exists t, refresh_token form = Some t /\ refresh_spent (digest t) w)
  | Verify authorization =>
      resp = NoContent -> fresh w.2 ->
      exists config token g, enabled = Some config /\ bearer_token authorization = Some token /\
        consented w.2 config (digest token) g /\ GrantRevoked g ∉ h0
  | _ => True
  end.

Lemma promise_stable h0 r : stable (promise h0 r).
Proof.
  intros w w' resp Hl Hi. pose proof (fun e => later_elem w w' e Hl) as He.
  destruct r as [| | |auth [form|]|auth| |]; cbn; try done.
  - intros Hp location Hr. destruct (Hp location Hr) as (c & us & u & ps & ? & ? & ? & ?).
    exists c, us, u, ps. auto.
  - intros Hp location Hr. destruct (Hp location Hr) as (c & us & u & ps & ? & ? & ? & ?).
    exists c, us, u, ps. auto.
  - intros Hp Hf. destruct (Hp (later_fresh _ _ Hl Hf)) as [H1 H2]. split.
    + intros Hr. destruct (H1 Hr) as (c & ? & i & Ha & Hor). exists c. split; [done|].
      exists i. split; [auto|]. destruct Hor as [Hn|(g & ? & ?)].
      * left. destruct (authorizations w'.1 !! i) as [a'|] eqn:Ha'; [|done].
        destruct (inv_chain _ Hi _ Ha) as (? & ? & ? & ? & ? & Hin).
        destruct (later_row _ _ _ _ _ _ _ _ _ Hl Hi Hf Hin Ha') as (a & ? & _). congruence.
      * right. exists g. split; [auto|]. by eapply later_dead.
    + intros Hr. destruct (H2 Hr) as (t & ? & g & ? & ?). exists t. split; [done|].
      exists g. split; [auto|]. destruct (inv_chain _ Hi (TokenIssued (digest t) "refresh" g)) as [i Hx]; [done|].
      by eapply later_dead.
  - intros Hp Hr Hf. destruct (Hp Hr (later_fresh _ _ Hl Hf)) as
      (config & t & g & ? & ? & (i & c & u & ch & code & ? & ? & ? & ?) & ?).
    exists config, t, g. split_and!; [done|done| |done]. exists i, c, u, ch, code. auto.
Qed.

Lemma safe_server_error h0 r w : safe (promise h0 r) (Respond server_error) w.
Proof. destruct r as [| | |? []| | |]; cbn; done. Qed.

(** ** The handlers keep their promises *)

Context `{Laws : !WebLaws}.

(** One statement of a handler: what fails is answered by [server_error]. *)
#[local] Arguments promise : simpl never.

Ltac ask w Hl Hi :=
  split; [try done|intros w Hl Hi; split; [apply safe_server_error|]].

Lemma validated_uris request valid :
  validate_registration request = Ok valid ->
  Forall (fun u => validate_redirect_uri u = Ok tt) (vr_redirect_uris valid).
Proof.
  unfold validate_registration. destruct (_ || _); [done|]. intros (u & Hu & Hr)%rbind_ok.
  assert (Forall (fun u => validate_redirect_uri u = Ok tt) (default [] (rq_redirect_uris request))) as Hall.
  { revert u Hu. generalize (default [] (rq_redirect_uris request)) as l.
    induction l as [|x l IH]; intros u Hu; [done|].
    cbn in Hu. apply rbind_ok in Hu as ([] & Hx%map_err_ok & Hl). constructor; [done|by eapply IH]. }
  destruct (_ || _); [done|]. destruct (existsb _ _); [done|]. destruct (negb _); [done|].
  apply rbind_ok in Hr as (n & _ & [= <-]). done.
Qed.

Lemma safe_register h0 body w : safe (promise h0 (RegisterRequest body)) (register enabled body) w.
Proof.
  unfold register. destruct enabled as [config|]; [|done]. destruct body as [rq|]; [|done].
  destruct (validate_registration rq) as [valid|[]] eqn:Hv; [|done]. cbn. intros now.
  ask w' Hl Hi. cbn. intros buf.
  destruct (String.eqb (vr_method valid) "none"); cbn; [|intros buf'];
    (ask w2 Hl2 Hi2; [by eapply validated_uris|]; by destruct (insert_client _ _ _ _ _).2 as [[]|]).
Qed.

Lemma redirect_registered h c uris u params location :
  chain h -> ClientStored c uris ∈ h -> u ∈ uris -> redirect_with u params = Found location ->
  registered_redirect h location.
Proof.
  intros Hc Hin Hu Hr. exists c, uris, u, params. split_and!; [done|done| |done].
  specialize (Hc _ Hin). cbn in Hc. rewrite Forall_forall in Hc. by apply Hc.
Qed.

Lemma safe_authorize_page h0 q w : inv w -> safe (promise h0 (AuthorizePage q)) (authorize_page enabled q) w.
Proof.
  intros Hi0. unfold authorize_page. destruct enabled as [config|] eqn:He; [|done].
  destruct (aq_client_id q) as [cid|]; [|done]. ask w' Hl Hi. rewrite after_read by done.
  cbn [exec fst snd]. destruct (find_client w'.1 cid) as [client|] eqn:Hf; [|done].
  destruct (rows_client _ _ (inv_rows _ Hi) _ _ Hf) as (Hid & uris & Hjson & Hin).
  unfold redirect_uris. rewrite Hjson, uris_json_roundtrip. cbn [default from_option Datatypes.id].
  set (chosen := match aq_redirect_uri q with Some uri => _ | None => _ end).
  destruct chosen as [uri|] eqn:Hch; [|done].
  assert (uri ∈ uris) as Hu.
  { unfold chosen in Hch. destruct (aq_redirect_uri q) as [x|].
    - destruct (existsb _ uris) eqn:Hx; [|done]. injection Hch as ->.
      apply existsb_exists in Hx as (y & Hy & ->%String.eqb_eq). by apply list_elem_of_In.
    - destruct uris as [|y [|]]; try done. injection Hch as ->. by left. }
  assert (forall err d st, safe (promise h0 (AuthorizePage q)) (Respond (redirect_error config uri st err d))
            w') as Hfail.
  { intros err d st location Hr. by eapply redirect_registered, Hr; [apply Hi|exact Hin|]. }
  destruct (is_some_and _ (aq_state q)); [apply Hfail|].
  destruct (negb _); [apply Hfail|]. destruct (aq_code_challenge q) as [ch|]; [|apply Hfail].
  do 3 (destruct (negb _); [apply Hfail|]). destruct (is_some_and _ (aq_resource q)); [apply Hfail|].
  unfold store_request. cbn. intros now. ask w2 Hl2 Hi2. intros id buf.
  ask w3 Hl3 Hi3; [|by destruct (insert_authorization _ _).2].
  split_and!; [|done|by exists config].
  exists uris. split; [|done]. apply elem_of_app. left. rewrite Hid. by apply (later_elem _ _ _ Hl2).
Qed.

Lemma safe_authorize_decision h0 form w :
  safe (promise h0 (AuthorizeDecision form)) (authorize_decision enabled form) w.
Proof.
  unfold authorize_decision. destruct enabled as [config|] eqn:He; [|done].
  destruct form as [form|]; [|done]. ask w' Hl Hi. rewrite after_read by done.
  cbn [exec fst snd]. destruct (find_authorization w'.1 (request_id form)) as [a|] eqn:Hf; [|done].
  destruct (rows_request _ _ (inv_rows _ Hi) _ _ Hf) as (_ & Hreq & _).
  destruct (inv_chain _ Hi _ Hreq) as ((uris & Hin & Hu) & _).
  destruct (negb _); [done|]. cbn [safe]. intros now.
  assert (forall w'' params location, later w' w'' -> inv w'' ->
            redirect_with (redirect_uri a) params = Found location ->
            registered_redirect w''.2 location) as Hok.
  { intros w'' ps loc Hl' Hi' Hr. eapply redirect_registered; [apply Hi'|by eapply later_elem|done|done]. }
  destruct (String.eqb (decision form) "approve"); [|destruct (String.eqb (decision form) "deny"); [|done]].
  - cbn [safe]. intros buf. split; [done|]. intros w2 Hl2 Hi2. split; [done|].
    pose proof (later_after (ResolvePending (id a) (Some (digest (b64_url_encode buf), now + CODE_TTL)) now)
                  w2 Hi2 I) as Hl3.
    destruct (exec _ w2.1).2 as [[]|]; [|done..]. intros loc Hr.
    by eapply Hok; [etrans; [exact Hl2|exact Hl3]|by eapply later_inv|].
  - cbn [safe]. split; [done|]. intros w2 Hl2 Hi2. split; [done|].
    pose proof (later_after (ResolvePending (id a) None now) w2 Hi2 I) as Hl3.
    destruct (exec _ w2.1).2 as [[]|]; [|done..]. intros loc Hr.
    by eapply Hok; [etrans; [exact Hl2|exact Hl3]|by eapply later_inv|].
Qed.

Lemma other_answer h0 auth form w r :
  r <> invalid_grant ALREADY_USED -> r <> invalid_grant REUSED ->
  promise h0 (TokenEndpoint auth (Some form)) w r.
Proof. intros H1 H2 _. by split. Qed.

Ltac other :=
  match goal with
  | |- safe _ (Respond _) _ => apply other_answer; unfold ALREADY_USED, REUSED; discriminate
  | |- promise _ _ _ _ => apply other_answer; unfold ALREADY_USED, REUSED; discriminate
  end.

Lemma safe_code_replayed h0 auth form c i now w :
  inv w -> code form = Some c -> Approved i (digest c) ∈ w.2 ->
  (fresh w.2 -> forall row, authorizations w.1 !! i = Some row -> status row = "exchanged") ->
  safe (promise h0 (TokenEndpoint auth (Some form))) (code_replayed i now) w.
Proof.
  intros Hi0 Hcode Hap Hex. unfold code_replayed. ask w' Hl Hi. rewrite after_read by done.
  cbn [exec fst snd]. pose proof (later_elem _ _ _ Hl Hap) as Hap'.
  assert (fresh w'.2 -> forall row, authorizations w'.1 !! i = Some row -> status row = "exchanged") as Hex'.
  { intros Hf row Hrow. destruct (inv_chain _ Hi0 _ Hap) as (? & ? & ? & ? & ? & Hin).
    destruct (later_row _ _ _ _ _ _ _ _ _ Hl Hi0 Hf Hin Hrow) as (a & Ha & [Hst _]).
    apply Hst, (Hex (later_fresh _ _ Hl Hf) _ Ha). }
  unfold exchanged_grant. destruct (authorizations w'.1 !! i) as [row|] eqn:Hrow.
  - destruct (rows_request _ _ (inv_rows _ Hi) _ _ Hrow) as (_ & _ & _ & Hg & _ & Hx).
    destruct (String.eqb_spec (status row) "exchanged") as [Hst|Hst].
    2:{ intros Hf. by destruct (Hst (Hex' Hf row eq_refl)). }
    destruct (a_grant_id row) as [g|] eqn:Hgr.
    + ask w2 Hl2 Hi2. unfold after. destruct w2 as [d2 h2]. cbn [fst snd] in *.
      destruct (inv_revoke_grant d2 h2 g now Hi2) as [_ Hdead].
      cbn [exec] in *. destruct (McpOAuth.revoke_grant d2 g now) as [d3 b]. cbn [fst snd] in *.
      intros Hf. split; [|done]. intros _. exists c. split; [done|]. exists i.
      split; [by apply in_old, (later_elem _ _ _ Hl2)|]. right. exists g.
      split; [|done]. apply in_old, (later_elem _ _ _ Hl2). by apply Hg.
    + intros Hf. split; [|done]. intros _. exists c. split; [done|]. exists i. split; [done|]. right.
      destruct (Hx Hst) as [g Hin]. exists g. split; [done|].
      destruct (alive_exchanged _ _ (inv_alive _ Hi Hf) _ _ _ Hrow Hst Hin) as [|Hn]; [congruence|].
      intros r Hr. congruence.
  - intros Hf. split; [|done]. intros _. exists c. split; [done|]. exists i. auto.
Qed.

Lemma exchange_not_approved d a g ts now d' row :
  McpOAuth.exchange_code d a g ts now = (d', Ok NotApproved) ->
  authorizations d !! id a = Some row -> status row = "approved" -> a_expires_at row <= timestamp now.
Proof.
  unfold McpOAuth.exchange_code. intros Hx Hrow Hst.
  destruct (grants d !! g); [done|]. destruct (clients d !! a_client_id a); [|done].
  cbn in Hx. rewrite Hrow, Hst in Hx. cbn in Hx.
  destruct (Z.ltb_spec (timestamp now) (a_expires_at row)); [|done].
  by destruct (insert_token_pair _ g ts).
Qed.

Lemma safe_exchange_code h0 auth form cid w :
  safe (promise h0 (TokenEndpoint auth (Some form))) (exchange_code cid form) w.
Proof.
  unfold exchange_code. destruct (code form) as [c|] eqn:Hcode; [|other].
  destruct (tr_redirect_uri form) as [uri|]; [|other]. destruct (code_verifier form) as [v|]; [|other].
  cbn [safe]. intros now. ask w1 Hl1 Hi1. rewrite after_read by done. cbn [exec fst snd].
  destruct (find_authorization_by_code w1.1 (digest c)) as [a|] eqn:Hfind; [|other].
  apply find_authorization_by_code_Some in Hfind as (i & Ha & Hch).
  destruct (rows_request _ _ (inv_rows _ Hi1) _ _ Ha) as (Hid & Hreq & Hap & _).
  apply Hap in Hch. subst i.
  destruct (_ || _); [other|].
  destruct (String.eqb_spec (status a) "exchanged") as [Hst|_].
  { apply (safe_code_replayed h0 auth form c (id a) now w1); [done|done|done|].
    intros _ row Hrow. by simplify_eq. }
  destruct (String.eqb_spec (status a) "approved") as [Hst|_]; cbn [negb orb]; [|other].
  destruct (Z.leb_spec (a_expires_at a) (timestamp now)) as [|Hlt]; [other|].
  cbn [safe mint random_token random_secret].
  intros buf1 buf2 grant_id. ask w2 Hl2 Hi2.
  pose proof (later_after (ExchangeCode a grant_id (token_hashes {| access_token := b64_url_encode buf1;
    t_refresh_token := b64_url_encode buf2 |} now) now) w2 Hi2 ltac:(by eapply later_elem)) as Hl3.
  destruct (exec _ w2.1).2 as [[g|]|] eqn:Hx; [other| |other].
  apply (safe_code_replayed h0 auth form c); [by eapply later_inv|done| |].
  { by do 2 (eapply later_elem; [done|]). }
  intros Hf row Hrow. cbn [exec] in Hx.
  destruct (McpOAuth.exchange_code w2.1 a grant_id _ now) as [d3 o] eqn:Hex. cbn in Hx. subst o.
  assert (d3 = w2.1) as -> by (by eapply exchange_code_other).
  cbn [after exec fst snd] in Hrow. unfold after in Hrow. cbn [exec] in Hrow. rewrite Hex in Hrow.
  pose proof (later_fresh _ _ Hl3 Hf) as Hf2.
  destruct (later_row _ _ _ _ _ _ _ _ _ Hl2 Hi1 Hf2 Hreq Hrow) as (a1 & Ha1 & [_ Hstep]).
  simplify_eq. destruct (Hstep Hst) as [|[Hst' He]]; [done|].
  pose proof (exchange_not_approved _ _ _ _ _ _ _ Hex Hrow Hst'). lia.
Qed.

Lemma find_token_rows w x record :
  inv w -> find_token w.1 x = Some record ->
  exists t g, tokens w.1 !! x = Some t /\ grants w.1 !! t_grant_id t = Some g /\
    grant_id record = t_grant_id t /\ kind record = t_kind t /\ revoked_at record = t_revoked_at t /\
    grant_revoked_at record = g_revoked_at g /\ r_resource record = g_resource g /\
    TokenIssued x (kind record) (grant_id record) ∈ w.2.
Proof.
  intros Hi. unfold find_token. intros (t & Ht & (g & Hg & [= <-])%bind_Some)%bind_Some.
  exists t, g. split_and!; try done. by apply (rows_token _ _ (inv_rows _ Hi)).
Qed.

Lemma safe_reuse h0 auth form tok g now w :
  inv w -> refresh_token form = Some tok -> TokenIssued (digest tok) "refresh" g ∈ w.2 ->
  safe (promise h0 (TokenEndpoint auth (Some form)))
    (ask! revoked := RevokeGrant g now in
     match revoked with
     | Ok _ => Respond (invalid_grant REUSED)
     | Err _ => Respond server_error
     end) w.
Proof.
  intros Hi0 Htok Hin. ask w' Hl Hi. destruct w' as [d h]. unfold after. cbn [fst snd].
  destruct (inv_revoke_grant d h g now Hi) as [_ Hdead]. cbn [exec] in *.
  destruct (McpOAuth.revoke_grant d g now) as [d3 b]. cbn [fst snd] in *.
  intros Hf. split; [done|]. intros _. exists tok. split; [done|]. exists g.
  split; [|done]. cbn. apply in_old. by apply (later_elem _ _ _ Hl).
Qed.

Lemma safe_refresh h0 auth form cid w :
  safe (promise h0 (TokenEndpoint auth (Some form))) (refresh cid form) w.
Proof.
  unfold refresh. destruct (refresh_token form) as [tok|] eqn:Htok; [|other].
  cbn [safe]. intros now. ask w1 Hl1 Hi1. rewrite after_read by done. cbn [exec fst snd].
  destruct (find_token w1.1 (digest tok)) as [record|] eqn:Hfind; [|other].
  destruct (find_token_rows _ _ _ Hi1 Hfind) as (t & g & _ & _ & _ & _ & _ & _ & _ & Hin).
  destruct (String.eqb_spec (kind record) "refresh") as [Hk|]; cbn [negb andb]; [|other].
  rewrite Hk in Hin. destruct (negb _); [other|].
  destruct (bool_decide _); [by eapply safe_reuse|]. destruct (_ || _); [other|].
  cbn [safe mint random_token random_secret]. intros buf1 buf2. split; [done|]. intros w2 Hl2 Hi2.
  split; [apply safe_server_error|].
  pose proof (later_after (RotateRefresh (digest tok) (grant_id record)
    (token_hashes {| access_token := b64_url_encode buf1; t_refresh_token := b64_url_encode buf2 |} now) now)
    w2 Hi2 (later_elem _ _ _ Hl2 Hin)) as Hl3.
  destruct (exec _ w2.1).2 as [[|]|] eqn:Hx; [other| |other].
  apply safe_reuse with (tok := tok); [by eapply later_inv|done|].
  by do 2 (eapply later_elem; [done|]).
Qed.

Lemma safe_authenticate h0 auth form k w :
  (forall cid w', safe (promise h0 (TokenEndpoint auth (Some form))) (k cid) w') ->
  safe (promise h0 (TokenEndpoint auth (Some form))) (authenticate_client auth form k) w.
Proof.
  intros Hk. unfold authenticate_client.
  assert (forall b i secret, safe (promise h0 (TokenEndpoint auth (Some form)))
            (check_secret b i secret k) w) as Hc.
  { intros b i secret. ask w1 Hl1 Hi1. cbn [exec snd].
    destruct (find_client w1.1 i) as [client|]; [|other].
    destruct (client_secret_hash client), secret; cbn [negb]; try other; try apply Hk.
    destruct (negb _); [other|apply Hk]. }
  destruct (basic_credentials auth) as [[i secret]|], (tr_client_id form); try apply Hc; [|other].
  destruct (negb _); [other|apply Hc].
Qed.

Lemma safe_token h0 auth form w : safe (promise h0 (TokenEndpoint auth form)) (token enabled auth form) w.
Proof.
  unfold token. destruct enabled as [config|]; [|by destruct form; [other|]].
  destruct form as [form|]; [|done]. apply safe_authenticate. intros cid w'.
  destruct (is_some_and _ _); [other|]. destruct (negb _); [other|].
  destruct (bool_decide _); [apply safe_exchange_code|].
  destruct (bool_decide _); [apply safe_refresh|other].
Qed.

Lemma verify_access_token_Some found rs now record :
  verify_access_token found rs now = Some record ->
  found = Some record /\ kind record = "access" /\ revoked_at record = None /\
  grant_revoked_at record = None /\ timestamp now < expires_at record /\ r_resource record = rs.
Proof.
  unfold verify_access_token. destruct found as [r|]; [|done].
  destruct (String.eqb_spec (kind r) "access"); [|done]. do 2 (case_bool_decide; [|done]).
  destruct (Z.ltb_spec (timestamp now) (expires_at r)); [|done].
  destruct (String.eqb_spec (r_resource r) rs); [|done]. cbn. by intros [= <-].
Qed.

Lemma safe_verify auth w : inv w -> safe (promise w.2 (Verify auth)) (verify enabled auth) w.
Proof.
  intros Hi0. unfold verify. destruct enabled as [config|] eqn:He; [|done].
  destruct (bearer_token auth) as [tok|] eqn:Hb; [|done]. cbn [safe]. intros now.
  ask w1 Hl1 Hi1. rewrite after_read by done. cbn [exec fst snd].
  destruct (verify_access_token _ _ now) as [record|] eqn:Hv; [|done].
  apply verify_access_token_Some in Hv as (Hfind & Hk & _ & Hgv & _ & Hrs).
  destruct (find_token_rows _ _ _ Hi1 Hfind) as (t & g & _ & Hg & Hgi & _ & _ & Hgr & Hr & Hin).
  rewrite Hk, Hgi in Hin.
  destruct (rows_grant _ _ (inv_rows _ Hi1) _ _ Hg) as ((i & u & ch & Hex & Hreq) & _).
  destruct (inv_chain _ Hi1 _ Hex) as [hash Hap].
  destruct (inv_chain _ Hi1 _ Hreq) as (_ & Hsc & config' & Hc' & Hrs').
  assert (promise w.2 (Verify auth) w1 NoContent) as Hdone.
  { intros _ Hf. exists config, tok, (t_grant_id t). split_and!; [done|done| |].
    - exists i, (g_client_id g), u, ch, hash. split_and!; [|done..].
      rewrite <- Hsc. replace (OAuthServer.resource config) with (g_resource g) by congruence. done.
    - intros Hrev%(later_elem _ _ _ Hl1). apply (alive_revoked _ _ (inv_alive _ Hi1 Hf)) in Hrev.
      apply Hrev in Hg. congruence. }
  split; [done|]. intros w2 Hl2 Hi2. cbn [safe].
  split; (eapply promise_stable; [|exact Hi1|exact Hdone]); [done|].
  etrans; [exact Hl2|by apply later_after].
Qed.

Lemma safe_handler r w : inv w -> safe (promise w.2 r) (handler r) w.
Proof.
  intros Hi. destruct r; cbn [handler].
  - apply safe_register.
  - by apply safe_authorize_page.
  - apply safe_authorize_decision.
  - apply safe_token.
  - by apply safe_verify.
  - unfold list_grants. destruct enabled; [|done]. by ask w' Hl Hi'.
  - unfold OAuthServer.revoke_grant. destruct enabled; [|done]. cbn [safe]. intros now.
    ask w' Hl Hi'. by destruct (exec _ w'.1).2 as [[]|].
Qed.

(** ** Runs *)

Definition now_of (m : machine) : world := (db m, history m).

Record good (m : machine) : Prop := {
  good_inv : inv (now_of m);
  good_arrived : length (arrived m) = length (running m);
  good_tasks i t : running m !! i = Some (Some t) ->
    exists r h0, arrived m !! i = Some (r, h0) /\ safe (promise h0 r) t (now_of m);
}.

Lemma oauth_inv_start : inv (now_of start).
Proof.
  split; cbn [now_of start db history fst snd]; unfold empty_db.
  - by intros e ?%elem_of_nil.
  - split; cbn [clients grants authorizations tokens]; intros ? ? []%lookup_empty_Some.
  - intros x t. cbn [tokens]. by intros []%lookup_empty_Some.
  - split; intros x; unfold has_status, rotatable; cbn [authorizations tokens];
      rewrite lookup_empty; cbn; lia.
  - intros _. split; cbn [authorizations tokens]; [by intros g ?%elem_of_nil|intros ? ? []%lookup_empty_Some|].
    intros ? ? ? []%lookup_empty_Some.
Qed.

(** A step of one task moves the world on; the others keep their promises. *)
Lemma good_step m w' i t r h0 :
  good m -> later (now_of m) w' -> arrived m !! i = Some (r, h0) -> safe (promise h0 r) t w' ->
  good (set_task {| db := w'.1; history := w'.2; running := running m; arrived := arrived m |} i (Some t)).
Proof.
  intros [Hi Hn Ht] Hl Hr Hs. destruct w' as [d h]. split; cbn.
  - by eapply later_inv.
  - by rewrite length_insert.
  - intros j u. intros [[<- [[= <-] _]]|[Hne Hj]]%list_lookup_insert_Some.
    + by exists r, h0.
    + destruct (Ht _ _ Hj) as (r' & h' & Ha & Hs'). exists r', h'. split; [done|].
      eapply safe_later, Hs'; [apply promise_stable|done|done].
Qed.

Lemma good_turn m c : good m -> good (turn m c).
Proof.
  intros Hg. pose proof Hg as [Hi Hn Ht]. destruct c as [r|i up clock bytes|i]; cbn [turn].
  - split; cbn; [done|rewrite !length_app; cbn; lia|].
    intros j t [Hj|[Hj Hs]]%lookup_app_Some.
    + destruct (Ht _ _ Hj) as (r' & h' & Ha & Hs). exists r', h'. split; [|done].
      by apply lookup_app_l_Some.
    + destruct (j - length (running m))%nat as [|n] eqn:Hd; [|done].
      cbn in Hs. injection Hs as <-. exists r, (history m).
      split; [|by apply (safe_handler r (now_of m))].
      rewrite lookup_app_r by lia. by rewrite Hn, Hd.
  - destruct (running m !! i) as [[t|]|] eqn:Hl; [|done..].
    destruct (Ht _ _ Hl) as (r & h0 & Ha & Hs).
    assert (forall t', safe (promise h0 r) t' (now_of m) -> good (set_task m i (Some t'))) as Hstay.
    { intros t' Hs'. pose proof (good_step m (now_of m) i t' r h0 Hg (rtc_refl _ _) Ha Hs') as Hgood.
      exact Hgood. }
    destruct t as [resp|R q k|k|n k|k]; cbn [run_task]; [done| |apply Hstay, Hs..].
    destruct Hs as [Hall Hs]. destruct (Hs (now_of m) (rtc_refl _ _) Hi) as [Hfail Hok].
    destruct up; [|by apply Hstay].
    exact (good_step m (after q (now_of m)) i _ r h0 Hg (later_after q _ Hi Hall) Ha Hok).
  - split; cbn; [done|by rewrite length_insert|].
    intros j t [[<- [? _]]|[Hne Hj]]%list_lookup_insert_Some; [done|by apply Ht].
Qed.

Lemma good_runs cs : good (runs cs).
Proof.
  apply (foldl_invariant good); [intros m c _; apply good_turn|].
  split; [apply oauth_inv_start|done|]. intros i t Hl. by destruct i.
Qed.

Lemma answer_promised cs i resp :
  running (runs cs) !! i = Some (Some (Respond resp)) ->
  exists r h0, arrived (runs cs) !! i = Some (r, h0) /\ promise h0 r (now_of (runs cs)) resp.
Proof.
  intros Hl. destruct (good_tasks _ (good_runs cs) _ _ Hl) as (r & h0 & Ha & Hs). by exists r, h0.
Qed.

(** C8: Whatever requests arrive and however their statements interleave, an authorization
    code gives at most one grant per approval of its request, an approval answers one
    stored request, and a refresh token is rotated at most once per issue: with identifiers
    and tokens that do not repeat, once. *)
Theorem codes_and_tokens_used_once cs i x :
  let h := history (runs cs) in
  (count (is_exchanged i) h <= count (is_approved i) h)%nat /\
  (count (is_approved i) h + count (is_denied i) h <= count (is_stored i) h)%nat /\
  (count (is_rotated x) h <= count (is_refresh x) h)%nat /\
  (fresh h -> (count (is_stored i) h <= 1)%nat /\ (count (is_refresh x) h <= 1)%nat).
Proof.
  intros h. pose proof (inv_tallies _ (good_inv _ (good_runs cs))) as [H1 H2 H3].
  cbn [now_of fst snd] in *. fold h in H1, H2, H3. specialize (H1 i). specialize (H2 i). specialize (H3 x). split_and!; [lia..|]. intros Hf. split.
  - apply (fresh_count _ (1%nat, i) _ Hf). intros []; try done. by intros ->%String.eqb_eq.
  - apply (fresh_count _ (3%nat, x) _ Hf). intros []; try done.
    by intros [->%String.eqb_eq _]%andb_true_iff.
Qed.

(** C10: Once a grant is revoked, no access or refresh token issued under it is accepted again,
    whatever was in flight when it was revoked. *)
Theorem revocation_is_final cs g x k resource now :
  fresh (history (runs cs)) ->
  GrantRevoked g ∈ history (runs cs) -> TokenIssued x k g ∈ history (runs cs) ->
  verify_access_token (find_token (db (runs cs)) x) resource now = None /\
  rotatable (db (runs cs)) x = 0%nat.
Proof.
  intros Hf Hrev Hiss. pose proof (good_inv _ (good_runs cs)) as Hi.
  destruct (inv_alive _ Hi Hf) as [A1 A2 _]. cbn in *. specialize (A1 _ Hrev).
  assert (forall t, tokens (db (runs cs)) !! x = Some t -> t_grant_id t = g) as Hg.
  { intros t Ht%(rows_token _ _ (inv_rows _ Hi)).
    by pose proof (fresh_inj _ _ _ (3%nat, x) Hf Ht Hiss eq_refl eq_refl) as [= _ ->]. }
  split.
  - destruct (verify_access_token _ resource now) as [record|] eqn:Hv; [|done].
    apply verify_access_token_Some in Hv as (Hfind & _ & _ & Hgv & _).
    destruct (find_token_rows (now_of (runs cs)) _ _ Hi Hfind) as (t & r & Ht & Hr & _ & _ & _ & Hgr & _).
    rewrite (Hg _ Ht) in Hr. apply A1 in Hr. congruence.
  - unfold rotatable. destruct (tokens (db (runs cs)) !! x) as [t|] eqn:Ht; [|done].
    rewrite bool_decide_eq_false_2, andb_false_r; [done|]. apply (A2 x); [done|]. by rewrite (Hg _ eq_refl).
Qed.

(** C12: The reverse proxy admits a request only with an access token issued under a grant of
    this server's resource and scope, which came from a code that the owner approved, and
    which had not been revoked when the request arrived. *)
Theorem admitted_is_consented cs i auth h0 :
  fresh (history (runs cs)) ->
  arrived (runs cs) !! i = Some (Verify auth, h0) ->
  running (runs cs) !! i = Some (Some (Respond NoContent)) ->
  exists config token g, enabled = Some config /\ bearer_token auth = Some token /\
    consented (history (runs cs)) config (digest token) g /\ GrantRevoked g ∉ h0.
Proof.
  intros Hf Ha Hr. destruct (answer_promised _ _ _ Hr) as (r & h & Ha' & Hp). simplify_eq.
  by apply Hp.
Qed.

(** A request told that its code or its refresh token was already used leaves the grant
    behind it dead: whoever used it first has no live token either. *)
Theorem replay_kills_the_grant cs i auth form h0 resp :
  fresh (history (runs cs)) ->
  arrived (runs cs) !! i = Some (TokenEndpoint auth (Some form), h0) ->
  running (runs cs) !! i = Some (Some (Respond resp)) ->
  (resp = invalid_grant ALREADY_USED ->
   exists c, code form = Some c /\ code_spent (digest c) (db (runs cs), history (runs cs))) /\
  (resp = invalid_grant REUSED ->
   exists t, refresh_token form = Some t /\
     refresh_spent (digest t) (db (runs cs), history (runs cs))).
Proof.
  intros Hf Ha Hr. destruct (answer_promised _ _ _ Hr) as (r & h & Ha' & Hp). simplify_eq.
  by apply Hp.
Qed.

(** The browser is only ever sent to a redirect URI that a client registered and that
    passed the registration's checks. *)
Theorem redirects_only_where_registered cs i r h0 location :
  arrived (runs cs) !! i = Some (r, h0) ->
  (exists q, r = AuthorizePage q) \/ (exists form, r = AuthorizeDecision form) ->
  running (runs cs) !! i = Some (Some (Respond (Found location))) ->
  registered_redirect (history (runs cs)) location.
Proof.
  intros Ha Hor Hr. destruct (answer_promised _ _ _ Hr) as (r' & h & Ha' & Hp). simplify_eq.
  destruct Hor as [[q ->]|[form ->]]; by apply Hp.
Qed.

End Machine.
(** ** A run

    A library in which secrets are their own digests: an application registers, its owner
    approves it, its code is exchanged and its token admitted; then the code is replayed. *)

Fixpoint bits_text (p : positive) : string :=
  match p with
  | xH => ""
  | xO p => String "0" (bits_text p)
  | xI p => String "1" (bits_text p)
  end.

Fixpoint text_bits (s : string) : positive :=
  match s with
  | "" => xH
  | String c s => if Ascii.eqb c "0" then xO (text_bits s) else xI (text_bits s)
  end.

Lemma text_bits_text p : text_bits (bits_text p) = p.
Proof. induction p as [p IH|p IH|]; cbn; by rewrite ?IH. Qed.

Module SampleRun.

#[local] Instance libs : WebLibs := {|
  Url := string;
  url_parse s := if starts_with "https://" s then Some s else None;
  url_scheme _ := "https";
  url_host u := Some (HostDomain u);
  url_host_str u := Some u;
  url_username _ := "";
  url_password _ := None;
  url_path _ := "";
  url_query _ := None;
  url_fragment _ := None;
  url_as_str u := u;
  url_append_pairs u ps := u +:+ "?" +:+ join "&" ((fun p => p.1 +:+ "=" +:+ p.2) <$> ps);
  header_value_ok _ := true;
  form_urlencoded_first s := strip_prefix "v=" s;
  b64_url_encode s := s;
  b64_standard_decode s := Some s;
  utf8_ok _ := true;
  sha256 s := s;
  uris_to_json l := bits_text (encode l);
  uris_of_json s := decode (text_bits s);
|}.

#[local] Instance laws : WebLaws.
Proof. split. intros l. cbn. by rewrite text_bits_text, decode_encode. Qed.

Definition config : McpOAuthConfig := {| issuer := "https://vk" |}.
Definition secret43 : string := "0123456789012345678901234567890123456789abc".

Definition go (i : nat) (bytes : list string) : list choice :=
  (fun b => Run i true 1000000 b) <$> bytes.

Definition register_it : list choice :=
  Arrive (RegisterRequest (Some {| rq_redirect_uris := Some ["https://app/cb"]; rq_client_name := Some "app";
    rq_token_endpoint_auth_method := Some "none"; rq_grant_types := None; rq_response_types := None |}))
  :: go 0 [""; ""; "client"; ""].

Definition ask_consent : list choice :=
  Arrive (AuthorizePage {| aq_response_type := Some "code"; aq_client_id := Some "client";
    aq_redirect_uri := None; aq_code_challenge := Some secret43; aq_code_challenge_method := Some "S256";
    aq_state := None; aq_scope := None; aq_resource := None |})
  :: go 1 [""; ""; ""; "request"; "consent"; ""].

Definition approve : list choice :=
  Arrive (AuthorizeDecision (Some {| request_id := "request"; consent := "consent"; decision := "approve" |}))
  :: go 2 [""; ""; "code"; ""].

Definition code_form : TokenRequest :=
  {| grant_type := Some "authorization_code"; code := Some "code"; tr_redirect_uri := Some "https://app/cb";
     code_verifier := Some secret43; refresh_token := None; tr_client_id := Some "client";
     client_secret := None; tr_scope := None; tr_resource := None |}.

Definition exchange_it : list choice :=
  Arrive (TokenEndpoint None (Some code_form)) :: go 3 [""; ""; ""; "access"; "refresh"; "grant"; ""].

Definition verify_it : list choice := Arrive (Verify (Some "Bearer access")) :: go 4 [""; ""; ""].

Definition replay_it : list choice :=
  Arrive (TokenEndpoint None (Some code_form)) :: go 5 [""; ""; ""; ""; ""].

Definition admitted_run : list choice := register_it ++ ask_consent ++ approve ++ exchange_it ++ verify_it.
Definition replay_run : list choice := admitted_run ++ replay_it.

Example answers :
  running (runs (Some config) replay_run) =
    [Some (Respond (Created {| rr_client_id := "client"; rr_client_secret := None; rr_client_name := Some "app";
        rr_redirect_uris := ["https://app/cb"]; rr_token_endpoint_auth_method := "none" |}));
     Some (Respond (ConsentPage {| p_name := "app"; p_destination := "https://app/cb"; p_client_id := "client";
        p_request_id := "request"; p_consent := "consent" |}));
     Some (Respond (Found "https://app/cb?code=code&iss=https://vk"));
     Some (Respond (Tokens "access" "refresh"));
     Some (Respond NoContent);
     Some (Respond (invalid_grant ALREADY_USED))].
Proof. vm_compute. reflexivity. Qed.

(** A name of control characters is kept as an empty name, not as none. *)
Lemma control_name_is_empty :
  vr_client_name <$> (match validate_registration
    {| rq_redirect_uris := Some ["https://app/cb"]; rq_client_name := Some (String "001" "");
       rq_token_endpoint_auth_method := None; rq_grant_types := None; rq_response_types := None |}
    with Ok v => Some v | Err _ => None end) = Some (Some "").
Proof. vm_compute. reflexivity. Qed.

Lemma replay_fresh : fresh (history (runs (Some config) replay_run)).
Proof. apply (bool_decide_unpack _). vm_compute. exact I. Qed.

Lemma admitted_fresh : fresh (history (runs (Some config) admitted_run)).
Proof. apply (bool_decide_unpack _). vm_compute. exact I. Qed.

Lemma codes_and_tokens_used_once_witness :
  let h := history (runs (Some config) replay_run) in
  count (is_exchanged "request") h = 1%nat /\ (count (is_approved "request") h <= 1)%nat /\
  (count (is_rotated "refresh") h <= count (is_refresh "refresh") h)%nat.
Proof.
  destruct (codes_and_tokens_used_once (Some config) replay_run "request" "refresh") as (H1 & H2 & H3 & H4).
  destruct (H4 replay_fresh) as [H5 _]. intros h. split_and!; [vm_compute; reflexivity| |exact H3].
  clear - H2 H5. subst h. cbv zeta in *. lia.
Defined.

Lemma admitted_is_consented_witness :
  exists c token g, Some config = Some c /\ bearer_token (Some "Bearer access") = Some token /\
    consented (history (runs (Some config) admitted_run)) c (digest token) g /\
    GrantRevoked g ∉ default [] (snd <$> arrived (runs (Some config) admitted_run) !! 4%nat).
Proof.
  apply (admitted_is_consented (Some config) admitted_run 4);
    [exact admitted_fresh|vm_compute; reflexivity|vm_compute; reflexivity].
Defined.

Lemma replay_kills_the_grant_witness :
  exists c, code code_form = Some c /\
    code_spent (digest c) (db (runs (Some config) replay_run), history (runs (Some config) replay_run)).
Proof.
  apply (replay_kills_the_grant (Some config) replay_run 5 None code_form
           (default [] (snd <$> arrived (runs (Some config) replay_run) !! 5%nat)) (invalid_grant ALREADY_USED));
    [exact replay_fresh|vm_compute; reflexivity|vm_compute; reflexivity|reflexivity].
Defined.

Lemma revocation_is_final_witness :
  verify_access_token (find_token (db (runs (Some config) replay_run)) "access") "https://vk/oauth/mcp" 1000000
    = None /\
  rotatable (db (runs (Some config) replay_run)) "access" = 0%nat.
Proof.
  apply (revocation_is_final (Some config) replay_run "grant" "access" "access"); [exact replay_fresh|..].
  - apply (bool_decide_unpack _). vm_compute. exact I.
  - apply (bool_decide_unpack _). vm_compute. exact I.
Defined.

Lemma redirects_only_where_registered_witness :
  registered_redirect (history (runs (Some config) replay_run)) "https://app/cb?code=code&iss=https://vk".
Proof.
  eapply (redirects_only_where_registered (Some config) replay_run 2);
    [vm_compute; reflexivity|right; eexists; reflexivity|vm_compute; reflexivity].
Defined.

Lemma consent_page_is_inert_witness :
  contains_char "<" (html_escape "<b>" +:+ html_escape "x" +:+ html_escape "y" +:+ html_escape "z" +:+ html_escape "'")
    = false.
Proof.
  apply (consent_page_is_inert {| v_client_name := Some "<b>"; v_client_id := "y"; v_redirect_uri := "x";
           v_request_id := "z"; v_consent := "'" |}
           {| p_name := html_escape "<b>"; p_destination := html_escape "x"; p_client_id := html_escape "y";
              p_request_id := html_escape "z"; p_consent := html_escape "'" |}); [reflexivity|by left].
Defined.

End SampleRun.

End OAuthRuns.
