(* ===== verification/ClusterMetrics.v ===== *)
(** * Host metrics of the cluster

    [ClusterMetrics] is crates/services/src/services/cluster/metrics.rs: the readings the
    coordinator keeps of every node, the collection rounds that poll the workers, and the
    snapshot a viewer is shown.  A round is two sections under the lock of the node map, with
    the requests in between; [Collector] is the task that runs rounds while anybody is
    watching, as a machine of its atomic operations.  The batches are those of
    [Metrics.Sampler]. *)
From S2P Require Import Prelude ClusterProtocol WorkerNode Metrics.

Module ClusterMetrics.

(* crates/services/src/services/cluster/metrics.rs:63-63 STALE_AFTER_TICKS *)
Definition STALE_AFTER_TICKS : Z := 5.

(* crates/services/src/services/cluster/metrics.rs:72-81 NodeHealth *)
Record NodeHealth := {
  status : WorkerNode.WorkerNodeStatus;
  mount_status : option WorkerNode.WorkerMountStatus;
  lease_expires_at : option DateTime;
  schedulable : bool;
}.

#[global] Instance node_health_eq_dec : EqDecision NodeHealth.
Proof. solve_decision. Defined.

(* crates/node-metrics/src/types.rs:308-311 NodeRole *)
Inductive NodeRole := Coordinator | Worker.

(* crates/node-metrics/src/types.rs:322-337 NodeMetricsAvailability *)
Inductive NodeMetricsAvailability :=
| Available
| Stale (since : DateTime)
| NotCollected
| Unsupported (platform : string)
| Unreachable (reason : string)
| NotImplemented.

#[global] Instance availability_eq_dec : EqDecision NodeMetricsAvailability.
Proof. solve_decision. Defined.

(* crates/services/src/services/cluster/metrics.rs:129-132 MetricsFetchError *)
Inductive MetricsFetchError := FetchUnreachable (reason : string) | FetchNotImplemented.

(* crates/node-metrics/src/types.rs:278-284 SamplerConfig *)
Record SamplerConfig := { interval_ms : Z; retention : Z; max_processes : Z }.

Section Metrics.
(** The readings of a sample besides those named here, and its process table. *)
Context {R Table : Type}.

Record Observed := { o_hostname : string; captured_at : DateTime; rest : R }.

Definition Sample : Type := Sampler.HostSample (Readings := Observed) (Table := Table).
Definition Batch : Type := Sampler.SampleBatch (Readings := Observed) (Table := Table).

Definition sample_hostname (s : Sample) : string := o_hostname (Sampler.readings s).
Definition sample_captured_at (s : Sample) : DateTime := captured_at (Sampler.readings s).

(* crates/services/src/services/cluster/metrics.rs:85-100 MetricsNode *)
Record MetricsNode := {
  node_id : Uuid;
  hostname : string;
  role : NodeRole;
  health : option NodeHealth;
  availability : NodeMetricsAvailability;
  latest : option Sample;
  history : list Sample;
  last_contact_at : option DateTime;
}.

(* crates/services/src/services/cluster/metrics.rs:180-191 NodeState *)
Record NodeState := {
  generation : Z;
  cursor : Z;
  n_availability : NodeMetricsAvailability;
  n_hostname : option string;
  n_latest : option Sample;
  n_history : list Sample;
  n_last_contact_at : option DateTime;
  last_sample_at : option DateTime;
}.

(* crates/services/src/services/cluster/metrics.rs:194-205 NodeState::new *)
Definition new_state (g : Z) : NodeState :=
  {| generation := g; cursor := 0; n_availability := NotCollected; n_hostname := None;
     n_latest := None; n_history := []; n_last_contact_at := None; last_sample_at := None |}.

Definition with_cursor (s : NodeState) c : NodeState :=
  {| generation := generation s; cursor := c; n_availability := n_availability s;
     n_hostname := n_hostname s; n_latest := n_latest s; n_history := n_history s;
     n_last_contact_at := n_last_contact_at s; last_sample_at := last_sample_at s |}.
Definition with_availability (s : NodeState) a : NodeState :=
  {| generation := generation s; cursor := cursor s; n_availability := a;
     n_hostname := n_hostname s; n_latest := n_latest s; n_history := n_history s;
     n_last_contact_at := n_last_contact_at s; last_sample_at := last_sample_at s |}.
Definition with_history (s : NodeState) h : NodeState :=
  {| generation := generation s; cursor := cursor s; n_availability := n_availability s;
     n_hostname := n_hostname s; n_latest := n_latest s; n_history := h;
     n_last_contact_at := n_last_contact_at s; last_sample_at := last_sample_at s |}.
Definition with_contact (s : NodeState) t : NodeState :=
  {| generation := generation s; cursor := cursor s; n_availability := n_availability s;
     n_hostname := n_hostname s; n_latest := n_latest s; n_history := n_history s;
     n_last_contact_at := t; last_sample_at := last_sample_at s |}.

(* crates/services/src/services/cluster/metrics.rs:207-210 NodeState::clear_readings *)
Definition clear_readings (s : NodeState) : NodeState :=
  {| generation := generation s; cursor := cursor s; n_availability := n_availability s;
     n_hostname := n_hostname s; n_latest := None; n_history := [];
     n_last_contact_at := n_last_contact_at s; last_sample_at := last_sample_at s |}.

Definition receive (s : NodeState) (x : Sample) : NodeState :=
  {| generation := generation s; cursor := Z.max (cursor s) (Sampler.sequence x);
     n_availability := n_availability s; n_hostname := Some (sample_hostname x);
     n_latest := Some x; n_history := n_history s ++ [Sampler.without_processes x];
     n_last_contact_at := n_last_contact_at s; last_sample_at := Some (sample_captured_at x) |}.

Definition millis (n : Z) : Duration := n * 1000000.

Definition keep_last {A} (n : nat) (l : list A) : list A := drop (length l - n) l.

(* crates/services/src/services/cluster/metrics.rs:636-701 apply_outcome *)
Definition apply_outcome (state : NodeState) (after : Z) (outcome : result Batch MetricsFetchError)
    (now : DateTime) (config : SamplerConfig) : NodeState :=
  match outcome with
  | Err FetchNotImplemented => with_availability state NotImplemented
  | Err (FetchUnreachable reason) => with_availability state (Unreachable reason)
  | Ok batch =>
      let state := with_contact state (Some now) in
      let state :=
        if Sampler.batch_latest_sequence batch <? after then clear_readings (with_cursor state 0)
        else state in
      let state := if Sampler.has_gap batch after then clear_readings state else state in
      let received := negb (bool_decide (length (Sampler.batch_samples batch) = 0%nat)) in
      let state := foldl receive state (Sampler.batch_samples batch) in
      let state := with_cursor state (Z.max (cursor state) (Sampler.batch_latest_sequence batch)) in
      let kept := Nat.max (Z.to_nat (retention config)) 1 in
      let state := with_history state (keep_last kept (n_history state)) in
      let stale_after := millis (interval_ms config * STALE_AFTER_TICKS) in
      with_availability state
        (if received then Available
         else
           let since := default now (last_sample_at state) in
           if bool_decide (is_Some (n_latest state)) && (now - since <? stale_after) then Available
           else Stale since)
  end.

(* crates/services/src/services/cluster/metrics.rs:707-721 expire_locked *)
Definition expire_state (now : DateTime) (window : Duration) (state : NodeState) : NodeState :=
  if bool_decide (n_availability state = Available) then state
  else
    let expired := match n_latest state with
                   | Some sample => window <? now - sample_captured_at sample
                   | None => false
                   end in
    if expired then clear_readings state else state.

Definition expire_locked (nodes : gmap Uuid NodeState) (now : DateTime) (window : Duration)
    : gmap Uuid NodeState :=
  expire_state now window <$> nodes.

Section Health.
Context {Value : Type}.
Implicit Types worker : WorkerNode.WorkerNode Value.

(* crates/services/src/services/cluster/metrics.rs:619-634 display_health *)
Definition display_health worker (now : DateTime) : NodeHealth :=
  let lapsed := match WorkerNode.lease_expires_at worker with
                | Some expires_at => expires_at <=? now
                | None => true
                end in
  let status :=
    if bool_decide (WorkerNode.status worker = WorkerNode.Online) && lapsed then WorkerNode.Offline
    else WorkerNode.status worker in
  {| ClusterMetrics.status := status;
     mount_status := Some (WorkerNode.mount_status worker);
     lease_expires_at := WorkerNode.lease_expires_at worker;
     schedulable := bool_decide (status = WorkerNode.Online)
                    && WorkerNode.is_healthy (WorkerNode.mount_status worker) |}.

(** ** The service *)

(** The state behind the node map's lock, with the generation counter; the rest of
    [ClusterMetricsService] is fixed and passed as arguments. *)
Record Service := { nodes : gmap Uuid NodeState; generations : Z }.

Definition with_nodes (s : Service) n : Service := {| nodes := n; generations := generations s |}.

Context (coordinator_node_id : Uuid) (coordinator_hostname : string) (config : SamplerConfig).
(** [cfg!(target_os = "linux")] and the name of another system. *)
Context (linux : bool) (os : string).

(* crates/services/src/services/cluster/metrics.rs:547-556 ClusterMetricsService::reconcile *)
Definition reconcile (s : Service) (workers : list (WorkerNode.WorkerNode Value)) : Service :=
  let known := WorkerNode.id <$> workers in
  let s := with_nodes s (filter (fun kv => kv.1 = coordinator_node_id \/ kv.1 ∈ known) (nodes s)) in
  foldl (fun s worker =>
           match nodes s !! WorkerNode.id worker with
           | Some _ => s
           | None => {| nodes := <[WorkerNode.id worker := new_state (generations s)]> (nodes s);
                        generations := generations s + 1 |}
           end) s workers.

(* crates/services/src/services/cluster/metrics.rs:558-563 ClusterMetricsService::retention_window *)
Definition retention_window : Duration :=
  let ms := interval_ms config * retention config in
  if ms <=? i64_max then millis ms else from_secs 300.

(* crates/services/src/services/cluster/metrics.rs:565-568 ClusterMetricsService::expire *)
Definition expire (s : Service) (now : DateTime) : Service :=
  with_nodes s (expire_locked (nodes s) now retention_window).

Definition local_cursor (s : Service) : Z :=
  match nodes s !! coordinator_node_id with Some state => cursor state | None => 0 end.

(** [local] is the ring of the coordinator's own sampler. *)
(* crates/services/src/services/cluster/metrics.rs:517-540 ClusterMetricsService::ingest_local *)
Definition ingest_local {Counters} (s : Service)
    (local : Sampler.Ring (Readings := Observed) (Table := Table) (Counters := Counters))
    (now : DateTime) : Service :=
  let cursor := local_cursor s in
  let batch := Sampler.since local cursor in
  let unsupported := (Sampler.batch_latest_sequence batch =? 0) && negb linux in
  let state := default (new_state (generations s)) (nodes s !! coordinator_node_id) in
  let state :=
    if unsupported then with_availability state (Unsupported os)
    else apply_outcome state cursor (Ok batch) now config in
  {| nodes := <[coordinator_node_id := state]> (nodes s); generations := generations s + 1 |}.

(** The first section of a round, after the local ring was read: the workers to poll, each
    with the generation and the cursor of its entry. *)
(* crates/services/src/services/cluster/metrics.rs:388-401 ClusterMetricsService::collect_round *)
Definition round_targets (s : Service) (workers : list (WorkerNode.WorkerNode Value)) (now : DateTime)
    : Service * list (Uuid * Z * Z) :=
  let s := reconcile s workers in
  (s, omap (fun worker =>
              if bool_decide (status (display_health worker now) = WorkerNode.Offline) then None
              else (fun state => (WorkerNode.id worker, generation state, cursor state))
                     <$> nodes s !! WorkerNode.id worker) workers).

Definition write_back (s : Service) (now : DateTime)
    (r : Uuid * Z * Z * result Batch MetricsFetchError) : Service :=
  let '(node_id, g, after, outcome) := r in
  match nodes s !! node_id with
  | None => s
  | Some state =>
      if generation state =? g then
        with_nodes s (<[node_id := apply_outcome state after outcome now config]> (nodes s))
      else s
  end.

(** The second section, with the replies. *)
(* crates/services/src/services/cluster/metrics.rs:424-439 ClusterMetricsService::collect_round *)
Definition round_results (s : Service) (now : DateTime)
    (results : list (Uuid * Z * Z * result Batch MetricsFetchError)) : Service :=
  expire (foldl (fun s r => write_back s now r) s results) now.

(** A whole round with nothing between its sections; [fetch] is the workers' answers, if
    there is a channel to them.  A round that finds another one running does nothing. *)
(* crates/services/src/services/cluster/metrics.rs:373-440 ClusterMetricsService::collect_round *)
Definition collect_round {Counters} (s : Service)
    (local : Sampler.Ring (Readings := Observed) (Table := Table) (Counters := Counters))
    (workers : option (list (WorkerNode.WorkerNode Value)))
    (fetch : option (Uuid -> Z -> result Batch MetricsFetchError)) (now : DateTime) : Service :=
  match workers with
  | None => s
  | Some workers =>
      let s := ingest_local s local now in
      let '(s, targets) := round_targets s workers now in
      match fetch with
      | None => expire s now
      | Some fetch =>
          if bool_decide (length targets = 0%nat) then expire s now
          else round_results s now ((fun t => (t, fetch t.1.1 t.2)) <$> targets)
      end
  end.

(** ** The snapshot *)

Context {Thresholds : Type}.

(* crates/services/src/services/cluster/metrics.rs:104-114 ClusterMetricsSnapshot *)
Record ClusterMetricsSnapshot := {
  s_nodes : gmap Uuid MetricsNode;
  generated_at : DateTime;
  sample_interval_ms : Z;
  disk_alert_thresholds : Thresholds;
}.

Definition node_view (i : Uuid) (state : option NodeState) (fallback : string) (r : NodeRole)
    (h : option NodeHealth) : MetricsNode :=
  {| node_id := i;
     hostname := default fallback (state ≫= n_hostname);
     role := r;
     health := h;
     availability := match state with Some st => n_availability st | None => NotCollected end;
     latest := state ≫= n_latest;
     history := match state with Some st => n_history st | None => [] end;
     last_contact_at := state ≫= n_last_contact_at |}.

(* crates/services/src/services/cluster/metrics.rs:445-510 ClusterMetricsService::snapshot *)
Definition snapshot {Counters} (thresholds : Thresholds) (s : Service)
    (local : Sampler.Ring (Readings := Observed) (Table := Table) (Counters := Counters))
    (workers : list (WorkerNode.WorkerNode Value)) (now : DateTime)
    : Service * ClusterMetricsSnapshot :=
  let s := ingest_local s local now in
  let s := reconcile s workers in
  let s := expire s now in
  let map := nodes s in
  let coordinator :=
    <[coordinator_node_id :=
        node_view coordinator_node_id (map !! coordinator_node_id) coordinator_hostname
          Coordinator None]> ∅ in
  (s, {| s_nodes :=
           foldl (fun m worker =>
                    <[WorkerNode.id worker :=
                        node_view (WorkerNode.id worker) (map !! WorkerNode.id worker)
                          (WorkerNode.hostname worker) Worker
                          (Some (display_health worker now))]> m) coordinator workers;
         generated_at := now;
         sample_interval_ms := interval_ms config;
         disk_alert_thresholds := thresholds |}).

(** ** Replies of an earlier registration *)

(** Entries carry distinct pasts: every generation is below the counter. *)
Definition numbered (s : Service) : Prop :=
  forall i st, nodes s !! i = Some st -> generation st < generations s.

Lemma apply_outcome_generation st after o now cfg :
  generation (apply_outcome st after o now cfg) = generation st.
Proof.
  unfold apply_outcome. destruct o as [b|[reason|]]; [|done..]. cbn.
  set (st0 := if Sampler.has_gap b after then _ else _).
  assert (generation st0 = generation st) as <- by (unfold st0; by repeat case_match).
  generalize (Sampler.batch_samples b). clearbody st0. intros l.
  revert st0. induction l as [|x l IH]; intros st0; [done|]. cbn. by rewrite IH.
Qed.

Lemma expire_state_generation now window st : generation (expire_state now window st) = generation st.
Proof. unfold expire_state. by repeat case_match. Qed.

(** A section under the lock: what it does to the entry of [i], besides its readings. *)
Inductive section (s s' : Service) : Prop :=
| section_intro :
    generations s <= generations s' ->
    (forall i st', nodes s' !! i = Some st' ->
       generations s <= generation st' < generations s' \/
       exists st, nodes s !! i = Some st /\ generation st' = generation st) ->
    section s s'.

#[global] Instance section_preorder : PreOrder section.
Proof.
  split.
  - intros s. split; [lia|]. intros i st Hi. right. eauto.
  - intros s1 s2 s3 [H12 H12'] [H23 H23']. split; [lia|].
    intros i st3 [|(st2 & [|(st1 & ? & ?)]%H12' & ?)]%H23'; [left; lia|left; lia|right].
    exists st1. split; [done|congruence].
Qed.

Lemma section_numbered s s' : section s s' -> numbered s -> numbered s'.
Proof. intros [Hg Hs] Hn i st' [|(st & Hi%Hn & ->)]%Hs; lia. Qed.

Lemma section_update s i st st' :
  nodes s !! i = Some st -> generation st' = generation st ->
  section s (with_nodes s (<[i := st']> (nodes s))).
Proof.
  intros Hi Hg. split; [cbn; lia|]. cbn. intros j u. rewrite lookup_insert_Some.
  intros [[<- <-]|[_ Hj]]; right; eauto.
Qed.

Lemma section_insert s i st' :
  generation st' = generations s \/ (exists st, nodes s !! i = Some st /\ generation st' = generation st) ->
  section s {| nodes := <[i := st']> (nodes s); generations := generations s + 1 |}.
Proof.
  intros Hg. split; [cbn; lia|]. cbn. intros j u. rewrite lookup_insert_Some.
  intros [[<- <-]|[_ Hj]]; [|right; eauto]. destruct Hg as [->|(st & ? & ?)]; [left; lia|right; eauto].
Qed.

Lemma section_retain s (P : Uuid * NodeState -> Prop) `{!forall kv, Decision (P kv)} :
  section s (with_nodes s (filter P (nodes s))).
Proof.
  split; [cbn; lia|]. cbn. intros i st [Hi _]%map_lookup_filter_Some. right. eauto.
Qed.

Lemma section_reconcile s workers : section s (reconcile s workers).
Proof.
  unfold reconcile. apply (foldl_invariant (section s)); [|apply section_retain].
  intros s' w _ Hs. etrans; [exact Hs|].
  destruct (nodes s' !! WorkerNode.id w); [done|]. apply section_insert. by left.
Qed.

Lemma section_expire s now : section s (expire s now).
Proof.
  split; [cbn; lia|]. intros i st'. cbn. unfold expire_locked. rewrite lookup_fmap.
  intros (st & Hi & ->)%fmap_Some. right. exists st. by rewrite expire_state_generation.
Qed.

Lemma section_ingest {Counters} s (local : Sampler.Ring (Counters := Counters)) now :
  section s (ingest_local s local now).
Proof.
  apply section_insert. destruct (nodes s !! coordinator_node_id) as [st|] eqn:Hc; [right|left].
  - exists st. split; [done|]. cbn [default from_option]. destruct (_ && _); [done|].
    by rewrite apply_outcome_generation.
  - cbn [default from_option]. destruct (_ && _); [done|]. by rewrite apply_outcome_generation.
Qed.

Lemma section_write_back s now r : section s (write_back s now r).
Proof.
  destruct r as [[[i g] after] o]. unfold write_back. destruct (nodes s !! i) as [st|] eqn:Hi; [|done].
  destruct (generation st =? g); [|done]. eapply section_update; [done|]. by rewrite apply_outcome_generation.
Qed.

Lemma section_results s now rs : section s (round_results s now rs).
Proof.
  etrans; [|apply section_expire]. apply (foldl_invariant (section s)); [|done].
  intros s' r _ Hs. etrans; [exact Hs|apply section_write_back].
Qed.

(** The sections that run under the lock between two requests of a round. *)
Inductive elapses {Counters : Type} : Service -> Service -> Prop :=
| elapse_targets s local workers now :
    elapses s (round_targets (ingest_local (Counters := Counters) s local now) workers now).1
| elapse_results s now rs : elapses s (round_results s now rs)
| elapse_snapshot thresholds s local workers now :
    elapses s (snapshot (Counters := Counters) thresholds s local workers now).1.

Lemma elapses_section {Counters : Type} s s' : elapses (Counters := Counters) s s' -> section s s'.
Proof.
  intros [s0 local workers now|s0 now rs|thresholds s0 local workers now]; cbn.
  - etrans; [apply (section_ingest s0 local now)|apply section_reconcile].
  - apply section_results.
  - etrans; [apply (section_ingest s0 local now)|].
    etrans; [apply section_reconcile|apply section_expire].
Qed.

Lemma later_section {Counters : Type} s s' : rtc (elapses (Counters := Counters)) s s' -> section s s'.
Proof. induction 1 as [|s1 s2 s3 Hs _ IH]; [done|]. etrans; [by eapply elapses_section|done]. Qed.

(** A worker that was removed while its request was in flight is not brought back by the
    reply, and if it has registered again the reply does not touch the new entry, whatever
    ran in between. *)
Theorem late_reply_is_dropped {Counters : Type} s1 s2 s3 s4 i g after o now :
  numbered s1 ->
  (exists st, nodes s1 !! i = Some st /\ generation st = g) ->
  rtc (elapses (Counters := Counters)) s1 s2 -> nodes s2 !! i = None ->
  rtc (elapses (Counters := Counters)) s2 s3 ->
  s4 = write_back s3 now (i, g, after, o) -> s4 = s3.
Proof.
  intros Hn (st & Hi & <-) H12%later_section Hgone [Hg Hs]%later_section ->. unfold write_back.
  destruct (nodes s3 !! i) as [st3|] eqn:H3; [|done].
  destruct (Z.eqb_spec (generation st3) (generation st)) as [He|]; [|done]. exfalso.
  apply Hn in Hi. destruct H12 as [H12 _].
  apply Hs in H3 as [?|(st2 & ? & _)]; [lia|congruence].
Qed.

(** ** Display *)

(** The health shown for a worker is the one its row would have after the expiry of leases
    that the registry runs, without running it. *)
Theorem display_matches_expiry (t : gmap Uuid (WorkerNode.WorkerNode Value)) i worker now clock :
  t !! i = Some worker ->
  exists row, (WorkerNode.expire_leases t now clock).1 !! i = Some row /\
    status (display_health worker now) = WorkerNode.status row /\
    lease_expires_at (display_health worker now) = WorkerNode.lease_expires_at row /\
    schedulable (display_health worker now) =
      bool_decide (WorkerNode.status row = WorkerNode.Online)
      && WorkerNode.is_healthy (WorkerNode.mount_status row).
Proof.
  intros Hi. cbn. rewrite lookup_fmap, Hi. cbn. eexists. split; [done|].
  unfold WorkerNode.lease_lapsed.
  destruct (WorkerNode.lease_expires_at worker) as [e|] eqn:He; case_bool_decide as Hon; cbn;
    [|by rewrite ?He..].
  destruct (Z.leb_spec e now); cbn.
  - rewrite !bool_decide_eq_true_2 by done. by rewrite ?He.
  - rewrite (bool_decide_eq_false_2 (e <= now)) by lia. by rewrite ?He, ?Hon.
Qed.

End Health.
End Metrics.
End ClusterMetrics.

(** ** The collecting task

    One task at most runs rounds, while anybody watches.  Its loop and [subscribe] touch a
    counter and a flag, each in one atomic operation; these operations are the steps. *)
Module Collector.

(** Where the loop of a collecting task is: before its first load of the counter, in a
    round, having read zero, having cleared the flag, or having read a subscriber since. *)
Inductive pc := Ticking | Collecting | ReadZero | Cleared | Reclaiming.

#[global] Instance pc_eq_dec : EqDecision pc.
Proof. solve_decision. Defined.

(** [entering] counts the subscribers between their increment and their swap. *)
Record State := {
  subscribers : Z;
  collector_running : bool;
  entering : Z;
  tasks : list pc;
}.

Definition start : State :=
  {| subscribers := 0; collector_running := false; entering := 0; tasks := [] |}.

Inductive action := SubscribeAdd | SubscribeSwap | Unsubscribe | Task (i : nat).

(** A task's next operation: the new counter state, and its new position unless it returns. *)
(* crates/services/src/services/cluster/metrics.rs:322-354 ClusterMetricsService::ensure_collector *)
Definition advance (s : State) (p : pc) : bool * option pc :=
  match p with
  | Ticking => (collector_running s, Some (if subscribers s =? 0 then ReadZero else Collecting))
  | Collecting => (collector_running s, Some Ticking)
  | ReadZero => (false, Some Cleared)
  | Cleared => (collector_running s, if subscribers s =? 0 then None else Some Reclaiming)
  | Reclaiming => (true, if collector_running s then None else Some Ticking)
  end.

(* crates/services/src/services/cluster/metrics.rs:314-320 ClusterMetricsService::subscribe *)
Definition step (s : State) (a : action) : State :=
  match a with
  | SubscribeAdd =>
      {| subscribers := subscribers s + 1; collector_running := collector_running s;
         entering := entering s + 1; tasks := tasks s |}
  | SubscribeSwap =>
      if 0 <? entering s then
        {| subscribers := subscribers s; collector_running := true; entering := entering s - 1;
           tasks := if collector_running s then tasks s else tasks s ++ [Ticking] |}
      else s
  | Unsubscribe =>
      if entering s <? subscribers s then
        {| subscribers := subscribers s - 1; collector_running := collector_running s;
           entering := entering s; tasks := tasks s |}
      else s
  | Task i =>
      match tasks s !! i with
      | Some p =>
          let '(flag, p') := advance s p in
          {| subscribers := subscribers s; collector_running := flag; entering := entering s;
             tasks := match p' with
                      | Some p' => <[i := p']> (tasks s)
                      | None => delete i (tasks s)
                      end |}
      | None => s
      end
  end.

Definition runs (l : list action) : State := foldl step start l.

(** The tasks that own the flag. *)
Definition owner (p : pc) : bool :=
  match p with Ticking | Collecting | ReadZero => true | Cleared | Reclaiming => false end.

Definition owners (l : list pc) : nat := length (List.filter owner l).

Record inv (s : State) : Prop := {
  entering_bounds : 0 <= entering s <= subscribers s;
  one_owner : owners (tasks s) = if collector_running s then 1%nat else 0%nat;
  covered : collector_running s = false -> entering s < subscribers s ->
    Cleared ∈ tasks s \/ Reclaiming ∈ tasks s;
}.

Lemma owners_app l k : owners (l ++ k) = (owners l + owners k)%nat.
Proof. unfold owners. by rewrite List.filter_app, length_app. Qed.

Lemma owners_middle l1 p l2 :
  owners (l1 ++ p :: l2) = ((if owner p then 1 else 0) + owners (l1 ++ l2))%nat.
Proof. rewrite !owners_app. unfold owners. cbn. destruct (owner p); cbn; lia. Qed.

Lemma collector_inv_step s a : inv s -> inv (step s a).
Proof.
  intros [Hb Ho Hc]. destruct a as [| | |i]; cbn [step].
  - split; cbn [subscribers collector_running entering tasks]; [lia|done|]. intros Hf Hlt. apply Hc; [done|lia].
  - destruct (Z.ltb_spec 0 (entering s)); [|done]. split; cbn [subscribers collector_running entering tasks]; [lia| |done].
    destruct (collector_running s); [done|]. rewrite owners_app, Ho. done.
  - destruct (Z.ltb_spec (entering s) (subscribers s)); [|done]. split; cbn [subscribers collector_running entering tasks]; [lia|done|].
    intros Hf Hlt. apply Hc; [done|lia].
  - destruct (tasks s !! i) as [p|] eqn:Hi; [|done].
    destruct (list_elem_of_split_length _ _ _ Hi) as (l1 & l2 & Hl & Hlen).
    assert (forall q, <[i := q]> (tasks s) = l1 ++ q :: l2) as Hins.
    { intros q. by rewrite Hl, Hlen, insert_app_r_alt, Nat.sub_diag by lia. }
    assert (delete i (tasks s) = l1 ++ l2) as Hdel by (by rewrite Hl, Hlen, delete_middle).
    rewrite Hl, owners_middle in Ho. rewrite Hl in Hc.
    destruct p; cbn [advance owner] in *; try (destruct (subscribers s =? 0) eqn:Hz);
      try (destruct (collector_running s) eqn:Hf); split; cbn [subscribers collector_running entering tasks];
      rewrite ?Hins, ?Hdel, ?owners_middle; cbn [owner]; try done; try lia;
      intros Hff Hlt; try (destruct (Hc Hff Hlt) as [Hx|Hx]; set_solver); try set_solver;
      try (apply Z.eqb_eq in Hz; lia).
Qed.

Lemma inv_runs l : inv (runs l).
Proof.
  apply (foldl_invariant inv); [intros s a _; apply collector_inv_step|]. split; cbn; [lia|done|lia].
Qed.

(** At most one task runs rounds; and once every subscriber has been through [subscribe]
    and no task is between clearing the flag and looking again, somebody watches only while
    such a task is there. *)
Theorem watched_is_collected l :
  (owners (tasks (runs l)) <= 1)%nat /\
  (entering (runs l) < subscribers (runs l) ->
   Cleared ∉ tasks (runs l) -> Reclaiming ∉ tasks (runs l) ->
   collector_running (runs l) = true /\ owners (tasks (runs l)) = 1%nat).
Proof.
  destruct (inv_runs l) as [Hb Ho Hc]. split; [rewrite Ho; destruct (collector_running _); lia|].
  intros Hlt Hcl Hre. destruct (collector_running (runs l)) eqn:Hf; [done|].
  by destruct (Hc eq_refl Hlt).
Qed.

(** A subscriber that arrives while the task gives up is served by the same task. *)
Example watched_is_collected_witness :
  let l := [SubscribeAdd; SubscribeSwap; Unsubscribe; Task 0; SubscribeAdd; SubscribeSwap;
            Task 0; Task 0; Task 0] in
  collector_running (runs l) = true /\ owners (tasks (runs l)) = 1%nat.
Proof.
  intros l. apply (watched_is_collected l); vm_compute; [reflexivity| |]; intros H;
    repeat (apply elem_of_cons in H as [H|H]; [discriminate|]); by apply elem_of_nil in H.
Defined.

End Collector.
