(* ===== verification/MetricsPatch.v ===== *)
(** * The patches a metrics viewer receives

    [MetricsPatch] is crates/server/src/routes/cluster_metrics/patch.rs: the builder that
    sends one viewer the changes between two snapshots of [ClusterMetrics], or the node map
    again.  A path is the list of its reference tokens, a value the data that is serialised
    into it, and the viewer's document is patched by the rules of RFC 6902. *)
From stdpp Require Import pretty.
From S2P Require Import Prelude WorkerNode Metrics ClusterMetrics.
Import ClusterMetrics.

Module MetricsPatch.

(* crates/server/src/routes/cluster_metrics/patch.rs:36-36 RESNAPSHOT_INTERVAL *)
Definition RESNAPSHOT_INTERVAL : Duration := from_secs 30.
(* crates/server/src/routes/cluster_metrics/patch.rs:41-41 MAX_APPENDS_PER_TICK *)
Definition MAX_APPENDS_PER_TICK : nat := 8.

Section Patch.
Context {R Table Thresholds : Type}.
Notation Sample := (Sample (R := R) (Table := Table)).
Notation MetricsNode := (MetricsNode (R := R) (Table := Table)).
Notation Snapshot := (ClusterMetricsSnapshot (R := R) (Table := Table) (Thresholds := Thresholds)).

(** The hyphenated form of an identifier; it has no character a pointer escapes. *)
Context (uuid_display : Uuid -> string) `{Huuid : !Inj (=) (=) uuid_display}.

Inductive value :=
| Nodes (m : gmap Uuid MetricsNode)
| Instant (t : DateTime)
| DiskThresholds (t : Thresholds)
| Latest (s : option Sample)
| Entry (s : Sample)
| NodeAvailability (a : NodeMetricsAvailability)
| Health (h : option NodeHealth).

Inductive PatchOperation :=
| Replace (path : list string) (v : value)
| Add (path : list string) (v : value)
| Remove (path : list string).

(* crates/server/src/routes/cluster_metrics/patch.rs:43-43 NODES_PATH *)
Definition NODES_PATH : list string := ["nodes"].
(* crates/server/src/routes/cluster_metrics/patch.rs:44-44 GENERATED_AT_PATH *)
Definition GENERATED_AT_PATH : list string := ["generated_at"].
(* crates/server/src/routes/cluster_metrics/patch.rs:45-45 DISK_ALERT_THRESHOLDS_PATH *)
Definition DISK_ALERT_THRESHOLDS_PATH : list string := ["disk_alert_thresholds"].

(* crates/server/src/routes/cluster_metrics/patch.rs:47-51 node_path *)
Definition node_path (i : Uuid) (suffix : list string) : list string :=
  NODES_PATH ++ [uuid_display i] ++ suffix.

(* crates/server/src/routes/cluster_metrics/patch.rs:87-93 NodeCursor *)
Record NodeCursor := {
  latest_sequence : option Z;
  history_len : nat;
  history_last_sequence : option Z;
  c_availability : NodeMetricsAvailability;
  c_health : option NodeHealth;
}.

(* crates/server/src/routes/cluster_metrics/patch.rs:96-104 NodeCursor::of *)
Definition cursor_of (node : MetricsNode) : NodeCursor :=
  {| latest_sequence := Sampler.sequence <$> latest node;
     history_len := length (history node);
     history_last_sequence := Sampler.sequence <$> last (history node);
     c_availability := availability node;
     c_health := health node |}.

(* crates/server/src/routes/cluster_metrics/patch.rs:108-111 NodeOperations *)
Record NodeOperations := { ops : list PatchOperation; appends : nat }.

(** [usize::checked_sub] *)
Definition checked_sub (a b : nat) : option nat :=
  if (b <=? a)%nat then Some (a - b)%nat else None.

(** The loop over the fresh samples: an append each, and a removal at the front while any
    are due. *)
Fixpoint append_ops (i : Uuid) (remaining : nat) (fresh : list Sample) : list PatchOperation :=
  match fresh with
  | [] => []
  | sample :: fresh =>
      Add (node_path i ["history"; "-"]) (Entry sample)
      :: match remaining with
         | O => append_ops i O fresh
         | S remaining => Remove (node_path i ["history"; "0"]) :: append_ops i remaining fresh
         end
  end.

Definition fresh_samples (c : NodeCursor) (node : MetricsNode) : list Sample :=
  match history_last_sequence c with
  | Some previous => filter (fun s => previous < Sampler.sequence s) (history node)
  | None => history node
  end.

(* crates/server/src/routes/cluster_metrics/patch.rs:200-284 node_operations *)
Definition node_operations (i : Uuid) (c : NodeCursor) (node : MetricsNode) : option NodeOperations :=
  if bool_decide (is_Some (latest_sequence c)) && bool_decide (latest node = None :> option Sample) then None
  else if match latest_sequence c, latest node with
          | Some previous, Some sample => Sampler.sequence sample <? previous
          | _, _ => false
          end then None
  else if match history_last_sequence c, head (history node) with
          | Some previous, Some oldest => previous + 1 <? Sampler.sequence oldest
          | _, _ => false
          end then None
  else
    let fresh := fresh_samples c node in
    let appends := length fresh in
    evictions ← checked_sub (history_len c + appends) (length (history node));
    if (history_len c <? evictions)%nat then None
    else
      ops ← (if (appends =? 0)%nat then if (0 <? evictions)%nat then None else Some []
             else Some (Replace (node_path i ["latest"]) (Latest (latest node))
                        :: append_ops i evictions fresh));
      let ops := if bool_decide (c_availability c = availability node) then ops
                 else ops ++ [Replace (node_path i ["availability"]) (NodeAvailability (availability node))] in
      let ops := if bool_decide (c_health c = health node) then ops
                 else ops ++ [Replace (node_path i ["health"]) (Health (health node))] in
      Some {| ops := ops; appends := appends |}.

(* crates/server/src/routes/cluster_metrics/patch.rs:117-121 MetricsPatchBuilder *)
Record MetricsPatchBuilder := {
  b_nodes : gmap Uuid NodeCursor;
  last_resnapshot_at : option DateTime;
}.

(* crates/server/src/routes/cluster_metrics/patch.rs:124-126 MetricsPatchBuilder::new *)
Definition new : MetricsPatchBuilder := {| b_nodes := ∅; last_resnapshot_at := None |}.

(** The entries of a [BTreeMap], in the order of their keys. *)
Definition key_order {A} (a b : Uuid * A) : Prop := (a.1 <= b.1)%N.
#[local] Instance key_order_dec {A} : RelDecision (key_order (A := A)).
Proof. unfold key_order. solve_decision. Defined.

Definition entries {A} (m : gmap Uuid A) : list (Uuid * A) := merge_sort key_order (map_to_list m).

Definition all_operations (b : MetricsPatchBuilder) (l : list (Uuid * MetricsNode))
    : option (list PatchOperation * nat) :=
  foldl (fun acc '(i, node) =>
           '(all, n) ← acc;
           cursor ← b_nodes b !! i;
           o ← node_operations i cursor node;
           Some (all ++ ops o, n + appends o)%nat) (Some ([], O)) l.

(* crates/server/src/routes/cluster_metrics/patch.rs:151-179 MetricsPatchBuilder::incremental *)
Definition incremental (b : MetricsPatchBuilder) (s : Snapshot) : option (list PatchOperation) :=
  last_resnapshot_at ← last_resnapshot_at b;
  if RESNAPSHOT_INTERVAL <=? generated_at s - last_resnapshot_at then None
  else if negb (size (b_nodes b) =? size (s_nodes s))%nat
          || negb (forallb (fun kv => bool_decide (is_Some (b_nodes b !! kv.1))) (entries (s_nodes s))) then None
  else
    '(ops, appends) ← all_operations b (entries (s_nodes s));
    if (MAX_APPENDS_PER_TICK <? appends)%nat then None else Some ops.

(* crates/server/src/routes/cluster_metrics/patch.rs:184-196 resnapshot *)
Definition resnapshot (s : Snapshot) : list PatchOperation :=
  [Replace NODES_PATH (Nodes (s_nodes s));
   Replace GENERATED_AT_PATH (Instant (generated_at s));
   Replace DISK_ALERT_THRESHOLDS_PATH (DiskThresholds (disk_alert_thresholds s))].

(* crates/server/src/routes/cluster_metrics/patch.rs:133-147 MetricsPatchBuilder::next *)
Definition next (b : MetricsPatchBuilder) (s : Snapshot) : MetricsPatchBuilder * list PatchOperation :=
  let '(b, patch) :=
    match incremental b s with
    | Some ops => (b, ops)
    | None => ({| b_nodes := b_nodes b; last_resnapshot_at := Some (generated_at s) |}, resnapshot s)
    end in
  ({| b_nodes := cursor_of <$> s_nodes s; last_resnapshot_at := last_resnapshot_at b |}, patch).

(** ** The viewer's document *)

Record Document := {
  d_nodes : gmap string MetricsNode;
  d_generated_at : option DateTime;
  d_thresholds : option Thresholds;
}.

(** The document a viewer starts with. *)
Definition seeded : Document := {| d_nodes := ∅; d_generated_at := None; d_thresholds := None |}.

Definition set_latest (n : MetricsNode) v : MetricsNode :=
  {| node_id := node_id n; hostname := hostname n; role := role n; health := health n;
     availability := availability n; latest := v; history := history n;
     last_contact_at := last_contact_at n |}.
Definition set_history (n : MetricsNode) v : MetricsNode :=
  {| node_id := node_id n; hostname := hostname n; role := role n; health := health n;
     availability := availability n; latest := latest n; history := v;
     last_contact_at := last_contact_at n |}.
Definition set_availability (n : MetricsNode) v : MetricsNode :=
  {| node_id := node_id n; hostname := hostname n; role := role n; health := health n;
     availability := v; latest := latest n; history := history n;
     last_contact_at := last_contact_at n |}.
Definition set_health (n : MetricsNode) v : MetricsNode :=
  {| node_id := node_id n; hostname := hostname n; role := role n; health := v;
     availability := availability n; latest := latest n; history := history n;
     last_contact_at := last_contact_at n |}.

(** An operation on a member of one node. *)
Definition edit_node (n : MetricsNode) (op : PatchOperation) (member : list string) : option MetricsNode :=
  match op, member with
  | Replace _ (Latest v), ["latest"] => Some (set_latest n v)
  | Add _ (Entry v), ["history"; "-"] => Some (set_history n (history n ++ [v]))
  | Remove _, ["history"; "0"] =>
      match history n with _ :: l => Some (set_history n l) | [] => None end
  | Replace _ (NodeAvailability v), ["availability"] => Some (set_availability n v)
  | Replace _ (Health v), ["health"] => Some (set_health n v)
  | _, _ => None
  end.

Definition op_path (op : PatchOperation) : list string :=
  match op with Replace p _ | Add p _ | Remove p => p end.

(** RFC 6902: an operation whose target is missing fails. *)
Definition apply_op (d : Document) (op : PatchOperation) : option Document :=
  match op_path op, op with
  | ["nodes"], Replace _ (Nodes m) =>
      Some {| d_nodes := kmap uuid_display m; d_generated_at := d_generated_at d;
              d_thresholds := d_thresholds d |}
  | ["generated_at"], Replace _ (Instant t) =>
      Some {| d_nodes := d_nodes d; d_generated_at := Some t; d_thresholds := d_thresholds d |}
  | ["disk_alert_thresholds"], Replace _ (DiskThresholds t) =>
      Some {| d_nodes := d_nodes d; d_generated_at := d_generated_at d; d_thresholds := Some t |}
  | "nodes" :: key :: member, op =>
      n ← d_nodes d !! key;
      n ← edit_node n op member;
      Some {| d_nodes := <[key := n]> (d_nodes d); d_generated_at := d_generated_at d;
              d_thresholds := d_thresholds d |}
  | _, _ => None
  end.

Definition apply_patch (d : Document) (patch : list PatchOperation) : option Document :=
  foldl (fun d op => d ≫= fun d => apply_op d op) (Some d) patch.

(** ** The patched document is the snapshot *)

(** The members of a node that are patched. *)
Definition view (n : MetricsNode) : option Sample * list Sample * NodeMetricsAvailability * option NodeHealth :=
  (latest n, history n, availability n, health n).

Definition agrees (d : Document) (s : Snapshot) : Prop :=
  view <$> d_nodes d = kmap uuid_display (view <$> s_nodes s).

Definition increasing (l : list Sample) : Prop :=
  StronglySorted (fun a b => Sampler.sequence a < Sampler.sequence b) l.

(** A node that shows a newest sample exactly when it shows a history. *)
Definition view_ok (n : MetricsNode) : Prop :=
  (latest n = None <-> history n = []) /\ increasing (history n).

(** Between two snapshots a node's readings went on, or a break in them shows: they are
    gone, they leave a hole, or their numbers have gone back. *)
Definition followed (prev cur : MetricsNode) : Prop :=
  (exists F k, history cur = drop k (history prev ++ F) /\ (k <= length F)%nat /\
     (forall x y, x ∈ history prev -> y ∈ F -> Sampler.sequence x < Sampler.sequence y) /\
     (F = [] -> latest cur = latest prev)) \/
  latest cur = None \/
  (exists p o, last (history prev) = Some p /\ head (history cur) = Some o /\
     Sampler.sequence p + 1 < Sampler.sequence o) \/
  (exists p c, latest prev = Some p /\ latest cur = Some c /\ Sampler.sequence c < Sampler.sequence p).

Definition snapshot_ok (s : Snapshot) : Prop := map_Forall (fun _ => view_ok) (s_nodes s).

Definition snapshot_followed (s s' : Snapshot) : Prop :=
  forall i n n', s_nodes s !! i = Some n -> s_nodes s' !! i = Some n' -> followed n n'.

Definition set_node (d : Document) (k : string) (n : MetricsNode) : Document :=
  {| d_nodes := <[k := n]> (d_nodes d); d_generated_at := d_generated_at d; d_thresholds := d_thresholds d |}.

Lemma apply_none patch :
  foldl (fun (d : option Document) op => d ≫= fun d => apply_op d op) None patch = None.
Proof. by induction patch. Qed.

Lemma apply_cons d op patch : apply_patch d (op :: patch) = apply_op d op ≫= fun d => apply_patch d patch.
Proof. unfold apply_patch. cbn. destruct (apply_op d op); [done|]. apply apply_none. Qed.

Lemma apply_app d p q : apply_patch d (p ++ q) = apply_patch d p ≫= fun d => apply_patch d q.
Proof.
  revert d. induction p as [|op p IH]; intros d; [done|]. rewrite <- app_comm_cons, !apply_cons.
  destruct (apply_op d op); [|done]. apply IH.
Qed.

Lemma apply_edit d i op member n n' :
  op_path op = node_path i member -> d_nodes d !! uuid_display i = Some n ->
  edit_node n op member = Some n' -> apply_op d op = Some (set_node d (uuid_display i) n').
Proof.
  intros Hp Hn He. unfold apply_op. rewrite Hp. cbn. rewrite Hn. cbn.
  destruct op; cbn in *; by rewrite He.
Qed.

Lemma set_node_twice d k n n' : set_node (set_node d k n) k n' = set_node d k n'.
Proof. unfold set_node. cbn. by rewrite insert_insert_eq. Qed.

Lemma apply_append_ops i fresh : forall r d n,
  d_nodes d !! uuid_display i = Some n -> fresh <> [] ->
  apply_patch d (append_ops i r fresh) =
    Some (set_node d (uuid_display i)
            (set_history n (drop (Nat.min r (length fresh)) (history n ++ fresh)))).
Proof.
  induction fresh as [|x fresh IH]; intros r d n Hn Hne; [done|]. cbn [append_ops].
  rewrite apply_cons, (apply_edit d i (Add (node_path i ["history"; "-"]) (Entry x)) ["history"; "-"]
    n (set_history n (history n ++ [x])) eq_refl Hn eq_refl).
  cbn [mbind option_bind].
  set (d1 := set_node d _ _). set (n1 := set_history n (history n ++ [x])).
  assert (d_nodes d1 !! uuid_display i = Some n1) as Hn1 by apply lookup_insert_eq.
  destruct r as [|r].
  - destruct fresh as [|y fresh].
    + cbn. unfold apply_patch. cbn. done.
    + rewrite (IH 0%nat d1 n1 Hn1) by done. unfold d1. rewrite set_node_twice.
      unfold n1, set_history. cbn. by rewrite <- app_assoc.
  - assert (exists z l, history n ++ [x] = z :: l) as (z & l & Hz)
      by (destruct (history n); cbn; eauto).
    set (n2 := set_history n1 l).
    rewrite apply_cons, (apply_edit d1 i (Remove (node_path i ["history"; "0"])) ["history"; "0"] n1 n2 eq_refl Hn1)
      by (unfold n2; cbn; by rewrite Hz).
    cbn [mbind option_bind]. unfold d1. rewrite set_node_twice.
    set (d2 := set_node d _ n2).
    assert (d_nodes d2 !! uuid_display i = Some n2) as Hn2 by apply lookup_insert_eq.
    assert (history n ++ x :: fresh = z :: l ++ fresh) as Happ.
    { by rewrite cons_middle, app_assoc, Hz. }
    destruct fresh as [|y fresh].
    + cbn [append_ops length]. unfold apply_patch. cbn [foldl]. unfold d2, n2, n1, set_history.
      rewrite Happ, app_nil_r. cbn. by rewrite Nat.min_0_r.
    + rewrite (IH r d2 n2 Hn2) by done. unfold d2. rewrite set_node_twice.
      rewrite Happ. unfold n2, n1, set_history. cbn. done.
Qed.

Lemma increasing_le_last (l : list Sample) p :
  increasing l -> last l = Some p -> forall x, x ∈ l -> Sampler.sequence x <= Sampler.sequence p.
Proof.
  intros Hs Hl x Hx. destruct (last_Some l p) as [[l' ->] _]; [done|].
  apply elem_of_app in Hx as [Hx| ->%list_elem_of_singleton]; [|lia].
  apply StronglySorted_app_1_elem_of with (x1 := x) (x2 := p) in Hs; [lia|done|by left].
Qed.

Lemma filter_keeps_all (P : Sample -> Prop) `{!forall x, Decision (P x)} (l : list Sample) :
  (forall x, x ∈ l -> P x) -> filter P l = l.
Proof.
  induction l as [|x l IH]; intros HP; [done|]. rewrite filter_cons_True by (apply HP; by left).
  f_equal. apply IH. intros y Hy. apply HP. by right.
Qed.

Lemma filter_none (P : Sample -> Prop) `{!forall x, Decision (P x)} (l : list Sample) :
  (forall x, x ∈ l -> ~ P x) -> filter P l = [].
Proof.
  induction l as [|x l IH]; intros HP; [done|]. rewrite filter_cons_False by (apply HP; by left).
  apply IH. intros y Hy. apply HP. by right.
Qed.

(** The two shapes the fresh samples take. *)
Lemma fresh_of_continued (prev cur : MetricsNode) F k :
  increasing (history prev) -> history cur = drop k (history prev ++ F) ->
  (forall x y, x ∈ history prev -> y ∈ F -> Sampler.sequence x < Sampler.sequence y) ->
  fresh_samples (cursor_of prev) cur = drop (k - length (history prev)) F.
Proof.
  intros Hs Hh HF. unfold fresh_samples, cursor_of. cbn. rewrite Hh, drop_app.
  destruct (last (history prev)) as [p|] eqn:Hp; cbn.
  - rewrite filter_app, filter_none, filter_keeps_all; [done| |].
    + intros y Hy%subseteq_drop. apply (HF p); [by apply last_Some_elem_of|done].
    + intros x Hx%subseteq_drop. pose proof (increasing_le_last _ _ Hs Hp x Hx). lia.
  - apply last_None in Hp. rewrite Hp. by destruct k.
Qed.

Definition continued (prev cur : MetricsNode) : Prop :=
  exists F k, history cur = drop k (history prev ++ F) /\ (k <= length F)%nat /\
    (forall x y, x ∈ history prev -> y ∈ F -> Sampler.sequence x < Sampler.sequence y) /\
    (F = [] -> latest cur = latest prev).

(** A break that shows is refused, so what is left is a continuation. *)
Lemma operations_continued i prev cur o :
  view_ok prev -> view_ok cur -> followed prev cur ->
  node_operations i (cursor_of prev) cur = Some o -> continued prev cur.
Proof.
  intros [Hp _] [Hc _] Hf Ho. unfold node_operations in Ho.
  destruct (_ && _) eqn:Hg1 in Ho; [done|]. destruct (match _ with Some _ => _ | None => _ end) eqn:Hg2 in Ho; [done|].
  destruct (match _ with Some _ => _ | None => _ end) eqn:Hg3 in Ho; [done|]. clear Ho.
  destruct Hf as [?|[Hn|[(p & x & Hpl & Hh & Hlt)|(p & x & Hpl & Hh & Hlt)]]]; [done|..].
  - rewrite Hn, (bool_decide_eq_true_2 (None = None)), andb_true_r in Hg1 by done.
    apply bool_decide_eq_false in Hg1. cbn in Hg1.
    assert (latest prev = None) as Hpn by (destruct (latest prev); [by exfalso; eauto|done]).
    exists [], 0%nat. rewrite (proj1 Hc Hn), (proj1 Hp Hpn).
    split_and!; [done|cbn; lia|by intros x y _ ?%elem_of_nil|congruence].
  - unfold cursor_of in Hg3. cbn in Hg3. rewrite Hpl, Hh in Hg3. cbn in Hg3. apply Z.ltb_ge in Hg3. lia.
  - unfold cursor_of in Hg2. cbn in Hg2. rewrite Hpl, Hh in Hg2. cbn in Hg2. apply Z.ltb_ge in Hg2. lia.
Qed.

Lemma set_node_id d k n : d_nodes d !! k = Some n -> set_node d k n = d.
Proof. intros Hn. destruct d. unfold set_node. cbn in *. by rewrite insert_id. Qed.

Lemma edit_if d i n n' (c : bool) op member :
  d_nodes d !! uuid_display i = Some n -> op_path op = node_path i member ->
  edit_node n op member = Some n' ->
  apply_patch d (if c then [] else [op]) = Some (set_node d (uuid_display i) (if c then n else n')).
Proof.
  intros Hn Hp He. destruct c; [by rewrite set_node_id|].
  rewrite apply_cons, (apply_edit _ _ _ _ _ _ Hp Hn He). done.
Qed.

Lemma app_if {A} (c : bool) (l k : list A) : (if c then l else l ++ k) = l ++ if c then [] else k.
Proof. destruct c; [by rewrite app_nil_r|done]. Qed.

(** The operations of one node take its entry to the new one. *)
Lemma node_operations_exact i prev cur o d n :
  view_ok prev -> view_ok cur -> followed prev cur ->
  node_operations i (cursor_of prev) cur = Some o ->
  d_nodes d !! uuid_display i = Some n -> view n = view prev ->
  exists n', apply_patch d (ops o) = Some (set_node d (uuid_display i) n') /\ view n' = view cur.
Proof.
  intros Hp Hc Hf Ho Hn Hv.
  destruct (operations_continued _ _ _ _ Hp Hc Hf Ho) as (F & k & Hh & Hk & HF & Hl).
  pose proof (fresh_of_continued prev cur F k (proj2 Hp) Hh HF) as Hfr.
  set (h := history prev) in *. set (fr := drop (k - length h) F) in *.
  assert (history cur = drop k h ++ fr) as Hcur by (unfold fr; by rewrite Hh, drop_app).
  assert (Nat.min k (length h) <= length fr)%nat as Hle by (unfold fr; rewrite length_drop; lia).
  unfold node_operations in Ho. do 3 (destruct (_ : bool) in Ho; [done|]).
  rewrite Hfr in Ho. unfold checked_sub in Ho. cbn [history_len cursor_of] in Ho. fold h in Ho.
  rewrite Hcur, length_app, length_drop in Ho.
  destruct (_ <=? _)%nat in Ho; [|done]. cbn [mbind option_bind] in Ho.
  replace (length h + length fr - (length h - k + length fr))%nat with (Nat.min k (length h)) in Ho by lia.
  destruct (_ <? _)%nat in Ho; [done|].
  apply bind_Some in Ho as (base & Hbase & [= <-]). cbn [ops]. rewrite !app_if, <- app_assoc.
  assert (exists n1, apply_patch d base = Some (set_node d (uuid_display i) n1) /\
            latest n1 = latest cur /\ history n1 = history cur /\
            availability n1 = availability prev /\ health n1 = health prev) as (n1 & Hb & E1 & E2 & E3 & E4).
  { injection Hv as V1 V2 V3 V4. destruct (Nat.eqb_spec (length fr) 0) as [Hz|Hz].
    - destruct (Nat.ltb_spec 0 (Nat.min k (length h))); [done|]. injection Hbase as <-.
      exists n. rewrite set_node_id by done. apply nil_length_inv in Hz.
      assert (history cur = h) as Hsame.
      { rewrite Hcur, Hz, app_nil_r. destruct (Nat.eq_dec k 0%nat) as [->|]; [done|].
        rewrite (nil_length_inv h) by lia. apply drop_nil. }
      split_and!; try done; [|by rewrite V2, Hsame]. rewrite V1. symmetry.
      destruct F as [|x F]; [by apply Hl|]. unfold fr in Hz.
      assert (length h = 0)%nat as Hh0%nil_length_inv.
      { apply (f_equal length) in Hz. rewrite length_drop in Hz. cbn in *. lia. }
      rewrite (proj2 (proj1 Hc)), (proj2 (proj1 Hp)); [done|done|congruence].
    - injection Hbase as <-. rewrite apply_cons.
      rewrite (apply_edit d i (Replace (node_path i ["latest"]) (Latest (latest cur))) ["latest"]
        n (set_latest n (latest cur)) eq_refl Hn eq_refl). cbn [mbind option_bind].
      rewrite (apply_append_ops i fr (Nat.min k (length h)) _ (set_latest n (latest cur)));
        [|apply lookup_insert_eq|by intros ->]. rewrite set_node_twice.
      eexists. split; [done|]. cbn. split_and!; [done| |congruence..].
      rewrite Nat.min_l by lia. rewrite V2. fold h. rewrite Hcur, drop_app_le by lia.
      f_equal. destruct (Nat.le_ge_cases k (length h)); [by rewrite Nat.min_l|].
      rewrite Nat.min_r, !drop_ge by lia. done. }
  rewrite apply_app, Hb. cbn [mbind option_bind]. rewrite apply_app.
  rewrite (edit_if (set_node d (uuid_display i) n1) i n1 (set_availability n1 (availability cur)) _
    (Replace (node_path i ["availability"]) (NodeAvailability (availability cur))) ["availability"]
    (lookup_insert_eq _ _ _) eq_refl eq_refl).
  cbn [mbind option_bind]. rewrite set_node_twice.
  set (n2 := if bool_decide (c_availability (cursor_of prev) = availability cur) then n1
             else set_availability n1 (availability cur)).
  rewrite (edit_if (set_node d (uuid_display i) n2) i n2 (set_health n2 (health cur)) _
    (Replace (node_path i ["health"]) (Health (health cur))) ["health"]
    (lookup_insert_eq _ _ _) eq_refl eq_refl).
  rewrite set_node_twice. eexists. split; [done|].
  assert (latest n2 = latest cur /\ history n2 = history cur /\ availability n2 = availability cur /\
          health n2 = health prev) as (G1 & G2 & G3 & G4).
  { unfold n2. case_bool_decide as Ha; cbn in *; split_and!; congruence. }
  unfold view. case_bool_decide as Hhl; cbn in *; congruence.
Qed.

(** ** Every node, tick after tick *)

Lemma agrees_lookup d (s : Snapshot) i n :
  agrees d s -> s_nodes s !! i = Some n ->
  exists m, d_nodes d !! uuid_display i = Some m /\ view m = view n.
Proof.
  intros Ha Hi. assert ((view <$> d_nodes d) !! uuid_display i = Some (view n)) as Hl.
  { rewrite Ha, lookup_kmap by done. by rewrite lookup_fmap, Hi. }
  rewrite lookup_fmap in Hl. apply fmap_Some in Hl as (m & ? & ?). eauto.
Qed.

Notation views := (gmap Uuid (option Sample * list Sample * NodeMetricsAvailability * option NodeHealth)).

(** Applying the operations of some nodes replaces the views of these nodes. *)
Lemma all_operations_exact b (s : Snapshot) l : forall all n0 all' n' d0 d (m : views),
  b_nodes b = cursor_of <$> s_nodes s ->
  NoDup l.*1 ->
  (forall i node, (i, node) ∈ l -> view_ok node /\
     exists prev, s_nodes s !! i = Some prev /\ view_ok prev /\ followed prev node /\
                  m !! i = Some (view prev)) ->
  foldl (fun acc '(i, node) =>
           '(all, n) ← acc;
           cursor ← b_nodes b !! i;
           o ← node_operations i cursor node;
           Some (all ++ ops o, n + appends o)%nat) (Some (all, n0)) l = Some (all', n') ->
  apply_patch d0 all = Some d -> view <$> d_nodes d = kmap uuid_display m ->
  exists d', apply_patch d0 all' = Some d' /\
    view <$> d_nodes d' =
      kmap uuid_display (foldl (fun m kv => <[kv.1 := view kv.2]> m) m l).
Proof.
  induction l as [|[i node] l IH]; intros all n0 all' n' d0 d m Hb Hnd Hl Hf Hd Hm.
  { cbn in Hf. injection Hf as <- <-. eauto. }
  cbn [foldl] in Hf. cbn [mbind option_bind] in Hf.
  destruct (Hl i node) as (Hok & prev & Hprev & Hpok & Hfol & Hmi); [by left|].
  assert (b_nodes b !! i = Some (cursor_of prev)) as Hbi by (by rewrite Hb, lookup_fmap, Hprev).
  rewrite Hbi in Hf. cbn [mbind option_bind] in Hf.
  destruct (node_operations i (cursor_of prev) node) as [o|] eqn:Ho.
  2:{ exfalso. clear -Hf. induction l as [|[j x] l IHl]; cbn in Hf; [done|]. by apply IHl. }
  cbn [mbind option_bind] in Hf.
  assert ((view <$> d_nodes d) !! uuid_display i = Some (view prev)) as Hv
    by (by rewrite Hm, lookup_kmap).
  rewrite lookup_fmap in Hv. apply fmap_Some in Hv as (x & Hx & Hvx).
  destruct (node_operations_exact i prev node o d x) as (x' & Hap & Hvx'); try done.
  eapply (IH _ _ _ _ d0 (set_node d (uuid_display i) x') (<[i := view node]> m)) in Hf; [done|done| | | |].
  - by apply NoDup_cons in Hnd as [_ ?].
  - intros j y Hj. destruct (Hl j y) as (? & p & ? & ? & ? & ?); [by right|].
    split; [done|]. exists p. split_and!; [done..|].
    rewrite lookup_insert_ne; [done|]. intros ->. apply NoDup_cons in Hnd as [Hn _].
    apply Hn. by apply (list_elem_of_fmap_2 fst _ (j, y)).
  - by rewrite apply_app, Hd.
  - cbn. by rewrite fmap_insert, Hm, Hvx', kmap_insert.
Qed.

Lemma entries_spec {A} (m : gmap Uuid A) :
  NoDup (entries m).*1 /\ forall i x, (i, x) ∈ entries m <-> m !! i = Some x.
Proof.
  assert (entries m ≡ₚ map_to_list m) as Hp by apply merge_sort_Permutation. split.
  - rewrite Hp. apply NoDup_fst_map_to_list.
  - intros i x. rewrite Hp. apply elem_of_map_to_list.
Qed.

Lemma foldl_views l : forall (m : views) i,
  NoDup l.*1 ->
  (foldl (fun m (kv : Uuid * MetricsNode) => <[kv.1 := view kv.2]> m) m l) !! i =
    match list_to_map (M := gmap Uuid MetricsNode) l !! i with
    | Some x => Some (view x)
    | None => m !! i
    end.
Proof.
  induction l as [|[j x] l IH]; intros m i Hnd; [cbn; by rewrite lookup_empty|].
  apply NoDup_cons in Hnd as [Hj Hnd]. cbn [foldl list_to_map foldr fst snd]. rewrite IH by done.
  rewrite lookup_insert. destruct (decide (j = i)) as [->|Hne].
  - rewrite (not_elem_of_list_to_map_1 l i Hj). cbn. by rewrite lookup_insert_eq.
  - cbn. rewrite lookup_insert_ne by done. done.
Qed.

Lemma incremental_exact b (s s' : Snapshot) d patch :
  b_nodes b = cursor_of <$> s_nodes s -> agrees d s -> snapshot_ok s -> snapshot_ok s' ->
  snapshot_followed s s' -> incremental b s' = Some patch ->
  exists d', apply_patch d patch = Some d' /\ agrees d' s'.
Proof.
  intros Hb Ha Hs Hs' Hf Hi. unfold incremental in Hi.
  apply bind_Some in Hi as (at_ & _ & Hi). destruct (_ <=? _) in Hi; [done|].
  destruct (_ || _) eqn:Hdom in Hi; [done|]. apply orb_false_iff in Hdom as [Hsize Hall].
  apply negb_false_iff, Nat.eqb_eq in Hsize. apply negb_false_iff in Hall.
  apply bind_Some in Hi as ([all n] & Hops & Hi). destruct (_ <? _)%nat in Hi; [done|]. injection Hi as <-.
  destruct (entries_spec (s_nodes s')) as [Hnd Hin].
  assert (forall i, is_Some (s_nodes s' !! i) -> is_Some (s_nodes s !! i)) as Hsub.
  { intros i [x Hx%Hin]. apply (proj1 (forallb_forall _ _)) with (x := (i, x)) in Hall;
      [|by apply list_elem_of_In]. apply bool_decide_eq_true in Hall. cbn in Hall.
    rewrite Hb, lookup_fmap, fmap_is_Some in Hall. done. }
  assert (dom (s_nodes s') = dom (s_nodes s)) as Hdom.
  { apply leibniz_equiv, set_subseteq_size_equiv.
    - intros i. rewrite !elem_of_dom. apply Hsub.
    - rewrite !size_dom, <- Hsize, Hb, map_size_fmap. lia. }
  destruct (all_operations_exact b s (entries (s_nodes s')) [] 0%nat all n d d (view <$> s_nodes s))
    as (d' & Hd' & Hv); try done.
  - intros i node Hx%Hin. split; [by apply (Hs' i)|]. destruct (Hsub i) as [prev Hp]; [eauto|].
    exists prev. split_and!; [done|by apply (Hs i)|by eapply Hf|]. by rewrite lookup_fmap, Hp.
  - exists d'. split; [done|]. unfold agrees. rewrite Hv. f_equal. apply map_eq. intros i.
    rewrite foldl_views by done.
    assert (list_to_map (M := gmap Uuid MetricsNode) (entries (s_nodes s')) = s_nodes s') as ->.
    { apply map_eq. intros j. destruct (s_nodes s' !! j) as [x|] eqn:Hj.
      - apply elem_of_list_to_map; [done|by apply Hin].
      - apply not_elem_of_list_to_map. intros ([k x] & -> & Hx%Hin)%list_elem_of_fmap.
        cbn in Hj. congruence. }
    rewrite !lookup_fmap. destruct (s_nodes s' !! i) eqn:Hi'; [done|]. cbn.
    rewrite (proj1 (not_elem_of_dom (s_nodes s) i)); [done|]. rewrite <- Hdom. by apply not_elem_of_dom.
Qed.

Lemma resnapshot_exact d (s : Snapshot) : exists d', apply_patch d (resnapshot s) = Some d' /\ agrees d' s.
Proof. eexists. split; [done|]. unfold agrees. cbn. by rewrite <- kmap_fmap. Qed.

(** One tick of a viewer's stream. *)
Definition tick (bd : MetricsPatchBuilder * option Document) (s : Snapshot)
    : MetricsPatchBuilder * option Document :=
  let '(b, patch) := next bd.1 s in (b, bd.2 ≫= fun d => apply_patch d patch).

Fixpoint pairwise (l : list Snapshot) : Prop :=
  match l with
  | s :: (s' :: _) as l => snapshot_followed s s' /\ pairwise l
  | _ => True
  end.

Lemma tick_exact b (s s' : Snapshot) d :
  b_nodes b = cursor_of <$> s_nodes s -> agrees d s -> snapshot_ok s -> snapshot_ok s' ->
  snapshot_followed s s' ->
  exists b' d', tick (b, Some d) s' = (b', Some d') /\
    b_nodes b' = cursor_of <$> s_nodes s' /\ agrees d' s'.
Proof.
  intros Hb Ha Hs Hs' Hf. unfold tick, next. cbn [fst snd].
  destruct (incremental b s') as [patch|] eqn:Hi; cbn [mbind option_bind].
  - destruct (incremental_exact b s s' d patch) as (d' & Hd & ?); try done. rewrite Hd. eauto.
  - destruct (resnapshot_exact d s') as (d' & Hd & ?). rewrite Hd. eauto.
Qed.

(** C23: Whatever nodes come, go and fail, the viewer's document holds the newest sample, the
    history, the availability and the health of every node of each snapshot it was sent, and
    no other node, as long as no break in a node's readings is hidden between two
    snapshots. *)
Theorem patch_stream_exact (ss : list Snapshot) (s : Snapshot) :
  Forall snapshot_ok (ss ++ [s]) -> pairwise (ss ++ [s]) ->
  exists b d, foldl tick (new, Some seeded) (ss ++ [s]) = (b, Some d) /\ agrees d s.
Proof.
  intros Hok Hp.
  enough (exists b d, foldl tick (new, Some seeded) (ss ++ [s]) = (b, Some d) /\
            b_nodes b = cursor_of <$> s_nodes s /\ agrees d s) as (b & d & ? & _ & ?) by eauto.
  revert s Hok Hp. induction ss as [|s0 ss IH] using rev_ind; intros s Hok Hp.
  - cbn [foldl app]. unfold tick, next. cbn [fst snd incremental new last_resnapshot_at mbind option_bind].
    destruct (resnapshot_exact seeded s) as (d' & Hd & ?). rewrite Hd. eauto.
  - apply Forall_app in Hok as [Hok [Hs _]%Forall_cons].
    assert (pairwise (ss ++ [s0]) /\ snapshot_followed s0 s) as [Hp0 Hf].
    { clear -Hp. induction ss as [|x ss IH]; [by destruct Hp as [? _]|].
      destruct ss as [|y ss]; cbn in Hp |- *; [tauto|]. cbn in IH. tauto. }
    destruct (IH s0 Hok Hp0) as (b & d & Hfold & Hb & Ha). rewrite foldl_app, Hfold. cbn [foldl].
    apply Forall_app in Hok as [_ [Hs0 _]%Forall_cons].
    destruct (tick_exact b s0 s d Hb Ha Hs0 Hs Hf) as (b' & d' & Ht & ? & ?). rewrite Ht. eauto.
Qed.

(** ** What the service shows a viewer *)

Notation NodeState := (NodeState (R := R) (Table := Table)).
Notation Batch := (Batch (R := R) (Table := Table)).

(** A worker's reply to "what came after [after]": in order, all of it later, none of it
    older than what is said to be retained or newer than what is said to be the latest. *)
Record honest (after : Z) (b : Batch) : Prop := {
  honest_order : increasing (Sampler.batch_samples b);
  honest_range x : x ∈ Sampler.batch_samples b ->
    after < Sampler.sequence x <= Sampler.batch_latest_sequence b /\
    Sampler.earliest_retained_sequence b <= Sampler.sequence x;
}.

Definition kept (config : SamplerConfig) : nat := Nat.max (Z.to_nat (retention config)) 1.

Record node_ok (config : SamplerConfig) (st : NodeState) : Prop := {
  ok_order : increasing (n_history st);
  ok_cursor x : x ∈ n_history st -> Sampler.sequence x <= cursor st;
  ok_latest : n_latest st = None <-> n_history st = [];
  ok_length : (length (n_history st) <= kept config)%nat;
  ok_tables x : x ∈ n_history st -> Sampler.processes x = None;
}.

Lemma received (l : list Sample) : forall st,
  n_history (foldl receive st l) = n_history st ++ (Sampler.without_processes <$> l) /\
  n_latest (foldl receive st l) = (if last l is Some x then Some x else n_latest st) /\
  cursor st <= cursor (foldl receive st l) /\
  (forall x, x ∈ l -> Sampler.sequence x <= cursor (foldl receive st l)).
Proof.
  induction l as [|x l IH] using rev_ind; intros st.
  { cbn. rewrite app_nil_r. split_and!; [done|done|lia|by intros x ?%elem_of_nil]. }
  rewrite foldl_app, last_snoc, fmap_app. cbn [foldl]. destruct (IH st) as (E1 & E2 & E3 & E4). cbn.
  rewrite E1, app_assoc. split_and!; [done|done|lia|].
  intros y [Hy| ->%list_elem_of_singleton]%elem_of_app; [specialize (E4 y Hy)|]; lia.
Qed.

Lemma increasing_demoted (l : list Sample) : increasing l -> increasing (Sampler.without_processes <$> l).
Proof.
  unfold increasing. induction 1 as [|x l Hs IH Hx]; cbn; [constructor|]. constructor; [done|].
  apply Forall_fmap. by eapply Forall_impl.
Qed.

Lemma increasing_drop n (l : list Sample) : increasing l -> increasing (drop n l).
Proof. intros Hl. rewrite <- (take_drop n l) in Hl. by apply StronglySorted_app_1_r in Hl. Qed.

Lemma increasing_app (l k : list Sample) :
  increasing l -> increasing k ->
  (forall x y, x ∈ l -> y ∈ k -> Sampler.sequence x < Sampler.sequence y) -> increasing (l ++ k).
Proof. intros Hl Hk Hlk. by apply StronglySorted_app_2. Qed.

(** The readings after a reply: what was kept of the old ones, and the new ones. *)
Lemma outcome_readings config (st : NodeState) after (b : Batch) now :
  let base := if (Sampler.batch_latest_sequence b <? after) || Sampler.has_gap b after then clear_readings st
              else st in
  let st' := apply_outcome st after (Ok b) now config in
  n_history st' = keep_last (kept config)
                    (n_history base ++ (Sampler.without_processes <$> Sampler.batch_samples b)) /\
  n_latest st' = (if last (Sampler.batch_samples b) is Some x then Some x else n_latest base) /\
  Sampler.batch_latest_sequence b <= cursor st' /\
  (Sampler.batch_latest_sequence b <? after = false -> cursor st <= cursor st') /\
  (forall x, x ∈ Sampler.batch_samples b -> Sampler.sequence x <= cursor st').
Proof.
  intros base st'. subst st'. unfold apply_outcome. cbv zeta.
  set (s1 := if Sampler.has_gap b after then _ else _).
  destruct (received (Sampler.batch_samples b) s1) as (E1 & E2 & E3 & E4).
  assert (n_history s1 = n_history base /\ n_latest s1 = n_latest base) as [B1 B2].
  { unfold s1, base. destruct (_ <? _), (Sampler.has_gap b after); done. }
  cbn [n_history n_latest cursor with_availability with_history with_cursor].
  rewrite E1, E2, B1, B2. split_and!; [done|done|lia| |].
  - intros Hlt. unfold s1 in E3 |- *. rewrite Hlt in E3 |- *.
    destruct (Sampler.has_gap b after); cbn in *; lia.
  - intros x Hx. specialize (E4 x Hx). lia.
Qed.

Lemma expire_readings now window (st : NodeState) :
  (n_history (expire_state now window st) = n_history st /\ n_latest (expire_state now window st) = n_latest st) \/
  (n_history (expire_state now window st) = [] /\ n_latest (expire_state now window st) = None).
Proof.
  unfold expire_state. destruct (bool_decide _); [by left|].
  destruct (match n_latest st with Some _ => _ | None => _ end); [by right|by left].
Qed.

Lemma node_ok_reply config st b now :
  node_ok config st -> honest (cursor st) b ->
  node_ok config (apply_outcome st (cursor st) (Ok b) now config).
Proof.
  intros [Ho Hc Hl Hn Ht] [Hb Hr].
  destruct (outcome_readings config st (cursor st) b now) as (E1 & E2 & E3 & E4 & E5).
  set (broken := (_ <? _) || _) in *. set (st' := apply_outcome _ _ _ _ _) in *.
  set (news := Sampler.without_processes <$> Sampler.batch_samples b) in *.
  assert (forall y, y ∈ news -> cursor st < Sampler.sequence y <= cursor st' /\ Sampler.processes y = None) as Hnews.
  { intros y (x & -> & Hx)%list_elem_of_fmap. destruct (Hr x Hx) as [[? ?] _]. specialize (E5 x Hx).
    split; [cbn; lia|done]. }
  assert (n_history (if broken then clear_readings st else st) = if broken then [] else n_history st) as Hbase
    by (by destruct broken).
  rewrite Hbase in E1.
  assert (increasing ((if broken then [] else n_history st) ++ news)) as Hinc.
  { apply increasing_app; [by destruct broken; [constructor|]|by apply increasing_demoted|].
    intros x y Hx [Hy _]%Hnews. destruct broken; [by apply elem_of_nil in Hx|]. specialize (Hc x Hx). lia. }
  assert (forall x, x ∈ n_history st' -> x ∈ n_history st /\ broken = false \/ x ∈ news) as Hin.
  { intros x. rewrite E1. unfold keep_last. intros Hx%subseteq_drop. apply elem_of_app in Hx as [Hx|]; [|by right].
    destruct broken; [by apply elem_of_nil in Hx|by left]. }
  split.
  - rewrite E1. by apply increasing_drop.
  - intros x [[Hx Hbr]|[Hx _]%Hnews]%Hin; [|lia]. specialize (Hc x Hx).
    unfold broken in Hbr. apply orb_false_iff in Hbr as [Hlt _]. specialize (E4 Hlt). lia.
  - rewrite E1, E2. unfold keep_last.
    assert (1 <= kept config)%nat by (unfold kept; lia).
    destruct (last (Sampler.batch_samples b)) as [x|] eqn:Hx.
    + split; [done|]. intros Hd%(f_equal length). rewrite length_drop, length_app in Hd. cbn [length] in Hd.
      unfold news in Hd. rewrite length_fmap in Hd.
      destruct (Sampler.batch_samples b); [done|]. cbn [length] in Hd. lia.
    + apply last_None in Hx. unfold news. rewrite Hx. cbn. rewrite app_nil_r.
      destruct broken; cbn; [by rewrite drop_nil|]. rewrite Hl. split; [intros ->; by rewrite drop_nil|].
      intros Hd%(f_equal length). rewrite length_drop in Hd. cbn [length] in Hd. apply nil_length_inv. lia.
  - rewrite E1. unfold keep_last. rewrite length_drop. lia.
  - intros x [[Hx _]|[_ ?]%Hnews]%Hin; auto.
Qed.

Lemma node_ok_expire config st now window : node_ok config st -> node_ok config (expire_state now window st).
Proof.
  intros [Ho Hc Hl Hn Ht]. unfold expire_state. destruct (bool_decide _); [done|].
  destruct (match n_latest st with Some _ => _ | None => _ end); [|done].
  split; cbn; [constructor|by intros x ?%elem_of_nil|done|lia|by intros x ?%elem_of_nil].
Qed.

(** One reply and one expiry keep a node's readings well formed, and whatever they do to
    them is seen: the two snapshots around them are ones that [patch_stream_exact] allows.
    Its hypotheses come from the workers' samplers ([since_is_honest]). *)
Theorem reply_is_followed config st o now now' window i fallback fallback' r h h' :
  node_ok config st ->
  (forall b, o = Ok b -> honest (cursor st) b) ->
  let st' := expire_state now' window (apply_outcome st (cursor st) o now config) in
  node_ok config st' /\
  followed (node_view i (Some st) fallback r h) (node_view i (Some st') fallback' r h').
Proof.
  intros Hok Hh st'.
  assert (node_ok config (apply_outcome st (cursor st) o now config)) as Hok1.
  { destruct o as [b|[reason|]]; [by apply node_ok_reply, Hh|by destruct Hok..]. }
  split; [by apply node_ok_expire|].
  destruct (expire_readings now' window (apply_outcome st (cursor st) o now config)) as [[X1 X2]|[_ X2]].
  2:{ right. left. unfold st'. exact X2. }
  unfold followed. cbn [history latest node_view mbind option_bind]. fold st' in X1, X2. rewrite X1, X2.
  destruct o as [b|e].
  2:{ left. exists [], 0%nat. destruct e; cbn; rewrite app_nil_r;
      (split_and!; [done|lia|by intros x y _ ?%elem_of_nil|done]). }
  specialize (Hh b eq_refl). destruct Hh as [Hb Hr].
  destruct (outcome_readings config st (cursor st) b now) as (E1 & E2 & _).
  set (news := Sampler.without_processes <$> Sampler.batch_samples b) in *.
  set (st1 := apply_outcome _ _ _ _ _) in *.
  destruct (Z.ltb_spec (Sampler.batch_latest_sequence b) (cursor st)) as [Hlt|Hge]; cbn [orb] in E1, E2.
  { assert (Sampler.batch_samples b = []) as Hnil.
    { destruct (Sampler.batch_samples b) as [|x l]; [done|]. destruct (Hr x); [by left|]. lia. }
    right. left. rewrite E2, Hnil. done. }
  destruct (Sampler.has_gap b (cursor st)) eqn:Hgap; cbn [n_history n_latest clear_readings] in E1, E2.
  - destruct (last (n_history st)) as [p|] eqn:Hp.
    + destruct (Sampler.batch_samples b) as [|x l] eqn:Hl; [right; left; by rewrite E2|].
      right. right. left. exists p.
      assert (exists y, head (n_history st1) = Some y /\ y ∈ news) as (y & Hy & Hin).
      { change ([] ++ news) with news in E1. unfold keep_last in E1. symmetry in E1.
        destruct (n_history st1) as [|y k].
        - exfalso. apply (f_equal length) in E1. rewrite length_drop in E1.
          assert (1 <= kept config)%nat by (unfold kept; lia).
          change (length news) with (S (length (Sampler.without_processes <$> l))) in E1. cbn [length] in E1. lia.
        - exists y. split; [done|]. assert (y ∈ y :: k) as Hy by by left. rewrite <- E1 in Hy.
          by apply subseteq_drop in Hy. }
      exists y. split_and!; [done|done|]. apply list_elem_of_fmap in Hin as (z & -> & Hz).
      destruct (Hr z) as [_ He]; [done|]. unfold Sampler.has_gap in Hgap.
      apply andb_true_iff in Hgap as [_ Hg%bool_decide_eq_true]. cbn.
      pose proof (ok_cursor _ _ Hok p (last_Some_elem_of _ _ Hp)). lia.
    + apply last_None in Hp. left. exists news, (length news - kept config)%nat.
      rewrite Hp, E1. cbn [app]. split_and!; [done|apply Nat.le_sub_l|by intros x y ?%elem_of_nil|].
      intros Hn. assert (Sampler.batch_samples b = []) as Hnil by (by apply fmap_nil_inv in Hn).
      rewrite E2, Hnil. cbn. symmetry. by apply (ok_latest _ _ Hok).
  - left. exists news, (length (n_history st ++ news) - kept config)%nat. rewrite E1.
    split_and!; [done| | |].
    + rewrite length_app. pose proof (ok_length _ _ Hok) as Hk. revert Hk. clear.
      generalize (length (n_history st)) (length news) (kept config). lia.
    + intros x y Hx (z & -> & Hz)%list_elem_of_fmap. destruct (Hr z Hz) as [[? _] _].
      pose proof (ok_cursor _ _ Hok x Hx). cbn. lia.
    + intros Hn. assert (Sampler.batch_samples b = []) as Hnil by (by apply fmap_nil_inv in Hn).
      by rewrite E2, Hnil.
Qed.

(** The node of a well-formed state is a well-formed view. *)
Lemma node_ok_view config st i fallback r h : node_ok config st -> view_ok (node_view i (Some st) fallback r h).
Proof. intros [Ho _ Hl _ _]. by split. Qed.

(** The sampler's own ring answers honestly. *)
Lemma since_is_honest {Counters} retention after
    (ring : Sampler.Ring (Readings := Observed (R := R)) (Table := Table) (Counters := Counters)) :
  Sampler.ring_inv retention ring -> honest after (Sampler.since ring after).
Proof.
  intros [Hn _ _ _].
  assert (forall l off, (forall i s, l !! i = Some s -> Sampler.sequence s = off + Z.of_nat i) ->
            increasing (filter (fun s : Sample => after < Sampler.sequence s) l)) as Hinc.
  { induction l as [|x l IH]; intros off Hl; [constructor|].
    assert (forall i s, l !! i = Some s -> Sampler.sequence s = off + 1 + Z.of_nat i) as Hl'.
    { intros i s Hi. rewrite (Hl (S i) s Hi). lia. }
    specialize (IH _ Hl'). rewrite filter_cons. case_decide; [|done]. constructor; [done|].
    apply Forall_forall. intros y [_ [i Hi]%list_elem_of_lookup]%list_elem_of_filter.
    rewrite (Hl' i y Hi), (Hl 0%nat x eq_refl). lia. }
  split; cbn.
  - by apply (Hinc _ (Sampler.latest ring - Z.of_nat (length (Sampler.samples ring)) + 1)).
  - intros x [Hx [i Hi]%list_elem_of_lookup]%list_elem_of_filter.
    pose proof (Hn i x Hi) as Hs. pose proof (lookup_lt_Some _ _ _ Hi).
    split; [lia|]. destruct (Sampler.samples ring) as [|s l]; [done|].
    rewrite (Hn 0%nat s eq_refl). lia.
Qed.

(** ** What a patch never does *)

(** No operation addresses the root of the document, and a patch is no longer than eight
    appends with their removals and three replacements for each node. *)
Lemma append_ops_length i fresh : forall r, (length (append_ops i r fresh) <= 2 * length fresh)%nat.
Proof.
  induction fresh as [|x fresh IH]; intros r; [cbn; lia|]. cbn. destruct r as [|r]; cbn.
  - specialize (IH 0%nat). lia.
  - specialize (IH r). lia.
Qed.

Lemma append_ops_paths i fresh : forall r op, op ∈ append_ops i r fresh -> exists m, op_path op = node_path i m.
Proof.
  induction fresh as [|x fresh IH]; intros r op Hop; [by apply elem_of_nil in Hop|]. cbn in Hop.
  apply elem_of_cons in Hop as [->|Hop]; [by eexists|].
  destruct r as [|r]; [by eapply IH|]. apply elem_of_cons in Hop as [->|Hop]; [by eexists|by eapply IH].
Qed.

Lemma node_operations_small i c node o :
  node_operations i c node = Some o ->
  (length (ops o) <= 2 * appends o + 3)%nat /\ forall op, op ∈ ops o -> exists m, op_path op = node_path i m.
Proof.
  unfold node_operations. do 3 (destruct (_ : bool); [done|]).
  intros (e & _ & Ho)%bind_Some. destruct (_ <? _)%nat; [done|].
  apply bind_Some in Ho as (base & Hbase & [= <-]). cbn [ops appends]. rewrite !app_if.
  assert ((length base <= 2 * length (fresh_samples c node) + 1)%nat /\
          forall op, op ∈ base -> exists m, op_path op = node_path i m) as [H1 H2].
  { destruct (Nat.eqb_spec (length (fresh_samples c node)) 0).
    - destruct (0 <? e)%nat; [done|]. injection Hbase as <-. split; [cbn; lia|by intros op ?%elem_of_nil].
    - injection Hbase as <-. split.
      + cbn. pose proof (append_ops_length i (fresh_samples c node) e). lia.
      + intros op [->|Hop]%elem_of_cons; [by eexists|by eapply append_ops_paths]. }
  split.
  - rewrite !length_app. destruct (bool_decide _), (bool_decide _); cbn; lia.
  - intros op [[Hop|Hop]%elem_of_app|Hop]%elem_of_app; [by apply H2| |];
      (destruct (bool_decide _); [by apply elem_of_nil in Hop|];
       apply list_elem_of_singleton in Hop as ->; by eexists).
Qed.

Theorem patches_are_small b (s : Snapshot) :
  (length (next b s).2 <= 16 + 3 * size (s_nodes s))%nat /\
  forall op, op ∈ (next b s).2 -> op_path op <> [].
Proof.
  unfold next. destruct (incremental b s) as [patch|] eqn:Hi; cbn [snd].
  2:{ split; [cbn; lia|]. unfold resnapshot. intros op Hop.
      repeat (apply elem_of_cons in Hop as [->|Hop]; [done|]). by apply elem_of_nil in Hop. }
  unfold incremental in Hi. apply bind_Some in Hi as (at_ & _ & Hi). destruct (_ <=? _) in Hi; [done|].
  destruct (_ || _) in Hi; [done|]. apply bind_Some in Hi as ([all n] & Hops & Hi).
  destruct (MAX_APPENDS_PER_TICK <? n)%nat eqn:Hn in Hi; [done|]. injection Hi as <-.
  apply Nat.ltb_ge in Hn. unfold MAX_APPENDS_PER_TICK in Hn.
  enough ((length all <= 2 * n + 3 * length (entries (s_nodes s)))%nat /\
          forall op, op ∈ all -> op_path op <> []) as [H1 H2].
  { split; [|done]. assert (length (entries (s_nodes s)) = size (s_nodes s)) as Hlen.
    { unfold entries. rewrite (Permutation_length (merge_sort_Permutation _ _)). apply length_map_to_list. }
    lia. }
  clear Hn. revert all n Hops. unfold all_operations. induction (entries (s_nodes s)) as [|[i node] l IH] using rev_ind;
    intros all n Hops; [cbn in Hops; injection Hops as <- <-; split; [cbn; lia|by intros op ?%elem_of_nil]|].
  rewrite foldl_app in Hops. cbn [foldl] in Hops. apply bind_Some in Hops as ([all0 n0] & Hl & Hops).
  apply bind_Some in Hops as (c & _ & (o & Ho & [= <- <-])%bind_Some).
  destruct (node_operations_small _ _ _ _ Ho) as [O1 O2].
  destruct (IH all0 n0 Hl) as [I1 I2]. rewrite !length_app. cbn. split; [lia|].
  intros op [Hop|Hop]%elem_of_app; [by apply I2|]. by destruct (O2 op Hop) as [m ->].
Qed.

End Patch.
End MetricsPatch.

(** * A viewer of one node *)
Module SampleViewer.

Definition config : SamplerConfig := {| interval_ms := 2000; retention := 3; max_processes := 10 |}.

Definition reading (n : Z) : Sample (R := unit) (Table := unit) :=
  {| Sampler.sequence := n;
     Sampler.readings := {| o_hostname := "think4"; captured_at := from_secs n; rest := () |};
     Sampler.processes := None |}.

Notation Node := (MetricsNode (R := unit) (Table := unit)).
Notation Snap := (ClusterMetricsSnapshot (R := unit) (Table := unit) (Thresholds := unit)).

Definition node (c : option DateTime) (l : list Z) : Node :=
  {| node_id := 1%N; hostname := "think4"; role := Worker; health := None; availability := Available;
     latest := last (reading <$> l); history := reading <$> l; last_contact_at := c |}.

Definition shown (at_ : DateTime) (n : Node) : Snap :=
  {| s_nodes := {[ 1%N := n ]}; generated_at := at_; sample_interval_ms := 2000; disk_alert_thresholds := () |}.

Definition viewer (ss : list Snap) :=
  foldl (MetricsPatch.tick pretty) (MetricsPatch.new, Some MetricsPatch.seeded) ss.

(** What the viewer's document holds of the node. *)
Definition seen (ss : list Snap) : option (list Z * option DateTime) :=
  d ← (viewer ss).2;
  n ← MetricsPatch.d_nodes d !! "1";
  Some (Sampler.sequence <$> history n, last_contact_at n).

Definition smooth : list Snap := [shown 0 (node None [1; 2; 3])].

Lemma shown_ok at_ c l :
  MetricsPatch.view_ok (node c l) -> MetricsPatch.snapshot_ok (shown at_ (node c l)).
Proof. intros H i n Hi. cbn in Hi. apply lookup_singleton_Some in Hi as [<- <-]. exact H. Qed.

Lemma increasing_readings l :
  StronglySorted Z.lt l -> MetricsPatch.increasing (reading <$> l).
Proof. induction 1 as [|x l _ IH Hx]; constructor; [done|]. by apply Forall_fmap. Qed.

Lemma node_view_ok c l : StronglySorted Z.lt l -> MetricsPatch.view_ok (node c l).
Proof.
  intros Hl. split; [|by apply increasing_readings]. cbn. rewrite last_None. done.
Qed.

(** One reading arrives and the oldest leaves. *)
Lemma patch_stream_exact_witness :
  let s := shown 2 (node None [2; 3; 4]) in
  exists b d, viewer (smooth ++ [s]) = (b, Some d) /\ MetricsPatch.agrees pretty d s.
Proof.
  intros s. apply (MetricsPatch.patch_stream_exact pretty smooth s).
  - apply Forall_cons; split; [|apply Forall_cons; split; [|constructor]];
      apply shown_ok, node_view_ok; repeat constructor.
  - split; [|done]. intros i n n' Hi Hi'. cbn in Hi, Hi'.
    apply lookup_singleton_Some in Hi as [<- <-]. apply lookup_singleton_Some in Hi' as [_ <-].
    left. exists [reading 4], 1%nat. split_and!; [done|cbn; lia| |done].
    intros x y Hx ->%list_elem_of_singleton. cbn in Hx.
    repeat (apply elem_of_cons in Hx as [->|Hx]; [done|]). by apply elem_of_nil in Hx.
Defined.

(** ** Where the patches fall short *)

(** The lengths the evictions are derived from need not fit the appends: a history cut to
    one new entry has three to remove, one append carries one removal, and the viewer keeps
    two entries the server has dropped. *)
Lemma hidden_break_diverges :
  let s := shown 2 (node None [4]) in
  seen (smooth ++ [s]) = Some ([2; 3; 4], None) /\ seen [s] = Some ([4], None).
Proof. by vm_compute. Qed.

(** The time of the last contact is part of a node's view but of no patch. *)
Lemma contact_time_is_not_patched :
  let s := shown 2 (node (Some 2) [2; 3; 4]) in
  seen (smooth ++ [s]) = Some ([2; 3; 4], None) /\ seen [s] = Some ([2; 3; 4], Some 2).
Proof. by vm_compute. Qed.

(** ** What the service shows it *)

Definition three : NodeState (R := unit) (Table := unit) :=
  foldl receive (new_state 0) [reading 1; reading 2; reading 3].

Definition fourth : Batch (R := unit) (Table := unit) :=
  {| Sampler.batch_samples := [reading 4]; Sampler.earliest_retained_sequence := 2;
     Sampler.batch_latest_sequence := 4 |}.

Lemma three_ok : MetricsPatch.node_ok config three.
Proof.
  split; [|intros x Hx|done|vm_compute; lia|intros x Hx].
  - by apply (increasing_readings [1; 2; 3]); repeat constructor.
  - repeat (apply elem_of_cons in Hx as [->|Hx]; [done|]). by apply elem_of_nil in Hx.
  - repeat (apply elem_of_cons in Hx as [->|Hx]; [done|]). by apply elem_of_nil in Hx.
Qed.

Lemma reply_is_followed_witness :
  let st' := expire_state 9 60 (apply_outcome three 3 (Ok fourth) 9 config) in
  MetricsPatch.node_ok config st' /\
  MetricsPatch.followed (node_view 1%N (Some three) "w" Worker None)
    (node_view 1%N (Some st') "w" Worker None).
Proof.
  apply (MetricsPatch.reply_is_followed config three (Ok fourth) 9 9 60 1%N "w" "w" Worker None None three_ok).
  intros b [= <-]. split; [repeat constructor|].
  intros x ->%list_elem_of_singleton. cbn. lia.
Defined.

(** A restarted worker that has taken two samples answers a poll for what came after the
    third of its former life: the cursor is put back to the start and then moved past both
    of them, and the next poll asks for what comes after the second. *)
Lemma restart_skips_samples :
  let restarted := {| Sampler.samples := [reading 1; reading 2]; Sampler.counters := @None unit;
                      Sampler.latest := 2 |} in
  let st := apply_outcome three 3 (Ok (Sampler.since restarted 3)) 9 config in
  (n_history st, cursor st) = ([], 2) /\
  Sampler.batch_samples (Sampler.since restarted (cursor st)) = [].
Proof. by vm_compute. Qed.

End SampleViewer.
