(* ===== verification/SortBy.v ===== *)
(** * Sorting by a string key

    [slice::sort_by] with [str]'s order, and [Vec::dedup]. *)
From S2P Require Import Prelude.

(** [slice::sort_by] on a key: a stable sort. *)
Fixpoint insert_by {A} (key : A -> string) (x : A) (l : list A) : list A :=
  match l with
  | [] => [x]
  | y :: l' => if String.leb (key x) (key y) then x :: l else y :: insert_by key x l'
  end.

Definition sort_by {A} (key : A -> string) (l : list A) : list A := foldr (insert_by key) [] l.

(** [Vec::dedup]. *)
Fixpoint dedup (l : list string) : list string :=
  match l with
  | x :: ((y :: _) as l') => if String.eqb x y then dedup l' else x :: dedup l'
  | _ => l
  end.

Lemma insert_by_perm {A} (key : A -> string) x l : insert_by key x l ≡ₚ x :: l.
Proof.
  induction l as [|y l IH]; [done|]. cbn. destruct (String.leb _ _); [done|].
  rewrite IH. constructor.
Qed.

Lemma sort_by_perm {A} (key : A -> string) l : sort_by key l ≡ₚ l.
Proof. induction l as [|x l IH]; [done|]. cbn. by rewrite insert_by_perm, IH. Qed.

Definition le_by {A} (key : A -> string) (x y : A) : Prop := String.leb (key x) (key y) = true.

#[global] Instance le_by_trans {A} (key : A -> string) : Transitive (le_by key).
Proof.
  intros x y z Hxy Hyz. unfold le_by in *.
  apply Is_true_eq_true. change (String.le (key x) (key z)).
  trans (key y); by apply Is_true_eq_left.
Qed.

Lemma sort_by_sorted {A} (key : A -> string) l : StronglySorted (le_by key) (sort_by key l).
Proof.
  apply Sorted_StronglySorted; [apply le_by_trans|].
  induction l as [|x l IH]; [constructor|].
  change (Sorted (le_by key) (insert_by key x (sort_by key l))).
  induction (sort_by key l) as [|y k IHk]; [repeat constructor|]. cbn [insert_by].
  destruct (String.leb (key x) (key y)) eqn:Hle; [constructor; [done|by constructor]|].
  apply Sorted_inv in IH as [IH Hy]. constructor; [by apply IHk|].
  assert (le_by key y x) as Hyx by (unfold le_by; by destruct (String.leb_total (key x) (key y)); [congruence|]).
  destruct k as [|z k]; cbn; [by constructor|]. destruct (String.leb (key x) (key z)); [by constructor|].
  apply HdRel_inv in Hy. by constructor.
Qed.

Lemma elem_of_dedup l i : i ∈ dedup l <-> i ∈ l.
Proof.
  induction l as [|x [|y l] IH]; [done|done|].
  change (i ∈ (if String.eqb x y then dedup (y :: l) else x :: dedup (y :: l)) <-> i ∈ x :: y :: l).
  destruct (String.eqb_spec x y) as [->|]; rewrite ?elem_of_cons, IH; rewrite !elem_of_cons; tauto.
Qed.

Lemma dedup_strict l :
  StronglySorted (le_by (fun x => x)) l -> StronglySorted (fun x y => le_by (fun x => x) x y /\ x <> y) (dedup l).
Proof.
  induction l as [|x [|y l] IH]; intros Hs; [constructor|repeat constructor|].
  change (StronglySorted (fun x y => le_by (fun x => x) x y /\ x <> y)
            (if String.eqb x y then dedup (y :: l) else x :: dedup (y :: l))).
  apply StronglySorted_inv in Hs as [Hs Hx]. specialize (IH Hs).
  destruct (String.eqb_spec x y) as [->|Hne]; [done|]. constructor; [done|].
  rewrite Forall_forall in Hx |- *. intros z Hz. rewrite elem_of_dedup in Hz. split; [exact (Hx z Hz)|]. intros <-.
  apply Hne. apply StronglySorted_inv in Hs as [_ Hy]. rewrite Forall_forall in Hy.
  apply elem_of_cons in Hz as [?|Hz]; [done|]. apply String.leb_antisym; [apply (Hx y); by left|exact (Hy x Hz)].
Qed.
