(* ===== verification/McpRefresh.v ===== *)
(** * Refreshing a session's MCP tools

    [McpRefresh] is crates/services/src/services/mcp_refresh.rs with the types of
    crates/executors/src/mcp_refresh.rs: what is known of the MCP servers of each session,
    under generations that a refresh request, a restart or an ordinary start takes.  Each
    operation here runs under the lock of [states]; [fail], [request] and [request_restart]
    are two such sections each, and are put together in McpRefreshRuns.v, where any number
    of them interleave. *)
From S2P Require Import Prelude SortBy.

Module McpRefresh.

(* crates/executors/src/mcp_refresh.rs:12-19 McpRefreshStatus *)
Inductive McpRefreshStatus :=
| PendingNextTurn | Refreshed | PartiallyRefreshed | Busy | Unsupported | Failed.

#[global] Instance status_eq_dec : EqDecision McpRefreshStatus.
Proof. solve_decision. Defined.

(* crates/executors/src/mcp_refresh.rs:24-38 McpRefreshErrorCategory *)
Inductive McpRefreshErrorCategory :=
| ExecutableUnavailable | ProcessLaunchFailed | InitializeFailed | AuthenticationFailed
| CapabilityListFailed | InvalidCapabilitySchema | Timeout | RefreshInProgress | ActiveCall
| MaterializationFailed | ReloadFailed | UnsupportedExecutor | Internal.

(* crates/executors/src/mcp_refresh.rs:42-47 McpRefreshError *)
Record McpRefreshError := {
  category : McpRefreshErrorCategory;
  message : string;
  remediation : string;
  e_retryable : bool;
}.

(* crates/executors/src/mcp_refresh.rs:52-61 McpServerRefreshStatus *)
Inductive McpServerRefreshStatus :=
| Connecting | Ready | ConnectedNoTools | FailedRetained | FailedUnavailable | NotRegistered
| Removed | Disabled.

#[global] Instance server_status_eq_dec : EqDecision McpServerRefreshStatus.
Proof. solve_decision. Defined.

(* crates/executors/src/mcp_refresh.rs:93-96 McpDiscoveryObservation *)
Record McpDiscoveryObservation := { code : McpRefreshErrorCategory; observed_at : DateTime }.

(* crates/executors/src/mcp_refresh.rs:64-89 McpServerRefreshSnapshot *)
Record McpServerRefreshSnapshot := {
  server_id : string;
  s_status : McpServerRefreshStatus;
  tool_count : option Z;
  tool_names : option (list string);
  tool_schema_fingerprint : option string;
  resource_count : option Z;
  prompt_count : option Z;
  restart_occurred : option bool;
  discovery_attempts : Z;
  observed_errors : list McpDiscoveryObservation;
  first_observed_at : option DateTime;
  last_observed_at : option DateTime;
  terminal_at : option DateTime;
  s_error : option McpRefreshError;
}.

(* crates/executors/src/mcp_refresh.rs:100-112 McpRefreshResult *)
Record McpRefreshResult := {
  status : McpRefreshStatus;
  retryable : bool;
  generation : Z;
  requested_at : DateTime;
  last_successful_refresh_at : option DateTime;
  configured_server_ids : list string;
  servers : list McpServerRefreshSnapshot;
  error : option McpRefreshError;
}.

(* crates/executors/src/mcp_refresh.rs:133-207 safe_executor_error *)
Definition safe_executor_error (c : McpRefreshErrorCategory) : McpRefreshError :=
  let '(message, remediation, retryable) :=
    match c with
    | AuthenticationFailed =>
        ("The MCP server requires authentication.",
         "Reconnect or renew the server credentials, then refresh again.", true)
    | Timeout =>
        ("The MCP refresh timed out.", "Check that the server is responsive, then retry.", true)
    | RefreshInProgress =>
        ("An MCP refresh is already in progress.",
         "Wait for the current refresh to finish, then retry.", true)
    | ActiveCall =>
        ("An MCP tool call is active.", "Retry after the active tool call finishes.", true)
    | MaterializationFailed =>
        ("Vibe Kanban could not materialize the latest MCP settings.",
         "Retry. If the problem continues, inspect the worker's secret-safe logs.", true)
    | ReloadFailed =>
        ("Codex could not reload the refreshed MCP configuration.",
         "Retry after Codex is ready, or continue in a fresh turn.", true)
    | UnsupportedExecutor =>
        ("This executor cannot refresh MCP tools in place.",
         "Call restart_session to preserve the conversation and rediscover MCP tools in a fresh executor process.",
         false)
    | ExecutableUnavailable =>
        ("The configured MCP executable or package is unavailable.",
         "Install the configured package or correct its command, then retry.", true)
    | ProcessLaunchFailed =>
        ("The MCP server could not be started.",
         "Check the server command and local runtime, then retry.", true)
    | InitializeFailed =>
        ("The MCP server did not complete initialization.",
         "Check server compatibility and startup health, then retry.", true)
    | CapabilityListFailed =>
        ("The refreshed MCP capability inventory could not be read.",
         "Check the server logs for a tools/list failure, then retry.", true)
    | InvalidCapabilitySchema =>
        ("The MCP server returned an invalid capability schema.",
         "Update or fix the MCP server, then retry.", true)
    | Internal =>
        ("Vibe Kanban could not complete the MCP refresh.",
         "Retry. If the problem continues, inspect secret-safe server logs.", true)
    end in
  {| category := c; message := message; remediation := remediation; e_retryable := retryable |}.

(** ** Lists of servers *)

Definition sorted_ids (l : list string) : list string := dedup (sort_by (fun x => x) l).

Definition by_id : list McpServerRefreshSnapshot -> list McpServerRefreshSnapshot :=
  sort_by server_id.

(** Some snapshot in the list is of the server. *)
Definition lists (l : list McpServerRefreshSnapshot) (i : string) : bool :=
  existsb (fun server => String.eqb (server_id server) i) l.

#[local] Arguments lists : simpl never.

(* crates/services/src/services/mcp_refresh.rs:18-26 is_unsuccessful_server *)
Definition is_unsuccessful_server (server : McpServerRefreshSnapshot) : bool :=
  match s_status server with
  | ConnectedNoTools | FailedRetained | FailedUnavailable | NotRegistered => true
  | _ => false
  end.

(** ** The coordinator *)

(* crates/services/src/services/mcp_refresh.rs:12-16 McpRefreshCoordinator *)
Record McpRefreshCoordinator := {
  states : gmap Uuid McpRefreshResult;
  generations : gmap Uuid Z;
  restart_generations : gmap Uuid Z;
}.

Definition empty_coordinator : McpRefreshCoordinator :=
  {| states := ∅; generations := ∅; restart_generations := ∅ |}.

Definition with_states (c : McpRefreshCoordinator) s : McpRefreshCoordinator :=
  {| states := s; generations := generations c; restart_generations := restart_generations c |}.

Definition put (c : McpRefreshCoordinator) (session : Uuid) (r : McpRefreshResult)
    : McpRefreshCoordinator :=
  with_states c (<[session := r]> (states c)).

(** The session's next generation, which the counter now shows. *)
Definition next_generation (c : McpRefreshCoordinator) (session : Uuid) : Z :=
  saturating_add u64_max (default 0 (generations c !! session)) 1.

Definition put_generation (c : McpRefreshCoordinator) (session : Uuid) (r : McpRefreshResult)
    : McpRefreshCoordinator :=
  {| states := <[session := r]> (states c);
     generations := <[session := generation r]> (generations c);
     restart_generations := restart_generations c |}.

(** The record of a configured server that is missing from an inventory. *)
Definition not_registered (now : DateTime) (restarted : bool) (i : string) : McpServerRefreshSnapshot :=
  {| server_id := i; s_status := NotRegistered; tool_count := Some 0; tool_names := Some [];
     tool_schema_fingerprint := None; resource_count := None; prompt_count := None;
     restart_occurred := Some restarted; discovery_attempts := 1; observed_errors := [];
     first_observed_at := Some now; last_observed_at := Some now; terminal_at := Some now;
     s_error := Some (safe_executor_error CapabilityListFailed) |}.

(** The loop over the configured servers. *)
Definition complete (absent : string -> McpServerRefreshSnapshot) (ids : list string)
    (l : list McpServerRefreshSnapshot) : list McpServerRefreshSnapshot :=
  foldl (fun l i => if lists l i then l else l ++ [absent i]) l ids.

(* crates/services/src/services/mcp_refresh.rs:32-99 McpRefreshCoordinator::observe_inventory *)
Definition observe_inventory (c : McpRefreshCoordinator) (session : Uuid)
    (execution_started_at : DateTime) (configured : list string)
    (found : list McpServerRefreshSnapshot) (now : DateTime)
    : McpRefreshCoordinator * McpRefreshResult :=
  let publish :=
    let configured := sorted_ids configured in
    let found := by_id (complete (not_registered now false) configured found) in
    let partial := existsb is_unsuccessful_server found in
    let result :=
      {| status := if partial then PartiallyRefreshed else Refreshed;
         retryable := false;
         generation := next_generation c session;
         requested_at := execution_started_at;
         last_successful_refresh_at := if partial then None else Some now;
         configured_server_ids := configured;
         servers := found;
         error := None |} in
    (put_generation c session result, result) in
  match states c !! session with
  | Some current =>
      if bool_decide (status current = PendingNextTurn)
         || (negb (bool_decide (status current = Unsupported))
             && (execution_started_at <? requested_at current))
      then (c, current)
      else publish
  | None => publish
  end.

Definition connecting (now : DateTime) (i : string) : McpServerRefreshSnapshot :=
  {| server_id := i; s_status := Connecting; tool_count := None; tool_names := None;
     tool_schema_fingerprint := None; resource_count := None; prompt_count := None;
     restart_occurred := None; discovery_attempts := 0; observed_errors := [];
     first_observed_at := Some now; last_observed_at := Some now; terminal_at := None;
     s_error := None |}.

Definition busy_result (r : McpRefreshResult) : McpRefreshResult :=
  {| status := Busy; retryable := true; generation := generation r;
     requested_at := requested_at r;
     last_successful_refresh_at := last_successful_refresh_at r;
     configured_server_ids := configured_server_ids r; servers := servers r;
     error := Some (safe_executor_error RefreshInProgress) |}.

Definition requested (previous : option McpRefreshResult) (g : Z) (supported : bool)
    (configured : list string) (now : DateTime) : McpRefreshResult :=
  let old := match previous with Some state => servers state | None => [] end in
  let connecting_servers :=
    old ++ (connecting now <$> List.filter (fun i => negb (lists old i)) configured) in
  {| status := if supported then PendingNextTurn else Unsupported;
     retryable := false;
     generation := g;
     requested_at := now;
     last_successful_refresh_at := previous ≫= last_successful_refresh_at;
     configured_server_ids := configured;
     servers := if supported then connecting_servers else old;
     error := if supported then None else Some (safe_executor_error UnsupportedExecutor) |}.

(* crates/services/src/services/mcp_refresh.rs:163-247 McpRefreshCoordinator::request_inner *)
Definition request_inner (c : McpRefreshCoordinator) (session : Uuid) (supported : bool)
    (configured : list string) (supersede_pending : bool) (now : DateTime)
    : McpRefreshCoordinator * McpRefreshResult :=
  let previous := states c !! session in
  let publish :=
    let result :=
      requested previous (next_generation c session) supported (sorted_ids configured) now in
    (put_generation c session result, result) in
  match previous with
  | Some current =>
      if bool_decide (status current = PendingNextTurn) && negb supersede_pending
      then (c, busy_result current) else publish
  | None => publish
  end.

(** [restart_generations], which has a lock of its own. *)
Definition mark_restart (c : McpRefreshCoordinator) (session : Uuid) (g : Z) : McpRefreshCoordinator :=
  {| states := states c; generations := generations c;
     restart_generations := <[session := g]> (restart_generations c) |}.

Definition unmark_restart (c : McpRefreshCoordinator) (session : Uuid) : McpRefreshCoordinator :=
  {| states := states c; generations := generations c;
     restart_generations := delete session (restart_generations c) |}.

(* crates/services/src/services/mcp_refresh.rs:159-161 McpRefreshCoordinator::is_restart_generation *)
Definition is_restart_generation (c : McpRefreshCoordinator) (session : Uuid) (g : Z) : bool :=
  bool_decide (restart_generations c !! session = Some g).

(** ** Failures *)

Definition mark_failed (c : McpRefreshErrorCategory) (now : DateTime)
    (server : McpServerRefreshSnapshot) : McpServerRefreshSnapshot :=
  {| server_id := server_id server; s_status := FailedUnavailable; tool_count := Some 0;
     tool_names := Some []; tool_schema_fingerprint := None; resource_count := None;
     prompt_count := None; restart_occurred := restart_occurred server;
     discovery_attempts := saturating_add u32_max (discovery_attempts server) 1;
     observed_errors := observed_errors server ++ [{| code := c; observed_at := now |}];
     first_observed_at := first_observed_at server; last_observed_at := Some now;
     terminal_at := Some now; s_error := Some (safe_executor_error c) |}.

Definition failed_unlisted (c : McpRefreshErrorCategory) (now : DateTime) (i : string)
    : McpServerRefreshSnapshot :=
  {| server_id := i; s_status := FailedUnavailable; tool_count := Some 0; tool_names := Some [];
     tool_schema_fingerprint := None; resource_count := None; prompt_count := None;
     restart_occurred := None; discovery_attempts := 1;
     observed_errors := [{| code := c; observed_at := now |}];
     first_observed_at := Some now; last_observed_at := Some now; terminal_at := Some now;
     s_error := Some (safe_executor_error c) |}.

(** One server's turn in the loop of [fail]: the first snapshot of it, if there is any. *)
Fixpoint fail_server (fresh_process_restart : bool) (c : McpRefreshErrorCategory) (now : DateTime)
    (l : list McpServerRefreshSnapshot) (i : string) : list McpServerRefreshSnapshot :=
  match l with
  | [] => [failed_unlisted c now i]
  | server :: l' =>
      if String.eqb (server_id server) i then
        if negb fresh_process_restart
           && negb (bool_decide (s_status server = Connecting)
                    || bool_decide (s_status server = NotRegistered))
        then l else mark_failed c now server :: l'
      else server :: fail_server fresh_process_restart c now l' i
  end.

(** The section of [fail] under the lock of [states]; [fresh_process_restart] was read
    before it. *)
(* crates/services/src/services/mcp_refresh.rs:249-324 McpRefreshCoordinator::fail *)
Definition fail_state (c : McpRefreshCoordinator) (session : Uuid) (expected_generation : Z)
    (cat : McpRefreshErrorCategory) (fresh_process_restart : bool) (now : DateTime)
    : McpRefreshCoordinator * option McpRefreshResult :=
  match states c !! session with
  | None => (c, None)
  | Some state =>
      if generation state =? expected_generation then
        let failed_server_ids :=
          if fresh_process_restart
          then sorted_ids (configured_server_ids state ++ (server_id <$> servers state))
          else configured_server_ids state in
        let state :=
          {| status := Failed; retryable := true; generation := generation state;
             requested_at := requested_at state;
             last_successful_refresh_at := last_successful_refresh_at state;
             configured_server_ids := configured_server_ids state;
             servers := foldl (fail_server fresh_process_restart cat now) (servers state)
                          failed_server_ids;
             error := Some (safe_executor_error cat) |} in
        (put c session state, Some state)
      else (c, None)
  end.

(* crates/services/src/services/mcp_refresh.rs:326-335 McpRefreshCoordinator::busy *)
Definition busy (c : McpRefreshCoordinator) (session : Uuid) : option McpRefreshResult :=
  busy_result <$> states c !! session.

(* crates/services/src/services/mcp_refresh.rs:337-344 McpRefreshCoordinator::unsupported *)
Definition unsupported (c : McpRefreshCoordinator) (session : Uuid)
    : McpRefreshCoordinator * option McpRefreshResult :=
  match states c !! session with
  | None => (c, None)
  | Some state =>
      let state :=
        {| status := Unsupported; retryable := false; generation := generation state;
           requested_at := requested_at state;
           last_successful_refresh_at := last_successful_refresh_at state;
           configured_server_ids := configured_server_ids state; servers := servers state;
           error := Some (safe_executor_error UnsupportedExecutor) |} in
      (put c session state, Some state)
  end.

(** The clock is read more than once in one call; the times differ by nothing that is
    compared. *)
(* crates/services/src/services/mcp_refresh.rs:346-399 McpRefreshCoordinator::confirm *)
Definition confirm (c : McpRefreshCoordinator) (session : Uuid) (expected_generation : Z)
    (found : list McpServerRefreshSnapshot) (now : DateTime)
    : McpRefreshCoordinator * option McpRefreshResult :=
  match states c !! session with
  | None => (c, None)
  | Some state =>
      if generation state =? expected_generation then
        if bool_decide (status state = PendingNextTurn) then
          let found := by_id (complete (not_registered now true) (configured_server_ids state) found) in
          let partial := existsb is_unsuccessful_server found in
          let state :=
            {| status := if partial then PartiallyRefreshed else Refreshed;
               retryable := false; generation := generation state;
               requested_at := requested_at state;
               last_successful_refresh_at :=
                 if partial then last_successful_refresh_at state else Some now;
               configured_server_ids := configured_server_ids state;
               servers := found; error := None |} in
          (put c session state, Some state)
        else (c, Some state)
      else (c, None)
  end.

(* crates/services/src/services/mcp_refresh.rs:401-403 McpRefreshCoordinator::status *)
Definition state_of (c : McpRefreshCoordinator) (session : Uuid) : option McpRefreshResult :=
  states c !! session.

(* crates/services/src/services/mcp_refresh.rs:405-407 McpRefreshCoordinator::remove *)
Definition remove (c : McpRefreshCoordinator) (session : Uuid) : McpRefreshCoordinator :=
  with_states c (delete session (states c)).

(** ** Facts on lists of servers *)

Lemma sorted_ids_strict l : StronglySorted (fun x y => le_by (fun x => x) x y /\ x <> y) (sorted_ids l).
Proof. apply dedup_strict, sort_by_sorted. Qed.

Lemma sorted_ids_nodup l : NoDup (sorted_ids l).
Proof.
  generalize (sorted_ids_strict l). induction 1 as [|x k _ IH Hx]; constructor; [|done].
  intros Hin. rewrite Forall_forall in Hx. by destruct (Hx x Hin).
Qed.

Lemma elem_of_sorted_ids l i : i ∈ sorted_ids l <-> i ∈ l.
Proof. unfold sorted_ids. by rewrite elem_of_dedup, sort_by_perm. Qed.

Lemma lists_elem l i : lists l i = true <-> exists x, x ∈ l /\ server_id x = i.
Proof.
  unfold lists. rewrite existsb_exists. split; intros (x & Hx & Hi); exists x.
  - split; [by apply list_elem_of_In|by apply String.eqb_eq].
  - split; [by apply list_elem_of_In|by apply String.eqb_eq].
Qed.

Lemma lists_perm l k i : l ≡ₚ k -> lists l i = lists k i.
Proof.
  intros Hp. apply eq_bool_prop_intro. rewrite !Is_true_true, !lists_elem.
  split; intros (x & Hx & ?); exists x; (split; [|done]); [by rewrite <- Hp|by rewrite Hp].
Qed.

Lemma lists_app l k i : lists (l ++ k) i = lists l i || lists k i.
Proof. apply existsb_app. Qed.

Lemma lists_complete absent ids : forall l i,
  (forall j, server_id (absent j) = j) ->
  lists (complete absent ids l) i = lists l i || bool_decide (i ∈ ids).
Proof.
  induction ids as [|j ids IH]; intros l i Ha; cbn; [by rewrite orb_false_r|].
  change (lists (complete absent ids (if lists l j then l else l ++ [absent j])) i
          = lists l i || bool_decide (i ∈ j :: ids)).
  rewrite IH by done. assert (bool_decide (i ∈ j :: ids) = bool_decide (i = j) || bool_decide (i ∈ ids)) as ->.
  { rewrite <- bool_decide_or. apply bool_decide_ext, elem_of_cons. }
  assert (lists (if lists l j then l else l ++ [absent j]) i = lists l i || bool_decide (i = j)) as ->;
    [|by rewrite orb_assoc].
  destruct (lists l j) eqn:Hj.
  - case_bool_decide; subst; by rewrite ?Hj, ?orb_false_r.
  - rewrite lists_app. f_equal. unfold lists. cbn. rewrite Ha, orb_false_r.
    destruct (String.eqb_spec j i) as [->|]; by case_bool_decide.
Qed.

(** The snapshot of a server. *)
Definition server_of (l : list McpServerRefreshSnapshot) (i : string) : option McpServerRefreshSnapshot :=
  List.find (fun server => String.eqb (server_id server) i) l.

Lemma lists_server_of l i : lists l i = bool_decide (is_Some (server_of l i)).
Proof.
  unfold lists, server_of. induction l as [|x l IH]; cbn [existsb List.find]; [done|].
  destruct (String.eqb _ _); [done|exact IH].
Qed.

(** What a failure does to one server's record. *)
Definition failed_server (fresh : bool) (c : McpRefreshErrorCategory) (now : DateTime) (i : string)
    (server : option McpServerRefreshSnapshot) : McpServerRefreshSnapshot :=
  match server with
  | None => failed_unlisted c now i
  | Some server =>
      if negb fresh && negb (bool_decide (s_status server = Connecting)
                             || bool_decide (s_status server = NotRegistered))
      then server else mark_failed c now server
  end.

Lemma server_of_fail_server fresh c now l i j :
  server_of (fail_server fresh c now l i) j =
    if String.eqb i j then Some (failed_server fresh c now i (server_of l i)) else server_of l j.
Proof.
  unfold server_of. induction l as [|x l IH]; cbn.
  - by destruct (String.eqb_spec i j).
  - destruct (String.eqb_spec (server_id x) i) as [<-|Hne]; cbn.
    + destruct (_ && _); cbn; by destruct (String.eqb (server_id x) j).
    + rewrite IH. destruct (String.eqb_spec (server_id x) j), (String.eqb_spec i j); congruence.
Qed.

(** Each server that fails, fails once. *)
Lemma server_of_failed fresh c now ids : forall l j,
  NoDup ids ->
  server_of (foldl (fail_server fresh c now) l ids) j =
    if bool_decide (j ∈ ids) then Some (failed_server fresh c now j (server_of l j)) else server_of l j.
Proof.
  induction ids as [|i ids IH]; intros l j Hn; [done|]. apply NoDup_cons in Hn as [Hi Hn].
  cbn [foldl]. rewrite IH, server_of_fail_server by done.
  destruct (String.eqb_spec i j) as [->|Hne].
  - rewrite bool_decide_eq_false_2 by done. by rewrite bool_decide_eq_true_2 by left.
  - assert (bool_decide (j ∈ i :: ids) = bool_decide (j ∈ ids)) as ->; [|done].
    apply bool_decide_ext. rewrite elem_of_cons. naive_solver.
Qed.

(** ** What is stored of a session *)

Record result_ok (r : McpRefreshResult) : Prop := {
  ok_ids : exists ids, configured_server_ids r = sorted_ids ids;
  ok_listed i : status r <> Unsupported -> i ∈ configured_server_ids r -> lists (servers r) i = true;
  ok_status :
    match status r with
    | PendingNextTurn => error r = None
    | Refreshed =>
        error r = None /\ existsb is_unsuccessful_server (servers r) = false /\
        is_Some (last_successful_refresh_at r)
    | PartiallyRefreshed => error r = None /\ existsb is_unsuccessful_server (servers r) = true
    | Unsupported => error r = Some (safe_executor_error UnsupportedExecutor)
    | Failed => exists c, error r = Some (safe_executor_error c)
    | Busy => False
    end;
  ok_retryable : retryable r = bool_decide (status r = Failed);
}.

Lemma server_id_not_registered now b i : server_id (not_registered now b i) = i.
Proof. done. Qed.

Lemma lists_completed now b ids l i :
  i ∈ ids -> lists (by_id (complete (not_registered now b) ids l)) i = true.
Proof.
  intros Hi. unfold by_id. rewrite (lists_perm _ _ _ (sort_by_perm _ _)), lists_complete by done.
  by rewrite (bool_decide_eq_true_2 (i ∈ ids)), orb_true_r.
Qed.

Lemma observe_inventory_ok c session started ids found now r :
  (forall r', states c !! session = Some r' -> result_ok r') ->
  (observe_inventory c session started ids found now).2 = r -> result_ok r.
Proof.
  intros Hc <-. unfold observe_inventory.
  destruct (states c !! session) as [r'|]; [destruct (_ || _); [by apply Hc|]|];
    (split; cbn; [by eexists|by intros i _; apply lists_completed| |by destruct (existsb _ _)]);
    destruct (existsb _ _); cbn; naive_solver.
Qed.

Lemma lists_connecting old now ids i :
  i ∈ ids -> lists (old ++ (connecting now <$> List.filter (fun i => negb (lists old i)) ids)) i = true.
Proof.
  intros Hi. rewrite lists_app. destruct (lists old i) eqn:Ho; [done|]. cbn [orb].
  apply lists_elem. exists (connecting now i). split; [|done]. apply list_elem_of_fmap.
  exists i. split; [done|]. apply list_elem_of_In, filter_In. split; [by apply list_elem_of_In|by rewrite Ho].
Qed.

Lemma requested_ok previous g supported ids now : result_ok (requested previous g supported (sorted_ids ids) now).
Proof.
  split; [by eexists| |by destruct supported|by destruct supported].
  destruct supported; [|done]. intros i _. unfold requested. apply lists_connecting.
Qed.

Lemma request_inner_stored c session supported ids supersede now c' r :
  request_inner c session supported ids supersede now = (c', r) ->
  (c' = c /\ exists r', states c !! session = Some r' /\ status r' = PendingNextTurn /\
     supersede = false /\ r = busy_result r') \/
  (c' = put_generation c session r /\
   r = requested (states c !! session) (next_generation c session) supported (sorted_ids ids) now).
Proof.
  unfold request_inner. destruct (states c !! session) as [r'|] eqn:Hs; [|by intros [= <- <-]; right].
  destruct (bool_decide_reflect (status r' = PendingNextTurn)); [|by intros [= <- <-]; right].
  destruct supersede; intros [= <- <-]; [by right|left]. split; [done|by exists r'].
Qed.

Lemma fail_state_ok c session g cat fresh now r :
  (forall r', states c !! session = Some r' -> result_ok r') ->
  (fail_state c session g cat fresh now).2 = Some r -> result_ok r /\ status r = Failed.
Proof.
  unfold fail_state. intros Hc. destruct (states c !! session) as [r'|]; [|done].
  destruct (_ =? _); [|done]. cbn. intros [= <-]. split; [|done]. destruct (Hc r' eq_refl) as [(ids & Hids) Hl _ _].
  split; cbn; [by exists ids| |by eexists|done].
  intros i _ Hi. rewrite lists_server_of, server_of_failed.
  - assert (bool_decide (i ∈ (if fresh then sorted_ids (configured_server_ids r' ++ (server_id <$> servers r'))
                              else configured_server_ids r')) = true) as ->; [|by apply bool_decide_eq_true; eauto].
    apply bool_decide_eq_true. destruct fresh; [|done]. rewrite elem_of_sorted_ids. by apply elem_of_app; left.
  - destruct fresh; [apply sorted_ids_nodup|]. rewrite Hids. apply sorted_ids_nodup.
Qed.

Lemma confirm_ok c session g found now r :
  (forall r', states c !! session = Some r' -> result_ok r') ->
  (confirm c session g found now).2 = Some r -> result_ok r.
Proof.
  unfold confirm. intros Hc. destruct (states c !! session) as [r'|]; [|done].
  destruct (_ =? _); [|done]. pose proof (Hc r' eq_refl) as Hr.
  case_bool_decide as Hs; cbn; intros [= <-]; [|done]. destruct Hr as [(ids & Hids) _ _ _].
  split; cbn; [by exists ids|by intros i _; apply lists_completed| |by destruct (existsb _ _)].
  destruct (existsb _ _); cbn; naive_solver.
Qed.

(** A failed restart leaves no server that still counts as connected; a failed refresh keeps
    every server of which the last inventory had an outcome, and gives the others a failure. *)
Theorem failure_is_per_server c s r cat fresh now i :
  states c !! s = Some r -> result_ok r ->
  exists r', (fail_state c s (generation r) cat fresh now).2 = Some r' /\
    (fresh = true -> forall server, server_of (servers r') i = Some server ->
       s_status server = FailedUnavailable) /\
    (fresh = false -> forall server, server_of (servers r) i = Some server ->
       s_status server <> Connecting -> s_status server <> NotRegistered ->
       server_of (servers r') i = Some server) /\
    (i ∈ configured_server_ids r -> exists server, server_of (servers r') i = Some server /\
       s_status server <> Connecting /\ s_status server <> NotRegistered).
Proof.
  intros Hs [(ids & Hids) _ _ _]. unfold fail_state. rewrite Hs, Z.eqb_refl. eexists. split; [done|].
  set (failed := if fresh then _ else _). cbn [servers].
  assert (NoDup failed) as Hn by (unfold failed; destruct fresh; rewrite ?Hids; apply sorted_ids_nodup).
  assert (forall x, x ∈ failed <-> x ∈ configured_server_ids r \/ (fresh = true /\ x ∈ (server_id <$> servers r))) as Hin.
  { intros x. unfold failed. destruct fresh; [rewrite elem_of_sorted_ids, elem_of_app; naive_solver|naive_solver]. }
  rewrite server_of_failed by done. clearbody failed. split_and!.
  - intros -> server. case_bool_decide as Hi.
    + intros [= <-]. unfold failed_server. by destruct (server_of (servers r) i).
    + intros Hsv. exfalso. apply Hi, Hin. right. split; [done|].
      apply find_some in Hsv as [Hx Hid%String.eqb_eq]. apply list_elem_of_fmap. exists server.
      split; [done|]. by apply list_elem_of_In.
  - intros -> server Hsv Hc Hr. rewrite Hsv. case_bool_decide; [|done]. unfold failed_server.
    by rewrite !bool_decide_eq_false_2.
  - intros Hi. rewrite bool_decide_eq_true_2 by (apply Hin; by left). eexists. split; [done|].
    unfold failed_server. destruct (server_of (servers r) i) as [server|]; [|done].
    destruct fresh; [done|]. cbn. repeat case_bool_decide; done.
Qed.

End McpRefresh.
