(* ===== verification/McpRefreshRuns.v ===== *)
(** * Refreshes, restarts and starts of executions, interleaved

    [RefreshRuns] holds the callers of [McpRefresh] in
    crates/local-deployment/src/container.rs: a refresh or restart requested by a user, the
    start of an execution on the coordinator or on a worker, and the teardown of a session.
    Each is a [Task], a tree of sections under one lock and of waits for the outside; the
    machine interleaves any number of them.  The history says which task requested, confirmed
    or failed which generation. *)
From S2P Require Import Prelude ClusterProtocol McpRefresh.
Import ClusterProtocol McpRefresh.

Module RefreshRuns.

(** ** Tasks *)

(** The sections, by the type of their answer. *)
Inductive section : Set -> Set :=
| ObserveInventory (session : Uuid) (started : DateTime) (ids : list string)
    (found : list McpServerRefreshSnapshot) : section McpRefreshResult
| RequestInner (session : Uuid) (supported : bool) (ids : list string) (supersede : bool)
    : section McpRefreshResult
| MarkRestart (session : Uuid) (g : Z) : section unit
| UnmarkRestart (session : Uuid) : section unit
| IsRestart (session : Uuid) (g : Z) : section bool
| FailState (session : Uuid) (g : Z) (c : McpRefreshErrorCategory) (fresh : bool)
    : section (option McpRefreshResult)
| BusyState (session : Uuid) : section (option McpRefreshResult)
| UnsupportedState (session : Uuid) : section (option McpRefreshResult)
| Confirm (session : Uuid) (g : Z) (found : list McpServerRefreshSnapshot)
    : section (option McpRefreshResult)
| Status (session : Uuid) : section (option McpRefreshResult)
| Remove (session : Uuid) : section unit
(** [mcp_refresh_controls]: false if the control of a later execution is there. *)
| InsertControl (session execution : Uuid) (started : DateTime) : section bool
| Control (session : Uuid) : section (option Uuid)
| RemoveControl (session : Uuid) : section unit.

Inductive HandleEvent := HandleReady | HandleDropped | HandleLate.

(** How a refresh reaches the running execution: through its worker job, or through the
    control of this process; or the database did not answer. *)
Inductive Route := OnWorker | Local | NoRoute.

(** The settings of a worker's execution, resolved again. *)
Inductive Materialized := NoProfile | NotMaterialized | NoCoordinatorId | SnapshotReady.

(** [client.refresh_mcp]. *)
Inductive RefreshAnswer :=
| NoClient | Answered (s : WorkerMcpRefreshStatus) | NotImplemented | OtherError.

(** One iteration's poll: a status with its servers, no usable answer, or the deadline. *)
Inductive PollAnswer :=
| Polled (s : WorkerMcpRefreshStatus) (found : list McpServerRefreshSnapshot)
| NoAnswer
| DeadlinePassed.

Inductive wait : Set -> Set :=
| AwaitHandle : wait HandleEvent
| AwaitLateHandle : wait bool
| ListServers : wait (result (list McpServerRefreshSnapshot) McpRefreshErrorCategory)
| QueueRefresh : wait (result unit McpRefreshErrorCategory)
| FindRoute : wait Route
| Materialize : wait Materialized
| RefreshMcp : wait RefreshAnswer
| Poll : wait PollAnswer.

Inductive Task :=
| Done (r : option McpRefreshResult)
| Do {R : Set} (q : section R) (k : R -> Task)
| Await {R : Set} (w : wait R) (k : R -> Task).

Notation "'do!' x := q 'in' t" := (Do q (fun x => t))
  (at level 10, x pattern, q at level 100, t at level 200) : vk_scope.
Notation "'await!' x := w 'in' t" := (Await w (fun x => t))
  (at level 10, x pattern, w at level 100, t at level 200) : vk_scope.

(** ** The two-section calls *)

(* crates/services/src/services/mcp_refresh.rs:126-139 McpRefreshCoordinator::request *)
Definition request (session : Uuid) (supported : bool) (ids : list string)
    (k : McpRefreshResult -> Task) : Task :=
  do! result := RequestInner session supported ids false in
  if bool_decide (status result = Busy) then k result
  else do! _ := UnmarkRestart session in k result.

(* crates/services/src/services/mcp_refresh.rs:144-157 McpRefreshCoordinator::request_restart *)
Definition request_restart (session : Uuid) (ids : list string) (k : McpRefreshResult -> Task) : Task :=
  do! result := RequestInner session true ids true in
  do! _ := MarkRestart session (generation result) in
  k result.

(* crates/services/src/services/mcp_refresh.rs:249-324 McpRefreshCoordinator::fail *)
Definition fail (session : Uuid) (g : Z) (c : McpRefreshErrorCategory)
    (k : option McpRefreshResult -> Task) : Task :=
  do! fresh_process_restart := IsRestart session g in
  do! r := FailState session g c fresh_process_restart in
  k r.

(* crates/services/src/services/mcp_refresh.rs:101-124 McpRefreshCoordinator::observe_failure *)
Definition observe_failure (session : Uuid) (started : DateTime) (ids : list string)
    (c : McpRefreshErrorCategory) (k : McpRefreshResult -> Task) : Task :=
  do! observed := ObserveInventory session started ids [] in
  if bool_decide (status observed = PendingNextTurn) || negb (requested_at observed =? started)
  then k observed
  else fail session (generation observed) c (fun r => k (default observed r)).

(** ** Starting an execution on the coordinator *)

Definition pending (r : option McpRefreshResult) : option McpRefreshResult :=
  state ← r; if bool_decide (status state = PendingNextTurn) then Some state else None.

Definition pending_before (started : DateTime) (r : option McpRefreshResult)
    : option McpRefreshResult :=
  state ← pending r; if requested_at state <=? started then Some state else None.

(** The deadline passed, or the handle will never come. *)
Definition discovery_failed (session : Uuid) (started : DateTime) (ids : list string) (k : Task) : Task :=
  do! state := Status session in
  match pending_before started state with
  | Some state => fail session (generation state) Timeout (fun _ => k)
  | None => observe_failure session started ids Timeout (fun _ => k)
  end.

(* crates/local-deployment/src/container.rs:1593-1689 register_mcp_refresh_control *)
Definition publish_inventory (session execution : Uuid) (started : DateTime) (ids : list string) : Task :=
  do! current := InsertControl session execution started in
  if negb current then Done None
  else
  do! state := Status session in
  match pending state with
  | Some state =>
      if started <? requested_at state then
        do! restart := IsRestart session (generation state) in
        if restart then Done None
        else
          await! r := QueueRefresh in
          match r with
          | Err c => fail session (generation state) c Done
          | Ok _ => Done None
          end
      else
        await! inventory := ListServers in
        do! owner := Control session in
        if negb (bool_decide (default execution owner = execution)) then Done None
        else
          match inventory with
          | Ok found => do! r := Confirm session (generation state) found in Done r
          | Err c => fail session (generation state) c Done
          end
  | None =>
      await! inventory := ListServers in
      do! owner := Control session in
      if bool_decide (owner = Some execution) then
        match inventory with
        | Ok found => do! _ := ObserveInventory session started ids found in Done None
        | Err c => observe_failure session started ids c (fun _ => Done None)
        end
      else Done None
  end.

(* crates/local-deployment/src/container.rs:1525-1691 register_mcp_refresh_control *)
Definition register_mcp_refresh_control (session execution : Uuid) (started : DateTime)
    (ids : list string) : Task :=
  await! e := AwaitHandle in
  match e with
  | HandleReady => publish_inventory session execution started ids
  | HandleDropped => discovery_failed session started ids (Done None)
  | HandleLate =>
      discovery_failed session started ids
        (await! arrived := AwaitLateHandle in
         if arrived then publish_inventory session execution started ids else Done None)
  end.

(** What became of the attempt to start a process, and whether the executor offers a
    control. *)
Inductive Spawned := SpawnFailed | SpawnedWithControl | SpawnedWithout.

(** [coding_agent] says what the execution runs. *)
(* crates/local-deployment/src/container.rs:5629-5702 start_execution_inner *)
Definition spawned (session execution : Uuid) (started : DateTime) (coding_agent : bool)
    (ids : list string) (s : Spawned) : Task :=
  let fail_pending c :=
    if coding_agent then
      do! state := Status session in
      match pending state with
      | Some state => fail session (generation state) c (fun _ => Done None)
      | None => Done None
      end
    else Done None in
  match s with
  | SpawnFailed => fail_pending ProcessLaunchFailed
  | SpawnedWithControl => register_mcp_refresh_control session execution started ids
  | SpawnedWithout => fail_pending UnsupportedExecutor
  end.

(** ** Starting an execution on a worker *)

(** Every iteration but the last ends a second after it began, within 30 seconds of the
    first. *)
Definition POLLS : nat := 31.

Definition settle (session : Uuid) (started : DateTime) (ids : list string) (g : option Z)
    (c : McpRefreshErrorCategory) : Task :=
  match g with
  | Some g => fail session g c (fun _ => Done None)
  | None => observe_failure session started ids c (fun _ => Done None)
  end.

(* crates/local-deployment/src/container.rs:5302-5430 dispatch_execution *)
Fixpoint poll_worker (polls : nat) (session : Uuid) (started : DateTime) (ids : list string)
    (inventory_expected : bool) (g : option Z) : Task :=
  match polls with
  | O => settle session started ids g Timeout
  | S polls =>
      let again := poll_worker polls session started ids inventory_expected g in
      await! answer := Poll in
      match answer with
      | DeadlinePassed => settle session started ids g Timeout
      | NoAnswer | Polled McpBusy _ => again
      | Polled McpQueued found =>
          match g with
          | Some g => do! _ := Confirm session g found in Done None
          | None => do! _ := ObserveInventory session started ids found in Done None
          end
      | Polled McpUnsupported _ =>
          if inventory_expected then again
          else match g with
               | Some g => fail session g UnsupportedExecutor (fun _ => Done None)
               | None => Done None
               end
      | Polled McpMaterializationFailed _ => settle session started ids g MaterializationFailed
      | Polled McpReloadFailed _ => settle session started ids g ReloadFailed
      end
  end.

(* crates/local-deployment/src/container.rs:5292-5301 dispatch_execution *)
Definition accepted (session : Uuid) (started : DateTime) (ids : list string)
    (inventory_expected : bool) : Task :=
  do! state := Status session in
  let pending_mcp_generation := generation <$> pending_before started state in
  poll_worker POLLS session started ids inventory_expected pending_mcp_generation.

(** ** Requests *)

(** A call that has no answer for this generation any more returns what was requested. *)
Definition or_requested (result : McpRefreshResult) (r : option McpRefreshResult) : Task :=
  Done (Some (default result r)).

(* crates/local-deployment/src/container.rs:4572-4747 refresh_mcp_tools *)
Definition refresh_mcp_tools (session : Uuid) (supported : bool) (ids : list string) : Task :=
  request session supported ids (fun result =>
    if negb (bool_decide (status result = PendingNextTurn)) then Done (Some result)
    else
      let failed c := fail session (generation result) c (or_requested result) in
      await! route := FindRoute in
      match route with
      | NoRoute => Done None
      | OnWorker =>
          await! m := Materialize in
          match m with
          | NoProfile => failed UnsupportedExecutor
          | NotMaterialized => failed MaterializationFailed
          | NoCoordinatorId => Done None
          | SnapshotReady =>
              await! answer := RefreshMcp in
              match answer with
              | Answered McpQueued => Done (Some result)
              | Answered McpBusy => do! r := BusyState session in or_requested result r
              | NoClient | Answered McpUnsupported | NotImplemented =>
                  do! r := UnsupportedState session in or_requested result r
              | Answered McpMaterializationFailed => failed MaterializationFailed
              | Answered McpReloadFailed | OtherError => failed ReloadFailed
              end
          end
      | Local =>
          do! control := Control session in
          match control with
          | Some _ =>
              await! r := QueueRefresh in
              match r with
              | Err c => failed c
              | Ok _ => Done (Some result)
              end
          | None => Done (Some result)
          end
      end).

(* crates/local-deployment/src/container.rs:4776-4780 prepare_mcp_restart *)
Definition prepare_mcp_restart (session : Uuid) (ids : list string) : Task :=
  request_restart session ids (fun r => Done (Some r)).

(* crates/local-deployment/src/container.rs:4783-4793 clear_mcp_restart_tracking *)
Definition clear_mcp_restart_tracking (session : Uuid) : Task :=
  do! state := Status session in
  match state with
  | Some state => fail session (generation state) ReloadFailed (fun _ => Done None)
  | None => Done None
  end.

(* crates/local-deployment/src/container.rs:4795-4803 fail_mcp_restart_generation *)
Definition fail_mcp_restart_generation (session : Uuid) (g : Z) : Task :=
  fail session g ReloadFailed (fun _ => Done None).

(** [start_blocked] is [is_mcp_restart_start_blocked]. *)
(* crates/local-deployment/src/container.rs:4507-4516 reap_warm_processes_for_session *)
Definition reap_warm_processes_for_session (session : Uuid) (start_blocked : bool) : Task :=
  do! _ := RemoveControl session in
  if start_blocked then Done None else do! _ := Remove session in Done None.

(* crates/local-deployment/src/container.rs:4518-4521 reap_warm_process_for_mcp_restart *)
Definition reap_warm_process_for_mcp_restart (session : Uuid) : Task :=
  do! _ := RemoveControl session in Done None.

(** ** The machine *)

Record world := {
  coordinator : McpRefreshCoordinator;
  controls : gmap Uuid (Uuid * DateTime);
}.

Definition set_coordinator (w : world) c : world := {| coordinator := c; controls := controls w |}.
Definition set_controls (w : world) m : world := {| coordinator := coordinator w; controls := m |}.

(** A section at the time [now]. *)
Definition exec {R : Set} (q : section R) (now : DateTime) (w : world) : world * R :=
  let c := coordinator w in
  match q in section R return world * R with
  | ObserveInventory s t ids found =>
      let '(c, r) := observe_inventory c s t ids found now in (set_coordinator w c, r)
  | RequestInner s b ids p =>
      let '(c, r) := request_inner c s b ids p now in (set_coordinator w c, r)
  | MarkRestart s g => (set_coordinator w (mark_restart c s g), tt)
  | UnmarkRestart s => (set_coordinator w (unmark_restart c s), tt)
  | IsRestart s g => (w, is_restart_generation c s g)
  | FailState s g cat fresh =>
      let '(c, r) := fail_state c s g cat fresh now in (set_coordinator w c, r)
  | BusyState s => (w, busy c s)
  | UnsupportedState s => let '(c, r) := unsupported c s in (set_coordinator w c, r)
  | Confirm s g found => let '(c, r) := confirm c s g found now in (set_coordinator w c, r)
  | Status s => (w, state_of c s)
  | Remove s => (set_coordinator w (remove c s), tt)
  | InsertControl s e t =>
      if match controls w !! s with Some (_, t') => t <? t' | None => false end
      then (w, false) else (set_controls w (<[s := (e, t)]> (controls w)), true)
  | Control s => (w, fst <$> controls w !! s)
  | RemoveControl s => (set_controls w (delete s (controls w)), tt)
  end.

Inductive origin :=
| RefreshTools (session : Uuid) (supported : bool) (ids : list string)
| PrepareRestart (session : Uuid) (ids : list string)
| ClearRestart (session : Uuid)
| FailRestart (session : Uuid) (g : Z)
| StartHere (session execution : Uuid) (started : DateTime) (coding_agent : bool)
    (ids : list string) (s : Spawned)
| StartOnWorker (session : Uuid) (started : DateTime) (ids : list string) (inventory_expected : bool)
| Reap (session : Uuid) (start_blocked : bool)
| ReapForRestart (session : Uuid).

Definition task_of (o : origin) : Task :=
  match o with
  | RefreshTools s b ids => refresh_mcp_tools s b ids
  | PrepareRestart s ids => prepare_mcp_restart s ids
  | ClearRestart s => clear_mcp_restart_tracking s
  | FailRestart s g => fail_mcp_restart_generation s g
  | StartHere s e t agent ids sp => spawned s e t agent ids sp
  | StartOnWorker s t ids b => accepted s t ids b
  | Reap s b => reap_warm_processes_for_session s b
  | ReapForRestart s => reap_warm_process_for_mcp_restart s
  end.

(** What a section did to a generation. *)
Inductive event :=
| Requested (session : Uuid) (g : Z) (at_ : DateTime)
| Confirmed (session : Uuid) (g : Z).

Definition events {R : Set} (q : section R) (now : DateTime) (w : world) : list event :=
  match q with
  | RequestInner s b ids p =>
      let r := (request_inner (coordinator w) s b ids p now).2 in
      if bool_decide (status r = PendingNextTurn) then [Requested s (generation r) now] else []
  | Confirm s g _ =>
      match states (coordinator w) !! s with
      | Some r => if (generation r =? g) && bool_decide (status r = PendingNextTurn)
                  then [Confirmed s g] else []
      | None => []
      end
  | _ => []
  end.

Record machine := {
  sys : world;
  running : list Task;
  origins : list origin;
  (** Each event with the task that caused it. *)
  history : list (nat * event);
}.

Definition start : machine :=
  {| sys := {| coordinator := empty_coordinator; controls := ∅ |};
     running := []; origins := []; history := [] |}.

(** What the outside answers. *)
Inductive answer :=
| HandleAnswer (e : HandleEvent)
| LateAnswer (arrived : bool)
| ServersAnswer (r : result (list McpServerRefreshSnapshot) McpRefreshErrorCategory)
| QueueAnswer (r : result unit McpRefreshErrorCategory)
| RouteAnswer (r : Route)
| MaterializeAnswer (m : Materialized)
| RefreshMcpAnswer (a : RefreshAnswer)
| PolledAnswer (a : PollAnswer).

Definition reply {R : Set} (w : wait R) (a : answer) : option R :=
  match w in wait R return option R with
  | AwaitHandle => match a with HandleAnswer e => Some e | _ => None end
  | AwaitLateHandle => match a with LateAnswer b => Some b | _ => None end
  | ListServers => match a with ServersAnswer r => Some r | _ => None end
  | QueueRefresh => match a with QueueAnswer r => Some r | _ => None end
  | FindRoute => match a with RouteAnswer r => Some r | _ => None end
  | Materialize => match a with MaterializeAnswer m => Some m | _ => None end
  | RefreshMcp => match a with RefreshMcpAnswer x => Some x | _ => None end
  | Poll => match a with PolledAnswer x => Some x | _ => None end
  end.

(** One turn: something starts, a task runs its next section, or the outside answers the
    task that waits. *)
Inductive choice :=
| Begin (o : origin)
| Run (i : nat) (now : DateTime)
| Answer (i : nat) (a : answer).

Definition turn (m : machine) (c : choice) : machine :=
  match c with
  | Begin o =>
      {| sys := sys m; running := running m ++ [task_of o]; origins := origins m ++ [o];
         history := history m |}
  | Run i now =>
      match running m !! i with
      | Some (Do q k) =>
          let r := exec q now (sys m) in
          {| sys := r.1; running := <[i := k r.2]> (running m); origins := origins m;
             history := history m ++ ((fun e => (i, e)) <$> events q now (sys m)) |}
      | _ => m
      end
  | Answer i a =>
      match running m !! i with
      | Some (Await w k) =>
          match reply w a with
          | Some x => {| sys := sys m; running := <[i := k x]> (running m); origins := origins m;
                         history := history m |}
          | None => m
          end
      | _ => m
      end
  end.

Definition runs (cs : list choice) : machine := foldl turn start cs.

(** ** What is stored, and what the history says of it *)

Record inv (m : machine) : Prop := {
  inv_ok s r : states (coordinator (sys m)) !! s = Some r -> result_ok r;
  inv_pending s r :
    states (coordinator (sys m)) !! s = Some r -> status r = PendingNextTurn ->
    exists i, (i, Requested s (generation r) (requested_at r)) ∈ history m;
  inv_requested i s g t :
    (i, Requested s g t) ∈ history m ->
    (exists g', generations (coordinator (sys m)) !! s = Some g' /\ g <= g') /\
    forall r, states (coordinator (sys m)) !! s = Some r -> g <= generation r;
  inv_counted s r :
    states (coordinator (sys m)) !! s = Some r ->
    exists g', generations (coordinator (sys m)) !! s = Some g' /\ generation r <= g' <= u64_max;
  inv_small s g : generations (coordinator (sys m)) !! s = Some g -> 0 <= g <= u64_max;
}.

Definition all_ok (c : McpRefreshCoordinator) : Prop :=
  forall s r, states c !! s = Some r -> result_ok r.

(** What a section does to the coordinator, with the requests it records. *)
Inductive effect (c : McpRefreshCoordinator) : McpRefreshCoordinator -> list event -> Prop :=
| effect_none c' :
    states c' = states c -> generations c' = generations c -> effect c c' []
| effect_publish s r :
    generation r = next_generation c s -> result_ok r ->
    effect c (put_generation c s r)
      (if bool_decide (status r = PendingNextTurn)
       then [Requested s (generation r) (requested_at r)] else [])
| effect_end s r r' l :
    states c !! s = Some r -> generation r' = generation r -> result_ok r' ->
    status r' <> PendingNextTurn ->
    (forall s' g t, Requested s' g t ∉ l) ->
    effect c (put c s r') l
| effect_remove s : effect c (remove c s) [].

Lemma effect_same c : effect c c [].
Proof. by constructor. Qed.

Lemma effect_observed c s r :
  generation r = next_generation c s -> result_ok r -> status r <> PendingNextTurn ->
  effect c (put_generation c s r) [].
Proof.
  intros Hg Hok Hst. pose proof (effect_publish c s r Hg Hok) as H.
  by rewrite bool_decide_eq_false_2 in H.
Qed.

Lemma observe_effect c s t ids found now : all_ok c -> effect c (observe_inventory c s t ids found now).1 [].
Proof.
  intros Hc. pose proof (observe_inventory_ok c s t ids found now _ (Hc s) eq_refl) as Hok. revert Hok.
  unfold observe_inventory. destruct (states c !! s) as [r|]; [destruct (_ || _); [by constructor|]|];
    intros Hok; (apply effect_observed; [done|done|]); cbn; by destruct (existsb _ _).
Qed.

Lemma exec_effect {R : Set} (q : section R) now w :
  all_ok (coordinator w) -> effect (coordinator w) (coordinator (exec q now w).1) (events q now w).
Proof.
  intros Hc. destruct q as [s t ids found|s b ids p|s g|s|s g|s g cat fresh|s|s|s g found|s|s|s e t|s|s];
    cbn [exec events]; try (by constructor).
  - destruct (observe_inventory _ _ _ _ _ _) as [c' r] eqn:E. cbn.
    pose proof (observe_effect (coordinator w) s t ids found now Hc) as H. by rewrite E in H.
  - destruct (request_inner _ _ _ _ _ _) as [c' r] eqn:E. cbn.
    destruct (request_inner_stored _ _ _ _ _ _ _ _ E) as [(-> & r' & _ & _ & _ & ->)|[-> ->]].
    + apply effect_same.
    + exact (effect_publish (coordinator w) s
               (requested _ (next_generation (coordinator w) s) b (sorted_ids ids) now)
               eq_refl (requested_ok _ _ _ _ _)).
  - destruct (fail_state _ _ _ _ _ _) as [c' r] eqn:E. cbn.
    pose proof (fail_state_ok (coordinator w) s g cat fresh now) as Hf. rewrite E in Hf. cbn in Hf.
    unfold fail_state in E. destruct (states (coordinator w) !! s) as [r0|] eqn:Hs;
      [|injection E as <- <-; apply effect_same].
    destruct (_ =? _); [|injection E as <- <-; apply effect_same]. injection E as <- <-.
    destruct (Hf _ ltac:(intros ? [= <-]; by eapply Hc) eq_refl) as [Hok Hst].
    eapply effect_end; [done|done|done|by rewrite Hst|intros ? ? ? []%elem_of_nil].
  - unfold unsupported. destruct (states (coordinator w) !! s) as [r0|] eqn:Hs; [|apply effect_same].
    destruct (Hc s r0 Hs) as [Hi _ _ _]. cbn.
    eapply effect_end; [done|done|split; cbn; [done|done|done|done]|done|intros ? ? ? []%elem_of_nil].
  - destruct (confirm _ _ _ _ _) as [c' r] eqn:E. cbn.
    pose proof (confirm_ok (coordinator w) s g found now) as Hf. rewrite E in Hf. cbn in Hf.
    unfold confirm in E. destruct (states (coordinator w) !! s) as [r0|] eqn:Hs;
      [|injection E as <- <-; apply effect_same].
    destruct (_ =? _); [|injection E as <- <-; apply effect_same].
    case_bool_decide as Hp; injection E as <- <-; cbn [andb]; [|apply effect_same].
    eapply effect_end; [done|done|by eapply Hf; [intros ? [= <-]; by eapply Hc|]| |].
    + cbn. by destruct (existsb _ _).
    + intros s' g' t' [=]%list_elem_of_singleton.
  - by destruct (match _ with Some _ => _ | None => _ end); constructor.
Qed.

Lemma next_generation_bounds c s :
  (forall g, generations c !! s = Some g -> 0 <= g <= u64_max) ->
  default 0 (generations c !! s) <= next_generation c s <= u64_max.
Proof.
  unfold next_generation, saturating_add, u64_max. intros H.
  destruct (generations c !! s) as [g|]; cbn; [specialize (H g eq_refl); cbn in H|]; lia.
Qed.

(** The invariant depends on the coordinator and the requests of the history. *)
Lemma inv_effect m c' i l m' :
  inv m -> effect (coordinator (sys m)) c' l ->
  coordinator (sys m') = c' -> history m' = history m ++ ((fun e => (i, e)) <$> l) -> inv m'.
Proof.
  intros [Hok Hp Hr Hc Hs] He Hm Hh.
  assert (forall j s g t, (j, Requested s g t) ∈ history m' <->
            (j, Requested s g t) ∈ history m \/ (j = i /\ Requested s g t ∈ l)) as Hin.
  { intros j s g t. rewrite Hh, elem_of_app, list_elem_of_fmap. naive_solver. }
  destruct He as [c' H1 H2|s r Hg Hrok|s r r' l Hr0 Hg Hrok Hst Hl|s].
  - split; rewrite ?Hm, ?H1, ?H2; try done.
    + intros s r ? ?. destruct (Hp s r) as [j ?]; [done..|]. exists j. rewrite Hin. by left.
    + intros j s g t [Hj|[_ []%elem_of_nil]]%Hin. by apply Hr in Hj.
  - pose proof (next_generation_bounds (coordinator (sys m)) s (Hs s)) as Hb. rewrite <- Hg in Hb.
    assert (0 <= default 0 (generations (coordinator (sys m)) !! s)) as Hd.
    { destruct (generations (coordinator (sys m)) !! s) as [g0|] eqn:E; [by apply (Hs s g0)|done]. }
    split; rewrite ?Hm; cbn.
    + intros s' r'. rewrite lookup_insert_Some. intros [[<- <-]|[_ ?]]; [done|by eapply Hok].
    + intros s' r'. rewrite lookup_insert_Some. intros [[<- <-]|[_ ?]] Hst.
      * exists i. rewrite Hin. right. split; [done|]. rewrite bool_decide_eq_true_2 by done. by left.
      * destruct (Hp s' r') as [j ?]; [done..|]. exists j. rewrite Hin. by left.
    + intros j s' g t Hj. destruct (decide (s' = s)) as [->|Hne].
      * rewrite !lookup_insert_eq. assert (g <= generation r) as Hle.
        { apply Hin in Hj as [Hj|[_ Hj]].
          - destruct (Hr j s g t Hj) as [(g' & Hg' & Hle) _]. rewrite Hg' in Hb. cbn in Hb. lia.
          - case_bool_decide; [|by apply elem_of_nil in Hj].
            apply list_elem_of_singleton in Hj as [= -> ->]. lia. }
        split; [eexists; split; [done|lia]|]. by intros r' [= <-].
      * rewrite !lookup_insert_ne by done. apply Hin in Hj as [Hj|[_ Hj]]; [by apply (Hr j s' g t)|].
        case_bool_decide; [|by apply elem_of_nil in Hj].
        by apply list_elem_of_singleton in Hj as [= -> -> ->].
    + intros s' r'. rewrite lookup_insert_Some. intros [[<- <-]|[Hne ?]].
      * rewrite lookup_insert_eq. eexists. split; [done|]. lia.
      * rewrite lookup_insert_ne by done. by apply Hc.
    + intros s' g. rewrite lookup_insert_Some. intros [[<- <-]|[_ ?]]; [lia|by eapply Hs].
  - split; rewrite ?Hm; cbn; [| | | |done].
    + intros s' r0. rewrite lookup_insert_Some. intros [[<- <-]|[_ ?]]; [done|by eapply Hok].
    + intros s' r0. rewrite lookup_insert_Some. intros [[<- <-]|[_ ?]] ?; [done|].
      destruct (Hp s' r0) as [j ?]; [done..|]. exists j. rewrite Hin. by left.
    + intros j s' g t Hj. apply Hin in Hj as [Hj|[_ Hj]]; [|by apply Hl in Hj].
      destruct (Hr j s' g t Hj) as [Hg' Hall]. split; [done|]. intros r0.
      rewrite lookup_insert_Some. intros [[<- <-]|[_ ?]]; [rewrite Hg; by apply Hall|by apply Hall].
    + intros s' r0. rewrite lookup_insert_Some. intros [[<- <-]|[_ ?]]; [rewrite Hg; by apply Hc|by apply Hc].
  - split; rewrite ?Hm; cbn; [| | | |done].
    + intros s' r. rewrite lookup_delete_Some. intros [_ ?]. by eapply Hok.
    + intros s' r. rewrite lookup_delete_Some. intros [_ ?] ?.
      destruct (Hp s' r) as [j ?]; [done..|]. exists j. rewrite Hin. by left.
    + intros j s' g t [Hj|[_ []%elem_of_nil]]%Hin. destruct (Hr j s' g t Hj) as [Hg' Hall].
      split; [done|]. intros r. rewrite lookup_delete_Some. intros [_ ?]. by apply Hall.
    + intros s' r. rewrite lookup_delete_Some. intros [_ ?]. by apply Hc.
Qed.

(** ** A logic of tasks *)

(** The execution a task belongs to, if it starts one in the session, started at... *)
Definition started_of (o : origin) (s : Uuid) : option DateTime :=
  match o with
  | StartHere s' _ t _ _ _ | StartOnWorker s' t _ _ => if bool_decide (s = s') then Some t else None
  | _ => None
  end.

(** The generation was requested no later than the task's execution started. *)
Definition ready (h : list (nat * event)) (o : origin) (s : Uuid) (g : Z) : Prop :=
  exists t i at_, started_of o s = Some t /\ (i, Requested s g at_) ∈ h /\ at_ <= t.

Definition allowed {R : Set} (q : section R) (h : list (nat * event)) (o : origin) : Prop :=
  match q with Confirm s g _ => ready h o s g | _ => True end.

(** Whatever happens between its sections, the task confirms nothing it may not. *)
Fixpoint safe (o : origin) (t : Task) (h : list (nat * event)) : Prop :=
  match t with
  | Done _ => True
  | Do q k =>
      allowed q h o /\
      forall m now, h ⊆ history m -> inv m -> safe o (k (exec q now (sys m)).2) (history m)
  | Await _ k => forall x, safe o (k x) h
  end.

Lemma ready_mono h h' o s g : h ⊆ h' -> ready h o s g -> ready h' o s g.
Proof. intros Hh (t & i & a & ? & Hi & ?). exists t, i, a. auto. Qed.

Lemma safe_weaken o t : forall h h', h ⊆ h' -> safe o t h -> safe o t h'.
Proof.
  induction t as [r|R q k IH|R w k IH]; intros h h' Hh; cbn; [done| |].
  - intros [Ha Hk]. split; [destruct q; try done; by eapply ready_mono|].
    intros m now Hm. apply Hk. by etrans.
  - intros Hk x. eapply IH; [done|apply Hk].
Qed.

Lemma safe_fail o s g c k h :
  (forall r h', h ⊆ h' -> safe o (k r) h') -> safe o (fail s g c k) h.
Proof.
  intros Hk. split; [done|]. intros m now Hm _. split; [done|].
  intros m' now' Hm' _. apply Hk. by etrans.
Qed.

Lemma safe_observe_failure o s t ids c k h :
  (forall r h', h ⊆ h' -> safe o (k r) h') -> safe o (observe_failure s t ids c k) h.
Proof.
  intros Hk. split; [done|]. intros m now Hm _. destruct (_ || _); [by apply Hk|].
  apply safe_fail. intros r h' Hh'. apply Hk. by etrans.
Qed.

Lemma safe_settle o s t ids g c h : safe o (settle s t ids g c) h.
Proof. destruct g; [by apply safe_fail|by apply safe_observe_failure]. Qed.

Lemma pending_Some r st : pending r = Some st -> r = Some st /\ status st = PendingNextTurn.
Proof.
  unfold pending. intros (x & -> & Hx)%bind_Some. case_bool_decide; [|done]. by injection Hx as ->.
Qed.

(** A pending state that a task reads was requested. *)
Lemma read_pending m s st now :
  inv m -> pending (exec (Status s) now (sys m)).2 = Some st ->
  exists i, (i, Requested s (generation st) (requested_at st)) ∈ history m.
Proof. intros Hi [Hs Hp]%pending_Some. by eapply inv_pending. Qed.

Lemma safe_publish_inventory o s e t ids h :
  started_of o s = Some t -> safe o (publish_inventory s e t ids) h.
Proof.
  intros Ho. split; [done|]. intros m0 n0 H0 _.
  destruct (exec (InsertControl s e t) n0 (sys m0)).2; [|done]. split; [done|]. intros m1 n1 H1 I1.
  destruct (pending _) as [st|] eqn:Hp.
  - destruct (read_pending m1 s st n1 I1 Hp) as [i Hi]. destruct (Z.ltb_spec t (requested_at st)) as [|Hle].
    + split; [done|]. intros m2 n2 H2 _. destruct (exec (IsRestart _ _) n2 (sys m2)).2 as [|]; [done|].
      intros [[]|c]; [done|]. by apply safe_fail.
    + intros inventory. split; [done|]. intros m2 n2 H2 _.
      destruct (negb _); [done|]. destruct inventory as [found|c]; [|by apply safe_fail].
      split; [|done]. exists t, i, (requested_at st). auto.
  - intros inventory. split; [done|]. intros m2 n2 H2 _. case_bool_decide; [|done].
    destruct inventory; [done|]. by apply safe_observe_failure.
Qed.

Lemma safe_discovery_failed o s t ids k h :
  (forall h', h ⊆ h' -> safe o k h') -> safe o (discovery_failed s t ids k) h.
Proof.
  intros Hk. split; [done|]. intros m n Hm _. destruct (pending_before _ _) as [st|].
  - apply safe_fail. intros r h' Hh. apply Hk. by etrans.
  - apply safe_observe_failure. intros r h' Hh. apply Hk. by etrans.
Qed.

Lemma safe_poll o s t ids b g h :
  (forall g', g = Some g' -> ready h o s g') ->
  forall n, safe o (poll_worker n s t ids b g) h.
Proof.
  intros Hg n. induction n as [|n IH]; [apply safe_settle|]. cbn [poll_worker].
  intros [[] found| |]; [| |destruct b| | | |]; try apply IH; try apply safe_settle.
  - destruct g as [g|]; [|done]. split; [by apply Hg|done].
  - destruct g as [g|]; [by apply safe_fail|done].
Qed.

Lemma safe_polled o s t ids b h polls :
  started_of o s = Some t ->
  safe o (do! state := Status s in
          poll_worker polls s t ids b (generation <$> pending_before t state)) h.
Proof.
  intros Ho. split; [done|]. intros m n Hm Hi. apply safe_poll. intros g' Hg.
  apply fmap_Some in Hg as (st & Hp & ->). unfold pending_before in Hp.
  apply bind_Some in Hp as (st' & Hp & Hle). destruct (Z.leb_spec (requested_at st') t); [|done].
  injection Hle as ->. destruct (read_pending m s st n Hi Hp) as [i Hin].
  by exists t, i, (requested_at st).
Qed.

Lemma safe_accepted o s t ids b h : started_of o s = Some t -> safe o (accepted s t ids b) h.
Proof. intros Ho. exact (safe_polled o s t ids b h POLLS Ho). Qed.

(** ** Every task is safe *)

Lemma safe_refresh_task o s b ids h : safe o (refresh_mcp_tools s b ids) h.
Proof.
  assert (forall r st h', safe o (or_requested r st) h') as Hr by done.
  assert (forall r h', safe o
    (if negb (bool_decide (status r = PendingNextTurn)) then Done (Some r)
     else
       let failed c := fail s (generation r) c (or_requested r) in
       await! route := FindRoute in
       match route with
       | NoRoute => Done None
       | OnWorker =>
           await! m := Materialize in
           match m with
           | NoProfile => failed UnsupportedExecutor
           | NotMaterialized => failed MaterializationFailed
           | NoCoordinatorId => Done None
           | SnapshotReady =>
               await! answer := RefreshMcp in
               match answer with
               | Answered McpQueued => Done (Some r)
               | Answered McpBusy => do! r' := BusyState s in or_requested r r'
               | NoClient | Answered McpUnsupported | NotImplemented =>
                   do! r' := UnsupportedState s in or_requested r r'
               | Answered McpMaterializationFailed => failed MaterializationFailed
               | Answered McpReloadFailed | OtherError => failed ReloadFailed
               end
           end
       | Local =>
           do! control := Control s in
           match control with
           | Some _ =>
               await! x := QueueRefresh in
               match x with
               | Err c => failed c
               | Ok _ => Done (Some r)
               end
           | None => Done (Some r)
           end
       end) h') as Hk.
  { intros r h'. destruct (negb _); [done|]. cbv zeta. intros [].
    - intros []; [by apply safe_fail|by apply safe_fail|done|].
      intros [|[]| |]; try done; by apply safe_fail.
    - split; [done|]. intros m n _ _. destruct (exec _ _ _).2; [|done].
      intros []; [done|by apply safe_fail].
    - done. }
  split; [done|]. intros m n _ _. case_bool_decide; [apply Hk|]. split; [done|]. intros m' n' _ _. apply Hk.
Qed.

Lemma safe_task o h : safe o (task_of o) h.
Proof.
  destruct o as [s b ids|s ids|s|s g|s e t agent ids sp|s t ids b|s b|s]; cbn [task_of].
  - apply safe_refresh_task.
  - by do 2 (split; [done|]; intros ? ? _ _).
  - split; [done|]. intros m n _ _. destruct (exec _ _ _).2; [by apply safe_fail|done].
  - by apply safe_fail.
  - assert (started_of (StartHere s e t agent ids sp) s = Some t) as Ho by (cbn; by rewrite bool_decide_eq_true_2).
    assert (forall c, safe (StartHere s e t agent ids sp)
      (if agent then
         do! state := Status s in
         match pending state with
         | Some state => fail s (generation state) c (fun _ => Done None)
         | None => Done None
         end
       else Done None) h) as Hf.
    { intros c. destruct agent; [|done]. split; [done|]. intros m n _ _.
      destruct (pending _); [by apply safe_fail|done]. }
    revert Ho Hf. generalize (StartHere s e t agent ids sp). intros o Ho Hf. destruct sp; [apply Hf| |apply Hf].
    intros []; [by apply safe_publish_inventory|by apply safe_discovery_failed|].
    apply safe_discovery_failed. intros h' _ []; [by apply safe_publish_inventory|done].
  - apply safe_accepted. cbn [started_of]. by rewrite bool_decide_eq_true_2.
  - split; [done|]. intros m n _ _. destruct b; [done|]. by split.
  - by split.
Qed.

(** ** Runs *)

Record good (m : machine) : Prop := {
  good_inv : inv m;
  good_lengths : length (running m) = length (origins m);
  good_tasks i t o : running m !! i = Some t -> origins m !! i = Some o -> safe o t (history m);
  good_confirmed i s g : (i, Confirmed s g) ∈ history m ->
    exists o, origins m !! i = Some o /\ ready (history m) o s g;
}.

Lemma confirmed_event {R : Set} (q : section R) now w h o s g :
  allowed q h o -> Confirmed s g ∈ events q now w -> ready h o s g.
Proof.
  destruct q; cbn; intros Ha He; try (by apply elem_of_nil in He).
  - case_bool_decide; [by apply list_elem_of_singleton in He|by apply elem_of_nil in He].
  - destruct (states _ !! _); [|by apply elem_of_nil in He].
    destruct (_ && _); [|by apply elem_of_nil in He]. by apply list_elem_of_singleton in He as [= -> ->].
Qed.

Lemma good_refresh_turn m c : good m -> good (turn m c).
Proof.
  intros [Hi Hl Ht Hc]. destruct c as [o|i now|i a]; cbn [turn].
  - split; cbn [sys running origins history]; [by destruct Hi|rewrite !length_app, Hl; done| |].
    + intros j t o' Hj Ho. apply lookup_app_Some in Hj as [Hj|[Hge Hj]].
      * rewrite lookup_app_l in Ho; [by eapply Ht|]. rewrite <- Hl. by eapply lookup_lt_Some.
      * rewrite lookup_app_r in Ho by lia. rewrite <- Hl in Ho.
        apply list_lookup_singleton_Some in Hj as [Hj <-]. rewrite Hj in Ho. injection Ho as <-. apply safe_task.
    + intros j s g (o' & Ho & Hr)%Hc. exists o'. split; [|done]. by apply lookup_app_l_Some.
  - destruct (running m !! i) as [[r|R q k|R w k]|] eqn:Hrun; [done| |done|done].
    assert (exists o, origins m !! i = Some o) as [o Ho].
    { apply lookup_lt_is_Some. rewrite <- Hl. by eapply lookup_lt_Some. }
    destruct (Ht i _ o Hrun Ho) as [Ha Hk].
    set (m' := {| sys := _; running := _; origins := _; history := _ |}).
    assert (history m ⊆ history m') as Hsub by (intros x ?; apply elem_of_app; by left).
    split; [|cbn; by rewrite length_insert| |].
    + exact (inv_effect m _ i _ m' Hi (exec_effect q now (sys m) (inv_ok _ Hi)) eq_refl eq_refl).
    + intros j t o' Hj Ho'. change (origins m !! j = Some o') in Ho'. apply list_lookup_insert_Some in Hj as [(-> & <- & _)|[_ Hj]].
      * rewrite Ho in Ho'. injection Ho' as <-. eapply safe_weaken; [exact Hsub|]. by apply Hk.
      * eapply safe_weaken; [exact Hsub|by eapply Ht].
    + intros j s g Hj. apply elem_of_app in Hj as [Hj|(e & [= -> <-] & He)%list_elem_of_fmap].
      * destruct (Hc j s g Hj) as (o' & ? & ?). exists o'. split; [done|]. by eapply ready_mono.
      * exists o. split; [done|]. eapply ready_mono; [exact Hsub|]. by eapply confirmed_event.
  - destruct (running m !! i) as [[r|R q k|R w k]|] eqn:Hrun; [done|done| |done].
    destruct (reply w a) as [x|]; [|done]. split; cbn [sys running origins history]; [by destruct Hi|by rewrite length_insert| |done].
    intros j t o Hj Ho. apply list_lookup_insert_Some in Hj as [(-> & <- & _)|[_ Hj]]; [|by eapply Ht].
    exact (Ht j _ o Hrun Ho x).
Qed.

Lemma good_refresh_runs cs : good (runs cs).
Proof.
  apply (foldl_invariant good); [intros m c _; apply good_refresh_turn|].
  split; cbn; [|done|done|by intros i s g ?%elem_of_nil].
  split; cbn; [done|done|by intros i s g t ?%elem_of_nil|done|done].
Qed.

(** C31: A refresh is confirmed only by an execution that started when it had been requested, or
    later, so with the settings of that time, however requests, restarts, starts and
    teardowns interleave. *)
Theorem confirmed_by_later_start cs i s g :
  (i, Confirmed s g) ∈ history (runs cs) ->
  exists o t j at_, origins (runs cs) !! i = Some o /\ started_of o s = Some t /\
    (j, Requested s g at_) ∈ history (runs cs) /\ at_ <= t.
Proof.
  intros (o & Ho & t & j & at_ & ? & ? & ?)%(good_confirmed _ (good_refresh_runs cs)). by exists o, t, j, at_.
Qed.

(** Once a later generation has been requested, what comes of an earlier one changes
    nothing. *)
Theorem superseded_is_inert cs i s g g' t c fresh found now :
  (i, Requested s g' t) ∈ history (runs cs) -> g < g' ->
  fail_state (coordinator (sys (runs cs))) s g c fresh now = (coordinator (sys (runs cs)), None) /\
  confirm (coordinator (sys (runs cs))) s g found now = (coordinator (sys (runs cs)), None).
Proof.
  intros Hr Hlt. destruct (inv_requested _ (good_inv _ (good_refresh_runs cs)) _ _ _ _ Hr) as [_ Hall].
  unfold fail_state, confirm. destruct (states _ !! s) as [r|]; [|done].
  specialize (Hall r eq_refl). by destruct (Z.eqb_spec (generation r) g) as [|]; [lia|].
Qed.

(** A refresh that has not reached the next turn stays as it is until it is confirmed or
    failed under its own generation, superseded by a restart, refused by the worker, or the
    session is torn down. *)
Definition may_end (s : Uuid) (g : Z) {R : Set} (q : section R) : Prop :=
  match q with
  | Confirm s' g' _ | FailState s' g' _ _ => s' = s /\ g' = g
  | UnsupportedState s' | Remove s' => s' = s
  | RequestInner s' _ _ supersede => s' = s /\ supersede = true
  | _ => False
  end.

Lemma put_other c s s' r (x : McpRefreshResult) :
  s' <> s -> states c !! s = Some x -> states (put c s' r) !! s = Some x.
Proof. intros ? ?. cbn. by rewrite lookup_insert_ne. Qed.

Theorem pending_is_owned {R : Set} (q : section R) s r now w :
  states (coordinator w) !! s = Some r -> status r = PendingNextTurn ->
  ~ may_end s (generation r) q ->
  states (coordinator (exec q now w).1) !! s = Some r.
Proof.
  intros Hs Hp Hq. destruct q as [s' t ids found|s' b ids p|s' g|s'|s' g|s' g cat fresh|s'|s'|s' g found|s'|s'|s' e t|s'|s'];
    cbn [exec may_end] in *; try done.
  - unfold observe_inventory. destruct (decide (s' = s)) as [->|Hne].
    + rewrite Hs. by rewrite bool_decide_eq_true_2.
    + destruct (states (coordinator w) !! s') as [r'|]; [destruct (_ || _); [done|]|]; cbn; by rewrite lookup_insert_ne.
  - unfold request_inner. destruct (decide (s' = s)) as [->|Hne].
    + rewrite Hs, bool_decide_eq_true_2 by done. destruct p; [by destruct Hq|done].
    + destruct (states (coordinator w) !! s') as [r'|]; [destruct (_ && _); [done|]|]; cbn; by rewrite lookup_insert_ne.
  - unfold fail_state. destruct (states (coordinator w) !! s') as [r'|] eqn:Hs'; [|done].
    destruct (Z.eqb_spec (generation r') g) as [<-|]; [|done]. apply put_other; [|done].
    intros ->. apply Hq. by simplify_eq.
  - unfold unsupported. destruct (states (coordinator w) !! s') as [r'|]; [|done]. by apply put_other.
  - unfold confirm. destruct (states (coordinator w) !! s') as [r'|] eqn:Hs'; [|done].
    destruct (Z.eqb_spec (generation r') g) as [<-|]; [|done].
    case_bool_decide; [|done]. apply put_other; [|done]. intros ->. apply Hq. by simplify_eq.
  - cbn. by rewrite lookup_delete_ne.
  - by destruct (match _ with Some _ => _ | None => _ end).
Qed.

(** What is published as refreshed names every configured server, in order and once, none of
    them failed, empty or missing; and a failure is published with its cause, as one to try
    again. *)
Theorem published_state_is_complete cs s r :
  state_of (coordinator (sys (runs cs))) s = Some r ->
  NoDup (configured_server_ids r) /\
  (status r = Refreshed ->
     error r = None /\ is_Some (last_successful_refresh_at r) /\
     (forall i, i ∈ configured_server_ids r -> exists server, server ∈ servers r /\ server_id server = i) /\
     (forall server, server ∈ servers r -> is_unsuccessful_server server = false)) /\
  (status r = Failed ->
     retryable r = true /\ exists c, error r = Some (safe_executor_error c)).
Proof.
  intros Hs. destruct (inv_ok _ (good_inv _ (good_refresh_runs cs)) _ _ Hs) as [(ids & Hids) Hl Hst Hr].
  split; [rewrite Hids; apply sorted_ids_nodup|]. split; intros Heq; rewrite Heq in Hst, Hr, Hl.
  - destruct Hst as (? & Hu & ?). split_and!; [done|done| |].
    + intros i Hi. by apply lists_elem, Hl.
    + intros server Hin. destruct (is_unsuccessful_server server) eqn:E; [|done].
      rewrite <- Hu. symmetry. apply existsb_exists. exists server. split; [by apply list_elem_of_In|done].
  - by split.
Qed.

End RefreshRuns.

(** * Sample runs *)
Module SampleRefresh.
Import RefreshRuns.

Definition ready_server (i : string) : McpServerRefreshSnapshot :=
  {| server_id := i; s_status := Ready; tool_count := Some 3; tool_names := Some ["a"; "b"; "c"];
     tool_schema_fingerprint := None; resource_count := None; prompt_count := None;
     restart_occurred := None; discovery_attempts := 1; observed_errors := [];
     first_observed_at := Some 0; last_observed_at := Some 0; terminal_at := Some 0;
     s_error := None |}.

(** A refresh that the live execution queues, and the next turn's execution confirms. *)
Definition refreshed : list choice :=
  [Begin (RefreshTools 1 true ["slack"]); Run 0 10; Run 0 10; Answer 0 (RouteAnswer Local); Run 0 10;
   Begin (StartHere 1 7 20 true ["slack"] SpawnedWithControl); Answer 1 (HandleAnswer HandleReady);
   Run 1 21; Run 1 21; Answer 1 (ServersAnswer (Ok [ready_server "slack"])); Run 1 22; Run 1 22].

Definition status_after (cs : list choice) : option (McpRefreshStatus * Z) :=
  (fun r => (status r, generation r)) <$> state_of (coordinator (sys (runs cs))) 1.

Example refreshed_status : status_after refreshed = Some (Refreshed, 1).
Proof. by vm_compute. Qed.

Lemma confirmed_by_later_start_witness :
  exists o t j at_, origins (runs refreshed) !! 1%nat = Some o /\ started_of o 1%N = Some t /\
    (j, Requested 1 1 at_) ∈ history (runs refreshed) /\ at_ <= t.
Proof.
  apply (confirmed_by_later_start refreshed 1 1 1). vm_compute. right. left.
Defined.

Lemma published_state_is_complete_witness :
  exists r, state_of (coordinator (sys (runs refreshed))) 1 = Some r /\ NoDup (configured_server_ids r).
Proof.
  eexists. split; [vm_compute; reflexivity|].
  apply (published_state_is_complete refreshed 1). vm_compute. reflexivity.
Defined.

(** A restart takes over from a refresh that waits for its worker. *)
Definition restarted : list choice :=
  [Begin (RefreshTools 1 true ["slack"]); Run 0 10; Run 0 10; Answer 0 (RouteAnswer OnWorker);
   Answer 0 (MaterializeAnswer SnapshotReady);
   Begin (PrepareRestart 1 ["slack"]); Run 1 15; Run 1 15].

Lemma superseded_is_inert_witness :
  let c := coordinator (sys (runs restarted)) in
  fail_state c 1 1 ReloadFailed false 30 = (c, None) /\ confirm c 1 1 [] 30 = (c, None).
Proof.
  intros c. apply (superseded_is_inert restarted 1 1 1 2 15 ReloadFailed false [] 30).
  - vm_compute. right. left.
  - lia.
Defined.

Lemma pending_is_owned_witness :
  exists r, states (coordinator (exec (ObserveInventory 1 20 ["slack"] [ready_server "slack"]) 30
              (sys (runs restarted))).1) !! 1%N = Some r /\ status r = PendingNextTurn.
Proof.
  eexists. split.
  - apply (pending_is_owned (ObserveInventory 1 20 ["slack"] [ready_server "slack"]) 1%N _ 30 (sys (runs restarted)));
      [vm_compute; reflexivity|reflexivity|intros []].
  - reflexivity.
Defined.

Lemma failure_is_per_server_witness :
  exists r', (fail_state (coordinator (sys (runs restarted))) 1 2 ReloadFailed true 30).2 = Some r' /\
    forall server, server_of (servers r') "slack" = Some server -> s_status server = FailedUnavailable.
Proof.
  destruct (failure_is_per_server (coordinator (sys (runs restarted))) 1%N
    (default (requested None 0 true [] 0) (states (coordinator (sys (runs restarted))) !! 1%N))
    ReloadFailed true 30 "slack") as (r' & Hr & Hf & _).
  - vm_compute. reflexivity.
  - apply (inv_ok _ (good_inv _ (good_refresh_runs restarted)) 1%N). vm_compute. reflexivity.
  - exists r'. split; [exact Hr|exact (Hf eq_refl)].
Defined.

(** The worker's late answer to the refresh carries no generation: it marks the restart as
    unsupported, and the execution that the restart starts cannot confirm it any more. *)
Definition late_refusal : list choice :=
  restarted ++
  [Answer 0 (RefreshMcpAnswer (Answered McpUnsupported)); Run 0 16;
   Begin (StartOnWorker 1 20 ["slack"] true)].

Lemma late_refusal_hits_restart :
  status_after restarted = Some (PendingNextTurn, 2) /\
  status_after late_refusal = Some (Unsupported, 2) /\
  (confirm (coordinator (sys (runs late_refusal))) 1 2 [ready_server "slack"] 22).1
    = coordinator (sys (runs late_refusal)).
Proof. by vm_compute. Qed.

End SampleRefresh.
