(* ===== verification/McpConfig.v ===== *)
(** * Native MCP configurations

    [Serde] is the document type of serde_json with the workspace's [preserve_order]: an
    object keeps its keys in insertion order, [remove] moves the last entry into the gap, and
    objects are equal whatever their order.  [McpConfig] is
    crates/executors/src/mcp_config.rs: the runtime routes, the servers inside a native file,
    and the adapters that give each agent the bundled servers in its own shape. *)
From S2P Require Import Prelude Text Format SortBy.
From Stdlib Require Import Ascii.

Module Serde.

Section Value.
(** [serde_json::Number]. *)
Context {Num : Type} `{!EqDecision Num}.

Inductive Value :=
| Null
| VBool (b : bool)
| VNumber (n : Num)
| VString (s : string)
| VArray (l : list Value)
| VObject (m : list (string * Value)).

Definition Map : Type := list (string * Value).

(** [Map::get] *)
Fixpoint get (m : Map) (k : string) : option Value :=
  match m with
  | [] => None
  | (k', v) :: m => if String.eqb k' k then Some v else get m k
  end.

Definition contains_key (m : Map) (k : string) : bool := bool_decide (is_Some (get m k)).

(** [Map::insert]: in place, or at the end. *)
Fixpoint insert (m : Map) (k : string) (v : Value) : Map :=
  match m with
  | [] => [(k, v)]
  | (k', v') :: m' => if String.eqb k' k then (k', v) :: m' else (k', v') :: insert m' k v
  end.

(** [Map::remove]: the last entry takes the place of the removed one. *)
Fixpoint swap_out (k : string) (l : string * Value) (m : Map) : Map :=
  match m with
  | [] => []
  | (k', v') :: m' => if String.eqb k' k then l :: m' else (k', v') :: swap_out k l m'
  end.

Definition remove (m : Map) (k : string) : Map :=
  match last m with
  | None => m
  | Some (k', v') =>
      if String.eqb k' k then take (length m - 1) m
      else swap_out k (k', v') (if contains_key m k then take (length m - 1) m else m)
  end.

Definition as_object (v : Value) : option Map := match v with VObject m => Some m | _ => None end.
Definition as_array (v : Value) : option (list Value) := match v with VArray l => Some l | _ => None end.
Definition as_str (v : Value) : option string := match v with VString s => Some s | _ => None end.
Definition as_bool (v : Value) : option bool := match v with VBool b => Some b | _ => None end.

(** [Value::get] of a key. *)
Definition field (v : Value) (k : string) : option Value := m ← as_object v; get m k.

(** Rewrites a value that is there: [get_mut]. *)
Definition update (m : Map) (k : string) (f : Value -> Value) : Map :=
  match get m k with Some v => insert m k (f v) | None => m end.

(** [==]: objects compare as maps. *)
Fixpoint value_eqb (a b : Value) : bool :=
  match a, b with
  | Null, Null => true
  | VBool x, VBool y => Bool.eqb x y
  | VNumber x, VNumber y => bool_decide (x = y)
  | VString x, VString y => String.eqb x y
  | VArray x, VArray y =>
      (fix go x y :=
         match x, y with
         | [], [] => true
         | a :: x, b :: y => value_eqb a b && go x y
         | _, _ => false
         end) x y
  | VObject x, VObject y =>
      (length x =? length y)%nat &&
      (fix go x :=
         match x with
         | [] => true
         | (k, a) :: x => match get y k with Some b => value_eqb a b | None => false end && go x
         end) x
  | _, _ => false
  end.

(** The keys of a [Map] are distinct. *)
Definition wf (m : Map) : Prop := NoDup m.*1.

Lemma get_elem m k v : get m k = Some v -> (k, v) ∈ m.
Proof.
  induction m as [|[k' v'] m IH]; [done|]. cbn. destruct (String.eqb_spec k' k) as [->|].
  - intros [= ->]. by left.
  - intros H. right. by apply IH.
Qed.

Lemma get_None m k : get m k = None <-> k ∉ m.*1.
Proof.
  induction m as [|[k' v'] m IH]; cbn; [split; [by intros _ ?%elem_of_nil|done]|].
  rewrite elem_of_cons. destruct (String.eqb_spec k' k) as [->|Hne]; [naive_solver|].
  rewrite IH. naive_solver.
Qed.

Lemma elem_get m k v : wf m -> (k, v) ∈ m -> get m k = Some v.
Proof.
  unfold wf. induction m as [|[k' v'] m IH]; [by intros _ ?%elem_of_nil|]. cbn.
  rewrite NoDup_cons. intros [Hn Hm] [[= -> ->]|Hin]%elem_of_cons; [by rewrite String.eqb_refl|].
  destruct (String.eqb_spec k' k) as [->|]; [|by apply IH].
  exfalso. apply Hn, list_elem_of_fmap. by exists (k, v).
Qed.

Lemma get_insert m k v k' : get (insert m k v) k' = if String.eqb k k' then Some v else get m k'.
Proof.
  induction m as [|[k1 v1] m IH]; cbn; [done|].
  destruct (String.eqb_spec k1 k) as [->|]; cbn.
  - by destruct (String.eqb_spec k k').
  - rewrite IH. destruct (String.eqb_spec k1 k'), (String.eqb_spec k k'); congruence.
Qed.

Lemma insert_keys m k v : (insert m k v).*1 = if contains_key m k then m.*1 else m.*1 ++ [k].
Proof.
  unfold contains_key. induction m as [|[k1 v1] m IH]; cbn; [done|].
  destruct (String.eqb_spec k1 k) as [->|]; cbn; [done|].
  rewrite IH. by destruct (bool_decide (is_Some (get m k))).
Qed.

Lemma contains_key_elem m k : contains_key m k = true <-> k ∈ m.*1.
Proof.
  unfold contains_key. rewrite bool_decide_eq_true. destruct (get m k) as [v|] eqn:E.
  - split; [intros _|by eauto]. apply list_elem_of_fmap. exists (k, v). split; [done|by apply get_elem].
  - apply get_None in E. split; [by intros [? ?]|done].
Qed.

Lemma insert_wf m k v : wf m -> wf (insert m k v).
Proof.
  unfold wf. rewrite insert_keys. destruct (contains_key m k) eqn:E; [done|].
  intros Hm. apply NoDup_app. split_and!; [done| |apply NoDup_singleton].
  intros x Hx ->%list_elem_of_singleton. apply contains_key_elem in Hx. congruence.
Qed.

Lemma get_app m m' k : get (m ++ m') k = match get m k with Some v => Some v | None => get m' k end.
Proof.
  induction m as [|[k1 v1] m IH]; [done|]. cbn. by destruct (String.eqb k1 k).
Qed.

Lemma get_perm m m' k : wf m -> m ≡ₚ m' -> get m k = get m' k.
Proof.
  intros Hw Hp. assert (wf m') as Hw' by (unfold wf; by rewrite <- Hp).
  destruct (get m k) as [v|] eqn:E.
  - symmetry. apply elem_get; [done|]. rewrite <- Hp. by apply get_elem.
  - symmetry. apply get_None. rewrite <- Hp. by apply get_None.
Qed.

Lemma swap_out_perm k x m m0 :
  get m k = Some m0 -> swap_out k x m ++ [(k, m0)] ≡ₚ m ++ [x].
Proof.
  induction m as [|[k1 v1] m IH]; cbn; [done|]. destruct (String.eqb_spec k1 k) as [->|].
  - intros [= ->]. cbn. rewrite <- !Permutation_cons_append. apply Permutation_swap.
  - intros H. cbn. constructor. by apply IH.
Qed.

Lemma swap_out_absent k x m : get m k = None -> swap_out k x m = m.
Proof.
  induction m as [|[k1 v1] m IH]; cbn; [done|]. destruct (String.eqb_spec k1 k); [done|].
  intros H. by rewrite IH.
Qed.

Lemma remove_perm m k v : get m k = Some v -> wf m -> (k, v) :: remove m k ≡ₚ m.
Proof.
  intros Hk Hw. unfold remove. induction m as [|[k' v'] m _] using rev_ind; [done|].
  rewrite last_snoc, length_app, Nat.add_sub, take_app_length.
  destruct (String.eqb_spec k' k) as [->|Hne].
  - rewrite get_app in Hk. assert (get m k = None) as Hn.
    { apply get_None. unfold wf in Hw. rewrite fmap_app in Hw. apply NoDup_app in Hw as (_ & Hd & _).
      intros Hin. apply (Hd k Hin). by left. }
    rewrite Hn in Hk. cbn in Hk. rewrite String.eqb_refl in Hk. injection Hk as ->. apply Permutation_cons_append.
  - assert (contains_key (m ++ [(k', v')]) k = true) as ->
      by (unfold contains_key; rewrite Hk; by apply bool_decide_eq_true_2; eauto).
    rewrite get_app in Hk. destruct (get m k) as [v0|] eqn:Hm.
    + injection Hk as ->. rewrite Permutation_cons_append. by apply swap_out_perm.
    + cbn in Hk. by destruct (String.eqb_spec k' k).
Qed.

Lemma remove_absent m k : get m k = None -> remove m k = m.
Proof.
  intros Hk. unfold remove. destruct (last m) as [[k' v']|] eqn:Hl; [|done].
  destruct (String.eqb_spec k' k) as [->|Hne].
  - apply last_Some in Hl as [m' ->]. rewrite get_app in Hk. cbn in Hk. rewrite String.eqb_refl in Hk.
    by destruct (get m' k).
  - assert (contains_key m k = false) as -> by (unfold contains_key; rewrite Hk; by apply bool_decide_eq_false_2; intros [? ?]).
    by apply swap_out_absent.
Qed.

Lemma remove_wf m k : wf m -> wf (remove m k).
Proof.
  intros Hw. destruct (get m k) as [v|] eqn:E; [|by rewrite remove_absent].
  pose proof (remove_perm m k v E Hw) as Hp. unfold wf in *. rewrite <- Hp in Hw. cbn in Hw.
  by apply NoDup_cons in Hw as [_ Hw].
Qed.

Lemma get_remove m k k' : wf m -> get (remove m k) k' = if String.eqb k k' then None else get m k'.
Proof.
  intros Hw. destruct (get m k) as [v|] eqn:E.
  - pose proof (remove_perm m k v E Hw) as Hp.
    assert (wf ((k, v) :: remove m k)) as Hw' by (unfold wf; by rewrite Hp).
    rewrite (get_perm m _ k' Hw (symmetry Hp)). cbn. destruct (String.eqb_spec k k') as [<-|]; [|done].
    unfold wf in Hw'. cbn in Hw'. apply NoDup_cons in Hw' as [Hn _]. by apply get_None.
  - rewrite remove_absent by done. by destruct (String.eqb_spec k k') as [<-|].
Qed.

End Value.
Arguments Value : clear implicits.
Arguments Map : clear implicits.

End Serde.

Module McpConfig.
Import Serde.

Section Config.
Context {Num : Type} `{!EqDecision Num}.
Notation Value := (Value Num).
Notation Map := (Map Num).

(** ** Runtime routes *)

(** [VIBE_MCP_RUNTIME_ROUTES]: the loopback route of each public URL, in the order of a
    [BTreeMap]. *)
Implicit Type routes : gmap string string.

Definition in_order {A} (m : gmap string A) : list (string * A) := sort_by fst (map_to_list m).

(* crates/executors/src/mcp_config.rs:111-113 route_mcp_url *)
Definition route_mcp_url (url : string) routes : string := default url (routes !! url).

(* crates/executors/src/mcp_config.rs:121-126 public_mcp_url *)
Definition public_mcp_url (url : string) routes : string :=
  default url (fst <$> List.find (fun kv => String.eqb kv.2 url) (in_order routes)).

(* crates/executors/src/mcp_config.rs:39-41 has_runtime_route_for_public_url *)
Definition has_runtime_route_for_public_url (url : string) routes : bool :=
  bool_decide (is_Some (routes !! url)).

(* crates/executors/src/mcp_config.rs:50-55 url_route_key *)
Definition url_route_key (url : string) routes : option string :=
  fst <$> List.find (fun kv => String.eqb kv.1 url || String.eqb kv.2 url) (in_order routes).

(** The URLs of one server entry. *)
Definition entry_urls (entry : Value) : list string :=
  omap (fun key => v ← field entry key; as_str v) ["url"; "httpUrl"].

(** A [BTreeSet] of the keys. *)
(* crates/executors/src/mcp_config.rs:60-77 routed_mcp_server_keys *)
Definition routed_mcp_server_keys (config : Value) (route_key : string -> option string) : gset string :=
  let servers := default [] (field config "mcpServers" ≫= as_object) in
  list_to_set (concat ((fun kv => omap route_key (entry_urls kv.2)) <$> servers)).

(* crates/executors/src/mcp_config.rs:87-109 shadowed_project_mcp_servers *)
Definition shadowed_project_mcp_servers (mcp_json : Value) (is_routed : string -> bool) : list string :=
  match field mcp_json "mcpServers" ≫= as_object with
  | None => []
  | Some servers =>
      dedup (sort_by (fun x => x)
        (fst <$> List.filter (fun kv => existsb is_routed (entry_urls kv.2)) servers))
  end.

(** One entry, of which only the URLs change. *)
Definition route_entry routes (entry : Value) : Value :=
  match entry with
  | VObject object =>
      VObject
        (foldl (fun object key =>
                  update object key (fun v => match v with
                                              | VString url => VString (route_mcp_url url routes)
                                              | v => v
                                              end)) object ["url"; "httpUrl"])
  | v => v
  end.

(* crates/executors/src/mcp_config.rs:135-146 route_mcp_servers *)
Definition route_mcp_servers (servers : gmap string Value) routes : gmap string Value :=
  route_entry routes <$> servers.

(** ** The servers of a native file *)

(* crates/executors/src/mcp_config.rs:148-165 mcp_servers_from_config *)
Definition mcp_servers_from_config (raw_config : Value) (path : list string) : gmap string Value :=
  match foldl (fun current part => current ≫= fun v => field v part) (Some raw_config) path with
  | Some current => list_to_map (default [] (as_object current))
  | None => ∅
  end.

Definition or_empty (v : Value) : Map := default [] (as_object v).

(** The loop over the parents, from the outside in. *)
Fixpoint set_at (current : Map) (parents : list string) (final_attr : string) (v : Value) : Map :=
  match parents with
  | [] => insert current final_attr v
  | part :: parents =>
      let inner := match get current part with Some x => or_empty x | None => [] end in
      insert current part (VObject (set_at inner parents final_attr v))
  end.

(** [None] is the error for an empty path.  The order of a [HashMap]'s keys is that of
    [map_to_list]. *)
(* crates/executors/src/mcp_config.rs:167-198 set_mcp_servers_in_config *)
Definition set_mcp_servers_in_config (raw_config : Value) (path : list string)
    (servers : gmap string Value) : option Value :=
  match last path with
  | None => None
  | Some final_attr =>
      Some (VObject (set_at (or_empty raw_config) (take (length path - 1) path) final_attr
                       (VObject (map_to_list servers))))
  end.

(** ** The bundled servers *)

(* crates/executors/src/mcp_config.rs:723-725 is_http_server *)
Definition is_http_server (s : Map) : bool :=
  bool_decide ((get s "type" ≫= as_str) = Some "http").

(* crates/executors/src/mcp_config.rs:727-729 is_stdio *)
Definition is_stdio (s : Map) : bool := negb (is_http_server s) && contains_key s "command".

(* crates/executors/src/mcp_config.rs:738-741 extract_meta *)
Definition extract_meta (obj : Map) : Map * option Value := (remove obj "meta", get obj "meta").

(* crates/executors/src/mcp_config.rs:743-748 attach_meta *)
Definition attach_meta (obj : Map) (meta : option Value) : Value :=
  VObject (match meta with Some m => insert obj "meta" m | None => obj end).

(* crates/executors/src/mcp_config.rs:750-757 ensure_header *)
Definition ensure_header (headers : Map) (key val : string) : Map :=
  match get headers key with
  | Some (VString _) => headers
  | _ => insert headers key (VString val)
  end.

(* crates/executors/src/mcp_config.rs:759-772 transform_http_servers *)
Definition transform_http_servers (servers : Map) (f : Map -> Map) : Map :=
  (fun kv => match kv.2 with
             | VObject s => (kv.1, VObject (if is_http_server s then f s else s))
             | v => (kv.1, v)
             end) <$> servers.

Definition ACCEPT : string := "application/json, text/event-stream".

(* crates/executors/src/mcp_config.rs:776-778 adapt_passthrough *)
Definition adapt_passthrough (servers : Map) (meta : option Value) : Value := attach_meta servers meta.

(** The URL and the headers of an HTTP entry, with what to put in their place. *)
Definition url_of (s : Map) : Value := default (VString "") (get s "url").
Definition accepting (s : Map) : Map :=
  ensure_header (default [] (get s "headers" ≫= as_object)) "Accept" ACCEPT.

(* crates/executors/src/mcp_config.rs:780-801 adapt_gemini *)
Definition adapt_gemini (servers : Map) (meta : option Value) : Value :=
  attach_meta (transform_http_servers servers (fun s =>
    [("httpUrl", url_of s); ("headers", VObject (accepting s))])) meta.

(* crates/executors/src/mcp_config.rs:803-814 adapt_cursor *)
Definition adapt_cursor (servers : Map) (meta : option Value) : Value :=
  attach_meta (transform_http_servers servers (fun s =>
    [("url", url_of s); ("headers", default (VObject []) (get s "headers"))])) meta.

Definition is_ascii_alphabetic (c : ascii) : bool :=
  let n := N_of_ascii c in
  ((65 <=? n) && (n <=? 90))%N || ((97 <=? n) && (n <=? 122))%N.

Definition is_ascii_alphanumeric (c : ascii) : bool :=
  is_ascii_alphabetic c || bool_decide (is_Some (digit_value c)).

Fixpoint all_bytes (f : ascii -> bool) (s : string) : bool :=
  match s with EmptyString => true | String c s => f c && all_bytes f s end.

Definition env_char (c : ascii) : bool := Ascii.eqb c "_" || is_ascii_alphanumeric c.

(* crates/executors/src/shared_mcp_config.rs:889-896 valid_env_name *)
Definition valid_env_name (name : string) : bool :=
  match name with
  | EmptyString => false
  | String first rest => (Ascii.eqb first "_" || is_ascii_alphabetic first) && all_bytes env_char rest
  end.

(** [s.strip_suffix('}')] *)
Fixpoint strip_brace (s : string) : option string :=
  match s with
  | EmptyString => None
  | String c EmptyString => if Ascii.eqb c "}" then Some EmptyString else None
  | String c s => String c <$> strip_brace s
  end.

(** The functions of this name in the two files are the same. *)
(* crates/executors/src/mcp_config.rs:854-865 exact_env_template *)
Definition exact_env_template (value : string) : option string :=
  name ← strip_prefix "${" value;
  name ← strip_brace name;
  if valid_env_name name then Some name else None.

(** The headers a Codex file takes as they are, and those it reads from the environment. *)
Definition env_header (v : Value) : option string := s ← as_str v; exact_env_template s.

Definition split_headers (headers : Map) : Map * Map :=
  foldl (fun '(static_headers, env_headers) '(name, value) =>
           match env_header value with
           | Some env_name => (static_headers, insert env_headers name (VString env_name))
           | None => (insert static_headers name value, env_headers)
           end) ([], []) headers.

Definition is_empty (m : Map) : bool := bool_decide (length m = 0%nat).

(* crates/executors/src/mcp_config.rs:816-852 adapt_codex *)
Definition adapt_codex (servers : Map) (meta : option Value) : Value :=
  let servers :=
    List.filter (fun kv => match as_object kv.2 with
                           | Some server => is_stdio server || contains_key server "url"
                           | None => false
                           end) servers in
  let servers :=
    (fun kv =>
       match kv.2 with
       | VObject server =>
           if contains_key server "url" then
             let server := remove server "type" in
             let headers := get server "headers" in
             let server := remove server "headers" in
             match headers with
             | Some (VObject headers) =>
                 let '(static_headers, env_headers) := split_headers headers in
                 let server := if is_empty static_headers then server
                               else insert server "http_headers" (VObject static_headers) in
                 (kv.1, VObject (if is_empty env_headers then server
                                 else insert server "env_http_headers" (VObject env_headers)))
             | _ => (kv.1, VObject server)
             end
           else (kv.1, VObject server)
       | v => (kv.1, v)
       end) <$> servers in
  match meta with
  | Some (VObject m) =>
      VObject (insert servers "meta"
                 (VObject (List.filter (fun kv => contains_key servers kv.1) m)))
  | meta => attach_meta servers meta
  end.

(* crates/executors/src/mcp_config.rs:867-935 adapt_opencode *)
Definition adapt_opencode (servers : Map) (meta : option Value) : Value :=
  let servers := transform_http_servers servers (fun s =>
    [("type", VString "remote"); ("url", url_of s); ("headers", VObject (accepting s));
     ("enabled", VBool true)]) in
  let servers :=
    (fun kv =>
       match kv.2 with
       | VObject s =>
           if is_stdio s then
             let command_str := default "" (get s "command" ≫= as_str) in
             let args := default [] (get s "args" ≫= as_array) in
             let cmd_vec := (if String.eqb command_str "" then [] else [VString command_str]) ++ args in
             (kv.1, VObject ([("type", VString "local"); ("command", VArray cmd_vec);
                              ("enabled", VBool true)]
                             ++ match get s "env" with
                                | Some environment => [("environment", environment)]
                                | None => []
                                end))
           else (kv.1, VObject s)
       | v => (kv.1, v)
       end) <$> servers in
  attach_meta servers meta.

(* crates/executors/src/mcp_config.rs:937-949 adapt_copilot *)
Definition adapt_copilot (servers : Map) (meta : option Value) : Value :=
  attach_meta
    ((fun kv => match kv.2 with
                | VObject s => (kv.1, VObject (if contains_key s "tools" then s
                                               else insert s "tools" (VArray [VString "*"])))
                | v => (kv.1, v)
                end) <$> servers) meta.

(* crates/executors/src/mcp_config.rs:951-958 Adapter *)
Inductive Adapter := Passthrough | Gemini | Cursor | Codex | Opencode | Copilot.

(* crates/executors/src/mcp_config.rs:960-974 apply_adapter *)
Definition apply_adapter (adapter : Adapter) (canonical : Value) : Value :=
  let '(servers_only, meta) :=
    match as_object canonical with Some map => extract_meta map | None => ([], None) end in
  match adapter with
  | Passthrough => adapt_passthrough servers_only meta
  | Gemini => adapt_gemini servers_only meta
  | Cursor => adapt_cursor servers_only meta
  | Codex => adapt_codex servers_only meta
  | Opencode => adapt_opencode servers_only meta
  | Copilot => adapt_copilot servers_only meta
  end.

(** ** Facts *)

Lemma in_order_elem {A} (m : gmap string A) k v : (k, v) ∈ in_order m <-> m !! k = Some v.
Proof. unfold in_order. rewrite sort_by_perm. apply elem_of_map_to_list. Qed.

(** A public URL comes back from the loopback route the host serves it on, if no two URLs
    share a route and no route is itself settings' URL. *)
Theorem route_roundtrip routes url :
  (forall p p' local, routes !! p = Some local -> routes !! p' = Some local -> p = p') ->
  (routes !! url = None -> forall p, routes !! p <> Some url) ->
  public_mcp_url (route_mcp_url url routes) routes = url.
Proof.
  intros Hinj Hno. unfold public_mcp_url, route_mcp_url.
  destruct (List.find _ _) as [[p local]|] eqn:Hf; cbn.
  - apply find_some in Hf as [Hin%list_elem_of_In%in_order_elem Hl%String.eqb_eq]. cbn in Hl.
    destruct (routes !! url) as [l|] eqn:Hu; cbn in Hl; subst local; [by eapply Hinj|by destruct (Hno eq_refl p)].
  - destruct (routes !! url) as [l|] eqn:Hu; cbn in *; [|done].
    exfalso. assert ((url, l) ∈ in_order routes) as Hin by by apply in_order_elem.
    apply list_elem_of_In in Hin. pose proof (find_none _ _ Hf _ Hin) as Hx. cbn in Hx.
    by rewrite String.eqb_refl in Hx.
Qed.

Lemma field_set_at v final_attr : forall parents current,
  foldl (fun current part => current ≫= fun v => field v part)
    (Some (VObject (set_at current parents final_attr v))) (parents ++ [final_attr]) = Some v.
Proof.
  induction parents as [|part parents IH]; intros current; cbn [app foldl set_at mbind option_bind field as_object];
    rewrite get_insert, String.eqb_refl; [done|apply IH].
Qed.

(** The servers that are written are the servers that are read, wherever in the file they
    are kept, and the other parts of the file stay. *)
Theorem written_servers_are_read (raw_config config : Value) path servers :
  set_mcp_servers_in_config raw_config path servers = Some config ->
  mcp_servers_from_config config path = servers /\
  (forall top k, head path = Some top -> k <> top -> is_Some (as_object raw_config) ->
     field config k = field raw_config k).
Proof.
  unfold set_mcp_servers_in_config. destruct (last path) as [final_attr|] eqn:Hl; [|done].
  apply last_Some in Hl as [parents ->]. rewrite length_app, Nat.add_sub, take_app_length.
  intros [= <-]. split.
  - unfold mcp_servers_from_config. rewrite field_set_at. cbn. apply list_to_map_to_list.
  - intros top k Htop Hk [m Hm]. unfold field, or_empty. rewrite Hm. cbn.
    destruct parents as [|part parents]; cbn in Htop |- *; injection Htop as ->;
      rewrite get_insert; by destruct (String.eqb_spec top k).
Qed.

(** ** Environment templates *)

Lemma strip_brace_app s : strip_brace (s +:+ "}") = Some s.
Proof.
  induction s as [|c s IH]; [done|]. rewrite sapp_cons. cbn [strip_brace].
  destruct (s +:+ "}") as [|c' t] eqn:E; [by destruct s|]. by rewrite IH.
Qed.

Lemma strip_brace_Some s t : strip_brace s = Some t -> s = t +:+ "}".
Proof.
  revert t. induction s as [|c s IH]; intros t; cbn [strip_brace]; [done|].
  destruct s as [|c' s].
  - destruct (Ascii.eqb_spec c "}"); [|done]. intros [= <-]. by subst.
  - intros (t' & Ht & ->)%fmap_Some. rewrite sapp_cons. f_equal. by apply IH.
Qed.

(** The template of a variable. *)
Definition env_template (name : string) : string := "${" +:+ name +:+ "}".

Lemma exact_env_template_spec value name :
  exact_env_template value = Some name <-> value = env_template name /\ valid_env_name name = true.
Proof.
  unfold exact_env_template, env_template. split.
  - intros (rest & Hr & (n & Hn & Hv)%bind_Some)%bind_Some. apply strip_brace_Some in Hn as ->.
    destruct (valid_env_name n) eqn:E; [|done]. injection Hv as <-. split; [|done].
    by apply strip_prefix_Some in Hr.
  - intros [-> Hv].
    assert (strip_prefix "${" ("${" +:+ name +:+ "}") = Some (name +:+ "}")) as -> by by apply strip_prefix_Some.
    cbn [mbind option_bind]. rewrite strip_brace_app. cbn [mbind option_bind]. by rewrite Hv.
Qed.

Lemma split_headers_spec headers : wf headers ->
  wf (split_headers headers).1 /\ wf (split_headers headers).2 /\
  forall name,
    get (split_headers headers).1 name =
      match get headers name with
      | Some v => if env_header v then None else Some v
      | None => None
      end /\
    get (split_headers headers).2 name = v ← get headers name; VString <$> env_header v.
Proof.
  unfold split_headers. induction headers as [|[k v] headers IH] using rev_ind; intros Hw.
  - by split_and!; [constructor|constructor|].
  - assert (wf headers /\ get headers k = None) as [Hw' Hk].
    { unfold wf in Hw. rewrite fmap_app in Hw. apply NoDup_app in Hw as (? & Hd & _). split; [done|].
      apply get_None. intros Hin. apply (Hd k Hin). by left. }
    specialize (IH Hw') as (H1 & H2 & Hg). rewrite foldl_app. cbn [foldl].
    match type of H1 with wf (fst ?acc) => destruct acc as [st en] end. cbn [fst snd] in H1, H2, Hg.
    destruct (env_header v) as [n|] eqn:E; cbn [fst snd].
    + split; [done|]. split; [by apply insert_wf|]. intros name. destruct (Hg name) as [G1 G2].
      rewrite get_insert, get_app, G1, G2. cbn.
      destruct (String.eqb_spec k name) as [<-|]; [|by destruct (get headers name)].
      rewrite Hk. cbn. by rewrite E.
    + split; [by apply insert_wf|]. split; [done|]. intros name. destruct (Hg name) as [G1 G2].
      rewrite get_insert, get_app, G1, G2. cbn.
      destruct (String.eqb_spec k name) as [<-|]; [|by destruct (get headers name)].
      rewrite Hk. cbn. by rewrite E.
Qed.

End Config.
End McpConfig.
