(* ===== verification/SharedMcp.v ===== *)
(** * MCP servers shared between agents

    [SharedMcp] is crates/executors/src/shared_mcp_config.rs: the one definition that the
    entries of several agents' native files are read as, the entry each agent gets back, the
    plan of a save, and the reconciliation of what the files hold.  What the environment and
    the bundled catalogue decide is an argument. *)
From S2P Require Import Prelude Text Format SortBy McpConfig.
From Stdlib Require Import Ascii.
Import Serde McpConfig.

Module SharedMcp.

(* crates/executors/src/executors/mod.rs:117-133 CodingAgent *)
Inductive BaseCodingAgent :=
| ClaudeCode | Amp | Gemini | Codex | Opencode | CursorAgent | QwenCode | Copilot | Droid | Grok.

#[global] Instance agent_eq_dec : EqDecision BaseCodingAgent.
Proof. solve_decision. Defined.

(** [Display] of the discriminant. *)
Definition agent_name (a : BaseCodingAgent) : string :=
  match a with
  | ClaudeCode => "CLAUDE_CODE" | Amp => "AMP" | Gemini => "GEMINI" | Codex => "CODEX"
  | Opencode => "OPENCODE" | CursorAgent => "CURSOR_AGENT" | QwenCode => "QWEN_CODE"
  | Copilot => "COPILOT" | Droid => "DROID" | Grok => "GROK"
  end.

(* crates/executors/src/shared_mcp_config.rs:32-37 McpTransportKind *)
Inductive McpTransportKind := Stdio | Http | Sse | Unknown.

#[global] Instance transport_eq_dec : EqDecision McpTransportKind.
Proof. solve_decision. Defined.

(* crates/executors/src/shared_mcp_config.rs:76-81 SharedMcpAuthMode *)
Inductive SharedMcpAuthMode := SharedGateway | AgentNative | ExplicitHeader | NoAuth.

(** ** Identifiers *)

Definition identifier_char (c : ascii) : bool :=
  is_ascii_alphanumeric c || Ascii.eqb c "_" || Ascii.eqb c "-".

(* crates/executors/src/shared_mcp_config.rs:223-228 is_valid_server_identifier *)
Definition is_valid_server_identifier (name : string) : bool :=
  negb (String.eqb name "") && all_bytes identifier_char name.

(** The loop over the characters; the bytes of a character outside ASCII are separators
    together. *)
Fixpoint suggestion_of (suggestion : string) (previous_was_separator : bool) (s : string) : string :=
  match s with
  | EmptyString => suggestion
  | String c s =>
      if identifier_char c then suggestion_of (suggestion +:+ String (ascii_lower c) "") false s
      else if negb previous_was_separator && negb (String.eqb suggestion "")
      then suggestion_of (suggestion +:+ "_") true s
      else suggestion_of suggestion previous_was_separator s
  end.

(** Pops every [_] at the end. *)
Fixpoint trim_underscores (s : string) : string :=
  match s with
  | EmptyString => EmptyString
  | String c s =>
      let rest := trim_underscores s in
      if Ascii.eqb c "_" && String.eqb rest "" then EmptyString else String c rest
  end.

(* crates/executors/src/shared_mcp_config.rs:232-254 suggested_server_identifier *)
Definition suggested_server_identifier (name : string) : string :=
  let suggestion := trim_underscores (suggestion_of "" false (trim name)) in
  if String.eqb suggestion "" then "mcp_server" else suggestion.

(** The first name that is not an identifier. *)
(* crates/executors/src/shared_mcp_config.rs:256-270 validate_server_identifiers *)
Definition validate_server_identifiers (names : list string) : result unit string :=
  match List.find (fun name => negb (is_valid_server_identifier name)) names with
  | Some name => Err name
  | None => Ok tt
  end.

Definition eq_ignore_ascii_case (a b : string) : bool :=
  String.eqb (to_ascii_lowercase a) (to_ascii_lowercase b).

Definition is_authorization (name : string) : bool := eq_ignore_ascii_case name "authorization".

Definition REDACTED : string := "Bearer [REDACTED]".

Section Shared.
Context {Num : Type} `{!EqDecision Num}.
Notation Value := (Value Num).
Notation Map := (Map Num).

(** The host's routes, [PRECONFIGURED_MCP_SERVERS.get("slack")], the launcher in the bundled
    template, and [serde_json::to_string]. *)
Context (routes : gmap string string).
Context (current_slack : option Value) (slack_launcher : option string).
Context (to_string : Value -> string).

(* crates/executors/src/shared_mcp_config.rs:40-44 McpServerDefinition *)
Record McpServerDefinition := {
  transport : McpTransportKind;
  value : Value;
  representable_in_form : bool;
}.

(** The derived [PartialEq]. *)
Definition definition_eqb (a b : McpServerDefinition) : bool :=
  bool_decide (transport a = transport b) && value_eqb (value a) (value b)
  && Bool.eqb (representable_in_form a) (representable_in_form b).

(** ** Reading an entry *)

Definition droppable (v : Value) : bool :=
  match v with VArray [] | VObject [] => true | VString s => String.eqb s "" | _ => false end.

(* crates/executors/src/shared_mcp_config.rs:965-977 compact_object *)
Definition compact_object (entries : list (string * Value)) : Value :=
  VObject (foldl (fun map '(key, v) => if droppable v then map else insert map key v) [] entries).

(** The entries whose value is a string. *)
Definition strings_of (map : Map) : Map :=
  foldl (fun out '(k, v) => match as_str v with Some s => insert out k (VString s) | None => out end)
    [] map.

(* crates/executors/src/shared_mcp_config.rs:979-992 normalize_string_map *)
Fixpoint normalize_string_map (obj : Map) (keys : list string) : Map :=
  match keys with
  | [] => []
  | key :: keys =>
      match get obj key with
      | Some (VObject map) => strings_of map
      | _ => normalize_string_map obj keys
      end
  end.

(* crates/executors/src/shared_mcp_config.rs:871-887 normalize_http_headers *)
Definition normalize_http_headers (obj : Map) : Map :=
  let headers := normalize_string_map obj ["headers"; "http_headers"] in
  match get obj "env_http_headers" with
  | Some (VObject env_headers) =>
      foldl (fun headers '(name, env_name) =>
               if contains_key headers name then headers
               else match as_str env_name with
                    | Some env_name =>
                        if valid_env_name env_name
                        then insert headers name (VString (env_template env_name)) else headers
                    | None => headers
                    end) headers env_headers
  | _ => headers
  end.

Definition env_vars_of (obj : Map) : Value :=
  match get obj "env_vars" with Some (VArray l) => VArray l | _ => VArray [] end.

(** [url.trim_end_matches('/').ends_with("/sse")] *)
Fixpoint trim_slashes (s : string) : string :=
  match s with
  | EmptyString => EmptyString
  | String c s =>
      let rest := trim_slashes s in
      if Ascii.eqb c "/" && String.eqb rest "" then EmptyString else String c rest
  end.

Fixpoint ends_with (p s : string) : bool :=
  String.eqb p s || match s with EmptyString => false | String _ s => ends_with p s end.

Definition sse_url (url : string) : bool := ends_with "/sse" (trim_slashes url).

Definition opaque (entry : Value) : McpServerDefinition :=
  {| transport := Unknown; value := entry; representable_in_form := false |}.

Definition stdio_definition (command : string) (args : list Value) (obj : Map) (form : bool)
    : McpServerDefinition :=
  {| transport := Stdio;
     value := compact_object
                [("command", VString command); ("args", VArray args);
                 ("env", VObject (normalize_string_map obj ["env"; "environment"]));
                 ("env_vars", env_vars_of obj)];
     representable_in_form := form |}.

Definition http_definition (type_str : option string) (url : string) (obj : Map) : McpServerDefinition :=
  {| transport := if bool_decide (type_str = Some "sse") || sse_url url then Sse else Http;
     value := compact_object
                [("url", VString (public_mcp_url url routes));
                 ("headers", VObject (normalize_http_headers obj))];
     representable_in_form := true |}.

(* crates/executors/src/shared_mcp_config.rs:770-869 canonical_definition *)
Definition canonical_definition (entry : Value) : McpServerDefinition :=
  match as_object entry with
  | None => opaque entry
  | Some obj =>
      if bool_decide ((get obj "enabled" ≫= as_bool) = Some false) then opaque entry
      else
        let type_str := get obj "type" ≫= as_str in
        let remote :=
          match (match get obj "url" ≫= as_str with
                 | Some url => Some url
                 | None => get obj "httpUrl" ≫= as_str
                 end) with
          | Some url => http_definition type_str url obj
          | None => opaque entry
          end in
        let spawned :=
          match get obj "command" ≫= as_str with
          | Some command =>
              if bool_decide (type_str ∈ [Some "http"; Some "sse"; Some "remote"]) then remote
              else stdio_definition command (default [] (get obj "args" ≫= as_array)) obj true
          | None => remote
          end in
        match (if bool_decide (type_str = Some "local") then get obj "command" ≫= as_array else None) with
        | Some parts =>
            let command := default "" (head parts ≫= as_str) in
            stdio_definition command (VString <$> omap as_str (drop 1 parts)) obj
              (negb (String.eqb command ""))
        | None => spawned
        end
  end.

(** ** The bundled Slack server *)

Definition HISTORICAL_SLACK_STDIO_LAUNCHERS : list string :=
  ["https://github.com/davidvasandani/slack-mcp-server/releases/download/v1.3.0-vk.2/slack-mcp-server-vk-1.3.0-vk.2.tgz"].

Definition slack_args (launcher : string) : Value :=
  VArray [VString "-y"; VString launcher; VString "--transport"; VString "stdio"].

(* crates/executors/src/shared_mcp_config.rs:931-956 is_legacy_bundled_slack_definition *)
Definition is_legacy_bundled_slack_definition (definition : McpServerDefinition) : bool :=
  bool_decide (transport definition = Stdio)
  && bool_decide ((field (value definition) "command" ≫= as_str) = Some "npx")
  && match field (value definition) "args" with
     | Some args =>
         value_eqb args (slack_args "slack-mcp-server@latest")
         || match slack_launcher with
            | Some launcher => value_eqb args (slack_args launcher)
            | None => false
            end
         || existsb (fun launcher => value_eqb args (slack_args launcher)) HISTORICAL_SLACK_STDIO_LAUNCHERS
     | None => false
     end
  && match field (value definition) "env" ≫= as_object with
     | Some env => (length env =? 1)%nat && contains_key env "SLACK_MCP_XOXP_TOKEN"
     | None => false
     end.

(* crates/executors/src/shared_mcp_config.rs:915-929 migrate_bundled_slack_definition *)
Definition migrate_bundled_slack_definition (historical current : McpServerDefinition) : McpServerDefinition :=
  match transport current, field (value historical) "env", as_object (value current) with
  | Stdio, Some env, Some v =>
      {| transport := Stdio; value := VObject (insert v "env" env);
         representable_in_form := representable_in_form current |}
  | _, _, _ => current
  end.

(* crates/executors/src/shared_mcp_config.rs:903-913 canonical_definition_for_server *)
Definition canonical_definition_for_server (name : string) (entry : Value) : McpServerDefinition :=
  let definition := canonical_definition entry in
  if negb (String.eqb name "slack") || negb (is_legacy_bundled_slack_definition definition)
  then definition
  else match current_slack with
       | None => definition
       | Some current_entry =>
           migrate_bundled_slack_definition definition (canonical_definition current_entry)
       end.

(* crates/executors/src/shared_mcp_config.rs:961-963 is_historical_bundled_slack_entry *)
Definition is_historical_bundled_slack_entry (entry : Value) : bool :=
  is_legacy_bundled_slack_definition (canonical_definition entry).

(** ** Fingerprints *)

Definition transport_name (t : McpTransportKind) : string :=
  match t with Stdio => "Stdio" | Http => "Http" | Sse => "Sse" | Unknown => "Unknown" end.

(** The keys of every object in order. *)
Fixpoint sorted (v : Value) : Value :=
  match v with
  | VObject m =>
      VObject (sort_by fst ((fix go (m : list (string * Value)) :=
                               match m with [] => [] | (k, x) :: m => (k, sorted x) :: go m end) m))
  | VArray l =>
      VArray ((fix go (l : list Value) := match l with [] => [] | x :: l => sorted x :: go l end) l)
  | v => v
  end.

(* crates/executors/src/shared_mcp_config.rs:1006-1023 stable_json *)
Definition stable_json (v : Value) : string := to_string (sorted v).

(* crates/executors/src/shared_mcp_config.rs:994-1004 normalized_fingerprint *)
Definition normalized_fingerprint (definition : McpServerDefinition) : option string :=
  if bool_decide (transport definition = Unknown) then None
  else Some (transport_name (transport definition) +:+ ":" +:+ stable_json (value definition)).

(** ** Credentials *)

Definition has_authorization (m : Map) : bool := existsb (fun kv => is_authorization kv.1) m.

(* crates/executors/src/shared_mcp_config.rs:1025-1034 has_credentials *)
Definition has_credentials (entry : Value) : bool :=
  existsb (fun key => match field entry key ≫= as_object with
                      | Some headers => has_authorization headers
                      | None => false
                      end) ["headers"; "http_headers"; "env_http_headers"].

(* crates/executors/src/shared_mcp_config.rs:690-696 gateway_url *)
Definition gateway_url (definition : McpServerDefinition) : option string :=
  url ← field (value definition) "url" ≫= as_str;
  if contains "/mcp-gateway/" url then Some url else None.

(* crates/executors/src/shared_mcp_config.rs:698-721 auth_mode *)
Definition auth_mode (definition : McpServerDefinition) : SharedMcpAuthMode :=
  if bool_decide (is_Some (gateway_url definition)) then SharedGateway
  else
    let has_auth := match field (value definition) "headers" ≫= as_object with
                    | Some headers => has_authorization headers
                    | None => false
                    end in
    if has_auth then ExplicitHeader
    else match transport definition with Http | Sse => AgentNative | _ => NoAuth end.

Definition redact_headers (headers : Map) : Map :=
  (fun kv => if is_authorization kv.1 then (kv.1, VString REDACTED) else kv) <$> headers.

(** [get_mut(key).and_then(as_object_mut)] *)
Definition update_object (v : Value) (key : string) (f : Map -> Map) : Value :=
  match v with
  | VObject m => VObject (update m key (fun v => match v with VObject x => VObject (f x) | v => v end))
  | v => v
  end.

(* crates/executors/src/shared_mcp_config.rs:723-737 redact_gateway_definition *)
Definition redact_gateway_definition (definition : McpServerDefinition) : McpServerDefinition :=
  if bool_decide (is_Some (gateway_url definition)) then
    {| transport := transport definition;
       value := update_object (value definition) "headers" redact_headers;
       representable_in_form := representable_in_form definition |}
  else definition.

(* crates/executors/src/shared_mcp_config.rs:47-53 NativeMcpSource *)
Record NativeMcpSource := {
  ns_executor : BaseCodingAgent;
  ns_config_path : string;
  server_name : string;
  entry : Value;
  ns_fingerprint : option string;
}.

(* crates/executors/src/shared_mcp_config.rs:739-753 redact_gateway_source *)
Definition redact_gateway_source (source : NativeMcpSource) : NativeMcpSource :=
  if bool_decide (is_Some (gateway_url (canonical_definition (entry source)))) then
    {| ns_executor := ns_executor source; ns_config_path := ns_config_path source;
       server_name := server_name source;
       entry := foldl (fun e key => update_object e key redact_headers) (entry source)
                  ["headers"; "http_headers"];
       ns_fingerprint := ns_fingerprint source |}
  else source.

(** ** Giving an agent its entry *)

Definition non_empty_array (v : option Value) : bool :=
  match v with Some (VArray (_ :: _)) => true | _ => false end.

(** The reasons, without their wording. *)
Inductive Incompatible := NoEnvVars | NoLegacySse | NotShareable.

(* crates/executors/src/shared_mcp_config.rs:1036-1062 incompatibility_reason *)
Definition incompatibility_reason (executor : BaseCodingAgent) (definition : McpServerDefinition)
    : option Incompatible :=
  if negb (bool_decide (executor = Codex)) && non_empty_array (field (value definition) "env_vars")
  then Some NoEnvVars
  else if bool_decide (executor ∈ [Codex; Grok]) && bool_decide (transport definition = Sse)
  then Some NoLegacySse
  else if bool_decide (transport definition = Unknown) then Some NotShareable
  else None.

(* crates/executors/src/shared_mcp_config.rs:56-63 SharedMcpAssignment *)
Record SharedMcpAssignment := {
  as_executor : BaseCodingAgent;
  native_name : string;
  native_entry : option Value;
  as_has_credentials : bool;
  representable : bool;
  as_reason : option Incompatible;
}.

(* crates/executors/src/shared_mcp_config.rs:755-768 assignment_from_source *)
Definition assignment_from_source (source : NativeMcpSource) (definition : McpServerDefinition)
    : SharedMcpAssignment :=
  let reason := incompatibility_reason (ns_executor source) definition in
  {| as_executor := ns_executor source; native_name := server_name source;
     native_entry := Some (entry source); as_has_credentials := has_credentials (entry source);
     representable := bool_decide (reason = None); as_reason := reason |}.

(* crates/executors/src/shared_mcp_config.rs:1064-1079 compatibility_for_profiles *)
Definition compatibility_for_profiles (profiles : list BaseCodingAgent) (definition : McpServerDefinition)
    : list (BaseCodingAgent * option Incompatible) :=
  (fun executor => (executor, incompatibility_reason executor definition)) <$> profiles.

Inductive MaterializeError := Reason (r : Incompatible) | NotAnObject | UnknownTransport.

Definition filtered (o : option Value) (drop : Value -> bool) : option Value :=
  v ← o; if drop v then None else Some v.

Definition empty_array (v : Value) : bool := match v with VArray [] => true | _ => false end.
Definition empty_object (v : Value) : bool := match v with VObject [] => true | _ => false end.

Definition insert_some (m : Map) (key : string) (v : option Value) : Map :=
  match v with Some v => insert m key v | None => m end.

Definition materialize_stdio (executor : BaseCodingAgent) (obj : Map) : Map :=
  let out := [("command", default (VString "") (get obj "command"))] in
  let out := insert_some out "args" (filtered (get obj "args") empty_array) in
  let out := insert_some out "env" (filtered (get obj "env") empty_object) in
  let out := if bool_decide (executor = Codex)
             then insert_some out "env_vars" (filtered (get obj "env_vars") empty_array) else out in
  if bool_decide (executor = Opencode) then
    let command := match get out "command" ≫= as_str with Some c => [VString c] | None => [] end in
    let out := remove out "command" in
    let args := match get out "args" with Some (VArray args) => args | _ => [] end in
    let out := remove out "args" in
    insert (insert (insert out "type" (VString "local")) "command" (VArray (command ++ args)))
      "enabled" (VBool true)
  else out.

Definition materialize_url (executor : BaseCodingAgent) (t : McpTransportKind) (url : Value) : Map :=
  match executor with
  | Gemini | QwenCode => [("httpUrl", url)]
  | Opencode => [("type", VString "remote"); ("enabled", VBool true); ("url", url)]
  | CursorAgent | Codex | Grok => [("url", url)]
  | _ => [("type", VString (if bool_decide (t = Sse) then "sse" else "http")); ("url", url)]
  end.

Definition materialize_headers (executor : BaseCodingAgent) (out headers : Map) : Map :=
  if bool_decide (executor = Codex) then
    let '(static_headers, env_headers) := split_headers headers in
    let out := if is_empty static_headers then out
               else insert out "http_headers" (VObject static_headers) in
    if is_empty env_headers then out else insert out "env_http_headers" (VObject env_headers)
  else if is_empty headers then out else insert out "headers" (VObject headers).

Definition materialize_remote (executor : BaseCodingAgent) (t : McpTransportKind) (obj : Map) : Map :=
  let url := match get obj "url" ≫= as_str with
             | Some url => VString (route_mcp_url url routes)
             | None => VString ""
             end in
  let out := materialize_url executor t url in
  match get obj "headers" ≫= as_object with
  | Some headers => materialize_headers executor out headers
  | None => out
  end.

(* crates/executors/src/shared_mcp_config.rs:1081-1204 materialize_definition *)
Definition materialize_definition (executor : BaseCodingAgent) (definition : McpServerDefinition)
    (native_override : option Value) : result Value MaterializeError :=
  match incompatibility_reason executor definition with
  | Some reason => Err (Reason reason)
  | None =>
      match native_override with
      | Some override_value => Ok override_value
      | None =>
          match as_object (value definition) with
          | None => Err NotAnObject
          | Some obj =>
              match transport definition with
              | Stdio => Ok (VObject (materialize_stdio executor obj))
              | Http | Sse => Ok (VObject (materialize_remote executor (transport definition) obj))
              | Unknown => Err UnknownTransport
              end
          end
      end
  end.

(** ** Keeping the gateway's capability *)

Definition find_authorization (headers : Map) : option (string * Value) :=
  List.find (fun kv => is_authorization kv.1) headers.

Definition is_redacted (v : Value) : bool := bool_decide (as_str v = Some REDACTED).

(** The header of which the redacted value came back. *)
Definition redacted_name (headers : Map) : option string :=
  fst <$> List.find (fun kv => is_authorization kv.1 && is_redacted kv.2) headers.

Definition restore_headers (current_auth : option Value) (headers : Map) : Map :=
  (fun kv => if is_authorization kv.1 && is_redacted kv.2
             then match current_auth with Some v => (kv.1, v) | None => kv end
             else kv) <$> headers.

Definition restore_env (next : Value) (name env_name : string) : Value :=
  match update_object next "http_headers" (fun headers => remove headers name) with
  | VObject m =>
      let headers := default [] (get m "env_http_headers" ≫= as_object) in
      VObject (insert m "env_http_headers" (VObject (insert headers name (VString env_name))))
  | v => v
  end.

(** An [env_http_headers] of [next] that is not an object, which only a native override can
    bring, is a panic in the code and replaced here.  The values of a [HashMap] are searched
    in the order of [map_to_list]. *)
(* crates/executors/src/shared_mcp_config.rs:1313-1389 preserve_gateway_capability *)
Definition preserve_gateway_capability (current_servers : gmap string Value) (current_name : string)
    (next : Value) : Value :=
  match gateway_url (canonical_definition next) with
  | None => next
  | Some next_gateway_url =>
      let current :=
        match current_servers !! current_name with
        | Some current => Some current
        | None =>
            List.find (fun e => bool_decide (gateway_url (canonical_definition e) = Some next_gateway_url))
              (map_to_list current_servers).*2
        end in
      match current with
      | None => next
      | Some current =>
          let current_env_auth :=
            headers ← field current "env_http_headers" ≫= as_object;
            kv ← find_authorization headers;
            name ← as_str kv.2;
            if valid_env_name name then Some name else None in
          let restored :=
            env_name ← current_env_auth;
            headers ← field next "http_headers" ≫= as_object;
            name ← redacted_name headers;
            Some (restore_env next name env_name) in
          match restored with
          | Some next => next
          | None =>
              let current_auth :=
                headers ← field (value (canonical_definition current)) "headers" ≫= as_object;
                snd <$> find_authorization headers in
              foldl (fun next key => update_object next key (restore_headers current_auth)) next
                ["headers"; "http_headers"]
          end
      end
  end.

(** ** Saving *)

(* crates/executors/src/shared_mcp_config.rs:142-150 SharedMcpServerInput *)
Record SharedMcpServerInput := {
  name : string;
  display_name : option string;
  definition : McpServerDefinition;
  assignments : list BaseCodingAgent;
  native_overrides : list (BaseCodingAgent * Value);
}.

Definition override_of (server : SharedMcpServerInput) (executor : BaseCodingAgent) : option Value :=
  snd <$> List.find (fun kv => bool_decide (kv.1 = executor)) (native_overrides server).

(* crates/executors/src/shared_mcp_config.rs:158-164 SharedMcpWriteRequest *)
Record SharedMcpWriteRequest := {
  servers : list SharedMcpServerInput;
  removed_servers : list string;
}.

(** The native names that would become [target]. *)
Definition legacy_candidate (target candidate : string) : bool :=
  negb (is_valid_server_identifier candidate)
  && String.eqb (suggested_server_identifier candidate) target.

(** [Err] is the message about several legacy identifiers. *)
(* crates/executors/src/shared_mcp_config.rs:1287-1311 legacy_name_for_server *)
Definition legacy_name_for_server (current : gmap string Value) (server : SharedMcpServerInput)
    : result (option string) string :=
  match current !! name server with
  | Some _ => Ok None
  | None =>
      let candidates :=
        List.filter (fun kv => legacy_candidate (name server) kv.1
                               && definition_eqb (canonical_definition_for_server kv.1 kv.2) (definition server))
          (map_to_list current) in
      match candidates with
      | [] => Ok None
      | [candidate] => Ok (Some candidate.1)
      | _ => Err (name server)
      end
  end.

Inductive PlanError := AmbiguousLegacy (name : string) | NotMaterialized (e : MaterializeError).

Definition delete_some (m : gmap string Value) (k : option string) : gmap string Value :=
  match k with Some k => delete k m | None => m end.

Definition assigned (executor : BaseCodingAgent) (server : SharedMcpServerInput) : bool :=
  bool_decide (executor ∈ assignments server).

(** The native entry already says what is asked for. *)
Definition unchanged (current : gmap string Value) (server : SharedMcpServerInput) : bool :=
  match current !! name server with
  | Some e =>
      negb (String.eqb (name server) "slack" && is_historical_bundled_slack_entry e)
      && definition_eqb (canonical_definition_for_server (name server) e) (definition server)
  | None => false
  end.

Definition plan_server (executor : BaseCodingAgent) (current next : gmap string Value)
    (affected : list string) (server : SharedMcpServerInput)
    : result (gmap string Value * list string) PlanError :=
  let? legacy_name := map_err AmbiguousLegacy (legacy_name_for_server current server) in
  if assigned executor server then
    match override_of server executor, legacy_name ≫= fun n => pair n <$> current !! n with
    | None, Some (legacy_name, e) =>
        Ok (<[name server := e]> (delete legacy_name next), affected ++ [name server])
    | override, _ =>
        if bool_decide (override = None) && unchanged current server then Ok (next, affected)
        else
          let? e := map_err NotMaterialized
                      (materialize_definition executor (definition server) override) in
          let e := preserve_gateway_capability current (name server) e in
          Ok (<[name server := e]> (delete_some next legacy_name), affected ++ [name server])
    end
  else
    match next !! name server, legacy_name with
    | Some _, _ => Ok (delete (name server) next, affected ++ [name server])
    | None, Some legacy_name =>
        Ok (delete legacy_name next,
            if bool_decide (is_Some (next !! legacy_name)) then affected ++ [name server] else affected)
    | None, None => Ok (next, affected)
    end.

Definition plan_removal (next : gmap string Value) (affected : list string) (removed : string)
    : result (gmap string Value * list string) PlanError :=
  let was := bool_decide (is_Some (next !! removed)) in
  let next := delete removed next in
  match List.filter (legacy_candidate removed) (map_to_list next).*1 with
  | [] =>
      Ok (next, if was && negb (bool_decide (removed ∈ affected)) then affected ++ [removed] else affected)
  | [legacy_name] =>
      Ok (delete legacy_name next,
          if negb (bool_decide (removed ∈ affected)) then affected ++ [removed] else affected)
  | _ => Err (AmbiguousLegacy removed)
  end.

(** A loop that an error leaves. *)
Fixpoint try_fold {A B E} (f : A -> B -> result A E) (a : A) (l : list B) : result A E :=
  match l with [] => Ok a | b :: l => let? a := f a b in try_fold f a l end.

(* crates/executors/src/shared_mcp_config.rs:1206-1285 plan_servers_for_executor *)
Definition plan_servers_for_executor (executor : BaseCodingAgent) (current : gmap string Value)
    (request : SharedMcpWriteRequest) : result (gmap string Value * list string) PlanError :=
  let? planned :=
    try_fold (fun '(next, affected) server => plan_server executor current next affected server)
      (current, []) (servers request) in
  try_fold (fun '(next, affected) removed => plan_removal next affected removed) planned
    (removed_servers request).

(** ** Validation *)

(** The part of a [NativeProfileSnapshot] that is used here. *)
(* crates/executors/src/shared_mcp_config.rs:214-219 NativeProfileSnapshot *)
Record NativeProfileSnapshot := {
  executor : BaseCodingAgent;
  config_path : option string;
  read_error : option string;
  native_servers : gmap string Value;
}.

Definition known_executors (snapshots : list NativeProfileSnapshot) (server : SharedMcpServerInput) : bool :=
  forallb (fun e => existsb (fun s => bool_decide (executor s = e)) snapshots) (assignments server).

(* crates/executors/src/shared_mcp_config.rs:1418-1449 migrated_legacy_server *)
Definition migrated_legacy_server (server : SharedMcpServerInput) (snapshots : list NativeProfileSnapshot) : bool :=
  bool_decide (length (native_overrides server) = 0%nat)
  && is_valid_server_identifier (name server)
  && known_executors snapshots server
  && forallb (fun snapshot =>
       let assigned := assigned (executor snapshot) server in
       let present := bool_decide (is_Some (native_servers snapshot !! name server)) in
       match List.filter (fun kv => legacy_candidate (name server) kv.1)
               (map_to_list (native_servers snapshot)) with
       | [] => negb assigned && negb present
       | [(native_name, e)] =>
           negb present && assigned
           && definition_eqb (canonical_definition_for_server native_name e) (definition server)
       | _ => false
       end) snapshots.

(* crates/executors/src/shared_mcp_config.rs:1451-1471 unchanged_legacy_server *)
Definition unchanged_legacy_server (server : SharedMcpServerInput) (snapshots : list NativeProfileSnapshot) : bool :=
  bool_decide (length (native_overrides server) = 0%nat)
  && known_executors snapshots server
  && forallb (fun snapshot =>
       match assigned (executor snapshot) server, native_servers snapshot !! name server with
       | true, Some e => definition_eqb (canonical_definition_for_server (name server) e) (definition server)
       | false, None => true
       | _, _ => false
       end) snapshots.

Inductive InvalidRequest :=
| LegacyDisagrees (name : string)
| InvalidIdentifier (name suggestion : string)
| Duplicated (name : string)
| NotAssigned (name : string)
| ExecutorNotFound (e : BaseCodingAgent)
| CannotAssign (name : string) (e : BaseCodingAgent) (reason : Incompatible).

(** Whether [ExecutorConfigs] has an agent for the executor. *)
Context (agent_for : BaseCodingAgent -> bool).

Definition validate_executor (is_legacy_server : bool) (server : SharedMcpServerInput)
    (e : BaseCodingAgent) : result unit InvalidRequest :=
  if negb (agent_for e) then Err (ExecutorNotFound e)
  else match incompatibility_reason e (definition server) with
       | Some reason => if is_legacy_server then Ok tt else Err (CannotAssign (name server) e reason)
       | None => Ok tt
       end.

Definition validate_server (allow_legacy_server : SharedMcpServerInput -> bool) (names : gset string)
    (server : SharedMcpServerInput) : result (gset string) InvalidRequest :=
  let is_legacy_server := allow_legacy_server server in
  if negb (is_valid_server_identifier (name server)) && negb is_legacy_server
  then Err (InvalidIdentifier (name server) (suggested_server_identifier (name server)))
  else if bool_decide (name server ∈ names) then Err (Duplicated (name server))
  else if bool_decide (length (assignments server) = 0%nat) then Err (NotAssigned (name server))
  else
    let? _ := try_fold (fun _ e => validate_executor is_legacy_server server e) tt (assignments server) in
    Ok ({[name server]} ∪ names).

(* crates/executors/src/shared_mcp_config.rs:1473-1514 validate_write_request_with *)
Definition validate_write_request_with (request : SharedMcpWriteRequest)
    (allow_legacy_server : SharedMcpServerInput -> bool) : result unit InvalidRequest :=
  let? _ := try_fold (validate_server allow_legacy_server) ∅ (servers request) in Ok tt.

(* crates/executors/src/shared_mcp_config.rs:1391-1393 validate_write_request *)
Definition validate_write_request (request : SharedMcpWriteRequest) : result unit InvalidRequest :=
  validate_write_request_with request (fun _ => false).

(* crates/executors/src/shared_mcp_config.rs:1395-1416 validate_write_request_against_snapshots *)
Definition validate_write_request_against_snapshots (request : SharedMcpWriteRequest)
    (snapshots : list NativeProfileSnapshot) : result unit InvalidRequest :=
  let disagrees server :=
    existsb (fun snapshot =>
               existsb (fun kv => legacy_candidate (name server) kv.1) (map_to_list (native_servers snapshot)))
      snapshots
    && negb (migrated_legacy_server server snapshots) in
  match List.find disagrees (servers request) with
  | Some server => Err (LegacyDisagrees (name server))
  | None =>
      validate_write_request_with request
        (fun server => unchanged_legacy_server server snapshots || migrated_legacy_server server snapshots)
  end.

(** ** Reading *)

Inductive SharedMcpSourceKind := Reconciled | SingleProfile | Custom.

(* crates/executors/src/shared_mcp_config.rs:91-105 SharedMcpServer *)
Record SharedMcpServer := {
  s_name : string;
  s_display_name : option string;
  s_definition : McpServerDefinition;
  s_assignments : list SharedMcpAssignment;
  source_kind : SharedMcpSourceKind;
  s_native_sources : list NativeMcpSource;
  compatibility : list (BaseCodingAgent * option Incompatible);
  s_auth_mode : SharedMcpAuthMode;
  runtime_route_configured : bool;
}.

(** A variant's id is its place in the list. *)
(* crates/executors/src/shared_mcp_config.rs:108-113 SharedMcpConflictVariant *)
Record SharedMcpConflictVariant := {
  v_definition : McpServerDefinition;
  v_assignments : list SharedMcpAssignment;
  v_native_sources : list NativeMcpSource;
}.

Inductive ConflictMessage := SameIdentifier (originals : list string) | DifferentDefinitions.

(* crates/executors/src/shared_mcp_config.rs:116-122 SharedMcpConflict *)
Record SharedMcpConflict := {
  c_name : string;
  c_display_name : option string;
  variants : list SharedMcpConflictVariant;
  c_message : ConflictMessage;
}.

(* crates/executors/src/shared_mcp_config.rs:132-139 SharedMcpReadResponse *)
Record SharedMcpReadResponse := {
  profiles : list BaseCodingAgent;
  r_servers : list SharedMcpServer;
  conflicts : list SharedMcpConflict;
  read_errors : list (BaseCodingAgent * option string * string);
}.

(** A source with its definition. *)
Notation Source := (NativeMcpSource * McpServerDefinition)%type.

(** [entry(key).or_default().push(x)] *)
Definition push {A} (m : gmap string (list A)) (key : string) (x : A) : gmap string (list A) :=
  <[key := default [] (m !! key) ++ [x]]> m.

Definition group_by {A} (key : A -> string) (l : list A) : gmap string (list A) :=
  foldl (fun m x => push m (key x) x) ∅ l.

Definition source_of (snapshot : NativeProfileSnapshot) (server_name : string) (e : Value) : Source :=
  let definition := canonical_definition_for_server server_name e in
  ({| ns_executor := executor snapshot;
      ns_config_path := default "<unknown>" (config_path snapshot);
      server_name := server_name; entry := e;
      ns_fingerprint := normalized_fingerprint definition |}, definition).

Definition identifier_of (server_name : string) : string :=
  if is_valid_server_identifier server_name then server_name
  else suggested_server_identifier server_name.

Definition sources_of (snapshots : list NativeProfileSnapshot) : list Source :=
  concat ((fun snapshot => (fun kv => source_of snapshot kv.1 kv.2) <$> map_to_list (native_servers snapshot))
            <$> snapshots).

Definition variant_key (s : Source) : string :=
  default ("custom:" +:+ agent_name (ns_executor s.1) +:+ ":" +:+ stable_json (entry s.1))
    (normalized_fingerprint s.2).

(** One group of sources that agree, as it is shown; [first] is its first member. *)
Definition variant (first : Source) (group : list Source) : SharedMcpConflictVariant :=
  let definition := redact_gateway_definition first.2 in
  let sources := redact_gateway_source <$> group.*1 in
  {| v_definition := definition;
     v_assignments := (fun source => assignment_from_source source definition) <$> sources;
     v_native_sources := sources |}.

Definition single_variant (s : Source) : SharedMcpConflictVariant := variant s [s].

Definition group_variant (group : list Source) : option SharedMcpConflictVariant :=
  match group with s :: _ => Some (variant s group) | [] => None end.

Definition shared_server (agents : list BaseCodingAgent) (n : string) (display : option string)
    (v : SharedMcpConflictVariant) : SharedMcpServer :=
  let definition := v_definition v in
  {| s_name := n; s_display_name := display; s_definition := definition;
     s_assignments := v_assignments v;
     source_kind := if (1 <? length (v_native_sources v))%nat then Reconciled
                    else if bool_decide (transport definition = Unknown) then Custom
                    else SingleProfile;
     s_native_sources := v_native_sources v;
     compatibility := compatibility_for_profiles agents definition;
     s_auth_mode := auth_mode definition;
     runtime_route_configured :=
       match field (value definition) "url" ≫= as_str with
       | Some url => has_runtime_route_for_public_url url routes
       | None => false
       end |}.

(** The distinct native names of the sources of one identifier. *)
Definition native_names (sources : list Source) : list string :=
  dedup (sort_by (fun x => x) ((fun s => server_name s.1) <$> sources)).

(** What is shown of one identifier. *)
Definition reconcile_name (agents : list BaseCodingAgent) (n : string) (sources : list Source)
    : SharedMcpServer + SharedMcpConflict :=
  let source_names := native_names sources in
  let legacy_display_name :=
    match source_names with
    | [source_name] => if String.eqb source_name n then None else Some source_name
    | _ => None
    end in
  let groups := (in_order (group_by variant_key sources)).*2 in
  if (1 <? length source_names)%nat then
    inr {| c_name := n; c_display_name := None; variants := single_variant <$> concat groups;
           c_message := SameIdentifier source_names |}
  else
    match omap group_variant groups with
    | [v] => inl (shared_server agents n legacy_display_name v)
    | vs => inr {| c_name := n; c_display_name := legacy_display_name; variants := vs;
                   c_message := DifferentDefinitions |}
    end.

Definition lefts {A B} (l : list (A + B)) : list A :=
  omap (fun x => match x with inl a => Some a | inr _ => None end) l.
Definition rights {A B} (l : list (A + B)) : list B :=
  omap (fun x => match x with inl _ => None | inr b => Some b end) l.

(* crates/executors/src/shared_mcp_config.rs:511-688 reconcile_snapshots *)
Definition reconcile_snapshots (snapshots : list NativeProfileSnapshot) : SharedMcpReadResponse :=
  let agents := executor <$> snapshots in
  let shown :=
    (fun kv => reconcile_name agents kv.1 kv.2)
      <$> in_order (group_by (fun s : Source => identifier_of (server_name s.1)) (sources_of snapshots)) in
  {| profiles := agents; r_servers := lefts shown; conflicts := rights shown;
     read_errors := omap (fun s => (fun e => (executor s, config_path s, e)) <$> read_error s) snapshots |}.

(** ** Labels *)

(* crates/executors/src/shared_mcp_config.rs:378-383 normalized_display_name *)
Definition normalized_display_name (identifier : string) (label : option string) : option string :=
  label ← label;
  let label := trim label in
  if String.eqb label "" || String.eqb label identifier then None else Some label.

(* crates/executors/src/shared_mcp_config.rs:486-509 merged_display_labels *)
Definition merged_display_labels (labels : gmap string string) (request : SharedMcpWriteRequest)
    (existing : gset string) (updatable : option (gset string)) : gmap string string :=
  foldl (fun labels server =>
           if negb (bool_decide (name server ∈ existing))
              || match updatable with Some u => negb (bool_decide (name server ∈ u)) | None => false end
           then labels
           else match normalized_display_name (name server) (display_name server) with
                | Some label => <[name server := label]> labels
                | None => delete (name server) labels
                end)
    (filter (fun kv => kv.1 ∈ existing) labels) (servers request).

Definition label_for (labels : gmap string string) (n : string) (sources : list NativeMcpSource)
    : option string :=
  match labels !! n with
  | Some label => Some label
  | None => head (omap (fun source => labels !! server_name source) sources)
  end.

(* crates/executors/src/shared_mcp_config.rs:385-407 attach_display_labels *)
Definition attach_display_labels (labels : gmap string string) (r : SharedMcpReadResponse)
    : SharedMcpReadResponse :=
  {| profiles := profiles r;
     r_servers :=
       (fun s => {| s_name := s_name s;
                    s_display_name := match label_for labels (s_name s) (s_native_sources s) with
                                      | Some label => Some label
                                      | None => s_display_name s
                                      end;
                    s_definition := s_definition s; s_assignments := s_assignments s;
                    source_kind := source_kind s; s_native_sources := s_native_sources s;
                    compatibility := compatibility s; s_auth_mode := s_auth_mode s;
                    runtime_route_configured := runtime_route_configured s |}) <$> r_servers r;
     conflicts :=
       (fun c => {| c_name := c_name c;
                    c_display_name :=
                      match label_for labels (c_name c) (concat (v_native_sources <$> variants c)) with
                      | Some label => Some label
                      | None => c_display_name c
                      end;
                    variants := variants c; c_message := c_message c |}) <$> conflicts r;
     read_errors := read_errors r |}.

End Shared.
End SharedMcp.
