(* ===== verification/SharedMcpFacts.v ===== *)
(** * Shared MCP servers: reading back what is written

    Theorems about [SharedMcp]: identifiers, the entries of the agents as one definition, the
    plan of a save, and what a reader is shown. *)
From S2P Require Import Prelude Text Format SortBy McpConfig SharedMcp.
From Stdlib Require Import Ascii.
Import Serde McpConfig SharedMcp.

Module SharedMcpFacts.

(** ** Identifiers *)

Lemma all_bytes_app f s t : all_bytes f (s +:+ t) = all_bytes f s && all_bytes f t.
Proof. induction s as [|c s IH]; [done|]. rewrite sapp_cons. cbn. by rewrite IH, andb_assoc. Qed.

Lemma identifier_lower c : identifier_char c = true -> identifier_char (ascii_lower c) = true.
Proof. destruct c as [[] [] [] [] [] [] [] []]; vm_compute; auto. Qed.

Lemma suggestion_of_chars s : forall t b,
  all_bytes identifier_char t = true -> all_bytes identifier_char (suggestion_of t b s) = true.
Proof.
  induction s as [|c s IH]; intros t b Ht; cbn [suggestion_of]; [done|].
  destruct (identifier_char c) eqn:E; [|destruct (_ && _)]; apply IH; rewrite ?all_bytes_app, ?Ht; cbn; [|done..].
  by rewrite identifier_lower.
Qed.

Lemma trim_underscores_chars f s : all_bytes f s = true -> all_bytes f (trim_underscores s) = true.
Proof.
  induction s as [|c s IH]; cbn; [done|]. intros [Hc Hs]%andb_true_iff.
  destruct (_ && _); [done|]. cbn. by rewrite Hc, IH.
Qed.

(** Whatever name a user gives a server, the suggestion is an identifier. *)
Lemma suggested_valid n : is_valid_server_identifier (suggested_server_identifier n) = true.
Proof.
  unfold suggested_server_identifier, is_valid_server_identifier.
  set (t := trim_underscores _). assert (all_bytes identifier_char t = true) as Ht.
  { by apply trim_underscores_chars, suggestion_of_chars. }
  destruct (String.eqb_spec t ""); [done|]. rewrite Ht. by destruct (String.eqb_spec t "").
Qed.

Lemma identifier_of_valid n : is_valid_server_identifier (identifier_of n) = true.
Proof.
  unfold identifier_of. destruct (is_valid_server_identifier n) eqn:E; [done|apply suggested_valid].
Qed.

Section Facts.
Context {Num : Type} `{!EqDecision Num}.
Notation Value := (Value Num).
Notation Map := (Map Num).
Context (routes : gmap string string).

Notation canonical := (canonical_definition (Num := Num) routes).
Notation materialize := (materialize_definition (Num := Num) routes).

(** ** Objects that are built *)

Lemma get_compact (entries : list (string * Value)) k :
  NoDup entries.*1 ->
  field (compact_object entries) k = v ← get entries k; if droppable v then None else Some v.
Proof.
  unfold field, compact_object. cbn [as_object mbind option_bind].
  induction entries as [|[k' v'] entries IH] using rev_ind; [done|]. intros Hn.
  rewrite fmap_app in Hn. apply NoDup_app in Hn as (Hn & Hd & _). specialize (IH Hn).
  rewrite foldl_app. cbn [foldl]. rewrite get_app.
  assert (get entries k' = None) as Hk' by (apply get_None; intros Hin; apply (Hd k' Hin); by left).
  destruct (droppable v') eqn:Hv; [|rewrite get_insert]; rewrite IH; cbn [get].
  - destruct (get entries k) as [v|]; [done|]. cbn. destruct (String.eqb_spec k' k) as [->|]; [|done].
    cbn. by rewrite Hv.
  - destruct (String.eqb_spec k' k) as [<-|]; [rewrite Hk'; cbn; by rewrite Hv|].
    by destruct (get entries k).
Qed.

(** Headers and environments as they are normalised: distinct names, string values. *)
Record normal (m : Map) : Prop := {
  normal_wf : wf m;
  normal_strings k v : get m k = Some v -> exists s, v = VString s;
}.

Lemma normal_nil : normal [].
Proof. by split; [constructor|]. Qed.

Lemma normal_insert m k s : normal m -> normal (insert m k (VString s)).
Proof.
  intros [Hw Hs]. split; [by apply insert_wf|]. intros k' v. rewrite get_insert.
  destruct (String.eqb k k'); [intros [= <-]; eauto|apply Hs].
Qed.

Lemma strings_of_normal m : normal (strings_of m).
Proof.
  unfold strings_of. apply (foldl_invariant normal); [|apply normal_nil].
  intros out [k v] _ Ho. destruct (as_str v); [by apply normal_insert|done].
Qed.

Lemma insert_fresh (m : Map) k v : get m k = None -> insert m k v = m ++ [(k, v)].
Proof.
  induction m as [|[k' v'] m IH]; [done|]. cbn. destruct (String.eqb_spec k' k); [done|].
  intros H. by rewrite IH.
Qed.

Lemma normal_cons k v m : normal ((k, v) :: m) -> get m k = None /\ (exists s, v = VString s) /\ normal m.
Proof.
  intros [Hw Hs]. unfold wf in Hw. cbn in Hw. apply NoDup_cons in Hw as [Hn Hw].
  split_and!; [by apply get_None| |split; [done|]].
  - apply (Hs k). cbn. by rewrite String.eqb_refl.
  - intros k' v' Hk'. apply (Hs k'). cbn. destruct (String.eqb_spec k k') as [<-|]; [|done].
    apply get_elem in Hk'. exfalso. apply Hn, list_elem_of_fmap. by exists (k, v').
Qed.

Lemma strings_of_id m : normal m -> strings_of m = m.
Proof.
  unfold strings_of. intros Hm.
  assert (forall out, (forall k, is_Some (get m k) -> get out k = None) ->
    foldl (fun out '(k, v) => match as_str v with Some s => insert out k (VString s) | None => out end) out m
      = out ++ m) as H; [|by apply (H [])].
  induction m as [|[k v] m IH]; intros out Ho; [by rewrite app_nil_r|].
  apply normal_cons in Hm as (Hk & [s ->] & Hm). cbn [foldl as_str].
  rewrite insert_fresh by (apply Ho; cbn; rewrite String.eqb_refl; eauto).
  rewrite IH; [by rewrite <- app_assoc|done|].
  intros k' [v' Hk']. rewrite get_app. cbn. destruct (String.eqb_spec k k') as [<-|Hne]; [congruence|].
  rewrite Ho; [done|]. cbn. destruct (String.eqb_spec k k'); [done|]. eauto.
Qed.

Lemma normalize_string_map_normal obj keys : normal (normalize_string_map obj keys).
Proof.
  induction keys as [|key keys IH]; cbn; [apply normal_nil|].
  destruct (get obj key) as [[]|]; try done. apply strings_of_normal.
Qed.

Lemma normalize_http_headers_normal obj : normal (normalize_http_headers obj).
Proof.
  unfold normalize_http_headers. pose proof (normalize_string_map_normal obj ["headers"; "http_headers"]) as Hn.
  destruct (get obj "env_http_headers") as [[]|]; try done.
  apply (foldl_invariant normal); [|done]. intros h [n v] _ Hh.
  destruct (contains_key h n); [done|]. destruct (as_str v); [|done].
  destruct (valid_env_name _); [by apply normal_insert|done].
Qed.

(** ** Shapes that are recognised *)

Lemma canonical_stdio (out : Map) c :
  get out "enabled" = None -> get out "type" = None -> get out "command" = Some (VString c) ->
  canonical (VObject out) = stdio_definition c (default [] (get out "args" ≫= as_array)) out true.
Proof. intros H1 H2 H3. unfold canonical_definition. cbn. by rewrite H1, H2, H3. Qed.

Lemma canonical_local (out : Map) parts :
  get out "enabled" = Some (VBool true) -> get out "type" = Some (VString "local") ->
  get out "command" = Some (VArray parts) ->
  canonical (VObject out) =
    stdio_definition (default "" (head parts ≫= as_str)) (VString <$> omap as_str (drop 1 parts)) out
      (negb (String.eqb (default "" (head parts ≫= as_str)) "")).
Proof. intros H1 H2 H3. unfold canonical_definition. cbn. by rewrite H1, H2, H3. Qed.

Lemma canonical_remote (out : Map) ty url :
  (get out "enabled" ≫= as_bool) <> Some false -> (get out "type" ≫= as_str) = ty -> ty <> Some "local" ->
  get out "command" = None ->
  (match get out "url" ≫= as_str with Some u => Some u | None => get out "httpUrl" ≫= as_str end) = Some url ->
  canonical (VObject out) = http_definition routes ty url out.
Proof.
  intros H1 H2 H3 H4 H5. unfold canonical_definition. cbn. rewrite bool_decide_eq_false_2 by done.
  rewrite H2, H4, H5. by rewrite bool_decide_eq_false_2.
Qed.

(** What an entry is read as. *)
Lemma canonical_shape e :
  canonical e = opaque e \/
  (exists c args obj form, canonical e = stdio_definition c args obj form) \/
  (exists ty url obj, canonical e = http_definition routes ty url obj).
Proof.
  unfold canonical_definition. destruct (as_object e) as [obj|]; [|by left].
  case_bool_decide; [by left|].
  assert (forall o : option string,
    match o with Some url => http_definition routes (get obj "type" ≫= as_str) url obj | None => opaque e end
      = opaque e \/ exists ty' url' obj', match o with
          | Some url => http_definition routes (get obj "type" ≫= as_str) url obj
          | None => opaque e end = http_definition routes ty' url' obj') as Hr.
  { intros [url|]; [right; by exists (get obj "type" ≫= as_str), url, obj|by left]. }
  specialize (Hr (match get obj "url" ≫= as_str with Some url => Some url | None => get obj "httpUrl" ≫= as_str end)).
  destruct (if bool_decide _ then _ else None) as [parts|]; [right; left; by eexists _, _, _, _|].
  destruct (get obj "command" ≫= as_str) as [c|]; [case_bool_decide|].
  2: right; left; by eexists _, _, _, _.
  all: destruct Hr as [Hr|(ty & url & o & Hr)]; rewrite Hr; [by left|right; right; by eexists _, _, _].
Qed.

(** The members of a definition's value. *)
Lemma stdio_field c args (obj : Map) form k :
  field (value (stdio_definition c args obj form)) k =
    v ← get [("command", VString c); ("args", VArray args);
             ("env", VObject (normalize_string_map obj ["env"; "environment"]));
             ("env_vars", env_vars_of obj)] k;
    if droppable v then None else Some v.
Proof. apply get_compact. repeat (apply NoDup_cons; split; [set_solver|]). constructor. Qed.

Lemma http_field ty url (obj : Map) k :
  field (value (http_definition routes ty url obj)) k =
    v ← get [("url", VString (public_mcp_url url routes)); ("headers", VObject (normalize_http_headers obj))] k;
    if droppable v then None else Some v.
Proof. apply get_compact. repeat (apply NoDup_cons; split; [set_solver|]). constructor. Qed.

Lemma get_insert_some (m : Map) k v k' :
  get (insert_some m k v) k' =
    if String.eqb k k' then match v with Some v => Some v | None => get m k' end else get m k'.
Proof.
  destruct v; cbn; [apply get_insert|]. by destruct (String.eqb k k').
Qed.

Lemma insert_some_wf (m : Map) k v : wf m -> wf (insert_some m k v).
Proof. destruct v; [apply insert_wf|done]. Qed.

(** ** Round trips *)

Definition header (d : McpServerDefinition) (n : string) : option Value :=
  match field (value d) "headers" with Some (VObject m) => get m n | _ => None end.

(** Two definitions that say the same; headers may be in another order. *)
Record same_definition (d d' : McpServerDefinition (Num := Num)) : Prop := {
  same_transport : transport d = transport d';
  same_form : representable_in_form d = representable_in_form d';
  same_field k : k <> "headers" -> field (value d) k = field (value d') k;
  same_header n : header d n = header d' n;
}.

Lemma same_refl d : same_definition d d.
Proof. by split. Qed.

Lemma materialized_env (obj out : Map) :
  get out "env" = match normalize_string_map obj ["env"; "environment"] with
                  | [] => None | m => Some (VObject m) end ->
  get out "environment" = None ->
  normalize_string_map out ["env"; "environment"] = normalize_string_map obj ["env"; "environment"].
Proof.
  intros H1 H2. pose proof (normalize_string_map_normal obj ["env"; "environment"]) as Hn. revert H1 Hn.
  generalize (normalize_string_map obj ["env"; "environment"]). intros m H1 Hn. cbn [normalize_string_map].
  rewrite H1, H2. destruct m as [|x m]; [done|]. by apply strings_of_id.
Qed.

Definition is_string (v : Value) : Prop := is_Some (as_str v).

Lemma strings_omap (l : list Value) : Forall is_string l -> VString <$> omap as_str l = l.
Proof. induction 1 as [|v l [s Hv] _ IH]; [done|]. destruct v; try done. cbn. by rewrite IH. Qed.

Lemma stdio_reads_back executor c args (obj : Map) e :
  let d := stdio_definition c args obj true in
  (executor = Opencode -> c <> "" /\ Forall is_string args) ->
  materialize executor d None = Ok e -> canonical e = d.
Proof.
  intros d Ho. unfold materialize_definition.
  destruct (incompatibility_reason executor d) eqn:Hinc; [done|].
  destruct (as_object (value d)) as [m|] eqn:Hobj; [|done].
  change (transport d) with Stdio. cbn [value]. intros [= <-].
  assert (forall k, get m k = field (value d) k) as Hm by (intros k; unfold field; by rewrite Hobj).
  assert (executor <> Codex -> env_vars_of obj = VArray []) as Hvars.
  { intros Hne. unfold incompatibility_reason in Hinc. rewrite bool_decide_eq_false_2 in Hinc by done.
    cbn [negb andb] in Hinc. unfold d in Hinc. rewrite stdio_field in Hinc. cbn in Hinc.
    unfold env_vars_of in *. destruct (get obj "env_vars") as [[]|]; try done; by destruct l. }
  assert (get m "command" = if String.eqb c "" then None else Some (VString c)) as Hcmd.
  { rewrite Hm. unfold d. rewrite stdio_field. done. }
  assert (get m "args" = match args with [] => None | _ => Some (VArray args) end) as Hargs.
  { rewrite Hm. unfold d. rewrite stdio_field. cbn. by destruct args. }
  assert (get m "env" = match normalize_string_map obj ["env"; "environment"] with
                        | [] => None | x => Some (VObject x) end) as Henv.
  { rewrite Hm. unfold d. rewrite stdio_field. cbn [get String.eqb Ascii.eqb Bool.eqb mbind option_bind].
    by destruct (normalize_string_map obj _). }
  assert (get m "env_vars" = if empty_array (env_vars_of obj) then None else Some (env_vars_of obj)) as Hev.
  { rewrite Hm. unfold d. rewrite stdio_field. cbn. unfold env_vars_of.
    destruct (get obj "env_vars") as [[]|]; try done; by destruct l. }
  clear Hm Hinc Hobj. subst d.
  set (base := insert_some (insert_some [("command", default (VString "") (get m "command"))] "args"
                 (filtered (get m "args") empty_array)) "env" (filtered (get m "env") empty_object)).
  set (out0 := if bool_decide (executor = Codex)
               then insert_some base "env_vars" (filtered (get m "env_vars") empty_array) else base).
  assert (wf out0) as Hwf.
  { assert (wf base) as Hb.
    { apply insert_some_wf, insert_some_wf. unfold wf. cbn. apply NoDup_singleton. }
    unfold out0. case_bool_decide; [by apply insert_some_wf|done]. }
  assert (get out0 "command" = Some (VString c)) as G1.
  { unfold out0, base. case_bool_decide; rewrite !get_insert_some; cbn; rewrite Hcmd;
      by destruct (String.eqb_spec c "") as [->|]. }
  assert (get out0 "args" = match args with [] => None | _ => Some (VArray args) end) as G2.
  { unfold out0, base. case_bool_decide; rewrite !get_insert_some; cbn; rewrite Hargs; by destruct args. }
  assert (get out0 "env" = match normalize_string_map obj ["env"; "environment"] with
                           | [] => None | x => Some (VObject x) end) as G3.
  { unfold out0, base. case_bool_decide; rewrite !get_insert_some; cbn [String.eqb Ascii.eqb Bool.eqb get];
      rewrite Henv; by destruct (normalize_string_map obj _). }
  assert (env_vars_of out0 = env_vars_of obj) as G4.
  { unfold env_vars_of at 1. unfold out0, base. case_bool_decide as Hx.
    - rewrite !get_insert_some. cbn. rewrite Hev. unfold env_vars_of in *.
      destruct (get obj "env_vars") as [[]|]; try done; by destruct l.
    - rewrite !get_insert_some. cbn. by rewrite Hvars. }
  assert (forall k, k ∉ ["command"; "args"; "env"; "env_vars"] -> get out0 k = None) as G5.
  { intros k Hk. unfold out0, base. case_bool_decide; rewrite !get_insert_some; cbn [get];
      repeat match goal with |- context [String.eqb ?a k] => destruct (String.eqb_spec a k) as [<-|] end;
      try done; exfalso; apply Hk; set_solver. }
  change (canonical (VObject (if bool_decide (executor = Opencode) then
    let command := match get out0 "command" ≫= as_str with Some c => [VString c] | None => [] end in
    let out := remove out0 "command" in
    let args := match get out "args" with Some (VArray args) => args | _ => [] end in
    let out := remove out "args" in
    insert (insert (insert out "type" (VString "local")) "command" (VArray (command ++ args)))
      "enabled" (VBool true)
  else out0)) = stdio_definition c args obj true).
  clearbody out0. clear base Hcmd Hargs Henv Hev Hvars. case_bool_decide as Hop.
  - destruct (Ho Hop) as [Hc Has]. cbv zeta. rewrite G1. cbn [mbind option_bind as_str].
    rewrite get_remove by done. cbn [String.eqb Ascii.eqb Bool.eqb]. rewrite G2.
    assert (match (match args with [] => None | _ :: _ => Some (VArray args) end) with
            | Some (VArray a) => a | _ => [] end = args) as -> by by destruct args.
    set (out := insert _ _ _).
    assert (forall k, get out k =
      if String.eqb "enabled" k then Some (VBool true)
      else if String.eqb "command" k then Some (VArray ([VString c] ++ args))
      else if String.eqb "type" k then Some (VString "local")
      else if String.eqb "args" k then None else get out0 k) as Hout.
    { intros k. unfold out. rewrite !get_insert, !get_remove by (try apply remove_wf; done).
      by destruct (String.eqb "enabled" k), (String.eqb_spec "command" k). }
    rewrite (canonical_local out ([VString c] ++ args)) by (by rewrite Hout).
    cbn [app head mbind option_bind as_str default from_option id drop]. rewrite strings_omap by done.
    destruct (String.eqb_spec c ""); [done|]. cbn [negb].
    unfold stdio_definition. rewrite (materialized_env obj out).
    + assert (env_vars_of out = env_vars_of obj) as -> by (rewrite <- G4; unfold env_vars_of; by rewrite Hout).
      done.
    + rewrite Hout. exact G3.
    + rewrite Hout. cbn. apply G5. set_solver.
  - rewrite (canonical_stdio out0 c) by (try apply G5; set_solver).
    unfold stdio_definition. rewrite G4, G2, (materialized_env obj out0);
      [by destruct args|done|apply G5; set_solver].
Qed.

(** The agents whose entries say which remote transport it is. *)
Definition names_transport (executor : BaseCodingAgent) : bool :=
  bool_decide (executor ∈ [ClaudeCode; Amp; Copilot; Droid]).

Lemma http_header ty url (obj : Map) n :
  header (http_definition routes ty url obj) n = get (normalize_http_headers obj) n.
Proof.
  unfold header. rewrite http_field. cbn [get String.eqb Ascii.eqb Bool.eqb mbind option_bind].
  by destruct (normalize_http_headers obj).
Qed.

(** The header that an entry of [env_http_headers] stands for. *)
Definition from_env (v : Value) : option Value :=
  e ← as_str v; if valid_env_name e then Some (VString (env_template e)) else None.

(** The names read from the environment join the static ones. *)
Lemma join_env (env : Map) : forall (h : Map) n,
  wf env ->
  get (foldl (fun headers '(name, env_name) =>
               if contains_key headers name then headers
               else match as_str env_name with
                    | Some env_name =>
                        if valid_env_name env_name
                        then insert headers name (VString (env_template env_name)) else headers
                    | None => headers
                    end) h env) n =
    match get h n with
    | Some v => Some v
    | None => get env n ≫= from_env
    end.
Proof.
  induction env as [|[k v] env IH]; intros h n Hw; [cbn; by destruct (get h n)|].
  unfold wf in Hw. cbn in Hw. apply NoDup_cons in Hw as [Hk Hw]. apply get_None in Hk.
  cbn [foldl]. rewrite (IH _ _ Hw). cbn [get].
  assert (forall h' : Map, get h' n = get h n -> (get h' n = None -> k = n ->
    from_env v = None) ->
    match get h' n with Some v0 => Some v0 | None => get env n ≫= from_env end
    = match get h n with Some v0 => Some v0
      | None => (if String.eqb k n then Some v else get env n) ≫= from_env end) as Hsame.
  { intros h' Hh Hn. rewrite Hh in Hn |- *. destruct (get h n); [done|].
    destruct (String.eqb_spec k n) as [<-|]; [|done]. rewrite Hk. cbn. by rewrite Hn. }
  unfold contains_key. case_bool_decide as Hc.
  - apply Hsame; [done|]. intros Hn ->. rewrite Hn in Hc. by destruct Hc.
  - destruct (as_str v) as [s|] eqn:Hs; [|apply Hsame; [done|intros _ _; unfold from_env; by rewrite Hs]].
    destruct (valid_env_name s) eqn:Hv; [|apply Hsame; [done|intros _ _; unfold from_env; rewrite Hs; cbn; by rewrite Hv]].
    rewrite get_insert. destruct (String.eqb_spec k n) as [<-|Hne].
    + destruct (get h k); [by destruct Hc; eauto|]. cbn. unfold from_env. rewrite Hs. cbn. by rewrite Hv.
    + done.
Qed.

Lemma is_empty_true (m : Map) : is_empty m = true -> m = [].
Proof. unfold is_empty. rewrite bool_decide_eq_true. by destruct m. Qed.

(** Whatever map of headers is written, it is what is read. *)
Lemma headers_read_back executor (base h : Map) :
  normal h -> (forall k, k ∈ ["headers"; "http_headers"; "env_http_headers"] -> get base k = None) ->
  forall n, get (normalize_http_headers (materialize_headers executor base h)) n = get h n.
Proof.
  intros Hn Hb n. unfold materialize_headers. case_bool_decide as Hx.
  - destruct (split_headers_spec h (normal_wf _ Hn)) as (W1 & W2 & Hg).
    destruct (split_headers h) as [st en]. cbn [fst snd] in *.
    assert (normal st) as Hst.
    { split; [done|]. intros k v Hk. destruct (Hg k) as [G _]. rewrite G in Hk.
      destruct (get h k) as [v'|] eqn:Hh; [|done]. destruct (env_header v'); [done|]. injection Hk as <-.
      by apply (normal_strings _ Hn k). }
    set (out := if is_empty en then _ else _).
    assert (get out "headers" = None) as O1.
    { unfold out. destruct (is_empty en), (is_empty st); rewrite ?get_insert; apply Hb; set_solver. }
    assert (default [] (get out "http_headers" ≫= as_object) = st) as O2.
    { unfold out. destruct (is_empty st) eqn:E.
      - apply is_empty_true in E as ->. destruct (is_empty en); rewrite ?get_insert; cbn; by rewrite Hb by set_solver.
      - destruct (is_empty en); by rewrite !get_insert. }
    assert (default [] (get out "env_http_headers" ≫= as_object) = en) as O3.
    { unfold out. destruct (is_empty en) eqn:E.
      - apply is_empty_true in E as ->. destruct (is_empty st); rewrite ?get_insert; cbn; by rewrite Hb by set_solver.
      - by rewrite get_insert. }
    assert (normalize_string_map out ["headers"; "http_headers"] = st) as O4.
    { cbn [normalize_string_map]. rewrite O1. destruct (get out "http_headers") as [[]|]; cbn in O2; try done.
      rewrite O2. by apply strings_of_id. }
    unfold normalize_http_headers. rewrite O4.
    assert (get h n = match get st n with
                      | Some v => Some v
                      | None => get en n ≫= from_env
                      end) as ->.
    { destruct (Hg n) as [-> ->]. destruct (get h n) as [v|] eqn:Hh; [|done].
      destruct (env_header v) as [e|] eqn:He; [|done]. cbn. rewrite He. cbn.
      destruct (normal_strings _ Hn n v Hh) as [s ->]. cbn in He.
      apply exact_env_template_spec in He as [-> ->]. done. }
    destruct (get out "env_http_headers") as [[]|]; cbn in O3; subst en; try (by destruct (get st n)).
    by apply join_env.
  - destruct (is_empty h) eqn:E.
    + apply is_empty_true in E as ->. unfold normalize_http_headers. cbn [normalize_string_map].
      by rewrite !Hb by set_solver.
    + unfold normalize_http_headers. cbn [normalize_string_map]. rewrite !get_insert. cbn [String.eqb Ascii.eqb Bool.eqb].
      rewrite Hb by set_solver. by rewrite strings_of_id.
Qed.

Lemma materialize_headers_other executor (base h : Map) k :
  k ∉ ["headers"; "http_headers"; "env_http_headers"] ->
  get (materialize_headers executor base h) k = get base k.
Proof.
  intros Hk. assert (forall a v (m : Map), a ∈ ["headers"; "http_headers"; "env_http_headers"] ->
    get (insert m a v) k = get m k) as Hi.
  { intros a v m Ha. rewrite get_insert. by destruct (String.eqb_spec a k) as [->|]. }
  unfold materialize_headers. case_bool_decide.
  - destruct (split_headers h) as [st en].
    destruct (is_empty en), (is_empty st); rewrite ?Hi by set_solver; done.
  - destruct (is_empty h); [done|]. apply Hi. set_solver.
Qed.

Lemma remote_reads_back executor ty url (obj : Map) e :
  let d := http_definition routes ty url obj in
  let u := public_mcp_url url routes in
  u <> "" -> public_mcp_url (route_mcp_url u routes) routes = u ->
  (sse_url (route_mcp_url u routes) || (names_transport executor && bool_decide (transport d = Sse)))
    = bool_decide (transport d = Sse) ->
  materialize executor d None = Ok e -> same_definition (canonical e) d.
Proof.
  intros d u Hu Hpub Hsse. unfold materialize_definition.
  destruct (incompatibility_reason executor d); [done|].
  destruct (as_object (value d)) as [m|] eqn:Hobj; [|done].
  assert (forall k, get m k = field (value d) k) as Hm by (intros k; unfold field; by rewrite Hobj).
  assert (transport d = Sse \/ transport d = Http) as Ht.
  { unfold d, http_definition. cbn [transport]. destruct (bool_decide (ty = Some "sse") || sse_url url); auto. }
  assert (get m "url" = Some (VString u)) as Gu.
  { rewrite Hm. unfold d. rewrite http_field. cbn. fold u. by destruct (String.eqb_spec u ""). }
  assert (get m "headers" = match normalize_http_headers obj with [] => None | x => Some (VObject x) end) as Gh.
  { rewrite Hm. unfold d. rewrite http_field. cbn [get String.eqb Ascii.eqb Bool.eqb mbind option_bind].
    by destruct (normalize_http_headers obj). }
  set (base := materialize_url (Num := Num) executor (transport d) (VString (route_mcp_url u routes))).
  assert (get base "command" = None /\ (get base "enabled" ≫= as_bool) <> Some false /\
          (get base "type" ≫= as_str) <> Some "local" /\
          (match get base "url" ≫= as_str with Some x => Some x | None => get base "httpUrl" ≫= as_str end)
             = Some (route_mcp_url u routes) /\
          bool_decide ((get base "type" ≫= as_str) = Some "sse")
             = names_transport executor && bool_decide (transport d = Sse) /\
          forall k, k ∈ ["headers"; "http_headers"; "env_http_headers"] -> get base k = None)
    as (B1 & B2 & B3 & B4 & B5 & B6).
  { unfold base. destruct Ht as [-> | ->]; destruct executor; cbn;
      (split_and!; [done|done|done|done|done|]); intros k Hk;
      repeat (apply elem_of_cons in Hk as [->|Hk]; [done|]); by apply elem_of_nil in Hk. }
  intros He. assert (e = VObject (materialize_headers executor base (normalize_http_headers obj))) as ->.
  { unfold materialize_remote in He. rewrite Gu in He. cbn [mbind option_bind as_str] in He. fold base in He.
    rewrite Gh in He. destruct (normalize_http_headers obj) as [|x h] eqn:En; cbn [mbind option_bind as_object] in He.
    - assert (materialize_headers executor base [] = base) as -> by (unfold materialize_headers; by destruct (bool_decide (executor = Codex))).
      by destruct Ht as [Ht|Ht]; rewrite Ht in He; injection He as <-.
    - by destruct Ht as [Ht|Ht]; rewrite Ht in He; injection He as <-. }
  set (out := materialize_headers executor base (normalize_http_headers obj)).
  assert (forall k, k ∉ ["headers"; "http_headers"; "env_http_headers"] -> get out k = get base k) as Ho
    by (intros k; apply materialize_headers_other).
  rewrite (canonical_remote out (get base "type" ≫= as_str) (route_mcp_url u routes));
    rewrite ?Ho by set_solver; try done.
  split.
  - assert (transport d = if bool_decide (transport d = Sse) then Sse else Http) as ->
      by (by destruct Ht as [-> | ->]).
    unfold http_definition at 1. cbn [transport]. by rewrite B5, orb_comm, Hsse.
  - done.
  - intros k Hk. unfold d. rewrite !http_field. cbn [get]. rewrite Hpub. fold u.
    destruct (String.eqb_spec "url" k); [done|]. by destruct (String.eqb_spec "headers" k).
  - intros n. unfold d. rewrite !http_header. apply headers_read_back; [apply normalize_http_headers_normal|done].
Qed.

(** C34: What an agent is given is read back as the definition it was made from: its command, its
    arguments and environment, or its URL, transport and headers, of which Codex keeps those
    with a template apart.  The conditions: the definition is in a form the settings have; a
    remote one has a URL, and the route table maps the local route it is given back to it (so
    no two public URLs share a local route); the URL an agent gets says the right transport:
    the routed URL of an http server does not end in /sse (slashes apart), and that of an sse server does
    unless the agent's entries name the transport; and for Opencode a stdio definition has a
    command and its arguments are all strings (others are dropped when they are read). *)
Theorem materialized_entry_reads_back executor entry e :
  let d := canonical entry in
  representable_in_form d = true ->
  (transport d = Stdio -> executor = Opencode ->
     field (value d) "command" <> None /\
     forall args, field (value d) "args" = Some (VArray args) -> Forall is_string args) ->
  (forall u, field (value d) "url" = Some (VString u) ->
     public_mcp_url (route_mcp_url u routes) routes = u /\
     (sse_url (route_mcp_url u routes) || (names_transport executor && bool_decide (transport d = Sse)))
       = bool_decide (transport d = Sse)) ->
  (transport d <> Stdio -> field (value d) "url" <> None) ->
  materialize executor d None = Ok e ->
  same_definition (canonical e) d.
Proof.
  intros d Hf Hop Hurl Hnone. assert (d = canonical entry) as Hd by done. clearbody d.
  destruct (canonical_shape entry) as [E|[(c & args & obj & form & E)|(ty & url & obj & E)]];
    rewrite E in Hd; subst d; [done|..].
  - cbn in Hf. subst form. intros He. rewrite (stdio_reads_back executor c args obj e); [apply same_refl| |done].
    intros ->. destruct (Hop eq_refl eq_refl) as [Hc Has]. rewrite stdio_field in Hc. cbn in Hc. split.
    + intros ->. by apply Hc.
    + destruct args as [|a args]; [constructor|]. apply Has. by rewrite stdio_field.
  - assert (public_mcp_url url routes <> "") as Hu.
    { intros Hu. apply Hnone.
      - unfold http_definition. cbn. by destruct (_ || _).
      - rewrite http_field. cbn. by rewrite Hu. }
    destruct (Hurl (public_mcp_url url routes)) as [H1 H2].
    { rewrite http_field. cbn [get String.eqb Ascii.eqb Bool.eqb mbind option_bind droppable].
      by destruct (String.eqb_spec (public_mcp_url url routes) ""). }
    by apply remote_reads_back.
Qed.

(** ** What a reader is shown *)

Lemma push_perm {A} (m : gmap string (list A)) k x :
  concat (map_to_list (push m k x)).*2 ≡ₚ concat (map_to_list m).*2 ++ [x].
Proof.
  unfold push. destruct (m !! k) as [g|] eqn:Hk; cbn [default from_option id].
  - rewrite <- (insert_delete_eq m k (g ++ [x])).
    rewrite <- (insert_delete_id m k g Hk) at 2.
    rewrite !map_to_list_insert by apply lookup_delete_eq. cbn.
    rewrite <- !app_assoc. apply Permutation_app_head. apply Permutation_app_comm.
  - rewrite map_to_list_insert by done. cbn. apply Permutation_cons_append.
Qed.

Lemma group_by_perm {A} (key : A -> string) l : concat (map_to_list (group_by key l)).*2 ≡ₚ l.
Proof.
  unfold group_by. induction l as [|x l IH] using rev_ind; [done|].
  rewrite foldl_app. cbn [foldl]. by rewrite push_perm, IH.
Qed.

Lemma group_by_lookup {A} (key : A -> string) l k g :
  group_by key l !! k = Some g -> g <> [] /\ Forall (fun x => key x = k) g.
Proof.
  unfold group_by. revert g. induction l as [|x l IH] using rev_ind; intros g; [done|].
  rewrite foldl_app. cbn [foldl]. unfold push. rewrite lookup_insert_Some. intros [[<- <-]|[_ Hg]]; [|by apply IH].
  split; [by intros []%app_nil|]. apply Forall_app. split; [|by repeat constructor].
  destruct (foldl _ ∅ l !! key x) as [g|] eqn:E; cbn; [by apply IH|constructor].
Qed.

Lemma in_order_perm {A} (m : gmap string A) : in_order m ≡ₚ map_to_list m.
Proof. apply sort_by_perm. Qed.

Lemma lefts_rights {A B C} (f : A -> list C) (g : B -> list C) l :
  concat (f <$> lefts l) ++ concat (g <$> rights l) ≡ₚ
    concat ((fun x => match x with inl a => f a | inr b => g b end) <$> l).
Proof.
  induction l as [|[a|b] l IH]; [done|..]; cbn.
  - by rewrite <- app_assoc, <- IH.
  - rewrite <- IH, !app_assoc. apply Permutation_app_tail, Permutation_app_comm.
Qed.

Notation Read := (SharedMcpReadResponse (Num := Num)).

Definition conflict_sources (c : SharedMcpConflict (Num := Num)) : list (NativeMcpSource (Num := Num)) :=
  concat (v_native_sources <$> variants c).

Definition shown_sources (r : Read) : list NativeMcpSource :=
  concat (s_native_sources <$> r_servers r) ++ concat (conflict_sources <$> conflicts r).

Definition shown_names (r : Read) : list string :=
  (s_name <$> r_servers r) ++ (c_name <$> conflicts r).

Context (current_slack : option Value) (slack_launcher : option string) (to_string : Value -> string).

Notation reconcile := (reconcile_snapshots routes current_slack slack_launcher to_string).
Notation sources := (sources_of routes current_slack slack_launcher to_string).
Notation redact := (redact_gateway_source routes).
Notation Source := (NativeMcpSource (Num := Num) * McpServerDefinition (Num := Num))%type.

Lemma variant_sources (s : Source) g : v_native_sources (variant routes s g) = redact <$> g.*1.
Proof. done. Qed.

Lemma single_sources (g : list Source) :
  concat (v_native_sources <$> (single_variant routes <$> g)) = redact <$> g.*1.
Proof. induction g as [|s g IH]; [done|]. cbn. by rewrite IH. Qed.

Lemma group_sources (gs : list (list Source)) :
  Forall (fun g => g <> []) gs ->
  concat (v_native_sources <$> omap (group_variant routes) gs) = redact <$> (concat gs).*1.
Proof.
  induction 1 as [|g gs Hg _ IH]; [done|]. destruct g as [|s g]; [done|].
  cbn [omap list_omap group_variant fmap list_fmap concat]. rewrite variant_sources, IH.
  by rewrite <- !fmap_app.
Qed.

Lemma reconcile_name_sources agents n (l : list Source) :
  match reconcile_name routes to_string agents n l with
  | inl s => s_native_sources s
  | inr c => conflict_sources c
  end ≡ₚ redact <$> l.*1.
Proof.
  unfold reconcile_name. set (gs := (in_order (group_by (variant_key to_string) l)).*2).
  assert (concat gs ≡ₚ l) as Hgs.
  { unfold gs. rewrite in_order_perm. apply group_by_perm. }
  assert (Forall (fun g => g <> []) gs) as Hne.
  { apply Forall_forall. intros g ((k & g') & -> & Hin)%list_elem_of_fmap. apply in_order_elem in Hin.
    by apply group_by_lookup in Hin as [? _]. }
  assert (redact <$> (concat gs).*1 ≡ₚ redact <$> l.*1) as Hp by by rewrite Hgs.
  destruct (1 <? _)%nat.
  - unfold conflict_sources. cbn [variants]. by rewrite single_sources.
  - pose proof (group_sources gs Hne) as Hsrc.
    destruct (omap (group_variant routes) gs) as [|v [|v' vs]]; unfold conflict_sources; cbn [variants s_native_sources shared_server];
      rewrite <- Hp, <- Hsrc; cbn; by rewrite ?app_nil_r.
Qed.

Lemma reconcile_name_name agents n (l : list Source) :
  match reconcile_name routes to_string agents n l with
  | inl s => s_name s
  | inr c => c_name c
  end = n.
Proof.
  unfold reconcile_name. destruct (1 <? _)%nat; [done|].
  by destruct (omap _ _) as [|v [|v' vs]].
Qed.

Lemma concat_fmap_perm {A B} (f : A -> list B) (g : A -> list B) (l : list A) :
  (forall x, x ∈ l -> f x ≡ₚ g x) -> concat (f <$> l) ≡ₚ concat (g <$> l).
Proof.
  induction l as [|x l IH]; intros H; [done|]. cbn. rewrite (H x) by by left.
  rewrite IH; [done|]. intros y Hy. apply H. by right.
Qed.

(** Every entry of every file is shown once, as a source of a server or in a conflict, and
    every identifier is shown once and is one that can be saved. *)
Theorem every_entry_is_shown_once snapshots :
  shown_sources (reconcile snapshots) ≡ₚ redact <$> (sources snapshots).*1 /\
  NoDup (shown_names (reconcile snapshots)) /\
  forall n, n ∈ shown_names (reconcile snapshots) -> is_valid_server_identifier n = true.
Proof.
  unfold reconcile_snapshots. set (agents := executor <$> snapshots).
  set (m := group_by (fun s : Source => identifier_of (server_name s.1)) (sources snapshots)).
  set (shown := (fun kv => reconcile_name routes to_string agents kv.1 kv.2) <$> in_order m).
  assert (shown_names {| profiles := agents; r_servers := lefts shown; conflicts := rights shown;
            read_errors := omap (fun s => (fun e => (executor s, config_path s, e)) <$> read_error s) snapshots |}
          ≡ₚ (in_order m).*1) as Hnames.
  { unfold shown_names. cbn [r_servers conflicts].
    pose proof (lefts_rights (fun s : SharedMcpServer (Num := Num) => [s_name s])
                  (fun c : SharedMcpConflict (Num := Num) => [c_name c]) shown) as H.
    assert (forall {A} (f : A -> string) l, concat ((fun x => [f x]) <$> l) = f <$> l) as Hc.
    { intros A f l. induction l as [|x l IH]; [done|]. cbn. by rewrite IH. }
    rewrite !Hc in H. rewrite H. unfold shown. rewrite <- list_fmap_compose.
    rewrite <- (Hc _ fst). apply concat_fmap_perm. intros [k g] _. cbn.
    pose proof (reconcile_name_name agents k g) as Hn. by destruct (reconcile_name _ _ _ _ _); rewrite Hn. }
  split_and!.
  - unfold shown_sources. cbn [r_servers conflicts]. rewrite lefts_rights. unfold shown.
    rewrite <- list_fmap_compose.
    transitivity (concat ((fun kv : string * list Source => redact <$> kv.2.*1) <$> in_order m)).
    { apply concat_fmap_perm. intros [k g] _. cbn. pose proof (reconcile_name_sources agents k g) as Hs.
      by destruct (reconcile_name _ _ _ _ _). }
    assert (concat ((fun kv : string * list Source => redact <$> kv.2.*1) <$> in_order m)
            = redact <$> (concat (in_order m).*2).*1) as ->.
    { clear. induction (in_order m) as [|[k g] l IH]; [done|]. rewrite !fmap_cons. cbn [concat].
      by rewrite IH, !fmap_app. }
    rewrite in_order_perm. unfold m. by rewrite group_by_perm.
  - rewrite Hnames, in_order_perm. apply NoDup_fst_map_to_list.
  - intros n. rewrite Hnames. intros ((k & g) & -> & Hin%in_order_elem)%list_elem_of_fmap. cbn.
    apply group_by_lookup in Hin as [Hne Hk]. destruct g as [|s g]; [done|].
    apply Forall_cons in Hk as [<- _]. apply identifier_of_valid.
Qed.

(** ** The gateway's capability is not shown *)

(** No authorization header under [key] but the placeholder. *)
Definition no_capability (v : Value) (key : string) : Prop :=
  forall headers n x, field v key = Some (VObject headers) -> (n, x) ∈ headers ->
    is_authorization n = true -> x = VString REDACTED.

Lemma redact_headers_clean (h : Map) n x :
  (n, x) ∈ redact_headers h -> is_authorization n = true -> x = VString REDACTED.
Proof.
  unfold redact_headers. intros ((n' & x') & Heq & _)%list_elem_of_fmap Hn. cbn [fst snd] in Heq.
  destruct (is_authorization n') eqn:E; simplify_eq; [done|congruence].
Qed.

Lemma field_update_object (v : Value) key f key' :
  field (update_object v key f) key' =
    if String.eqb key key'
    then (fun x => match x with VObject h => VObject (f h) | x => x end) <$> field v key
    else field v key'.
Proof.
  unfold field, update_object. destruct v as [| | | | |m]; cbn; try (by destruct (String.eqb key key')).
  unfold update. destruct (get m key) as [x|] eqn:Hk.
  - rewrite get_insert. by destruct (String.eqb key key').
  - destruct (String.eqb_spec key key') as [<-|]; [by rewrite Hk|done].
Qed.

Lemma no_capability_redacted v key : no_capability (update_object v key redact_headers) key.
Proof.
  intros h n x. rewrite field_update_object, String.eqb_refl. intros ([] & _ & Heq)%fmap_Some; try done.
  injection Heq as ->. apply redact_headers_clean.
Qed.

(** For a server behind the gateway, neither the definition nor a source that a reader is
    shown has an authorization header of the native file, unless the entry is one that no
    definition describes. *)
Theorem gateway_capability_is_not_shown (source : NativeMcpSource (Num := Num)) name :
  let definition := canonical_definition_for_server routes current_slack slack_launcher name (entry source) in
  (is_Some (gateway_url (canonical (entry source))) ->
     forall key, key ∈ ["headers"; "http_headers"] -> no_capability (entry (redact source)) key) /\
  (is_Some (gateway_url definition) ->
     no_capability (value (redact_gateway_definition definition)) "headers") /\
  (transport (canonical (entry source)) <> Unknown ->
     field (value (canonical (entry source))) "http_headers" = None).
Proof.
  intros d. split_and!.
  - intros Hg key Hkey. unfold redact_gateway_source. rewrite bool_decide_eq_true_2 by done.
    cbn [entry foldl]. apply elem_of_cons in Hkey as [->|Hkey].
    + intros h n x. rewrite field_update_object. cbn [String.eqb Ascii.eqb Bool.eqb]. apply no_capability_redacted.
    + apply list_elem_of_singleton in Hkey as ->. apply no_capability_redacted.
  - intros Hg. unfold redact_gateway_definition. rewrite bool_decide_eq_true_2 by done.
    apply no_capability_redacted.
  - destruct (canonical_shape (entry source)) as [->|[(c & args & obj & form & ->)|(ty & url & obj & ->)]]; [done|..].
    + intros _. by rewrite stdio_field.
    + intros _. by rewrite http_field.
Qed.

(** ** The plan of a save *)

Notation plan := (plan_servers_for_executor routes current_slack slack_launcher).

Lemma try_fold_invariant {A B E} (I : A -> Prop) (f : A -> B -> result A E) l : forall a a',
  (forall a b a', b ∈ l -> I a -> f a b = Ok a' -> I a') -> I a -> try_fold f a l = Ok a' -> I a'.
Proof.
  induction l as [|b l IH]; intros a a' Hf Ha; cbn; [by intros [= <-]|].
  intros (x & Hx & Hl)%rbind_ok. eapply IH; [|by eapply Hf; [by left| |]|done].
  intros ? ? ? ?. apply Hf. by right.
Qed.

Lemma legacy_name_candidate current server n :
  legacy_name_for_server routes current_slack slack_launcher current server = Ok (Some n) ->
  legacy_candidate (name server) n = true.
Proof.
  unfold legacy_name_for_server. destruct (current !! _); [done|].
  destruct (List.filter _ _) as [|kv [|]] eqn:E; [done| |done]. intros [= <-].
  assert (In kv (List.filter (fun kv => legacy_candidate (name server) kv.1
     && definition_eqb (canonical_definition_for_server routes current_slack slack_launcher kv.1 kv.2) (definition server))
     (map_to_list current))) as Hin by (rewrite E; by left).
  apply filter_In in Hin as [_ Hc]. by apply andb_true_iff in Hc as [? _].
Qed.

(** One server of the request changes its own name, and removes a legacy name of it. *)
Lemma plan_server_step executor current next affected server next' affected' :
  plan_server routes current_slack slack_launcher executor current next affected server = Ok (next', affected') ->
  (forall n, n <> name server -> legacy_candidate (name server) n = false -> next' !! n = next !! n) /\
  (forall n, n <> name server -> next' !! n = next !! n \/ next' !! n = None) /\
  (is_valid_server_identifier (name server) = true ->
   (assigned executor server = true -> is_Some (next' !! name server) \/ next = next' /\ is_Some (current !! name server)) /\
   (assigned executor server = false -> next' !! name server = None)).
Proof.
  unfold plan_server. intros (legacy & Hl & H)%rbind_ok. apply map_err_ok in Hl.
  assert (forall l, legacy = Some l -> legacy_candidate (name server) l = true) as Hleg.
  { intros l ->. by eapply legacy_name_candidate. }
  assert (forall l n, legacy = Some l -> legacy_candidate (name server) n = false -> l <> n) as Hne.
  { intros l n Hll%Hleg Hn ->. congruence. }
  assert (forall l, legacy = Some l -> is_valid_server_identifier (name server) = true -> l <> name server) as Hnv.
  { intros l Hll Hv ->. apply Hleg in Hll. unfold legacy_candidate in Hll. by rewrite Hv in Hll. }
  assert (forall (x : gmap string Value) n, legacy_candidate (name server) n = false ->
    delete_some x legacy !! n = x !! n) as Hdel.
  { intros x n Hn. destruct legacy as [l|]; [|done]. cbn. apply lookup_delete_ne. by eapply Hne. }
  assert (forall (x : gmap string Value) (k n : string), delete k x !! n = x !! n \/ delete k x !! n = None) as Hor.
  { intros x k n. destruct (decide (k = n)) as [->|]; [right; apply lookup_delete_eq|left; by apply lookup_delete_ne]. }
  destruct (assigned executor server) eqn:Ha.
  - destruct (override_of server executor) as [o|] eqn:Ho; [|destruct (legacy ≫= _) as [[l e]|] eqn:Hle].
    + destruct (_ && _) eqn:Hb; [by apply andb_true_iff in Hb as [? _]|].
      apply rbind_ok in H as (e & _ & [= <- <-]). split_and!.
      * intros n Hn Hc. rewrite lookup_insert_ne by done. by apply Hdel.
      * intros n Hn. rewrite lookup_insert_ne by done. destruct legacy; [apply Hor|by left].
      * intros _. split; [|done]. intros _. left. rewrite lookup_insert_eq. eauto.
    + injection H as <- <-. apply bind_Some in Hle as (l' & -> & Hl'). apply fmap_Some in Hl' as (? & _ & [= -> ->]).
      split_and!.
      * intros n Hn Hc. rewrite lookup_insert_ne by done. apply lookup_delete_ne. by eapply Hne.
      * intros n Hn. rewrite lookup_insert_ne by done. apply Hor.
      * intros _. split; [|done]. intros _. left. rewrite lookup_insert_eq. eauto.
    + destruct (_ && _) eqn:Hb.
      * injection H as <- <-. split_and!; [done|by left|]. intros _. split; [|done]. intros _. right. split; [done|].
        apply andb_true_iff in Hb as [_ Hb]. unfold unchanged in Hb. destruct (current !! name server); [eauto|done].
      * apply rbind_ok in H as (e & _ & [= <- <-]). split_and!.
        -- intros n Hn Hc. rewrite lookup_insert_ne by done. by apply Hdel.
        -- intros n Hn. rewrite lookup_insert_ne by done. destruct legacy; [apply Hor|by left].
        -- intros _. split; [|done]. intros _. left. rewrite lookup_insert_eq. eauto.
  - destruct (next !! name server) as [x|] eqn:Hx; [|destruct legacy as [l|]]; injection H as <- <-.
    + split_and!; [by intros n Hn _; apply lookup_delete_ne|by intros n Hn; left; apply lookup_delete_ne|].
      intros _. split; [done|]. intros _. apply lookup_delete_eq.
    + split_and!; [intros n Hn Hc; apply lookup_delete_ne; by eapply Hne|intros n _; apply Hor|].
      intros Hv. split; [done|]. intros _. rewrite lookup_delete_ne; [done|]. by eapply Hnv.
    + split_and!; [done|by left|]. by intros _.
Qed.

Lemma plan_removal_step (next : gmap string Value) affected removed next' affected' :
  plan_removal next affected removed = Ok (next', affected') ->
  (forall n, n <> removed -> legacy_candidate removed n = false -> next' !! n = next !! n) /\
  (forall n, is_valid_server_identifier n = true -> n <> removed -> next' !! n = next !! n) /\
  next' !! removed = None.
Proof.
  unfold plan_removal. destruct (List.filter _ _) as [|l [|]] eqn:E; [| |done]; intros [= <- <-].
  - split_and!; [by intros; apply lookup_delete_ne|by intros; apply lookup_delete_ne|apply lookup_delete_eq].
  - assert (legacy_candidate removed l = true) as Hl.
    { assert (In l (List.filter (legacy_candidate removed) (map_to_list (delete removed next)).*1)) as Hin
        by (rewrite E; by left). by apply filter_In in Hin as [_ ?]. }
    assert (is_valid_server_identifier l = false) as Hv.
    { unfold legacy_candidate in Hl. by destruct (is_valid_server_identifier l). }
    split_and!.
    + intros n Hn Hc. rewrite lookup_delete_ne by congruence. by apply lookup_delete_ne.
    + intros n Hn Hr. rewrite lookup_delete_ne by congruence. by apply lookup_delete_ne.
    + destruct (decide (l = removed)) as [->|]; [apply lookup_delete_eq|].
      rewrite lookup_delete_ne by done. apply lookup_delete_eq.
Qed.

(** A save touches the servers it names and the legacy names of these, and nothing else in
    the file. *)
Theorem plan_touches_named_servers executor current request next affected n :
  plan executor current request = Ok (next, affected) ->
  (forall target, target ∈ (name <$> servers request) ++ removed_servers request ->
     n <> target /\ legacy_candidate target n = false) ->
  next !! n = current !! n.
Proof.
  unfold plan_servers_for_executor. intros ([mid aff] & H1 & H2)%rbind_ok Hn.
  assert (mid !! n = current !! n) as Hmid.
  { change (mid, aff).1 with mid. apply (try_fold_invariant (fun p => p.1 !! n = current !! n) _ _ _ _) in H1; [done| |done].
    intros [x ax] server [y ay] Hin Hx Hy. destruct (plan_server_step _ _ _ _ _ _ _ Hy) as (Hs & _ & _). cbn in *.
    destruct (Hn (name server)) as [? ?]; [apply elem_of_app; left; by apply list_elem_of_fmap; exists server|].
    by rewrite Hs. }
  apply (try_fold_invariant (fun p => p.1 !! n = current !! n) _ _ _ _) in H2; [done| |done].
  intros [x ax] removed [y ay] Hin Hx Hy. destruct (plan_removal_step _ _ _ _ _ Hy) as (Hs & _ & _). cbn in *.
  destruct (Hn removed) as [? ?]; [by apply elem_of_app; right|]. by rewrite Hs.
Qed.

Lemma try_fold_app {A B E} (f : A -> B -> result A E) l k a a' :
  try_fold f a (l ++ k) = Ok a' <-> exists m, try_fold f a l = Ok m /\ try_fold f m k = Ok a'.
Proof.
  revert a. induction l as [|b l IH]; intros a; cbn; [naive_solver|]. rewrite rbind_ok.
  split; [intros (x & Hx & (m & ? & ?)%IH)|intros (m & (x & Hx & Hl)%rbind_ok & Hk)].
  - exists m. split; [|done]. apply rbind_ok. eauto.
  - exists x. split; [done|]. apply IH. eauto.
Qed.

Lemma valid_not_legacy target n : is_valid_server_identifier n = true -> legacy_candidate target n = false.
Proof. unfold legacy_candidate. by intros ->. Qed.

(** After a save, an agent has every server that is assigned to it and none of the servers
    of the request that are not, or that are removed. *)
Theorem plan_does_what_is_asked executor current request next affected server :
  plan executor current request = Ok (next, affected) ->
  NoDup (name <$> servers request) -> server ∈ servers request ->
  is_valid_server_identifier (name server) = true ->
  (name server ∉ removed_servers request ->
     (assigned executor server = true -> is_Some (next !! name server)) /\
     (assigned executor server = false -> next !! name server = None)) /\
  (name server ∈ removed_servers request -> next !! name server = None).
Proof.
  unfold plan_servers_for_executor. intros ([mid aff] & H1 & H2)%rbind_ok Hnd Hin Hv.
  assert (forall removals (x : gmap string Value * list string) y,
    try_fold (fun '(next, affected) removed => plan_removal next affected removed) x removals = Ok y ->
    (name server ∉ removals -> y.1 !! name server = x.1 !! name server) /\
    (x.1 !! name server = None \/ name server ∈ removals -> y.1 !! name server = None)) as Hrem.
  { induction removals as [|r removals IH]; intros x y; cbn.
    - intros [= <-]. split; [done|]. by intros [?|?%elem_of_nil].
    - intros ([z az] & Hz & Hy)%rbind_ok. destruct x as [x ax].
      destruct (plan_removal_step _ _ _ _ _ Hz) as (_ & Hkeep & Hgone). destruct (IH _ _ Hy) as [I1 I2]. cbn in *.
      split.
      + intros [Hne Hr]%not_elem_of_cons. rewrite I1 by done. by apply Hkeep.
      + intros Hor. destruct (decide (name server = r)) as [He|Hne]; [apply I2; left; by rewrite He|].
        apply I2. destruct Hor as [Hx|Hr]; [left; by rewrite Hkeep|].
        apply elem_of_cons in Hr as [?|?]; [done|by right]. }
  destruct (Hrem _ _ _ H2) as [R1 R2]. cbn [fst] in R1, R2. split; [|intros Hr; apply R2; by right].
  intros Hr. rewrite R1 by done. clear R1 R2 H2 Hrem.
  apply list_elem_of_split in Hin as (l1 & l2 & Hl). rewrite Hl in H1, Hnd.
  rewrite fmap_app, fmap_cons in Hnd. apply NoDup_app in Hnd as (_ & Hd1 & Hnd2).
  apply NoDup_cons in Hnd2 as [Hd2 _].
  apply try_fold_app in H1 as ([x ax] & Hx & ([y ay] & Hy & Hz)%rbind_ok).
  assert (forall l a b, name server ∉ name <$> l ->
    try_fold (fun '(next, affected) server =>
                plan_server routes current_slack slack_launcher executor current next affected server) a l = Ok b ->
    b.1 !! name server = a.1 !! name server) as Hkeep.
  { intros l a b Hn Hf. apply (try_fold_invariant (fun p => p.1 !! name server = a.1 !! name server) _ _ _ _) in Hf; [done| |done].
    intros [u au] other [w aw] Ho Hu Hw. cbn in *. destruct (plan_server_step _ _ _ _ _ _ _ Hw) as (Hs & _ & _).
    rewrite Hs; [done| |by apply valid_not_legacy]. intros He. apply Hn, list_elem_of_fmap. by exists other. }
  assert (x !! name server = current !! name server) as Hxc.
  { apply (Hkeep l1 (current, []) (x, ax)); [|done]. intros Hn. apply (Hd1 _ Hn). by left. }
  destruct (plan_server_step _ _ _ _ _ _ _ Hy) as (_ & _ & Hdo). destruct (Hdo Hv) as [Do1 Do2].
  assert (mid !! name server = y !! name server) as -> by (by apply (Hkeep l2 (y, ay) (mid, aff))).
  split; [|done]. intros [?|[-> Hc]]%Do1; [done|]. by rewrite Hxc.
Qed.

(** ** Validation *)

Context (agent_for : BaseCodingAgent -> bool).

(** A request that passes without appeal to a legacy entry can be given to every agent: its
    plan fails only where the files have several legacy names for one server, or where a
    definition is not an object. *)
Theorem validated_request_can_be_planned request executor current e :
  validate_write_request agent_for request = Ok tt ->
  plan executor current request = Err e ->
  (exists n, e = AmbiguousLegacy n) \/ e = NotMaterialized NotAnObject.
Proof.
  intros Hv Hp.
  assert (forall server, server ∈ servers request -> forall a, a ∈ assignments server ->
    incompatibility_reason a (definition server) = None) as Hc.
  { unfold validate_write_request, validate_write_request_with in Hv. apply rbind_ok in Hv as (names & Hv & _).
    intros server (l1 & l2 & Hl)%list_elem_of_split a Ha. rewrite Hl in Hv.
    apply try_fold_app in Hv as (n1 & _ & (n2 & Hs & _)%rbind_ok). unfold validate_server in Hs.
    destruct (_ && _); [done|]. case_bool_decide; [done|]. case_bool_decide; [done|].
    apply rbind_ok in Hs as ([] & Hs & _). apply list_elem_of_split in Ha as (a1 & a2 & Ha). rewrite Ha in Hs.
    apply try_fold_app in Hs as ([] & _ & ([] & Hs & _)%rbind_ok). unfold validate_executor in Hs.
    destruct (negb (agent_for a)); [done|]. by destruct (incompatibility_reason a (definition server)). }
  assert (forall {A B} (f : A -> B -> result A PlanError) l a,
    (forall a b e, b ∈ l -> f a b = Err e -> (exists n, e = AmbiguousLegacy n) \/ e = NotMaterialized NotAnObject) ->
    try_fold f a l = Err e -> (exists n, e = AmbiguousLegacy n) \/ e = NotMaterialized NotAnObject) as Hfold.
  { intros A B f l. induction l as [|b l IH]; intros a Hf; cbn; [done|].
    intros [Hb|(x & _ & Hl)]%rbind_err; [by eapply Hf; [left|]|].
    eapply IH; [|done]. intros ? ? ? ?. apply Hf. by right. }
  unfold plan_servers_for_executor in Hp. apply rbind_err in Hp as [Hp|(x & _ & Hp)].
  - eapply Hfold; [|exact Hp]. clear Hp. intros [next affected] server e' Hin He. unfold plan_server in He.
    apply rbind_err in He as [He|(legacy & _ & He)].
    + left. unfold legacy_name_for_server in He. destruct (current !! name server); [done|].
      destruct (List.filter _ _) as [|? [|]]; [done..|]. injection He as <-. eauto.
    + destruct (assigned executor server) eqn:Ha.
      2:{ destruct (next !! name server); [done|]. by destruct legacy. }
      assert (incompatibility_reason executor (definition server) = None) as Hi.
      { eapply Hc; [done|]. unfold assigned in Ha. by apply bool_decide_eq_true in Ha. }
      right. assert (forall o e0, materialize executor (definition server) o = Err e0 -> e0 = NotAnObject) as Hm.
      { intros o e0. unfold materialize_definition. rewrite Hi. destruct o; [done|].
        destruct (as_object _); [|by intros [= <-]]. destruct (transport (definition server)) eqn:Ht; try done.
        unfold incompatibility_reason in Hi. rewrite Ht in Hi. destruct (_ && _) in Hi; [done|].
        by destruct (_ && _) in Hi. }
      destruct (override_of server executor) as [o|]; [|destruct (legacy ≫= _) as [[l x]|]; [done|]];
        (destruct (_ && _) in He; [done|]);
        apply rbind_err in He as [He|(x & _ & He)]; try done;
        destruct (materialize executor (definition server) _) as [|e0] eqn:Hx in He; try done;
        injection He as <-; by rewrite (Hm _ _ Hx).
  - eapply Hfold; [|exact Hp]. clear Hp. intros [next affected] removed e' _ He. left. unfold plan_removal in He.
    destruct (List.filter _ _) as [|? [|]]; [done..|]. injection He as <-. eauto.
Qed.

End Facts.
End SharedMcpFacts.

(** * Sample files *)
Module SampleServers.
Import SharedMcpFacts.

Notation Value := (Value Z).
Notation Map := (Map Z).

Definition routes : gmap string string := {["https://slack.example/mcp" := "http://127.0.0.1:4100/mcp"]}.
Definition to_string (v : Value) : string :=
  match field v "url" with Some (VString s) => s | _ => "?" end.

Notation plan := (plan_servers_for_executor (Num := Z) routes None None).
Notation reconcile := (reconcile_snapshots (Num := Z) routes None None to_string).

Definition headers : Map := [("Authorization", VString "Bearer key"); ("X-Key", VString "${KEY}")].

Definition remote : Value :=
  VObject [("type", VString "http"); ("url", VString "https://slack.example/mcp"); ("headers", VObject headers)].

Lemma route_roundtrip_witness :
  public_mcp_url (route_mcp_url "https://slack.example/mcp" routes) routes = "https://slack.example/mcp".
Proof.
  apply (route_roundtrip routes "https://slack.example/mcp").
  - intros p p' local Hp Hp'. unfold routes in *.
    apply lookup_singleton_Some in Hp as [<- _]. by apply lookup_singleton_Some in Hp' as [<- _].
  - vm_compute. discriminate.
Defined.

Lemma written_servers_are_read_witness :
  exists config, set_mcp_servers_in_config (VObject [("theme", VString "dark")] : Value) ["mcp"; "servers"]
                   {["slack" := remote]} = Some config /\
    mcp_servers_from_config config ["mcp"; "servers"] = {["slack" := remote]} /\
    field config "theme" = Some (VString "dark").
Proof.
  eexists. split; [reflexivity|].
  destruct (written_servers_are_read (VObject [("theme", VString "dark")] : Value) _ ["mcp"; "servers"]
              {["slack" := remote]} eq_refl) as [H1 H2].
  split; [exact H1|]. rewrite (H2 "mcp" "theme"); [reflexivity|reflexivity|discriminate|by eexists].
Defined.

(** Codex gets the loopback route, and its header from the environment. *)
Lemma materialized_entry_reads_back_witness :
  exists e, materialize_definition routes Codex (canonical_definition routes remote) None = Ok e /\
    field e "url" = Some (VString "http://127.0.0.1:4100/mcp") /\
    field e "env_http_headers" = Some (VObject [("X-Key", VString "KEY")]) /\
    same_definition (canonical_definition routes e) (canonical_definition routes remote).
Proof.
  eexists. split; [vm_compute; reflexivity|]. split; [vm_compute; reflexivity|]. split; [vm_compute; reflexivity|].
  apply (materialized_entry_reads_back routes Codex remote).
  - vm_compute. reflexivity.
  - intros H. vm_compute in H. discriminate.
  - intros u Hu. vm_compute in Hu. injection Hu as <-. split; vm_compute; reflexivity.
  - intros _ H. vm_compute in H. discriminate.
  - vm_compute. reflexivity.
Defined.

Definition shared (n : string) (agents : list BaseCodingAgent) (e : Value) : SharedMcpServerInput :=
  {| name := n; display_name := None; definition := canonical_definition routes e;
     assignments := agents; native_overrides := [] |}.

Definition request : SharedMcpWriteRequest :=
  {| servers := [shared "slack" [Codex; ClaudeCode] remote]; removed_servers := [] |}.

Definition mine : gmap string Value := {["mine" := VObject [("command", VString "run")]]}.

Definition planned : gmap string Value := match plan Codex mine request with Ok (next, _) => next | Err _ => ∅ end.

Lemma planned_ok : plan Codex mine request = Ok (planned, ["slack"]).
Proof. vm_compute. reflexivity. Qed.

Lemma plan_touches_named_servers_witness :
  planned !! "mine" = mine !! "mine" /\ is_Some (mine !! "mine").
Proof.
  split; [|by eexists].
  apply (plan_touches_named_servers routes None None Codex mine request planned ["slack"] "mine" planned_ok).
  intros target ->%list_elem_of_singleton. by vm_compute.
Defined.

Lemma plan_does_what_is_asked_witness : is_Some (planned !! "slack").
Proof.
  apply (plan_does_what_is_asked routes None None Codex mine request planned ["slack"]
           (shared "slack" [Codex; ClaudeCode] remote) planned_ok).
  - apply NoDup_singleton.
  - by left.
  - reflexivity.
  - by intros ?%elem_of_nil.
  - reflexivity.
Defined.

(** Two legacy names of one server cannot be told apart. *)
Definition twice : gmap string Value := <["my server" := remote]> {["my.server" := remote]}.
Definition ambiguous : SharedMcpWriteRequest :=
  {| servers := [shared "my_server" [ClaudeCode] remote]; removed_servers := [] |}.

Lemma validated_request_can_be_planned_witness :
  plan ClaudeCode twice ambiguous = Err (AmbiguousLegacy "my_server") /\
  ((exists n, AmbiguousLegacy "my_server" = AmbiguousLegacy n) \/
   AmbiguousLegacy "my_server" = NotMaterialized NotAnObject).
Proof.
  split; [by vm_compute|].
  apply (validated_request_can_be_planned routes None None (fun _ => true) ambiguous ClaudeCode twice);
    by vm_compute.
Defined.

Lemma gateway_capability_is_not_shown_witness :
  let gateway : Value := VObject [("url", VString "https://host/mcp-gateway/a");
                                  ("http_headers", VObject [("authorization", VString "Bearer key")])] in
  let source := {| ns_executor := Codex; ns_config_path := "c"; server_name := "a"; entry := gateway;
                   ns_fingerprint := None |} in
  no_capability (entry (redact_gateway_source routes source)) "http_headers".
Proof.
  intros gateway source.
  destruct (gateway_capability_is_not_shown routes None None source "a") as [H _].
  apply H; [vm_compute; by eexists|]. right. by left.
Defined.

(** ** Where reading and writing part *)

Definition file (agent : BaseCodingAgent) (l : list (string * Value)) : NativeProfileSnapshot :=
  {| executor := agent; config_path := None; read_error := None; native_servers := list_to_map l |}.

(** A disabled entry is passed on as it is.  Its headers under Codex's name for them are not
    looked for in the definition that is shown, though they are in the source. *)
Definition disabled : Value :=
  VObject [("enabled", VBool false); ("url", VString "https://host/mcp-gateway/a");
           ("http_headers", VObject [("Authorization", VString "Bearer secret")])].

Lemma disabled_gateway_entry_leaks :
  (fun s => (field (value (s_definition s)) "http_headers",
             (fun src => field (entry src) "http_headers") <$> s_native_sources s))
    <$> r_servers (reconcile [file Codex [("a", disabled)]])
  = [(Some (VObject [("Authorization", VString "Bearer secret")]),
      [Some (VObject [("Authorization", VString REDACTED)])])].
Proof. by vm_compute. Qed.

(** A server with the SSE transport whose URL does not say so is given to Gemini without its
    transport: what was one server before the save is in conflict with itself after it. *)
Definition sse : Value := VObject [("type", VString "sse"); ("url", VString "https://host/events")].

Definition saved (agent : BaseCodingAgent) : NativeProfileSnapshot :=
  match plan agent ∅ {| servers := [shared "a" [ClaudeCode; Gemini] sse]; removed_servers := [] |} with
  | Ok (next, _) => file agent (map_to_list next)
  | Err _ => file agent []
  end.

Lemma sse_type_is_lost :
  (fun c => (c_name c, (fun v => transport (v_definition v)) <$> variants c, c_message c))
    <$> conflicts (reconcile [saved ClaudeCode; saved Gemini])
  = [("a", [Http; Sse], DifferentDefinitions)].
Proof. by vm_compute. Qed.

End SampleServers.
