(* ===== verification/Shell.v ===== *)
(** * Categories of shell commands

    crates/executors/src/logs/utils/shell_command_parsing.rs: the category a command is
    shown under, which looks through shells that run it ([bash -lc '...']) and at
    redirections into files.  The tokens of a command are found by the crate shlex, a
    parameter, as are Unicode's letters and lower case. *)
From S2P Require Import Prelude Text Format Redact.
From Stdlib Require Import Ascii.
Import Redact.

Module Shell.

(* crates/executors/src/logs/utils/shell_command_parsing.rs:7-19 CommandCategory *)
Inductive CommandCategory := CcRead | CcSearch | CcEdit | CcFetch | CcOther.

(** [shlex::Shlex::new(s).collect()] and [str::to_lowercase]. *)
Class ShellLibs := {
  shlex : string -> list string;
  to_lowercase : string -> string;
}.

(** [s.rsplit(c).next()] *)
Definition last_piece (c : ascii) (s : string) : string := default s (last (split_char c s)).

(** [s.find(|c| c.is_whitespace()).unwrap_or(s.len())]: no continuation byte starts a
    white-space character, so looking at every byte is looking at every character. *)
Fixpoint find_white (s : string) : nat :=
  match s with
  | EmptyString => O
  | String _ s' => match white_width s with O => S (find_white s') | S _ => O end
  end.

Fixpoint take_while (f : string -> bool) (l : list string) : list string :=
  match l with
  | [] => []
  | x :: l => if f x then x :: take_while f l else []
  end.

Definition first_char (s : string) : option ascii := String.get 0 s.

Section Shell.
Context `{!CharClass} `{!ShellLibs}.

(* crates/executors/src/logs/utils/shell_command_parsing.rs:170-180 strip_quotes *)
Definition strip_quotes (s : string) : string :=
  let s := trim s in
  if (2 <=? String.length s)%nat then
    match first_char s, last_char s with
    | Some first, Some last =>
        if (bool_decide (first = "034"%char) || bool_decide (first = "'"%char)) && bool_decide (first = last)
        then take_bytes (String.length s - 2) (drop_bytes 1 s)
        else s
    | _, _ => s
    end
  else s.

(** Every turn of the loop consumes the dash it found, so the length is fuel enough. *)
(* crates/executors/src/logs/utils/shell_command_parsing.rs:146-167 extract_command_after_c_flag *)
Fixpoint command_after_c (fuel : nat) (remaining : string) : option string :=
  match fuel with
  | O => None
  | S fuel =>
      '(_, after_dash) ← split_once "-" remaining;
      let flags := sconcat (take_while is_alphabetic (chars after_dash)) in
      let rest := drop_bytes (String.length flags) after_dash in
      if contains_char "c" flags then Some (strip_quotes (trim_start rest))
      else command_after_c fuel rest
  end.

Definition extract_command_after_c_flag (args : string) : option string :=
  command_after_c (String.length args) args.

(** One turn of the loop: the command inside, if there is one. *)
(* crates/executors/src/logs/utils/shell_command_parsing.rs:118-136 unwrap_shell_command *)
Definition unwrap_once (remaining : string) : option string :=
  let trimmed := trim_start remaining in
  let first_word_end := find_white trimmed in
  let first_word := take_bytes first_word_end trimmed in
  let cmd_name := last_piece "/" first_word in
  if bool_decide (cmd_name ∈ ["sh"; "bash"; "zsh"])
  then extract_command_after_c_flag (drop_bytes first_word_end trimmed)
  else None.

(** A turn that goes on leaves a shorter command ([unwrap_finishes]). *)
(* crates/executors/src/logs/utils/shell_command_parsing.rs:115-142 unwrap_shell_command *)
Fixpoint unwrap_fuel (fuel : nat) (remaining : string) : string :=
  match fuel, unwrap_once remaining with
  | S fuel, Some cmd_str => unwrap_fuel fuel cmd_str
  | _, _ => remaining
  end.

Definition unwrap_shell_command (command : string) : string :=
  unwrap_fuel (String.length command) command.

(* crates/executors/src/logs/utils/shell_command_parsing.rs:100-105 redirect_target *)
Definition redirect_target (token : string) : option string :=
  '(_, after) ← split_once ">" token;
  let after := default after (strip_prefix ">" after) in
  if String.eqb after "" then None else Some after.

(* crates/executors/src/logs/utils/shell_command_parsing.rs:108-110 is_file_target *)
Definition is_file_target (target : string) : bool :=
  negb (starts_with "&" target) && negb (String.eqb target "/dev/null").

Definition ends_with_char (c : ascii) (s : string) : bool := bool_decide (last_char s = Some c).

(* crates/executors/src/logs/utils/shell_command_parsing.rs:77-94 has_file_redirect *)
Fixpoint file_redirect (tokens : list string) : bool :=
  match tokens with
  | [] => false
  | t :: rest =>
      match redirect_target t with
      | Some target => is_file_target target || file_redirect rest
      | None =>
          match ends_with_char ">" t, rest with
          | true, next :: rest' => is_file_target next || file_redirect rest'
          | _, _ => file_redirect rest
          end
      end
  end.

(* crates/executors/src/logs/utils/shell_command_parsing.rs:72-96 has_file_redirect *)
Definition has_file_redirect (command : string) : bool :=
  contains_char ">" command && file_redirect (shlex command).

(* crates/executors/src/logs/utils/shell_command_parsing.rs:23-65 CommandCategory::from_command *)
Definition from_command (command : string) : CommandCategory :=
  let command := trim command in
  if String.eqb command "" then CcOther
  else
    let command := unwrap_shell_command command in
    if has_file_redirect command then CcEdit
    else
      let cmd := to_lowercase
                   (match head (split_whitespace command) with
                    | Some s => last_piece "/" s
                    | None => ""
                    end) in
      if bool_decide (cmd ∈ ["cat"; "head"; "tail"; "zcat"; "gzcat"; "ls"]) then CcRead
      else if bool_decide (cmd ∈ ["grep"; "rg"; "find"; "awk"]) then CcSearch
      else if String.eqb cmd "sed" then if contains "-i" command then CcEdit else CcRead
      else if bool_decide (cmd ∈ ["tee"; "truncate"; "chmod"; "chown"; "rm"; "mv"; "cp"; "touch"; "ln"])
      then CcEdit
      else if bool_decide (cmd ∈ ["curl"; "wget"]) then CcFetch
      else CcOther.

(** ** The loops finish *)

Lemma drop_bytes_shorter n s : (String.length (drop_bytes n s) <= String.length s)%nat.
Proof. rewrite drop_bytes_length. lia. Qed.

Lemma take_bytes_shorter n s : (String.length (take_bytes n s) <= String.length s)%nat.
Proof. revert s. induction n as [|n IH]; intros [|c s]; cbn; try lia. specialize (IH s). lia. Qed.

Lemma trim_start_shorter s : (String.length (trim_start s) <= String.length s)%nat.
Proof. destruct (trim_start_suffix s) as [a Ha]. rewrite Ha at 2. rewrite slength_app. lia. Qed.

Lemma trim_shorter s : (String.length (trim s) <= String.length s)%nat.
Proof. destruct (trim_infix s) as (a & b & Hs). rewrite Hs at 2. rewrite !slength_app. lia. Qed.

Lemma strip_quotes_shorter s : (String.length (strip_quotes s) <= String.length s)%nat.
Proof.
  pose proof (trim_shorter s). unfold strip_quotes. repeat case_match; try done.
  pose proof (take_bytes_shorter (String.length (trim s) - 2) (drop_bytes 1 (trim s))).
  pose proof (drop_bytes_shorter 1 (trim s)). lia.
Qed.

Lemma command_after_c_shorter fuel : forall s cmd,
  command_after_c fuel s = Some cmd -> (String.length cmd < String.length s)%nat.
Proof.
  induction fuel as [|fuel IH]; intros s cmd; [done|]. cbn [command_after_c].
  destruct (split_once "-" s) as [[a b]|] eqn:Hs; [|done]. cbn [mbind option_bind].
  apply split_once_app in Hs as [-> _]. rewrite slength_app. cbn [String.length].
  set (n := String.length (sconcat _)). pose proof (drop_bytes_shorter n b) as Hd.
  case_match; [intros [= <-]|intros Hc%IH; lia].
  pose proof (strip_quotes_shorter (trim_start (drop_bytes n b))).
  pose proof (trim_start_shorter (drop_bytes n b)). lia.
Qed.

Lemma unwrap_once_shorter s cmd :
  unwrap_once s = Some cmd -> (String.length cmd < String.length s)%nat.
Proof.
  unfold unwrap_once. case_bool_decide; [|done]. intros Hc%command_after_c_shorter.
  pose proof (drop_bytes_shorter (find_white (trim_start s)) (trim_start s)).
  pose proof (trim_start_shorter s). lia.
Qed.

Lemma unwrap_fuel_enough fuel : forall s,
  (String.length s <= fuel)%nat -> unwrap_fuel fuel s = unwrap_shell_command s.
Proof.
  unfold unwrap_shell_command. induction fuel as [fuel IH] using (well_founded_induction lt_wf).
  intros s Hf. destruct fuel as [|fuel], s as [|c s]; cbn [String.length] in *; try lia; try done.
  cbn [unwrap_fuel]. destruct (unwrap_once (String c s)) as [cmd|] eqn:Hu; [|done].
  apply unwrap_once_shorter in Hu. cbn [String.length] in Hu.
  by rewrite (IH fuel), (IH (String.length s)) by lia.
Qed.

(** The loop of [unwrap_shell_command] finishes: what it returns is wrapped in no shell. *)
Theorem unwrap_finishes command : unwrap_once (unwrap_shell_command command) = None.
Proof.
  induction command as [s IH] using (induction_ltof1 _ String.length). unfold ltof in IH.
  unfold unwrap_shell_command. destruct (unwrap_once s) as [cmd|] eqn:Hu.
  - pose proof (unwrap_once_shorter _ _ Hu) as Hl.
    destruct (String.length s) as [|n] eqn:Hn; [lia|]. cbn [unwrap_fuel]. rewrite Hu.
    rewrite unwrap_fuel_enough by lia. apply IH. lia.
  - destruct (String.length s); cbn [unwrap_fuel]; by rewrite ?Hu.
Qed.

(** ** A command that a shell runs *)

Definition ascii_letter (c : ascii) : bool :=
  let n := N_of_ascii c in
  ((65 <=? n)%N && (n <=? 90)%N || (97 <=? n)%N && (n <=? 122)%N)%bool.

Definition quote (c : ascii) : Prop := c = "034"%char \/ c = "'"%char.

(** [Char::is_alphabetic] of the ASCII characters. *)
Class AsciiLetters : Prop :=
  ascii_letters c : (N_of_ascii c < 128)%N -> is_alphabetic (String c "") = ascii_letter c.
Context `{!AsciiLetters}.

Lemma letters_taken flags t :
  all_chars ascii_letter flags = true ->
  sconcat (take_while is_alphabetic (chars (flags +:+ String " " t))) = flags.
Proof.
  assert (forall c, (N_of_ascii c < 128)%N -> full (String c "")) as Hfull.
  { intros c Hc. cbn. unfold char_width. by rewrite (proj2 (N.ltb_lt _ 0xC0)) by lia. }
  induction flags as [|c flags IH]; cbn [all_chars]; intros Hl.
  - rewrite sapp_nil_l. change (String " " t) with (String " " "" +:+ t).
    rewrite (chars_cons (String " " "") t) by done. cbn [take_while]. by rewrite ascii_letters.
  - apply andb_true_iff in Hl as [Hc Hl].
    assert (N_of_ascii c < 128)%N as Hn.
    { unfold ascii_letter in Hc. destruct (N.lt_ge_cases (N_of_ascii c) 128) as [|Hge]; [done|].
      rewrite (proj2 (N.leb_gt _ 90)), (proj2 (N.leb_gt _ 122)), !andb_false_r in Hc by lia. done. }
    rewrite sapp_cons. change (String c (flags +:+ String " " t))
      with (String c "" +:+ (flags +:+ String " " t)).
    rewrite (chars_cons (String c "")) by exact (Hfull _ Hn). cbn [take_while]. rewrite ascii_letters, Hc by done.
    rewrite sconcat_cons, IH by done. done.
Qed.

Lemma quote_word q : quote q -> word_char q = true.
Proof. by intros [-> | ->]. Qed.

Lemma last_quoted q cmd : last_char (String q (cmd +:+ String q "")) = Some q.
Proof. rewrite <-sapp_cons. apply last_char_app. Qed.

Lemma strip_quotes_quoted q cmd : quote q -> strip_quotes (String q (cmd +:+ String q "")) = cmd.
Proof.
  intros Hq. pose proof (quote_word q Hq) as Hw. unfold strip_quotes.
  rewrite (trim_id q _ q Hw (last_quoted q cmd) Hw), last_quoted.
  cbn [String.length first_char String.get]. rewrite slength_app. cbn [String.length].
  rewrite (proj2 (Nat.leb_le _ _)) by lia. rewrite (bool_decide_true (q = q)) by done.
  assert (bool_decide (q = "034"%char) || bool_decide (q = "'"%char) = true) as ->
    by (apply orb_true_iff; rewrite !bool_decide_eq_true; done).
  cbn [andb drop_bytes]. replace (S (String.length cmd + 1) - 2)%nat with (String.length cmd) by lia.
  apply take_bytes_app.
Qed.

(** The command [shell -flags 'cmd'], or with double quotes. *)
Definition wrapped (shell flags : string) (q : ascii) (cmd : string) : string :=
  shell +:+ " -" +:+ flags +:+ " " +:+ String q (cmd +:+ String q "").

Lemma unwrap_wrapped shell flags q cmd :
  shell ∈ ["sh"; "bash"; "zsh"] -> all_chars ascii_letter flags = true ->
  contains_char "c" flags = true -> quote q -> unwrap_once (wrapped shell flags q cmd) = Some cmd.
Proof.
  intros Hs Hl Hc Hq. set (quoted := String q (cmd +:+ String q "")).
  assert (trim_start (String " " quoted) = quoted) as Ht.
  { unfold quoted, trim_start. cbn [String.length trim_start_fuel].
    change (white_width (String " " _)) with 1%nat. cbn [drop_bytes].
    by rewrite word_char_no_white by (by apply quote_word). }
  assert (extract_command_after_c_flag (String " " (String "-" (flags +:+ String " " quoted))) = Some cmd)
    as Hx.
  { unfold extract_command_after_c_flag. cbn [String.length command_after_c split_once].
    rewrite decide_False, decide_True by done. cbn [fmap option_fmap option_map mbind option_bind fst snd].
    rewrite letters_taken, Hc, drop_bytes_app, Ht by done. unfold quoted. by rewrite strip_quotes_quoted. }
  unfold unwrap_once, wrapped. fold quoted.
  repeat (apply elem_of_cons in Hs as [->|Hs]); [..|by apply not_elem_of_nil in Hs];
    rewrite !sapp_cons, !sapp_nil_l, trim_start_head by done; cbn -[quoted]; exact Hx.
Qed.

(** A command is shown under the same category whether it is run by a shell or not. *)
Theorem wrapping_keeps_category shell flags q cmd :
  shell ∈ ["sh"; "bash"; "zsh"] -> all_chars ascii_letter flags = true ->
  contains_char "c" flags = true -> quote q -> cmd <> "" -> trim cmd = cmd ->
  from_command (wrapped shell flags q cmd) = from_command cmd.
Proof.
  intros Hs Hl Hc Hq Hne Ht. pose proof (unwrap_wrapped _ _ _ cmd Hs Hl Hc Hq) as Hu.
  assert (trim (wrapped shell flags q cmd) = wrapped shell flags q cmd) as Hw.
  { assert (last_char (wrapped shell flags q cmd) = Some q) as Hlast.
    { unfold wrapped. do 4 (rewrite last_char_app_r by (by destruct flags)). apply last_quoted. }
    pose proof (quote_word q Hq). unfold wrapped in *.
    repeat (apply elem_of_cons in Hs as [->|Hs]); [..|by apply not_elem_of_nil in Hs];
      rewrite !sapp_cons, ?sapp_nil_l in *; by apply (trim_id _ _ q). }
  unfold from_command. rewrite Hw, Ht.
  rewrite (proj2 (String.eqb_neq (wrapped shell flags q cmd) "")).
  2: { unfold wrapped. set_unfold in Hs. by destruct Hs as [->|[->|[->|[]]]]. }
  rewrite (proj2 (String.eqb_neq cmd "") Hne).
  assert (unwrap_shell_command (wrapped shell flags q cmd) = unwrap_shell_command cmd) as ->; [|done].
  pose proof (unwrap_once_shorter _ _ Hu). unfold unwrap_shell_command at 1.
  destruct (String.length (wrapped shell flags q cmd)) as [|n]; [lia|]. cbn [unwrap_fuel]. rewrite Hu. apply unwrap_fuel_enough. lia.
Qed.

End Shell.

Module SampleShell.

#[local] Instance letters : CharClass := {|
  is_alphabetic c := match c with String c "" => ascii_letter c | _ => false end;
  is_numeric _ := false;
|}.
#[local] Instance libs : ShellLibs := {| shlex := split_whitespace; to_lowercase := to_ascii_lowercase |}.

Example categories :
  from_command <$> ["/bin/bash -lc 'ls -la'"; "zsh -c cat"; "echo x > /tmp/f"; "ls 2> /dev/null";
                    "sed -i s/a/b/ f"; "curl -s x"; "bash -lc"; ""]
  = [CcRead; CcRead; CcEdit; CcRead; CcEdit; CcFetch; CcOther; CcOther].
Proof. vm_compute. reflexivity. Qed.

#[local] Instance ascii : AsciiLetters.
Proof. by intros c _. Qed.

Lemma wrapping_keeps_category_witness :
  from_command (wrapped "bash" "lc" "'" "grep -r x .") = from_command "grep -r x .".
Proof. apply wrapping_keeps_category; try reflexivity; [set_solver|by right|done]. Defined.

End SampleShell.
End Shell.
