(* ===== verification/ClaudeTypes.v ===== *)
(** * Conversation entries and the messages of Claude Code

    [Module Logs] has the entries of a conversation, as every agent's log is normalised
    to them (crates/executors/src/logs/mod.rs), and [Module Wire] the lines Claude Code
    writes to its standard output (the data structures of
    crates/executors/src/executors/claude.rs).  Both are over the type [Value] of
    [serde_json::Value]; how serde reads and writes them is a parameter of the component
    that uses them. *)
From S2P Require Import Prelude CodexStderr Shell.

Module Logs.

(* crates/executors/src/logs/mod.rs:14-17 ToolResultValueType *)
Inductive ToolResultValueType := Markdown | Json.

(* crates/executors/src/logs/mod.rs:44-47 CommandExitStatus *)
Inductive CommandExitStatus := ExitCode (code : Z) | Success_ (success : bool).

(* crates/executors/src/logs/mod.rs:50-53 CommandRunResult *)
Record CommandRunResult := { exit_status : option CommandExitStatus; output : option string }.

(* crates/executors/src/logs/mod.rs:104-107 AnsweredQuestion *)
Record AnsweredQuestion := { aq_question : string; aq_answer : list string }.

(* crates/executors/src/logs/mod.rs:110-113 TokenUsageInfo *)
Record TokenUsageInfo := { total_tokens : Z; model_context_window : Z }.

(* crates/executors/src/logs/mod.rs:126-138 ToolStatus *)
Inductive ToolStatus :=
| Created
| Success
| Failed
| Denied (reason : option string)
| PendingApproval (approval_id : string)
| TimedOut.

(* crates/utils/src/approvals.rs:33-41 ApprovalStatus *)
Inductive ApprovalStatus :=
| AsPending
| AsApproved
| AsDenied (reason : option string)
| AsTimedOut.

(* crates/utils/src/approvals.rs:45-48 QuestionAnswer *)
Record QuestionAnswer := { qa_question : string; qa_answer : list string }.

(* crates/utils/src/approvals.rs:53-56 QuestionStatus *)
Inductive QuestionStatus := QsAnswered (answers : list QuestionAnswer) | QsTimedOut.

(* crates/executors/src/logs/mod.rs:141-150 ToolStatus::from_approval_status *)
Definition from_approval_status (status : ApprovalStatus) : option ToolStatus :=
  match status with
  | AsApproved => Some Created
  | AsDenied reason => Some (Denied reason)
  | AsTimedOut => Some TimedOut
  | AsPending => None
  end.

(* crates/executors/src/logs/mod.rs:152-157 ToolStatus::from_question_status *)
Definition from_question_status (status : QuestionStatus) : ToolStatus :=
  match status with QsAnswered _ => Success | QsTimedOut => TimedOut end.

(* crates/executors/src/logs/mod.rs:161-166 TodoItem *)
Record TodoItem := { td_content : string; td_status : string; td_priority : option string }.

(* crates/executors/src/logs/mod.rs:234-237 AskUserQuestionOption *)
Record AskUserQuestionOption := { op_label : string; op_description : string }.

(* crates/executors/src/logs/mod.rs:224-230 AskUserQuestionItem *)
Record AskUserQuestionItem := {
  qi_question : string;
  qi_header : string;
  qi_options : list AskUserQuestionOption;
  qi_multi_select : bool;
}.

(* crates/executors/src/logs/mod.rs:241-255 FileChange *)
Inductive FileChange :=
| FcWrite (content : string)
| FcDelete
| FcRename (new_path : string)
| FcEdit (unified_diff : string) (has_line_numbers : bool).

Section Entries.
Context {Value : Type}.

(* crates/executors/src/logs/mod.rs:20-24 ToolResult *)
Record ToolResult := { tr_type : ToolResultValueType; tr_value : Value }.

(* crates/executors/src/logs/mod.rs:171-220 ActionType *)
Inductive ActionType :=
| FileRead (path : string)
| FileEdit (path : string) (changes : list FileChange)
| CommandRun (command : string) (result : option CommandRunResult) (category : Shell.CommandCategory)
| Search (query : string)
| WebFetch (url : string)
| Tool (tool_name : string) (arguments : option Value) (result : option ToolResult)
| TaskCreate (description : string) (subagent_type : option string) (result : option ToolResult)
| PlanPresentation (plan : string)
| TodoManagement (todos : list TodoItem) (operation : string)
| AskUserQuestion (questions : list AskUserQuestionItem)
| OtherAction (description : string).

(* crates/executors/src/logs/mod.rs:74-100 NormalizedEntryType *)
Inductive NormalizedEntryType :=
| UserMessage
| UserFeedback (denied_tool : string)
| AssistantMessage
| ToolUse (tool_name : string) (action_type : ActionType) (status : ToolStatus)
| SystemMessage
| ErrorMessage (error_type : CodexStderr.NormalizedEntryError)
| Thinking
| Loading
| NextAction (failed : bool) (execution_processes : Z) (needs_setup : bool)
| TokenUsage (info : TokenUsageInfo)
| UserAnsweredQuestions (answers : list AnsweredQuestion).

(** The time of an entry is [None] in all of them: the message store adds it. *)
(* crates/executors/src/logs/mod.rs:116-122 NormalizedEntry *)
Record NormalizedEntry := {
  entry_type : NormalizedEntryType;
  content : string;
  metadata : option Value;
}.

End Entries.
#[global] Arguments ToolResult : clear implicits.
#[global] Arguments ActionType : clear implicits.
#[global] Arguments NormalizedEntryType : clear implicits.
#[global] Arguments NormalizedEntry : clear implicits.

End Logs.

Module Wire.
Import Logs.

(* crates/executors/src/executors/claude.rs:3682-3689 ClaudeTodoItem *)
Record ClaudeTodoItem := {
  ct_id : option string;
  ct_content : string;
  ct_status : string;
  ct_priority : option string;
}.

(* crates/executors/src/executors/claude.rs:3692-3695 ClaudeEditItem *)
Record ClaudeEditItem := { old_string : option string; new_string : option string }.

(* crates/executors/src/executors/claude.rs:3676-3679 AskUserQuestionInputOption *)
Record AskUserQuestionInputOption := { io_label : string; io_description : string }.

(* crates/executors/src/executors/claude.rs:3666-3672 AskUserQuestionInputItem *)
Record AskUserQuestionInputItem := {
  ii_question : string;
  ii_header : string;
  ii_options : list AskUserQuestionInputOption;
  ii_multi_select : bool;
}.

(* crates/executors/src/executors/claude.rs:3475-3486 ClaudeUsage *)
Record ClaudeUsage := {
  input_tokens : option Z;
  output_tokens : option Z;
  cache_creation_input_tokens : option Z;
  cache_read_input_tokens : option Z;
  service_tier : option string;
}.

(* crates/executors/src/executors/claude.rs:3491-3494 ClaudeModelUsage *)
Record ClaudeModelUsage := { context_window : option Z }.

(* crates/executors/src/executors/claude.rs:3467-3472 ClaudeMessageDelta *)
Record ClaudeMessageDelta := { md_stop_reason : option string; md_stop_sequence : option string }.

(* crates/executors/src/executors/claude.rs:3452-3464 ClaudeContentBlockDelta *)
Inductive ClaudeContentBlockDelta :=
| TextDelta (text : string)
| ThinkingDelta (thinking : string)
| SignatureDelta (signature : string)
| UnknownDelta.

(* crates/executors/src/executors/claude.rs:3360-3363 ClaudePlugin *)
Record ClaudePlugin := { pl_name : string; pl_path : string }.

Section Json.
Context {Value : Type}.

(* crates/executors/src/executors/claude.rs:3499-3631 ClaudeToolData *)
Inductive ClaudeToolData :=
| TodoWrite (todos : list ClaudeTodoItem)
| Task (subagent_type description prompt : option string)
| Glob (pattern : string) (path : option string) (limit : option Z)
| LS (path : string)
| Read (file_path : string)
| Bash (command : string) (description : option string)
| Grep (pattern : string) (output_mode path : option string)
| ExitPlanMode (plan : string)
| Edit (file_path : string) (old_string new_string : option string)
| MultiEdit (file_path : string) (edits : list ClaudeEditItem)
| Write (file_path content : string)
| NotebookEdit (notebook_path new_source edit_mode : string) (cell_id : option string)
| WebFetch_ (url : string) (prompt : option string)
| WebSearch (query : string) (num_results : option Z)
| Oracle (task : option string) (files : option (list string)) (context : option string)
| Mermaid (code : string)
| CodebaseSearchAgent (query path : option string) (include exclude : option (list string))
    (limit : option Z)
| UndoEdit (path : option string) (steps : option Z)
| TodoRead
| AskUserQuestion_ (questions : list AskUserQuestionInputItem)
| UnknownTool (data : gmap string Value).

(* crates/executors/src/executors/claude.rs:3401-3418 ClaudeContentItem *)
Inductive ClaudeContentItem :=
| Text (text : string)
| Thinking_ (thinking : string)
| ToolUse_ (id : string) (tool_data : ClaudeToolData)
| ToolResult_ (tool_use_id : string) (content : Value) (is_error : option bool).

(* crates/executors/src/executors/claude.rs:3378-3381 ClaudeMessageContent *)
Inductive ClaudeMessageContent :=
| ArrayContent (items : list ClaudeContentItem)
| TextContent (text : string).

(* crates/executors/src/executors/claude.rs:3366-3374 ClaudeMessage *)
Record ClaudeMessage := {
  id : option string;
  message_type : option string;
  role : string;
  model : option string;
  msg_content : ClaudeMessageContent;
  stop_reason : option string;
}.

(* crates/executors/src/executors/claude.rs:3422-3448 ClaudeStreamEvent *)
Inductive ClaudeStreamEvent :=
| MessageStart (message : ClaudeMessage)
| ContentBlockStart (index : Z) (content_block : ClaudeContentItem)
| ContentBlockDelta (index : Z) (delta : ClaudeContentBlockDelta)
| ContentBlockStop (index : Z)
| MessageDelta (delta : option ClaudeMessageDelta) (usage : option ClaudeUsage)
| MessageStop
| UnknownEvent.

(** The members of a [System] message. *)
(* crates/executors/src/executors/claude.rs:3208-3239 ClaudeJson::System *)
Record SystemFields := {
  subtype : option string;
  sys_session_id : option string;
  cwd : option string;
  tools : option (list Value);
  mcp_servers : list Value;
  sys_model : option string;
  api_key_source : option string;
  status : option string;
  slash_commands : list string;
  plugins : list ClaudePlugin;
  agents : list string;
  task_id : option string;
  sys_tool_use_id : option string;
  description : option string;
  task_type : option string;
  prompt : option string;
  summary : option string;
  last_tool_name : option string;
}.

(** The members of a [Result] message. *)
(* crates/executors/src/executors/claude.rs:3277-3296 ClaudeJson::Result *)
Record ResultFields := {
  res_subtype : option string;
  res_is_error : option bool;
  duration_ms : option Z;
  result : option Value;
  error : option string;
  num_turns : option Z;
  res_session_id : option string;
  model_usage : option (gmap string ClaudeModelUsage);
  res_usage : option ClaudeUsage;
}.

(** The members of a [ToolProgress] message; a floating-point number is its text. *)
(* crates/executors/src/executors/claude.rs:3331-3350 ClaudeJson::ToolProgress *)
Record ToolProgressFields := {
  tp_tool_use_id : option string;
  tp_tool_name : option string;
  tp_parent_tool_use_id : option string;
  elapsed_time_seconds : option string;
  heartbeat : option bool;
  tp_session_id : option string;
  tp_uuid : option string;
  tp_task_id : option string;
  tp_subagent_type : option string;
}.

(** Control messages are read by another part; here they carry the JSON of their members. *)
(* crates/executors/src/executors/claude.rs:3207-3357 ClaudeJson *)
Inductive ClaudeJson :=
| JSystem (m : SystemFields)
| JAssistant (message : ClaudeMessage) (session_id uuid : option string)
| JUser (message : ClaudeMessage) (session_id uuid : option string) (is_synthetic is_replay : bool)
| JToolUse (id tool_name : string) (tool_data : ClaudeToolData) (session_id : option string)
| JToolResult (result : Value) (is_error : option bool) (session_id : option string)
| JStreamEvent (event : ClaudeStreamEvent) (session_id parent_tool_use_id uuid : option string)
| JResult (m : ResultFields)
| JApprovalRequested (tool_call_id tool_name approval_id : string)
| JApprovalResponse (tool_call_id tool_name : string) (approval_status : ApprovalStatus)
| JQuestionResponse (tool_call_id tool_name : string) (question_status : QuestionStatus)
| JControlRequest (request_id : string) (request : Value)
| JControlResponse (response : Value)
| JControlCancelRequest (request_id : string)
| JRateLimitEvent (session_id : option string) (rate_limit_info : option Value)
| JToolProgress (m : ToolProgressFields)
| JUnknown (data : gmap string Value).

End Json.
#[global] Arguments ClaudeToolData : clear implicits.
#[global] Arguments ClaudeContentItem : clear implicits.
#[global] Arguments ClaudeMessageContent : clear implicits.
#[global] Arguments ClaudeMessage : clear implicits.
#[global] Arguments ClaudeStreamEvent : clear implicits.
#[global] Arguments SystemFields : clear implicits.
#[global] Arguments ResultFields : clear implicits.
#[global] Arguments ClaudeJson : clear implicits.

End Wire.
