(* ===== verification/Claude.v ===== *)
(** * The log of Claude Code

    The processor that turns the JSON lines of Claude Code (and of Amp, which writes the
    same format) into the entries of a conversation: crates/executors/src/executors/claude.rs,
    [ClaudeLogProcessor].  The state is the processor and the counter of entry indices it
    shares with the stderr processor, whose turns are part of a run; a line gives the
    patches it pushes.  serde's readers
    and writers, file paths, diffs and the images in tool results are the class
    [ClaudeLibs]. *)
From S2P Require Import Prelude Text Format Redact Json MsgStore PlainText CodexStderr Shell ClaudeTypes.
From Stdlib Require Import Ascii.
Import LogMsg Shell Logs Wire.

Module ClaudeLog.

(** Rust's string operations that only this file uses. *)

(** [s.split(p)] for a non-empty [p]; every piece but the last drops a match of [p]. *)
Fixpoint split_str_fuel (fuel : nat) (p s : string) : list string :=
  match fuel, split_once_str p s with
  | S fuel, Some (a, b) => a :: split_str_fuel fuel p b
  | _, _ => [s]
  end.
Definition split_str (p s : string) : list string := split_str_fuel (String.length s) p s.

Definition strip_suffix (p s : string) : option string :=
  let n := (String.length s - String.length p)%nat in
  if String.eqb (drop_bytes n s) p && (String.length p <=? String.length s)%nat
  then Some (take_bytes n s) else None.

Definition ends_with (p s : string) : bool := bool_decide (is_Some (strip_suffix p s)).

(** [s.trim_start_matches(p)] and [s.trim_end_matches(p)] for a non-empty [p]. *)
Fixpoint trim_start_matches (fuel : nat) (p s : string) : string :=
  match fuel, strip_prefix p s with
  | S fuel, Some s => trim_start_matches fuel p s
  | _, _ => s
  end.
Fixpoint trim_end_matches (fuel : nat) (p s : string) : string :=
  match fuel, strip_suffix p s with
  | S fuel, Some s => trim_end_matches fuel p s
  | _, _ => s
  end.

(** [s.trim_matches] of the two quote characters. *)
Definition is_quote (c : ascii) : bool := bool_decide (c = "'"%char) || bool_decide (c = "034"%char).
Fixpoint trim_quotes_start (s : string) : string :=
  match s with
  | String c s' => if is_quote c then trim_quotes_start s' else s
  | EmptyString => EmptyString
  end.
Fixpoint trim_quotes_end (s : string) : string :=
  match s with
  | EmptyString => EmptyString
  | String c s' =>
      match trim_quotes_end s' with
      | EmptyString => if is_quote c then EmptyString else String c EmptyString
      | t => String c t
      end
  end.
Definition trim_quotes (s : string) : string := trim_quotes_end (trim_quotes_start s).

Fixpoint repeat_str (n : nat) (s : string) : string :=
  match n with O => "" | S n => s +:+ repeat_str n s end.

(** What the processor uses of other crates and modules. *)
Class ClaudeLibs (Value : Type) := {
  value_null : Value;
  value_string : string -> Value;
  as_str : Value -> option string;
  value_to_string : Value -> string;
  value_from_str : string -> option Value;
  text_items : Value -> option (list string);
  amp_bash_result : string -> option (string * Z);
  json_from_str : string -> option (ClaudeJson Value);
  json_to_value : ClaudeJson Value -> Value;
  json_to_string : ClaudeJson Value -> string;
  item_to_value : ClaudeContentItem Value -> Value;
  tool_to_value : ClaudeToolData Value -> Value;
  tool_input : ClaudeToolData Value -> Value;
  data_to_string : gmap string Value -> string;
  make_path_relative : string -> string -> string;
  create_unified_diff : string -> string -> string -> string;
  rewrite_content_with_images : string -> Value -> option string;
}.

(* crates/executors/src/executors/claude.rs:1391-1396 HistoryStrategy *)
Inductive HistoryStrategy := Default | AmpResume.

#[global] Instance strategy_eq_dec : EqDecision HistoryStrategy.
Proof. solve_decision. Defined.

(* crates/executors/src/executors/claude.rs:1399-1399 DEFAULT_CLAUDE_CONTEXT_WINDOW *)
Definition DEFAULT_CLAUDE_CONTEXT_WINDOW : Z := 200000.
(* crates/executors/src/executors/claude.rs:1403-1403 CLAUDE_1M_CONTEXT_WINDOW *)
Definition CLAUDE_1M_CONTEXT_WINDOW : Z := 1000000.

(* crates/executors/src/executors/claude.rs:1412-1428 context_window_for_model *)
Definition context_window_for_model (model : string) : Z :=
  if bool_decide (model ∈ ["opus"; "sonnet"; "fable"; "claude-opus-5-5"; "claude-opus-5";
                           "claude-sonnet-5"; "claude-fable-5-1"])
     || contains "[1m]" model
  then CLAUDE_1M_CONTEXT_WINDOW else DEFAULT_CLAUDE_CONTEXT_WINDOW.

(* crates/executors/src/executors/claude.rs:1452-1456 RepeatedSystemMessage *)
Record RepeatedSystemMessage := { rs_entry_index : Z; rs_content : string; rs_count : Z }.

(* crates/executors/src/executors/claude.rs:1458-1464 RepeatedGrokCommand *)
Record RepeatedGrokCommand := {
  rg_entry_index : Z;
  rg_command : string;
  rg_count : Z;
  latest_tool_call_id : string;
  latest_completed : bool;
}.

(* crates/executors/src/executors/claude.rs:3124-3127 StreamingContentKind *)
Inductive StreamingContentKind := KText | KThinking.

(* crates/executors/src/executors/claude.rs:3129-3133 StreamingContentState *)
Record StreamingContentState := {
  kind : StreamingContentKind;
  buffer : string;
  sc_entry_index : option Z;
}.

(* crates/executors/src/executors/claude.rs:3064-3067 StreamingMessageState *)
Record StreamingMessageState := { sm_role : string; contents : gmap Z StreamingContentState }.

Section Processor.
Context {Value : Type} `{!ClaudeLibs Value} `{!CharClass} `{!ShellLibs}.

Abbreviation Entry := (NormalizedEntry Value).
Abbreviation Patch := (list (PatchOperation Entry)).

(* crates/executors/src/executors/claude.rs:3657-3662 ClaudeToolCallInfo *)
Record ClaudeToolCallInfo := {
  entry_index : Z;
  tool_name : string;
  tool_data : ClaudeToolData Value;
  info_content : string;
}.

(* crates/executors/src/executors/claude.rs:1431-1450 ClaudeLogProcessor *)
Record ClaudeLogProcessor := {
  model_name : option string;
  tool_map : gmap string ClaudeToolCallInfo;
  strategy : HistoryStrategy;
  streaming_messages : gmap string StreamingMessageState;
  streaming_message_id : option string;
  last_assistant_message : option string;
  main_model_name : option string;
  main_model_context_window : Z;
  context_tokens_used : Z;
  repeated_system_message : option RepeatedSystemMessage;
  repeated_grok_command : option RepeatedGrokCommand;
}.

(* crates/executors/src/executors/claude.rs:1474-1488 ClaudeLogProcessor::new_with_strategy *)
Definition new_with_strategy (strategy : HistoryStrategy) : ClaudeLogProcessor :=
  {| model_name := None; tool_map := ∅; strategy := strategy; streaming_messages := ∅;
     streaming_message_id := None; last_assistant_message := None; main_model_name := None;
     main_model_context_window := DEFAULT_CLAUDE_CONTEXT_WINDOW; context_tokens_used := 0;
     repeated_system_message := None; repeated_grok_command := None |}.

(** The processor and the counter of the [EntryIndexProvider] it holds. *)
Definition St : Type := ClaudeLogProcessor * Z.

Definition set_models (m mm : option string) (w : Z) (p : ClaudeLogProcessor) : ClaudeLogProcessor :=
  {| model_name := m; tool_map := tool_map p; strategy := strategy p;
     streaming_messages := streaming_messages p; streaming_message_id := streaming_message_id p;
     last_assistant_message := last_assistant_message p; main_model_name := mm;
     main_model_context_window := w; context_tokens_used := context_tokens_used p;
     repeated_system_message := repeated_system_message p;
     repeated_grok_command := repeated_grok_command p |}.
Definition set_tools (t : gmap string ClaudeToolCallInfo) (p : ClaudeLogProcessor) : ClaudeLogProcessor :=
  {| model_name := model_name p; tool_map := t; strategy := strategy p;
     streaming_messages := streaming_messages p; streaming_message_id := streaming_message_id p;
     last_assistant_message := last_assistant_message p; main_model_name := main_model_name p;
     main_model_context_window := main_model_context_window p; context_tokens_used := context_tokens_used p;
     repeated_system_message := repeated_system_message p;
     repeated_grok_command := repeated_grok_command p |}.
Definition set_streaming (m : gmap string StreamingMessageState) (i : option string)
    (p : ClaudeLogProcessor) : ClaudeLogProcessor :=
  {| model_name := model_name p; tool_map := tool_map p; strategy := strategy p;
     streaming_messages := m; streaming_message_id := i;
     last_assistant_message := last_assistant_message p; main_model_name := main_model_name p;
     main_model_context_window := main_model_context_window p; context_tokens_used := context_tokens_used p;
     repeated_system_message := repeated_system_message p;
     repeated_grok_command := repeated_grok_command p |}.
Definition set_last (l : option string) (p : ClaudeLogProcessor) : ClaudeLogProcessor :=
  {| model_name := model_name p; tool_map := tool_map p; strategy := strategy p;
     streaming_messages := streaming_messages p; streaming_message_id := streaming_message_id p;
     last_assistant_message := l; main_model_name := main_model_name p;
     main_model_context_window := main_model_context_window p; context_tokens_used := context_tokens_used p;
     repeated_system_message := repeated_system_message p;
     repeated_grok_command := repeated_grok_command p |}.
Definition set_tokens (n : Z) (p : ClaudeLogProcessor) : ClaudeLogProcessor :=
  {| model_name := model_name p; tool_map := tool_map p; strategy := strategy p;
     streaming_messages := streaming_messages p; streaming_message_id := streaming_message_id p;
     last_assistant_message := last_assistant_message p; main_model_name := main_model_name p;
     main_model_context_window := main_model_context_window p; context_tokens_used := n;
     repeated_system_message := repeated_system_message p;
     repeated_grok_command := repeated_grok_command p |}.
Definition set_repeated (s : option RepeatedSystemMessage) (g : option RepeatedGrokCommand)
    (p : ClaudeLogProcessor) : ClaudeLogProcessor :=
  {| model_name := model_name p; tool_map := tool_map p; strategy := strategy p;
     streaming_messages := streaming_messages p; streaming_message_id := streaming_message_id p;
     last_assistant_message := last_assistant_message p; main_model_name := main_model_name p;
     main_model_context_window := main_model_context_window p; context_tokens_used := context_tokens_used p;
     repeated_system_message := s; repeated_grok_command := g |}.

Definition set_system_repeat (s : option RepeatedSystemMessage) (p : ClaudeLogProcessor) :=
  set_repeated s (repeated_grok_command p) p.
Definition set_grok (g : option RepeatedGrokCommand) (p : ClaudeLogProcessor) :=
  set_repeated (repeated_system_message p) g p.

(** [entry_index_provider.next()] *)
Definition fresh_index (st : St) : Z * St := let '(i, c) := EntryIndex.next st.2 in (i, (st.1, c)).

Definition plain_entry (t : NormalizedEntryType Value) (content : string) : Entry :=
  {| Logs.entry_type := t; Logs.content := content; Logs.metadata := None |}.

(** An entry at a fresh index. *)
Definition add_entry (st : St) (entry : Entry) : St * Patch :=
  let '(i, st) := fresh_index st in (st, PlainText.add_normalized_entry i entry).

(** ** Repetitions *)

(* crates/executors/src/executors/claude.rs:1490-1497 ClaudeLogProcessor::is_grok_command *)
Definition is_grok_command (command : string) : bool :=
  bool_decide ((fun token => last_piece "/" (trim_quotes token)) <$> head (split_whitespace command)
               = Some "grok").

(* crates/executors/src/executors/claude.rs:1467-1467 MAX_INLINE_REPEAT_TICKS *)
Definition MAX_INLINE_REPEAT_TICKS : Z := 8.

(* crates/executors/src/executors/claude.rs:1499-1506 ClaudeLogProcessor::repeat_ticks *)
Definition repeat_ticks (count : Z) : string :=
  let repeat_count := saturating_sub count 1 in
  if repeat_count <=? MAX_INLINE_REPEAT_TICKS then repeat_str (Z.to_nat repeat_count) "✓"
  else "✓ ×" +:+ display repeat_count.

(* crates/executors/src/executors/claude.rs:1508-1512 ClaudeLogProcessor::add_grok_repeat_ticks *)
Definition add_grok_repeat_ticks (entry : Entry) (count : Z) : Entry :=
  if 1 <? count then
    {| Logs.entry_type := Logs.entry_type entry;
       Logs.content := Logs.content entry +:+ " " +:+ repeat_ticks count;
       Logs.metadata := Logs.metadata entry |}
  else entry.

(* crates/executors/src/executors/claude.rs:1514-1547 ClaudeLogProcessor::allocate_tool_entry_index *)
Definition allocate_tool_entry_index (st : St) (id : string) (tool_data : ClaudeToolData Value)
    : St * (Z * Z) :=
  match tool_data with
  | Bash command _ =>
      if negb (is_grok_command command) then let '(i, st) := fresh_index st in (st, (i, 1))
      else
        let fresh (_ : unit) :=
          let '(i, (p, c)) := fresh_index st in
          ((set_grok (Some {| rg_entry_index := i; rg_command := command; rg_count := 1;
                              latest_tool_call_id := id; latest_completed := false |}) p, c), (i, 1)) in
        match repeated_grok_command st.1 with
        | Some r =>
            if String.eqb (rg_command r) command && latest_completed r && (st.2 =? rg_entry_index r + 1)
            then
              let r := {| rg_entry_index := rg_entry_index r; rg_command := rg_command r;
                          rg_count := rg_count r + 1; latest_tool_call_id := id;
                          latest_completed := false |} in
              ((set_grok (Some r) st.1, st.2), (rg_entry_index r, rg_count r))
            else fresh tt
        | None => fresh tt
        end
  | _ => let '(i, st) := fresh_index st in (st, (i, 1))
  end.

(** [None]: the result is not shown. *)
(* crates/executors/src/executors/claude.rs:1549-1574 ClaudeLogProcessor::grok_repeat_count_for_result *)
Definition grok_repeat_count_for_result (p : ClaudeLogProcessor) (tool_call_id : string)
    (info : ClaudeToolCallInfo) (succeeded : bool) : ClaudeLogProcessor * option Z :=
  match tool_data info with
  | Bash command _ =>
      if negb (is_grok_command command) then (p, Some 1)
      else match repeated_grok_command p with
           | None => (p, Some 1)
           | Some r =>
               if negb (rg_entry_index r =? entry_index info) then (p, Some 1)
               else if negb (String.eqb (latest_tool_call_id r) tool_call_id) then (p, None)
               else (set_grok (Some {| rg_entry_index := rg_entry_index r; rg_command := rg_command r;
                                       rg_count := rg_count r;
                                       latest_tool_call_id := latest_tool_call_id r;
                                       latest_completed := succeeded |}) p,
                     Some (if succeeded then rg_count r else 1))
           end
  | _ => (p, Some 1)
  end.

(* crates/executors/src/executors/claude.rs:1576-1583 ClaudeLogProcessor::grok_repeat_count_for_update *)
Definition grok_repeat_count_for_update (p : ClaudeLogProcessor) (tool_call_id : string)
    (entry_index : Z) : Z :=
  match repeated_grok_command p with
  | Some r =>
      if (rg_entry_index r =? entry_index) && String.eqb (latest_tool_call_id r) tool_call_id
      then rg_count r else 1
  | None => 1
  end.

(* crates/executors/src/executors/claude.rs:1587-1620 ClaudeLogProcessor::push_collapsible_system_message *)
Definition push_collapsible_system_message (st : St) (content : string) (metadata : option Value)
    : St * Patch :=
  let entry text := {| Logs.entry_type := SystemMessage; Logs.content := text; Logs.metadata := metadata |} in
  let fresh (_ : unit) :=
    let '(i, (p, c)) := fresh_index st in
    ((set_system_repeat (Some {| rs_entry_index := i; rs_content := content; rs_count := 1 |}) p, c),
     PlainText.add_normalized_entry i (entry content)) in
  match repeated_system_message st.1 with
  | Some r =>
      if String.eqb (rs_content r) content && (st.2 =? rs_entry_index r + 1) then
        let r := {| rs_entry_index := rs_entry_index r; rs_content := rs_content r;
                    rs_count := rs_count r + 1 |} in
        ((set_system_repeat (Some r) st.1, st.2),
         PlainText.replace (rs_entry_index r) (entry (content +:+ " " +:+ repeat_ticks (rs_count r))))
      else fresh tt
  | None => fresh tt
  end.

(** ** Entries of tool calls *)

(* crates/executors/src/executors/claude.rs:1830-1861 ClaudeLogProcessor::normalize_claude_tool_result_value *)
Definition normalize_claude_tool_result_value (content : Value) : ToolResultValueType * Value :=
  let of_text s :=
    match value_from_str s with
    | Some parsed => (Logs.Json, parsed)
    | None => (Markdown, value_string s)
    end in
  match as_str content with
  | Some s => of_text s
  | None =>
      match text_items content with
      | Some ((_ :: _) as items) => of_text (join (nl +:+ nl) items)
      | _ => (Logs.Json, content)
      end
  end.

(* crates/executors/src/executors/claude.rs:3698-3725 ClaudeToolData::get_name *)
Definition get_name (t : ClaudeToolData Value) : string :=
  match t with
  | TodoWrite _ => "TodoWrite"
  | Task _ _ _ => "Task"
  | Glob _ _ _ => "Glob"
  | LS _ => "LS"
  | Read _ => "Read"
  | Bash _ _ => "Bash"
  | Grep _ _ _ => "Grep"
  | ExitPlanMode _ => "ExitPlanMode"
  | Edit _ _ _ => "Edit"
  | MultiEdit _ _ => "MultiEdit"
  | Write _ _ => "Write"
  | NotebookEdit _ _ _ _ => "NotebookEdit"
  | WebFetch_ _ _ => "WebFetch"
  | WebSearch _ _ => "WebSearch"
  | TodoRead => "TodoRead"
  | Oracle _ _ _ => "Oracle"
  | Mermaid _ => "Mermaid"
  | CodebaseSearchAgent _ _ _ _ _ => "CodebaseSearchAgent"
  | UndoEdit _ _ => "UndoEdit"
  | AskUserQuestion_ _ => "AskUserQuestion"
  | UnknownTool data => default "unknown" (data !! "name" ≫= as_str)
  end.

(** The label of an MCP tool: its server and its name. *)
(* crates/executors/src/executors/claude.rs:2099-2104 ClaudeLogProcessor::extract_action_type *)
Definition mcp_label (name : string) : string :=
  match split_str "__" name with
  | _ :: server :: tool :: _ => "mcp:" +:+ server +:+ ":" +:+ tool
  | _ => name
  end.

Definition is_mcp (name : string) : bool := starts_with "mcp__" name.

Definition edit_changes (file_path : string) (old new : option string) : list FileChange :=
  match old, new with
  | None, None => []
  | _, _ => [FcEdit (create_unified_diff file_path (default "" old) (default "" new)) false]
  end.

(* crates/executors/src/executors/claude.rs:1956-2123 ClaudeLogProcessor::extract_action_type *)
Definition extract_action_type (tool_data : ClaudeToolData Value) (worktree_path : string)
    : ActionType Value :=
  match tool_data with
  | Read file_path => FileRead (make_path_relative file_path worktree_path)
  | Edit file_path old new =>
      FileEdit (make_path_relative file_path worktree_path) (edit_changes file_path old new)
  | MultiEdit file_path edits =>
      FileEdit (make_path_relative file_path worktree_path)
        (concat ((fun e => edit_changes file_path (old_string e) (new_string e)) <$> edits))
  | Write file_path content => FileEdit (make_path_relative file_path worktree_path) [FcWrite content]
  | Bash command _ => CommandRun command None (from_command command)
  | Grep pattern _ _ => Search pattern
  | WebFetch_ url _ => WebFetch url
  | WebSearch query _ => WebFetch query
  | Task subagent_type description prompt =>
      TaskCreate (match description with Some d => d | None => default "" prompt end) subagent_type None
  | ExitPlanMode plan => PlanPresentation plan
  | NotebookEdit _ _ _ _ => Tool "NotebookEdit" (Some (tool_to_value tool_data)) None
  | TodoWrite todos =>
      TodoManagement
        ((fun t => {| td_content := ct_content t; td_status := ct_status t; td_priority := ct_priority t |})
           <$> todos) "write"
  | TodoRead => TodoManagement [] "read"
  | Glob pattern _ _ => Search pattern
  | LS _ => OtherAction "List directory"
  | Oracle _ _ _ => OtherAction "Oracle"
  | Mermaid _ => OtherAction "Mermaid diagram"
  | CodebaseSearchAgent _ _ _ _ _ => OtherAction "Codebase search"
  | UndoEdit _ _ => OtherAction "Undo edit"
  | AskUserQuestion_ questions =>
      AskUserQuestion
        ((fun q => {| qi_question := ii_question q; qi_header := ii_header q;
                      qi_options := (fun o => {| op_label := io_label o; op_description := io_description o |})
                                      <$> ii_options q;
                      qi_multi_select := ii_multi_select q |}) <$> questions)
  | UnknownTool _ =>
      let name := get_name tool_data in
      if is_mcp name then Tool (mcp_label name) (Some (tool_input tool_data)) None
      else OtherAction ("Tool: " +:+ name)
  end.

(* crates/executors/src/executors/claude.rs:2898-2995 ClaudeLogProcessor::generate_concise_content *)
Definition generate_concise_content (tool_data : ClaudeToolData Value) (action_type : ActionType Value)
    (worktree_path : string) : string :=
  match action_type with
  | FileRead path | FileEdit path _ => path
  | CommandRun command _ _ => command
  | Search query => query
  | WebFetch url => url
  | TaskCreate description _ _ =>
      if String.eqb description "" then "Task" else "Task: `" +:+ description +:+ "`"
  | Tool _ _ _ =>
      match tool_data with
      | NotebookEdit notebook_path _ _ _ => "`" +:+ make_path_relative notebook_path worktree_path +:+ "`"
      | UnknownTool _ => let name := get_name tool_data in if is_mcp name then mcp_label name else name
      | _ => get_name tool_data
      end
  | PlanPresentation plan => plan
  | TodoManagement _ _ => "TODO list updated"
  | AskUserQuestion questions =>
      match questions with
      | [q] => qi_question q
      | _ => display (Z.of_nat (length questions)) +:+ " questions"
      end
  | OtherAction _ =>
      match tool_data with
      | LS path =>
          let relative_path := make_path_relative path worktree_path in
          if String.eqb relative_path "" then "List directory" else "List directory: " +:+ relative_path
      | Glob pattern path _ =>
          match path with
          | Some search_path =>
              "Find files: `" +:+ pattern +:+ "` in " +:+ make_path_relative search_path worktree_path
          | None => "Find files: `" +:+ pattern +:+ "`"
          end
      | Oracle task _ _ => match task with Some t => "Oracle: `" +:+ t +:+ "`" | None => "Oracle" end
      | Mermaid _ => "Mermaid diagram"
      | CodebaseSearchAgent query path _ _ _ =>
          match query with
          | Some q =>
              if String.eqb q "" then "Codebase search"
              else match path with
                   | Some p =>
                       if String.eqb p "" then "Codebase search: `" +:+ q +:+ "`"
                       else "Codebase search: `" +:+ q +:+ "` in " +:+ make_path_relative p worktree_path
                   | None => "Codebase search: `" +:+ q +:+ "`"
                   end
          | None => "Codebase search"
          end
      | UndoEdit path _ =>
          match path with
          | Some p =>
              let rel := make_path_relative p worktree_path in
              if String.eqb rel "" then "Undo edit" else "Undo edit: `" +:+ rel +:+ "`"
          | None => "Undo edit"
          end
      | _ => get_name tool_data
      end
  end.

(* crates/executors/src/executors/claude.rs:1875-1891 ClaudeLogProcessor::tool_use_entry *)
Definition tool_use_entry (tool_name : string) (action_type : ActionType Value) (status : ToolStatus)
    (content : string) : Entry :=
  plain_entry (ToolUse tool_name action_type status) content.

(* crates/executors/src/executors/claude.rs:1863-1873 ClaudeLogProcessor::build_tool_use_entry *)
Definition build_tool_use_entry (tool_data : ClaudeToolData Value) (worktree_path : string)
    (status : ToolStatus) : Entry * string * string :=
  let tool_name := get_name tool_data in
  let action_type := extract_action_type tool_data worktree_path in
  let content := generate_concise_content tool_data action_type worktree_path in
  (tool_use_entry tool_name action_type status content, tool_name, content).

(* crates/executors/src/executors/claude.rs:1893-1910 ClaudeLogProcessor::replace_tool_entry_status *)
Definition replace_tool_entry_status (p : ClaudeLogProcessor) (tool_call_id : string)
    (status : ToolStatus) (worktree_path : string) : list Patch :=
  match tool_map p !! tool_call_id with
  | Some info =>
      [PlainText.replace (entry_index info)
         (tool_use_entry (tool_name info) (extract_action_type (tool_data info) worktree_path) status
            (info_content info))]
  | None => []
  end.

(** The entry, and what becomes of [last_assistant_message]. *)
(* crates/executors/src/executors/claude.rs:1913-1953 ClaudeLogProcessor::content_item_to_normalized_entry *)
Definition content_item_to_normalized_entry (content_item : ClaudeContentItem Value) (role : string)
    (worktree_path : string) (last_assistant_message : option string) : option Entry * option string :=
  match content_item with
  | Text text =>
      if String.eqb role "assistant" then
        (Some {| Logs.entry_type := AssistantMessage; Logs.content := text;
                 Logs.metadata := Some (item_to_value content_item) |}, Some text)
      else (None, last_assistant_message)
  | Thinking_ thinking =>
      (Some {| Logs.entry_type := Thinking; Logs.content := thinking;
               Logs.metadata := Some (item_to_value content_item) |}, last_assistant_message)
  | ToolUse_ _ tool_data => (Some (build_tool_use_entry tool_data worktree_path Created).1.1, last_assistant_message)
  | ToolResult_ _ _ _ => (None, last_assistant_message)
  end.

(** ** Streamed messages *)

(* crates/executors/src/executors/claude.rs:3136-3150 StreamingContentState::from_content_block *)
Definition from_content_block (content_block : ClaudeContentItem Value) : option StreamingContentState :=
  match content_block with
  | Text text => Some {| kind := KText; buffer := text; sc_entry_index := None |}
  | Thinking_ thinking => Some {| kind := KThinking; buffer := thinking; sc_entry_index := None |}
  | _ => None
  end.

(* crates/executors/src/executors/claude.rs:3152-3166 StreamingContentState::from_delta *)
Definition from_delta (delta : ClaudeContentBlockDelta) : option StreamingContentState :=
  match delta with
  | TextDelta _ => Some {| kind := KText; buffer := ""; sc_entry_index := None |}
  | ThinkingDelta _ => Some {| kind := KThinking; buffer := ""; sc_entry_index := None |}
  | _ => None
  end.

(* crates/executors/src/executors/claude.rs:3168-3190 StreamingContentState::apply_content_delta *)
Definition apply_content_delta (s : StreamingContentState) (delta : ClaudeContentBlockDelta)
    : StreamingContentState :=
  let push text := {| kind := kind s; buffer := buffer s +:+ text; sc_entry_index := sc_entry_index s |} in
  match kind s, delta with
  | KText, TextDelta text => push text
  | KThinking, ThinkingDelta thinking => push thinking
  | _, _ => s
  end.

(* crates/executors/src/executors/claude.rs:3192-3201 StreamingContentState::to_content_item *)
Definition to_content_item (s : StreamingContentState) : ClaudeContentItem Value :=
  match kind s with KText => Text (buffer s) | KThinking => Thinking_ (buffer s) end.

(* crates/executors/src/executors/claude.rs:3077-3081 StreamingMessageState::content_block_start *)
Definition content_block_start (s : StreamingMessageState) (index : Z)
    (content_block : ClaudeContentItem Value) : StreamingMessageState :=
  match from_content_block content_block with
  | Some c => {| sm_role := sm_role s; contents := <[index := c]> (contents s) |}
  | None => s
  end.

Definition set_content (s : StreamingMessageState) (index : Z) (c : StreamingContentState)
    : StreamingMessageState :=
  {| sm_role := sm_role s; contents := <[index := c]> (contents s) |}.

(** The message, the last assistant message, the counter and the patch. *)
(* crates/executors/src/executors/claude.rs:3083-3114 StreamingMessageState::apply_content_block_delta *)
Definition apply_content_block_delta (s : StreamingMessageState) (index : Z)
    (delta : ClaudeContentBlockDelta) (worktree_path : string) (counter : Z)
    (last_assistant_message : option string)
    : StreamingMessageState * option string * Z * option Patch :=
  match match contents s !! index with Some c => Some c | None => from_delta delta end with
  | None => (s, last_assistant_message, counter, None)
  | Some entry_state =>
      let entry_state := apply_content_delta entry_state delta in
      let '(entry, last) :=
        content_item_to_normalized_entry (to_content_item entry_state) (sm_role s) worktree_path
          last_assistant_message in
      match entry with
      | None => (set_content s index entry_state, last, counter, None)
      | Some entry =>
          match sc_entry_index entry_state with
          | Some existing_index =>
              (set_content s index entry_state, last, counter,
               Some (PlainText.replace existing_index entry))
          | None =>
              let '(entry_index, counter) := EntryIndex.next counter in
              (set_content s index {| kind := kind entry_state; buffer := buffer entry_state;
                                      sc_entry_index := Some entry_index |}, last, counter,
               Some (PlainText.add_normalized_entry entry_index entry))
          end
      end
  end.

(* crates/executors/src/executors/claude.rs:3116-3120 StreamingMessageState::content_entry_index *)
Definition content_entry_index (s : StreamingMessageState) (content_index : Z) : option Z :=
  contents s !! content_index ≫= sc_entry_index.

(** ** The messages *)

(* crates/executors/src/executors/claude.rs:3018-3030 add_system_message *)
Definition add_system_message (st : St) (content : string) : St * Patch :=
  add_entry st (plain_entry SystemMessage content).

(* crates/executors/src/executors/claude.rs:2997-3015 ClaudeLogProcessor::add_token_usage_entry *)
Definition add_token_usage_entry (st : St) : St * Patch :=
  let used := context_tokens_used st.1 in
  let window := main_model_context_window st.1 in
  add_entry st
    (plain_entry (TokenUsage {| total_tokens := used; model_context_window := window |})
       ("Tokens used: " +:+ display used +:+ " / Context window: " +:+ display window)).

(* crates/executors/src/executors/claude.rs:3032-3062 extract_model_name *)
Definition extract_model_name (st : St) (message : ClaudeMessage Value) : St * list Patch :=
  let p := st.1 in
  match model_name p, model message with
  | None, Some m =>
      let '(mm, w) :=
        match main_model_name p with
        | None => (Some m, Z.max (main_model_context_window p) (context_window_for_model m))
        | Some _ => (main_model_name p, main_model_context_window p)
        end in
      let '(st, patch) :=
        add_entry (set_models (Some m) mm w p, st.2)
          (plain_entry SystemMessage ("System initialized with model: " +:+ m)) in
      (st, [patch])
  | _, _ => (st, [])
  end.

(* crates/executors/src/executors/claude.rs:1807-1823 ClaudeLogProcessor::warn_if_unmanaged_key *)
Definition warn_if_unmanaged_key (src : option string) : option Entry :=
  match src with
  | Some "ANTHROPIC_API_KEY" =>
      Some (plain_entry (ErrorMessage CodexStderr.Other)
        ("Claude Code + ANTHROPIC_API_KEY detected. Usage will be billed via Anthropic pay-as-you-go " +:+
         "instead of your Claude subscription. If this is unintended, please select the " +:+
         "`disable_api_key` checkbox in the conding-agent-configurations settings page."))
  | _ => None
  end.

Definition subagent_type_of (t : ClaudeToolData Value) : option string :=
  match t with Task subagent_type _ _ => subagent_type | _ => None end.

(* crates/executors/src/executors/claude.rs:2176-2208 ClaudeLogProcessor::normalize_entries *)
Definition task_started (st : St) (m : SystemFields Value) : St * list Patch :=
  match sys_tool_use_id m with
  | Some tool_use_id =>
      match tool_map st.1 !! tool_use_id with
      | Some _ => (st, [])
      | None =>
          let desc := default "Task" (description m) in
          let '(idx, (p, c)) := fresh_index st in
          ((set_tools (<[tool_use_id :=
              {| entry_index := idx; tool_name := "Task";
                 tool_data := Task (task_type m) (description m) (prompt m);
                 info_content := desc |}]> (tool_map p)) p, c),
           [PlainText.add_normalized_entry idx
              (tool_use_entry "Task" (TaskCreate desc (task_type m) None) Created desc)])
      end
  | None => (st, [])
  end.

(* crates/executors/src/executors/claude.rs:2209-2232 ClaudeLogProcessor::normalize_entries *)
Definition task_progress (p : ClaudeLogProcessor) (m : SystemFields Value) : list Patch :=
  match sys_tool_use_id m, description m with
  | Some tool_use_id, Some desc =>
      match tool_map p !! tool_use_id with
      | Some info =>
          [PlainText.replace (entry_index info)
             (tool_use_entry (tool_name info)
                (TaskCreate (info_content info) (subagent_type_of (tool_data info)) None) Created desc)]
      | None => []
      end
  | _, _ => []
  end.

(* crates/executors/src/executors/claude.rs:2233-2264 ClaudeLogProcessor::normalize_entries *)
Definition task_notification (p : ClaudeLogProcessor) (m : SystemFields Value) : list Patch :=
  match sys_tool_use_id m ≫= (fun i => tool_map p !! i) with
  | Some info =>
      let task_status :=
        if bool_decide (status m = Some "failed" \/ status m = Some "error") then Failed else Success in
      let desc := match summary m with
                  | Some s => s
                  | None => default (info_content info) (description m)
                  end in
      [PlainText.replace (entry_index info)
         (tool_use_entry (tool_name info)
            (TaskCreate desc (subagent_type_of (tool_data info)) None) task_status desc)]
  | None => []
  end.

(* crates/executors/src/executors/claude.rs:2134-2290 ClaudeLogProcessor::normalize_entries *)
Definition normalize_system (st : St) (json : ClaudeJson Value) (m : SystemFields Value)
    : St * list Patch :=
  let '(st, warning) :=
    match warn_if_unmanaged_key (api_key_source m) with
    | Some w => let '(st, patch) := add_entry st w in (st, [patch])
    | None => (st, [])
    end in
  let '(st, patches) :=
    match subtype m with
    | Some subtype =>
        if String.eqb subtype "init" then
          let p := st.1 in
          match main_model_name p, sys_model m with
          | None, Some model =>
              ((set_models (model_name p) (Some model)
                  (Z.max (main_model_context_window p) (context_window_for_model model)) p, st.2), [])
          | _, _ => (st, [])
          end
        else if String.eqb subtype "status" then
          match status m with
          | Some status => let '(st, patch) := add_system_message st status in (st, [patch])
          | None => (st, [])
          end
        else if String.eqb subtype "compact_boundary" then (st, [])
        else if String.eqb subtype "task_started" then task_started st m
        else if String.eqb subtype "task_progress" then (st, task_progress st.1 m)
        else if String.eqb subtype "task_notification" then (st, task_notification st.1 m)
        else
          let '(st, patch) :=
            push_collapsible_system_message st ("System: " +:+ subtype) (Some (json_to_value json)) in
          (st, [patch])
    | None =>
        let '(st, patch) :=
          push_collapsible_system_message st "System message" (Some (json_to_value json)) in
        (st, [patch])
    end in
  (st, warning ++ patches).

(** A tool call, which an [Assistant] message may hold at the place of a streamed block. *)
(* crates/executors/src/executors/claude.rs:2307-2342 ClaudeLogProcessor::normalize_entries *)
Definition tool_use_patch (st : St) (streamed : option Z) (id : string)
    (tool_data : ClaudeToolData Value) (worktree_path : string) : St * Patch :=
  let '(entry, tool_name, content_text) := build_tool_use_entry tool_data worktree_path Created in
  let existing_idx := match streamed with
                      | Some i => Some i
                      | None => entry_index <$> tool_map st.1 !! id
                      end in
  let is_new := bool_decide (existing_idx = None) in
  let '((p, c), (id_num, repeat_count)) :=
    match existing_idx with
    | Some idx => (st, (idx, grok_repeat_count_for_update st.1 id idx))
    | None => allocate_tool_entry_index st id tool_data
    end in
  let entry := add_grok_repeat_ticks entry repeat_count in
  let p := set_tools (<[id := {| entry_index := id_num; tool_name := tool_name;
                                tool_data := tool_data; info_content := content_text |}]> (tool_map p)) p in
  ((p, c), if is_new && (repeat_count =? 1) then PlainText.add_normalized_entry id_num entry
           else PlainText.replace id_num entry).

(** The items of a message, with their places from [content_index] on. *)
(* crates/executors/src/executors/claude.rs:2301-2363 ClaudeLogProcessor::normalize_entries *)
Fixpoint assistant_items (st : St) (streaming : option StreamingMessageState) (role : string)
    (worktree_path : string) (content_index : Z) (items : list (ClaudeContentItem Value))
    : St * list Patch :=
  match items with
  | [] => (st, [])
  | item :: items =>
      let entry_index := streaming ≫= fun s => content_entry_index s content_index in
      let '(st, patches) :=
        match item with
        | ToolUse_ id tool_data =>
            let '(st, patch) := tool_use_patch st entry_index id tool_data worktree_path in (st, [patch])
        | Text _ | Thinking_ _ =>
            let '(entry, last) :=
              content_item_to_normalized_entry item role worktree_path (last_assistant_message st.1) in
            let st := (set_last last st.1, st.2) in
            match entry with
            | Some entry =>
                match entry_index with
                | Some idx => (st, [PlainText.replace idx entry])
                | None => let '(st, patch) := add_entry st entry in (st, [patch])
                end
            | None => (st, [])
            end
        | ToolResult_ _ _ _ => (st, [])
        end in
      let '(st, rest) := assistant_items st streaming role worktree_path (content_index + 1) items in
      (st, patches ++ rest)
  end.

(* crates/executors/src/executors/claude.rs:3384-3389 ClaudeMessageContent::items *)
Definition items_of (c : ClaudeMessageContent Value) : list (ClaudeContentItem Value) :=
  match c with ArrayContent items => items | TextContent _ => [] end.

(* crates/executors/src/executors/claude.rs:2291-2364 ClaudeLogProcessor::normalize_entries *)
Definition normalize_assistant (st : St) (message : ClaudeMessage Value) (worktree_path : string)
    : St * list Patch :=
  let '(st, model_patch) := extract_model_name st message in
  let p := st.1 in
  let streaming := id message ≫= fun i => streaming_messages p !! i in
  let st := (set_streaming (match id message with
                            | Some i => delete i (streaming_messages p)
                            | None => streaming_messages p
                            end) (streaming_message_id p) p, st.2) in
  let '(st, patches) :=
    assistant_items st streaming (role message) worktree_path 0 (items_of (msg_content message)) in
  (st, model_patch ++ patches).

Definition status_of (is_error : option bool) : ToolStatus :=
  if default false is_error then Failed else Success.

(** The result of a tool call, put on the entry of the call. *)
(* crates/executors/src/executors/claude.rs:2444-2613 ClaudeLogProcessor::normalize_entries *)
Definition tool_result_patch (p : ClaudeLogProcessor) (tool_use_id : string) (content : Value)
    (is_error : option bool) (worktree_path : string) : ClaudeLogProcessor * list Patch :=
  match tool_map p !! tool_use_id with
  | None => (p, [])
  | Some info =>
      match tool_data info with
      | Bash _ _ =>
          let content_str := match as_str content with Some s => s | None => value_to_string content end in
          let result :=
            match amp_bash_result content_str with
            | Some (out, code) => {| exit_status := Some (ExitCode code); output := Some out |}
            | None => {| exit_status := (fun e => Success_ (negb e)) <$> is_error;
                         output := Some content_str |}
            end in
          let '(p, repeat_count) :=
            grok_repeat_count_for_result p tool_use_id info (negb (default false is_error)) in
          match repeat_count with
          | None => (p, [])
          | Some repeat_count =>
              let entry :=
                tool_use_entry (tool_name info)
                  (CommandRun (info_content info) (Some result) (from_command (info_content info)))
                  (status_of is_error) (info_content info) in
              (p, [PlainText.replace (entry_index info) (add_grok_repeat_ticks entry repeat_count)])
          end
      | Task subagent_type _ _ =>
          let '(res_type, res_value) := normalize_claude_tool_result_value content in
          (p, [PlainText.replace (entry_index info)
                 (tool_use_entry (tool_name info)
                    (TaskCreate (info_content info) subagent_type
                       (Some {| tr_type := res_type; tr_value := res_value |}))
                    (status_of is_error) (info_content info))])
      | UnknownTool _ | Oracle _ _ _ | Mermaid _ | CodebaseSearchAgent _ _ _ _ _ | NotebookEdit _ _ _ _ =>
          let '(res_type, res_value) :=
            match rewrite_content_with_images worktree_path content with
            | Some markdown => (Markdown, value_string markdown)
            | None => normalize_claude_tool_result_value content
            end in
          let name := get_name (tool_data info) in
          let label := if is_mcp name then mcp_label name else name in
          (p, [PlainText.replace (entry_index info)
                 (tool_use_entry label
                    (Tool label (Some (tool_input (tool_data info)))
                       (Some {| tr_type := res_type; tr_value := res_value |}))
                    (status_of is_error) (info_content info))])
      | _ => (p, [])
      end
  end.

(* crates/executors/src/executors/claude.rs:2438-2617 ClaudeLogProcessor::normalize_entries *)
Fixpoint tool_results (p : ClaudeLogProcessor) (worktree_path : string)
    (items : list (ClaudeContentItem Value)) : ClaudeLogProcessor * list Patch :=
  match items with
  | [] => (p, [])
  | item :: items =>
      let '(p, patches) :=
        match item with
        | ToolResult_ tool_use_id content is_error =>
            tool_result_patch p tool_use_id content is_error worktree_path
        | _ => (p, [])
        end in
      let '(p, rest) := tool_results p worktree_path items in
      (p, patches ++ rest)
  end.

(** The texts among the items of a message, each with its item. *)
Definition texts_of (items : list (ClaudeContentItem Value)) : list (string * ClaudeContentItem Value) :=
  omap (fun item => match item with Text text => Some (text, item) | _ => None end) items.

Fixpoint add_entries (st : St) (entries : list Entry) : St * list Patch :=
  match entries with
  | [] => (st, [])
  | entry :: entries =>
      let '(st, patch) := add_entry st entry in
      let '(st, rest) := add_entries st entries in
      (st, patch :: rest)
  end.

(** Amp replays the thread it resumes: a user message starts the conversation over. *)
(* crates/executors/src/executors/claude.rs:2376-2409 ClaudeLogProcessor::normalize_entries *)
Definition amp_restart (st : St) (items : list (ClaudeContentItem Value)) : St * list Patch :=
  if bool_decide (strategy st.1 = AmpResume) && bool_decide (texts_of items <> []) then
    let '(st, removed) :=
      if 0 <? st.2 then
        ((set_repeated None None (set_tools ∅ st.1), 0),
         replicate (Z.to_nat st.2) [PRemove (PlainText.entry_path 0)])
      else (st, []) in
    let '(st, added) :=
      add_entries st
        ((fun ti => {| Logs.entry_type := UserMessage; Logs.content := ti.1;
                       Logs.metadata := Some (item_to_value ti.2) |}) <$> texts_of items) in
    (st, removed ++ added)
  else (st, []).

Definition LOCAL_STDOUT : string := "<local-command-stdout>".
Definition LOCAL_STDOUT_END : string := "</local-command-stdout>".

(* crates/executors/src/executors/claude.rs:2426-2435 ClaudeLogProcessor::normalize_entries *)
Definition local_command_output (text : string) : string :=
  if starts_with LOCAL_STDOUT text && ends_with LOCAL_STDOUT_END text then
    trim_end_matches (String.length text) LOCAL_STDOUT_END
      (trim_start_matches (String.length text) LOCAL_STDOUT text)
  else text.

(* crates/executors/src/executors/claude.rs:2365-2618 ClaudeLogProcessor::normalize_entries *)
Definition normalize_user (st : St) (message : ClaudeMessage Value) (is_synthetic is_replay : bool)
    (worktree_path : string) : St * list Patch :=
  if is_replay then (st, [])
  else
    let items := items_of (msg_content message) in
    let '(st, restarted) := amp_restart st items in
    let '(st, synthetic) :=
      if is_synthetic then add_entries st ((fun ti => plain_entry SystemMessage ti.1) <$> texts_of items)
      else (st, []) in
    let '(st, local) :=
      match msg_content message with
      | TextContent text =>
          let '(st, patch) := add_system_message st (local_command_output text) in (st, [patch])
      | ArrayContent _ => (st, [])
      end in
    let '(p, results) := tool_results st.1 worktree_path items in
    ((p, st.2), restarted ++ synthetic ++ local ++ results).

(** [x + y] of [u64] in a release build, and [x as u32]. *)
Definition wrapping_add (x y : Z) : Z := (x + y) `mod` (u64_max + 1).
Definition as_u32 (x : Z) : Z := x `mod` (u32_max + 1).

(* crates/executors/src/executors/claude.rs:2656-2731 ClaudeLogProcessor::normalize_entries *)
Definition normalize_stream_event (st : St) (event : ClaudeStreamEvent Value)
    (parent_tool_use_id : option string) (worktree_path : string) : St * list Patch :=
  match event with
  | MessageStart message =>
      if String.eqb (role message) "assistant" then
        let '((p, c), patches) := extract_model_name st message in
        match id message with
        | Some message_id =>
            ((set_streaming (<[message_id := {| sm_role := role message; contents := ∅ |}]>
                               (streaming_messages p)) (Some message_id) p, c), patches)
        | None => ((set_streaming (streaming_messages p) None p, c), patches)
        end
      else ((set_streaming (streaming_messages st.1) None st.1, st.2), [])
  | ContentBlockStart index content_block =>
      let p := st.1 in
      match streaming_message_id p ≫= (fun i => (fun s => (i, s)) <$> streaming_messages p !! i) with
      | Some (i, s) =>
          ((set_streaming (<[i := content_block_start s index content_block]> (streaming_messages p))
              (streaming_message_id p) p, st.2), [])
      | None => (st, [])
      end
  | ContentBlockDelta index delta =>
      let p := st.1 in
      match streaming_message_id p ≫= (fun i => (fun s => (i, s)) <$> streaming_messages p !! i) with
      | Some (i, s) =>
          let '(s, last, c, patch) :=
            apply_content_block_delta s index delta worktree_path st.2 (last_assistant_message p) in
          ((set_last last (set_streaming (<[i := s]> (streaming_messages p)) (streaming_message_id p) p), c),
           match patch with Some patch => [patch] | None => [] end)
      | None => (st, [])
      end
  | ContentBlockStop _ => (st, [])
  | MessageDelta _ usage =>
      match parent_tool_use_id, usage with
      | None, Some usage =>
          let input_tokens :=
            wrapping_add (wrapping_add (default 0 (input_tokens usage))
                                       (default 0 (cache_creation_input_tokens usage)))
                         (default 0 (cache_read_input_tokens usage)) in
          let output_tokens := default 0 (output_tokens usage) in
          let total_tokens := wrapping_add input_tokens output_tokens in
          let '(st, patch) := add_token_usage_entry (set_tokens (as_u32 total_tokens) st.1, st.2) in
          (st, [patch])
      | _, _ => (st, [])
      end
  | MessageStop =>
      let p := st.1 in
      match streaming_message_id p with
      | Some message_id => ((set_streaming (delete message_id (streaming_messages p)) None p, st.2), [])
      | None => (st, [])
      end
  | UnknownEvent => (st, [])
  end.

(** The answer of a turn is shown unless the last text of the assistant contains it. *)
(* crates/executors/src/executors/claude.rs:2765-2769 ClaudeLogProcessor::normalize_entries *)
Definition final_answer (p : ClaudeLogProcessor) (m : ResultFields Value) : option string :=
  if bool_decide (res_subtype m = Some "success") then
    text ← result m ≫= as_str;
    if match last_assistant_message p with
       | None => true
       | Some message => negb (contains text message)
       end
    then Some text else None
  else None.

(* crates/executors/src/executors/claude.rs:2732-2781 ClaudeLogProcessor::normalize_entries *)
Definition normalize_result (st : St) (json : ClaudeJson Value) (m : ResultFields Value)
    : St * list Patch :=
  let '(st, usage_patch) :=
    match (usage ← model_usage m;
           name ← main_model_name st.1;
           per_model ← (usage : gmap string ClaudeModelUsage) !! name;
           context_window per_model) with
    | Some context_window =>
        let p := st.1 in
        let '(st, patch) :=
          add_token_usage_entry (set_models (model_name p) (main_model_name p) context_window p, st.2) in
        (st, [patch])
    | None => (st, [])
    end in
  if bool_decide (strategy st.1 = AmpResume) && default false (res_is_error m) then
    let '(st, patch) :=
      add_entry st {| Logs.entry_type := ErrorMessage CodexStderr.Other;
                      Logs.content := json_to_string json;
                      Logs.metadata := Some (json_to_value json) |} in
    (st, usage_patch ++ [patch])
  else
    match final_answer st.1 m with
    | Some text =>
        let '(st, patch) :=
          add_entry st {| Logs.entry_type := AssistantMessage; Logs.content := text;
                          Logs.metadata := Some (json_to_value json) |} in
        (st, usage_patch ++ [patch])
    | None => (st, usage_patch)
    end.

Definition add_optional (st : St) (patches : list Patch) (entry : option Entry) : St * list Patch :=
  match entry with
  | Some entry => let '(st, patch) := add_entry st entry in (st, patches ++ [patch])
  | None => (st, patches)
  end.

(* crates/executors/src/executors/claude.rs:2796-2838 ClaudeLogProcessor::normalize_entries *)
Definition approval_response (st : St) (tool_call_id name : string) (approval_status : ApprovalStatus)
    (worktree_path : string) : St * list Patch :=
  let patches :=
    match from_approval_status approval_status with
    | Some status => replace_tool_entry_status st.1 tool_call_id status worktree_path
    | None => []
    end in
  add_optional st patches
    match approval_status with
    | AsPending | AsApproved => None
    | AsDenied reason =>
        let shown := match reason with
                     | Some s => if String.eqb (trim s) "" then None else Some (trim s)
                     | None => None
                     end in
        Some (plain_entry (UserFeedback name) (default "User denied this tool use request" shown))
    | AsTimedOut =>
        Some (plain_entry (ErrorMessage CodexStderr.Other) ("Approval timed out for tool " +:+ name))
    end.

(* crates/executors/src/executors/claude.rs:2839-2875 ClaudeLogProcessor::normalize_entries *)
Definition question_response (st : St) (tool_call_id : string) (question_status : QuestionStatus)
    (worktree_path : string) : St * list Patch :=
  add_optional st
    (replace_tool_entry_status st.1 tool_call_id (from_question_status question_status) worktree_path)
    match question_status with
    | QsAnswered answers =>
        let n := length answers in
        Some (plain_entry
                (UserAnsweredQuestions
                   ((fun qa => {| aq_question := qa_question qa; aq_answer := qa_answer qa |}) <$> answers))
                ("Answered " +:+ display (Z.of_nat n) +:+ " question" +:+ (if bool_decide (n = 1%nat) then "" else "s")))
    | QsTimedOut => None
    end.

(* crates/executors/src/executors/claude.rs:2126-2896 ClaudeLogProcessor::normalize_entries *)
Definition normalize_entries (st : St) (json : ClaudeJson Value) (worktree_path : string)
    : St * list Patch :=
  match json with
  | JSystem m => normalize_system st json m
  | JAssistant message _ _ => normalize_assistant st message worktree_path
  | JUser message _ _ is_synthetic is_replay =>
      normalize_user st message is_synthetic is_replay worktree_path
  | JToolUse id _ tool_data _ =>
      let '(st, patch) := tool_use_patch st None id tool_data worktree_path in (st, [patch])
  | JToolResult _ _ _ => (st, [])
  | JStreamEvent event _ parent_tool_use_id _ =>
      normalize_stream_event st event parent_tool_use_id worktree_path
  | JResult m => normalize_result st json m
  | JApprovalRequested tool_call_id _ approval_id =>
      (st, replace_tool_entry_status st.1 tool_call_id (PendingApproval approval_id) worktree_path)
  | JApprovalResponse tool_call_id name approval_status =>
      approval_response st tool_call_id name approval_status worktree_path
  | JQuestionResponse tool_call_id _ question_status =>
      question_response st tool_call_id question_status worktree_path
  | JUnknown data =>
      let '(st, patch) :=
        add_entry st (plain_entry SystemMessage ("Unrecognized JSON message: " +:+ data_to_string data)) in
      (st, [patch])
  | JControlRequest _ _ | JControlResponse _ | JControlCancelRequest _ | JRateLimitEvent _ _
  | JToolProgress _ => (st, [])
  end.

(** ** The stream *)

(* crates/executors/src/executors/claude.rs:1785-1804 ClaudeLogProcessor::extract_session_id *)
Definition extract_session_id (json : ClaudeJson Value) : option string :=
  match json with
  | JAssistant _ session_id _ | JUser _ session_id _ _ _ | JToolUse _ _ _ session_id
  | JToolResult _ _ session_id | JRateLimitEvent session_id _ => session_id
  | JResult m => res_session_id m
  | JToolProgress m => tp_session_id m
  | JSystem _ | JStreamEvent _ _ _ _ | JApprovalRequested _ _ _ | JApprovalResponse _ _ _
  | JQuestionResponse _ _ _ | JControlRequest _ _ | JControlResponse _ | JControlCancelRequest _
  | JUnknown _ => None
  end.

(** The variables of the task, all but the partial line. *)
(* crates/executors/src/executors/claude.rs:1633-1645 ClaudeLogProcessor::process_logs *)
Record Task_ := {
  processor : St;
  session_id_extracted : bool;
  pending_assistant_uuid : option string;
}.

(* crates/executors/src/executors/claude.rs:1636-1645 ClaudeLogProcessor::process_logs *)
Definition start_task (strategy : HistoryStrategy) (configured_model : option string) (counter : Z) : Task_ :=
  let p := new_with_strategy strategy in
  {| processor :=
       (match configured_model with
        | Some model => set_models (model_name p) (main_model_name p) (context_window_for_model model) p
        | None => p
        end, counter);
     session_id_extracted := false;
     pending_assistant_uuid := None |}.

(** Which message a conversation may be resumed at: the new pending one, and the one that
    is pushed. *)
(* crates/executors/src/executors/claude.rs:1693-1709 ClaudeLogProcessor::process_logs *)
Definition message_ids (pending : option string) (json : ClaudeJson Value) : option string * option string :=
  match json with
  | JUser _ _ uuid _ _ => (None, uuid)
  | JAssistant _ _ uuid => (uuid, None)
  | JResult _ => (None, pending)
  | _ => (pending, None)
  end.

(** What is pushed to the message store for a line, in order. *)
(* crates/executors/src/executors/claude.rs:1681-1744 ClaudeLogProcessor::process_logs *)
Definition process_json (t : Task_) (json : ClaudeJson Value) (worktree_path : string)
    : Task_ * list (LogMsg Entry) :=
  let '(extracted, session) :=
    if session_id_extracted t then (true, [])
    else match extract_session_id json with
         | Some session_id => (true, [SessionId session_id])
         | None => (false, [])
         end in
  let '(pending, message_id) := message_ids (pending_assistant_uuid t) json in
  let '(st, patches) := normalize_entries (processor t) json worktree_path in
  ({| processor := st; session_id_extracted := extracted; pending_assistant_uuid := pending |},
   session ++ match message_id with Some uuid => [MessageId uuid] | None => [] end
     ++ (JsonPatch <$> patches)).

Definition raw_line (t : Task_) (text : string) : Task_ * list (LogMsg Entry) :=
  let '(st, patch) := add_entry (processor t) (plain_entry SystemMessage text) in
  ({| processor := st; session_id_extracted := session_id_extracted t;
      pending_assistant_uuid := pending_assistant_uuid t |}, [JsonPatch patch]).

(* crates/executors/src/executors/claude.rs:1667-1762 ClaudeLogProcessor::process_logs *)
Definition process_line (worktree_path : string) (t : Task_) (line : string) : Task_ * list (LogMsg Entry) :=
  let trimmed := trim line in
  if String.eqb trimmed "" then (t, [])
  else if starts_with "Service not running, starting service" trimmed
          || contains "claude code router service has been successfully stopped" trimmed
  then (t, [])
  else match json_from_str trimmed with
       | Some json => process_json t json worktree_path
       | None => raw_line t trimmed
       end.

Fixpoint process_lines (worktree_path : string) (t : Task_) (lines : list string)
    : Task_ * list (LogMsg Entry) :=
  match lines with
  | [] => (t, [])
  | line :: lines =>
      let '(t, out) := process_line worktree_path t line in
      let '(t, rest) := process_lines worktree_path t lines in
      (t, out ++ rest)
  end.

(* crates/executors/src/executors/claude.rs:1658-1765 ClaudeLogProcessor::process_logs *)
Definition process_chunk (worktree_path : string) (t : Task_) (buffer chunk : string)
    : Task_ * string * list (LogMsg Entry) :=
  let buffer := buffer +:+ chunk in
  let '(t, out) :=
    process_lines worktree_path t (List.filter ends_with_newline (split_inclusive newline buffer)) in
  (t, last_piece newline buffer, out).

(* crates/executors/src/executors/claude.rs:1768-1780 ClaudeLogProcessor::process_logs *)
Definition process_rest (t : Task_) (buffer : string) : Task_ * list (LogMsg Entry) :=
  if String.eqb (trim buffer) "" then (t, []) else raw_line t (trim buffer).

(** The counter of entries is shared with the normaliser of the standard error, a task of its
    own.  A run is a list of turns: this task reads the next message of its stream, or the
    other takes the next index and sends the entry there, or sends a new version of an entry
    it sent (the [k]th of them).  A turn is not interrupted: an index is taken and what is
    sent for it is pushed without the other task in between.  The code does not enforce
    this, see [lost_to_a_race].  A turn of the other task between two lines of one chunk is
    the run in which the chunk is cut there, which processes the same lines. *)
Inductive Turn :=
| Reads (m : LogMsg Entry)
| OtherAdds (entry : Entry)
| OtherReplaces (k : nat) (entry : Entry).

(** A message of the store, by the task that pushed it. *)
Inductive Sent := Mine (m : LogMsg Entry) | Theirs (m : LogMsg Entry).

Definition at_state (t : Task_) (st : St) : Task_ :=
  {| processor := st; session_id_extracted := session_id_extracted t;
     pending_assistant_uuid := pending_assistant_uuid t |}.

(** The run up to the end of the stream of this task, which is its last message, [Finished],
    or the error of a reader that lagged behind; [theirs] are the indices the other task
    holds. *)
(* crates/executors/src/executors/claude.rs:1623-1782 ClaudeLogProcessor::process_logs *)
Fixpoint process_logs (worktree_path : string) (t : Task_) (buffer : string) (theirs : list Z)
    (turns : list Turn) : Task_ * list Sent :=
  match turns with
  | [] | Reads Finished :: _ => let '(t, out) := process_rest t buffer in (t, Mine <$> out)
  | Reads (Stdout chunk) :: turns =>
      let '(t, buffer, out) := process_chunk worktree_path t buffer chunk in
      let '(t, rest) := process_logs worktree_path t buffer theirs turns in
      (t, (Mine <$> out) ++ rest)
  | Reads (JsonPatch _ | SessionId _ | MessageId _ | Stderr _ | Ready) :: turns =>
      process_logs worktree_path t buffer theirs turns
  | OtherAdds entry :: turns =>
      let '(i, st) := fresh_index (processor t) in
      let '(t, rest) := process_logs worktree_path (at_state t st) buffer (theirs ++ [i]) turns in
      (t, Theirs (JsonPatch (PlainText.add_normalized_entry i entry)) :: rest)
  | OtherReplaces k entry :: turns =>
      let '(t, rest) := process_logs worktree_path t buffer theirs turns in
      (t, match theirs !! k with
          | Some i => Theirs (JsonPatch (PlainText.replace i entry)) :: rest
          | None => rest
          end)
  end.

End Processor.

Arguments ClaudeToolCallInfo : clear implicits.
Arguments ClaudeLogProcessor : clear implicits.
Arguments St : clear implicits.
Arguments Task_ : clear implicits.

End ClaudeLog.
