(* ===== verification/ClaudeFacts.v ===== *)
(** * What the log of Claude Code shows

    The conversation a reader builds from the patches of [ClaudeLog], as an array patched
    by RFC 6902, and what holds of it: every patch applies, in turns with the normaliser of
    the standard error, results are put on the entries
    of their calls, the text shown of a streamed block is the text received, the chunks of
    the output do not matter, and the answer of a turn is shown.  [Module SampleClaude]
    has concrete runs, two of them defects. *)
From S2P Require Import Prelude Text Format Redact Json MsgStore PlainText CodexStderr Shell ClaudeTypes Claude.
From Stdlib Require Import Ascii.
Import LogMsg Shell Logs Wire ClaudeLog.

Module ClaudeFacts.

(** ** The conversation *)

Section Conversation.
Context {E : Type}.

(** RFC 6902 on an array of entries: an index out of range is an error. *)
Definition apply_op (doc : list E) (op : PatchOperation E) : option (list E) :=
  match op with
  | PAdd path v =>
      i ← EntryTimestamps.entry_index path;
      let n := Z.to_nat i in
      if decide (n <= length doc)%nat then Some (take n doc ++ v :: drop n doc) else None
  | PReplace path v =>
      i ← EntryTimestamps.entry_index path;
      let n := Z.to_nat i in
      if decide (n < length doc)%nat then Some (<[n := v]> doc) else None
  | PRemove path =>
      i ← EntryTimestamps.entry_index path;
      let n := Z.to_nat i in
      if decide (n < length doc)%nat then Some (take n doc ++ drop (S n) doc) else None
  | POther => None
  end.

Fixpoint apply_ops (doc : list E) (ops : list (PatchOperation E)) : option (list E) :=
  match ops with
  | [] => Some doc
  | op :: ops => doc ← apply_op doc op; apply_ops doc ops
  end.

Definition apply_patches (doc : list E) (patches : list (list (PatchOperation E))) : option (list E) :=
  apply_ops doc (concat patches).
#[global] Arguments apply_patches : simpl never.

Lemma apply_ops_app doc ops ops' :
  apply_ops doc (ops ++ ops') = apply_ops doc ops ≫= fun doc => apply_ops doc ops'.
Proof.
  revert doc. induction ops as [|op ops IH]; intros doc; [done|]. cbn.
  destruct (apply_op doc op); cbn; [apply IH|done].
Qed.

Lemma apply_patches_app doc ps ps' :
  apply_patches doc (ps ++ ps') = apply_patches doc ps ≫= fun doc => apply_patches doc ps'.
Proof. unfold apply_patches. by rewrite concat_app, apply_ops_app. Qed.

Lemma apply_add (doc : list E) e :
  Z.of_nat (length doc) <= usize_max ->
  apply_patches doc [PlainText.add_normalized_entry (Z.of_nat (length doc)) e] = Some (doc ++ [e]).
Proof.
  intros Hl. unfold apply_patches, PlainText.add_normalized_entry. cbn [concat app apply_ops apply_op].
  rewrite PlainText.entry_index_path by lia. cbn. rewrite Nat2Z.id.
  rewrite decide_True by done. by rewrite firstn_all, skipn_all.
Qed.

Lemma apply_replace (doc : list E) i e :
  0 <= i < Z.of_nat (length doc) -> Z.of_nat (length doc) <= usize_max ->
  apply_patches doc [PlainText.replace i e] = Some (<[Z.to_nat i := e]> doc).
Proof.
  intros Hi Hl. unfold apply_patches, PlainText.replace. cbn [concat app apply_ops apply_op].
  rewrite PlainText.entry_index_path by lia. cbn. by rewrite decide_True by lia.
Qed.

(** Removing the first entry as often as there are entries. *)
Lemma apply_clear (doc : list E) :
  apply_patches doc (replicate (length doc) [PRemove (PlainText.entry_path 0)]) = Some [].
Proof.
  unfold apply_patches. induction doc as [|e doc IH]; [done|]. cbn [length replicate concat app apply_ops].
  cbn [apply_op]. rewrite PlainText.entry_index_path by (unfold usize_max, u64_max; lia).
  cbn [mbind option_bind]. change (Z.to_nat 0) with 0%nat. rewrite decide_True by (cbn; lia). exact IH.
Qed.

(** What the entry at an index satisfies. *)
Definition holds (doc : list E) (i : Z) (P : E -> Prop) : Prop :=
  0 <= i /\ exists e, doc !! Z.to_nat i = Some e /\ P e.

Lemma holds_app doc i P e : holds doc i P -> holds (doc ++ [e]) i P.
Proof. intros (Hi & e0 & He & HP). split; [done|]. exists e0. by rewrite (lookup_app_l_Some _ _ _ _ He). Qed.

Lemma holds_new doc (P : E -> Prop) e : P e -> holds (doc ++ [e]) (Z.of_nat (length doc)) P.
Proof.
  intros HP. split; [lia|]. exists e. by rewrite Nat2Z.id, lookup_app_r, Nat.sub_diag by done.
Qed.

Lemma holds_range doc i P : holds doc i P -> 0 <= i < Z.of_nat (length doc).
Proof. intros (? & e & He%lookup_lt_Some & _). lia. Qed.

Lemma holds_set doc i j (P : E -> Prop) e :
  holds doc j P -> (i = j -> P e) -> 0 <= i -> holds (<[Z.to_nat i := e]> doc) j P.
Proof.
  intros (Hj & e0 & He & HP) Hij Hi. split; [done|].
  destruct (decide (i = j)) as [->|Hne].
  - exists e. rewrite list_lookup_insert_eq by (by eapply lookup_lt_Some). auto.
  - exists e0. by rewrite list_lookup_insert_ne by lia.
Qed.

Lemma holds_eq doc i (P Q : E -> Prop) e : holds doc i Q -> P e -> holds (<[Z.to_nat i := e]> doc) i P.
Proof.
  intros (Hi & e0 & He & _) HP. split; [done|]. exists e.
  by rewrite list_lookup_insert_eq by (by eapply lookup_lt_Some).
Qed.

Lemma holds_apart doc i (P Q : E -> Prop) : holds doc i P -> holds doc i Q -> exists e, P e /\ Q e.
Proof. intros (_ & e & He & HP) (_ & e' & He' & HQ). simplify_eq. eauto. Qed.

Lemma holds_mono doc i (P Q : E -> Prop) : (forall e, P e -> Q e) -> holds doc i P -> holds doc i Q.
Proof. intros HPQ (Hi & e & He & HP). split; eauto. Qed.

End Conversation.

(** ** Chunks *)

Lemma last_piece_step c d s :
  last_piece c (String d s) =
    if decide (contains_char c s = true) then last_piece c s
    else if decide (d = c) then s else String d s.
Proof.
  unfold last_piece. cbn [split_char].
  destruct (split_char_ne c s) as (p & ps & Hs).
  assert (contains_char c s = false -> ps = [] /\ p = s) as Hno.
  { intros Hc. pose proof (join_split_char c s) as Hj. rewrite Hs in Hj.
    destruct ps as [|q ps]; [by cbn in Hj|]. cbn [join] in Hj. rewrite <-Hj in Hc.
    rewrite !contains_char_app in Hc. cbn [contains_char] in Hc. rewrite bool_decide_true in Hc by done.
    by rewrite orb_true_r in Hc. }
  assert (contains_char c s = true -> ps <> []) as Hyes.
  { intros Hc ->. pose proof (split_char_pieces c s) as Hp. rewrite Hs in Hp.
    apply Forall_cons in Hp as [Hp _]. pose proof (join_split_char c s) as Hj. rewrite Hs in Hj.
    cbn in Hj. subst. congruence. }
  assert (forall (q : string) qs, exists x, last (q :: qs) = Some x) as Hlast.
  { intros q qs. destruct (last (q :: qs)) eqn:Hx; [eauto|]. by apply last_None in Hx. }
  rewrite Hs. destruct (contains_char c s) eqn:Hc.
  - rewrite (decide_True _ _ eq_refl). destruct ps as [|q ps]; [by destruct (Hyes eq_refl)|].
    destruct (Hlast q ps) as [x Hx].
    case_decide; by rewrite !last_cons_cons, Hx.
  - rewrite (decide_False (P := false = true)) by done. destruct (Hno eq_refl) as [-> ->]. by case_decide.
Qed.

Lemma last_piece_none c s : contains_char c s = false -> last_piece c s = s.
Proof.
  induction s as [|d s IH]; [done|]. cbn [contains_char]. intros [Hd Hs]%orb_false_iff.
  rewrite last_piece_step, decide_False by (by rewrite Hs). apply bool_decide_eq_false in Hd.
  by rewrite decide_False.
Qed.

Lemma last_piece_app c a x : last_piece c (a +:+ String c x) = last_piece c x.
Proof.
  induction a as [|d a IH].
  - rewrite sapp_nil_l, last_piece_step. case_decide as Hx; [done|]. rewrite decide_True by done.
    apply not_true_iff_false in Hx. by rewrite last_piece_none.
  - rewrite sapp_cons, last_piece_step, decide_True; [done|].
    rewrite contains_char_app. cbn. rewrite bool_decide_true by done. by rewrite orb_true_r.
Qed.

(** A text is complete lines and a last piece without a line end. *)
Lemma last_piece_cut c s :
  contains_char c (last_piece c s) = false /\
  (s = last_piece c s \/ exists a, s = a +:+ String c (last_piece c s)).
Proof.
  induction s as [|d s [Hc IH]]; [split; [done|by left]|].
  rewrite last_piece_step. case_decide as Hs.
  - split; [done|]. right. destruct IH as [He|[a Ha]].
    + rewrite <-He in Hc. congruence.
    + exists (String d a). by rewrite sapp_cons, <-Ha.
  - apply not_true_iff_false in Hs. case_decide as Hd.
    + subst. split; [done|]. right. by exists "".
    + split; [|by left]. cbn. by rewrite bool_decide_false.
Qed.

Definition complete_lines (s : string) : list string :=
  List.filter ends_with_newline (split_inclusive newline s).

Lemma complete_lines_none s : contains_char newline s = false -> complete_lines s = [].
Proof.
  intros Hs. unfold complete_lines. destruct (decide (s = "")) as [->|Hne]; [done|].
  rewrite split_inclusive_whole by done. cbn. unfold ends_with_newline. rewrite bool_decide_false; [done|].
  intros Hl. clear Hne. induction s as [|d s IH]; [done|]. cbn [contains_char] in Hs.
  apply orb_false_iff in Hs as [Hd Hs]. destruct s as [|e s]; [|by apply IH].
  cbn in Hl. by simplify_eq.
Qed.

Lemma complete_lines_app s t :
  complete_lines (s +:+ t) = complete_lines s ++ complete_lines (last_piece newline s +:+ t) /\
  last_piece newline (s +:+ t) = last_piece newline (last_piece newline s +:+ t).
Proof.
  destruct (last_piece_cut newline s) as [Hc [He|[a Ha]]].
  - rewrite <-He in *. by rewrite (complete_lines_none s).
  - remember (last_piece newline s) as b eqn:Hb. clear Hb. subst s.
    rewrite sapp_assoc, sapp_cons, last_piece_app. split; [|done]. unfold complete_lines.
    rewrite (split_inclusive_app newline a (b +:+ t)), (split_inclusive_app newline a b), !List.filter_app.
    change (List.filter ends_with_newline (split_inclusive newline b)) with (complete_lines b).
    by rewrite (complete_lines_none b), app_nil_r.
Qed.

Section Stream.
Context {Value : Type} `{!ClaudeLibs Value} `{!CharClass} `{!ShellLibs}.

Abbreviation Entry := (NormalizedEntry Value).
Abbreviation Patch := (list (PatchOperation Entry)).

(** The standard output of the agent, up to the end of the stream. *)
Fixpoint stdout_text (msgs : list (LogMsg Entry)) : string :=
  match msgs with
  | [] | Finished :: _ => ""
  | Stdout chunk :: msgs => chunk +:+ stdout_text msgs
  | (JsonPatch _ | SessionId _ | MessageId _ | Stderr _ | Ready) :: msgs => stdout_text msgs
  end.

(** The same, of the messages the task reads in a run. *)
Fixpoint stdout_read (turns : list (Turn (Value := Value))) : string :=
  match turns with
  | [] | Reads Finished :: _ => ""
  | Reads (Stdout chunk) :: turns => chunk +:+ stdout_read turns
  | _ :: turns => stdout_read turns
  end.

(** The messages of a run, and those of this task. *)
Definition message_of (x : Sent (Value := Value)) : LogMsg Entry := match x with Mine m | Theirs m => m end.
Definition mine (out : list (Sent (Value := Value))) : list (LogMsg Entry) :=
  omap (fun x => match x with Mine m => Some m | Theirs _ => None end) out.

Definition all_mine (r : Task_ Value * list (LogMsg Entry)) : Task_ Value * list (Sent (Value := Value)) :=
  (r.1, Mine <$> r.2).

(** The reference: the complete lines of a text one by one, then what is left. *)
Definition process_text (worktree_path : string) (t : Task_ Value) (text : string)
    : Task_ Value * list (LogMsg Entry) :=
  let '(t, out) := process_lines worktree_path t (complete_lines text) in
  let '(t, rest) := process_rest t (last_piece newline text) in
  (t, out ++ rest).

Lemma process_lines_app wt (t : Task_ Value) ls ls' :
  process_lines wt t (ls ++ ls') =
    let '(t, out) := process_lines wt t ls in
    let '(t, rest) := process_lines wt t ls' in (t, out ++ rest).
Proof.
  revert t. induction ls as [|l ls IH]; intros t; cbn; [by destruct (process_lines wt t ls')|].
  destruct (process_line wt t l) as [t1 o1]. rewrite IH.
  destruct (process_lines wt t1 ls) as [t2 o2]. destruct (process_lines wt t2 ls') as [t3 o3].
  by rewrite app_assoc.
Qed.

Lemma process_logs_from wt msgs : forall (t : Task_ Value) buffer theirs,
  contains_char newline buffer = false ->
  process_logs wt t buffer theirs (Reads (Value := Value) <$> msgs) =
    all_mine (process_text wt t (buffer +:+ stdout_text msgs)).
Proof.
  assert (forall (t : Task_ Value) b, contains_char newline b = false ->
            process_rest t b = process_text wt t (b +:+ "")) as Hend.
  { intros t b Hb. unfold process_text. rewrite sapp_nil_r, complete_lines_none, last_piece_none by done.
    cbn. by destruct (process_rest t b). }
  assert (forall (t : Task_ Value) b, contains_char newline b = false ->
            (let '(t, out) := process_rest t b in (t, Mine <$> out))
            = all_mine (process_text wt t (b +:+ ""))) as Hend'.
  { intros t b Hb. rewrite (Hend t b Hb). by destruct (process_text wt t _). }
  induction msgs as [|m msgs IH]; intros t b th Hb; [by apply Hend'|].
  rewrite fmap_cons. destruct m; cbn [process_logs stdout_text]; try (by apply IH); try (by apply Hend').
  unfold process_chunk. rewrite <-sapp_assoc.
  destruct (complete_lines_app (b +:+ s) (stdout_text msgs)) as [Hl Hp]. unfold process_text.
  rewrite Hl, Hp, process_lines_app. unfold complete_lines at 1.
  destruct (process_lines wt t _) as [t1 o1] eqn:H1. rewrite IH by apply last_piece_cut.
  unfold process_text. destruct (process_lines wt t1 _) as [t2 o2].
  destruct (process_rest t2 _) as [t3 o3]. unfold all_mine. cbn [fst snd]. by rewrite !fmap_app, app_assoc.
Qed.

(** The entries of a conversation do not depend on how the agent's output is cut into
    chunks: the stream is processed as the lines of its text. *)
Theorem chunks_do_not_matter wt (t : Task_ Value) msgs :
  process_logs wt t "" [] (Reads (Value := Value) <$> msgs) = all_mine (process_text wt t (stdout_text msgs)).
Proof. by rewrite process_logs_from, sapp_nil_l. Qed.

(** ** The entries the processor refers to *)

Definition is_tool (e : Entry) : Prop :=
  match Logs.entry_type e with ToolUse _ _ _ => True | _ => False end.

(** The entry of a block shows the text received of it. *)
Definition shows (c : StreamingContentState) (e : Entry) : Prop :=
  Logs.entry_type e = match kind c with KText => AssistantMessage | KThinking => Thinking end /\
  Logs.content e = buffer c.

Definition is_block (e : Entry) : Prop :=
  Logs.entry_type e = AssistantMessage \/ Logs.entry_type e = Thinking.

(** A repeated system message shows how often it came. *)
Definition repeats (r : RepeatedSystemMessage) (e : Entry) : Prop :=
  Logs.entry_type e = SystemMessage /\
  Logs.content e = if rs_count r =? 1 then rs_content r
                   else rs_content r +:+ " " +:+ repeat_ticks (rs_count r).

(** The entry index of a block of a streamed message. *)
Definition block (p : ClaudeLogProcessor Value) (m : string) (k : Z) : option StreamingContentState :=
  s ← streaming_messages p !! m; contents s !! k.

Record inv (doc : list Entry) (st : St Value) : Prop := {
  inv_counter : st.2 = Z.of_nat (length doc);
  inv_tools id info : tool_map st.1 !! id = Some info -> holds doc (entry_index info) is_tool;
  inv_blocks m k c i : block st.1 m k = Some c -> sc_entry_index c = Some i -> holds doc i (shows c);
  inv_apart m k c m' k' c' i :
    block st.1 m k = Some c -> sc_entry_index c = Some i ->
    block st.1 m' k' = Some c' -> sc_entry_index c' = Some i -> m = m' /\ k = k';
  inv_system r : repeated_system_message st.1 = Some r -> 1 <= rs_count r /\ holds doc (rs_entry_index r) (repeats r);
  inv_grok r : repeated_grok_command st.1 = Some r -> 1 <= rg_count r /\ holds doc (rg_entry_index r) is_tool;
  inv_amp : strategy st.1 = AmpResume -> streaming_messages st.1 = ∅;
  inv_role m s : streaming_messages st.1 !! m = Some s -> sm_role s = "assistant";
}.

(** What the standard error shows; the processor adds such entries too and never replaces one. *)
Definition is_error (e : Entry) : Prop :=
  match Logs.entry_type e with ErrorMessage _ => True | _ => False end.

(** Entries of errors stay entries of errors. *)
Definition kept (doc doc' : list Entry) : Prop := forall i, holds doc i is_error -> holds doc' i is_error.

#[global] Instance kept_preorder : PreOrder kept.
Proof. split; [by intros doc i|]. intros d1 d2 d3 H1 H2 i Hi. by apply H2, H1. Qed.

Lemma tool_not_block e : is_tool e -> is_block e -> False.
Proof. unfold is_tool, is_block. by intros He [Ht|Ht]; rewrite Ht in He. Qed.

Lemma shows_block c e : shows c e -> is_block e.
Proof. unfold is_block. intros [-> _]. destruct (kind c); auto. Qed.

Lemma system_not_tool r e : repeats r e -> is_tool e -> False.
Proof. unfold is_tool. by intros [-> _]. Qed.

Lemma system_not_block r e : repeats r e -> is_block e -> False.
Proof. by intros [Hr _] [He|He]; rewrite Hr in He. Qed.

Lemma tool_not_error e : is_tool e -> ~ is_error e.
Proof. unfold is_tool, is_error. intros Ht He. by destruct (Logs.entry_type e). Qed.

Lemma block_not_error e : is_block e -> ~ is_error e.
Proof. unfold is_block, is_error. intros [Ht|Ht] He; by rewrite Ht in He. Qed.

Lemma shows_not_error c e : shows c e -> ~ is_error e.
Proof. intros He%shows_block. by apply block_not_error. Qed.

Lemma repeats_not_error r e : repeats r e -> ~ is_error e.
Proof. unfold is_error. intros [Ht _] He. by rewrite Ht in He. Qed.

(** A step from a conversation: its patches apply, the processor agrees with what they
    give, and the entries outside [T] are as they were. *)
Definition good_on (T : Z -> Prop) (doc : list Entry) (st : St Value) (r : St Value * list Patch) : Prop :=
  Z.of_nat (length doc + length r.2) <= usize_max ->
  exists doc', apply_patches doc r.2 = Some doc' /\ inv doc' r.1 /\
    (length doc' <= length doc + length r.2)%nat /\
    strategy r.1.1 = strategy st.1 /\ (strategy st.1 = Default -> kept doc doc') /\
    (forall i P, ~ T i -> holds doc i P -> holds doc' i P).

Definition good : list Entry -> St Value -> St Value * list Patch -> Prop := good_on (fun _ => True).

Lemma good_weaken (T T' : Z -> Prop) doc st r :
  (forall i, T i -> T' i) -> good_on T doc st r -> good_on T' doc st r.
Proof. intros HT Hg Hl. destruct (Hg Hl) as (d & ? & ? & ? & ? & ? & Hf). exists d. split_and!; eauto. Qed.

Lemma good_of_on T doc st r : good_on T doc st r -> good doc st r.
Proof. by apply good_weaken. Qed.

Lemma good_nothing T doc st st' :
  inv doc st' -> strategy st'.1 = strategy st.1 -> good_on T doc st (st', []).
Proof. intros Hi Hs _. exists doc. cbn. split_and!; [done|done|lia|done|done|done]. Qed.

Lemma good_none doc st st' :
  inv doc st' -> strategy st'.1 = strategy st.1 -> good doc st (st', []).
Proof. apply good_nothing. Qed.

(** The second step starts where the first leaves the entries it does not touch. *)
Lemma good_bind_on T doc st st1 ps1 st2 ps2 :
  good_on T doc st (st1, ps1) ->
  (forall doc1, inv doc1 st1 -> (forall i P, ~ T i -> holds doc i P -> holds doc1 i P) ->
                good doc1 st1 (st2, ps2)) ->
  good doc st (st2, ps1 ++ ps2).
Proof.
  intros H1 H2 Hl. cbn [snd fst] in *. rewrite length_app in Hl.
  destruct (H1 ltac:(cbn; lia)) as (d1 & Ha1 & Hi1 & Hl1 & Hs1 & Hk1 & Hf1). cbn in *.
  destruct (H2 d1 Hi1 Hf1 ltac:(cbn; lia)) as (d2 & Ha2 & Hi2 & Hl2 & Hs2 & Hk2 & _). cbn in *.
  exists d2. rewrite apply_patches_app, Ha1. cbn. rewrite length_app.
  split_and!; [done|done|lia|congruence| |by intros i P []].
  intros Hd. etrans; [by apply Hk1|]. apply Hk2. congruence.
Qed.

Lemma good_bind doc st st1 ps1 st2 ps2 :
  good doc st (st1, ps1) -> (forall doc1, inv doc1 st1 -> good doc1 st1 (st2, ps2)) ->
  good doc st (st2, ps1 ++ ps2).
Proof. intros H1 H2. eapply good_bind_on; [exact H1|]. eauto. Qed.

(** What a step does not touch. *)
Definition same_refs (p p' : ClaudeLogProcessor Value) : Prop :=
  tool_map p' = tool_map p /\ streaming_messages p' = streaming_messages p /\
  repeated_system_message p' = repeated_system_message p /\
  repeated_grok_command p' = repeated_grok_command p /\ strategy p' = strategy p.

Lemma inv_refs doc p p' c : same_refs p p' -> inv doc (p, c) -> inv doc (p', c).
Proof.
  intros (Ht & Hm & Hs & Hg & Hst) [? ? H3 H4 ? ? ? ?]. cbn in *.
  split; cbn; rewrite ?Ht, ?Hm, ?Hs, ?Hg, ?Hst; try done.
  - intros m k c0 i Hb. eapply H3. unfold block in *. by rewrite <-Hm.
  - intros m k c0 m' k' c' i Hb Hc Hb'. unfold block in *. rewrite Hm in *. by eapply H4.
Qed.

Lemma inv_app doc p c e c' :
  c' = c + 1 -> inv doc (p, c) -> inv (doc ++ [e]) (p, c').
Proof.
  intros -> [Hc ? ? ? Hs Hg ? ?]. cbn in *. split; cbn; eauto using holds_app.
  - rewrite length_app. cbn. lia.
  - intros r Hr. destruct (Hs r Hr). eauto using holds_app.
  - intros r Hr. destruct (Hg r Hr). eauto using holds_app.
Qed.

Lemma kept_app doc e : kept doc (doc ++ [e]).
Proof. intros i. apply holds_app. Qed.

Lemma next_counter (doc : list Entry) c :
  c = Z.of_nat (length doc) -> Z.of_nat (length doc + 1) <= usize_max -> EntryIndex.next c = (c, c + 1).
Proof. intros -> Hl. unfold EntryIndex.next. rewrite Z.mod_small; [done|lia]. Qed.

(** An index that no streamed block, or no repeated message, holds. *)
Definition unheld (p : ClaudeLogProcessor Value) (i : Z) : Prop :=
  forall m k c, block p m k = Some c -> sc_entry_index c <> Some i.
Definition not_repeated (p : ClaudeLogProcessor Value) (i : Z) : Prop :=
  forall r, repeated_system_message p = Some r -> rs_entry_index r <> i.

Lemma inv_set doc p c i e :
  inv doc (p, c) -> 0 <= i -> (holds doc i is_tool -> is_tool e) -> unheld p i -> not_repeated p i ->
  inv (<[Z.to_nat i := e]> doc) (p, c).
Proof.
  intros [Hc Ht Hb Ha Hs Hg Hm ?] Hi He Hu Hn. cbn in *. split; cbn; eauto.
  - by rewrite length_insert.
  - intros id info Hinfo. apply holds_set; [eauto|intros ->; apply He; eauto|done].
  - intros m k c0 j Hbl Hj. apply holds_set; [eauto|intros ->; by destruct (Hu _ _ _ Hbl)|done].
  - intros r Hr. destruct (Hs r Hr). split; [done|].
    apply holds_set; [done|intros Heq; by destruct (Hn r Hr)|done].
  - intros r Hr. destruct (Hg r Hr) as [? Hh]. split; [done|].
    apply holds_set; [done|intros ->; by apply He|done].
Qed.

Lemma tool_unheld doc p c i : inv doc (p, c) -> holds doc i is_tool -> unheld p i /\ not_repeated p i.
Proof.
  intros Hi Ht. split.
  - intros m k c0 Hb Hc. destruct (holds_apart _ _ _ _ Ht (inv_blocks _ _ Hi _ _ _ _ Hb Hc)) as (e & He & Hs).
    eapply tool_not_block; [done|]. by eapply shows_block.
  - intros r Hr <-. destruct (inv_system _ _ Hi r Hr) as [_ Hh].
    destruct (holds_apart _ _ _ _ Ht Hh) as (e & He & Hs). by eapply system_not_tool.
Qed.

Lemma block_not_repeated doc p c i : inv doc (p, c) -> holds doc i is_block -> not_repeated p i.
Proof.
  intros Hi Ht r Hr <-. destruct (inv_system _ _ Hi r Hr) as [_ Hh].
  destruct (holds_apart _ _ _ _ Ht Hh) as (e & He & Hs). by eapply system_not_block.
Qed.

Lemma kept_set doc i e (P : Entry -> Prop) :
  holds doc i P -> (forall x, P x -> ~ is_error x) -> kept doc (<[Z.to_nat i := e]> doc).
Proof.
  intros Hh Hp j Hj. apply holds_set; [done|intros ->|apply Hh].
  destruct (holds_apart _ _ _ _ Hh Hj) as (x & Hx & He). by destruct (Hp x Hx).
Qed.

(** Replacing the entry at an index, and adding one. *)
Lemma good_replace_on doc st st' i e (P : Entry -> Prop) :
  holds doc i P -> inv (<[Z.to_nat i := e]> doc) st' -> (forall x, P x -> ~ is_error x) ->
  strategy st'.1 = strategy st.1 -> good_on (eq i) doc st (st', [PlainText.replace i e]).
Proof.
  intros Hh Hi He Hs Hl. cbn [snd fst length] in *. pose proof (holds_range _ _ _ Hh).
  exists (<[Z.to_nat i := e]> doc). rewrite apply_replace by lia. rewrite length_insert.
  split_and!; [done|done|lia|done|intros _; by eapply kept_set|].
  intros j Q Hne Hj. by apply holds_set; [|intros ->|lia].
Qed.

Lemma good_fresh_on doc p c st' e :
  inv doc (p, c) ->
  ((c + 1) `mod` (usize_max + 1) = c + 1 -> inv (doc ++ [e]) st') ->
  strategy st'.1 = strategy p ->
  good_on (fun _ => False) doc (p, c) (st', [PlainText.add_normalized_entry c e]).
Proof.
  intros Hi Hi' Hs Hl. cbn [snd fst length] in *. pose proof (inv_counter _ _ Hi) as Hc. cbn in Hc.
  exists (doc ++ [e]). rewrite Hc, apply_add by lia. rewrite length_app. cbn [length].
  split_and!; [done|apply Hi'; subst; apply Z.mod_small; lia|lia|done|intros _; apply kept_app|].
  intros i P _. apply holds_app.
Qed.

Lemma good_replace doc st st' i e (P : Entry -> Prop) :
  holds doc i P -> inv (<[Z.to_nat i := e]> doc) st' -> (forall x, P x -> ~ is_error x) ->
  strategy st'.1 = strategy st.1 -> good doc st (st', [PlainText.replace i e]).
Proof. intros. eapply good_of_on. by eapply good_replace_on. Qed.

Lemma good_fresh doc p c st' e :
  inv doc (p, c) ->
  ((c + 1) `mod` (usize_max + 1) = c + 1 -> inv (doc ++ [e]) st') ->
  strategy st'.1 = strategy p -> good doc (p, c) (st', [PlainText.add_normalized_entry c e]).
Proof. intros. eapply good_of_on. by apply good_fresh_on. Qed.

Lemma good_add_on doc p p' c e :
  inv doc (p, c) -> same_refs p p' ->
  good_on (fun _ => False) doc (p, c) (let '(st, patch) := add_entry (p', c) e in (st, [patch])).
Proof.
  intros Hi Hr. apply (good_fresh_on doc p c); [done| |apply Hr]. intros Hn. unfold fresh_index, EntryIndex.next.
  cbn [fst snd]. rewrite Hn. eapply inv_refs; [exact Hr|]. by eapply inv_app.
Qed.

Lemma good_add doc p p' c e :
  inv doc (p, c) -> same_refs p p' -> good doc (p, c) (let '(st, patch) := add_entry (p', c) e in (st, [patch])).
Proof. intros. eapply good_of_on. by apply good_add_on. Qed.

Lemma inv_tool_insert doc p c id info :
  inv doc (p, c) -> holds doc (entry_index info) is_tool ->
  inv doc (set_tools (<[id := info]> (tool_map p)) p, c).
Proof.
  intros [? Ht ? ? ? ? ? ?] Hh. split; cbn in *; eauto.
  intros id' info' [[<- <-]|[_ ?]]%lookup_insert_Some; eauto.
Qed.

Lemma inv_grok_set doc p c r :
  inv doc (p, c) -> (forall g, r = Some g -> 1 <= rg_count g /\ holds doc (rg_entry_index g) is_tool) ->
  inv doc (set_grok r p, c).
Proof. intros [? ? ? ? ? ? ? ?] Hh. split; cbn in *; eauto. Qed.

Lemma inv_system_set doc p c r :
  inv doc (p, c) -> (forall s, r = Some s -> 1 <= rs_count s /\ holds doc (rs_entry_index s) (repeats s)) ->
  inv doc (set_system_repeat r p, c).
Proof. intros [? ? ? ? ? ? ? ?] Hh. split; cbn in *; eauto. Qed.

Lemma good_tool_replace doc p c i e :
  inv doc (p, c) -> holds doc i is_tool -> is_tool e -> good doc (p, c) ((p, c), [PlainText.replace i e]).
Proof.
  intros Hi Hh He. destruct (tool_unheld _ _ _ _ Hi Hh). eapply good_replace; [done| |exact tool_not_error|done].
  apply inv_set; try done. apply Hh.
Qed.

Lemma good_status doc p c tool status wt :
  inv doc (p, c) -> good doc (p, c) ((p, c), replace_tool_entry_status p tool status wt).
Proof.
  intros Hi. unfold replace_tool_entry_status. destruct (tool_map p !! tool) as [info|] eqn:Ht.
  - apply good_tool_replace; [done|by eapply (inv_tools _ _ Hi)|done].
  - by apply good_none.
Qed.

Lemma good_task_progress doc p c m : inv doc (p, c) -> good doc (p, c) ((p, c), task_progress p m).
Proof.
  intros Hi. unfold task_progress. destruct (sys_tool_use_id m) as [i|]; [|by apply good_none].
  destruct (description m); [|by apply good_none]. destruct (tool_map p !! i) as [info|] eqn:Ht.
  - apply good_tool_replace; [done|by eapply (inv_tools _ _ Hi)|done].
  - by apply good_none.
Qed.

Lemma good_task_notification doc p c m : inv doc (p, c) -> good doc (p, c) ((p, c), task_notification p m).
Proof.
  intros Hi. unfold task_notification. destruct (sys_tool_use_id m) as [i|]; cbn; [|by apply good_none].
  destruct (tool_map p !! i) as [info|] eqn:Ht.
  - apply good_tool_replace; [done|by eapply (inv_tools _ _ Hi)|done].
  - by apply good_none.
Qed.

Lemma good_task_started doc p c m : inv doc (p, c) -> good doc (p, c) (task_started (p, c) m).
Proof.
  intros Hi. unfold task_started. destruct (sys_tool_use_id m) as [i|]; [|by apply good_none].
  cbn [fst]. destruct (tool_map p !! i); [by apply good_none|]. unfold fresh_index, EntryIndex.next. cbn [fst snd].
  apply good_fresh; [done| |done]. intros ->. apply inv_tool_insert; [by eapply inv_app|].
  pose proof (inv_counter _ _ Hi) as Hc. cbn in *. rewrite Hc. by apply holds_new.
Qed.

Lemma good_collapsible doc p c text md :
  inv doc (p, c) ->
  good doc (p, c) (let '(st, patch) := push_collapsible_system_message (p, c) text md in (st, [patch])).
Proof.
  intros Hi. unfold push_collapsible_system_message. cbn [fst snd].
  set (e t := {| Logs.entry_type := SystemMessage; Logs.content := t; Logs.metadata := md |}).
  assert (good doc (p, c)
    ((set_system_repeat (Some {| rs_entry_index := c; rs_content := text; rs_count := 1 |}) p,
      (c + 1) `mod` (usize_max + 1)), [PlainText.add_normalized_entry c (e text)])) as Hf.
  { apply good_fresh; [done| |done]. intros ->. apply inv_system_set; [by eapply inv_app|].
    pose proof (inv_counter _ _ Hi) as Hc. cbn in Hc.
    intros s [= <-]. split; [done|]. cbn. rewrite Hc. by apply holds_new. }
  destruct (repeated_system_message p) as [r|] eqn:Hr; [|exact Hf].
  destruct (String.eqb (rs_content r) text && (c =? rs_entry_index r + 1)) eqn:Hq; [|exact Hf].
  apply andb_true_iff in Hq as [Hq _]. apply String.eqb_eq in Hq.
  destruct (inv_system _ _ Hi r Hr) as [Hone Hh]. cbn in *.
  assert (holds doc (rs_entry_index r) is_tool -> False) as Hnt.
  { intros Ht. destruct (holds_apart _ _ _ _ Ht Hh) as (e0 & ? & ?). by eapply system_not_tool. }
  eapply good_replace; [exact Hh| |exact (repeats_not_error r)|done].
  set (r' := {| rs_entry_index := rs_entry_index r; rs_content := rs_content r; rs_count := rs_count r + 1 |}).
  assert (inv (<[Z.to_nat (rs_entry_index r) := e (text +:+ " " +:+ repeat_ticks (rs_count r + 1))]> doc)
            (set_system_repeat None p, c)) as Hset.
  { apply inv_set; [by apply inv_system_set|apply Hh|by intros ?%Hnt| |done].
    intros m k c0 Hb Hc. pose proof (inv_blocks _ _ Hi _ _ _ _ Hb Hc) as Hs.
    destruct (holds_apart _ _ _ _ Hh Hs) as (e0 & ? & ?%shows_block). by eapply system_not_block. }
  apply (inv_system_set _ _ _ (Some r')) in Hset; [exact Hset|]. intros s [= <-]. cbn. split; [lia|].
  eapply holds_eq; [exact Hh|]. split; [done|]. cbn. rewrite (proj2 (Z.eqb_neq _ 1)) by lia. by rewrite Hq.
Qed.

(** ** Tool calls *)

Lemma ticks_tool e n : is_tool e -> is_tool (add_grok_repeat_ticks e n).
Proof. unfold add_grok_repeat_ticks. by case_match. Qed.

Lemma built_is_tool t wt s : is_tool (build_tool_use_entry t wt s).1.1.
Proof. done. Qed.

(** A fresh index for a call, or the one of the command it repeats. *)
Lemma allocate_cases (p : ClaudeLogProcessor Value) c id t :
  exists r,
    allocate_tool_entry_index (p, c) id t = ((set_grok r p, (c + 1) `mod` (usize_max + 1)), (c, 1)) /\
      (forall g, r = Some g -> rg_entry_index g = c /\ rg_count g = 1 \/ repeated_grok_command p = Some g) \/
    exists g, allocate_tool_entry_index (p, c) id t =
                ((set_grok r p, c), (rg_entry_index g, rg_count g + 1)) /\
      repeated_grok_command p = Some g /\ 
      (forall g', r = Some g' -> rg_entry_index g' = rg_entry_index g /\ rg_count g' = rg_count g + 1).
Proof.
  assert (set_grok (repeated_grok_command p) p = p) as Hid by (by destruct p).
  assert (forall r, r = repeated_grok_command p -> forall g, r = Some g ->
            rg_entry_index g = c /\ rg_count g = 1 \/ repeated_grok_command p = Some g) as Hsame by (intros; subst; auto).
  destruct t; try (exists (repeated_grok_command p); left; rewrite Hid; split; [done|by apply Hsame]).
  cbn [allocate_tool_entry_index]. unfold fresh_index, EntryIndex.next. cbn [fst snd].
  case_match; [exists (repeated_grok_command p); left; rewrite Hid; split; [done|by apply Hsame]|].
  destruct (repeated_grok_command p) as [g|] eqn:Hg.
  - case_match; [|eexists; left; split; [reflexivity|intros ? [= <-]; by left]].
    eexists. right. exists g. split_and!; [reflexivity|done|by intros ? [= <-]].
  - eexists. left. split; [reflexivity|intros ? [= <-]; by left].
Qed.

Lemma good_tool_use_on doc p c streamed id t wt :
  inv doc (p, c) ->
  (forall i, streamed = Some i -> holds doc i is_block /\ unheld p i) ->
  good_on (fun i => streamed = Some i \/ holds doc i is_tool) doc (p, c)
    (let '(st, patch) := tool_use_patch (p, c) streamed id t wt in (st, [patch])).
Proof.
  intros Hi Hs. unfold tool_use_patch.
  destruct (build_tool_use_entry t wt Created) as [[e n] text] eqn:Hb.
  assert (is_tool e) as He by (pose proof (built_is_tool t wt Created) as H'; by rewrite Hb in H').
  set (old := match streamed with Some i => Some i | None => _ end).
  assert (forall i, old = Some i -> (streamed = Some i \/ holds doc i is_tool) /\
            exists P, holds doc i P /\ (forall x, P x -> ~ is_error x) /\ unheld p i /\ not_repeated p i) as Hold.
  { intros i. unfold old. destruct streamed as [j|]; cbn [fst].
    - intros [= ->]. destruct (Hs i eq_refl) as [Hh Hu].
      split; [by left|]. exists is_block.
      split_and!; [done|exact block_not_error|done|by eapply block_not_repeated].
    - destruct (tool_map p !! id) as [info|] eqn:Ht; [|done]. intros [= <-].
      pose proof (inv_tools _ _ Hi _ _ Ht) as Hh. split; [by right|].
      exists is_tool. split; [done|]. split; [exact tool_not_error|]. by eapply tool_unheld. }
  destruct old as [i|] eqn:Hold_eq.
  - rewrite bool_decide_false by done. cbn [andb fst]. destruct (Hold i eq_refl) as (HT & P & Hh & Hne & Hu & Hn).
    pose proof (ticks_tool e (grok_repeat_count_for_update p id i) He).
    apply (good_weaken (eq i)); [by intros j <-|]. eapply good_replace_on; [exact Hh| |exact Hne|done].
    apply inv_tool_insert; [apply inv_set; [done|apply Hh|done|done|done]|]. cbn. by eapply holds_eq.
  - rewrite bool_decide_true by done. cbn [andb].
    destruct (allocate_cases p c id t) as (r & [[-> Hr]|(g & -> & Hg & Hr)]).
    + change (1 =? 1) with true. cbn [fst snd]. apply (good_weaken (fun _ => False)); [by intros ? []|].
      eapply good_fresh_on; [done| |done]. intros ->.
      pose proof (inv_counter _ _ Hi) as Hc. cbn in Hc. pose proof (ticks_tool e 1 He).
      assert (holds (doc ++ [add_grok_repeat_ticks e 1]) c is_tool) by (rewrite Hc; by apply holds_new).
      apply (inv_tool_insert _ (set_grok r p)); [|done].
      apply inv_grok_set; [by eapply inv_app|]. intros g' Hg'.
      destruct (Hr g' Hg') as [[-> ->]|Hold']; [done|].
      destruct (inv_grok _ _ Hi g' Hold'). split; [done|by apply holds_app].
    + destruct (inv_grok _ _ Hi g Hg) as [Hone Hh]. cbn in Hone, Hh. destruct (tool_unheld _ _ _ _ Hi Hh).
      pose proof (ticks_tool e (rg_count g + 1) He) as Het.
      rewrite (proj2 (Z.eqb_neq (rg_count g + 1) 1)) by lia.
      apply (good_weaken (eq (rg_entry_index g))); [intros j <-; by right|]. eapply good_replace_on; [exact Hh| |exact tool_not_error|done].
      apply (inv_tool_insert _ (set_grok r p)); [|by eapply holds_eq].
      apply inv_grok_set; [by apply inv_set; [|apply Hh|..]|]. intros g' Hg'.
      destruct (Hr g' Hg') as [-> ->]. split; [lia|by eapply holds_eq].
Qed.

(** ** Messages of the assistant *)

(** The blocks of a streamed message, from a place on, are at entries nothing refers to. *)
Definition free_blocks (doc : list Entry) (p : ClaudeLogProcessor Value)
    (streaming : option StreamingMessageState) (k0 : Z) : Prop :=
  forall s, streaming = Some s ->
    (forall k i, k0 <= k -> content_entry_index s k = Some i -> holds doc i is_block /\ unheld p i) /\
    (forall k k' i, content_entry_index s k = Some i -> content_entry_index s k' = Some i -> k = k').

Lemma free_step doc doc1 p p1 streaming k :
  free_blocks doc p streaming k -> streaming_messages p1 = streaming_messages p ->
  (forall i P, ~ ((streaming ≫= fun s => content_entry_index s k) = Some i \/ holds doc i is_tool) ->
               holds doc i P -> holds doc1 i P) ->
  free_blocks doc1 p1 streaming (k + 1).
Proof.
  intros Hf Hp Hd s Hs. destruct (Hf s Hs) as [Hb Ha]. split; [|done]. intros k' i Hk Hi.
  destruct (Hb k' i ltac:(lia) Hi) as [Hh Hu]. split.
  - apply Hd; [|done]. rewrite Hs. cbn. intros [Hx|Ht].
    + pose proof (Ha _ _ _ Hi Hx). lia.
    + destruct (holds_apart _ _ _ _ Hh Ht) as (e & ? & ?). by eapply tool_not_block.
  - intros m j c. unfold block. rewrite Hp. apply Hu.
Qed.

Lemma tool_use_streaming st streamed id t wt :
  streaming_messages (tool_use_patch (Value := Value) st streamed id t wt).1.1 = streaming_messages st.1.
Proof.
  destruct st as [p c]. unfold tool_use_patch.
  destruct (build_tool_use_entry t wt Created) as [[e n] text]. cbn [fst].
  destruct (match streamed with Some i => _ | None => _ end); [done|].
  by destruct (allocate_cases p c id t) as (r & [[-> _]|(g & -> & _)]).
Qed.

Lemma set_last_refs l (p : ClaudeLogProcessor Value) : same_refs p (set_last l p).
Proof. done. Qed.

Lemma good_items role wt streaming items : forall doc p c k,
  inv doc (p, c) -> free_blocks doc p streaming k ->
  good doc (p, c) (assistant_items (p, c) streaming role wt k items).
Proof.
  induction items as [|item items IH]; intros doc p c k Hi Hf; [by apply good_none|].
  cbn [assistant_items]. set (idx := streaming ≫= fun s => content_entry_index s k) in *.
  set (head := match item with Text _ => _ | _ => _ end).
  assert (good_on (fun i => idx = Some i \/ holds doc i is_tool) doc (p, c) head /\
          streaming_messages head.1.1 = streaming_messages p) as [Hg Hm].
  2: { destruct head as [[p1 c1] ps1]. destruct (assistant_items (p1, c1) _ _ _ _ _) as [[p2 c2] ps2] eqn:H2.
       eapply good_bind_on; [exact Hg|]. intros doc1 Hi1 Hd. rewrite <-H2. apply IH; [done|].
       by eapply free_step. }
  assert (forall i, idx = Some i -> holds doc i is_block /\ unheld p i) as Hidx.
  { intros i. unfold idx. destruct streaming as [s|]; [|done]. cbn. intros Hk.
    destruct (Hf s eq_refl) as [Hb _]. by apply (Hb k); [lia|]. }
  assert (forall e l, good_on (fun i => idx = Some i \/ holds doc i is_tool) doc (p, c)
     match idx with
     | Some i => ((set_last l p, c), [PlainText.replace i e])
     | None => let '(st, patch) := add_entry (set_last l p, c) e in (st, [patch])
     end) as Hshow.
  { intros e l. destruct idx as [i|] eqn:Hx.
    - destruct (Hidx i eq_refl) as [Hh Hu]. apply (good_weaken (eq i)); [intros j <-; by left|].
      assert (holds doc i is_tool -> False) as Hnt
        by (intros Ht; destruct (holds_apart _ _ _ _ Hh Ht) as (? & ? & ?); by eapply tool_not_block).
      eapply good_replace_on; [exact Hh| |exact block_not_error|done].
      apply (inv_refs _ p); [done|]. apply inv_set; [done|apply Hh|by intros ?%Hnt|done|].
      by eapply block_not_repeated.
    - apply (good_weaken (fun _ => False)); [by intros ? []|]. by apply good_add_on. }
  assert (forall e l, streaming_messages
     (match idx with
      | Some i => ((set_last l p, c), [PlainText.replace i e])
      | None => let '(st, patch) := add_entry (set_last l p, c) e in (st, [patch])
      end).1.1 = streaming_messages p) as Hsame by (by intros e l; destruct idx).
  assert (forall l, good_on (fun i => idx = Some i \/ holds doc i is_tool) doc (p, c) ((set_last l p, c), [])) as Hskip
    by (intros l; by apply good_nothing; [apply (inv_refs _ p)|]).
  destruct item as [text|text|i t|]; unfold head; cbn [content_item_to_normalized_entry fst snd].
  - destruct (String.eqb role "assistant"); [split; [apply Hshow|apply Hsame]|by split; [apply Hskip|]].
  - split; [apply Hshow|apply Hsame].
  - pose proof (good_tool_use_on doc p c idx i t wt Hi Hidx) as Ht.
    pose proof (tool_use_streaming (p, c) idx i t wt) as Hst.
    destruct (tool_use_patch (p, c) idx i t wt) as [st patch]. by split.
  - split; [by apply good_nothing|done].
Qed.

(** Streamed messages that are forgotten. *)
Lemma inv_fewer doc p c ms i :
  inv doc (p, c) -> (forall m s, ms !! m = Some s -> streaming_messages p !! m = Some s) ->
  inv doc (set_streaming ms i p, c).
Proof.
  intros [? ? Hb Ha ? ? Hm ?] Hms. cbn in *.
  assert (forall m k c0, block (set_streaming ms i p) m k = Some c0 -> block p m k = Some c0) as Hbl.
  { intros m k c0. unfold block. cbn. destruct (ms !! m) eqn:He; [|done]. by rewrite (Hms _ _ He). }
  split; cbn; eauto.
  intros Hs. apply map_empty. intros m. destruct (ms !! m) eqn:He; [|done].
  apply Hms in He. by rewrite (Hm Hs), lookup_empty in He.
Qed.

Lemma good_model doc p c message : inv doc (p, c) -> good doc (p, c) (extract_model_name (p, c) message).
Proof.
  intros Hi. unfold extract_model_name. cbn [fst snd].
  destruct (model_name p), (model message); try by apply good_none.
  destruct (main_model_name p); by apply good_add.
Qed.

Lemma good_assistant doc p c message wt :
  inv doc (p, c) -> good doc (p, c) (normalize_assistant (p, c) message wt).
Proof.
  intros Hi. unfold normalize_assistant.
  pose proof (good_model doc p c message Hi) as H1.
  destruct (extract_model_name (p, c) message) as [[p1 c1] ps1]. cbn [fst snd].
  set (ms := match id message with Some i => _ | None => _ end).
  set (streaming := id message ≫= fun i => streaming_messages p1 !! i).
  destruct (assistant_items _ _ _ _ _ _) as [[p2 c2] ps2] eqn:H2.
  eapply good_bind; [exact H1|]. intros doc1 Hi1. rewrite <-H2. clear H2.
  assert (forall m s, ms !! m = Some s -> streaming_messages p1 !! m = Some s) as Hms.
  { intros m s. unfold ms. destruct (id message); [|done]. by intros [_ ?]%lookup_delete_Some. }
  assert (good doc1 (set_streaming ms (streaming_message_id p1) p1, c1)
    (assistant_items (set_streaming ms (streaming_message_id p1) p1, c1) streaming (role message) wt 0
       (items_of (msg_content message)))) as Hg; [|exact Hg].
  apply good_items; [by apply inv_fewer|]. intros s. unfold streaming.
  destruct (id message) as [i|] eqn:Hid; [|done]. cbn. intros Hs.
  assert (forall k j, content_entry_index s k = Some j ->
            exists c0, block p1 i k = Some c0 /\ sc_entry_index c0 = Some j) as Hblk.
  { intros k j (c0 & Hc0 & Hj)%bind_Some. exists c0. unfold block. by rewrite Hs. }
  split.
  - intros k j _ (c0 & Hb & Hj)%Hblk. split.
    + apply (holds_mono _ _ (shows c0)); [intros e; apply shows_block|]. by eapply (inv_blocks _ _ Hi1).
    + intros m k' c' Hb' Hj'. unfold block in Hb'. cbn in Hb'.
      apply bind_Some in Hb' as (s' & Hs' & Hc'). unfold ms in Hs'.
      apply lookup_delete_Some in Hs' as [Hne Hs'].
      destruct (inv_apart _ _ Hi1 i k c0 m k' c' j Hb Hj) as [-> _]; [|done|done].
      unfold block. cbn. by rewrite Hs'.
  - intros k k' j (c0 & Hb & Hj)%Hblk (c1' & Hb' & Hj')%Hblk.
    by destruct (inv_apart _ _ Hi1 i k c0 i k' c1' j Hb Hj Hb' Hj').
Qed.

(** ** Messages of the user *)

Lemma good_result_patch doc p c tool content is_error wt :
  inv doc (p, c) ->
  good doc (p, c) (let '(p', ps) := tool_result_patch p tool content is_error wt in ((p', c), ps)).
Proof.
  intros Hi. unfold tool_result_patch. destruct (tool_map p !! tool) as [info|] eqn:Ht; [|by apply good_none].
  assert (forall e, is_tool e -> good doc (p, c) ((p, c), [PlainText.replace (entry_index info) e])) as Hr.
  { intros e He. apply good_tool_replace; [done| |done]. by eapply (inv_tools _ _ Hi). }
  destruct (tool_data info) eqn:Hd;
    try (by apply good_none); try (by apply Hr);
    try (destruct (match rewrite_content_with_images wt content with Some _ => _ | None => _ end);
         by apply Hr);
    try (destruct (normalize_claude_tool_result_value content); by apply Hr).
  unfold grok_repeat_count_for_result. rewrite Hd.
  destruct (negb (is_grok_command command)); [by apply Hr, ticks_tool|].
  destruct (repeated_grok_command p) as [r|] eqn:Hg; [|by apply Hr, ticks_tool].
  destruct (negb (rg_entry_index r =? entry_index info)); [by apply Hr, ticks_tool|].
  destruct (negb (String.eqb (latest_tool_call_id r) tool)); [by apply good_none|].
  destruct (inv_grok _ _ Hi r Hg) as [Hone Hh]. cbn in Hone, Hh.
  pose proof (inv_tools _ _ Hi _ _ Ht) as Hin. destruct (tool_unheld _ _ _ _ Hi Hin).
  eapply good_replace; [exact Hin| |exact tool_not_error|done].
  apply inv_grok_set; [apply inv_set; [done|apply Hin|by intros; apply ticks_tool|done|done]|].
  intros g [= <-]. cbn. split; [done|].
  apply holds_set; [done|by intros; apply ticks_tool|apply Hin].
Qed.

Lemma good_results wt items : forall doc p c,
  inv doc (p, c) -> good doc (p, c) (let '(p', ps) := tool_results p wt items in ((p', c), ps)).
Proof.
  induction items as [|item items IH]; intros doc p c Hi; [by apply good_none|]. cbn [tool_results].
  assert (good doc (p, c)
    (let '(p', ps) := match item with
                      | ToolResult_ t content e => tool_result_patch p t content e wt
                      | _ => (p, [])
                      end in ((p', c), ps))) as H1.
  { destruct item; try by apply good_none. by apply good_result_patch. }
  destruct (match item with Text _ => _ | _ => _ end) as [p1 ps1].
  destruct (tool_results p1 wt items) as [p2 ps2] eqn:H2.
  eapply good_bind; [exact H1|]. intros doc1 Hi1. specialize (IH doc1 p1 c Hi1). by rewrite H2 in IH.
Qed.

Lemma good_entries es : forall doc p c, inv doc (p, c) -> good doc (p, c) (add_entries (p, c) es).
Proof.
  induction es as [|e es IH]; intros doc p c Hi; [by apply good_none|]. cbn [add_entries].
  pose proof (good_add doc p p c e Hi ltac:(done)) as H1.
  destruct (add_entry (p, c) e) as [[p1 c1] patch].
  destruct (add_entries (p1, c1) es) as [[p2 c2] ps2] eqn:H2.
  change (patch :: ps2) with ([patch] ++ ps2). eapply good_bind; [exact H1|].
  intros doc1 Hi1. specialize (IH doc1 p1 c1 Hi1). by rewrite H2 in IH.
Qed.

Lemma good_restart doc p c items : inv doc (p, c) -> good doc (p, c) (amp_restart (p, c) items).
Proof.
  intros Hi. unfold amp_restart. cbn [fst snd].
  destruct (bool_decide (strategy p = AmpResume)) eqn:Hs; cbn [andb]; [|by apply good_none].
  apply bool_decide_eq_true in Hs. case_bool_decide; [|by apply good_none].
  set (cleared := if 0 <? c then _ else _).
  assert (good doc (p, c) cleared) as Hg1.
  { unfold cleared. destruct (0 <? c) eqn:Hc; [|by apply good_none]. intros Hl.
    pose proof (inv_counter _ _ Hi) as Hlen. cbn in Hlen. subst c. rewrite Nat2Z.id in *.
    exists []. cbn [fst snd]. rewrite apply_clear. split_and!; try done; [|cbn; lia|by intros Hd; rewrite Hs in Hd].
    pose proof (inv_amp _ _ Hi Hs) as Hm. cbn in Hm.
    split; cbn; try done.
    - intros m k c0 j. unfold block. cbn. by rewrite Hm, lookup_empty.
    - intros m k c0 m' k' c' j. unfold block. cbn. by rewrite Hm, lookup_empty.
    - intros m s. by rewrite Hm, lookup_empty. }
  destruct cleared as [[p1 c1] ps1].
  destruct (add_entries (p1, c1) _) as [[p2 c2] ps2] eqn:Hg2. eapply good_bind; [exact Hg1|].
  intros doc1 Hi1. rewrite <-Hg2. by apply good_entries.
Qed.

Lemma good_user doc p c message syn replay wt :
  inv doc (p, c) -> good doc (p, c) (normalize_user (p, c) message syn replay wt).
Proof.
  intros Hi. unfold normalize_user. destruct replay; [by apply good_none|].
  pose proof (good_restart doc p c (items_of (msg_content message)) Hi) as H1.
  destruct (amp_restart (p, c) _) as [[p1 c1] ps1].
  set (synth := if syn then _ else _).
  assert (forall doc1, inv doc1 (p1, c1) -> good doc1 (p1, c1) synth) as H2.
  { intros doc1 Hi1. unfold synth. destruct syn; [by apply good_entries|by apply good_none]. }
  destruct synth as [[p2 c2] ps2].
  set (local := match msg_content message with TextContent _ => _ | ArrayContent _ => _ end).
  assert (forall doc2, inv doc2 (p2, c2) -> good doc2 (p2, c2) local) as H3.
  { intros doc2 Hi2. unfold local. destruct (msg_content message); [by apply good_none|by apply good_add]. }
  destruct local as [[p3 c3] ps3]. cbn [fst snd].
  destruct (tool_results p3 wt _) as [p4 ps4] eqn:H4.
  eapply good_bind; [exact H1|]. intros doc1 Hi1. eapply good_bind; [by apply H2|]. intros doc2 Hi2.
  eapply good_bind; [by apply H3|]. intros doc3 Hi3.
  pose proof (good_results wt (items_of (msg_content message)) doc3 p3 c3 Hi3) as H5. by rewrite H4 in H5.
Qed.

(** ** Streamed messages *)

Definition put_block (p : ClaudeLogProcessor Value) (m : string) (s : StreamingMessageState) (k : Z)
    (c0 : StreamingContentState) : ClaudeLogProcessor Value :=
  set_streaming (<[m := set_content s k c0]> (streaming_messages p)) (streaming_message_id p) p.

Lemma block_put p m s k c0 m' k' :
  streaming_messages p !! m = Some s ->
  block (put_block p m s k c0) m' k' = if decide (m' = m /\ k' = k) then Some c0 else block p m' k'.
Proof.
  intros Hs. unfold block, put_block. cbn. case_decide as Hd.
  - destruct Hd as [-> ->]. rewrite lookup_insert_eq. cbn. apply lookup_insert_eq.
  - destruct (decide (m' = m)) as [->|Hne]; [|by rewrite lookup_insert_ne].
    rewrite lookup_insert_eq, Hs. cbn. apply lookup_insert_ne. naive_solver.
Qed.

Lemma inv_put doc p c m s k c0 :
  inv doc (p, c) -> streaming_messages p !! m = Some s ->
  (forall i, sc_entry_index c0 = Some i -> holds doc i (shows c0) /\
     forall m' k' c', ~ (m' = m /\ k' = k) -> block p m' k' = Some c' -> sc_entry_index c' <> Some i) ->
  inv doc (put_block p m s k c0, c).
Proof.
  intros [? ? Hb Ha ? ? Hm Hr] Hs Hc. cbn in *. split; cbn; eauto.
  - intros m' k' c' i. rewrite (block_put _ _ _ _ _ _ _ Hs). case_decide; [|apply Hb].
    intros [= <-] Hi. by apply Hc.
  - intros m1 k1 c1 m2 k2 c2 i. rewrite !(block_put _ _ _ _ _ _ _ Hs).
    case_decide as H1; case_decide as H2.
    + intros _ _ _ _. naive_solver.
    + intros [= <-] Hi Hb2 Hi2. by destruct (proj2 (Hc i Hi) m2 k2 c2 H2 Hb2).
    + intros Hb1 Hi1 [= <-] Hi. by destruct (proj2 (Hc i Hi) m1 k1 c1 H1 Hb1).
    + apply Ha.
  - intros Hd. by rewrite (Hm Hd), lookup_empty in Hs.
  - intros m' s' [[<- <-]|[_ Hl]]%lookup_insert_Some; [exact (Hr _ _ Hs)|eauto].
Qed.

Lemma put_put p m s k c0 c1 :
  put_block (put_block p m s k c0) m (set_content s k c0) k c1 = put_block p m s k c1.
Proof.
  unfold put_block, set_content. cbn. by rewrite !insert_insert_eq.
Qed.

Lemma shown_item c0 wt last :
  exists e l, content_item_to_normalized_entry (Value := Value) (to_content_item c0) "assistant" wt last = (Some e, l) /\
    shows c0 e.
Proof. unfold to_content_item, shows. destruct (kind c0); by repeat esplit. Qed.

Lemma apply_delta_index c0 d : sc_entry_index (apply_content_delta c0 d) = sc_entry_index c0.
Proof. unfold apply_content_delta. by destruct (kind c0), d. Qed.

Lemma good_delta doc p c m s index delta wt :
  inv doc (p, c) -> streaming_messages p !! m = Some s ->
  good doc (p, c)
    (let '(s', last, c', patch) :=
       apply_content_block_delta s index delta wt c (last_assistant_message p) in
     ((set_last last (set_streaming (<[m := s']> (streaming_messages p)) (streaming_message_id p) p), c'),
      match patch with Some patch => [patch] | None => [] end)).
Proof.
  intros Hi Hs. unfold apply_content_block_delta.
  destruct (match contents s !! index with Some _ => _ | None => _ end) as [c0|] eqn:Hc0.
  2: { apply good_none; [|done]. rewrite insert_id by done. by apply (inv_refs _ p). }
  assert (forall i, sc_entry_index c0 = Some i -> block p m index = Some c0) as Hblk.
  { intros i Hx. unfold block. rewrite Hs. cbn. destruct (contents s !! index); [done|].
    destruct delta; by simplify_eq/=. }
  set (c1 := apply_content_delta c0 delta). pose proof (inv_role _ _ Hi _ _ Hs) as Hrole. rewrite Hrole.
  destruct (shown_item c1 wt (last_assistant_message p)) as (e & l & -> & Hsh).
  pose proof (apply_delta_index c0 delta) as Hidx. fold c1 in Hidx.
  destruct (sc_entry_index c1) as [i|] eqn:Hc1.
  - symmetry in Hidx. specialize (Hblk i Hidx). pose proof (inv_blocks _ _ Hi _ _ _ _ Hblk Hidx) as Hh.
    assert (holds doc i is_block) as Hib by (apply (holds_mono _ _ (shows c0)); [intros ?; apply shows_block|done]).
    assert (holds doc i is_tool -> False) as Hnt
      by (intros Ht; destruct (holds_apart _ _ _ _ Hib Ht) as (? & ? & ?); by eapply tool_not_block).
    eapply good_replace; [exact Hh| |exact (shows_not_error c0)|done].
    apply (inv_refs _ (put_block p m s index c1)); [done|].
    rewrite <-(put_put p m s index {| kind := kind c0; buffer := ""; sc_entry_index := None |} c1).
    set (cn := {| kind := kind c0; buffer := ""; sc_entry_index := None |}).
    assert (forall m' k' c', ~ (m' = m /\ k' = index) -> block p m' k' = Some c' -> sc_entry_index c' <> Some i) as Hothers.
    { intros m' k' c' Hne Hb' Hi'. destruct (inv_apart _ _ Hi m index c0 m' k' c' i); [done..|naive_solver]. }
    assert (inv doc (put_block p m s index cn, c)) as Hn by (by apply inv_put).
    apply inv_put.
    + apply inv_set; [done|apply Hh|by intros ?%Hnt| |by eapply (block_not_repeated doc (put_block p m s index cn) c)].
      intros m' k' c'. rewrite (block_put _ _ _ _ _ _ _ Hs). case_decide; [by intros [= <-]|by apply Hothers].
    + unfold put_block. cbn. by rewrite lookup_insert_eq.
    + intros j Hj. rewrite Hc1 in Hj. injection Hj as <-. split; [by eapply holds_eq|].
      intros m' k' c' Hne. rewrite (block_put _ _ _ _ _ _ _ Hs), decide_False by done. by apply Hothers.
  - unfold EntryIndex.next. apply good_fresh; [done| |done]. intros ->.
    set (c2 := {| kind := kind c1; buffer := buffer c1; sc_entry_index := Some c |}).
    apply (inv_refs _ (put_block p m s index c2)); [done|]. pose proof (inv_counter _ _ Hi) as Hc. cbn in Hc.
    apply inv_put; [by eapply inv_app|done|]. intros j [= <-]. split.
    + rewrite Hc at 1. by apply holds_new.
    + intros m' k' c' _ Hb' Hi'. pose proof (inv_blocks _ _ Hi _ _ _ _ Hb' Hi') as Hr%holds_range. lia.
Qed.

Lemma inv_new_message doc p c m cur :
  inv doc (p, c) -> strategy p <> AmpResume ->
  inv doc (set_streaming (<[m := {| sm_role := "assistant"; contents := ∅ |}]> (streaming_messages p)) cur p, c).
Proof.
  intros [? ? Hb Ha ? ? Hm Hr] Hs. cbn in *.
  set (p' := set_streaming _ _ _).
  assert (forall m' k' c0, block p' m' k' = Some c0 -> block p m' k' = Some c0) as Hbl.
  { intros m' k' c0. unfold block, p'. cbn. destruct (decide (m' = m)) as [->|Hne].
    - rewrite lookup_insert_eq. cbn. by rewrite lookup_empty.
    - by rewrite lookup_insert_ne. }
  split; cbn; eauto; [by intros|].
  intros m' s' [[<- <-]|[_ Hl]]%lookup_insert_Some; [done|eauto].
Qed.

Lemma good_stream_event doc p c event parent wt :
  inv doc (p, c) -> strategy p <> AmpResume ->
  good doc (p, c) (normalize_stream_event (p, c) event parent wt).
Proof.
  intros Hi Hs. destruct event as [message|index b|index d|index|dl u| |]; cbn [normalize_stream_event fst snd].
  - destruct (String.eqb (role message) "assistant") eqn:Hr.
    2: { apply good_none; [|done]. by apply inv_fewer. }
    apply String.eqb_eq in Hr. rewrite Hr.
    pose proof (good_model doc p c message Hi) as Hg.
    destruct (extract_model_name (p, c) message) as [[p1 c1] ps1].
    assert (forall st, (forall doc1, inv doc1 (p1, c1) -> inv doc1 st) -> strategy st.1 = strategy p1 ->
              good doc (p, c) (st, ps1)) as Hend.
    { intros st Hst Hss. rewrite <-(app_nil_r ps1). eapply good_bind; [exact Hg|]. intros doc1 Hi1.
      by apply good_none; [apply Hst|]. }
    destruct (id message) as [i|]; [|apply Hend; [intros; by apply inv_fewer|done]].
    intros Hl. apply (Hend (set_streaming (<[i := {| sm_role := "assistant"; contents := ∅ |}]>
                                            (streaming_messages p1)) (Some i) p1, c1)); [|done|exact Hl].
    intros doc1 Hi1. apply inv_new_message; [done|].
    destruct (Hg ltac:(exact Hl)) as (_ & _ & _ & _ & Hst & _). cbn in Hst. congruence.
  - destruct (streaming_message_id p) as [i|] eqn:Hid; cbn; [|by apply good_none].
    destruct (streaming_messages p !! i) as [s|] eqn:Hm; cbn; [|by apply good_none].
    apply good_none; [|done]. unfold content_block_start.
    destruct (from_content_block b) as [c0|] eqn:Hb.
    + rewrite <-Hid. apply (inv_put doc p c i s index c0); [done|done|].
      intros j Hj. by destruct b; simplify_eq/=.
    + rewrite insert_id by done. apply (inv_refs _ p); [by split_and!|done].
  - destruct (streaming_message_id p) as [i|] eqn:Hid; cbn; [|by apply good_none].
    destruct (streaming_messages p !! i) as [s|] eqn:Hm; cbn; [|by apply good_none].
    pose proof (good_delta doc p c i s index d wt Hi Hm) as Hg. rewrite Hid in Hg. exact Hg.
  - by apply good_none.
  - destruct parent, u; try by apply good_none. by apply good_add.
  - destruct (streaming_message_id p); [|by apply good_none]. apply good_none; [|done].
    apply inv_fewer; [done|]. by intros m s' [_ ?]%lookup_delete_Some.
  - by apply good_none.
Qed.

(** ** What is said *)

(** A patch that shows an entry. *)
Inductive shown_by (e : Entry) : Patch -> Prop :=
| by_add path : shown_by e [PAdd path e]
| by_replace path : shown_by e [PReplace path e].

Definition spoken (patches : list Patch) (text : string) : Prop :=
  exists patch e, patch ∈ patches /\ shown_by e patch /\
    Logs.entry_type e = AssistantMessage /\ Logs.content e = text.

(** The last text of the assistant, after a step, is the one before it or was shown by it. *)
Definition tells (p p' : ClaudeLogProcessor Value) (patches : list Patch) : Prop :=
  forall text, last_assistant_message p' = Some text ->
    last_assistant_message p = Some text \/ spoken patches text.

Lemma tells_same p p' ps : last_assistant_message p' = last_assistant_message p -> tells p p' ps.
Proof. intros Hs text. rewrite Hs. by left. Qed.

Lemma spoken_app ps ps' text : spoken ps text \/ spoken ps' text -> spoken (ps ++ ps') text.
Proof. intros [(q & e & ? & ?)|(q & e & ? & ?)]; exists q, e; rewrite elem_of_app; auto. Qed.

Lemma tells_then p p1 p2 ps1 ps2 : tells p p1 ps1 -> tells p1 p2 ps2 -> tells p p2 (ps1 ++ ps2).
Proof.
  intros H1 H2 text Ht. destruct (H2 text Ht) as [Hm|Hs]; [|right; apply spoken_app; auto].
  destruct (H1 text Hm); [by left|right; apply spoken_app; auto].
Qed.

Lemma tool_use_last st streamed id t wt :
  last_assistant_message (tool_use_patch (Value := Value) st streamed id t wt).1.1 = last_assistant_message st.1.
Proof.
  destruct st as [p c]. unfold tool_use_patch.
  destruct (build_tool_use_entry t wt Created) as [[e n] text]. cbn [fst].
  destruct (match streamed with Some i => _ | None => _ end); [done|].
  by destruct (allocate_cases p c id t) as (r & [[-> _]|(g & -> & _)]).
Qed.

Lemma add_entries_last es : forall st : St Value,
  last_assistant_message (add_entries st es).1.1 = last_assistant_message st.1.
Proof.
  induction es as [|e es IH]; intros st; [done|]. cbn [add_entries].
  destruct (add_entry st e) as [st1 q] eqn:H1. destruct (add_entries st1 es) as [st2 qs] eqn:H2.
  cbn [fst snd]. specialize (IH st1). rewrite H2 in IH. cbn in IH. rewrite IH.
  by unfold add_entry, fresh_index in H1; destruct (EntryIndex.next st.2); simplify_eq.
Qed.

Lemma model_last st message :
  last_assistant_message (extract_model_name (Value := Value) st message).1.1 = last_assistant_message st.1.
Proof. unfold extract_model_name. destruct (model_name st.1), (model message), (main_model_name st.1); done. Qed.

(** An item of a message, shown as it is taken for the last text. *)
Lemma item_tells item role wt last e l :
  content_item_to_normalized_entry (Value := Value) item role wt last = (e, l) ->
  l = last \/ exists e', e = Some e' /\ Logs.entry_type e' = AssistantMessage /\ l = Some (Logs.content e').
Proof.
  destruct item; cbn [content_item_to_normalized_entry]; try (intros; simplify_eq; by left).
  case_match; intros; simplify_eq; [right; by eexists|by left].
Qed.

Lemma items_tell role wt streaming items : forall st k,
  tells st.1 (assistant_items st streaming role wt k items).1.1 (assistant_items st streaming role wt k items).2.
Proof.
  induction items as [|item items IH]; intros st k; [by apply tells_same|]. cbn [assistant_items].
  set (idx := streaming ≫= fun s => content_entry_index s k).
  set (head := match item with Text _ => _ | _ => _ end).
  assert (tells st.1 head.1.1 head.2) as Hh.
  2: { destruct head as [st1 ps1]. specialize (IH st1 (k + 1)).
       destruct (assistant_items st1 _ _ _ _ _) as [st2 ps2]. by eapply tells_then. }
  assert (forall it, tells st.1
     (let '(entry, l) := content_item_to_normalized_entry it role wt (last_assistant_message st.1) in
      let st := (set_last l st.1, st.2) in
      match entry with
      | Some entry =>
          match idx with
          | Some idx => (st, [PlainText.replace idx entry])
          | None => let '(st, patch) := add_entry st entry in (st, [patch])
          end
      | None => (st, [])
      end).1.1
     (let '(entry, l) := content_item_to_normalized_entry it role wt (last_assistant_message st.1) in
      let st := (set_last l st.1, st.2) in
      match entry with
      | Some entry =>
          match idx with
          | Some idx => (st, [PlainText.replace idx entry])
          | None => let '(st, patch) := add_entry st entry in (st, [patch])
          end
      | None => (st, [])
      end).2) as Hitem.
  { intros it. destruct (content_item_to_normalized_entry it role wt (last_assistant_message st.1)) as [e l] eqn:He.
    destruct (item_tells _ _ _ _ _ _ He) as [->|(e' & -> & Ht & ->)].
    - apply tells_same. by destruct e, idx.
    - intros text Hl. right. destruct idx; cbn in Hl |- *; injection Hl as <-; eexists _, e'; (split; [by left|]); (split; [|done]); constructor. }
  destruct item as [text|text|id t|]; [exact (Hitem (Text text))|exact (Hitem (Thinking_ text))| |by apply tells_same].
  apply tells_same. unfold head.
  pose proof (tool_use_last st idx id t wt) as Hl. by destruct (tool_use_patch st idx id t wt).
Qed.

Lemma message_tells st message wt :
  tells st.1 (normalize_assistant st message wt).1.1 (normalize_assistant st message wt).2.
Proof.
  unfold normalize_assistant. pose proof (model_last st message) as Hm.
  destruct (extract_model_name st message) as [st1 ps1]. cbn [fst] in Hm.
  match goal with |- context [assistant_items ?s ?str ?r ?w ?k ?i] =>
    pose proof (items_tell r w str i s k) as Hi; destruct (assistant_items s str r w k i) as [st2 ps2] end.
  eapply tells_then; [apply tells_same; exact Hm|]. exact Hi.
Qed.

Lemma delta_tells (p : ClaudeLogProcessor Value) s index delta wt c s' last c' patch i ms :
  apply_content_block_delta s index delta wt c (last_assistant_message p) = (s', last, c', patch) ->
  tells p (set_last last (set_streaming ms i p)) (match patch with Some q => [q] | None => [] end).
Proof.
  unfold apply_content_block_delta.
  destruct (match contents s !! index with Some _ => _ | None => _ end) as [c0|];
    [|by intros [= <- <- <- <-]; apply tells_same].
  destruct (content_item_to_normalized_entry _ _ _ _) as [e l] eqn:He.
  destruct (item_tells _ _ _ _ _ _ He) as [->|(e' & -> & Ht & ->)].
  - intros Hd. apply tells_same. destruct e; [|by simplify_eq]. destruct (sc_entry_index _); cbn in Hd; by simplify_eq.
  - intros Hd text Hl. right. destruct (sc_entry_index _); cbn in Hd; injection Hd as <- <- <- <-;
      injection Hl as <-; eexists _, e'; (split; [by left|]); (split; [|done]); constructor.
Qed.

Lemma stream_tells st event parent wt :
  tells st.1 (normalize_stream_event (Value := Value) st event parent wt).1.1
    (normalize_stream_event st event parent wt).2.
Proof.
  destruct event as [message|index b|index d|index|dl u| |]; cbn [normalize_stream_event]; try by apply tells_same.
  - case_match; [|by apply tells_same]. pose proof (model_last st message) as Hm.
    destruct (extract_model_name st message) as [[p1 c1] ps1]. cbn in Hm. by destruct (id message); apply tells_same.
  - case_match; [|by apply tells_same]. case_match. by apply tells_same.
  - case_match; [|by apply tells_same]. case_match.
    destruct (apply_content_block_delta _ _ _ _ _ _) as [[[s' l] c'] q] eqn:Hd. by eapply delta_tells.
  - destruct parent; [by apply tells_same|]. destruct u; by apply tells_same.
  - case_match; by apply tells_same.
Qed.

Lemma tool_result_last p tool content e wt :
  last_assistant_message (tool_result_patch (Value := Value) p tool content e wt).1 = last_assistant_message p.
Proof.
  unfold tool_result_patch. destruct (tool_map p !! tool) as [info|]; [|done].
  destruct (tool_data info) eqn:Hd; try done;
    try (by destruct (match rewrite_content_with_images wt content with Some _ => _ | None => _ end));
    try (by destruct (normalize_claude_tool_result_value content)).
  unfold grok_repeat_count_for_result. rewrite Hd. repeat (case_match; try done); by simplify_eq.
Qed.

Lemma tool_results_last wt items : forall p,
  last_assistant_message (tool_results (Value := Value) p wt items).1 = last_assistant_message p.
Proof.
  induction items as [|item items IH]; intros p; [done|]. cbn [tool_results].
  destruct item as [| | |tool v e]; try (specialize (IH p); by destruct (tool_results p wt items)).
  pose proof (tool_result_last p tool v e wt) as H1.
  destruct (tool_result_patch p tool v e wt) as [p1 ps1]. specialize (IH p1).
  destruct (tool_results p1 wt items) as [p2 ps2]. cbn in *. congruence.
Qed.

Lemma user_last st message syn replay wt :
  last_assistant_message (normalize_user (Value := Value) st message syn replay wt).1.1
    = last_assistant_message st.1.
Proof.
  unfold normalize_user. destruct replay; [done|].
  assert (last_assistant_message (amp_restart st (items_of (msg_content message))).1.1 = last_assistant_message st.1) as H1.
  { unfold amp_restart. destruct (_ && _); [|done].
    set (cleared := if 0 <? st.2 then _ else _).
    assert (last_assistant_message cleared.1.1 = last_assistant_message st.1) as Hc
      by (unfold cleared; by destruct (0 <? st.2)).
    destruct cleared as [st1 ps1]. match goal with |- context [add_entries st1 ?es] =>
      pose proof (add_entries_last es st1) as He; destruct (add_entries st1 es) end. cbn in *. congruence. }
  destruct (amp_restart st _) as [st1 ps1].
  set (synth := if syn then _ else _).
  assert (last_assistant_message synth.1.1 = last_assistant_message st1.1) as H2
    by (unfold synth; destruct syn; [apply add_entries_last|done]).
  destruct synth as [st2 ps2].
  set (local := match msg_content message with TextContent _ => _ | ArrayContent _ => _ end).
  assert (last_assistant_message local.1.1 = last_assistant_message st2.1) as H3
    by (unfold local; by destruct (msg_content message)).
  destruct local as [st3 ps3].
  pose proof (tool_results_last wt (items_of (msg_content message)) st3.1) as H4.
  destruct (tool_results st3.1 wt _) as [p4 ps4]. cbn in *. congruence.
Qed.

Lemma system_last st json m :
  last_assistant_message (normalize_system (Value := Value) st json m).1.1 = last_assistant_message st.1.
Proof.
  unfold normalize_system.
  set (warned := match warn_if_unmanaged_key _ with Some _ => _ | None => _ end).
  assert (last_assistant_message warned.1.1 = last_assistant_message st.1) as <-
    by (unfold warned; by destruct (warn_if_unmanaged_key _)).
  destruct warned as [[p1 c1] ps1].
  match goal with |- context [let '(st, patches) := ?f in _] => set (body := f) end.
  assert (last_assistant_message body.1.1 = last_assistant_message p1) as Hb; [|by destruct body].
  assert (forall t, last_assistant_message
    (let '(st, patch) := push_collapsible_system_message (p1, c1) t (Some (json_to_value json)) in (st, [patch])).1.1
     = last_assistant_message p1) as Hc.
  { intros t. unfold push_collapsible_system_message. cbn [fst snd].
    destruct (repeated_system_message p1) as [r|]; [|done].
    by destruct (String.eqb (rs_content r) _ && _). }
  unfold body. destruct (subtype m) as [sub|]; [|apply Hc]. cbn [fst snd].
  destruct (String.eqb sub "init"); [destruct (main_model_name p1), (sys_model m); done|].
  destruct (String.eqb sub "status"); [by destruct (status m)|].
  destruct (String.eqb sub "compact_boundary"); [done|].
  destruct (String.eqb sub "task_started");
    [unfold task_started; destruct (sys_tool_use_id m) as [i|]; [cbn; by destruct (tool_map p1 !! i)|done]|].
  destruct (String.eqb sub "task_progress"); [done|].
  destruct (String.eqb sub "task_notification"); [done|apply Hc].
Qed.

Lemma result_last st json m :
  last_assistant_message (normalize_result (Value := Value) st json m).1.1 = last_assistant_message st.1.
Proof.
  unfold normalize_result.
  match goal with |- context [let '(st, usage_patch) := ?f in _] => set (usage := f) end.
  assert (last_assistant_message usage.1.1 = last_assistant_message st.1) as <-.
  { unfold usage. by destruct (model_usage m ≫= _). }
  destruct usage as [[p1 c1] ps1]. destruct (_ && _); [done|]. by destruct (final_answer _ m).
Qed.

Lemma json_tells st json wt :
  tells st.1 (normalize_entries (Value := Value) st json wt).1.1 (normalize_entries st json wt).2.
Proof.
  destruct json; cbn [normalize_entries]; try by apply tells_same.
  - apply tells_same, system_last.
  - apply message_tells.
  - apply tells_same, user_last.
  - apply tells_same. pose proof (tool_use_last st None id0 tool_data0 wt) as Hl.
    by destruct (tool_use_patch st None id0 tool_data0 wt).
  - apply stream_tells.
  - apply tells_same, result_last.
  - apply tells_same. unfold approval_response, add_optional. by case_match.
  - apply tells_same. unfold question_response, add_optional. by case_match.
Qed.

(** ** Every message *)

Lemma good_system doc p c json m : inv doc (p, c) -> good doc (p, c) (normalize_system (p, c) json m).
Proof.
  intros Hi. unfold normalize_system.
  set (warned := match warn_if_unmanaged_key _ with Some _ => _ | None => _ end).
  assert (good doc (p, c) warned) as Hw.
  { unfold warned. destruct (warn_if_unmanaged_key _); [by apply good_add|by apply good_none]. }
  destruct warned as [[p1 c1] ps1].
  match goal with |- context [let '(st, patches) := ?f in _] => set (body := f) end.
  assert (forall doc1, inv doc1 (p1, c1) -> good doc1 (p1, c1) body) as Hb.
  2: { destruct body as [st2 ps2]. eapply good_bind; [exact Hw|]. apply Hb. }
  intros doc1 Hi1.
  assert (forall t, good doc1 (p1, c1)
    (let '(st, patch) := push_collapsible_system_message (p1, c1) t (Some (json_to_value json)) in (st, [patch])))
    as Hc by (intros t; by apply good_collapsible).
  pose proof (good_task_started doc1 p1 c1 m Hi1). pose proof (good_task_progress doc1 p1 c1 m Hi1).
  pose proof (good_task_notification doc1 p1 c1 m Hi1).
  assert (good doc1 (p1, c1) (match main_model_name p1, sys_model m with
    | None, Some model => ((set_models (model_name p1) (Some model)
                (Z.max (main_model_context_window p1) (context_window_for_model model)) p1, c1), [])
    | _, _ => ((p1, c1), []) end)) 
    by (destruct (main_model_name p1), (sys_model m); (apply good_none; [by apply (inv_refs _ p1)|done])).
  assert (good doc1 (p1, c1) (match status m with
    | Some status => let '(st, patch) := add_system_message (p1, c1) status in (st, [patch])
    | None => ((p1, c1), []) end)) by (destruct (status m); [by apply good_add|by apply good_none]).
  pose proof (good_none doc1 (p1, c1) (p1, c1) Hi1 eq_refl).
  unfold body. destruct (subtype m) as [sub|]; [|apply Hc].
  cbn [fst snd].
  repeat match goal with |- good _ _ (if ?b then _ else _) => destruct b; [assumption|] end. apply Hc.
Qed.

Lemma good_result doc p c json m : inv doc (p, c) -> good doc (p, c) (normalize_result (p, c) json m).
Proof.
  intros Hi. unfold normalize_result. cbn [fst snd].
  match goal with |- context [let '(st, usage_patch) := ?f in _] => set (usage := f) end.
  assert (good doc (p, c) usage) as Hu.
  { unfold usage. destruct (model_usage m ≫= _); [by apply good_add|by apply good_none]. }
  destruct usage as [[p1 c1] ps1]. cbn [fst].
  assert (forall e, good doc (p, c) (let '(st, patch) := add_entry (p1, c1) e in (st, ps1 ++ [patch]))) as Ha.
  { intros e. destruct (add_entry (p1, c1) e) as [st patch] eqn:He. eapply good_bind; [exact Hu|].
    intros doc1 Hi1. pose proof (good_add doc1 p1 p1 c1 e Hi1 ltac:(done)) as Hg. by rewrite He in Hg. }
  destruct (bool_decide (strategy p1 = AmpResume) && default false (res_is_error m)); [apply Ha|].
  destruct (final_answer p1 m); [apply Ha|]. exact Hu.
Qed.

Lemma good_optional doc p c ps e :
  inv doc (p, c) -> good doc (p, c) ((p, c), ps) -> good doc (p, c) (add_optional (p, c) ps e).
Proof.
  intros Hi Hg. unfold add_optional. destruct e as [e|]; [|done].
  destruct (add_entry (p, c) e) as [st patch] eqn:He. eapply good_bind; [exact Hg|].
  intros doc1 Hi1. pose proof (good_add doc1 p p c e Hi1 ltac:(done)) as Ha. by rewrite He in Ha.
Qed.

(** Amp writes no stream events, as far as the processor is concerned. *)
Definition allowed (s : HistoryStrategy) (json : ClaudeJson Value) : Prop :=
  match s, json with AmpResume, JStreamEvent _ _ _ _ => False | _, _ => True end.

Lemma good_json doc p c json wt :
  inv doc (p, c) -> allowed (strategy p) json -> good doc (p, c) (normalize_entries (p, c) json wt).
Proof.
  intros Hi Ha. destruct json; cbn [normalize_entries]; try by apply good_none.
  - by apply good_system.
  - by apply good_assistant.
  - by apply good_user.
  - eapply good_of_on. by apply good_tool_use_on.
  - apply good_stream_event; [done|]. intros Hs. by rewrite Hs in Ha.
  - by apply good_result.
  - by apply good_status.
  - unfold approval_response. apply good_optional; [done|].
    destruct (from_approval_status approval_status); [by apply good_status|by apply good_none].
  - unfold question_response. apply good_optional; [done|]. by apply good_status.
  - by apply good_add.
Qed.

(** ** The stream of an execution *)

Definition patches_of (out : list (LogMsg Entry)) : list Patch :=
  omap (fun m => match m with JsonPatch p => Some p | _ => None end) out.

Lemma patches_of_patches ps : patches_of (JsonPatch <$> ps) = ps.
Proof. induction ps as [|p ps IH]; [done|]. cbn. by f_equal. Qed.

Lemma good_then doc st st1 ps1 st2 ps2 :
  good doc st (st1, ps1) ->
  (forall doc1, inv doc1 st1 -> strategy st1.1 = strategy st.1 -> (strategy st.1 = Default -> kept doc doc1) ->
                good doc1 st1 (st2, ps2)) ->
  good doc st (st2, ps1 ++ ps2).
Proof.
  intros H1 H2 Hl. cbn [snd fst] in *. rewrite length_app in Hl.
  destruct (H1 ltac:(cbn; lia)) as (d1 & Ha1 & Hi1 & Hl1 & Hs1 & Hk1 & _). cbn in *.
  destruct (H2 d1 Hi1 Hs1 Hk1 ltac:(cbn; lia)) as (d2 & Ha2 & Hi2 & Hl2 & Hs2 & Hk2 & _). cbn in *.
  exists d2. rewrite apply_patches_app, Ha1. cbn. rewrite length_app.
  split_and!; [done|done|lia|congruence| |by intros i P []].
  intros Hd. etrans; [by apply Hk1|]. apply Hk2. congruence.
Qed.

Definition line_allowed (s : HistoryStrategy) (line : string) : Prop :=
  forall json, json_from_str (trim line) = Some json -> allowed s json.

Lemma good_raw doc t text :
  inv doc (processor t) -> good doc (processor t) (processor (raw_line t text).1, patches_of (raw_line t text).2).
Proof.
  intros Hi. destruct (processor t) as [p c] eqn:Hp. unfold raw_line. rewrite Hp.
  pose proof (good_add doc p p c (plain_entry SystemMessage text) Hi ltac:(done)) as Hg.
  by destruct (add_entry (p, c) _).
Qed.

Lemma process_json_split t json wt :
  exists ids, (forall p, JsonPatch p ∉ ids) /\
    (process_json (Value := Value) t json wt).2 =
      ids ++ (JsonPatch <$> (normalize_entries (processor t) json wt).2) /\
    processor (process_json t json wt).1 = (normalize_entries (processor t) json wt).1.
Proof.
  unfold process_json.
  destruct (if session_id_extracted t then _ else _) as [extracted session] eqn:Hs.
  destruct (message_ids _ _) as [pending mid]. destruct (normalize_entries _ _ _) as [st ps]. cbn.
  exists (session ++ match mid with Some u => [MessageId u] | None => [] end).
  rewrite <-app_assoc. split_and!; [|done|done]. intros p.
  destruct (session_id_extracted t); [|destruct (extract_session_id json)]; destruct mid; simplify_eq; set_solver.
Qed.

Lemma patches_of_app o o' : patches_of (o ++ o') = patches_of o ++ patches_of o'.
Proof. apply omap_app. Qed.

Lemma patches_of_ids ids : (forall p, JsonPatch p ∉ ids) -> patches_of ids = [].
Proof.
  induction ids as [|m ids IH]; [done|]. intros Hn. destruct m; cbn; try (apply IH; intros q; specialize (Hn q); set_solver).
  destruct (Hn patch). by left.
Qed.

Lemma good_line doc wt t line :
  inv doc (processor t) -> line_allowed (strategy (processor t).1) line ->
  good doc (processor t) (processor (process_line wt t line).1, patches_of (process_line wt t line).2).
Proof.
  intros Hi Ha. unfold process_line. case_match; [by apply good_none|]. case_match; [by apply good_none|].
  destruct (json_from_str (trim line)) as [json|] eqn:Hj; [|by apply good_raw].
  destruct (process_json_split t json wt) as (ids & Hids & -> & ->).
  rewrite patches_of_app, patches_of_ids, patches_of_patches by done. cbn [app].
  destruct (processor t) as [p c] eqn:Hp. pose proof (good_json doc p c json wt Hi (Ha json Hj)) as Hg.
  by destruct (normalize_entries (p, c) json wt).
Qed.

Lemma good_lines wt ls : forall doc t,
  inv doc (processor t) -> Forall (line_allowed (strategy (processor t).1)) ls ->
  good doc (processor t) (processor (process_lines wt t ls).1, patches_of (process_lines wt t ls).2).
Proof.
  induction ls as [|l ls IH]; intros doc t Hi Hf; [by apply good_none|].
  apply Forall_cons in Hf as [Hl Hf]. cbn [process_lines].
  pose proof (good_line doc wt t l Hi Hl) as H1. destruct (process_line wt t l) as [t1 o1].
  destruct (process_lines wt t1 ls) as [t2 o2] eqn:H2. cbn [fst snd] in *. rewrite patches_of_app.
  eapply good_then; [exact H1|]. intros doc1 Hi1 Hs _. specialize (IH doc1 t1 Hi1). rewrite H2 in IH.
  apply IH. by rewrite Hs.
Qed.

Lemma good_rest doc t b :
  inv doc (processor t) -> good doc (processor t) (processor (process_rest t b).1, patches_of (process_rest t b).2).
Proof. intros Hi. unfold process_rest. case_match; [by apply good_none|by apply good_raw]. Qed.

(** ** The other normaliser *)

(** What the other task sends are errors; on a thread that starts over it only adds. *)
Definition other_allowed (s : HistoryStrategy) (turn : Turn (Value := Value)) : Prop :=
  match turn with
  | Reads _ => True
  | OtherAdds e => is_error e
  | OtherReplaces _ e => is_error e /\ s = Default
  end.

Lemma good_other_add doc p c e st2 ps2 :
  inv doc (p, c) ->
  (inv (doc ++ [e]) (p, (c + 1) `mod` (usize_max + 1)) ->
   good (doc ++ [e]) (p, (c + 1) `mod` (usize_max + 1)) (st2, ps2)) ->
  good doc (p, c) (st2, PlainText.add_normalized_entry c e :: ps2).
Proof.
  intros Hi H2 Hl. cbn [snd fst length] in *. pose proof (inv_counter _ _ Hi) as Hc. cbn in Hc.
  assert (inv (doc ++ [e]) (p, (c + 1) `mod` (usize_max + 1))) as Hi1
    by (rewrite Z.mod_small by lia; by apply (inv_app doc p c)).
  destruct (H2 Hi1) as (d2 & Ha2 & Hi2 & Hl2 & Hs2 & Hk2 & _); [rewrite length_app; cbn; lia|]. cbn in *.
  rewrite length_app in Hl2. cbn in Hl2.
  exists d2. rewrite <-(app_nil_l ps2), app_comm_cons, apply_patches_app.
  rewrite Hc, apply_add by lia. cbn [mbind option_bind].
  cbn [fst snd length]. split_and!; [done|done|cbn [app]; lia|done| |by intros i P []].
  intros Hd. etrans; [apply kept_app|]. by apply Hk2.
Qed.

Lemma good_other_replace doc st i e :
  inv doc st -> holds doc i is_error -> is_error e -> good doc st (st, [PlainText.replace i e]).
Proof.
  destruct st as [p c]. intros Hi Hh He Hl. cbn [snd fst length] in *. pose proof (holds_range _ _ _ Hh).
  assert (forall P : Entry -> Prop, (forall x, P x -> ~ is_error x) -> ~ holds doc i P) as Hn.
  { intros P HP Hp. destruct (holds_apart _ _ _ _ Hh Hp) as (x & Hx & Hpx). by destruct (HP x Hpx). }
  exists (<[Z.to_nat i := e]> doc). rewrite apply_replace by lia. rewrite length_insert.
  split_and!; [done| |lia|done| |by intros j P []].
  - apply inv_set; [done|lia|intros Ht; by destruct (Hn _ tool_not_error)| |].
    + intros m k c0 Hb Hc. apply (Hn _ (shows_not_error c0)). by apply (inv_blocks _ _ Hi m k c0 i).
    + intros r Hr <-. apply (Hn _ (repeats_not_error r)). by apply (inv_system _ _ Hi r Hr).
  - intros _ j Hj. apply holds_set; [done|by intros ->|lia].
Qed.

Lemma all_mine_messages (out : list (LogMsg Entry)) : message_of <$> (Mine (Value := Value) <$> out) = out.
Proof. induction out as [|m out IH]; [done|]. rewrite !fmap_cons. cbn [message_of]. by f_equal. Qed.

Definition theirs_hold (s : HistoryStrategy) doc (theirs : list Z) : Prop :=
  s = Default -> Forall (fun i => holds doc i is_error) theirs.

Lemma good_run wt turns : forall doc t b theirs,
  inv doc (processor t) -> theirs_hold (strategy (processor t).1) doc theirs ->
  Forall (other_allowed (strategy (processor t).1)) turns ->
  Forall (line_allowed (strategy (processor t).1)) (complete_lines (b +:+ stdout_read turns)) ->
  good doc (processor t) (processor (process_logs wt t b theirs turns).1,
                          patches_of (message_of <$> (process_logs wt t b theirs turns).2)).
Proof.
  assert (forall doc t b, inv doc (processor t) ->
    good doc (processor t)
      (processor (let '(t, out) := process_rest t b in (t, Mine (Value := Value) <$> out)).1,
       patches_of (message_of <$> (let '(t, out) := process_rest t b in (t, Mine (Value := Value) <$> out)).2))) as Hend.
  { intros doc t b Hi. pose proof (good_rest doc t b Hi) as Hg. destruct (process_rest t b) as [t1 out].
    cbn [fst snd] in *. by rewrite all_mine_messages. }
  induction turns as [|turn turns IH]; intros doc t b th Hi Hth Ho Hf; [by apply Hend|].
  apply Forall_cons in Ho as [Ho Hos].
  destruct turn as [[]|e|k e]; cbn [process_logs stdout_read] in *; try (by apply IH); try (by apply Hend).
  - unfold process_chunk. rewrite <-sapp_assoc in Hf.
    destruct (complete_lines_app (b +:+ s) (stdout_read turns)) as [Hl _]. rewrite Hl in Hf.
    apply Forall_app in Hf as [Hf1 Hf2]. pose proof (good_lines wt _ doc t Hi Hf1) as H1. unfold complete_lines in H1.
    destruct (process_lines wt t _) as [t1 o1]. cbn [fst snd] in H1.
    destruct (process_logs wt t1 _ th turns) as [t2 o2] eqn:H2. cbn [fst snd].
    rewrite fmap_app, all_mine_messages, patches_of_app. eapply good_then; [exact H1|].
    intros doc1 Hi1 Hs Hk. specialize (IH doc1 t1 (last_piece newline (b +:+ s)) th Hi1). rewrite H2, Hs in IH.
    apply IH; [|done|done]. intros Hd. eapply Forall_impl; [by apply Hth|]. intros i. by apply Hk.
  - destruct (processor t) as [p c] eqn:Hp. cbn [fresh_index EntryIndex.next fst snd] in *.
    destruct (process_logs wt _ b (th ++ [c]) turns) as [t2 o2] eqn:H2. cbn [fst snd].
    apply good_other_add; [done|]. intros Hi1.
    specialize (IH (doc ++ [e]) (at_state t (p, (c + 1) `mod` (usize_max + 1))) b (th ++ [c]) Hi1).
    rewrite H2 in IH. apply IH; [|done|done]. intros Hd. apply Forall_app. split.
    + eapply Forall_impl; [by apply Hth|]. intros i. apply holds_app.
    + apply Forall_singleton. rewrite (inv_counter _ _ Hi : c = _). by apply holds_new.
  - destruct Ho as [He Hd]. destruct (process_logs wt t b th turns) as [t2 o2] eqn:H2. cbn [fst snd].
    destruct (th !! k) as [i|] eqn:Hk; [|specialize (IH doc t b th Hi Hth Hos Hf); by rewrite H2 in IH].
    pose proof (proj1 (Forall_lookup _ _) (Hth Hd) k i Hk) as Hh.
    change (patches_of (message_of <$> (Theirs (JsonPatch (PlainText.replace i e)) :: o2)))
      with ([PlainText.replace i e] ++ patches_of (message_of <$> o2)).
    eapply good_then; [by apply good_other_replace|]. intros doc1 Hi1 _ Hkept.
    specialize (IH doc1 t b th Hi1). rewrite H2 in IH. apply IH; [|done|done].
    intros _. eapply Forall_impl; [by apply Hth|]. intros j. by apply Hkept.
Qed.

Lemma inv_initial s model (doc : list Entry) :
  inv doc (processor (start_task s model (Z.of_nat (length doc)))).
Proof.
  apply (inv_refs _ (new_with_strategy s)); [by destruct model|]. split; try done; cbn.
Qed.

(** C30: Every patch that is sent applies to the conversation it is sent to: nothing is
    replaced that is not there.  The conversation is shared: between the messages this task
    reads, the normaliser of the standard error takes indices from the same counter and sends
    its entries, all errors, and new versions of them.  The condition is that turns do not
    overlap: what is sent for an index is pushed before the other task takes the next one or
    pushes (the code does not enforce it, and [lost_to_a_race] shows a patch that does not
    apply).  Then all patches of both tasks apply, in the order they were pushed, the entry
    of a tool call, where its results and decisions are put, shows a tool call, and the entry
    of a streamed block shows the text received of it.  A resumed Amp thread, which starts
    the conversation over, must not stream, and the other task must then only add entries. *)
Theorem patches_always_apply wt s model turns (doc : list Entry) :
  let r := process_logs wt (start_task s model (Z.of_nat (length doc))) "" [] turns in
  let sent := patches_of (message_of <$> r.2) in
  Forall (other_allowed s) turns ->
  Forall (line_allowed s) (complete_lines (stdout_read turns)) ->
  Z.of_nat (length doc + length sent) <= usize_max ->
  exists doc', apply_patches doc sent = Some doc' /\
    (processor r.1).2 = Z.of_nat (length doc') /\
    (forall id info, tool_map (processor r.1).1 !! id = Some info -> holds doc' (entry_index info) is_tool) /\
    (forall m k c i, block (processor r.1).1 m k = Some c -> sc_entry_index c = Some i ->
       holds doc' i (shows c)).
Proof.
  intros r sent Ho Hf Hl. pose proof (inv_initial s model doc) as Hi.
  assert (strategy (processor (start_task (Value := Value) s model (Z.of_nat (length doc)))).1 = s) as Hs by by destruct model.
  pose proof (good_run wt turns doc _ "" [] Hi) as Hg. rewrite Hs, sapp_nil_l in Hg.
  destruct (Hg (fun _ => Forall_nil_2 _) Ho Hf Hl) as (doc' & Ha & Hi' & _).
  exists doc'. split_and!; [exact Ha|apply Hi'|apply Hi'|].
  intros m k c i. apply Hi'.
Qed.

(** ** The answers of the turns *)

Lemma raw_last (t : Task_ Value) text :
  last_assistant_message (processor (raw_line t text).1).1 = last_assistant_message (processor t).1.
Proof. done. Qed.

Lemma line_tells wt t line :
  tells (processor t).1 (processor (process_line wt t line).1).1 (patches_of (process_line wt t line).2).
Proof.
  unfold process_line. case_match; [by apply tells_same|]. case_match; [by apply tells_same|].
  destruct (json_from_str (trim line)) as [json|]; [|by apply tells_same].
  destruct (process_json_split t json wt) as (ids & Hids & -> & ->).
  rewrite patches_of_app, patches_of_ids, patches_of_patches by done. apply json_tells.
Qed.

Lemma lines_tell wt ls : forall t,
  tells (processor t).1 (processor (process_lines wt t ls).1).1 (patches_of (process_lines wt t ls).2).
Proof.
  induction ls as [|l ls IH]; intros t; [by apply tells_same|]. cbn [process_lines].
  pose proof (line_tells wt t l) as H1. destruct (process_line wt t l) as [t1 o1].
  specialize (IH t1). destruct (process_lines wt t1 ls) as [t2 o2]. cbn [fst snd] in *.
  rewrite patches_of_app. by eapply tells_then.
Qed.

(** A text has been sent as part of what the assistant says. *)
Definition answered (patches : list Patch) (text : string) : Prop :=
  exists said, spoken patches said /\ contains text said = true.

Lemma answered_app ps ps' text : answered ps text \/ answered ps' text -> answered (ps ++ ps') text.
Proof. intros [(said & ? & ?)|(said & ? & ?)]; exists said; split; auto using spoken_app. Qed.

Lemma contains_self s : contains s s = true.
Proof. apply contains_spec. exists "", "". by rewrite sapp_nil_l, sapp_nil_r. Qed.

(** The result of a turn shows its answer, or the assistant has said it last. *)
Lemma result_answers st json m text :
  res_subtype m = Some "success" -> default false (res_is_error m) = false ->
  result m ≫= as_str = Some text ->
  answered (normalize_result (Value := Value) st json m).2 text \/
  exists said, last_assistant_message st.1 = Some said /\ contains text said = true.
Proof.
  intros Hs He Ht. unfold normalize_result.
  match goal with |- context [let '(st, usage_patch) := ?f in _] => set (usage := f) end.
  assert (last_assistant_message usage.1.1 = last_assistant_message st.1) as Hu.
  { unfold usage. by destruct (model_usage m ≫= _). }
  destruct usage as [[p1 c1] ps1]. cbn [fst] in *. rewrite He, andb_false_r, <-Hu.
  unfold final_answer. rewrite bool_decide_true, Ht by done. cbn [mbind option_bind].
  assert (forall q e, answered (ps1 ++ [PlainText.add_normalized_entry q
      {| Logs.entry_type := AssistantMessage; Logs.content := text; Logs.metadata := e |}]) text) as Hadd.
  { intros q e. apply answered_app. right. exists text. split; [|apply contains_self].
    eexists _, _. split; [by left|]. by split; [apply by_add|]. }
  destruct (last_assistant_message p1) as [said|]; [|left; apply Hadd].
  destruct (contains text said) eqn:Hc; [right; eauto|left; apply Hadd].
Qed.

(** A line of output that is read as a message. *)
Definition reads (line : string) (json : ClaudeJson Value) : Prop :=
  trim line <> "" /\
  starts_with "Service not running, starting service" (trim line)
    || contains "claude code router service has been successfully stopped" (trim line) = false /\
  json_from_str (trim line) = Some json.

Lemma line_patches wt t line json :
  reads line json -> patches_of (process_line wt t line).2 = (normalize_entries (processor t) json wt).2.
Proof.
  intros (Hne & Hs & Hj). unfold process_line. rewrite (proj2 (String.eqb_neq _ _)), Hs, Hj by done.
  destruct (process_json_split t json wt) as (ids & Hids & -> & _).
  by rewrite patches_of_app, patches_of_ids, patches_of_patches.
Qed.

Lemma mine_app o o' : mine (o ++ o') = mine o ++ mine o'.
Proof. apply omap_app. Qed.

Lemma mine_all (out : list (LogMsg Entry)) : mine (Mine (Value := Value) <$> out) = out.
Proof. induction out as [|m out IH]; [done|]. rewrite fmap_cons. cbn. by f_equal. Qed.

(** Said before, or shown by what this task sends. *)
Definition told (t : Task_ Value) (out : list (Sent (Value := Value))) (text : string) : Prop :=
  answered (patches_of (mine out)) text \/
  exists said, last_assistant_message (processor t).1 = Some said /\ contains text said = true.

Lemma lines_answer wt t ls line m text :
  line ∈ ls -> reads line (JResult m) ->
  res_subtype m = Some "success" -> default false (res_is_error m) = false -> result m ≫= as_str = Some text ->
  told t (Mine <$> (process_lines wt t ls).2) text.
Proof.
  intros (ls1 & ls2 & ->)%list_elem_of_split Hr Hs He Ht. unfold told. rewrite process_lines_app, mine_all.
  cbn [process_lines]. pose proof (lines_tell wt ls1 t) as H1.
  destruct (process_lines wt t ls1) as [t1 o1].
  pose proof (line_patches wt t1 line (JResult m) Hr) as H2.
  destruct (process_line wt t1 line) as [t2 o2]. destruct (process_lines wt t2 ls2) as [t3 o3].
  cbn [fst snd] in *. rewrite !patches_of_app, H2.
  destruct (result_answers (processor t1) (JResult m) m text Hs He Ht) as [Ha|(said & Hl & Hc)].
  - left. apply answered_app. right. apply answered_app. by left.
  - destruct (H1 said Hl) as [Hn|Hsp]; [by right; exists said|].
    left. apply answered_app. left. by exists said.
Qed.

Lemma told_later wt t ls text out :
  told (process_lines wt t ls).1 out text -> told t ((Mine <$> (process_lines wt t ls).2) ++ out) text.
Proof.
  unfold told. rewrite mine_app, patches_of_app, mine_all. intros [Ha|(said & Hl & Hc)].
  - left. apply answered_app. by right.
  - destruct (lines_tell wt ls t said Hl) as [Hn|Hsp]; [by right; exists said|].
    left. apply answered_app. left. by exists said.
Qed.

Lemma run_answers wt turns : forall t b theirs line m text,
  contains_char newline b = false ->
  line ∈ complete_lines (b +:+ stdout_read turns) -> reads line (JResult m) ->
  res_subtype m = Some "success" -> default false (res_is_error m) = false -> result m ≫= as_str = Some text ->
  told t (process_logs wt t b theirs turns).2 text.
Proof.
  induction turns as [|turn turns IH]; intros t b th line m text Hb Hin Hr Hs He Ht.
  { cbn in Hin. rewrite sapp_nil_r, complete_lines_none in Hin by done. by apply not_elem_of_nil in Hin. }
  destruct turn as [[]|e|k e]; cbn [process_logs stdout_read] in *; try (by eapply IH);
    try (rewrite sapp_nil_r, complete_lines_none in Hin by done; by apply not_elem_of_nil in Hin).
  - unfold process_chunk. rewrite <-sapp_assoc in Hin.
    destruct (complete_lines_app (b +:+ s) (stdout_read turns)) as [Hl _]. rewrite Hl in Hin.
    apply elem_of_app in Hin as [Hin|Hin].
    + pose proof (lines_answer wt t _ line m text Hin Hr Hs He Ht) as Ha. unfold complete_lines in Ha.
      destruct (process_lines wt t _) as [t1 o1]. destruct (process_logs wt t1 _ th turns) as [t2 o2]. cbn [snd] in *.
      destruct Ha as [Ha|Ha]; [left|by right]. rewrite mine_app, patches_of_app. apply answered_app. by left.
    + pose proof (told_later wt t (List.filter ends_with_newline (split_inclusive newline (b +:+ s))) text) as Hlater.
      destruct (process_lines wt t _) as [t1 o1].
      specialize (IH t1 (last_piece newline (b +:+ s)) th line m text (proj1 (last_piece_cut _ _)) Hin Hr Hs He Ht).
      destruct (process_logs wt t1 _ th turns) as [t2 o2]. by apply Hlater.
  - destruct (processor t) as [p c] eqn:Hp. cbn [fresh_index EntryIndex.next fst snd].
    specialize (IH (at_state t (p, (c + 1) `mod` (usize_max + 1))) b (th ++ [c]) line m text Hb Hin Hr Hs He Ht).
    destruct (process_logs wt _ b (th ++ [c]) turns) as [t2 o2]. unfold told in *. by rewrite Hp.
  - specialize (IH t b th line m text Hb Hin Hr Hs He Ht).
    destruct (process_logs wt t b th turns) as [t2 o2]. by destruct (th !! k).
Qed.

(** C29: The answer of a turn that ends with success is shown: among the entries this task
    sends is a message of the assistant that contains it, be it streamed, sent whole, or left
    to the result itself, whatever the normaliser of the standard error sends in between. *)
Theorem answers_are_shown wt s model c turns line m text :
  line ∈ complete_lines (stdout_read turns) -> reads line (JResult m) ->
  res_subtype m = Some "success" -> default false (res_is_error m) = false ->
  result m ≫= as_str = Some text ->
  answered (patches_of (mine (process_logs wt (start_task s model c) "" [] turns).2)) text.
Proof.
  intros Hin Hr Hs He Ht. rewrite <-(sapp_nil_l (stdout_read turns)) in Hin.
  destruct (run_answers wt turns (start_task s model c) "" [] line m text eq_refl Hin Hr Hs He Ht) as [Ha|Ha]; [done|].
  destruct Ha as (said & Hl & _). by destruct model.
Qed.

End Stream.

(** ** Concrete runs

    A small format for the lines: a letter for the kind of message and a text. *)
Module SampleClaude.

#[local] Instance letters : CharClass := {|
  is_alphabetic c := match c with String c "" => ascii_letter c | _ => false end;
  is_numeric _ := false;
|}.
#[local] Instance shell : ShellLibs := {| shlex := split_whitespace; to_lowercase := to_ascii_lowercase |}.

Definition message (role : string) (items : list (ClaudeContentItem string)) : ClaudeMessage string :=
  {| id := Some "m"; message_type := None; role := role; model := None;
     msg_content := ArrayContent items; stop_reason := None |}.

Definition the_result (is_error : bool) (text : string) : ResultFields string :=
  {| res_subtype := Some "success"; res_is_error := Some is_error; duration_ms := None; result := Some text;
     error := None; num_turns := None; res_session_id := None; model_usage := None; res_usage := None |}.

Definition event (e : ClaudeStreamEvent string) : ClaudeJson string := JStreamEvent e None None None.

Definition parse (line : string) : option (ClaudeJson string) :=
  match line with
  | String "a" text => Some (JAssistant (message "assistant" [Text text]) None (Some text))
  | String "b" text => Some (JAssistant (message "assistant" [ToolUse_ text (Bash text None)]) None None)
  | String "o" text => Some (JUser (message "user" [ToolResult_ text "done" (Some false)]) None None false false)
  | String "u" text => Some (JUser (message "user" [Text text]) None None false false)
  | String "s" _ => Some (event (MessageStart (message "assistant" [])))
  | String "d" text => Some (event (ContentBlockDelta 0 (TextDelta text)))
  | String "r" text => Some (JResult (the_result false text))
  | _ => None
  end.

#[local] Instance libs : ClaudeLibs string := {|
  value_null := "null";
  value_string s := s;
  as_str v := Some v;
  value_to_string v := v;
  value_from_str _ := None;
  text_items _ := None;
  amp_bash_result _ := None;
  json_from_str := parse;
  json_to_value _ := "json";
  json_to_string _ := "json";
  item_to_value _ := "item";
  tool_to_value _ := "tool";
  tool_input _ := "input";
  data_to_string _ := "data";
  make_path_relative p _ := p;
  create_unified_diff _ _ _ := "diff";
  rewrite_content_with_images _ _ := None;
|}.

(** The texts of the conversation a run leaves. *)
Definition conversation (s : HistoryStrategy) (chunks : list string) : option (list string) :=
  map Logs.content <$>
  apply_patches [] (patches_of (message_of <$> (process_logs "/w" (start_task s None 0) "" [] ((Reads ∘ Stdout) <$> chunks)).2)).

Definition lines (l : list string) : string := String.concat "" ((fun x => x +:+ nl) <$> l).

(** A streamed message that is then sent whole, a tool call and its result, and the answer,
    cut in the middle of the lines. *)
Example a_turn :
  conversation Default ["s" +:+ nl +:+ "dHel"; "lo" +:+ nl +:+ "d wor"; "ld" +:+ nl +:+ "aHello world" +:+ nl;
                        lines ["bls"; "ols"; "rDone"]]
  = Some ["Hello world"; "ls"; "Done"].
Proof. vm_compute. reflexivity. Qed.

(** The answer that was said is not said again. *)
Example said_once : conversation Default [lines ["aDone"; "rDone"]] = Some ["Done"].
Proof. vm_compute. reflexivity. Qed.

(** A resumed Amp thread is shown from its last user message on. *)
Example amp_starts_over :
  conversation AmpResume [lines ["uone"; "aOne"; "utwo"; "aTwo"]] = Some ["two"; "Two"].
Proof. vm_compute. reflexivity. Qed.

Definition failure (text : string) : NormalizedEntry string :=
  plain_entry (ErrorMessage CodexStderr.Other) text.

(** A turn while the agent writes to its standard error. *)
Definition turn : list (Turn (Value := string)) :=
  [Reads (Stdout (lines ["s"; "dHel"])); OtherAdds (failure "warning"); Reads (Stderr "warning");
   Reads (Stdout (lines ["dlo"; "aHello"; "bls"])); OtherReplaces 0 (failure "warning: slow"); Reads (Stdout (lines ["ols"; "rDone"]))].

Lemma turn_lines : complete_lines (stdout_read turn) = (fun x => x +:+ nl) <$> ["s"; "dHel"; "dlo"; "aHello"; "bls"; "ols"; "rDone"].
Proof. vm_compute. reflexivity. Qed.

Example both_are_shown :
  map Logs.content <$>
    apply_patches [] (patches_of (message_of <$> (process_logs "/w" (start_task Default None 0) "" [] turn).2))
  = Some ["Hello"; "warning: slow"; "ls"; "Done"].
Proof. vm_compute. reflexivity. Qed.

(** An index that is taken before the other's and pushed after it: the other's patch does
    not apply, and a reader of the conversation gets an error. *)
Example lost_to_a_race :
  let '(mine, st) := fresh_index (processor (start_task (Value := string) Default None 0)) in
  let '(theirs, _) := fresh_index st in
  apply_patches [] [PlainText.add_normalized_entry theirs (failure "warning")] = None /\
  map Logs.content <$>
    apply_patches [] [PlainText.add_normalized_entry mine (failure "first"); PlainText.add_normalized_entry theirs (failure "warning")]
  = Some ["first"; "warning"].
Proof. vm_compute. auto. Qed.

Lemma patches_always_apply_witness :
  let r := process_logs "/w" (start_task Default None 0) "" [] turn in
  let sent := patches_of (message_of <$> r.2) in
  exists doc', apply_patches [] sent = Some doc' /\
    (processor r.1).2 = Z.of_nat (length doc') /\
    (forall id info, tool_map (processor r.1).1 !! id = Some info -> holds doc' (entry_index info) is_tool) /\
    (forall m k c i, block (processor r.1).1 m k = Some c -> sc_entry_index c = Some i ->
       holds doc' i (shows c)).
Proof.
  apply (patches_always_apply "/w" Default None turn []).
  - repeat constructor.
  - apply Forall_forall. intros line _ json _. exact I.
  - vm_compute. discriminate.
Defined.

Lemma answers_are_shown_witness :
  answered (patches_of (mine (process_logs "/w" (start_task Default None 0) "" [] turn).2)) "Done".
Proof.
  apply (answers_are_shown "/w" Default None 0 turn ("rDone" +:+ nl) (the_result false "Done")); try reflexivity.
  - rewrite turn_lines. set_solver.
  - split; [discriminate|by split].
Defined.

(** A streamed block of Amp keeps its place when the conversation starts over: the next
    part of it is put on an entry that is not there, or on another one. *)
Example amp_restart_keeps_blocks :
  conversation AmpResume [lines ["uone"; "aOne"; "s"; "dTw"; "utwo"; "do"]] = None /\
  conversation AmpResume [lines ["s"; "dTw"; "utwo"; "do"]] = Some ["Two"].
Proof. split; vm_compute; reflexivity. Qed.

End SampleClaude.

End ClaudeFacts.
