(* ===== verification/Approvals.v ===== *)
(** * Approvals

    What an agent asks of the user: the table of open requests (crates/services/src/
    services/approvals.rs), the bridge the executors use (approvals/executor_approvals.rs)
    and the patches viewers get (events/patches.rs).  A handler is a program of actions on
    what the tasks share; [Machine] in ApprovalRuns.v runs any number of them. *)
From S2P Require Import Prelude Text Format MsgStore CodexStderr Shell ClaudeTypes Interaction.
From Stdlib Require Import Ascii.

Module Approvals.

Abbreviation ApprovalOutcome := (@Interaction.ApprovalOutcome Logs.QuestionAnswer).

(* crates/utils/src/approvals.rs:6-6 APPROVAL_TIMEOUT_SECONDS *)
Definition APPROVAL_TIMEOUT_SECONDS : Z := 36000.

(* crates/utils/src/approvals.rs:9-15 ApprovalRequest *)
Record ApprovalRequest := {
  id : string;
  tool_name : string;
  execution_process_id : Uuid;
  created_at : DateTime;
  timeout_at : DateTime;
}.

(** The clock and the fresh identifier are arguments. *)
(* crates/utils/src/approvals.rs:18-27 ApprovalRequest::new *)
Definition new_request (now : DateTime) (fresh tool_name : string) (execution_process_id : Uuid)
    : ApprovalRequest :=
  {| id := fresh; tool_name := tool_name; execution_process_id := execution_process_id;
     created_at := now; timeout_at := now + from_secs APPROVAL_TIMEOUT_SECONDS |}.

(* crates/utils/src/approvals.rs:74-77 ApprovalResponse *)
Record ApprovalResponse := { response_process_id : Uuid; response_status : ApprovalOutcome }.

(** The sender is the index of its channel. *)
(* crates/services/src/services/approvals.rs:21-28 PendingApproval *)
Record PendingApproval := {
  p_execution_process_id : Uuid;
  p_tool_name : string;
  p_is_question : bool;
  p_created_at : DateTime;
  p_timeout_at : DateTime;
  response_tx : nat;
}.

(* crates/services/src/services/approvals.rs:33-36 ToolContext *)
Record ToolContext := { ctx_tool_name : string; ctx_execution_process_id : Uuid }.

(* crates/services/src/services/approvals.rs:40-47 ApprovalInfo *)
Record ApprovalInfo := {
  i_approval_id : string;
  i_tool_name : string;
  i_execution_process_id : Uuid;
  i_is_question : bool;
  i_created_at : DateTime;
  i_timeout_at : DateTime;
}.

(* crates/services/src/services/approvals.rs:57-68 ApprovalError *)
Inductive ApprovalError :=
| NotFound
| AlreadyCompleted
| NoExecutorSession (session_id : string)
| InvalidStatus
| Custom (message : string).

(* crates/services/src/services/approvals.rs:275-290 Approvals::pending_infos *)
Definition info_of (approval_id : string) (p : PendingApproval) : ApprovalInfo :=
  {| i_approval_id := approval_id; i_tool_name := p_tool_name p;
     i_execution_process_id := p_execution_process_id p; i_is_question := p_is_question p;
     i_created_at := p_created_at p; i_timeout_at := p_timeout_at p |}.
Definition infos (pending : gmap string PendingApproval) : gmap string ApprovalInfo :=
  map_imap (fun i p => Some (info_of i p)) pending.

(** ** The patches *)

(** The JSON values of the patches. *)
Inductive Shown := AllPending (pending : gmap string ApprovalInfo) | OneInfo (info : ApprovalInfo).
Abbreviation Patch := (list (LogMsg.PatchOperation Shown)).

(* crates/services/src/services/events/patches.rs:9-11 escape_pointer_segment *)
Definition escape_pointer_segment (s : string) : string :=
  Format.replace "/" "~1" (Format.replace "~" "~0" s).

(* crates/services/src/services/events/patches.rs:143-143 PENDING_PATH *)
Definition PENDING_PATH : string := "/pending".

(* crates/services/src/services/events/patches.rs:145-147 pending_path *)
Definition pending_path (approval_id : string) : string :=
  PENDING_PATH +:+ "/" +:+ escape_pointer_segment approval_id.

(* crates/services/src/services/events/patches.rs:149-166 snapshot *)
Definition snapshot (pending : gmap string ApprovalInfo) : Patch :=
  [LogMsg.PReplace PENDING_PATH (AllPending pending)].

(* crates/services/src/services/events/patches.rs:168-176 created *)
Definition created (info : ApprovalInfo) : Patch :=
  [LogMsg.PReplace (pending_path (i_approval_id info)) (OneInfo info)].

(* crates/services/src/services/events/patches.rs:178-184 resolved *)
Definition resolved (approval_id : string) : Patch := [LogMsg.PRemove (pending_path approval_id)].

(** ** Programs *)

(** What a task does to what it shares with the others, with the answer it gets.  A wait
    is answered when the channel is resolved, by the value sent or by nothing if the sender
    is gone; [Wait tx (Some deadline)] is answered by [inr tt] when the deadline passes
    first.  [Receive] answers [inr tt] to a subscriber that lags behind. *)
Inductive action : Type -> Type :=
| Clock : action DateTime
| FreshId : action string
| NewChannel (owner : string) (is_question : bool) : action nat
| InsertPending (id : string) (p : PendingApproval) : action unit
| RemovePending (id : string) : action (option PendingApproval)
| InsertCompleted (id : string) (outcome : ApprovalOutcome) : action unit
| IsCompleted (id : string) : action bool
| SendOutcome (tx : nat) (outcome : ApprovalOutcome) : action unit
| DropSender (tx : nat) : action unit
| SendPatch (patch : Patch) : action unit
| SpawnWatcher (id : string) (deadline : DateTime) (rx : nat) : action unit
| Wait (rx : nat) (deadline : option DateTime) : action (option ApprovalOutcome + unit)
| WaitOrCancel (rx : nat) (cancel : nat) : action (option (option ApprovalOutcome))
| PutWaiter (bridge : N) (id : string) (rx : nat) : action unit
| TakeWaiter (bridge : N) (id : string) : action (option nat)
| LoadContext (execution_process_id : Uuid) : action (option (option string * string * Uuid))
| Notify (title message : string) (workspace_id : option Uuid) : action unit
| PendingInfos : action (gmap string ApprovalInfo)
| Subscribe : action nat
| Receive (subscription : nat) : action (Patch + unit)
| Deliver (viewer : N) (patch : Patch) : action unit.

Inductive Task (A : Type) :=
| Ret (a : A)
| Do {R : Type} (q : action R) (k : R -> Task A).
Arguments Ret {A} a.
Arguments Do {A R} q k.

Fixpoint bind {A B} (t : Task A) (f : A -> Task B) : Task B :=
  match t with
  | Ret a => f a
  | Do q k => Do q (fun r => bind (k r) f)
  end.

Notation "'do!' x := q 'in' t" := (Do q (fun x => t))
  (at level 10, x pattern, q at level 100, t at level 200) : vk_scope.
Notation "'call!' x := u 'in' t" := (bind u (fun x => t))
  (at level 10, x pattern, u at level 100, t at level 200) : vk_scope.

(** The answer a shared waiter gives: a dropped sender is a time-out. *)
(* crates/services/src/services/approvals.rs:91-96 Approvals::create_with_waiter *)
Definition waited (received : option ApprovalOutcome) : ApprovalOutcome :=
  default Interaction.TimedOut received.

(** ** The service *)

(** [tokio::time::Instant] counts with the clock here. *)
(* crates/services/src/services/approvals.rs:179-194 Approvals::spawn_timeout_watcher *)
Definition spawn_timeout_watcher (id : string) (timeout_at : DateTime) (waiter : nat) : Task unit :=
  do! now := Clock in
  let to_wait := Z.max 0 (timeout_at - now) in
  do! instant := Clock in
  do! _ := SpawnWatcher id (instant + to_wait) waiter in
  Ret tt.

Definition is_timed_out (outcome : ApprovalOutcome) : bool :=
  match outcome with Interaction.TimedOut => true | _ => false end.

(* crates/services/src/services/approvals.rs:196-215 Approvals::spawn_timeout_watcher *)
Definition watch (id : string) (deadline : DateTime) (waiter : nat) : Task unit :=
  do! ended := Wait waiter (Some deadline) in
  let outcome := match ended with inl received => waited received | inr _ => Interaction.TimedOut end in
  do! _ := InsertCompleted id outcome in
  if is_timed_out outcome then
    do! removed := RemovePending id in
    match removed with
    | Some pending_approval =>
        do! _ := SendPatch (resolved id) in
        do! _ := SendOutcome (response_tx pending_approval) outcome in
        Ret tt
    | None => Ret tt
    end
  else Ret tt.

(* crates/services/src/services/approvals.rs:86-127 Approvals::create_with_waiter *)
Definition create_with_waiter (request : ApprovalRequest) (is_question : bool)
    : Task (ApprovalRequest * nat) :=
  do! tx := NewChannel (id request) is_question in
  let info :=
    {| i_approval_id := id request; i_tool_name := tool_name request;
       i_execution_process_id := execution_process_id request; i_is_question := is_question;
       i_created_at := created_at request; i_timeout_at := timeout_at request |} in
  let pending_approval :=
    {| p_execution_process_id := execution_process_id request; p_tool_name := tool_name request;
       p_is_question := is_question; p_created_at := created_at request;
       p_timeout_at := timeout_at request; response_tx := tx |} in
  do! _ := InsertPending (id request) pending_approval in
  do! _ := SendPatch (created info) in
  call! _ := spawn_timeout_watcher (id request) (timeout_at request) tx in
  Ret (request, tx).

(* crates/services/src/services/approvals.rs:129-140 Approvals::validate_approval_response *)
Definition validate_approval_response (outcome : ApprovalOutcome) (is_question : bool)
    : result unit ApprovalError :=
  match outcome with
  | Interaction.Approved | Interaction.Denied _ => if is_question then Err InvalidStatus else Ok tt
  | Interaction.Answered _ => if is_question then Ok tt else Err InvalidStatus
  | Interaction.TimedOut => Ok tt
  end.

(* crates/services/src/services/approvals.rs:143-175 Approvals::respond *)
Definition respond (id : string) (req : ApprovalResponse)
    : Task (result (ApprovalOutcome * ToolContext) ApprovalError) :=
  do! removed := RemovePending id in
  match removed with
  | Some p =>
      match validate_approval_response (response_status req) (p_is_question p) with
      | Err e =>
          do! _ := InsertPending id p in
          Ret (Err e)
      | Ok _ =>
          let outcome := response_status req in
          do! _ := InsertCompleted id outcome in
          do! _ := SendOutcome (response_tx p) outcome in
          do! _ := SendPatch (resolved id) in
          Ret (Ok (outcome, {| ctx_tool_name := p_tool_name p;
                               ctx_execution_process_id := p_execution_process_id p |}))
      end
  | None =>
      do! done := IsCompleted id in
      Ret (Err (if done then AlreadyCompleted else NotFound))
  end.

(** The entry is dropped at the end of the block, and its sender with it. *)
(* crates/services/src/services/approvals.rs:218-231 Approvals::cancel *)
Definition cancel (id : string) : Task unit :=
  do! removed := RemovePending id in
  match removed with
  | Some pending_approval =>
      do! _ := InsertCompleted id (Interaction.Denied (Some "Cancelled")) in
      do! _ := SendPatch (resolved id) in
      do! _ := DropSender (response_tx pending_approval) in
      Ret tt
  | None => Ret tt
  end.

(** The stream of a viewer: what it begins with, and every further turn. *)
(* crates/services/src/services/approvals.rs:233-253 Approvals::patch_stream *)
Definition patch_stream (viewer : N) : Task nat :=
  do! pending := PendingInfos in
  do! subscription := Subscribe in
  do! _ := Deliver viewer (snapshot pending) in
  Ret subscription.

(* crates/services/src/services/approvals.rs:238-250 Approvals::patch_stream *)
Definition patch_stream_next (viewer : N) (subscription : nat) : Task unit :=
  do! received := Receive subscription in
  match received with
  | inl patch => do! _ := Deliver viewer patch in Ret tt
  | inr _ =>
      do! pending := PendingInfos in
      do! _ := Deliver viewer (snapshot pending) in
      Ret tt
  end.

(* crates/services/src/services/approvals.rs:257-273 Approvals::get_pending_execution_process_ids *)
Definition get_pending_execution_process_ids (pending : gmap string PendingApproval)
    (execution_process_ids : list Uuid) : gset Uuid :=
  list_to_set (List.filter (fun i => bool_decide (i ∈ execution_process_ids))
                 ((fun kv => p_execution_process_id kv.2) <$> map_to_list pending)).

(** ** The bridge of an execution *)

(** The title and the text of the notification. *)
(* crates/services/src/services/approvals/executor_approvals.rs:74-91 ExecutorApprovalBridge::create_internal *)
Definition notification (workspace_name tool_name : string) (question_count : option Z) : string * string :=
  match question_count with
  | Some count =>
      ("Question Asked: " +:+ workspace_name,
       if count =? 1 then "1 question requires an answer"
       else display count +:+ " questions require answers")
  | None => ("Approval Needed: " +:+ workspace_name, "Tool '" +:+ tool_name +:+ "' requires approval")
  end.

(* crates/services/src/services/approvals/executor_approvals.rs:40-98 ExecutorApprovalBridge::create_internal *)
Definition create_internal (bridge : N) (execution_process_id : Uuid) (tool_name : string)
    (is_question : bool) (question_count : option Z) : Task string :=
  do! now := Clock in
  do! fresh := FreshId in
  call! (request, waiter) :=
    create_with_waiter (new_request now fresh tool_name execution_process_id) is_question in
  do! _ := PutWaiter bridge (id request) waiter in
  do! context := LoadContext execution_process_id in
  let '(workspace_name, workspace_id) :=
    match context with
    | Some (name, branch, workspace_id) => (default branch name, Some workspace_id)
    | None => ("Unknown workspace", None)
    end in
  let '(title, message) := notification workspace_name tool_name question_count in
  do! _ := Notify title message workspace_id in
  Ret (id request).

Inductive ExecutorApprovalError := Cancelled | RequestFailed (message : string).

(* crates/services/src/services/approvals/executor_approvals.rs:100-127 ExecutorApprovalBridge::wait_internal *)
Definition wait_internal (bridge : N) (approval_id : string) (token : nat)
    : Task (result ApprovalOutcome ExecutorApprovalError) :=
  do! taken := TakeWaiter bridge approval_id in
  match taken with
  | None => Ret (Err (RequestFailed ("no waiter found for approval_id=" +:+ approval_id)))
  | Some waiter =>
      do! ended := WaitOrCancel waiter token in
      match ended with
      | None =>
          call! _ := cancel approval_id in
          Ret (Err Cancelled)
      | Some received => Ret (Ok (waited received))
      end
  end.

(* crates/services/src/services/approvals/executor_approvals.rs:132-134 ExecutorApprovalBridge::create_tool_approval *)
Definition create_tool_approval (bridge : N) (process : Uuid) (tool_name : string) : Task string :=
  create_internal bridge process tool_name false None.

(* crates/services/src/services/approvals/executor_approvals.rs:136-143 ExecutorApprovalBridge::create_question_approval *)
Definition create_question_approval (bridge : N) (process : Uuid) (tool_name : string)
    (question_count : Z) : Task string :=
  create_internal bridge process tool_name true (Some question_count).

(* crates/services/src/services/approvals/executor_approvals.rs:145-160 ExecutorApprovalBridge::wait_tool_approval *)
Definition wait_tool_approval (bridge : N) (approval_id : string) (token : nat)
    : Task (result Logs.ApprovalStatus ExecutorApprovalError) :=
  call! waited := wait_internal bridge approval_id token in
  Ret (let? outcome := waited in
       match outcome with
       | Interaction.Approved => Ok Logs.AsApproved
       | Interaction.Denied reason => Ok (Logs.AsDenied reason)
       | Interaction.TimedOut => Ok Logs.AsTimedOut
       | Interaction.Answered _ =>
           Err (RequestFailed "unexpected question response for permission request")
       end).

(* crates/services/src/services/approvals/executor_approvals.rs:162-178 ExecutorApprovalBridge::wait_question_answer *)
Definition wait_question_answer (bridge : N) (approval_id : string) (token : nat)
    : Task (result Logs.QuestionStatus ExecutorApprovalError) :=
  call! waited := wait_internal bridge approval_id token in
  Ret (let? outcome := waited in
       match outcome with
       | Interaction.Answered answers => Ok (Logs.QsAnswered answers)
       | Interaction.TimedOut => Ok Logs.QsTimedOut
       | Interaction.Approved | Interaction.Denied _ =>
           Err (RequestFailed "unexpected permission response for question request")
       end).

End Approvals.
