(* ===== verification/ApprovalRuns.v ===== *)
(** * Concurrent approvals

    [Machine] runs any number of tasks of [Approvals] on what they share, one action at a
    time.  [Tokens] is who may send on a channel and who owes the viewers a patch, proved with
    a logic of tasks ([valid]); the theorems are about the answers agents get and about what
    viewers see.  [Module SampleApprovals] has concrete runs, three of them defects. *)
From stdpp Require Import functions.
From S2P Require Import Prelude Text Format MsgStore CodexStderr Shell ClaudeTypes Interaction Approvals.
From Stdlib Require Import Ascii.
Import Approvals.

Module ApprovalRuns.

(** ** The machine *)

(** A channel, with the request it was made for; [value] is [None] while it is open, and
    otherwise what was sent, and by which task, or that the sender is gone. *)
Record chan := { owner : string; question : bool; value : option (option (ApprovalOutcome * nat)) }.

Record World := {
  clock : DateTime;
  pending : gmap string PendingApproval;
  completed : gmap string ApprovalOutcome;
  chans : list chan;
  patches : list Patch;
  waiters : gmap (N * string) nat;
  cancelled : gset nat;
  positions : list nat;
  delivered : list (N * Patch);
  notified : list (string * string);
}.

Definition set_clock t (w : World) : World :=
  {| clock := t; pending := pending w; completed := completed w; chans := chans w; patches := patches w;
     waiters := waiters w; cancelled := cancelled w; positions := positions w; delivered := delivered w;
     notified := notified w |}.
Definition set_pending p cs (w : World) : World :=
  {| clock := clock w; pending := p; completed := completed w; chans := cs; patches := patches w;
     waiters := waiters w; cancelled := cancelled w; positions := positions w; delivered := delivered w;
     notified := notified w |}.
Definition set_completed c (w : World) : World :=
  {| clock := clock w; pending := pending w; completed := c; chans := chans w; patches := patches w;
     waiters := waiters w; cancelled := cancelled w; positions := positions w; delivered := delivered w;
     notified := notified w |}.
Definition set_chans cs (w : World) : World := set_pending (pending w) cs w.
Definition set_patches ps (w : World) : World :=
  {| clock := clock w; pending := pending w; completed := completed w; chans := chans w; patches := ps;
     waiters := waiters w; cancelled := cancelled w; positions := positions w; delivered := delivered w;
     notified := notified w |}.
Definition set_waiters ws (w : World) : World :=
  {| clock := clock w; pending := pending w; completed := completed w; chans := chans w; patches := patches w;
     waiters := ws; cancelled := cancelled w; positions := positions w; delivered := delivered w;
     notified := notified w |}.
Definition set_cancelled c (w : World) : World :=
  {| clock := clock w; pending := pending w; completed := completed w; chans := chans w; patches := patches w;
     waiters := waiters w; cancelled := c; positions := positions w; delivered := delivered w;
     notified := notified w |}.
Definition set_views ps ds (w : World) : World :=
  {| clock := clock w; pending := pending w; completed := completed w; chans := chans w; patches := patches w;
     waiters := waiters w; cancelled := cancelled w; positions := ps; delivered := ds;
     notified := notified w |}.
Definition set_notified ns (w : World) : World :=
  {| clock := clock w; pending := pending w; completed := completed w; chans := chans w; patches := patches w;
     waiters := waiters w; cancelled := cancelled w; positions := positions w; delivered := delivered w;
     notified := ns |}.

(** What a channel becomes; a second send or drop changes nothing. *)
Definition resolve (v : option (ApprovalOutcome * nat)) (c : chan) : chan :=
  {| owner := owner c; question := question c;
     value := match value c with None => Some v | Some _ => value c end |}.

Definition received (c : chan) : option (option ApprovalOutcome) :=
  match value c with Some v => Some (option_map fst v) | None => None end.

(* crates/services/src/services/approvals.rs:78-78 Approvals::new *)
Definition CHANNEL_CAPACITY : nat := 64.

(** What the environment decides: an identifier, the workspace of an execution, and which
    of two ready branches a wait takes. *)
Record env := {
  env_id : string;
  env_context : option (option string * string * Uuid);
  env_coin : bool;
}.

(** An action of the task [by]: [None] while it must wait. *)
Definition exec (by_ : nat) (e : env) {R : Type} (q : action R) (w : World) : option (World * R) :=
  match q in action R return option (World * R) with
  | Clock => Some (w, clock w)
  | FreshId => Some (w, env_id e)
  | NewChannel o b =>
      Some (set_chans (chans w ++ [{| owner := o; question := b; value := None |}]) w, length (chans w))
  | InsertPending i p =>
      Some (set_pending (<[i := p]> (pending w))
              match pending w !! i with
              | Some old => alter (resolve None) (response_tx old) (chans w)
              | None => chans w
              end w, tt)
  | RemovePending i => Some (set_pending (delete i (pending w)) (chans w) w, pending w !! i)
  | InsertCompleted i o => Some (set_completed (<[i := o]> (completed w)) w, tt)
  | IsCompleted i => Some (w, bool_decide (is_Some (completed w !! i)))
  | SendOutcome tx o => Some (set_chans (alter (resolve (Some (o, by_))) tx (chans w)) w, tt)
  | DropSender tx => Some (set_chans (alter (resolve None) tx (chans w)) w, tt)
  | SendPatch p => Some (set_patches (patches w ++ [p]) w, tt)
  | SpawnWatcher _ _ _ => Some (w, tt)
  | Wait rx deadline =>
      match chans w !! rx ≫= received with
      | Some v => Some (w, inl v)
      | None => match deadline with
                | Some t => if t <=? clock w then Some (w, inr tt) else None
                | None => None
                end
      end
  | WaitOrCancel rx token =>
      match chans w !! rx ≫= received, bool_decide (token ∈ cancelled w) with
      | Some v, true => Some (w, if env_coin e then Some v else None)
      | Some v, false => Some (w, Some v)
      | None, true => Some (w, None)
      | None, false => None
      end
  | PutWaiter b i rx => Some (set_waiters (<[(b, i) := rx]> (waiters w)) w, tt)
  | TakeWaiter b i => Some (set_waiters (delete (b, i) (waiters w)) w, waiters w !! (b, i))
  | LoadContext _ => Some (w, env_context e)
  | Notify title message _ => Some (set_notified (notified w ++ [(title, message)]) w, tt)
  | PendingInfos => Some (w, infos (pending w))
  | Subscribe => Some (set_views (positions w ++ [length (patches w)]) (delivered w) w, length (positions w))
  | Receive s =>
      pos ← positions w !! s;
      if decide (CHANNEL_CAPACITY < length (patches w) - pos)%nat then
        Some (set_views (<[s := (length (patches w) - CHANNEL_CAPACITY)%nat]> (positions w)) (delivered w) w, inr tt)
      else
        p ← patches w !! pos;
        Some (set_views (<[s := S pos]> (positions w)) (delivered w) w, inl p)
  | Deliver v p => Some (set_views (positions w) (delivered w ++ [(v, p)]) w, tt)
  end.

(** How a task ends; a wait with the request and the token it was for. *)
Inductive Answer :=
| Responded (id : string) (r : result (ApprovalOutcome * ToolContext) ApprovalError)
| ToolStatus (id : string) (token : nat) (r : result Logs.ApprovalStatus ExecutorApprovalError)
| QuestionStatus (id : string) (token : nat) (r : result Logs.QuestionStatus ExecutorApprovalError)
| Routed (id : string) (outcome : ApprovalOutcome)
| Watched
| Viewed.

(** What starts a task: an answer of the user, an agent that asks and waits, a question of a
    worker's execution, or a viewer, for so many turns. *)
Inductive request :=
| RespondTo (id : string) (req : ApprovalResponse)
| AskTool (bridge : N) (process : Uuid) (tool : string) (token : nat)
| AskQuestion (bridge : N) (process : Uuid) (tool : string) (count : Z) (token : nat)
| Route (r : ApprovalRequest) (is_question : bool)
| View (viewer : N) (turns : nat).

Fixpoint view_turns (viewer : N) (subscription n : nat) : Task Answer :=
  match n with
  | O => Ret Viewed
  | S n => call! _ := patch_stream_next viewer subscription in view_turns viewer subscription n
  end.

Definition handler (r : request) : Task Answer :=
  match r with
  | RespondTo i req => call! answer := respond i req in Ret (Responded i answer)
  | AskTool b process tool token =>
      call! i := create_tool_approval b process tool in
      call! status := wait_tool_approval b i token in
      Ret (ToolStatus i token status)
  | AskQuestion b process tool count token =>
      call! i := create_question_approval b process tool count in
      call! status := wait_question_answer b i token in
      Ret (QuestionStatus i token status)
  | Route r b =>
      call! (_, waiter) := create_with_waiter r b in
      do! ended := Wait waiter None in
      Ret (Routed (id r) match ended with inl v => waited v | inr _ => Interaction.TimedOut end)
  | View v n => call! s := patch_stream v in view_turns v s n
  end.

Definition watcher (i : string) (deadline : DateTime) (rx : nat) : Task Answer :=
  call! _ := watch i deadline rx in Ret Watched.

Definition spawned {R : Type} (q : action R) : list (option (Task Answer)) :=
  match q with SpawnWatcher i deadline rx => [Some (watcher i deadline rx)] | _ => [] end.

Record machine := { world : World; tasks : list (option (Task Answer)) }.

Definition start (t : DateTime) : machine :=
  {| world := {| clock := t; pending := ∅; completed := ∅; chans := []; patches := []; waiters := ∅;
                 cancelled := ∅; positions := []; delivered := []; notified := [] |};
     tasks := [] |}.

(** One turn: a task arrives, or performs its next action, or is dropped while it waits; or
    time passes, or a token is cancelled. *)
Inductive choice :=
| Arrive (r : request)
| Run (i : nat) (e : env)
| Drop (i : nat)
| Tick (t : DateTime)
| CancelToken (token : nat).

Definition may_drop (t : Task Answer) : bool :=
  match t with
  | Do (WaitOrCancel _ _) _ | Do (Receive _) _ => true
  | _ => false
  end.

Definition with_world (w : World) (m : machine) : machine := {| world := w; tasks := tasks m |}.

Definition turn (m : machine) (c : choice) : machine :=
  match c with
  | Arrive r => {| world := world m; tasks := tasks m ++ [Some (handler r)] |}
  | Run i e =>
      match tasks m !! i with
      | Some (Some (Do q k)) =>
          match exec i e q (world m) with
          | Some (w, r) => {| world := w; tasks := <[i := Some (k r)]> (tasks m) ++ spawned q |}
          | None => m
          end
      | _ => m
      end
  | Drop i =>
      match tasks m !! i with
      | Some (Some t) => if may_drop t then {| world := world m; tasks := <[i := None]> (tasks m) |} else m
      | _ => m
      end
  | Tick t => with_world (set_clock (Z.max t (clock (world m))) (world m)) m
  | CancelToken token => with_world (set_cancelled ({[token]} ∪ cancelled (world m)) (world m)) m
  end.

Definition runs (t : DateTime) (cs : list choice) : machine := foldl turn (start t) cs.

(** ** What viewers read

    The client applies a patch with replacements that insert what is missing, and skips a
    removal of what is missing (packages/web-core, applyUpsertPatch). *)

(** RFC 6901: [~1] is a slash and [~0] a tilde. *)
Fixpoint unescape (s : string) : string :=
  match s with
  | String "~" (String "1" s) => String "/" (unescape s)
  | String "~" (String "0" s) => String "~" (unescape s)
  | String c s => String c (unescape s)
  | EmptyString => EmptyString
  end.

Definition segment (path : string) : option string :=
  unescape <$> strip_prefix (PENDING_PATH +:+ "/") path.

Definition read_op (doc : gmap string ApprovalInfo) (op : LogMsg.PatchOperation Shown) : gmap string ApprovalInfo :=
  match op with
  | LogMsg.PReplace path (AllPending all) => if String.eqb path PENDING_PATH then all else doc
  | LogMsg.PReplace path (OneInfo info) =>
      match segment path with Some i => <[i := info]> doc | None => doc end
  | LogMsg.PRemove path => match segment path with Some i => delete i doc | None => doc end
  | LogMsg.PAdd _ _ | LogMsg.POther => doc
  end.

Definition read (doc : gmap string ApprovalInfo) (ps : list Patch) : gmap string ApprovalInfo :=
  foldl (foldl read_op) doc ps.

Lemma subst_char c r s :
  Format.replace (String c "") r s =
    match s with
    | EmptyString => EmptyString
    | String d s' => (if decide (d = c) then r else String d "") +:+ Format.replace (String c "") r s'
    end.
Proof.
  destruct s as [|d s]; [done|]. case_decide as Hd.
  - subst. apply (replace_match (String c "") r s). done.
  - rewrite replace_skip; [done|]. cbn. by case_decide.
Qed.

Lemma pointer_unescape_escape s : unescape (escape_pointer_segment s) = s.
Proof.
  unfold escape_pointer_segment. induction s as [|c s IH]; [done|].
  rewrite (subst_char "~" "~0" (String c s)). case_decide as Hc.
  - subst. rewrite !sapp_cons, sapp_nil_l, subst_char, decide_False, sapp_cons, sapp_nil_l by done.
    rewrite subst_char, decide_False, sapp_cons, sapp_nil_l by done. cbn. by rewrite IH.
  - rewrite sapp_cons, sapp_nil_l, subst_char. case_decide as Hs.
    + subst. rewrite !sapp_cons, sapp_nil_l. cbn. by rewrite IH.
    + rewrite sapp_cons, sapp_nil_l. cbn.
      destruct (decide (c = "~"%char)) as [|Hn]; [done|].
      transitivity (String c (unescape (Format.replace "/" "~1" (Format.replace "~" "~0" s)))); [|by rewrite IH].
      clear -Hn. destruct c as [[] [] [] [] [] [] [] []]; try done; by destruct Hn.
Qed.

Lemma segment_path i : segment (pending_path i) = Some i.
Proof.
  unfold segment, pending_path. rewrite <-sapp_assoc.
  rewrite (proj2 (strip_prefix_Some _ _ (escape_pointer_segment i)) eq_refl). cbn. by rewrite pointer_unescape_escape.
Qed.

Lemma read_app doc ps ps' : read doc (ps ++ ps') = read (read doc ps) ps'.
Proof. apply foldl_app. Qed.

Lemma read_created doc info : read doc [created info] = <[i_approval_id info := info]> doc.
Proof. unfold read, created. cbn [foldl read_op]. by rewrite segment_path. Qed.

Lemma read_resolved doc i : read doc [resolved i] = delete i doc.
Proof. unfold read, resolved. cbn [foldl read_op]. by rewrite segment_path. Qed.

(** ** What a task holds *)

(** Its debt: nothing; a channel whose request is not in the table yet; a request in the
    table that viewers were not told of; or a request it took from the table, with whether
    viewers were told that it is resolved, and what became of its channel. *)
Inductive debt :=
| Idle
| Made (tx : nat)
| Quiet (id : string) (p : PendingApproval)
| Holding (id : string) (p : PendingApproval) (told : bool) (sent : option (option ApprovalOutcome)).

(** The channels it knows, with the request and the kind of each. *)
Abbreviation facts := (list (nat * (string * bool))).

(** The kind of answer a request may get. *)
Definition kind_ok (is_question : bool) (o : ApprovalOutcome) : Prop :=
  match o with
  | Interaction.Answered _ => is_question = true
  | Interaction.Approved | Interaction.Denied _ => is_question = false
  | Interaction.TimedOut => True
  end.

Definition context_of (p : PendingApproval) : ToolContext :=
  {| ctx_tool_name := p_tool_name p; ctx_execution_process_id := p_execution_process_id p |}.

(** What a task may end with. *)
Definition ends (d : debt) (a : Answer) : Prop :=
  match a with
  | Responded i (Ok (o, c)) => exists p, d = Holding i p true (Some (Some o)) /\ c = context_of p
  | ToolStatus _ _ (Err (RequestFailed m)) => m <> "unexpected question response for permission request"
  | QuestionStatus _ _ (Err (RequestFailed m)) => m <> "unexpected permission response for question request"
  | _ => True
  end /\ match d with Idle | Holding _ _ true (Some _) => True | _ => False end.

(** The rule of an action: what it needs, and what the rest of the task may rely on. *)
Definition rule {R : Type} (q : action R) (F : facts) (d : debt) (K : R -> facts -> debt -> Prop) : Prop :=
  match q in action R return (R -> facts -> debt -> Prop) -> Prop with
  | NewChannel o b => fun K => d = Idle /\ forall tx, K tx (F ++ [(tx, (o, b))]) (Made tx)
  | InsertPending i p => fun K =>
      match d with
      | Made tx => response_tx p = tx /\ (tx, (i, p_is_question p)) ∈ F /\ K tt F (Quiet i p)
      | Holding i' p' false None => i' = i /\ p' = p /\ K tt F Idle
      | _ => False
      end
  | RemovePending i => fun K =>
      d = Idle /\ K None F Idle /\
      forall p, K (Some p) (F ++ [(response_tx p, (i, p_is_question p))]) (Holding i p false None)
  | SendOutcome tx o => fun K =>
      match d with
      | Holding i p told None => tx = response_tx p /\ kind_ok (p_is_question p) o /\
                                 K tt F (Holding i p told (Some (Some o)))
      | _ => False
      end
  | DropSender tx => fun K =>
      match d with
      | Holding i p told None => tx = response_tx p /\ K tt F (Holding i p told (Some None))
      | _ => False
      end
  | SendPatch ps => fun K =>
      match d with
      | Quiet i p => ps = created (info_of i p) /\ K tt F Idle
      | Holding i p false sent => ps = resolved i /\ K tt F (Holding i p true sent)
      | _ => False
      end
  | Wait rx _ => fun K =>
      d = Idle /\ forall r, (forall i b o, (rx, (i, b)) ∈ F -> r = inl (Some o) -> kind_ok b o) -> K r F d
  | WaitOrCancel rx _ => fun K =>
      d = Idle /\ forall r, (forall i b o, (rx, (i, b)) ∈ F -> r = Some (Some o) -> kind_ok b o) -> K r F d
  | PutWaiter _ i rx => fun K => (exists b, (rx, (i, b)) ∈ F) /\ K tt F d
  | TakeWaiter _ i => fun K =>
      K None F d /\
      forall rx b, (forall rx' b', (rx', (i, b')) ∈ F -> rx' = rx /\ b' = b) -> K (Some rx) (F ++ [(rx, (i, b))]) d
  | SpawnWatcher _ _ _ => fun K => K tt F d
  | Receive _ => fun K => d = Idle /\ forall r, K r F d
  | Clock | FreshId | InsertCompleted _ _ | IsCompleted _ | LoadContext _ | Notify _ _ _ | PendingInfos
  | Subscribe | Deliver _ _ => fun K => forall r, K r F d
  end K.

Fixpoint valid (t : Task Answer) (F : facts) (d : debt) : Prop :=
  match t with
  | Ret a => ends d a
  | Do q k => rule q F d (fun r F d => valid (k r) F d)
  end.

(** A program in the middle of a task. *)
Fixpoint valid_then {A} (t : Task A) (F : facts) (d : debt) (K : A -> facts -> debt -> Prop) : Prop :=
  match t with
  | Ret a => K a F d
  | Do q k => rule q F d (fun r F d => valid_then (k r) F d K)
  end.

Lemma rule_mono {R : Type} (q : action R) F d (K K' : R -> facts -> debt -> Prop) :
  (forall r F d, K r F d -> K' r F d) -> rule q F d K -> rule q F d K'.
Proof.
  intros HK. destruct q; cbn; try (by eauto);
    try (intros (H1 & H2); split; [done|by eauto]);
    try (intros (H1 & H2 & H3); split_and!; [done|by eauto|by eauto]).
  - destruct d as [| | |? ? [] []]; try done; intros (? & ? & ?); eauto.
  - destruct d as [| | |? ? ? []]; try done. intros (? & ? & ?); eauto.
  - destruct d as [| | |? ? ? []]; try done. intros (? & ?); eauto.
  - destruct d as [| | |? ? [] ?]; try done; intros (? & ?); eauto.
  - intros (H1 & H2). split; eauto.
Qed.

Lemma valid_then_mono {A} (t : Task A) : forall F d (K K' : A -> facts -> debt -> Prop),
  (forall a F d, K a F d -> K' a F d) -> valid_then t F d K -> valid_then t F d K'.
Proof.
  induction t as [a|R q k IH]; intros F d K K' HK; cbn; [apply HK|].
  apply rule_mono. intros r F' d'. by apply IH.
Qed.

Lemma valid_bind {A} (t : Task A) (f : A -> Task Answer) F d :
  valid_then t F d (fun a F d => valid (f a) F d) -> valid (bind t f) F d.
Proof.
  revert F d. induction t as [a|R q k IH]; intros F d; cbn; [done|].
  apply rule_mono. intros r F' d'. apply IH.
Qed.

Lemma valid_then_bind {A B} (t : Task A) (f : A -> Task B) F d K :
  valid_then t F d (fun a F d => valid_then (f a) F d K) -> valid_then (bind t f) F d K.
Proof.
  revert F d. induction t as [a|R q k IH]; intros F d; cbn; [done|].
  apply rule_mono. intros r F' d'. apply IH.
Qed.

(** ** The handlers keep the rules *)

Lemma validated_kind o b : validate_approval_response o b = Ok tt -> kind_ok b o.
Proof. by destruct o, b. Qed.

Lemma respond_valid i req F : valid (handler (RespondTo i req)) F Idle.
Proof.
  split; [done|]. split; [cbn; intros r; by destruct r; split|]. intros p.
  destruct (validate_approval_response _ _) as [[]|e] eqn:Hv; cbn.
  - intros []. split_and!; [done|by apply validated_kind|done|]. split; [by exists p|done].
  - by split_and!.
Qed.

Lemma watch_valid i deadline rx F : valid (watcher i deadline rx) F Idle.
Proof.
  split; [done|]. intros r _. cbn. intros []. set (o := match r with inl v => _ | inr _ => _ end).
  destruct (is_timed_out o) eqn:Ho; [|by split].
  split; [done|]. split; [by split|]. intros p. split; [done|]. split; [done|].
  split; [by destruct o|]. by split.
Qed.

(** A request leaves its channel with the task that made it. *)
Lemma create_valid r b F K :
  (forall tx, K (r, tx) (F ++ [(tx, (id r, b))]) Idle) -> valid_then (create_with_waiter r b) F Idle K.
Proof.
  intros HK. split; [done|]. intros tx. cbn. split; [done|]. split; [set_solver|]. split; [done|].
  intros _ _. apply HK.
Qed.

Lemma route_valid r b F : valid (handler (Route r b)) F Idle.
Proof. apply valid_bind, create_valid. intros tx. cbn. split; [done|]. intros v _. by split. Qed.

Lemma create_internal_valid bridge process tool b count F K :
  (forall i tx F', F' = F ++ [(tx, (i, b))] -> K i F' Idle) ->
  valid_then (create_internal bridge process tool b count) F Idle K.
Proof.
  intros HK. cbn. intros now i. split; [done|]. intros tx. split; [done|]. split; [set_solver|]. split; [done|].
  intros _ _. split; [exists b; set_solver|]. intros context. destruct context as [[[name branch] w]|]; cbn;
    destruct (notification _ _ _); cbn; intros _; by eapply HK.
Qed.

(** What a wait ends with is of the kind of its request. *)
Lemma wait_valid bridge i token b tx F K :
  (tx, (i, b)) ∈ F ->
  (forall F' d r, ends d Viewed -> (forall o, r = Ok o -> kind_ok b o) ->
     r <> Err (RequestFailed "unexpected question response for permission request") ->
     r <> Err (RequestFailed "unexpected permission response for question request") -> K r F' d) ->
  valid_then (wait_internal bridge i token) F Idle K.
Proof.
  intros HF HK. split.
  - apply HK; [by split|done|by rewrite sapp_cons|by rewrite sapp_cons].
  - intros rx b' Hu. destruct (Hu tx b HF) as [-> ->]. cbn. split; [done|]. intros r Hr. destruct r as [v|]; cbn.
    + apply HK; [by split| |done|done]. intros o [= <-]. destruct v as [o|]; cbn; [|done].
      apply (Hr i b'); [set_solver|done].
    + split; [done|]. split; [by apply HK|]. intros p _. split; [done|]. split; [done|]. by apply HK.
Qed.

Lemma ask_tool_valid bridge process tool token F : valid (handler (AskTool bridge process tool token)) F Idle.
Proof.
  apply valid_bind. unfold create_tool_approval. apply create_internal_valid. intros i tx F' ->.
  apply valid_bind. unfold wait_tool_approval.
  apply valid_then_bind, (wait_valid bridge i token false tx); [set_solver|]. intros F' d r [_ Hd] Hk H1 H2.
  split; [|done]. destruct r as [o|[|m]]; cbn; [|done|congruence].
  specialize (Hk o eq_refl). by destruct o.
Qed.

Lemma ask_question_valid bridge process tool count token F :
  valid (handler (AskQuestion bridge process tool count token)) F Idle.
Proof.
  apply valid_bind. unfold create_question_approval. apply create_internal_valid. intros i tx F' ->.
  apply valid_bind. unfold wait_question_answer.
  apply valid_then_bind, (wait_valid bridge i token true tx); [set_solver|]. intros F' d r [_ Hd] Hk H1 H2.
  split; [|done]. destruct r as [o|[|m]]; cbn; [|done|congruence].
  specialize (Hk o eq_refl). by destruct o.
Qed.

Lemma view_valid viewer n F : valid (handler (View viewer n)) F Idle.
Proof.
  cbn. intros all s _. induction n as [|n IH]; [by split|]. cbn. split; [done|].
  intros [p|[]]; cbn; [intros _; apply IH|].
  intros p _. apply IH.
Qed.

Lemma handler_valid r F : valid (handler r) F Idle.
Proof.
  destruct r; [apply respond_valid|apply ask_tool_valid|apply ask_question_valid|apply route_valid|apply view_valid].
Qed.

(** ** Who may send on a channel *)

(** The open channel a debt is about. *)
Definition holder (d : debt) : option nat :=
  match d with
  | Made tx => Some tx
  | Holding _ p _ None => Some (response_tx p)
  | _ => None
  end.

(** What a task's debt says of the world; [i] is the task. *)
Definition owes (w : World) (i : nat) (d : debt) : Prop :=
  match d with
  | Idle => True
  | Made tx => exists c, chans w !! tx = Some c /\ value c = None /\ pending w !! owner c = None
  | Quiet id p => exists c, chans w !! response_tx p = Some c /\ owner c = id
  | Holding id p _ sent =>
      exists c, chans w !! response_tx p = Some c /\ owner c = id /\ question c = p_is_question p /\
        match sent with
        | None => value c = None /\ pending w !! id = None
        | Some v => value c = Some ((fun o => (o, i)) <$> v)
        end
  end.

Record Tokens (w : World) (F : nat -> facts) (D : nat -> debt) : Prop := {
  tk_facts i tx id b : (tx, (id, b)) ∈ F i ->
    exists c, chans w !! tx = Some c /\ owner c = id /\ question c = b;
  tk_unique tx tx' c c' : chans w !! tx = Some c -> chans w !! tx' = Some c' -> owner c = owner c' -> tx = tx';
  tk_pending id p : pending w !! id = Some p ->
    exists c, chans w !! response_tx p = Some c /\ owner c = id /\ question c = p_is_question p /\ value c = None;
  tk_owes i : owes w i (D i);
  tk_apart i j tx : holder (D i) = Some tx -> holder (D j) = Some tx -> i = j;
  tk_open tx c : chans w !! tx = Some c -> value c = None ->
    (exists i, holder (D i) = Some tx) \/ exists p, pending w !! owner c = Some p /\ response_tx p = tx;
  tk_kind tx c o by_ : chans w !! tx = Some c -> value c = Some (Some (o, by_)) -> kind_ok (question c) o;
  tk_waiters b id rx : waiters w !! (b, id) = Some rx -> exists c, chans w !! rx = Some c /\ owner c = id;
}.

(** Debts and facts that change for one task only. *)
Definition others {T} (i : nat) (f f' : nat -> T) : Prop := forall j, j <> i -> f' j = f j.

Lemma others_refl {T} i (f : nat -> T) : others i f f.
Proof. by intros j. Qed.

Lemma others_insert {T} i (f : nat -> T) (x : T) : others i f (<[i := x]> f).
Proof. intros j Hj. by apply fn_lookup_insert_ne. Qed.

Lemma tokens_same w w' F D :
  pending w' = pending w -> chans w' = chans w -> waiters w' = waiters w -> Tokens w F D -> Tokens w' F D.
Proof.
  intros Hp Hc Hw [Hf Hu Hpe Ho Ha Hop Hk Hwa]. split; rewrite ?Hp, ?Hc, ?Hw; try done.
  intros i. specialize (Ho i). destruct (D i); cbn in *; by rewrite ?Hp, ?Hc.
Qed.

(** A fact more about a known channel. *)
Lemma tokens_fact w F D i tx c :
  Tokens w F D -> chans w !! tx = Some c ->
  Tokens w (<[i := F i ++ [(tx, (owner c, question c))]]> F) D.
Proof.
  intros [Hf ? ? ? ? ? ? ?] Hc. split; try done. intros j tx' id b.
  destruct (decide (j = i)) as [->|Hj].
  - rewrite fn_lookup_insert. intros [Hin|Hin]%elem_of_app; [by eapply Hf|].
    apply list_elem_of_singleton in Hin. simplify_eq. by exists c.
  - rewrite fn_lookup_insert_ne by done. apply Hf.
Qed.

(** A debt that stays with the same channel. *)
Lemma tokens_debt w F D i d :
  Tokens w F D -> owes w i d -> holder d = holder (D i) -> Tokens w F (<[i := d]> D).
Proof.
  intros [? ? ? Ho Ha Hop ? ?] Hd Hh.
  assert (forall j, holder ((<[i := d]> D) j) = holder (D j)) as Heq.
  { intros j. destruct (decide (j = i)) as [->|Hj]; [by rewrite fn_lookup_insert|by rewrite fn_lookup_insert_ne]. }
  split; try done.
  - intros j. destruct (decide (j = i)) as [->|Hj]; [by rewrite fn_lookup_insert|by rewrite fn_lookup_insert_ne].
  - intros j k tx. rewrite !Heq. apply Ha.
  - intros tx c Hc Hv. destruct (Hop tx c Hc Hv) as [[j Hj]|Hp]; [left|by right]. exists j. by rewrite Heq.
Qed.

Lemma tokens_new w F D i o b :
  Tokens w F D -> D i = Idle -> (forall c, c ∈ chans w -> owner c <> o) ->
  Tokens (set_chans (chans w ++ [{| owner := o; question := b; value := None |}]) w)
    (<[i := F i ++ [(length (chans w), (o, b))]]> F) (<[i := Made (length (chans w))]> D).
Proof.
  intros [Hf Hu Hp Ho Ha Hop Hk Hw] Hi Hfr. set (c0 := {| owner := o; question := b; value := None |}).
  assert (forall t c, chans w !! t = Some c -> (chans w ++ [c0]) !! t = Some c) as Hold
    by (intros t c; apply lookup_app_l_Some).
  assert ((chans w ++ [c0]) !! length (chans w) = Some c0) as Hnew
    by (by rewrite lookup_app_r, Nat.sub_diag by done).
  assert (forall t c, (chans w ++ [c0]) !! t = Some c -> chans w !! t = Some c \/ t = length (chans w) /\ c = c0) as Hinv.
  { intros t c [?|[? Hl]]%lookup_app_Some; [by left|]. right.
    apply list_lookup_singleton_Some in Hl as [? <-]. split; [lia|done]. }
  assert (pending w !! o = None) as Hnone.
  { destruct (pending w !! o) as [p|] eqn:Hpo; [|done].
    destruct (Hp o p Hpo) as (c & Hc & Hc' & _). destruct (Hfr c); [by eapply list_elem_of_lookup_2|done]. }
  split; cbn [chans pending waiters set_chans set_pending].
  - intros j t id b'. destruct (decide (j = i)) as [->|Hj].
    + rewrite fn_lookup_insert. intros [Hin|Hin]%elem_of_app.
      * destruct (Hf i t id b' Hin) as (c & ? & ? & ?). eauto.
      * apply list_elem_of_singleton in Hin. simplify_eq. by exists c0.
    + rewrite fn_lookup_insert_ne by done. intros Hin. destruct (Hf j t id b' Hin) as (c & ? & ? & ?). eauto.
  - intros t t' c c' [Ht|[-> ->]]%Hinv [Ht'|[-> ->]]%Hinv Hoo; [by eapply Hu| | |done].
    + by destruct (Hfr c); [eapply list_elem_of_lookup_2|].
    + by destruct (Hfr c'); [eapply list_elem_of_lookup_2|].
  - intros id p Hpo. destruct (Hp id p Hpo) as (c & ? & ? & ? & ?). eauto 10.
  - intros j. destruct (decide (j = i)) as [->|Hj].
    + rewrite fn_lookup_insert. exists c0. by split_and!.
    + rewrite fn_lookup_insert_ne by done. specialize (Ho j).
      destruct (D j); cbn in *; [done| | |]; destruct Ho as (c & ? & ?); eauto 10.
  - intros j k t. destruct (decide (j = i)) as [->|Hj], (decide (k = i)) as [->|Hk']; [done| | |].
    + rewrite fn_lookup_insert, fn_lookup_insert_ne by done. intros [= <-] Hh. exfalso.
      specialize (Ho k). destruct (D k) as [| | |? ? ? []]; cbn in *; simplify_eq;
        destruct Ho as (c & Hl%lookup_lt_Some & _); lia.
    + rewrite fn_lookup_insert, fn_lookup_insert_ne by done. intros Hh [= <-]. exfalso.
      specialize (Ho j). destruct (D j) as [| | |? ? ? []]; cbn in *; simplify_eq;
        destruct Ho as (c & Hl%lookup_lt_Some & _); lia.
    + rewrite !fn_lookup_insert_ne by done. apply Ha.
  - intros t c [Ht|[-> ->]]%Hinv Hv.
    + destruct (Hop t c Ht Hv) as [[j Hj]|?]; [left|by right]. exists j.
      rewrite fn_lookup_insert_ne; [done|]. intros ->. by rewrite Hi in Hj.
    + left. exists i. by rewrite fn_lookup_insert.
  - intros t c o' by' [Ht|[-> ->]]%Hinv; [by eapply Hk|done].
  - intros b' id rx Hl. destruct (Hw b' id rx Hl) as (c & ? & ?). eauto.
Qed.

(** What a debt with an open channel says of its request. *)
Lemma holder_open w F D i tx :
  Tokens w F D -> holder (D i) = Some tx ->
  exists c, chans w !! tx = Some c /\ value c = None /\ pending w !! owner c = None.
Proof.
  intros Ht Hh. pose proof (tk_owes _ _ _ Ht i) as Ho.
  destruct (D i) as [|t|?|id p told []]; cbn in *; simplify_eq; [done|].
  destruct Ho as (c & ? & <- & ? & ? & ?). eauto.
Qed.

(** The request of a held channel enters the table. *)
Lemma tokens_put w F D i id p c d :
  Tokens w F D -> holder (D i) = Some (response_tx p) ->
  chans w !! response_tx p = Some c -> owner c = id -> question c = p_is_question p ->
  holder d = None -> (d = Idle \/ d = Quiet id p) ->
  Tokens (set_pending (<[id := p]> (pending w)) (chans w) w) F (<[i := d]> D).
Proof.
  intros Ht Hh Hc Hid Hq Hd Hdd.
  destruct (holder_open _ _ _ _ _ Ht Hh) as (c0 & Hc0 & Hv & Hn). simplify_eq.
  assert (forall j tx, j <> i -> holder (D j) = Some tx -> forall c', chans w !! tx = Some c' -> owner c' <> owner c) as Hne.
  { intros j tx Hj Hhj c' Hc' Heq. pose proof (tk_unique _ _ _ Ht _ _ _ _ Hc' Hc Heq). subst.
    by destruct Hj; eapply (tk_apart _ _ _ Ht). }
  destruct Ht as [Hf Hu Hp Ho Ha Hop Hk Hw]. split; cbn [chans pending waiters set_pending]; try done.
  - intros id p' [[<- <-]|[_ ?]]%lookup_insert_Some; eauto.
  - intros j. destruct (decide (j = i)) as [->|Hj].
    + rewrite fn_lookup_insert. destruct Hdd as [->| ->]; cbn; eauto.
    + rewrite fn_lookup_insert_ne by done. specialize (Ho j). pose proof (Hne j) as Hnj.
      destruct (D j) as [|t|?|id' p' told [v|]]; cbn in *; [done| |done|done|].
      * destruct Ho as (c' & Hc' & ? & ?). exists c'. split_and!; [done|done|].
        rewrite lookup_insert_ne; [done|]. by apply not_eq_sym, (Hnj t).
      * destruct Ho as (c' & Hc' & <- & ? & ? & ?). exists c'. split_and!; try done.
        rewrite lookup_insert_ne; [done|]. by apply not_eq_sym, (Hnj (response_tx p')).
  - intros j k tx. destruct (decide (j = i)) as [->|Hj]; [rewrite fn_lookup_insert; congruence|].
    destruct (decide (k = i)) as [->|Hk']; [rewrite fn_lookup_insert; congruence|].
    rewrite !fn_lookup_insert_ne by done. apply Ha.
  - intros tx c' Hc' Hv'. destruct (Hop tx c' Hc' Hv') as [[j Hj]|(p' & Hp' & <-)].
    + destruct (decide (j = i)) as [->|Hji].
      * rewrite Hh in Hj. simplify_eq. right. exists p. by rewrite lookup_insert_eq.
      * left. exists j. by rewrite fn_lookup_insert_ne.
    + right. exists p'. rewrite lookup_insert_ne; [done|]. intros Heq. congruence.
Qed.

Lemma tokens_take w F D i id p :
  Tokens w F D -> D i = Idle -> pending w !! id = Some p ->
  Tokens (set_pending (delete id (pending w)) (chans w) w) F (<[i := Holding id p false None]> D).
Proof.
  intros [Hf Hu Hp Ho Ha Hop Hk Hw] Hi Hpi. destruct (Hp id p Hpi) as (c & Hc & Hid & Hq & Hv).
  assert (forall j tx, holder (D j) = Some tx -> tx <> response_tx p) as Hne.
  { intros j tx Hh ->. pose proof (Ho j) as Hj. destruct (D j) as [|t|?|id' p' told []]; cbn in *; simplify_eq.
    - destruct Hj as (c' & ? & ? & Hn); simplify_eq.
    - rename select (response_tx _ = response_tx _) into Heq. rewrite Heq in Hj.
      destruct Hj as (c' & ? & ? & ? & ? & Hn); simplify_eq. }
  split; cbn [chans pending waiters set_pending]; try done.
  - intros id' p' [_ ?]%lookup_delete_Some. eauto.
  - intros j. destruct (decide (j = i)) as [->|Hj].
    + rewrite fn_lookup_insert. cbn. exists c. by rewrite lookup_delete_eq.
    + rewrite fn_lookup_insert_ne by done. specialize (Ho j).
      assert (forall x, pending w !! x = None -> delete id (pending w) !! x = None) as Hd
        by (intros x Hx; apply lookup_delete_None; by right).
      destruct (D j) as [|t|?|id' p' told [v|]]; cbn in *; [done| |done|done|];
        destruct Ho as (c' & Ho); exists c'; naive_solver.
  - intros j k tx. destruct (decide (j = i)) as [->|Hj], (decide (k = i)) as [->|Hk']; [done| | |].
    + rewrite fn_lookup_insert, fn_lookup_insert_ne by done. intros [= <-] Hh. by destruct (Hne k _ Hh).
    + rewrite fn_lookup_insert, fn_lookup_insert_ne by done. intros Hh [= <-]. by destruct (Hne j _ Hh).
    + rewrite !fn_lookup_insert_ne by done. apply Ha.
  - intros tx c' Hc' Hv'. destruct (Hop tx c' Hc' Hv') as [[j Hj]|(p' & Hp' & <-)].
    + left. exists j. rewrite fn_lookup_insert_ne; [done|]. intros ->. by rewrite Hi in Hj.
    + destruct (decide (owner c' = id)) as [<-|Hx].
      * left. exists i. rewrite fn_lookup_insert. cbn. congruence.
      * right. exists p'. by rewrite lookup_delete_ne.
Qed.

Lemma lookup_resolve v tx (cs : list chan) t c :
  alter (resolve v) tx cs !! t = Some c ->
  exists c0, cs !! t = Some c0 /\ owner c = owner c0 /\ question c = question c0 /\
    (t = tx /\ c = resolve v c0 \/ t <> tx /\ c = c0).
Proof.
  destruct (decide (t = tx)) as [->|Ht].
  - rewrite list_lookup_alter_eq. intros (c0 & Hc0 & ->)%fmap_Some. exists c0. split_and!; auto.
  - rewrite list_lookup_alter_ne by done. intros Hc. exists c. split_and!; auto.
Qed.

Lemma lookup_resolve_other v tx (cs : list chan) t c : cs !! t = Some c -> (t = tx -> value c <> None) ->
  alter (resolve v) tx cs !! t = Some c.
Proof.
  intros Hc Ht. destruct (decide (t = tx)) as [->|Hn]; [|by rewrite list_lookup_alter_ne].
  rewrite list_lookup_alter_eq, Hc. cbn. unfold resolve. specialize (Ht eq_refl).
  destruct c as [o q v']; cbn in *. by destruct v'.
Qed.

(** The holder of a channel resolves it. *)
Lemma tokens_send w F D i id p told (v : option ApprovalOutcome) :
  Tokens w F D -> D i = Holding id p told None ->
  (forall o, v = Some o -> kind_ok (p_is_question p) o) ->
  Tokens (set_chans (alter (resolve ((fun o => (o, i)) <$> v)) (response_tx p) (chans w)) w) F
    (<[i := Holding id p told (Some v)]> D).
Proof.
  intros [Hf Hu Hp Ho Ha Hop Hk Hw] Hi Hkind. set (w' := set_chans _ w).
  pose proof (Ho i) as Hc. rewrite Hi in Hc. destruct Hc as (c & Hc & Hid & Hq & Hv & Hn).
  assert (forall t c', chans w !! t = Some c' ->
            exists c1, chans w' !! t = Some c1 /\ owner c1 = owner c' /\ question c1 = question c') as Hstay.
  { intros t c' Ht. unfold w'. cbn. destruct (decide (t = response_tx p)) as [->|Hne].
    - rewrite list_lookup_alter_eq, Ht. cbn. by eexists.
    - rewrite list_lookup_alter_ne by done. eauto. }
  assert (forall t c', chans w !! t = Some c' -> t <> response_tx p -> chans w' !! t = Some c') as Hother.
  { intros t c' Ht Hne. apply lookup_resolve_other; [done|]. by intros ->. }
  split; cbn [pending waiters].
  - intros j t id' b Hin. destruct (Hf j t id' b Hin) as (c0 & Hc0 & <- & <-).
    destruct (Hstay t c0 Hc0) as (c1 & ? & ? & ?). eauto.
  - intros t t' c1 c2 (c1' & ? & E1 & _)%lookup_resolve (c2' & ? & E2 & _)%lookup_resolve. rewrite E1, E2. by apply Hu.
  - intros id' p' Hp'. destruct (Hp id' p' Hp') as (c' & Hc' & ? & ? & ?). exists c'. split; [|done].
    apply Hother; [done|]. intros Heq. rewrite Heq in Hc'. cbn in Hp'. simplify_eq.
  - intros j. destruct (decide (j = i)) as [->|Hj].
    + rewrite fn_lookup_insert. exists (resolve ((fun o => (o, i)) <$> v) c).
      unfold w'. cbn. rewrite list_lookup_alter_eq, Hc. cbn. by rewrite Hv.
    + rewrite fn_lookup_insert_ne by done. specialize (Ho j).
      assert (forall tx, holder (D j) = Some tx -> tx <> response_tx p) as Hne.
      { intros tx Hh ->. destruct Hj. apply (Ha j i (response_tx p)); [done|]. by rewrite Hi. }
      destruct (D j) as [|t|id' p'|id' p' told' [v'|]]; cbn in *; [done| | | |].
      * destruct Ho as (c' & Hc' & Hx). exists c'. split; [by apply Hother; [|apply Hne]|done].
      * destruct Ho as (c' & Hc' & <-). destruct (Hstay _ _ Hc') as (c1 & ? & ? & _). eauto.
      * destruct Ho as (c' & Hc' & ? & ? & Hv'). exists c'. split_and!; [|done|done|done].
        apply lookup_resolve_other; [done|]. intros _. by rewrite Hv'.
      * destruct Ho as (c' & Hc' & Hx). exists c'. split; [by apply Hother; [|apply Hne]|done].
  - intros j k tx. destruct (decide (j = i)) as [->|Hj]; [rewrite fn_lookup_insert; done|].
    destruct (decide (k = i)) as [->|Hk']; [by rewrite fn_lookup_insert|].
    rewrite !fn_lookup_insert_ne by done. apply Ha.
  - intros t c' (c0 & Hc0 & _ & _ & [[-> ->]|[Hne ->]])%lookup_resolve Hv'; [cbn in Hv'; by destruct (value c0)|].
    destruct (Hop t c0 Hc0 Hv') as [[j Hj]|?]; [left|by right]. exists j.
    rewrite fn_lookup_insert_ne; [done|]. intros ->. rewrite Hi in Hj. cbn in Hj. congruence.
  - intros t c' o by' (c0 & Hc0 & _ & Hq' & [[-> ->]|[Hne ->]])%lookup_resolve Hv'; [|by eapply Hk].
    rewrite Hq'. rewrite Hc in Hc0. simplify_eq. cbn in Hv'. rewrite Hv in Hv'.
    destruct v as [o'|]; simplify_eq/=. rewrite Hq. by apply Hkind.
  - intros b id' rx Hl. destruct (Hw b id' rx Hl) as (c' & Hc' & ?).
    destruct (Hstay _ _ Hc') as (c1 & ? & ? & _). exists c1. split; [done|congruence].
Qed.

(** A new channel is for a new request. *)
Definition new_owner {R : Type} (q : action R) (w : World) : Prop :=
  match q with NewChannel o _ => forall c, c ∈ chans w -> owner c <> o | _ => True end.

(** One action of a task keeps the tokens, and the rest of the task its rules. *)
Lemma exec_tokens {R : Type} (q : action R) w F D i e w' r K :
  Tokens w F D -> new_owner q w -> rule q (F i) (D i) K -> exec i e q w = Some (w', r) ->
  exists F' D', K r (F' i) (D' i) /\ others i F F' /\ others i D D' /\ Tokens w' F' D'.
Proof.
  intros Ht Hnew Hr He.
  assert (forall w', pending w' = pending w -> chans w' = chans w -> waiters w' = waiters w -> K r (F i) (D i) ->
    exists F' D', K r (F' i) (D' i) /\ others i F F' /\ others i D D' /\ Tokens w' F' D') as Hsame.
  { intros w0 ? ? ? HK. exists F, D. split_and!; [done|apply others_refl..|by eapply tokens_same]. }
  assert (forall d w', pending w' = pending w -> chans w' = chans w -> waiters w' = waiters w ->
    owes w i d -> holder d = holder (D i) -> K r (F i) d ->
    exists F' D', K r (F' i) (D' i) /\ others i F F' /\ others i D D' /\ Tokens w' F' D') as Hdebt.
  { intros d w0 ? ? ? ? ? HK. exists F, (<[i := d]> D). rewrite fn_lookup_insert.
    split_and!; [done|apply others_refl|apply others_insert|].
    eapply tokens_same; [done..|]. by apply tokens_debt. }
  destruct q; cbn in Hr, He; simplify_eq; try (by apply Hsame).
  - destruct Hr as [Hd Hr]. exists (<[i := F i ++ [(length (chans w), (owner0, is_question))]]> F),
      (<[i := Made (length (chans w))]> D). rewrite !fn_lookup_insert.
    split_and!; [by apply Hr|apply others_insert..|]. by apply tokens_new.
  - assert (forall d, holder (D i) = Some (response_tx p) ->
      (exists c, chans w !! response_tx p = Some c /\ owner c = id0 /\ question c = p_is_question p) ->
      pending w !! id0 = None -> holder d = None -> (d = Idle \/ d = Quiet id0 p) -> K tt (F i) d ->
      exists F' D', K tt (F' i) (D' i) /\ others i F F' /\ others i D D' /\
        Tokens (set_pending (<[id0 := p]> (pending w)) match pending w !! id0 with
                  | Some old => alter (resolve None) (response_tx old) (chans w)
                  | None => chans w end w) F' D') as Hput.
    { intros d Hh (c & Hc & Ho & Hq) Hn Hd Hdd HK. rewrite Hn. exists F, (<[i := d]> D).
      rewrite fn_lookup_insert. split_and!; [done|apply others_refl|apply others_insert|].
      by eapply tokens_put. }
    pose proof (tk_owes _ _ _ Ht i) as Ho. destruct (D i) as [|tx| |i' p' [] []] eqn:HD; try done.
    + destruct Hr as (<- & Hf & HK). destruct (tk_facts _ _ _ Ht i _ _ _ Hf) as (c & Hc & <- & Hq).
      destruct Ho as (c' & Hc' & Hv & Hn). cbn in *. simplify_eq. apply (Hput (Quiet (owner c') p)); eauto.
    + destruct Hr as (-> & -> & HK). destruct Ho as (c & Hc & <- & Hq & Hv & Hn). apply (Hput Idle); eauto.
  - destruct Hr as (Hd & Hn & Hs). destruct (pending w !! id0) as [p|] eqn:Hp.
    + destruct (tk_pending _ _ _ Ht _ _ Hp) as (c & Hc & <- & Hq & Hv).
      exists (<[i := F i ++ [(response_tx p, (owner c, question c))]]> F), (<[i := Holding (owner c) p false None]> D).
      rewrite !fn_lookup_insert. split_and!; [rewrite Hq; apply Hs|apply others_insert..|].
      pose proof (tokens_take _ _ _ _ _ _ Ht Hd Hp) as Ht'. exact (tokens_fact _ _ _ i _ _ Ht' Hc).
    + apply Hsame; [|done..|by rewrite Hd]. cbn. by apply delete_id.
  - destruct (D i) as [| | |i' p' told []] eqn:HD; try done. destruct Hr as (-> & Hk & HK).
    exists F, (<[i := Holding i' p' told (Some (Some outcome))]> D). rewrite fn_lookup_insert.
    split_and!; [done|apply others_refl|apply others_insert|].
    apply (tokens_send _ _ _ _ _ _ _ (Some outcome) Ht HD). by intros o [= <-].
  - destruct (D i) as [| | |i' p' told []] eqn:HD; try done. destruct Hr as (-> & HK).
    exists F, (<[i := Holding i' p' told (Some None)]> D). rewrite fn_lookup_insert.
    split_and!; [done|apply others_refl|apply others_insert|].
    by apply (tokens_send _ _ _ _ _ _ _ None Ht HD).
  - pose proof (tk_owes _ _ _ Ht i) as Ho.
    destruct (D i) as [| |i' p'|i' p' [] v] eqn:HD; try done; destruct Hr as (-> & HK).
    + by apply (Hdebt Idle).
    + by apply (Hdebt (Holding i' p' true v)).
  - destruct Hr as [Hd Hr]. assert (w' = w) as -> by (repeat case_match; by simplify_eq).
    apply Hsame; [done..|apply Hr].
    intros i0 b o Hin ->. destruct (tk_facts _ _ _ Ht i _ _ _ Hin) as (c & Hc & _ & <-).
    rewrite Hc in He. cbn in He. unfold received in He. destruct (value c) as [[[o' by']|]|] eqn:Hv; cbn in He.
    + simplify_eq. by eapply (tk_kind _ _ _ Ht).
    + by simplify_eq.
    + destruct deadline; [case_match|]; by simplify_eq.
  - destruct Hr as [Hd Hr]. assert (w' = w) as -> by (repeat case_match; by simplify_eq).
    apply Hsame; [done..|apply Hr].
    intros i0 b o Hin ->. destruct (tk_facts _ _ _ Ht i _ _ _ Hin) as (c & Hc & _ & <-).
    rewrite Hc in He. cbn in He. unfold received in He.
    destruct (value c) as [[[o' by']|]|] eqn:Hv, (bool_decide _), (env_coin e); cbn in He; simplify_eq;
      by eapply (tk_kind _ _ _ Ht).
  - destruct Hr as [(b & Hf) HK]. destruct (tk_facts _ _ _ Ht i _ _ _ Hf) as (c & Hc & Ho & _).
    exists F, D. split_and!; [done|apply others_refl..|]. destruct Ht as [? ? ? ? ? ? ? Hw]. split; try done.
    cbn. intros b' i' rx' [[[= <- <-] <-]|[_ Hl]]%lookup_insert_Some; [eauto|by eapply Hw].
  - destruct Hr as [Hn Hs].
    assert (Tokens (set_waiters (delete (bridge, id0) (waiters w)) w) F D) as Ht'.
    { destruct Ht as [? ? ? ? ? ? ? Hw]. split; try done.
      cbn. intros b' i' rx' [_ Hl]%lookup_delete_Some. by eapply Hw. }
    destruct (waiters w !! (bridge, id0)) as [rx|] eqn:Hl.
    + destruct (tk_waiters _ _ _ Ht _ _ _ Hl) as (c & Hc & <-).
      exists (<[i := F i ++ [(rx, (owner c, question c))]]> F), D. rewrite fn_lookup_insert.
      split_and!; [|apply others_insert|apply others_refl|by apply (tokens_fact _ _ _ _ _ _ Ht')].
      apply Hs. intros rx' b' Hin. destruct (tk_facts _ _ _ Ht i _ _ _ Hin) as (c' & Hc' & Ho & Hq).
      pose proof (tk_unique _ _ _ Ht _ _ _ _ Hc' Hc Ho). subst. by simplify_eq.
    + exists F, D. split_and!; [done|apply others_refl..|done].
  - destruct Hr as [Hd Hr]. destruct (positions w !! subscription) as [pos|]; [|done]. cbn in He.
    case_decide; [simplify_eq; by apply Hsame|].
    destruct (patches w !! pos); cbn in He; simplify_eq. by apply Hsame.
Qed.

(** ** What viewers see *)

(** The debt after an action. *)
Definition after {R : Type} (q : action R) (d : debt) : R -> debt :=
  match q in action R return R -> debt with
  | NewChannel _ _ => fun tx => Made tx
  | InsertPending i p => fun _ => match d with Made _ => Quiet i p | _ => Idle end
  | RemovePending i => fun r => match r with Some p => Holding i p false None | None => d end
  | SendOutcome _ o => fun _ =>
      match d with Holding i p told None => Holding i p told (Some (Some o)) | _ => d end
  | DropSender _ => fun _ => match d with Holding i p told None => Holding i p told (Some None) | _ => d end
  | SendPatch _ => fun _ =>
      match d with Quiet _ _ => Idle | Holding i p _ sent => Holding i p true sent | _ => d end
  | _ => fun _ => d
  end.

Lemma rule_after {R : Type} (q : action R) F d K :
  rule q F d K -> rule q F d (fun r F' d' => K r F' d' /\ d' = after q d r).
Proof.
  destruct q; cbn; try (by eauto); try (intros (H1 & H2); split; [done|by eauto]).
  - destruct d as [| | |? ? [] []]; try done; intros (? & ? & ?); eauto.
  - intros (-> & ? & ?). split_and!; eauto.
  - destruct d as [| | |? ? ? []]; try done. intros (? & ? & ?); eauto.
  - destruct d as [| | |? ? ? []]; try done. intros (? & ?); eauto.
  - destruct d as [| | |? ? [] ?]; try done; intros (? & ?); eauto.
Qed.

Definition doc (w : World) : gmap string ApprovalInfo := read ∅ (patches w).

(** A request has been announced to viewers. *)
Definition announced (w : World) (id : string) : Prop :=
  exists info, created info ∈ patches w /\ i_approval_id info = id.

(** Viewers and the table differ at a request while a task owes them a patch. *)
Definition concerns (d : debt) (id : string) : Prop :=
  match d with Quiet i _ | Holding i _ false _ => i = id | _ => False end.

Definition unseen (w : World) (d : debt) : Prop :=
  match d with
  | Made tx => forall c, chans w !! tx = Some c -> doc w !! owner c = None /\ ~ announced w (owner c)
  | Quiet id p => pending w !! id = Some p /\ doc w !! id = None /\ ~ announced w id
  | Holding id p false _ => pending w !! id = None /\ doc w !! id = Some (info_of id p)
  | _ => True
  end.

Record Views (w : World) (D : nat -> debt) : Prop := {
  vw_unseen i : unseen w (D i);
  vw_rest id : (forall i, ~ concerns (D i) id) -> doc w !! id = info_of id <$> pending w !! id;
  vw_apart i j id : concerns (D i) id -> concerns (D j) id -> i = j;
  vw_known id : is_Some (doc w !! id) \/ announced w id -> exists tx c, chans w !! tx = Some c /\ owner c = id;
}.

Lemma views_same w w' D :
  pending w' = pending w -> chans w' = chans w -> patches w' = patches w -> Views w D -> Views w' D.
Proof.
  intros Hp Hc Hw [Hu Hr Ha Hk].
  assert (doc w' = doc w) as Hd by (unfold doc; by rewrite Hw).
  assert (forall id, announced w' id <-> announced w id) as Han by (intros id; unfold announced; by rewrite Hw).
  split; try done.
  - intros i. specialize (Hu i). destruct (D i) as [|tx| |? ? [] ?]; cbn in *; rewrite ?Hp, ?Hd, ?Hc, ?Han; try done.
    intros c Hl. rewrite Han. by apply Hu.
  - intros id Hn. rewrite Hd, Hp. by apply Hr.
  - intros id. rewrite Hd, Han, Hc. apply Hk.
Qed.

(** A request is taken only when it has been announced. *)
Definition announced_first {R : Type} (q : action R) (w : World) : Prop :=
  match q with RemovePending id => is_Some (pending w !! id) -> announced w id | _ => True end.

(** Two debts of one request. *)
Lemma held_apart w F D i j id p told sent tx c :
  Tokens w F D -> D i = Made tx -> chans w !! tx = Some c -> owner c = id -> D j = Holding id p told sent -> False.
Proof.
  intros Ht Hi Hc Hid Hj. pose proof (tk_owes _ _ _ Ht i) as Ho. rewrite Hi in Ho.
  destruct Ho as (c' & Hc' & Hv & _). rewrite Hc in Hc'. injection Hc' as <-.
  pose proof (tk_owes _ _ _ Ht j) as Ho. rewrite Hj in Ho. destruct Ho as (c1 & Hc1 & Ho1 & _ & Hs).
  pose proof (tk_unique _ _ _ Ht _ _ _ _ Hc Hc1 ltac:(congruence)) as ->.
  rewrite Hc in Hc1. injection Hc1 as <-. destruct sent as [v|]; [congruence|].
  assert (i = j) as -> by (eapply (tk_apart _ _ _ Ht); [rewrite Hi|rewrite Hj]; done). congruence.
Qed.

Lemma others_cases {T} i (f f' : nat -> T) j : others i f f' -> {j = i} + {j <> i /\ f' j = f j}.
Proof. intros Ho. destruct (decide (j = i)) as [->|Hj]; [by left|right; auto]. Qed.

(** The debts [D'] after one task's change, seen through what they concern. *)
Lemma rest_others w (i : nat) (D D' : nat -> debt) id :
  others i D D' -> Views w D -> ~ concerns (D i) id -> (forall j, ~ concerns (D' j) id) ->
  doc w !! id = info_of id <$> pending w !! id.
Proof.
  intros Ho Hv Hi Hn. apply (vw_rest _ _ Hv). intros j. destruct (others_cases i D D' j Ho) as [->|[_ <-]]; auto.
Qed.

Lemma views_new w F D D' i o b :
  Tokens w F D -> Views w D -> D i = Idle -> others i D D' -> D' i = Made (length (chans w)) ->
  (forall c, c ∈ chans w -> owner c <> o) ->
  Views (set_chans (chans w ++ [{| owner := o; question := b; value := None |}]) w) D'.
Proof.
  intros Ht Hv Hi Ho Hi' Hnew. set (c0 := {| owner := o; question := b; value := None |}).
  assert (~ (is_Some (doc w !! o) \/ announced w o)) as Hun.
  { intros (tx & c & Hc & Hoc)%(vw_known _ _ Hv). by apply (Hnew c); [eapply list_elem_of_lookup_2|]. }
  assert (forall j, D' j = D j \/ j = i) as Hj by (intros j; destruct (others_cases i D D' j Ho) as [|[]]; auto).
  assert (forall j id, concerns (D' j) id -> concerns (D j) id) as Hcon.
  { intros j id. destruct (Hj j) as [->| ->]; [done|]. by rewrite Hi'. }
  split.
  - intros j. destruct (others_cases i D D' j Ho) as [->|[_ ->]].
    + rewrite Hi'. cbn. intros c Hc. rewrite lookup_app_r, Nat.sub_diag in Hc by done. injection Hc as <-. cbn.
      split; [apply eq_None_not_Some|]; intros Hx; apply Hun; auto.
    + pose proof (vw_unseen _ _ Hv j) as Hu. pose proof (tk_owes _ _ _ Ht j) as Hoj.
      destruct (D j) as [|tx| |]; try done. intros c Hc. apply (Hu c). cbn in Hc.
      destruct Hoj as (c' & Hc' & _). by rewrite (lookup_app_l_Some _ _ _ _ Hc') in Hc; simplify_eq.
  - intros id Hn. apply (vw_rest _ _ Hv). intros j Hc. apply (Hn j). destruct (Hj j) as [->| ->]; [done|].
    by rewrite Hi in Hc.
  - intros j k id ? ?. by apply (vw_apart _ _ Hv j k id); apply Hcon.
  - intros id (tx & c & ? & ?)%(vw_known _ _ Hv). exists tx, c. split; [by apply lookup_app_l_Some|done].
Qed.

(** A request enters the table, new or given back. *)
Lemma views_put w D D' i id p d :
  Views w D -> others i D D' -> D' i = d -> pending w !! id = None ->
  (forall j, j <> i -> ~ concerns (D j) id) ->
  (d = Quiet id p /\ doc w !! id = None /\ ~ announced w id /\ (forall x, ~ concerns (D i) x) \/
   d = Idle /\ doc w !! id = Some (info_of id p) /\ (forall x, concerns (D i) x -> x = id)) ->
  Views (set_pending (<[id := p]> (pending w)) (chans w) w) D'.
Proof.
  intros Hv Ho Hi' Hn Hapart Hd.
  assert (forall x, ~ concerns (D i) x \/ x = id) as Hcon by (intros x; destruct Hd as [(?&?&?&?)|(?&?&?)]; destruct (decide (x = id)); naive_solver).
  split.
  - intros j. destruct (others_cases i D D' j Ho) as [->|[Hj ->]].
    + rewrite Hi'. destruct Hd as [(-> & ? & ? & _)|(-> & _)]; [|done]. cbn. by rewrite lookup_insert_eq.
    + pose proof (vw_unseen _ _ Hv j) as Hu. specialize (Hapart j Hj).
      destruct (D j) as [|tx|x q|x q [] s]; cbn in *; try done; (rewrite lookup_insert_ne; [done|]); congruence.
  - intros x Hx. cbn. destruct (decide (x = id)) as [->|Hne].
    + rewrite lookup_insert_eq. destruct Hd as [(-> & _)|(-> & Hdoc & _)]; [|done].
      destruct (Hx i). by rewrite Hi'.
    + rewrite lookup_insert_ne by done. apply (rest_others w i D D'); [done|done| |done].
      by destruct (Hcon x).
  - intros j k x Hj Hk. destruct (others_cases i D D' j Ho) as [->|[Hji Ej]], (others_cases i D D' k Ho) as [->|[Hki Ek]]; [done|exfalso|exfalso|].
    + rewrite Hi' in Hj. rewrite Ek in Hk. destruct Hd as [(-> & _)|(-> & _)]; [|done]. cbn in Hj. subst. by apply (Hapart k).
    + rewrite Hi' in Hk. rewrite Ej in Hj. destruct Hd as [(-> & _)|(-> & _)]; [|done]. cbn in Hk. subst. by apply (Hapart j).
    + rewrite Ej in Hj. rewrite Ek in Hk. by eapply (vw_apart _ _ Hv).
  - apply (vw_known _ _ Hv).
Qed.

Lemma views_take w D D' i id p :
  Views w D -> others i D D' -> D i = Idle -> D' i = Holding id p false None ->
  pending w !! id = Some p -> announced w id ->
  Views (set_pending (delete id (pending w)) (chans w) w) D'.
Proof.
  intros Hv Ho Hi Hi' Hp Ha.
  assert (forall j, ~ concerns (D j) id) as Hfree.
  { intros j Hc. pose proof (vw_unseen _ _ Hv j) as Hu. destruct (D j) as [| |x q|x q [] s]; cbn in *; try done; subst.
    - naive_solver.
    - destruct Hu. congruence. }
  split.
  - intros j. destruct (others_cases i D D' j Ho) as [->|[Hj ->]].
    + rewrite Hi'. cbn. rewrite lookup_delete_eq. split; [done|]. etrans; [exact (vw_rest _ _ Hv id Hfree)|]. by rewrite Hp.
    + pose proof (vw_unseen _ _ Hv j) as Hu. specialize (Hfree j).
      destruct (D j) as [|tx|x q|x q [] s]; cbn in *; try done; (rewrite lookup_delete_ne; [done|]); by intros ->.
  - intros x Hx. cbn. destruct (decide (x = id)) as [->|Hne].
    + destruct (Hx i). by rewrite Hi'.
    + rewrite lookup_delete_ne by done. apply (rest_others w i D D'); [done|done|rewrite Hi; by intros []|done].
  - intros j k x Hj Hk. destruct (others_cases i D D' j Ho) as [->|[Hji Ej]], (others_cases i D D' k Ho) as [->|[Hki Ek]]; [done|exfalso|exfalso|].
    + rewrite Hi' in Hj. rewrite Ek in Hk. cbn in Hj. subst. by apply (Hfree k).
    + rewrite Hi' in Hk. rewrite Ej in Hj. cbn in Hk. subst. by apply (Hfree j).
    + rewrite Ej in Hj. rewrite Ek in Hk. by eapply (vw_apart _ _ Hv).
  - apply (vw_known _ _ Hv).
Qed.

Lemma views_send w F D D' i tx v id p told :
  Tokens w F D -> Views w D -> others i D D' -> D i = Holding id p told None -> D' i = Holding id p told (Some v) ->
  Views (set_chans (alter (resolve ((fun o => (o, i)) <$> v)) tx (chans w)) w) D'.
Proof.
  intros Ht Hv Ho Hi Hi'.
  assert (forall j id, concerns (D' j) id <-> concerns (D j) id) as Hcon.
  { intros j x. destruct (others_cases i D D' j Ho) as [->|[_ ->]]; [|done]. rewrite Hi, Hi'. done. }
  split.
  - intros j. pose proof (vw_unseen _ _ Hv j) as Hu. destruct (others_cases i D D' j Ho) as [->|[_ ->]].
    + rewrite Hi in Hu. rewrite Hi'. exact Hu.
    + destruct (D j); try done. intros c (c0 & Hc0 & -> & _)%lookup_resolve. by apply Hu.
  - intros x Hx. apply (vw_rest _ _ Hv). intros j Hj. by apply (Hx j), Hcon.
  - intros j k x Hj%Hcon Hk%Hcon. by eapply (vw_apart _ _ Hv).
  - intros x (t & c & Hc & <-)%(vw_known _ _ Hv). cbn. destruct (decide (t = tx)) as [->|Hne].
    + eexists tx, _. by rewrite list_lookup_alter_eq, Hc.
    + exists t, c. by rewrite list_lookup_alter_ne.
Qed.

Lemma doc_snoc w ps : doc (set_patches (patches w ++ [ps]) w) = read (doc w) [ps].
Proof. unfold doc. cbn. by rewrite read_app. Qed.

(** Viewers are told of a request, or of its end. *)
Lemma views_tell w D D' i id p ps :
  Views w D -> others i D D' ->
  (forall x, concerns (D i) x <-> x = id) -> (forall x, ~ concerns (D' i) x) -> unseen w (D' i) ->
  (forall c tx, chans w !! tx = Some c -> forall j, D j = Made tx -> owner c <> id) ->
  (ps = created (info_of id p) /\ pending w !! id = Some p \/ ps = resolved id /\ pending w !! id = None) ->
  (exists tx c, chans w !! tx = Some c /\ owner c = id) ->
  D' i = Idle \/ (exists q v, D' i = Holding id q true v) ->
  Views (set_patches (patches w ++ [ps]) w) D'.
Proof.
  intros Hv Ho Hi Hi' Hu' Hmade Hps Hknown Hform. set (w' := set_patches _ w).
  assert (doc w' !! id = info_of id <$> pending w !! id) as Hid.
  { unfold w'. rewrite doc_snoc. destruct Hps as [(-> & ->)|(-> & ->)].
    - rewrite read_created. cbn. apply lookup_insert_eq.
    - rewrite read_resolved. apply lookup_delete_eq. }
  assert (forall x, x <> id -> doc w' !! x = doc w !! x) as Hother.
  { intros x Hx. unfold w'. rewrite doc_snoc. destruct Hps as [(-> & _)|(-> & _)].
    - rewrite read_created. cbn. by rewrite lookup_insert_ne.
    - rewrite read_resolved. by rewrite lookup_delete_ne. }
  assert (forall x, announced w' x -> announced w x \/ x = id) as Hann.
  { intros x (info & Hin & Hx). unfold w' in Hin. cbn in Hin. apply elem_of_app in Hin as [Hin|Hin].
    - left. by exists info.
    - right. apply list_elem_of_singleton in Hin. destruct Hps as [(-> & _)|(-> & _)]; [|done].
      subst x.
      assert (read ∅ [created info] = read ∅ [created (info_of id p)]) as Hr by (by rewrite Hin).
      rewrite !read_created in Hr. cbn in Hr.
      assert (is_Some ((<[i_approval_id info := info]> ∅ : gmap string ApprovalInfo) !! id)) as [y Hy]
        by (rewrite Hr, lookup_insert_eq; eauto).
      by apply lookup_insert_Some in Hy as [[? _]|[_ Hy]]; [|rewrite lookup_empty in Hy]. }
  assert (forall j, j <> i -> ~ concerns (D j) id) as Hfree.
  { intros j Hj Hc. apply Hj. apply (vw_apart _ _ Hv j i id); [done|]. by apply Hi. }
  split.
  - intros j. destruct (others_cases i D D' j Ho) as [->|[Hj ->]].
    + by destruct Hform as [->|(q & v & ->)].
    + pose proof (vw_unseen _ _ Hv j) as Hu. specialize (Hfree j Hj). pose proof (fun tx c => Hmade c tx) as Hm.
      destruct (D j) as [|tx|x q|x q [] s] eqn:HD; cbn in *; try done.
      * intros c Hc. specialize (Hm tx c Hc j HD). rewrite Hother by done. destruct (Hu c Hc).
        split; [done|]. intros [?|?]%Hann; done.
      * rewrite Hother by done. destruct Hu as (? & ? & ?). split_and!; [done|done|]. by intros [?|?]%Hann.
      * rewrite Hother by done. done.
  - intros x Hx. destruct (decide (x = id)) as [->|Hne]; [done|]. rewrite Hother by done.
    apply (rest_others w i D D'); [done|done| |done]. by rewrite Hi.
  - intros j k x Hj Hk. destruct (others_cases i D D' j Ho) as [->|[_ Ej]]; [by destruct (Hi' x)|].
    destruct (others_cases i D D' k Ho) as [->|[_ Ek]]; [by destruct (Hi' x)|].
    rewrite Ej in Hj. rewrite Ek in Hk. by eapply (vw_apart _ _ Hv).
  - intros x Hx. destruct (decide (x = id)) as [->|Hne]; [done|]. apply (vw_known _ _ Hv).
    rewrite Hother in Hx by done. destruct Hx as [?|Hx]; [by left|right]. by destruct (Hann x Hx).
Qed.

Lemma exec_views {R : Type} (q : action R) w F D D' i e w' r K :
  Tokens w F D -> Views w D -> new_owner q w -> announced_first q w ->
  rule q (F i) (D i) K -> exec i e q w = Some (w', r) ->
  others i D D' -> D' i = after q (D i) r -> Views w' D'.
Proof.
  intros Ht Hv Hnew Hann Hr He Ho Hi'.
  assert (forall w', pending w' = pending w -> chans w' = chans w -> patches w' = patches w -> D' i = D i -> Views w' D') as Hsame.
  { intros w0 ? ? ? Hd. apply (views_same w); [done..|].
    assert (forall j, D' j = D j) as Hall by (intros j; destruct (others_cases i D D' j Ho) as [->|[]]; done).
    destruct Hv as [Hu Hre Ha Hk]. split; try done.
    - intros j. by rewrite Hall.
    - intros id Hn. apply Hre. intros j. rewrite <-Hall. apply Hn.
    - intros j k id. rewrite !Hall. apply Ha. }
  pose proof (tk_owes _ _ _ Ht i) as Hoi. pose proof (vw_unseen _ _ Hv i) as Hui.
  destruct q; cbn in Hr, He, Hi'; simplify_eq; try (by apply Hsame).
  - destruct Hr as [Hd _]. by apply (views_new w F D D' i).
  - destruct (D i) as [|tx| |i' p' [] []] eqn:HD; try done.
    + destruct Hr as (<- & Hf & _). destruct (tk_facts _ _ _ Ht i _ _ _ Hf) as (c & Hc & <- & _).
      destruct Hoi as (c' & Hc' & Hval & Hn). rewrite Hc in Hc'. injection Hc' as <-. rewrite Hn.
      destruct (Hui c Hc) as [Hdoc Ha].
      apply (views_put w D D' i (owner c) p (Quiet (owner c) p)); try done.
      * intros j Hj Hcon. pose proof (vw_unseen _ _ Hv j) as Huj.
        destruct (D j) as [| |x y|x y [] s] eqn:HDj; cbn in Hcon, Huj; try done; subst.
        -- destruct Huj. congruence.
        -- by eapply (held_apart w F D i j (owner c) y false s (response_tx p) c).
      * left. split_and!; [done|done|done|]. rewrite HD. intros x [].
    + destruct Hr as (-> & -> & _). destruct Hoi as (c & Hc & <- & Hq & Hval & Hn). cbn in Hui.
      rewrite Hn. apply (views_put w D D' i (owner c) p Idle); try done.
      * intros j Hj Hcon. apply Hj. apply (vw_apart _ _ Hv j i (owner c)); [done|]. by rewrite HD.
      * right. split_and!; [done|apply Hui|]. rewrite HD. by intros x.
  - destruct Hr as (Hd & _ & _). destruct (pending w !! id0) as [p|] eqn:Hp.
    + apply (views_take w D D' i id0 p); try done. apply Hann. by exists p.
    + apply Hsame; [|done..|by rewrite Hi']. cbn. by apply delete_id.
  - destruct (D i) as [| | |i' p' told []] eqn:HD; try done.
    by apply (views_send w F D D' i tx (Some outcome) i' p' told).
  - destruct (D i) as [| | |i' p' told []] eqn:HD; try done.
    by apply (views_send w F D D' i tx None i' p' told).
  - destruct (D i) as [| |i' p'|i' p' [] v] eqn:HD; try done; destruct Hr as (-> & _); cbn in Hui.
    + destruct Hoi as (c & Hc & Hoc). destruct Hui as (Hp & _ & _).
      apply (views_tell w D D' i i' p'); try done.
      * rewrite HD. cbn. naive_solver.
      * rewrite Hi'. by intros x [].
      * by rewrite Hi'.
      * intros c' t Hc' j Hj Hx. pose proof (tk_owes _ _ _ Ht j) as Hoj. rewrite Hj in Hoj.
        destruct Hoj as (c2 & Hc2 & _ & Hn). rewrite Hc' in Hc2. injection Hc2 as <-. rewrite Hx in Hn. congruence.
      * by left.
      * eauto.
      * by left.
    + destruct Hoi as (c & Hc & Hoc & _). destruct Hui as (Hp & _).
      apply (views_tell w D D' i i' p'); try done.
      * rewrite HD. cbn. naive_solver.
      * rewrite Hi'. by intros x [].
      * by rewrite Hi'.
      * intros c' t Hc' j Hj Hx. by eapply (held_apart w F D j i).
      * by right.
      * eauto.
      * right. by eexists _, _.
  - apply Hsame; try done; repeat case_match; by simplify_eq.
  - apply Hsame; try done; repeat case_match; by simplify_eq.
  - apply Hsame; try done; destruct (positions w !! subscription) as [pos|]; try done; cbn in He;
      (case_decide; [by simplify_eq|]); destruct (patches w !! pos); cbn in He; by simplify_eq.
Qed.

(** ** Reachable machines *)

(** The next action of a task satisfies a predicate. *)
Definition next_action (P : forall R : Type, action R -> World -> Prop) (m : machine) (c : choice) : Prop :=
  match c with
  | Run i _ =>
      match tasks m !! i with
      | Some (Some (Do q _)) => P _ q (world m)
      | _ => True
      end
  | _ => True
  end.

(** Identifiers of requests do not repeat. *)
Definition fresh_ids : machine -> choice -> Prop := next_action (fun R q w => new_owner q w).

(** Nobody answers a request that viewers have not been told of. *)
Definition announced_before : machine -> choice -> Prop := next_action (fun R q w => announced_first q w).

Inductive reached (ok : machine -> choice -> Prop) : machine -> Prop :=
| reached_start t : reached ok (start t)
| reached_turn m c : reached ok m -> ok m c -> reached ok (turn m c).

Record Kept (m : machine) (F : nat -> facts) (D : nat -> debt) : Prop := {
  kept_tokens : Tokens (world m) F D;
  kept_valid i t : tasks m !! i = Some (Some t) -> valid t (F i) (D i);
  kept_idle i : tasks m !! i = None \/ tasks m !! i = Some None -> D i = Idle;
}.

Lemma kept_start t : Kept (start t) (fun _ => []) (fun _ => Idle).
Proof.
  split; [|done|done].
  split; cbn; try done; intros; try (by set_solver).
Qed.

Lemma kept_turn m c F D :
  Kept m F D -> fresh_ids m c ->
  exists F' D', Kept (turn m c) F' D' /\
    (Views (world m) D -> announced_before m c -> Views (world (turn m c)) D').
Proof.
  intros Hk Hf. pose proof Hk as [Ht Hv Hi].
  assert (forall w', pending w' = pending (world m) -> chans w' = chans (world m) -> waiters w' = waiters (world m) ->
            patches w' = patches (world m) ->
            exists F' D', Kept (with_world w' m) F' D' /\
              (Views (world m) D -> announced_before m c -> Views (world (with_world w' m)) D')) as Hworld.
  { intros w' ? ? ? ?. exists F, D. split; [split; [by eapply tokens_same|done|done]|]. intros ? _. by eapply views_same. }
  destruct c as [r|i e|i|t|token]; cbn; try (by apply Hworld).
  - exists F, D. split; [|done]. split; [done| |].
    + intros i t [Hl|[Hl Hs]]%lookup_app_Some; [by apply Hv|].
      apply list_lookup_singleton_Some in Hs as [_ [= <-]]. rewrite (Hi i).
      * apply handler_valid.
      * left. by apply lookup_ge_None_2.
    + intros i [Hl|Hl]; apply Hi; cbn in *.
      * left. apply lookup_ge_None_1 in Hl. rewrite length_app in Hl. apply lookup_ge_None_2. lia.
      * apply lookup_app_Some in Hl as [?|[? Hl]]; [by right|].
        apply list_lookup_singleton_Some in Hl as [_ Hl]. done.
  - cbn in Hf. destruct (tasks m !! i) as [[[a|R q k]|]|] eqn:Hl; try (by exists F, D).
    destruct (exec i e q (world m)) as [[w r]|] eqn:He; [|by exists F, D].
    destruct (exec_tokens q (world m) F D i e w r _ Ht Hf (rule_after _ _ _ _ (Hv i _ Hl)) He)
      as (F' & D' & [HK Haft] & HF & HD & Ht').
    exists F', D'. pose proof (lookup_lt_Some _ _ _ Hl) as Hlt. split.
    2: { intros Hvw Hann. by eapply (exec_views q); [| | | |exact (Hv i _ Hl)|..]. }
    split; cbn; [done| |].
    + intros j t [Hj|[Hj Hs]]%lookup_app_Some.
      * destruct (decide (j = i)) as [->|Hne].
        -- rewrite list_lookup_insert_eq in Hj by done. by simplify_eq.
        -- rewrite list_lookup_insert_ne in Hj by done. rewrite (HF j), (HD j) by done. by apply Hv.
      * rewrite length_insert in *. destruct (decide (j = i)) as [->|Hne]; [lia|].
        rewrite (HF j), (HD j), (Hi j) by (done || (left; by apply lookup_ge_None_2)).
        destruct q; cbn in Hs; try done. apply list_lookup_singleton_Some in Hs as [_ [= <-]]. apply watch_valid.
    + intros j Hj. destruct (decide (j = i)) as [->|Hne].
      * exfalso. rewrite lookup_app_l, list_lookup_insert_eq in Hj by (by rewrite ?length_insert). by destruct Hj.
      * rewrite (HD j) by done. apply Hi. destruct (decide (j < length (tasks m))%nat).
        -- rewrite lookup_app_l, list_lookup_insert_ne in Hj by (rewrite ?length_insert; done). done.
        -- left. apply lookup_ge_None_2. lia.
  - destruct (tasks m !! i) as [[t|]|] eqn:Hl; [|by exists F, D..].
    destruct (may_drop t) eqn:Hd; [|by exists F, D].
    assert (D i = Idle) as HD.
    { specialize (Hv i t Hl). destruct t as [a|R q k]; [done|]. destruct q; try done; apply Hv. }
    pose proof (lookup_lt_Some _ _ _ Hl) as Hlt.
    exists F, D. split; [|done]. split; cbn; [done| |].
    + intros j t' Hj. destruct (decide (j = i)) as [->|Hne].
      * by rewrite list_lookup_insert_eq in Hj.
      * rewrite list_lookup_insert_ne in Hj by done. by apply Hv.
    + intros j Hj. destruct (decide (j = i)) as [->|Hne]; [done|].
      rewrite list_lookup_insert_ne in Hj by done. by apply Hi.
Qed.

Lemma kept_reached m : reached fresh_ids m -> exists F D, Kept m F D.
Proof.
  induction 1 as [t|m c _ (F & D & Hk) Hf]; [eexists _, _; apply kept_start|].
  destruct (kept_turn m c F D Hk Hf) as (F' & D' & ? & _). eauto.
Qed.

Definition orderly (m : machine) (c : choice) : Prop := fresh_ids m c /\ announced_before m c.

Lemma viewed_reached m : reached orderly m -> exists F D, Kept m F D /\ Views (world m) D.
Proof.
  induction 1 as [t|m c _ (F & D & Hk & Hv) [Hf Ha]].
  - eexists _, _. split; [apply kept_start|]. split; try done.
    intros id [[x Hx]|(info & Hin & _)]; [by apply (lookup_empty_Some id x) in Hx|set_solver].
  - destruct (kept_turn m c F D Hk Hf) as (F' & D' & ? & Hv'). eauto 10.
Qed.

(** ** What agents are told *)

Definition ended (m : machine) (i : nat) (a : Answer) : Prop := tasks m !! i = Some (Some (Ret a)).

(** An agent that asks for a permission is never given the answer to a question, and an
    agent that asks a question is never given a permission. *)
Theorem answers_are_of_their_kind m i id token r r' :
  reached fresh_ids m ->
  (ended m i (ToolStatus id token r) ->
     r <> Err (RequestFailed "unexpected question response for permission request")) /\
  (ended m i (QuestionStatus id token r') ->
     r' <> Err (RequestFailed "unexpected permission response for question request")).
Proof.
  intros (F & D & [_ Hv _])%kept_reached. split; intros He%Hv; destruct He as [He _]; by intros ->.
Qed.

(** ** Who waits for what

    The request a task asks for, with its channel: made, with its waiter put in a bridge, or
    with what the wait was answered; or given up when the token was cancelled. *)
Inductive seat :=
| Nobody
| Owner (id : string) (tx : nat) (b : bool)
| Seated (bridge : N) (id : string) (tx : nat) (b : bool)
| Heard (id : string) (tx : nat) (b : bool) (v : option ApprovalOutcome)
| GivenUp (id : string) (token : nat).

(** The answer of a permission, and of a question, for an outcome of its kind. *)
Definition tool_status (o : ApprovalOutcome) : option Logs.ApprovalStatus :=
  match o with
  | Interaction.Approved => Some Logs.AsApproved
  | Interaction.Denied reason => Some (Logs.AsDenied reason)
  | Interaction.TimedOut => Some Logs.AsTimedOut
  | Interaction.Answered _ => None
  end.

Definition question_status (o : ApprovalOutcome) : option Logs.QuestionStatus :=
  match o with
  | Interaction.Answered answers => Some (Logs.QsAnswered answers)
  | Interaction.TimedOut => Some Logs.QsTimedOut
  | _ => None
  end.

(** What a task may end with, by its seat. *)
Definition ends_heard (s : seat) (a : Answer) : Prop :=
  match a with
  | ToolStatus id token r =>
      (exists tx v, s = Heard id tx false v /\ forall st, tool_status (waited v) = Some st -> r = Ok st)
      \/ s = GivenUp id token /\ r = Err Cancelled
  | QuestionStatus id token r =>
      (exists tx v, s = Heard id tx true v /\ forall st, question_status (waited v) = Some st -> r = Ok st)
      \/ s = GivenUp id token /\ r = Err Cancelled
  | Routed id o => exists tx b v, s = Heard id tx b v /\ o = waited v
  | _ => True
  end.

Definition hears {R : Type} (q : action R) (s : seat) (K : R -> seat -> Prop) : Prop :=
  match q in action R return (R -> seat -> Prop) -> Prop with
  | NewChannel o b => fun K => s = Nobody /\ forall tx, K tx (Owner o tx b)
  | PutWaiter br i rx => fun K => exists b, s = Owner i rx b /\ K tt (Seated br i rx b)
  | TakeWaiter br i => fun K => exists rx b, s = Seated br i rx b /\ K (Some rx) (Owner i rx b)
  | WaitOrCancel rx token => fun K =>
      exists i b, s = Owner i rx b /\ (forall v, K (Some v) (Heard i rx b v)) /\ K None (GivenUp i token)
  | Wait rx deadline => fun K =>
      match deadline with
      | Some _ => forall r, K r s
      | None => exists i b, s = Owner i rx b /\ forall v, K (inl v) (Heard i rx b v)
      end
  | _ => fun K => forall r, K r s
  end K.

Fixpoint listens (t : Task Answer) (s : seat) : Prop :=
  match t with
  | Ret a => ends_heard s a
  | Do q k => hears q s (fun r s => listens (k r) s)
  end.

Lemma handler_listens r : listens (handler r) Nobody.
Proof.
  destruct r as [i req|br process tool token|br process tool count token|r b|v n]; cbn.
  - intros [p|]; cbn; [|by intros]. destruct (validate_approval_response _ _); cbn; by intros.
  - intros now i. split; [done|]. intros tx. cbn. intros _ _ _ _ _. exists false. split; [done|].
    intros context. destruct context as [[[name branch] w]|]; cbn; intros _;
      (exists tx, false; split; [done|]); (exists i, false; split_and!; [done|cbn; intros v|cbn]).
    1, 3: left; exists tx, v; split; [done|]; intros st; by destruct (waited v); intros [= <-].
    all: intros [p|]; cbn; [intros _ _ _|]; by right.
  - intros now i. split; [done|]. intros tx. cbn. intros _ _ _ _ _. exists true. split; [done|].
    intros context. destruct context as [[[name branch] w]|]; cbn; intros _;
      (exists tx, true; split; [done|]); (exists i, true; split_and!; [done|cbn; intros v|cbn]).
    1, 3: left; exists tx, v; split; [done|]; intros st; by destruct (waited v); intros [= <-].
    all: intros [p|]; cbn; [intros _ _ _|]; by right.
  - split; [done|]. intros tx _ _ _ _ _. exists (id r), b. split; [done|]. intros v. by exists tx, b, v.
  - intros all s _. induction n as [|n IH]; [done|]. cbn. intros [p|[]]; cbn; [intros _|intros p _]; apply IH.
Qed.

Lemma watcher_listens i deadline rx : listens (watcher i deadline rx) Nobody.
Proof.
  cbn. intros r. destruct (is_timed_out _); cbn; [|done]. intros _ [p|]; cbn; [|done]. by intros _ _.
Qed.

(** What a seat says of the world. *)
Definition on_channel (w : World) id tx b (v : option (option ApprovalOutcome)) : Prop :=
  exists c, chans w !! tx = Some c /\ owner c = id /\ question c = b /\ (is_Some v -> received c = v).

Definition sits (w : World) (s : seat) : Prop :=
  match s with
  | Nobody => True
  | Owner id tx b => on_channel w id tx b None
  | Seated br id tx b => on_channel w id tx b None /\ waiters w !! (br, id) = Some tx
  | Heard id tx b v => on_channel w id tx b (Some v)
  | GivenUp id token => token ∈ cancelled w
  end.

Definition place (s : seat) : option (string * nat) :=
  match s with
  | Owner id tx _ | Seated _ id tx _ | Heard id tx _ _ => Some (id, tx)
  | _ => None
  end.

(** Channels keep their request and, once resolved, their value. *)
Definition grows (w w' : World) : Prop :=
  cancelled w ⊆ cancelled w' /\
  forall tx c, chans w !! tx = Some c -> exists c', chans w' !! tx = Some c' /\ owner c' = owner c /\
    question c' = question c /\ (is_Some (received c) -> received c' = received c).

Lemma grows_same w w' : cancelled w' = cancelled w -> chans w' = chans w -> grows w w'.
Proof. intros Hc Hch. split; [by rewrite Hc|]. intros tx c. rewrite Hch. eauto 10. Qed.

Lemma resolved_grows v tx (cs : list chan) t c :
  cs !! t = Some c -> exists c', alter (resolve v) tx cs !! t = Some c' /\ owner c' = owner c /\
    question c' = question c /\ (is_Some (received c) -> received c' = received c).
Proof.
  intros Hc. destruct (decide (t = tx)) as [->|Hn]; [|rewrite list_lookup_alter_ne by done; eauto 10].
  rewrite list_lookup_alter_eq, Hc. eexists. split_and!; [done..|].
  unfold received, resolve. cbn. destruct (value c); [done|]. by intros [].
Qed.

Lemma exec_grows i e {R : Type} (q : action R) w w' r : exec i e q w = Some (w', r) -> grows w w'.
Proof.
  intros He. destruct q; cbn in He; try (simplify_eq; by apply grows_same);
    try (simplify_eq; split; [done|]; intros; by apply resolved_grows).
  - simplify_eq. split; [done|]. intros tx c Hc. exists c. split_and!; try done. by apply lookup_app_l_Some.
  - simplify_eq. split; [done|]. intros tx c Hc. cbn.
    destruct (pending w !! id0); [by apply resolved_grows|eauto 10].
  - apply grows_same; repeat case_match; by simplify_eq.
  - apply grows_same; repeat case_match; by simplify_eq.
  - destruct (positions w !! subscription) as [pos|]; [|done]. cbn in He.
    case_decide; [simplify_eq; by apply grows_same|].
    destruct (patches w !! pos); cbn in He; simplify_eq. by apply grows_same.
Qed.

Lemma on_channel_grows w w' id tx b v : grows w w' -> on_channel w id tx b v -> on_channel w' id tx b v.
Proof.
  intros [_ Hg] (c & Hc & Ho & Hq & Hv). destruct (Hg tx c Hc) as (c' & Hc' & Ho' & Hq' & Hr).
  exists c'. split_and!; [done|congruence|congruence|]. intros Hs. rewrite Hr; [auto|]. by rewrite Hv.
Qed.

(** The waiters of the others' requests are theirs. *)
Definition waiters_kept (w w' : World) (ids : string -> Prop) : Prop :=
  forall br id tx, ~ ids id -> waiters w !! (br, id) = Some tx -> waiters w' !! (br, id) = Some tx.

Lemma sits_grows w w' s (ids : string -> Prop) :
  grows w w' -> waiters_kept w w' ids -> (forall id tx, place s = Some (id, tx) -> ~ ids id) ->
  sits w s -> sits w' s.
Proof.
  intros Hg Hw Hs. pose proof Hg as [Hcan _]. destruct s as [|id tx b|br id tx b|id tx b v|id token]; cbn in *.
  - done.
  - by apply on_channel_grows.
  - intros [Hc Hl]. split; [by eapply on_channel_grows|]. apply Hw; [by eapply Hs|done].
  - by apply on_channel_grows.
  - set_solver.
Qed.

(** The requests whose waiters an action touches. *)
Definition touched {R : Type} (q : action R) (id : string) : Prop :=
  match q with PutWaiter _ i _ | TakeWaiter _ i => i = id | _ => False end.

Lemma exec_waiters i e {R : Type} (q : action R) w w' r :
  exec i e q w = Some (w', r) -> waiters_kept w w' (touched q).
Proof.
  intros He br id tx Hid Hl. destruct q; cbn in He, Hid; simplify_eq; try done; cbn.
  - repeat case_match; by simplify_eq.
  - repeat case_match; by simplify_eq.
  - rewrite lookup_insert_ne; [done|]. by intros [= _ ?].
  - rewrite lookup_delete_ne; [done|]. by intros [= _ ?].
  - destruct (positions w !! subscription) as [pos|]; [|done]. cbn in He.
    case_decide; [by simplify_eq|]. destruct (patches w !! pos); cbn in He; by simplify_eq.
Qed.

(** One action moves its task's seat. *)
Lemma exec_sits {R : Type} (q : action R) w i e w' r s K :
  sits w s -> hears q s K -> exec i e q w = Some (w', r) ->
  exists s', K r s' /\ sits w' s' /\
    (place s' = place s \/ place s' = None \/
     place s = None /\ exists id, place s' = Some (id, length (chans w))).
Proof.
  intros Hs Hk He. pose proof (exec_grows _ _ _ _ _ _ He) as Hg.
  pose proof (exec_waiters _ _ _ _ _ _ He) as Hw.
  assert (K r s -> (forall id tx, place s = Some (id, tx) -> ~ touched q id) -> exists s', K r s' /\ sits w' s' /\
    (place s' = place s \/ place s' = None \/
     place s = None /\ exists id, place s' = Some (id, length (chans w)))) as Hstay.
  { intros HK Hn. exists s. split_and!; [done|by eapply sits_grows|by left]. }
  destruct q; cbn in Hk; try (apply Hstay; [by apply Hk|by intros ? ? _ []]).
  - destruct Hk as [-> Hk]. cbn in He. simplify_eq. eexists. split_and!; [apply Hk| |by right; right; split; [|eexists]].
    eexists. cbn. rewrite lookup_app_r, Nat.sub_diag by done. split_and!; [done..|]. by intros [].
  - destruct deadline as [t|]; [apply Hstay; [apply Hk|by intros ? ? _ []]|].
    destruct Hk as (id & b & -> & Hk). cbn in Hs. destruct Hs as (c & Hc & Ho & Hq & _).
    cbn in He. rewrite Hc in He. cbn in He. destruct (received c) as [v|] eqn:Hv; simplify_eq.
    exists (Heard (owner c) rx (question c) v). split_and!; [apply Hk| |by left]. by exists c.
  - destruct Hk as (id & b & -> & Hk & Hn). cbn in Hs. destruct Hs as (c & Hc & Ho & Hq & _).
    cbn in He. rewrite Hc in He. cbn in He.
    subst id b.
    assert (r = None -> exists s', K r s' /\ sits w' s' /\ place s' = None) as Hgive.
    { intros ->. eexists. split; [exact Hn|]. split; [|done]. cbn.
      revert He. case_bool_decide; destruct (received c); intros He; by simplify_eq. }
    assert (forall v, r = Some v -> exists s', K r s' /\ sits w' s' /\ place s' = Some (owner c, rx)) as Hhear.
    { intros v ->. eexists. split; [apply Hk|]. split; [|done]. exists c.
      assert (w' = w /\ received c = Some v) as [-> Hv]; [|by split_and!].
      revert He. case_bool_decide; destruct (received c), (env_coin e); intros He; by simplify_eq. }
    destruct r as [v|]; [destruct (Hhear v eq_refl) as (s' & ? & ? & ?)|destruct (Hgive eq_refl) as (s' & ? & ? & ?)];
      exists s'; auto.
  - destruct Hk as (b & -> & Hk). cbn in He. simplify_eq. eexists. split_and!; [done| |by left].
    split; [done|]. cbn. by rewrite lookup_insert_eq.
  - destruct Hk as (rx & b & -> & Hk). destruct Hs as [Hs Hl]. cbn in He. rewrite Hl in He. simplify_eq.
    eexists. split_and!; [done|done|by left].
Qed.

Record Seats (m : machine) (S : nat -> seat) : Prop := {
  st_listens i t : tasks m !! i = Some (Some t) -> listens t (S i);
  st_sits i : sits (world m) (S i);
  st_apart i j id id' tx : place (S i) = Some (id, tx) -> place (S j) = Some (id', tx) -> i = j;
  st_nobody i : tasks m !! i = None -> S i = Nobody;
}.

(** Seats apart have different requests. *)
Lemma seats_apart w F D s s' id tx tx' :
  Tokens w F D -> sits w s -> sits w s' -> place s = Some (id, tx) -> place s' = Some (id, tx') -> tx = tx'.
Proof.
  intros Ht Hs Hs'.
  assert (forall s tx, sits w s -> place s = Some (id, tx) -> exists c, chans w !! tx = Some c /\ owner c = id) as Hc.
  { intros [] ? H; cbn in *; intros [= <- <-]; try done; [| |]; [destruct H as (c & ? & ? & _)
      |destruct H as [(c & ? & ? & _) _]|destruct H as (c & ? & ? & _)]; eauto. }
  intros (c & Hc1 & Ho1)%Hc (c' & Hc2 & Ho2)%Hc; [|done..].
  eapply (tk_unique _ _ _ Ht); [done..|congruence].
Qed.


Lemma touched_place {R : Type} (q : action R) id s K :
  touched q id -> hears q s K -> exists tx, place s = Some (id, tx).
Proof.
  destruct q; cbn; try done; intros ->.
  - intros (b & -> & _). eauto.
  - intros (rx & b & -> & _). eauto.
Qed.

Lemma seat_place (S : nat -> seat) i s j :
  place ((<[i := s]> S) j) = if decide (j = i) then place s else place (S j).
Proof. case_decide as Hj; [subst; by rewrite fn_lookup_insert|by rewrite fn_lookup_insert_ne]. Qed.

Lemma seats_turn m c F D S :
  Kept m F D -> fresh_ids m c -> Seats m S -> exists S', Seats (turn m c) S'.
Proof.
  intros Hk Hf Hst. pose proof Hst as [Hli Hsi Hap Hno]. pose proof (kept_tokens _ _ _ Hk) as Ht.
  assert (forall w, grows (world m) w -> waiters w = waiters (world m) -> Seats (with_world w m) S) as Hworld.
  { intros w Hg Hw. split; try done. intros i. apply (sits_grows (world m) w (S i) (fun _ => False)).
    - done.
    - intros br id tx _. by rewrite Hw.
    - intros ? ? _ [].
    - apply Hsi. }
  destruct c as [r|i e|i|t|token]; cbn.
  - exists S. split; cbn; [|done..|].
    + intros i t [Hl|[Hl Hs]]%lookup_app_Some; [by apply Hli|].
      apply list_lookup_singleton_Some in Hs as [_ [= <-]].
      rewrite Hno by (by apply lookup_ge_None_2). apply handler_listens.
    + intros i Hl. apply Hno. apply lookup_ge_None_1 in Hl. rewrite length_app in Hl. apply lookup_ge_None_2. lia.
  - destruct (tasks m !! i) as [[[a|R q k]|]|] eqn:Hl; try (by exists S).
    destruct (exec i e q (world m)) as [[w r]|] eqn:He; [|by exists S].
    destruct (exec_sits q (world m) i e w r (S i) _ (Hsi i) (Hli i _ Hl) He) as (s' & Hl' & Hs' & Hp').
    exists (<[i := s']> S). pose proof (lookup_lt_Some _ _ _ Hl) as Hlt.
    assert (forall j, S j <> Nobody -> (j < length (tasks m))%nat) as Hlen.
    { intros j Hj. destruct (decide (j < length (tasks m))%nat); [done|]. destruct Hj. apply Hno.
      apply lookup_ge_None_2. lia. }
    split; cbn.
    + intros j t [Hj|[Hj Hs]]%lookup_app_Some.
      * destruct (decide (j = i)) as [->|Hne].
        -- rewrite fn_lookup_insert. rewrite list_lookup_insert_eq in Hj by done. by simplify_eq.
        -- rewrite fn_lookup_insert_ne by done. rewrite list_lookup_insert_ne in Hj by done. by apply Hli.
      * rewrite length_insert in *. rewrite fn_lookup_insert_ne by lia.
        rewrite Hno by (by apply lookup_ge_None_2).
        destruct q; cbn in Hs; try done. apply list_lookup_singleton_Some in Hs as [_ [= <-]].
        apply watcher_listens.
    + intros j. destruct (decide (j = i)) as [->|Hne]; [by rewrite fn_lookup_insert|].
      rewrite fn_lookup_insert_ne by done.
      apply (sits_grows (world m) w (S j) (touched q)); [by eapply exec_grows|by eapply exec_waiters| |done].
      intros id tx Hj Htid. destruct (touched_place q id (S i) _ Htid (Hli i _ Hl)) as [tx' Hi].
      pose proof (seats_apart _ _ _ _ _ _ _ _ Ht (Hsi j) (Hsi i) Hj Hi) as ->.
      apply Hne. by eapply Hap.
    + intros j j' id id' tx. rewrite (seat_place S i s' j), (seat_place S i s' j').
      assert (forall j id tx, j <> i -> place (S j) = Some (id, tx) -> (tx < length (chans (world m)))%nat) as Hold.
      { intros j0 id0 tx0 _ Hj. pose proof (Hsi j0) as Hs. destruct (S j0); cbn in Hj; simplify_eq; cbn in Hs;
          [|destruct Hs as [Hs _]|]; destruct Hs as (c & Hc & _); by eapply lookup_lt_Some. }
      case_decide as Hj; case_decide as Hj'; subst; [done| | |by apply Hap].
      * destruct Hp' as [-> |[-> |(_ & x & ->)]]; [apply Hap|done|].
        intros [= <- <-] Hx. apply Hold in Hx; [lia|done].
      * destruct Hp' as [-> |[-> |(_ & x & ->)]]; [apply Hap|done|].
        intros Hx [= <- <-]. apply Hold in Hx; [lia|done].
    + intros j Hj. rewrite fn_lookup_insert_ne.
      * apply Hno. apply lookup_ge_None_1 in Hj. rewrite length_app, length_insert in Hj. apply lookup_ge_None_2. lia.
      * intros <-. apply lookup_ge_None_1 in Hj. rewrite length_app, length_insert in Hj. lia.
  - destruct (tasks m !! i) as [[t|]|] eqn:Hl; try (by exists S). destruct (may_drop t); [|by exists S].
    exists S. split; cbn; [|done..|].
    + intros j t' Hj. destruct (decide (j = i)) as [->|Hne].
      * rewrite list_lookup_insert_eq in Hj by (by eapply lookup_lt_Some). done.
      * rewrite list_lookup_insert_ne in Hj by done. by apply Hli.
    + intros j Hj. apply Hno. apply lookup_ge_None_1 in Hj. rewrite length_insert in Hj. by apply lookup_ge_None_2.
  - exists S. apply Hworld; [by apply grows_same|done].
  - exists S. apply Hworld; [|done]. split; [set_solver|]. intros tx c Hc. by exists c.
Qed.

Lemma seats_reached m : reached fresh_ids m -> exists F D S, Kept m F D /\ Seats m S.
Proof.
  induction 1 as [t|m c Hm (F & D & S & Hk & Hs) Hf].
  - exists (fun _ => []), (fun _ => Idle), (fun _ => Nobody). by split; [apply kept_start|].
  - destruct (seats_turn m c F D S Hk Hf Hs) as [S' HS'].
    destruct (kept_turn m c F D Hk Hf) as (F' & D' & Hk' & _). eauto 10.
Qed.


(** Every task has ended or waits. *)
Definition waiting (t : Task Answer) : bool :=
  match t with
  | Ret _ | Do (Wait _ _) _ | Do (WaitOrCancel _ _) _ | Do (Receive _) _ => true
  | _ => false
  end.

Definition at_rest (m : machine) : Prop := forall i t, tasks m !! i = Some (Some t) -> waiting t = true.

Lemma rest_debts m F D i : Kept m F D -> at_rest m -> D i = Idle \/ exists id p v, D i = Holding id p true (Some v).
Proof.
  intros [_ Hv Hi] Hr. destruct (tasks m !! i) as [[t|]|] eqn:Hl; [|left; apply Hi; auto..].
  specialize (Hv i t Hl). specialize (Hr i t Hl). destruct t as [a|R q k].
  - destruct Hv as [_ Hd]. destruct (D i) as [| | |? ? [] []]; eauto 10; done.
  - destruct q; try done; left; apply Hv.
Qed.

(** No request is lost: when no operation is under way, the requests in the table are
    exactly those that have not been answered, with the channel their agent waits on. *)
Theorem open_requests_are_pending m tx c :
  reached fresh_ids m -> at_rest m -> chans (world m) !! tx = Some c ->
  value c = None <-> exists p, pending (world m) !! owner c = Some p /\ response_tx p = tx.
Proof.
  intros (F & D & Hk)%kept_reached Hr Hc. pose proof (kept_tokens _ _ _ Hk) as Ht. split.
  - intros Hv. destruct (tk_open _ _ _ Ht tx c Hc Hv) as [[i Hi]|?]; [|done]. exfalso.
    by destruct (rest_debts _ _ _ i Hk Hr) as [Hd|(? & ? & ? & Hd)]; rewrite Hd in Hi.
  - intros (p & Hp & <-). destruct (tk_pending _ _ _ Ht _ _ Hp) as (c' & ? & _ & _ & ?). by simplify_eq.
Qed.

(** C21: What the patches say is what is pending: when no operation is under way, a viewer
    that has read every patch sees exactly the open requests, as long as no request is
    answered before it is announced. *)
Theorem viewers_see_what_is_pending m :
  reached orderly m -> at_rest m -> read ∅ (patches (world m)) = infos (pending (world m)).
Proof.
  intros (F & D & Hk & Hv)%viewed_reached Hr. apply map_eq. intros id.
  unfold infos. rewrite map_lookup_imap.
  assert (forall i, ~ concerns (D i) id) as Hn.
  { intros i. by destruct (rest_debts _ _ _ i Hk Hr) as [->|(? & ? & ? & ->)]; intros []. }
  etrans; [exact (vw_rest _ _ Hv id Hn)|]. by destruct (pending (world m) !! id).
Qed.

(** ** Concrete runs *)

Fixpoint all_ok (ok : machine -> choice -> Prop) (m : machine) (cs : list choice) : Prop :=
  match cs with
  | [] => True
  | c :: cs => ok m c /\ all_ok ok (turn m c) cs
  end.

Lemma reached_runs ok m cs : reached ok m -> all_ok ok m cs -> reached ok (foldl turn m cs).
Proof. revert m. induction cs as [|c cs IH]; intros m Hm Ha; [done|]. destruct Ha. apply IH; [by constructor|done]. Qed.

Module SampleApprovals.

Definition e : env := {| env_id := "r"; env_context := None; env_coin := false |}.
Definition run (i n : nat) : list choice := replicate n (Run i e).
Definition answer (o : ApprovalOutcome) : request :=
  RespondTo "r" {| response_process_id := 1%N; response_status := o |}.

(** An agent asks: task 0, whose watcher is task 1, waits. *)
Definition ask : list choice := Arrive (AskTool 0%N 1%N "Bash" 0) :: run 0 12.

(** The user approves, and the agent is told. *)
Definition approved : list choice := ask ++ Arrive (answer Interaction.Approved) :: run 2 4 ++ run 0 1 ++ run 1 2.

Example approval :
  let m := runs 0 approved in
  ended m 0 (ToolStatus "r" 0 (Ok Logs.AsApproved)) /\
  ended m 2 (Responded "r" (Ok (Interaction.Approved, {| ctx_tool_name := "Bash"; ctx_execution_process_id := 1%N |}))) /\
  ended m 1 Watched /\ pending (world m) = ∅ /\ at_rest m.
Proof.
  split_and!; try (vm_compute; reflexivity).
  intros i t Hl. do 3 (destruct i as [|i]; [vm_compute in Hl; by injection Hl as <-|]). by vm_compute in Hl.
Qed.

(** Ten hours later, the request has timed out. *)
Example time_out :
  let m := runs 0 (ask ++ Tick (from_secs 36000) :: run 1 5 ++ run 0 1) in
  ended m 0 (ToolStatus "r" 0 (Ok Logs.AsTimedOut)) /\ pending (world m) = ∅ /\
  read ∅ (patches (world m)) = ∅.
Proof. split_and!; vm_compute; reflexivity. Qed.

Ltac ok := repeat (split; [first [exact I | by intros c ?%elem_of_nil | split; exact I
                                  | split; [by intros c ?%elem_of_nil|exact I]
                                  | split; [exact I|intros _; eexists; split; [by left|reflexivity]]]|]); exact I.

Lemma approved_reached : reached orderly (runs 0 approved).
Proof. apply reached_runs; [constructor|]. ok. Qed.

Lemma fresh_reached : reached fresh_ids (runs 0 approved).
Proof. apply reached_runs; [constructor|]. ok. Qed.

Lemma answers_are_of_their_kind_witness :
  (Ok Logs.AsApproved : result Logs.ApprovalStatus ExecutorApprovalError) <>
  Err (RequestFailed "unexpected question response for permission request").
Proof.
  apply (answers_are_of_their_kind (runs 0 approved) 0 "r" 0 (Ok Logs.AsApproved) (Ok Logs.QsTimedOut) fresh_reached).
  apply approval.
Defined.


Lemma open_requests_are_pending_witness :
  value {| owner := "r"; question := false; value := Some (Some (Interaction.Approved, 2%nat)) |} = None <->
  exists p, pending (world (runs 0 approved)) !! "r" = Some p /\ response_tx p = 0%nat.
Proof.
  apply (open_requests_are_pending (runs 0 approved) 0 _ fresh_reached); [apply approval|].
  vm_compute. reflexivity.
Defined.

Lemma viewers_see_what_is_pending_witness :
  read ∅ (patches (world (runs 0 approved))) = infos (pending (world (runs 0 approved))).
Proof. apply (viewers_see_what_is_pending _ approved_reached). apply approval. Defined.

(** An answer of the wrong kind takes the request while the watcher times out, and puts it
    back: the watcher is gone, nobody has answered, and the request stays open for ever. *)
Example wrong_answer_cancels_time_out :
  let m := runs 0 (ask ++ Arrive (answer (Interaction.Answered [])) :: run 2 1
                   ++ Tick (from_secs 36000) :: run 1 3 ++ run 2 1) in
  ended m 1 Watched /\ ended m 2 (Responded "r" (Err InvalidStatus)) /\
  is_Some (pending (world m) !! "r") /\ (value <$> chans (world m)) = [None] /\
  completed (world m) !! "r" = Some Interaction.TimedOut /\ clock (world m) = from_secs 36000.
Proof. split_and!; vm_compute; try reflexivity. eexists; reflexivity. Qed.

(** A viewer's snapshot is taken before its subscription: a request announced in between is
    never shown to it. *)
Example announced_before_subscribed :
  let m := runs 0 (Arrive (View 7%N 3) :: run 0 1 ++ Arrive (AskTool 0%N 1%N "Bash" 0) :: run 1 12 ++ run 0 3) in
  is_Some (pending (world m) !! "r") /\
  read ∅ (snd <$> List.filter (fun vp => bool_decide (vp.1 = 7%N)) (delivered (world m))) = ∅ /\
  length (patches (world m)) = 1%nat /\ positions (world m) = [1%nat].
Proof. split_and!; vm_compute; try reflexivity. eexists; reflexivity. Qed.

(** A request that is answered before it is announced, by a viewer that found it in its
    snapshot, is announced after its end and shown for ever. *)
Example answered_before_announced :
  let m := runs 0 (Arrive (AskTool 0%N 1%N "Bash" 0) :: run 0 4
                   ++ Arrive (answer Interaction.Approved) :: run 1 4 ++ run 0 9) in
  ended m 0 (ToolStatus "r" 0 (Ok Logs.AsApproved)) /\ pending (world m) = ∅ /\
  is_Some (read ∅ (patches (world m)) !! "r").
Proof. split_and!; vm_compute; try reflexivity. eexists; reflexivity. Qed.

(** A cancelled request is recorded as denied, and then, by its watcher, as timed out. *)
Example cancelled_is_recorded_as_timed_out :
  let m := runs 0 (ask ++ CancelToken 0 :: run 0 5 ++ run 1 3) in
  ended m 0 (ToolStatus "r" 0 (Err Cancelled)) /\ completed (world m) !! "r" = Some Interaction.TimedOut.
Proof. split; vm_compute; reflexivity. Qed.

End SampleApprovals.

End ApprovalRuns.
