(* ===== verification/Workspaces.v ===== *)
(** * Workspaces

    The rows of [workspaces] with their placement, the archive intents and overrides, and
    the statements on them: crates/db/src/models/workspace.rs.  The tables a statement only
    reads (sessions, executions, jobs, workers, pull requests, wake-ups and deliveries) have
    the columns it uses. *)
From S2P Require Import Prelude Text Format Redact WorkerNode WorkerJobRow.
From Stdlib Require Import Ascii.

Module Workspaces.

(* crates/db/src/models/workspace.rs:84-89 WorkspaceCreationStatus *)
Inductive WorkspaceCreationStatus := CsQueued | CsRunning | CsReady | CsFailed.
#[global] Instance creation_status_eq_dec : EqDecision WorkspaceCreationStatus.
Proof. solve_decision. Defined.

(* crates/db/src/models/workspace.rs:129-136 WorkspacePlacementState *)
Inductive WorkspacePlacementState := Local | Reserved | Provisioning | Ready | Failed | Cleaning.
#[global] Instance placement_state_eq_dec : EqDecision WorkspacePlacementState.
Proof. solve_decision. Defined.

(* crates/db/src/models/workspace.rs:52-78 Workspace *)
Record Workspace := {
  id : Uuid;
  task_id : option Uuid;
  container_ref : option string;
  branch : string;
  setup_completed_at : option DateTime;
  created_at : DateTime;
  updated_at : DateTime;
  archived : bool;
  pinned : bool;
  name : option string;
  worktree_deleted : bool;
  current_pipeline_stage : option Z;
  speckit_feature_key : option string;
  speckit_host_repo_id : option Uuid;
  creation_status : WorkspaceCreationStatus;
  creation_error : option string;
}.

(* crates/db/src/models/workspace.rs:42-49 ArchiveIntent *)
Record ArchiveIntent := {
  rule : string;
  triggered_at : DateTime;
  archived_at : option DateTime;
  acknowledged : bool;
}.

(* crates/db/src/models/workspace.rs:92-98 WorkspaceWithStatus *)
Record WorkspaceWithStatus := { workspace : Workspace; is_running : bool; is_errored : bool }.

(* crates/db/src/models/workspace.rs:120-123 CreateWorkspace *)
Record CreateWorkspace := { new_branch : string; new_name : option string }.

(* crates/db/src/models/workspace.rs:19-28 WorkspaceError *)
Inductive WorkspaceError := ForeignKey | UniqueViolation | RowNotFound.

(** What an action asks for, with the prompt of an agent's turn, and whether a script is a
    poller. *)
(* crates/executors/src/actions/mod.rs:28-33 ExecutorActionType *)
Inductive ExecutorActionType :=
| CodingAgentInitialRequest (prompt : string)
| CodingAgentFollowUpRequest (prompt : string)
| ScriptRequest (poller : bool)
| ReviewRequest (prompt : string).

(* crates/executors/src/actions/mod.rs:36-39 ExecutorAction *)
Inductive ExecutorAction := Action (typ : ExecutorActionType) (next_action : option ExecutorAction).

(** The columns of an execution the statements read; an action that is not one is [None]. *)
Record Process := {
  pr_session : Uuid;
  pr_run_reason : ExecutionProcessRunReason;
  pr_action : option ExecutorAction;
  pr_status : ProcessRow.ExecutionProcessStatus;
  pr_created_at : DateTime;
  pr_completed_at : option DateTime;
}.

Record Session := { ss_workspace : Uuid; ss_created_at : DateTime }.

Section Tables.
Context {Value : Type}.

(* crates/db/src/models/workspace.rs:139-148 WorkspacePlacement *)
Record WorkspacePlacement := {
  worker_node_id : option Uuid;
  placement_state : WorkspacePlacementState;
  placed_at : option DateTime;
  placement_reason : option string;
  requested_worker_node_id : option Uuid;
  placement_constraints : option Value;
}.

(** A row: what [Workspace] and [WorkspacePlacement] select of it. *)
Record Row := { ws : Workspace; place : WorkspacePlacement; remote_project_id : option Uuid }.

Record Db := {
  workspaces : gmap Uuid Row;
  intents : gmap (Uuid * string) ArchiveIntent;
  overrides : gmap Uuid DateTime;
  workers : gmap Uuid (WorkerNode.WorkerNode Value);
  sessions : gmap Uuid Session;
  processes : gmap Uuid Process;
  jobs : gmap Uuid WorkerJobRow.ExecutionWorkerDispatchState;
  pull_requests : list (Uuid * bool);
  wakeups : gmap Uuid Uuid;
  open_deliveries : gset Uuid;
}.

Definition set_workspaces (t : gmap Uuid Row) (d : Db) : Db :=
  {| workspaces := t; intents := intents d; overrides := overrides d; workers := workers d;
     sessions := sessions d; processes := processes d; jobs := jobs d; pull_requests := pull_requests d;
     wakeups := wakeups d; open_deliveries := open_deliveries d |}.
Definition set_intents (t : gmap (Uuid * string) ArchiveIntent) (d : Db) : Db :=
  {| workspaces := workspaces d; intents := t; overrides := overrides d; workers := workers d;
     sessions := sessions d; processes := processes d; jobs := jobs d; pull_requests := pull_requests d;
     wakeups := wakeups d; open_deliveries := open_deliveries d |}.
Definition set_overrides (t : gmap Uuid DateTime) (d : Db) : Db :=
  {| workspaces := workspaces d; intents := intents d; overrides := t; workers := workers d;
     sessions := sessions d; processes := processes d; jobs := jobs d; pull_requests := pull_requests d;
     wakeups := wakeups d; open_deliveries := open_deliveries d |}.
Definition set_jobs (t : gmap Uuid WorkerJobRow.ExecutionWorkerDispatchState) (d : Db) : Db :=
  {| workspaces := workspaces d; intents := intents d; overrides := overrides d; workers := workers d;
     sessions := sessions d; processes := processes d; jobs := t; pull_requests := pull_requests d;
     wakeups := wakeups d; open_deliveries := open_deliveries d |}.

(** [UPDATE workspaces SET ... WHERE id = ? AND guard]; whether a row was changed. *)
Definition update_row (d : Db) (i : Uuid) (guard : Row -> bool) (f : Row -> Row) : Db * bool :=
  match workspaces d !! i with
  | Some r => if guard r then (set_workspaces (<[i := f r]> (workspaces d)) d, true) else (d, false)
  | None => (d, false)
  end.

Definition on_place (f : WorkspacePlacement -> WorkspacePlacement) (g : Workspace -> Workspace) (r : Row) : Row :=
  {| ws := g (ws r); place := f (place r); remote_project_id := remote_project_id r |}.

(** Assignments to single columns. *)
Definition set_updated_at t (w : Workspace) : Workspace :=
  {| id := id w; task_id := task_id w; container_ref := container_ref w; branch := branch w;
     setup_completed_at := setup_completed_at w; created_at := created_at w; updated_at := t;
     archived := archived w; pinned := pinned w; name := name w; worktree_deleted := worktree_deleted w;
     current_pipeline_stage := current_pipeline_stage w; speckit_feature_key := speckit_feature_key w;
     speckit_host_repo_id := speckit_host_repo_id w; creation_status := creation_status w;
     creation_error := creation_error w |}.
Definition set_container_ref c t (w : Workspace) : Workspace :=
  {| id := id w; task_id := task_id w; container_ref := c; branch := branch w;
     setup_completed_at := setup_completed_at w; created_at := created_at w; updated_at := t;
     archived := archived w; pinned := pinned w; name := name w; worktree_deleted := worktree_deleted w;
     current_pipeline_stage := current_pipeline_stage w; speckit_feature_key := speckit_feature_key w;
     speckit_host_repo_id := speckit_host_repo_id w; creation_status := creation_status w;
     creation_error := creation_error w |}.
Definition set_branch b t (w : Workspace) : Workspace :=
  {| id := id w; task_id := task_id w; container_ref := container_ref w; branch := b;
     setup_completed_at := setup_completed_at w; created_at := created_at w; updated_at := t;
     archived := archived w; pinned := pinned w; name := name w; worktree_deleted := worktree_deleted w;
     current_pipeline_stage := current_pipeline_stage w; speckit_feature_key := speckit_feature_key w;
     speckit_host_repo_id := speckit_host_repo_id w; creation_status := creation_status w;
     creation_error := creation_error w |}.
Definition set_flags a p n t (w : Workspace) : Workspace :=
  {| id := id w; task_id := task_id w; container_ref := container_ref w; branch := branch w;
     setup_completed_at := setup_completed_at w; created_at := created_at w; updated_at := t;
     archived := a; pinned := p; name := n; worktree_deleted := worktree_deleted w;
     current_pipeline_stage := current_pipeline_stage w; speckit_feature_key := speckit_feature_key w;
     speckit_host_repo_id := speckit_host_repo_id w; creation_status := creation_status w;
     creation_error := creation_error w |}.
Definition set_deleted b t (w : Workspace) : Workspace :=
  {| id := id w; task_id := task_id w; container_ref := container_ref w; branch := branch w;
     setup_completed_at := setup_completed_at w; created_at := created_at w; updated_at := t;
     archived := archived w; pinned := pinned w; name := name w; worktree_deleted := b;
     current_pipeline_stage := current_pipeline_stage w; speckit_feature_key := speckit_feature_key w;
     speckit_host_repo_id := speckit_host_repo_id w; creation_status := creation_status w;
     creation_error := creation_error w |}.
Definition set_stage s t (w : Workspace) : Workspace :=
  {| id := id w; task_id := task_id w; container_ref := container_ref w; branch := branch w;
     setup_completed_at := setup_completed_at w; created_at := created_at w; updated_at := t;
     archived := archived w; pinned := pinned w; name := name w; worktree_deleted := worktree_deleted w;
     current_pipeline_stage := s; speckit_feature_key := speckit_feature_key w;
     speckit_host_repo_id := speckit_host_repo_id w; creation_status := creation_status w;
     creation_error := creation_error w |}.
Definition set_speckit k h t (w : Workspace) : Workspace :=
  {| id := id w; task_id := task_id w; container_ref := container_ref w; branch := branch w;
     setup_completed_at := setup_completed_at w; created_at := created_at w; updated_at := t;
     archived := archived w; pinned := pinned w; name := name w; worktree_deleted := worktree_deleted w;
     current_pipeline_stage := current_pipeline_stage w; speckit_feature_key := k;
     speckit_host_repo_id := h; creation_status := creation_status w; creation_error := creation_error w |}.
Definition set_creation s e t (w : Workspace) : Workspace :=
  {| id := id w; task_id := task_id w; container_ref := container_ref w; branch := branch w;
     setup_completed_at := setup_completed_at w; created_at := created_at w; updated_at := t;
     archived := archived w; pinned := pinned w; name := name w; worktree_deleted := worktree_deleted w;
     current_pipeline_stage := current_pipeline_stage w; speckit_feature_key := speckit_feature_key w;
     speckit_host_repo_id := speckit_host_repo_id w; creation_status := s; creation_error := e |}.

(** ** Placement *)

(* crates/db/src/models/workspace.rs:151-167 WorkspacePlacement::find_all_by_archived *)
Definition find_all_by_archived (d : Db) (archived_ : bool) : gmap Uuid WorkspacePlacement :=
  place <$> filter (fun kv => archived (ws kv.2) = archived_) (workspaces d).

(* crates/db/src/models/workspace.rs:169-182 WorkspacePlacement::find *)
Definition find_placement (d : Db) (i : Uuid) : option WorkspacePlacement := place <$> workspaces d !! i.

(** The columns of [worker_node_id] and [requested_worker_node_id] refer to workers. *)
Definition known_worker (d : Db) (w : option Uuid) : bool :=
  match w with Some i => bool_decide (is_Some (workers d !! i)) | None => true end.

Definition checked (d : Db) (assigned requested : option Uuid) (r : Db * bool) : Db * result bool WorkspaceError :=
  if r.2 && negb (known_worker d assigned && known_worker d requested) then (d, Err ForeignKey)
  else (r.1, Ok r.2).

(* crates/db/src/models/workspace.rs:184-213 WorkspacePlacement::reserve *)
Definition reserve (d : Db) (now : DateTime) (i worker : Uuid) (requested : option Uuid)
    (constraints : option Value) (reason : option string) : Db * result bool WorkspaceError :=
  checked d (Some worker) requested
    (update_row d i
       (fun r => bool_decide (placement_state (place r) = Local) && bool_decide (worker_node_id (place r) = None))
       (on_place (fun _ => {| worker_node_id := Some worker; placement_state := Reserved;
                              placed_at := Some now; placement_reason := reason;
                              requested_worker_node_id := requested; placement_constraints := constraints |})
          (set_updated_at now))).

(* crates/db/src/models/workspace.rs:219-249 WorkspacePlacement::reassign *)
Definition reassign (d : Db) (now : DateTime) (i : Uuid) (expected : option Uuid) (worker : Uuid)
    (requested : option Uuid) (reason : string) : Db * result bool WorkspaceError :=
  checked d (Some worker) requested
    (update_row d i
       (fun r => negb (bool_decide (placement_state (place r) = Local))
                 && bool_decide (worker_node_id (place r) = expected))
       (on_place (fun p => {| worker_node_id := Some worker; placement_state := Ready;
                              placed_at := Some now; placement_reason := Some reason;
                              requested_worker_node_id := requested;
                              placement_constraints := placement_constraints p |})
          (set_updated_at now))).

(* crates/db/src/models/workspace.rs:257-282 WorkspacePlacement::reassign_to_coordinator *)
Definition reassign_to_coordinator (d : Db) (now : DateTime) (i : Uuid) (expected : option Uuid)
    (reason : string) : Db * bool :=
  update_row d i (fun r => bool_decide (worker_node_id (place r) = expected))
    (on_place (fun p => {| worker_node_id := None; placement_state := Local; placed_at := Some now;
                           placement_reason := Some reason; requested_worker_node_id := None;
                           placement_constraints := placement_constraints p |})
       (set_updated_at now)).

Definition set_state (s : WorkspacePlacementState) (reason : option string) (p : WorkspacePlacement)
    : WorkspacePlacement :=
  {| worker_node_id := worker_node_id p; placement_state := s; placed_at := placed_at p;
     placement_reason := match reason with Some x => Some x | None => placement_reason p end;
     requested_worker_node_id := requested_worker_node_id p;
     placement_constraints := placement_constraints p |}.

(* crates/db/src/models/workspace.rs:284-324 WorkspacePlacement::transition *)
Definition transition (d : Db) (now : DateTime) (i : Uuid) (expected next : WorkspacePlacementState)
    (reason : option string) : Db * bool :=
  if match expected, next with
     | Reserved, Provisioning | Provisioning, Ready | Provisioning, Failed => true
     | _, _ => false
     end
  then update_row d i (fun r => bool_decide (placement_state (place r) = expected))
         (on_place (set_state next reason) (set_updated_at now))
  else (d, false).

(** An execution of a workspace. *)
Definition of_workspace (d : Db) (i : Uuid) (p : Process) : bool :=
  bool_decide ((ss_workspace <$> sessions d !! pr_session p) = Some i).

Definition is_settled (s : WorkerJobRow.ExecutionWorkerDispatchState) : bool :=
  match s with WorkerJobRow.Completed | WorkerJobRow.Failed | WorkerJobRow.Killed => true | _ => false end.

(** A job of the workspace that may be running. *)
(* crates/db/src/models/execution_worker_job.rs:134-152 ExecutionWorkerJob::has_unsafe_for_workspace *)
Definition has_unsafe_for_workspace (d : Db) (i : Uuid) : bool :=
  existsb (fun kv => negb (is_settled kv.2) &&
                     match processes d !! kv.1 with Some p => of_workspace d i p | None => false end)
    (map_to_list (jobs d)).

(* crates/db/src/models/workspace.rs:326-359 WorkspacePlacement::begin_cleanup *)
Definition begin_cleanup (d : Db) (clock now : DateTime) (i : Uuid) : Db * bool :=
  update_row d i
    (fun r => bool_decide (placement_state (place r) = Ready)
              && match worker_node_id (place r) ≫= fun w => workers d !! w with
                 | Some w => bool_decide (WorkerNode.status w = WorkerNode.Online)
                             && bool_decide (WorkerNode.mount_status w = WorkerNode.MsHealthy)
                             && match WorkerNode.lease_expires_at w with Some t => now <? t | None => false end
                 | None => false
                 end
              && negb (has_unsafe_for_workspace d i))
    (on_place (set_state Cleaning None) (set_updated_at clock)).

(* crates/db/src/models/workspace.rs:365-383 WorkspacePlacement::finish_cleanup *)
Definition finish_cleanup (d : Db) (now : DateTime) (i : Uuid) : Db * bool :=
  update_row d i (fun r => bool_decide (placement_state (place r) = Cleaning) && worktree_deleted (ws r))
    (on_place (set_state Ready None) (set_updated_at now)).

(* crates/db/src/models/workspace.rs:388-406 WorkspacePlacement::cancel_cleanup *)
Definition cancel_cleanup (d : Db) (now : DateTime) (i : Uuid) : Db * bool :=
  update_row d i (fun r => bool_decide (placement_state (place r) = Cleaning) && negb (worktree_deleted (ws r)))
    (on_place (set_state Ready None) (set_updated_at now)).

(** ** Rows *)

(** [ORDER BY key], ascending. *)
Definition by_key {A} (key : A -> Z) (a b : A) : Prop := key a <= key b.
#[local] Instance by_key_dec {A} (key : A -> Z) : RelDecision (by_key key).
Proof. unfold by_key. solve_decision. Defined.
Definition order_by {A} (key : A -> Z) (l : list A) : list A := merge_sort (by_key key) l.

(** [ORDER BY key, key2] *)
Definition by_keys {A} (key key2 : A -> Z) (a b : A) : Prop :=
  key a < key b \/ key a = key b /\ key2 a <= key2 b.
#[local] Instance by_keys_dec {A} (key key2 : A -> Z) : RelDecision (by_keys key key2).
Proof. unfold by_keys. solve_decision. Defined.

Definition all_workspaces (d : Db) : list Workspace := (fun kv => ws kv.2) <$> map_to_list (workspaces d).

(* crates/db/src/models/workspace.rs:411-438 Workspace::fetch_all *)
Definition fetch_all (d : Db) : list Workspace := order_by (fun w => - created_at w) (all_workspaces d).

(* crates/db/src/models/workspace.rs:518-543 Workspace::find_by_id *)
Definition find_by_id (d : Db) (i : Uuid) : option Workspace := ws <$> workspaces d !! i.

Definition update_ws (d : Db) (i : Uuid) (guard : Workspace -> bool) (f : Workspace -> Workspace) : Db * bool :=
  update_row d i (fun r => guard (ws r)) (on_place (fun p => p) f).

Definition anyway (w : Workspace) : bool := true.

(* crates/db/src/models/workspace.rs:463-478 Workspace::update_container_ref *)
Definition update_container_ref (d : Db) (now : DateTime) (i : Uuid) (c : string) : Db :=
  (update_ws d i anyway (set_container_ref (Some c) now)).1.

(* crates/db/src/models/workspace.rs:480-491 Workspace::mark_worktree_deleted *)
Definition mark_worktree_deleted (d : Db) (now : DateTime) (i : Uuid) : Db :=
  (update_ws d i anyway (set_deleted true now)).1.

(* crates/db/src/models/workspace.rs:493-504 Workspace::clear_worktree_deleted *)
Definition clear_worktree_deleted (d : Db) (now : DateTime) (i : Uuid) : Db :=
  (update_ws d i anyway (set_deleted false now)).1.

(* crates/db/src/models/workspace.rs:508-516 Workspace::touch *)
Definition touch (d : Db) (now : DateTime) (i : Uuid) : Db := (update_ws d i anyway (set_updated_at now)).1.

(* crates/db/src/models/workspace.rs:572-584 Workspace::container_ref_exists *)
Definition container_ref_exists (d : Db) (c : string) : bool :=
  existsb (fun w => bool_decide (container_ref w = Some c)) (all_workspaces d).

(** The executions of a workspace. *)
Definition executions (d : Db) (i : Uuid) : list Process :=
  List.filter (of_workspace d i) (snd <$> map_to_list (processes d)).

(** [datetime(x)]: whole seconds. *)
Definition seconds (t : DateTime) : Z := t / nanos_per_second.

(** The later of [updated_at] and of the ends of executions, by which a workspace expires.
    The two-argument [max] is [NULL] if one of them is: without an execution that ended
    there is no such time. *)
(* crates/db/src/models/workspace.rs:630-637 Workspace::find_expired_for_cleanup *)
Definition last_activity (d : Db) (w : Workspace) : option Z :=
  foldr (fun p acc =>
           match pr_completed_at p with
           | Some t => let s := Z.max (seconds (updated_at w)) (seconds t) in
                       Some (match acc with Some a => Z.max a s | None => s end)
           | None => acc
           end) None (executions d (id w)).

(** [now] in the time zone of the server, which is [offset] seconds ahead of UTC. *)
(* crates/db/src/models/workspace.rs:612-637 Workspace::find_expired_for_cleanup *)
Definition is_expired (d : Db) (now : DateTime) (offset : Z) (w : Workspace) : bool :=
  bool_decide (is_Some (container_ref w)) && negb (worktree_deleted w)
  && forallb (fun p => bool_decide (is_Some (pr_completed_at p))) (executions d (id w))
  && match last_activity d w with
     | Some t => t <? seconds now + offset - (if archived w then 1 else 72) * 3600
     | None => false
     end.

(** The order of the sweep: the last end of an execution, or [updated_at] for a session
    without one, over the sessions. *)
Definition sweep_time (d : Db) (w : Workspace) : Z :=
  foldr Z.max 0
    (concat ((fun kv => match omap pr_completed_at
                                (List.filter (fun p => bool_decide (pr_session p = kv.1)) (executions d (id w))) with
                        | [] => [updated_at w]
                        | ts => ts
                        end)
       <$> List.filter (fun kv => bool_decide (ss_workspace kv.2 = id w)) (map_to_list (sessions d)))).

(* crates/db/src/models/workspace.rs:589-648 Workspace::find_expired_for_cleanup *)
Definition find_expired_for_cleanup (d : Db) (now : DateTime) (offset : Z) : list Workspace :=
  order_by (sweep_time d) (List.filter (is_expired d now offset) (all_workspaces d)).

(* crates/db/src/models/workspace.rs:650-669 Workspace::create *)
Definition create (d : Db) (now : DateTime) (data : CreateWorkspace) (i : Uuid)
    : Db * result Workspace WorkspaceError :=
  match workspaces d !! i with
  | Some _ => (d, Err UniqueViolation)
  | None =>
      let w := {| id := i; task_id := None; container_ref := None; branch := new_branch data;
                  setup_completed_at := None; created_at := now; updated_at := now; archived := false;
                  pinned := false; name := new_name data; worktree_deleted := false;
                  current_pipeline_stage := None; speckit_feature_key := None;
                  speckit_host_repo_id := None; creation_status := CsReady; creation_error := None |} in
      let p := {| worker_node_id := None; placement_state := Local; placed_at := None;
                  placement_reason := None; requested_worker_node_id := None;
                  placement_constraints := None |} in
      (set_workspaces (<[i := {| ws := w; place := p; remote_project_id := None |}]> (workspaces d)) d, Ok w)
  end.

(** ** Creation in the background *)

Definition has_creation (l : list WorkspaceCreationStatus) (w : Workspace) : bool :=
  bool_decide (creation_status w ∈ l).

(* crates/db/src/models/workspace.rs:671-685 Workspace::queue_creation *)
Definition queue_creation (d : Db) (now : DateTime) (i : Uuid) : Db * bool :=
  update_ws d i (has_creation [CsReady]) (set_creation CsQueued None now).

(* crates/db/src/models/workspace.rs:687-701 Workspace::claim_creation *)
Definition claim_creation (d : Db) (now : DateTime) (i : Uuid) : Db * bool :=
  update_ws d i (has_creation [CsQueued]) (set_creation CsRunning None now).

(* crates/db/src/models/workspace.rs:703-717 Workspace::finish_creation *)
Definition finish_creation (d : Db) (now : DateTime) (i : Uuid) : Db * bool :=
  update_ws d i (has_creation [CsRunning]) (set_creation CsReady None now).

(* crates/db/src/models/workspace.rs:719-735 Workspace::fail_creation *)
Definition fail_creation (d : Db) (now : DateTime) (i : Uuid) (error : string) : Db * bool :=
  update_ws d i (has_creation [CsQueued; CsRunning]) (set_creation CsFailed (Some error) now).

Definition INTERRUPTED : string :=
  "Workspace creation was interrupted by a server restart. Create a new workspace to try again.".

(* crates/db/src/models/workspace.rs:737-749 Workspace::fail_unfinished_creations *)
Definition fail_unfinished_creations (d : Db) (now : DateTime) : Db * Z :=
  let unfinished r := has_creation [CsQueued; CsRunning] (ws r) in
  (set_workspaces
     ((fun r => if unfinished r then on_place (fun p => p) (set_creation CsFailed (Some INTERRUPTED) now) r else r)
        <$> workspaces d) d,
   Z.of_nat (length (List.filter unfinished (snd <$> map_to_list (workspaces d))))).

(* crates/db/src/models/workspace.rs:751-765 Workspace::update_branch_name *)
Definition update_branch_name (d : Db) (now : DateTime) (i : Uuid) (b : string) : Db :=
  (update_ws d i anyway (set_branch b now)).1.

(** ** Paths *)

(** [Path::components] of a Unix path: the root, and the parts that are neither empty nor a
    dot inside the path; a dot at the head of a relative path stays. *)
Definition components (path : string) : list string :=
  let parts := split_char "/" path in
  let keep l := List.filter (fun p => negb (String.eqb p "" || String.eqb p ".")) l in
  match parts with
  | "" :: rest => (if String.eqb path "" then [] else ["/"]) ++ keep rest
  | "." :: rest => "." :: keep rest
  | parts => keep parts
  end.

Definition path_starts_with (path base : string) : bool :=
  bool_decide (components base `prefix_of` components path).

(** [max_by_key]: the last of the greatest. *)
Fixpoint max_by_key {A} (key : A -> nat) (l : list A) : option A :=
  match l with
  | [] => None
  | a :: l =>
      match max_by_key key l with
      | Some b => if (key a <=? key b)%nat then Some b else Some a
      | None => Some a
      end
  end.

(* crates/db/src/models/workspace.rs:793-808 Workspace::best_matching_container_ref *)
Definition best_matching_container_ref (path : string) (candidates : list (Uuid * string)) : option Uuid :=
  fst <$> max_by_key (fun c => length (components c.2))
            (List.filter (fun c => path_starts_with path c.2 || path_starts_with c.2 path) candidates).

(* crates/db/src/models/workspace.rs:769-791 Workspace::resolve_container_ref_by_prefix *)
Definition resolve_container_ref_by_prefix (d : Db) (path : string) : result Uuid WorkspaceError :=
  ok_or (best_matching_container_ref path
           (omap (fun w => (fun c => (id w, c)) <$> container_ref w) (all_workspaces d))) RowNotFound.

(** ** Archiving *)

(** The intent enters acknowledged if the workspace was unarchived after the trigger, as far
    as SQLite's [julianday] tells instants apart. *)
(* crates/db/src/models/workspace.rs:811-822 Workspace::record_archive_intent *)
Definition record_archive_intent (julianday : DateTime -> Z) (d : Db) (i : Uuid) (key rule : string) (triggered : DateTime)
    : Db * result unit WorkspaceError :=
  match intents d !! (i, key), workspaces d !! i with
  | Some _, _ => (d, Ok tt)
  | None, None => (d, Err ForeignKey)
  | None, Some _ =>
      let overridden := match overrides d !! i with Some t => julianday triggered <=? julianday t | None => false end in
      (set_intents (<[(i, key) := {| rule := rule; triggered_at := triggered; archived_at := None;
                                     acknowledged := overridden |}]> (intents d)) d, Ok tt)
  end.

Definition intents_of (d : Db) (i : Uuid) : list (string * ArchiveIntent) :=
  (fun kv => (kv.1.2, kv.2)) <$> List.filter (fun kv => bool_decide (kv.1.1 = i)) (map_to_list (intents d)).

(* crates/db/src/models/workspace.rs:824-830 Workspace::archive_provenance *)
Definition archive_provenance (d : Db) (i : Uuid) : list (string * ArchiveIntent) :=
  order_by (fun kv => - triggered_at kv.2) (intents_of d i).

Definition acknowledge (n : ArchiveIntent) : ArchiveIntent :=
  {| rule := rule n; triggered_at := triggered_at n; archived_at := archived_at n; acknowledged := true |}.

(* crates/db/src/models/workspace.rs:832-840 Workspace::acknowledge_archive_intent *)
Definition acknowledge_archive_intent (d : Db) (i : Uuid) (key : string) : Db :=
  set_intents (alter acknowledge (i, key) (intents d)) d.

(* crates/db/src/models/workspace.rs:842-845 Workspace::pending_archive_workspaces *)
Definition pending_archive_workspaces (d : Db) : gset Uuid :=
  list_to_set (List.filter (fun i => bool_decide ((archived ∘ ws <$> workspaces d !! i) = Some false))
                 ((fun kv => kv.1.1) <$> List.filter (fun kv => negb (acknowledged kv.2)) (map_to_list (intents d)))).

(** A rule whose event lives on the remote server. *)
Definition is_remote_rule (r : string) : bool :=
  starts_with "issue_" r || starts_with "remote_" r || String.eqb r "legacy_remote_archive".

Definition has_open_pull_request (d : Db) (i : Uuid) : bool :=
  existsb (fun p => bool_decide (p.1 = i) && p.2) (pull_requests d).

(** The intent may archive its workspace now. *)
(* crates/db/src/models/workspace.rs:866-872 Workspace::try_archive_with_remote_intents *)
Definition eligible (d : Db) (i : Uuid) (allow_remote_intents : bool) (n : ArchiveIntent) : bool :=
  negb (acknowledged n)
  && (allow_remote_intents || negb (is_remote_rule (rule n)))
  && (negb (String.eqb (rule n) "pr_merged") || negb (has_open_pull_request d i)).

(* crates/db/src/models/workspace.rs:874-883 Workspace::try_archive_with_remote_intents *)
Definition is_working (p : Process) : bool :=
  bool_decide (pr_status p = ProcessRow.Running)
  && (bool_decide (pr_run_reason p = CodingAgent)
      || bool_decide (pr_run_reason p = BackgroundHelper)
         && match pr_action p with Some (Action (ScriptRequest true) _) => true | _ => false end).

(* crates/db/src/models/workspace.rs:886-890 Workspace::try_archive_with_remote_intents *)
Definition has_open_wakeup (d : Db) (i : Uuid) : bool :=
  existsb (fun kv => bool_decide (kv.2 = i) && bool_decide (kv.1 ∈ open_deliveries d)) (map_to_list (wakeups d)).

(** The latest eligible intent, the first of its keys. *)
Definition precedes (a b : string * ArchiveIntent) : bool :=
  (triggered_at b.2 <? triggered_at a.2)
  || (triggered_at a.2 =? triggered_at b.2) && String.ltb a.1 b.1.

Definition latest (l : list (string * ArchiveIntent)) : option (string * ArchiveIntent) :=
  foldr (fun a acc => match acc with Some b => if precedes b a then Some b else Some a | None => Some a end) None l.

Definition attribute (now : DateTime) (n : ArchiveIntent) : ArchiveIntent :=
  {| rule := rule n; triggered_at := triggered_at n; archived_at := Some now; acknowledged := acknowledged n |}.

(* crates/db/src/models/workspace.rs:856-907 Workspace::try_archive_with_remote_intents *)
Definition try_archive_with_remote_intents (d : Db) (now : DateTime) (i : Uuid) (allow_remote_intents : bool)
    : Db * bool :=
  let candidates := List.filter (fun kn => eligible d i allow_remote_intents kn.2) (intents_of d i) in
  let '(d, archived) :=
    update_ws d i
      (fun w => negb (archived w) && negb (pinned w) && negb (bool_decide (candidates = []))
                && negb (existsb is_working (executions d i)) && negb (has_open_wakeup d i))
      (fun w => set_flags true (pinned w) (name w) now w) in
  if archived then
    (match latest candidates with
     | Some (key, _) => set_intents (alter (attribute now) (i, key) (intents d)) d
     | None => d
     end, true)
  else (d, false).

(* crates/db/src/models/workspace.rs:849-854 Workspace::try_archive_automatically *)
Definition try_archive_automatically (d : Db) (now : DateTime) (i : Uuid) : Db * bool :=
  try_archive_with_remote_intents d now i true.

(* crates/db/src/models/workspace.rs:909-922 Workspace::set_archived *)
Definition set_archived (d : Db) (now : DateTime) (i : Uuid) (a : bool) : Db :=
  (update_ws d i anyway (fun w => set_flags a (pinned w) (name w) now w)).1.

(* crates/db/src/models/workspace.rs:926-969 Workspace::update *)
Definition update (d : Db) (now : DateTime) (i : Uuid) (archived_ pinned_ : option bool) (name_ : option string)
    : Db * result unit WorkspaceError :=
  if bool_decide (archived_ = Some false) && bool_decide (workspaces d !! i = None) then (d, Err ForeignKey)
  else
    let d :=
      if bool_decide (archived_ = Some false) then
        set_intents (map_imap (fun k n => Some (if bool_decide (k.1 = i) then acknowledge n else n)) (intents d))
          (set_overrides (<[i := now]> (overrides d)) d)
      else d in
    let d :=
      (update_ws d i anyway
         (fun w => set_flags (default (archived w) archived_) (default (pinned w) pinned_)
                     (match name_ with
                      | Some n => if String.eqb n "" then None else Some n
                      | None => name w
                      end) now w)).1 in
    let d :=
      if bool_decide (archived_ = Some true) then
        set_intents
          (map_imap (fun k n =>
             Some (if bool_decide (k.1 = i) && String.eqb (rule n) "manual_archive"
                      && bool_decide (archived_at n = None) && negb (acknowledged n)
                   then attribute now n else n)) (intents d)) d
      else d in
    (d, Ok tt).

(** ** Other columns *)

(* crates/db/src/models/workspace.rs:974-986 Workspace::get_remote_project_id *)
Definition get_remote_project_id (d : Db) (i : Uuid) : option Uuid := workspaces d !! i ≫= remote_project_id.

(* crates/db/src/models/workspace.rs:990-1003 Workspace::set_remote_project_id *)
Definition set_remote_project_id (d : Db) (now : DateTime) (i : Uuid) (p : option Uuid) : Db :=
  (update_row d i (fun _ => true)
     (fun r => {| ws := set_updated_at now (ws r); place := place r; remote_project_id := p |})).1.

(* crates/db/src/models/workspace.rs:1008-1021 Workspace::set_current_pipeline_stage *)
Definition set_current_pipeline_stage (d : Db) (now : DateTime) (i : Uuid) (s : option Z) : Db :=
  (update_ws d i anyway (set_stage s now)).1.

(* crates/db/src/models/workspace.rs:1026-1056 Workspace::find_latest_by_task_id *)
Definition find_latest_by_task_id (d : Db) (t : Uuid) : option Workspace :=
  head (order_by (fun w => - created_at w)
          (List.filter (fun w => bool_decide (task_id w = Some t) && negb (worktree_deleted w)) (all_workspaces d))).

(* crates/db/src/models/workspace.rs:1063-1082 Workspace::set_speckit_provisioning *)
Definition set_speckit_provisioning (d : Db) (now : DateTime) (i host : Uuid) (key : string) : Db * bool :=
  update_ws d i (fun w => bool_decide (speckit_feature_key w = None)) (set_speckit (Some key) (Some host) now).

(** ** Names *)

(* crates/db/src/models/workspace.rs:1110-1129 Workspace::extract_first_prompt_from_executor_action *)
Fixpoint extract_first_prompt_from_executor_action (a : ExecutorAction) : option string :=
  match a with
  | Action typ next =>
      match typ with
      | CodingAgentInitialRequest prompt | CodingAgentFollowUpRequest prompt | ReviewRequest prompt => Some prompt
      | ScriptRequest _ =>
          match next with Some a => extract_first_prompt_from_executor_action a | None => None end
      end
  end.

(* crates/db/src/models/workspace.rs:1084-1108 Workspace::get_first_user_message *)
Definition get_first_user_message (d : Db) (i : Uuid) : option string :=
  head (omap (fun p => pr_action p ≫= extract_first_prompt_from_executor_action)
          (merge_sort (by_keys (fun p => match sessions d !! pr_session p with
                                         | Some s => ss_created_at s
                                         | None => 0
                                         end) pr_created_at) (executions d i))).

(* crates/db/src/models/workspace.rs:11-11 WORKSPACE_NAME_MAX_LEN *)
Definition WORKSPACE_NAME_MAX_LEN : nat := 60.

(* crates/db/src/models/workspace.rs:1131-1143 Workspace::truncate_to_name *)
Definition truncate_to_name (prompt : string) (max_len : nat) : string :=
  let trimmed := trim prompt in
  if (length (Redact.chars trimmed) <=? max_len)%nat then trimmed
  else
    let truncated := sconcat (take max_len (Redact.chars trimmed)) in
    match Redact.rsplit_once " " truncated with
    | Some (p, _) => p +:+ "..."
    | None => truncated +:+ "..."
    end.

(** ** Status *)

Definition is_turn (p : Process) : bool :=
  bool_decide (pr_run_reason p ∈ [SetupScript; CleanupScript; CodingAgent]).

(* crates/db/src/models/workspace.rs:1170-1189 Workspace::find_all_with_status *)
Definition with_status (d : Db) (w : Workspace) : WorkspaceWithStatus :=
  let turns := List.filter is_turn (executions d (id w)) in
  {| workspace := w;
     is_running := existsb (fun p => bool_decide (pr_status p = ProcessRow.Running)) turns;
     is_errored :=
       match head (order_by (fun p => - pr_created_at p) turns) with
       | Some p => bool_decide (pr_status p ∈ [ProcessRow.Failed; ProcessRow.Killed])
       | None => false
       end |}.

(** A workspace without a name gets one from its first prompt, stored. *)
(* crates/db/src/models/workspace.rs:1229-1237 Workspace::find_all_with_status *)
Definition name_it (d : Db) (now : DateTime) (w : WorkspaceWithStatus) : Db * WorkspaceWithStatus :=
  match name (workspace w), get_first_user_message d (id (workspace w)) with
  | None, Some prompt =>
      let n := truncate_to_name prompt WORKSPACE_NAME_MAX_LEN in
      ((update d now (id (workspace w)) None None (Some n)).1,
       {| workspace := set_flags (archived (workspace w)) (pinned (workspace w)) (Some n)
                         (updated_at (workspace w)) (workspace w);
          is_running := is_running w; is_errored := is_errored w |})
  | _, _ => (d, w)
  end.

Fixpoint name_all (d : Db) (now : DateTime) (l : list WorkspaceWithStatus) : Db * list WorkspaceWithStatus :=
  match l with
  | [] => (d, [])
  | w :: l =>
      let '(d, w) := name_it d now w in
      let '(d, l) := name_all d now l in
      (d, w :: l)
  end.

(** [lim as usize] of a negative limit is huge. *)
(* crates/db/src/models/workspace.rs:1145-1240 Workspace::find_all_with_status *)
Definition find_all_with_status (d : Db) (now : DateTime) (archived_ : option bool) (limit : option Z)
    : Db * list WorkspaceWithStatus :=
  let rows := with_status d <$> order_by (fun w => - updated_at w) (all_workspaces d) in
  let rows := List.filter (fun w => match archived_ with
                                    | Some a => Bool.eqb (archived (workspace w)) a
                                    | None => true
                                    end) rows in
  let rows := match limit with
              | Some l => if 0 <=? l then take (Z.to_nat l) rows else rows
              | None => rows
              end in
  name_all d now rows.

(* crates/db/src/models/workspace.rs:1251-1337 Workspace::find_by_id_with_status *)
Definition find_by_id_with_status (d : Db) (now : DateTime) (i : Uuid) : Db * option WorkspaceWithStatus :=
  match find_by_id d i with
  | Some w => let '(d, w) := name_it d now (with_status d w) in (d, Some w)
  | None => (d, None)
  end.

(** The rows that refer to the workspace go with it. *)
(* crates/db/src/models/workspace.rs:1243-1248 Workspace::delete *)
Definition delete_workspace (d : Db) (i : Uuid) : Db * Z :=
  match workspaces d !! i with
  | None => (d, 0)
  | Some _ =>
      let sessions' := filter (fun kv => ss_workspace kv.2 <> i) (sessions d) in
      let processes' := filter (fun kv => is_Some (sessions' !! pr_session kv.2)) (processes d) in
      ({| workspaces := delete i (workspaces d);
          intents := filter (fun kv => kv.1.1 <> i) (intents d);
          overrides := delete i (overrides d);
          workers := workers d;
          sessions := sessions';
          processes := processes';
          jobs := filter (fun kv => is_Some (processes' !! kv.1)) (jobs d);
          pull_requests := pull_requests d;
          wakeups := wakeups d;
          open_deliveries := open_deliveries d |}, 1)
  end.

End Tables.
#[global] Arguments Db : clear implicits.
#[global] Arguments Row : clear implicits.
#[global] Arguments WorkspacePlacement : clear implicits.

End Workspaces.
