(* ===== verification/WorkspaceFacts.v ===== *)
(** * Facts about workspaces

    The operations of [Workspaces] in any order: what every row keeps, what an explicit
    unarchiving protects from, which moves a placement makes; and the admission of an
    automatic archive, the expiry of idle workspaces, and the names and paths.  Concrete
    runs are in [SampleWorkspaces]. *)
From S2P Require Import Prelude Text Format Redact WorkerNode WorkerJobRow Workspaces.
From Stdlib Require Import Ascii.
Import Workspaces.

(** What the guards of a write say. *)
Ltac guards :=
  repeat match goal with
  | H : _ && _ = true |- _ => apply andb_true_iff in H as [? ?]
  | H : bool_decide _ = true |- _ => apply bool_decide_eq_true in H
  | H : negb _ = true |- _ => apply negb_true_iff in H
  end.

(** ** Any sequence of operations *)

Section Ops.
Context {Value : Type} (julianday : DateTime -> Z).
Implicit Types (d : Db Value) (i : Uuid) (now t : DateTime).

(** The operations that write, and the changes of the tables other components write. *)
Inductive Op :=
| Reserve now i (worker : Uuid) (requested : option Uuid) (constraints : option Value) (reason : option string)
| Reassign now i (expected : option Uuid) (worker : Uuid) (requested : option Uuid) (reason : string)
| ReassignToCoordinator now i (expected : option Uuid) (reason : string)
| Transition now i (expected next : WorkspacePlacementState) (reason : option string)
| BeginCleanup (clock : DateTime) now i
| FinishCleanup now i
| CancelCleanup now i
| UpdateContainerRef now i (c : string)
| MarkWorktreeDeleted now i
| ClearWorktreeDeleted now i
| Touch now i
| Create now (data : CreateWorkspace) i
| QueueCreation now i
| ClaimCreation now i
| FinishCreation now i
| FailCreation now i (error : string)
| FailUnfinishedCreations now
| UpdateBranchName now i (b : string)
| RecordArchiveIntent i (key rule : string) (triggered : DateTime)
| AcknowledgeArchiveIntent i (key : string)
| TryArchive now i (allow_remote_intents : bool)
| SetArchived now i (a : bool)
| Update now i (archived pinned : option bool) (name : option string)
| SetRemoteProjectId now i (p : option Uuid)
| SetCurrentPipelineStage now i (s : option Z)
| SetSpeckitProvisioning now i (host : Uuid) (key : string)
| FindAllWithStatus now (archived : option bool) (limit : option Z)
| FindByIdWithStatus now i
| Delete i
| Others d.

(** The tables of other components, from another database. *)
Definition take_others d d' : Db Value :=
  {| workspaces := workspaces d; intents := intents d; overrides := overrides d; workers := workers d';
     sessions := sessions d'; processes := processes d'; jobs := jobs d'; pull_requests := pull_requests d';
     wakeups := wakeups d'; open_deliveries := open_deliveries d' |}.

Definition run d (o : Op) : Db Value :=
  match o with
  | Reserve now i w q c r => (reserve d now i w q c r).1
  | Reassign now i e w q r => (reassign d now i e w q r).1
  | ReassignToCoordinator now i e r => (reassign_to_coordinator d now i e r).1
  | Transition now i e n r => (transition d now i e n r).1
  | BeginCleanup clock now i => (begin_cleanup d clock now i).1
  | FinishCleanup now i => (finish_cleanup d now i).1
  | CancelCleanup now i => (cancel_cleanup d now i).1
  | UpdateContainerRef now i c => update_container_ref d now i c
  | MarkWorktreeDeleted now i => mark_worktree_deleted d now i
  | ClearWorktreeDeleted now i => clear_worktree_deleted d now i
  | Touch now i => touch d now i
  | Create now data i => (create d now data i).1
  | QueueCreation now i => (queue_creation d now i).1
  | ClaimCreation now i => (claim_creation d now i).1
  | FinishCreation now i => (finish_creation d now i).1
  | FailCreation now i e => (fail_creation d now i e).1
  | FailUnfinishedCreations now => (fail_unfinished_creations d now).1
  | UpdateBranchName now i b => update_branch_name d now i b
  | RecordArchiveIntent i k r t => (record_archive_intent julianday d i k r t).1
  | AcknowledgeArchiveIntent i k => acknowledge_archive_intent d i k
  | TryArchive now i a => (try_archive_with_remote_intents d now i a).1
  | SetArchived now i a => set_archived d now i a
  | Update now i a p n => (update d now i a p n).1
  | SetRemoteProjectId now i p => set_remote_project_id d now i p
  | SetCurrentPipelineStage now i s => set_current_pipeline_stage d now i s
  | SetSpeckitProvisioning now i h k => (set_speckit_provisioning d now i h k).1
  | FindAllWithStatus now a l => (find_all_with_status d now a l).1
  | FindByIdWithStatus now i => (find_by_id_with_status d now i).1
  | Delete i => (delete_workspace d i).1
  | Others d' => take_others d d'
  end.

(** ** Rows *)

Lemma update_row_cases d i g f :
  (exists r, workspaces d !! i = Some r /\ g r = true /\
     update_row d i g f = (set_workspaces (<[i := f r]> (workspaces d)) d, true)) \/
  update_row d i g f = (d, false).
Proof.
  unfold update_row. destruct (workspaces d !! i) as [r|]; [|by right].
  destruct (g r) eqn:Hg; [left; eauto|by right].
Qed.

Lemma update_row_true d i g f d' :
  update_row d i g f = (d', true) ->
  exists r, workspaces d !! i = Some r /\ g r = true /\ d' = set_workspaces (<[i := f r]> (workspaces d)) d.
Proof. destruct (update_row_cases d i g f) as [(r & ? & ? & ->)| ->]; intros [= <-]; eauto. Qed.

(** Two databases with the same workspaces, their rows related. *)
Definition rows_rel (R : Uuid -> Row Value -> Row Value -> Prop) d d' : Prop :=
  forall i, option_Forall2 (R i) (workspaces d !! i) (workspaces d' !! i).

Section Related.
Context (R : Uuid -> Row Value -> Row Value -> Prop).
Context {Hpre : forall i, PreOrder (R i)}.

#[local] Instance rows_rel_refl : Reflexive (rows_rel R).
Proof. intros d i. by destruct (workspaces d !! i); constructor. Qed.

#[local] Instance rows_rel_trans : Transitive (rows_rel R).
Proof.
  intros d1 d2 d3 H12 H23 i. specialize (H12 i). specialize (H23 i).
  destruct (workspaces d1 !! i), (workspaces d2 !! i), (workspaces d3 !! i);
    inversion H12; inversion H23; constructor; by etrans.
Qed.

Lemma rel_then d d1 d2 : rows_rel R d d1 -> workspaces d2 = workspaces d1 -> rows_rel R d d2.
Proof. intros Hr He i. rewrite He. apply Hr. Qed.

Lemma rel_same d d' : workspaces d' = workspaces d -> rows_rel R d d'.
Proof. intros He i. rewrite He. apply rows_rel_refl. Qed.

Lemma rel_update d i g f :
  (forall r, workspaces d !! i = Some r -> g r = true -> R i r (f r)) -> rows_rel R d (update_row d i g f).1.
Proof.
  intros Hf. destruct (update_row_cases d i g f) as [(r & Hr & Hg & ->)| ->]; [|by apply rel_same].
  intros j. cbn. destruct (decide (i = j)) as [->|Hne].
  - rewrite Hr, lookup_insert_eq. constructor. auto.
  - rewrite lookup_insert_ne by done. apply rows_rel_refl.
Qed.

Lemma rel_checked d a q x : rows_rel R d x.1 -> rows_rel R d (checked d a q x).1.
Proof. unfold checked. case_match; [by intros _; apply rel_same|done]. Qed.

(** What [update] does to the row, whatever it does to the intents. *)
Lemma rel_update_flags d now i a p n :
  (forall r a p n, R i r (on_place (fun p => p) (set_flags a p n now) r)) ->
  rows_rel R d (update d now i a p n).1.
Proof.
  intros Hf. unfold update. destruct (_ && _); [by apply rel_same|]. cbn [fst].
  assert (forall d', workspaces d' = workspaces d ->
    rows_rel R d (update_ws d' i anyway
      (fun w => set_flags (default (archived w) a) (default (pinned w) p)
         (match n with Some n => if String.eqb n "" then None else Some n | None => name w end) now w)).1) as Hu.
  { intros d' He. apply rows_rel_trans with d'; [by apply rel_same|]. apply rel_update. intros r _ _. apply Hf. }
  by destruct a as [[]|]; apply Hu.
Qed.

Lemma rel_name_all d now l :
  (forall i r a p n, R i r (on_place (fun p => p) (set_flags a p n now) r)) ->
  rows_rel R d (name_all d now l).1.
Proof.
  intros Hf. revert d. induction l as [|w l IH]; intros d; [by apply rel_same|]. cbn.
  assert (rows_rel R d (name_it d now w).1) as Hn.
  { unfold name_it. destruct (name (workspace w)) as [n|], (get_first_user_message d (id (workspace w))) as [q|]; try by apply rel_same.
    apply rel_update_flags. auto. }
  destruct (name_it d now w) as [d1 w1]. specialize (IH d1). destruct (name_all d1 now l) as [d2 l2].
  by eapply rows_rel_trans.
Qed.

End Related.

(** ** What every row keeps *)

Definition row_ok (i : Uuid) (r : Row Value) : Prop :=
  id (ws r) = i /\
  (placement_state (place r) = Local <-> worker_node_id (place r) = None) /\
  (creation_status (ws r) = CsFailed <-> is_Some (creation_error (ws r))) /\
  (is_Some (speckit_feature_key (ws r)) <-> is_Some (speckit_host_repo_id (ws r))).

Definition keeps_ok (i : Uuid) (r r' : Row Value) : Prop := row_ok i r -> row_ok i r'.

#[local] Instance keeps_ok_preorder i : PreOrder (keeps_ok i).
Proof. by split; [intros r Hr|intros r1 r2 r3 H1 H2 H; apply H2, H1]. Qed.

(** The operations that neither add nor drop a row. *)
Definition in_place (o : Op) : bool := match o with Create _ _ _ | Delete _ => false | _ => true end.

(** Opens the definition of an operation down to its writes of rows. *)
Ltac write_of_row :=
  cbn [run fst];
  first [ apply rel_checked; [exact _|]; apply rel_update; [exact _|]
        | apply rel_update; [exact _|]
        | apply rel_update_flags; [exact _|]
        | apply rel_name_all; [exact _|]
        | apply rel_same; [exact _|] ].

Ltac row_ok_tac :=
  unfold keeps_ok, row_ok, has_creation; intros; cbn in *; guards; destruct_and?; split_and!;
  try done; try first [intuition congruence | split; intros; naive_solver].

Lemma rel_transition R `{Hpre : forall i, PreOrder (R i)} d now i e n reason :
  (forall r, workspaces d !! i = Some r -> placement_state (place r) = e ->
     e = Reserved /\ n = Provisioning \/ e = Provisioning /\ (n = Ready \/ n = Failed) ->
     R i r (on_place (set_state n reason) (set_updated_at now) r)) ->
  rows_rel R d (transition d now i e n reason).1.
Proof.
  intros Hf. unfold transition. destruct e, n; try (by apply rel_same); apply rel_update; try exact _;
    intros r Hr Hg; guards; apply Hf; auto.
Qed.

Lemma rel_try_archive R `{Hpre : forall i, PreOrder (R i)} d now i allow :
  (forall r, R i r (on_place (fun p => p) (fun w => set_flags true (pinned w) (name w) now w) r)) ->
  rows_rel R d (try_archive_with_remote_intents d now i allow).1.
Proof.
  intros Hf. unfold try_archive_with_remote_intents, update_ws.
  match goal with |- context [update_row d i ?g ?f] => pose proof (rel_update R d i g f) as Hu end.
  destruct (update_row d i _ _) as [d1 []]; cbn [fst] in *; [|by apply Hu].
  apply rel_then with d1; [by apply Hu|]. destruct (latest _) as [[]|]; done.
Qed.

Lemma in_place_keeps_ok d o : in_place o = true -> rows_rel keeps_ok d (run d o).
Proof.
  destruct o; try done; intros _; try (write_of_row; solve [row_ok_tac|done]).
  - apply rel_transition; [exact _|]. intros r _ He [[-> ->]|[-> [-> | ->]]]; row_ok_tac.
  - intros j. cbn. rewrite lookup_fmap. destruct (workspaces d !! j) as [r|]; constructor. case_match; [|done]. row_ok_tac.
  - apply rel_same; [exact _|]. cbn. unfold record_archive_intent. by repeat case_match.
  - apply rel_try_archive; [exact _|]. row_ok_tac.
  - cbn. unfold find_by_id_with_status. destruct (find_by_id d i) as [w|]; [|by (apply rel_same; [exact _|])].
    pose proof (rel_name_all keeps_ok d now [with_status d w]) as Hn. cbn in Hn. destruct (name_it d now _).
    apply Hn. row_ok_tac.
Qed.

(** ** Where an operation writes intents *)

Definition same_archive d d' : Prop := intents d' = intents d /\ overrides d' = overrides d.

Lemma update_row_archive d i g f : same_archive d (update_row d i g f).1.
Proof. by destruct (update_row_cases d i g f) as [(r & _ & _ & ->)| ->]. Qed.

Lemma checked_archive d a q x : same_archive d x.1 -> same_archive d (checked d a q x).1.
Proof. unfold checked. by case_match. Qed.

Lemma update_archive d now i a p n :
  a <> Some false -> a <> Some true -> same_archive d (update d now i a p n).1.
Proof. intros Hf Ht. unfold update. destruct a as [[]|]; try done. apply update_row_archive. Qed.

Lemma name_all_archive d now l : same_archive d (name_all d now l).1.
Proof.
  revert d. induction l as [|w l IH]; intros d; [done|]. cbn.
  assert (same_archive d (name_it d now w).1) as [Hi Ho].
  { unfold name_it. destruct (name (workspace w)), (get_first_user_message d (id (workspace w))); try done. by apply update_archive. }
  destruct (name_it d now w) as [d1 w1]. specialize (IH d1) as [Hi' Ho'].
  destruct (name_all d1 now l) as [d2 l2]. by split; etrans.
Qed.

Definition writes_archive (o : Op) : bool :=
  match o with
  | RecordArchiveIntent _ _ _ _ | AcknowledgeArchiveIntent _ _ | TryArchive _ _ _ | Delete _ => true
  | Update _ _ (Some _) _ _ => true
  | _ => false
  end.

Lemma run_archive d o : writes_archive o = false -> same_archive d (run d o).
Proof.
  destruct o; try done; intros Hw;
    try (cbn [run]; solve [apply checked_archive, update_row_archive|apply update_row_archive]).
  - cbn. unfold transition. repeat case_match; try done; apply update_row_archive.
  - cbn. unfold create. by case_match.
  - cbn in *. case_match; [done|]. by apply update_archive.
  - apply name_all_archive.
  - cbn. unfold find_by_id_with_status. destruct (find_by_id d i) as [w|]; [|done].
    pose proof (name_all_archive d now [with_status d w]) as Hn. cbn in Hn. by destruct (name_it d now _).
Qed.

(** The intents of [d'] are those of [d], with the same triggers, possibly acknowledged. *)
Definition from_intents (P : Uuid * string -> Prop) d d' : Prop :=
  forall k n', P k -> intents d' !! k = Some n' ->
  exists n, intents d !! k = Some n /\ triggered_at n' = triggered_at n /\ rule n' = rule n /\
            (acknowledged n = true -> acknowledged n' = true).

Lemma try_archive_tables d now i allow :
  overrides (try_archive_with_remote_intents d now i allow).1 = overrides d /\
  from_intents (fun _ => True) d (try_archive_with_remote_intents d now i allow).1.
Proof.
  unfold try_archive_with_remote_intents, update_ws.
  match goal with |- context [update_row d i ?g ?f] => destruct (update_row_archive d i g f) as [Hi Ho] end.
  destruct (update_row d i _ _) as [d1 []]; cbn in *; [|split; [done|]; intros k n _; rewrite Hi; eauto].
  destruct (latest _) as [[k m]|]; (split; [done|]); intros k' n' _; cbn [fst intents set_intents]; rewrite Hi; [|eauto].
  rewrite lookup_alter_Some. intros [(<- & n & Hn & ->)|[_ Hn]]; eauto.
Qed.

Lemma update_unarchives d now i p n :
  is_Some (workspaces d !! i) ->
  overrides (update d now i (Some false) p n).1 = <[i := now]> (overrides d) /\
  forall k, intents (update d now i (Some false) p n).1 !! k =
            (fun m => if bool_decide (k.1 = i) then acknowledge m else m) <$> intents d !! k.
Proof.
  intros [r Hr]. unfold update, update_ws, update_row. rewrite (bool_decide_false (_ = None)) by (by rewrite Hr).
  rewrite (bool_decide_true (Some false = _)), (bool_decide_false (Some false = _)) by done.
  cbn -[map_imap insert]. rewrite Hr. cbn -[map_imap insert].
  split; [done|]. intros k. rewrite map_lookup_imap.
  by destruct (intents d !! k).
Qed.

Lemma update_archives d now i p n :
  overrides (update d now i (Some true) p n).1 = overrides d /\
  from_intents (fun _ => True) d (update d now i (Some true) p n).1.
Proof.
  unfold update, update_ws.
  rewrite (bool_decide_false (Some true = Some false)), (bool_decide_true (Some true = Some true)) by done.
  cbn -[map_imap update_row].
  match goal with |- context [update_row d i ?g ?f] => destruct (update_row_archive d i g f) as [Hi Ho] end.
  split; [done|]. intros k m _. cbn [fst intents set_intents]. rewrite map_lookup_imap, Hi. destruct (intents d !! k) as [m0|]; [|done]. cbn.
  intros [= <-]. exists m0. destruct (bool_decide _ && _ && _ && _); eauto.
Qed.

(** ** An explicit unarchiving *)

(** [i] was unarchived at [t] or later, and what was triggered before that is settled. *)
Definition guarded d i t : Prop :=
  exists o, overrides d !! i = Some o /\ julianday t <= julianday o /\
  forall k n, intents d !! (i, k) = Some n -> julianday (triggered_at n) <= julianday o -> acknowledged n = true.

(** The operation neither deletes the workspace nor unarchives it with an earlier clock. *)
Definition leaves_guard i t (o : Op) : Prop :=
  match o with
  | Delete j => j <> i
  | Update now j (Some false) _ _ => j = i -> julianday t <= julianday now
  | _ => True
  end.

Lemma guarded_from P d d' i t :
  (forall k, P (i, k)) -> overrides d' !! i = overrides d !! i -> from_intents P d d' -> guarded d i t -> guarded d' i t.
Proof.
  intros HP Ho Hi (o & Hd & Ht & Hn). exists o. split_and!; [by rewrite Ho|done|].
  intros k n' Hn' Hle. destruct (Hi _ _ (HP k) Hn') as (n & Hk & Htr & _ & Ha). apply Ha, (Hn k); [done|]. by rewrite <-Htr.
Qed.

Lemma run_guarded d o i t : leaves_guard i t o -> guarded d i t -> guarded (run d o) i t.
Proof.
  intros Hl Hg. destruct (writes_archive o) eqn:Hw.
  2:{ destruct (run_archive d o Hw) as [Hi Ho]. unfold guarded. by rewrite Hi, Ho. }
  destruct o as [| | | | | | | | | | | | | | | | | |j key rule t'|j key|now j allow| |now j a p n| | | | | |j|];
    try done; cbn [run].
  - destruct Hg as (o & Ho & Ht & Hn). unfold record_archive_intent.
    destruct (intents d !! (j, key)) eqn:Hk; [by exists o|]. destruct (workspaces d !! j); [|by exists o].
    exists o. split_and!; [done|done|]. intros k n. cbn [fst intents set_intents].
    rewrite lookup_insert_Some. intros [[[= -> ->] <-]|[_ Hk']]; [|by eauto].
    cbn. rewrite Ho. apply Z.leb_le.
  - apply (guarded_from (fun _ => True) d); [done|done| |done]. intros k m _.
    cbn [intents set_intents acknowledge_archive_intent]. unfold acknowledge_archive_intent. cbn [intents set_intents].
    rewrite lookup_alter_Some. intros [(<- & n & Hn & ->)|[_ Hn]]; eauto.
  - destruct (try_archive_tables d now j allow) as [Ho Hi].
    apply (guarded_from (fun _ => True) d); [done|by rewrite Ho|done|done].
  - destruct a as [[]|]; [| |done].
    { destruct (update_archives d now j p n) as [Ho Hi].
      apply (guarded_from (fun _ => True) d); [done|by rewrite Ho|done|done]. }
    destruct (workspaces d !! j) as [r|] eqn:Hr.
    2:{ unfold update. by rewrite Hr. }
    destruct (update_unarchives d now j p n (mk_is_Some _ _ Hr)) as [Ho Hi]. destruct (decide (j = i)) as [->|Hne].
    + exists now. rewrite Ho, lookup_insert_eq. split_and!; [done|by apply Hl|]. intros k m. rewrite Hi.
      rewrite bool_decide_true by done. destruct (intents d !! (i, k)); [|done]. by intros [= <-].
    + apply (guarded_from (fun k => k.1 = i) d); [done|by rewrite Ho, lookup_insert_ne| |done].
      intros k m Hk. rewrite Hi, bool_decide_false by congruence. destruct (intents d !! k); [|done].
      cbn. intros [= <-]. eauto.
  - unfold delete_workspace. destruct (workspaces d !! j); [|done]. cbn in Hl.
    apply (guarded_from (fun k => k.1 = i) d); [done|by cbn [fst overrides]; rewrite lookup_delete_ne| |done].
    intros k m Hk. cbn [fst intents]. rewrite map_lookup_filter_Some. intros [Hm _]. eauto.
Qed.

Lemma run_all_guarded d ops i t : Forall (leaves_guard i t) ops -> guarded d i t -> guarded (foldl run d ops) i t.
Proof. intros Hl. revert d. induction Hl as [|o ops Ho _ IH]; intros d Hg; [done|]. by apply IH, run_guarded. Qed.

(** ** Admission of an automatic archive *)

Lemma elem_intents_of d i k n : (k, n) ∈ intents_of d i <-> intents d !! (i, k) = Some n.
Proof.
  unfold intents_of. rewrite list_elem_of_fmap. split.
  - intros ([[j k'] n'] & [= -> ->] & Hin). apply list_elem_of_In, filter_In in Hin as [Hin Hj].
    apply bool_decide_eq_true in Hj. cbn in Hj. subst j. by apply elem_of_map_to_list, list_elem_of_In.
  - intros Hn. exists ((i, k), n). split; [done|]. apply list_elem_of_In, filter_In.
    by rewrite <-list_elem_of_In, elem_of_map_to_list, bool_decide_true.
Qed.

Lemma latest_spec l :
  match latest l with
  | Some a => a ∈ l /\ forall b, b ∈ l -> triggered_at b.2 <= triggered_at a.2
  | None => l = []
  end.
Proof.
  induction l as [|a l IH]; [done|]. cbn. fold (latest l). destruct (latest l) as [b|].
  - destruct IH as [Hb Hl]. unfold precedes. pose proof (Hl b Hb).
    destruct (_ || _) eqn:Hp; (split; [set_solver|]); intros c [->|Hc]%elem_of_cons;
      try (specialize (Hl c Hc)); lia.
  - subst. split; [set_solver|]. intros b ->%list_elem_of_singleton. lia.
Qed.

Lemma elem_executions d i p :
  p ∈ executions d i <-> exists k, processes d !! k = Some p /\ ss_workspace <$> sessions d !! pr_session p = Some i.
Proof.
  unfold executions. rewrite list_elem_of_In, filter_In, <-list_elem_of_In, list_elem_of_fmap.
  unfold of_workspace. rewrite bool_decide_eq_true. split.
  - intros [([k p'] & -> & Hin) Hs]. apply elem_of_map_to_list in Hin. eauto.
  - intros (k & Hk & Hs). split; [|done]. exists (k, p). by rewrite elem_of_map_to_list.
Qed.

Lemma existsb_false {A} (f : A -> bool) l : existsb f l = false <-> forall a, a ∈ l -> f a = false.
Proof.
  rewrite <-not_true_iff_false, existsb_exists. split.
  - intros Hn a Ha. apply not_true_iff_false. intros Hf. apply Hn. exists a. by rewrite <-list_elem_of_In.
  - intros Hf (a & Ha & Ht). rewrite Hf in Ht; [done|]. by apply list_elem_of_In.
Qed.

(** Nothing runs in the workspace, and no wake-up is on its way to it. *)
Definition quiet d i : Prop :=
  (forall k p, processes d !! k = Some p -> ss_workspace <$> sessions d !! pr_session p = Some i -> is_working p = false) /\
  (forall w, wakeups d !! w = Some i -> w ∉ open_deliveries d).

Definition archivable d i allow (r : Row Value) : Prop :=
  workspaces d !! i = Some r /\ archived (ws r) = false /\ pinned (ws r) = false /\
  (exists key n, intents d !! (i, key) = Some n /\ eligible d i allow n = true) /\ quiet d i.

Lemma quiet_iff d i :
  negb (existsb is_working (executions d i)) && negb (has_open_wakeup d i) = true <-> quiet d i.
Proof.
  unfold quiet, has_open_wakeup. rewrite andb_true_iff, !negb_true_iff, !existsb_false.
  assert (forall A B C D : Prop, (A <-> C) -> (B <-> D) -> A /\ B <-> C /\ D) as Hand by tauto.
  apply Hand; split; clear Hand.
  - intros H k p Hk Hs. apply H, elem_executions. eauto.
  - intros H p (k & Hk & Hs)%elem_executions. eauto.
  - intros H w Hw Ho. specialize (H (w, i)). rewrite elem_of_map_to_list in H. specialize (H Hw). cbn in H.
    by rewrite !bool_decide_true in H.
  - intros H [w j]. rewrite elem_of_map_to_list. intros Hw. cbn. destruct (decide (j = i)) as [->|Hne].
    + rewrite (bool_decide_false (w ∈ _)) by auto. by rewrite andb_false_r.
    + by rewrite bool_decide_false.
Qed.

Lemma candidates_exist d i allow :
  List.filter (fun kn => eligible d i allow kn.2) (intents_of d i) <> [] <->
  exists key n, intents d !! (i, key) = Some n /\ eligible d i allow n = true.
Proof.
  split.
  - destruct (List.filter _ _) as [|[k n] l] eqn:Hl; [done|]. intros _. exists k, n.
    assert ((k, n) ∈ List.filter (fun kn => eligible d i allow kn.2) (intents_of d i)) as Hin by (rewrite Hl; set_solver).
    apply list_elem_of_In, filter_In in Hin as [Hin He]. by rewrite <-elem_intents_of, list_elem_of_In.
  - intros (k & n & Hk & He) Hl. apply elem_intents_of, list_elem_of_In in Hk.
    eapply in_nil. rewrite <-Hl. apply filter_In. eauto.
Qed.

Lemma alter_as_insert (f : ArchiveIntent -> ArchiveIntent) (m : gmap (Uuid * string) ArchiveIntent) k n :
  m !! k = Some n -> alter f k m = <[k := f n]> m.
Proof.
  intros Hk. apply map_eq. intros x. destruct (decide (k = x)) as [<-|Hne].
  - by rewrite lookup_insert_eq, lookup_alter_eq, Hk.
  - by rewrite lookup_insert_ne, lookup_alter_ne.
Qed.

(** The row is archived, and the archive attributed to [key]. *)
Definition archived_by d now i r key (n : ArchiveIntent) : Db Value :=
  set_intents (<[(i, key) := attribute now n]> (intents d))
    (set_workspaces
       (<[i := on_place (fun p => p) (fun w => set_flags true (pinned w) (name w) now w) r]> (workspaces d)) d).

Lemma try_archive_cases d now i allow :
  match try_archive_with_remote_intents d now i allow with
  | (d', true) =>
      exists r key n, archivable d i allow r /\ intents d !! (i, key) = Some n /\ eligible d i allow n = true /\
        (forall key' n', intents d !! (i, key') = Some n' -> eligible d i allow n' = true ->
           triggered_at n' <= triggered_at n) /\
        d' = archived_by d now i r key n
  | (d', false) => d' = d /\ forall r, ~ archivable d i allow r
  end.
Proof.
  unfold try_archive_with_remote_intents, update_ws, archivable.
  set (l := List.filter _ _).
  assert (l <> [] <-> _) as Hl by apply candidates_exist. pose proof (quiet_iff d i) as Hq.
  destruct (update_row d i _ _) as [d1 b] eqn:Hu. destruct b.
  - apply update_row_true in Hu as (r & Hr & Hg & ->). guards.
    pose proof (latest_spec l) as Hlast. destruct (latest l) as [[k n]|]; [|by rewrite Hlast in *].
    destruct Hlast as [Hin Hmax]. unfold l in Hin. apply list_elem_of_In, filter_In in Hin as [Hin He].
    apply list_elem_of_In, elem_intents_of in Hin. cbn in He.
    exists r, k, n. split_and!; try done; [by eauto| | |].
    + apply Hq. by rewrite andb_true_iff, !negb_true_iff.
    + intros k' n' Hk' He'. apply (Hmax (k', n')), list_elem_of_In, filter_In.
      by rewrite <-list_elem_of_In, elem_intents_of.
    + unfold archived_by. f_equal. by apply alter_as_insert.
  - unfold update_row in Hu. destruct (workspaces d !! i) as [r|] eqn:Hr.
    2:{ split; [by injection Hu|]. naive_solver. }
    match type of Hu with (if ?g then _ else _) = _ => destruct g eqn:Hg end; [done|]. split; [by injection Hu|].
    intros r' (Hr' & Ha & Hp & Hi & Hqq). simplify_eq. apply not_true_iff_false in Hg. apply Hg.
    apply Hq in Hqq. apply andb_true_iff in Hqq as [H1 H2]. apply Hl in Hi.
    by rewrite Ha, Hp, bool_decide_false, H1, H2.
Qed.

(** The conditions of the admission, said on the tables. *)

(** The event of such a rule lives on the remote server. *)
Definition from_remote (r : string) : Prop :=
  (exists s, r = "issue_" +:+ s) \/ (exists s, r = "remote_" +:+ s) \/ r = "legacy_remote_archive".

Definition may_take_credit d i (allow : bool) (n : ArchiveIntent) : Prop :=
  acknowledged n = false /\ (from_remote (rule n) -> allow = true) /\
  (rule n = "pr_merged" -> (i, true) ∉ pull_requests d).

(** A turn of an agent, or the poller an agent left behind, is running. *)
Definition agent_works d i : Prop :=
  exists e p s, processes d !! e = Some p /\ sessions d !! pr_session p = Some s /\ ss_workspace s = i /\
    pr_status p = ProcessRow.Running /\
    (pr_run_reason p = CodingAgent \/
     pr_run_reason p = BackgroundHelper /\ exists next, pr_action p = Some (Action (ScriptRequest true) next)).

Definition wakeup_waits d i : Prop := exists w, wakeups d !! w = Some i /\ w ∈ open_deliveries d.

Definition admits d i (allow : bool) (r : Row Value) : Prop :=
  workspaces d !! i = Some r /\ archived (ws r) = false /\ pinned (ws r) = false /\
  (exists key n, intents d !! (i, key) = Some n /\ may_take_credit d i allow n) /\
  ~ agent_works d i /\ ~ wakeup_waits d i.

(** The columns of the row the archive leaves alone. *)
Definition same_but_archived (w w' : Workspace) : Prop :=
  id w' = id w /\ task_id w' = task_id w /\ container_ref w' = container_ref w /\ branch w' = branch w /\
  setup_completed_at w' = setup_completed_at w /\ created_at w' = created_at w /\ pinned w' = pinned w /\
  name w' = name w /\ worktree_deleted w' = worktree_deleted w /\
  current_pipeline_stage w' = current_pipeline_stage w /\ speckit_feature_key w' = speckit_feature_key w /\
  speckit_host_repo_id w' = speckit_host_repo_id w /\ creation_status w' = creation_status w /\
  creation_error w' = creation_error w.

Lemma is_remote_rule_spec r : is_remote_rule r = true <-> from_remote r.
Proof.
  assert (forall p, starts_with p r = true <-> exists s, r = p +:+ s) as Hs.
  { intros p. unfold starts_with. split.
    - destruct (strip_prefix p r) as [s|] eqn:Hp; [|done]. intros _. exists s. by apply strip_prefix_Some.
    - intros [s Hp]. by rewrite (proj2 (strip_prefix_Some _ _ _) Hp). }
  unfold is_remote_rule, from_remote. rewrite !orb_true_iff, !Hs, String.eqb_eq. tauto.
Qed.

Lemma eligible_spec d i allow n : eligible d i allow n = true <-> may_take_credit d i allow n.
Proof.
  assert (has_open_pull_request d i = true <-> (i, true) ∈ pull_requests d) as Hopen.
  { unfold has_open_pull_request. rewrite existsb_exists. split.
    - intros ([j b] & Hin & Hb). cbn in Hb. guards. subst. by apply list_elem_of_In.
    - intros Hin. exists (i, true). rewrite <-list_elem_of_In. split; [done|]. cbn. by rewrite bool_decide_true. }
  unfold eligible, may_take_credit. rewrite <-is_remote_rule_spec, <-Hopen, <-(String.eqb_eq (rule n)).
  destruct (acknowledged n), allow, (is_remote_rule (rule n)), (String.eqb _ _), (has_open_pull_request d i);
    cbn; naive_solver.
Qed.

Lemma quiet_spec d i : quiet d i <-> ~ agent_works d i /\ ~ wakeup_waits d i.
Proof.
  unfold quiet, agent_works, wakeup_waits. split.
  - intros [Hp Hw]. split; [|naive_solver]. intros (e & p & s & He & Hs & Hi & Hr & Hwork).
    assert (is_working p = false) as Hf by (apply (Hp e p He); by rewrite Hs; cbn; rewrite Hi).
    unfold is_working in Hf. rewrite (bool_decide_true _ Hr) in Hf. destruct Hwork as [Hc|[Hb [next Ha]]].
    + by rewrite (bool_decide_true _ Hc) in Hf.
    + by rewrite (bool_decide_true _ Hb), Ha, orb_true_r in Hf.
  - intros [Hp Hw]. split; [|naive_solver]. intros e p He Hs. apply not_true_iff_false. intros Ht. apply Hp.
    destruct (sessions d !! pr_session p) as [s|] eqn:Hse; [|done]. injection Hs as Hi. unfold is_working in Ht.
    exists e, p, s. guards. split_and!; try done. apply orb_true_iff in H0 as [Hc|Hb]; guards; [by left|]. right.
    destruct (pr_action p) as [[[] next]|]; try done. destruct poller; [|done]. eauto.
Qed.

Lemma admits_spec d i allow r : archivable d i allow r <-> admits d i allow r.
Proof.
  unfold archivable, admits. rewrite quiet_spec.
  assert ((exists key n, intents d !! (i, key) = Some n /\ eligible d i allow n = true) <->
          exists key n, intents d !! (i, key) = Some n /\ may_take_credit d i allow n) as ->; [|done].
  split; intros (k & n & Hk & He); exists k, n; by rewrite eligible_spec in *.
Qed.

(** C20: The admission of an automatic archive is exact.  It succeeds if and only if the
    workspace is there, neither archived nor pinned, has an intent that may take the credit
    (not acknowledged; not of a rule of the remote server unless those are allowed; for the
    rule of a merged pull request, no pull request of the workspace is open), neither a turn
    of a coding agent nor a background helper that is a poller is running in it (a running
    setup script, dev server or other script does not hold it back), and no wake-up of it is
    in an open delivery.  Then [archived] and [updated_at] of the row and [archived_at] of
    one intent are written, of an intent that may take the credit and none of those is later;
    nothing else changes.  Otherwise nothing changes. *)
Theorem archive_admission_is_exact d now i allow :
  ((try_archive_with_remote_intents d now i allow).2 = true <-> exists r, admits d i allow r) /\
  match try_archive_with_remote_intents d now i allow with
  | (d', true) =>
      exists r r' key n n', workspaces d !! i = Some r /\ intents d !! (i, key) = Some n /\
        may_take_credit d i allow n /\
        (forall key2 n2, intents d !! (i, key2) = Some n2 -> may_take_credit d i allow n2 ->
           triggered_at n2 <= triggered_at n) /\
        d' = set_intents (<[(i, key) := n']> (intents d)) (set_workspaces (<[i := r']> (workspaces d)) d) /\
        archived (ws r') = true /\ updated_at (ws r') = now /\ same_but_archived (ws r) (ws r') /\
        place r' = place r /\ remote_project_id r' = remote_project_id r /\
        archived_at n' = Some now /\ rule n' = rule n /\ triggered_at n' = triggered_at n /\
        acknowledged n' = acknowledged n
  | (d', false) => d' = d
  end.
Proof.
  pose proof (try_archive_cases d now i allow) as Hc.
  destruct (try_archive_with_remote_intents d now i allow) as [d' []].
  - destruct Hc as (r & k & n & Ha & Hn & He & Hm & ->). split.
    { split; [|done]. intros _. exists r. by apply admits_spec. }
    eexists r, _, k, n, _. unfold archived_by. split_and!; try reflexivity; try done.
    + by destruct Ha.
    + by apply eligible_spec.
    + intros k2 n2 H2 He2. apply (Hm k2); [done|]. by apply eligible_spec.
  - destruct Hc as [-> Hn]. split; [|done]. split; [done|]. intros [r Hr%admits_spec]. by apply Hn in Hr.
Qed.

(** C16: An explicit unarchiving is respected: whatever operations follow, as long as the
    workspace is not deleted and the clock of a later unarchiving is not behind, an
    automatic archive of it is attributed to an event triggered after the unarchiving,
    never to one that came before, even if that was recorded later. *)
Theorem unarchive_is_respected d i t p n d1 ops now allow d2 :
  update d t i (Some false) p n = (d1, Ok tt) ->
  Forall (leaves_guard i t) ops ->
  try_archive_with_remote_intents (foldl run d1 ops) now i allow = (d2, true) ->
  exists key m, intents d2 !! (i, key) = Some m /\ archived_at m = Some now /\
    julianday t < julianday (triggered_at m) /\
    forall key' m', key' <> key -> intents d2 !! (i, key') = Some m' -> intents (foldl run d1 ops) !! (i, key') = Some m'.
Proof.
  intros Hu Hops Ht.
  assert (guarded d1 i t) as Hg.
  { unfold update in Hu. destruct (workspaces d !! i) as [r|] eqn:Hr.
    2:{ rewrite !bool_decide_true in Hu by done. done. }
    assert (d1 = (update d t i (Some false) p n).1) as -> by (unfold update; rewrite Hr; by rewrite Hu).
    destruct (update_unarchives d t i p n (mk_is_Some _ _ Hr)) as [Ho Hi]. exists t.
    rewrite Ho, lookup_insert_eq. split_and!; [done|lia|]. intros k m. rewrite Hi, bool_decide_true by done.
    destruct (intents d !! (i, k)); [|done]. by intros [= <-]. }
  apply (run_all_guarded _ _ _ _ Hops) in Hg as (o & _ & Hle & Hack).
  pose proof (try_archive_cases (foldl run d1 ops) now i allow) as Hc. rewrite Ht in Hc.
  destruct Hc as (r & k & m & _ & Hm & He & _ & ->). exists k, (attribute now m). cbn [archived_by intents set_intents].
  unfold archived_by. cbn [intents set_intents]. rewrite lookup_insert_eq. split_and!; [done|done| |].
  - unfold eligible in He. guards. cbn. destruct (Z.le_gt_cases (julianday (triggered_at m)) (julianday o)) as [Hj|]; [|lia].
    apply Hack in Hm; [congruence|done].
  - intros k' m' Hne. rewrite lookup_insert_ne; [done|congruence].
Qed.

(** ** Well-formed databases *)

(** Intents and overrides belong to workspaces, and an intent that is not acknowledged is
    later than the last unarchiving. *)
Definition archive_ok d : Prop :=
  (forall k n, intents d !! k = Some n -> is_Some (workspaces d !! k.1)) /\
  (forall i t, overrides d !! i = Some t -> is_Some (workspaces d !! i)) /\
  (forall i t k n, overrides d !! i = Some t -> intents d !! (i, k) = Some n -> acknowledged n = false ->
     julianday t < julianday (triggered_at n)).

Definition rows_ok d : Prop := forall i r, workspaces d !! i = Some r -> row_ok i r.
Definition well_formed d : Prop := rows_ok d /\ archive_ok d.

Lemma rel_dom R d d' i : rows_rel R d d' -> is_Some (workspaces d !! i) <-> is_Some (workspaces d' !! i).
Proof. intros Hr. specialize (Hr i). inversion Hr; split; intros [? ?]; (done || eauto). Qed.

Lemma in_place_archive_ok d d' :
  rows_rel keeps_ok d d' -> overrides d' = overrides d -> from_intents (fun _ => True) d d' ->
  archive_ok d -> archive_ok d'.
Proof.
  intros Hr Ho Hi (H1 & H2 & H3). unfold archive_ok. rewrite Ho. split_and!.
  - intros k n Hn. destruct (Hi _ _ I Hn) as (m & Hm & _). apply (rel_dom _ _ _ _ Hr). eauto.
  - intros i t Ht. apply (rel_dom _ _ _ _ Hr). eauto.
  - intros i t k n Ht Hn Ha. destruct (Hi _ _ I Hn) as (m & Hm & -> & _ & Hk). apply (H3 i t k); try done.
    destruct (acknowledged m); [by rewrite Hk in Ha|done].
Qed.

Lemma same_from_intents d d' : intents d' = intents d -> from_intents (fun _ => True) d d'.
Proof. intros He k n _. rewrite He. eauto. Qed.

Lemma run_archive_ok d o : archive_ok d -> archive_ok (run d o).
Proof.
  intros Hok. destruct (in_place o) eqn:Hin.
  - pose proof (in_place_keeps_ok d o Hin) as Hr. destruct (writes_archive o) eqn:Hw.
    2:{ destruct (run_archive d o Hw) as [Hi Ho]. eapply in_place_archive_ok; eauto using same_from_intents. }
    destruct o as [| | | | | | | | | | | | | | | | | |j key rule t'|j key|now j allow| |now j a p n| | | | | | |];
      try done; cbn [run] in *.
    + unfold record_archive_intent in *. destruct (intents d !! (j, key)) eqn:Hk; [done|].
      destruct (workspaces d !! j) as [r|] eqn:Hj; [|done]. destruct Hok as (H1 & H2 & H3). split_and!; [|done|].
      * intros k n. cbn [fst intents set_intents]. rewrite lookup_insert_Some. intros [[<- _]|[_ Hn]]; [|by eauto].
        cbn. by rewrite Hj.
      * intros i t k n Ht. cbn [fst intents overrides set_intents] in *. rewrite lookup_insert_Some.
        intros [[[= -> ->] <-]|[_ Hn]] Ha; [|by eauto]. cbn in *. rewrite Ht in Ha. by apply Z.leb_gt in Ha.
    + eapply in_place_archive_ok; [done|done| |done]. intros k m _. unfold acknowledge_archive_intent.
      cbn [intents set_intents]. rewrite lookup_alter_Some. intros [(<- & n & Hn & ->)|[_ Hn]]; eauto.
    + destruct (try_archive_tables d now j allow) as [Ho Hi]. by eapply in_place_archive_ok.
    + destruct a as [[]|]; [| |done].
      { destruct (update_archives d now j p n) as [Ho Hi]. by eapply in_place_archive_ok. }
      destruct (workspaces d !! j) as [r|] eqn:Hj.
      2:{ unfold update. by rewrite Hj. }
      destruct (update_unarchives d now j p n (mk_is_Some _ _ Hj)) as [Ho Hi]. destruct Hok as (H1 & H2 & H3).
      unfold archive_ok. rewrite Ho. split_and!.
      * intros k m. rewrite Hi, fmap_Some. intros (m0 & Hm & _). apply (rel_dom _ _ _ _ Hr). eauto.
      * intros i t. rewrite lookup_insert_Some. intros [[<- _]|[_ Ht]]; apply (rel_dom _ _ _ _ Hr); eauto.
      * intros i t k m. rewrite lookup_insert_Some, Hi, fmap_Some. cbn.
        intros [[<- <-]|[Hne Ht]] (m0 & Hm & ->); [by rewrite bool_decide_true|].
        rewrite bool_decide_false by done. eauto.
  - destruct o as [| | | | | | | | | | |now data i| | | | | | | | | | | | | | | | |i|]; try done; cbn [run].
    + unfold create. destruct (workspaces d !! i) eqn:Hi; [done|]. destruct Hok as (H1 & H2 & H3). split_and!; [| |done].
      all: cbn [fst intents overrides workspaces set_workspaces]; intros; apply lookup_insert_is_Some'; right; eauto.
    + unfold delete_workspace. destruct (workspaces d !! i); [|done]. destruct Hok as (H1 & H2 & H3). split_and!.
      all: cbn [fst intents overrides workspaces].
      * intros k n. rewrite map_lookup_filter_Some. intros [Hn Hk]. rewrite lookup_delete_ne by done. eauto.
      * intros j t. rewrite lookup_delete_Some. intros [Hne Ht]. rewrite lookup_delete_ne by done. eauto.
      * intros j t k n. rewrite lookup_delete_Some, map_lookup_filter_Some. intros [_ Ht] [Hn _]. eauto.
Qed.

Lemma run_rows_ok d o : rows_ok d -> rows_ok (run d o).
Proof.
  intros Hok. destruct (in_place o) eqn:Hin.
  - pose proof (in_place_keeps_ok d o Hin) as Hr. intros i r Hi. specialize (Hr i). rewrite Hi in Hr.
    inversion Hr as [r0 ? Hk He|]; subst. by apply Hk, Hok.
  - destruct o as [| | | | | | | | | | |now data i| | | | | | | | | | | | | | | | |i|]; try done; cbn [run].
    + unfold create. destruct (workspaces d !! i) eqn:Hi; [done|]. intros j r. cbn [fst workspaces set_workspaces].
      rewrite lookup_insert_Some. intros [[<- <-]|[_ Hr]]; [|by apply Hok]. unfold row_ok. cbn.
      split_and!; try done; split; try done; by intros [].
    + unfold delete_workspace. destruct (workspaces d !! i) as [w0|]; [|done]. intros j r. cbn [fst workspaces].
      rewrite lookup_delete_Some. intros [_ Hr]. by apply Hok.
Qed.

Lemma run_well_formed d o : well_formed d -> well_formed (run d o).
Proof. intros [Hr Ha]. split; [by apply run_rows_ok|by apply run_archive_ok]. Qed.

(** C22: Every sequence of operations keeps the table well-formed: a workspace is local
    exactly when it has no worker, its creation has an error exactly when it failed, the
    feature and the repository of SpecKit come together, intents and overrides belong to
    workspaces, and an open intent is later than the last unarchiving. *)
Theorem workspaces_stay_well_formed d ops : well_formed d -> well_formed (foldl run d ops).
Proof. revert d. induction ops as [|o ops IH]; intros d Hd; [done|]. by apply IH, run_well_formed. Qed.

(** ** Placement *)

Definition in_state (s : WorkspacePlacementState) (p p' : WorkspacePlacement Value) : Prop :=
  placement_state p' = s /\ worker_node_id p' = worker_node_id p.

(** The worker may be told to remove the worktree: it is there, and has no unsettled job of
    the workspace. *)
Definition removable d now i (p : WorkspacePlacement Value) : Prop :=
  (exists k w t, worker_node_id p = Some k /\ workers d !! k = Some w /\
     WorkerNode.status w = WorkerNode.Online /\ WorkerNode.mount_status w = WorkerNode.MsHealthy /\
     WorkerNode.lease_expires_at w = Some t /\ now < t) /\
  (forall k e s, jobs d !! k = Some s -> processes d !! k = Some e ->
     ss_workspace <$> sessions d !! pr_session e = Some i -> is_settled s = true).

(** The moves of a placement. *)
Inductive Move d i (r : Row Value) (p' : WorkspacePlacement Value) : Op -> Prop :=
| moves_reserve now w q c reason :
    placement_state (place r) = Local -> worker_node_id (place r) = None -> is_Some (workers d !! w) ->
    placement_state p' = Reserved -> worker_node_id p' = Some w -> requested_worker_node_id p' = q ->
    Move d i r p' (Reserve now i w q c reason)
| moves_reassign now w q reason :
    placement_state (place r) <> Local -> is_Some (workers d !! w) ->
    placement_state p' = Ready -> worker_node_id p' = Some w -> requested_worker_node_id p' = q ->
    Move d i r p' (Reassign now i (worker_node_id (place r)) w q reason)
| moves_home now reason :
    placement_state p' = Local -> worker_node_id p' = None ->
    Move d i r p' (ReassignToCoordinator now i (worker_node_id (place r)) reason)
| moves_on now next reason :
    placement_state (place r) = Reserved /\ next = Provisioning \/
    placement_state (place r) = Provisioning /\ (next = Ready \/ next = Failed) ->
    in_state next (place r) p' ->
    Move d i r p' (Transition now i (placement_state (place r)) next reason)
| moves_to_cleaning clock now :
    placement_state (place r) = Ready -> removable d now i (place r) -> in_state Cleaning (place r) p' ->
    Move d i r p' (BeginCleanup clock now i)
| moves_cleaned now :
    placement_state (place r) = Cleaning -> worktree_deleted (ws r) = true -> in_state Ready (place r) p' ->
    Move d i r p' (FinishCleanup now i)
| moves_not_cleaned now :
    placement_state (place r) = Cleaning -> worktree_deleted (ws r) = false -> in_state Ready (place r) p' ->
    Move d i r p' (CancelCleanup now i).

Definition places (o : Op) : bool :=
  match o with
  | Reserve _ _ _ _ _ _ | Reassign _ _ _ _ _ _ | ReassignToCoordinator _ _ _ _ | Transition _ _ _ _ _
  | BeginCleanup _ _ _ | FinishCleanup _ _ | CancelCleanup _ _ => true
  | _ => false
  end.

Definition same_place (i : Uuid) (r r' : Row Value) : Prop := place r' = place r.

#[local] Instance same_place_preorder i : PreOrder (same_place i).
Proof. split; [done|]. intros r1 r2 r3 H1 H2. by etrans. Qed.

Lemma only_places d o : in_place o = true -> places o = false -> rows_rel same_place d (run d o).
Proof.
  destruct o; try done; intros _ _; try (write_of_row; done).
  - intros j. cbn. rewrite lookup_fmap. destruct (workspaces d !! j) as [r|]; constructor. by case_match.
  - apply rel_same; [exact _|]. cbn. unfold record_archive_intent. by repeat case_match.
  - apply rel_try_archive; [exact _|done].
  - cbn. unfold find_by_id_with_status. destruct (find_by_id d i) as [w|]; [|by (apply rel_same; [exact _|])].
    pose proof (rel_name_all same_place d now [with_status d w]) as Hn. cbn in Hn. destruct (name_it d now _).
    by apply Hn.
Qed.

Lemma unsafe_false d i :
  has_unsafe_for_workspace d i = false <->
  (forall k e s, jobs d !! k = Some s -> processes d !! k = Some e ->
     ss_workspace <$> sessions d !! pr_session e = Some i -> is_settled s = true).
Proof.
  unfold has_unsafe_for_workspace. rewrite existsb_false. split.
  - intros H k e s Hj He Hs. specialize (H (k, s)). rewrite elem_of_map_to_list in H. specialize (H Hj). cbn in H.
    rewrite He in H. unfold of_workspace in H. rewrite bool_decide_true, andb_true_r in H by done.
    by apply negb_false_iff.
  - intros H [k s]. rewrite elem_of_map_to_list. intros Hj. cbn. destruct (processes d !! k) as [e|] eqn:He; [|by rewrite andb_false_r].
    unfold of_workspace. case_bool_decide as Hs; [|by rewrite andb_false_r]. by rewrite (H k e s).
Qed.

(** The row of [i] after a guarded write of the row of [j]. *)
Lemma written_row_lookup d j g f i r r' :
  workspaces d !! i = Some r -> workspaces (update_row d j g f).1 !! i = Some r' ->
  r' = r \/ i = j /\ g r = true /\ r' = f r.
Proof.
  intros Hr. destruct (update_row_cases d j g f) as [(s & Hs & Hg & ->)| ->]; cbn; [|rewrite Hr; by intros [= ->]; left].
  rewrite lookup_insert_Some. intros [[-> <-]|[_ Hr']]; [|left; congruence]. simplify_eq. auto.
Qed.

Lemma checked_lookup d j g f a q i r r' :
  workspaces d !! i = Some r -> workspaces (checked d a q (update_row d j g f)).1 !! i = Some r' ->
  r' = r \/ i = j /\ g r = true /\ r' = f r /\ known_worker d a = true.
Proof.
  intros Hr. unfold checked. destruct (_ && _) eqn:Hc; cbn [fst]; [rewrite Hr; intros [= ->]; by left|].
  intros Hr'. pose proof Hr' as Hr2. eapply written_row_lookup in Hr2 as [?|(-> & Hg & ->)]; [by left| |done].
  destruct (update_row_cases d j g f) as [(s & Hs & _ & Hu)|Hu]; rewrite Hu in *; cbn in *.
  - right. apply negb_false_iff in Hc. by apply andb_true_iff in Hc as [? _].
  - unfold update_row in Hu. by rewrite Hr, Hg in Hu.
Qed.

(** The placement of a workspace changes only by the operations made for it, along
    their edges: a worker is given to a local workspace by a reservation or to a remote one
    by a reassignment that knew its worker; provisioning goes on from a reservation; and
    cleaning begins only on a ready workspace whose worker is online, healthy and leased
    and has no unsettled job of it, and ends as the worktree is deleted or kept. *)
Theorem placement_moves_along_edges d o i r r' :
  workspaces d !! i = Some r -> workspaces (run d o) !! i = Some r' ->
  place r' = place r \/ Move d i r (place r') o.
Proof.
  intros Hr Hr'. destruct (places o) eqn:Hp.
  2:{ left. destruct (in_place o) eqn:Hin.
      - pose proof (only_places d o Hin Hp i) as Hs. rewrite Hr, Hr' in Hs. by inversion Hs.
      - destruct o as [| | | | | | | | | | |now data j| | | | | | | | | | | | | | | | |j|]; try done; cbn [run] in Hr'.
        + unfold create in Hr'. destruct (workspaces d !! j) eqn:Hj; [cbn in Hr'; congruence|]. cbn [fst workspaces set_workspaces] in Hr'.
          apply lookup_insert_Some in Hr' as [[-> _]|[_ Hr']]; congruence.
        + unfold delete_workspace in Hr'. destruct (workspaces d !! j); cbn [fst workspaces] in Hr'; [|congruence].
          apply lookup_delete_Some in Hr' as [_ Hr']. congruence. }
  destruct o; try done; cbn [run] in Hr'.
  - eapply checked_lookup in Hr' as [->|(-> & Hg & -> & Hk)]; [by left| |done]. right. guards.
    apply bool_decide_eq_true in Hk. by constructor.
  - eapply checked_lookup in Hr' as [->|(-> & Hg & -> & Hk)]; [by left| |done]. right. guards.
    apply bool_decide_eq_true in Hk. subst. constructor; try done. by eapply (proj1 (bool_decide_eq_false _)).
  - eapply written_row_lookup in Hr' as [->|(-> & Hg & ->)]; [by left| |done]. right. guards. subst. by constructor.
  - unfold transition in Hr'. match type of Hr' with context [if ?c then _ else _] => destruct c eqn:He end; cbn [fst] in Hr'.
    2:{ left. congruence. }
    eapply written_row_lookup in Hr' as [->|(-> & Hg & ->)]; [by left| |done]. right. guards. subst.
    constructor; [|done]. destruct (placement_state (place r)), next; try done; auto.
  - eapply written_row_lookup in Hr' as [->|(-> & Hg & ->)]; [by left| |done]. right. guards.
    constructor; [done| |done]. split; [|by apply unsafe_false].
    destruct (worker_node_id (place r)) as [k|]; [|done]. cbn in *. destruct (workers d !! k) as [w|] eqn:Hw; [|done].
    guards. destruct (WorkerNode.lease_expires_at w) as [t|] eqn:Ht; [|done]. exists k, w, t. split_and!; try done. lia.
  - eapply written_row_lookup in Hr' as [->|(-> & Hg & ->)]; [by left| |done]. right. guards. by constructor.
  - eapply written_row_lookup in Hr' as [->|(-> & Hg & ->)]; [by left| |done]. right. guards. by constructor.
Qed.

End Ops.

(** ** The sweep of idle workspaces *)

Section Expiry.
Context {Value : Type}.
Implicit Types d : Db Value.

(** Hours a workspace rests before its worktree may go. *)
Definition rest (w : Workspace) : Z := if archived w then 1 else 72.

Definition ended_before (w : Workspace) (limit : Z) (p : Process) : Prop :=
  exists t, pr_completed_at p = Some t /\ seconds t < limit.

Lemma all_completed l :
  forallb (fun p => bool_decide (is_Some (pr_completed_at p))) l = true <->
  forall p, p ∈ l -> is_Some (pr_completed_at p).
Proof.
  rewrite forallb_forall. split; intros H p Hp.
  - by eapply bool_decide_eq_true, H, list_elem_of_In.
  - apply bool_decide_eq_true, H. by apply list_elem_of_In.
Qed.

Lemma latest_end (u limit : Z) (l : list Process) :
  (forall p, p ∈ l -> is_Some (pr_completed_at p)) ->
  match foldr (fun p acc =>
           match pr_completed_at p with
           | Some t => let s := Z.max u (seconds t) in Some (match acc with Some a => Z.max a s | None => s end)
           | None => acc
           end) None l with
  | Some m => l <> [] /\
      (m < limit <-> u < limit /\ forall p, p ∈ l -> exists t, pr_completed_at p = Some t /\ seconds t < limit)
  | None => l = []
  end.
Proof.
  induction l as [|p l IH]; intros Hl; [done|]. cbn [foldr].
  assert (forall q, q ∈ l -> is_Some (pr_completed_at q)) as Hl' by (intros q Hq; apply Hl; set_solver).
  specialize (IH Hl'). destruct (Hl p) as [t Ht]; [set_solver|]. rewrite Ht.
  destruct (foldr _ _ l) as [m|].
  - destruct IH as [_ IH]. split; [done|]. rewrite Z.max_lub_lt_iff, Z.max_lub_lt_iff, IH. split.
    + intros ([Hu Hq] & _ & Ht'). split; [done|]. intros q [->|Hin]%elem_of_cons; eauto.
    + intros [Hu Hq]. split_and!; try done; [intros q Hin; apply Hq; set_solver|].
      destruct (Hq p) as (t' & Ht' & ?); [set_solver|]. by simplify_eq.
  - subst l. split; [done|]. rewrite Z.max_lub_lt_iff. split.
    + intros [Hu Ht']. split; [done|]. intros q ->%list_elem_of_singleton. eauto.
    + intros [Hu Hq]. split; [done|]. destruct (Hq p) as (t' & Ht' & ?); [set_solver|]. by simplify_eq.
Qed.

Lemma elem_order_by {A} (key : A -> Z) l x : x ∈ order_by key l <-> x ∈ l.
Proof. unfold order_by. by rewrite merge_sort_Permutation. Qed.

(** The sweep takes exactly the idle workspaces: those with a directory that was not
    removed, all of whose executions ended, at least one of them, and whose last change
    and last end are older than 72 hours, or one hour for an archived workspace, before
    the reading of the clock in local time. *)
Theorem sweep_takes_the_idle d now offset w :
  w ∈ find_expired_for_cleanup d now offset <->
  (exists i r, workspaces d !! i = Some r /\ ws r = w) /\
  is_Some (container_ref w) /\ worktree_deleted w = false /\
  executions d (id w) <> [] /\
  (let limit := seconds now + offset - rest w * 3600 in
   seconds (updated_at w) < limit /\ forall p, p ∈ executions d (id w) -> ended_before w limit p).
Proof.
  unfold find_expired_for_cleanup, rest, ended_before. cbv zeta.
  rewrite elem_order_by, list_elem_of_In, filter_In, <-list_elem_of_In.
  unfold all_workspaces. rewrite list_elem_of_fmap.
  assert ((exists y : Uuid * Row Value, w = ws y.2 /\ y ∈ map_to_list (workspaces d)) <->
          (exists i r, workspaces d !! i = Some r /\ ws r = w)) as Hin.
  { split; [intros ([i r] & -> & Hy%elem_of_map_to_list); eauto|intros (i & r & Hr & <-)].
    exists (i, r). by rewrite elem_of_map_to_list. }
  rewrite Hin. unfold is_expired, last_activity. set (l := executions d (id w)).
  set (limit := seconds now + offset - (if archived w then 1 else 72) * 3600).
  rewrite !andb_true_iff, bool_decide_eq_true, negb_true_iff, all_completed. split.
  - intros (? & ((? & ?) & Hl) & Hlast). pose proof (latest_end (seconds (updated_at w)) limit l Hl) as He.
    destruct (foldr _ _ l); [|done]. destruct He as [Hne He]. apply Z.ltb_lt, He in Hlast as [? ?]. by split_and!.
  - intros (? & ? & ? & Hne & Hu & Hp).
    assert (forall p, p ∈ l -> is_Some (pr_completed_at p)) as Hl by (intros p (t & -> & _)%Hp; done).
    pose proof (latest_end (seconds (updated_at w)) limit l Hl) as He.
    split_and!; try done. destruct (foldr _ _ l); [|done]. by apply Z.ltb_lt, He.
Qed.

End Expiry.

(** ** Names and paths *)

Lemma chars_step c s :
  Redact.chars (String c s) =
  take_bytes (char_width c) (String c s) :: Redact.chars (drop_bytes (char_width c) (String c s)).
Proof.
  unfold Redact.chars at 1. cbn [String.length chars_fuel]. f_equal. apply chars_fuel_enough.
  rewrite drop_bytes_length. pose proof (char_width_pos c). cbn. lia.
Qed.

Lemma drop_bytes_app_le n p t : (n <= String.length p)%nat -> drop_bytes n (p +:+ t) = drop_bytes n p +:+ t.
Proof.
  revert p. induction n as [|n IH]; intros p Hn; [by destruct p|].
  destruct p as [|c p]; cbn in Hn; [lia|]. rewrite sapp_cons. cbn. apply IH. lia.
Qed.

Lemma chars_bytes s : (length (Redact.chars s) <= String.length s)%nat.
Proof.
  induction s as [s IH] using (induction_ltof1 _ String.length). unfold ltof in IH.
  destruct s as [|c s]; [done|]. rewrite chars_step. cbn [length]. pose proof (char_width_pos c).
  pose proof (drop_bytes_length (char_width c) (String c s)) as Hd. cbn [String.length] in *.
  specialize (IH (drop_bytes (char_width c) (String c s))). lia.
Qed.

(** A prefix, whole characters or not, has as many characters at most, and each byte added
    makes one more at most. *)
Lemma chars_app p t :
  (length (Redact.chars p) <= length (Redact.chars (p +:+ t)) <= length (Redact.chars p) + String.length t)%nat.
Proof.
  revert t. induction p as [p IH] using (induction_ltof1 _ String.length). unfold ltof in IH. intros t.
  destruct p as [|c p]; [cbn [length]; pose proof (chars_bytes t); change ("" +:+ t) with t; cbn; lia|].
  rewrite sapp_cons, !chars_step. cbn [length].
  pose proof (char_width_pos c). pose proof (drop_bytes_length (char_width c) (String c p)) as Hd.
  cbn [String.length] in *. destruct (decide (char_width c <= S (String.length p))%nat) as [Hle|Hgt].
  - rewrite <-sapp_cons, drop_bytes_app_le by (cbn; lia).
    specialize (IH (drop_bytes (char_width c) (String c p))). cbn [String.length] in IH. specialize (IH ltac:(lia) t). lia.
  - pose proof (chars_bytes (drop_bytes (char_width c) (String c p))) as H1.
    pose proof (chars_bytes (drop_bytes (char_width c) (String c (p +:+ t)))) as H2.
    rewrite drop_bytes_length in H2. cbn [String.length] in H2. rewrite slength_app in H2. lia.
Qed.

Lemma rsplit_once_eq c s a b : rsplit_once c s = Some (a, b) -> s = a +:+ String c b.
Proof.
  revert a b. induction s as [|x s IH]; intros a b; [done|]. cbn.
  destruct (rsplit_once c s) as [[a' b']|].
  - intros [= <- <-]. rewrite sapp_cons. f_equal. by apply IH.
  - case_decide; [|done]. by intros [= <- <-]; subst.
Qed.

(** The name made of a prompt is the trimmed prompt where that fits, and has at most
    three characters more than the limit where it does not, wherever it is cut. *)
Theorem names_fit prompt n :
  (length (Redact.chars (trim prompt)) <= n -> truncate_to_name prompt n = trim prompt)%nat /\
  (length (Redact.chars (truncate_to_name prompt n)) <= n + 3)%nat.
Proof.
  unfold truncate_to_name. destruct (Nat.leb_spec (length (Redact.chars (trim prompt))) n) as [Hle|Hgt]; [split; [done|lia]|].
  split; [lia|]. set (s := sconcat (take n (Redact.chars (trim prompt)))).
  assert (length (Redact.chars s) <= n)%nat as Hs.
  { unfold s. rewrite <-(sapp_nil_r (sconcat _)), chars_sconcat by (by apply chars_full).
    rewrite length_app, length_take. cbn. lia. }
  destruct (rsplit_once " " s) as [[a b]|] eqn:Hsp.
  - apply rsplit_once_eq in Hsp. pose proof (chars_app a (String " " b)). rewrite <-Hsp in *.
    pose proof (chars_app a "...") as Ha. change (String.length "...") with 3%nat in Ha. lia.
  - pose proof (chars_app s "...") as Ha. change (String.length "...") with 3%nat in Ha. lia.
Qed.

Lemma max_by_key_spec {A} (key : A -> nat) l :
  match max_by_key key l with
  | Some a => a ∈ l /\ forall b, b ∈ l -> (key b <= key a)%nat
  | None => l = []
  end.
Proof.
  induction l as [|a l IH]; [done|]. cbn. destruct (max_by_key key l) as [b|].
  - destruct IH as [Hb Hl]. destruct (Nat.leb_spec (key a) (key b)) as [Hle|Hgt]; (split; [set_solver|]);
      intros c [->|Hc]%elem_of_cons; try lia; auto. specialize (Hl c Hc). lia.
  - subst. split; [set_solver|]. by intros b ->%list_elem_of_singleton.
Qed.

(** One path leads to the other. *)
Definition along (path c : string) : Prop :=
  components c `prefix_of` components path \/ components path `prefix_of` components c.

(** A path resolves to the workspace whose directory holds it or lies below it, the
    deepest of these, and to none exactly if there is none. *)
Theorem path_resolves_to_deepest path candidates :
  match best_matching_container_ref path candidates with
  | Some i => exists c, (i, c) ∈ candidates /\ along path c /\
      forall j c', (j, c') ∈ candidates -> along path c' -> (length (components c') <= length (components c))%nat
  | None => forall j c', (j, c') ∈ candidates -> ~ along path c'
  end.
Proof.
  unfold best_matching_container_ref. set (l := List.filter _ candidates).
  assert (forall j c, (j, c) ∈ l <-> (j, c) ∈ candidates /\ along path c) as Hl.
  { intros j c. unfold l, along, path_starts_with.
    by rewrite list_elem_of_In, filter_In, <-list_elem_of_In, orb_true_iff, !bool_decide_eq_true. }
  pose proof (max_by_key_spec (fun c : Uuid * string => length (components c.2)) l) as Hm.
  destruct (max_by_key _ l) as [[i c]|]; cbn.
  - destruct Hm as [Hin Hmax]. apply Hl in Hin as [Hin Ha]. exists c. split_and!; try done.
    intros j c' Hj Hj'. by apply (Hmax (j, c')), Hl.
  - intros j c' Hj Ha. assert ((j, c') ∈ l) as Hn by by apply Hl. rewrite Hm in Hn. set_solver.
Qed.

(** ** Concrete runs *)

Module SampleWorkspaces.

Definition minute : Z := 60 * nanos_per_second.
Definition hour : Z := 60 * minute.
Definition day : Z := 24 * hour.

(** Milliseconds, as SQLite keeps instants. *)
Definition julianday (t : DateTime) : Z := t / 1000000.

Definition nothing : Db unit :=
  {| workspaces := ∅; intents := ∅; overrides := ∅; workers := ∅; sessions := ∅; processes := ∅;
     jobs := ∅; pull_requests := []; wakeups := ∅; open_deliveries := ∅ |}.

Definition node : WorkerNode.WorkerNode unit :=
  {| WorkerNode.id := 7%N; WorkerNode.hostname := "node"; WorkerNode.status := WorkerNode.Online;
     WorkerNode.worker_version := "1"; WorkerNode.vibe_version := "1"; WorkerNode.capabilities := tt;
     WorkerNode.resource_snapshot := tt; WorkerNode.labels := tt;
     WorkerNode.mount_status := WorkerNode.MsHealthy; WorkerNode.mount_message := None;
     WorkerNode.last_heartbeat_at := None; WorkerNode.lease_expires_at := Some (100 * day);
     WorkerNode.created_at := 0; WorkerNode.updated_at := 0 |}.

(** The tables of the other components, in which workspace 1 has a session with one execution. *)
Definition elsewhere (job : gmap Uuid WorkerJobRow.ExecutionWorkerDispatchState) (ended : option DateTime) : Db unit :=
  {| workspaces := ∅; intents := ∅; overrides := ∅; workers := {[ 7%N := node ]};
     sessions := {[ 2%N := {| ss_workspace := 1%N; ss_created_at := 0 |} ]};
     processes := {[ 3%N := {| pr_session := 2%N; pr_run_reason := CodingAgent; pr_action := None;
                               pr_status := match ended with
                                            | Some _ => ProcessRow.Completed
                                            | None => ProcessRow.Running
                                            end;
                               pr_created_at := 0; pr_completed_at := ended |} ]};
     jobs := job; pull_requests := []; wakeups := ∅; open_deliveries := ∅ |}.

Definition made : list (Op (Value := unit)) :=
  [Create 0 {| new_branch := "vk/1"; new_name := None |} 1%N; UpdateContainerRef 0 1%N "/ws/1"].

Definition after (ops : list (Op (Value := unit))) : Db unit := foldl (run julianday) nothing ops.

Example well_formed_witness :
  well_formed julianday nothing /\ well_formed julianday (after (made ++ [SetSpeckitProvisioning 1 1%N 9%N "f"])).
Proof. split; [by split; [|split_and!]|]. apply workspaces_stay_well_formed. by split; [|split_and!]. Defined.

(** An event recorded late does not undo an unarchiving; a later event archives again. *)
Definition reopened : Db unit := (update (after made) (10 * minute) 1%N (Some false) None None).1.
Definition late_events : list (Op (Value := unit)) :=
  [RecordArchiveIntent 1%N "pr/1" "pr_merged" (9 * minute); TryArchive (11 * minute) 1%N true;
   RecordArchiveIntent 1%N "pr/2" "pr_merged" (12 * minute)].

Example early_event_is_settled :
  (try_archive_automatically (foldl (run julianday) reopened (take 2 late_events)) (13 * minute) 1%N).2 = false.
Proof. vm_compute. reflexivity. Qed.

Example unarchive_is_respected_witness :
  exists key m,
    intents (try_archive_with_remote_intents (foldl (run julianday) reopened late_events) (13 * minute) 1%N true).1
      !! (1%N, key) = Some m /\ archived_at m = Some (13 * minute) /\
    julianday (10 * minute) < julianday (triggered_at m) /\
    forall key' m', key' <> key ->
      intents (try_archive_with_remote_intents (foldl (run julianday) reopened late_events) (13 * minute) 1%N true).1
        !! (1%N, key') = Some m' ->
      intents (foldl (run julianday) reopened late_events) !! (1%N, key') = Some m'.
Proof.
  apply (unarchive_is_respected julianday (after made) 1%N (10 * minute) None None reopened late_events
           (13 * minute) true).
  - vm_compute. reflexivity.
  - repeat constructor.
  - vm_compute. reflexivity.
Defined.

Definition placed : list (Op (Value := unit)) :=
  made ++ [Others (elsewhere ∅ (Some 0)); Reserve 1 1%N 7%N None None None;
           Transition 2 1%N Reserved Provisioning None; Transition 3 1%N Provisioning Ready None].

Definition state_of (d : Db unit) : option WorkspacePlacementState :=
  placement_state <$> find_placement d 1%N.

Example placement_moves_witness :
  exists r r', workspaces (after placed) !! 1%N = Some r /\
    workspaces (run julianday (after placed) (BeginCleanup 4 4 1%N)) !! 1%N = Some r' /\
    (place r' = place r \/ Move (after placed) 1%N r (place r') (BeginCleanup 4 4 1%N)).
Proof.
  destruct (workspaces (after placed) !! 1%N) as [r|] eqn:Hr; [|exfalso; revert Hr; vm_compute; discriminate].
  destruct (workspaces (run julianday (after placed) (BeginCleanup 4 4 1%N)) !! 1%N) as [r'|] eqn:Hr';
    [|exfalso; revert Hr'; vm_compute; discriminate].
  exists r, r'. split; [reflexivity|]. split; [reflexivity|].
  by apply (placement_moves_along_edges julianday _ _ _ _ _ Hr Hr').
Defined.

(** Both ways out of a cleanup; a reassignment is a third, that does not ask whether the
    worktree is still being removed. *)
Example cleanup_ends :
  state_of (after (placed ++ [BeginCleanup 4 4 1%N; FinishCleanup 5 1%N])) = Some Cleaning /\
  state_of (after (placed ++ [BeginCleanup 4 4 1%N; MarkWorktreeDeleted 5 1%N; FinishCleanup 6 1%N])) = Some Ready /\
  state_of (after (placed ++ [BeginCleanup 4 4 1%N; CancelCleanup 6 1%N])) = Some Ready.
Proof. vm_compute. auto. Qed.

(** The comment of [finish_cleanup] says that a caller cannot reopen a workspace while
    cleanup is still removing it. *)
Example reassigned_while_cleaning :
  state_of (after (placed ++ [BeginCleanup 4 4 1%N; Reassign 5 1%N (Some 7%N) 7%N None "move"])) = Some Ready /\
  state_of (after (placed ++ [BeginCleanup 4 4 1%N; ReassignToCoordinator 5 1%N (Some 7%N) "home"])) = Some Local.
Proof. vm_compute. auto. Qed.

(** A running setup script does not hold an archive back; a running agent does. *)
Definition merged : list (Op (Value := unit)) := made ++ [RecordArchiveIntent 1%N "pr/1" "pr_merged" minute].
Definition with_running (reason : ExecutionProcessRunReason) : Db unit :=
  let d := elsewhere ∅ None in
  after (merged ++ [Others
    {| workspaces := ∅; intents := ∅; overrides := ∅; workers := workers d; sessions := sessions d;
       processes := {[ 3%N := {| pr_session := 2%N; pr_run_reason := reason; pr_action := None;
                                 pr_status := ProcessRow.Running; pr_created_at := 0; pr_completed_at := None |} ]};
       jobs := ∅; pull_requests := []; wakeups := ∅; open_deliveries := ∅ |}]).

Example archive_admission_witness :
  (exists r, admits (with_running SetupScript) 1%N false r) /\ ~ exists r, admits (with_running CodingAgent) 1%N false r.
Proof.
  split.
  - apply (proj1 (archive_admission_is_exact julianday (with_running SetupScript) day 1%N false)). vm_compute. reflexivity.
  - intros Hr. apply (proj1 (archive_admission_is_exact julianday (with_running CodingAgent) day 1%N false)) in Hr.
    revert Hr. vm_compute. discriminate.
Defined.

(** A workspace without an execution is never swept, however old. *)
Example unused_is_never_swept :
  find_expired_for_cleanup (after made) (1000 * day) 0 = [] /\
  length (find_expired_for_cleanup (after (made ++ [Others (elsewhere ∅ (Some 0))])) (4 * day) 0) = 1%nat.
Proof. vm_compute. auto. Qed.

(** East of Greenwich a workspace is swept early: at UTC+10 an archived one at once. *)
Example swept_early_in_the_east :
  let d := after (made ++ [Others (elsewhere ∅ (Some (10 * minute))); SetArchived (10 * minute) 1%N true]) in
  find_expired_for_cleanup d (11 * minute) 0 = [] /\
  length (find_expired_for_cleanup d (11 * minute) (10 * 3600)) = 1%nat.
Proof. vm_compute. auto. Qed.

Example names_are_cut :
  truncate_to_name "  short " 60 = "short" /\ truncate_to_name "one two three" 9 = "one two...".
Proof. vm_compute. auto. Qed.

Example nested_paths :
  best_matching_container_ref "/ws/1/repo/src" [(1%N, "/ws/1"); (2%N, "/ws/1/repo"); (3%N, "/ws/10")] = Some 2%N.
Proof. vm_compute. reflexivity. Qed.

End SampleWorkspaces.
