(* ===== verification/Reclaim.v ===== *)
(** * Reclaiming worktrees

    The sweep that removes the worktrees of idle workspaces and the check an execution
    passes before its job is recorded (crates/local-deployment/src/container.rs), statement
    by statement on the tables of [Workspaces]: [step] interleaves any number of them with
    every other operation.  [claim_fences_dispatches] says what the claim of a workspace
    protects from, and [SampleReclaim] what it does not. *)
From S2P Require Import Prelude Text WorkerNode WorkerJobRow Scheduler Workspaces WorkspaceFacts.
Import Workspaces.

Module Reclaim.

Section Machine.
Context {Value : Type} (uuid_to_string : Uuid -> string) (julianday : DateTime -> Z) (enabled : bool).
Implicit Types (d : Db Value) (i e : Uuid) (now : DateTime).

(** ** The sweep of one workspace *)

(* crates/local-deployment/src/container.rs:1114-1123 worker_cleanup_evidence_safe *)
Definition worker_cleanup_evidence_safe (w : WorkerNode.WorkerNode Value) (has_unsafe_jobs : bool)
    (now : DateTime) : bool :=
  bool_decide (WorkerNode.status w = WorkerNode.Online)
  && bool_decide (WorkerNode.mount_status w = WorkerNode.MsHealthy)
  && match WorkerNode.lease_expires_at w with Some lease => now <? lease | None => false end
  && negb has_unsafe_jobs.

(* crates/local-deployment/src/container.rs:2345-2368 cluster_workspace_cleanup_safe *)
Definition cluster_workspace_cleanup_safe d now i : bool :=
  if negb enabled then true
  else match find_placement d i with
       | None => false
       | Some p =>
           match worker_node_id p with
           | None => bool_decide (placement_state p = Local)
           | Some w =>
               match workers d !! w with
               | None => false
               | Some n => worker_cleanup_evidence_safe n (has_unsafe_for_workspace d i) now
               end
           end
       end.

(** Where the sweep of a workspace is: [Claimed] is the removal of its directory. *)
Inductive Sweep := Listed | Judged | Inspected | Placed | Claimed | Removed | Marked | Finished.

(** What a turn reads of the world: the clock, whether the worktree is known to be clean,
    whether the directory was removed, and whether a job that exists is this request's. *)
Record Answers := { clock : DateTime; is_clean : bool; removed : bool; same_request : bool }.

(** After the checks: the removal and its record. *)
(* crates/local-deployment/src/container.rs:2176-2273 cleanup_workspace *)
Definition cleanup_step (a : Answers) d (w : Workspace) (ph : Sweep) : Db Value * Sweep :=
  match ph with
  | Claimed =>
      match container_ref w with
      | None => (d, Finished)
      | Some _ =>
          if removed a then (d, Removed)
          else if enabled then ((cancel_cleanup d (clock a) (id w)).1, Finished)
          else (d, Finished)
      end
  | Removed => (mark_worktree_deleted d (clock a) (id w), if enabled then Marked else Finished)
  | Marked => ((finish_cleanup d (clock a) (id w)).1, Finished)
  | _ => (d, Finished)
  end.

(* crates/local-deployment/src/container.rs:2275-2343 cleanup_expired_workspaces *)
Definition sweep_step (a : Answers) d (w : Workspace) (ph : Sweep) : Db Value * Sweep :=
  match ph with
  | Listed => (d, if cluster_workspace_cleanup_safe d (clock a) (id w) then Judged else Finished)
  | Judged => (d, if is_clean a then (if enabled then Inspected else Claimed) else Finished)
  | Inspected =>
      (d, match find_placement d (id w) ≫= worker_node_id with Some _ => Placed | None => Claimed end)
  | Placed =>
      let '(d, ok) := begin_cleanup d (clock a) (clock a) (id w) in (d, if ok then Claimed else Finished)
  | ph => cleanup_step a d w ph
  end.

(** ** The start of an execution *)

Inductive Dispatch := Started | Found (worker : Uuid) | Live (worker : Uuid) | Recorded | RunsLocally | Refused.

(** [create_pending] on the states of the jobs; see [WorkerJobRow.create_pending] for the row. *)
(* crates/db/src/models/execution_worker_job.rs:73-107 ExecutionWorkerJob::create_pending *)
Definition record_pending (a : Answers) d e (worker : Uuid) : Db Value * Dispatch :=
  match jobs d !! e with
  | Some _ => (d, if same_request a then Recorded else Refused)
  | None =>
      if bool_decide (is_Some (processes d !! e)) && known_worker d (Some worker)
      then (set_jobs (<[e := WorkerJobRow.Pending]> (jobs d)) d, Recorded)
      else (d, Refused)
  end.

(* crates/local-deployment/src/container.rs:5071-5107 dispatch_execution *)
Definition dispatch_step (a : Answers) d i e (ph : Dispatch) : Db Value * Dispatch :=
  match ph with
  | Started =>
      (d, if negb enabled then RunsLocally
          else match find_placement d i with
               | None => Refused
               | Some p =>
                   if decide (placement_state p = Local) then RunsLocally
                   else if decide (placement_state p = Ready) then
                     match worker_node_id p with Some w => Found w | None => Refused end
                   else Refused
               end)
  | Found w =>
      (d, if is_ok (Scheduler.dispatch_liveness uuid_to_string w (workers d !! w) (clock a)) then Live w else Refused)
  | Live w =>
      record_pending a d e w
  | ph => (d, ph)
  end.

(** ** Everything together *)

Record World := {
  db : Db Value;
  sweeps : gmap nat (Workspace * Sweep);
  dispatches : gmap nat (Uuid * Uuid * Dispatch);
}.

(** The execution belongs to the workspace, as far as it exists. *)
Definition belongs d i e : Prop := forall p, processes d !! e = Some p -> of_workspace d i p = true.

Definition add_session s (v : Session) d : Db Value :=
  take_others d {| workspaces := workspaces d; intents := intents d; overrides := overrides d; workers := workers d;
    sessions := <[s := v]> (sessions d); processes := processes d; jobs := jobs d;
    pull_requests := pull_requests d; wakeups := wakeups d; open_deliveries := open_deliveries d |}.

Definition set_processes t d : Db Value :=
  take_others d {| workspaces := workspaces d; intents := intents d; overrides := overrides d; workers := workers d;
    sessions := sessions d; processes := t; jobs := jobs d;
    pull_requests := pull_requests d; wakeups := wakeups d; open_deliveries := open_deliveries d |}.

Definition set_workers t d : Db Value :=
  take_others d {| workspaces := workspaces d; intents := intents d; overrides := overrides d; workers := t;
    sessions := sessions d; processes := processes d; jobs := jobs d;
    pull_requests := pull_requests d; wakeups := wakeups d; open_deliveries := open_deliveries d |}.

(** One statement of some task.  Identifiers of new sessions and executions are fresh; the
    rows of a session and what they refer to go only with their workspace; the state of a job
    is overwritten whatever it was ([update_state] has no guard: a stop that its worker does
    not confirm makes a settled job indeterminate). *)
Inductive step (w : World) : World -> Prop :=
| step_list k now offset x :
    x ∈ find_expired_for_cleanup (db w) now offset -> sweeps w !! k = None ->
    step w {| db := db w; sweeps := <[k := (x, Listed)]> (sweeps w); dispatches := dispatches w |}
| step_sweep k a x ph :
    sweeps w !! k = Some (x, ph) ->
    step w {| db := (sweep_step a (db w) x ph).1;
              sweeps := <[k := (x, (sweep_step a (db w) x ph).2)]> (sweeps w); dispatches := dispatches w |}
| step_start k i e :
    dispatches w !! k = None -> is_Some (processes (db w) !! e) -> belongs (db w) i e ->
    step w {| db := db w; sweeps := sweeps w; dispatches := <[k := (i, e, Started)]> (dispatches w) |}
| step_dispatch k a i e ph :
    dispatches w !! k = Some (i, e, ph) ->
    step w {| db := (dispatch_step a (db w) i e ph).1; sweeps := sweeps w;
              dispatches := <[k := (i, e, (dispatch_step a (db w) i e ph).2)]> (dispatches w) |}
| step_operation (o : Op (Value := Value)) :
    (forall d', o <> Others d') ->
    step w {| db := run julianday (db w) o; sweeps := sweeps w; dispatches := dispatches w |}
| step_session s v :
    sessions (db w) !! s = None -> (forall e p, processes (db w) !! e = Some p -> pr_session p <> s) ->
    step w {| db := add_session s v (db w); sweeps := sweeps w; dispatches := dispatches w |}
| step_execution e p :
    processes (db w) !! e = None -> jobs (db w) !! e = None ->
    (forall k i ph, dispatches w !! k <> Some (i, e, ph)) ->
    step w {| db := set_processes (<[e := p]> (processes (db w))) (db w); sweeps := sweeps w; dispatches := dispatches w |}
| step_execution_row e p p' :
    processes (db w) !! e = Some p -> pr_session p' = pr_session p ->
    step w {| db := set_processes (<[e := p']> (processes (db w))) (db w); sweeps := sweeps w; dispatches := dispatches w |}
| step_job e s s' :
    jobs (db w) !! e = Some s ->
    step w {| db := set_jobs (<[e := s']> (jobs (db w))) (db w); sweeps := sweeps w; dispatches := dispatches w |}
| step_workers t :
    step w {| db := set_workers t (db w); sweeps := sweeps w; dispatches := dispatches w |}.

(** ** What the claim fences *)

Definition cleaning d i : Prop := placement_state <$> find_placement d i = Some Cleaning.

(** The dispatch has read the placement and not recorded its job yet. *)
Definition checked_in (ph : Dispatch) : bool := match ph with Found _ | Live _ => true | _ => false end.

(** Every job of the workspace was there, and settled, when the tables were [d0]. *)
Definition only_settled_before d0 d i : Prop :=
  forall e s p, jobs d !! e = Some s -> processes d !! e = Some p -> of_workspace d i p = true ->
  exists s0, jobs d0 !! e = Some s0 /\ is_settled s0 = true.

Record fenced d0 (w : World) i : Prop := {
  fenced_cleaning : cleaning (db w) i;
  fenced_jobs : only_settled_before d0 (db w) i;
  fenced_dispatches : forall k e ph, dispatches w !! k = Some (i, e, ph) -> checked_in ph = false;
  fenced_owners : forall k j e ph, dispatches w !! k = Some (j, e, ph) -> belongs (db w) j e;
}.

(** What another operation leaves of the tables the fence is about. *)
Record shrinks d d' : Prop := {
  shrinks_jobs e s : jobs d' !! e = Some s -> jobs d !! e = Some s;
  shrinks_processes e p : processes d' !! e = Some p ->
    processes d !! e = Some p /\ sessions d' !! pr_session p = sessions d !! pr_session p;
}.

Definition same_tables d d' : Prop := jobs d' = jobs d /\ processes d' = processes d /\ sessions d' = sessions d.

Lemma same_shrinks d d' : same_tables d d' -> shrinks d d'.
Proof. intros (Hj & Hp & Hs). split; intros; by rewrite ?Hj, ?Hp, ?Hs in *. Qed.

Lemma update_row_tables d i g f : same_tables d (update_row d i g f).1.
Proof. by destruct (update_row_cases d i g f) as [(r & _ & _ & ->)| ->]. Qed.

Lemma checked_tables d a q x : same_tables d x.1 -> same_tables d (checked d a q x).1.
Proof. unfold checked. by case_match. Qed.

Lemma update_tables d now i a p n : same_tables d (update d now i a p n).1.
Proof.
  unfold update. destruct (_ && _); [done|]. cbn [fst].
  match goal with |- context [update_ws ?d1 i ?g ?f] =>
    pose proof (update_row_tables d1 i (fun r => g (ws r)) (on_place (fun p => p) f)) as Hu end.
  unfold update_ws. by destruct a as [[]|].
Qed.

Lemma name_all_tables d now l : same_tables d (name_all d now l).1.
Proof.
  revert d. induction l as [|w l IH]; intros d; [done|]. cbn.
  assert (same_tables d (name_it d now w).1) as (Hj & Hp & Hs).
  { unfold name_it. destruct (name (workspace w)), (get_first_user_message d (id (workspace w))); try done.
    apply update_tables. }
  destruct (name_it d now w) as [d1 w1]. specialize (IH d1) as (Hj' & Hp' & Hs').
  destruct (name_all d1 now l) as [d2 l2]. by split_and!; etrans.
Qed.

Lemma try_archive_rest d now i allow : same_tables d (try_archive_with_remote_intents d now i allow).1.
Proof.
  unfold try_archive_with_remote_intents, update_ws.
  match goal with |- context [update_row d i ?g ?f] => pose proof (update_row_tables d i g f) as Hu end.
  destruct (update_row d i _ _) as [d1 []]; [|done]. by destruct (latest _) as [[]|].
Qed.

Lemma delete_shrinks d i : shrinks d (delete_workspace d i).1.
Proof.
  unfold delete_workspace. destruct (workspaces d !! i); [|by apply same_shrinks]. split; cbn [fst jobs processes sessions].
  - intros e s. rewrite map_lookup_filter_Some. by intros [? _].
  - intros e p. rewrite map_lookup_filter_Some. cbn. intros [Hp [v Hv]]. split; [done|]. rewrite Hv.
    by apply map_lookup_filter_Some in Hv as [-> _].
Qed.

Lemma run_shrinks d (o : Op (Value := Value)) : (forall d', o <> Others d') -> shrinks d (run julianday d o).
Proof.
  intros Hno. destruct o; cbn [run];
    try (apply same_shrinks; solve [apply checked_tables, update_row_tables|apply update_row_tables
                                   |apply update_tables|apply name_all_tables|apply try_archive_rest]).
  - apply same_shrinks. unfold transition. repeat case_match; try done; apply update_row_tables.
  - apply same_shrinks. unfold create. by case_match.
  - by apply same_shrinks.
  - apply same_shrinks. unfold record_archive_intent. by repeat case_match.
  - by apply same_shrinks.
  - apply same_shrinks. unfold find_by_id_with_status. destruct (find_by_id d i) as [w|]; [|done].
    pose proof (name_all_tables d now [with_status d w]) as Hn. cbn in Hn. by destruct (name_it d now _).
  - apply delete_shrinks.
  - by edestruct Hno.
Qed.

Lemma sweep_tables a d x ph : same_tables d (sweep_step a d x ph).1.
Proof.
  destruct ph; cbn; try done.
  - pose proof (update_row_tables d (id x)) as Hu. unfold begin_cleanup.
    match goal with |- context [update_row d (id x) ?g ?f] => specialize (Hu g f) end.
    by destruct (update_row d (id x) _ _).
  - repeat case_match; try done. apply update_row_tables.
  - apply update_row_tables.
  - apply update_row_tables.
Qed.

(** No open job at the claim. *)
Lemma claim_settled d i : has_unsafe_for_workspace d i = false -> only_settled_before d d i.
Proof.
  rewrite unsafe_false. unfold of_workspace. intros H e s p Hj Hp Hw.
  apply bool_decide_eq_true in Hw. exists s. split; [done|]. by eapply H.
Qed.

Lemma shrinks_fence d0 d d' i j e :
  shrinks d d' ->
  (only_settled_before d0 d i -> only_settled_before d0 d' i) /\ (belongs d j e -> belongs d' j e).
Proof.
  intros [Hj Hp]. unfold only_settled_before, belongs, of_workspace. split.
  - intros Hn k s p Hk Hpk. destruct (Hp _ _ Hpk) as [Hpd ->]. eauto.
  - intros Hb p Hpe. destruct (Hp _ _ Hpe) as [Hpd ->]. auto.
Qed.

Lemma fenced_shrinks d0 w d' s' i :
  fenced d0 w i -> shrinks (db w) d' -> cleaning d' i ->
  fenced d0 {| db := d'; sweeps := s'; dispatches := dispatches w |} i.
Proof.
  intros [Hc Hj Hd Ho] Hs Hc'. split; cbn; try done.
  - by apply (shrinks_fence d0 (db w) d' i i 0%N Hs).
  - intros k j e ph Hk. apply (shrinks_fence d0 (db w) d' i j e Hs). eauto.
Qed.

Lemma dispatch_fenced d0 w k a i j e ph :
  fenced d0 w i -> dispatches w !! k = Some (j, e, ph) ->
  only_settled_before d0 (dispatch_step a (db w) j e ph).1 i /\
  (j = i -> checked_in (dispatch_step a (db w) j e ph).2 = false) /\
  (forall j' e', belongs (db w) j' e' -> belongs (dispatch_step a (db w) j e ph).1 j' e').
Proof.
  intros [Hc Hj Hd Ho] Hk.
  destruct ph as [|v|v| | |]; cbn; try done.
  - split_and!; try done. intros ->. destruct enabled; [|done]. cbn. unfold cleaning in Hc.
    destruct (find_placement (db w) i) as [p|]; [|done]. injection Hc as Hp. by rewrite Hp.
  - split_and!; try done. intros ->. by specialize (Hd _ _ _ Hk).
  - assert (j <> i) as Hne by (intros ->; by specialize (Hd _ _ _ Hk)).
    unfold record_pending. destruct (jobs (db w) !! e) as [s|] eqn:He; [by destruct (same_request a)|].
    destruct (_ && _); [|done].
    split_and!; try done. intros e' s p. cbn. rewrite lookup_insert_Some.
    intros [[<- <-]|[_ Hs]] Hp Hw; [|by eapply Hj].
    specialize (Ho _ _ _ _ Hk _ Hp). unfold of_workspace in *. apply bool_decide_eq_true in Ho, Hw. cbn in Hw. congruence.
Qed.

Lemma step_fenced d0 w w' i : step w w' -> cleaning (db w') i -> fenced d0 w i -> fenced d0 w' i.
Proof.
  intros Hs Hc Hf. destruct Hs; cbn in Hc.
  - by apply fenced_shrinks; [|apply same_shrinks|].
  - by apply fenced_shrinks; [|apply same_shrinks, sweep_tables|].
  - destruct Hf as [Hc' Hj Hd Ho]. split; cbn; try done.
    + intros k' e' ph. rewrite lookup_insert_Some. intros [[_ [= _ _ <-]]|[_ Hk]]; [done|eauto].
    + intros k' j e' ph. rewrite lookup_insert_Some. intros [[_ [= <- <- _]]|[_ Hk]]; [done|eauto].
  - destruct (dispatch_fenced d0 w k a i i0 e ph Hf H) as (Hj' & Hp & Hb).
    destruct Hf as [Hc' Hj Hd Ho]. split; cbn; try done.
    + intros k' e' ph'. rewrite lookup_insert_Some. intros [[_ [= -> _ <-]]|[_ Hk]]; [by apply Hp|eauto].
    + intros k' j e' ph'. rewrite lookup_insert_Some. intros [[_ [= <- <- _]]|[_ Hk]]; apply Hb; eauto.
  - by apply fenced_shrinks; [|apply run_shrinks|].
  - apply fenced_shrinks; [done| |done]. split; [done|]. intros e p Hp. split; [done|]. cbn.
    by rewrite lookup_insert_ne by (intros ->; by eapply H0).
  - destruct Hf as [Hc' Hj Hd Ho]. split; cbn; try done.
    + intros e' s q Hs. cbn in Hs |- *. rewrite lookup_insert_Some. intros [[<- _]|[_ Hq]]; [congruence|].
      by apply (Hj _ _ _ Hs Hq).
    + intros k j e' ph Hk q. cbn. rewrite lookup_insert_Some. intros [[<- _]|[_ Hq]]; [by apply H1 in Hk|].
      by apply (Ho _ _ _ _ Hk).
  - destruct Hf as [Hc' Hj Hd Ho].
    assert (forall j, of_workspace (db w) j p' = of_workspace (db w) j p) as Hsame
      by (intros j; unfold of_workspace; by rewrite H0).
    split; cbn; try done.
    + intros e' s q Hs. cbn in Hs |- *. rewrite lookup_insert_Some. intros [[<- <-]|[_ Hq]].
      * intros Hw. apply (Hj _ _ _ Hs H). by rewrite <-Hsame.
      * by apply (Hj _ _ _ Hs Hq).
    + intros k j e' ph Hk q. cbn. rewrite lookup_insert_Some. intros [[<- <-]|[_ Hq]].
      * change (of_workspace (db w) j p' = true). rewrite Hsame. by apply (Ho _ _ _ _ Hk).
      * by apply (Ho _ _ _ _ Hk).
  - destruct Hf as [Hc' Hj Hd Ho]. split; cbn; try done.
    intros e' s2 q. cbn. rewrite lookup_insert_Some. intros [[<- <-]|[_ Hs]] Hq Hw.
    + by apply (Hj _ _ _ H Hq).
    + by apply (Hj _ _ _ Hs Hq).
  - by apply fenced_shrinks; [|apply same_shrinks|].
Qed.

(** Statements while [i] stays in cleaning. *)
Inductive while_cleaning i (w : World) : World -> Prop :=
| cleaning_here : while_cleaning i w w
| cleaning_next w1 w2 :
    while_cleaning i w w1 -> step w1 w2 -> cleaning (db w2) i -> while_cleaning i w w2.

(** C19: The claim of a workspace for cleanup fences it: if no dispatch for it was between
    its reading of the placement and its record when [begin_cleanup] succeeded, and the
    dispatches under way are for executions of the workspaces they name, then, as
    long as the workspace stays in cleaning, whatever sweeps, dispatches and other
    operations interleave, no dispatch for it gets past its check and no job of it is
    recorded: every job it has was there at the claim and was settled then.  (Such a job may
    be overwritten: a stop that its worker does not confirm makes it indeterminate.) *)
Theorem claim_fences_dispatches w i now w' :
  (forall k e ph, dispatches w !! k = Some (i, e, ph) -> checked_in ph = false) ->
  (forall k j e ph, dispatches w !! k = Some (j, e, ph) -> belongs (db w) j e) ->
  (begin_cleanup (db w) now now i).2 = true ->
  while_cleaning i {| db := (begin_cleanup (db w) now now i).1; sweeps := sweeps w; dispatches := dispatches w |} w' ->
  only_settled_before (db w) (db w') i /\
  forall k e ph, dispatches w' !! k = Some (i, e, ph) -> checked_in ph = false.
Proof.
  intros Hd Ho Hb Hrun. cut (fenced (db w) w' i); [intros [? ? ? ?]; auto|].
  induction Hrun as [|w1 w2 _ IH Hs Hc]; [|by eapply step_fenced].
  unfold begin_cleanup in *. destruct (update_row _ _ _ _) as [d1 b] eqn:Hu. cbn in Hb. subst b.
  apply update_row_true in Hu as (r & Hr & Hg & ->). guards. cbn [fst]. split; cbn; try done.
  - unfold cleaning, find_placement. cbn. by rewrite lookup_insert_eq.
  - match goal with H : has_unsafe_for_workspace _ _ = false |- _ => exact (claim_settled (db w) i H) end.
Qed.

(** ** Running it *)

(** What happens next, in a given run. *)
Inductive Turn :=
| TList (k : nat) (now : DateTime) (offset : Z)
| TSweep (k : nat) (a : Answers)
| TStart (k : nat) (i e : Uuid)
| TDispatch (k : nat) (a : Answers)
| TExecution (e : Uuid) (p : Process).

Definition turn (w : World) (t : Turn) : option World :=
  match t with
  | TList k now offset =>
      match find_expired_for_cleanup (db w) now offset, sweeps w !! k with
      | x :: _, None => Some {| db := db w; sweeps := <[k := (x, Listed)]> (sweeps w); dispatches := dispatches w |}
      | _, _ => None
      end
  | TSweep k a =>
      match sweeps w !! k with
      | Some (x, ph) =>
          Some {| db := (sweep_step a (db w) x ph).1;
                  sweeps := <[k := (x, (sweep_step a (db w) x ph).2)]> (sweeps w); dispatches := dispatches w |}
      | None => None
      end
  | TStart k i e =>
      match dispatches w !! k, processes (db w) !! e with
      | None, Some p =>
          if of_workspace (db w) i p
          then Some {| db := db w; sweeps := sweeps w; dispatches := <[k := (i, e, Started)]> (dispatches w) |}
          else None
      | _, _ => None
      end
  | TDispatch k a =>
      match dispatches w !! k with
      | Some (i, e, ph) =>
          Some {| db := (dispatch_step a (db w) i e ph).1; sweeps := sweeps w;
                  dispatches := <[k := (i, e, (dispatch_step a (db w) i e ph).2)]> (dispatches w) |}
      | None => None
      end
  | TExecution e p =>
      match processes (db w) !! e, jobs (db w) !! e, List.filter (fun kv => bool_decide (kv.2.1.2 = e)) (map_to_list (dispatches w)) with
      | None, None, [] =>
          Some {| db := set_processes (<[e := p]> (processes (db w))) (db w); sweeps := sweeps w; dispatches := dispatches w |}
      | _, _, _ => None
      end
  end.

Lemma one_turn_steps w t w' : turn w t = Some w' -> step w w'.
Proof.
  destruct t as [k now offset|k a|k i e|k a|e p]; cbn.
  - destruct (find_expired_for_cleanup (db w) now offset) as [|x l] eqn:Hx; [done|].
    destruct (sweeps w !! k) eqn:Hk; [done|]. intros [= <-]. apply (step_list _ k now offset); [|done]. rewrite Hx. left.
  - destruct (sweeps w !! k) as [[x ph]|] eqn:Hk; [|done]. intros [= <-]. by apply (step_sweep _ k a x ph).
  - destruct (dispatches w !! k) as [u|] eqn:Hk, (processes (db w) !! e) as [q|] eqn:Hp; try done.
    destruct (of_workspace (db w) i q) eqn:Hw; [|done]. intros [= <-]. apply step_start; [done|done|].
    intros q0 Hq. by simplify_eq.
  - destruct (dispatches w !! k) as [[[i e] ph]|] eqn:Hk; [|done]. intros [= <-]. by apply (step_dispatch _ k a i e ph).
  - destruct (processes (db w) !! e) eqn:Hp, (jobs (db w) !! e) eqn:Hj; try done.
    destruct (List.filter _ _) eqn:Hl; [|done]. intros [= <-]. apply step_execution; [done|done|].
    intros k i ph Hk. apply elem_of_map_to_list, list_elem_of_In in Hk.
    eapply in_nil. rewrite <-Hl. apply filter_In. split; [exact Hk|]. by apply bool_decide_eq_true.
Qed.

Fixpoint turns (w : World) (l : list Turn) : option World :=
  match l with
  | [] => Some w
  | t :: l => match turn w t with Some w => turns w l | None => None end
  end.

Lemma turns_run w l w' : turns w l = Some w' -> rtc step w w'.
Proof.
  revert w. induction l as [|t l IH]; intros w; cbn; [by intros [= ->]|].
  destruct (turn w t) as [w1|] eqn:Ht; [|done]. intros Hl. eapply rtc_l; [by apply (one_turn_steps w t)|by apply IH].
Qed.

Definition is_cleaning d i : bool := bool_decide (placement_state <$> find_placement d i = Some Cleaning).

(** A run that checks that [i] stays in cleaning. *)
Fixpoint cleaning_turns i (w : World) (l : list Turn) : option World :=
  match l with
  | [] => Some w
  | t :: l =>
      match turn w t with
      | Some w1 => if is_cleaning (db w1) i then cleaning_turns i w1 l else None
      | None => None
      end
  end.

Lemma cleaning_turns_run i w0 w l w' :
  while_cleaning i w0 w -> cleaning_turns i w l = Some w' -> while_cleaning i w0 w'.
Proof.
  revert w. induction l as [|t l IH]; intros w Hw; cbn; [by intros [= <-]|].
  destruct (turn w t) as [w1|] eqn:Ht; [|done]. destruct (is_cleaning (db w1) i) eqn:Hc; [|done].
  apply IH. eapply cleaning_next; [done|by eapply one_turn_steps|]. by apply bool_decide_eq_true in Hc.
Qed.

End Machine.

(** ** Concrete runs *)

Module SampleReclaim.
Import SampleWorkspaces.

Definition start : World :=
  {| db := after placed; sweeps := ∅; dispatches := ∅ |}.

Definition at_day (n : Z) : Answers :=
  {| clock := n * day; is_clean := true; removed := true; same_request := true |}.

Definition text_of (u : Uuid) : string := "worker".

Definition next_execution : Process :=
  {| pr_session := 2%N; pr_run_reason := CodingAgent; pr_action := None; pr_status := ProcessRow.Running;
     pr_created_at := 5 * day; pr_completed_at := None |}.

(** The sweep up to its claim. *)
Definition to_claim : list Turn :=
  [TList 0 (5 * day) 0; TSweep 0 (at_day 5); TSweep 0 (at_day 5); TSweep 0 (at_day 5)].
Definition arrives : list Turn := [TExecution 4%N next_execution; TStart 0 1%N 4%N].

(** The sweep alone removes the worktree and releases the claim. *)
Example sweep_alone :
  (fun w => (state_of (db w), worktree_deleted <$> find_by_id (db w) 1%N, (snd <$> sweeps w !! 0%nat))) <$>
    turns text_of true start (to_claim ++ repeat (TSweep 0 (at_day 5)) 4)
  = Some (Some Ready, Some true, Some Finished).
Proof. vm_compute. reflexivity. Qed.

(** An execution that arrives before the claim and asks after it. *)
Definition arrived : World := default start (turns text_of true start (to_claim ++ arrives)).
Definition claimed : World :=
  {| db := (begin_cleanup (db arrived) (5 * day) (5 * day) 1%N).1; sweeps := sweeps arrived;
     dispatches := dispatches arrived |}.
Definition asked : World := default start (cleaning_turns text_of true 1%N claimed [TDispatch 0 (at_day 5)]).

Example fence_witness :
  dispatches asked !! 0%nat = Some (1%N, 4%N, Refused) /\ only_settled_before (db arrived) (db asked) 1%N /\
  forall k e ph, dispatches asked !! k = Some (1%N, e, ph) -> checked_in ph = false.
Proof.
  split; [vm_compute; reflexivity|].
  assert (dispatches arrived = {[ 0%nat := (1%N, 4%N, Started) ]}) as Hd by (vm_compute; reflexivity).
  apply (claim_fences_dispatches text_of julianday true arrived 1%N (5 * day) asked).
  - intros k e ph. rewrite Hd, lookup_singleton_Some. by intros [_ [= _ <-]].
  - intros k j e ph. rewrite Hd, lookup_singleton_Some. intros [_ [= <- <- _]] q Hq.
    assert (processes (db arrived) !! 4%N = Some next_execution) as Hp by (vm_compute; reflexivity).
    rewrite Hp in Hq. injection Hq as <-. vm_compute. reflexivity.
  - vm_compute. reflexivity.
  - eapply (cleaning_turns_run _ _ _ _ _ claimed [TDispatch 0 (at_day 5)]); [apply cleaning_here|].
    vm_compute. reflexivity.
Defined.

(** A dispatch that has read the placement before the claim records its job after it: the
    worktree is removed under an open job, which its worker may be running. *)
Example dispatch_slips_through :
  (fun w => (state_of (db w), has_unsafe_for_workspace (db w) 1%N, snd <$> sweeps w !! 0%nat, snd <$> dispatches w !! 0%nat)) <$>
    turns text_of true start
      (to_claim ++ arrives ++
       [TDispatch 0 (at_day 5); TDispatch 0 (at_day 5); TSweep 0 (at_day 5); TDispatch 0 (at_day 5); TSweep 0 (at_day 5)])
  = Some (Some Cleaning, true, Some Removed, Some Recorded).
Proof. vm_compute. reflexivity. Qed.

End SampleReclaim.
End Reclaim.
