(* ===== verification/Archiving.v ===== *)
(** * Automatic archiving

    What leads to the archive of a workspace without a user's command: the pull requests of
    crates/db/src/models/pull_request.rs, their monitor with the check of remote intents
    (crates/services/src/services/pr_monitor.rs), the activity that delays an archive
    (remote_sync.rs), and what the container service does after it (container.rs), over the
    tables of [Workspaces]. *)
From S2P Require Import Prelude Text WorkerNode WorkerJobRow Workspaces WorkspaceFacts.
Import Workspaces.

Module Archiving.

(** ** Pull requests *)

(* crates/db/src/models/merge.rs:12-17 MergeStatus *)
Inductive MergeStatus := Open | Merged | Closed | Unknown.
#[global] Instance merge_status_eq_dec : EqDecision MergeStatus.
Proof. solve_decision. Defined.

(** An instant as text, written by the program or by SQLite's [CURRENT_TIMESTAMP].  The two
    agree on the day, after which the one goes on with a letter and the other, which has
    only seconds, with a space, the smaller character. *)
Inductive Stamp := Chrono (t : DateTime) | Sqlite (t : DateTime).
Definition nanos_per_day : Z := 86400 * nanos_per_second.
Definition day_of (t : DateTime) : Z := t / nanos_per_day.
Definition stamp_lt (a b : Stamp) : bool :=
  match a, b with
  | Chrono x, Chrono y => x <? y
  | Sqlite x, Sqlite y => x / nanos_per_second <? y / nanos_per_second
  | Sqlite x, Chrono y => day_of x <=? day_of y
  | Chrono x, Sqlite y => day_of x <? day_of y
  end.

(* crates/db/src/models/pull_request.rs:10-23 PullRequest *)
Record PullRequest := {
  pr_id : string;
  workspace_id : option Uuid;
  repo_id : option Uuid;
  pr_url : string;
  pr_number : Z;
  pr_status : MergeStatus;
  target_branch_name : string;
  merged_at : option DateTime;
  merge_commit_sha : option string;
  pr_created_at : DateTime;
  pr_updated_at : Stamp;
  synced_at : option Stamp;
}.

Abbreviation Prs := (gmap string PullRequest).

Definition rows (t : Prs) : list PullRequest := snd <$> map_to_list t.

(* crates/db/src/models/pull_request.rs:129-154 PullRequest::find_by_url *)
Definition find_by_url (t : Prs) (url : string) : option PullRequest :=
  find (fun pr => String.eqb (pr_url pr) url) (rows t).

(** A URL that is known keeps its row; what it lacks of a workspace and a repository is
    filled in. *)
(* crates/db/src/models/pull_request.rs:26-58 PullRequest::create *)
Definition create_pr (t : Prs) (new_id : string) (now : DateTime) (workspace repo : option Uuid)
    (url : string) (number : Z) (target : string) : Prs :=
  match find_by_url t url with
  | Some pr =>
      <[pr_id pr := {| pr_id := pr_id pr;
                       workspace_id := match workspace_id pr with Some w => Some w | None => workspace end;
                       repo_id := match repo_id pr with Some r => Some r | None => repo end;
                       pr_url := pr_url pr; pr_number := pr_number pr; pr_status := pr_status pr;
                       target_branch_name := target_branch_name pr; merged_at := merged_at pr;
                       merge_commit_sha := merge_commit_sha pr; pr_created_at := pr_created_at pr;
                       pr_updated_at := Sqlite now; synced_at := synced_at pr |}]> t
  | None =>
      <[new_id := {| pr_id := new_id; workspace_id := workspace; repo_id := repo; pr_url := url;
                     pr_number := number; pr_status := Open; target_branch_name := target;
                     merged_at := None; merge_commit_sha := None; pr_created_at := now;
                     pr_updated_at := Sqlite now; synced_at := None |}]> t
  end.

Definition is_open (pr : PullRequest) : bool := bool_decide (pr_status pr = Open).

(* crates/db/src/models/pull_request.rs:79-100 PullRequest::get_open *)
Definition get_open (t : Prs) : list PullRequest := List.filter is_open (rows t).

(* crates/db/src/models/pull_request.rs:102-127 PullRequest::update_status *)
Definition update_status (t : Prs) (now : DateTime) (url : string) (s : MergeStatus)
    (merged : option DateTime) (sha : option string) : Prs :=
  (fun pr =>
     if String.eqb (pr_url pr) url then
       {| pr_id := pr_id pr; workspace_id := workspace_id pr; repo_id := repo_id pr; pr_url := pr_url pr;
          pr_number := pr_number pr; pr_status := s; target_branch_name := target_branch_name pr;
          merged_at := merged; merge_commit_sha := sha; pr_created_at := pr_created_at pr;
          pr_updated_at := Chrono now; synced_at := None |}
     else pr) <$> t.

Definition of_ws (i : Uuid) (pr : PullRequest) : bool := bool_decide (workspace_id pr = Some i).

(* crates/db/src/models/pull_request.rs:214-225 PullRequest::count_open_for_workspace *)
Definition count_open_for_workspace (t : Prs) (i : Uuid) : nat :=
  length (List.filter (fun pr => of_ws i pr && is_open pr) (rows t)).

Definition is_pending_sync (pr : PullRequest) : bool :=
  match synced_at pr with None => true | Some t => stamp_lt t (pr_updated_at pr) end.

(* crates/db/src/models/pull_request.rs:292-313 PullRequest::get_pending_sync *)
Definition get_pending_sync (t : Prs) : list PullRequest := List.filter is_pending_sync (rows t).

(* crates/db/src/models/pull_request.rs:315-325 PullRequest::mark_synced *)
Definition mark_synced (t : Prs) (now : DateTime) (i : string) : Prs :=
  alter (fun pr =>
     {| pr_id := pr_id pr; workspace_id := workspace_id pr; repo_id := repo_id pr; pr_url := pr_url pr;
        pr_number := pr_number pr; pr_status := pr_status pr; target_branch_name := target_branch_name pr;
        merged_at := merged_at pr; merge_commit_sha := merge_commit_sha pr; pr_created_at := pr_created_at pr;
        pr_updated_at := pr_updated_at pr; synced_at := Some (Chrono now) |}) i t.

(* crates/db/src/models/pull_request.rs:344-349 PullRequest::delete *)
Definition delete_pr (t : Prs) (i : string) : Prs := delete i t.

(** What the statements on workspaces read of the table. *)
Definition view (t : Prs) : list (Uuid * bool) :=
  omap (fun pr => (fun w => (w, is_open pr)) <$> workspace_id pr) (rows t).

(** ** Synchronisation with the remote server *)

(* crates/services/src/services/pr_monitor.rs:341-346 PrMonitorService::sync_pending_to_remote *)
Record Update := {
  url : string;
  status : MergeStatus;
  new_merged_at : option DateTime;
  new_sha : option string;
}.

Inductive Request := UpdatePullRequest (u : Update) | UpsertPullRequest (w : Uuid) (number : Z) (target : string) (u : Update).

(** The remote server's answer to an update. *)
Inductive Reply := Updated | NotFound | NotAuthenticated | Refused.

Definition update_of (pr : PullRequest) : Update :=
  {| url := pr_url pr; status := pr_status pr; new_merged_at := merged_at pr; new_sha := merge_commit_sha pr |}.

(** One pull request of the list that was read; [None]: the sweep stops. *)
(* crates/services/src/services/pr_monitor.rs:333-390 PrMonitorService::sync_pending_to_remote *)
Definition sync_one (t : Prs) (now : DateTime) (pr : PullRequest) (reply : Reply) : option Prs * list Request :=
  match pr_status pr with
  | Unknown => (Some t, [])
  | _ =>
      let sent := UpdatePullRequest (update_of pr) in
      match reply with
      | Updated => (Some (mark_synced t now (pr_id pr)), [sent])
      | NotFound =>
          match workspace_id pr with
          | Some w => (Some (mark_synced t now (pr_id pr)), [sent; UpsertPullRequest w (pr_number pr) (target_branch_name pr) (update_of pr)])
          | None => (Some (delete_pr t (pr_id pr)), [sent])
          end
      | NotAuthenticated => (None, [sent])
      | Refused => (Some t, [sent])
      end
  end.

(** The list, with what other tasks do to the table before each record of an answer. *)
(* crates/services/src/services/pr_monitor.rs:314-391 PrMonitorService::sync_pending_to_remote *)
Fixpoint sync_pending (t : Prs) (now : DateTime) (l : list (PullRequest * Reply)) (between : nat -> Prs -> Prs)
    : Prs * list Request :=
  match l with
  | [] => (t, [])
  | (pr, reply) :: l =>
      match sync_one (between O t) now pr reply with
      | (None, sent) => (between O t, sent)
      | (Some t, sent) =>
          let '(t, more) := sync_pending t now l (fun n => between (S n)) in (t, sent ++ more)
      end
  end.

Section Service.
Context {Value : Type} (julianday : DateTime -> Z).
Implicit Types (d : Db Value) (i : Uuid) (now : DateTime).

(** ** After an archive *)

(** What the container service is asked to do besides the tables. *)
Inductive Effect := RevokePreviews i | StopExecution (e : Uuid) | RunArchiveScript i.

(* crates/services/src/services/container.rs:637-640 ARCHIVE_STOPPED_RUN_REASONS *)
Definition ARCHIVE_STOPPED_RUN_REASONS : list ExecutionProcessRunReason := [DevServer; BackgroundHelper].

Definition is_running_process (p : Process) : bool := bool_decide (Workspaces.pr_status p = ProcessRow.Running).

(* crates/db/src/models/execution_process.rs:400-433 ExecutionProcess::find_running_by_workspace_and_run_reason *)
Definition find_running_by_workspace_and_run_reason d i (r : ExecutionProcessRunReason) : list (Uuid * Process) :=
  order_by (fun kp => - Workspaces.pr_created_at kp.2)
    (List.filter (fun kp => of_workspace d i kp.2 && is_running_process kp.2 && bool_decide (pr_run_reason kp.2 = r))
       (map_to_list (processes d))).

(* crates/db/src/models/execution_process.rs:380-396 ExecutionProcess::has_running_non_persistent_processes_for_workspace *)
Definition has_running_non_persistent_processes_for_workspace d i : bool :=
  existsb (fun p => is_running_process p && negb (is_persistent (pr_run_reason p))) (executions d i).

(** The script runs if a repository has one and the directory can be made. *)
(* crates/services/src/services/container.rs:1552-1599 cleanup_archived_workspace *)
Definition cleanup_archived_workspace d i : list Effect :=
  RevokePreviews i
  :: concat ((fun r => (fun kp => StopExecution kp.1) <$> find_running_by_workspace_and_run_reason d i r)
               <$> ARCHIVE_STOPPED_RUN_REASONS)
  ++ (if has_running_non_persistent_processes_for_workspace d i then [] else [RunArchiveScript i]).

(* crates/services/src/services/container.rs:1517-1522 archive_workspace *)
Definition archive_workspace d now i : Db Value * list Effect :=
  let d := set_archived d now i true in (d, cleanup_archived_workspace d i).

(* crates/services/src/services/container.rs:1533-1549 archive_workspace_with_remote_intents *)
Definition archive_workspace_with_remote_intents d now i (allow : bool) : Db Value * bool * list Effect :=
  let '(d, archived) := try_archive_with_remote_intents d now i allow in
  if archived then (d, true, cleanup_archived_workspace d i) else (d, false, []).

(* crates/services/src/services/container.rs:1525-1531 archive_workspace_automatically *)
Definition archive_workspace_automatically d now i : Db Value * bool * list Effect :=
  archive_workspace_with_remote_intents d now i true.

(** ** Activity *)

(* crates/services/src/services/remote_sync.rs:16-31 activity_archive_state *)
Definition activity_archive_state d i (archived_ : bool) : option bool :=
  if archived_ then Some true
  else if existsb (fun kn => negb (acknowledged kn.2)) (intents_of d i) then None else Some false.

(** Whether the remote server is told that the workspace is active. *)
(* crates/services/src/services/remote_sync.rs:35-54 activate_workspace *)
Definition activate_workspace d now i (client : bool) : Db Value * bool :=
  let d := set_archived d now i false in
  (d, bool_decide (is_Some (activity_archive_state d i false)) && client).

(** ** The monitor *)

(* crates/services/src/services/pr_monitor.rs:394-396 is_remote_archive_rule *)
Definition is_remote_archive_rule (r : string) : bool :=
  starts_with "issue_" r || starts_with "remote_" r || String.eqb r "legacy_remote_archive".

(** The archive the remote server asks for now. *)
Record RemoteIntent := { ri_trigger_key : string; ri_rule : string; ri_triggered_at : DateTime }.

(** The withdrawal of the intents the remote server no longer has; the statements that fail
    are those of [fails], and [between] is what other tasks do before each. *)
(* crates/services/src/services/pr_monitor.rs:144-162 PrMonitorService::start *)
Fixpoint withdraw (between : nat -> Db Value -> Db Value) (fails : nat -> bool) (current_key : option string)
    i (events : list (string * ArchiveIntent)) d (allow : bool) : Db Value * bool :=
  match events with
  | [] => (d, allow)
  | (key, _) :: events =>
      let '(d, allow) :=
        if decide (current_key = Some key) then (d, allow)
        else let d := between O d in
             if fails O then (d, false) else (acknowledge_archive_intent d i key, allow) in
      withdraw (fun n => between (S n)) (fun n => fails (S n)) current_key i events d allow
  end.

(** What the monitor reads of one workspace, and whether remote intents may archive it.
    [remote] is the server's answer, [None] without a client. *)
(* crates/services/src/services/pr_monitor.rs:104-168 PrMonitorService::start *)
Definition validate_intents (between : nat -> Db Value -> Db Value) (fails : nat -> bool)
    (remote : option (result (option RemoteIntent) unit)) i d : Db Value * bool :=
  let d := between O d in
  let remote_events :=
    List.filter (fun kn => negb (acknowledged kn.2) && is_remote_archive_rule (rule kn.2)) (archive_provenance d i) in
  match remote_events, remote with
  | _ :: _, Some (Ok current) =>
      let '(d, allow) :=
        match current with
        | Some event =>
            let d := between 1%nat d in
            if fails O then (d, false)
            else let '(d, r) := record_archive_intent julianday d i (ri_trigger_key event) (ri_rule event)
                                  (ri_triggered_at event) in (d, is_ok r)
        | None => (d, true)
        end in
      if allow then
        withdraw (fun n => between (2 + n)%nat) (fun n => fails (S n)) (ri_trigger_key <$> current) i remote_events d true
      else (d, false)
  | _, _ => (d, false)
  end.

(* crates/services/src/services/pr_monitor.rs:101-175 PrMonitorService::start *)
Definition deferred_archive (between : nat -> Db Value -> Db Value) (fails : nat -> bool) (last : Db Value -> Db Value)
    (remote : option (result (option RemoteIntent) unit)) now i d : Db Value * bool * list Effect :=
  let '(d, allow) := validate_intents between fails remote i d in
  archive_workspace_with_remote_intents (last d) now i allow.

(** ** The status of a pull request *)

Record State := { db : Db Value; prs : Prs }.

Definition with_prs (t : Prs) (s : State) : State :=
  {| db := {| workspaces := workspaces (db s); intents := intents (db s); overrides := overrides (db s);
              workers := workers (db s); sessions := sessions (db s); processes := processes (db s);
              jobs := jobs (db s); pull_requests := view t; wakeups := wakeups (db s);
              open_deliveries := open_deliveries (db s) |};
     prs := t |}.

(* crates/services/src/services/pr_monitor.rs:259-311 PrMonitorService::try_archive_workspace *)
Definition try_archive_workspace (s : State) now i (pr_url_ : string) (merged : DateTime) : State * list Effect :=
  match find_by_id (db s) i with
  | None => (s, [])
  | Some _ =>
      if (count_open_for_workspace (prs s) i =? 0)%nat then
        let '(d, r) := record_archive_intent julianday (db s) i ("pr:" +:+ pr_url_) "pr_merged" merged in
        if is_ok r then
          let '(d, _, effects) := archive_workspace_automatically d now i in
          ({| db := d; prs := prs s |}, effects)
        else (s, [])
      else (s, [])
  end.

(** What the host says of a pull request. *)
Record HostStatus := { hs_status : MergeStatus; hs_merged_at : option DateTime; hs_sha : option string }.

(* crates/services/src/services/pr_monitor.rs:210-256 PrMonitorService::check_open_pr *)
Definition check_open_pr (s : State) now (pr : PullRequest) (host : HostStatus) : State * list Effect :=
  if decide (hs_status host = Open) then (s, [])
  else
    let merged := if decide (hs_status host = Merged) then Some (default now (hs_merged_at host)) else None in
    let s := with_prs (update_status (prs s) now (pr_url pr) (hs_status host) merged (hs_sha host)) s in
    match merged, workspace_id pr with
    | Some at_, Some i => try_archive_workspace s now i (pr_url pr) at_
    | _, _ => (s, [])
    end.

End Service.
End Archiving.
