(* ===== verification/ArchivingFacts.v ===== *)
(** * Facts about automatic archiving

    A remote intent the server has withdrawn archives nothing by the monitor
    ([withdrawn_intent_never_archives]), whatever other tasks do meanwhile; an archive that
    was put off happens once the workspace is quiet ([deferred_archive_happens]); what the
    remote server was told of a pull request is what the table has.  [SampleArchiving] has
    the concrete runs. *)
From S2P Require Import Prelude Text WorkerNode WorkerJobRow Workspaces WorkspaceFacts Archiving.
Import Workspaces Archiving.

Section Monitor.
Context {Value : Type} (julianday : DateTime -> Z).
Implicit Types (d : Db Value) (i : Uuid) (now : DateTime).

(** ** What becomes of an intent *)

(** The intent is still there, with the same rule, and open only if it was. *)
Definition kept d d' i : Prop :=
  forall k n, intents d !! (i, k) = Some n ->
  exists n', intents d' !! (i, k) = Some n' /\ rule n' = rule n /\ triggered_at n' = triggered_at n /\
             (acknowledged n = true -> acknowledged n' = true).

#[local] Instance kept_refl i : Reflexive (fun d d' => kept d d' i).
Proof. intros d k n. eauto 10. Qed.

Lemma kept_trans d1 d2 d3 i : kept d1 d2 i -> kept d2 d3 i -> kept d1 d3 i.
Proof.
  intros H12 H23 k n Hn. destruct (H12 k n Hn) as (n2 & H2 & ? & ? & ?).
  destruct (H23 k n2 H2) as (n3 & H3 & ? & ? & ?). exists n3. split_and!; try done; try congruence; auto.
Qed.

Lemma same_kept d d' i : intents d' = intents d -> kept d d' i.
Proof. intros He k n Hn. rewrite He. eauto 10. Qed.

Lemma acknowledge_kept d i j key : kept d (acknowledge_archive_intent d j key) i.
Proof.
  intros k n Hn. unfold acknowledge_archive_intent. cbn [intents set_intents].
  destruct (decide ((j, key) = (i, k))) as [[= -> ->]|Hne].
  - rewrite lookup_alter_eq, Hn. eexists. split; [done|]. by cbn.
  - rewrite lookup_alter_ne by done. eauto 10.
Qed.

Lemma record_kept d i j key r t : kept d (record_archive_intent julianday d j key r t).1 i.
Proof.
  intros k n Hn. unfold record_archive_intent. destruct (intents d !! (j, key)) eqn:Hk; [eauto 10|].
  destruct (workspaces d !! j); [|eauto 10]. cbn [fst intents set_intents].
  rewrite lookup_insert_ne by congruence. eauto 10.
Qed.

Lemma try_archive_kept d now i j allow : kept d (try_archive_with_remote_intents d now j allow).1 i.
Proof.
  pose proof (try_archive_cases julianday d now j allow) as Hc.
  destruct (try_archive_with_remote_intents d now j allow) as [d' []]; [|destruct Hc as [-> _]; by apply same_kept].
  destruct Hc as (r & key & m & _ & Hm & _ & _ & ->). intros k n Hn. cbn [fst archived_by intents set_intents].
  unfold archived_by. cbn [intents set_intents]. destruct (decide ((j, key) = (i, k))) as [[= -> ->]|Hne].
  - simplify_eq. rewrite lookup_insert_eq. eexists. split; [done|]. by cbn.
  - rewrite lookup_insert_ne by done. eauto 10.
Qed.

Lemma update_kept d now i j a p n : kept d (update d now j a p n).1 i.
Proof.
  intros k m Hm. destruct a as [[]|].
  - unfold update, update_ws.
    rewrite (bool_decide_false (Some true = Some false)), (bool_decide_true (Some true = Some true)) by done.
    cbn -[map_imap update_row].
    match goal with |- context [update_row d j ?g ?f] => destruct (update_row_archive d j g f) as [Hi _] end.
    rewrite map_lookup_imap, Hi, Hm. cbn. eexists. split; [done|]. by destruct (bool_decide _ && _ && _ && _).
  - destruct (workspaces d !! j) as [r|] eqn:Hr.
    2:{ unfold update. rewrite Hr. eauto 10. }
    destruct (update_unarchives d now j p n (mk_is_Some _ _ Hr)) as [_ Hi]. rewrite Hi, Hm.
    eexists. split; [done|]. by case_bool_decide.
  - destruct (update_archive d now j None p n) as [Hi _]; [done|done|]. rewrite Hi. eauto 10.
Qed.

Lemma run_kept d (o : Op (Value := Value)) i : o <> Delete i -> kept d (run julianday d o) i.
Proof.
  intros Hno. destruct (writes_archive o) eqn:Hw; [|by apply same_kept, run_archive].
  destruct o; try done; cbn [run].
  - apply record_kept.
  - apply acknowledge_kept.
  - apply try_archive_kept.
  - apply update_kept.
  - intros k n Hn. unfold delete_workspace. destruct (workspaces d !! i0); [|eauto 10]. cbn [fst intents].
    exists n. split_and!; try done. apply map_lookup_filter_Some. split; [done|]. cbn. congruence.
Qed.

(** What other tasks do: operations, none of which deletes the workspace. *)
Definition harmless i (f : Db Value -> Db Value) : Prop :=
  forall d, exists ops, Forall (fun o => o <> Delete i) ops /\ f d = foldl (run julianday) d ops.

Lemma harmless_kept i f d : harmless i f -> kept d (f d) i.
Proof.
  intros Hf. destruct (Hf d) as (ops & Ho & ->). clear Hf. revert d.
  induction Ho as [|o ops Ho _ IH]; intros d; [by apply same_kept|]. cbn.
  eapply kept_trans; [by apply run_kept|apply IH].
Qed.

(** ** The monitor *)

Definition settled d i k : Prop := exists n, intents d !! (i, k) = Some n /\ acknowledged n = true.
Definition known d i k : Prop := is_Some (intents d !! (i, k)).

Lemma kept_settled d d' i k : kept d d' i -> settled d i k -> settled d' i k.
Proof. intros Hk (n & Hn & Ha). destruct (Hk k n Hn) as (n' & ? & _ & _ & ?). exists n'. auto. Qed.

Lemma kept_known d d' i k : kept d d' i -> known d i k -> known d' i k.
Proof. intros Hk [n Hn]. destruct (Hk k n Hn) as (n' & ? & _). by exists n'. Qed.

Lemma acknowledge_settles d i k : known d i k -> settled (acknowledge_archive_intent d i k) i k.
Proof.
  intros [n Hn]. exists (acknowledge n). unfold acknowledge_archive_intent. cbn [intents set_intents].
  by rewrite lookup_alter_eq, Hn.
Qed.

(** Once one withdrawal fails, remote intents are not allowed. *)
Lemma withdraw_false between fails ck i events d :
  (withdraw between fails ck i events d false).2 = false.
Proof.
  revert between fails d. induction events as [|[k n] events IH]; intros between fails d; [done|]. cbn.
  destruct (decide (ck = Some k)); [apply IH|]. destruct (fails O); apply IH.
Qed.

Lemma withdraw_settles between fails ck i events d :
  (forall n, harmless i (between n)) -> (forall k n, (k, n) ∈ events -> known d i k) ->
  (withdraw between fails ck i events d true).2 = true ->
  kept d (withdraw between fails ck i events d true).1 i /\
  forall k n, (k, n) ∈ events -> ck <> Some k -> settled (withdraw between fails ck i events d true).1 i k.
Proof.
  revert between fails d. induction events as [|[k m] events IH]; intros between fails d Hb Hk.
  - intros _. split; [by apply same_kept|]. intros k n Hin. by apply not_elem_of_nil in Hin.
  - cbn. assert (forall n, harmless i (between (S n))) as Hb' by auto.
    destruct (decide (ck = Some k)) as [->|Hne].
    + intros Hw. destruct (IH (fun n => between (S n)) (fun n => fails (S n)) d) as [Hkept Hs]; try done.
      { intros k' n' Hin. apply (Hk k' n'). set_solver. }
      split; [done|]. intros k' n' [[= -> ->]|Hin]%elem_of_cons Hck; [done|eauto].
    + destruct (fails O); [intros Hw; by rewrite withdraw_false in Hw|]. intros Hw.
      set (d1 := acknowledge_archive_intent (between O d) i k) in *.
      assert (kept d d1 i) as Hk1 by (eapply kept_trans; [by apply harmless_kept|apply acknowledge_kept]).
      destruct (IH (fun n => between (S n)) (fun n => fails (S n)) d1) as [Hkept Hs]; try done.
      { intros k' n' Hin. apply (kept_known d); [done|]. apply (Hk k' n'). set_solver. }
      split; [by eapply kept_trans|]. intros k' n' [[= -> ->]|Hin]%elem_of_cons Hck; [|eauto].
      apply (kept_settled d1); [done|]. apply acknowledge_settles, (kept_known d); [by apply harmless_kept|].
      apply (Hk k m). set_solver.
Qed.

Definition open_remote d i (kn : string * ArchiveIntent) : Prop :=
  intents d !! (i, kn.1) = Some kn.2 /\ acknowledged kn.2 = false /\ is_remote_archive_rule (rule kn.2) = true.

Definition remote_events d i : list (string * ArchiveIntent) :=
  List.filter (fun kn => negb (acknowledged kn.2) && is_remote_archive_rule (rule kn.2)) (archive_provenance d i).

Lemma elem_remote_events d i kn : kn ∈ remote_events d i <-> open_remote d i kn.
Proof.
  destruct kn as [k n]. unfold remote_events, open_remote, archive_provenance.
  rewrite list_elem_of_In, filter_In, <-list_elem_of_In, elem_order_by, elem_intents_of, andb_true_iff, negb_true_iff.
  by cbn.
Qed.

(** If remote intents are allowed, the server was asked, and those it no longer has are settled. *)
Lemma validate_spec between fails remote i d :
  (forall n, harmless i (between n)) ->
  (validate_intents julianday between fails remote i d).2 = true ->
  exists current, remote = Some (Ok current) /\
  forall kn, open_remote (between O d) i kn -> ri_trigger_key <$> current <> Some kn.1 ->
    settled (validate_intents julianday between fails remote i d).1 i kn.1.
Proof.
  intros Hb. unfold validate_intents. fold (remote_events (between O d) i).
  set (d0 := between O d). destruct (remote_events d0 i) as [|e es] eqn:He; [done|].
  destruct remote as [[current|]|]; try done. rewrite <-He.
  set (step := match current with Some _ => _ | None => _ end).
  assert (kept d0 step.1 i) as Hstep.
  { unfold step. destruct current as [event|]; [|by apply same_kept].
    destruct (fails O); [by apply harmless_kept|].
    pose proof (record_kept (between 1%nat d0) i i (ri_trigger_key event) (ri_rule event) (ri_triggered_at event)) as Hr.
    destruct (record_archive_intent _ _ _ _ _ _) as [d2 r]. eapply kept_trans; [by apply harmless_kept|exact Hr]. }
  destruct step as [d1 []]; [|done]. intros Hw. exists current. split; [done|]. intros [k n] Ho Hck. cbn in *.
  eapply withdraw_settles; [auto| |done|by apply elem_remote_events|done].
  intros k' n' Hin%elem_remote_events. apply (kept_known d0); [done|]. destruct Hin as [Hn _]. by exists n'.
Qed.

(** C17: A deferred archive, the pass of the monitor over the workspaces with open archive
    intents, never credits a withdrawn intent.  Whatever other tasks do between its
    statements (operations on the same tables, none of which deletes the workspace) and
    whichever of its own statements fail, an archive it makes is credited to an intent that
    is open at that statement; that intent's rule is local unless the remote server
    answered in this pass, and then it is not a remote intent that was open when the
    monitor read and that the server no longer has.  This is about the deferred pass only:
    the archive the monitor makes on seeing an open pull request merged ([check_open_pr],
    through [try_archive_workspace]) admits remote intents without asking the server. *)
Theorem withdrawn_intent_never_archives between fails last remote now i d d' effects :
  (forall n, harmless i (between n)) -> harmless i last ->
  deferred_archive julianday between fails last remote now i d = (d', true, effects) ->
  exists dl r key n, d' = archived_by dl now i r key n /\ intents dl !! (i, key) = Some n /\ acknowledged n = false /\
    (is_remote_archive_rule (rule n) = true ->
     exists current, remote = Some (Ok current) /\
       forall m, open_remote (between O d) i (key, m) -> ri_trigger_key <$> current = Some key).
Proof.
  intros Hb Hl. unfold deferred_archive, archive_workspace_with_remote_intents.
  pose proof (validate_spec between fails remote i d Hb) as Hv.
  destruct (validate_intents julianday between fails remote i d) as [d1 allow]. cbn in Hv.
  pose proof (try_archive_cases julianday (last d1) now i allow) as Hc.
  destruct (try_archive_with_remote_intents (last d1) now i allow) as [d2 []]; [|done]. intros [= <- _].
  destruct Hc as (r & key & n & _ & Hn & He & _ & ->). exists (last d1), r, key, n.
  unfold eligible in He. guards. split_and!; try done. intros Hrem.
  destruct allow.
  2:{ change (is_remote_rule (rule n) = true) in Hrem. by rewrite Hrem in *. }
  destruct (Hv eq_refl) as (current & -> & Hs). exists current. split; [done|]. intros m Hm.
  destruct (decide (ri_trigger_key <$> current = Some key)) as [|Hne]; [done|].
  pose proof (kept_settled _ _ _ _ (harmless_kept i last d1 Hl) (Hs _ Hm Hne)) as (n' & Hn' & Ha').
  cbn in Hn'. congruence.
Qed.

(** ** An archive that was put off *)

(** Only the intents differ, and not the one of [key]. *)
Definition others_intents i key d d' : Prop :=
  exists t, d' = set_intents t d /\ t !! (i, key) = intents d !! (i, key).

Lemma others_intents_refl i key d : others_intents i key d d.
Proof. exists (intents d). split; [by destruct d|done]. Qed.

Lemma others_intents_trans i key d1 d2 d3 :
  others_intents i key d1 d2 -> others_intents i key d2 d3 -> others_intents i key d1 d3.
Proof. intros (t1 & -> & H1) (t2 & -> & H2). exists t2. split; [done|]. by rewrite H2. Qed.

Lemma withdraw_others fails ck i key events d allow :
  (forall k n, (k, n) ∈ events -> k <> key) ->
  others_intents i key d (withdraw (fun _ d => d) fails ck i events d allow).1.
Proof.
  revert fails d allow. induction events as [|[k n] events IH]; intros fails d allow Hk; [apply others_intents_refl|].
  cbn. assert (forall k' n', (k', n') ∈ events -> k' <> key) as Hk' by (intros k' n' Hin; apply (Hk k' n'); set_solver).
  destruct (decide (ck = Some k)); [by apply IH|]. destruct (fails O); [by apply IH|].
  eapply others_intents_trans; [|by apply IH]. eexists. split; [done|].
  rewrite lookup_alter_ne; [done|]. intros [= ->]. apply (Hk key n); [set_solver|done].
Qed.

Lemma validate_others fails remote i key n d :
  intents d !! (i, key) = Some n -> is_remote_archive_rule (rule n) = false ->
  others_intents i key d (validate_intents julianday (fun _ d => d) fails remote i d).1.
Proof.
  intros Hn Hr. unfold validate_intents. fold (remote_events d i).
  assert (forall k m, (k, m) ∈ remote_events d i -> k <> key) as Hk.
  { intros k m (Hm & _ & Hrm)%elem_remote_events ->. cbn in *. congruence. }
  destruct (remote_events d i) as [|e es]; [apply others_intents_refl|].
  destruct remote as [[current|]|]; [|apply others_intents_refl..].
  set (step := match current with Some _ => _ | None => _ end).
  assert (others_intents i key d step.1) as Hstep.
  { unfold step. destruct current as [event|]; [|apply others_intents_refl].
    destruct (fails O); [apply others_intents_refl|]. unfold record_archive_intent.
    destruct (intents d !! (i, ri_trigger_key event)) eqn:Hk'; [apply others_intents_refl|].
    destruct (workspaces d !! i); [|apply others_intents_refl]. eexists. split; [done|].
    rewrite lookup_insert_ne; [done|]. intros [= He]. by rewrite He, Hn in Hk'. }
  destruct step as [d1 []]; [|done]. eapply others_intents_trans; [done|]. by apply withdraw_others.
Qed.

(** C18: An archive that was put off happens: the monitor's next undisturbed pass over a
    workspace that is neither archived nor pinned and is quiet, with an open intent of a
    local rule (for a merged pull request, when none is open any more), archives it and
    tears down what it keeps running, whatever the remote server answers and whichever
    statements on remote intents fail. *)
Theorem deferred_archive_happens fails remote now i d r key n :
  workspaces d !! i = Some r -> archived (ws r) = false -> pinned (ws r) = false -> quiet d i ->
  intents d !! (i, key) = Some n -> acknowledged n = false -> is_remote_archive_rule (rule n) = false ->
  (rule n = "pr_merged" -> has_open_pull_request d i = false) ->
  exists d' effects, deferred_archive julianday (fun _ d => d) fails (fun d => d) remote now i d = (d', true, effects) /\
    (archived ∘ ws <$> workspaces d' !! i) = Some true /\ RevokePreviews i ∈ effects /\
    forall e p, processes d !! e = Some p -> of_workspace d i p = true -> is_running_process p = true ->
      is_persistent (pr_run_reason p) = true -> StopExecution e ∈ effects.
Proof.
  intros Hr Ha Hp Hq Hn Hack Hrem Hpr. unfold deferred_archive, archive_workspace_with_remote_intents.
  destruct (validate_others fails remote i key n d Hn Hrem) as (t & Ht & Hkey).
  destruct (validate_intents julianday _ fails remote i d) as [d1 allow]. cbn in Ht. subst d1.
  pose proof (try_archive_cases julianday (set_intents t d) now i allow) as Hc.
  destruct (try_archive_with_remote_intents (set_intents t d) now i allow) as [d2 []].
  - destruct Hc as (r' & key' & n' & _ & _ & _ & _ & ->). eexists _, _. split; [done|].
    unfold archived_by. cbn. rewrite lookup_insert_eq. split; [done|]. split; [left|].
    intros e p He Hw Hrun Hper. right. apply elem_of_app. left. unfold ARCHIVE_STOPPED_RUN_REASONS. cbn [fmap list_fmap concat].
    rewrite app_nil_r. rewrite elem_of_app, !list_elem_of_fmap. unfold find_running_by_workspace_and_run_reason.
    destruct (pr_run_reason p) eqn:Hreason; try done; [left|right]; exists (e, p); (split; [done|]);
      apply elem_order_by, list_elem_of_In, filter_In; cbn; rewrite <-list_elem_of_In, elem_of_map_to_list;
      (split; [done|]); unfold of_workspace in *; cbn; by rewrite Hw, Hrun, Hreason, bool_decide_true.
  - destruct Hc as [_ Hc]. exfalso. apply (Hc r). unfold archivable, eligible. cbn. split_and!; try done.
    exists key, n. rewrite Hkey. split; [done|]. rewrite Hack.
    change (is_remote_rule (rule n) = false) in Hrem. rewrite Hrem, orb_true_r. cbn.
    destruct (String.eqb_spec (rule n) "pr_merged") as [He|]; [|done].
    specialize (Hpr He). unfold has_open_pull_request in *. cbn. by rewrite Hpr.
Qed.

(** ** The merge of the last pull request *)

Lemma none_open t i d :
  count_open_for_workspace t i = O -> pull_requests d = view t -> has_open_pull_request d i = false.
Proof.
  unfold count_open_for_workspace, has_open_pull_request. intros Hc ->.
  apply length_zero_iff_nil in Hc. apply existsb_false. intros [j b] Hin.
  apply list_elem_of_omap in Hin as (pr & Hin & Hv). cbn. unfold view in Hv.
  destruct (workspace_id pr) as [w|] eqn:Hw; [|done]. injection Hv as -> <-.
  case_bool_decide as Hj; [|done]. subst j. cbn. apply not_true_iff_false. intros Ho.
  apply (in_nil (a := pr)). rewrite <-Hc. apply filter_In. rewrite <-list_elem_of_In. split; [done|].
  unfold of_ws. by rewrite bool_decide_true, Ho.
Qed.

(** The merge of a pull request, found by the monitor, archives its workspace if no
    other of its pull requests is open, nothing runs in it, and the user neither pinned it
    nor unarchived it since the merge. *)
Theorem last_merge_archives (s : State (Value := Value)) now pr host merged i r :
  hs_status host = Merged -> hs_merged_at host = Some merged -> workspace_id pr = Some i ->
  count_open_for_workspace (update_status (prs s) now (pr_url pr) Merged (Some merged) (hs_sha host)) i = O ->
  workspaces (db s) !! i = Some r -> archived (ws r) = false -> pinned (ws r) = false -> quiet (db s) i ->
  intents (db s) !! (i, "pr:" +:+ pr_url pr) = None ->
  (forall t, overrides (db s) !! i = Some t -> julianday t < julianday merged) ->
  (archived ∘ ws <$> workspaces (db (check_open_pr julianday s now pr host).1) !! i) = Some true.
Proof.
  intros Hs Hm Hw Hc Hr Ha Hp Hq Hn Ho. unfold check_open_pr. rewrite Hs, Hm, Hw. cbn [default].
  rewrite decide_False, decide_True by done. cbv zeta.
  set (t := update_status _ _ _ _ _ _). change (count_open_for_workspace t i = O) in Hc.
  unfold try_archive_workspace. cbn [db prs with_prs]. unfold find_by_id. cbn [workspaces]. rewrite Hr. cbn [fmap option_fmap option_map].
  rewrite Hc. cbn [Nat.eqb]. unfold record_archive_intent. cbn [intents workspaces overrides]. rewrite Hn, Hr. cbn [is_ok fst snd].
  set (d := set_intents _ _). unfold archive_workspace_automatically, archive_workspace_with_remote_intents.
  pose proof (try_archive_cases julianday d now i true) as Hcases.
  destruct (try_archive_with_remote_intents d now i true) as [d2 []].
  - destruct Hcases as (r' & key' & n' & _ & _ & _ & _ & ->). unfold archived_by. cbn. by rewrite lookup_insert_eq.
  - destruct Hcases as [_ Hcases]. exfalso. apply (Hcases r). unfold archivable. split_and!; try done.
    eexists ("pr:" +:+ pr_url pr), _. unfold d. cbn [intents set_intents]. rewrite lookup_insert_eq. split; [done|].
    unfold eligible. cbn [acknowledged rule]. apply andb_true_iff. split.
    + rewrite orb_true_l, andb_true_r. destruct (overrides (db s) !! i) as [o|] eqn:Hover; [|done].
      specialize (Ho o eq_refl). by rewrite (proj2 (Z.leb_gt _ _)).
    + apply orb_true_iff. right. rewrite (none_open t i); [done|done|done].
Qed.

End Monitor.

(** ** What the remote server was told *)

Definition keyed (t : Prs) : Prop := forall k pr, t !! k = Some pr -> pr_id pr = k.

(** Rows that say the same to the remote server. *)
Lemma sync_one_told t now pr reply t' sent :
  (forall p, t !! pr_id pr = Some p -> update_of p = update_of pr) ->
  sync_one t now pr reply = (Some t', sent) ->
  forall k p', t' !! k = Some p' ->
  (exists p, t !! k = Some p /\ update_of p' = update_of p) /\
  (t !! k = Some p' \/ UpdatePullRequest (update_of p') ∈ sent).
Proof.
  intros Hsame Hs k p' Hp'. unfold sync_one in Hs.
  assert (mark_synced t now (pr_id pr) !! k = Some p' ->
    (exists p, t !! k = Some p /\ update_of p' = update_of p) /\ (t !! k = Some p' \/ update_of p' = update_of pr)) as Hmark.
  { unfold mark_synced. rewrite lookup_alter_Some. intros [(<- & p & Hp & ->)|[_ Hp]]; [|eauto].
    split; [by exists p|right]. by rewrite <-(Hsame p Hp). }
  assert (forall u us, update_of p' = u -> UpdatePullRequest (update_of p') ∈ UpdatePullRequest u :: us) as Hin
    by (intros u us ->; left).
  assert (forall us, (exists p, t !! k = Some p /\ update_of p' = update_of p) /\
            (t !! k = Some p' \/ update_of p' = update_of pr) ->
          (exists p, t !! k = Some p /\ update_of p' = update_of p) /\
            (t !! k = Some p' \/ UpdatePullRequest (update_of p') ∈ UpdatePullRequest (update_of pr) :: us)) as Hsent.
  { intros us [Hex [?|?]]; (split; [done|]); [by left|right; by apply Hin]. }
  assert (t !! k = Some p' -> forall us : list Request, (exists p, t !! k = Some p /\ update_of p' = update_of p) /\
            (t !! k = Some p' \/ UpdatePullRequest (update_of p') ∈ us)) as Hsame'
    by (intros Hk' us; split; [by exists p'|by left]).
  cbv zeta in Hs. destruct (pr_status pr); [| | |injection Hs as <- <-; by apply Hsame'].
  all: destruct reply; [| |done|]; [|destruct (workspace_id pr)|]; injection Hs as <- <-.
  all: first [by apply Hsent, Hmark | by apply Hsame' | unfold delete_pr in Hp'; apply Hsame'; by apply lookup_delete_Some in Hp' as [_ Hp']].
Qed.

Lemma sync_told t now l :
  (forall pr reply p, (pr, reply) ∈ l -> t !! pr_id pr = Some p -> update_of p = update_of pr) ->
  forall k p', (sync_pending t now l (fun _ t => t)).1 !! k = Some p' ->
  t !! k = Some p' \/ UpdatePullRequest (update_of p') ∈ (sync_pending t now l (fun _ t => t)).2.
Proof.
  revert t. induction l as [|[pr reply] l IH]; intros t Hl k p'; cbn; [by left|].
  pose proof (sync_one_told t now pr reply) as Hone.
  destruct (sync_one t now pr reply) as [[t1|] sent]; [|by left].
  assert (forall p, t !! pr_id pr = Some p -> update_of p = update_of pr) as Hsame by (intros p; apply (Hl pr reply); left).
  specialize (Hone t1 sent Hsame eq_refl).
  specialize (IH t1). destruct (sync_pending t1 now l _) as [t2 more]. cbn in *. intros Hp'.
  destruct (IH ltac:(intros q rep p Hin Hp; destruct (Hone _ _ Hp) as [(p0 & Hp0 & ->) _];
    apply (Hl q rep); [by right|done]) k p' Hp') as [Hk|Hin].
  - destruct (Hone _ _ Hk) as [_ [?|?]]; [by left|right; apply elem_of_app; by left].
  - right. apply elem_of_app. by right.
Qed.

(** A sweep that is not disturbed leaves as synchronised only what the remote server was
    told: a pull request that was to be synchronised and is not any more was sent as it is
    in the table. *)
Theorem sync_tells_the_table t now replies k pr :
  keyed t -> Forall2 (fun pr (entry : PullRequest * Reply) => entry.1 = pr) (get_pending_sync t) replies ->
  (sync_pending t now replies (fun _ t => t)).1 !! k = Some pr -> is_pending_sync pr = false ->
  (t !! k = Some pr /\ is_pending_sync pr = false) \/
  UpdatePullRequest (update_of pr) ∈ (sync_pending t now replies (fun _ t => t)).2.
Proof.
  intros Hk Hl Hp Hsync. destruct (sync_told t now replies) with (k := k) (p' := pr) as [?|?]; [|done|by left|by right].
  intros q reply p Hin Hq. apply list_elem_of_lookup in Hin as [n Hn].
  destruct (Forall2_lookup_r _ _ _ _ _ Hl Hn) as (q' & Hq' & He). cbn in He. subst q'.
  apply list_elem_of_lookup_2, list_elem_of_In, filter_In in Hq' as [Hq' _].
  apply list_elem_of_In, list_elem_of_fmap in Hq' as ([k' q'] & -> & Hm%elem_of_map_to_list). cbn in *.
  rewrite (Hk _ _ Hm) in Hq. by simplify_eq.
Qed.

(** ** Concrete runs *)

Module SampleArchiving.
Import SampleWorkspaces.

Definition undisturbed (n : nat) (d : Db unit) : Db unit := d.
Definition nothing_fails (n : nat) : bool := false.

(** Workspace 1, with an intent of the remote server and one of a local merge. *)
Definition held : Db unit :=
  after (made ++ [RecordArchiveIntent 1%N "issue" "issue_done" (2 * minute);
                  RecordArchiveIntent 1%N "merge:c0" "local_merge" (1 * minute)]).

Definition pass (remote : option (result (option RemoteIntent) unit)) (d : Db unit) :=
  deferred_archive julianday undisturbed nothing_fails (fun d => d) remote (5 * minute) 1%N d.

Definition credited (d : Db unit) : list string :=
  fst <$> List.filter (fun kn => bool_decide (is_Some (archived_at kn.2))) (intents_of d 1%N).

(** The remote intent has the credit while the server stands by it, the local one once it was
    withdrawn or the server cannot be asked. *)
Example credit :
  credited (pass (Some (Ok (Some {| ri_trigger_key := "issue"; ri_rule := "issue_done";
                                    ri_triggered_at := 2 * minute |}))) held).1.1 = ["issue"] /\
  credited (pass (Some (Ok None)) held).1.1 = ["merge:c0"] /\
  credited (pass (Some (Err tt)) held).1.1 = ["merge:c0"].
Proof. vm_compute. auto. Qed.

Lemma undisturbed_harmless n : harmless julianday 1%N (undisturbed n).
Proof. intros d. exists []. by split. Qed.

Example withdrawn_witness :
  exists dl r key n,
    (pass (Some (Ok None)) held).1.1 = archived_by dl (5 * minute) 1%N r key n /\
    intents dl !! (1%N, key) = Some n /\ acknowledged n = false /\
    (is_remote_archive_rule (rule n) = true ->
     exists current, Some (Ok None : result (option RemoteIntent) unit) = Some (Ok current) /\
       forall m, open_remote (undisturbed O held) 1%N (key, m) -> ri_trigger_key <$> current = Some key).
Proof.
  apply (withdrawn_intent_never_archives julianday undisturbed nothing_fails (fun d => d) (Some (Ok None)) (5 * minute)
           1%N held _ (pass (Some (Ok None)) held).2).
  - exact undisturbed_harmless.
  - exact (undisturbed_harmless O).
  - vm_compute. reflexivity.
Defined.

Definition dev_server : Process :=
  {| pr_session := 2%N; pr_run_reason := DevServer; pr_action := None; Workspaces.pr_status := ProcessRow.Running;
     Workspaces.pr_created_at := 0; pr_completed_at := None |}.

Definition served : Db unit :=
  foldl (run julianday) held
    [Others {| workspaces := ∅; intents := ∅; overrides := ∅; workers := ∅;
               sessions := {[ 2%N := {| ss_workspace := 1%N; ss_created_at := 0 |} ]};
               processes := {[ 6%N := dev_server ]}; jobs := ∅; pull_requests := []; wakeups := ∅;
               open_deliveries := ∅ |}].

Lemma served_quiet : quiet served 1%N.
Proof.
  split.
  - intros k p Hk _. change (processes served) with ({[ 6%N := dev_server ]} : gmap Uuid Process) in Hk.
    apply lookup_singleton_Some in Hk as [_ <-]. reflexivity.
  - intros w Hw. change (wakeups served) with (∅ : gmap Uuid Uuid) in Hw. by rewrite lookup_empty in Hw.
Qed.

Example deferred_witness :
  exists d' effects,
    deferred_archive julianday (fun _ d => d) nothing_fails (fun d => d) (Some (Err tt)) (5 * minute) 1%N served
      = (d', true, effects) /\
    (archived ∘ ws <$> workspaces d' !! 1%N) = Some true /\ RevokePreviews 1%N ∈ effects /\
    forall e p, processes served !! e = Some p -> of_workspace served 1%N p = true -> is_running_process p = true ->
      is_persistent (pr_run_reason p) = true -> StopExecution e ∈ effects.
Proof.
  destruct (workspaces served !! 1%N) as [r|] eqn:Hr; [|exfalso; revert Hr; vm_compute; discriminate].
  assert (workspaces served !! 1%N = Some r -> archived (ws r) = false /\ pinned (ws r) = false) as Hflags.
  { vm_compute. intros [= <-]. auto. }
  destruct (Hflags Hr) as [Ha Hp].
  apply (deferred_archive_happens julianday nothing_fails (Some (Err tt)) (5 * minute) 1%N served r "merge:c0"
           {| rule := "local_merge"; triggered_at := 1 * minute; archived_at := None; acknowledged := false |});
    try done; [exact served_quiet].
Defined.

(** ** Pull requests *)

Definition opened : Prs :=
  create_pr (create_pr ∅ "a" 0 (Some 1%N) None "u/1" 1 "main") "b" 0 (Some 1%N) None "u/2" 2 "main".

Definition project : State := with_prs opened {| db := after made; prs := ∅ |}.

Definition merged_at_minute (n : Z) : HostStatus :=
  {| hs_status := Merged; hs_merged_at := Some (n * minute); hs_sha := None |}.
Definition closed : HostStatus := {| hs_status := Closed; hs_merged_at := None; hs_sha := None |}.

Definition check (url_ : string) (host : HostStatus) (s : State (Value := unit)) : State (Value := unit) :=
  match find_by_url (prs s) url_ with
  | Some pr => (check_open_pr julianday s (9 * minute) pr host).1
  | None => s
  end.

Definition is_archived (s : State (Value := unit)) : option bool := archived <$> find_by_id (db s) 1%N.

Example both_merged :
  is_archived (check "u/1" (merged_at_minute 3) project) = Some false /\
  is_archived (check "u/2" (merged_at_minute 4) (check "u/1" (merged_at_minute 3) project)) = Some true.
Proof. vm_compute. auto. Qed.

(** A workspace is to be archived once all its pull requests are merged or closed; if the
    last of them is closed it is not, nor at any later turn of the monitor, for the intent
    of the merge was not recorded while the other was open. *)
Example last_one_closed :
  let s := check "u/2" closed (check "u/1" (merged_at_minute 3) project) in
  is_archived s = Some false /\ get_open (prs s) = [] /\ size (pending_archive_workspaces (db s)) = 0%nat.
Proof. vm_compute. auto. Qed.

Example last_merge_witness :
  exists pr, find_by_url (prs (check "u/1" (merged_at_minute 3) project)) "u/2" = Some pr /\
    (archived ∘ ws <$> workspaces
       (db (check_open_pr julianday (check "u/1" (merged_at_minute 3) project) (9 * minute) pr (merged_at_minute 4)).1)
       !! 1%N) = Some true.
Proof.
  set (s := check "u/1" (merged_at_minute 3) project).
  destruct (find_by_url (prs s) "u/2") as [pr|] eqn:Hpr; [|exfalso; revert Hpr; vm_compute; discriminate].
  assert (find_by_url (prs s) "u/2" = Some pr -> workspace_id pr = Some 1%N /\
    count_open_for_workspace (update_status (prs s) (9 * minute) (pr_url pr) Merged (Some (4 * minute)) None) 1%N = 0%nat /\
    intents (db s) !! (1%N, "pr:" +:+ pr_url pr) = None) as H by (vm_compute; intros [= <-]; auto).
  destruct (H Hpr) as (Hw & Hc & Hn).
  destruct (workspaces (db s) !! 1%N) as [r|] eqn:Hr; [|exfalso; revert Hr; vm_compute; discriminate].
  assert (workspaces (db s) !! 1%N = Some r -> archived (ws r) = false /\ pinned (ws r) = false) as Hflags
    by (vm_compute; intros [= <-]; auto).
  destruct (Hflags Hr) as [Ha Hp].
  assert (quiet (db s) 1%N) as Hq.
  { split; [intros k p|intros w].
    - change (processes (db s)) with (∅ : gmap Uuid Process). by rewrite lookup_empty.
    - change (wakeups (db s)) with (∅ : gmap Uuid Uuid). by rewrite lookup_empty. }
  exists pr. split; [done|].
  apply (last_merge_archives julianday s (9 * minute) pr (merged_at_minute 4) (4 * minute) 1%N r); try done.
Defined.

(** The monitor never replays a remote intent without asking; the merge of a pull request
    does.  The user unarchives at minute 5; the issue is done at minute 6 while a turn runs,
    and taken back; the host reports at minute 9 that the pull request was merged at minute
    3: its intent is settled already, but the archive it asks for takes the stale one. *)
Definition taken_back : State :=
  with_prs (create_pr ∅ "a" 0 (Some 1%N) None "u/1" 1 "main")
    {| db := foldl (run julianday) (after made)
               [WorkspaceFacts.Update (5 * minute) 1%N (Some false) None None;
                RecordArchiveIntent 1%N "issue" "issue_done" (6 * minute)]; prs := ∅ |}.

Example stale_remote_intent_replayed :
  (pass (Some (Ok None)) (db taken_back)).1.2 = false /\
  is_archived (check "u/1" (merged_at_minute 3) taken_back) = Some true /\
  credited (db (check "u/1" (merged_at_minute 3) taken_back)) = ["issue"].
Proof. vm_compute. auto. Qed.

(** ** Synchronisation *)

Definition first_pr : Prs := create_pr ∅ "a" 0 (Some 1%N) None "u/1" 1 "main".
Definition told (t : Prs) : list (PullRequest * Reply) := (fun pr => (pr, Updated)) <$> get_pending_sync t.

Example sync_witness :
  exists pr,
    (sync_pending first_pr minute (told first_pr) (fun _ t => t)).1 !! "a" = Some pr /\
    ((first_pr !! "a" = Some pr /\ is_pending_sync pr = false) \/
     UpdatePullRequest (update_of pr) ∈ (sync_pending first_pr minute (told first_pr) (fun _ t => t)).2).
Proof.
  destruct ((sync_pending first_pr minute (told first_pr) (fun _ t => t)).1 !! "a") as [pr|] eqn:Hpr;
    [|exfalso; revert Hpr; vm_compute; discriminate].
  assert (is_pending_sync <$> (sync_pending first_pr minute (told first_pr) (fun _ t => t)).1 !! "a" = Some false) as Hp
    by (vm_compute; reflexivity).
  rewrite Hpr in Hp. injection Hp as Hp.
  exists pr. split; [reflexivity|]. apply (sync_tells_the_table first_pr minute (told first_pr) "a" pr).
  - intros k q. change (first_pr !! k) with ((<["a" := default (Build_PullRequest "" None None "" 0 Open "" None None 0 (Sqlite 0) None)
      (first_pr !! "a")]> ∅ : Prs) !! k). rewrite lookup_insert_Some, lookup_empty. intros [[<- <-]|[_ ?]]; [|done].
    vm_compute. reflexivity.
  - vm_compute. repeat constructor.
  - exact Hpr.
  - exact Hp.
Defined.

(** A status recorded between the request and the mark is marked as sent: the server is never
    told of it. *)
Definition merged_meanwhile (n : nat) (t : Prs) : Prs :=
  match n with O => update_status t (2 * minute) "u/1" Merged (Some minute) None | _ => t end.

Example change_lost_in_sync :
  let '(t, sent) := sync_pending first_pr (3 * minute) (told first_pr) merged_meanwhile in
  (pr_status <$> t !! "a") = Some Merged /\ get_pending_sync t = [] /\
  sent = [UpdatePullRequest {| url := "u/1"; status := Open; new_merged_at := None; new_sha := None |}].
Proof. vm_compute. auto. Qed.

End SampleArchiving.
