(* ===== verification/Chains.v ===== *)
(** * Chains of executions

    What a workspace runs one after the other: the scripts of its repositories around the
    agent, and what happens as each execution ends (crates/services/src/services/
    container.rs, the exit monitor and the remote finalisation of crates/local-deployment/
    src/container.rs, crates/executors/src/actions/mod.rs).  [run_chain] composes them. *)
From S2P Require Import Prelude Text Format WorkerJobRow Remediation Workspaces.

Module Chains.

Section Chains.
(** [ExecutorConfig]: which agent, with its overrides. *)
Context {Config : Type}.

(** ** Actions *)

(* crates/executors/src/actions/script.rs:27-34 ScriptContext *)
Inductive ScriptContext := CtxSetup | CtxCleanup | CtxArchive | CtxDevServer | CtxToolInstall | CtxBackgroundHelper.

(* crates/executors/src/actions/script.rs:252-266 ScriptRequest *)
Record ScriptRequest := { script : string; context : ScriptContext; working_dir : option string }.

(* crates/executors/src/actions/mod.rs:28-33 ExecutorActionType *)
Inductive ExecutorActionType :=
| CodingAgentInitialRequest (prompt : string) (config : Config) (dir : option string)
| CodingAgentFollowUpRequest (prompt : string) (session : string) (config : Config) (dir : option string)
| Script (request : ScriptRequest)
| ReviewRequest (prompt : string) (config : Config).

(* crates/executors/src/actions/mod.rs:36-39 ExecutorAction *)
Inductive ExecutorAction := Action (typ : ExecutorActionType) (next_action : option ExecutorAction).

(* crates/executors/src/actions/mod.rs:54-56 ExecutorAction::typ *)
Definition typ (a : ExecutorAction) : ExecutorActionType := match a with Action t _ => t end.
(* crates/executors/src/actions/mod.rs:58-60 ExecutorAction::next_action *)
Definition next_action (a : ExecutorAction) : option ExecutorAction := match a with Action _ n => n end.

(* crates/executors/src/actions/mod.rs:45-52 ExecutorAction::append_action *)
Fixpoint append_action (a b : ExecutorAction) : ExecutorAction :=
  match a with
  | Action t (Some next) => Action t (Some (append_action next b))
  | Action t None => Action t (Some b)
  end.

(** The actions of a chain, in the order they run. *)
Fixpoint chain (a : ExecutorAction) : list ExecutorActionType :=
  match a with Action t next => t :: match next with Some a => chain a | None => [] end end.

(** The columns of a repository that are read here. *)
(* crates/db/src/models/repo.rs:37-57 Repo *)
Record Repo := {
  repo_name : string;
  display_name : string;
  setup_script : option string;
  cleanup_script : option string;
  archive_script : option string;
  parallel_setup_script : bool;
  default_working_dir : option string;
}.

Definition script_action (context : ScriptContext) (r : Repo) (text : string) (next : option ExecutorAction)
    : ExecutorAction :=
  Action (Script {| script := text; context := context; working_dir := Some (repo_name r) |}) next.

(** The repositories that have the script, chained. *)
Definition actions_for (script_of : Repo -> option string) (context : ScriptContext) (repos : list Repo)
    : option ExecutorAction :=
  match omap (fun r => (fun s => script_action context r s None) <$> script_of r) repos with
  | [] => None
  | first :: rest => Some (foldl append_action first rest)
  end.

(* crates/services/src/services/container.rs:1385-1422 cleanup_actions_for_repos *)
Definition cleanup_actions_for_repos : list Repo -> option ExecutorAction := actions_for cleanup_script CtxCleanup.
(* crates/services/src/services/container.rs:1424-1461 archive_actions_for_repos *)
Definition archive_actions_for_repos : list Repo -> option ExecutorAction := actions_for archive_script CtxArchive.
(* crates/services/src/services/container.rs:1601-1635 setup_actions_for_repos *)
Definition setup_actions_for_repos : list Repo -> option ExecutorAction := actions_for setup_script CtxSetup.

(* crates/services/src/services/container.rs:1637-1650 setup_action_for_repo *)
Definition setup_action_for_repo (r : Repo) : option ExecutorAction :=
  (fun s => script_action CtxSetup r s None) <$> setup_script r.

(* crates/services/src/services/container.rs:1652-1672 build_sequential_setup_chain *)
Definition build_sequential_setup_chain (repos : list Repo) (next : ExecutorAction) : ExecutorAction :=
  foldr (fun r chained =>
           match setup_script r with
           | Some s => script_action CtxSetup r s (Some chained)
           | None => chained
           end) next repos.

(* crates/services/src/services/container.rs:2810-2832 scope_initial_prompt_to_working_dir *)
Definition scope_initial_prompt_to_working_dir (prompt : string) (repos : list Repo) : string :=
  match repos with
  | [r] =>
      match trim <$> default_working_dir r with
      | Some dir =>
          if String.eqb dir "" then prompt
          else "You are working in the `" +:+ dir +:+ "` directory of the `" +:+ display_name r +:+
               "` repository, which is shared by multiple projects. This directory is your current working directory and the root of the project for this task—keep your changes scoped to it unless the task explicitly requires touching other parts of the repository."
               +:+ nl +:+ nl +:+ prompt
      | None => prompt
      end
  | _ => prompt
  end.

(** What is started for a new workspace, in order. *)
(* crates/services/src/services/container.rs:2357-2458 start_workspace *)
Definition start_workspace (repos : list Repo) (config : Config) (prompt : string) (agent_working_dir : option string)
    : list (ExecutorAction * ExecutionProcessRunReason) :=
  let repos_with_setup := List.filter (fun r => bool_decide (is_Some (setup_script r))) repos in
  let all_parallel := forallb parallel_setup_script repos_with_setup in
  let cleanup_action := cleanup_actions_for_repos repos in
  let working_dir :=
    match agent_working_dir with Some d => if String.eqb d "" then None else Some d | None => None end in
  let prompt := scope_initial_prompt_to_working_dir prompt repos in
  let coding_action := Action (CodingAgentInitialRequest prompt config working_dir) cleanup_action in
  if all_parallel then
    ((fun a => (a, SetupScript)) <$> omap setup_action_for_repo repos_with_setup) ++ [(coding_action, CodingAgent)]
  else [(build_sequential_setup_chain repos_with_setup coding_action, SetupScript)].

(** ** The end of an execution *)

(** An execution as it has ended, as the exit monitor loads it. *)
Record Ended := {
  action : ExecutorAction;
  run_reason : ExecutionProcessRunReason;
  status : ProcessRow.ExecutionProcessStatus;
  exit_code : option Z;
}.

(* crates/services/src/services/container.rs:914-945 should_finalize *)
Definition should_finalize (x : Ended) : bool :=
  if is_persistent (run_reason x) then false
  else if decide (run_reason x = SetupScript /\ next_action (action x) = None) then false
  else match status x with
       | ProcessRow.Failed | ProcessRow.Killed | ProcessRow.Interrupted | ProcessRow.Indeterminate => true
       | _ => negb (bool_decide (is_Some (next_action (action x))))
       end.

(** What the answers of the rest of the system are while an execution's end is handled. *)
Record Answers := {
  committed : result bool unit;
  has_commits : bool;
  next_starts : bool;
  queued_now : bool;
  taken : option bool;
  follow_up_starts : bool;
  workspace_mcp_restart : bool;
  agent_running : bool;
}.

(** What is done: [taken] of the answers is the queued message with its [restart_agent]. *)
Inductive Effect :=
| RecordBoundary
| WakeDispatcher
| Notify (success : bool)
| Remediate
| Start (a : ExecutorAction) (r : ExecutionProcessRunReason)
| StartFollowUp
| Discard
| ClearRestart
| MarkUnseen.

(** The run reason an action is started with after another. *)
(* crates/services/src/services/container.rs:2755-2775 try_start_next_action *)
Definition next_run_reason (before next : ExecutorActionType) : ExecutionProcessRunReason :=
  match before, next with
  | Script _, Script _ => SetupScript
  | _, Script _ => CleanupScript
  | _, _ => CodingAgent
  end.

(* crates/services/src/services/container.rs:2745-2798 try_start_next_action *)
Definition try_start_next_action (x : Ended) (starts : bool) : list Effect :=
  match next_action (action x) with
  | None => []
  | Some next =>
      if starts then [Start next (next_run_reason (typ (action x)) (typ next))] else [RecordBoundary]
  end.

(* crates/services/src/services/container.rs:948-1026 finalize_task *)
Definition finalize_task (x : Ended) : list Effect :=
  RecordBoundary ::
  match status x with
  | ProcessRow.Killed | ProcessRow.Interrupted | ProcessRow.Indeterminate => []
  | ProcessRow.Running => [WakeDispatcher]
  | ProcessRow.Completed => [WakeDispatcher; Notify true]
  | ProcessRow.Failed =>
      [WakeDispatcher; Notify false]
      ++ (if Remediation.is_remediation_trigger (run_reason x) (status x) then [Remediate] else [])
  end.

(* crates/local-deployment/src/container.rs:2824-2837 spawn_exit_monitor *)
Definition should_execute_queued (x : Ended) (a : Answers) (restart_agent : bool) : bool :=
  (restart_agent
   && (bool_decide (status x = ProcessRow.Failed)
       || bool_decide (status x = ProcessRow.Killed) && workspace_mcp_restart a))
  || negb (bool_decide (status x ∈ [ProcessRow.Failed; ProcessRow.Killed; ProcessRow.Interrupted])).

(** The cleanup is skipped: the follow-up that waits, or the end. *)
(* crates/local-deployment/src/container.rs:2774-2802 spawn_exit_monitor *)
Definition skip_cleanup (x : Ended) (a : Answers) : list Effect :=
  match queued_now a, taken a with
  | true, Some _ => if follow_up_starts a then [StartFollowUp] else finalize_task x
  | _, _ => finalize_task x
  end.

(** The end of a chain, with the message that waits; whether a follow-up started. *)
(* crates/local-deployment/src/container.rs:2806-2868 spawn_exit_monitor *)
Definition finish_chain (x : Ended) (a : Answers) : list Effect * bool :=
  match taken a with
  | Some restart_agent =>
      let restart := if restart_agent then [ClearRestart] else [] in
      if should_execute_queued x a restart_agent then
        if follow_up_starts a then ([StartFollowUp], true) else (restart ++ finalize_task x, false)
      else (Discard :: restart ++ finalize_task x, false)
  | None => (finalize_task x, false)
  end.

(* crates/local-deployment/src/container.rs:2722-2926 spawn_exit_monitor *)
Definition local_exit (x : Ended) (a : Answers) : list Effect :=
  let success := bool_decide (status x = ProcessRow.Completed) && bool_decide (exit_code x = Some 0) in
  let cleanup_done := bool_decide (run_reason x = CleanupScript) && negb (bool_decide (status x = ProcessRow.Running)) in
  let changes_committed := match committed a with Ok b => b | Err _ => true end in
  let should_start_next :=
    if decide (run_reason x = CodingAgent) then changes_committed || has_commits a else true in
  let skipped := (success || cleanup_done) && negb should_start_next in
  let first :=
    if success || cleanup_done then
      if should_start_next then try_start_next_action x (next_starts a) else skip_cleanup x a
    else [] in
  let second :=
    if negb skipped && should_finalize x then
      let '(effects, follow_up) := finish_chain x a in
      effects ++
      (if bool_decide (run_reason x = CodingAgent) && bool_decide (next_action (action x) = None) && negb follow_up
       then [MarkUnseen] else [])
    else [] in
  let third :=
    if bool_decide (run_reason x = SetupScript) && negb (should_finalize x) && negb (agent_running a)
       && bool_decide (is_Some (taken a)) && follow_up_starts a
    then [StartFollowUp] else [] in
  first ++ second ++ third.

(* crates/local-deployment/src/container.rs:3898-3911 finalize_remote_execution *)
Definition remote_executes_queued (x : Ended) (a : Answers) (restart_agent : bool) : bool :=
  (restart_agent
   && (bool_decide (status x = ProcessRow.Failed)
       || bool_decide (status x = ProcessRow.Killed) && workspace_mcp_restart a))
  || negb (bool_decide (status x ∈ [ProcessRow.Failed; ProcessRow.Killed; ProcessRow.Interrupted;
                                    ProcessRow.Indeterminate])).

(* crates/local-deployment/src/container.rs:3879-3929 finalize_remote_execution *)
Definition remote_exit (x : Ended) (a : Answers) : list Effect :=
  let first :=
    if decide (status x = ProcessRow.Completed) then try_start_next_action x (next_starts a) else [] in
  if should_finalize x then
    let '(effects, follow_up) :=
      match taken a with
      | Some restart_agent =>
          let restart := if restart_agent then [ClearRestart] else [] in
          if remote_executes_queued x a restart_agent then
            if follow_up_starts a then ([StartFollowUp], true) else (restart, false)
          else (Discard :: restart, false)
      | None => ([], false)
      end in
    first ++ effects ++ (if follow_up then [] else finalize_task x)
  else first.

(** ** A whole chain *)

(** How an execution ends, and what is answered then. *)
Record Outcome := { o_status : ProcessRow.ExecutionProcessStatus; o_exit : option Z; o_answers : Answers }.

Inductive Event :=
| Ran (t : ExecutorActionType) (r : ExecutionProcessRunReason)
| Did (e : Effect).

Definition is_start (e : Effect) : bool := match e with Start _ _ => true | _ => false end.

(** An execution and those it leads to; [outcome] says how the [n]th of them, which runs [t], ends, and [exit]
    how an end is handled. *)
Fixpoint run_chain (exit : Ended -> Answers -> list Effect) (outcome : ExecutorActionType -> nat -> Outcome) (n : nat)
    (a : ExecutorAction) (r : ExecutionProcessRunReason) : list Event :=
  match a with
  | Action t next =>
      let o := outcome t n in
      let effects := exit {| action := a; run_reason := r; status := o_status o; exit_code := o_exit o |} (o_answers o) in
      Ran t r :: (Did <$> List.filter (fun e => negb (is_start e)) effects) ++
      match next with
      | Some b =>
          if existsb is_start effects then run_chain exit outcome (S n) b (next_run_reason t (typ b)) else []
      | None => []
      end
  end.

(** The executions that activate the workspace as they start. *)
(* crates/services/src/services/container.rs:2594-2596 start_execution_with_id_during_workspace_restart *)
Definition activates (r : ExecutionProcessRunReason) : bool := negb (bool_decide (r = ArchiveScript)).

(** ** After a restart of the server *)

(* crates/services/src/services/container.rs:564-564 RESUME_INTERRUPTED_PROMPT *)
Definition RESUME_INTERRUPTED_PROMPT : string :=
  "The previous run was interrupted by a vibe-kanban restart before it could finish. Review the current state of the working tree and continue the task from where it left off.".

(* crates/services/src/services/container.rs:579-591 executor_config_for_auto_resume *)
Definition executor_config_for_auto_resume (a : ExecutorAction) : option Config :=
  match typ a with
  | CodingAgentInitialRequest _ config _ => Some config
  | CodingAgentFollowUpRequest prompt _ config _ =>
      if String.eqb prompt RESUME_INTERRUPTED_PROMPT then None else Some config
  | _ => None
  end.

(** An execution the restart interrupted, with what is read for it. *)
Record Interrupted := {
  i_session : Uuid;
  i_action : ExecutorAction;
  i_reason : ExecutionProcessRunReason;
  i_gone : bool;
  i_agent_session : option string;
  i_repos : list Repo;
  i_working_dir : option string;
}.

(* crates/services/src/services/container.rs:1251-1305 resume_interrupted_coding_agent *)
Definition resume_interrupted_coding_agent (p : Interrupted) : option ExecutorAction :=
  match executor_config_for_auto_resume (i_action p) with
  | None => None
  | Some config =>
      if i_gone p then None
      else match i_agent_session p with
           | None => None
           | Some session =>
               Some (Action (CodingAgentFollowUpRequest RESUME_INTERRUPTED_PROMPT session config
                       (match i_working_dir p with Some d => if String.eqb d "" then None else Some d | None => None end))
                     (cleanup_actions_for_repos (i_repos p)))
           end
  end.

(** What is started, by session. *)
(* crates/services/src/services/container.rs:1216-1245 resume_interrupted_coding_agents *)
Fixpoint resume_from (seen : gset Uuid) (l : list Interrupted) : list (Uuid * ExecutorAction) :=
  match l with
  | [] => []
  | p :: l =>
      if decide (i_reason p <> CodingAgent) then resume_from seen l
      else if decide (i_session p ∈ seen) then resume_from seen l
      else match resume_interrupted_coding_agent p with
           | Some a => (i_session p, a) :: resume_from ({[i_session p]} ∪ seen) l
           | None => resume_from ({[i_session p]} ∪ seen) l
           end
  end.

End Chains.
End Chains.
