(* ===== verification/ChainFacts.v ===== *)
(** * Facts about chains of executions

    What a workspace runs is its repositories' scripts around the agent, in order
    ([workspace_runs_in_order]), and what the end of each leaves its session with
    ([ends_are_continued]); an interrupted agent is resumed once ([resumed_once]).
    [SampleChains] has the concrete runs. *)
From S2P Require Import Prelude Text Format WorkerJobRow Remediation Workspaces Chains.
Import Chains.

Section Facts.
Context {Config : Type}.
Implicit Types (a b : ExecutorAction (Config := Config)).

Lemma action_ind' (P : ExecutorAction (Config := Config) -> Prop) :
  (forall t, P (Action t None)) -> (forall t b, P b -> P (Action t (Some b))) -> forall a, P a.
Proof.
  intros Hn Hs. fix IH 1. intros [t [b|]]; [apply Hs, IH|apply Hn].
Qed.

(** ** The order of a chain *)

Lemma chain_append a b : chain (append_action a b) = chain a ++ chain b.
Proof. induction a as [t|t a IH] using action_ind'; cbn; [done|by rewrite IH]. Qed.

Lemma chain_foldl a l : chain (foldl append_action a l) = chain a ++ concat (chain <$> l).
Proof.
  revert a. induction l as [|b l IH]; intros a; cbn; [by rewrite app_nil_r|].
  by rewrite IH, chain_append, <-app_assoc.
Qed.

(** The scripts of the repositories that have one. *)
Definition scripts (script_of : Repo -> option string) (ctx : ScriptContext) (repos : list Repo)
    : list (ExecutorActionType (Config := Config)) :=
  omap (fun r => (fun s => Script {| script := s; context := ctx; working_dir := Some (repo_name r) |}) <$> script_of r)
    repos.

Definition chain_of (o : option (ExecutorAction (Config := Config))) : list (ExecutorActionType (Config := Config)) :=
  match o with Some a => chain a | None => [] end.

Lemma chain_actions_for script_of ctx repos : chain_of (actions_for script_of ctx repos) = scripts script_of ctx repos.
Proof.
  unfold actions_for, scripts. set (l := omap _ repos).
  assert (concat (chain <$> l) = omap (fun r => (fun s => Script {| script := s; context := ctx;
    working_dir := Some (repo_name r) |}) <$> script_of r) repos) as <-.
  { unfold l. clear l. induction repos as [|r repos IH]; [done|]. cbn. destruct (script_of r); cbn; by rewrite IH. }
  destruct l as [|a l]; [done|]. cbn. apply chain_foldl.
Qed.

Lemma chain_setup repos b :
  chain (build_sequential_setup_chain repos b) = scripts setup_script CtxSetup repos ++ chain b.
Proof.
  unfold build_sequential_setup_chain. induction repos as [|p repos IH]; [done|]. cbn.
  destruct (setup_script p); cbn; by rewrite IH.
Qed.

(** ** A chain in which everything succeeds *)

(** Where an execution runs, and what handles its end. *)
Inductive Place := Here | OnWorker.
Definition exit_at (w : Place) : Ended (Config := Config) -> Answers -> list (Effect (Config := Config)) :=
  match w with Here => local_exit | OnWorker => remote_exit end.

(** What this server asks after a turn of the agent: its changes are committed, or are not
    for an error, or there are new commits. *)
Definition changes (a : Answers) : bool := (match committed a with Ok b => b | Err _ => true end) || has_commits a.

Definition is_script (t : ExecutorActionType (Config := Config)) : bool :=
  match t with Script _ => true | _ => false end.

(** The execution succeeds, what follows it can be started and no message waits for the
    session; [changed] is whether a turn of the agent changed anything. *)
Definition smooth (changed : bool) (t : ExecutorActionType (Config := Config)) (o : Outcome) : Prop :=
  o_status o = ProcessRow.Completed /\ o_exit o = Some 0 /\ next_starts (o_answers o) = true /\
  taken (o_answers o) = None /\ (is_script t = false -> changes (o_answers o) = changed).

Definition ran (e : Event (Config := Config)) : option (ExecutorActionType (Config := Config)) :=
  match e with Ran t _ => Some t | Did _ => None end.
Definition is_boundary (e : Event (Config := Config)) : bool :=
  match e with Did RecordBoundary => true | _ => false end.
Definition boundaries (l : list (Event (Config := Config))) : nat := length (List.filter is_boundary l).

(** This server stops a chain after a turn that changed nothing, a worker's end does not. *)
Definition goes_on (w : Place) (changed : bool) (t : ExecutorActionType (Config := Config)) : bool :=
  is_script t || changed || match w with Here => false | OnWorker => true end.
Fixpoint cut w changed (l : list (ExecutorActionType (Config := Config))) : list (ExecutorActionType (Config := Config)) :=
  match l with
  | [] => []
  | t :: l => t :: (if goes_on w changed t then cut w changed l else [])
  end.

Definition settles (r : ExecutionProcessRunReason) : bool := negb (is_persistent r) && negb (bool_decide (r = SetupScript)).

(** Agents run as agents, scripts as something else. *)
Definition fits (t : ExecutorActionType (Config := Config)) r : Prop := is_script t = negb (bool_decide (r = CodingAgent)).

Lemma next_fits t u : fits u (next_run_reason t u).
Proof. by destruct t, u. Qed.

Lemma smooth_exit w changed t next r o :
  smooth changed t o -> fits t r ->
  let effects := exit_at w {| action := Action t next; run_reason := r; status := o_status o; exit_code := o_exit o |}
                   (o_answers o) in
  existsb is_start effects = bool_decide (is_Some next) && goes_on w changed t /\
  length (List.filter is_boundary (Did <$> List.filter (fun e => negb (is_start e)) effects)) =
    (if decide (next = None \/ goes_on w changed t = false) then if settles r then 1 else 0 else 0)%nat.
Proof.
  intros (Hs & He & Hn & Ht & Hc) Hf. destruct o as [s e [c h n q k f m g]]. unfold changes, fits in *. cbn in *. subst.
  destruct t, r; cbn in Hf; try discriminate Hf; clear Hf; try (rewrite <-(Hc eq_refl)); clear Hc;
    destruct w, next as [b|], c as [[]|[]], h; try destruct changed; destruct q, g; vm_compute; split; reflexivity.
Qed.

Lemma ran_did (l : list (Effect (Config := Config))) : omap ran (Did <$> l) = [].
Proof. by induction l. Qed.

Lemma smooth_ran w changed outcome n a r :
  (forall t n, smooth changed t (outcome t n)) -> fits (typ a) r ->
  omap ran (run_chain (exit_at w) outcome n a r) = cut w changed (chain a).
Proof.
  intros Ho. revert n r. induction a as [t|t b IH] using action_ind'; intros n r Hf; cbn [run_chain chain cut].
  - change (omap ran (Ran t r :: ?l)) with (t :: omap ran l). rewrite app_nil_r, ran_did. by destruct (goes_on w changed t).
  - destruct (smooth_exit w changed t (Some b) r (outcome t n) (Ho t n) Hf) as [-> _].
    rewrite bool_decide_true by by eexists. cbn [andb].
    change (omap ran (Ran t r :: ?l)) with (t :: omap ran l). rewrite omap_app, ran_did.
    destruct (goes_on w changed t); [|done]. by rewrite IH by apply next_fits.
Qed.

(** The reason the last action of a chain runs for. *)
Fixpoint last_reason (l : list (ExecutorActionType (Config := Config))) r : ExecutionProcessRunReason :=
  match l with
  | t :: ((u :: _) as l) => last_reason l (next_run_reason t u)
  | _ => r
  end.

Lemma smooth_boundaries w changed outcome n a r :
  (forall t n, smooth changed t (outcome t n)) -> fits (typ a) r ->
  boundaries (run_chain (exit_at w) outcome n a r) =
    if settles (last_reason (cut w changed (chain a)) r) then 1%nat else 0%nat.
Proof.
  intros Ho. unfold boundaries. revert n r. induction a as [t|t b IH] using action_ind'; intros n r Hf; cbn [run_chain].
  - destruct (smooth_exit w changed t None r (outcome t n) (Ho t n) Hf) as [_ Hb]. cbn [List.filter is_boundary].
    rewrite List.filter_app, length_app, Hb, decide_True by by left. cbn [chain cut].
    destruct (goes_on w changed t); cbn; by destruct (settles r).
  - destruct (smooth_exit w changed t (Some b) r (outcome t n) (Ho t n) Hf) as [-> Hb]. cbn [List.filter is_boundary].
    rewrite List.filter_app, length_app, Hb. rewrite bool_decide_true by by eexists. cbn [andb chain cut].
    destruct (goes_on w changed t) eqn:Hg.
    + rewrite decide_False by (intros [?|?]; congruence). rewrite IH by apply next_fits. destruct b as [u next]. cbn [chain cut typ].
      by destruct next.
    + rewrite decide_True by by right. cbn. by destruct (settles r).
Qed.

(** ** A workspace from its start *)

(** Everything that happens for what [start_workspace] starts. *)
Definition run_workspace w (outcome : ExecutorAction (Config := Config) -> ExecutorActionType (Config := Config) -> nat -> Outcome)
    repos config prompt dir : list (Event (Config := Config)) :=
  concat ((fun ar => run_chain (exit_at w) (outcome ar.1) 0 ar.1 ar.2) <$> start_workspace repos config prompt dir).

Definition agent_request (repos : list Repo) (config : Config) (prompt : string) (dir : option string) :=
  CodingAgentInitialRequest (scope_initial_prompt_to_working_dir prompt repos) config
    (match dir with Some d => if String.eqb d "" then None else Some d | None => None end).

Lemma scripts_with_script script_of ctx repos :
  scripts script_of ctx (List.filter (fun p => bool_decide (is_Some (script_of p))) repos) = scripts script_of ctx repos.
Proof.
  unfold scripts. induction repos as [|p repos IH]; [done|]. cbn. case_bool_decide as Hp.
  - destruct Hp as [x Hx]. cbn. rewrite Hx. cbn. by rewrite IH.
  - destruct (script_of p) eqn:E; [destruct Hp; by eexists|]. cbn. apply IH.
Qed.

Lemma chain_agent repos config prompt dir :
  chain (Action (agent_request repos config prompt dir) (cleanup_actions_for_repos repos)) =
  agent_request repos config prompt dir :: scripts cleanup_script CtxCleanup repos.
Proof. rewrite <-chain_actions_for. done. Qed.

Lemma parallel_setups_run w changed outcome repos :
  (forall a t n, smooth changed t (outcome a t n)) ->
  let starts := (fun a => (a, SetupScript)) <$> omap setup_action_for_repo repos in
  let events := concat ((fun ar => run_chain (exit_at w) (outcome ar.1) 0 ar.1 ar.2) <$> starts) in
  omap ran events = scripts setup_script CtxSetup repos /\ boundaries events = 0%nat.
Proof.
  intros Ho. cbv zeta. induction repos as [|p repos [IHr IHb]]; [done|].
  unfold scripts in *. cbn [omap list_omap].
  assert (setup_action_for_repo (Config := Config) p =
          (fun s => script_action CtxSetup p s None) <$> setup_script p) as -> by done.
  destruct (setup_script p) as [x|]; cbn [fmap option_fmap option_map]; [|by split].
  set (a := script_action CtxSetup p x None).
  rewrite !fmap_cons. cbn [concat]. unfold boundaries in *. rewrite omap_app, List.filter_app, length_app, IHr, IHb, Nat.add_0_r.
  cbn [fst snd]. split; [|by apply (smooth_boundaries w changed (outcome a) 0 a SetupScript (Ho a))].
  by rewrite (smooth_ran w changed (outcome a) 0 a SetupScript (Ho a)).
Qed.

(** The reason the agent of a chain runs for does not depend on what is before it. *)
Lemma last_reason_agent l repos config prompt dir m r :
  Forall (fun t => exists q, t = Script (Config := Config) q) l -> (l = [] -> r = CodingAgent) ->
  last_reason (l ++ agent_request repos config prompt dir :: m) r =
  last_reason (agent_request repos config prompt dir :: m) CodingAgent.
Proof.
  revert r. induction l as [|t l IH]; intros r Hl Hr; [by rewrite Hr|].
  apply Forall_cons in Hl as [[q ->] Hl]. destruct l as [|u l]; [done|].
  cbn [app]. change (last_reason (Script q :: u :: l ++ _) r) with
    (last_reason ((u :: l) ++ agent_request repos config prompt dir :: m) (next_run_reason (Script q) u)).
  apply IH; [done|discriminate].
Qed.

Lemma scripts_script script_of ctx repos :
  Forall (fun t => exists q, t = Script (Config := Config) q) (scripts script_of ctx repos).
Proof.
  unfold scripts. induction repos as [|p repos IH]; [done|]. cbn.
  destruct (script_of p); cbn; [|done]. constructor; eauto.
Qed.

Lemma last_reason_scripts m r :
  Forall (fun t => exists q, t = Script (Config := Config) q) m ->
  forall t, (exists q, t = Script (Config := Config) q) -> m <> [] -> last_reason (t :: m) r = SetupScript.
Proof.
  revert r. induction m as [|u m IH]; [done|]. intros r Hm t [q ->] _.
  apply Forall_cons in Hm as [Hu Hm]. destruct m as [|v m]; [by destruct Hu as [q' ->]|].
  cbn [last_reason]. by apply (IH (next_run_reason (Script q) u)).
Qed.

(** The last cleanup script of several runs as a setup script. *)
Lemma last_reason_cleanups repos config prompt dir repos' :
  settles (last_reason (agent_request repos config prompt dir :: scripts cleanup_script CtxCleanup repos') CodingAgent)
  = bool_decide (length (scripts cleanup_script CtxCleanup repos') < 2)%nat.
Proof.
  pose proof (scripts_script cleanup_script CtxCleanup repos') as Hs.
  destruct (scripts cleanup_script CtxCleanup repos') as [|t [|u m]]; [done| |].
  - apply Forall_cons in Hs as [[q ->] _]. done.
  - apply Forall_cons in Hs as [Ht Hm].
    change (last_reason (agent_request repos config prompt dir :: t :: u :: m) CodingAgent) with
      (last_reason (t :: u :: m) (next_run_reason (agent_request repos config prompt dir) t)).
    rewrite last_reason_scripts by done. rewrite bool_decide_eq_false_2; [done|cbn; lia].
Qed.

Lemma setup_scripts_nonempty repos :
  forallb parallel_setup_script (List.filter (fun p => bool_decide (is_Some (setup_script p))) repos) = false ->
  scripts setup_script CtxSetup repos <> [].
Proof.
  unfold scripts. induction repos as [|p repos IH]; [done|]. cbn. case_bool_decide as Hp; intros H.
  - destruct Hp as [x ->]. done.
  - destruct (setup_script p); [by destruct Hp; eexists|]. by apply IH.
Qed.

Lemma cut_scripts w changed l m :
  Forall (fun t => exists q, t = Script (Config := Config) q) l -> cut w changed (l ++ m) = l ++ cut w changed m.
Proof. induction 1 as [|t l [q ->] _ IH]; [done|]. cbn. by rewrite IH. Qed.

(** What follows the agent. *)
Definition cleanups w (changed : bool) repos : list (ExecutorActionType (Config := Config)) :=
  match w, changed with Here, false => [] | _, _ => scripts cleanup_script CtxCleanup repos end.

Lemma cut_agent w changed repos config prompt dir repos' :
  cut w changed (agent_request repos config prompt dir :: scripts cleanup_script CtxCleanup repos') =
  agent_request repos config prompt dir :: cleanups w changed repos'.
Proof.
  pose proof (cut_scripts w changed _ [] (scripts_script cleanup_script CtxCleanup repos')) as Hc.
  rewrite !app_nil_r in Hc. unfold cleanups. cbn [cut]. rewrite Hc. by destruct w, changed.
Qed.

Lemma last_reason_after repos config prompt dir w changed repos' :
  settles (last_reason (agent_request repos config prompt dir :: cleanups w changed repos') CodingAgent)
  = bool_decide (length (cleanups w changed repos') < 2)%nat.
Proof. unfold cleanups. destruct w, changed; try apply last_reason_cleanups; done. Qed.

Lemma workspace_run w changed outcome repos config prompt dir :
  (forall a t n, smooth changed t (outcome a t n)) ->
  let events := run_workspace w outcome repos config prompt dir in
  omap ran events = scripts setup_script CtxSetup repos
                      ++ agent_request repos config prompt dir :: cleanups w changed repos /\
  boundaries events = if decide (length (cleanups w changed repos) < 2)%nat then 1%nat else 0%nat.
Proof.
  intros Ho. cbv zeta. unfold run_workspace, start_workspace. fold (agent_request repos config prompt dir).
  set (agent := Action (agent_request repos config prompt dir) (cleanup_actions_for_repos repos)).
  destruct (forallb _ _) eqn:Hp.
  - rewrite fmap_app, concat_app, omap_app. unfold boundaries. rewrite List.filter_app, length_app.
    destruct (parallel_setups_run w changed outcome
      (List.filter (fun p => bool_decide (is_Some (setup_script p))) repos) Ho) as [-> Hb].
    unfold boundaries in Hb. rewrite Hb, scripts_with_script. cbn [fmap list_fmap concat fst snd].
    rewrite app_nil_r, (smooth_ran w changed) by done.
    fold (boundaries (run_chain (exit_at w) (outcome agent) 0 agent CodingAgent)).
    rewrite (smooth_boundaries w changed) by done. unfold agent at 1 2. rewrite chain_agent, cut_agent, last_reason_after.
    split; [done|]. by case_bool_decide; case_decide.
  - pose proof (setup_scripts_nonempty repos Hp) as Hne.
    pose proof (scripts_script setup_script CtxSetup repos) as Hss.
    set (whole := build_sequential_setup_chain _ agent).
    assert (chain whole = scripts setup_script CtxSetup repos
                            ++ agent_request repos config prompt dir :: scripts cleanup_script CtxCleanup repos) as Hch.
    { unfold whole, agent. by rewrite chain_setup, chain_agent, scripts_with_script. }
    assert (fits (typ whole) SetupScript) as Hfits.
    { destruct whole as [t next]. cbn in Hch. destruct (scripts setup_script CtxSetup repos) as [|u l]; [done|].
      apply Forall_cons in Hss as [[q ->] _]. by injection Hch as -> _. }
    cbn [fmap list_fmap concat fst snd]. rewrite app_nil_r, (smooth_ran w changed), (smooth_boundaries w changed) by done.
    rewrite Hch, cut_scripts, cut_agent by done. rewrite last_reason_agent; [|done|done].
    rewrite last_reason_after. split; [done|]. by case_bool_decide; case_decide.
Qed.

(** ** Resuming after a restart *)

Lemma resumed_not_again (p : Interrupted (Config := Config)) a :
  resume_interrupted_coding_agent p = Some a -> executor_config_for_auto_resume a = None.
Proof.
  unfold resume_interrupted_coding_agent. destruct (executor_config_for_auto_resume (i_action p)); [|done].
  destruct (i_gone p), (i_agent_session p); try done. intros [= <-]. vm_compute. done.
Qed.

Lemma resume_fresh (l : list (Interrupted (Config := Config))) seen s a :
  (s, a) ∈ resume_from seen l -> s ∉ seen /\ executor_config_for_auto_resume a = None /\
    exists p, p ∈ l /\ i_session p = s /\ i_reason p = CodingAgent /\ resume_interrupted_coding_agent p = Some a.
Proof.
  revert seen. induction l as [|p l IH]; intros seen; cbn; [by intros ?%elem_of_nil|].
  assert (forall seen', (s, a) ∈ resume_from seen' l -> seen ⊆ seen' -> s ∉ seen /\
    executor_config_for_auto_resume a = None /\ exists q, q ∈ p :: l /\ i_session q = s /\
    i_reason q = CodingAgent /\ resume_interrupted_coding_agent q = Some a) as Hmore.
  { intros seen' [Hs (Ha & q & Hq & Hrest)]%IH Hsub. split; [set_solver|]. split; [done|].
    exists q. split; [by right|done]. }
  case_decide as Hr; [by intros ?%Hmore|]. case_decide as Hin; [by intros ?%Hmore|].
  destruct (resume_interrupted_coding_agent p) as [b|] eqn:Hb.
  - intros [[= -> ->]|H]%elem_of_cons; [|apply (Hmore _ H); set_solver].
    split; [done|]. split; [by eapply resumed_not_again|]. exists p.
    repeat split; [left|by destruct (decide (i_reason p = CodingAgent))|done].
  - intros H. apply (Hmore _ H). set_solver.
Qed.

Lemma resume_sessions_nodup (l : list (Interrupted (Config := Config))) seen : NoDup (resume_from seen l).*1.
Proof.
  revert seen. induction l as [|p l IH]; intros seen; cbn; [constructor|].
  case_decide; [done|]. case_decide; [done|].
  destruct (resume_interrupted_coding_agent p) as [b|]; [|done]. cbn. constructor; [|done].
  intros [[s a] [Heq Hin]]%list_elem_of_fmap. apply resume_fresh in Hin as [Hs _]. cbn in Heq. subst. set_solver.
Qed.

(** ** What the end of an execution leaves *)

(** What the session goes on with: the next execution, the queued message or the boundary. *)
Definition continues (e : Effect (Config := Config)) : bool :=
  match e with Start _ _ | StartFollowUp | RecordBoundary => true | _ => false end.
Definition continuations (l : list (Effect (Config := Config))) : nat := length (List.filter continues l).

Lemma continuations_app l k : continuations (l ++ k) = (continuations l + continuations k)%nat.
Proof. unfold continuations. by rewrite List.filter_app, length_app. Qed.

Implicit Types x : Ended (Config := Config).

Lemma finalize_continues x : continuations (finalize_task x) = 1%nat.
Proof. unfold finalize_task. destruct (status x); try done. by destruct (Remediation.is_remediation_trigger _ _). Qed.

Lemma restart_continues (b : bool) : continuations (if b then [ClearRestart] else []) = 0%nat.
Proof. by destruct b. Qed.

Lemma next_continues x starts :
  continuations (try_start_next_action x starts) = if decide (next_action (action x) = None) then 0%nat else 1%nat.
Proof. unfold try_start_next_action. by destruct (next_action (action x)), starts. Qed.

Lemma skip_continues x ans : continuations (skip_cleanup x ans) = 1%nat.
Proof.
  unfold skip_cleanup. destruct (queued_now ans), (taken ans), (follow_up_starts ans);
    first [apply finalize_continues | done].
Qed.

Lemma finish_continues x ans : continuations (finish_chain x ans).1 = 1%nat.
Proof.
  unfold finish_chain. destruct (taken ans) as [b|]; [|apply finalize_continues].
  destruct (should_execute_queued _ _ _), (follow_up_starts ans), b; cbn [fst];
    first [done | apply finalize_continues
          | etransitivity; [|apply finalize_continues]; done].
Qed.

(** An execution that has ended, of a kind that is not meant to stay running; a status of
    completed goes with the exit code 0. *)
Definition has_ended x : Prop :=
  status x <> ProcessRow.Running /\ (status x = ProcessRow.Completed -> exit_code x = Some 0) /\
  is_persistent (run_reason x) = false.

(** An execution that runs as a setup script and has no successor: a parallel setup script, or
    the last of several cleanup or archive scripts. *)
Definition stands_alone x : Prop := run_reason x = SetupScript /\ next_action (action x) = None.

Definition ends_in_chain x : Prop := has_ended x /\ ~ stands_alone x.

Lemma finalize_cases x :
  ends_in_chain x ->
  (status x = ProcessRow.Completed /\ next_action (action x) <> None /\ should_finalize x = false) \/
  (should_finalize x = true /\ (status x <> ProcessRow.Completed \/ next_action (action x) = None)).
Proof.
  intros [(Hr & _ & Hp) Hs]. unfold stands_alone in Hs. unfold should_finalize. rewrite Hp, (decide_False _ _ Hs).
  destruct (status x), (next_action (action x)); try done;
    first [right; split; [reflexivity|naive_solver] | left; split; [reflexivity|split; [done|reflexivity]]].
Qed.

Lemma remote_continues x ans : ends_in_chain x -> continuations (remote_exit x ans) = 1%nat.
Proof.
  intros Hx. unfold remote_exit. destruct (finalize_cases x Hx) as [(Hst & Hn & ->)|[-> Hn]].
  - by rewrite decide_True, next_continues, decide_False.
  - assert (continuations (if decide (status x = ProcessRow.Completed)
      then try_start_next_action x (next_starts ans) else []) = 0%nat) as Hfirst.
    { case_decide; [|done]. rewrite next_continues. destruct Hn; [done|]. by rewrite decide_True. }
    destruct (taken ans) as [b|];
      [destruct (remote_executes_queued x ans b), (follow_up_starts ans)|];
      rewrite ?continuations_app, Hfirst, ?finalize_continues, ?restart_continues; try done;
      unfold continuations; cbn; fold (continuations (if b then [ClearRestart] else [])); by rewrite restart_continues.
Qed.

Lemma local_continues x ans :
  ends_in_chain x ->
  (1 <= continuations (local_exit x ans) <= 2)%nat /\
  (run_reason x <> SetupScript -> run_reason x <> CleanupScript -> continuations (local_exit x ans) = 1%nat).
Proof.
  intros Hx. pose proof Hx as [(Hr & Hc & _) _]. unfold local_exit.
  assert (continuations [] = 0)%nat as Hnil by done.
  set (third := if bool_decide (run_reason x = SetupScript) && negb (should_finalize x) && _ && _ && _
                then _ else _).
  assert (continuations third <= 1)%nat as Hle by (unfold third; destruct (_ && _); cbn; lia).
  assert (run_reason x <> SetupScript \/ should_finalize x = true -> continuations third = 0)%nat as Hthird.
  { intros H. unfold third. destruct H as [H| ->]; [by rewrite bool_decide_eq_false_2|by rewrite andb_false_r]. }
  destruct (finish_chain x ans) as [effects follow_up] eqn:Hf.
  pose proof (finish_continues x ans) as Hfc. rewrite Hf in Hfc. cbn [fst] in Hfc.
  set (marks := if _ && negb follow_up then [MarkUnseen] else []).
  assert (continuations marks = 0)%nat as Hm by (unfold marks; destruct (_ && negb follow_up); done).
  destruct (finalize_cases x Hx) as [(Hst & Hn & Hsf)|[Hsf Hn]]; rewrite ?continuations_app, Hsf in *.
  - rewrite (bool_decide_eq_true_2 (status x = _)), (bool_decide_eq_true_2 (exit_code x = _)) by auto. cbn [andb orb].
    rewrite andb_false_r, Hnil.
    destruct (if decide (run_reason x = CodingAgent) then _ else true);
      rewrite ?next_continues, ?(decide_False _ _ Hn), ?skip_continues;
      (split; [lia|intros H1 _; rewrite Hthird by auto; lia]).
  - rewrite Hthird by auto. cbn [negb]. rewrite andb_true_r.
    set (go := if decide (run_reason x = CodingAgent) then _ else true).
    assert (continuations (try_start_next_action x (next_starts ans)) <= 1 /\ (run_reason x <> CleanupScript ->
      bool_decide (status x = ProcessRow.Completed) && bool_decide (exit_code x = Some 0%Z)
        || bool_decide (run_reason x = CleanupScript) && negb (bool_decide (status x = ProcessRow.Running)) = true ->
      continuations (try_start_next_action x (next_starts ans)) = 0))%nat as [Hnext Hnext0].
    { rewrite next_continues. split; [case_decide; lia|]. intros Hcl.
      rewrite (bool_decide_eq_false_2 (run_reason x = CleanupScript)) by done. cbn [andb].
      rewrite orb_false_r, andb_true_iff, !bool_decide_eq_true. intros [? _]. rewrite decide_True; naive_solver. }
    set (ok := bool_decide (status x = ProcessRow.Completed) && _ || _) in *.
    destruct ok; cbn [andb negb]; [destruct go; cbn [andb negb]|];
      rewrite ?continuations_app, ?Hnil, ?Hfc, ?Hm, ?skip_continues;
      (split; [lia|intros _ Hcl; try rewrite (Hnext0 Hcl eq_refl); lia]).
Qed.

Lemma alone_remote x ans : stands_alone x -> continuations (remote_exit x ans) = 0%nat.
Proof.
  intros [Hr Hn]. unfold remote_exit, should_finalize, try_start_next_action. rewrite Hr, Hn.
  rewrite (decide_True (P := SetupScript = SetupScript /\ None = None)) by done. cbn [is_persistent]. by case_decide.
Qed.

Lemma alone_local x ans :
  stands_alone x ->
  continuations (local_exit x ans) =
    if negb (agent_running ans) && bool_decide (is_Some (taken ans)) && follow_up_starts ans then 1%nat else 0%nat.
Proof.
  intros [Hr Hn]. unfold local_exit, should_finalize, try_start_next_action. rewrite Hr, Hn.
  rewrite (decide_True (P := SetupScript = SetupScript /\ None = None)) by done.
  rewrite (decide_False (P := SetupScript = CodingAgent)) by done.
  rewrite (bool_decide_eq_true_2 (SetupScript = SetupScript)) by done. cbn [is_persistent negb andb].
  rewrite andb_false_r, !continuations_app. destruct (_ || _), (negb (agent_running ans) && _ && _); done.
Qed.

End Facts.

(** C35: A workspace whose executions all succeed, whose next executions can all be started and
    for which no message waits runs, on this server or on a worker, the setup scripts of its
    repositories, the agent, and then the cleanup scripts, each in the order of the
    repositories and whether the setup scripts are started at once or one after the other;
    but on this server the cleanup scripts are skipped if the agent changed nothing (its
    changes were asked for and there was nothing to commit and no new commit), and on a
    worker they always run.  It ends with exactly one turn boundary if at most one cleanup
    script ran; with more of them the last runs as a setup script without successor, which
    is never finalised, so there is none. *)
Theorem workspace_runs_in_order {Config : Type} w changed
    (outcome : ExecutorAction (Config := Config) -> ExecutorActionType (Config := Config) -> nat -> Outcome)
    repos config prompt dir :
  (forall a t n, smooth changed t (outcome a t n)) ->
  let events := run_workspace w outcome repos config prompt dir in
  let cleaning := match w, changed with Here, false => [] | _, _ => scripts cleanup_script CtxCleanup repos end in
  omap ran events = scripts setup_script CtxSetup repos ++ agent_request repos config prompt dir :: cleaning /\
  boundaries events = if decide (length cleaning < 2)%nat then 1%nat else 0%nat.
Proof. exact (workspace_run w changed outcome repos config prompt dir). Qed.

(** C37: What the end of an execution leaves its session with.  Of an execution that has ended,
    however it ended (completed with exit code 0, failed, killed, interrupted,
    indeterminate), that is not of a kind that stays running and whatever the rest of the
    system answers: unless it runs as a setup script without successor, its session goes on;
    on a worker exactly one of the next execution, the queued message and the turn boundary
    follows, and on this server too unless it was a setup or a cleanup script, where there
    may be two of them.  A setup script without successor, as a parallel setup script is and
    the last of several cleanup scripts runs, leaves nothing on a worker, and on this server
    the queued message if there is one, no agent is running and it can be started. *)
Theorem ends_are_continued {Config : Type} (x : Ended (Config := Config)) ans :
  has_ended x ->
  (~ stands_alone x ->
   continuations (remote_exit x ans) = 1%nat /\
   (1 <= continuations (local_exit x ans) <= 2)%nat /\
   (run_reason x <> SetupScript -> run_reason x <> CleanupScript -> continuations (local_exit x ans) = 1%nat)) /\
  (stands_alone x ->
   continuations (remote_exit x ans) = 0%nat /\
   continuations (local_exit x ans) =
     if negb (agent_running ans) && bool_decide (is_Some (taken ans)) && follow_up_starts ans then 1%nat else 0%nat).
Proof.
  intros Hx. split; intros Hs.
  - split; [by apply remote_continues|by apply local_continues].
  - split; [by apply alone_remote|by apply alone_local].
Qed.

(** After a restart of the server each session is resumed at most once, only where a
    coding agent of it was interrupted, and what is started is such that it is not resumed
    again if the server restarts once more before it ends. *)
Theorem resumed_once {Config : Type} (l : list (Interrupted (Config := Config))) :
  NoDup (resume_from ∅ l).*1 /\
  forall s a, (s, a) ∈ resume_from ∅ l ->
    executor_config_for_auto_resume a = None /\
    exists p, p ∈ l /\ i_session p = s /\ i_reason p = CodingAgent /\ resume_interrupted_coding_agent p = Some a.
Proof.
  split; [apply resume_sessions_nodup|]. intros s a H. by apply resume_fresh in H as (_ & ? & ?).
Qed.

Module SampleChains.

Definition repo (name : string) (setup cleanup archive : option string) (parallel : bool) : Repo :=
  {| repo_name := name; display_name := name; setup_script := setup; cleanup_script := cleanup;
     archive_script := archive; parallel_setup_script := parallel; default_working_dir := None |}.

Definition web := repo "web" (Some "npm ci") (Some "npm run lint") (Some "rm -r node_modules") false.
Definition api := repo "api" (Some "cargo fetch") (Some "cargo fmt") (Some "cargo clean") false.
Definition docs := repo "docs" None None None true.

Definition quiet : Answers :=
  {| committed := Ok true; has_commits := true; next_starts := true; queued_now := false; taken := None;
     follow_up_starts := true; workspace_mcp_restart := false; agent_running := false |}.
Definition fine : Outcome := {| o_status := ProcessRow.Completed; o_exit := Some 0%Z; o_answers := quiet |}.

(** An agent that changes nothing. *)
Definition idle : Outcome :=
  {| o_status := ProcessRow.Completed; o_exit := Some 0%Z;
     o_answers := {| committed := Ok false; has_commits := false; next_starts := true; queued_now := false; taken := None;
                     follow_up_starts := true; workspace_mcp_restart := false; agent_running := false |} |}.

Lemma runs_in_order_witness :
  (let events := run_workspace Here (fun _ _ _ => fine) [web; docs] tt "Fix it" None in
   omap ran events = scripts setup_script CtxSetup [web; docs]
     ++ agent_request [web; docs] tt "Fix it" None :: scripts cleanup_script CtxCleanup [web; docs] /\
   boundaries events = 1%nat) /\
  (let events := run_workspace Here (fun _ _ _ => idle) [web; docs] tt "Fix it" None in
   omap ran events = scripts setup_script CtxSetup [web; docs] ++ [agent_request [web; docs] tt "Fix it" None] /\
   boundaries events = 1%nat).
Proof.
  split.
  - apply (workspace_runs_in_order Here true (fun _ _ _ => fine) [web; docs] tt "Fix it" None). by intros _ t _.
  - apply (workspace_runs_in_order Here false (fun _ _ _ => idle) [web; docs] tt "Fix it" None). by intros _ t _.
Defined.

(** With two cleanup scripts the turn never ends. *)
Example second_cleanup_is_not_finalised :
  let events := run_workspace Here (fun _ _ _ => fine) [web; api] tt "Fix it" None in
  boundaries events = 0%nat /\
  last events = Some (Ran (Script {| script := "cargo fmt"; context := CtxCleanup; working_dir := Some "api" |}) SetupScript).
Proof. vm_compute. split; reflexivity. Qed.

(** The second archive script activates the workspace that is being archived. *)
Example second_archive_script_activates :
  match archive_actions_for_repos (Config := unit) [web; api] with
  | Some a =>
      omap (fun e => match e with Ran _ r => Some (r, activates r) | Did _ => None end)
        (run_chain local_exit (fun _ _ => fine) 0 a ArchiveScript) = [(ArchiveScript, false); (SetupScript, true)]
  | None => False
  end.
Proof. vm_compute. reflexivity. Qed.

Definition lint : ExecutorActionType (Config := unit) :=
  Script {| script := "npm run lint"; context := CtxCleanup; working_dir := Some "web" |}.
Definition fmt : ExecutorActionType (Config := unit) :=
  Script {| script := "cargo fmt"; context := CtxCleanup; working_dir := Some "api" |}.
Definition ended next reason st code : Ended (Config := unit) :=
  {| action := Action lint next; run_reason := reason; status := st; exit_code := code |}.

Lemma continued_witness :
  let x := ended None CleanupScript ProcessRow.Killed None in
  has_ended x /\ ~ stands_alone x /\ continuations (remote_exit x quiet) = 1%nat.
Proof.
  set (x := ended None CleanupScript ProcessRow.Killed None).
  assert (has_ended x) as Hx by (split; [discriminate|]; split; [discriminate|]; reflexivity).
  assert (~ stands_alone x) as Ha by (intros [? _]; discriminate).
  split; [exact Hx|]. split; [exact Ha|].
  exact (proj1 (proj1 (ends_are_continued x quiet Hx) Ha)).
Defined.

(** A failed cleanup script with a successor starts it and ends the turn as well. *)
Example failed_cleanup_goes_on :
  local_exit (ended (Some (Action fmt None)) CleanupScript ProcessRow.Failed (Some 1%Z)) quiet
  = [Start (Action fmt None) SetupScript; RecordBoundary; WakeDispatcher; Notify false].
Proof. vm_compute. reflexivity. Qed.

Definition waiting : Answers :=
  {| committed := Ok true; has_commits := true; next_starts := true; queued_now := true; taken := Some false;
     follow_up_starts := true; workspace_mcp_restart := false; agent_running := false |}.

(** A message that waits while setup scripts run one after the other starts after the first
    of them, beside the second. *)
Example queued_overtakes_setup :
  local_exit (ended (Some (Action fmt None)) SetupScript ProcessRow.Completed (Some 0%Z)) waiting
  = [Start (Action fmt None) SetupScript; StartFollowUp].
Proof. vm_compute. reflexivity. Qed.

(** On a worker a message that waits for the last parallel setup script is not started. *)
Example worker_leaves_message_waiting :
  local_exit (ended None SetupScript ProcessRow.Completed (Some 0%Z)) waiting = [StartFollowUp] /\
  remote_exit (ended None SetupScript ProcessRow.Completed (Some 0%Z)) waiting = [].
Proof. vm_compute. split; reflexivity. Qed.

End SampleChains.
